(* ===== verification/_CoqProject ===== *)
-Q . S2P
Prelude.v
Errors.v
Digits.v
Types.v
Connections.v
ConnectionTree.v
SyncProjection.v
SyncPull.v
SyncStore.v
SyncApply.v
SyncDemo.v
SyncSafety.v
SyncPages.v
SyncRun.v
SyncResolve.v
SyncScheduler.v
SyncCycle.v
Coordinator.v
PreparedPlans.v
SqlText.v
TableSql.v
SchemaTypes.v
SqliteText.v
SqliteDriver.v
RedisDriver.v
RedisSafety.v
RedisKeys.v
SchemaDiff.v
SchemaUpdate.v
TableDesign.v
MysqlDesign.v
PostgresDesign.v
OracleDesign.v
Framing.v
ClickHouseSql.v
ClickHouseTypes.v
ClickHouseTypeText.v
ClickHouseValues.v
ClickHouseFormat.v
SqlAnalysis.v
SqlGateway.v
KeyValueGateway.v
Artifact.v
RuntimeTables.v
ConnectionRaces.v
ManagedSql.v
ManagedRuns.v
