(* ===== verification/Prelude.v ===== *)
(** * NexusPilot backend: a verified model of its SQL path and of its synchronisation

    NexusPilot is a desktop database workbench.  Its Rust backend
    ([src/src-tauri/src]) runs SQL from two sources: the user, in the workbench's tabs,
    and an AI runtime, whose requests come in over a bridge and have to be analysed,
    approved and run at most once.  It also keeps the user's connections and, when the
    user has enabled it, synchronises them, encrypted, between the user's devices.  This
    library models the part of that backend that decides which SQL runs, how often, on
    which target, with which text, and what is kept of its results, and the part that
    keeps and synchronises connections.

    ** Parts and files

    - [Prelude.v] (this file): results and a state-and-error monad, characters and
      texts, machine-width arithmetic, the tactics and the hint database.
    - [Errors.v], [Types.v]: [error.rs] and the data of [engine/types.rs].  JSON numbers
      belong to the [serde_json] crate and are an interface, [JsonNumber].
    - [Connections.v], [ConnectionTree.v]: [repository/connection_repository.rs],
      [connection_folder_repository.rs] and [connection_tree_repository.rs].  The state
      is the two tables by primary key; an SQL statement is a function of them with the
      constraints of the migrations written out.
    - [SyncProjection.v]: [cloud/sync_projection.rs] and the merge of local paths: what
      of a connection or folder leaves the machine and what comes back.
    - [SyncPull.v], [SyncPages.v]: [cloud/sync_pull.rs], the asset encryption of
      [cloud/sync_crypto.rs] and the records of [cloud/types.rs].  The cipher, Base64,
      UUIDs, SHA-256 and [serde_json] are the interface [SyncCodec]; the laws a theorem
      needs of them are its hypotheses, and [SyncDemo.v] is an instance that satisfies
      them, for the witnesses.
    - [SyncStore.v]: [repository/cloud_sync_repository.rs]; the tables of
      synchronisation, with the two local tables, are one record [SyncDb].
    - [SyncApply.v]: [cloud/sync_apply.rs]: staging a pull, ordering it and applying it
      in one transaction, change by change, with its conflicts.  [SyncSafety.v] holds the
      theorems about it.
    - [SyncRun.v]: the reconciliation and the flush of [cloud/sync_coordinator.rs] with
      [cloud/sync_upload.rs]: an operation for every difference, and sending them.
    - [SyncResolve.v]: [cloud/sync_management.rs]: the list of conflicts, the three
      decisions on one, the local files a pulled connection still needs.
    - [SyncCycle.v]: [run] and [run_execution] of [cloud/sync_coordinator.rs]: the
      entitlements of the account, the binding of the key, the bounded loop that fetches
      pages with the repair of assets, and what follows the pull.
    - [SyncScheduler.v]: [cloud/sync_scheduler.rs]: handlers of events and the
      [execute] task, whose awaits are steps that interleave with everything else.
    - [Coordinator.v]: [engine/sql_execution/mod.rs].  One entry per tab with the
      snapshot of its execution; the state is the table behind its lock (with the
      poisoned state of that lock), the store of cancellation channels and the log of
      published snapshots.  Every public operation is a definition of the same name.
    - [PreparedPlans.v]: [ai_runtime/backend_bridge/prepared_plans.rs], the registry of
      plans that were analysed and wait for approval.
    - [SqlText.v]: the statement scanners of [engine/drivers/common.rs] shared by the
      drivers.
    - [TableSql.v]: table browsing and table changes of the same file: quoting,
      literals, the parameterised browse query, page statistics, row locators, the
      validation and the preview of a change set.  Quoting is an interface,
      [IdentifierQuoting], which the PostgreSQL and MySQL functions implement.
    - [SchemaTypes.v], [SchemaDiff.v]: the table design data of [engine/types.rs] and
      [engine/drivers/common/schema_diff.rs], which compares the table a user started
      from with the one wanted.  [SchemaUpdate.v] reads a diff as a change of a table
      and proves what the computation promises.
    - [TableDesign.v], [MysqlDesign.v], [PostgresDesign.v], [OracleDesign.v]: the table
      designers of [drivers/mysql], [drivers/postgres] and [drivers/oracle] ([ddl.rs]
      and the table operations of [mod.rs]): the statements of a diff, previews,
      confirmations and the running of the script.  The server is a state with an
      operation that executes a statement; reading the table back is a parameter.
    - [SqliteDriver.v]: [engine/drivers/sqlite.rs]: profile checks, column metadata,
      browsing, change sets, the transactions of a tab and the SQL editor.  The engine is
      an interface: a content, statements that change it and queries of it.
      [SqliteText.v] states SQLite's own lexical rules, to say what one statement is.
    - [RedisDriver.v], [RedisKeys.v]: [engine/drivers/redis.rs] and [redis_validate.rs]:
      reading, the five guarded changes of a key, the key tree, scanning and deletion by
      pattern.  What a key holds and how it is written are the interface [RedisEngine];
      the commands on keys, watches and transactions follow their documentation.
      [RedisSafety.v] holds the theorems on changes.
    - [Framing.v]: [frame_single_statement] of [ai_runtime/backend_bridge/sql.rs], the
      scanner that accepts one statement per request in five dialects, and a lexical
      grammar of those dialects to state what it accepts.
    - [ClickHouseSql.v]: [engine/drivers/clickhouse/query]: classification, execution
      policies, grid dispatch and paging, summary merging.  The HTTP executor is an
      interface, [SqlQueryExecutor].
    - [SqlAnalysis.v]: the rest of [backend_bridge/sql.rs], request checks and the
      per-driver risk analysis.
    - [SqlGateway.v]: the [sql.analyze], [sql.execute] and clean-up operations of
      [backend_bridge/operations.rs] with the services they call.  Its state is the plan
      registry and the log of statements handed to a driver; what a call finds outside
      (profiles, runtimes, drivers, clock, UUIDs) is the [World] it runs in, and
      [serde_json] is the interface [SqlSerde] with the laws [SqlSerdeLaws].
    - [KeyValueGateway.v]: the [key_value.*] operations of the same file with their
      requests in [contracts.rs].  Its state adds to that of [SqlGateway] the Redis
      servers of the profiles and the log of changes handed to a driver.
    - [Artifact.v]: [engine/sql_execution/artifact.rs] and the raw execution loop of
      [clickhouse/query/raw.rs].  The state is the artifact table and the files; the
      file-system calls that fail are an argument, so every error path can run.
    - [Digits.v]: decimal texts of integers, shared by the ClickHouse files.
    - [ClickHouseTypes.v], [ClickHouseTypeText.v]: [clickhouse/query/types.rs], the parser
      of the type names in result headers, and the server's notation for types.
    - [ClickHouseValues.v]: [clickhouse/query/values.rs], the normalisation of column values
      and its budget.  Numbers and serialization are the interface [ValueSerde].
    - [ClickHouseFormat.v]: [clickhouse/query/format.rs] and the read loop of
      [clickhouse/query/mod.rs]: frames from a stream of chunks, limits, paging, shutdown.
    - [RuntimeTables.v]: the tables of [engine/manager.rs] (shared and tab runtimes,
      connection attempts) and [engine/runtime_health.rs].  [connect_profile],
      [open_tab_runtime], [disconnect_profile] and [close_tab_runtime] are tasks with a
      state after each locked section; [step] runs one section of one task, so all
      interleavings are runs.  [ConnectionRaces.v] holds the theorems about them.
    - [ManagedSql.v]: [start_sql_execution] with the run it spawns, cancelling, saving,
      releasing and shutting down, as tasks over the coordinator, the artifact store and
      the tables, interleaved with the connection tasks.  The driver's executor is a
      choice of the run under one contract: a raw outcome names the artifact it finished.
      [ManagedRuns.v] holds the theorems about them.

    The parts interact as in the program: the gateway analyses a text ([SqlAnalysis]
    over [Framing] and [ClickHouseSql]), stores it in the registry ([PreparedPlans]) and
    later runs it; a designer reads the table back, computes the diff and runs its
    statements; the manager connects drivers and runs the statements of tabs under the
    coordinator; raw results go to the artifact store.  The scheduler starts a run when
    something changed and nothing else runs; a run pulls pages ([SyncPull]), stages and
    applies them ([SyncApply]) and sends what differs ([SyncRun]), all over the tables of
    [SyncStore] and [Connections], and stops when its guard says so.

    ** What the theorems show

    - Gateway and plans: every statement that reaches a driver was analysed before, in
      the same context, and has the analysed text, target and page; a plan runs at most
      once; a read-only profile runs only statements that carry the evidence of a read;
      what the user approves is what is stored; errors report truthfully whether
      something was started.  A change of a Redis key was prepared before, in the same
      context, for the value the key held then; a plan is carried out at most once, by one
      operation; what the execution of a change reports is true of the server.
    - Framing and analysis: an accepted text is one statement, lexeme by lexeme; a read
      verdict and the absence of write effects are earned by the words of the statement;
      unbounded writes are critical; the scans are total.
    - Coordinator: each operation refines a small abstract machine; the invariant of
      reachable states; lifecycles only advance; the first completion wins;
      cancellation and discarding reach exactly the executions they name.
    - Tables: browse queries never put values into the text and bind them in order;
      change-set statements are single statements; keys are whole primary keys; literals
      and identifiers read back.
    - Table design: carrying out a diff on the baseline gives the target; an empty diff
      means that nothing differs; a diff that is not called destructive keeps every
      column, type and constraint; an accepted update satisfies the designers' rules.
      What a driver runs without a confirmation drops no data, the server is reached
      only when the table is still the baseline, and the preview shows what would run.
    - ClickHouse: a grid query reaches the server exactly when it is admissible, with
      the window of the page; its class follows from the operation word; merging
      summaries loses nothing.  Types are read back from the server's notation; integers and
      decimals are normalised exactly; normalised values fit their budget and type; the
      decoder's result does not depend on how the response is cut into chunks; the columns
      delivered are those of the header lines, and every row has them.
    - Artifacts: a raw execution delivers exactly the bytes of the stream or leaves
      nothing behind; completed artifacts never change; releases are exact; saves are
      atomic and stay outside the store; the table is always well formed.
    - Connections: every driver is in exactly one place; only the current attempt
      registers its runtime; a disconnect or a closed tab leaves no runtime of an earlier
      attempt; superseded attempts are told; statements are routed to live drivers of
      their profile; health is a function of the pings.
    - Managed executions: every run was checked before; no artifact is orphaned, whatever
      interleaves and whichever file-system calls fail; the runs refine those of the
      connection tasks, so the theorems on connections hold among them.

    - Stored connections: whatever commands create, edit, move and delete, one after
      another, the folders stay a tree and no command hangs; the check of a move refuses
      exactly the cycles.  Commands that overlap and pulls can close a cycle.
    - Synchronisation: no path of a local file leaves the machine, and a pulled
      connection is projected back to what was sent; a ciphertext opens only as the asset,
      revision and key generation it was made for; the cursors of accepted pages form a
      chain; staged folders are applied parents first; a pull is applied whole or not at
      all, and each staged change is applied, kept as a conflict or already known; what
      was changed here is not overwritten but kept in a conflict (an edit of a connection
      that waits for a local file is the exception); every difference gets
      an operation and every operation that is sent is settled as the server answered.
      The loop over pages applies all pages or none and a pull cut short is continued;
      keeping the local version uploads it, keeping the cloud version takes it; naming a
      local file is not an edit.
    - SQLite: a transaction of a tab is all or nothing, and holds the statements of the
      operations that were issued in it; the statements that a change set runs are those
      of its preview; a read-only connection runs only single statements that read, for
      texts that SQLite and the scanner of the guard read alike.
    - Redis: a change that is reported took effect at one instant, on exactly the value
      it was made for, whatever other clients do meanwhile; a change that is refused had
      no effect; the key tree has every key once and counts are right; a deletion by
      pattern deletes what matches and nothing else.
    - Scheduling: runs, and whoever suspends them, exclude each other, and a run that a
      later change has outdated never starts; the guard refuses a run that was paused,
      revoked or whose account changed from its next question on, and a run that was
      refused writes nothing any more.

    ** Modelling conventions

    Text is a list of code points ([str]); where the source works on bytes, [as_bytes]
    is the UTF-8 encoding.  Machine integers are [Z] with the checked, saturating or
    bounded operation the source uses written out.  A Rust loop over an index that is
    not structural takes fuel; the fuel is the number of characters or bytes left (plus
    one where the loop takes a last turn), and [framing_terminates],
    [sql_scanners_terminate] and [token_scan_total] show that it is never the reason to
    stop.  The type parser's fuel is the length of the text ([parse_type_total]), a value
    walk's is the allowed depth plus two, and the frame loop's the bytes left.  [start] draws at most sixteen UUIDs, as the source does.  [HashMap]s are
    finite maps; where the source iterates over one, the theorem does not depend on the
    order.  An async operation is the sequence of its effects.  In [RuntimeTables] and
    [ManagedSql] each locked section is one step of its task and the steps of all tasks
    interleave; elsewhere an operation runs its sections in order and the theorems on
    histories quantify over the sequences of operations.
    An SQLite transaction happens at once or not at all; a failure of SQLite inside it is
    the argument [io].  Statements outside a transaction run one after the other, and what
    can come between two of them is stated where it matters
    ([concurrent_moves_make_a_cycle]).  The guard of a synchronisation run is a function of
    how often it was asked; the server is a function from requests to answers.  The walk of
    [follow_parents] has fuel for every folder and two more turns, [order_folders] for
    every folder and one more; both are shown to be enough.
    A Redis command is one step of the server; before each of them the other clients write
    what they like ([Turn]), and the command can fail before or after it took effect.  The
    loop over [SCAN] has no bound in the source and takes fuel, which is enough when the
    iteration of the server ends ([pattern_deletion_is_exact]).
    The bytes that a buffered writer holds are kept with the artifact until it is
    flushed; what a file holds before that is not stated anywhere.

    ** Not modelled, and the plan

    Tauri commands, the network and database clients, key chains and the TypeScript parts
    are outside: they are I/O around these decisions.  The methods of the manager that only
    find a driver and pass a request on are covered by [driver_for_profile_or_tab].  Of the
    drivers, the catalogue queries and row decoding of MySQL, PostgreSQL and Oracle and
    the object trees are not modelled.  Of synchronisation, the HTTP client, the set-up
    and recovery of keys and device authorisations are not.  Next, in this order: saved queries; deep-link routing and sessions
    ([deep_link/router.rs], [auth/callback.rs], [auth/session.rs]); transactions of MySQL
    and PostgreSQL; the ClickHouse designer. *)

From stdpp Require Import base gmap list strings fin_maps.
From Stdlib Require Import ZArith Lia Ascii.

(** ** The [Result] type and its monad *)

Inductive Result (E A : Type) : Type :=
| Ok (a : A)
| Err (e : E).
Arguments Ok {E A} a.
Arguments Err {E A} e.

#[export] Instance Result_ret {E} : MRet (Result E) := fun A a => Ok a.
#[export] Instance Result_bind {E} : MBind (Result E) :=
  fun A B f m => match m with Ok a => f a | Err e => Err e end.

Definition is_ok {E A} (r : Result E A) : bool :=
  match r with Ok _ => true | Err _ => false end.

(** [Option::ok_or_else]. *)
Definition ok_or {E A} (e : E) (o : option A) : Result E A :=
  match o with Some a => Ok a | None => Err e end.

(** [iter().map(f).collect::<Result<Vec<_>, _>>()]: stops at the first error. *)
Fixpoint try_map {E A B} (f : A -> Result E B) (l : list A) : Result E (list B) :=
  match l with
  | [] => Ok []
  | x :: l' => y ← f x; ys ← try_map f l'; Ok (y :: ys)
  end.

(** A [for] loop whose body may return early with an error. *)
Fixpoint try_fold {E A S} (f : S -> A -> Result E S) (s : S) (l : list A) : Result E S :=
  match l with
  | [] => Ok s
  | x :: l' => s' ← f s x; try_fold f s' l'
  end.

(** A [while cond { body }] loop.  Out of fuel the loop stops where it is; every
    use comes with a theorem that the fuel it is given lets it run to the end. *)
Fixpoint while_loop {E S} (fuel : nat) (cond : S -> bool) (body : S -> Result E S) (s : S)
  : Result E S :=
  match fuel with
  | O => Ok s
  | S n => if cond s then s' ← body s; while_loop n cond body s' else Ok s
  end.

(** ** Shared mutable state

    A method on shared state returns a [Result] and leaves the state it mutated
    behind also when it fails: state and error are threaded independently. *)

Definition ST (S E A : Type) : Type := S -> Result E A * S.

#[export] Instance ST_ret {S E} : MRet (ST S E) := fun A a s => (Ok a, s).
#[export] Instance ST_bind {S E} : MBind (ST S E) :=
  fun A B f m s =>
    match m s with
    | (Ok a, s') => f a s'
    | (Err e, s') => (Err e, s')
    end.

Definition st_get {S E} : ST S E S := fun s => (Ok s, s).
Definition st_put {S E} (s' : S) : ST S E unit := fun _ => (Ok tt, s').
Definition st_modify {S E} (f : S -> S) : ST S E unit := fun s => (Ok tt, f s).
Definition st_run {S E A} (f : S -> A * S) : ST S E A := fun s => let (a, s') := f s in (Ok a, s').
Definition st_lift {S E A} (r : Result E A) : ST S E A := fun s => (r, s).

(** A [for] loop over effectful steps, left at the first error. *)
Fixpoint st_iter {S E A} (f : A -> ST S E unit) (l : list A) : ST S E unit :=
  match l with
  | [] => mret tt
  | x :: l' => f x ≫= fun _ => st_iter f l'
  end.

(** What a run of a stateful computation promises: [Q] of the value and the state it
    leaves when it returns, and [bad] of no error. *)
Definition st_wp {S E A} (bad : E -> Prop) (m : ST S E A) (s : S) (Q : A -> S -> Prop) : Prop :=
  match m s with
  | (Ok a, s') => Q a s'
  | (Err e, _) => ~ bad e
  end.

Lemma st_wp_bind {S E A B} (bad : E -> Prop) (m : ST S E A) (f : A -> ST S E B) s Q :
  st_wp bad m s (fun a s' => st_wp bad (f a) s' Q) -> st_wp bad (m ≫= f) s Q.
Proof. unfold st_wp, mbind, ST_bind. destruct (m s) as [[a|e] s']; done. Qed.

Lemma st_wp_mono {S E A} (bad : E -> Prop) (m : ST S E A) s (Q Q' : A -> S -> Prop) :
  st_wp bad m s Q -> (forall a s', Q a s' -> Q' a s') -> st_wp bad m s Q'.
Proof. unfold st_wp. destruct (m s) as [[a|e] s']; auto. Qed.

Lemma st_wp_ret {S E A} (bad : E -> Prop) (a : A) (s : S) (Q : A -> S -> Prop) :
  Q a s -> st_wp bad (mret a) s Q.
Proof. done. Qed.

Lemma st_wp_lift {S E A} (bad : E -> Prop) (r : Result E A) (s : S) (Q : A -> S -> Prop) :
  match r with Ok a => Q a s | Err e => ~ bad e end -> st_wp bad (st_lift r) s Q.
Proof. by destruct r. Qed.

(** ** Text

    A Rust [char] is its code point, a [str] the list of its characters and a
    byte slice the list of its bytes; all three are lists of [Z]. *)

Abbreviation str := (list Z).

Abbreviation c_tab := 9%Z.
Abbreviation c_nl := 10%Z.
Abbreviation c_cr := 13%Z.
Abbreviation c_space := 32%Z.
Abbreviation c_bang := 33%Z.
Abbreviation c_dquote := 34%Z.
Abbreviation c_hash := 35%Z.
Abbreviation c_dollar := 36%Z.
Abbreviation c_squote := 39%Z.
Abbreviation c_lparen := 40%Z.
Abbreviation c_rparen := 41%Z.
Abbreviation c_star := 42%Z.
Abbreviation c_comma := 44%Z.
Abbreviation c_minus := 45%Z.
Abbreviation c_dot := 46%Z.
Abbreviation c_slash := 47%Z.
Abbreviation c_semi := 59%Z.
Abbreviation c_at := 64%Z.
Abbreviation c_lbracket := 91%Z.
Abbreviation c_bslash := 92%Z.
Abbreviation c_rbracket := 93%Z.
Abbreviation c_underscore := 95%Z.
Abbreviation c_backtick := 96%Z.

Definition is_ascii_upper (c : Z) : bool := (65 <=? c)%Z && (c <=? 90)%Z.
Definition is_ascii_lower (c : Z) : bool := (97 <=? c)%Z && (c <=? 122)%Z.
Definition is_ascii_alphabetic (c : Z) : bool := is_ascii_upper c || is_ascii_lower c.
Definition is_ascii_digit (c : Z) : bool := (48 <=? c)%Z && (c <=? 57)%Z.
Definition is_ascii_alphanumeric (c : Z) : bool := is_ascii_alphabetic c || is_ascii_digit c.

(** [u8::is_ascii_whitespace]: space, tab, line feed, form feed, carriage return
    (not the vertical tab). *)
Definition is_ascii_whitespace (c : Z) : bool :=
  (c =? 32)%Z || (c =? 9)%Z || (c =? 10)%Z || (c =? 12)%Z || (c =? 13)%Z.

(** [char::is_whitespace]: the Unicode [White_Space] property. *)
Definition is_whitespace (c : Z) : bool :=
  ((9 <=? c) && (c <=? 13))%Z || (c =? 32)%Z || (c =? 133)%Z || (c =? 160)%Z
  || (c =? 5760)%Z || ((8192 <=? c) && (c <=? 8202))%Z || (c =? 8232)%Z
  || (c =? 8233)%Z || (c =? 8239)%Z || (c =? 8287)%Z || (c =? 12288)%Z.

Definition to_ascii_uppercase (c : Z) : Z :=
  if is_ascii_lower c then (c - 32)%Z else c.

(** [char::eq_ignore_ascii_case]. *)
Definition eq_ignore_ascii_case (a b : Z) : bool :=
  (to_ascii_uppercase a =? to_ascii_uppercase b)%Z.

Definition str_upper (s : str) : str := map to_ascii_uppercase s.

(** [str::to_ascii_lowercase]. *)
Definition str_lower (s : str) : str := map (fun c => if is_ascii_upper c then (c + 32)%Z else c) s.

(** *** UTF-8 *)

Definition utf8_encode_char (c : Z) : list Z :=
  if (c <? 128)%Z then [c]
  else if (c <? 2048)%Z then
    [Z.lor 192 (Z.shiftr c 6); Z.lor 128 (Z.land c 63)]
  else if (c <? 65536)%Z then
    [Z.lor 224 (Z.shiftr c 12); Z.lor 128 (Z.land (Z.shiftr c 6) 63); Z.lor 128 (Z.land c 63)]
  else
    [Z.lor 240 (Z.shiftr c 18); Z.lor 128 (Z.land (Z.shiftr c 12) 63);
     Z.lor 128 (Z.land (Z.shiftr c 6) 63); Z.lor 128 (Z.land c 63)].

(** [str::as_bytes]. *)
Definition as_bytes (s : str) : list Z := flat_map utf8_encode_char s.

(** Source-text literals are written as Rocq strings (UTF-8 bytes) and decoded. *)
Fixpoint utf8_decode (bs : list Z) : str :=
  match bs with
  | [] => []
  | b0 :: r0 =>
    if (b0 <? 128)%Z then b0 :: utf8_decode r0
    else match r0 with
    | [] => []
    | b1 :: r1 =>
      if (b0 <? 224)%Z then
        (Z.lor (Z.shiftl (Z.land b0 31) 6) (Z.land b1 63)) :: utf8_decode r1
      else match r1 with
      | [] => []
      | b2 :: r2 =>
        if (b0 <? 240)%Z then
          (Z.lor (Z.shiftl (Z.land b0 15) 12)
             (Z.lor (Z.shiftl (Z.land b1 63) 6) (Z.land b2 63))) :: utf8_decode r2
        else match r2 with
        | [] => []
        | b3 :: r3 =>
          (Z.lor (Z.shiftl (Z.land b0 7) 18)
            (Z.lor (Z.shiftl (Z.land b1 63) 12)
              (Z.lor (Z.shiftl (Z.land b2 63) 6) (Z.land b3 63)))) :: utf8_decode r3
        end
      end
    end
  end.

Fixpoint string_bytes (s : string) : list Z :=
  match s with
  | EmptyString => []
  | String a s' => Z.of_N (N_of_ascii a) :: string_bytes s'
  end.

Definition lit (s : string) : str := utf8_decode (string_bytes s).
Arguments lit : simpl never.

Definition str_eqb (a b : str) : bool := bool_decide (a = b).

(** [matches!(w, "A" | "B" | ...)] *)
Definition one_of (w : str) (ks : list string) : bool :=
  existsb (fun k => str_eqb w (lit k)) ks.

(** [iter().any(|word| word == candidate)]. *)
Definition contains_word (ws : list str) (k : string) : bool :=
  existsb (fun w => str_eqb w (lit k)) ws.

(** *** [str] methods *)

Fixpoint trim_start (s : str) : str :=
  match s with
  | [] => []
  | c :: s' => if is_whitespace c then trim_start s' else s
  end.

Definition trim_end (s : str) : str := rev (trim_start (rev s)).
Definition trim (s : str) : str := trim_end (trim_start s).

(** [strip_prefix]. *)
Fixpoint strip_prefix (p s : str) : option str :=
  match p, s with
  | [], _ => Some s
  | _ :: _, [] => None
  | a :: p', b :: s' => if (a =? b)%Z then strip_prefix p' s' else None
  end.

Definition starts_with (p s : str) : bool :=
  match strip_prefix p s with Some _ => true | None => false end.

(** [s.find(p)] followed by slicing: the text before the first occurrence and
    the text after it. *)
Fixpoint split_at_first (p s : str) : option (str * str) :=
  match strip_prefix p s with
  | Some r => Some ([], r)
  | None =>
    match s with
    | [] => None
    | c :: s' =>
      match split_at_first p s' with
      | Some (a, b) => Some (c :: a, b)
      | None => None
      end
    end
  end.

Definition str_contains (p s : str) : bool :=
  match split_at_first p s with Some _ => true | None => false end.

(** [s.replace(c, by)] for a one-character pattern. *)
Definition replace_char (c : Z) (by_ : str) (s : str) : str :=
  flat_map (fun x => if (x =? c)%Z then by_ else [x]) s.

(** [str::split] on a character. *)
Fixpoint split_char (c : Z) (s : str) : list str :=
  match s with
  | [] => [[]]
  | x :: s' =>
    if (x =? c)%Z then [] :: split_char c s'
    else match split_char c s' with
         | p :: ps => (x :: p) :: ps
         | [] => [[x]]
         end
  end.

(** [slice.join(sep)]. *)
Fixpoint join (sep : str) (l : list str) : str :=
  match l with
  | [] => []
  | [x] => x
  | x :: l' => x ++ sep ++ join sep l'
  end.

(** ** Machine integers *)

Definition U32_MAX : Z := 4294967295.
Definition U64_MAX : Z := 18446744073709551615.
Definition I64_MAX : Z := 9223372036854775807.

Definition checked_add_u64 (a b : Z) : option Z :=
  if (a + b <=? U64_MAX)%Z then Some (a + b)%Z else None.
Definition checked_mul_u64 (a b : Z) : option Z :=
  if (a * b <=? U64_MAX)%Z then Some (a * b)%Z else None.
Definition saturating_add (max a b : Z) : Z := Z.min max (a + b).
Definition saturating_sub (a b : Z) : Z := Z.max 0 (a - b).

(** Decimal rendering ([to_string] on integers). *)
Fixpoint dec_digits (fuel : nat) (n : Z) (acc : str) : str :=
  match fuel with
  | O => acc
  | S f =>
    let acc' := (48 + n mod 10)%Z :: acc in
    if (n <? 10)%Z then acc' else dec_digits f (n / 10) acc'
  end.

(** Twenty digits hold every 64-bit integer; the fuel is the bit length, which
    bounds the number of decimal digits. *)
Definition nat_to_dec (n : Z) : str := dec_digits (S (Z.to_nat (Z.log2 n))) n [].
Definition to_dec (n : Z) : str :=
  if (n <? 0)%Z then c_minus :: nat_to_dec (- n) else nat_to_dec n.

(** ** Automation *)

Create HintDb nexus.

Lemma ok_or_Ok {E A} (e : E) (o : option A) a : ok_or e o = Ok a -> o = Some a.
Proof. destruct o; simpl; [by intros [= ->]|done]. Qed.

Lemma Ok_inj {E A} (a b : A) : @Ok E A a = Ok b -> a = b.
Proof. by intros [= ->]. Qed.

(** Splits every hypothesis that a monadic computation returned [Ok]. *)
Ltac bind_inv :=
  repeat match goal with
  | H : mbind _ ?m = Ok _ |- _ =>
      let E := fresh "E" in
      destruct m eqn:E; cbn [mbind Result_bind] in H; [|discriminate H]
  | H : Ok _ = Ok _ |- _ => apply Ok_inj in H
  | H : Err _ = Ok _ |- _ => discriminate H
  | H : Ok _ = Err _ |- _ => discriminate H
  end.

(** Case analysis on the tests of a hypothesis. *)
Ltac case_ifs H :=
  repeat match type of H with
  | context [if ?b then _ else _] => let E := fresh "E" in destruct b eqn:E
  end.

(** Turns boolean facts into propositions. *)
Ltac breflect :=
  repeat match goal with
  | H : _ && _ = true |- _ => apply andb_true_iff in H as [? ?]
  | H : _ || _ = false |- _ => apply orb_false_iff in H as [? ?]
  | H : negb _ = true |- _ => apply negb_true_iff in H
  | H : negb _ = false |- _ => apply negb_false_iff in H
  | H : bool_decide _ = true |- _ => apply bool_decide_eq_true in H
  | H : bool_decide _ = false |- _ => apply bool_decide_eq_false in H
  end.

(** ** Generic lemmas *)

Lemma try_map_Ok {E A B} (f : A -> Result E B) l l' :
  try_map f l = Ok l' <-> Forall2 (fun x y => f x = Ok y) l l'.
Proof.
  revert l'. induction l as [|x l IH]; intros l'; simpl.
  - split; [intros [= <-]; constructor | by inversion 1].
  - split.
    + intros H. bind_inv. subst. constructor; [done|]. by apply IH.
    + inversion 1 as [|? y ? ys Hy Hys]; subst. rewrite Hy. simpl.
      by rewrite (proj2 (IH ys) Hys).
Qed.

Lemma NoDup_omap_inj {A B} (g : A -> option B) l : NoDup l ->
  (forall x y b, x ∈ l -> y ∈ l -> g x = Some b -> g y = Some b -> x = y) -> NoDup (omap g l).
Proof.
  induction 1 as [|a l Ha Hl IH]; intros Hi; [constructor|]. simpl.
  destruct (g a) as [b|] eqn:E; [|apply IH; intros x y b Hx Hy; apply Hi; set_solver].
  constructor; [|apply IH; intros x y b' Hx Hy; apply Hi; set_solver].
  intros (y & Hy & Hg)%list_elem_of_omap. apply Ha. rewrite (Hi a y b); [done|set_solver..|done|done].
Qed.

Lemma try_map_length {E A B} (f : A -> Result E B) l l' :
  try_map f l = Ok l' -> length l' = length l.
Proof. intros H%try_map_Ok. symmetry. by eapply Forall2_length. Qed.

Lemma try_fold_inv {E A S} (I : S -> list A -> Prop) (f : S -> A -> Result E S) l s s' :
  (forall s x l s', I s (x :: l) -> f s x = Ok s' -> I s' l) ->
  I s l -> try_fold f s l = Ok s' -> I s' [].
Proof.
  intros Hstep. revert s. induction l as [|x l IH]; intros s HI H; simpl in H.
  - by injection H as <-.
  - bind_inv. eauto.
Qed.

(** Boolean and decidable filters agree. *)
Lemma filter_bool {A} (f : A -> bool) (P : A -> Prop) `{!forall x, Decision (P x)} (l : list A) :
  (forall x, f x = bool_decide (P x)) -> List.filter f l = filter P l.
Proof.
  intros Hf. induction l as [|x l IH]; [done|].
  simpl. rewrite Hf, IH, filter_cons. by case_bool_decide; case_decide.
Qed.

(** Counting the entries of a map that satisfy a test, in any iteration order. *)
Lemma size_map_filter `{Countable K} {A} (f : K * A -> bool) (P : K * A -> Prop)
    `{!forall x, Decision (P x)} (m : gmap K A) l :
  (forall x, f x = bool_decide (P x)) -> l ≡ₚ map_to_list m ->
  length (List.filter f l) = size (filter P m).
Proof.
  intros Hf Hl. rewrite (filter_bool f P) by done. rewrite Hl, <-length_map_to_list, map_filter_alt.
  apply Permutation_length. symmetry. apply map_to_list_to_map.
  pose proof (NoDup_fst_map_to_list m) as Hn. revert Hn. generalize (map_to_list m).
  clear. induction l as [|x l IH]; [done|]. rewrite filter_cons. simpl.
  intros [Hx Hn]%NoDup_cons. case_decide; [|by apply IH]. simpl. constructor; [|by apply IH].
  contradict Hx. rewrite list_elem_of_fmap in Hx |- *. destruct Hx as (y & -> & Hy).
  apply list_elem_of_filter in Hy as [_ Hy]. eauto.
Qed.

(** *** Prefixes and first occurrences *)

Lemma strip_prefix_app p s r : strip_prefix p s = Some r -> s = p ++ r.
Proof.
  revert s. induction p as [|a p IH]; intros s; simpl; [by intros [= ->]|].
  destruct s as [|b s]; [done|]. destruct (Z.eqb_spec a b); [|done].
  intros H%IH. by subst.
Qed.

Lemma strip_prefix_length p s r : strip_prefix p s = Some r -> length s = length p + length r.
Proof. intros ->%strip_prefix_app. apply length_app. Qed.

Lemma split_at_first_app p s a b : split_at_first p s = Some (a, b) -> s = a ++ p ++ b.
Proof.
  revert a b. induction s as [|c s IH]; intros a b.
  - cbn [split_at_first]. destruct (strip_prefix p []) eqn:E; [|done]. intros [= <- <-].
    exact (strip_prefix_app _ _ _ E).
  - cbn [split_at_first]. destruct (strip_prefix p (c :: s)) as [r|] eqn:E.
    + intros [= <- <-]. exact (strip_prefix_app _ _ _ E).
    + destruct (split_at_first p s) as [[a' b']|]; [|done]. intros [= <- <-].
      simpl. f_equal. by apply IH.
Qed.

Lemma split_at_first_length p s a b :
  split_at_first p s = Some (a, b) -> length s = length a + length p + length b.
Proof. intros ->%split_at_first_app. rewrite !length_app. lia. Qed.

Lemma strip_prefix_same p s : strip_prefix p (p ++ s) = Some s.
Proof. induction p as [|c p IH]; simpl; [done|]. by rewrite Z.eqb_refl. Qed.

Lemma contains_middle p a b : str_contains p (a ++ p ++ b) = true.
Proof.
  unfold str_contains. induction a as [|c a IH].
  - simpl. destruct (p ++ b) eqn:E; simpl; rewrite <-?E, strip_prefix_same; [done|]. done.
  - simpl. destruct (strip_prefix p (c :: a ++ p ++ b)); [done|].
    by destruct (split_at_first p (a ++ p ++ b)) as [[? ?]|].
Qed.

Lemma trim_start_length s : length (trim_start s) <= length s.
Proof. induction s as [|c s IH]; simpl; [done|]. case_match; simpl; lia. Qed.

Lemma trim_start_idemp s : trim_start (trim_start s) = trim_start s.
Proof. induction s as [|c s IH]; simpl; [done|]. destruct (is_whitespace c) eqn:E; [done|]. simpl. by rewrite E. Qed.

Lemma trim_start_suffix s : exists p, s = p ++ trim_start s.
Proof.
  induction s as [|c s [p IH]]; [by exists []|]. simpl. destruct (is_whitespace c); [|by exists []].
  exists (c :: p). simpl. by f_equal.
Qed.

Lemma trim_end_prefix s : exists p, s = trim_end s ++ p.
Proof.
  destruct (trim_start_suffix (rev s)) as [p Hp]. exists (rev p). unfold trim_end.
  by rewrite <-rev_app_distr, <-Hp, rev_involutive.
Qed.

Lemma trim_trim s : trim (trim s) = trim s.
Proof.
  unfold trim at 1. assert (trim_start (trim s) = trim s) as ->.
  - unfold trim. destruct (trim_end_prefix (trim_start s)) as [p Hp].
    pose proof (trim_start_idemp s) as Hi. revert Hp Hi. generalize (trim_start s). intros u Hp Hi.
    destruct (trim_end u) as [|c w]; [done|]. subst u. simpl in *. destruct (is_whitespace c); [|done].
    apply (f_equal length) in Hi. simpl in Hi. pose proof (trim_start_length (w ++ p)). lia.
  - unfold trim, trim_end at 1. unfold trim_end. by rewrite rev_involutive, trim_start_idemp.
Qed.

(** Reading past a known stretch of a text. *)
Lemma drop_take_app {A} (l x r : list A) i :
  drop i l = x ++ r ->
  drop (i + length x) l = r /\ take (i + length x) l = take i l ++ x.
Proof.
  intros H. split.
  - by rewrite <-drop_drop, H, drop_app_length.
  - by rewrite <-take_take_drop, H, take_app_length.
Qed.

Section while_loop.
Context {E S : Type} (cond : S -> bool) (body : S -> Result E S).

Lemma while_loop_inv (I : S -> Prop) fuel s s' :
  (forall s s', I s -> cond s = true -> body s = Ok s' -> I s') ->
  I s -> while_loop fuel cond body s = Ok s' -> I s'.
Proof.
  intros Hstep. revert s. induction fuel as [|n IH]; simpl; intros s HI H.
  - by injection H as <-.
  - destruct (cond s) eqn:Hc; [|by injection H as <-].
    bind_inv. eauto.
Qed.

Variable m : S -> nat.
Hypothesis m_decr : forall s s', cond s = true -> body s = Ok s' -> m s' < m s.

(** With fuel for the measure, the loop stops only because its condition fails. *)
Lemma while_loop_done fuel s s' :
  m s <= fuel -> while_loop fuel cond body s = Ok s' ->
  cond s' = false \/ m s' = 0.
Proof.
  revert s. induction fuel as [|n IH]; simpl; intros s Hm H.
  - injection H as <-. lia.
  - destruct (cond s) eqn:Hc; [|left; by injection H as <-].
    bind_inv. eapply IH; [|done]. specialize (m_decr _ _ Hc E0). lia.
Qed.

(** More fuel than the measure changes nothing. *)
Lemma while_loop_fuel fuel s :
  m s < fuel -> while_loop fuel cond body s = while_loop (Datatypes.S (m s)) cond body s.
Proof.
  revert s. induction fuel as [fuel IH] using lt_wf_ind; intros s Hm.
  destruct fuel as [|n]; [lia|]. simpl.
  destruct (cond s) eqn:Hc; [|done].
  destruct (body s) as [s1|e] eqn:Hb; simpl; [|done].
  specialize (m_decr _ _ Hc Hb).
  transitivity (while_loop (Datatypes.S (m s1)) cond body s1);
    [|symmetry]; apply IH; lia.
Qed.
End while_loop.
