(* ===== verification/Errors.v ===== *)
(** * IPC errors ([src-tauri/src/error.rs])

    The error code, the effect of a failure on the owning runtime session and the
    error shell sent to the frontend, with one constructor function per code. *)

From stdpp Require Import base list strings.
From S2P Require Import Prelude.

Inductive ErrorCode :=
| AuthFailed
| NetworkTimeout
| OperationTimeout
| OperationOutcomeUnknown
| QuerySyntaxError
| ResourceNotFound
| ValidationFailed
| ResourceConflict
| FeatureUnavailable
| PermissionDenied
| SystemInternal
| OperationCanceled.

Inductive RuntimeErrorImpact :=
| BusinessOnly
| Retryable
| Terminal.

#[export] Instance ErrorCode_eq_dec : EqDecision ErrorCode.
Proof. solve_decision. Defined.
#[export] Instance RuntimeErrorImpact_eq_dec : EqDecision RuntimeErrorImpact.
Proof. solve_decision. Defined.

Record IpcError := mkIpcError {
  code : ErrorCode;
  runtime_impact : RuntimeErrorImpact;
  message : str;
  details : option str;
}.

Definition auth_failed (m d : str) : IpcError :=
  mkIpcError AuthFailed Terminal m (Some d).
Definition network_timeout (m d : str) : IpcError :=
  mkIpcError NetworkTimeout Retryable m (Some d).
Definition operation_timeout (m d : str) : IpcError :=
  mkIpcError OperationTimeout BusinessOnly m (Some d).
Definition operation_outcome_unknown (m d : str) : IpcError :=
  mkIpcError OperationOutcomeUnknown Retryable m (Some d).
Definition query_syntax (m d : str) : IpcError :=
  mkIpcError QuerySyntaxError BusinessOnly m (Some d).
Definition resource_not_found (m : str) : IpcError :=
  mkIpcError ResourceNotFound BusinessOnly m None.
Definition validation_failed (m : str) : IpcError :=
  mkIpcError ValidationFailed BusinessOnly m None.
Definition resource_conflict (m : str) : IpcError :=
  mkIpcError ResourceConflict BusinessOnly m None.
Definition feature_unavailable (m : str) : IpcError :=
  mkIpcError FeatureUnavailable BusinessOnly m None.
Definition permission_denied (m : str) : IpcError :=
  mkIpcError PermissionDenied BusinessOnly m None.
Definition system_internal (m d : str) : IpcError :=
  mkIpcError SystemInternal BusinessOnly m (Some d).
Definition operation_canceled (m d : str) : IpcError :=
  mkIpcError OperationCanceled BusinessOnly m (Some d).

Abbreviation IpcResult := (Result IpcError).
