(* ===== verification/Digits.v ===== *)
(** * Decimal text

    The value of a run of decimal digits, hexadecimal text, the integer parsers of the standard library
    that the sources use, and the fact that rendering an integer and reading it back
    gives the integer. *)

From stdpp Require Import base list.
From Stdlib Require Import ZArith Lia.
From S2P Require Import Prelude.

(** The value of a text of digits, most significant first. *)
Definition digits_value (s : str) : Z := fold_left (fun a c => (a * 10 + (c - 48))%Z) s 0%Z.

Definition all_digits (s : str) : bool := forallb is_ascii_digit s.

(** [str::parse] for an unsigned integer type with maximum [max]: an optional plus
    sign, then digits. *)
Definition parse_uint (max : Z) (s : str) : option Z :=
  let digits := match strip_prefix [43%Z] s with Some d => d | None => s end in
  if bool_decide (digits <> []) && all_digits digits && (digits_value digits <=? max)%Z
  then Some (digits_value digits) else None.

(** The same for a signed type with bounds [min] and [max]. *)
Definition parse_int (min max : Z) (s : str) : option Z :=
  match strip_prefix [c_minus] s with
  | Some digits =>
    if bool_decide (digits <> []) && all_digits digits && (min <=? - digits_value digits)%Z
    then Some (- digits_value digits)%Z else None
  | None => parse_uint max s
  end.

(** [format!("{:02x}")] of a byte, and of each byte of a text. *)
Definition hex_digit (n : Z) : Z := if (n <? 10)%Z then (48 + n)%Z else (87 + n)%Z.
Definition hex_byte (b : Z) : str := [hex_digit (b / 16); hex_digit (b mod 16)].
Definition lower_hex (bytes : list Z) : str := flat_map hex_byte bytes.

Lemma digits_value_from s a :
  fold_left (fun a c => (a * 10 + (c - 48))%Z) s a = (a * 10 ^ Z.of_nat (length s) + digits_value s)%Z.
Proof.
  unfold digits_value. revert a. induction s as [|c s IH]; intros a; [simpl; lia|].
  cbn [fold_left length]. rewrite IH, (IH (0 * 10 + (c - 48))%Z), Nat2Z.inj_succ, Z.pow_succ_r by lia. lia.
Qed.

Lemma digits_value_app s t : digits_value (s ++ t) = (digits_value s * 10 ^ Z.of_nat (length t) + digits_value t)%Z.
Proof. unfold digits_value at 1. by rewrite fold_left_app, digits_value_from. Qed.

Lemma digits_value_cons c s : digits_value (c :: s) = ((c - 48) * 10 ^ Z.of_nat (length s) + digits_value s)%Z.
Proof. change (c :: s) with ([c] ++ s). by rewrite digits_value_app. Qed.

Lemma all_digits_cons c s : all_digits (c :: s) = is_ascii_digit c && all_digits s.
Proof. done. Qed.

Lemma all_digits_app s t : all_digits (s ++ t) = all_digits s && all_digits t.
Proof. apply forallb_app. Qed.

Lemma is_ascii_digit_range c : is_ascii_digit c = true -> (0 <= c - 48 <= 9)%Z.
Proof. unfold is_ascii_digit. lia. Qed.

Lemma digits_value_bounds s : all_digits s = true -> (0 <= digits_value s < 10 ^ Z.of_nat (length s))%Z.
Proof.
  induction s as [|c s IH]; [unfold digits_value; simpl; lia|]. rewrite all_digits_cons, digits_value_cons.
  intros [Hc%is_ascii_digit_range Hs]%andb_true_iff. specialize (IH Hs).
  cbn [length]. rewrite Nat2Z.inj_succ, Z.pow_succ_r by lia. nia.
Qed.

(** Rendered digits: never empty, no leading zero but for zero itself. *)
Record renders (n : Z) (ds : str) : Prop := {
  rn_digits : all_digits ds = true;
  rn_value : digits_value ds = n;
  rn_head : exists c r, ds = c :: r /\ (n <> 0 -> c <> 48)%Z /\ (n = 0 -> ds = [48])%Z;
}.

Lemma dec_digits_spec fuel n acc :
  (0 <= n < 10 ^ Z.of_nat fuel)%Z -> fuel <> 0 -> exists ds, dec_digits fuel n acc = ds ++ acc /\ renders n ds.
Proof.
  revert n acc. induction fuel as [|fuel IH]; intros n acc Hn Hf; [done|]. cbn [dec_digits].
  assert (Hd : forall m, (0 <= m < 10)%Z -> is_ascii_digit (48 + m) = true) by (intros; unfold is_ascii_digit; lia).
  destruct (Z.ltb_spec n 10) as [Hlt|Hge].
  - exists [(48 + n mod 10)%Z]. split; [done|]. rewrite Z.mod_small by lia. split.
    + cbn [all_digits forallb]. rewrite (Hd n) by lia. done.
    + unfold digits_value. simpl. lia.
    + eexists _, _. split; [done|]. split; [lia|]. by intros ->.
  - rewrite Nat2Z.inj_succ, Z.pow_succ_r in Hn by lia.
    pose proof (Z.div_mod n 10 ltac:(lia)) as Hdm. pose proof (Z.mod_pos_bound n 10 ltac:(lia)) as Hmb.
    destruct (IH (n / 10)%Z ((48 + n mod 10)%Z :: acc)) as (ds & -> & [H1 H2 (c & r & -> & H3 & _)]).
    + split; [apply Z.div_pos; lia|]. apply Z.div_lt_upper_bound; lia.
    + intros ->. simpl in Hn. lia.
    + exists ((c :: r) ++ [(48 + n mod 10)%Z]). split; [by rewrite <-app_assoc|]. split.
      * rewrite all_digits_app, H1. cbn [all_digits forallb]. rewrite (Hd (n mod 10)%Z) by lia. done.
      * rewrite digits_value_app, H2. unfold digits_value. simpl length. simpl fold_left.
        change (10 ^ Z.of_nat 1)%Z with 10%Z. lia.
      * exists c, (r ++ [(48 + n mod 10)%Z]). split; [done|]. split; [|lia]. intros _. apply H3.
        assert (1 <= n / 10)%Z by (apply Z.div_le_lower_bound; lia). lia.
Qed.

Lemma nat_to_dec_spec n : (0 <= n)%Z -> renders n (nat_to_dec n).
Proof.
  intros Hn. unfold nat_to_dec. destruct (dec_digits_spec (S (Z.to_nat (Z.log2 n))) n []) as (ds & -> & H); [|done|].
  - split; [done|]. rewrite Nat2Z.inj_succ, Z2Nat.id by apply Z.log2_nonneg.
    destruct (Z.eq_dec n 0) as [->|]; [done|]. pose proof (Z.log2_spec n ltac:(lia)) as [_ Hl].
    eapply Z.lt_le_trans; [exact Hl|]. apply Z.pow_le_mono_l. lia.
  - by rewrite app_nil_r.
Qed.

(** Two digit texts without leading zeros and of the same value are equal. *)
Lemma digits_value_inj s t :
  all_digits s = true -> all_digits t = true -> length s = length t -> digits_value s = digits_value t -> s = t.
Proof.
  revert t. induction s as [|c s IH]; intros [|d t]; try done. rewrite !all_digits_cons, !digits_value_cons.
  intros [Hc Hs]%andb_true_iff [Hd Ht]%andb_true_iff [= Hl] Hv. rewrite Hl in Hv.
  apply is_ascii_digit_range in Hc, Hd. pose proof (digits_value_bounds s Hs) as Bs.
  pose proof (digits_value_bounds t Ht) as Bt. rewrite Hl in Bs.
  set (p := (10 ^ Z.of_nat (length t))%Z) in *.
  assert (c - 48 = d - 48)%Z by nia. replace c with d by lia. f_equal. apply IH; try done.
  replace (c - 48)%Z with (d - 48)%Z in Hv by lia. lia.
Qed.

(** Rendered digits have exactly as many digits as the number needs. *)
Lemma renders_bounds n ds :
  renders n ds -> (0 <= n)%Z /\ (n <> 0 -> 10 ^ (Z.of_nat (length ds) - 1) <= n)%Z /\ (n < 10 ^ Z.of_nat (length ds))%Z.
Proof.
  intros [Hd Hv (c & r & -> & Hc & _)]. pose proof (digits_value_bounds _ Hd) as Hb. rewrite Hv in Hb.
  split_and!; try lia. intros Hn. rewrite digits_value_cons in Hv. rewrite all_digits_cons in Hd.
  apply andb_true_iff in Hd as [Hd1%is_ascii_digit_range Hd2%digits_value_bounds]. specialize (Hc Hn).
  cbn [length]. replace (Z.of_nat (S (length r)) - 1)%Z with (Z.of_nat (length r)) by lia. nia.
Qed.

Lemma renders_length n ds m es :
  renders n ds -> renders m es -> length ds < length es -> (n < m)%Z.
Proof.
  intros Hn Hm Hl. destruct (renders_bounds _ _ Hn) as (Hn0 & _ & Hn2). destruct (renders_bounds _ _ Hm) as (Hm0 & Hm1 & _).
  assert (Hne : (m <> 0)%Z).
  { intros ->. destruct Hm as [_ _ (c & r & _ & _ & E)]. rewrite E in Hl by done. simpl in Hl.
    destruct Hn as [_ _ (d & r' & -> & _)]. simpl in Hl. lia. }
  specialize (Hm1 Hne). eapply Z.lt_le_trans; [exact Hn2|]. etrans; [|exact Hm1]. apply Z.pow_le_mono_r; lia.
Qed.

Lemma renders_unique n ds es : renders n ds -> renders n es -> ds = es.
Proof.
  intros H1 H2. apply digits_value_inj; [apply H1|apply H2| |by rewrite (rn_value _ _ H1), (rn_value _ _ H2)].
  destruct (lt_eq_lt_dec (length ds) (length es)) as [[Hl|]|Hl]; [|done|];
    [pose proof (renders_length _ _ _ _ H1 H2 Hl)|pose proof (renders_length _ _ _ _ H2 H1 Hl)]; lia.
Qed.

Lemma renders_nat_to_dec n ds : renders n ds -> nat_to_dec n = ds.
Proof. intros H. eapply renders_unique; [|exact H]. apply nat_to_dec_spec. by destruct (renders_bounds _ _ H). Qed.

Lemma to_dec_renders n : (0 <= n)%Z -> renders n (to_dec n).
Proof. intros Hn. unfold to_dec. destruct (Z.ltb_spec n 0); [lia|]. by apply nat_to_dec_spec. Qed.
