(* ===== verification/Types.v ===== *)
(** * Engine data types ([src-tauri/src/engine/types.rs])

    The values the drivers, the execution coordinator and the table editor
    exchange.  JSON numbers come from the [serde_json] crate: they are an
    interface, [JsonNumber], of which the source uses four methods. *)

From stdpp Require Import base list strings.
From Stdlib Require Import ZArith.
From S2P Require Import Prelude Errors.

(** ** JSON *)

(** [serde_json::Number] and the [f64] it may hold, through the methods the
    source calls on them. *)
Class JsonNumber := {
  Number : Type;
  F64 : Type;
  as_i64 : Number -> option Z;
  as_u64 : Number -> option Z;
  as_f64 : Number -> option F64;
  f64_is_finite : F64 -> bool;
  f64_to_string : F64 -> str;
}.

Inductive Value `{J : JsonNumber} :=
| VNull
| VBool (b : bool)
| VNumber (n : Number)
| VString (s : str)
| VArray (l : list Value)
| VObject (fields : list (str * Value)).

(** *** Objects

    [serde_json::Map], a [BTreeMap] here: the fields in the order of their keys. *)

(** [str::cmp]: the bytes of UTF-8 compare as the code points do. *)
Fixpoint str_compare (a b : str) : comparison :=
  match a, b with
  | [], [] => Eq
  | [], _ => Lt
  | _, [] => Gt
  | x :: a', y :: b' => match (x ?= y)%Z with Eq => str_compare a' b' | o => o end
  end.

Section objects.
Context {J : JsonNumber}.
Implicit Types (fields : list (str * Value)).

Fixpoint map_get (k : str) fields : option Value :=
  match fields with
  | [] => None
  | (k', v) :: fields' => if str_eqb k k' then Some v else map_get k fields'
  end.

Fixpoint map_insert (k : str) (v : Value) fields : list (str * Value) :=
  match fields with
  | [] => [(k, v)]
  | (k', v') :: fields' =>
    match str_compare k k' with
    | Eq => (k, v) :: fields'
    | Lt => (k, v) :: fields
    | Gt => (k', v') :: map_insert k v fields'
    end
  end.

Fixpoint map_remove (k : str) fields : option (Value * list (str * Value)) :=
  match fields with
  | [] => None
  | (k', v) :: fields' =>
    if str_eqb k k' then Some (v, fields')
    else match map_remove k fields' with Some (v', rest) => Some (v', (k', v) :: rest) | None => None end
  end.

(** [collect::<Map<_, _>>()] *)
Definition map_collect (l : list (str * Value)) : list (str * Value) :=
  fold_left (fun m e => map_insert e.1 e.2 m) l [].

Lemma str_compare_eq a b : str_compare a b = Eq -> a = b.
Proof.
  revert b. induction a as [|x a IH]; intros [|y b]; simpl; try done.
  destruct (Z.compare_spec x y) as [-> | |]; try done. by intros ->%IH.
Qed.

Lemma str_compare_refl a : str_compare a a = Eq.
Proof. induction a as [|x a IH]; simpl; [done|]. by rewrite Z.compare_refl. Qed.

Lemma str_eqb_refl a : str_eqb a a = true.
Proof. by apply bool_decide_true. Qed.

Lemma map_get_insert k v fields : map_get k (map_insert k v fields) = Some v.
Proof.
  induction fields as [|[k' v'] fields IH]; simpl; [by rewrite str_eqb_refl|].
  destruct (str_compare k k') eqn:H; simpl; [by rewrite str_eqb_refl..|].
  unfold str_eqb. rewrite bool_decide_false; [done|]. intros ->. by rewrite str_compare_refl in H.
Qed.

Lemma map_get_insert_ne k k' v fields : k <> k' -> map_get k (map_insert k' v fields) = map_get k fields.
Proof.
  intros Hk. assert (str_eqb k k' = false) as Hkk by (by apply bool_decide_false).
  induction fields as [|[k0 v0] fields IH]; simpl; [by rewrite Hkk|].
  destruct (str_compare k' k0) eqn:H; simpl; [|by rewrite Hkk|by rewrite IH].
  apply str_compare_eq in H as <-. by rewrite Hkk.
Qed.
End objects.

(** ** Columns *)

Inductive ColumnDataCategory :=
| CatString | CatNumber | CatBoolean | CatDate | CatTime | CatDatetime | CatJson
| CatStructured | CatEnum | CatBinary | CatUuid | CatUnknown.

Record ColumnMeta := mkColumnMeta {
  cm_name : str;
  cm_type_name : str;
  cm_nullable : bool;
  cm_default_value : option str;
  cm_data_category : ColumnDataCategory;
  cm_max_length : option Z;
  cm_numeric_precision : option Z;
  cm_numeric_scale : option Z;
  cm_enum_values : option (list str);
  cm_is_primary_key : bool;
  cm_primary_key_ordinal : option Z;
  cm_is_unique : bool;
  cm_is_writable : bool;
}.

Definition readonly_query_column (name type_name : str) (nullable : bool) : ColumnMeta :=
  mkColumnMeta name type_name nullable None CatUnknown None None None None
    false None false false.

(** ** SQL execution *)

Record SqlExecutionContext := mkSqlExecutionContext {
  sec_database : option str;
  sec_schema : option str;
}.

Inductive SqlExecutionState :=
| Queued | Starting | Running | Canceling
| Succeeded | Failed | TimedOut | Canceled | CancelFailed.

Inductive SqlStatementClass :=
| ClsRead | ClsDdl | ClsInsert | ClsDelete | ClsMutation | ClsSystem | ClsCommand
| ClsUnknown.

Inductive SqlResultMode := Grid | Raw.

#[export] Instance SqlExecutionState_eq_dec : EqDecision SqlExecutionState.
Proof. solve_decision. Defined.
#[export] Instance SqlStatementClass_eq_dec : EqDecision SqlStatementClass.
Proof. solve_decision. Defined.
#[export] Instance SqlResultMode_eq_dec : EqDecision SqlResultMode.
Proof. solve_decision. Defined.

Inductive SqlStatementAccess := AccessReadOnly | AccessDirect.

#[export] Instance SqlStatementAccess_eq_dec : EqDecision SqlStatementAccess.
Proof. solve_decision. Defined.

Record SqlExecutionFeatures := mkSqlExecutionFeatures {
  managed_lifecycle : bool;
  statement_access : SqlStatementAccess;
  active_cancel : bool;
  live_progress : bool;
  query_summary : bool;
  raw_result : bool;
  configurable_timeout : bool;
}.

Record SqlExecutionOptions := mkSqlExecutionOptions {
  result_mode : SqlResultMode;
  timeout_ms : option Z;
  page : Z;
  options_page_size : Z;
}.

Inductive SqlSummarySource := LivePoll | ResponseHeader | ClientObserved | Merged.
Inductive SqlSummaryCompleteness := SumPartial | SumFinal | SumUnknown.

Record SqlExecutionSummary := mkSqlExecutionSummary {
  read_rows : option Z;
  read_bytes : option Z;
  written_rows : option Z;
  written_bytes : option Z;
  total_rows_to_read : option Z;
  result_rows : option Z;
  result_bytes : option Z;
  elapsed_ns : option Z;
  memory_usage : option Z;
  sum_source : SqlSummarySource;
  sum_completeness : SqlSummaryCompleteness;
}.

Record SqlExecutionFailure := mkSqlExecutionFailure {
  sf_code : ErrorCode;
  sf_runtime_impact : RuntimeErrorImpact;
  sf_message : str;
  sf_details : option str;
}.

(** [impl From<IpcError> for SqlExecutionFailure]. *)
Definition SqlExecutionFailure_from (e : IpcError) : SqlExecutionFailure :=
  mkSqlExecutionFailure (code e) (runtime_impact e) (message e) (details e).

Inductive TableRowLocatorStrategy := LocPrimaryKey | LocRowSnapshot.

Record QueryResult `{J : JsonNumber} := mkQueryResult {
  qr_columns : list ColumnMeta;
  qr_rows : list (list Value);
  qr_affected_rows : option Z;
  qr_has_next_page : bool;
  qr_source_writable : bool;
  qr_source_insertable : bool;
  qr_primary_key_columns : list str;
  qr_stable_order_columns : list str;
  qr_row_locator_strategy : option TableRowLocatorStrategy;
}.
Arguments mkQueryResult {J}.

Inductive SqlExecutionOutcome `{J : JsonNumber} :=
| OutRows (result : QueryResult)
| OutCommand (statement_class : SqlStatementClass) (completion_message : str)
    (summary : option SqlExecutionSummary) (mutation_submitted : bool)
| OutRaw (format : option str) (media_type : str) (byte_length : Z) (preview : str)
    (preview_truncated : bool) (artifact_id : str).

Record SqlExecutionSnapshot `{J : JsonNumber} := mkSqlExecutionSnapshot {
  execution_id : str;
  query_id : str;
  tab_id : str;
  state : SqlExecutionState;
  revision : Z;
  statement_class : SqlStatementClass;
  started_at : Z;
  finished_at : option Z;
  progress_available : bool;
  summary : option SqlExecutionSummary;
  outcome : option SqlExecutionOutcome;
  failure : option SqlExecutionFailure;
  cancel_message : option str;
  observation_warnings : list str;
}.
Arguments mkSqlExecutionSnapshot {J}.

(** ** Table browsing *)

Inductive TableBrowseFilterOperator := OpEq | OpNotEq | OpGt | OpGte | OpLt | OpLte
| OpIsNull | OpIsNotNull.

#[export] Instance TableBrowseFilterOperator_eq_dec : EqDecision TableBrowseFilterOperator.
Proof. solve_decision. Defined.

Record TableBrowseFilter `{J : JsonNumber} := mkTableBrowseFilter {
  f_column : str;
  f_operator : TableBrowseFilterOperator;
  f_value : option Value;
}.
Arguments mkTableBrowseFilter {J}.

Inductive TableBrowseSortDirection := Asc | Desc.

Record TableBrowseSort := mkTableBrowseSort {
  s_column : str;
  s_direction : TableBrowseSortDirection;
}.

Record TableBrowseQuery `{J : JsonNumber} := mkTableBrowseQuery {
  filters : list TableBrowseFilter;
  sort : list TableBrowseSort;
}.
Arguments mkTableBrowseQuery {J}.

Record TablePageStats := mkTablePageStats {
  total_rows : Z;
  total_pages : Z;
  page_size : Z;
}.

(** ** Table changes *)

Inductive ContainerKind :=
| AssetGroup | Database | Schema | Table | View | MaterializedView | Function_
| Procedure | Trigger | Index | Dictionary | Projection | Sequence | Extension | Event
| Column | Collection | Document | Field_ | NodeLabel | RelationshipType
| VectorCollection | Partition | SearchIndex | DataStream | MappingField
| RedisDatabase | RedisKeyPrefix | RedisKey.

#[export] Instance ContainerKind_eq_dec : EqDecision ContainerKind.
Proof. solve_decision. Defined.

Record TableRowKeyPart `{J : JsonNumber} := mkTableRowKeyPart {
  kp_column : str;
  kp_value : Value;
}.
Arguments mkTableRowKeyPart {J}.

Inductive TableRowLocator `{J : JsonNumber} :=
| PrimaryKey (parts : list TableRowKeyPart)
| RowSnapshot (parts : list TableRowKeyPart) (expected_matches : Z).

Definition primary_key_parts `{J : JsonNumber} (l : TableRowLocator)
  : option (list TableRowKeyPart) :=
  match l with
  | PrimaryKey parts => Some parts
  | RowSnapshot _ _ => None
  end.

Record TableCellChange `{J : JsonNumber} := mkTableCellChange {
  cc_column : str;
  cc_value : Value;
}.
Arguments mkTableCellChange {J}.

Record TableChangeSetUpdate `{J : JsonNumber} := mkTableChangeSetUpdate {
  u_locator : TableRowLocator;
  u_changes : list TableCellChange;
}.
Arguments mkTableChangeSetUpdate {J}.

Record TableChangeSetInsert `{J : JsonNumber} := mkTableChangeSetInsert {
  i_values : list TableCellChange;
}.
Arguments mkTableChangeSetInsert {J}.

Record TableChangeSetRequest `{J : JsonNumber} := mkTableChangeSetRequest {
  inserts : list TableChangeSetInsert;
  updates : list TableChangeSetUpdate;
  deletes : list TableRowLocator;
}.
Arguments mkTableChangeSetRequest {J}.

Record TableChangeSetSummary := mkTableChangeSetSummary {
  n_inserts : Z;
  n_updates : Z;
  n_deletes : Z;
}.

Record TableChangeSetPreview := mkTableChangeSetPreview {
  statements : list str;
  cs_summary : TableChangeSetSummary;
}.

(** JSON numbers that are 64-bit integers, as [serde_json] builds them from
    integer literals: the instance the concrete examples run on. *)
Definition IntegerNumber : JsonNumber := {|
  Number := Z;
  F64 := Z;
  as_i64 n := if ((-9223372036854775808 <=? n) && (n <=? 9223372036854775807))%Z then Some n else None;
  as_u64 n := if ((0 <=? n) && (n <=? 18446744073709551615))%Z then Some n else None;
  as_f64 n := Some n;
  f64_is_finite _ := true;
  f64_to_string := to_dec;
|}.
