(* ===== verification/Connections.v ===== *)
(** * Stored connections and their folders
    ([src-tauri/src/repository/connection_repository.rs],
     [src-tauri/src/repository/connection_folder_repository.rs],
     the storage errors of [src-tauri/src/error.rs])

    The two tables of the local database that a user edits.  A statement of SQLite is a
    function of the tables with the constraints of the migrations written out: primary
    keys, foreign keys with ON DELETE RESTRICT.  The theorems are about the folder
    tree. *)

From stdpp Require Import base gmap list strings fin_maps fin_map_dom.
From Stdlib Require Import ZArith Lia.
From S2P Require Import Prelude Types.

(** ** Errors of the local storage *)

Inductive AppError :=
| EIo | ESqlx | ESqlxMigrate | ESerdeJson | ETauri | ETauriStore
| EValidation (message : str)
| ENotFound (message : str).

#[export] Instance AppError_eq_dec : EqDecision AppError.
Proof. solve_decision. Defined.

Abbreviation AppResult := (Result AppError).

(** ** Records *)

Inductive ConnectionDriver :=
| CdMysql | CdPostgres | CdSqlite | CdOracle | CdSqlServer | CdClickhouse | CdRedis | CdMongodb
| CdElasticsearch | CdChroma | CdMilvus | CdQdrant | CdPinecone | CdWeaviate | CdNeo4j | CdNeptune
| CdArangodb.

#[export] Instance ConnectionDriver_eq_dec : EqDecision ConnectionDriver.
Proof. solve_decision. Defined.

(** [ConnectionDriver::as_str]. *)
Definition driver_as_str (d : ConnectionDriver) : str :=
  lit match d with
  | CdMysql => "mysql" | CdPostgres => "postgres" | CdSqlite => "sqlite" | CdOracle => "oracle"
  | CdSqlServer => "sqlserver" | CdClickhouse => "clickhouse" | CdRedis => "redis"
  | CdMongodb => "mongodb" | CdElasticsearch => "elasticsearch" | CdChroma => "chroma"
  | CdMilvus => "milvus" | CdQdrant => "qdrant" | CdPinecone => "pinecone"
  | CdWeaviate => "weaviate" | CdNeo4j => "neo4j" | CdNeptune => "neptune" | CdArangodb => "arangodb"
  end.

Definition all_drivers : list ConnectionDriver :=
  [CdMysql; CdPostgres; CdSqlite; CdOracle; CdSqlServer; CdClickhouse; CdRedis; CdMongodb; CdElasticsearch;
   CdChroma; CdMilvus; CdQdrant; CdPinecone; CdWeaviate; CdNeo4j; CdNeptune; CdArangodb].

(** [ConnectionDriver::from_str]: the driver whose name the text is. *)
Definition driver_from_str (value : str) : AppResult ConnectionDriver :=
  ok_or (EValidation (lit "Unsupported connection driver: " ++ value))
    (List.find (fun d => str_eqb (driver_as_str d) value) all_drivers).

Inductive ConnectionRecordStatus := StConnected | StDisconnected | StUnknown.

(** [ConnectionRecordStatus::from_str]. *)
Definition record_status_from_str (value : str) : AppResult ConnectionRecordStatus :=
  if str_eqb value (lit "connected") then Ok StConnected
  else if str_eqb value (lit "disconnected") then Ok StDisconnected
  else if str_eqb value (lit "unknown") then Ok StUnknown
  else Err (EValidation (lit "Unsupported connection record status: " ++ value)).

Section records.
Context {J : JsonNumber}.

Record StoredConnectionRecord := mkStoredConnectionRecord {
  r_id : str;
  r_name : str;
  r_driver : ConnectionDriver;
  r_environment : str;
  r_color : option str;
  r_note : str;
  r_tag_label : str;
  r_tag_color : option str;
  r_payload : Value;
  r_folder_id : option str;
  r_created_at : Z;
  r_updated_at : Z;
  r_last_connected_at : option Z;
  r_last_connection_status : option ConnectionRecordStatus;
  r_last_connection_error : option str;
  r_sort_order : option Z;
}.

(** [CreateConnectionInput]; [UpdateConnectionInput] has the same fields. *)
Record ConnectionInput := mkConnectionInput {
  ci_id : str;
  ci_name : str;
  ci_driver : ConnectionDriver;
  ci_environment : str;
  ci_color : option str;
  ci_note : str;
  ci_tag_label : str;
  ci_tag_color : option str;
  ci_payload : Value;
  ci_folder_id : option str;
  ci_sort_order : option Z;
}.
End records.

Record ConnectionRecordRow := mkConnectionRecordRow {
  cr_name : str;
  cr_driver : str;
  cr_environment : str;
  cr_color : option str;
  cr_note : str;
  cr_tag_label : str;
  cr_tag_color : option str;
  cr_payload : str;
  cr_folder_id : option str;
  cr_created_at : Z;
  cr_updated_at : Z;
  cr_last_connected_at : option Z;
  cr_last_connection_status : option str;
  cr_last_connection_error : option str;
  cr_sort_order : option Z;
}.

Record ConnectionFolderRow := mkConnectionFolderRow {
  fr_name : str;
  fr_parent_id : option str;
  fr_created_at : str;
  fr_updated_at : str;
  fr_sort_order : option Z;
}.

Record StoredConnectionFolder := mkStoredConnectionFolder {
  f_id : str;
  f_name : str;
  f_parent_id : option str;
  f_created_at : str;
  f_updated_at : str;
  f_sort_order : option Z;
}.

(** [CreateConnectionFolderInput]; [UpdateConnectionFolderInput] has the same fields. *)
Record ConnectionFolderInput := mkConnectionFolderInput {
  fi_id : str;
  fi_name : str;
  fi_parent_id : option str;
  fi_sort_order : option Z;
}.

Definition folder_from_row (id : str) (row : ConnectionFolderRow) : StoredConnectionFolder :=
  mkStoredConnectionFolder id (fr_name row) (fr_parent_id row) (fr_created_at row) (fr_updated_at row) (fr_sort_order row).

(** ** The tables, by primary key *)

Record LocalTables := mkLocalTables {
  connections : gmap str ConnectionRecordRow;
  folders : gmap str ConnectionFolderRow;
}.

Definition set_connections (c : gmap str ConnectionRecordRow) (t : LocalTables) : LocalTables := mkLocalTables c (folders t).
Definition set_folders (f : gmap str ConnectionFolderRow) (t : LocalTables) : LocalTables := mkLocalTables (connections t) f.

(** [FOREIGN KEY ... REFERENCES connection_folders(id)] *)
Definition folder_ref_ok (t : LocalTables) (folder : option str) : bool :=
  match folder with Some id => bool_decide (is_Some (folders t !! id)) | None => true end.

(** The two [SELECT COUNT(1)] of children. *)
Definition child_folders (t : LocalTables) (id : str) : nat :=
  size (filter (fun kv => fr_parent_id kv.2 = Some id) (folders t)).
Definition child_connections (t : LocalTables) (id : str) : nat :=
  size (filter (fun kv => cr_folder_id kv.2 = Some id) (connections t)).

(** *** Statements *)

(** A self reference is satisfied by the row itself. *)
Definition insert_folder_row (id : str) (row : ConnectionFolderRow) : ST LocalTables AppError unit := fun t =>
  let folders' := <[id := row]> (folders t) in
  if bool_decide (folders t !! id = None) && folder_ref_ok (set_folders folders' t) (fr_parent_id row)
  then (Ok tt, set_folders folders' t) else (Err ESqlx, t).

(** [UPDATE ... WHERE id = ?1], with the number of rows it changed. *)
Definition update_folder_row (id : str) (f : ConnectionFolderRow -> ConnectionFolderRow) : ST LocalTables AppError nat := fun t =>
  match folders t !! id with
  | None => (Ok 0, t)
  | Some row =>
    if folder_ref_ok t (fr_parent_id (f row)) then (Ok 1, set_folders (<[id := f row]> (folders t)) t)
    else (Err ESqlx, t)
  end.

Definition delete_folder_row (id : str) : ST LocalTables AppError nat := fun t =>
  match folders t !! id with
  | None => (Ok 0, t)
  | Some _ =>
    if (child_folders (set_folders (delete id (folders t)) t) id =? 0)%nat && (child_connections t id =? 0)%nat
    then (Ok 1, set_folders (delete id (folders t)) t) else (Err ESqlx, t)
  end.

Definition insert_connection_row (id : str) (row : ConnectionRecordRow) : ST LocalTables AppError unit := fun t =>
  if bool_decide (connections t !! id = None) && folder_ref_ok t (cr_folder_id row)
  then (Ok tt, set_connections (<[id := row]> (connections t)) t) else (Err ESqlx, t).

Definition update_connection_row (id : str) (f : ConnectionRecordRow -> ConnectionRecordRow)
    : ST LocalTables AppError nat := fun t =>
  match connections t !! id with
  | None => (Ok 0, t)
  | Some row =>
    if folder_ref_ok t (cr_folder_id (f row)) then (Ok 1, set_connections (<[id := f row]> (connections t)) t)
    else (Err ESqlx, t)
  end.

Definition delete_connection_row (id : str) : ST LocalTables AppError nat := fun t =>
  match connections t !! id with
  | None => (Ok 0, t)
  | Some _ => (Ok 1, set_connections (delete id (connections t)) t)
  end.

(** [pool.begin()] to [tx.commit()]: a transaction that does not reach its commit, or
    whose commit fails, leaves the database as it was.  [io] is a failure of SQLite
    itself, if one happens; wherever in the transaction it happens, its effect is this. *)
Definition transaction {D A} (io : option AppError) (m : ST D AppError A) : ST D AppError A := fun d =>
  match io with
  | Some e => (Err e, d)
  | None => match m d with (Ok a, d') => (Ok a, d') | (Err e, _) => (Err e, d) end
  end.

(** ** Connections *)

Section connections.
Context {J : JsonNumber}.
(** [serde_json] between a payload and its text, and the clock. *)
Context (json_from_str : str -> option Value) (json_to_string : Value -> str) (now_unix_ms : Z).

Definition record_from_row (id : str) (row : ConnectionRecordRow) : AppResult StoredConnectionRecord :=
  driver ← driver_from_str (cr_driver row);
  payload ← ok_or ESerdeJson (json_from_str (cr_payload row));
  status ← match cr_last_connection_status row with
           | Some v => s ← record_status_from_str v; Ok (Some s)
           | None => Ok None
           end;
  Ok (mkStoredConnectionRecord id (cr_name row) driver (cr_environment row) (cr_color row) (cr_note row)
        (cr_tag_label row) (cr_tag_color row) payload (cr_folder_id row) (cr_created_at row) (cr_updated_at row)
        (cr_last_connected_at row) status (cr_last_connection_error row) (cr_sort_order row)).

Definition get_connection (id : str) : ST LocalTables AppError (option StoredConnectionRecord) := fun t =>
  (match connections t !! id with
   | Some row => r ← record_from_row id row; Ok (Some r)
   | None => Ok None
   end, t).

Definition validate_connection_payload (id name : str) (payload : Value) : AppResult unit :=
  if bool_decide (trim id = []) then Err (EValidation (lit "Connection id cannot be empty"))
  else if bool_decide (trim name = []) then Err (EValidation (lit "Connection name cannot be empty"))
  else match payload with
       | VObject _ => Ok tt
       | _ => Err (EValidation (lit "Connection payload must be a JSON object"))
       end.

Definition CONNECTION_TAG_LABEL_MAX_CHARS : nat := 8.
Definition CONNECTION_NOTE_MAX_CHARS : nat := 50.
Definition CONNECTION_TAG_COLORS : list str :=
  map lit ["slate"; "red"; "orange"; "amber"; "emerald"; "teal"; "sky"; "violet"; "pink"].

Definition normalize_connection_tag_label (value : str) : AppResult str :=
  let trimmed := trim value in
  if (CONNECTION_TAG_LABEL_MAX_CHARS <? length trimmed)%nat
  then Err (EValidation (lit "Connection tag label must be at most 8 characters")) else Ok trimmed.

Definition is_connection_note_boundary_whitespace (c : Z) : bool :=
  ((9 <=? c) && (c <=? 13))%Z || (c =? 32)%Z || (c =? 133)%Z || (c =? 160)%Z || (c =? 5760)%Z
  || ((8192 <=? c) && (c <=? 8202))%Z || (c =? 8232)%Z || (c =? 8233)%Z || (c =? 8239)%Z || (c =? 8287)%Z
  || (c =? 12288)%Z || (c =? 65279)%Z.

Fixpoint trim_start_matches (p : Z -> bool) (s : str) : str :=
  match s with c :: s' => if p c then trim_start_matches p s' else s | [] => [] end.
Definition trim_matches (p : Z -> bool) (s : str) : str := rev (trim_start_matches p (rev (trim_start_matches p s))).

Definition normalize_connection_note (value : str) : AppResult str :=
  let trimmed := trim_matches is_connection_note_boundary_whitespace value in
  if (CONNECTION_NOTE_MAX_CHARS <? length trimmed)%nat
  then Err (EValidation (lit "Connection note must be at most 50 characters")) else Ok trimmed.

Definition normalize_connection_tag_color (value : option str) : AppResult (option str) :=
  match value with
  | None => Ok None
  | Some value =>
    let trimmed := trim value in
    if bool_decide (trimmed = []) then Ok None
    else if bool_decide (trimmed ∈ CONNECTION_TAG_COLORS) then Ok (Some trimmed)
    else Err (EValidation (lit "Connection tag color must be one of: " ++ join (lit ", ") CONNECTION_TAG_COLORS))
  end.

Definition normalize_connection_tag (label : str) (color : option str) : AppResult (str * option str) :=
  normalized_label ← normalize_connection_tag_label label;
  normalized_color ← normalize_connection_tag_color color;
  if bool_decide (normalized_label <> []) && bool_decide (normalized_color = None)
  then Err (EValidation (lit "Connection tag color is required when tag label is set"))
  else Ok (normalized_label, normalized_color).

Definition ensure_folder_exists (folder_id : option str) (t : LocalTables) : AppResult unit :=
  match folder_id with
  | None => Ok tt
  | Some id =>
    if bool_decide (trim id = []) then Err (EValidation (lit "Connection folder id cannot be empty"))
    else if bool_decide (folders t !! id = None)
    then Err (EValidation (lit "Connection folder " ++ id ++ lit " does not exist"))
    else Ok tt
  end.

(** The checks and normalisations that creating and updating share. *)
Definition connection_columns (input : ConnectionInput) (t : LocalTables) : AppResult (str * str * option str) :=
  _ ← validate_connection_payload (ci_id input) (ci_name input) (ci_payload input);
  _ ← ensure_folder_exists (ci_folder_id input) t;
  note ← normalize_connection_note (ci_note input);
  tag ← normalize_connection_tag (ci_tag_label input) (ci_tag_color input);
  Ok (note, tag.1, tag.2).

Definition create_connection (input : ConnectionInput) : ST LocalTables AppError StoredConnectionRecord :=
  t ← st_get;
  columns ← st_lift (connection_columns input t);
  _ ← insert_connection_row (ci_id input)
        (mkConnectionRecordRow (ci_name input) (driver_as_str (ci_driver input)) (ci_environment input) (ci_color input)
           columns.1.1 columns.1.2 columns.2 (json_to_string (ci_payload input)) (ci_folder_id input)
           now_unix_ms now_unix_ms None None None (ci_sort_order input));
  record ← get_connection (ci_id input);
  st_lift (ok_or (ENotFound (lit "Failed to load created connection")) record).

Definition update_connection (input : ConnectionInput) : ST LocalTables AppError StoredConnectionRecord :=
  t ← st_get;
  columns ← st_lift (connection_columns input t);
  rows ← update_connection_row (ci_id input) (fun row =>
        mkConnectionRecordRow (ci_name input) (driver_as_str (ci_driver input)) (ci_environment input) (ci_color input)
           columns.1.1 columns.1.2 columns.2 (json_to_string (ci_payload input)) (ci_folder_id input)
           (cr_created_at row) now_unix_ms (cr_last_connected_at row) (cr_last_connection_status row)
           (cr_last_connection_error row) (ci_sort_order input));
  if (rows =? 0)%nat
  then st_lift (Err (ENotFound (lit "Connection " ++ ci_id input ++ lit " not found")))
  else
    record ← get_connection (ci_id input);
    st_lift (ok_or (ENotFound (lit "Failed to load updated connection")) record).

Definition delete_connection (id : str) : ST LocalTables AppError bool :=
  rows ← delete_connection_row id;
  mret (0 <? rows)%nat.
End connections.

(** ** Folders *)

Section folders.
(** [strftime('%Y-%m-%dT%H:%M:%fZ', 'now')] *)
Context (now_text : str).

Definition get_folder (id : str) : ST LocalTables AppError (option StoredConnectionFolder) := fun t =>
  (Ok (folder_from_row id <$> folders t !! id), t).

Definition validate_folder_payload (id name : str) : AppResult unit :=
  if bool_decide (trim id = []) then Err (EValidation (lit "Connection folder id cannot be empty"))
  else if bool_decide (trim name = []) then Err (EValidation (lit "Connection folder name cannot be empty"))
  else Ok tt.

Definition ensure_valid_parent_folder (folder_id : str) (parent_id : option str) (t : LocalTables) : AppResult unit :=
  match parent_id with
  | None => Ok tt
  | Some parent_id =>
    if bool_decide (trim parent_id = []) then Err (EValidation (lit "Connection folder parent id cannot be empty"))
    else if bool_decide (parent_id = folder_id)
    then Err (EValidation (lit "Connection folder parent id cannot reference itself"))
    else if bool_decide (folders t !! parent_id = None)
    then Err (EValidation (lit "Connection folder parent " ++ parent_id ++ lit " does not exist"))
    else Ok tt
  end.

(** The rows of the recursive query: a folder, its parent, and so on.  With UNION ALL a
    cycle repeats forever, so the query returns only if the walk ends; the fuel is one
    more than the number of folders, which a walk that ends cannot exceed. *)
Fixpoint folder_ancestors (fuel : nat) (fs : gmap str ConnectionFolderRow) (id : str) : option (list str) :=
  match fuel with
  | O => None
  | S fuel =>
    match fs !! id with
    | None => Some []
    | Some row =>
      match fr_parent_id row with
      | None => Some [id]
      | Some parent => cons id <$> folder_ancestors fuel fs parent
      end
    end
  end.

(** [None]: the query does not return. *)
Definition ensure_no_parent_cycle (folder_id : str) (parent_id : option str) (t : LocalTables) : option (AppResult unit) :=
  match parent_id with
  | None => Some (Ok tt)
  | Some parent_id =>
    ancestors ← folder_ancestors (S (size (folders t))) (folders t) parent_id;
    Some (if bool_decide (folder_id ∈ ancestors)
          then Err (EValidation (lit "Connection folder parent would create a cycle")) else Ok tt)
  end.

Definition create_folder (input : ConnectionFolderInput) : ST LocalTables AppError StoredConnectionFolder :=
  t ← st_get;
  _ ← st_lift (validate_folder_payload (fi_id input) (fi_name input));
  _ ← st_lift (ensure_valid_parent_folder (fi_id input) (fi_parent_id input) t);
  _ ← insert_folder_row (fi_id input)
        (mkConnectionFolderRow (fi_name input) (fi_parent_id input) now_text now_text (fi_sort_order input));
  folder ← get_folder (fi_id input);
  st_lift (ok_or (ENotFound (lit "Failed to load created connection folder")) folder).

(** The statement at the end of an update, after its checks. *)
Definition write_folder (input : ConnectionFolderInput) : ST LocalTables AppError StoredConnectionFolder :=
  rows ← update_folder_row (fi_id input) (fun row =>
        mkConnectionFolderRow (fi_name input) (fi_parent_id input) (fr_created_at row) now_text (fi_sort_order input));
  if (rows =? 0)%nat
  then st_lift (Err (ENotFound (lit "Connection folder " ++ fi_id input ++ lit " not found")))
  else
    folder ← get_folder (fi_id input);
    st_lift (ok_or (ENotFound (lit "Failed to load updated connection folder")) folder).

(** The checks of an update; [None] when the search for a cycle does not return. *)
Definition check_folder_update (input : ConnectionFolderInput) (t : LocalTables) : option (AppResult unit) :=
  match (_ ← validate_folder_payload (fi_id input) (fi_name input);
         ensure_valid_parent_folder (fi_id input) (fi_parent_id input) t) with
  | Ok _ => ensure_no_parent_cycle (fi_id input) (fi_parent_id input) t
  | Err e => Some (Err e)
  end.

Definition update_folder (input : ConnectionFolderInput) (t : LocalTables)
    : option (AppResult StoredConnectionFolder * LocalTables) :=
  match check_folder_update input t with
  | None => None
  | Some (Err e) => Some (Err e, t)
  | Some (Ok _) => Some (write_folder input t)
  end.

Definition delete_folder (id : str) : ST LocalTables AppError bool :=
  t ← st_get;
  if (0 <? child_folders t id)%nat
  then st_lift (Err (EValidation (lit "Cannot delete folder that still contains child folders")))
  else if (0 <? child_connections t id)%nat
  then st_lift (Err (EValidation (lit "Cannot delete folder that still contains connections")))
  else
    rows ← delete_folder_row id;
    mret (0 <? rows)%nat.
End folders.

(** ** The folder tree *)

(** A folder from which the parents lead to a folder at the top. *)
Inductive rooted (fs : gmap str ConnectionFolderRow) : str -> Prop :=
| rooted_top id row : fs !! id = Some row -> fr_parent_id row = None -> rooted fs id
| rooted_child id row parent :
    fs !! id = Some row -> fr_parent_id row = Some parent -> rooted fs parent -> rooted fs id.

(** Every folder is rooted, so parents exist and there is no cycle; every connection is
    at the top or in a folder that exists. *)
Definition folder_tree (fs : gmap str ConnectionFolderRow) : Prop := forall id, is_Some (fs !! id) -> rooted fs id.
Definition tables_ok (t : LocalTables) : Prop :=
  folder_tree (folders t)
  /\ forall id row folder, connections t !! id = Some row -> cr_folder_id row = Some folder -> is_Some (folders t !! folder).

(** *** The walk to the top *)

Lemma ancestors_deterministic fs n m id l l' :
  folder_ancestors n fs id = Some l -> folder_ancestors m fs id = Some l' -> l = l'.
Proof.
  revert m id l l'. induction n as [|n IH]; intros [|m] id l l'; simpl; try done.
  destruct (fs !! id) as [row|]; [|congruence]. destruct (fr_parent_id row) as [p|]; [|congruence].
  intros (l1 & H1 & ->)%fmap_Some (l2 & H2 & ->)%fmap_Some. f_equal. by eapply IH.
Qed.

Lemma ancestors_suffix fs n id l x : folder_ancestors n fs id = Some l -> x ∈ l ->
  exists m l1 l2, folder_ancestors m fs x = Some l2 /\ l = l1 ++ l2.
Proof.
  revert id l. induction n as [|n IH]; intros id l; simpl; [done|]. intros H Hx.
  destruct (fs !! id) as [row|] eqn:Erow; [|injection H as <-; by apply not_elem_of_nil in Hx].
  destruct (fr_parent_id row) as [p|] eqn:Ep.
  - apply fmap_Some in H as (l' & Hl' & ->). apply elem_of_cons in Hx as [->|Hx].
    + exists (S n), [], (id :: l'). cbn. by rewrite Erow, Ep, Hl'.
    + destruct (IH _ _ Hl' Hx) as (m & l1 & l2 & Hm & ->). by exists m, (id :: l1), l2.
  - injection H as <-. apply list_elem_of_singleton in Hx as ->. exists 1, [], [id]. simpl. by rewrite Erow, Ep.
Qed.

Lemma ancestors_distinct fs n id l : folder_ancestors n fs id = Some l -> NoDup l.
Proof.
  revert id l. induction n as [|n IH]; intros id l; simpl; [done|].
  destruct (fs !! id) as [row|] eqn:Erow; [|intros [= <-]; constructor].
  destruct (fr_parent_id row) as [p|] eqn:Ep; [|intros [= <-]; apply NoDup_singleton].
  intros (l' & Hl' & ->)%fmap_Some. constructor; [|by eapply IH]. intros Hin.
  destruct (ancestors_suffix _ _ _ _ _ Hl' Hin) as (m & l1 & l2 & Hm & Hl).
  assert (l2 = id :: l') as ->; [|apply (f_equal length) in Hl; rewrite length_app in Hl; simpl in Hl; lia].
  eapply (ancestors_deterministic fs m (S n) id); [done|]. simpl. by rewrite Erow, Ep, Hl'.
Qed.

Lemma ancestors_known fs n id l : folder_ancestors n fs id = Some l -> Forall (fun x => is_Some (fs !! x)) l.
Proof.
  revert id l. induction n as [|n IH]; intros id l; simpl; [done|].
  destruct (fs !! id) as [row|] eqn:Erow; [|intros [= <-]; constructor].
  destruct (fr_parent_id row) as [p|]; [|intros [= <-]; repeat constructor; by exists row].
  intros (l' & Hl' & ->)%fmap_Some. constructor; [by exists row|by eapply IH].
Qed.

Lemma ancestors_more fs n m id l : folder_ancestors n fs id = Some l -> (n <= m)%nat -> folder_ancestors m fs id = Some l.
Proof.
  revert m id l. induction n as [|n IH]; intros m id l; simpl; [done|]. intros H Hm.
  destruct m as [|m]; [lia|]. simpl. destruct (fs !! id) as [row|]; [|done]. destruct (fr_parent_id row) as [p|]; [|done].
  apply fmap_Some in H as (l' & Hl' & ->). apply fmap_Some. exists l'. split; [apply IH; [done|lia]|done].
Qed.

(** The walk takes one turn more than it has rows. *)
Lemma ancestors_fuel fs n id l : folder_ancestors n fs id = Some l -> folder_ancestors (S (length l)) fs id = Some l.
Proof.
  revert id l. induction n as [|n IH]; intros id l; simpl; [done|].
  destruct (fs !! id) as [row|] eqn:Erow; [|by intros [= <-]].
  destruct (fr_parent_id row) as [p|]; [|by intros [= <-]].
  intros (l' & Hl' & ->)%fmap_Some. apply fmap_Some. exists l'. split; [by apply IH|done].
Qed.

Lemma rooted_ancestors fs id : rooted fs id -> exists l, folder_ancestors (S (size fs)) fs id = Some l /\ id ∈ l.
Proof.
  intros H. assert (exists n l, folder_ancestors n fs id = Some l /\ id ∈ l) as (n & l & Hl & Hin).
  { induction H as [id row Hrow Hp|id row p Hrow Hp _ (n & l & Hl & _)].
    - exists 1, [id]. simpl. rewrite Hrow, Hp. split; [done|left].
    - exists (S n), (id :: l). simpl. rewrite Hrow, Hp, Hl. split; [done|left]. }
  exists l. split; [|done]. apply ancestors_more with (S (length l)); [by eapply ancestors_fuel|].
  apply le_n_S. pose proof (ancestors_known _ _ _ _ Hl) as Hk. pose proof (ancestors_distinct _ _ _ _ Hl) as Hd.
  rewrite <-size_dom, <-(size_list_to_set (C := gset str) l Hd). apply subseteq_size.
  intros x Hx%elem_of_list_to_set. apply elem_of_dom. by rewrite Forall_forall in Hk; apply Hk.
Qed.

(** *** Changes of one row *)

(** A walk that does not meet a row is not changed with it. *)
Lemma rooted_elsewhere fs id row x n l :
  folder_ancestors n fs x = Some l -> id ∉ l -> rooted fs x -> rooted (<[id := row]> fs) x.
Proof.
  intros Hl Hid H. revert n l Hl Hid. induction H as [x r Hx Hp|x r p Hx Hp H IH]; intros [|n] l; simpl; try done; rewrite Hx, Hp.
  - intros [= <-] Hid%not_elem_of_cons. apply rooted_top with r; [|done]. rewrite lookup_insert_ne; [done|]. naive_solver.
  - intros (l' & Hl' & ->)%fmap_Some [Hne Hid]%not_elem_of_cons. apply rooted_child with r p; [|done|by eapply IH].
    rewrite lookup_insert_ne; naive_solver.
Qed.

Lemma tree_set fs id row :
  folder_tree fs ->
  match fr_parent_id row with None => True | Some p => rooted (<[id := row]> fs) p end ->
  folder_tree (<[id := row]> fs).
Proof.
  intros Ht Hrow. assert (Hid : rooted (<[id := row]> fs) id).
  { destruct (fr_parent_id row) as [p|] eqn:Ep.
    - apply rooted_child with row p; [apply lookup_insert_eq|done|done].
    - apply rooted_top with row; [apply lookup_insert_eq|done]. }
  intros x Hx. destruct (decide (x = id)) as [->|Hne]; [done|]. rewrite lookup_insert_ne in Hx by done. apply Ht in Hx.
  clear Hne. induction Hx as [x r Hx Hp|x r p Hx Hp H IH]; (destruct (decide (x = id)) as [->|Hne]; [done|]).
  - apply rooted_top with r; [|done]. by rewrite lookup_insert_ne.
  - apply rooted_child with r p; [by rewrite lookup_insert_ne|done|done].
Qed.

Lemma tree_delete fs id : folder_tree fs -> (forall x row, fs !! x = Some row -> fr_parent_id row <> Some id) ->
  folder_tree (delete id fs).
Proof.
  intros Ht Hno x Hx. assert (x <> id) as Hne by (intros ->; rewrite lookup_delete_eq in Hx; by destruct Hx).
  rewrite lookup_delete_ne in Hx by done. apply Ht in Hx. induction Hx as [x r Hx Hp|x r p Hx Hp H IH].
  - apply rooted_top with r; [|done]. by rewrite lookup_delete_ne.
  - apply rooted_child with r p; [by rewrite lookup_delete_ne|done|]. apply IH. intros ->. by apply (Hno x r Hx).
Qed.

(** *** Operations keep the tree *)

Lemma ref_ok_spec t folder : folder_ref_ok t folder = true <-> forall id, folder = Some id -> is_Some (folders t !! id).
Proof. unfold folder_ref_ok. destruct folder as [id|]; [rewrite bool_decide_eq_true|]; naive_solver. Qed.

Lemma set_connection_ok t id row : tables_ok t -> folder_ref_ok t (cr_folder_id row) = true ->
  tables_ok (set_connections (<[id := row]> (connections t)) t).
Proof.
  intros [Ht Hc] Hr. split; [done|]. intros x r f. simpl. rewrite lookup_insert_Some. intros [[<- <-]|[_ Hx]] Hf.
  - by apply (proj1 (ref_ok_spec _ _) Hr).
  - by eapply Hc.
Qed.

(** A row written over the folders keeps every folder that was there. *)
Lemma set_folder_ok t id row : tables_ok t -> folder_tree (<[id := row]> (folders t)) ->
  tables_ok (set_folders (<[id := row]> (folders t)) t).
Proof. intros [_ Hc] Ht. split; [done|]. intros x r f Hx Hf. simpl. apply lookup_insert_is_Some'. right. by eapply Hc. Qed.

Lemma child_folders_none t id : child_folders t id = 0 ->
  forall x row, folders t !! x = Some row -> fr_parent_id row <> Some id.
Proof.
  intros H x row Hx Hp. apply map_size_empty_inv in H. by apply (map_filter_empty_not_lookup _ _ x row H Hp) in Hx.
Qed.

Lemma child_connections_none t id : child_connections t id = 0 ->
  forall x row, connections t !! x = Some row -> cr_folder_id row <> Some id.
Proof.
  intros H x row Hx Hp. apply map_size_empty_inv in H. by apply (map_filter_empty_not_lookup _ _ x row H Hp) in Hx.
Qed.

Section operations.
Context {J : JsonNumber} (json_from_str : str -> option Value) (json_to_string : Value -> str).
Implicit Types (t : LocalTables).

Lemma create_connection_ok now input t : tables_ok t -> tables_ok (create_connection json_from_str json_to_string now input t).2.
Proof.
  intros Ht. unfold create_connection, st_get, st_lift, mbind, ST_bind.
  destruct (connection_columns input t) as [c|]; [|done]. unfold insert_connection_row.
  destruct (bool_decide _ && folder_ref_ok _ _) eqn:E; [|done]. apply andb_true_iff in E as [_ E].
  unfold get_connection. destruct (match _ with Some _ => _ | None => _ end); simpl; by apply set_connection_ok.
Qed.

Lemma update_connection_ok now input t : tables_ok t -> tables_ok (update_connection json_from_str json_to_string now input t).2.
Proof.
  intros Ht. unfold update_connection, st_get, st_lift, mbind, ST_bind.
  destruct (connection_columns input t) as [c|]; [|done]. unfold update_connection_row.
  destruct (connections t !! ci_id input) as [row|]; [|done].
  destruct (folder_ref_ok t _) eqn:E; [|done]. cbn [Nat.eqb]. unfold get_connection.
  destruct (match _ with Some _ => _ | None => _ end); simpl; by apply set_connection_ok.
Qed.

Lemma delete_connection_ok id t : tables_ok t -> tables_ok (delete_connection id t).2.
Proof.
  intros [Ht Hc]. unfold delete_connection, delete_connection_row, mbind, ST_bind.
  destruct (connections t !! id); [|done]. split; [done|]. cbn. intros x r f [_ Hx]%lookup_delete_Some Hf. by eapply Hc.
Qed.

Lemma create_folder_ok now input t : tables_ok t -> tables_ok (create_folder now input t).2.
Proof.
  intros Ht. unfold create_folder, st_get, st_lift, mbind, ST_bind.
  destruct (validate_folder_payload _ _) as [[]|]; [|done].
  destruct (ensure_valid_parent_folder _ _ _) as [[]|] eqn:Ev; [|done]. unfold insert_folder_row.
  destruct (bool_decide _ && _) eqn:E; [|done]. apply andb_true_iff in E as [E%bool_decide_eq_true _].
  cbn [get_folder snd]. apply set_folder_ok; [done|]. apply tree_set; [apply Ht|].
  unfold ensure_valid_parent_folder in Ev. cbn [fr_parent_id] in *. destruct (fi_parent_id input) as [p|]; [|done].
  do 3 (case_bool_decide; [discriminate Ev|]).
  assert (Hp : rooted (folders t) p) by (apply Ht; by apply not_eq_None_Some).
  destruct (rooted_ancestors _ _ Hp) as (l & Hl & _). eapply rooted_elsewhere; [done| |done].
  intros Hin. pose proof (ancestors_known _ _ _ _ Hl) as Hk. rewrite Forall_forall in Hk. apply Hk in Hin.
  rewrite E in Hin. by destruct Hin.
Qed.

Lemma update_folder_ok now input t : tables_ok t -> exists r t', update_folder now input t = Some (r, t') /\ tables_ok t'.
Proof.
  intros Ht. unfold update_folder, check_folder_update.
  destruct (validate_folder_payload _ _) as [[]|]; cbn [mbind Result_bind]; [|eauto].
  destruct (ensure_valid_parent_folder _ _ _) as [[]|] eqn:Ev; [|eauto].
  assert (Hw : match fi_parent_id input with None => True | Some p =>
      exists l, folder_ancestors (S (size (folders t))) (folders t) p = Some l /\ rooted (folders t) p end).
  { unfold ensure_valid_parent_folder in Ev. destruct (fi_parent_id input) as [p|]; [|done].
    do 3 (case_bool_decide; [discriminate Ev|]). assert (Hp : rooted (folders t) p) by (apply Ht; by apply not_eq_None_Some).
    destruct (rooted_ancestors _ _ Hp) as (l & Hl & _). eauto. }
  assert (Hout : forall f, (match fi_parent_id input with None => True | Some p =>
      rooted (<[fi_id input := f]> (folders t)) p end) -> fr_parent_id f = fi_parent_id input ->
      tables_ok (set_folders (<[fi_id input := f]> (folders t)) t)).
  { intros f Hf Hp. apply set_folder_ok; [done|]. apply tree_set; [apply Ht|]. by rewrite Hp. }
  unfold ensure_no_parent_cycle. destruct (fi_parent_id input) as [p|] eqn:Ep.
  - destruct Hw as (l & Hl & Hp). rewrite Hl. cbn [mbind option_bind].
    case_bool_decide as Hin; [eauto|]. unfold write_folder, update_folder_row, mbind, ST_bind. rewrite Ep.
    destruct (folders t !! fi_id input); [|eauto]. destruct (folder_ref_ok t _); [|eauto]. cbn [Nat.eqb get_folder].
    eexists _, _. split; [reflexivity|]. apply Hout; [|done]. by eapply rooted_elsewhere.
  - unfold write_folder, update_folder_row, mbind, ST_bind. rewrite Ep.
    destruct (folders t !! fi_id input); [|eauto]. destruct (folder_ref_ok t _); [|eauto]. cbn [Nat.eqb get_folder].
    eexists _, _. split; [reflexivity|]. by apply Hout.
Qed.

Lemma delete_folder_ok id t : tables_ok t -> tables_ok (delete_folder id t).2.
Proof.
  intros Ht. unfold delete_folder, st_get, st_lift, mbind, ST_bind.
  destruct (0 <? child_folders t id)%nat eqn:Ef; [done|]. destruct (0 <? child_connections t id)%nat eqn:Ec; [done|].
  apply Nat.ltb_ge in Ef, Ec. unfold delete_folder_row. destruct (folders t !! id); [|done].
  destruct (_ && _); [|done]. destruct Ht as [Ht Hc]. split; cbn.
  - apply tree_delete; [done|]. apply child_folders_none. lia.
  - intros x r f Hx Hf. rewrite lookup_delete_ne; [by eapply Hc|]. intros <-.
    eapply (child_connections_none t id); [lia|exact Hx|exact Hf].
Qed.

End operations.

(** ** Two moves at once

    An update runs its checks and its statement one after the other, each on its own:
    another update can run in between. *)

Definition folder_at (parent : option str) : ConnectionFolderRow :=
  mkConnectionFolderRow (lit "Folder") parent (lit "t0") (lit "t0") None.
Definition move (id parent : string) : ConnectionFolderInput :=
  mkConnectionFolderInput (lit id) (lit "Folder") (Some (lit parent)) None.
Definition two_folders : LocalTables :=
  mkLocalTables ∅ (list_to_map [(lit "a", folder_at None); (lit "b", folder_at None)]).

(** Both moves pass their checks on the tables before either is written; after both are
    written the folders are each other's parent, and looking for a cycle among them does
    not return. *)
Theorem concurrent_moves_make_a_cycle :
  check_folder_update (move "a" "b") two_folders = Some (Ok tt)
  /\ check_folder_update (move "b" "a") two_folders = Some (Ok tt)
  /\ let t := (write_folder (lit "t1") (move "b" "a") (write_folder (lit "t1") (move "a" "b") two_folders).2).2 in
     ~ folder_tree (folders t) /\ update_folder (lit "t2") (mkConnectionFolderInput (lit "c") (lit "Folder") (Some (lit "a")) None) t = None.
Proof.
  split; [by vm_compute|]. split; [by vm_compute|]. cbv zeta. split; [|by vm_compute].
  intros Ht. assert (Ha : rooted (folders (write_folder (lit "t1") (move "b" "a")
    (write_folder (lit "t1") (move "a" "b") two_folders).2).2) (lit "a")) by (apply Ht; vm_compute; by eexists).
  apply rooted_ancestors in Ha as (l & Hl & _). vm_compute in Hl. discriminate Hl.
Qed.
