(* ===== verification/ConnectionTree.v ===== *)
(** * Moving connections and folders
    ([src-tauri/src/repository/connection_tree_repository.rs])

    Dragging in the tree of connections sends one request with the new place of every
    folder and connection that moved.  The request is checked against the folders as they
    will be, then written in one transaction.  The theorems: the check for a cycle always
    ends and is exact, and whatever is created, edited, moved and deleted, the folders
    stay a tree. *)

From stdpp Require Import base gmap list strings fin_maps fin_map_dom.
From Stdlib Require Import ZArith Lia.
From S2P Require Import Prelude Types Connections.

Record FolderTreePatch := mkFolderTreePatch {
  tf_id : str;
  tf_parent_id : option str;
  tf_sort_order : option Z;
}.

Record ConnectionTreePatch := mkConnectionTreePatch {
  tc_id : str;
  tc_folder_id : option str;
  tc_sort_order : option Z;
}.

Record ReorderConnectionTreeInput := mkReorderConnectionTreeInput {
  folder_patches : list FolderTreePatch;
  connection_patches : list ConnectionTreePatch;
}.

Record ReorderConnectionTreeResult := mkReorderConnectionTreeResult {
  updated_folders : nat;
  updated_connections : nat;
}.

(** ** Checks *)

(** The loop that follows the parents from a folder, with the folders it has [seen];
    [None] when the fuel runs out. *)
Fixpoint follow_parents (fuel : nat) (folder_id : str) (parents : gmap str (option str)) (seen : gset str)
    (current : option str) : option (AppResult unit) :=
  match fuel with
  | O => None
  | S fuel =>
    match current with
    | None => Some (Ok tt)
    | Some parent_id =>
      if bool_decide (parent_id = folder_id) || bool_decide (parent_id ∈ seen)
      then Some (Err (EValidation (lit "Connection folder parent would create a cycle")))
      else follow_parents fuel folder_id parents ({[parent_id]} ∪ seen) (mjoin (parents !! parent_id))
    end
  end.

(** Every turn but the last two sees another folder of the map, so two turns more than
    there are folders are enough. *)
Definition ensure_no_cycle_after_patches (folder_id : str) (parents : gmap str (option str)) : option (AppResult unit) :=
  follow_parents (S (S (size parents))) folder_id parents ∅ (mjoin (parents !! folder_id)).

(** The loop over the keys; every failure is the same, so their order does not matter. *)
Fixpoint ensure_no_cycles (ids : list str) (parents : gmap str (option str)) : option (AppResult unit) :=
  match ids with
  | [] => Some (Ok tt)
  | id :: ids =>
    checked ← ensure_no_cycle_after_patches id parents;
    match checked with Ok _ => ensure_no_cycles ids parents | Err e => Some (Err e) end
  end.

(** The new parent of a folder. *)
Definition check_patch_parent (folder_ids : gset str) (patch : FolderTreePatch) : AppResult unit :=
  match tf_parent_id patch with
  | None => Ok tt
  | Some parent_id =>
    if bool_decide (trim parent_id = []) then Err (EValidation (lit "Connection folder parent id cannot be empty"))
    else if bool_decide (parent_id = tf_id patch)
    then Err (EValidation (lit "Connection folder parent id cannot reference itself"))
    else if bool_decide (parent_id ∉ folder_ids)
    then Err (EValidation (lit "Connection folder parent " ++ parent_id ++ lit " does not exist"))
    else Ok tt
  end.

(** One turn of the loop over the folder patches: the ids patched so far and the parents
    with those patches. *)
Definition check_folder_patch (folder_ids : gset str) (acc : gset str * gmap str (option str)) (patch : FolderTreePatch)
    : AppResult (gset str * gmap str (option str)) :=
  let (patched_folder_ids, parents) := acc in
  if bool_decide (trim (tf_id patch) = []) then Err (EValidation (lit "Connection folder id cannot be empty"))
  else if bool_decide (tf_id patch ∈ patched_folder_ids)
  then Err (EValidation (lit "Duplicate folder patch: " ++ tf_id patch))
  else if bool_decide (tf_id patch ∉ folder_ids)
  then Err (ENotFound (lit "Connection folder " ++ tf_id patch ++ lit " not found"))
  else
    _ ← check_patch_parent folder_ids patch;
    Ok ({[tf_id patch]} ∪ patched_folder_ids, <[tf_id patch := tf_parent_id patch]> parents).

(** The new folder of a connection. *)
Definition check_patch_folder (folder_ids : gset str) (patch : ConnectionTreePatch) : AppResult unit :=
  match tc_folder_id patch with
  | None => Ok tt
  | Some folder_id =>
    if bool_decide (trim folder_id = []) then Err (EValidation (lit "Connection folder id cannot be empty"))
    else if bool_decide (folder_id ∉ folder_ids)
    then Err (EValidation (lit "Connection folder " ++ folder_id ++ lit " does not exist"))
    else Ok tt
  end.

Definition check_connection_patch (folder_ids : gset str) (patched_connection_ids : gset str) (patch : ConnectionTreePatch)
    : AppResult (gset str) :=
  if bool_decide (trim (tc_id patch) = []) then Err (EValidation (lit "Connection id cannot be empty"))
  else if bool_decide (tc_id patch ∈ patched_connection_ids)
  then Err (EValidation (lit "Duplicate connection patch: " ++ tc_id patch))
  else
    _ ← check_patch_folder folder_ids patch;
    Ok ({[tc_id patch]} ∪ patched_connection_ids).

(** [None] when a loop does not end, which [reorder_returns] excludes. *)
Definition validate_reorder_input (input : ReorderConnectionTreeInput) (t : LocalTables) : option (AppResult unit) :=
  let parents := fr_parent_id <$> folders t in
  let folder_ids := dom parents in
  match try_fold (check_folder_patch folder_ids) (∅, parents) (folder_patches input) with
  | Err e => Some (Err e)
  | Ok (_, parents) =>
    checked ← ensure_no_cycles (map_to_list parents).*1 parents;
    Some (_ ← checked;
          _ ← try_fold (check_connection_patch folder_ids) ∅ (connection_patches input);
          Ok tt)
  end.

(** ** Writing *)

Section reorder.
(** [strftime('%Y-%m-%dT%H:%M:%fZ', 'now')] and [strftime('%s','now') * 1000] *)
Context (now_text : str) (now_ms : Z).

Definition moved_folder (patch : FolderTreePatch) (row : ConnectionFolderRow) : ConnectionFolderRow :=
  mkConnectionFolderRow (fr_name row) (tf_parent_id patch) (fr_created_at row) now_text (tf_sort_order patch).

Definition moved_connection (patch : ConnectionTreePatch) (row : ConnectionRecordRow) : ConnectionRecordRow :=
  mkConnectionRecordRow (cr_name row) (cr_driver row) (cr_environment row) (cr_color row) (cr_note row) (cr_tag_label row)
    (cr_tag_color row) (cr_payload row) (tc_folder_id patch) (cr_created_at row) now_ms (cr_last_connected_at row)
    (cr_last_connection_status row) (cr_last_connection_error row) (tc_sort_order patch).

(** The two loops, with the number of rows each has updated. *)
Fixpoint write_folder_patches (patches : list FolderTreePatch) (updated : nat) : ST LocalTables AppError nat :=
  match patches with
  | [] => mret updated
  | patch :: patches =>
    rows ← update_folder_row (tf_id patch) (moved_folder patch);
    if negb (rows =? 1)%nat then st_lift (Err (ENotFound (lit "Connection folder " ++ tf_id patch ++ lit " not found")))
    else write_folder_patches patches (S updated)
  end.

Fixpoint write_connection_patches (patches : list ConnectionTreePatch) (updated : nat) : ST LocalTables AppError nat :=
  match patches with
  | [] => mret updated
  | patch :: patches =>
    rows ← update_connection_row (tc_id patch) (moved_connection patch);
    if negb (rows =? 1)%nat then st_lift (Err (ENotFound (lit "Connection " ++ tc_id patch ++ lit " not found")))
    else write_connection_patches patches (S updated)
  end.

(** The transaction after the checks. *)
Definition write_reorder (io : option AppError) (input : ReorderConnectionTreeInput)
    : ST LocalTables AppError ReorderConnectionTreeResult :=
  transaction io (
    folders ← write_folder_patches (folder_patches input) 0;
    connections ← write_connection_patches (connection_patches input) 0;
    mret (mkReorderConnectionTreeResult folders connections)).

Definition reorder (io : option AppError) (input : ReorderConnectionTreeInput) (t : LocalTables)
    : option (AppResult ReorderConnectionTreeResult * LocalTables) :=
  match validate_reorder_input input t with
  | None => None
  | Some (Err e) => Some (Err e, t)
  | Some (Ok _) => Some (write_reorder io input t)
  end.
End reorder.

(** ** The check for a cycle *)

(** Every parent is a folder. *)
Definition parents_exist (fs : gmap str ConnectionFolderRow) : Prop :=
  forall id row parent, fs !! id = Some row -> fr_parent_id row = Some parent -> is_Some (fs !! parent).

Lemma follow_returns fuel id parents seen current :
  seen ⊆ dom parents -> (size parents + 2 <= fuel + size seen)%nat -> is_Some (follow_parents fuel id parents seen current).
Proof.
  revert seen current. induction fuel as [|fuel IH]; intros seen current Hs Hf.
  - apply subseteq_size in Hs. rewrite size_dom in Hs. lia.
  - simpl. destruct current as [p|]; [|done]. case_bool_decide; [done|]. case_bool_decide as Hp; [done|]. simpl.
    destruct (parents !! p) as [q|] eqn:Ep.
    + apply IH; [apply elem_of_dom_2 in Ep; set_solver|]. rewrite size_union, size_singleton by set_solver. lia.
    + cbn [mjoin]. apply subseteq_size in Hs. rewrite size_dom in Hs. destruct fuel; [lia|done].
Qed.

Lemma no_cycle_returns id parents : is_Some (ensure_no_cycle_after_patches id parents).
Proof. apply follow_returns; [set_solver|]. rewrite size_empty. lia. Qed.

Section exact.
Context (fs : gmap str ConnectionFolderRow).
Abbreviation parents := (fr_parent_id <$> fs).

Lemma parent_of id row : fs !! id = Some row -> mjoin (parents !! id) = fr_parent_id row.
Proof. intros H. by rewrite lookup_fmap, H. Qed.

Lemma follow_sound fuel id seen p : parents_exist fs -> is_Some (fs !! p) ->
  follow_parents fuel id parents seen (Some p) = Some (Ok tt) -> rooted fs p.
Proof.
  intros Hc. revert seen p. induction fuel as [|fuel IH]; intros seen p [row Hp]; [done|]. simpl.
  case_bool_decide; [done|]. case_bool_decide; [done|]. simpl. rewrite (parent_of _ _ Hp).
  destruct (fr_parent_id row) as [q|] eqn:Eq; intros H1; [|by apply rooted_top with row].
  apply rooted_child with row q; [done..|]. eapply IH; [by eapply Hc|done].
Qed.

Lemma follow_complete fuel id seen p r n l : rooted fs p -> folder_ancestors n fs p = Some l -> id ∉ l ->
  (forall x, x ∈ l -> x ∉ seen) -> follow_parents fuel id parents seen (Some p) = Some r -> r = Ok tt.
Proof.
  intros Hr. revert fuel seen n l. induction Hr as [p row Hp Hn|p row q Hp Hq Hr IH]; intros [|fuel] seen [|n] l; simpl; try done;
    rewrite Hp; rewrite ?Hn, ?Hq.
  - intros [= <-] Hid Hs. rewrite !bool_decide_eq_false_2 by set_solver. simpl. rewrite (parent_of _ _ Hp), Hn.
    destruct fuel; [done|]. by intros [= <-].
  - intros (l' & Hl & ->)%fmap_Some Hid Hs. rewrite !bool_decide_eq_false_2 by set_solver. simpl. rewrite (parent_of _ _ Hp), Hq.
    apply (IH fuel _ n l'); [done|set_solver|]. intros x Hx. assert (x <> p); [|set_solver]. intros ->.
    assert (Hd : NoDup (p :: l')) by (apply (ancestors_distinct fs (S n) p); simpl; by rewrite Hp, Hq, Hl). by inversion Hd.
Qed.

Lemma no_cycle_rooted id : parents_exist fs -> is_Some (fs !! id) ->
  ensure_no_cycle_after_patches id parents = Some (Ok tt) <-> rooted fs id.
Proof.
  intros Hc [row Hid]. destruct (no_cycle_returns id parents) as [r Hr]. rewrite Hr. unfold ensure_no_cycle_after_patches in Hr.
  rewrite (parent_of _ _ Hid) in Hr. destruct (fr_parent_id row) as [p|] eqn:Ep.
  - split.
    + intros [= ->]. apply rooted_child with row p; [done..|]. eapply follow_sound; [done|by eapply Hc|done].
    + intros Hrt. f_equal. destruct (rooted_ancestors _ _ Hrt) as (l & Hl & _).
      pose proof (ancestors_distinct _ _ _ _ Hl) as Hd. simpl in Hl. rewrite Hid, Ep in Hl.
      apply fmap_Some in Hl as (l' & Hl & ->). apply NoDup_cons in Hd as [Hn _].
      inversion Hrt as [? ? H1 H2|? ? q H1 H2 H3]; simplify_eq. eapply (follow_complete _ id ∅ p); [done..|set_solver|done].
  - simpl in Hr. injection Hr as <-. split; [|done]. intros _. by apply rooted_top with row.
Qed.
End exact.

Lemma no_cycles_spec ids parents : exists r, ensure_no_cycles ids parents = Some r
  /\ (r = Ok tt <-> forall id, id ∈ ids -> ensure_no_cycle_after_patches id parents = Some (Ok tt)).
Proof.
  induction ids as [|id ids (r & IH & Hr)]; simpl; [eexists; split; [done|]; set_solver|].
  destruct (no_cycle_returns id parents) as [[[]|e] Hid]; rewrite Hid; simpl.
  - exists r. split; [done|]. rewrite Hr. set_solver.
  - eexists. split; [done|]. split; [done|]. intros H. specialize (H id). rewrite Hid in H. by discriminate H; left.
Qed.

Lemma no_cycles_exact fs : parents_exist fs ->
  exists r, ensure_no_cycles (map_to_list (fr_parent_id <$> fs)).*1 (fr_parent_id <$> fs) = Some r /\ (r = Ok tt <-> folder_tree fs).
Proof.
  intros Hc. destruct (no_cycles_spec (map_to_list (fr_parent_id <$> fs)).*1 (fr_parent_id <$> fs)) as (r & Hr & Hall).
  exists r. split; [done|]. rewrite Hall. unfold folder_tree. setoid_rewrite (list_elem_of_fmap fst).
  split.
  - intros H id [row Hid]. apply no_cycle_rooted; [done|by eexists|]. apply H. exists (id, fr_parent_id row). split; [done|].
    apply elem_of_map_to_list. by rewrite lookup_fmap, Hid.
  - intros H id ([id' p] & -> & Hin). apply elem_of_map_to_list in Hin. rewrite lookup_fmap in Hin.
    apply fmap_Some in Hin as (row & Hrow & _). apply no_cycle_rooted; [done|by eexists|]. apply H. by eexists.
Qed.

(** C40: The check for a cycle is exact. In a table in which every parent exists, which the
    foreign key of the table provides, following the parents of each folder after the move
    always ends, and the move passes if and only if every folder then leads over its parents
    to one at the top: no tree is refused, and no cycle gets through, also one that a folder
    only leads into. *)
Theorem cycle_check_is_exact fs : parents_exist fs ->
  exists r, ensure_no_cycles (map_to_list (fr_parent_id <$> fs)).*1 (fr_parent_id <$> fs) = Some r /\ (r = Ok tt <-> folder_tree fs).
Proof. apply no_cycles_exact. Qed.

(** A folder, its child and a third folder moved into the child. *)
Definition nested_folders : gmap str ConnectionFolderRow :=
  list_to_map [(lit "a", folder_at None); (lit "b", folder_at (Some (lit "a"))); (lit "c", folder_at (Some (lit "b")))].

Lemma nested_parents_exist : parents_exist nested_folders.
Proof.
  intros id row p H Hp. assert (Hall : map_Forall (fun _ row =>
      match fr_parent_id row with Some p => bool_decide (is_Some (nested_folders !! p)) | None => true end = true) nested_folders)
    by (apply (bool_decide_unpack _); by vm_compute).
  specialize (Hall id row H). cbn in Hall. rewrite Hp in Hall. by apply bool_decide_eq_true in Hall.
Qed.

Lemma cycle_check_is_exact_witness :
  parents_exist nested_folders
  /\ exists r, ensure_no_cycles (map_to_list (fr_parent_id <$> nested_folders)).*1 (fr_parent_id <$> nested_folders) = Some r
     /\ (r = Ok tt <-> folder_tree nested_folders).
Proof. split; [apply nested_parents_exist|]. apply (cycle_check_is_exact nested_folders). apply nested_parents_exist. Defined.

(** ** A move keeps the tree *)

Lemma patch_parent_known ids p q : check_patch_parent ids p = Ok tt -> tf_parent_id p = Some q -> q ∈ ids.
Proof.
  unfold check_patch_parent. intros H Hq. rewrite Hq in H. do 2 (case_bool_decide; [done|]). case_bool_decide as Hi; done.
Qed.

Lemma patch_folder_known ids p q : check_patch_folder ids p = Ok tt -> tc_folder_id p = Some q -> q ∈ ids.
Proof.
  unfold check_patch_folder. intros H Hq. rewrite Hq in H. case_bool_decide; [done|]. case_bool_decide as Hi; done.
Qed.

Lemma folder_patch_Ok ids acc p acc' : check_folder_patch ids acc p = Ok acc' ->
  tf_id p ∉ acc.1 /\ tf_id p ∈ ids /\ (forall q, tf_parent_id p = Some q -> q ∈ ids)
  /\ acc' = ({[tf_id p]} ∪ acc.1, <[tf_id p := tf_parent_id p]> acc.2).
Proof.
  destruct acc as [patched parents]. unfold check_folder_patch. case_bool_decide; [done|]. case_bool_decide as Hp; [done|].
  case_bool_decide as Hi; [done|]. destruct (check_patch_parent ids p) as [[]|] eqn:Ec; [|done]. intros [= <-].
  repeat split; [done|done|]. intros q. by apply patch_parent_known.
Qed.

(** What the patches say about the parents, and what they leave. *)
Definition parents_patched (patches : list FolderTreePatch) (parents parents' : gmap str (option str)) : Prop :=
  (forall p, p ∈ patches -> parents' !! tf_id p = Some (tf_parent_id p))
  /\ (forall id, id ∉ tf_id <$> patches -> parents' !! id = parents !! id).

Lemma check_folders_spec ids patches acc acc' : try_fold (check_folder_patch ids) acc patches = Ok acc' ->
  NoDup (tf_id <$> patches) /\ (forall p, p ∈ patches -> tf_id p ∉ acc.1)
  /\ (forall p, p ∈ patches -> tf_id p ∈ ids /\ forall q, tf_parent_id p = Some q -> q ∈ ids)
  /\ parents_patched patches acc.2 acc'.2.
Proof.
  revert acc. induction patches as [|p patches IH]; intros acc; cbn [try_fold].
  { intros [= <-]. split; [constructor|]. split; [set_solver|]. split; [set_solver|]. by split; [set_solver|]. }
  destruct (check_folder_patch ids acc p) as [acc1|] eqn:E1; [|done]. cbn [mbind Result_bind].
  apply folder_patch_Ok in E1 as (Hp & Hi & Hq & ->). intros (Hd & Hn & Hin & Hto & Hout)%IH. cbn [fst snd] in *.
  assert (Hfresh : tf_id p ∉ tf_id <$> patches).
  { rewrite list_elem_of_fmap. intros (p' & He & Hp'). apply (Hn p' Hp'). set_solver. }
  split; [csimpl; by constructor|]. split; [|split; [|split]].
  - intros p' [->|Hp']%elem_of_cons; [done|]. specialize (Hn p' Hp'). set_solver.
  - intros p' [->|Hp']%elem_of_cons; [done|]. by apply Hin.
  - intros p' [->|Hp']%elem_of_cons; [rewrite Hout by done; by rewrite lookup_insert_eq|]. by apply Hto.
  - intros id [Hne Hid]%not_elem_of_cons. rewrite Hout by done. by rewrite lookup_insert_ne.
Qed.

(** A folder row written in place of another keeps which folders there are. *)
Lemma folder_kept (fs : gmap str ConnectionFolderRow) id row x : is_Some (fs !! id) -> is_Some (<[id := row]> fs !! x) <-> is_Some (fs !! x).
Proof. intros Hid. rewrite lookup_insert_is_Some'. naive_solver. Qed.

Section writing.
Context (now_text : str) (now_ms : Z).
Implicit Types (t : LocalTables).

(** What the patches say about the rows, and what they leave. *)
Definition folders_moved (patches : list FolderTreePatch) (fs fs' : gmap str ConnectionFolderRow) : Prop :=
  (forall p, p ∈ patches -> exists row, fs !! tf_id p = Some row /\ fs' !! tf_id p = Some (moved_folder now_text p row))
  /\ (forall id, id ∉ tf_id <$> patches -> fs' !! id = fs !! id).
Definition connections_moved (patches : list ConnectionTreePatch) (cs cs' : gmap str ConnectionRecordRow) : Prop :=
  (forall p, p ∈ patches -> exists row, cs !! tc_id p = Some row /\ cs' !! tc_id p = Some (moved_connection now_ms p row))
  /\ (forall id, id ∉ tc_id <$> patches -> cs' !! id = cs !! id).

Lemma write_folders_spec patches n t : NoDup (tf_id <$> patches) ->
  (forall p, p ∈ patches -> is_Some (folders t !! tf_id p) /\ forall q, tf_parent_id p = Some q -> is_Some (folders t !! q)) ->
  exists t', write_folder_patches now_text patches n t = (Ok (n + length patches), t')
    /\ connections t' = connections t /\ folders_moved patches (folders t) (folders t').
Proof.
  revert n t. induction patches as [|p patches IH]; intros n t Hd Hk.
  { exists t. split; [by rewrite Nat.add_0_r|]. split; [done|]. by split; [set_solver|]. }
  csimpl in Hd. apply NoDup_cons in Hd as [Hfresh Hd]. destruct (Hk p) as [[row Hrow] Hpar]; [left|].
  cbn [write_folder_patches]. unfold mbind, ST_bind, update_folder_row. rewrite Hrow.
  assert (Href : folder_ref_ok t (fr_parent_id (moved_folder now_text p row)) = true) by (apply (proj2 (ref_ok_spec t _)); intros q Hq; by apply Hpar).
  rewrite Href. cbn [Nat.eqb negb].
  destruct (IH (S n) (set_folders (<[tf_id p := moved_folder now_text p row]> (folders t)) t) Hd) as (t' & Ht' & Hc & Hto & Hout).
  { intros p' Hp'. destruct (Hk p') as [H1 H2]; [by right|]. cbn. split; [by apply folder_kept|]. intros q Hq.
    apply folder_kept; [done|]. by apply H2. }
  exists t'. split; [rewrite Ht'; do 2 f_equal; simpl; lia|]. split; [done|]. cbn in Hto, Hout. split.
  - intros p' [->|Hp']%elem_of_cons; [exists row; rewrite Hout by done; by rewrite lookup_insert_eq|].
    destruct (Hto p' Hp') as (r & Hr & Hr'). exists r. rewrite lookup_insert_ne in Hr; [done|].
    intros He. apply Hfresh. rewrite He. by apply list_elem_of_fmap_2.
  - intros id [Hne Hid]%not_elem_of_cons. rewrite Hout by done. by rewrite lookup_insert_ne.
Qed.

(** A connection may be unknown: then the loop stops, and the transaction with it. *)
Lemma write_connections_spec patches n t : NoDup (tc_id <$> patches) -> tables_ok t ->
  (forall p q, p ∈ patches -> tc_folder_id p = Some q -> is_Some (folders t !! q)) ->
  (exists e t', write_connection_patches now_ms patches n t = (Err e, t')
    /\ exists p, p ∈ patches /\ connections t !! tc_id p = None)
  \/ exists t', write_connection_patches now_ms patches n t = (Ok (n + length patches), t')
    /\ folders t' = folders t /\ connections_moved patches (connections t) (connections t') /\ tables_ok t'.
Proof.
  revert n t. induction patches as [|p patches IH]; intros n t Hd Hok Hk.
  { right. exists t. split; [by rewrite Nat.add_0_r|]. split; [done|]. split; [|done]. by split; [set_solver|]. }
  csimpl in Hd. apply NoDup_cons in Hd as [Hfresh Hd].
  cbn [write_connection_patches]. unfold mbind, ST_bind, update_connection_row.
  destruct (connections t !! tc_id p) as [row|] eqn:Hrow; [|left; eexists _, _; split; [done|]; exists p; split; [left|done]].
  assert (Href : folder_ref_ok t (cr_folder_id (moved_connection now_ms p row)) = true).
  { apply (proj2 (ref_ok_spec t _)). intros q Hq. by eapply Hk; [left|]. }
  rewrite Href. cbn [Nat.eqb negb].
  set (t1 := set_connections (<[tc_id p := moved_connection now_ms p row]> (connections t)) t).
  assert (Hother : forall p', p' ∈ patches -> connections t1 !! tc_id p' = connections t !! tc_id p').
  { intros p' Hp'. cbn. rewrite lookup_insert_ne; [done|]. intros He. apply Hfresh. rewrite He. by apply list_elem_of_fmap_2. }
  destruct (IH (S n) t1 Hd) as [(e & t' & Hw & p' & Hp' & Hn)|(t' & Hw & Hf & (Hto & Hout) & Ht')].
  { by apply set_connection_ok. } { intros p' q Hp' Hq. by eapply Hk; [right|]. }
  - left. exists e, t'. split; [done|]. exists p'. split; [by right|]. by rewrite <-Hother.
  - right. exists t'. split; [rewrite Hw; do 2 f_equal; simpl; lia|]. split; [done|]. split; [|done]. split.
    + intros p' [->|Hp']%elem_of_cons; [exists row; rewrite Hout by done; cbn; by rewrite lookup_insert_eq|].
      destruct (Hto p' Hp') as (r & Hr & Hr'). exists r. by rewrite <-Hother.
    + intros id [Hne Hid]%not_elem_of_cons. rewrite Hout by done. cbn. by rewrite lookup_insert_ne.
Qed.

Lemma connection_patch_Ok ids patched p patched' : check_connection_patch ids patched p = Ok patched' ->
  tc_id p ∉ patched /\ (forall q, tc_folder_id p = Some q -> q ∈ ids) /\ patched' = {[tc_id p]} ∪ patched.
Proof.
  unfold check_connection_patch. case_bool_decide; [done|]. case_bool_decide as Hp; [done|].
  destruct (check_patch_folder ids p) as [[]|] eqn:Ec; [|done]. intros [= <-]. split; [done|]. split; [|done].
  intros q. by apply patch_folder_known.
Qed.

Lemma check_connections_spec ids patches patched patched' : try_fold (check_connection_patch ids) patched patches = Ok patched' ->
  NoDup (tc_id <$> patches) /\ (forall p, p ∈ patches -> tc_id p ∉ patched) /\ forall p q, p ∈ patches -> tc_folder_id p = Some q -> q ∈ ids.
Proof.
  revert patched. induction patches as [|p patches IH]; intros patched; cbn [try_fold]; [split; [constructor|]; set_solver|].
  destruct (check_connection_patch ids patched p) as [patched1|] eqn:E1; [|done]. cbn [mbind Result_bind].
  apply connection_patch_Ok in E1 as (Hp & Hq & ->). intros (Hd & Hn & Hk)%IH. split; [csimpl; constructor; [|done]|split].
  - rewrite list_elem_of_fmap. intros (p' & He & Hp'). apply (Hn p' Hp'). set_solver.
  - intros p' [->|Hp']%elem_of_cons; [done|]. specialize (Hn p' Hp'). set_solver.
  - intros p' q [->|Hp']%elem_of_cons; [by apply Hq|]. by apply Hk.
Qed.
End writing.

Section moves.
Context (now_text : str) (now_ms : Z).
Implicit Types (t : LocalTables).

(** The parents of the rows that are written are the parents that were checked. *)
Lemma moved_parents patches fs fs' parents' : folders_moved now_text patches fs fs' ->
  parents_patched patches (fr_parent_id <$> fs) parents' -> fr_parent_id <$> fs' = parents'.
Proof.
  intros [Hto Hout] [Pto Pout]. apply map_eq. intros id. rewrite lookup_fmap.
  destruct (decide (id ∈ tf_id <$> patches)) as [Hin|Hn].
  - apply list_elem_of_fmap in Hin as (p & -> & Hp). rewrite (Pto p Hp). by destruct (Hto p Hp) as (row & _ & ->).
  - by rewrite (Hout _ Hn), (Pout _ Hn), lookup_fmap.
Qed.

Lemma moved_known patches fs fs' id : folders_moved now_text patches fs fs' -> is_Some (fs' !! id) <-> is_Some (fs !! id).
Proof.
  intros [Hto Hout]. destruct (decide (id ∈ tf_id <$> patches)) as [Hin|Hn]; [|by rewrite Hout].
  apply list_elem_of_fmap in Hin as (p & -> & Hp). destruct (Hto p Hp) as (row & -> & ->). by split; eexists.
Qed.

Lemma tree_parents_exist fs : folder_tree fs -> parents_exist fs.
Proof.
  intros Ht id row q Hid Hq. assert (Hr : rooted fs id) by (apply Ht; by eexists).
  inversion Hr as [? r H1 H2|? r p H1 H2 H3]; simplify_eq. by inversion H3; eexists.
Qed.

Lemma moved_tree ids acc' patches t fs' :
  tables_ok t -> ids = dom (fr_parent_id <$> folders t) ->
  try_fold (check_folder_patch ids) (∅, fr_parent_id <$> folders t) patches = Ok acc' ->
  ensure_no_cycles (map_to_list acc'.2).*1 acc'.2 = Some (Ok tt) -> folders_moved now_text patches (folders t) fs' ->
  tables_ok (set_folders fs' t).
Proof.
  intros [Ht Hc] -> (_ & _ & Hk & Hpp)%check_folders_spec Hcyc Hm. cbn [snd] in Hpp.
  pose proof (moved_parents _ _ _ _ Hm Hpp) as Hpar. split.
  - cbn. rewrite <-Hpar in Hcyc. destruct (no_cycles_exact fs') as (r & Hr & Hex); [|rewrite Hcyc in Hr; injection Hr as <-; by apply Hex].
    intros id row q Hid Hq. apply (moved_known _ _ _ _ Hm). assert (Hl : acc'.2 !! id = Some (Some q)) by (rewrite <-Hpar, lookup_fmap, Hid; cbn; by rewrite Hq).
    destruct (decide (id ∈ tf_id <$> patches)) as [Hin|Hn].
    + apply list_elem_of_fmap in Hin as (p & -> & Hp). destruct Hpp as [Hto _]. rewrite (Hto p Hp) in Hl. injection Hl as Hl.
      destruct (Hk p Hp) as [_ Hd]. apply Hd in Hl. by rewrite dom_fmap, elem_of_dom in Hl.
    + destruct Hpp as [_ Hout]. rewrite (Hout _ Hn), lookup_fmap in Hl. apply fmap_Some in Hl as (r & Hr & Hq').
      by eapply tree_parents_exist.
  - cbn. intros id row f Hid Hf. apply (moved_known _ _ _ _ Hm). by eapply Hc.
Qed.

Lemma validated_parts input t r : validate_reorder_input input t = Some (Ok r) ->
  exists acc', try_fold (check_folder_patch (dom (fr_parent_id <$> folders t))) (∅, fr_parent_id <$> folders t) (folder_patches input) = Ok acc'
    /\ ensure_no_cycles (map_to_list acc'.2).*1 acc'.2 = Some (Ok tt)
    /\ exists ids, try_fold (check_connection_patch (dom (fr_parent_id <$> folders t))) ∅ (connection_patches input) = Ok ids.
Proof.
  unfold validate_reorder_input. destruct (try_fold (check_folder_patch _) _ _) as [[patched parents]|e]; [|done].
  destruct (ensure_no_cycles _ parents) as [[[]|e]|] eqn:Ec; [|done..]. cbn.
  destruct (try_fold (check_connection_patch _) ∅ _) as [ids|e]; [|done]. intros _. exists (patched, parents). eauto.
Qed.

Lemma validate_returns input t : is_Some (validate_reorder_input input t).
Proof.
  unfold validate_reorder_input. destruct (try_fold (check_folder_patch _) _ _) as [[patched parents]|e]; [|done].
  destruct (no_cycles_spec (map_to_list parents).*1 parents) as (r & -> & _). done.
Qed.

(** What a move promises: it fails for a reason and leaves the tables, or it puts every
    folder and connection it names where it says and touches no other row. *)
Definition move_spec (io : option AppError) (input : ReorderConnectionTreeInput) t
    (r : AppResult ReorderConnectionTreeResult) t' : Prop :=
  match r with
  | Err e => t' = t /\ (validate_reorder_input input t = Some (Err e) \/ io = Some e
      \/ exists p, p ∈ connection_patches input /\ connections t !! tc_id p = None)
  | Ok result => result = mkReorderConnectionTreeResult (length (folder_patches input)) (length (connection_patches input))
      /\ folders_moved now_text (folder_patches input) (folders t) (folders t')
      /\ connections_moved now_ms (connection_patches input) (connections t) (connections t')
  end.

Lemma reorder_ok io input t : tables_ok t ->
  exists r t', reorder now_text now_ms io input t = Some (r, t') /\ tables_ok t' /\ move_spec io input t r t'.
Proof.
  intros Ht. unfold reorder. destruct (validate_returns input t) as [[u|e] Hv]; rewrite Hv; [|eexists _, _; split; [done|]; split; [done|]; split; auto].
  destruct (validated_parts _ _ _ Hv) as (acc' & Hf & Hcyc & ids & Hc).
  pose proof (check_folders_spec _ _ _ _ Hf) as (Hd & _ & Hk & _). pose proof (check_connections_spec _ _ _ _ Hc) as (Hd' & _ & Hk').
  unfold write_reorder, transaction. destruct io as [e|]; [eexists _, _; split; [done|]; split; [done|]; split; auto|].
  assert (Hdom : forall q, q ∈ dom (fr_parent_id <$> folders t) -> is_Some (folders t !! q)) by (intros q; by rewrite dom_fmap, elem_of_dom).
  destruct (write_folders_spec now_text (folder_patches input) 0 t Hd) as (t1 & Hw & Hcon & Hm).
  { intros p Hp. destruct (Hk p Hp) as [H1 H2]. split; [by apply Hdom|]. intros q Hq. apply Hdom. by apply H2. }
  assert (Ht1 : tables_ok t1).
  { pose proof (moved_tree _ _ _ t (folders t1) Ht eq_refl Hf Hcyc Hm) as H. unfold set_folders in H. rewrite <-Hcon in H. by destruct t1. }
  unfold mbind at 1, ST_bind at 1. rewrite Hw. unfold mbind, ST_bind.
  destruct (write_connections_spec now_ms (connection_patches input) 0 t1 Hd' Ht1) as [(e & t' & -> & p & Hp & Hn)|(t' & -> & Hfo & Hmc & Ht')].
  { intros p q Hp Hq. apply (moved_known _ _ _ _ Hm). apply Hdom. by eapply Hk'. }
  - eexists _, _. split; [done|]. split; [done|]. split; [done|]. right. right. exists p. by rewrite <-Hcon.
  - eexists _, _. split; [done|]. split; [done|]. split; [done|]. rewrite Hfo, <-Hcon. done.
Qed.

(** A move in the tree. The request always returns. When it is refused the tables are
    as they were, and either a check failed, or the database did, or the request names a
    connection that is not there; otherwise every folder and connection it names is at
    its new place with its new position, nothing else has changed, and the folders still
    form a tree. *)
Theorem reorder_moves_the_tree io input t : tables_ok t ->
  exists r t', reorder now_text now_ms io input t = Some (r, t') /\ tables_ok t' /\ move_spec io input t r t'.
Proof. apply reorder_ok. Qed.
End moves.

Definition nested_tables : LocalTables := mkLocalTables ∅ nested_folders.

Lemma nested_tables_ok : tables_ok nested_tables.
Proof.
  split; [|intros id row f H; cbn in H; by rewrite lookup_empty in H].
  destruct (no_cycles_exact nested_folders nested_parents_exist) as (r & Hr & Hex). apply Hex.
  enough (Some r = Some (Ok tt)) by congruence. rewrite <-Hr. by vm_compute.
Qed.

(** The third folder moves next to the second; moving the first into the third is
    refused. *)
Definition move_up : ReorderConnectionTreeInput :=
  mkReorderConnectionTreeInput [mkFolderTreePatch (lit "c") (Some (lit "a")) (Some 1%Z)] [].
Definition move_into_itself : ReorderConnectionTreeInput :=
  mkReorderConnectionTreeInput [mkFolderTreePatch (lit "a") (Some (lit "c")) None] [].

Lemma reorder_moves_the_tree_witness :
  (fst <$> reorder (lit "t1") 0 None move_up nested_tables = Some (Ok (mkReorderConnectionTreeResult 1 0))
   /\ fst <$> reorder (lit "t1") 0 None move_into_itself nested_tables
      = Some (Err (EValidation (lit "Connection folder parent would create a cycle"))))
  /\ exists r t', reorder (lit "t1") 0 None move_up nested_tables = Some (r, t') /\ tables_ok t'
     /\ move_spec (lit "t1") 0 None move_up nested_tables r t'.
Proof.
  split; [split; by vm_compute|]. apply (reorder_moves_the_tree (lit "t1") 0 None move_up nested_tables). apply nested_tables_ok.
Defined.

(** ** The folder tree is kept *)

Section operations.
Context {J : JsonNumber} (json_from_str : str -> option Value) (json_to_string : Value -> str).
Implicit Types (t : LocalTables).

(** The commands of the workbench that change the two tables, with the time they run at.
    A command is one step here: in the source its checks and its UPDATE are separate
    statements on the pool, so that this is the behaviour of commands that run one after
    another ([Connections.concurrent_moves_make_a_cycle] is about two that overlap). *)
Inductive LocalOp :=
| CreateConnection (now : Z) (input : ConnectionInput)
| UpdateConnection (now : Z) (input : ConnectionInput)
| DeleteConnection (id : str)
| CreateFolder (now : str) (input : ConnectionFolderInput)
| UpdateFolder (now : str) (input : ConnectionFolderInput)
| DeleteFolder (id : str)
| Reorder (now_text : str) (now : Z) (io : option AppError) (input : ReorderConnectionTreeInput).

(** [None]: the command does not return. *)
Definition run_local (op : LocalOp) t : option LocalTables :=
  match op with
  | CreateConnection now input => Some (create_connection json_from_str json_to_string now input t).2
  | UpdateConnection now input => Some (update_connection json_from_str json_to_string now input t).2
  | DeleteConnection id => Some (delete_connection id t).2
  | CreateFolder now input => Some (create_folder now input t).2
  | UpdateFolder now input => snd <$> update_folder now input t
  | DeleteFolder id => Some (delete_folder id t).2
  | Reorder now_text now io input => snd <$> reorder now_text now io input t
  end.

Fixpoint run_locals (ops : list LocalOp) t : option LocalTables :=
  match ops with
  | [] => Some t
  | op :: ops => t' ← run_local op t; run_locals ops t'
  end.

Lemma run_local_ok op t : tables_ok t -> exists t', run_local op t = Some t' /\ tables_ok t'.
Proof.
  intros Ht. destruct op as [now i|now i|id|now i|now i|id|now z io i]; simpl.
  - eauto using create_connection_ok.
  - eauto using update_connection_ok.
  - eauto using delete_connection_ok.
  - eauto using create_folder_ok.
  - destruct (update_folder_ok now i t Ht) as (r & t' & -> & Ht'). simpl. eauto.
  - eauto using delete_folder_ok.
  - destruct (reorder_ok now z io i t Ht) as (r & t' & -> & Ht' & _). simpl. eauto.
Qed.

(** C29: The folders stay a tree as long as the commands run one after another. From an
    empty database, whatever sequence of commands creates, edits, moves and deletes
    connections and folders, each of them begun when the one before has returned, every
    command returns (the searches for a cycle end), every folder leads over its parents to
    a folder at the top, so that no parent is missing and there is no cycle, and every
    connection is in a folder that exists. This is not so for commands that overlap, whose
    checks and updates are separate statements, nor for what a synchronisation pulls in:
    both can close a cycle ([concurrent_moves_make_a_cycle], [pull_closes_a_cycle]). *)
Theorem folders_stay_a_tree ops : exists t, run_locals ops (mkLocalTables ∅ ∅) = Some t /\ tables_ok t.
Proof.
  assert (H0 : tables_ok (mkLocalTables ∅ ∅)).
  { split; [intros id H; cbn in H; rewrite lookup_empty in H; by destruct H|]. intros id r f H. cbn in H. by rewrite lookup_empty in H. }
  revert H0. generalize (mkLocalTables ∅ ∅). induction ops as [|op ops IH]; intros t Ht; simpl; [eauto|].
  destruct (run_local_ok op t Ht) as (t' & -> & Ht'). simpl. by apply IH.
Qed.
End operations.
