(* ===== verification/SyncProjection.v ===== *)
(** * What is synchronised of a connection
    ([src-tauri/src/cloud/sync_projection.rs], and the merging of local paths in
     [src-tauri/src/cloud/sync_apply.rs])

    A connection or a folder is uploaded as the canonical JSON text of a projection,
    which leaves out the file paths that only make sense on one machine; a projection
    that comes down is merged with the paths of this machine.  The digest of the text
    decides whether a local row was edited since. *)

From stdpp Require Import base gmap list strings fin_maps.
From Stdlib Require Import ZArith Lia Sorting.
From S2P Require Import Prelude Types Connections.

(** ** JSON objects with their keys in order *)

Definition key_lt (a b : str) : Prop := str_compare a b = Lt.

Lemma str_compare_antisym a b : str_compare b a = CompOpp (str_compare a b).
Proof.
  revert b. induction a as [|x a IH]; intros [|y b]; simpl; try done. rewrite (Z.compare_antisym x y).
  destruct (x ?= y)%Z; simpl; [apply IH|done|done].
Qed.

#[export] Instance key_lt_trans : Transitive key_lt.
Proof.
  unfold key_lt. intros a. induction a as [|x a IH]; intros [|y b] [|z c]; simpl; try done.
  destruct (x ?= y)%Z eqn:Hxy, (y ?= z)%Z eqn:Hyz, (x ?= z)%Z eqn:Hxz;
    rewrite ?Z.compare_eq_iff, ?Z.compare_lt_iff, ?Z.compare_gt_iff in *; try done; try lia. apply IH.
Qed.

Section objects.
Context {J : JsonNumber}.
Implicit Types (fields : list (str * Value)).

Definition sorted_keys fields : Prop := StronglySorted key_lt (map fst fields).

(** Every object of the value has its keys in strictly increasing order, as the
    [BTreeMap] behind it keeps them. *)
Fixpoint value_ok (v : Value) : Prop :=
  match v with
  | VArray l => (fix all l := match l with [] => True | v :: l => value_ok v /\ all l end) l
  | VObject fields =>
    sorted_keys fields
    /\ (fix all (l : list (str * Value)) := match l with [] => True | e :: l => value_ok e.2 /\ all l end) fields
  | _ => True
  end.

Lemma value_ok_array l : value_ok (VArray l) <-> Forall value_ok l.
Proof. simpl. induction l as [|v l IH]; [done|]. by rewrite Forall_cons, IH. Qed.

Lemma value_ok_object fields : value_ok (VObject fields) <-> sorted_keys fields /\ Forall (fun e => value_ok e.2) fields.
Proof. simpl. f_equiv. induction fields as [|v l IH]; [done|]. by rewrite Forall_cons, IH. Qed.

Lemma Value_nested_ind (P : Value -> Prop) :
  P VNull -> (forall b, P (VBool b)) -> (forall n, P (VNumber n)) -> (forall s, P (VString s)) ->
  (forall l, Forall P l -> P (VArray l)) -> (forall fields, Forall (fun e => P e.2) fields -> P (VObject fields)) ->
  forall v, P v.
Proof.
  intros Hn Hb Hm Hs Ha Ho. fix IH 1. intros [|b|n|s|l|fields].
  - exact Hn.
  - apply Hb.
  - apply Hm.
  - apply Hs.
  - apply Ha. induction l as [|v l IHl]; constructor; [apply IH|exact IHl].
  - apply Ho. induction fields as [|[k v] l IHl]; constructor; [apply IH|exact IHl].
Qed.

Lemma map_insert_last k v fields : Forall (fun e => key_lt e.1 k) fields -> map_insert k v fields = fields ++ [(k, v)].
Proof.
  induction fields as [|[k' v'] fields IH]; simpl; [done|]. intros [Hk H]%Forall_cons. unfold key_lt in Hk. simpl in Hk.
  rewrite str_compare_antisym, Hk. simpl. by rewrite IH.
Qed.

(** Collecting entries that are in order keeps them. *)
Lemma map_collect_sorted fields : sorted_keys fields -> map_collect fields = fields.
Proof.
  unfold map_collect. change fields with ([] ++ fields) at 1 3. generalize ([] : list (str * Value)) as done.
  induction fields as [|[k v] fields IH]; intros done Hs; simpl; [by rewrite app_nil_r|].
  rewrite map_insert_last.
  - rewrite IH; [by rewrite <-app_assoc|]. by rewrite <-app_assoc.
  - unfold sorted_keys in Hs. rewrite map_app in Hs. clear IH. induction done as [|[k' v'] done IH]; constructor.
    + apply StronglySorted_inv in Hs as [_ Hs]. rewrite Forall_forall in Hs. apply Hs. simpl. set_solver.
    + apply StronglySorted_inv in Hs as [Hs _]. by apply IH.
Qed.

Lemma sorted_keys_map (f : str * Value -> Value) fields :
  sorted_keys fields -> sorted_keys (map (fun e => (e.1, f e)) fields).
Proof. unfold sorted_keys. by rewrite map_map. Qed.

Lemma sorted_keys_flat_map (f : str * Value -> list (str * Value)) fields :
  (forall e, f e = [] \/ exists v, f e = [(e.1, v)]) -> sorted_keys fields -> sorted_keys (flat_map f fields).
Proof.
  intros Hf. unfold sorted_keys. induction fields as [|e fields IH]; simpl; [done|]. intros [Hs Hlt]%StronglySorted_inv.
  assert (Hsub : forall k, k ∈ map fst (flat_map f fields) -> k ∈ map fst fields).
  { intros k (e' & -> & (e0 & H0 & He')%list_elem_of_In%in_flat_map)%list_elem_of_fmap.
    destruct (Hf e0) as [Hn|[v Hv]]; [by rewrite Hn in He'|]. rewrite Hv in He'. destruct He' as [<-|[]]. simpl.
    apply list_elem_of_fmap. exists e0. split; [done|]. by apply list_elem_of_In. }
  destruct (Hf e) as [->|[v ->]]; [by apply IH|]. simpl. constructor; [by apply IH|].
  rewrite Forall_forall in *. intros k Hk%Hsub. by apply Hlt.
Qed.

Lemma map_get_some k v fields : map_get k fields = Some v -> (k, v) ∈ fields.
Proof.
  induction fields as [|[k' v'] fields IH]; simpl; [done|]. unfold str_eqb. case_bool_decide as E.
  - intros [= ->]. subst. left.
  - intros H. right. by apply IH.
Qed.
End objects.

(** ** Projections *)

Definition SYNC_SCHEMA_VERSION : Z := 1.

Inductive CloudSyncAssetType := Connection | ConnectionFolder.

#[export] Instance CloudSyncAssetType_eq_dec : EqDecision CloudSyncAssetType.
Proof. solve_decision. Defined.
#[export] Instance CloudSyncAssetType_countable : Countable CloudSyncAssetType.
Proof.
  refine (inj_countable' (fun t => match t with Connection => true | ConnectionFolder => false end)
    (fun b => if b : bool then Connection else ConnectionFolder) _). by intros [].
Defined.

(** [CloudSyncAssetType::as_str]. *)
Definition asset_type_as_str (t : CloudSyncAssetType) : str :=
  match t with Connection => lit "connection" | ConnectionFolder => lit "connection_folder" end.

Inductive LocalDependencyKind := DatabaseFile | SshPrivateKey.

#[export] Instance LocalDependencyKind_eq_dec : EqDecision LocalDependencyKind.
Proof. solve_decision. Defined.

(** [serde(rename_all = "snake_case")] *)
Definition dependency_as_str (k : LocalDependencyKind) : str :=
  match k with DatabaseFile => lit "database_file" | SshPrivateKey => lit "ssh_private_key" end.

Section projection.
Context {J : JsonNumber}.

Record ConnectionSyncProjection := mkConnectionSyncProjection {
  cp_schema_version : Z;
  cp_asset_type : CloudSyncAssetType;
  cp_id : str;
  cp_name : str;
  cp_driver : str;
  cp_environment : str;
  cp_color : option str;
  cp_note : str;
  cp_tag_label : str;
  cp_tag_color : option str;
  cp_folder_id : option str;
  cp_sort_order : option Z;
  cp_payload : Value;
  cp_local_dependencies : list LocalDependencyKind;
}.

Record ConnectionFolderSyncProjection := mkConnectionFolderSyncProjection {
  fp_schema_version : Z;
  fp_asset_type : CloudSyncAssetType;
  fp_id : str;
  fp_name : str;
  fp_parent_id : option str;
  fp_sort_order : option Z;
}.

(** [Value::get] with a key, [as_str] and [as_bool]. *)
Definition value_get (k : string) (v : Value) : option Value :=
  match v with VObject fields => map_get (lit k) fields | _ => None end.
Definition as_text (v : Value) : option str := match v with VString s => Some s | _ => None end.
Definition as_bool (v : Value) : option bool := match v with VBool b => Some b | _ => None end.

(** The set of names is iterated in the order of its variants. *)
Definition collect_local_dependencies (driver : ConnectionDriver) (payload : Value) : list LocalDependencyKind :=
  let database_file :=
    match driver with
    | CdSqlite => true
    | CdChroma => bool_decide ((value_get "mode" payload ≫= as_text) = Some (lit "local"))
    | _ => false
    end in
  let ssh_tunnel := value_get "sshTunnel" payload in
  let ssh_private_key :=
    bool_decide (((ssh_tunnel ≫= value_get "enabled") ≫= as_bool) = Some true)
    && bool_decide (((ssh_tunnel ≫= value_get "authMethod") ≫= as_text) = Some (lit "private-key")) in
  (if database_file then [DatabaseFile] else []) ++ (if ssh_private_key then [SshPrivateKey] else []).

Definition local_path_keys : list str := [lit "dbFilePath"; lit "privateKeyPath"].
Definition is_path_key (key : str) : bool := bool_decide (key ∈ local_path_keys).

Fixpoint sanitize_payload (value : Value) : Value :=
  match value with
  | VObject object =>
    VObject (map_collect (flat_map (fun e => if is_path_key e.1 then [] else [(e.1, sanitize_payload e.2)]) object))
  | VArray items => VArray (map sanitize_payload items)
  | _ => value
  end.

(** [sort_by] on the entries of an object. *)
Fixpoint insert_entry {A} (e : str * A) (l : list (str * A)) : list (str * A) :=
  match l with
  | [] => [e]
  | e' :: l' => match str_compare e.1 e'.1 with Lt => e :: l | _ => e' :: insert_entry e l' end
  end.
Definition sort_entries {A} (l : list (str * A)) : list (str * A) := fold_left (fun acc e => insert_entry e acc) l [].

(** The entries are sorted with their values already in canonical form, which does not
    change the order of the keys. *)
Fixpoint canonicalize_json (value : Value) : Value :=
  match value with
  | VObject object => VObject (map_collect (sort_entries (map (fun e => (e.1, canonicalize_json e.2)) object)))
  | VArray items => VArray (map canonicalize_json items)
  | _ => value
  end.

(** *** [serde_json::to_value] of the two projections *)

Context (number_of_i64 : Z -> Number).

Definition opt_string (o : option str) : Value := match o with Some s => VString s | None => VNull end.
Definition opt_number (o : option Z) : Value := match o with Some n => VNumber (number_of_i64 n) | None => VNull end.

Definition connection_to_value (c : ConnectionSyncProjection) : Value :=
  VObject (map_collect
    [(lit "schemaVersion", VNumber (number_of_i64 (cp_schema_version c)));
     (lit "assetType", VString (asset_type_as_str (cp_asset_type c)));
     (lit "id", VString (cp_id c));
     (lit "name", VString (cp_name c));
     (lit "driver", VString (cp_driver c));
     (lit "environment", VString (cp_environment c));
     (lit "color", opt_string (cp_color c));
     (lit "note", VString (cp_note c));
     (lit "tagLabel", VString (cp_tag_label c));
     (lit "tagColor", opt_string (cp_tag_color c));
     (lit "folderId", opt_string (cp_folder_id c));
     (lit "sortOrder", opt_number (cp_sort_order c));
     (lit "payload", cp_payload c);
     (lit "localDependencies", VArray (map (fun k => VString (dependency_as_str k)) (cp_local_dependencies c)))]).

Definition folder_to_value (f : ConnectionFolderSyncProjection) : Value :=
  VObject (map_collect
    [(lit "schemaVersion", VNumber (number_of_i64 (fp_schema_version f)));
     (lit "assetType", VString (asset_type_as_str (fp_asset_type f)));
     (lit "id", VString (fp_id f));
     (lit "name", VString (fp_name f));
     (lit "parentId", opt_string (fp_parent_id f));
     (lit "sortOrder", opt_number (fp_sort_order f))]).

(** The projections of a record, before they are serialized. *)
Definition project_connection (record : StoredConnectionRecord) : ConnectionSyncProjection :=
  mkConnectionSyncProjection SYNC_SCHEMA_VERSION Connection (r_id record) (r_name record)
    (driver_as_str (r_driver record)) (r_environment record) (r_color record) (r_note record)
    (r_tag_label record) (r_tag_color record) (r_folder_id record) (r_sort_order record)
    (sanitize_payload (r_payload record)) (collect_local_dependencies (r_driver record) (r_payload record)).

Definition project_folder (record : StoredConnectionFolder) : ConnectionFolderSyncProjection :=
  mkConnectionFolderSyncProjection SYNC_SCHEMA_VERSION ConnectionFolder (f_id record) (f_name record)
    (f_parent_id record) (f_sort_order record).

(** *** Bytes and digests *)

Context (json_to_string : Value -> str) (sha256 : list Z -> list Z).

Definition serialize_with_digest (projection : Value) : list Z * list Z :=
  let canonical := canonicalize_json projection in
  let bytes := as_bytes (json_to_string canonical) in
  (bytes, sha256 bytes).

Definition connection_projection (record : StoredConnectionRecord) : list Z * list Z :=
  serialize_with_digest (connection_to_value (project_connection record)).

Definition folder_projection (record : StoredConnectionFolder) : list Z * list Z :=
  serialize_with_digest (folder_to_value (project_folder record)).

(** ** Merging the paths of this machine ([sync_apply.rs]) *)

Definition dependency_allowed (key : str) (dependencies : list LocalDependencyKind) : bool :=
  if str_eqb key (lit "dbFilePath") then bool_decide (DatabaseFile ∈ dependencies)
  else if str_eqb key (lit "privateKeyPath") then bool_decide (SshPrivateKey ∈ dependencies)
  else false.

Fixpoint merge_local_paths (remote : Value) (local : option Value) (dependencies : list LocalDependencyKind) : Value :=
  match remote, local with
  | VObject remote_fields, Some (VObject local_fields) =>
    let merged := map_collect (map (fun e =>
      (e.1, merge_local_paths e.2 (map_get e.1 local_fields) dependencies)) remote_fields) in
    VObject (fold_left (fun merged key =>
      if dependency_allowed key dependencies then
        match map_get key local_fields with Some value => map_insert key value merged | None => merged end
      else merged) local_path_keys merged)
  | _, _ => remote
  end.

Fixpoint non_empty_string_at (value : Value) (path : list string) : bool :=
  match path with
  | [] => match as_text value with Some s => bool_decide (trim s <> []) | None => false end
  | key :: path => match value_get key value with Some next => non_empty_string_at next path | None => false end
  end.

Definition dependency_is_present (payload : Value) (dependency : LocalDependencyKind) : bool :=
  match dependency with
  | DatabaseFile => non_empty_string_at payload ["dbFilePath"] || non_empty_string_at payload ["localConfig"; "dbFilePath"]
  | SshPrivateKey => non_empty_string_at payload ["sshTunnel"; "privateKeyPath"]
  end.
End projection.

(** ** No local path leaves the machine *)

Section theorems.
Context {J : JsonNumber}.
Implicit Types (fields : list (str * Value)) (v p : Value).

Lemma path_key_false k : is_path_key k = false <-> k <> lit "dbFilePath" /\ k <> lit "privateKeyPath".
Proof. unfold is_path_key, local_path_keys. rewrite bool_decide_eq_false, !not_elem_of_cons. set_solver. Qed.

(** No object of the value has one of the two path keys. *)
Fixpoint path_free v : Prop :=
  match v with
  | VArray l => (fix all l := match l with [] => True | v :: l => path_free v /\ all l end) l
  | VObject fields =>
    (fix all (l : list (str * Value)) :=
       match l with [] => True | e :: l => ((e.1 <> lit "dbFilePath" /\ e.1 <> lit "privateKeyPath") /\ path_free e.2) /\ all l end) fields
  | _ => True
  end.

Lemma path_free_array l : path_free (VArray l) <-> Forall path_free l.
Proof. simpl. induction l as [|v l IH]; [done|]. by rewrite Forall_cons, IH. Qed.

Lemma path_free_object fields : path_free (VObject fields) <-> Forall (fun e => is_path_key e.1 = false /\ path_free e.2) fields.
Proof. simpl. induction fields as [|v l IH]; [done|]. by rewrite Forall_cons, <-IH, path_key_false. Qed.

Lemma Forall_both {A} (P Q R : A -> Prop) l : (forall x, P x -> Q x -> R x) -> Forall P l -> Forall Q l -> Forall R l.
Proof. rewrite !Forall_forall. eauto. Qed.

Lemma map_insert_Forall (P : str * Value -> Prop) k v fields : P (k, v) -> Forall P fields -> Forall P (map_insert k v fields).
Proof.
  intros Hk. induction fields as [|[k' v'] fields IH]; simpl; [by constructor|]. intros [Hk' H]%Forall_cons.
  destruct (str_compare k k'); repeat constructor; auto.
Qed.

Lemma map_collect_Forall (P : str * Value -> Prop) l : Forall P l -> Forall P (map_collect l).
Proof.
  unfold map_collect. intros Hl. assert (H0 : Forall P []) by constructor. revert H0. generalize ([] : list (str * Value)) as m.
  induction Hl as [|[k v] l Hx Hl IH]; intros m Hm; simpl; [done|]. apply IH. by apply map_insert_Forall.
Qed.

Lemma map_insert_keys k v (fields : list (str * Value)) x :
  x ∈ map fst (map_insert k v fields) -> x = k \/ x ∈ map fst fields.
Proof.
  induction fields as [|[k' v'] fields IH]; simpl; [set_solver|].
  destruct (str_compare k k'); simpl; rewrite !elem_of_cons; [tauto..|]. intros [?|?%IH]; tauto.
Qed.

Lemma map_insert_ok k v (fields : list (str * Value)) : value_ok v -> value_ok (VObject fields) -> value_ok (VObject (map_insert k v fields)).
Proof.
  rewrite !value_ok_object. intros Hv [Hs Hf]. split; [|by apply map_insert_Forall]. clear Hv Hf. unfold sorted_keys in *.
  induction fields as [|[k' v'] fields IH]; simpl; [repeat constructor|]. simpl in Hs.
  pose proof (StronglySorted_inv Hs) as [Hs1 Hs2]. destruct (str_compare k k') eqn:E; simpl.
  - apply str_compare_eq in E as <-. by constructor.
  - constructor; [done|]. constructor; [done|]. eapply Forall_impl; [exact Hs2|]. intros x Hx. by eapply key_lt_trans.
  - constructor; [by apply IH|]. apply Forall_forall. intros x [->|Hx]%map_insert_keys; [|by rewrite Forall_forall in Hs2; apply Hs2].
    unfold key_lt. by rewrite str_compare_antisym, E.
Qed.

Lemma map_collect_ok (l : list (str * Value)) : Forall (fun e => value_ok e.2) l -> value_ok (VObject (map_collect l)).
Proof.
  unfold map_collect. intros Hl. assert (H0 : value_ok (VObject [])) by (apply value_ok_object; split; constructor).
  revert H0. generalize ([] : list (str * Value)) as m.
  induction Hl as [|[k v] l Hv Hl IH]; intros m Hm; simpl; [done|]. apply IH. by apply map_insert_ok.
Qed.

Lemma insert_entry_perm {A} (e : str * A) l : insert_entry e l ≡ₚ e :: l.
Proof.
  induction l as [|e' l IH]; simpl; [done|]. destruct (str_compare e.1 e'.1); [|done|];
    (rewrite IH; apply Permutation_swap).
Qed.

Lemma sort_entries_perm {A} (l : list (str * A)) : sort_entries l ≡ₚ l.
Proof.
  unfold sort_entries. change l with ([] ++ l) at 2. generalize ([] : list (str * A)) as acc.
  induction l as [|e l IH]; intros acc; simpl; [by rewrite app_nil_r|]. rewrite IH, insert_entry_perm. simpl.
  by rewrite <-Permutation_middle.
Qed.

Lemma sanitize_path_free v : path_free (sanitize_payload v).
Proof.
  induction v as [| | | |l IH|fields IH] using Value_nested_ind; try done; cbn [sanitize_payload].
  - apply path_free_array. by rewrite Forall_map.
  - apply path_free_object, map_collect_Forall. induction IH as [|[k v] fields Hv _ IH]; simpl; [done|].
    destruct (is_path_key k) eqn:E; [done|]. simpl. by constructor.
Qed.

Lemma canonicalize_path_free v : path_free v -> path_free (canonicalize_json v).
Proof.
  induction v as [| | | |l IH|fields IH] using Value_nested_ind; try done; cbn [canonicalize_json].
  - rewrite !path_free_array, Forall_map. intros H. eapply Forall_both; [|exact IH|exact H]. auto.
  - rewrite !path_free_object. intros H. apply map_collect_Forall. rewrite sort_entries_perm, Forall_map.
    eapply Forall_both; [|exact IH|exact H]. intros [k x] Hx [Hk Hp]; simpl in *. auto.
Qed.

(** *** Merging and projecting back *)

Lemma sanitize_object fields : sorted_keys fields ->
  sanitize_payload (VObject fields)
  = VObject (flat_map (fun e => if is_path_key e.1 then [] else [(e.1, sanitize_payload e.2)]) fields).
Proof.
  intros Hs. cbn [sanitize_payload]. f_equal. apply map_collect_sorted, sorted_keys_flat_map; [|done].
  intros e. destruct (is_path_key e.1); eauto.
Qed.

Lemma sanitize_insert_path k v fields : is_path_key k = true ->
  flat_map (fun e => if is_path_key e.1 then [] else [(e.1, sanitize_payload e.2)]) (map_insert k v fields)
  = flat_map (fun e => if is_path_key e.1 then [] else [(e.1, sanitize_payload e.2)]) fields.
Proof.
  intros Hk. induction fields as [|[k' v'] fields IH]; simpl; [by rewrite Hk|].
  destruct (str_compare k k') eqn:E; simpl; rewrite ?Hk.
  - apply str_compare_eq in E as <-. by rewrite Hk.
  - done.
  - by rewrite IH.
Qed.

Lemma merged_fields (f : Value -> option Value -> Value) fields local :
  sorted_keys fields ->
  map_collect (map (fun e => (e.1, f e.2 (map_get e.1 local))) fields) = map (fun e => (e.1, f e.2 (map_get e.1 local))) fields.
Proof. intros Hs. by apply map_collect_sorted, sorted_keys_map with (f := fun e => f e.2 (map_get e.1 local)). Qed.

Lemma sanitize_merge v local d : value_ok v -> sanitize_payload (merge_local_paths v local d) = sanitize_payload v.
Proof.
  revert local. induction v as [| | | |l IH|fields IH] using Value_nested_ind; intros local; try done.
  intros [Hs Hok]%value_ok_object. destruct local as [[| | | | |lf]|]; try done. cbn [merge_local_paths].
  rewrite (merged_fields (fun v l => merge_local_paths v l d)) by done.
  cbn [sanitize_payload]. f_equal. f_equal. unfold local_path_keys. cbn [fold_left].
  assert (Hp : forall k m, is_path_key k = true ->
    flat_map (fun e => if is_path_key e.1 then [] else [(e.1, sanitize_payload e.2)])
      (if dependency_allowed k d then match map_get k lf with Some value => map_insert k value m | None => m end else m)
    = flat_map (fun e => if is_path_key e.1 then [] else [(e.1, sanitize_payload e.2)]) m).
  { intros k m Hk. destruct (dependency_allowed k d); [|done]. destruct (map_get k lf); [|done]. by apply sanitize_insert_path. }
  rewrite !Hp by done. clear Hp Hs. induction IH as [|[k v] fields Hv _ IHf]; simpl; [done|].
  apply Forall_cons in Hok as [Hok1 Hok2]. rewrite IHf by done. destruct (is_path_key k); [done|]. simpl. by rewrite Hv.
Qed.

Lemma sanitize_ok v : value_ok v -> value_ok (sanitize_payload v).
Proof.
  induction v as [| | | |l IH|fields IH] using Value_nested_ind; try done.
  - cbn [sanitize_payload]. rewrite !value_ok_array, Forall_map. intros H.
    eapply Forall_both; [|exact IH|exact H]. auto.
  - intros [Hs Hok]%value_ok_object. rewrite sanitize_object by done. apply value_ok_object. split.
    + apply sorted_keys_flat_map; [|done]. intros e. destruct (is_path_key e.1); eauto.
    + clear Hs. induction IH as [|[k v] fields Hv _ IHf]; simpl; [done|]. apply Forall_cons in Hok as [Hok1 Hok2].
      destruct (is_path_key k); [by apply IHf|]. simpl. constructor; [by apply Hv|by apply IHf].
Qed.

Lemma sanitize_idemp v : value_ok v -> sanitize_payload (sanitize_payload v) = sanitize_payload v.
Proof.
  induction v as [| | | |l IH|fields IH] using Value_nested_ind; try done.
  - intros H%value_ok_array. cbn [sanitize_payload]. f_equal. rewrite map_map. apply map_ext_Forall.
    eapply Forall_both; [|exact IH|exact H]. auto.
  - intros [Hs Hok]%value_ok_object. rewrite sanitize_object by done. rewrite sanitize_object.
    + f_equal. clear Hs. induction IH as [|[k v] fields Hv _ IHf]; simpl; [done|]. apply Forall_cons in Hok as [Hok1 Hok2].
      destruct (is_path_key k) eqn:Ek; simpl; [by apply IHf|]. simpl in Hv, Hok1. rewrite Ek. simpl. by rewrite Hv, IHf.
    + apply sorted_keys_flat_map; [|done]. intros e. destruct (is_path_key e.1); eauto.
Qed.

(** What the dependencies of a payload are read from is not changed by leaving out or
    merging in paths. *)

Lemma map_get_drop k fields : is_path_key k = false ->
  map_get k (flat_map (fun e => if is_path_key e.1 then [] else [(e.1, sanitize_payload e.2)]) fields)
  = sanitize_payload <$> map_get k fields.
Proof.
  intros Hk. induction fields as [|[k' v'] fields IH]; simpl; [done|]. destruct (is_path_key k') eqn:Ek'; simpl.
  - unfold str_eqb. rewrite bool_decide_false; [done|]. intros ->. congruence.
  - destruct (str_eqb k k'); [done|]. apply IH.
Qed.

Lemma value_get_sanitize k v : value_ok v -> is_path_key (lit k) = false ->
  value_get k (sanitize_payload v) = sanitize_payload <$> value_get k v.
Proof.
  intros Hv Hk. destruct v; try done. apply value_ok_object in Hv as [Hs _]. rewrite sanitize_object by done. by apply map_get_drop.
Qed.

Lemma map_get_map (f : str * Value -> Value) k fields :
  map_get k (map (fun e => (e.1, f e)) fields) = (fun v => f (k, v)) <$> map_get k fields.
Proof.
  induction fields as [|[k' v'] fields IH]; simpl; [done|]. unfold str_eqb in *. case_bool_decide; [by subst|]. apply IH.
Qed.

Lemma value_get_merge k v local d : value_ok v -> is_path_key (lit k) = false ->
  exists local', value_get k (merge_local_paths v local d) = (fun v => merge_local_paths v local' d) <$> value_get k v.
Proof.
  intros Hv Hk. destruct v; try (exists None; by destruct local as [[]|]).
  destruct local as [[| | | | |lf]|]; try (exists None; cbn; destruct (map_get _ _) as [[]|]; done).
  apply value_ok_object in Hv as [Hs _]. exists (map_get (lit k) lf). cbn [merge_local_paths value_get].
  rewrite (merged_fields (fun v l => merge_local_paths v l d)) by done. unfold local_path_keys. cbn [fold_left].
  assert (Hg : forall key m, is_path_key key = true ->
    map_get (lit k) (if dependency_allowed key d then match map_get key lf with Some value => map_insert key value m | None => m end else m)
    = map_get (lit k) m).
  { intros key m Hkey. destruct (dependency_allowed key d); [|done]. destruct (map_get key lf); [|done].
    apply map_get_insert_ne. intros <-. congruence. }
  rewrite !Hg by done. by rewrite (map_get_map (fun e => merge_local_paths e.2 (map_get e.1 lf) d)).
Qed.

Lemma value_get_ok k v w : value_ok v -> value_get k v = Some w -> value_ok w.
Proof.
  destruct v; try done. intros [_ Hok]%value_ok_object H%map_get_some. rewrite Forall_forall in Hok. by apply (Hok _ H).
Qed.

Lemma as_text_sanitize v : as_text (sanitize_payload v) = as_text v.
Proof. by destruct v. Qed.
Lemma as_bool_sanitize v : as_bool (sanitize_payload v) = as_bool v.
Proof. by destruct v. Qed.
Lemma as_text_merge v local d : as_text (merge_local_paths v local d) = as_text v.
Proof. by destruct v, local as [[]|]. Qed.
Lemma as_bool_merge v local d : as_bool (merge_local_paths v local d) = as_bool v.
Proof. by destruct v, local as [[]|]. Qed.

(** Two payloads that read the same where the dependencies are read from. *)
Definition same_reading (v w : Value) : Prop :=
  (value_get "mode" v ≫= as_text) = (value_get "mode" w ≫= as_text)
  /\ ((value_get "sshTunnel" v ≫= value_get "enabled") ≫= as_bool) = ((value_get "sshTunnel" w ≫= value_get "enabled") ≫= as_bool)
  /\ ((value_get "sshTunnel" v ≫= value_get "authMethod") ≫= as_text) = ((value_get "sshTunnel" w ≫= value_get "authMethod") ≫= as_text).

Lemma same_reading_dependencies driver v w : same_reading v w ->
  collect_local_dependencies driver v = collect_local_dependencies driver w.
Proof. intros (H1 & H2 & H3). unfold collect_local_dependencies. by rewrite H1, H2, H3. Qed.

Lemma sanitize_same_reading v : value_ok v -> same_reading (sanitize_payload v) v.
Proof.
  intros Hv. unfold same_reading. rewrite !value_get_sanitize by done. split; [|split].
  - destruct (value_get "mode" v) as [w|]; [apply as_text_sanitize|done].
  - destruct (value_get "sshTunnel" v) as [w|] eqn:Ew; [|done]. cbn. rewrite value_get_sanitize; [|by eapply value_get_ok|done].
    destruct (value_get "enabled" w); [apply as_bool_sanitize|done].
  - destruct (value_get "sshTunnel" v) as [w|] eqn:Ew; [|done]. cbn. rewrite value_get_sanitize; [|by eapply value_get_ok|done].
    destruct (value_get "authMethod" w); [apply as_text_sanitize|done].
Qed.

Lemma merge_same_reading v local d : value_ok v -> same_reading (merge_local_paths v local d) v.
Proof.
  intros Hv. unfold same_reading.
  destruct (value_get_merge "mode" v local d Hv eq_refl) as [l1 ->].
  destruct (value_get_merge "sshTunnel" v local d Hv eq_refl) as [l2 ->]. split; [|split].
  - destruct (value_get "mode" v) as [w|]; [apply as_text_merge|done].
  - destruct (value_get "sshTunnel" v) as [w|] eqn:Ew; [|done]. cbn.
    destruct (value_get_merge "enabled" w l2 d (value_get_ok _ _ _ Hv Ew) eq_refl) as [l3 ->].
    destruct (value_get "enabled" w); [apply as_bool_merge|done].
  - destruct (value_get "sshTunnel" v) as [w|] eqn:Ew; [|done]. cbn.
    destruct (value_get_merge "authMethod" w l2 d (value_get_ok _ _ _ Hv Ew) eq_refl) as [l3 ->].
    destruct (value_get "authMethod" w); [apply as_text_merge|done].
Qed.

(** The payload and the dependencies of a projection survive being merged with the
    paths of another machine and projected again. *)
Lemma merge_projects_back driver payload local d : value_ok payload ->
  sanitize_payload (merge_local_paths (sanitize_payload payload) local d) = sanitize_payload payload
  /\ collect_local_dependencies driver (merge_local_paths (sanitize_payload payload) local d)
     = collect_local_dependencies driver payload.
Proof.
  intros Hv. pose proof (sanitize_ok _ Hv) as Hs. split.
  - rewrite sanitize_merge by done. by apply sanitize_idemp.
  - rewrite (same_reading_dependencies _ _ _ (merge_same_reading _ local d Hs)).
    apply same_reading_dependencies, sanitize_same_reading, Hv.
Qed.

(** *** What is uploaded *)

Lemma sort_entries_sorted (l : list (str * Value)) : sorted_keys l -> sort_entries l = l.
Proof.
  unfold sort_entries, sorted_keys. change l with ([] ++ l) at 1 3. generalize ([] : list (str * Value)) as acc.
  induction l as [|[k v] l IH]; intros acc Hs; simpl; [by rewrite app_nil_r|].
  assert (Hins : insert_entry (k, v) acc = acc ++ [(k, v)]).
  { rewrite map_app in Hs. clear IH. induction acc as [|[k' v'] acc IH]; [done|]. cbn in Hs. apply StronglySorted_inv in Hs as [Hs Hlt].
    cbn [insert_entry fst]. rewrite Forall_forall in Hlt. assert (Hk : key_lt k' k) by (apply Hlt, elem_of_app; right; left).
    unfold key_lt in Hk. rewrite (str_compare_antisym k' k), Hk. cbn. by rewrite IH. }
  rewrite Hins. change ((k, v) :: l) with ([(k, v)] ++ l). rewrite app_assoc. apply IH. by rewrite <-app_assoc.
Qed.

Lemma canonicalize_sorted v : value_ok v -> canonicalize_json v = v.
Proof.
  induction v as [| | | |l IH|fields IH] using Value_nested_ind; try done; cbn [canonicalize_json].
  - rewrite value_ok_array. intros H. f_equal. rewrite <-(map_id l) at 2. apply map_ext_Forall. by eapply Forall_both; [|exact IH|exact H]; auto.
  - intros [Hs Hf]%value_ok_object. assert (Heq : map (fun e : str * Value => (e.1, canonicalize_json e.2)) fields = fields).
    { rewrite <-(map_id fields) at 2. apply map_ext_Forall. eapply Forall_both; [|exact IH|exact Hf]. intros [k v] H1 H2. cbn in *. by rewrite H1. }
    rewrite Heq, sort_entries_sorted, map_collect_sorted by done. done.
Qed.

(** The second value is the first without the fields for local paths: the scalars and the
    shape of arrays are the same, and an object has exactly the other fields, again so. *)
Inductive redacted : Value -> Value -> Prop :=
| redacted_null : redacted VNull VNull
| redacted_bool b : redacted (VBool b) (VBool b)
| redacted_number n : redacted (VNumber n) (VNumber n)
| redacted_string s : redacted (VString s) (VString s)
| redacted_array l l' : Forall2 redacted l l' -> redacted (VArray l) (VArray l')
| redacted_object fields fields' :
    (forall k v, map_get k fields = Some v -> k <> lit "dbFilePath" -> k <> lit "privateKeyPath" ->
       exists v', map_get k fields' = Some v' /\ redacted v v') ->
    (forall k, is_Some (map_get k fields') -> k <> lit "dbFilePath" /\ k <> lit "privateKeyPath" /\ is_Some (map_get k fields)) ->
    redacted (VObject fields) (VObject fields').

Lemma sanitize_redacted v : value_ok v -> redacted v (sanitize_payload v).
Proof.
  induction v as [| | | |l IH|fields IH] using Value_nested_ind; try by constructor.
  - rewrite value_ok_array. intros H. cbn. constructor. induction IH; [constructor|]. apply Forall_cons in H as [H1 H2]. constructor; auto.
  - intros [Hs Hf]%value_ok_object. rewrite sanitize_object by done. constructor.
    + intros k v Hk H1 H2. exists (sanitize_payload v). rewrite map_get_drop, Hk by (by apply path_key_false). split; [done|].
      apply map_get_some in Hk. rewrite Forall_forall in IH, Hf. apply (IH _ Hk), (Hf _ Hk).
    + intros k [v' Hk]. destruct (is_path_key k) eqn:Ek.
      * exfalso. clear Hs Hf IH. induction fields as [|[k' v] fields IH]; [done|]. cbn in Hk. destruct (is_path_key k') eqn:Ek'; [by apply IH|].
        cbn in Hk. unfold str_eqb in Hk. case_bool_decide; [congruence|by apply IH].
      * apply path_key_false in Ek as Hp. destruct Hp as [H1 H2]. split_and!; [done|done|].
        rewrite map_get_drop in Hk by done. destruct (map_get k fields); [eauto|done].
Qed.

End theorems.

(** ** A concrete connection *)

Definition no_numbers : JsonNumber :=
  {| Number := unit; F64 := unit; as_i64 _ := None; as_u64 _ := None; as_f64 _ := None; f64_is_finite _ := false; f64_to_string _ := [] |}.

Definition local_file_record : @StoredConnectionRecord no_numbers :=
  mkStoredConnectionRecord (J := no_numbers) (lit "c") (lit "Sales") CdSqlite (lit "prod") None [] [] None
    (VObject [(lit "dbFilePath", VString (lit "/home/me/sales.db")); (lit "mode", VString (lit "local"))]) None 0 0 None None None None.

