(* ===== verification/SyncPull.v ===== *)
(** * Pages of remote changes
    ([src-tauri/src/cloud/sync_pull.rs], the asset encryption of
     [src-tauri/src/cloud/sync_crypto.rs], the wire types of [src-tauri/src/cloud/types.rs])

    A page is accepted only when its cursors chain, its revisions are positive and every
    active asset decrypts under the account's key for exactly this asset, type and
    revision.  Hashes, base64, UUIDs, the cipher and [serde] are crates and an interface,
    [SyncCodec]. *)

From stdpp Require Import base gmap list strings.
From Stdlib Require Import ZArith Lia.
From S2P Require Import Prelude Digits Types Connections SyncProjection.

(** ** Wire types *)

Record CloudConnectionAssetEncryption := mkCloudConnectionAssetEncryption {
  en_suite : str;
  en_nonce : str;
  en_ciphertext : str;
}.

Record CloudConnectionAssetProjection := mkCloudConnectionAssetProjection {
  ra_id : str;
  ra_asset_type : str;
  ra_revision : str;
  ra_parent_revision : option str;
  ra_change_cursor : str;
  ra_schema_version : Z;
  ra_key_generation : Z;
  ra_encryption : option CloudConnectionAssetEncryption;
  ra_encrypted_bytes : Z;
  ra_tombstone : bool;
  ra_updated_by_device_id : str;
  ra_created_at : str;
  ra_updated_at : str;
  ra_deleted_at : option str;
}.

Record CloudConnectionAssetChange := mkCloudConnectionAssetChange {
  rc_change_cursor : str;
  rc_asset : CloudConnectionAssetProjection;
}.

Record CloudConnectionAssetCursor := mkCloudConnectionAssetCursor {
  cu_requested : str;
  cu_next : str;
  cu_has_more : bool;
}.

Record CloudConnectionAssetListResponse := mkCloudConnectionAssetListResponse {
  lr_evaluated_at : str;
  lr_cursor : CloudConnectionAssetCursor;
  lr_items : list CloudConnectionAssetChange;
}.

Record CommittedSyncKeyBundle := mkCommittedSyncKeyBundle {
  kb_cloud_account_id : str;
  kb_device_id : str;
  kb_key_generation : Z;
  kb_amk : list Z;
  kb_encryption_private_key : list Z;
  kb_signing_private_key : list Z;
}.

(** ** The crates *)

Class SyncCodec `{J : JsonNumber} := {
  json_from_str : str -> option Value;
  json_to_string : Value -> str;
  number_of_i64 : Z -> Number;
  sha256 : list Z -> list Z;
  base64url_encode : list Z -> str;
  base64url_decode : str -> option (list Z);
  uuid_parses : str -> bool;
  aead_encrypt : list Z -> list Z -> list Z -> list Z -> option (list Z);
  aead_decrypt : list Z -> list Z -> list Z -> list Z -> option (list Z);
  connection_from_slice : list Z -> option ConnectionSyncProjection;
  folder_from_slice : list Z -> option ConnectionFolderSyncProjection;
  change_to_json : CloudConnectionAssetChange -> str;
  change_from_json : str -> option CloudConnectionAssetChange;
}.

(** ** The encryption of an asset *)

Inductive SyncCryptoError := RandomUnavailable | EncryptionFailed | EncodingFailed.

Definition CONNECTION_ASSET_SUITE : str := lit "XCHACHA20-POLY1305".
Definition CONNECTION_ASSET_AAD_PURPOSE : str := lit "NexusPilot.ConnectionAsset.v1".

(** [(n as u32).to_be_bytes()] *)
Definition be_bytes_u32 (n : Z) : list Z :=
  let n := (n mod 4294967296)%Z in
  [(n / 16777216) mod 256; (n / 65536) mod 256; (n / 256) mod 256; n mod 256]%Z.

Definition length_prefixed (fields : list str) : list Z :=
  flat_map (fun field => let bytes := as_bytes field in be_bytes_u32 (Z.of_nat (length bytes)) ++ bytes) fields.

Definition connection_asset_aad (cloud_account_id asset_id asset_type : str) (revision schema_version key_generation : Z) : list Z :=
  length_prefixed [CONNECTION_ASSET_AAD_PURPOSE; cloud_account_id; asset_id; asset_type; to_dec revision;
                   to_dec schema_version; to_dec key_generation; CONNECTION_ASSET_SUITE].

(** ** Validation *)

Inductive SyncPullError :=
| CursorInvalid | ProtocolViolation | InvalidAssetId | UnsupportedAssetType | UnsupportedSchemaVersion
| KeyGenerationMismatch | MissingEncryption | UnexpectedEncryption | DecryptionFailed | InvalidProjection.

Section pull.
Context `{C : SyncCodec}.

(** [random_nonce]: the 24 bytes drawn, if there is entropy. *)
Definition encrypt_connection_asset (random_nonce : option (list Z)) (cloud_account_id asset_id asset_type : str)
    (revision schema_version key_generation : Z) (plaintext amk : list Z) : Result SyncCryptoError CloudConnectionAssetEncryption :=
  if (revision =? 0)%Z || (key_generation =? 0)%Z || bool_decide (asset_type = []) then Err EncodingFailed
  else
    nonce ← ok_or RandomUnavailable random_nonce;
    let aad := connection_asset_aad cloud_account_id asset_id asset_type revision schema_version key_generation in
    ciphertext ← ok_or EncryptionFailed (aead_encrypt amk nonce aad plaintext);
    Ok (mkCloudConnectionAssetEncryption CONNECTION_ASSET_SUITE (base64url_encode nonce) (base64url_encode ciphertext)).

Definition decrypt_connection_asset (cloud_account_id asset_id asset_type : str) (revision schema_version key_generation : Z)
    (encryption : CloudConnectionAssetEncryption) (amk : list Z) : Result SyncCryptoError (list Z) :=
  if negb (str_eqb (en_suite encryption) CONNECTION_ASSET_SUITE) || (revision =? 0)%Z || (key_generation =? 0)%Z
     || bool_decide (asset_type = []) then Err EncodingFailed
  else
    nonce ← ok_or EncodingFailed (base64url_decode (en_nonce encryption));
    ciphertext ← ok_or EncodingFailed (base64url_decode (en_ciphertext encryption));
    if negb (length nonce =? 24)%nat || (length ciphertext <? 16)%nat then Err EncodingFailed
    else
      let aad := connection_asset_aad cloud_account_id asset_id asset_type revision schema_version key_generation in
      ok_or EncryptionFailed (aead_decrypt amk nonce aad ciphertext).

Inductive DecryptedSyncProjection :=
| DConnection (value : ConnectionSyncProjection)
| DConnectionFolder (value : ConnectionFolderSyncProjection).

Record ValidatedSyncChange := mkValidatedSyncChange {
  vc_change_cursor : Z;
  vc_asset : CloudConnectionAssetProjection;
  vc_projection : option DecryptedSyncProjection;
  vc_payload_hash : option str;
}.

Record ValidatedSyncPage := mkValidatedSyncPage {
  vp_requested_cursor : Z;
  vp_next_cursor : Z;
  vp_has_more : bool;
  vp_items : list ValidatedSyncChange;
}.

Definition parse_cursor (value : str) : Result SyncPullError Z := ok_or CursorInvalid (parse_uint U64_MAX value).

Definition parse_revision (value : str) : Result SyncPullError Z :=
  revision ← ok_or ProtocolViolation (parse_uint U64_MAX value);
  if (0 <? revision)%Z then Ok revision else Err ProtocolViolation.

Definition asset_type_name (asset : CloudConnectionAssetProjection) : Result SyncPullError CloudSyncAssetType :=
  if str_eqb (ra_asset_type asset) (lit "connection") then Ok Connection
  else if str_eqb (ra_asset_type asset) (lit "connection_folder") then Ok ConnectionFolder
  else Err UnsupportedAssetType.

Definition validate_projection_common (schema_version : Z) (asset_type : CloudSyncAssetType) (id : str)
    (asset : CloudConnectionAssetProjection) : Result SyncPullError unit :=
  if negb (schema_version =? SYNC_SCHEMA_VERSION)%Z || negb (str_eqb id (ra_id asset)) then Err InvalidProjection
  else if negb (str_eqb (asset_type_as_str asset_type) (ra_asset_type asset)) then Err InvalidProjection
  else Ok tt.

(** [Uuid::parse_str] of an optional reference. *)
Definition check_reference (id : option str) : Result SyncPullError unit :=
  match id with Some id => if uuid_parses id then Ok tt else Err InvalidProjection | None => Ok tt end.

Definition check_connection (value : ConnectionSyncProjection) (asset : CloudConnectionAssetProjection)
    : Result SyncPullError DecryptedSyncProjection :=
  _ ← validate_projection_common (cp_schema_version value) (cp_asset_type value) (cp_id value) asset;
  if negb (is_ok (driver_from_str (cp_driver value))) then Err InvalidProjection
  else if bool_decide (trim (cp_name value) = []) then Err InvalidProjection
  else _ ← check_reference (cp_folder_id value); Ok (DConnection value).

Definition check_folder (value : ConnectionFolderSyncProjection) (asset : CloudConnectionAssetProjection)
    : Result SyncPullError DecryptedSyncProjection :=
  _ ← validate_projection_common (fp_schema_version value) (fp_asset_type value) (fp_id value) asset;
  if bool_decide (trim (fp_name value) = []) then Err InvalidProjection
  else _ ← check_reference (fp_parent_id value); Ok (DConnectionFolder value).

(** The nonce and ciphertext as bytes, with their lengths checked. *)
Definition check_encryption (asset : CloudConnectionAssetProjection) (encryption : CloudConnectionAssetEncryption)
    : Result SyncPullError unit :=
  nonce ← ok_or DecryptionFailed (base64url_decode (en_nonce encryption));
  ciphertext ← ok_or DecryptionFailed (base64url_decode (en_ciphertext encryption));
  if negb (length nonce =? 24)%nat || (length ciphertext <? 16)%nat
     || negb (ra_encrypted_bytes asset =? Z.of_nat (length ciphertext))%Z then Err ProtocolViolation
  else match ra_deleted_at asset with Some _ => Err ProtocolViolation | None => Ok tt end.

Definition decrypt_change (account_id : str) (change_cursor revision : Z) (asset_type : CloudSyncAssetType)
    (asset : CloudConnectionAssetProjection) (keys : CommittedSyncKeyBundle) : Result SyncPullError ValidatedSyncChange :=
  encryption ← ok_or MissingEncryption (ra_encryption asset);
  _ ← check_encryption asset encryption;
  plaintext ← match decrypt_connection_asset account_id (ra_id asset) (asset_type_as_str asset_type) revision
                      (ra_schema_version asset) (ra_key_generation asset) encryption (kb_amk keys) with
              | Ok p => Ok p | Err _ => Err DecryptionFailed end;
  projection ← match asset_type with
               | Connection => value ← ok_or InvalidProjection (connection_from_slice plaintext); check_connection value asset
               | ConnectionFolder => value ← ok_or InvalidProjection (folder_from_slice plaintext); check_folder value asset
               end;
  Ok (mkValidatedSyncChange change_cursor asset (Some projection) (Some (base64url_encode (sha256 plaintext)))).

Definition validate_and_decrypt_change (account_id : str) (change : CloudConnectionAssetChange) (keys : CommittedSyncKeyBundle)
    : Result SyncPullError ValidatedSyncChange :=
  change_cursor ← parse_cursor (rc_change_cursor change);
  let asset := rc_asset change in
  if negb (uuid_parses (ra_id asset)) then Err InvalidAssetId
  else if negb (uuid_parses (ra_updated_by_device_id asset)) then Err ProtocolViolation
  else
    asset_type ← asset_type_name asset;
    revision ← parse_revision (ra_revision asset);
    _ ← match ra_parent_revision asset with
        | Some p => parent ← parse_revision p; if (revision <=? parent)%Z then Err ProtocolViolation else Ok tt
        | None => Ok tt
        end;
    if negb (ra_schema_version asset =? SYNC_SCHEMA_VERSION)%Z then Err UnsupportedSchemaVersion
    else if negb (ra_key_generation asset =? kb_key_generation keys)%Z then Err KeyGenerationMismatch
    else if ra_tombstone asset then
      if negb (bool_decide (ra_encryption asset = None)) || negb (ra_encrypted_bytes asset =? 0)%Z
         || bool_decide (ra_deleted_at asset = None) then Err UnexpectedEncryption
      else Ok (mkValidatedSyncChange change_cursor asset None None)
    else decrypt_change account_id change_cursor revision asset_type asset keys.

(** One turn of the loop over the items of a page. *)
Definition validate_item (account_id : str) (next_cursor : Z) (keys : CommittedSyncKeyBundle)
    (acc : Z * list ValidatedSyncChange) (change : CloudConnectionAssetChange) : Result SyncPullError (Z * list ValidatedSyncChange) :=
  let (previous_change_cursor, items) := acc in
  change_cursor ← parse_cursor (rc_change_cursor change);
  if (change_cursor <=? previous_change_cursor)%Z || (next_cursor <? change_cursor)%Z then Err ProtocolViolation
  else
    asset_cursor ← parse_cursor (ra_change_cursor (rc_asset change));
    if (asset_cursor <? change_cursor)%Z then Err ProtocolViolation
    else
      validated ← validate_and_decrypt_change account_id change keys;
      Ok (change_cursor, items ++ [validated]).

Definition validate_and_decrypt_page (account_id : str) (local_cursor : Z) (response : CloudConnectionAssetListResponse)
    (keys : CommittedSyncKeyBundle) : Result SyncPullError ValidatedSyncPage :=
  requested_cursor ← parse_cursor (cu_requested (lr_cursor response));
  next_cursor ← parse_cursor (cu_next (lr_cursor response));
  if negb (requested_cursor =? local_cursor)%Z || (next_cursor <? requested_cursor)%Z then Err CursorInvalid
  else if cu_has_more (lr_cursor response) && (next_cursor =? requested_cursor)%Z then Err ProtocolViolation
  else
    let has_items := negb (bool_decide (lr_items response = [])) in
    acc ← try_fold (validate_item account_id next_cursor keys) (requested_cursor, []) (lr_items response);
    if negb has_items && negb (next_cursor =? requested_cursor)%Z then Err ProtocolViolation
    else if has_items && negb (next_cursor =? acc.1)%Z then Err ProtocolViolation
    else Ok (mkValidatedSyncPage requested_cursor next_cursor (cu_has_more (lr_cursor response)) acc.2).
End pull.
