(* ===== verification/SyncStore.v ===== *)
(** * The tables of the synchronisation
    ([src-tauri/src/repository/cloud_sync_repository.rs] and the tables that
     [src-tauri/migrations/0004_cloud_sync.sql] and [0006_cloud_sync_key_binding.sql] create)

    The local database with the bookkeeping of the cloud synchronisation: what is known
    of each asset, unresolved conflicts, operations waiting for the server, the durable
    cursor and the pages staged for the next pull.  The columns that a CHECK constraint
    restricts to a list of names are the enumeration of those names. *)

From stdpp Require Import base gmap list strings fin_maps.
From Stdlib Require Import ZArith Lia.
From S2P Require Import Prelude Types Connections SyncProjection.

(** ** Enumerations *)

Inductive CloudSyncAssetStatus :=
| LocalOnly | PendingUpload | Synced | PendingDelete | Conflicted | NeedsLocalFile | RemoteDeleted.
Inductive CloudSyncOperationAction := Put | Delete.
Inductive CloudSyncOperationStatus := OpPending | OpUnknown | OpApplied | OpConflicted | OpRejected.
(** [CHECK (status IN ('pending', 'resolved'))] *)
Inductive ConflictStatus := CfPending | CfResolved.

#[export] Instance CloudSyncAssetStatus_eq_dec : EqDecision CloudSyncAssetStatus.
Proof. solve_decision. Defined.
#[export] Instance CloudSyncOperationAction_eq_dec : EqDecision CloudSyncOperationAction.
Proof. solve_decision. Defined.
#[export] Instance CloudSyncOperationStatus_eq_dec : EqDecision CloudSyncOperationStatus.
Proof. solve_decision. Defined.
#[export] Instance ConflictStatus_eq_dec : EqDecision ConflictStatus.
Proof. solve_decision. Defined.
#[export] Instance ConflictStatus_countable : Countable ConflictStatus.
Proof.
  refine (inj_countable' (fun t => match t with CfPending => true | CfResolved => false end)
    (fun b => if b : bool then CfPending else CfResolved) _). by intros [].
Defined.

(** ** Rows *)

(** [cloud_sync_assets], by account and asset; [CloudSyncAssetMetadata] has the same
    fields. *)
Record CloudSyncAssetMetadata := mkCloudSyncAssetMetadata {
  a_asset_type : CloudSyncAssetType;
  a_local_entity_id : str;
  a_remote_revision : option Z;
  a_base_revision : option Z;
  a_sync_status : CloudSyncAssetStatus;
  a_last_error_code : option str;
  a_last_error_at : option Z;
  a_last_attempt_at : option Z;
  a_pending_operation_id : option str;
  a_tombstone : bool;
  a_conflict_of : option str;
  a_local_payload_hash : option str;
  a_created_at : Z;
  a_updated_at : Z;
}.

(** [cloud_sync_conflicts], by account, asset, remote revision and status (the UNIQUE
    constraint); the id is the primary key. *)
Record ConflictRow := mkConflictRow {
  k_id : str;
  k_asset_type : CloudSyncAssetType;
  k_base_revision : option Z;
  k_local_ciphertext : str;
  k_remote_ciphertext : str;
  k_local_nonce : str;
  k_remote_nonce : str;
  k_local_payload_hash : str;
  k_remote_payload_hash : str;
  k_local_action : CloudSyncOperationAction;
  k_local_revision : option Z;
  k_local_schema_version : option Z;
  k_local_key_generation : option Z;
  k_remote_schema_version : Z;
  k_remote_key_generation : Z;
  k_remote_tombstone : bool;
  k_pending_operation_id : option str;
  k_detected_at : Z;
  k_updated_at : Z;
}.

(** [cloud_sync_operations], by operation id. *)
Record CloudSyncOperation := mkCloudSyncOperation {
  o_cloud_account_id : str;
  o_asset_id : str;
  o_asset_type : CloudSyncAssetType;
  o_action : CloudSyncOperationAction;
  o_expected_revision : option Z;
  o_schema_version : option Z;
  o_key_generation : option Z;
  o_nonce : option str;
  o_ciphertext : option str;
  o_payload_hash : option str;
  o_status : CloudSyncOperationStatus;
  o_attempt_count : Z;
  o_last_error_code : option str;
  o_last_attempt_at : option Z;
  o_created_at : Z;
  o_updated_at : Z;
}.

(** [cloud_sync_pull_staging], by account and asset. *)
Record StagingRow := mkStagingRow {
  s_revision : Z;
  s_asset_type : str;
  s_tombstone : bool;
  s_parent_id : option str;
  s_change_json : str;
}.

Abbreviation conflict_key := (str * str * Z * ConflictStatus)%type.

Record SyncDb := mkSyncDb {
  local : LocalTables;
  assets : gmap (str * str) CloudSyncAssetMetadata;
  conflicts : gmap conflict_key ConflictRow;
  operations : gmap str CloudSyncOperation;
  cursors : gmap str Z;
  key_bindings : gmap str str;
  staging : gmap (str * str) StagingRow;
  batches : gmap str (Z * Z);
}.

Definition set_local (v : LocalTables) (d : SyncDb) : SyncDb :=
  mkSyncDb v (assets d) (conflicts d) (operations d) (cursors d) (key_bindings d) (staging d) (batches d).
Definition set_assets v (d : SyncDb) : SyncDb :=
  mkSyncDb (local d) v (conflicts d) (operations d) (cursors d) (key_bindings d) (staging d) (batches d).
Definition set_conflicts v (d : SyncDb) : SyncDb :=
  mkSyncDb (local d) (assets d) v (operations d) (cursors d) (key_bindings d) (staging d) (batches d).
Definition set_operations v (d : SyncDb) : SyncDb :=
  mkSyncDb (local d) (assets d) (conflicts d) v (cursors d) (key_bindings d) (staging d) (batches d).
Definition set_cursors v (d : SyncDb) : SyncDb :=
  mkSyncDb (local d) (assets d) (conflicts d) (operations d) v (key_bindings d) (staging d) (batches d).
Definition set_key_bindings v (d : SyncDb) : SyncDb :=
  mkSyncDb (local d) (assets d) (conflicts d) (operations d) (cursors d) v (staging d) (batches d).
Definition set_staging v (d : SyncDb) : SyncDb :=
  mkSyncDb (local d) (assets d) (conflicts d) (operations d) (cursors d) (key_bindings d) v (batches d).
Definition set_batches v (d : SyncDb) : SyncDb :=
  mkSyncDb (local d) (assets d) (conflicts d) (operations d) (cursors d) (key_bindings d) (staging d) v.

Abbreviation DB := (ST SyncDb AppError).

(** A statement on the two local tables. *)
Definition on_local {A} (m : ST LocalTables AppError A) : DB A := fun d =>
  let (r, t) := m (local d) in (r, set_local t d).

(** ** Machine integers of SQLite *)

(** [u64 as i64] and [i64 as u64]. *)
Definition u64_as_i64 (n : Z) : Z := if (I64_MAX <? n)%Z then (n - 18446744073709551616)%Z else n.
Definition i64_as_u64 (n : Z) : Z := if (n <? 0)%Z then (n + 18446744073709551616)%Z else n.

Definition to_sql_revision (value : Z) : AppResult Z :=
  if (value <=? I64_MAX)%Z then Ok value else Err (EValidation (lit "Cloud sync revision exceeds SQLite range")).
Definition to_sql_cursor (value : Z) : AppResult Z :=
  if (value <=? I64_MAX)%Z then Ok value else Err (EValidation (lit "Cloud sync cursor exceeds SQLite range")).
Definition to_revision (value : Z) : AppResult Z :=
  if (0 <=? value)%Z then Ok value else Err (EValidation (lit "Cloud sync revision is negative")).

(** [option.map(f).transpose()?] *)
Definition try_option {A B} (f : A -> AppResult B) (o : option A) : AppResult (option B) :=
  match o with Some a => b ← f a; Ok (Some b) | None => Ok None end.

(** ** The repository *)

Section repository.
(** [strftime('%s','now') * 1000] *)
Context (now : Z).

(** The six tables a reset of an account empties; connections and folders are kept. *)
Definition clear_sync_rows (account_id : str) (d : SyncDb) : SyncDb :=
  let mine {A} (kv : (str * str) * A) := kv.1.1 <> account_id in
  mkSyncDb (local d)
    (filter mine (assets d))
    (filter (fun kv => kv.1.1.1.1 <> account_id) (conflicts d))
    (filter (fun kv => o_cloud_account_id kv.2 <> account_id) (operations d))
    (delete account_id (cursors d))
    (key_bindings d)
    (filter mine (staging d))
    (delete account_id (batches d)).

Definition bind_key (io : option AppError) (account_id fingerprint : str) (reset_unbound : bool) : DB unit :=
  transaction io (fun d =>
    let previous := key_bindings d !! account_id in
    let d := if match previous with Some value => negb (str_eqb value fingerprint) | None => reset_unbound end
             then clear_sync_rows account_id d else d in
    (Ok tt, set_key_bindings (<[account_id := fingerprint]> (key_bindings d)) d)).

Definition reset_account (io : option AppError) (account_id : str) : DB unit :=
  transaction io (fun d =>
    let d := clear_sync_rows account_id d in
    (Ok tt, set_key_bindings (delete account_id (key_bindings d)) d)).

Definition get_cursor (account_id : str) : DB Z := fun d =>
  (match cursors d !! account_id with Some value => to_revision value | None => Ok 0%Z end, d).

(** [UpsertCloudSyncAssetMetadata], without its key. *)
Record UpsertCloudSyncAssetMetadata := mkUpsertCloudSyncAssetMetadata {
  u_asset_type : CloudSyncAssetType;
  u_local_entity_id : str;
  u_remote_revision : option Z;
  u_base_revision : option Z;
  u_sync_status : CloudSyncAssetStatus;
  u_last_error_code : option str;
  u_last_error_at : option Z;
  u_last_attempt_at : option Z;
  u_pending_operation_id : option str;
  u_tombstone : bool;
  u_conflict_of : option str;
  u_local_payload_hash : option str;
}.

(** The row is read back as [CloudSyncAssetMetadata]; what was written is in range. *)
Definition upsert_asset (account_id asset_id : str) (input : UpsertCloudSyncAssetMetadata) : DB CloudSyncAssetMetadata := fun d =>
  match (remote ← try_option to_sql_revision (u_remote_revision input);
         base ← try_option to_sql_revision (u_base_revision input);
         Ok (remote, base)) with
  | Err e => (Err e, d)
  | Ok (remote, base) =>
    let created := match assets d !! (account_id, asset_id) with Some row => a_created_at row | None => now end in
    let row := mkCloudSyncAssetMetadata (u_asset_type input) (u_local_entity_id input) remote base
      (u_sync_status input) (u_last_error_code input) (u_last_error_at input) (u_last_attempt_at input)
      (u_pending_operation_id input) (u_tombstone input) (u_conflict_of input) (u_local_payload_hash input) created now in
    (Ok row, set_assets (<[(account_id, asset_id) := row]> (assets d)) d)
  end.

(** Reading a row back checks that its revisions are not negative. *)
Definition asset_from_row (row : CloudSyncAssetMetadata) : AppResult CloudSyncAssetMetadata :=
  _ ← try_option to_revision (a_remote_revision row);
  _ ← try_option to_revision (a_base_revision row);
  Ok row.

Definition get_asset (account_id asset_id : str) : DB (option CloudSyncAssetMetadata) := fun d =>
  (try_option asset_from_row (assets d !! (account_id, asset_id)), d).

Record EnqueueCloudSyncOperation := mkEnqueueCloudSyncOperation {
  e_operation_id : str;
  e_cloud_account_id : str;
  e_asset_id : str;
  e_asset_type : CloudSyncAssetType;
  e_action : CloudSyncOperationAction;
  e_expected_revision : option Z;
  e_schema_version : option Z;
  e_key_generation : option Z;
  e_nonce : option str;
  e_ciphertext : option str;
  e_payload_hash : option str;
}.

Definition operation_matches_input (existing : CloudSyncOperation) (input : EnqueueCloudSyncOperation) : bool :=
  bool_decide (o_cloud_account_id existing = e_cloud_account_id input)
  && bool_decide (o_asset_id existing = e_asset_id input)
  && bool_decide (o_asset_type existing = e_asset_type input)
  && bool_decide (o_action existing = e_action input)
  && bool_decide (o_expected_revision existing = e_expected_revision input)
  && bool_decide (o_schema_version existing = e_schema_version input)
  && bool_decide (o_key_generation existing = e_key_generation input)
  && bool_decide (o_nonce existing = e_nonce input)
  && bool_decide (o_ciphertext existing = e_ciphertext input)
  && bool_decide (o_payload_hash existing = e_payload_hash input).

(** The checks of [TryFrom<CloudSyncOperationRow>]. *)
Definition operation_from_row (row : CloudSyncOperation) : AppResult CloudSyncOperation :=
  _ ← (if (0 <=? o_attempt_count row)%Z then Ok tt
       else Err (EValidation (lit "Cloud sync operation attempt count is negative")));
  _ ← try_option (fun v => if (0 <=? v)%Z && (v <=? 65535)%Z then Ok tt else Err (EValidation (lit "Invalid schema version")))
        (o_schema_version row);
  _ ← try_option to_revision (o_expected_revision row);
  _ ← try_option to_revision (o_key_generation row);
  Ok row.

Definition get_operation (operation_id : str) : DB (option CloudSyncOperation) := fun d =>
  (try_option operation_from_row (operations d !! operation_id), d).

Definition enqueue_operation (input : EnqueueCloudSyncOperation) : DB CloudSyncOperation :=
  existing ← get_operation (e_operation_id input);
  match existing with
  | Some existing =>
    if operation_matches_input existing input then mret existing
    else st_lift (Err (EValidation (lit "Cloud sync operation ID was reused with a different request")))
  | None =>
    expected ← st_lift (try_option to_sql_revision (e_expected_revision input));
    generation ← st_lift (try_option to_sql_revision (e_key_generation input));
    _ ← st_modify (fun d => set_operations (<[e_operation_id input :=
          mkCloudSyncOperation (e_cloud_account_id input) (e_asset_id input) (e_asset_type input) (e_action input)
            expected (e_schema_version input) generation (e_nonce input) (e_ciphertext input) (e_payload_hash input)
            OpPending 0 None None now now]> (operations d)) d);
    operation ← get_operation (e_operation_id input);
    operation ← st_lift (ok_or (ENotFound (lit "Cloud sync operation was not written")) operation);
    if operation_matches_input operation input then mret operation
    else st_lift (Err (EValidation (lit "Cloud sync operation ID was reused with a different request")))
  end.

(** [status IN ('pending', 'unknown')] *)
Definition is_pending (status : CloudSyncOperationStatus) : bool :=
  match status with OpPending | OpUnknown => true | _ => false end.

(** Both marks report whether the row was there to be changed. *)
Definition mark_operation_attempt (operation_id : str) : DB bool := fun d =>
  match operations d !! operation_id with
  | Some o =>
    if is_pending (o_status o) then
      (Ok true, set_operations (<[operation_id :=
         mkCloudSyncOperation (o_cloud_account_id o) (o_asset_id o) (o_asset_type o) (o_action o) (o_expected_revision o)
           (o_schema_version o) (o_key_generation o) (o_nonce o) (o_ciphertext o) (o_payload_hash o) (o_status o)
           (o_attempt_count o + 1) (o_last_error_code o) (Some now) (o_created_at o) now]> (operations d)) d)
    else (Ok false, d)
  | None => (Ok false, d)
  end.

(** A row with another status and error code. *)
Definition with_status (status : CloudSyncOperationStatus) (error_code : option str) (o : CloudSyncOperation) : CloudSyncOperation :=
  mkCloudSyncOperation (o_cloud_account_id o) (o_asset_id o) (o_asset_type o) (o_action o) (o_expected_revision o)
    (o_schema_version o) (o_key_generation o) (o_nonce o) (o_ciphertext o) (o_payload_hash o) status
    (o_attempt_count o) error_code (o_last_attempt_at o) (o_created_at o) now.

Definition mark_operation_status (operation_id : str) (status : CloudSyncOperationStatus) (error_code : option str) : DB bool := fun d =>
  match operations d !! operation_id with
  | Some o => (Ok true, set_operations (<[operation_id := with_status status error_code o]> (operations d)) d)
  | None => (Ok false, d)
  end.
End repository.

(** ** A new key starts afresh *)

(** Nothing is kept for the account. *)
Definition no_sync_state (account_id : str) (d : SyncDb) : Prop :=
  (forall id, assets d !! (account_id, id) = None) /\ (forall id r st, conflicts d !! (account_id, id, r, st) = None)
  /\ (forall oid o, operations d !! oid = Some o -> o_cloud_account_id o <> account_id)
  /\ cursors d !! account_id = None /\ (forall id, staging d !! (account_id, id) = None) /\ batches d !! account_id = None.

(** Everything that is not of the account is kept. *)
Definition others_kept (account_id : str) (d d' : SyncDb) : Prop :=
  local d' = local d
  /\ (forall a id, a <> account_id -> assets d' !! (a, id) = assets d !! (a, id) /\ staging d' !! (a, id) = staging d !! (a, id))
  /\ (forall a id r st, a <> account_id -> conflicts d' !! (a, id, r, st) = conflicts d !! (a, id, r, st))
  /\ (forall oid o, o_cloud_account_id o <> account_id -> operations d' !! oid = Some o <-> operations d !! oid = Some o)
  /\ (forall a, a <> account_id -> cursors d' !! a = cursors d !! a /\ batches d' !! a = batches d !! a
      /\ key_bindings d' !! a = key_bindings d !! a).

Lemma filter_kept `{Countable K} {A} (P : K * A -> Prop) `{!forall x, Decision (P x)} (m : gmap K A) k :
  (forall x, P (k, x)) -> filter P m !! k = m !! k.
Proof. intros Hk. apply option_eq. intros x. rewrite map_lookup_filter_Some. naive_solver. Qed.

Lemma clear_sync_rows_spec account_id d :
  no_sync_state account_id (clear_sync_rows account_id d) /\ others_kept account_id d (clear_sync_rows account_id d)
  /\ key_bindings (clear_sync_rows account_id d) = key_bindings d.
Proof.
  split; [|split; [|done]].
  - split_and!; cbn.
    + intros id. apply map_lookup_filter_None. right. intros x _ Hn. by apply Hn.
    + intros id r st. apply map_lookup_filter_None. right. intros x _ Hn. by apply Hn.
    + intros oid o [_ Ho]%map_lookup_filter_Some. done.
    + apply lookup_delete_eq.
    + intros id. apply map_lookup_filter_None. right. intros x _ Hn. by apply Hn.
    + apply lookup_delete_eq.
  - split_and!; cbn.
    + done.
    + intros a id Ha. split; by apply filter_kept.
    + intros a id r st Ha. by apply filter_kept.
    + intros oid o Ho. rewrite map_lookup_filter_Some. cbn. tauto.
    + intros a Ha. by rewrite !lookup_delete_ne.
Qed.

(** Binding a new key resets the account's synchronisation and nothing else. When it
    succeeds the account is bound to the fingerprint; if the account was bound to another
    key (or was unbound and a reset was asked for), no asset, conflict, operation,
    cursor or staged page of it is left, and otherwise all of them are; the connections
    and folders and the state of other accounts are kept in every case. When it fails
    nothing changed. *)
Theorem bind_key_resets_only_the_account io account_id fingerprint reset_unbound d :
  let (r, d') := bind_key io account_id fingerprint reset_unbound d in
  match r with
  | Err _ => d' = d
  | Ok _ => key_bindings d' !! account_id = Some fingerprint /\ others_kept account_id d d'
      /\ match key_bindings d !! account_id with
         | Some old => if str_eqb old fingerprint then d' = set_key_bindings (key_bindings d') d else no_sync_state account_id d'
         | None => if reset_unbound then no_sync_state account_id d' else d' = set_key_bindings (key_bindings d') d
         end
  end.
Proof.
  destruct (bind_key io account_id fingerprint reset_unbound d) as [r d'] eqn:H. unfold bind_key, transaction in H.
  destruct io; [by injection H as <- <-|]. destruct (clear_sync_rows_spec account_id d) as (Hnone & Hkept & Hkeys).
  set (reset := match key_bindings d !! account_id with Some value => negb (str_eqb value fingerprint) | None => reset_unbound end) in H.
  injection H as <- <-. cbn [key_bindings set_key_bindings]. split; [apply lookup_insert_eq|].
  assert (Hreset : if reset then no_sync_state account_id (clear_sync_rows account_id d) else True) by (by destruct reset).
  split.
  - destruct reset; [destruct Hkept as (K1 & K2 & K3 & K4 & K5)|]; split_and!; cbn; try done;
      intros a Ha; rewrite lookup_insert_ne by done; [by apply K5|done].
  - unfold reset in *. destruct (key_bindings d !! account_id) as [old|].
    + destruct (str_eqb old fingerprint); cbn [negb]; [done|exact Hreset].
    + destruct reset_unbound; [exact Hreset|done].
Qed.
