(* ===== verification/SyncApply.v ===== *)
(** * Applying a pull
    ([src-tauri/src/cloud/sync_apply.rs])

    The pages of a pull are staged, ordered so that folders come before what they
    contain, and applied in one transaction.  A change that meets a local edit becomes a
    conflict that keeps both versions.  The theorems say that a pull is atomic and
    complete, that it orders folders correctly, and that it does not overwrite edits. *)

From stdpp Require Import base gmap list strings fin_maps.
From Stdlib Require Import ZArith Lia Sorting.
From S2P Require Import Prelude Digits Types Connections SyncProjection SyncPull SyncStore.

Record SyncApplySummary := mkSyncApplySummary {
  sm_applied : nat;
  sm_deleted : nat;
  sm_conflicted : nat;
  sm_ignored : nat;
  sm_next_cursor : Z;
}.

Definition count_applied (s : SyncApplySummary) : SyncApplySummary :=
  mkSyncApplySummary (S (sm_applied s)) (sm_deleted s) (sm_conflicted s) (sm_ignored s) (sm_next_cursor s).
Definition count_deleted (s : SyncApplySummary) : SyncApplySummary :=
  mkSyncApplySummary (sm_applied s) (S (sm_deleted s)) (sm_conflicted s) (sm_ignored s) (sm_next_cursor s).
Definition count_conflicted (s : SyncApplySummary) : SyncApplySummary :=
  mkSyncApplySummary (sm_applied s) (sm_deleted s) (S (sm_conflicted s)) (sm_ignored s) (sm_next_cursor s).
Definition count_ignored (s : SyncApplySummary) : SyncApplySummary :=
  mkSyncApplySummary (sm_applied s) (sm_deleted s) (sm_conflicted s) (S (sm_ignored s)) (sm_next_cursor s).

Record LocalCandidate := mkLocalCandidate {
  lc_action : CloudSyncOperationAction;
  lc_revision : option Z;
  lc_schema_version : option Z;
  lc_key_generation : option Z;
  lc_nonce : str;
  lc_ciphertext : str;
  lc_payload_hash : str;
  lc_operation_id : option str;
}.

Definition parse_positive (value : str) (field : string) : AppResult Z :=
  value ← ok_or (EValidation (lit "Invalid Cloud sync " ++ lit field)) (parse_uint U64_MAX value);
  if (value =? 0)%Z then Err (EValidation (lit "Cloud sync " ++ lit field ++ lit " must be positive")) else Ok value.

Definition to_i64 (value : Z) (field : string) : AppResult Z :=
  if (value <=? I64_MAX)%Z then Ok value else Err (EValidation (lit "Cloud sync " ++ lit field ++ lit " exceeds SQLite range")).

(** [u64::try_from] and [u16::try_from] of a column. *)
Definition u64_try_from (message : string) (value : Z) : AppResult Z :=
  if (0 <=? value)%Z then Ok value else Err (EValidation (lit message)).
Definition u16_try_from (message : string) (value : Z) : AppResult Z :=
  if (0 <=? value)%Z && (value <=? 65535)%Z then Ok value else Err (EValidation (lit message)).

(** [CHECK (asset_type IN ('connection', 'connection_folder'))] *)
Definition asset_type_column (name : str) : AppResult CloudSyncAssetType :=
  if str_eqb name (lit "connection") then Ok Connection
  else if str_eqb name (lit "connection_folder") then Ok ConnectionFolder
  else Err ESqlx.

(** ** Ordering what is staged *)

(** [SELECT ... FROM cloud_sync_pull_staging WHERE cloud_account_id = ?1 ORDER BY asset_id] *)
Definition staged_rows (account_id : str) (staging : gmap (str * str) StagingRow) : list (str * StagingRow) :=
  sort_entries (omap (fun kv => if bool_decide (kv.1.1 = account_id) then Some (kv.1.2, kv.2) else None) (map_to_list staging)).

Definition is_folder_row (row : StagingRow) : bool := str_eqb (s_asset_type row) (lit "connection_folder").
Definition is_active_folder (e : str * StagingRow) : bool := is_folder_row e.2 && negb (s_tombstone e.2).

(** The loop over the folders: those whose parent is staged too wait in [children]. *)
Definition place_folder (folder_ids : list str) (acc : gmap str (list str) * list str) (folder : str * StagingRow)
    : gmap str (list str) * list str :=
  let (children, ordered) := acc in
  match s_parent_id folder.2 with
  | Some parent =>
    if bool_decide (parent ∈ folder_ids)
    then (<[parent := default [] (children !! parent) ++ [folder.1]]> children, ordered)
    else (children, ordered ++ [folder.1])
  | None => (children, ordered ++ [folder.1])
  end.

(** [while index < ordered.len()]; [None] when the fuel runs out. *)
Fixpoint order_loop (fuel index : nat) (children : gmap str (list str)) (ordered : list str) : option (list str) :=
  match fuel with
  | O => None
  | S fuel =>
    match ordered !! index with
    | None => Some ordered
    | Some id =>
      match children !! id with
      | Some dependents => order_loop fuel (S index) (delete id children) (ordered ++ dependents)
      | None => order_loop fuel (S index) children ordered
      end
    end
  end.

(** The folders in order.  Every folder enters [ordered] at most once, so one turn more
    than there are folders is enough fuel. *)
Definition order_folders (folders : list (str * StagingRow)) : option (list str) :=
  let folder_ids := map fst folders in
  let (children, ordered) := fold_left (place_folder folder_ids) folders (∅, []) in
  order_loop (S (length folders)) 0 children ordered.

(** The key [(row.tombstone, row.asset_type == "connection_folder")], as a number. *)
Definition other_key (e : str * StagingRow) : nat :=
  (if s_tombstone e.2 then 2 else 0) + (if is_folder_row e.2 then 1 else 0).

Fixpoint insert_by_key (e : str * StagingRow) (l : list (str * StagingRow)) : list (str * StagingRow) :=
  match l with
  | [] => [e]
  | e' :: l' => if (other_key e <? other_key e')%nat then e :: l else e' :: insert_by_key e l'
  end.
(** The stable [sort_by_key]. *)
Definition sort_by_key (l : list (str * StagingRow)) : list (str * StagingRow) := fold_left (fun acc e => insert_by_key e acc) l [].

(** The part of [apply_staged_pull] that orders the staged rows; [None] never happens
    ([order_staged_returns]). *)
Definition order_staged (rows : list (str * StagingRow)) : option (AppResult (list str)) :=
  let folders := filter (fun e => is_active_folder e = true) rows in
  let other := filter (fun e => is_active_folder e = false) rows in
  ordered ← order_folders folders;
  Some (if negb (length ordered =? length folders)%nat
        then Err (EValidation (lit "Cloud sync folders contain a parent cycle"))
        else Ok (ordered ++ map fst (sort_by_key other))).

(** ** Reading what is known locally *)

Section queries.
Context (account_id asset_id : str).

Definition load_metadata (d : SyncDb) : option CloudSyncAssetMetadata := assets d !! (account_id, asset_id).

(** [status IN ('pending', 'unknown', 'conflicted')] *)
Definition is_unsettled (o : CloudSyncOperation) : bool :=
  bool_decide (o_cloud_account_id o = account_id) && bool_decide (o_asset_id o = asset_id)
  && match o_status o with OpPending | OpUnknown | OpConflicted => true | _ => false end.

(** [ORDER BY created_at DESC, operation_id DESC LIMIT 1] *)
Definition newer_operation (a b : str * CloudSyncOperation) : bool :=
  match (o_created_at a.2 ?= o_created_at b.2)%Z with
  | Gt => true
  | Lt => false
  | Eq => bool_decide (str_compare a.1 b.1 = Gt)
  end.
Definition pick_newest (acc : option (str * CloudSyncOperation)) (e : str * CloudSyncOperation) : option (str * CloudSyncOperation) :=
  match acc with Some a => if newer_operation e a then Some e else acc | None => Some e end.
Definition load_pending_operation (d : SyncDb) : option (str * CloudSyncOperation) :=
  fold_left pick_newest (map_to_list (filter (fun kv => is_unsettled kv.2 = true) (operations d))) None.

(** The pending conflicts of the asset, the one of the highest revision first. *)
Definition pick_highest (acc : option (Z * ConflictRow)) (e : Z * ConflictRow) : option (Z * ConflictRow) :=
  match acc with Some a => if (a.1 <? e.1)%Z then Some e else acc | None => Some e end.
Definition latest_conflict (d : SyncDb) : option (Z * ConflictRow) :=
  fold_left pick_highest
    (omap (fun kv : conflict_key * ConflictRow =>
       if bool_decide (kv.1.1.1 = (account_id, asset_id)) && bool_decide (kv.1.2 = CfPending)
       then Some (kv.1.1.2, kv.2) else None) (map_to_list (conflicts d))) None.

Definition load_existing_conflict_candidate (d : SyncDb) : AppResult (option LocalCandidate) :=
  match latest_conflict d with
  | None => Ok None
  | Some (_, row) =>
    revision ← try_option (u64_try_from "Invalid stored local revision") (k_local_revision row);
    schema_version ← try_option (u16_try_from "Invalid stored schema version") (k_local_schema_version row);
    key_generation ← try_option (u64_try_from "Invalid stored key generation") (k_local_key_generation row);
    Ok (Some (mkLocalCandidate (k_local_action row) revision schema_version key_generation (k_local_nonce row)
                (k_local_ciphertext row) (k_local_payload_hash row) (k_pending_operation_id row)))
  end.

Definition folder_has_children (d : SyncDb) : bool :=
  (0 <? child_connections (local d) asset_id + child_folders (local d) asset_id)%nat.
End queries.

Definition read_cursor (account_id : str) (d : SyncDb) : AppResult Z :=
  let cursor := default 0%Z (cursors d !! account_id) in
  if (0 <=? cursor)%Z then Ok cursor else Err (EValidation (lit "Cloud sync cursor is negative")).

Definition write_cursor (account_id : str) (cursor : Z) : DB unit :=
  cursor ← st_lift (to_i64 cursor "cursor");
  st_modify (fun d => set_cursors (<[account_id := cursor]> (cursors d)) d).

Definition ensure_parent_folder_exists (folder_id : option str) (d : SyncDb) : AppResult unit :=
  match folder_id with
  | None => Ok tt
  | Some id =>
    if bool_decide (folders (local d) !! id = None)
    then Err (EValidation (lit "Cloud sync projection references a missing parent folder")) else Ok tt
  end.

Section apply.
Context `{C : SyncCodec}.
(** The clock of SQLite as a number of milliseconds and as text, the UUID and the nonce
    drawn for an asset.  What the clock writes is not read again in a transaction. *)
Context (now : Z) (now_text : str) (new_uuid : str -> str) (random_nonce : str -> option (list Z)).

Definition empty_payload_hash : str := base64url_encode (sha256 []).

(** ** The local version of an asset *)

(** [load_connection] and [connection_record]: the columns that are synchronised. *)
Definition connection_record (id : str) (row : ConnectionRecordRow) : AppResult StoredConnectionRecord :=
  driver ← driver_from_str (cr_driver row);
  payload ← ok_or ESerdeJson (json_from_str (cr_payload row));
  Ok (mkStoredConnectionRecord id (cr_name row) driver (cr_environment row) (cr_color row) (cr_note row)
        (cr_tag_label row) (cr_tag_color row) payload (cr_folder_id row) 0 0 None None None (cr_sort_order row)).

Definition folder_record (id : str) (row : ConnectionFolderRow) : StoredConnectionFolder :=
  mkStoredConnectionFolder id (fr_name row) (fr_parent_id row) [] [] (fr_sort_order row).

(** The bytes and the digest as [as_base64url]. *)
Definition load_local_projection (change : ValidatedSyncChange) (d : SyncDb) : AppResult (list Z * str) :=
  let id := ra_id (vc_asset change) in
  if str_eqb (ra_asset_type (vc_asset change)) (lit "connection") then
    row ← ok_or (ENotFound (lit "Local conflict connection is missing")) (connections (local d) !! id);
    record ← connection_record id row;
    let (bytes, digest) := connection_projection number_of_i64 json_to_string sha256 record in
    Ok (bytes, base64url_encode digest)
  else if str_eqb (ra_asset_type (vc_asset change)) (lit "connection_folder") then
    row ← ok_or (ENotFound (lit "Local conflict folder is missing")) (folders (local d) !! id);
    let (bytes, digest) := folder_projection number_of_i64 json_to_string sha256 (folder_record id row) in
    Ok (bytes, base64url_encode digest)
  else Err (EValidation (lit "Unsupported sync asset type")).

Definition local_fact_changed (metadata : option CloudSyncAssetMetadata) (change : ValidatedSyncChange) (d : SyncDb) : AppResult bool :=
  match metadata with
  | None => Ok false
  | Some metadata =>
    if negb (bool_decide (a_sync_status metadata = Synced)) then Ok false
    else match a_local_payload_hash metadata with
      | None => Ok false
      | Some expected_hash =>
        match load_local_projection change d with
        | Ok value => Ok (negb (str_eqb value.2 expected_hash))
        | Err (ENotFound m) => if ra_tombstone (vc_asset change) then Ok false else Err (ENotFound m)
        | Err e => Err e
        end
      end
  end.

Definition local_entity_exists (change : ValidatedSyncChange) (d : SyncDb) : AppResult bool :=
  let id := ra_id (vc_asset change) in
  if str_eqb (ra_asset_type (vc_asset change)) (lit "connection") then Ok (bool_decide (is_Some (connections (local d) !! id)))
  else if str_eqb (ra_asset_type (vc_asset change)) (lit "connection_folder") then Ok (bool_decide (is_Some (folders (local d) !! id)))
  else Err (EValidation (lit "Unsupported sync asset type")).

(** The action is one of the two of the CHECK constraint, so the source's third case
    does not arise. *)
Definition operation_matches_remote (operation : CloudSyncOperation) (change : ValidatedSyncChange) (remote_revision : Z) : AppResult bool :=
  expected_revision ← u64_try_from "Invalid pending operation revision" (default 0%Z (o_expected_revision operation));
  if negb ((expected_revision + 1 <=? U64_MAX)%Z && (expected_revision + 1 =? remote_revision)%Z) then Ok false
  else Ok match o_action operation with
          | Put => negb (ra_tombstone (vc_asset change)) && bool_decide (o_payload_hash operation = vc_payload_hash change)
          | Delete => ra_tombstone (vc_asset change)
          end.

(** ** Writing the remote version *)

Definition upsert_folder (projection : ConnectionFolderSyncProjection) : DB unit :=
  d ← st_get;
  on_local match folders (local d) !! fp_id projection with
  | None => insert_folder_row (fp_id projection)
      (mkConnectionFolderRow (fp_name projection) (fp_parent_id projection) now_text now_text (fp_sort_order projection))
  | Some _ =>
    _ ← update_folder_row (fp_id projection) (fun row =>
      mkConnectionFolderRow (fp_name projection) (fp_parent_id projection) (fr_created_at row) now_text (fp_sort_order projection));
    mret tt
  end.

Definition upsert_connection (projection : ConnectionSyncProjection) (payload : Value) : DB unit :=
  _ ← st_lift (driver_from_str (cp_driver projection));
  note ← st_lift (normalize_connection_note (cp_note projection));
  let payload := json_to_string payload in
  d ← st_get;
  on_local match connections (local d) !! cp_id projection with
  | None => insert_connection_row (cp_id projection)
      (mkConnectionRecordRow (cp_name projection) (cp_driver projection) (cp_environment projection) (cp_color projection)
         note (cp_tag_label projection) (cp_tag_color projection) payload (cp_folder_id projection)
         now now None None None (cp_sort_order projection))
  | Some _ =>
    _ ← update_connection_row (cp_id projection) (fun row =>
      mkConnectionRecordRow (cp_name projection) (cp_driver projection) (cp_environment projection) (cp_color projection)
         note (cp_tag_label projection) (cp_tag_color projection) payload (cp_folder_id projection)
         (cr_created_at row) now (cr_last_connected_at row) (cr_last_connection_status row) (cr_last_connection_error row)
         (cp_sort_order projection));
    mret tt
  end.

Definition upsert_metadata (account_id : str) (change : ValidatedSyncChange) (remote_revision : Z)
    (status : CloudSyncAssetStatus) (payload_hash : option str) : DB unit :=
  let asset := vc_asset change in
  revision ← st_lift (to_i64 remote_revision "remote revision");
  asset_type ← st_lift (asset_type_column (ra_asset_type asset));
  st_modify (fun d =>
    let row := match assets d !! (account_id, ra_id asset) with
      | None => mkCloudSyncAssetMetadata asset_type (ra_id asset) (Some revision) (Some revision) status None None None
                  None (ra_tombstone asset) None payload_hash now now
      | Some old => mkCloudSyncAssetMetadata asset_type (a_local_entity_id old) (Some revision) (Some revision) status None None
                  (a_last_attempt_at old) None (ra_tombstone asset) (a_conflict_of old) payload_hash (a_created_at old) now
      end in
    set_assets (<[(account_id, ra_id asset) := row]> (assets d)) d).

(** The branch of [apply_remote_projection] for an asset deleted remotely. *)
Definition delete_local (asset : CloudConnectionAssetProjection) : DB unit :=
  if str_eqb (ra_asset_type asset) (lit "connection") then _ ← on_local (delete_connection_row (ra_id asset)); mret tt
  else if str_eqb (ra_asset_type asset) (lit "connection_folder") then _ ← on_local (delete_folder_row (ra_id asset)); mret tt
  else st_lift (Err (EValidation (lit "Unsupported sync asset type"))).

(** [load_connection_payload] *)
Definition load_connection_payload (id : str) (d : SyncDb) : AppResult (option Value) :=
  try_option (fun row => ok_or ESerdeJson (json_from_str (cr_payload row))) (connections (local d) !! id).

(** The branches for an active asset, with the status they leave it in. *)
Definition write_projection (projection : DecryptedSyncProjection) : DB CloudSyncAssetStatus :=
  match projection with
  | DConnectionFolder folder =>
    d ← st_get;
    _ ← st_lift (ensure_parent_folder_exists (fp_parent_id folder) d);
    _ ← upsert_folder folder;
    mret Synced
  | DConnection connection =>
    d ← st_get;
    _ ← st_lift (ensure_parent_folder_exists (cp_folder_id connection) d);
    existing_payload ← st_lift (load_connection_payload (cp_id connection) d);
    let payload := merge_local_paths (cp_payload connection) existing_payload (cp_local_dependencies connection) in
    let status := if existsb (fun kind => negb (dependency_is_present payload kind)) (cp_local_dependencies connection)
                  then NeedsLocalFile else Synced in
    _ ← upsert_connection connection payload;
    mret status
  end.

Definition apply_remote_projection (account_id : str) (change : ValidatedSyncChange) (remote_revision : Z) : DB unit :=
  if ra_tombstone (vc_asset change) then
    _ ← delete_local (vc_asset change);
    upsert_metadata account_id change remote_revision RemoteDeleted None
  else
    projection ← st_lift (ok_or (EValidation (lit "Active Cloud asset is missing its projection")) (vc_projection change));
    status ← write_projection projection;
    upsert_metadata account_id change remote_revision status (vc_payload_hash change).

Definition mark_operation_applied (operation_id : str) : DB unit :=
  st_modify (fun d => set_operations (alter (with_status now OpApplied None) operation_id (operations d)) d).

(** ** Conflicts *)

Definition build_local_candidate (account_id : str) (change : ValidatedSyncChange) (remote_revision : Z)
    (operation : option (str * CloudSyncOperation)) (keys : CommittedSyncKeyBundle) (d : SyncDb) : AppResult LocalCandidate :=
  let asset := vc_asset change in
  match operation with
  | Some (operation_id, operation) =>
    let expected := default 0%Z (o_expected_revision operation) in
    let revision := if (expected + 1 <=? I64_MAX)%Z && (0 <=? expected + 1)%Z then Some (expected + 1)%Z else None in
    schema_version ← try_option (u16_try_from "Invalid pending operation schema version") (o_schema_version operation);
    key_generation ← try_option (u64_try_from "Invalid pending operation key generation") (o_key_generation operation);
    Ok (mkLocalCandidate (o_action operation) revision schema_version key_generation
          (default [] (o_nonce operation)) (default [] (o_ciphertext operation))
          (default empty_payload_hash (o_payload_hash operation)) (Some operation_id))
  | None =>
    existing ← load_existing_conflict_candidate account_id (ra_id asset) d;
    match existing with
    | Some existing => Ok existing
    | None =>
      local ← load_local_projection change d;
      local_revision ← (if (remote_revision + 1 <=? U64_MAX)%Z then Ok (remote_revision + 1)%Z
                        else Err (EValidation (lit "Local candidate revision overflow")));
      encrypted ← match encrypt_connection_asset (random_nonce (ra_id asset)) account_id (ra_id asset) (ra_asset_type asset)
                          local_revision SYNC_SCHEMA_VERSION (kb_key_generation keys) local.1 (kb_amk keys) with
                  | Ok e => Ok e
                  | Err _ => Err (EValidation (lit "Failed to preserve the local conflict candidate"))
                  end;
      Ok (mkLocalCandidate Put (Some local_revision) (Some SYNC_SCHEMA_VERSION) (Some (kb_key_generation keys))
            (en_nonce encrypted) (en_ciphertext encrypted) local.2 None)
    end
  end.

(** [INSERT INTO cloud_sync_conflicts ... ON CONFLICT ... DO UPDATE]; the primary key is
    the id of a new row. *)
Definition upsert_conflict (key : conflict_key) (row : ConflictRow) : DB unit := fun d =>
  match conflicts d !! key with
  | Some old =>
    (Ok tt, set_conflicts (<[key :=
       mkConflictRow (k_id old) (k_asset_type old) (k_base_revision old) (k_local_ciphertext row) (k_remote_ciphertext row)
         (k_local_nonce row) (k_remote_nonce row) (k_local_payload_hash row) (k_remote_payload_hash row) (k_local_action row)
         (k_local_revision row) (k_local_schema_version row) (k_local_key_generation row) (k_remote_schema_version row)
         (k_remote_key_generation row) (k_remote_tombstone row) (k_pending_operation_id row) (k_detected_at old)
         (k_updated_at row)]> (conflicts d)) d)
  | None =>
    if existsb (fun kv => str_eqb (k_id kv.2) (k_id row)) (map_to_list (conflicts d)) then (Err ESqlx, d)
    else (Ok tt, set_conflicts (<[key := row]> (conflicts d)) d)
  end.

(** [INSERT INTO cloud_sync_assets ... 'conflicted' ... ON CONFLICT ... DO UPDATE] *)
Definition mark_asset_row_conflicted (account_id asset_id : str) (asset_type : CloudSyncAssetType) (revision : Z)
    (metadata : option CloudSyncAssetMetadata) (local : LocalCandidate) : DB unit :=
  st_modify (fun d =>
    let row := match assets d !! (account_id, asset_id) with
      | None => mkCloudSyncAssetMetadata asset_type (default asset_id (a_local_entity_id <$> metadata)) (Some revision)
                  (metadata ≫= a_base_revision) Conflicted None None None (lc_operation_id local) false None
                  (Some (lc_payload_hash local)) now now
      | Some old => mkCloudSyncAssetMetadata (a_asset_type old) (a_local_entity_id old) (Some revision) (a_base_revision old)
                  Conflicted (a_last_error_code old) (a_last_error_at old) (a_last_attempt_at old) (lc_operation_id local)
                  false (a_conflict_of old) (Some (lc_payload_hash local)) (a_created_at old) now
      end in
    set_assets (<[(account_id, asset_id) := row]> (assets d)) d).

(** [UPDATE cloud_sync_operations SET status = 'conflicted' ...], which keeps the error code. *)
Definition mark_operation_conflicted (operation_id : option str) : DB unit :=
  match operation_id with
  | None => mret tt
  | Some operation_id => st_modify (fun d =>
      set_operations (alter (fun o => with_status now OpConflicted (o_last_error_code o) o) operation_id (operations d)) d)
  end.

Definition persist_conflict (account_id : str) (change : ValidatedSyncChange) (remote_revision : Z)
    (metadata : option CloudSyncAssetMetadata) (operation : option (str * CloudSyncOperation)) (keys : CommittedSyncKeyBundle) : DB unit :=
  let asset := vc_asset change in
  d ← st_get;
  local ← st_lift (build_local_candidate account_id change remote_revision operation keys d);
  revision ← st_lift (to_i64 remote_revision "remote revision");
  local_revision ← st_lift (try_option (fun v => to_i64 v "local revision") (lc_revision local));
  local_key_generation ← st_lift (try_option (fun v => to_i64 v "local key generation") (lc_key_generation local));
  remote_key_generation ← st_lift (to_i64 (ra_key_generation asset) "remote key generation");
  asset_type ← st_lift (asset_type_column (ra_asset_type asset));
  _ ← upsert_conflict (account_id, ra_id asset, revision, CfPending)
        (mkConflictRow (new_uuid (ra_id asset)) asset_type (metadata ≫= a_base_revision)
           (lc_ciphertext local) (default [] (en_ciphertext <$> ra_encryption asset))
           (lc_nonce local) (default [] (en_nonce <$> ra_encryption asset))
           (lc_payload_hash local) (default empty_payload_hash (vc_payload_hash change))
           (lc_action local) local_revision (lc_schema_version local) local_key_generation
           (ra_schema_version asset) remote_key_generation (ra_tombstone asset) (lc_operation_id local) now now);
  _ ← mark_asset_row_conflicted account_id (ra_id asset) asset_type revision metadata local;
  mark_operation_conflicted (lc_operation_id local).

(** ** One change *)

Definition count_outcome (change : ValidatedSyncChange) (summary : SyncApplySummary) : SyncApplySummary :=
  if ra_tombstone (vc_asset change) then count_deleted summary else count_applied summary.

Definition status_requires_conflict (metadata : option CloudSyncAssetMetadata) : bool :=
  match metadata with
  | Some m => match a_sync_status m with LocalOnly | PendingUpload | PendingDelete | Conflicted => true | _ => false end
  | None => false
  end.

(** What follows when the change is newer and is not the echo of an operation. *)
Definition apply_or_conflict (account_id : str) (change : ValidatedSyncChange) (remote_revision : Z)
    (metadata : option CloudSyncAssetMetadata) (operation : option (str * CloudSyncOperation))
    (keys : CommittedSyncKeyBundle) (summary : SyncApplySummary) : DB SyncApplySummary :=
  d ← st_get;
  local_fact_changed ← st_lift (local_fact_changed metadata change d);
  local_entity_exists ← st_lift (local_entity_exists change d);
  let blocked_folder_delete :=
    ra_tombstone (vc_asset change) && str_eqb (ra_asset_type (vc_asset change)) (lit "connection_folder")
    && folder_has_children (ra_id (vc_asset change)) d in
  if bool_decide (is_Some operation) || status_requires_conflict metadata || local_fact_changed
     || (bool_decide (metadata = None) && local_entity_exists) || blocked_folder_delete then
    _ ← persist_conflict account_id change remote_revision metadata operation keys;
    mret (count_conflicted summary)
  else
    _ ← apply_remote_projection account_id change remote_revision;
    mret (count_outcome change summary).

Definition apply_change (account_id : str) (change : ValidatedSyncChange) (keys : CommittedSyncKeyBundle)
    (summary : SyncApplySummary) : DB SyncApplySummary :=
  remote_revision ← st_lift (parse_positive (ra_revision (vc_asset change)) "remote revision");
  d ← st_get;
  let metadata := load_metadata account_id (ra_id (vc_asset change)) d in
  if match metadata ≫= a_remote_revision with Some value => (u64_as_i64 remote_revision <=? value)%Z | None => false end
  then mret (count_ignored summary)
  else
    let operation := load_pending_operation account_id (ra_id (vc_asset change)) d in
    match operation with
    | Some (operation_id, row) =>
      matched ← st_lift (operation_matches_remote row change remote_revision);
      if (matched : bool) then
        _ ← apply_remote_projection account_id change remote_revision;
        _ ← mark_operation_applied operation_id;
        mret (count_outcome change summary)
      else if (remote_revision <=? i64_as_u64 (default 0%Z (o_expected_revision row)))%Z
      then mret (count_ignored summary)
      else apply_or_conflict account_id change remote_revision metadata operation keys summary
    | None => apply_or_conflict account_id change remote_revision metadata operation keys summary
    end.

(** ** Staging and applying *)

Definition clear_staging (account_id : str) (d : SyncDb) : SyncDb :=
  set_staging (filter (fun kv : (str * str) * StagingRow => kv.1.1 <> account_id) (staging d)) d.

(** Returns the durable cursor and the one to continue from. *)
Definition begin_staged_pull (io : option AppError) (account_id : str) : DB (Z * Z) :=
  transaction io (
    d ← st_get;
    durable ← st_lift (read_cursor account_id d);
    let restart :=
      _ ← st_modify (clear_staging account_id);
      _ ← st_modify (fun d => set_batches (<[account_id := (u64_as_i64 durable, u64_as_i64 durable)]> (batches d)) d);
      mret (durable, durable) in
    match batches d !! account_id with
    | Some (initial, next) =>
      if (initial =? u64_as_i64 durable)%Z && (initial <=? next)%Z then mret (durable, i64_as_u64 next) else restart
    | None => restart
    end).

Definition change_parent (change : ValidatedSyncChange) : option str :=
  match vc_projection change with
  | Some (DConnectionFolder folder) => fp_parent_id folder
  | Some (DConnection connection) => cp_folder_id connection
  | None => None
  end.

(** [INSERT ... ON CONFLICT DO UPDATE ... WHERE excluded.revision >= revision] *)
Definition stage_row (account_id asset_id : str) (row : StagingRow) : DB unit :=
  st_modify (fun d =>
    let keep := match staging d !! (account_id, asset_id) with Some old => (s_revision row <? s_revision old)%Z | None => false end in
    if keep then d else set_staging (<[(account_id, asset_id) := row]> (staging d)) d).

Definition stage_change (account_id : str) (change : ValidatedSyncChange) : DB unit :=
  let asset := vc_asset change in
  let raw := mkCloudConnectionAssetChange (to_dec (vc_change_cursor change)) asset in
  revision ← st_lift (parse_positive (ra_revision asset) "remote revision");
  revision ← st_lift (to_i64 revision "remote revision");
  stage_row account_id (ra_id asset)
    (mkStagingRow revision (ra_asset_type asset) (ra_tombstone asset) (change_parent change) (change_to_json raw)).

Fixpoint stage_changes (account_id : str) (items : list ValidatedSyncChange) : DB unit :=
  match items with
  | [] => mret tt
  | change :: items => _ ← stage_change account_id change; stage_changes account_id items
  end.

Definition stage_validated_page (io : option AppError) (account_id : str) (page : ValidatedSyncPage) : DB unit :=
  transaction io (
    d ← st_get;
    batch ← st_lift (ok_or ESqlx (batches d !! account_id));
    requested ← st_lift (to_i64 (vp_requested_cursor page) "requested cursor");
    if negb (batch.2 =? requested)%Z then st_lift (Err (EValidation (lit "Cloud sync staged cursor changed")))
    else
      _ ← stage_changes account_id (vp_items page);
      next ← st_lift (to_i64 (vp_next_cursor page) "next cursor");
      st_modify (fun d => set_batches (alter (fun b => (b.1, next)) account_id (batches d)) d)).

(** [if !guard() { return Err(..) }] *)
Definition check_guard (allowed : bool) : DB unit :=
  st_lift (if allowed then Ok tt else Err (EValidation (lit "Cloud sync run was canceled"))).

(** One turn of the loop over the ordered assets. *)
Definition apply_staged_asset (account_id : str) (keys : CommittedSyncKeyBundle) (allowed : bool) (id : str)
    (summary : SyncApplySummary) : DB SyncApplySummary :=
  _ ← check_guard allowed;
  d ← st_get;
  row ← st_lift (ok_or ESqlx (staging d !! (account_id, id)));
  raw ← st_lift (ok_or ESerdeJson (change_from_json (s_change_json row)));
  change ← st_lift (match validate_and_decrypt_change account_id raw keys with
                    | Ok change => Ok change
                    | Err _ => Err (EValidation (lit "Cloud sync staged projection is invalid"))
                    end);
  apply_change account_id change keys summary.

(** The guard by the number of times it was asked. *)
Fixpoint apply_staged_assets (account_id : str) (keys : CommittedSyncKeyBundle) (guard : nat -> bool) (asked : nat)
    (ids : list str) (summary : SyncApplySummary) : DB SyncApplySummary :=
  match ids with
  | [] => _ ← check_guard (guard asked); mret summary
  | id :: ids =>
    summary ← apply_staged_asset account_id keys (guard asked) id summary;
    apply_staged_assets account_id keys guard (S asked) ids summary
  end.

(** The body of the transaction. *)
Definition apply_batch (account_id : str) (requested_cursor next_cursor : Z) (keys : CommittedSyncKeyBundle)
    (guard : nat -> bool) : DB SyncApplySummary :=
  d ← st_get;
  durable ← st_lift (read_cursor account_id d);
  if negb (durable =? requested_cursor)%Z
  then st_lift (Err (EValidation (lit "Cloud sync page no longer starts at the durable cursor")))
  else
    batch ← st_lift (ok_or ESqlx (batches d !! account_id));
    requested ← st_lift (to_i64 requested_cursor "requested cursor");
    next ← st_lift (to_i64 next_cursor "next cursor");
    if negb (bool_decide (batch = (requested, next)))
    then st_lift (Err (EValidation (lit "Cloud sync staged cursor changed")))
    else
      ordered ← st_lift (default (Err ESqlx) (order_staged (staged_rows account_id (staging d))));
      summary ← apply_staged_assets account_id keys guard 0 ordered (mkSyncApplySummary 0 0 0 0 next_cursor);
      _ ← write_cursor account_id next_cursor;
      _ ← st_modify (clear_staging account_id);
      _ ← st_modify (fun d => set_batches (delete account_id (batches d)) d);
      mret summary.

Definition apply_staged_pull (io : option AppError) (account_id : str) (requested_cursor next_cursor : Z)
    (keys : CommittedSyncKeyBundle) (guard : nat -> bool) : DB SyncApplySummary :=
  if negb (str_eqb account_id (kb_cloud_account_id keys))
  then st_lift (Err (EValidation (lit "Cloud sync account does not match the committed key bundle")))
  else transaction io (apply_batch account_id requested_cursor next_cursor keys guard).
End apply.

(** ** Folders come before what they contain *)

Section ordering.
Implicit Types (folders rows : list (str * StagingRow)) (children : gmap str (list str)) (ordered : list str).

(** A staged folder whose chain of staged parents ends. *)
Inductive grounded folders : str -> Prop :=
| grounded_intro id row :
    (id, row) ∈ folders ->
    (forall parent, s_parent_id row = Some parent -> parent ∈ map fst folders -> grounded folders parent) ->
    grounded folders id.

(** The folders that wait for their parent. *)
Definition waiting children : list str := mjoin (map snd (map_to_list children)).

Lemma elem_waiting c children : c ∈ waiting children <-> exists p cs, children !! p = Some cs /\ c ∈ cs.
Proof.
  unfold waiting. rewrite list_elem_of_join. split.
  - intros (cs & Hc & ([p cs'] & -> & H%elem_of_map_to_list)%list_elem_of_fmap). eauto.
  - intros (p & cs & H & Hc). exists cs. split; [done|]. apply list_elem_of_fmap. exists (p, cs). split; [done|].
    by apply elem_of_map_to_list.
Qed.

Lemma waiting_take p cs children : children !! p = Some cs -> waiting children ≡ₚ cs ++ waiting (delete p children).
Proof. intros H. unfold waiting. by rewrite <-(map_to_list_delete children p cs H). Qed.

Lemma waiting_push p c children : waiting (<[p := default [] (children !! p) ++ [c]]> children) ≡ₚ c :: waiting children.
Proof.
  rewrite (waiting_take p (default [] (children !! p) ++ [c])) by apply lookup_insert_eq. rewrite delete_insert_eq.
  destruct (children !! p) as [cs|] eqn:E; simpl.
  - rewrite (waiting_take p cs children E). rewrite <-app_assoc. simpl. by rewrite Permutation_middle.
  - by rewrite delete_id by done.
Qed.

(** What the loops keep, with [index] folders already visited. *)
Record ordering_ok folders (seen : list str) (index : nat) children ordered : Prop := {
  oo_all : ordered ++ waiting children ≡ₚ seen;
  oo_waiting : forall p cs c, children !! p = Some cs -> c ∈ cs ->
    exists row, (c, row) ∈ folders /\ s_parent_id row = Some p /\ p ∈ map fst folders;
  oo_placed : forall j c, ordered !! j = Some c ->
    exists row, (c, row) ∈ folders /\ forall p, s_parent_id row = Some p -> p ∈ map fst folders ->
      exists i, (i < j)%nat /\ ordered !! i = Some p;
  oo_visited : forall i c, (i < index)%nat -> ordered !! i = Some c -> children !! c = None;
  oo_index : (index <= length ordered)%nat;
}.

Lemma ordering_ok_push folders seen children ordered c row :
  (c, row) ∈ folders -> (forall p, s_parent_id row = Some p -> p ∈ map fst folders -> False) ->
  ordering_ok folders seen 0 children ordered -> ordering_ok folders (seen ++ [c]) 0 children (ordered ++ [c]).
Proof.
  intros Hin Hno [H1 H2 H3 H4 H5]. split; [|done| |intros i ?; lia|lia].
  - rewrite <-H1. by rewrite <-!app_assoc, (Permutation_app_comm (waiting children)).
  - intros j c' [Hj|[Hj ->]]%lookup_snoc_Some.
    + destruct (H3 j c' (proj2 Hj)) as (row' & Hr & Hp). exists row'. split; [done|]. intros p Ep Hp'.
      destruct (Hp p Ep Hp') as (i & Hi & Hl). exists i. split; [done|]. rewrite lookup_app_l; [done|]. by eapply lookup_lt_Some.
    + exists row. split; [done|]. intros p Ep Hp'. by destruct (Hno p Ep Hp').
Qed.

Lemma place_folder_ok folders seen acc c row :
  (c, row) ∈ folders -> ordering_ok folders seen 0 acc.1 acc.2 ->
  let acc' := place_folder (map fst folders) acc (c, row) in ordering_ok folders (seen ++ [c]) 0 acc'.1 acc'.2.
Proof.
  destruct acc as [children ordered]. cbn [fst snd]. intros Hin Hok. unfold place_folder. cbn [fst snd].
  destruct (s_parent_id row) as [parent|] eqn:Ep; [case_bool_decide as Hp|];
    [|apply (ordering_ok_push _ _ _ _ c row); [done|congruence|done]..].
  destruct Hok as [H1 H2 H3 H4 H5]. cbn [fst snd]. split; [| |done|intros i ?; lia|lia].
  - rewrite waiting_push, <-H1. rewrite <-Permutation_middle. apply Permutation_cons_append.
  - intros p cs c' [[<- <-]|[Hne Hl]]%lookup_insert_Some Hc.
    + apply elem_of_app in Hc as [Hc| ->%list_elem_of_singleton]; [|by exists row].
      destruct (children !! parent) as [cs|] eqn:E; [by eapply H2|by apply not_elem_of_nil in Hc].
    + by eapply H2.
Qed.

Lemma place_folders_ok folders rest seen acc :
  folders = seen ++ rest -> ordering_ok folders (map fst seen) 0 acc.1 acc.2 ->
  let acc' := fold_left (place_folder (map fst folders)) rest acc in
  ordering_ok folders (map fst folders) 0 acc'.1 acc'.2.
Proof.
  revert seen acc. induction rest as [|[c row] rest IH]; intros seen acc Hf Hok; cbn [fold_left].
  { rewrite app_nil_r in Hf. by subst. }
  apply (IH (seen ++ [(c, row)])); [by rewrite <-app_assoc|]. rewrite map_app.
  apply place_folder_ok; [|done]. rewrite Hf. set_solver.
Qed.

Lemma order_loop_ok folders fuel index children ordered :
  ordering_ok folders (map fst folders) index children ordered -> (length folders < index + fuel)%nat ->
  exists children' ordered', order_loop fuel index children ordered = Some ordered'
    /\ ordering_ok folders (map fst folders) (length ordered') children' ordered'.
Proof.
  revert index children ordered. induction fuel as [|fuel IH]; intros index children ordered Hok Hf.
  { destruct Hok as [H1 _ _ _ H5]. apply Permutation_length in H1. rewrite length_app, length_map in H1. lia. }
  cbn [order_loop]. destruct (ordered !! index) as [id|] eqn:Eid.
  - pose proof (lookup_lt_Some _ _ _ Eid) as Hlt. destruct Hok as [H1 H2 H3 H4 H5].
    destruct (children !! id) as [dependents|] eqn:Ed; (apply IH; [|lia]); split.
    + rewrite <-app_assoc, <-(waiting_take id dependents) by done. done.
    + intros p cs c [_ Hl]%lookup_delete_Some. by apply H2.
    + intros j c [Hj|[Hge Hj]]%lookup_app_Some.
      * destruct (H3 j c Hj) as (row & Hr & Hp). exists row. split; [done|]. intros p Ep Hp'.
        destruct (Hp p Ep Hp') as (i & Hi & Hl). exists i. split; [done|]. by apply lookup_app_l_Some.
      * destruct (H2 id dependents c Ed (list_elem_of_lookup_2 _ _ _ Hj)) as (row & Hr & Ep & Hp). exists row.
        split; [done|]. intros p Ep' _. rewrite Ep in Ep'. injection Ep' as <-. exists index. split; [lia|]. by apply lookup_app_l_Some.
    + intros i c Hi Hl. apply lookup_delete_None. destruct (decide (id = c)) as [->|Hne]; [by left|right].
      rewrite lookup_app_l in Hl by lia. destruct (decide (i = index)) as [->|]; [congruence|]. apply (H4 i); [lia|done].
    + rewrite length_app. lia.
    + done.
    + done.
    + done.
    + intros i c Hi Hl. destruct (decide (i = index)) as [->|]; [congruence|]. apply (H4 i); [lia|done].
    + lia.
  - exists children, ordered. split; [done|]. apply lookup_ge_None in Eid. destruct Hok as [H1 H2 H3 H4 H5].
    split; [done..| |lia]. intros i c Hi. apply H4. lia.
Qed.

Lemma order_folders_ok folders :
  exists children ordered, order_folders folders = Some ordered
    /\ ordering_ok folders (map fst folders) (length ordered) children ordered.
Proof.
  unfold order_folders. destruct (fold_left _ _ _) as [children ordered] eqn:E.
  pose proof (place_folders_ok folders folders [] (∅, []) eq_refl) as H. simpl in H. rewrite E in H. cbn in H.
  apply (order_loop_ok folders (S (length folders)) 0); [|lia]. apply H. split; cbn.
  - unfold waiting. by rewrite map_to_list_empty.
  - intros p cs c Hl. by rewrite lookup_empty in Hl.
  - done.
  - lia.
  - lia.
Qed.

Lemma placed_grounded folders seen index children ordered :
  ordering_ok folders seen index children ordered -> forall c, c ∈ ordered -> grounded folders c.
Proof.
  intros [_ _ H3 _ _] c (j & Hj)%list_elem_of_lookup_1. revert c Hj. induction (lt_wf j) as [j _ IH]. intros c Hj.
  destruct (H3 j c Hj) as (row & Hr & Hp). econstructor; [done|]. intros p Ep Hin. destruct (Hp p Ep Hin) as (i & Hi & Hl). by eapply IH.
Qed.

Lemma grounded_placed folders children ordered : NoDup (map fst folders) ->
  ordering_ok folders (map fst folders) (length ordered) children ordered ->
  forall c, grounded folders c -> c ∈ ordered.
Proof.
  intros Hnd [H1 H2 H3 H4 _] c. induction 1 as [c row Hin _ IH].
  assert (Hc : c ∈ ordered ++ waiting children) by (rewrite H1; apply list_elem_of_fmap; by exists (c, row)).
  apply elem_of_app in Hc as [Hc|(p & cs & Hp & Hc)%elem_waiting]; [done|].
  destruct (H2 p cs c Hp Hc) as (row' & Hr & Ep & Hpin).
  assert (row' = row) as ->.
  { apply list_elem_of_lookup_1 in Hin as [i Hi], Hr as [j Hj].
    assert (i = j) as <- by (apply (NoDup_lookup (map fst folders) i j c Hnd); by rewrite list_lookup_fmap, ?Hi, ?Hj). congruence. }
  destruct (list_elem_of_lookup_1 _ _ (IH p Ep Hpin)) as [i Hi]. pose proof (lookup_lt_Some _ _ _ Hi).
  by rewrite (H4 i p) in Hp.
Qed.

(** *** The rest, by kind *)

Lemma insert_other_perm e l : insert_by_key e l ≡ₚ e :: l.
Proof. induction l as [|e' l IH]; simpl; [done|]. destruct (_ <? _)%nat; [done|]. rewrite IH. apply Permutation_swap. Qed.

Lemma sort_other_perm l : sort_by_key l ≡ₚ l.
Proof.
  unfold sort_by_key. change l with ([] ++ l) at 2. generalize ([] : list (str * StagingRow)) as acc.
  induction l as [|e l IH]; intros acc; simpl; [by rewrite app_nil_r|]. rewrite IH, insert_other_perm. simpl.
  by rewrite <-Permutation_middle.
Qed.

Definition key_le (a b : str * StagingRow) : Prop := (other_key a <= other_key b)%nat.

Lemma insert_other_sorted e l : StronglySorted key_le l -> StronglySorted key_le (insert_by_key e l).
Proof.
  induction 1 as [|e' l Hl IH Hle]; simpl; [by repeat constructor|]. destruct (_ <? _)%nat eqn:E.
  - apply Nat.ltb_lt in E. constructor; [by constructor|]. constructor; [unfold key_le; lia|].
    eapply Forall_impl; [exact Hle|]. unfold key_le. intros x. lia.
  - apply Nat.ltb_ge in E. constructor; [done|]. rewrite insert_other_perm. by constructor.
Qed.

Lemma sort_other_sorted l : StronglySorted key_le (sort_by_key l).
Proof.
  unfold sort_by_key. assert (H : StronglySorted key_le []) by constructor. revert H. generalize ([] : list (str * StagingRow)) as acc.
  induction l as [|e l IH]; intros acc H; simpl; [done|]. apply IH. by apply insert_other_sorted.
Qed.

(** Active folders, active connections, deleted connections, deleted folders. *)
Definition rank (e : str * StagingRow) : nat := if is_active_folder e then 0 else S (other_key e).

Definition in_rank_order (rows : list (str * StagingRow)) (l : list str) : Prop :=
  forall i j a b ra rb, (i < j)%nat -> l !! i = Some a -> l !! j = Some b -> (a, ra) ∈ rows -> (b, rb) ∈ rows ->
  (rank (a, ra) <= rank (b, rb))%nat.

(** Every staged folder comes after its parent, when that is staged too. *)
Definition parents_first folders (l : list str) : Prop :=
  forall j c row p, l !! j = Some c -> (c, row) ∈ folders -> s_parent_id row = Some p -> p ∈ map fst folders ->
  exists i, (i < j)%nat /\ l !! i = Some p.

Lemma staged_unique rows c (r1 r2 : StagingRow) : NoDup (map fst rows) -> (c, r1) ∈ rows -> (c, r2) ∈ rows -> r1 = r2.
Proof.
  intros Hnd [i Hi]%list_elem_of_lookup_1 [j Hj]%list_elem_of_lookup_1.
  assert (i = j) as <- by (apply (NoDup_lookup (map fst rows) i j c Hnd); by rewrite list_lookup_fmap, ?Hi, ?Hj). congruence.
Qed.

Lemma filter_rows_perm rows :
  filter (fun e => is_active_folder e = true) rows ++ filter (fun e => is_active_folder e = false) rows ≡ₚ rows.
Proof.
  induction rows as [|e rows IH]; [done|]. destruct (is_active_folder e) eqn:E.
  - rewrite (filter_cons_True (fun e => is_active_folder e = true)), (filter_cons_False (fun e => is_active_folder e = false)) by congruence.
    simpl. by rewrite IH.
  - rewrite (filter_cons_False (fun e => is_active_folder e = true)), (filter_cons_True (fun e => is_active_folder e = false)) by congruence.
    by rewrite <-Permutation_middle, IH.
Qed.

Lemma sorted_keys_lookup l i j a b :
  StronglySorted key_le l -> (i < j)%nat -> l !! i = Some a -> l !! j = Some b -> key_le a b.
Proof.
  intros Hs. revert i j. induction Hs as [|e l Hl IH Hle]; intros [|i] [|j] Hij Hi Hj; try done; try lia.
  - injection Hi as ->. rewrite Forall_forall in Hle. apply Hle. by eapply list_elem_of_lookup_2.
  - apply (IH i j); [lia|done|done].
Qed.

Lemma ordered_ranks rows folders other ordered :
  NoDup (map fst rows) ->
  folders = filter (fun e => is_active_folder e = true) rows -> other = filter (fun e => is_active_folder e = false) rows ->
  ordered ≡ₚ map fst folders -> in_rank_order rows (ordered ++ map fst (sort_by_key other)).
Proof.
  intros Hnd -> -> Hp i j a b ra rb Hij Hi Hj Ha Hb. unfold rank.
  destruct (is_active_folder (a, ra)) eqn:Ea; [lia|].
  assert (Hother : forall k c rc, (ordered ++ map fst (sort_by_key (filter (fun e => is_active_folder e = false) rows))) !! k = Some c ->
    (length ordered <= k)%nat -> (c, rc) ∈ rows ->
    sort_by_key (filter (fun e => is_active_folder e = false) rows) !! (k - length ordered)%nat = Some (c, rc)
    /\ is_active_folder (c, rc) = false).
  { intros k c rc Hk Hge Hc. rewrite lookup_app_r in Hk by done. apply list_lookup_fmap_Some in Hk as ([c' rc'] & -> & Hk).
    pose proof (list_elem_of_lookup_2 _ _ _ Hk) as Hin. rewrite sort_other_perm in Hin.
    apply list_elem_of_filter in Hin as [Hf Hin]. by rewrite (staged_unique rows _ rc rc') in * by done. }
  assert (Hge : (length ordered <= i)%nat).
  { apply Nat.nlt_ge. intros Hlt. rewrite lookup_app_l in Hi by done. apply list_elem_of_lookup_2 in Hi. rewrite Hp in Hi.
    apply list_elem_of_fmap in Hi as ([a' ra'] & -> & [Hf Hin]%list_elem_of_filter).
    rewrite (staged_unique rows _ ra' ra) in Hf by done. cbn [fst] in *. congruence. }
  destruct (Hother i a ra Hi Hge Ha) as [Hi' _]. destruct (Hother j b rb Hj) as [Hj' Eb]; [lia|done|]. rewrite Eb.
  apply le_n_S. eapply sorted_keys_lookup; [apply sort_other_sorted| |exact Hi'|exact Hj']. lia.
Qed.

Lemma order_staged_spec rows : NoDup (map fst rows) ->
  let folders := filter (fun e => is_active_folder e = true) rows in
  exists r, order_staged rows = Some r /\
    match r with
    | Ok l => (forall c, c ∈ map fst folders -> grounded folders c)
        /\ l ≡ₚ map fst rows /\ parents_first folders l /\ in_rank_order rows l
    | Err e => e = EValidation (lit "Cloud sync folders contain a parent cycle")
        /\ exists c, c ∈ map fst folders /\ ~ grounded folders c
    end.
Proof.
  intros Hnd folders. unfold order_staged. fold folders. destruct (order_folders_ok folders) as (children & ordered & -> & Hok).
  assert (Hndf : NoDup (map fst folders)).
  { rewrite <-(filter_rows_perm rows), map_app in Hnd. by apply NoDup_app in Hnd as [? _]. }
  eexists. split; [done|]. pose proof (oo_all _ _ _ _ _ Hok) as Hall. pose proof (Permutation_length Hall) as Hlen.
  rewrite length_app, length_map in Hlen. destruct (Nat.eqb_spec (length ordered) (length folders)) as [E|E]; simpl.
  - assert (Hw : waiting children = []) by (apply length_zero_iff_nil; lia). rewrite Hw, app_nil_r in Hall. repeat split.
    + intros c Hc. eapply placed_grounded; [exact Hok|]. by rewrite Hall.
    + by rewrite Hall, sort_other_perm, <-map_app; unfold folders; rewrite filter_rows_perm.
    + intros j c row p Hj Hc Ep Hp.
      assert (Hco : c ∈ ordered) by (rewrite Hall; apply list_elem_of_fmap; by exists (c, row)).
      destruct (list_elem_of_lookup_1 _ _ Hco) as [k Hk]. assert (j = k) as ->.
      { eapply NoDup_lookup; [|exact Hj|by apply lookup_app_l_Some].
        by rewrite Hall, sort_other_perm, <-map_app; unfold folders; rewrite filter_rows_perm. }
      destruct (oo_placed _ _ _ _ _ Hok k c Hk) as (row' & Hr & Hpar).
      rewrite (staged_unique folders c row' row) in Hpar by done. destruct (Hpar p Ep Hp) as (i & Hi & Hl).
      exists i. split; [done|]. by apply lookup_app_l_Some.
    + by eapply ordered_ranks.
  - split; [done|]. destruct (waiting children) as [|c w] eqn:Ew; [simpl in Hlen; lia|].
    assert (Hc : c ∈ map fst folders) by (rewrite <-Hall; set_solver). exists c. split; [done|]. intros Hg.
    apply (grounded_placed folders children ordered Hndf Hok) in Hg. rewrite <-Hall in Hndf.
    apply NoDup_app in Hndf as (_ & Hd & _). apply (Hd c Hg). left.
Qed.

Lemma elem_staged_rows account_id st id row : (id, row) ∈ staged_rows account_id st <-> st !! (account_id, id) = Some row.
Proof.
  unfold staged_rows. rewrite sort_entries_perm, list_elem_of_omap. split.
  - intros ([[a k] r] & H%elem_of_map_to_list & E). cbn in E. case_bool_decide; [|done]. by simplify_eq.
  - intros H%elem_of_map_to_list. eexists. split; [exact H|]. cbn. by rewrite bool_decide_true.
Qed.

Lemma staged_rows_nodup account_id st : NoDup (map fst (staged_rows account_id st)).
Proof.
  apply (NoDup_fmap_fst (staged_rows account_id st)).
  - intros id r1 r2 H1%elem_staged_rows H2%elem_staged_rows. congruence.
  - unfold staged_rows. rewrite sort_entries_perm. apply NoDup_omap_inj; [apply NoDup_map_to_list|].
    intros [[a1 k1] r1] [[a2 k2] r2] b _ _ E1 E2. cbn in *. repeat case_bool_decide; by simplify_eq.
Qed.

(** C17: The staged changes are applied in an order that respects containment, and the
    search for that order always ends. It succeeds exactly when no staged folder is in
    or below a cycle of staged parents; then every staged row is applied exactly once,
    each active folder after its staged parent, and active folders come before active
    connections, those before deleted connections, those before deleted folders. *)
Theorem order_staged_topological account_id st :
  let rows := staged_rows account_id st in
  let folders := filter (fun e => is_active_folder e = true) rows in
  exists r, order_staged rows = Some r /\
    match r with
    | Ok l => (forall c, c ∈ map fst folders -> grounded folders c)
        /\ l ≡ₚ map fst rows /\ parents_first folders l /\ in_rank_order rows l
    | Err e => e = EValidation (lit "Cloud sync folders contain a parent cycle")
        /\ exists c, c ∈ map fst folders /\ ~ grounded folders c
    end.
Proof. apply order_staged_spec, staged_rows_nodup. Qed.
End ordering.
