(* ===== verification/SyncDemo.v ===== *)
(** * A codec for examples

    A concrete [SyncCodec]: texts are lists of tokens, the digest is the text itself and
    the cipher writes its key, nonce, associated data and plaintext into the ciphertext.
    It satisfies the laws that theorems assume of the crates, so that their hypotheses
    can be met by concrete runs; it is not a model of any of them. *)

From stdpp Require Import base gmap list strings countable.
From Stdlib Require Import ZArith Lia Sorting.
From S2P Require Import Prelude Digits Types Connections SyncProjection SyncPull SyncStore SyncApply.

#[export] Instance demo_numbers : JsonNumber :=
  {| Number := Z; F64 := Z; as_i64 := Some; as_u64 := Some; as_f64 := Some; f64_is_finite _ := true; f64_to_string := to_dec |}.

(** ** Values as trees *)

Definition leaf : Type := unit + bool + Z + str.

Fixpoint to_tree (v : Value) : gen_tree leaf :=
  match v with
  | VNull => GenLeaf (inl (inl (inl tt)))
  | VBool b => GenLeaf (inl (inl (inr b)))
  | VNumber n => GenLeaf (inl (inr n))
  | VString s => GenLeaf (inr s)
  | VArray l => GenNode 0 (map to_tree l)
  | VObject fields => GenNode 1 (map (fun e => GenNode 2 [GenLeaf (inr e.1); to_tree e.2]) fields)
  end.

Fixpoint of_tree (t : gen_tree leaf) : Value :=
  match t with
  | GenLeaf (inl (inl (inl _))) => VNull
  | GenLeaf (inl (inl (inr b))) => VBool b
  | GenLeaf (inl (inr n)) => VNumber n
  | GenLeaf (inr s) => VString s
  | GenNode O l => VArray (map of_tree l)
  | GenNode _ l =>
    VObject (map_collect (flat_map (fun t => match t with GenNode _ [GenLeaf (inr k); v] => [(k, of_tree v)] | _ => [] end) l))
  end.

Lemma of_to_tree v : value_ok v -> of_tree (to_tree v) = v.
Proof.
  induction v as [| | | |l IH|fields IH] using Value_nested_ind; try done; cbn [to_tree of_tree].
  - intros Hl%value_ok_array. f_equal. rewrite map_map. clear -IH Hl.
    induction IH as [|v l Hv _ IHl]; [done|]. apply Forall_cons_1 in Hl as [H1 H2]. simpl. by rewrite Hv, IHl.
  - intros [Hs Hf]%value_ok_object. f_equal. rewrite <-(map_collect_sorted fields Hs) at 2. f_equal. clear Hs.
    induction IH as [|[k v] fields Hv _ IHf]; [done|]. apply Forall_cons_1 in Hf as [Hf1 Hf2]. cbn in *. by rewrite Hv, IHf.
Qed.

Definition demo_to_string (v : Value) : str := [Zpos (encode (to_tree v))].
Definition demo_from_str (s : str) : option Value :=
  match s with [Zpos p] => of_tree <$> decode p | _ => None end.

(** ** A change as a list of texts *)

Definition opt_field (o : option str) : str := match o with Some s => 1%Z :: s | None => [] end.
Definition field_opt (s : str) : option str := match s with _ :: s => Some s | [] => None end.

Definition change_fields (c : CloudConnectionAssetChange) : list str :=
  let a := rc_asset c in
  [rc_change_cursor c; ra_id a; ra_asset_type a; ra_revision a; opt_field (ra_parent_revision a); ra_change_cursor a;
   [ra_schema_version a; ra_key_generation a; ra_encrypted_bytes a; if ra_tombstone a then 1 else 0]%Z;
   ra_updated_by_device_id a; ra_created_at a; ra_updated_at a; opt_field (ra_deleted_at a)]
  ++ match ra_encryption a with Some e => [en_suite e; en_nonce e; en_ciphertext e] | None => [] end.

Definition fields_change (l : list str) : option CloudConnectionAssetChange :=
  match l with
  | cursor :: id :: type :: revision :: parent :: acursor :: [schema; generation; bytes; tomb] :: device :: created :: updated
      :: deleted :: enc =>
    Some (mkCloudConnectionAssetChange cursor
      (mkCloudConnectionAssetProjection id type revision (field_opt parent) acursor schema generation
        match enc with [suite; nonce; ciphertext] => Some (mkCloudConnectionAssetEncryption suite nonce ciphertext) | _ => None end
        bytes (tomb =? 1)%Z device created updated (field_opt deleted)))
  | _ => None
  end.

Definition demo_change_to_json (c : CloudConnectionAssetChange) : str := [Zpos (encode (change_fields c))].
Definition demo_change_from_json (s : str) : option CloudConnectionAssetChange :=
  match s with [Zpos p] => decode p ≫= fields_change | _ => None end.

(** ** Plaintexts and ciphertexts *)

(** A folder is its id, a separator and its parent, if any. *)
Fixpoint demo_folder_from_slice (seen : str) (s : list Z) : option ConnectionFolderSyncProjection :=
  let folder parent := Some (mkConnectionFolderSyncProjection SYNC_SCHEMA_VERSION ConnectionFolder (rev seen) (lit "Folder") parent None) in
  match s with
  | [] => folder None
  | c :: s => if (c =? 47)%Z then folder (Some s) else demo_folder_from_slice (c :: seen) s
  end.

(** A connection is its id, a separator and its name; it needs a database file. *)
Fixpoint demo_connection_from_slice (seen : str) (s : list Z) : option ConnectionSyncProjection :=
  match s with
  | [] => None
  | c :: s =>
    if (c =? 47)%Z then
      Some (mkConnectionSyncProjection SYNC_SCHEMA_VERSION Connection (rev seen) s (lit "sqlite") [] None [] [] None None None
              (VObject []) [DatabaseFile])
    else demo_connection_from_slice (c :: seen) s
  end.

Definition demo_encrypt (key nonce aad plaintext : list Z) : option (list Z) :=
  Some (Zpos (encode [key; nonce; aad; plaintext]) :: replicate 15 0%Z).
Definition demo_decrypt (key nonce aad ciphertext : list Z) : option (list Z) :=
  match ciphertext with
  | Zpos p :: _ =>
    match decode p with
    | Some [key'; nonce'; aad'; plaintext] =>
      if bool_decide ((key', nonce', aad') = (key, nonce, aad)) && bool_decide (demo_encrypt key nonce aad plaintext = Some ciphertext)
      then Some plaintext else None
    | _ => None
    end
  | _ => None
  end.

#[export] Instance demo_codec : SyncCodec := {|
  json_from_str := demo_from_str;
  json_to_string := demo_to_string;
  number_of_i64 := fun n : Z => n : @Number demo_numbers;
  sha256 := fun bytes => bytes;
  base64url_encode := fun bytes => bytes;
  base64url_decode := Some;
  uuid_parses := fun _ => true;
  aead_encrypt := demo_encrypt;
  aead_decrypt := demo_decrypt;
  connection_from_slice := demo_connection_from_slice [];
  folder_from_slice := demo_folder_from_slice [];
  change_to_json := demo_change_to_json;
  change_from_json := demo_change_from_json;
|}.

(** ** The laws *)

Lemma demo_change_round_trip c : demo_change_from_json (demo_change_to_json c) = Some c.
Proof.
  unfold demo_change_from_json, demo_change_to_json. rewrite decode_encode. cbn [mbind option_bind].
  destruct c as [cursor [id type revision [] acursor schema generation [[]|] bytes [] device created updated []]]; reflexivity.
Qed.

Lemma demo_json_round_trip v : value_ok v -> demo_from_str (demo_to_string v) = Some v.
Proof. intros Hv. unfold demo_from_str, demo_to_string. rewrite decode_encode. cbn. by rewrite of_to_tree. Qed.

Lemma of_tree_ok t : value_ok (of_tree t).
Proof.
  revert t. fix IH 1. intros [[[[]|]|]|[|n] l]; try exact I; cbn [of_tree].
  - apply value_ok_array. induction l as [|t l IHl]; constructor; [apply IH|exact IHl].
  - apply map_collect_ok. induction l as [|t l IHl]; [constructor|]. cbn [flat_map].
    destruct t as [|m [|[[|k]|] [|v []]]]; cbn [app]; try exact IHl. constructor; [apply IH|exact IHl].
Qed.

Lemma demo_json_sorted s v : demo_from_str s = Some v -> value_ok v.
Proof.
  unfold demo_from_str. destruct s as [|[] [|]]; try done. intros (t & _ & ->)%fmap_Some. apply of_tree_ok.
Qed.

Lemma demo_cipher_sound key nonce aad ciphertext plaintext :
  demo_decrypt key nonce aad ciphertext = Some plaintext <-> demo_encrypt key nonce aad plaintext = Some ciphertext.
Proof.
  split.
  - unfold demo_decrypt. intros H. repeat (case_match; try done). simplify_eq. breflect. done.
  - intros H. pose proof H as H0. unfold demo_encrypt in H0. injection H0 as <-. cbn. rewrite decode_encode.
    rewrite !bool_decide_true by done. done.
Qed.

(** ** A server and a device *)

Definition demo_account : str := lit "acct".
Definition demo_keys : CommittedSyncKeyBundle := mkCommittedSyncKeyBundle demo_account (lit "dev") 1 [1%Z] [] [].

Definition demo_asset (type id : string) (revision : Z) (encryption : option CloudConnectionAssetEncryption) : CloudConnectionAssetProjection :=
  let active := bool_decide (is_Some encryption) in
  mkCloudConnectionAssetProjection (lit id) (lit type) (to_dec revision) None (lit "9") SYNC_SCHEMA_VERSION 1 encryption
    (if active then 16 else 0) (negb active) (lit "dev2") [] [] (if active then None else Some (lit "t")).

(** A change whose plaintext another device encrypted, or the deletion of the asset. *)
Definition demo_change (type id : string) (revision cursor : Z) (plaintext : option string) : CloudConnectionAssetChange :=
  let encryption := plaintext ≫= fun p =>
    match encrypt_connection_asset (Some (replicate 24 7%Z)) demo_account (lit id) (lit type) revision SYNC_SCHEMA_VERSION 1
            (lit p) (kb_amk demo_keys) with Ok e => Some e | Err _ => None end in
  mkCloudConnectionAssetChange (to_dec cursor) (demo_asset type id revision encryption).

Definition demo_page (next : Z) (changes : list CloudConnectionAssetChange) : CloudConnectionAssetListResponse :=
  mkCloudConnectionAssetListResponse [] (mkCloudConnectionAssetCursor (lit "0") (to_dec next) false) changes.

(** Begin a pull, validate and stage one page, and return the database before it is applied. *)
Definition demo_staged (next : Z) (changes : list CloudConnectionAssetChange) (d : SyncDb) : option SyncDb :=
  match begin_staged_pull None demo_account d, validate_and_decrypt_page demo_account 0 (demo_page next changes) demo_keys with
  | (Ok _, d1), Ok page => match stage_validated_page None demo_account page d1 with (Ok _, d2) => Some d2 | _ => None end
  | _, _ => None
  end.

Definition demo_uuid (id : str) : str := lit "uuid-" ++ id.
Definition demo_nonce (_ : str) : option (list Z) := Some (replicate 24 8%Z).

Definition demo_apply (next : Z) : DB SyncApplySummary :=
  apply_staged_pull 5 (lit "t5") demo_uuid demo_nonce None demo_account 0 next demo_keys (fun _ => true).

(** The whole pull. *)
Definition demo_pull (next : Z) (changes : list CloudConnectionAssetChange) (d : SyncDb) : option (AppResult SyncApplySummary * SyncDb) :=
  demo_apply next <$> demo_staged next changes d.

Definition demo_folder (parent : option string) : ConnectionFolderRow :=
  mkConnectionFolderRow (lit "Folder") (lit <$> parent) (lit "t0") (lit "t0") None.
Definition demo_connection (name : string) : ConnectionRecordRow :=
  mkConnectionRecordRow (lit name) (lit "sqlite") [] None [] [] None (demo_to_string (VObject [])) None 0 0 None None None None.

(** What the device knows of an asset it synchronised. *)
Definition demo_known (type : CloudSyncAssetType) (id : string) (status : CloudSyncAssetStatus) (hash : str) : CloudSyncAssetMetadata :=
  mkCloudSyncAssetMetadata type (lit id) (Some 1%Z) (Some 1%Z) status None None None None false None (Some hash) 0 0.
Definition folder_hash (id : string) (row : ConnectionFolderRow) : str :=
  (folder_projection number_of_i64 json_to_string sha256 (folder_record (lit id) row)).2.

Definition demo_db (t : LocalTables) (known : list (string * CloudSyncAssetMetadata)) : SyncDb :=
  mkSyncDb t (list_to_map (map (fun e => ((demo_account, lit e.1), e.2)) known)) ∅ ∅ ∅ ∅ ∅ ∅.
