(* ===== verification/SyncSafety.v ===== *)
(** * What a pull keeps
    (theorems about [src-tauri/src/cloud/sync_apply.rs])

    One change only touches the rows of its own asset; so what a whole pull does to an
    asset is what its one change does.  From this: a pull is atomic and complete, and it
    does not overwrite what was edited here. *)

From stdpp Require Import base gmap list strings fin_maps.
From Stdlib Require Import ZArith Lia Sorting.
From S2P Require Import Prelude Digits Types Connections SyncProjection SyncPull SyncStore SyncApply SyncDemo.

(** ** The rows of one asset *)

Section frame.
Context (account id : str).
Implicit Types (d : SyncDb).

(** Two databases that differ at most in what they hold about one asset. *)
Record same_elsewhere d d' : Prop := {
  se_connections : forall k, k <> id -> connections (local d') !! k = connections (local d) !! k;
  se_folders : forall k, k <> id -> folders (local d') !! k = folders (local d) !! k;
  se_assets : forall key, key <> (account, id) -> assets d' !! key = assets d !! key;
  se_conflicts : forall key, key.1.1 <> (account, id) -> conflicts d' !! key = conflicts d !! key;
  se_operations : forall o,
    operations d' !! o = operations d !! o
    \/ exists x y, operations d !! o = Some x /\ operations d' !! o = Some y
       /\ (o_cloud_account_id x, o_asset_id x) = (account, id) /\ (o_cloud_account_id y, o_asset_id y) = (account, id);
  se_cursors : cursors d' = cursors d;
  se_key_bindings : key_bindings d' = key_bindings d;
  se_staging : staging d' = staging d;
  se_batches : batches d' = batches d;
}.

#[export] Instance same_elsewhere_refl : Reflexive same_elsewhere.
Proof. intros d. split; auto. Qed.

#[export] Instance same_elsewhere_trans : Transitive same_elsewhere.
Proof.
  intros d1 d2 d3 H12 H23. split; [intros k Hk; etrans; [by apply H23|by apply H12]..| | | | |];
    [|by rewrite (se_cursors _ _ H23), (se_cursors _ _ H12)|by rewrite (se_key_bindings _ _ H23), (se_key_bindings _ _ H12)
     |by rewrite (se_staging _ _ H23), (se_staging _ _ H12)|by rewrite (se_batches _ _ H23), (se_batches _ _ H12)].
  intros o. destruct (se_operations _ _ H23 o) as [E|(x & y & E1 & E2 & K1 & K2)], (se_operations _ _ H12 o) as [F|(x' & y' & F1 & F2 & L1 & L2)].
  - left. congruence.
  - right. exists x', y'. split; [done|]. rewrite E. done.
  - right. exists x, y. rewrite <-F. done.
  - right. exists x', y. done.
Qed.
End frame.

(** Unresolved conflicts name operations of their own asset. *)
Definition conflict_operations_ok (d : SyncDb) : Prop :=
  forall account id r row oid o, conflicts d !! (account, id, r, CfPending) = Some row ->
  k_pending_operation_id row = Some oid -> operations d !! oid = Some o ->
  (o_cloud_account_id o, o_asset_id o) = (account, id).

(** What is read about another asset is not changed. *)
Lemma load_metadata_elsewhere account id k d d' : same_elsewhere account id d d' -> k <> id ->
  load_metadata account k d' = load_metadata account k d.
Proof. intros H Hk. apply (se_assets _ _ _ _ H). congruence. Qed.

Lemma load_pending_operation_elsewhere account id k d d' : same_elsewhere account id d d' -> k <> id ->
  load_pending_operation account k d' = load_pending_operation account k d.
Proof.
  intros H Hk. unfold load_pending_operation. f_equal. f_equal. apply map_eq. intros o.
  destruct (se_operations _ _ _ _ H o) as [E|(x & y & E1 & E2 & K1 & K2)].
  - apply option_eq. intros x. rewrite !map_lookup_filter_Some. by rewrite E.
  - simplify_eq. transitivity (None : option CloudSyncOperation); [|symmetry]; apply map_lookup_filter_None; right;
      [rewrite E2|rewrite E1]; intros z [= <-]; cbn; unfold is_unsettled; rewrite (bool_decide_false (_ = k)) by congruence;
      by rewrite andb_false_r.
Qed.

(** ** Runs that return *)

Lemma st_bind_Ok {S E A B} (m : ST S E A) (k : A -> ST S E B) s b s'' :
  mbind k m s = (Ok b, s'') -> exists a s', m s = (Ok a, s') /\ k a s' = (Ok b, s'').
Proof. unfold mbind, ST_bind. destruct (m s) as [[a|e] s']; [eauto|done]. Qed.

Lemma st_lift_Ok {S E A} (r : Result E A) (s : S) a s' : st_lift r s = (Ok a, s') -> r = Ok a /\ s' = s.
Proof. unfold st_lift. by intros [= -> ->]. Qed.

Lemma st_ret_Ok {S E A} (a b : A) (s s' : S) : (mret a : ST S E A) s = (Ok b, s') -> b = a /\ s' = s.
Proof. by intros [= -> ->]. Qed.

Lemma st_modify_Ok {S E} (f : S -> S) u (s s' : S) : (st_modify f : ST S E unit) s = (Ok u, s') -> s' = f s.
Proof. by intros [= _ ->]. Qed.

(** Splits the hypotheses that a sequence of operations returned. *)
Ltac db_inv :=
  repeat match goal with
  | H : mbind _ _ _ = (Ok _, _) |- _ => let E := fresh "E" in apply st_bind_Ok in H as (? & ? & E & H)
  | H : st_lift _ _ = (Ok _, _) |- _ => apply st_lift_Ok in H as [H ->]
  | u : unit |- _ => destruct u
  | H : st_get _ = (Ok _, _) |- _ => injection H as <- <-
  | H : mret _ _ = (Ok _, _) |- _ => apply st_ret_Ok in H as [? ->]
  | H : st_modify _ _ = (Ok _, _) |- _ => apply st_modify_Ok in H as ->
  | H : ok_or _ ?o = Ok _ |- _ => destruct o eqn:?; [injection H as <-|discriminate H]
  end.

Lemma update_folder_row_Ok k f t n t' : update_folder_row k f t = (Ok n, t') ->
  connections t' = connections t /\ forall k', k' <> k -> folders t' !! k' = folders t !! k'.
Proof.
  unfold update_folder_row. destruct (folders t !! k); [destruct (folder_ref_ok _ _)|]; intros [= <- <-]; cbn; split; auto.
  intros k' Hk. by rewrite lookup_insert_ne.
Qed.

Lemma insert_folder_row_Ok k r t t' : insert_folder_row k r t = (Ok tt, t') ->
  connections t' = connections t /\ forall k', k' <> k -> folders t' !! k' = folders t !! k'.
Proof.
  unfold insert_folder_row. destruct (_ && _); intros [= <-]; cbn. split; auto. intros k' Hk. by rewrite lookup_insert_ne.
Qed.

Lemma delete_folder_row_Ok k t n t' : delete_folder_row k t = (Ok n, t') ->
  connections t' = connections t /\ forall k', k' <> k -> folders t' !! k' = folders t !! k'.
Proof.
  unfold delete_folder_row. destruct (folders t !! k); [destruct (_ && _)|]; intros [= <- <-]; cbn; split; auto.
  intros k' Hk. by rewrite lookup_delete_ne.
Qed.

Lemma insert_connection_row_Ok k r t t' : insert_connection_row k r t = (Ok tt, t') ->
  folders t' = folders t /\ connections t' !! k = Some r /\ forall k', k' <> k -> connections t' !! k' = connections t !! k'.
Proof.
  unfold insert_connection_row. destruct (_ && _); intros [= <-]; cbn. split; [done|].
  split; [apply lookup_insert_eq|]. intros k' Hk. by rewrite lookup_insert_ne.
Qed.

Lemma update_connection_row_Ok k f t n t' : update_connection_row k f t = (Ok n, t') ->
  folders t' = folders t /\ connections t' !! k = f <$> connections t !! k
  /\ forall k', k' <> k -> connections t' !! k' = connections t !! k'.
Proof.
  unfold update_connection_row. destruct (connections t !! k) eqn:E; [destruct (folder_ref_ok _ _)|]; intros [= <- <-]; cbn;
    (split; [done|]); [split; [apply lookup_insert_eq|]; intros k' Hk; by rewrite lookup_insert_ne|auto].
Qed.

Lemma delete_connection_row_Ok k t n t' : delete_connection_row k t = (Ok n, t') ->
  folders t' = folders t /\ forall k', k' <> k -> connections t' !! k' = connections t !! k'.
Proof.
  unfold delete_connection_row. destruct (connections t !! k); intros [= <- <-]; cbn; split; auto.
  intros k' Hk. by rewrite lookup_delete_ne.
Qed.

Lemma on_local_Ok {A} (m : ST LocalTables AppError A) d a d' : on_local m d = (Ok a, d') ->
  exists t, m (local d) = (Ok a, t) /\ d' = set_local t d.
Proof. unfold on_local. destruct (m (local d)) as [r t]. intros [= -> <-]. eauto. Qed.

(** Tables that differ at most in one row. *)
Definition same_tables_elsewhere (id : str) (t t' : LocalTables) : Prop :=
  forall k, k <> id -> connections t' !! k = connections t !! k /\ folders t' !! k = folders t !! k.

Lemma set_local_elsewhere account id t d :
  same_tables_elsewhere id (local d) t -> same_elsewhere account id d (set_local t d).
Proof. intros H. split; auto; intros k Hk; by apply H. Qed.

(** ** One change *)

Section change.
Context `{C : SyncCodec}.
Context (now : Z) (now_text : str) (new_uuid : str -> str) (random_nonce : str -> option (list Z)).
Implicit Types (d : SyncDb) (change : ValidatedSyncChange).

(** The projection is about the asset it came with. *)
Definition identified change : Prop :=
  match vc_projection change with
  | Some (DConnection value) => cp_id value = ra_id (vc_asset change)
  | Some (DConnectionFolder value) => fp_id value = ra_id (vc_asset change)
  | None => True
  end.

Lemma validate_common_Ok v t id asset : validate_projection_common v t id asset = Ok tt -> id = ra_id asset.
Proof. unfold validate_projection_common, str_eqb. intros H. case_ifs H; try done. breflect. done. Qed.

Lemma check_connection_Ok value asset p : check_connection value asset = Ok p -> p = DConnection value /\ cp_id value = ra_id asset.
Proof.
  unfold check_connection. intros H. bind_inv. case_ifs H; try done. bind_inv. subst. split; [done|].
  destruct a. by eapply validate_common_Ok.
Qed.

Lemma check_folder_Ok value asset p : check_folder value asset = Ok p -> p = DConnectionFolder value /\ fp_id value = ra_id asset.
Proof.
  unfold check_folder. intros H. bind_inv. case_ifs H; try done. bind_inv. subst. split; [done|].
  destruct a. by eapply validate_common_Ok.
Qed.

Lemma decrypt_change_Ok account cursor revision type asset keys change :
  decrypt_change account cursor revision type asset keys = Ok change -> vc_asset change = asset /\ identified change.
Proof.
  unfold decrypt_change. intros H. bind_inv. subst. split; [done|]. unfold identified. cbn. destruct type; bind_inv.
  - match goal with E : check_connection _ _ = _ |- _ => by apply check_connection_Ok in E as [-> ?] end.
  - match goal with E : check_folder _ _ = _ |- _ => by apply check_folder_Ok in E as [-> ?] end.
Qed.

Lemma validated_change account raw keys change :
  validate_and_decrypt_change account raw keys = Ok change -> vc_asset change = rc_asset raw /\ identified change.
Proof.
  unfold validate_and_decrypt_change. intros H. bind_inv. case_ifs H; try done; bind_inv. case_ifs H; bind_inv; subst; try done.
  by eapply decrypt_change_Ok.
Qed.

(** *** Writing the remote version *)

Lemma upsert_folder_Ok projection d d' : upsert_folder now_text projection d = (Ok tt, d') ->
  exists t, d' = set_local t d /\ same_tables_elsewhere (fp_id projection) (local d) t.
Proof.
  unfold upsert_folder. intros H. db_inv. apply on_local_Ok in H as (t & H & ->). exists t. split; [done|]. intros k Hk.
  destruct (folders (local d) !! fp_id projection); db_inv.
  - apply update_folder_row_Ok in E as [-> E]. auto.
  - apply insert_folder_row_Ok in H as [-> H]. auto.
Qed.

(** The columns a pull writes; those of this machine are kept. *)
Definition pulled_columns (projection : ConnectionSyncProjection) (note payload : str) (row : ConnectionRecordRow) : Prop :=
  cr_name row = cp_name projection /\ cr_driver row = cp_driver projection /\ cr_environment row = cp_environment projection
  /\ cr_color row = cp_color projection /\ cr_note row = note /\ cr_tag_label row = cp_tag_label projection
  /\ cr_tag_color row = cp_tag_color projection /\ cr_payload row = payload /\ cr_folder_id row = cp_folder_id projection
  /\ cr_sort_order row = cp_sort_order projection.

Lemma upsert_connection_Ok projection payload d d' : upsert_connection now projection payload d = (Ok tt, d') ->
  exists t note row, d' = set_local t d /\ same_tables_elsewhere (cp_id projection) (local d) t
    /\ folders t = folders (local d) /\ normalize_connection_note (cp_note projection) = Ok note
    /\ connections t !! cp_id projection = Some row /\ pulled_columns projection note (json_to_string payload) row.
Proof.
  unfold upsert_connection. intros H. db_inv. apply on_local_Ok in H as (t & H & ->).
  destruct (connections (local d) !! cp_id projection) eqn:Erow; db_inv.
  - apply update_connection_row_Ok in E1 as (Hf & Hc & Ho). rewrite Erow in Hc. do 3 eexists. split; [done|].
    split; [intros k Hk; by rewrite Hf, Ho|]. split; [done|]. split; [done|]. split; [exact Hc|]. by split_and!.
  - apply insert_connection_row_Ok in H as (Hf & Hc & Ho). do 3 eexists. split; [done|].
    split; [intros k Hk; by rewrite Hf, Ho|]. split; [done|]. split; [done|]. split; [exact Hc|]. by split_and!.
Qed.

Lemma delete_local_Ok asset d d' : delete_local asset d = (Ok tt, d') ->
  exists t, d' = set_local t d /\ same_tables_elsewhere (ra_id asset) (local d) t.
Proof.
  unfold delete_local. intros H. case_ifs H; db_inv; try done;
    match goal with H : on_local _ _ = _ |- _ => apply on_local_Ok in H as (t & Ht & ->) end; exists t; (split; [done|]); intros k Hk.
  - apply delete_connection_row_Ok in Ht as [-> Ht]. auto.
  - apply delete_folder_row_Ok in Ht as [-> Ht]. auto.
Qed.

Lemma write_projection_Ok projection d s d' : write_projection now now_text projection d = (Ok s, d') ->
  exists t, d' = set_local t d
    /\ same_tables_elsewhere (match projection with DConnection c => cp_id c | DConnectionFolder f => fp_id f end) (local d) t.
Proof.
  unfold write_projection. destruct projection; intros H; db_inv.
  - match goal with H : upsert_connection _ _ _ _ = _ |- _ => apply upsert_connection_Ok in H as (t & ? & ? & -> & ? & _) end. eauto.
  - match goal with H : upsert_folder _ _ _ = _ |- _ => apply upsert_folder_Ok in H as (t & -> & ?) end. eauto.
Qed.

Lemma upsert_metadata_Ok account change revision status hash d d' :
  upsert_metadata now account change revision status hash d = (Ok tt, d') ->
  (revision <= I64_MAX)%Z /\ exists row, d' = set_assets (<[(account, ra_id (vc_asset change)) := row]> (assets d)) d
    /\ a_remote_revision row = Some revision /\ a_sync_status row = status /\ a_local_payload_hash row = hash.
Proof.
  unfold upsert_metadata. intros H. db_inv. unfold to_i64 in E. case_ifs E; [|done]. injection E as <-. split; [lia|].
  eexists. split; [reflexivity|]. by destruct (assets d !! _).
Qed.

Lemma set_assets_elsewhere account id row d :
  same_elsewhere account id d (set_assets (<[(account, id) := row]> (assets d)) d).
Proof. split; auto. cbn. intros key Hk. by rewrite lookup_insert_ne. Qed.

(** What applying the remote version of an asset leaves. *)
Lemma apply_remote_projection_Ok account change revision d d' :
  apply_remote_projection now now_text account change revision d = (Ok tt, d') -> identified change ->
  same_elsewhere account (ra_id (vc_asset change)) d d' /\ operations d' = operations d /\ conflicts d' = conflicts d
  /\ exists row, assets d' !! (account, ra_id (vc_asset change)) = Some row /\ a_remote_revision row = Some revision.
Proof.
  unfold apply_remote_projection, identified. intros H Hid.
  assert (exists t status hash d1, d1 = set_local t d /\ same_tables_elsewhere (ra_id (vc_asset change)) (local d) t
    /\ upsert_metadata now account change revision status hash d1 = (Ok tt, d')) as (t & status & hash & d1 & -> & Ht & Hm).
  { case_ifs H; db_inv.
    - apply delete_local_Ok in E0 as (t & -> & Ht). eauto 10.
    - apply write_projection_Ok in E1 as (t & -> & Ht). destruct d0; rewrite Hid in Ht; eauto 10. }
  apply upsert_metadata_Ok in Hm as (_ & row & -> & Hrev & _). split; [|split; [done|split; [done|]]].
  - etrans; [by apply set_local_elsewhere|]. apply set_assets_elsewhere.
  - exists row. cbn. by rewrite lookup_insert_eq.
Qed.

(** *** Conflicts *)

Lemma fold_pick_elem {A} (pick : option A -> A -> option A) l acc x :
  (forall acc e, pick acc e = acc \/ pick acc e = Some e) -> fold_left pick l acc = Some x -> acc = Some x \/ x ∈ l.
Proof.
  intros Hp. revert acc. induction l as [|e l IH]; intros acc; simpl; [auto|]. intros [H|H]%IH; [|right; by right].
  destruct (Hp acc e) as [E|E]; rewrite E in H; [auto|]. injection H as ->. right. left.
Qed.

Lemma load_pending_operation_Some account id d oid o : load_pending_operation account id d = Some (oid, o) ->
  operations d !! oid = Some o /\ is_unsettled account id o = true.
Proof.
  unfold load_pending_operation. intros [H|H]%fold_pick_elem; [done| |].
  - apply elem_of_map_to_list, map_lookup_filter_Some in H as [? ?]. done.
  - intros [a|] e; simpl; [destruct (newer_operation e a); auto|auto].
Qed.

Lemma unsettled_asset account id o : is_unsettled account id o = true -> (o_cloud_account_id o, o_asset_id o) = (account, id).
Proof. unfold is_unsettled. intros H. breflect. congruence. Qed.

Lemma latest_conflict_Some account id d r row : latest_conflict account id d = Some (r, row) ->
  conflicts d !! (account, id, r, CfPending) = Some row.
Proof.
  unfold latest_conflict. intros [H|H]%fold_pick_elem; [done| |].
  - apply list_elem_of_omap in H as ([[[[a k] r'] st] row'] & H%elem_of_map_to_list & E). cbn in E. case_ifs E; [|done].
    breflect. by simplify_eq.
  - intros [a|] e; simpl; [destruct (_ <? _)%Z; auto|auto].
Qed.

(** The operation that a candidate names is of the asset. *)
Lemma candidate_operation account change revision keys d c oid o :
  conflict_operations_ok d ->
  build_local_candidate random_nonce account change revision (load_pending_operation account (ra_id (vc_asset change)) d) keys d = Ok c ->
  lc_operation_id c = Some oid -> operations d !! oid = Some o ->
  (o_cloud_account_id o, o_asset_id o) = (account, ra_id (vc_asset change)).
Proof.
  intros Hok H Hc Ho. unfold build_local_candidate in H. destruct (load_pending_operation _ _ d) as [[oid' o']|] eqn:Eo.
  - apply load_pending_operation_Some in Eo as [El Eu]. bind_inv. subst c. cbn in Hc. simplify_eq. by apply unsettled_asset.
  - bind_inv. destruct a as [existing|]; bind_inv; subst c; [|done].
    unfold load_existing_conflict_candidate in E. destruct (latest_conflict _ _ d) as [[r row]|] eqn:El; [|done].
    apply latest_conflict_Some in El. bind_inv. simplify_eq. cbn in Hc. by eapply Hok.
Qed.

(** What a stored conflict keeps of the two versions. *)
Definition keeps_both (c : LocalCandidate) change (row : ConflictRow) : Prop :=
  k_local_action row = lc_action c /\ k_local_ciphertext row = lc_ciphertext c /\ k_local_nonce row = lc_nonce c
  /\ k_local_payload_hash row = lc_payload_hash c
  /\ k_remote_ciphertext row = default [] (en_ciphertext <$> ra_encryption (vc_asset change))
  /\ k_remote_nonce row = default [] (en_nonce <$> ra_encryption (vc_asset change))
  /\ k_remote_payload_hash row = default empty_payload_hash (vc_payload_hash change)
  /\ k_remote_tombstone row = ra_tombstone (vc_asset change) /\ k_pending_operation_id row = lc_operation_id c.

Lemma upsert_conflict_Ok key row d d' : upsert_conflict key row d = (Ok tt, d') ->
  exists row', d' = set_conflicts (<[key := row']> (conflicts d)) d
    /\ (k_local_action row', k_local_ciphertext row', k_local_nonce row', k_local_payload_hash row', k_remote_ciphertext row',
        k_remote_nonce row', k_remote_payload_hash row', k_remote_tombstone row', k_pending_operation_id row')
       = (k_local_action row, k_local_ciphertext row, k_local_nonce row, k_local_payload_hash row, k_remote_ciphertext row,
        k_remote_nonce row, k_remote_payload_hash row, k_remote_tombstone row, k_pending_operation_id row).
Proof.
  unfold upsert_conflict. intros H. destruct (conflicts d !! key); [|destruct (existsb _ _); [done|]];
    injection H as <-; (eexists; split; [reflexivity|done]).
Qed.

(** A change of status of an operation of the asset. *)
Lemma alter_operation_elsewhere account id f oid d :
  (forall o, operations d !! oid = Some o -> (o_cloud_account_id o, o_asset_id o) = (account, id)) ->
  (forall o, (o_cloud_account_id (f o), o_asset_id (f o)) = (o_cloud_account_id o, o_asset_id o)) ->
  same_elsewhere account id d (set_operations (alter f oid (operations d)) d)
  /\ forall o' y, alter f oid (operations d) !! o' = Some y ->
     exists x, operations d !! o' = Some x /\ (o_cloud_account_id y, o_asset_id y) = (o_cloud_account_id x, o_asset_id x).
Proof.
  intros Ho Hf. split.
  - split; auto. cbn. intros o'. destruct (decide (o' = oid)) as [->|Hne]; [|left; by rewrite lookup_alter_ne].
    rewrite lookup_alter_eq. destruct (operations d !! oid) as [x|] eqn:E; [|by left]. right. exists x, (f x). cbn.
    rewrite Hf, (Ho x); done.
  - intros o' y. destruct (decide (o' = oid)) as [->|Hne]; [|rewrite lookup_alter_ne by done; eauto].
    rewrite lookup_alter_eq. intros (x & Hx & ->)%fmap_Some. eauto.
Qed.

Lemma conflict_row_elsewhere account id r st row d :
  same_elsewhere account id d (set_conflicts (<[(account, id, r, st) := row]> (conflicts d)) d).
Proof. split; auto. cbn. intros [[[a k] r'] st'] Hk. rewrite lookup_insert_ne; [done|]. cbn in Hk. congruence. Qed.

Lemma mark_operation_conflicted_Ok account id oid d d' :
  mark_operation_conflicted now oid d = (Ok tt, d') ->
  (forall k o, oid = Some k -> operations d !! k = Some o -> (o_cloud_account_id o, o_asset_id o) = (account, id)) ->
  same_elsewhere account id d d' /\ local d' = local d /\ assets d' = assets d /\ conflicts d' = conflicts d
  /\ forall o' y, operations d' !! o' = Some y ->
     exists x, operations d !! o' = Some x /\ (o_cloud_account_id y, o_asset_id y) = (o_cloud_account_id x, o_asset_id x).
Proof.
  unfold mark_operation_conflicted. destruct oid as [oid|]; intros H Ho; db_inv; [|split; [reflexivity|eauto 6]].
  destruct (alter_operation_elsewhere account id (fun o => with_status now OpConflicted (o_last_error_code o) o) oid d) as [H1 H2];
    [by intros; eapply Ho|done|]. auto.
Qed.

Lemma persist_conflict_Ok account change revision metadata keys d d' :
  let operation := load_pending_operation account (ra_id (vc_asset change)) d in
  conflict_operations_ok d ->
  persist_conflict now new_uuid random_nonce account change revision metadata operation keys d = (Ok tt, d') ->
  same_elsewhere account (ra_id (vc_asset change)) d d' /\ conflict_operations_ok d' /\ local d' = local d
  /\ exists c row asset,
       build_local_candidate random_nonce account change revision operation keys d = Ok c
       /\ conflicts d' !! (account, ra_id (vc_asset change), revision, CfPending) = Some row /\ keeps_both c change row
       /\ assets d' !! (account, ra_id (vc_asset change)) = Some asset
       /\ a_remote_revision asset = Some revision /\ a_sync_status asset = Conflicted.
Proof.
  intros operation Hok H. unfold persist_conflict in H. db_inv. unfold to_i64 in E1. case_ifs E1; [|done]. injection E1 as <-.
  rename x1 into c. pose proof (fun oid o => candidate_operation _ _ _ _ _ _ oid o Hok E0) as Hop.
  apply upsert_conflict_Ok in E6 as (row & -> & Hrow). cbn in Hrow. simplify_eq.
  unfold mark_asset_row_conflicted in E7. db_inv. match type of H with mark_operation_conflicted _ _ (set_assets (<[_ := ?a]> _) _) = _ => set (asset := a) in * end.
  assert (a_remote_revision asset = Some revision /\ a_sync_status asset = Conflicted) as [Hrev Hst]
    by (unfold asset; cbn; by destruct (assets d !! _)).
  apply (mark_operation_conflicted_Ok account (ra_id (vc_asset change))) in H as (Hse & Hl & Ha & Hc & Hops); [|done].
  split; [|split; [|split; [done|]]].
  - etrans; [apply conflict_row_elsewhere|]. etrans; [apply set_assets_elsewhere|]. exact Hse.
  - intros a k r row' oid o. rewrite Hc. cbn. intros [[Hk <-]|[_ Hlk]]%lookup_insert_Some Hoid (x & Hx & Hkey)%Hops; rewrite Hkey.
    + injection Hk as <- <- _. eapply Hop; [|done]. congruence.
    + by eapply Hok.
  - exists c, row, asset. rewrite Hc, Ha. cbn. rewrite !lookup_insert_eq. by split_and!.
Qed.

(** *** What becomes of one change *)

Definition processed (s : SyncApplySummary) : nat := sm_applied s + sm_deleted s + sm_conflicted s + sm_ignored s.

Inductive outcome (account : str) change (revision : Z) (keys : CommittedSyncKeyBundle) d d' : Prop :=
| known row v : d' = d -> assets d !! (account, ra_id (vc_asset change)) = Some row -> a_remote_revision row = Some v ->
    (u64_as_i64 revision <= v)%Z -> outcome account change revision keys d d'
| superseded oid o : d' = d -> load_pending_operation account (ra_id (vc_asset change)) d = Some (oid, o) ->
    operation_matches_remote o change revision = Ok false ->
    (revision <= i64_as_u64 (default 0 (o_expected_revision o)))%Z -> outcome account change revision keys d d'
| taken row : assets d' !! (account, ra_id (vc_asset change)) = Some row -> a_remote_revision row = Some revision ->
    match load_pending_operation account (ra_id (vc_asset change)) d with
    | Some (_, o) => operation_matches_remote o change revision = Ok true
    | None => status_requires_conflict (load_metadata account (ra_id (vc_asset change)) d) = false
        /\ local_fact_changed (load_metadata account (ra_id (vc_asset change)) d) change d = Ok false
        /\ (load_metadata account (ra_id (vc_asset change)) d = None -> local_entity_exists change d = Ok false)
    end -> outcome account change revision keys d d'
| conflicted c row asset : local d' = local d ->
    build_local_candidate random_nonce account change revision
      (load_pending_operation account (ra_id (vc_asset change)) d) keys d = Ok c ->
    conflicts d' !! (account, ra_id (vc_asset change), revision, CfPending) = Some row -> keeps_both c change row ->
    assets d' !! (account, ra_id (vc_asset change)) = Some asset ->
    a_remote_revision asset = Some revision -> a_sync_status asset = Conflicted -> outcome account change revision keys d d'.

Lemma count_outcome_processed change s : processed (count_outcome change s) = S (processed s).
Proof. unfold count_outcome, processed. destruct (ra_tombstone _); cbn; lia. Qed.

Lemma mark_operation_applied_Ok account id oid o d d' : mark_operation_applied now oid d = (Ok tt, d') ->
  operations d !! oid = Some o -> (o_cloud_account_id o, o_asset_id o) = (account, id) -> conflict_operations_ok d ->
  same_elsewhere account id d d' /\ assets d' = assets d /\ conflict_operations_ok d'.
Proof.
  unfold mark_operation_applied. intros H Ho Hk Hok. db_inv.
  destruct (alter_operation_elsewhere account id (with_status now OpApplied None) oid d) as [H1 H2];
    [intros o' Ho'; congruence|done|]. split; [done|]. split; [done|].
  intros a k r row oid' y Hc Hp (x & Hx & Hkey)%H2. rewrite Hkey. by eapply Hok.
Qed.

Lemma apply_or_conflict_Ok account change revision keys s d s' d' :
  let id := ra_id (vc_asset change) in
  apply_or_conflict now now_text new_uuid random_nonce account change revision (load_metadata account id d)
    (load_pending_operation account id d) keys s d = (Ok s', d') ->
  identified change -> conflict_operations_ok d ->
  same_elsewhere account id d d' /\ conflict_operations_ok d' /\ processed s' = S (processed s)
  /\ outcome account change revision keys d d'.
Proof.
  intros id H Hid Hok. unfold apply_or_conflict in H. db_inv. rename x1 into changed, x3 into exists'.
  destruct (_ || _) eqn:Eb in H; db_inv; subst s'.
  - apply persist_conflict_Ok in E as (Hse & Hok' & Hl & c & row & asset & Hc & Hrow & Hk & Ha & Hrev & Hst); [|done].
    split; [done|]. split; [done|]. split; [unfold processed; cbn; lia|]. by eapply conflicted.
  - apply apply_remote_projection_Ok in E as (Hse & Hop & Hcf & row & Hrow & Hrev); [|done].
    split; [done|]. split; [|split; [apply count_outcome_processed|]].
    + intros a k r row' oid o. rewrite Hcf, Hop. apply Hok.
    + eapply taken; [exact Hrow|exact Hrev|]. fold id. breflect.
      assert (load_pending_operation account id d = None) as -> by (by apply eq_None_not_Some).
      subst changed. split; [done|]. split; [done|]. intros Hm.
      match goal with H : _ && exists' = false |- _ => apply andb_false_iff in H as [H| ->]; [|done] end. by breflect.
Qed.

Lemma apply_change_Ok account change keys s d s' d' :
  let id := ra_id (vc_asset change) in
  apply_change now now_text new_uuid random_nonce account change keys s d = (Ok s', d') ->
  identified change -> conflict_operations_ok d ->
  exists revision, parse_positive (ra_revision (vc_asset change)) "remote revision" = Ok revision
  /\ same_elsewhere account id d d' /\ conflict_operations_ok d' /\ processed s' = S (processed s)
  /\ outcome account change revision keys d d'.
Proof.
  intros id H Hid Hok. unfold apply_change in H. db_inv. rename x into revision. exists revision. split; [done|].
  fold id in H. match type of H with (if ?b then _ else _) _ = _ => destruct b eqn:Eknown end; db_inv; subst.
  { split; [reflexivity|]. split; [done|]. split; [unfold processed; cbn; lia|].
    unfold load_metadata in Eknown. destruct (assets d !! (account, id)) as [row|] eqn:Ea; [|done]. cbn in Eknown.
    destruct (a_remote_revision row) as [v|] eqn:Ev; [|done]. eapply known; [done|exact Ea|exact Ev|lia]. }
  destruct (load_pending_operation account id d) as [[oid o]|] eqn:Eop; [|rewrite <-Eop in H; by apply apply_or_conflict_Ok in H].
  db_inv. destruct x; [|destruct (_ <=? _)%Z eqn:Ele].
  - db_inv. subst. apply apply_remote_projection_Ok in E1 as (Hse & Hop & Hcf & row & Hrow & Hrev); [|done].
    destruct (load_pending_operation_Some _ _ _ _ _ Eop) as [Hlo Hu].
    apply (mark_operation_applied_Ok account id oid o) in E2 as (Hse' & Ha & Hok'); [|by rewrite Hop|by apply unsettled_asset|].
    + split; [by etrans|]. split; [done|]. split; [apply count_outcome_processed|]. eapply taken; [by rewrite Ha|done|].
      fold id. by rewrite Eop.
    + intros a k r row' oid' y. rewrite Hcf, Hop. apply Hok.
  - db_inv. subst. split; [reflexivity|]. split; [done|]. split; [unfold processed; cbn; lia|].
    eapply superseded; [done|exact Eop|done|lia].
  - rewrite <-Eop in H. by apply apply_or_conflict_Ok in H.
Qed.

(** ** The whole pull *)

(** Two databases that agree on what is known of one asset. *)
Record same_asset (account id : str) d d' : Prop := {
  sa_connection : connections (local d') !! id = connections (local d) !! id;
  sa_folder : folders (local d') !! id = folders (local d) !! id;
  sa_asset : assets d' !! (account, id) = assets d !! (account, id);
  sa_operation : load_pending_operation account id d' = load_pending_operation account id d;
  sa_conflicts : forall r st, conflicts d' !! (account, id, r, st) = conflicts d !! (account, id, r, st);
}.

Lemma same_asset_refl account id d : same_asset account id d d.
Proof. by split. Qed.

Lemma same_asset_trans account id d1 d2 d3 : same_asset account id d1 d2 -> same_asset account id d2 d3 -> same_asset account id d1 d3.
Proof. intros [] []. split; intros; etrans; eauto. Qed.

Lemma elsewhere_same_asset account k id d d' : same_elsewhere account k d d' -> id <> k -> same_asset account id d d'.
Proof.
  intros H Hk. split.
  - by apply H.
  - by apply H.
  - apply H. congruence.
  - by eapply load_pending_operation_elsewhere.
  - intros r st. apply H. cbn. congruence.
Qed.

Lemma same_asset_projection account change d d' : same_asset account (ra_id (vc_asset change)) d d' ->
  load_local_projection change d' = load_local_projection change d.
Proof. intros H. unfold load_local_projection. by rewrite (sa_connection _ _ _ _ H), (sa_folder _ _ _ _ H). Qed.

Lemma same_asset_changed account metadata change d d' : same_asset account (ra_id (vc_asset change)) d d' ->
  local_fact_changed metadata change d' = local_fact_changed metadata change d.
Proof. intros H. unfold local_fact_changed. by rewrite (same_asset_projection _ _ _ _ H). Qed.

Lemma same_asset_exists account change d d' : same_asset account (ra_id (vc_asset change)) d d' ->
  local_entity_exists change d' = local_entity_exists change d.
Proof. intros H. unfold local_entity_exists. by rewrite (sa_connection _ _ _ _ H), (sa_folder _ _ _ _ H). Qed.

(** A staged row is the wire form of a change of its asset, at its revision. *)
Definition staged_ok (account : str) (st : gmap (str * str) StagingRow) : Prop :=
  forall id row, st !! (account, id) = Some row -> (s_revision row <= I64_MAX)%Z /\
  exists raw, change_from_json (s_change_json row) = Some raw /\ ra_id (rc_asset raw) = id
    /\ parse_positive (ra_revision (rc_asset raw)) "remote revision" = Ok (s_revision row).

(** The change a staged row holds. *)
Definition staged_change (account : str) (keys : CommittedSyncKeyBundle) (row : StagingRow) : option ValidatedSyncChange :=
  raw ← change_from_json (s_change_json row);
  match validate_and_decrypt_change account raw keys with Ok change => Some change | Err _ => None end.

(** What a pull did to one staged asset. *)
Definition asset_pulled (account : str) (keys : CommittedSyncKeyBundle) d d' (id : str) : Prop :=
  exists row change d1 d2, staging d !! (account, id) = Some row /\ staged_change account keys row = Some change
    /\ ra_id (vc_asset change) = id /\ same_asset account id d d1 /\ same_asset account id d2 d'
    /\ outcome account change (s_revision row) keys d1 d2.

Lemma apply_staged_asset_Ok account keys allowed id s d s' d' :
  apply_staged_asset now now_text new_uuid random_nonce account keys allowed id s d = (Ok s', d') ->
  conflict_operations_ok d -> staged_ok account (staging d) ->
  same_elsewhere account id d d' /\ conflict_operations_ok d' /\ processed s' = S (processed s)
  /\ exists row change, staging d !! (account, id) = Some row /\ staged_change account keys row = Some change
     /\ ra_id (vc_asset change) = id /\ outcome account change (s_revision row) keys d d'.
Proof.
  intros H Hok Hst. unfold apply_staged_asset, check_guard in H. db_inv. rename s0 into row, c into raw.
  destruct (validate_and_decrypt_change account raw keys) as [change|] eqn:Ev; [|done]. simplify_eq. rename x7 into change.
  destruct (validated_change _ _ _ _ Ev) as [Ha Hid]. destruct (Hst id row Heqo0) as (Hmax & raw' & Hraw & Hrid & Hrev).
  rewrite Heqo in Hraw. injection Hraw as <-.
  apply apply_change_Ok in H as (rev & Hp & Hse & Hok' & Hpr & Hout); [|done|done].
  rewrite Ha in *. rewrite Hrid in *. rewrite Hrev in Hp. injection Hp as <-. split; [done|]. split; [done|]. split; [done|].
  exists row, change. split; [done|]. split; [|by rewrite Ha].
  unfold staged_change. rewrite Heqo. cbn. by rewrite Ev.
Qed.

Lemma apply_staged_assets_Ok account keys guard ids asked s d s' d' :
  apply_staged_assets now now_text new_uuid random_nonce account keys guard asked ids s d = (Ok s', d') ->
  NoDup ids -> conflict_operations_ok d -> staged_ok account (staging d) ->
  processed s' = processed s + length ids /\ cursors d' = cursors d /\ staging d' = staging d /\ batches d' = batches d
  /\ (forall id, id ∉ ids -> same_asset account id d d')
  /\ (forall id, id ∈ ids -> asset_pulled account keys d d' id).
Proof.
  revert asked s d. induction ids as [|id ids IH]; intros asked s d H Hnd Hok Hst; cbn [apply_staged_assets] in H.
  { unfold check_guard in H. db_inv. subst. rewrite length_nil, Nat.add_0_r. do 4 (split; [done|]). split.
    - intros id _. apply same_asset_refl.
    - intros id Hid. by apply not_elem_of_nil in Hid. }
  db_inv. apply apply_staged_asset_Ok in E as (Hse & Hok' & Hp & row & change & Hrow & Hch & Hcid & Hout); [|done|done].
  apply NoDup_cons in Hnd as [Hni Hnd].
  apply IH in H as (Hp' & Hcur & Hstg & Hbat & Hother & Hmine); [|done|done|by rewrite (se_staging _ _ _ _ Hse)].
  rewrite (se_staging _ _ _ _ Hse) in *. split_and!.
  - simpl. lia.
  - by rewrite Hcur, (se_cursors _ _ _ _ Hse).
  - done.
  - by rewrite Hbat, (se_batches _ _ _ _ Hse).
  - intros k Hk. apply not_elem_of_cons in Hk as [Hk1 Hk2].
    eapply same_asset_trans; [by eapply elsewhere_same_asset|by apply Hother].
  - intros k Hk. destruct (decide (k = id)) as [->|Hne].
    + exists row, change, d, x0. split_and!; auto using same_asset_refl.
    + apply elem_of_cons in Hk as [->|Hk]; [done|]. destruct (Hmine k Hk) as (row' & change' & d1 & d2 & H1 & H2 & H3 & H4 & H5 & H6).
      rewrite (se_staging _ _ _ _ Hse) in H1. exists row', change', d1, d2. split_and!; try done.
      eapply same_asset_trans; [by eapply elsewhere_same_asset|done].
Qed.

Lemma finish_same_asset account id d1 d c st b :
  same_asset account id d1 d -> same_asset account id d1 (set_batches b (set_staging st (set_cursors c d))).
Proof. intros []. by split. Qed.

Lemma apply_batch_Ok account requested next keys guard d s d' :
  apply_batch now now_text new_uuid random_nonce account requested next keys guard d = (Ok s, d') ->
  conflict_operations_ok d -> staged_ok account (staging d) ->
  cursors d' = <[account := next]> (cursors d) /\ batches d' = delete account (batches d)
  /\ staging d' = filter (fun kv : (str * str) * StagingRow => kv.1.1 <> account) (staging d)
  /\ processed s = length (staged_rows account (staging d))
  /\ forall id, if bool_decide (staging d !! (account, id) = None) then same_asset account id d d'
                else asset_pulled account keys d d' id.
Proof.
  intros H Hok Hst. unfold apply_batch in H. db_inv. case_ifs H; [done|]. db_inv. case_ifs H; [done|]. db_inv.
  destruct (order_staged_spec _ (staged_rows_nodup account (staging d))) as (r & Er & Hr). rewrite Er in E4. cbn in E4. subst r.
  destruct Hr as (_ & Hperm & _ & _). unfold write_cursor in E6. db_inv. unfold to_i64 in *. repeat (case_match; simplify_eq).
  apply apply_staged_assets_Ok in E5 as (Hp & Hcur & Hstg & Hbat & Hother & Hmine);
    [|rewrite Hperm; apply staged_rows_nodup|done|done]. subst. cbn. split_and!.
  - by rewrite Hcur.
  - by rewrite Hbat.
  - by rewrite Hstg.
  - rewrite Hp, Hperm, length_map. done.
  - assert (Hin : forall id, id ∈ map fst (staged_rows account (staging d)) <-> staging d !! (account, id) <> None).
    { intros id. rewrite list_elem_of_fmap. split.
      - intros ([id' row] & -> & Hr%elem_staged_rows). cbn. by rewrite Hr.
      - intros Hn. destruct (staging d !! (account, id)) as [row|] eqn:Est; [|done]. exists (id, row). split; [done|]. by apply elem_staged_rows. }
    intros id. clear E1. case_bool_decide as Hn.
    + apply (finish_same_asset _ _ _ x5), Hother. rewrite Hperm, Hin. by intros ?.
    + destruct (Hmine id) as (row & change & d1 & d2 & H1 & H2 & H3 & H4 & H5 & H6); [by rewrite Hperm, Hin|].
      exists row, change, d1, d2. split_and!; try done. by apply (finish_same_asset _ _ _ x5).
Qed.

(** The asset is known at a revision, or an operation made for it is on its way. *)
Definition settled (account id : str) (revision : Z) d : Prop :=
  (exists row v, assets d !! (account, id) = Some row /\ a_remote_revision row = Some v /\ (revision <= v)%Z)
  \/ (exists oid o, load_pending_operation account id d = Some (oid, o)
      /\ (revision <= i64_as_u64 (default 0 (o_expected_revision o)))%Z).

Lemma u64_as_i64_small n : (n <= I64_MAX)%Z -> u64_as_i64 n = n.
Proof. unfold u64_as_i64. destruct (Z.ltb_spec I64_MAX n); lia. Qed.

Lemma outcome_settled account change revision keys d d1 d2 d' :
  let id := ra_id (vc_asset change) in
  (revision <= I64_MAX)%Z -> outcome account change revision keys d1 d2 ->
  same_asset account id d d1 -> same_asset account id d2 d' -> settled account id revision d'.
Proof.
  intros id Hmax Hout H01 H2. unfold settled. rewrite (sa_asset _ _ _ _ H2), (sa_operation _ _ _ _ H2).
  destruct Hout as [row v -> Ha Hv Hle|oid o -> Ho _ Hle|row Ha Hv _|c row asset _ _ _ _ Ha Hv _].
  - rewrite u64_as_i64_small in Hle by done. left. eauto.
  - right. eauto.
  - left. exists row, revision. split_and!; [done|done|lia].
  - left. exists asset, revision. split_and!; [done|done|lia].
Qed.

(** A pull is atomic and complete. When it fails, for whatever reason, the database
    is as it was. When it succeeds, the durable cursor is the one it was asked to reach,
    nothing stays staged for the account, every staged asset is accounted for once, and
    each is known at least at its staged revision, or a local operation made for a
    revision as high is still waiting. *)
Theorem pull_atomic_and_complete io account requested next keys guard d r d' :
  conflict_operations_ok d -> staged_ok account (staging d) ->
  apply_staged_pull now now_text new_uuid random_nonce io account requested next keys guard d = (r, d') ->
  match r with
  | Err _ => d' = d
  | Ok s => cursors d' !! account = Some next /\ batches d' !! account = None
      /\ (forall id, staging d' !! (account, id) = None)
      /\ processed s = length (staged_rows account (staging d))
      /\ forall id row, staging d !! (account, id) = Some row -> settled account id (s_revision row) d'
  end.
Proof.
  intros Hok Hst H. unfold apply_staged_pull in H. case_ifs H; [by injection H as <- <-|].
  unfold transaction in H. destruct io as [e|]; [by injection H as <- <-|].
  destruct (apply_batch _ _ _ _ _ _ _ _ _ d) as [[s|e] d1] eqn:Eb; [|by injection H as <- <-]. injection H as <- <-.
  apply apply_batch_Ok in Eb as (-> & -> & -> & Hp & Hall); [|done|done]. split_and!.
  - apply lookup_insert_eq.
  - apply lookup_delete_eq.
  - intros id. apply map_lookup_filter_None. right. intros row _. cbn. by intros [].
  - done.
  - intros id row Hrow. specialize (Hall id). rewrite Hrow in Hall. cbn in Hall.
    destruct Hall as (row' & change & d2 & d3 & Hr & Hc & Hid & H02 & H3 & Hout). rewrite Hrow in Hr. injection Hr as <-.
    destruct (Hst id row Hrow) as [Hmax _]. subst id. by eapply outcome_settled.
Qed.

(** An operation of the asset that the server has not settled. *)
Definition waits (account id : str) d (oid : str) (o : CloudSyncOperation) : Prop :=
  operations d !! oid = Some o /\ o_cloud_account_id o = account /\ o_asset_id o = id
  /\ o_status o ∈ [OpPending; OpUnknown; OpConflicted].

(** The remote change is what the operation asked for. *)
Definition echoed (o : CloudSyncOperation) change (revision : Z) : Prop :=
  (default 0 (o_expected_revision o) + 1)%Z = revision
  /\ match o_action o with
     | Put => ra_tombstone (vc_asset change) = false /\ o_payload_hash o = vc_payload_hash change
     | Delete => ra_tombstone (vc_asset change) = true
     end.

(** The row of the asset as it would be uploaded: the bytes and their digest. *)
Inductive local_version change d : list Z -> str -> Prop :=
| version_connection row record bytes digest :
    ra_asset_type (vc_asset change) = lit "connection" ->
    connections (local d) !! ra_id (vc_asset change) = Some row -> connection_record (ra_id (vc_asset change)) row = Ok record ->
    connection_projection number_of_i64 json_to_string sha256 record = (bytes, digest) ->
    local_version change d bytes (base64url_encode digest)
| version_folder row bytes digest :
    ra_asset_type (vc_asset change) = lit "connection_folder" ->
    folders (local d) !! ra_id (vc_asset change) = Some row ->
    folder_projection number_of_i64 json_to_string sha256 (folder_record (ra_id (vc_asset change)) row) = (bytes, digest) ->
    local_version change d bytes (base64url_encode digest).

Definition in_table change d : Prop :=
  (ra_asset_type (vc_asset change) = lit "connection" /\ is_Some (connections (local d) !! ra_id (vc_asset change)))
  \/ (ra_asset_type (vc_asset change) = lit "connection_folder" /\ is_Some (folders (local d) !! ra_id (vc_asset change))).

(** The row is not the one that was last synchronised: its digest is another. *)
Definition edited (account : str) change d : Prop :=
  exists row expected bytes hash, assets d !! (account, ra_id (vc_asset change)) = Some row /\ a_sync_status row = Synced
    /\ a_local_payload_hash row = Some expected /\ local_version change d bytes hash /\ hash <> expected.

(** What was changed here since the last synchronisation: an operation waits for the
    server, the asset is recorded as changed or in conflict, its row was created here or
    it was edited; and the remote change is not the echo of a waiting operation. *)
Definition changed_here (account : str) change (revision : Z) d : Prop :=
  let id := ra_id (vc_asset change) in
  (forall oid o, waits account id d oid o -> ~ echoed o change revision)
  /\ ((exists oid o, waits account id d oid o)
      \/ (exists row, assets d !! (account, id) = Some row /\ a_sync_status row ∈ [LocalOnly; PendingUpload; PendingDelete; Conflicted])
      \/ (assets d !! (account, id) = None /\ in_table change d)
      \/ edited account change d).

(** Both versions are kept by an unresolved conflict: the remote one as it came, the
    local one as a waiting operation holds it or, when there is no earlier record of it, as
    the encryption of what is in the table now. *)
Definition conflict_kept (account : str) change (revision : Z) (keys : CommittedSyncKeyBundle) d d' : Prop :=
  let asset := vc_asset change in
  exists row, conflicts d' !! (account, ra_id asset, revision, CfPending) = Some row
  /\ k_remote_ciphertext row = default [] (en_ciphertext <$> ra_encryption asset)
  /\ k_remote_nonce row = default [] (en_nonce <$> ra_encryption asset)
  /\ k_remote_tombstone row = ra_tombstone asset
  /\ ((exists oid o, waits account (ra_id asset) d oid o) ->
      exists oid o, waits account (ra_id asset) d oid o /\ k_pending_operation_id row = Some oid /\ k_local_action row = o_action o
        /\ k_local_ciphertext row = default [] (o_ciphertext o) /\ k_local_nonce row = default [] (o_nonce o))
  /\ (~ (exists oid o, waits account (ra_id asset) d oid o) ->
      (forall r, conflicts d !! (account, ra_id asset, r, CfPending) = None) ->
      exists bytes hash e, local_version change d bytes hash /\ k_local_payload_hash row = hash
        /\ encrypt_connection_asset (random_nonce (ra_id asset)) account (ra_id asset) (ra_asset_type asset) (revision + 1)
             SYNC_SCHEMA_VERSION (kb_key_generation keys) bytes (kb_amk keys) = Ok e
        /\ k_local_ciphertext row = en_ciphertext e /\ k_local_nonce row = en_nonce e).

(** What the queries of the pull find is what is there. *)
Lemma unsettled_waits account id d oid o : operations d !! oid = Some o -> is_unsettled account id o = true <-> waits account id d oid o.
Proof.
  intros Ho. unfold is_unsettled, waits. rewrite !elem_of_cons, elem_of_nil. split.
  - intros H. breflect. destruct (o_status o); try done; tauto.
  - intros (_ & -> & -> & Hs). rewrite !bool_decide_true by done. by destruct Hs as [->|[->|[->|[]]]].
Qed.

Lemma pending_operation_waits account id d :
  match load_pending_operation account id d with
  | Some (oid, o) => waits account id d oid o
  | None => ~ exists oid o, waits account id d oid o
  end.
Proof.
  destruct (load_pending_operation account id d) as [[oid o]|] eqn:E.
  - apply load_pending_operation_Some in E as [Ho Hu]. by apply unsettled_waits.
  - intros (oid & o & Hw). unfold load_pending_operation in E.
    assert (Hin : (oid, o) ∈ map_to_list (filter (fun kv => is_unsettled account id kv.2 = true) (operations d))).
    { apply elem_of_map_to_list, map_lookup_filter_Some. split; [apply Hw|]. apply (unsettled_waits _ _ d oid); [apply Hw|done]. }
    revert E Hin. generalize (map_to_list (filter (fun kv => is_unsettled account id kv.2 = true) (operations d))). intros l E Hin.
    assert (Hs : forall l e, fold_left pick_newest l (Some e) <> None).
    { clear. induction l as [|e' l IH]; intros e; [done|]. simpl. destruct (newer_operation e' e); apply IH. }
    destruct l as [|e l]; [by apply not_elem_of_nil in Hin|]. by apply Hs in E.
Qed.

Lemma matches_remote_echoed o change revision : operation_matches_remote o change revision = Ok true -> echoed o change revision.
Proof.
  unfold operation_matches_remote, echoed, u64_try_from. intros H. bind_inv. case_ifs E; [|done]. injection E as <-.
  destruct (negb _) eqn:Hn in H; [done|]. injection H as H. breflect. split; [lia|]. destruct (o_action o); breflect; auto.
Qed.

Lemma load_local_projection_version change d bytes hash :
  load_local_projection change d = Ok (bytes, hash) <-> local_version change d bytes hash.
Proof.
  unfold load_local_projection, str_eqb. split.
  - intros H. case_bool_decide as Ht; [|case_bool_decide as Hf; [|done]]; bind_inv; apply ok_or_Ok in E.
    + destruct (connection_projection _ _ _ _) as [b g] eqn:Ep. injection H as <- <-. by eapply version_connection.
    + destruct (folder_projection _ _ _ _) as [b g] eqn:Ep. injection H as <- <-. by eapply version_folder.
  - intros [row record b g Ht Hrow Hrec Hp|row b g Ht Hrow Hp]; rewrite Ht, Hrow.
    + rewrite bool_decide_true by done. cbn [mbind Result_bind ok_or]. rewrite Hrec. cbn [mbind Result_bind]. by rewrite Hp.
    + rewrite bool_decide_false, bool_decide_true by done. cbn [mbind Result_bind ok_or]. by rewrite Hp.
Qed.

Lemma local_fact_changed_edited account change d :
  local_fact_changed (load_metadata account (ra_id (vc_asset change)) d) change d = Ok true <-> edited account change d.
Proof.
  unfold local_fact_changed, load_metadata, edited. split.
  - intros H. destruct (assets d !! _) as [row|]; [|done]. case_bool_decide as Hs; [|done]. cbn in H.
    destruct (a_local_payload_hash row) as [expected|] eqn:Hh; [|done].
    destruct (load_local_projection change d) as [[bytes hash]|e] eqn:E; [|by repeat case_match].
    injection H as H. exists row, expected, bytes, hash. split_and!; try done; [by apply load_local_projection_version|].
    by apply negb_true_iff, bool_decide_eq_false in H.
  - intros (row & expected & bytes & hash & -> & Hs & Hh & Hv%load_local_projection_version & Hne).
    rewrite bool_decide_true by done. cbn. rewrite Hh, Hv. cbn. unfold str_eqb. by rewrite bool_decide_false.
Qed.

Lemma local_entity_in_table change d : in_table change d -> local_entity_exists change d = Ok true.
Proof.
  unfold local_entity_exists, str_eqb. intros [[-> H]|[-> H]]; [rewrite bool_decide_true by done|];
    by rewrite (bool_decide_true _ H).
Qed.

(** A remote version is only taken where nothing was changed. *)
Lemma changed_not_taken account change revision d :
  let id := ra_id (vc_asset change) in
  changed_here account change revision d ->
  match load_pending_operation account id d with
  | Some (_, o) => operation_matches_remote o change revision <> Ok true
  | None => status_requires_conflict (load_metadata account id d) = true
      \/ local_fact_changed (load_metadata account id d) change d = Ok true
      \/ (load_metadata account id d = None /\ local_entity_exists change d = Ok true)
  end.
Proof.
  intros id [Hecho Hch]. pose proof (pending_operation_waits account id d) as Hw.
  destruct (load_pending_operation account id d) as [[oid o]|].
  - intros H%matches_remote_echoed. by eapply Hecho.
  - destruct Hch as [?|[(row & Hrow & Hs)|[[Hnone Hin]|He]]]; [done|left|right; right|right; left].
    + unfold load_metadata, status_requires_conflict, id. rewrite Hrow. rewrite !elem_of_cons, elem_of_nil in Hs.
      by destruct Hs as [->|[->|[->|[->|[]]]]].
    + split; [done|]. by apply local_entity_in_table.
    + by apply local_fact_changed_edited.
Qed.

Lemma candidate_fresh account change revision keys d c :
  build_local_candidate random_nonce account change revision None keys d = Ok c ->
  (forall r, conflicts d !! (account, ra_id (vc_asset change), r, CfPending) = None) ->
  exists bytes hash e, load_local_projection change d = Ok (bytes, hash) /\ lc_payload_hash c = hash
    /\ encrypt_connection_asset (random_nonce (ra_id (vc_asset change))) account (ra_id (vc_asset change))
         (ra_asset_type (vc_asset change)) (revision + 1) SYNC_SCHEMA_VERSION (kb_key_generation keys) bytes (kb_amk keys) = Ok e
    /\ lc_ciphertext c = en_ciphertext e /\ lc_nonce c = en_nonce e.
Proof.
  intros H Hno. unfold build_local_candidate in H.
  assert (load_existing_conflict_candidate account (ra_id (vc_asset change)) d = Ok None) as E0.
  { unfold load_existing_conflict_candidate. destruct (latest_conflict _ _ d) as [[r row]|] eqn:El; [|done].
    apply latest_conflict_Some in El. by rewrite Hno in El. }
  rewrite E0 in H. cbn [mbind Result_bind] in H. bind_inv. case_match; bind_inv. case_ifs E1; bind_inv. subst.
  destruct a as [bytes hash]. exists bytes, hash. eexists. split_and!; try done.
Qed.

(** The candidate of a conflict where an operation waits is that of the operation. *)
Lemma candidate_waiting account change revision keys d oid o c :
  build_local_candidate random_nonce account change revision (Some (oid, o)) keys d = Ok c ->
  lc_operation_id c = Some oid /\ lc_action c = o_action o /\ lc_ciphertext c = default [] (o_ciphertext o) /\ lc_nonce c = default [] (o_nonce o).
Proof. unfold build_local_candidate. intros H. bind_inv. by subst c. Qed.

Lemma outcome_keeps account change revision keys d d1 d2 d' :
  let id := ra_id (vc_asset change) in
  (revision <= I64_MAX)%Z -> changed_here account change revision d -> outcome account change revision keys d1 d2 ->
  same_asset account id d d1 -> same_asset account id d2 d' ->
  connections (local d') !! id = connections (local d) !! id /\ folders (local d') !! id = folders (local d) !! id
  /\ (settled account id revision d \/ conflict_kept account change revision keys d d').
Proof.
  intros id Hmax Hch%changed_not_taken Hout H01 H2. fold id in Hch. pose proof (pending_operation_waits account id d) as Hw.
  rewrite (sa_connection _ _ _ _ H2), (sa_folder _ _ _ _ H2), <-(sa_connection _ _ _ _ H01), <-(sa_folder _ _ _ _ H01).
  destruct Hout as [row v -> Ha Hv Hle|oid o -> Ho _ Hle|row Ha Hv Ht|c row asset Hl Hc Hrow Hk Ha Hv _].
  - split_and!; [done|done|]. left. left. rewrite u64_as_i64_small in Hle by done.
    exists row, v. by rewrite <-(sa_asset _ _ _ _ H01).
  - split_and!; [done|done|]. left. right. exists oid, o. by rewrite <-(sa_operation _ _ _ _ H01).
  - exfalso. fold id in Ht. unfold load_metadata in *.
    rewrite (sa_operation _ _ _ _ H01), (sa_asset _ _ _ _ H01) in Ht.
    destruct (load_pending_operation account id d) as [[oid o]|]; [congruence|].
    rewrite (same_asset_changed _ _ _ _ _ H01), (same_asset_exists _ _ _ _ H01) in Ht.
    destruct Ht as (Hw1 & Hw2 & Hw3), Hch as [Hch|[Hch|[Hm Hch]]]; [congruence|congruence|]. specialize (Hw3 Hm). congruence.
  - rewrite Hl. split_and!; [done|done|]. right. destruct Hk as (K1 & K2 & K3 & K4 & K5 & K6 & K7 & K8 & K9).
    exists row. rewrite (sa_conflicts _ _ _ _ H2). fold id. fold id in Hc. rewrite (sa_operation _ _ _ _ H01) in Hc.
    split_and!; try done.
    + intros Hex. destruct (load_pending_operation account id d) as [[oid o]|]; [|done].
      apply candidate_waiting in Hc as (C1 & C2 & C3 & C4). exists oid, o. split; [done|]. by rewrite K9, K1, K2, K3.
    + intros Hno Hnc. destruct (load_pending_operation account id d) as [[oid o]|]; [by destruct Hno; eauto|].
      apply candidate_fresh in Hc as (bytes & hash & e & Hp & Hh & He & Hci & Hn); [|intros r; fold id; by rewrite (sa_conflicts _ _ _ _ H01)].
      rewrite (same_asset_projection _ _ _ _ H01) in Hp. apply load_local_projection_version in Hp.
      exists bytes, hash, e. split_and!; first [done|congruence].
Qed.


(** ** What was pulled is not taken for an edit *)

Lemma driver_round_trip driver : driver_from_str (driver_as_str driver) = Ok driver.
Proof. by destruct driver. Qed.

Lemma map_get_ok k (fields : list (str * Value)) v : Forall (fun e => value_ok e.2) fields -> map_get k fields = Some v -> value_ok v.
Proof. intros H Hg%map_get_some. rewrite Forall_forall in H. by apply (H _ Hg). Qed.

Lemma merge_ok v local deps : value_ok v -> (forall l, local = Some l -> value_ok l) -> value_ok (merge_local_paths v local deps).
Proof.
  revert local. induction v as [| | | |l IH|fields IH] using Value_nested_ind; intros local Hv Hl; try done.
  destruct local as [[| | | | |lf]|]; try done. specialize (Hl _ eq_refl). apply value_ok_object in Hv as [Hs Hf], Hl as [Hsl Hfl].
  cbn [merge_local_paths]. rewrite (merged_fields (fun v l => merge_local_paths v l deps)) by done.
  assert (Hstep : forall key m, value_ok (VObject m) -> value_ok (VObject
    (if dependency_allowed key deps then match map_get key lf with Some value => map_insert key value m | None => m end else m))).
  { intros key m Hm. destruct (dependency_allowed key deps); [|done]. destruct (map_get key lf) eqn:E; [|done].
    apply map_insert_ok; [by eapply map_get_ok|done]. }
  unfold local_path_keys. cbn [fold_left]. do 2 apply Hstep. apply value_ok_object. split.
  - by apply sorted_keys_map with (f := fun e => merge_local_paths e.2 (map_get e.1 lf) deps).
  - apply Forall_map. eapply Forall_both; [|exact IH|exact Hf]. intros [k x] Hx Hok; cbn in *. apply Hx; [done|].
    intros l Hl. by eapply map_get_ok.
Qed.

(** C14: A connection that was pulled is not taken for a local edit. If the uploading
    device sent the projection of a record (with its note already trimmed, as both
    devices store it), then after the pull the projection computed from the local row,
    in which the paths of this machine were merged, is byte for byte what was sent, and
    the check for local edits answers no. *)
Theorem pulled_connection_projects_back account change revision record d d' :
  (forall v, value_ok v -> json_from_str (json_to_string v) = Some v) ->
  (forall s v, json_from_str s = Some v -> value_ok v) ->
  let sent := connection_projection number_of_i64 json_to_string sha256 record in
  value_ok (r_payload record) -> normalize_connection_note (r_note record) = Ok (r_note record) ->
  ra_asset_type (vc_asset change) = lit "connection" -> ra_id (vc_asset change) = r_id record ->
  ra_tombstone (vc_asset change) = false -> vc_projection change = Some (DConnection (project_connection record)) ->
  vc_payload_hash change = Some (base64url_encode sent.2) ->
  apply_remote_projection now now_text account change revision d = (Ok tt, d') ->
  load_local_projection change d' = Ok (sent.1, base64url_encode sent.2)
  /\ local_fact_changed (load_metadata account (r_id record) d') change d' = Ok false.
Proof.
  intros Hj1 Hj2 sent Hpay Hnote Htype Hid Htomb Hproj Hhash H. unfold apply_remote_projection in H. rewrite Htomb, Hproj in H.
  cbn [ok_or] in H. db_inv. injection E as <-. unfold write_projection in E0. db_inv. subst. cbn [cp_id project_connection cp_payload cp_local_dependencies] in *.
  rename x5 into existing, E2 into Eex.
  apply upsert_connection_Ok in E3 as (t & note & row & -> & _ & _ & Hn & Hrow & Hcols). cbn in Hn, Hrow.
  rewrite Hnote in Hn. injection Hn as <-.
  apply upsert_metadata_Ok in H as (_ & meta & -> & _ & _ & Hmh).
  set (merged := merge_local_paths (sanitize_payload (r_payload record)) existing
    (collect_local_dependencies (r_driver record) (r_payload record))) in *.
  assert (Hmok : value_ok merged).
  { apply merge_ok; [by apply sanitize_ok|]. intros l ->. unfold load_connection_payload, try_option in Eex.
    destruct (connections (local d) !! _); [|done]. bind_inv. unfold ok_or in *. case_match; simplify_eq. by eapply Hj2. }
  assert (Hp : load_local_projection change (set_assets (<[(account, ra_id (vc_asset change)) := meta]> (assets (set_local t d))) (set_local t d))
    = Ok (sent.1, base64url_encode sent.2)).
  { unfold load_local_projection. rewrite Htype, Hid. cbn [local set_assets set_local]. rewrite Hrow. cbn [ok_or mbind Result_bind].
    change (str_eqb (lit "connection") (lit "connection")) with true. cbn iota.
    destruct Hcols as (C1 & C2 & C3 & C4 & C5 & C6 & C7 & C8 & C9 & C10). unfold connection_record. rewrite C2. cbn [cp_driver project_connection].
    rewrite driver_round_trip. cbn [mbind Result_bind]. rewrite C8, Hj1 by done. cbn [ok_or mbind Result_bind].
    unfold sent, connection_projection.
    match goal with |- context [project_connection ?r'] => assert (project_connection r' = project_connection record) as Heq end.
    { unfold project_connection at 1. cbn [r_id r_name r_driver r_environment r_color r_note r_tag_label r_tag_color r_payload r_folder_id r_sort_order]. destruct (merge_projects_back (r_driver record) (r_payload record) existing
        (collect_local_dependencies (r_driver record) (r_payload record)) Hpay) as [Hm1 Hm2]. fold merged in Hm1, Hm2.
      rewrite C1, C3, C4, C5, C6, C7, C9, C10, Hm1, Hm2. done. }
    rewrite Heq. done. }
  split; [exact Hp|]. unfold local_fact_changed, load_metadata. rewrite Hp. cbn. rewrite Hid, lookup_insert_eq.
  case_match; [done|]. rewrite Hmh, Hhash. unfold str_eqb. by rewrite bool_decide_true.
Qed.

(** ** Staging *)

(** The row that a change is staged as. *)
Definition staged_as (account : str) change (row : StagingRow) : Prop :=
  exists revision, parse_positive (ra_revision (vc_asset change)) "remote revision" = Ok revision /\ (revision <= I64_MAX)%Z
  /\ row = mkStagingRow revision (ra_asset_type (vc_asset change)) (ra_tombstone (vc_asset change)) (change_parent change)
       (change_to_json (mkCloudConnectionAssetChange (to_dec (vc_change_cursor change)) (vc_asset change))).

(** Everything but what is staged for the account. *)
Definition only_staging d d' : Prop := exists st, d' = set_staging st d.

Lemma stage_change_Ok account change d d' : stage_change account change d = (Ok tt, d') ->
  exists row, staged_as account change row /\ only_staging d d'
    /\ (staging d' = <[(account, ra_id (vc_asset change)) := row]> (staging d)
        /\ (forall old, staging d !! (account, ra_id (vc_asset change)) = Some old -> (s_revision old <= s_revision row)%Z)
        \/ staging d' = staging d /\ exists old, staging d !! (account, ra_id (vc_asset change)) = Some old
           /\ (s_revision row < s_revision old)%Z).
Proof.
  unfold stage_change, stage_row. intros H. db_inv. unfold to_i64 in E0. case_match; [|done]. injection E0 as <-.
  eexists. split; [eexists; split; [exact E|]; split; [lia|reflexivity]|].
  destruct (staging d !! _) as [old|] eqn:Eo; [destruct (_ <? _)%Z eqn:Elt|]; cbn in *.
  - split; [exists (staging d); by destruct d|]. right. split; [done|]. exists old. split; [done|lia].
  - split; [by eexists|]. left. split; [done|]. intros old' [= <-]. lia.
  - split; [by eexists|]. by left.
Qed.

(** What staging a list of changes leaves. *)
Definition staged_from (account : str) (items : list ValidatedSyncChange) d d' : Prop :=
  only_staging d d'
  /\ (forall key row, staging d' !! key = Some row -> staging d !! key = Some row
      \/ exists change, change ∈ items /\ key = (account, ra_id (vc_asset change)) /\ staged_as account change row)
  /\ (forall key old, staging d !! key = Some old -> exists row, staging d' !! key = Some row /\ (s_revision old <= s_revision row)%Z)
  /\ (forall change, change ∈ items -> exists row row', staged_as account change row
      /\ staging d' !! (account, ra_id (vc_asset change)) = Some row' /\ (s_revision row <= s_revision row')%Z).

Lemma stage_changes_Ok account items d d' : stage_changes account items d = (Ok tt, d') -> staged_from account items d d'.
Proof.
  revert d. induction items as [|change items IH]; intros d H; cbn [stage_changes] in H.
  { db_inv. split_and!; [exists (staging d); by destruct d|by left|intros key old Ho; exists old; split; [done|lia]|].
    intros change Hc. by apply not_elem_of_nil in Hc. }
  db_inv. apply stage_change_Ok in E as (row & Hrow & [st ->] & Hst). apply IH in H as ([st' ->] & Hback & Hkeep & Hin).
  cbn [staging set_staging] in *. set (key := (account, ra_id (vc_asset change))) in *.
  assert (Hmine : exists r, st !! key = Some r /\ (s_revision row <= s_revision r)%Z).
  { destruct Hst as [[-> _]|[-> (old & Ho & Hlt)]]; [exists row; rewrite lookup_insert_eq; split; [done|lia]|].
    exists old. split; [done|lia]. }
  split_and!.
  - by exists st'.
  - intros k r Hk. destruct (Hback k r Hk) as [Hk'|(c & Hc & ? & ?)]; [|right; exists c; split; [by right|done]].
    destruct Hst as [[-> _]|[-> _]]; [|by left]. apply lookup_insert_Some in Hk' as [[<- <-]|[_ Hk']]; [|by left].
    right. exists change. split; [by left|done].
  - intros k old Hold.
    assert (exists r, st !! k = Some r /\ (s_revision old <= s_revision r)%Z) as (r & Hr & Hle).
    { destruct Hst as [[-> Hge]|[-> _]]; [|exists old; split; [done|lia]]. destruct (decide (k = key)) as [->|Hne].
      - exists row. rewrite lookup_insert_eq. auto.
      - exists old. rewrite lookup_insert_ne by done. split; [done|lia]. }
    destruct (Hkeep k r Hr) as (r' & Hr' & Hle'). exists r'. split; [done|lia].
  - intros c [->|Hc]%elem_of_cons; [|by apply Hin]. destruct Hmine as (r & Hr & Hle).
    destruct (Hkeep key r Hr) as (r' & Hr' & Hle'). exists row, r'. split; [done|]. split; [done|lia].
Qed.

(** What staging a page leaves when it succeeds. *)
Lemma stage_page_Ok io account page d d' : stage_validated_page io account page d = (Ok tt, d') ->
  exists initial d1, batches d !! account = Some (initial, vp_requested_cursor page)
    /\ batches d' !! account = Some (initial, vp_next_cursor page)
    /\ staged_from account (vp_items page) d d1 /\ d' = set_batches (batches d') d1.
Proof.
  unfold stage_validated_page, transaction. intros H. destruct io as [e|]; [done|].
  match type of H with match ?m with _ => _ end = _ => destruct m as [[[]|e] d1] eqn:Eb end; [|done].
  injection H as <-. db_inv. destruct p as [initial expected]. cbn in Eb.
  match type of Eb with (if ?b then _ else _) _ = _ => destruct b eqn:Ex end; [done|]. db_inv.
  unfold to_i64 in *. repeat (case_match; [|done]). simplify_eq. apply negb_false_iff, Z.eqb_eq in Ex. subst.
  match goal with H : stage_changes _ _ _ = _ |- _ => apply stage_changes_Ok in H; rename H into Hst end.
  pose proof Hst as ([st ->] & _). cbn [staging set_batches set_staging batches] in *.
  exists initial. eexists. split; [done|]. split; [|split; [exact Hst|done]]. by rewrite lookup_alter_eq, Heqo.
Qed.

Lemma stage_page_others io account page d d' : stage_validated_page io account page d = (Ok tt, d') ->
  forall a, a <> account -> batches d' !! a = batches d !! a.
Proof.
  unfold stage_validated_page, transaction. intros H a Ha. destruct io as [e|]; [done|].
  match type of H with match ?m with _ => _ end = _ => destruct m as [[[]|e] d1] eqn:Eb end; [|done].
  injection H as <-. db_inv. match type of Eb with (if ?b then _ else _) _ = _ => destruct b end; [done|]. db_inv.
  match goal with H : stage_changes _ _ _ = _ |- _ => apply stage_changes_Ok in H as ([st ->] & _) end.
  cbn. by rewrite lookup_alter_ne.
Qed.

Lemma stage_page_Err io account page d e d' : stage_validated_page io account page d = (Err e, d') -> d' = d.
Proof.
  unfold stage_validated_page, transaction. intros H. destruct io; [by injection H as _ <-|].
  match type of H with match ?m with _ => _ end = _ => destruct m as [[[]|] d1] end; [done|by injection H as _ <-].
Qed.

Lemma stage_page_staged_ok io account page d r d' :
  (forall c, change_from_json (change_to_json c) = Some c) ->
  staged_ok account (staging d) -> stage_validated_page io account page d = (r, d') -> staged_ok account (staging d').
Proof.
  intros Hcodec Hok H. destruct r as [[]|e]; [|by apply stage_page_Err in H as ->].
  apply stage_page_Ok in H as (initial & d1 & _ & _ & (_ & Hback & _ & _) & ->). cbn.
  intros id row Hrow. destruct (Hback _ _ Hrow) as [Ho|(change & _ & Hid & revision & Hp & Hmax & ->)]; [by apply Hok|].
  injection Hid as ->. cbn. split; [done|]. eexists. split; [apply Hcodec|]. done.
Qed.

(** Staging a page is atomic and loses no change. A page is staged only if it
    continues where the last one ended. When it fails nothing changes; when it succeeds
    the next page continues at its cursor, every change of it is staged at its own or a
    higher revision, nothing staged is replaced by a lower revision, only what is staged
    changes in the database, and each staged row still holds the wire form of a change of
    its asset at its revision. *)
Theorem staging_keeps_every_change io account page d r d' :
  (forall c, change_from_json (change_to_json c) = Some c) ->
  staged_ok account (staging d) -> stage_validated_page io account page d = (r, d') ->
  staged_ok account (staging d') /\
  match r with
  | Err _ => d' = d
  | Ok _ => exists initial d1, batches d !! account = Some (initial, vp_requested_cursor page)
      /\ batches d' !! account = Some (initial, vp_next_cursor page)
      /\ staged_from account (vp_items page) d d1 /\ d' = set_batches (batches d') d1
  end.
Proof.
  intros Hcodec Hok H. split; [by eapply stage_page_staged_ok|].
  destruct r as [[]|e]; [by eapply stage_page_Ok|by eapply stage_page_Err].
Qed.
End change.

(** ** Concrete runs *)

Lemma begin_keeps_empty io account d r d1 : staging d = ∅ -> begin_staged_pull io account d = (r, d1) -> staged_ok account (staging d1).
Proof.
  intros He Eb. assert (staging d1 = ∅) as ->; [|intros id row Hr; by rewrite lookup_empty in Hr].
  unfold begin_staged_pull, transaction, mbind, ST_bind, st_get, st_lift, st_modify, mret, ST_ret in Eb.
  destruct io; [by injection Eb as _ <-|].
  destruct (read_cursor account d); [|by injection Eb as _ <-].
  repeat (case_match; simplify_eq); cbn; rewrite ?He; try done; apply map_filter_empty.
Qed.

Lemma demo_staged_ok next changes d d' : staging d = ∅ -> demo_staged next changes d = Some d' -> staged_ok demo_account (staging d').
Proof.
  intros He H. unfold demo_staged in H. destruct (begin_staged_pull None demo_account d) as [[r|] d1] eqn:Eb; [|done].
  destruct (validate_and_decrypt_page _ _ _ _) as [page|]; [|done].
  destruct (stage_validated_page None demo_account page d1) as [[u|] d2] eqn:Es; [|done]. injection H as <-.
  eapply stage_page_staged_ok; [apply demo_change_round_trip| |exact Es]. by eapply begin_keeps_empty.
Qed.

(** Folder [b] was moved into [a] here since it was last synchronised. *)
Definition edited_tables : LocalTables :=
  mkLocalTables ∅ (list_to_map [(lit "a", demo_folder None); (lit "b", demo_folder (Some "a"))]).
Definition edited_db : SyncDb := demo_db edited_tables
  [("a", demo_known ConnectionFolder "a" Synced (folder_hash "a" (demo_folder None)));
   ("b", demo_known ConnectionFolder "b" Synced (folder_hash "b" (demo_folder None)))].

(** Another device changed [b] as well. *)
Definition edited_staged : SyncDb :=
  default edited_db (demo_staged 2 [demo_change "connection_folder" "b" 2 2 (Some "b")] edited_db).

Lemma edited_staged_ok : conflict_operations_ok edited_staged /\ staged_ok demo_account (staging edited_staged).
Proof.
  split.
  - assert (conflicts edited_staged = ∅) as E by (vm_compute; reflexivity).
    intros account id r row oid o H. rewrite E, lookup_empty in H. discriminate H.
  - unfold edited_staged. destruct (demo_staged _ _ edited_db) as [d|] eqn:E; [exact (demo_staged_ok _ _ edited_db d eq_refl E)|].
    intros id row H. cbn in H. by rewrite lookup_empty in H.
Qed.

(** A run that returned, with what is to be known of its result computed. *)
Lemma run_fact {A} (f : SyncApplySummary -> SyncDb -> A) r a :
  match r with Some (Ok s, d') => Some (f s d') | _ => None end = Some a ->
  exists s (d' : SyncDb), r = Some (Ok s : AppResult SyncApplySummary, d') /\ f s d' = a.
Proof. destruct r as [[[s|e] d']|]; [|done..]. intros [= <-]. eauto. Qed.

Lemma pull_atomic_and_complete_witness :
  let d' := (demo_apply 2 edited_staged).2 in
  cursors d' !! demo_account = Some 2%Z /\ settled demo_account (lit "b") 2 d'.
Proof.
  cbv zeta. destruct edited_staged_ok as [H1 H2].
  pose proof (pull_atomic_and_complete 5 (lit "t5") demo_uuid demo_nonce None demo_account 0 2 demo_keys (fun _ => true)
    edited_staged _ (demo_apply 2 edited_staged).2 H1 H2 (surjective_pairing (demo_apply 2 edited_staged))) as H.
  assert (Hok : is_ok (demo_apply 2 edited_staged).1 = true) by (vm_compute; reflexivity).
  destruct (demo_apply 2 edited_staged).1; [|discriminate Hok]. destruct H as (Hc & _ & _ & _ & Hall). split; [exact Hc|].
  assert (Hrev : (s_revision <$> staging edited_staged !! (demo_account, lit "b")) = Some 2%Z) by (vm_compute; reflexivity).
  destruct (staging edited_staged !! (demo_account, lit "b")) as [row|] eqn:Er; [|discriminate Hrev].
  specialize (Hall _ _ Er). injection Hrev as Hrev. rewrite Hrev in Hall. exact Hall.
Defined.


Lemma staging_keeps_every_change_witness :
  exists page d1 d2, begin_staged_pull None demo_account edited_db = (Ok (0, 0)%Z, d1)
    /\ stage_validated_page None demo_account page d1 = (Ok tt, d2)
    /\ batches d2 !! demo_account = Some (0, vp_next_cursor page)%Z.
Proof.
  assert (Hstart : (begin_staged_pull None demo_account edited_db).1 = Ok (0, 0)%Z) by (vm_compute; reflexivity).
  assert (Hrun : match begin_staged_pull None demo_account edited_db,
      validate_and_decrypt_page demo_account 0 (demo_page 2 [demo_change "connection_folder" "b" 2 2 (Some "b")]) demo_keys with
    | (_, d1), Ok page => (bool_decide (batches d1 !! demo_account = Some (0, 0)%Z)
        && is_ok (stage_validated_page None demo_account page d1).1) | _, _ => false end = true)
    by (vm_compute; reflexivity).
  destruct (begin_staged_pull None demo_account edited_db) as [r d1] eqn:Eb. cbn in Hstart. subst r.
  destruct (validate_and_decrypt_page _ _ _ _) as [page|]; [|discriminate Hrun].
  destruct (stage_validated_page None demo_account page d1) as [r2 d2] eqn:Es. breflect.
  exists page, d1, d2. split; [done|].
  pose proof (staging_keeps_every_change (C := demo_codec) None demo_account page d1 r2 d2 demo_change_round_trip
    (begin_keeps_empty None _ edited_db _ _ eq_refl Eb) Es) as [_ Hres].
  destruct r2 as [[]|]; [|done]. destruct Hres as (initial & dd & Hb & Hb' & _ & _). split; [done|]. rewrite Hb'.
  match goal with B : batches d1 !! _ = Some (0, 0)%Z |- _ => rewrite B in Hb end. by injection Hb as <- _.
Defined.

Definition sent_record : StoredConnectionRecord :=
  mkStoredConnectionRecord (lit "c") (lit "Sales") CdSqlite (lit "prod") None (lit "note") [] None
    (VObject [(lit "dbFilePath", VString (lit "/home/sales.db"))]) None 0 0 None None None None.

(** The device already has the connection with a path of its own. *)
Definition receiving_db : SyncDb :=
  demo_db (mkLocalTables {[lit "c" := mkConnectionRecordRow (lit "Sales") (lit "sqlite") [] None [] [] None
    (demo_to_string (VObject [(lit "dbFilePath", VString (lit "C:/sales.db"))])) None 0 0 None None None None]} ∅) [].

Lemma pulled_connection_projects_back_witness :
  let sent := connection_projection number_of_i64 json_to_string sha256 sent_record in
  let change := mkValidatedSyncChange 1 (demo_asset "connection" "c" 2 (Some (mkCloudConnectionAssetEncryption [] [] [])))
    (Some (DConnection (project_connection sent_record))) (Some sent.2) in
  let d' := (apply_remote_projection 5 (lit "t5") demo_account change 2 receiving_db).2 in
  local_fact_changed (load_metadata demo_account (lit "c") d') change d' = Ok false
  /\ (cr_payload <$> connections (local d') !! lit "c")
     = Some (demo_to_string (VObject [(lit "dbFilePath", VString (lit "C:/sales.db"))])).
Proof.
  intros sent change d'. split; [|by vm_compute].
  refine (proj2 (pulled_connection_projects_back (C := demo_codec) 5 (lit "t5") demo_account change 2 sent_record receiving_db d'
    demo_json_round_trip demo_json_sorted _ eq_refl eq_refl eq_refl eq_refl eq_refl eq_refl _)).
  - cbn. split; [|done]. repeat constructor.
  - unfold d'. match goal with |- ?m = _ => rewrite (surjective_pairing m) end. by f_equal.
Defined.

(** ** Where the code departs from what it means to do *)

(** *** A pull can close a cycle of folders *)

(** Only staged folders are searched for cycles.  Here [b] was moved into [a]; the other
    device moved [a] into [b].  Pulling the move of [a] succeeds without a conflict and
    leaves two folders that are each other's parent. *)
Theorem pull_closes_a_cycle :
  exists s d', demo_pull 2 [demo_change "connection_folder" "a" 2 2 (Some "a/b")] edited_db = Some (Ok s, d')
    /\ sm_applied s = 1 /\ sm_conflicted s = 0 /\ folder_tree (folders (local edited_db)) /\ ~ folder_tree (folders (local d')).
Proof.
  destruct (run_fact (fun s d' => (sm_applied s, sm_conflicted s, bool_decide (is_Some (folders (local d') !! lit "a")),
      folder_ancestors (S (size (folders (local d')))) (folders (local d')) (lit "a")))
    (demo_pull 2 [demo_change "connection_folder" "a" 2 2 (Some "a/b")] edited_db) (1, 0, true, None)) as (s & d' & -> & Hf);
    [vm_compute; reflexivity|].
  injection Hf as Hs Hc Ha Hl. breflect. exists s, d'. split_and!; [done|done|done| |].
  - intros id [row Hrow]. destruct (decide (id = lit "a")) as [->|Hna]; [by eapply (rooted_top _ _ (demo_folder None)); vm_compute|].
    destruct (decide (id = lit "b")) as [->|Hb].
    + eapply (rooted_child _ _ (demo_folder (Some "a"))); [by vm_compute|by vm_compute|].
      by eapply (rooted_top _ _ (demo_folder None)); vm_compute.
    + cbn in Hrow. by rewrite !lookup_insert_ne, lookup_empty in Hrow by congruence.
  - intros Ht. apply Ht, rooted_ancestors in Ha as (l & Hl' & _).
    discriminate (eq_trans (eq_sym Hl) Hl').
Qed.

(** *** Deleting a folder and what was in it *)

(** Deleted folders are taken in the order of their ids, not children first.  When [b]
    was in [a] and both were deleted on the other device, [a] still has a child when its
    deletion is looked at and becomes a conflict that nobody edited; with the ids the
    other way round both are deleted. *)
Definition synced_tables (parent child : string) : LocalTables :=
  mkLocalTables ∅ (list_to_map [(lit parent, demo_folder None); (lit child, demo_folder (Some parent))]).
Definition synced_db (parent child : string) : SyncDb := demo_db (synced_tables parent child)
  [(parent, demo_known ConnectionFolder parent Synced (folder_hash parent (demo_folder None)));
   (child, demo_known ConnectionFolder child Synced (folder_hash child (demo_folder (Some parent))))].
Definition deletions : list CloudConnectionAssetChange :=
  [demo_change "connection_folder" "a" 2 1 None; demo_change "connection_folder" "b" 2 2 None].

Theorem deleted_parent_conflicts :
  (exists s d', demo_pull 2 deletions (synced_db "a" "b") = Some (Ok s, d')
    /\ sm_deleted s = 1 /\ sm_conflicted s = 1 /\ is_Some (folders (local d') !! lit "a"))
  /\ (exists s d', demo_pull 2 deletions (synced_db "b" "a") = Some (Ok s, d') /\ sm_deleted s = 2 /\ sm_conflicted s = 0).
Proof.
  split.
  - destruct (run_fact (fun s d' => (sm_deleted s, sm_conflicted s, bool_decide (is_Some (folders (local d') !! lit "a"))))
      (demo_pull 2 deletions (synced_db "a" "b")) (1, 1, true)) as (s & d' & -> & Hf); [vm_compute; reflexivity|].
    injection Hf as Hd Hc Ha. breflect. by exists s, d'.
  - destruct (run_fact (fun s _ => (sm_deleted s, sm_conflicted s)) (demo_pull 2 deletions (synced_db "b" "a")) (2, 0))
      as (s & d' & -> & Hf); [vm_compute; reflexivity|].
    injection Hf as Hd Hc. by exists s, d'.
Qed.

(** *** Edits of a connection whose file is missing here *)

(** The check for local edits looks only at rows whose status is [synced].  A connection
    that was pulled without its file has the status [needs_local_file]; renamed here, it
    is overwritten by the next revision without a conflict. *)
Definition renamed_db : SyncDb :=
  demo_db (mkLocalTables {[lit "c" := demo_connection "mine"]} ∅)
    [("c", demo_known Connection "c" NeedsLocalFile (lit "digest of the name it was pulled with"))].

Theorem edit_without_local_file_is_lost :
  exists s d', demo_pull 2 [demo_change "connection" "c" 2 2 (Some "c/theirs")] renamed_db = Some (Ok s, d')
    /\ sm_conflicted s = 0 /\ (cr_name <$> connections (local d') !! lit "c") = Some (lit "theirs").
Proof.
  destruct (run_fact (fun s d' => (sm_conflicted s, cr_name <$> connections (local d') !! lit "c"))
    (demo_pull 2 [demo_change "connection" "c" 2 2 (Some "c/theirs")] renamed_db) (0, Some (lit "theirs"))) as (s & d' & -> & Hf);
    [vm_compute; reflexivity|].
  injection Hf as Hc Hn. by exists s, d'.
Qed.
