(* ===== verification/SyncPages.v ===== *)
(** * What a validated page promises
    (theorems about [src-tauri/src/cloud/sync_pull.rs] and the associated data of
     [src-tauri/src/cloud/sync_crypto.rs])

    The cursors of an accepted page chain without a gap, and a ciphertext is accepted for
    one account, asset, type and revision only. *)

From stdpp Require Import base gmap list strings.
From Stdlib Require Import ZArith Lia Sorting.
From S2P Require Import Prelude Digits Types Connections SyncProjection SyncPull SyncStore SyncApply SyncDemo.

(** ** Cursors *)

Section pages.
Context `{C : SyncCodec}.
Implicit Types (items : list ValidatedSyncChange).

Lemma parse_uint_range max s n : parse_uint max s = Some n -> (0 <= n <= max)%Z.
Proof.
  unfold parse_uint. set (digits := match strip_prefix _ s with Some d => d | None => s end). intros H.
  destruct (_ && _) eqn:E in H; [|done]. injection H as <-. breflect. split; [by apply digits_value_bounds|lia].
Qed.

Lemma parse_cursor_range s n : parse_cursor s = Ok n -> (0 <= n <= U64_MAX)%Z.
Proof. unfold parse_cursor, ok_or. destruct (parse_uint _ _) eqn:E; [|done]. intros [= <-]. by eapply parse_uint_range. Qed.

(** The cursors of the items, one after the other, from [lo] to [hi]. *)
Fixpoint ascending (lo : Z) items (hi : Z) : Prop :=
  match items with
  | [] => lo = hi
  | change :: items => (lo < vc_change_cursor change)%Z /\ ascending (vc_change_cursor change) items hi
  end.

Lemma ascending_snoc lo items mid change : ascending lo items mid -> (mid < vc_change_cursor change)%Z ->
  ascending lo (items ++ [change]) (vc_change_cursor change).
Proof. revert lo. induction items as [|c items IH]; intros lo; simpl; [by intros ->|]. intros [H1 H2] H3. auto. Qed.

Lemma validated_cursor account change keys validated :
  validate_and_decrypt_change account change keys = Ok validated ->
  parse_cursor (rc_change_cursor change) = Ok (vc_change_cursor validated) /\ vc_asset validated = rc_asset change.
Proof.
  unfold validate_and_decrypt_change. intros H. bind_inv. case_ifs H; try done; bind_inv. case_ifs H; bind_inv; subst; try done.
  unfold decrypt_change in H. bind_inv. by subst.
Qed.

Lemma validate_item_Ok account next keys acc change acc' :
  validate_item account next keys acc change = Ok acc' ->
  exists validated, validate_and_decrypt_change account change keys = Ok validated
    /\ acc' = (vc_change_cursor validated, acc.2 ++ [validated]) /\ (acc.1 < vc_change_cursor validated <= next)%Z.
Proof.
  unfold validate_item. destruct acc as [previous items]. intros H. bind_inv. case_match; [done|]. bind_inv. case_match; [done|].
  bind_inv. subst. eexists. split; [done|]. apply validated_cursor in E1 as [E1 _]. rewrite E in E1. injection E1 as <-.
  split; [done|]. cbn. lia.
Qed.

(** The cursors of an accepted page chain. The page starts where the last one
    ended; the cursors of its changes grow strictly from there to the next cursor, each
    change is the validated form of the one the server sent, in the same order, and a
    page that announces more moves the cursor on, so that repeated pulls advance. *)
Theorem page_cursors_chain account local_cursor response keys page :
  validate_and_decrypt_page account local_cursor response keys = Ok page ->
  vp_requested_cursor page = local_cursor /\ vp_has_more page = cu_has_more (lr_cursor response)
  /\ ascending local_cursor (vp_items page) (vp_next_cursor page)
  /\ Forall2 (fun change validated => validate_and_decrypt_change account change keys = Ok validated)
       (lr_items response) (vp_items page)
  /\ (vp_has_more page = true -> (local_cursor < vp_next_cursor page)%Z) /\ (vp_next_cursor page <= U64_MAX)%Z.
Proof.
  unfold validate_and_decrypt_page. intros H. bind_inv. case_match; [done|]. case_match; [done|]. bind_inv. breflect.
  rename a into requested, a0 into next, a1 into acc.
  assert (Hacc : forall (changes : list CloudConnectionAssetChange) start done_, ascending requested done_ start ->
    try_fold (validate_item account next keys) (start, done_) changes = Ok acc ->
    exists new, acc.2 = done_ ++ new /\ ascending requested acc.2 acc.1
      /\ Forall2 (fun change validated => validate_and_decrypt_change account change keys = Ok validated) changes new).
  { clear. induction changes as [|change changes IH]; intros start done_ Ha; cbn [try_fold].
    - intros [= <-]. exists []. rewrite app_nil_r. auto.
    - intros H. bind_inv. apply validate_item_Ok in E as (validated & Hv & -> & Hlt). cbn in *.
      apply IH in H as (new & -> & Hs & Hf); [|eapply ascending_snoc; [done|lia]].
      exists (validated :: new). rewrite <-app_assoc. split; [done|]. split; [by rewrite <-app_assoc in Hs|]. by constructor. }
  destruct (Hacc (lr_items response) requested []) as (new & Hnew & Hasc & Hf2); [done|done|]. cbn in Hnew. subst new.
  assert (Hend : (acc.1 = next)%Z /\ (vp_requested_cursor page, vp_next_cursor page, vp_has_more page, vp_items page)
    = (requested, next, cu_has_more (lr_cursor response), acc.2)).
  { destruct (lr_items response) as [|i l] eqn:El; cbn in H.
    - apply Forall2_nil_inv_l in Hf2. rewrite Hf2 in Hasc. cbn in Hasc. case_match; [done|]. cbn in H. injection H as <-. breflect.
      split; [|done]. lia.
    - destruct (negb (next =? acc.1)%Z) eqn:Ene; [done|]. injection H as <-. split; [lia|done]. }
  destruct Hend as [Hend Hpage]. injection Hpage as -> -> -> ->. rewrite Hend in Hasc.
  assert (requested = local_cursor) as -> by lia. split_and!; try done.
  - intros Hm. rewrite Hm in *. lia.
  - apply parse_cursor_range in E0. lia.
Qed.

End pages.

Definition two_changes : CloudConnectionAssetListResponse :=
  demo_page 2 [demo_change "connection_folder" "a" 2 1 (Some "a"); demo_change "connection" "c" 1 2 (Some "c/x")].

Lemma page_cursors_chain_witness :
  exists page, validate_and_decrypt_page demo_account 0 two_changes demo_keys = Ok page
    /\ ascending 0 (vp_items page) (vp_next_cursor page) /\ length (vp_items page) = 2.
Proof.
  assert (Hok : is_ok (validate_and_decrypt_page demo_account 0 two_changes demo_keys) = true) by (vm_compute; reflexivity).
  destruct (validate_and_decrypt_page demo_account 0 two_changes demo_keys) as [page|] eqn:E; [|discriminate Hok].
  exists page. split; [done|]. destruct (page_cursors_chain demo_account 0 two_changes demo_keys page E) as (_ & _ & H & Hf & _).
  split; [exact H|]. apply Forall2_length in Hf. by rewrite <-Hf.
Defined.

(** ** One ciphertext, one place *)

Lemma be_bytes_length n : length (be_bytes_u32 n) = 4.
Proof. done. Qed.

Lemma be_bytes_inj n m : (0 <= n < 4294967296)%Z -> (0 <= m < 4294967296)%Z -> be_bytes_u32 n = be_bytes_u32 m -> n = m.
Proof.
  intros Hn Hm. unfold be_bytes_u32. rewrite (Z.mod_small n 4294967296), (Z.mod_small m 4294967296) by done. intros [= H3 H2 H1 H0].
  assert (Hval : forall x, (0 <= x < 4294967296)%Z ->
    x = ((x / 16777216) mod 256 * 16777216 + (x / 65536) mod 256 * 65536 + (x / 256) mod 256 * 256 + x mod 256)%Z).
  { intros x Hx. assert (E2 : (x / 65536 = x / 256 / 256)%Z) by (by rewrite Z.div_div).
    assert (E3 : (x / 16777216 = x / 256 / 256 / 256)%Z) by (by rewrite !Z.div_div). rewrite E2, E3.
    pose proof (Z.div_mod x 256 ltac:(lia)). pose proof (Z.div_mod (x / 256) 256 ltac:(lia)).
    pose proof (Z.div_mod (x / 256 / 256) 256 ltac:(lia)). rewrite (Z.mod_small (x / 256 / 256 / 256)); [lia|].
    rewrite <-E3. split; [apply Z.div_pos; lia|apply Z.div_lt_upper_bound; lia]. }
  rewrite (Hval n), (Hval m) by done. congruence.
Qed.

(** The fields fit their length prefix. *)
Definition short (field : str) : Prop := (Z.of_nat (length (as_bytes field)) < 4294967296)%Z.

Lemma length_prefixed_inj fs gs : length fs = length gs -> Forall short fs -> Forall short gs ->
  length_prefixed fs = length_prefixed gs -> map as_bytes fs = map as_bytes gs.
Proof.
  revert gs. induction fs as [|f fs IH]; intros [|g gs] Hl Hf Hg H; try done.
  apply Forall_cons_1 in Hf as [Hf Hfs], Hg as [Hg Hgs]. cbn [length_prefixed flat_map] in H. rewrite <-!app_assoc in H.
  apply app_inj_1 in H as [Hlen H]; [|done]. apply be_bytes_inj in Hlen; [|unfold short in *; lia..].
  apply app_inj_1 in H as [Hb H]; [|lia]. simpl. f_equal; [done|]. apply IH; auto.
Qed.

Lemma as_bytes_digits s : all_digits s = true -> as_bytes s = s.
Proof.
  induction s as [|c s IH]; [done|]. rewrite all_digits_cons. intros [Hc Hs]%andb_true_iff. cbn [as_bytes flat_map].
  unfold utf8_encode_char. apply is_ascii_digit_range in Hc. destruct (Z.ltb_spec c 128); [|lia].
  cbn. f_equal. by apply IH.
Qed.

Lemma to_dec_bytes_inj n m : (0 <= n)%Z -> (0 <= m)%Z -> as_bytes (to_dec n) = as_bytes (to_dec m) -> n = m.
Proof.
  intros Hn%to_dec_renders Hm%to_dec_renders. rewrite !as_bytes_digits by (apply Hn || apply Hm). intros H.
  rewrite <-(rn_value _ _ Hn), <-(rn_value _ _ Hm). by rewrite H.
Qed.

(** A revision, a schema version or a key generation is short. *)
Lemma to_dec_short n : (0 <= n <= U64_MAX)%Z -> short (to_dec n).
Proof.
  intros [H0 H1]. pose proof (to_dec_renders n H0) as Hr. unfold short. rewrite as_bytes_digits by apply Hr.
  destruct (renders_bounds _ _ Hr) as (_ & Hlo & _). destruct (Z.eq_dec n 0) as [->|Hn].
  - destruct Hr as [_ _ (c & r & -> & _ & E)]. rewrite E by done. simpl. lia.
  - specialize (Hlo Hn). destruct (Z_lt_ge_dec (Z.of_nat (length (to_dec n))) 4294967296) as [|Hge]; [done|].
    assert (10 ^ 21 <= 10 ^ (Z.of_nat (length (to_dec n)) - 1))%Z by (apply Z.pow_le_mono_r; lia).
    unfold U64_MAX in H1. change (10 ^ 21)%Z with 1000000000000000000000%Z in H. lia.
Qed.

(** What an asset is encrypted for. *)
Record AssetPlace := mkAssetPlace {
  pl_account : str;
  pl_asset : str;
  pl_type : str;
  pl_revision : Z;
  pl_schema : Z;
  pl_generation : Z;
}.

Definition place_ok (p : AssetPlace) : Prop :=
  short (pl_account p) /\ short (pl_asset p) /\ short (pl_type p)
  /\ (0 <= pl_revision p <= U64_MAX)%Z /\ (0 <= pl_schema p <= U64_MAX)%Z /\ (0 <= pl_generation p <= U64_MAX)%Z.

Definition place_aad (p : AssetPlace) : list Z :=
  connection_asset_aad (pl_account p) (pl_asset p) (pl_type p) (pl_revision p) (pl_schema p) (pl_generation p).

(** The same place, texts compared by their bytes. *)
Definition same_place (p q : AssetPlace) : Prop :=
  as_bytes (pl_account p) = as_bytes (pl_account q) /\ as_bytes (pl_asset p) = as_bytes (pl_asset q)
  /\ as_bytes (pl_type p) = as_bytes (pl_type q)
  /\ pl_revision p = pl_revision q /\ pl_schema p = pl_schema q /\ pl_generation p = pl_generation q.

Lemma place_aad_inj p q : place_ok p -> place_ok q -> place_aad p = place_aad q -> same_place p q.
Proof.
  intros (P1 & P2 & P3 & P4 & P5 & P6) (Q1 & Q2 & Q3 & Q4 & Q5 & Q6) H. unfold place_aad, connection_asset_aad in H.
  apply length_prefixed_inj in H; [|done|..].
  - injection H as H1 H2 H3 H4 H5 H6. split_and!; try done; (apply to_dec_bytes_inj; [lia|lia|done]).
  - repeat (apply Forall_cons; split); auto using to_dec_short; by vm_compute.
  - repeat (apply Forall_cons; split); auto using to_dec_short; by vm_compute.
Qed.

Section cipher.
Context `{C : SyncCodec}.

Definition decrypts_at (p : AssetPlace) (encryption : CloudConnectionAssetEncryption) (amk plaintext : list Z) : Prop :=
  decrypt_connection_asset (pl_account p) (pl_asset p) (pl_type p) (pl_revision p) (pl_schema p) (pl_generation p) encryption amk
  = Ok plaintext.

Lemma decrypts_at_aead p e amk plaintext : decrypts_at p e amk plaintext ->
  exists nonce ciphertext, base64url_decode (en_nonce e) = Some nonce /\ base64url_decode (en_ciphertext e) = Some ciphertext
    /\ aead_decrypt amk nonce (place_aad p) ciphertext = Some plaintext.
Proof.
  unfold decrypts_at, decrypt_connection_asset, ok_or. intros H. case_match; [done|]. bind_inv.
  destruct (base64url_decode (en_nonce e)); [|done]. destruct (base64url_decode (en_ciphertext e)); [|done]. simplify_eq.
  case_match; [done|]. case_match; [|done]. simplify_eq. eauto.
Qed.

(** C28: A ciphertext is accepted in one place only. If the cipher authenticates its
    associated data (what decrypts under one key and nonce with some associated data
    decrypts with no other), then one stored encryption that decrypts for two places,
    whatever the plaintexts, was made for one account, asset, type, revision, schema
    version and key generation: a server cannot pass one asset off as another, or an old
    revision as a new one. *)
Theorem ciphertext_has_one_place p q e amk plaintext plaintext' :
  (forall key nonce aad aad' ciphertext m m', aead_decrypt key nonce aad ciphertext = Some m ->
     aead_decrypt key nonce aad' ciphertext = Some m' -> aad = aad') ->
  place_ok p -> place_ok q -> decrypts_at p e amk plaintext -> decrypts_at q e amk plaintext' -> same_place p q.
Proof.
  intros Hauth Hp Hq (n1 & c1 & N1 & C1 & D1)%decrypts_at_aead (n2 & c2 & N2 & C2 & D2)%decrypts_at_aead.
  simplify_eq. apply place_aad_inj; [done|done|]. by eapply Hauth.
Qed.
End cipher.

Definition demo_place : AssetPlace := mkAssetPlace demo_account (lit "a") (lit "connection_folder") 2 1 1.

Lemma ciphertext_has_one_place_witness :
  exists e q plaintext, encrypt_connection_asset (C := demo_codec) (Some (replicate 24 7%Z)) demo_account (lit "a") (lit "connection_folder") 2 1 1
    (lit "a") [1%Z] = Ok e /\ decrypts_at (C := demo_codec) demo_place e [1%Z] plaintext
    /\ decrypts_at (C := demo_codec) q e [1%Z] plaintext /\ same_place demo_place q.
Proof.
  destruct (encrypt_connection_asset (C := demo_codec) (Some (replicate 24 7%Z)) demo_account (lit "a") (lit "connection_folder") 2 1 1
    (lit "a") [1%Z]) as [e|] eqn:E; [|vm_compute in E; discriminate E].
  assert (Hd : decrypts_at (C := demo_codec) demo_place e [1%Z] (lit "a")).
  { vm_compute in E. injection E as <-. unfold decrypts_at. by vm_compute. }
  assert (Hok : place_ok demo_place) by (unfold place_ok; split_and!; by vm_compute).
  exists e, demo_place, (lit "a"). split; [done|]. split; [exact Hd|]. split; [exact Hd|].
  refine (ciphertext_has_one_place (C := demo_codec) demo_place demo_place e [1%Z] (lit "a") (lit "a") _ Hok Hok Hd Hd).
  intros key nonce aad aad' ciphertext m m' H1%demo_cipher_sound H2%demo_cipher_sound. unfold demo_encrypt in H1, H2.
  rewrite <-H2 in H1. injection H1 as H1%(inj encode). congruence.
Defined.
