(* ===== verification/SyncRun.v ===== *)
(** * Preparing and sending local changes
    ([src-tauri/src/cloud/sync_upload.rs], the reconciliation and the flush of
     [src-tauri/src/cloud/sync_coordinator.rs], the listings of
     [src-tauri/src/repository/cloud_sync_repository.rs])

    A run compares what is in the local tables with what was last synchronised and
    enqueues an operation for each difference; then it sends the waiting operations.  The
    theorem says that every difference gets an operation. *)

From stdpp Require Import base gmap list strings fin_maps.
From Stdlib Require Import ZArith Lia.
From S2P Require Import Prelude Digits Types Connections SyncProjection SyncPull SyncStore SyncApply SyncDemo SyncSafety.

(** ** Listings of the repository *)

Section listings.
Context {A : Type} (key : A -> Z * str).

(** [ORDER BY number ASC, text ASC] *)
Definition listed_before (a b : A) : bool :=
  match ((key a).1 ?= (key b).1)%Z with
  | Lt => true
  | Gt => false
  | Eq => bool_decide (str_compare (key a).2 (key b).2 = Lt)
  end.
Fixpoint insert_listed (a : A) (l : list A) : list A :=
  match l with
  | [] => [a]
  | b :: l' => if listed_before a b then a :: l else b :: insert_listed a l'
  end.
Definition sort_listed (l : list A) : list A := fold_left (fun acc a => insert_listed a acc) l [].
End listings.

(** The rows of an account with their asset ids, in the order of [ORDER BY updated_at,
    asset_id], each checked as it is read. *)
Definition list_assets (account_id : str) (d : SyncDb) : AppResult (list (str * CloudSyncAssetMetadata)) :=
  let rows := sort_listed (fun e : str * CloudSyncAssetMetadata => (a_updated_at e.2, e.1))
    (omap (fun kv : (str * str) * CloudSyncAssetMetadata =>
       if bool_decide (kv.1.1 = account_id) then Some (kv.1.2, kv.2) else None) (map_to_list (assets d))) in
  try_map (fun e => row ← asset_from_row e.2; Ok (e.1, row)) rows.

Definition list_pending_operations (account_id : str) (d : SyncDb) : AppResult (list (str * CloudSyncOperation)) :=
  let rows := sort_listed (fun e : str * CloudSyncOperation => (o_created_at e.2, e.1))
    (filter (fun e : str * CloudSyncOperation =>
       bool_decide (o_cloud_account_id e.2 = account_id) && is_pending (o_status e.2) = true) (map_to_list (operations d))) in
  try_map (fun e => row ← operation_from_row e.2; Ok (e.1, row)) rows.

Section run.
Context `{C : SyncCodec}.
(** The clock, and what is drawn at random for an asset. *)
Context (now : Z) (new_uuid : str -> str) (random_nonce : str -> option (list Z)).

(** ** Operations ([sync_upload.rs]) *)

Definition prepare_connection_delete (cloud_account_id asset_id : str) (asset_type : CloudSyncAssetType) (expected_revision : Z)
    : Result SyncCryptoError EnqueueCloudSyncOperation :=
  if bool_decide (cloud_account_id = []) || bool_decide (asset_id = []) || (expected_revision =? 0)%Z then Err EncodingFailed
  else Ok (mkEnqueueCloudSyncOperation (new_uuid asset_id) cloud_account_id asset_id asset_type Delete (Some expected_revision)
             None None None None None).

(** Also returns the revision the upload will have. *)
Definition prepare_connection_upload (cloud_account_id asset_id : str) (asset_type : CloudSyncAssetType)
    (expected_revision : option Z) (schema_version key_generation : Z) (plaintext amk : list Z)
    : Result SyncCryptoError (EnqueueCloudSyncOperation * Z) :=
  next_revision ← match expected_revision with
                  | Some revision => if (revision + 1 <=? U64_MAX)%Z then Ok (revision + 1)%Z else Err EncodingFailed
                  | None => Ok 1%Z
                  end;
  encryption ← encrypt_connection_asset (random_nonce asset_id) cloud_account_id asset_id (asset_type_as_str asset_type)
                 next_revision schema_version key_generation plaintext amk;
  Ok (mkEnqueueCloudSyncOperation (new_uuid asset_id) cloud_account_id asset_id asset_type Put expected_revision
        (Some schema_version) (Some key_generation) (Some (en_nonce encryption)) (Some (en_ciphertext encryption))
        (Some (base64url_encode (sha256 plaintext))), next_revision).

(** ** Reconciliation *)

Definition is_local_status (status : CloudSyncAssetStatus) : bool :=
  match status with Synced | NeedsLocalFile | PendingUpload => true | _ => false end.

Definition reconcile_present_asset (account_id : str) (keys : CommittedSyncKeyBundle) (asset_type : CloudSyncAssetType)
    (asset_id : str) (plaintext : list Z) (payload_hash : str) (metadata : option CloudSyncAssetMetadata)
    (has_pending_operation allowed : bool) : DB unit :=
  _ ← check_guard allowed;
  if has_pending_operation then mret tt
  else if bool_decide ((metadata ≫= a_local_payload_hash) = Some payload_hash)
          && match metadata with Some m => is_local_status (a_sync_status m) | None => false end then mret tt
  else if match metadata with Some m => bool_decide (a_sync_status m = Conflicted) | None => false end then mret tt
  else
    prepared ← st_lift (match prepare_connection_upload account_id asset_id asset_type (metadata ≫= a_remote_revision)
                                SYNC_SCHEMA_VERSION (kb_key_generation keys) plaintext (kb_amk keys) with
                        | Ok p => Ok p
                        | Err _ => Err (EValidation (lit "Failed to prepare a Cloud upload operation"))
                        end);
    _ ← enqueue_operation now prepared.1;
    _ ← upsert_asset now account_id asset_id
          (mkUpsertCloudSyncAssetMetadata asset_type asset_id (metadata ≫= a_remote_revision) (metadata ≫= a_base_revision)
             PendingUpload None None None (Some (e_operation_id prepared.1)) false (metadata ≫= a_conflict_of) (Some payload_hash));
    mret tt.

(** What was known when the run began.  The source removes an entry of its map when it is
    used; no key is used twice. *)
Definition find_metadata (asset_type : CloudSyncAssetType) (asset_id : str) (metadata : list (str * CloudSyncAssetMetadata))
    : option CloudSyncAssetMetadata :=
  snd <$> List.find (fun e => bool_decide (e.1 = asset_id) && bool_decide (a_asset_type e.2 = asset_type)) metadata.
Definition has_pending (asset_type : CloudSyncAssetType) (asset_id : str) (pending : list (str * CloudSyncOperation)) : bool :=
  existsb (fun e => bool_decide (o_asset_id e.2 = asset_id) && bool_decide (o_asset_type e.2 = asset_type)) pending.

Section reconcile.
Context (account_id : str) (keys : CommittedSyncKeyBundle) (guard : nat -> bool).
Context (metadata : list (str * CloudSyncAssetMetadata)) (pending : list (str * CloudSyncOperation)).

(** One asset that is in a local table: its type, its id, its bytes and their digest. *)
Definition present : Type := CloudSyncAssetType * str * list Z * str.

(** The guard is asked before an asset and again in [reconcile_present_asset]. *)
Fixpoint reconcile_present (asked : nat) (l : list present) : DB nat :=
  match l with
  | [] => mret asked
  | (asset_type, id, bytes, hash) :: l =>
    _ ← check_guard (guard asked);
    _ ← reconcile_present_asset account_id keys asset_type id bytes hash (find_metadata asset_type id metadata)
          (has_pending asset_type id pending) (guard (S asked));
    reconcile_present (S (S asked)) l
  end.

Definition reconcile_missing_asset (asset_id : str) (value : CloudSyncAssetMetadata) : DB unit :=
  match a_remote_revision value with
  | None => mret tt
  | Some remote_revision =>
    match a_sync_status value with
    | RemoteDeleted | Conflicted => mret tt
    | _ =>
      operation ← st_lift (match prepare_connection_delete account_id asset_id (a_asset_type value) remote_revision with
                           | Ok o => Ok o
                           | Err _ => Err (EValidation (lit "Failed to prepare a Cloud delete operation"))
                           end);
      _ ← enqueue_operation now operation;
      _ ← upsert_asset now account_id asset_id
            (mkUpsertCloudSyncAssetMetadata (a_asset_type value) (a_local_entity_id value) (a_remote_revision value)
               (a_base_revision value) PendingDelete None None None (Some (e_operation_id operation)) true
               (a_conflict_of value) (a_local_payload_hash value));
      mret tt
    end
  end.

Fixpoint reconcile_missing (asked : nat) (seen : list (CloudSyncAssetType * str)) (l : list (str * CloudSyncAssetMetadata)) : DB unit :=
  match l with
  | [] => mret tt
  | (asset_id, value) :: l =>
    _ ← check_guard (guard asked);
    _ ← (if bool_decide ((a_asset_type value, asset_id) ∈ seen) || has_pending (a_asset_type value) asset_id pending
         then mret tt else reconcile_missing_asset asset_id value);
    reconcile_missing (S asked) seen l
  end.
End reconcile.

(** The projection of a listed connection; every connection is read before the first
    asset is reconciled, so a row that cannot be read fails the run. *)
Definition present_connection (record : StoredConnectionRecord) : present :=
  let (bytes, digest) := connection_projection number_of_i64 json_to_string sha256 record in
  (Connection, r_id record, bytes, base64url_encode digest).
Definition present_folder (record : StoredConnectionFolder) : present :=
  let (bytes, digest) := folder_projection number_of_i64 json_to_string sha256 record in
  (ConnectionFolder, f_id record, bytes, base64url_encode digest).

(** [connection_ids] and [folder_ids] are the ids in the order in which SQLite lists the
    tables; the order of rows that sort the same is SQLite's. *)
Definition list_connections (connection_ids : list str) (d : SyncDb) : AppResult (list StoredConnectionRecord) :=
  try_map (fun id => row ← ok_or ESqlx (connections (local d) !! id); record_from_row json_from_str id row) connection_ids.
Definition list_folders (folder_ids : list str) (d : SyncDb) : list StoredConnectionFolder :=
  omap (fun id => folder_from_row id <$> folders (local d) !! id) folder_ids.

Definition reconcile_local_assets (account_id : str) (keys : CommittedSyncKeyBundle) (guard : nat -> bool)
    (connection_ids folder_ids : list str) : DB unit :=
  d ← st_get;
  metadata ← st_lift (list_assets account_id d);
  pending ← st_lift (list_pending_operations account_id d);
  connections ← st_lift (list_connections connection_ids d);
  let folders := list_folders folder_ids d in
  let presents := map present_connection connections ++ map present_folder folders in
  asked ← reconcile_present account_id keys guard metadata pending 0 presents;
  reconcile_missing account_id guard pending asked (map (fun p : present => p.1.1) presents) metadata.

(** ** Sending ([flush_pending_operations]) *)

Inductive CloudClientError :=
| InvalidConfiguration | Unauthorized | InsufficientScope | TemporarilyUnavailable | ResponseTooLarge | InvalidResponse
| AccountNotInitialized | ConnectionSyncNotEntitled | ConnectionSyncLifecycleRestricted | AccountUnavailable
| SyncDeviceLimitExceeded | SyncAlreadyInitialized | SyncInitializationMismatch | SyncDeviceIdConflict | InvalidSyncRequest
| SyncDeviceNotAuthorized | DeviceProofUnavailable | SyncNotInitialized | DeviceAuthorizationRequestMismatch
| PendingDeviceAuthorizationLimitExceeded | DeviceAuthorizationNotFound | DeviceAuthorizationNotPending
| ConnectionAssetOperationMismatch | ConnectionAssetTypeMismatch | ConnectionAssetCursorInvalid | EncryptedByteLimitExceeded
| ConnectionAssetTooLarge | SyncKeyGenerationMismatch.

Definition sync_operation_outcome_unknown (error : CloudClientError) : bool :=
  match error with TemporarilyUnavailable | ResponseTooLarge | InvalidResponse => true | _ => false end.

(** [CloudAssetPutError]; what the server sends with a conflict is not used here. *)
Inductive CloudAssetPutError := PutClient (error : CloudClientError) | PutConflict.

Record PutCloudConnectionAssetRequest := mkPutCloudConnectionAssetRequest {
  pr_operation_id : str;
  pr_expected_revision : option str;
  pr_asset_type : str;
  pr_schema_version : Z;
  pr_key_generation : Z;
  pr_encryption : CloudConnectionAssetEncryption;
}.

Record DeleteCloudConnectionAssetRequest := mkDeleteCloudConnectionAssetRequest {
  dr_operation_id : str;
  dr_expected_revision : str;
}.

(** The answer of the server to a request for an asset: the revision it applied. *)
Record CloudServer := mkCloudServer {
  put_connection_asset : str -> PutCloudConnectionAssetRequest -> Result CloudAssetPutError str;
  delete_connection_asset : str -> DeleteCloudConnectionAssetRequest -> Result CloudAssetPutError str;
}.

Definition flush_put_operation (server : CloudServer) (account_id operation_id : str) (operation : CloudSyncOperation)
    (keys : CommittedSyncKeyBundle) : Result CloudAssetPutError str :=
  if negb (bool_decide (o_action operation = Put)) || negb (bool_decide (o_cloud_account_id operation = account_id))
     || negb (bool_decide (o_key_generation operation = Some (kb_key_generation keys))) then Err (PutClient InvalidResponse)
  else
    schema_version ← ok_or (PutClient InvalidResponse) (o_schema_version operation);
    key_generation ← ok_or (PutClient InvalidResponse) (o_key_generation operation);
    nonce ← ok_or (PutClient InvalidResponse) (o_nonce operation);
    ciphertext ← ok_or (PutClient InvalidResponse) (o_ciphertext operation);
    put_connection_asset server (o_asset_id operation)
      (mkPutCloudConnectionAssetRequest operation_id (to_dec <$> o_expected_revision operation)
         (asset_type_as_str (o_asset_type operation)) schema_version key_generation
         (mkCloudConnectionAssetEncryption CONNECTION_ASSET_SUITE nonce ciphertext)).

Definition flush_delete_operation (server : CloudServer) (account_id operation_id : str) (operation : CloudSyncOperation)
    : Result CloudAssetPutError str :=
  if negb (bool_decide (o_action operation = Delete)) || negb (bool_decide (o_cloud_account_id operation = account_id))
  then Err (PutClient InvalidResponse)
  else match o_expected_revision operation with
       | None => Err (PutClient InvalidResponse)
       | Some expected => delete_connection_asset server (o_asset_id operation)
           (mkDeleteCloudConnectionAssetRequest operation_id (to_dec expected))
       end.

(** [let _ = ...]: an error is dropped. *)
Definition ignore_error {A} (m : DB A) : DB unit := fun d => (Ok tt, (m d).2).

Definition mark_asset_conflicted (account_id operation_id : str) (operation : CloudSyncOperation) : DB unit := fun d =>
  match (get_asset account_id (o_asset_id operation) d).1 with
  | Ok (Some value) =>
    ignore_error (upsert_asset now account_id (o_asset_id operation)
      (mkUpsertCloudSyncAssetMetadata (a_asset_type value) (a_local_entity_id value) (a_remote_revision value)
         (a_base_revision value) Conflicted (Some (lit "connection_asset_revision_conflict")) None None (Some operation_id)
         (a_tombstone value) (a_conflict_of value) (a_local_payload_hash value))) d
  | _ => (Ok tt, d)
  end.

Record CloudSyncRunResult := mkCloudSyncRunResult {
  rr_uploaded : Z;
  rr_deleted : Z;
  rr_pulled : Z;
  rr_conflicted : Z;
  rr_ignored : Z;
  rr_cursor : Z;
}.

(** What is done with the server's answer to one operation. *)
Definition settle_operation (account_id operation_id : str) (operation : CloudSyncOperation) (answer : Result CloudAssetPutError str)
    (result : CloudSyncRunResult) : DB (CloudSyncRunResult * option CloudClientError) :=
  let is_delete := bool_decide (o_action operation = Delete) in
  match answer with
  | Ok applied_revision =>
    _ ← match parse_uint U64_MAX applied_revision with
        | Some revision => ignore_error (upsert_asset now account_id (o_asset_id operation)
            (mkUpsertCloudSyncAssetMetadata (o_asset_type operation) (o_asset_id operation) (Some revision) (Some revision)
               (if is_delete then RemoteDeleted else Synced) None None None None is_delete None (o_payload_hash operation)))
        | None => mret tt
        end;
    _ ← mark_operation_status now operation_id OpApplied None;
    mret (if is_delete
          then mkCloudSyncRunResult (rr_uploaded result) (rr_deleted result + 1) (rr_pulled result) (rr_conflicted result)
                 (rr_ignored result) (rr_cursor result)
          else mkCloudSyncRunResult (rr_uploaded result + 1) (rr_deleted result) (rr_pulled result) (rr_conflicted result)
                 (rr_ignored result) (rr_cursor result), None)
  | Err PutConflict =>
    _ ← mark_asset_conflicted account_id operation_id operation;
    _ ← mark_operation_status now operation_id OpConflicted (Some (lit "connection_asset_revision_conflict"));
    mret (mkCloudSyncRunResult (rr_uploaded result) (rr_deleted result) (rr_pulled result) (rr_conflicted result + 1)
            (rr_ignored result) (rr_cursor result), None)
  | Err (PutClient error) =>
    _ ← (if sync_operation_outcome_unknown error
         then mark_operation_status now operation_id OpUnknown (Some (lit "cloud_temporarily_unavailable"))
         else mark_operation_status now operation_id OpRejected (Some (lit "cloud_sync_operation_rejected")));
    mret (result, Some error)
  end.

(** How a flush ends: with the first error of the server, if any, or because the run was
    cancelled. *)
Inductive FlushEnd := FlushDone (first_error : option CloudClientError) | FlushCanceled.

Fixpoint flush_operations (account_id : str) (keys : CommittedSyncKeyBundle) (server : CloudServer) (guard : nat -> bool)
    (asked : nat) (first_error : option CloudClientError) (l : list (str * CloudSyncOperation)) (result : CloudSyncRunResult)
    : DB (CloudSyncRunResult * FlushEnd) :=
  match l with
  | [] => mret (result, FlushDone first_error)
  | (operation_id, operation) :: l =>
    if negb (guard asked) then mret (result, FlushCanceled)
    else
      _ ← mark_operation_attempt now operation_id;
      let answer := match o_action operation with
        | Put => flush_put_operation server account_id operation_id operation keys
        | Delete => flush_delete_operation server account_id operation_id operation
        end in
      if negb (guard (S asked)) then mret (result, FlushCanceled)
      else
        settled ← settle_operation account_id operation_id operation answer result;
        flush_operations account_id keys server guard (S (S asked))
          (match first_error with Some _ => first_error | None => settled.2 end) l settled.1
  end.

Definition flush_pending_operations (account_id : str) (keys : CommittedSyncKeyBundle) (server : CloudServer)
    (guard : nat -> bool) (result : CloudSyncRunResult) : DB (CloudSyncRunResult * FlushEnd) :=
  d ← st_get;
  operations ← st_lift (list_pending_operations account_id d);
  flush_operations account_id keys server guard 0 None operations result.
End run.

(** ** Every difference gets an operation *)

Lemma insert_listed_perm {A} (key : A -> Z * str) a l : insert_listed key a l ≡ₚ a :: l.
Proof. induction l as [|b l IH]; simpl; [done|]. destruct (listed_before key a b); [done|]. rewrite IH. apply Permutation_swap. Qed.

Lemma sort_listed_perm {A} (key : A -> Z * str) l : sort_listed key l ≡ₚ l.
Proof.
  unfold sort_listed. change l with ([] ++ l) at 2. generalize ([] : list A) as acc.
  induction l as [|e l IH]; intros acc; simpl; [by rewrite app_nil_r|]. rewrite IH, insert_listed_perm. simpl.
  by rewrite <-Permutation_middle.
Qed.

(** Reading rows that are checked and returned as they are. *)
Lemma try_map_same {E A} (f : A -> Result E A) (l l' : list (str * A)) :
  (forall a b, f a = Ok b -> b = a) -> try_map (fun e => row ← f e.2; Ok (e.1, row)) l = Ok l' -> l' = l.
Proof.
  intros Hf H%try_map_Ok. induction H as [|[k a] [k' b] l l' Hx _ IH]; [done|]. cbn in Hx. destruct (f a) eqn:Ef; [|done].
  injection Hx as <- <-. f_equal; [|done]. f_equal. by apply Hf.
Qed.

Lemma list_assets_elem account d l id m : list_assets account d = Ok l -> (id, m) ∈ l <-> assets d !! (account, id) = Some m.
Proof.
  unfold list_assets. intros H. apply try_map_same in H as ->.
  - rewrite sort_listed_perm, list_elem_of_omap. split.
    + intros ([[a k] r] & Hr%elem_of_map_to_list & E). cbn in E. case_bool_decide; [|done]. by simplify_eq.
    + intros Hr%elem_of_map_to_list. eexists. split; [exact Hr|]. cbn. by rewrite bool_decide_true.
  - intros a b E. unfold asset_from_row in E. bind_inv. done.
Qed.

Lemma list_pending_elem account d l oid o : list_pending_operations account d = Ok l ->
  (oid, o) ∈ l <-> operations d !! oid = Some o /\ o_cloud_account_id o = account /\ is_pending (o_status o) = true.
Proof.
  unfold list_pending_operations. intros H. apply try_map_same in H as ->.
  - rewrite sort_listed_perm, list_elem_of_filter, elem_of_map_to_list. cbn. rewrite andb_true_iff, bool_decide_eq_true. tauto.
  - intros a b E. unfold operation_from_row in E. bind_inv. done.
Qed.

Section covered.
Context `{C : SyncCodec}.
Context (now : Z) (new_uuid : str -> str) (random_nonce : str -> option (list Z)).
Context (account : str) (d0 : SyncDb).
Context (Hfresh : forall id, operations d0 !! new_uuid id = None).

(** An operation waits for the asset. *)
Definition waits (asset_type : CloudSyncAssetType) (id : str) (d : SyncDb) : Prop :=
  exists oid o, operations d !! oid = Some o /\ o_cloud_account_id o = account /\ o_asset_type o = asset_type
    /\ o_asset_id o = id /\ is_pending (o_status o) = true.

(** Since [d0] only operations were added, all of them pending. *)
Record grown (d : SyncDb) : Prop := {
  gr_local : local d = local d0;
  gr_kept : forall oid o, operations d0 !! oid = Some o -> operations d !! oid = Some o;
  gr_new : forall oid o, operations d !! oid = Some o -> operations d0 !! oid = Some o \/ o_status o = OpPending;
}.

(** The operations only grow. *)
Definition more_operations (d d' : SyncDb) : Prop := forall oid o, operations d !! oid = Some o -> operations d' !! oid = Some o.

Lemma waits_more t id d d' : waits t id d -> more_operations d d' -> waits t id d'.
Proof. intros (oid & o & Ho & H) Hm. exists oid, o. split; [by apply Hm|done]. Qed.

Lemma enqueue_Ok input d op d' : grown d -> (exists id, e_operation_id input = new_uuid id) -> e_cloud_account_id input = account ->
  enqueue_operation now input d = (Ok op, d') ->
  grown d' /\ more_operations d d' /\ waits (e_asset_type input) (e_asset_id input) d'.
Proof.
  intros Hg [id Hid] Hacc H. unfold enqueue_operation in H. db_inv. unfold get_operation in E. injection E as E <-.
  destruct x as [existing|].
  - destruct (operation_matches_input existing input) eqn:Em; [|done]. db_inv. split; [done|]. split; [by intros ?|].
    unfold try_option in E. destruct (operations d !! e_operation_id input) as [row|] eqn:El; [|done]. bind_inv. simplify_eq.
    unfold operation_from_row in E0. bind_inv. subst. unfold operation_matches_input in Em. breflect.
    exists (e_operation_id input), existing. split_and!; try done; [congruence|].
    destruct (gr_new _ Hg _ _ El) as [Hold|Hp]; [by rewrite Hid, Hfresh in Hold|by rewrite Hp].
  - assert (Hnone : operations d !! e_operation_id input = None).
    { destruct (operations d !! e_operation_id input); [|done]. cbn in E. bind_inv. done. }
    db_inv. clear E. match type of H with (if ?b then _ else _) _ = _ => destruct b; [|done] end. db_inv.
    match goal with |- grown ?d /\ _ => set (d2 := d) end.
    assert (Hd2 : exists row, operations d2 = <[e_operation_id input := row]> (operations d) /\ local d2 = local d
      /\ o_cloud_account_id row = account /\ o_asset_type row = e_asset_type input /\ o_asset_id row = e_asset_id input
      /\ o_status row = OpPending).
    { unfold get_operation in *. simplify_eq. unfold d2. eexists. cbn. split; [reflexivity|]. by split_and!. }
    destruct Hd2 as (row & Hops & Hl & R1 & R2 & R3 & R4). split; [|split].
    + destruct Hg as [G1 G2 G3]. split.
      * congruence.
      * intros oid o Ho. rewrite Hops, lookup_insert_ne; [by apply G2|]. intros <-. by rewrite Hid, Hfresh in Ho.
      * intros oid o. rewrite Hops. intros [[<- <-]|[_ Ho]]%lookup_insert_Some; [by right|by apply G3].
    + intros oid o Ho. rewrite Hops, lookup_insert_ne; [done|]. congruence.
    + exists (e_operation_id input), row. rewrite Hops, lookup_insert_eq. split_and!; try done. by rewrite R4.
Qed.

Lemma upsert_asset_Ok a id input d row d' : upsert_asset now a id input d = (Ok row, d') -> operations d' = operations d /\ local d' = local d.
Proof. unfold upsert_asset. intros H. repeat case_match; simplify_eq; done. Qed.

Lemma grown_assets d d' : grown d -> operations d' = operations d -> local d' = local d -> grown d'.
Proof. intros [G1 G2 G3] Ho Hl. split; rewrite ?Ho, ?Hl; done. Qed.

(** What makes an operation unnecessary for an asset that is present. *)
Definition up_to_date (asset_type : CloudSyncAssetType) (id hash : str) : Prop :=
  exists m, assets d0 !! (account, id) = Some m /\ a_asset_type m = asset_type
  /\ (a_sync_status m = Conflicted \/ (a_local_payload_hash m = Some hash /\ is_local_status (a_sync_status m) = true)).

Section loops.
Context (keys : CommittedSyncKeyBundle) (guard : nat -> bool).
Context (metadata : list (str * CloudSyncAssetMetadata)) (pending : list (str * CloudSyncOperation)).
Context (Hmeta : list_assets account d0 = Ok metadata) (Hpend : list_pending_operations account d0 = Ok pending).

Lemma find_metadata_Some t id m : find_metadata t id metadata = Some m -> assets d0 !! (account, id) = Some m /\ a_asset_type m = t.
Proof.
  unfold find_metadata. intros ([id' m'] & Hf & ->)%fmap_Some. apply find_some in Hf as [Hin Hf]. cbn in Hf. breflect. subst.
  split; [|done]. apply (list_assets_elem _ _ _ _ _ Hmeta). by apply list_elem_of_In.
Qed.

Lemma has_pending_waits t id : has_pending t id pending = true -> waits t id d0.
Proof.
  unfold has_pending. intros ([oid o] & Hin & Ho)%existsb_exists. cbn in Ho. breflect.
  apply list_elem_of_In, (list_pending_elem _ _ _ _ _ Hpend) in Hin as (H1 & H2 & H3). exists oid, o. auto.
Qed.

Lemma reconcile_present_asset_Ok t id bytes hash allowed d d' : grown d ->
  reconcile_present_asset now new_uuid random_nonce account keys t id bytes hash (find_metadata t id metadata)
    (has_pending t id pending) allowed d = (Ok tt, d') ->
  grown d' /\ more_operations d d' /\ (waits t id d' \/ up_to_date t id hash).
Proof.
  intros Hg H. unfold reconcile_present_asset, check_guard in H. db_inv.
  destruct (has_pending t id pending) eqn:Ep; db_inv.
  { split; [done|]. split; [by intros ?|]. left. eapply waits_more; [by apply has_pending_waits|exact (gr_kept _ Hg)]. }
  match type of H with (if ?b then _ else _) _ = _ => destruct b eqn:Eh end; db_inv.
  { split; [done|]. split; [by intros ?|]. right. breflect.
    destruct (find_metadata t id metadata) as [m|] eqn:Em; [|done]. apply find_metadata_Some in Em as [Ea Et].
    exists m. split; [done|]. split; [done|]. by right. }
  match type of H with (if ?b then _ else _) _ = _ => destruct b eqn:Ec end; db_inv.
  { split; [done|]. split; [by intros ?|]. right.
    destruct (find_metadata t id metadata) as [m|] eqn:Em; [|done]. apply find_metadata_Some in Em as [Ea Et]. breflect.
    exists m. split; [done|]. split; [done|]. by left. }
  rename x into prepared. destruct (prepare_connection_upload _ _ _ _ _ _ _ _ _ _) as [p|] eqn:Eprep; [|done]. simplify_eq.
  unfold prepare_connection_upload in Eprep. bind_inv. subst prepared. cbn in *.
  match goal with H : enqueue_operation _ _ _ = _ |- _ => apply enqueue_Ok in H as (Hg1 & Hm1 & Hw1); [|done|by exists id|done] end.
  match goal with H : upsert_asset _ _ _ _ _ = _ |- _ => apply upsert_asset_Ok in H as [Ho Hl] end. cbn in Hw1.
  split; [by eapply grown_assets|]. unfold more_operations, waits. rewrite Ho. split; [done|]. left. exact Hw1.
Qed.

Lemma reconcile_present_Ok asked l d n d' : grown d ->
  reconcile_present now new_uuid random_nonce account keys guard metadata pending asked l d = (Ok n, d') ->
  grown d' /\ more_operations d d'
  /\ Forall (fun p : present => waits p.1.1.1 p.1.1.2 d' \/ up_to_date p.1.1.1 p.1.1.2 p.2) l.
Proof.
  revert asked d. induction l as [|[[[t id] bytes] hash] l IH]; intros asked d Hg H; cbn [reconcile_present] in H.
  { db_inv. split; [done|]. split; [by intros ?|constructor]. }
  unfold check_guard in H. db_inv. match goal with H : reconcile_present_asset _ _ _ _ _ _ _ _ _ _ _ _ _ = _ |- _ =>
    apply reconcile_present_asset_Ok in H as (Hg1 & Hm1 & Hc1); [|done] end.
  apply IH in H as (Hg2 & Hm2 & Hall); [|done]. split; [done|]. split; [intros oid o Ho; by apply Hm2, Hm1|].
  constructor; [|done]. cbn. destruct Hc1 as [Hw|?]; [left; by eapply waits_more|by right].
Qed.

(** What makes an operation unnecessary for an asset that is gone from the local tables. *)
Definition nothing_to_delete (m : CloudSyncAssetMetadata) : Prop :=
  a_remote_revision m = None \/ a_sync_status m = RemoteDeleted \/ a_sync_status m = Conflicted.

Lemma reconcile_missing_asset_Ok id m d d' : grown d ->
  reconcile_missing_asset now new_uuid account id m d = (Ok tt, d') ->
  grown d' /\ more_operations d d' /\ (waits (a_asset_type m) id d' \/ nothing_to_delete m).
Proof.
  intros Hg H. unfold reconcile_missing_asset in H.
  destruct (a_remote_revision m) as [revision|] eqn:Er; [|db_inv; split; [done|]; split; [by intros ?|right; by left]].
  destruct (a_sync_status m) eqn:Es; db_inv;
    try (split; [done|]; split; [by intros ?|]; right; unfold nothing_to_delete; rewrite Es; tauto);
  (destruct (prepare_connection_delete new_uuid account id (a_asset_type m) revision) as [op|] eqn:Ep; [|done]; simplify_eq;
   unfold prepare_connection_delete in Ep; case_match; [done|]; injection Ep as <-; cbn in *;
   match goal with H : enqueue_operation _ _ _ = _ |- _ => apply enqueue_Ok in H as (Hg1 & Hm1 & Hw1); [|done|by exists id|done] end;
   match goal with H : upsert_asset _ _ _ _ _ = _ |- _ => apply upsert_asset_Ok in H as [Ho Hl] end;
   cbn in Hw1; split; [by eapply grown_assets|]; unfold more_operations, waits; rewrite Ho; split; [done|]; left; exact Hw1).
Qed.

Lemma reconcile_missing_Ok asked seen l d d' : grown d ->
  reconcile_missing now new_uuid account guard pending asked seen l d = (Ok tt, d') ->
  grown d' /\ more_operations d d'
  /\ Forall (fun e : str * CloudSyncAssetMetadata => (a_asset_type e.2, e.1) ∈ seen \/ waits (a_asset_type e.2) e.1 d' \/ nothing_to_delete e.2) l.
Proof.
  revert asked d. induction l as [|[id m] l IH]; intros asked d Hg H; cbn [reconcile_missing] in H.
  { db_inv. split; [done|]. split; [by intros ?|constructor]. }
  unfold check_guard in H. db_inv.
  match goal with E : (if ?b then _ else _) d = (Ok tt, ?d1) |- _ =>
    assert (Hone : grown d1 /\ more_operations d d1
      /\ ((a_asset_type m, id) ∈ seen \/ waits (a_asset_type m) id d1 \/ nothing_to_delete m));
    [destruct b eqn:Eb|] end.
  - db_inv. split; [done|]. split; [by intros ?|]. apply orb_true_iff in Eb as [Eb|Eb]; [breflect; by left|].
    right. left. eapply waits_more; [by apply has_pending_waits|exact (gr_kept _ Hg)].
  - match goal with H : reconcile_missing_asset _ _ _ _ _ _ = _ |- _ => apply reconcile_missing_asset_Ok in H as (? & ? & ?); [|done] end.
    auto.
  - destruct Hone as (Hg1 & Hm1 & Hc1). apply IH in H as (Hg2 & Hm2 & Hall); [|done]. split; [done|].
    split; [intros oid o Ho; by apply Hm2, Hm1|]. constructor; [|done]. cbn.
    destruct Hc1 as [?|[Hw|?]]; [by left|right; left; by eapply waits_more|by right; right].
Qed.
End loops.
End covered.

Section reconciled.
Context `{C : SyncCodec}.
Context (now : Z) (new_uuid : str -> str) (random_nonce : str -> option (list Z)).

Definition connection_digest (record : StoredConnectionRecord) : str :=
  base64url_encode (connection_projection number_of_i64 json_to_string sha256 record).2.
Definition folder_digest (record : StoredConnectionFolder) : str :=
  base64url_encode (folder_projection number_of_i64 json_to_string sha256 record).2.

(** The asset is in its local table. *)
Definition is_local (asset_type : CloudSyncAssetType) (id : str) (d : SyncDb) : Prop :=
  match asset_type with
  | Connection => is_Some (connections (local d) !! id)
  | ConnectionFolder => is_Some (folders (local d) !! id)
  end.

Lemma list_connections_elem ids d l id row :
  ids ≡ₚ map fst (map_to_list (connections (local d))) -> list_connections ids d = Ok l ->
  connections (local d) !! id = Some row -> exists record, record ∈ l /\ record_from_row json_from_str id row = Ok record.
Proof.
  intros Hp H%try_map_Ok Hrow.
  assert (Hid : id ∈ ids) by (rewrite Hp; apply list_elem_of_fmap; exists (id, row); split; [done|by apply elem_of_map_to_list]).
  apply list_elem_of_lookup_1 in Hid as [i Hi]. destruct (Forall2_lookup_l _ _ _ _ _ H Hi) as (record & Hr & He).
  exists record. split; [by eapply list_elem_of_lookup_2|]. by rewrite Hrow in He.
Qed.

Lemma record_from_row_id id row record : record_from_row json_from_str id row = Ok record -> r_id record = id.
Proof. unfold record_from_row. intros H. bind_inv. by subst. Qed.

Lemma list_connections_local ids d l record : list_connections ids d = Ok l -> record ∈ l ->
  is_local Connection (r_id record) d.
Proof.
  intros H%try_map_Ok [i Hi]%list_elem_of_lookup_1. destruct (Forall2_lookup_r _ _ _ _ _ H Hi) as (id & _ & He). cbn in He.
  destruct (connections (local d) !! id) as [row|] eqn:Er; [|done]. cbn in He. apply record_from_row_id in He as ->.
  cbn. by exists row.
Qed.

Lemma list_folders_elem ids d record : record ∈ list_folders ids d <->
  f_id record ∈ ids /\ exists row, folders (local d) !! f_id record = Some row /\ record = folder_from_row (f_id record) row.
Proof.
  unfold list_folders. rewrite list_elem_of_omap. split.
  - intros (id & Hid & (row & Hr & ->)%fmap_Some). cbn. eauto.
  - intros (Hid & row & Hr & ->). eexists. split; [exact Hid|]. cbn in *. by rewrite Hr.
Qed.

(** C26: Reconciliation covers every difference. After it succeeded the local tables are
    as they were and no operation that was waiting was changed. Every stored connection
    and folder either has an operation waiting, or is in an unresolved conflict, or has
    exactly the digest that was recorded when it was last uploaded or pulled (or when its
    upload was prepared); and every asset that the server has and the local tables no
    longer have has an operation waiting, unless it is known to be deleted or is in
    conflict. *)
Theorem reconcile_covers_differences account keys guard connection_ids folder_ids d d' :
  (forall id, operations d !! new_uuid id = None) ->
  connection_ids ≡ₚ map fst (map_to_list (connections (local d))) -> folder_ids ≡ₚ map fst (map_to_list (folders (local d))) ->
  reconcile_local_assets now new_uuid random_nonce account keys guard connection_ids folder_ids d = (Ok tt, d') ->
  local d' = local d /\ more_operations d d'
  /\ (forall id row, connections (local d) !! id = Some row -> exists record, record_from_row json_from_str id row = Ok record
      /\ (waits account Connection id d' \/ up_to_date account d Connection id (connection_digest record)))
  /\ (forall id row, folders (local d) !! id = Some row ->
      waits account ConnectionFolder id d'
      \/ up_to_date account d ConnectionFolder id (folder_digest (folder_from_row id row)))
  /\ (forall id m, assets d !! (account, id) = Some m -> ~ is_local (a_asset_type m) id d ->
      waits account (a_asset_type m) id d' \/ nothing_to_delete m).
Proof.
  intros Hfresh Hc Hf H. unfold reconcile_local_assets in H. db_inv.
  rename x1 into metadata, x3 into pending, x5 into records, E0 into Hmeta, E1 into Hpend, E2 into Hrec, x8 into d1.
  assert (Hg0 : grown d d) by (split; auto).
  apply (reconcile_present_Ok now new_uuid random_nonce account d Hfresh keys guard metadata pending Hmeta Hpend) in E3
    as (Hg1 & Hm1 & Hpresent); [|done].
  apply (reconcile_missing_Ok now new_uuid random_nonce account d Hfresh guard pending Hpend) in H as (Hg2 & Hm2 & Hmissing); [|done].
  rewrite Forall_forall in Hpresent. rewrite Forall_forall in Hmissing.
  assert (Hcov : forall p, p ∈ map present_connection records ++ map present_folder (list_folders folder_ids d) ->
    waits account p.1.1.1 p.1.1.2 d' \/ up_to_date account d p.1.1.1 p.1.1.2 p.2).
  { intros p [Hw|?]%Hpresent; [left; by eapply waits_more|by right]. }
  split; [apply Hg2|]. split; [intros oid o Ho; by apply Hm2, Hm1|]. split_and!.
  - intros id row Hrow. destruct (list_connections_elem _ _ _ _ _ Hc Hrec Hrow) as (record & Hin & Hr). exists record. split; [done|].
    destruct (Hcov (present_connection record)) as [?|?]; [apply elem_of_app; left; by apply list_elem_of_fmap_2|..];
      rewrite <-(record_from_row_id _ _ _ Hr); auto.
  - intros id row Hrow. apply (Hcov (present_folder (folder_from_row id row))). apply elem_of_app. right. apply list_elem_of_fmap_2.
    apply list_folders_elem. cbn. split; [|by eauto]. rewrite Hf. apply list_elem_of_fmap. exists (id, row). split; [done|].
    by apply elem_of_map_to_list.
  - intros id m Hm Hno. apply (list_assets_elem _ _ _ _ _ Hmeta) in Hm. destruct (Hmissing _ Hm) as [Hseen|Hd]; [|done].
    exfalso. apply Hno. cbn in Hseen. rewrite map_app, elem_of_app in Hseen. destruct Hseen as [Hs|Hs];
      apply list_elem_of_fmap in Hs as (p & Hp & (r & -> & Hr)%list_elem_of_fmap); injection Hp as -> ->.
    + by eapply list_connections_local.
    + apply list_folders_elem in Hr as (_ & row & Hr & _). cbn. by exists row.
Qed.
End reconciled.

(** ** Concrete runs *)

Definition demo_reconcile (uuid : str -> str) (d : SyncDb) : AppResult unit * SyncDb :=
  reconcile_local_assets (C := demo_codec) 6 uuid demo_nonce demo_account demo_keys (fun _ => true)
    (map fst (map_to_list (connections (local d)))) (map fst (map_to_list (folders (local d)))) d.

Lemma reconcile_covers_differences_witness :
  waits demo_account ConnectionFolder (lit "b") (demo_reconcile demo_uuid edited_db).2
  \/ up_to_date demo_account edited_db ConnectionFolder (lit "b") (folder_hash "b" (demo_folder (Some "a"))).
Proof.
  assert (Hok : is_ok (demo_reconcile demo_uuid edited_db).1 = true) by (vm_compute; reflexivity).
  destruct (demo_reconcile demo_uuid edited_db) as [[[]|e] d'] eqn:Er; [|discriminate Hok].
  destruct (reconcile_covers_differences (C := demo_codec) 6 demo_uuid demo_nonce demo_account demo_keys (fun _ => true) _ _ edited_db d'
    (fun id => lookup_empty _) (Permutation_refl _) (Permutation_refl _) Er) as (_ & _ & _ & Hf & _).
  assert (Hb : folders (local edited_db) !! lit "b" = Some (demo_folder (Some "a"))) by (vm_compute; reflexivity).
  exact (Hf (lit "b") (demo_folder (Some "a")) Hb).
Defined.

(** ** A rejected upload is not tried again *)

(** A server that refuses everything for want of space, and one that accepts. *)
Definition full_server : CloudServer :=
  mkCloudServer (fun _ _ => Err (PutClient EncryptedByteLimitExceeded)) (fun _ _ => Err (PutClient EncryptedByteLimitExceeded)).
Definition willing_server : CloudServer := mkCloudServer (fun _ _ => Ok (lit "2")) (fun _ _ => Ok (lit "2")).

(** One reconciliation and one flush: what was counted, how it ended, and the database. *)
Definition demo_run (uuid : str -> str) (server : CloudServer) (d : SyncDb) : option (CloudSyncRunResult * FlushEnd * SyncDb) :=
  match demo_reconcile uuid d with
  | (Ok _, d1) =>
    match flush_pending_operations 7 demo_account demo_keys server (fun _ => true) (mkCloudSyncRunResult 0 0 0 0 0 0) d1 with
    | (Ok (result, fin), d2) => Some (result, fin, d2)
    | _ => None
    end
  | _ => None
  end.

(** Folder [b] was edited.  The first run prepares its upload, which the server refuses:
    the operation is rejected, but the asset stays [pending_upload] with the digest of the
    edit.  The next run takes that digest for an upload that is under way, prepares
    nothing, and sends nothing to a server that would accept it; the same first run
    against that server does upload it. *)
Theorem rejected_upload_is_not_retried :
  exists d1 d2, demo_run demo_uuid full_server edited_db
      = Some (mkCloudSyncRunResult 0 0 0 0 0 0, FlushDone (Some EncryptedByteLimitExceeded), d1)
    /\ demo_run (fun id => lit "second-" ++ id) willing_server d1 = Some (mkCloudSyncRunResult 0 0 0 0 0 0, FlushDone None, d2)
    /\ (a_sync_status <$> assets d2 !! (demo_account, lit "b")) = Some PendingUpload
    /\ (exists d3, demo_run demo_uuid willing_server edited_db = Some (mkCloudSyncRunResult 1 0 0 0 0 0, FlushDone None, d3)).
Proof.
  assert (H1 : fst <$> demo_run demo_uuid full_server edited_db
    = Some (mkCloudSyncRunResult 0 0 0 0 0 0, FlushDone (Some EncryptedByteLimitExceeded))) by (vm_compute; reflexivity).
  assert (H2 : (r ← demo_run demo_uuid full_server edited_db; r2 ← demo_run (fun id => lit "second-" ++ id) willing_server r.2;
    Some (r2.1, a_sync_status <$> assets r2.2 !! (demo_account, lit "b")))
    = Some (mkCloudSyncRunResult 0 0 0 0 0 0, FlushDone None, Some PendingUpload)) by (vm_compute; reflexivity).
  assert (H3 : fst <$> demo_run demo_uuid willing_server edited_db = Some (mkCloudSyncRunResult 1 0 0 0 0 0, FlushDone None))
    by (vm_compute; reflexivity).
  destruct (demo_run demo_uuid full_server edited_db) as [[e1 d1]|]; [|discriminate H1]. injection H1 as ->. exists d1.
  cbn [mbind option_bind snd] in H2.
  destruct (demo_run (fun id => lit "second-" ++ id) willing_server d1) as [[e2 d2]|]; [|discriminate H2].
  injection H2 as -> Hs. exists d2. split; [done|]. split; [done|]. split; [done|].
  destruct (demo_run demo_uuid willing_server edited_db) as [[e3 d3]|]; [|discriminate H3]. injection H3 as ->. by exists d3.
Qed.

(** ** What a flush does with the waiting operations *)

Section flushed.
Context `{C : SyncCodec}.
Context (now : Z) (account : str) (keys : CommittedSyncKeyBundle) (server : CloudServer).

(** What is sent for an operation, and the answer. *)
Definition answer_to (oid : str) (o : CloudSyncOperation) : Result CloudAssetPutError str :=
  match o_action o with
  | Put => flush_put_operation server account oid o keys
  | Delete => flush_delete_operation server account oid o
  end.

(** An operation is settled by a definite answer; it goes on waiting when the answer does
    not say whether it was applied. *)
Definition answered (answer : Result CloudAssetPutError str) : CloudSyncOperationStatus :=
  match answer with
  | Ok _ => OpApplied
  | Err PutConflict => OpConflicted
  | Err (PutClient error) => if sync_operation_outcome_unknown error then OpUnknown else OpRejected
  end.

(** The same request, attempted once more and with another status. *)
Definition attempted (status : CloudSyncOperationStatus) (o o' : CloudSyncOperation) : Prop :=
  (o_cloud_account_id o', o_asset_id o', o_asset_type o', o_action o', o_expected_revision o', o_schema_version o',
   o_key_generation o', o_nonce o', o_ciphertext o', o_payload_hash o')
  = (o_cloud_account_id o, o_asset_id o, o_asset_type o, o_action o, o_expected_revision o, o_schema_version o,
   o_key_generation o, o_nonce o, o_ciphertext o, o_payload_hash o)
  /\ o_status o' = status /\ o_attempt_count o' = (o_attempt_count o + 1)%Z.

(** Two databases with the same operations but for one. *)
Definition same_but (oid : str) (d d' : SyncDb) : Prop :=
  local d' = local d /\ forall k, k <> oid -> operations d' !! k = operations d !! k.

Lemma mark_status_Ok oid status code d b d' : mark_operation_status now oid status code d = (Ok b, d') ->
  same_but oid d d' /\ operations d' !! oid = with_status now status code <$> operations d !! oid.
Proof.
  unfold mark_operation_status. destruct (operations d !! oid) as [o|] eqn:E; intros [= <- <-]; cbn.
  - split; [split; [done|]; cbn; intros k Hk; by rewrite lookup_insert_ne|]. by rewrite lookup_insert_eq.
  - by rewrite E.
Qed.

Lemma ignore_upsert_Ok id input d u d' : ignore_error (upsert_asset now account id input) d = (Ok u, d') ->
  operations d' = operations d /\ local d' = local d.
Proof.
  unfold ignore_error. intros [= _ <-]. unfold upsert_asset. repeat case_match; done.
Qed.

Lemma mark_asset_conflicted_Ok oid o d u d' : mark_asset_conflicted now account oid o d = (Ok u, d') ->
  operations d' = operations d /\ local d' = local d.
Proof.
  unfold mark_asset_conflicted. intros H. destruct (get_asset _ _ d).1 as [[v|]|]; [|by injection H as _ <-..].
  by eapply ignore_upsert_Ok.
Qed.

Lemma settle_operation_Ok oid o answer result d r d' : settle_operation now account oid o answer result d = (Ok r, d') ->
  exists d1 code, operations d1 = operations d /\ local d1 = local d /\ same_but oid d1 d'
    /\ operations d' !! oid = with_status now (answered answer) code <$> operations d1 !! oid
    /\ (r.2 = None <-> forall e, answer <> Err (PutClient e)).
Proof.
  unfold settle_operation. destruct answer as [revision|[e|]]; intros H; db_inv; subst.
  - match goal with E : mark_operation_status _ _ _ _ _ = _ |- _ => apply mark_status_Ok in E as [Hs Ho] end.
    match goal with E : (match _ with Some _ => _ | None => _ end) d = _ |- _ => rename E into Eu end.
    eexists _, _. split_and!; [| |exact Hs|exact Ho|done]; (case_match; [by apply ignore_upsert_Ok in Eu as []|by db_inv]).
  - match goal with E : (if _ then _ else _) d = (Ok ?b, ?d2) |- _ =>
      assert (exists code, mark_operation_status now oid (answered (Err (PutClient e))) code d = (Ok b, d2)) as [code Em] end.
    { cbn. destruct (sync_operation_outcome_unknown e); eauto. }
    apply mark_status_Ok in Em as [Hs Ho]. exists d, code. split_and!; try done. cbn. split; [done|]. intros Hn. by destruct (Hn e).
  - match goal with E : mark_operation_status _ _ _ _ _ = _ |- _ => apply mark_status_Ok in E as [Hs Ho] end.
    match goal with E : mark_asset_conflicted _ _ _ _ _ = _ |- _ => apply mark_asset_conflicted_Ok in E as [H1 H2] end.
    eexists _, _. split_and!; [exact H1|exact H2|exact Hs|exact Ho|done].
Qed.

Lemma flush_operations_Ok guard asked first l result d result' fin d' :
  flush_operations now account keys server guard asked first l result d = (Ok (result', FlushDone fin), d') ->
  NoDup (map fst l) -> (forall oid o, (oid, o) ∈ l -> operations d !! oid = Some o /\ is_pending (o_status o) = true) ->
  local d' = local d /\ (forall oid, oid ∉ map fst l -> operations d' !! oid = operations d !! oid)
  /\ (forall oid o, (oid, o) ∈ l -> exists o', operations d' !! oid = Some o' /\ attempted (answered (answer_to oid o)) o o')
  /\ (fin = None <-> first = None /\ forall oid o e, (oid, o) ∈ l -> answer_to oid o <> Err (PutClient e)).
Proof.
  revert asked first result d. induction l as [|[oid o] l IH]; intros asked first result d H Hnd Hin; cbn [flush_operations] in H.
  { db_inv. simplify_eq. split_and!; try done.
    - intros oid o Hx. by apply not_elem_of_nil in Hx.
    - split; [|by intros []]. intros ->. split; [done|]. intros oid o e Hx. by apply not_elem_of_nil in Hx. }
  destruct (negb (guard asked)); [done|]. db_inv. cbn zeta in H. destruct (negb (guard (S asked))); [done|]. db_inv.
  destruct (Hin oid o ltac:(left)) as [Ho Hp]. apply NoDup_cons in Hnd as [Hni Hnd].
  match goal with E : mark_operation_attempt _ _ _ = _ |- _ => unfold mark_operation_attempt in E; rewrite Ho, Hp in E; injection E as <- <- end.
  match goal with E : settle_operation _ _ _ _ _ _ _ = _ |- _ => apply settle_operation_Ok in E as (d1 & code & O1 & L1 & [L2 S2] & S3 & S4) end.
  cbn in O1, L1. rewrite O1 in S2, S3. rewrite lookup_insert_eq in S3. cbn in S3.
  fold (answer_to oid o) in S3, S4.
  apply IH in H as (Hl & Hout & Hmine & Hfin); [|done|].
  - split_and!.
    + congruence.
    + intros k [Hk1 Hk2]%not_elem_of_cons. rewrite Hout, S2, lookup_insert_ne by done. done.
    + intros k o' [Hk|Hk]%elem_of_cons; [|by apply Hmine]. injection Hk as -> ->. rewrite Hout by done. eexists.
      split; [exact S3|]. by split.
    + rewrite Hfin. destruct first as [e|].
      * split; [by intros []|by intros []].
      * rewrite S4. split.
        -- intros [Ha Hb]. split; [done|]. intros k o' e [Hk|Hk]%elem_of_cons; [injection Hk as -> ->; apply Ha|by apply Hb].
        -- intros [_ Ha]. split; [intros e; apply Ha; left|]. intros k o' e Hk. apply Ha. by right.
  - intros k o' Hk. destruct (Hin k o' ltac:(by right)) as [Hk1 Hk2]. split; [|done].
    assert (k <> oid) by (intros ->; apply Hni, list_elem_of_fmap; by exists (oid, o')). rewrite S2, lookup_insert_ne by done. done.
Qed.

Lemma list_pending_nodup d l : list_pending_operations account d = Ok l -> NoDup (map fst l).
Proof.
  unfold list_pending_operations. intros H. apply try_map_same in H as ->.
  - rewrite sort_listed_perm. eapply (NoDup_fmap_fst); [|apply NoDup_filter, NoDup_map_to_list].
    intros k x y [_ Hx%elem_of_map_to_list]%list_elem_of_filter [_ Hy%elem_of_map_to_list]%list_elem_of_filter. congruence.
  - intros a b E. unfold operation_from_row in E. bind_inv. done.
Qed.

(** C27: A flush settles every waiting operation as the server answered. When it was not
    cancelled, each operation of the account that was waiting is kept with the same
    request, one more attempt counted, and the status that the answer to exactly this
    request calls for: applied, conflicted, rejected, or still waiting when the answer
    leaves open whether it was applied. Every other operation and the local tables are
    untouched, and an error is reported exactly when some answer was an error. *)
Theorem flush_settles_every_operation guard result d result' fin d' :
  flush_pending_operations now account keys server guard result d = (Ok (result', FlushDone fin), d') ->
  local d' = local d
  /\ (forall oid o, operations d !! oid = Some o ->
      if bool_decide (o_cloud_account_id o = account) && is_pending (o_status o)
      then exists o', operations d' !! oid = Some o' /\ attempted (answered (answer_to oid o)) o o'
      else operations d' !! oid = Some o)
  /\ (fin = None <-> forall oid o e, operations d !! oid = Some o -> o_cloud_account_id o = account ->
        is_pending (o_status o) = true -> answer_to oid o <> Err (PutClient e)).
Proof.
  intros H. unfold flush_pending_operations in H. db_inv.
  match goal with E : list_pending_operations _ _ = Ok ?x |- _ => rename E into Hl; rename x into l end.
  pose proof (list_pending_nodup _ _ Hl) as Hnd. pose proof (fun oid o => list_pending_elem account d l oid o Hl) as Hel.
  apply flush_operations_Ok in H as (H1 & H2 & H3 & H4); [|done|intros oid o (Hx & _ & Hp)%Hel; done]. split; [done|]. split.
  - intros oid o Ho. destruct (bool_decide _ && _) eqn:Eb.
    + breflect. apply H3, Hel. auto.
    + rewrite H2; [done|]. intros ([k o'] & -> & (Hk & Ha & Hp)%Hel)%list_elem_of_fmap. cbn in Ho. simplify_eq.
      by rewrite bool_decide_true, Hp in Eb.
  - rewrite H4. split.
    + intros [_ Ha] oid o e Ho Hac Hp. apply Ha, Hel. auto.
    + intros Ha. split; [done|]. intros oid o e (Ho & Hac & Hp)%Hel. by apply Ha.
Qed.
End flushed.

Lemma flush_settles_every_operation_witness :
  exists result d' o oid, flush_pending_operations 7 demo_account demo_keys full_server (fun _ => true) (mkCloudSyncRunResult 0 0 0 0 0 0)
      (demo_reconcile demo_uuid edited_db).2 = (Ok (result, FlushDone (Some EncryptedByteLimitExceeded)), d')
    /\ operations d' !! oid = Some o /\ o_status o = OpRejected.
Proof.
  set (d := (demo_reconcile demo_uuid edited_db).2).
  assert (Hrun : match flush_pending_operations 7 demo_account demo_keys full_server (fun _ => true) (mkCloudSyncRunResult 0 0 0 0 0 0) d with
    | (Ok (_, FlushDone e), _) => e | _ => None end = Some EncryptedByteLimitExceeded) by (vm_compute; reflexivity).
  assert (Hop : (fun o => (o_cloud_account_id o, o_status o, answered (answer_to demo_account demo_keys full_server (demo_uuid (lit "b")) o)))
    <$> operations d !! demo_uuid (lit "b") = Some (demo_account, OpPending, OpRejected)) by (vm_compute; reflexivity).
  destruct (flush_pending_operations 7 demo_account demo_keys full_server (fun _ => true) (mkCloudSyncRunResult 0 0 0 0 0 0) d)
    as [[[result [e|]]|] d'] eqn:Ef; [|discriminate Hrun..]. subst e.
  destruct (flush_settles_every_operation 7 demo_account demo_keys full_server (fun _ => true) (mkCloudSyncRunResult 0 0 0 0 0 0) d result
    (Some EncryptedByteLimitExceeded) d' Ef) as (_ & Hall & _).
  destruct (operations d !! demo_uuid (lit "b")) as [o|] eqn:Eo; [|discriminate Hop]. injection Hop as Hacc Hst Hans.
  specialize (Hall _ _ Eo). rewrite Hacc, Hst in Hall. rewrite bool_decide_true in Hall by reflexivity.
  destruct Hall as (o' & Ho' & _ & Hs & _). exists result, d', o', (demo_uuid (lit "b")). split; [reflexivity|].
  split; [exact Ho'|]. rewrite Hs. exact Hans.
Defined.
