(* ===== verification/SyncResolve.v ===== *)
(** * Resolving conflicts and completing local files
    ([src-tauri/src/cloud/sync_management.rs])

    A conflict keeps the version of this device and the version of the cloud, both
    encrypted, until the user decides: keep the local version (it is encrypted again for
    the revision after the cloud's and waits to be sent), keep the cloud's (it is written
    to the local tables) or, for a connection, keep both (the local version becomes a new
    connection).  The theorems say what each decision leaves behind, and that the path of
    a local file, once it is filled in, does not make the connection differ from what was
    synchronised.

    The statements of one decision run outside a transaction: an error leaves what was
    written before it. *)

From stdpp Require Import base gmap list strings fin_maps.
From Stdlib Require Import ZArith Lia Sorting.
From S2P Require Import Prelude Digits Types Connections SyncProjection SyncPull SyncStore SyncApply SyncDemo SyncSafety SyncPages SyncRun.

(** ** Data *)

Record CloudLocalDependency := mkCloudLocalDependency {
  ld_asset_id : str;
  ld_asset_name : str;
  ld_dependency : LocalDependencyKind;
  ld_current_path : option str;
}.

Record CloudSyncConflictView := mkCloudSyncConflictView {
  cv_id : str;
  cv_asset_id : str;
  cv_asset_type : str;
  cv_local_action : CloudSyncOperationAction;
  cv_remote_tombstone : bool;
  cv_local_revision : option Z;
  cv_remote_revision : Z;
  cv_local_name : option str;
  cv_remote_name : option str;
  cv_local_payload_hash : str;
  cv_remote_payload_hash : str;
  cv_detected_at : Z;
}.

Inductive CloudSyncConflictDecision := KeepLocal | KeepCloud | KeepBoth.

(** A conflict as the queries of this module read it: its key without the account and the
    status, and its row. *)
Record Conflict := mkConflict {
  c_asset_id : str;
  c_remote_revision : Z;
  c_row : ConflictRow;
}.

(** [u64::try_from(v).ok()] and [u16::try_from(v).ok()] of a column. *)
Definition u64_ok (v : Z) : option Z := if (0 <=? v)%Z then Some v else None.
Definition u16_ok (v : Z) : option Z := if (0 <=? v)%Z && (v <=? 65535)%Z then Some v else None.

(** [WHERE cloud_account_id = ?1 AND status = ?2] *)
Definition conflicts_of (account : str) (status : ConflictStatus) (d : SyncDb) : list Conflict :=
  omap (fun kv : conflict_key * ConflictRow =>
    if bool_decide (kv.1.1.1.1 = account) && bool_decide (kv.1.2 = status)
    then Some (mkConflict kv.1.1.1.2 kv.1.1.2 kv.2) else None) (map_to_list (conflicts d)).

(** [... AND id = ?2]; the id is the primary key. *)
Definition find_conflict (account conflict_id : str) (d : SyncDb) : option Conflict :=
  List.find (fun c => str_eqb (k_id (c_row c)) conflict_id) (conflicts_of account CfPending d).

(** The messages and the suffix that are not ASCII, by their code points. *)
Definition local_version_suffix : str := [65288; 26412; 26426; 29256; 26412; 65289]%Z.
Definition folder_has_content : str :=
  [25991; 20214; 22841; 20173; 21253; 21547; 20869; 23481; 65292; 26080; 27861; 25509; 21463; 21024; 38500]%Z.
Definition cannot_decrypt_candidate : str := [26080; 27861; 35299; 23494; 20914; 31361; 20505; 36873]%Z.
Definition cannot_decrypt_local : str := [26080; 27861; 35299; 23494; 26412; 26426; 20505; 36873]%Z.

Section paths.
Context {J : JsonNumber}.

(** Where the path of a dependency is. *)
Definition dependency_keys (payload : Value) (dependency : LocalDependencyKind) : list string :=
  match dependency with
  | DatabaseFile =>
    match value_get "localConfig" payload with Some _ => ["localConfig"; "dbFilePath"] | None => ["dbFilePath"] end
  | SshPrivateKey => ["sshTunnel"; "privateKeyPath"]
  end%string.

Fixpoint get_path (keys : list string) (v : Value) : option Value :=
  match keys with [] => Some v | key :: keys => value_get key v ≫= get_path keys end.

Definition dependency_path (payload : Value) (dependency : LocalDependencyKind) : option str :=
  get_path (dependency_keys payload dependency) payload ≫= as_text.

(** Writing below the keys: all but the last are followed, the last is inserted. *)
Fixpoint set_path (keys : list string) (path : str) (v : Value) : option Value :=
  match keys with
  | [] => None
  | [key] => match v with VObject fields => Some (VObject (map_insert (lit key) (VString path) fields)) | _ => None end
  | key :: keys =>
    match v with
    | VObject fields =>
      inner ← map_get (lit key) fields;
      inner ← set_path keys path inner;
      Some (VObject (map_insert (lit key) inner fields))
    | _ => None
    end
  end.

Definition set_dependency_path (payload : Value) (dependency : LocalDependencyKind) (local_path : str) : AppResult Value :=
  ok_or (EValidation (lit "Local path field is unavailable")) (set_path (dependency_keys payload dependency) local_path payload).

(** [.is_some_and(|path| !path.trim().is_empty())] *)
Definition path_is_set (payload : Value) (dependency : LocalDependencyKind) : bool :=
  match dependency_path payload dependency with Some path => negb (bool_decide (trim path = [])) | None => false end.
End paths.

Section resolve.
Context `{C : SyncCodec}.
(** [serde_json::from_slice] to a value, the JSON text of the tuple a repair is named
    after, and [Uuid::from_bytes]; the clock, UUIDs and nonces as in [SyncApply]. *)
Context (value_from_slice : list Z -> option Value) (repair_to_vec : str -> str -> Z -> str -> list Z) (uuid_of_bytes : list Z -> str).
Context (now : Z) (now_text : str) (new_uuid : str -> str) (random_nonce : str -> option (list Z)).

(** ** Listing *)

(** The two versions of a conflict as what [decrypt_connection_asset] is called with. *)
Definition decrypt_at (account : str) (c : Conflict) (nonce ciphertext : str) (revision schema generation : Z)
    (keys : CommittedSyncKeyBundle) : Result SyncCryptoError (list Z) :=
  decrypt_connection_asset account (c_asset_id c) (asset_type_as_str (k_asset_type (c_row c))) revision schema generation
    (mkCloudConnectionAssetEncryption CONNECTION_ASSET_SUITE nonce ciphertext) (kb_amk keys).

Definition ok_of {E A} (r : Result E A) : option A := match r with Ok a => Some a | Err _ => None end.

Definition decrypt_name (account : str) (c : Conflict) (is_local : bool) (keys : CommittedSyncKeyBundle) : option str :=
  let row := c_row c in
  candidate ←
    (if is_local then
       revision ← k_local_revision row;
       schema ← k_local_schema_version row;
       generation ← k_local_key_generation row;
       Some (k_local_ciphertext row, k_local_nonce row, revision, schema, generation)
     else if k_remote_tombstone row then None
     else Some (k_remote_ciphertext row, k_remote_nonce row, c_remote_revision c, k_remote_schema_version row,
                k_remote_key_generation row));
  let '(ciphertext, nonce, revision, schema, generation) := candidate in
  revision ← u64_ok revision;
  schema ← u16_ok schema;
  generation ← u64_ok generation;
  bytes ← ok_of (decrypt_at account c nonce ciphertext revision schema generation keys);
  value ← value_from_slice bytes;
  value_get "name" value ≫= as_text.

Definition conflict_view (account : str) (keys : CommittedSyncKeyBundle) (c : Conflict) : AppResult CloudSyncConflictView :=
  let row := c_row c in
  remote_revision ← ok_or (EValidation (lit "Invalid conflict revision")) (u64_ok (c_remote_revision c));
  Ok (mkCloudSyncConflictView (k_id row) (c_asset_id c) (asset_type_as_str (k_asset_type row)) (k_local_action row)
        (k_remote_tombstone row) (k_local_revision row ≫= u64_ok) remote_revision (decrypt_name account c true keys)
        (decrypt_name account c false keys) (k_local_payload_hash row) (k_remote_payload_hash row) (k_detected_at row)).

(** [ORDER BY updated_at ASC, id ASC] *)
Definition list_conflicts (account : str) (keys : CommittedSyncKeyBundle) (d : SyncDb) : AppResult (list CloudSyncConflictView) :=
  try_map (conflict_view account keys)
    (sort_listed (fun c => (k_updated_at (c_row c), k_id (c_row c))) (conflicts_of account CfPending d)).

(** ** Marking *)

(** The row with its new status and time; the UNIQUE constraint of the table refuses a
    second resolved row of the same asset and revision. *)
Definition resolve_row (account : str) (c : Conflict) : DB unit := fun d =>
  let key := (account, c_asset_id c, c_remote_revision c) in
  let old := c_row c in
  if bool_decide (is_Some (conflicts d !! (key, CfResolved))) then (Err ESqlx, d)
  else
    let row := mkConflictRow (k_id old) (k_asset_type old) (k_base_revision old) (k_local_ciphertext old) (k_remote_ciphertext old)
      (k_local_nonce old) (k_remote_nonce old) (k_local_payload_hash old) (k_remote_payload_hash old) (k_local_action old)
      (k_local_revision old) (k_local_schema_version old) (k_local_key_generation old) (k_remote_schema_version old)
      (k_remote_key_generation old) (k_remote_tombstone old) (k_pending_operation_id old) (k_detected_at old) now in
    (Ok tt, set_conflicts (<[(key, CfResolved) := row]> (delete (key, CfPending) (conflicts d))) d).

(** The UPDATE of the operations keeps [updated_at]. *)
Definition reject_conflicted (account asset_id : str) (o : CloudSyncOperation) : CloudSyncOperation :=
  if bool_decide (o_cloud_account_id o = account) && bool_decide (o_status o = OpConflicted) && bool_decide (o_asset_id o = asset_id)
  then mkCloudSyncOperation (o_cloud_account_id o) (o_asset_id o) (o_asset_type o) (o_action o) (o_expected_revision o)
         (o_schema_version o) (o_key_generation o) (o_nonce o) (o_ciphertext o) (o_payload_hash o) OpRejected
         (o_attempt_count o) (Some (lit "conflict_resolved")) (o_last_attempt_at o) (o_created_at o) (o_updated_at o)
  else o.

(** By its id; a decision has just read the conflict as pending. *)
Definition mark_conflict_resolved (account conflict_id : str) : DB unit :=
  d ← st_get;
  match find_conflict account conflict_id d with
  | None => mret tt
  | Some c =>
    _ ← st_modify (fun d => set_operations (reject_conflicted account (c_asset_id c) <$> operations d) d);
    resolve_row account c
  end.

(** The status, hash and tombstone of an asset whose cloud version was accepted. *)
Definition resolved_state (c : Conflict) (d : SyncDb) : AppResult (CloudSyncAssetStatus * option str) :=
  let row := c_row c in
  if k_remote_tombstone row then Ok (RemoteDeleted, None)
  else match k_asset_type row with
  | Connection =>
    record ← (get_connection json_from_str (c_asset_id c) (local d)).1;
    record ← ok_or (ENotFound (lit "Resolved connection missing")) record;
    let missing_path := existsb (fun kind => negb (path_is_set (r_payload record) kind))
                          (collect_local_dependencies (r_driver record) (r_payload record)) in
    Ok (if missing_path then NeedsLocalFile else Synced,
        Some (base64url_encode (connection_projection number_of_i64 json_to_string sha256 record).2))
  | ConnectionFolder =>
    record ← ok_or (ENotFound (lit "Resolved folder missing")) (folder_from_row (c_asset_id c) <$> folders (local d) !! c_asset_id c);
    Ok (Synced, Some (base64url_encode (folder_projection number_of_i64 json_to_string sha256 record).2))
  end.

Definition mark_resolved (account : str) (c : Conflict) : DB unit :=
  d ← st_get;
  state ← st_lift (resolved_state c d);
  _ ← st_modify (fun d => set_assets (alter (fun a =>
        mkCloudSyncAssetMetadata (a_asset_type a) (a_local_entity_id a) (Some (c_remote_revision c)) (Some (c_remote_revision c))
          state.1 None None (a_last_attempt_at a) None (k_remote_tombstone (c_row c)) (a_conflict_of a) state.2 (a_created_at a) now)
        (account, c_asset_id c) (assets d)) d);
  mark_conflict_resolved account (k_id (c_row c)).

(** ** The local version *)

(** The action and the asset type are among those the table admits, so the source's cases
    for others do not arise. *)
Definition prepare_local_candidate (account : str) (c : Conflict) (expected_revision : Z) (keys : CommittedSyncKeyBundle)
    : AppResult EnqueueCloudSyncOperation :=
  let row := c_row c in
  if negb (str_eqb (kb_cloud_account_id keys) account) then Err (EValidation (lit "Conflict account mismatch"))
  else
    expected ← ok_or (EValidation (lit "Invalid conflict remote revision"))
                 (if (0 <? expected_revision)%Z then Some expected_revision else None);
    match k_local_action row with
    | Delete =>
      match prepare_connection_delete new_uuid account (c_asset_id c) (k_asset_type row) expected with
      | Ok o => Ok o | Err _ => Err (EValidation (lit "Failed to prepare conflict deletion"))
      end
    | Put =>
      revision ← ok_or (EValidation (lit "Invalid local candidate revision")) (k_local_revision row ≫= u64_ok);
      schema ← ok_or (EValidation (lit "Invalid local candidate schema")) (k_local_schema_version row ≫= u16_ok);
      generation ← ok_or (EValidation (lit "Invalid local candidate generation")) (k_local_key_generation row ≫= u64_ok);
      if negb (generation =? kb_key_generation keys)%Z then Err (EValidation (lit "Conflict key generation mismatch"))
      else
        plaintext ← match decrypt_at account c (k_local_nonce row) (k_local_ciphertext row) revision schema generation keys with
                    | Ok p => Ok p | Err _ => Err (EValidation (lit "Cannot decrypt local conflict candidate"))
                    end;
        match prepare_connection_upload new_uuid random_nonce account (c_asset_id c) (k_asset_type row) (Some expected) schema
                generation plaintext (kb_amk keys) with
        | Ok prepared => Ok prepared.1
        | Err _ => Err (EValidation (lit "Failed to reencrypt local conflict candidate"))
        end
    end.

Definition enqueue_local_candidate (account : str) (c : Conflict) (keys : CommittedSyncKeyBundle) : DB unit :=
  operation ← st_lift (prepare_local_candidate account c (c_remote_revision c) keys);
  _ ← enqueue_operation now operation;
  st_modify (fun d => set_assets (alter (fun a =>
    mkCloudSyncAssetMetadata (a_asset_type a) (a_local_entity_id a) (a_remote_revision a) (a_base_revision a) PendingUpload
      (a_last_error_code a) (a_last_error_at a) (a_last_attempt_at a) (Some (e_operation_id operation)) (a_tombstone a)
      (a_conflict_of a) (a_local_payload_hash a) (a_created_at a) now)
    (account, c_asset_id c) (assets d)) d).

(** A column with the error of the source when it is missing or out of range. *)
Definition column (missing invalid : string) (try_from : Z -> option Z) (v : option Z) : AppResult Z :=
  v ← ok_or (EValidation (lit missing)) v;
  ok_or (EValidation (lit invalid)) (try_from v).

Definition connection_input (projection : ConnectionSyncProjection) (payload : Value) (driver : ConnectionDriver) : ConnectionInput :=
  mkConnectionInput (cp_id projection) (cp_name projection) driver (cp_environment projection) (cp_color projection)
    (cp_note projection) (cp_tag_label projection) (cp_tag_color projection) payload (cp_folder_id projection) (cp_sort_order projection).

Definition duplicate_local_candidate (account : str) (c : Conflict) (keys : CommittedSyncKeyBundle) : DB unit :=
  let row := c_row c in
  revision ← st_lift (column "Local revision missing" "Invalid revision" u64_ok (k_local_revision row));
  schema ← st_lift (column "Local schema missing" "Invalid schema" u16_ok (k_local_schema_version row));
  generation ← st_lift (column "Local key generation missing" "Invalid key generation" u64_ok (k_local_key_generation row));
  bytes ← st_lift (match decrypt_connection_asset account (c_asset_id c) (lit "connection") revision schema generation
                           (mkCloudConnectionAssetEncryption CONNECTION_ASSET_SUITE (k_local_nonce row) (k_local_ciphertext row))
                           (kb_amk keys) with
                   | Ok bytes => Ok bytes | Err _ => Err (EValidation cannot_decrypt_local)
                   end);
  projection ← st_lift (ok_or ESerdeJson (connection_from_slice bytes));
  let new_id := new_uuid (c_asset_id c) in
  current ← on_local (get_connection json_from_str (c_asset_id c));
  let payload := merge_local_paths (cp_payload projection) (r_payload <$> current) (cp_local_dependencies projection) in
  driver ← st_lift (driver_from_str (cp_driver projection));
  _ ← on_local (create_connection json_from_str json_to_string now
        (mkConnectionInput new_id (cp_name projection ++ local_version_suffix) driver (cp_environment projection) (cp_color projection)
           (cp_note projection) (cp_tag_label projection) (cp_tag_color projection) payload (cp_folder_id projection) None));
  _ ← upsert_asset now account new_id
        (mkUpsertCloudSyncAssetMetadata Connection new_id None None LocalOnly None None None None false (Some (c_asset_id c)) None);
  mret tt.

(** ** The cloud version *)

(** Writing a connection: an update when it is there, otherwise a new one. *)
Definition apply_connection (projection : ConnectionSyncProjection) : DB unit :=
  current ← on_local (get_connection json_from_str (cp_id projection));
  let payload := merge_local_paths (cp_payload projection) (r_payload <$> current) (cp_local_dependencies projection) in
  driver ← st_lift (driver_from_str (cp_driver projection));
  let input := connection_input projection payload driver in
  _ ← on_local (match current with
                | Some _ => update_connection json_from_str json_to_string now input
                | None => create_connection json_from_str json_to_string now input
                end);
  mret tt.

(** [None]: updating the folder does not return (its search for a cycle does not end). *)
Definition apply_folder (projection : ConnectionFolderSyncProjection) (d : SyncDb) : option (AppResult unit * SyncDb) :=
  let input := mkConnectionFolderInput (fp_id projection) (fp_name projection) (fp_parent_id projection) (fp_sort_order projection) in
  match folders (local d) !! fp_id projection with
  | Some _ =>
    match update_folder now_text input (local d) with
    | None => None
    | Some (Ok _, t) => Some (Ok tt, set_local t d)
    | Some (Err e, t) => Some (Err e, set_local t d)
    end
  | None => Some ((_ ← on_local (create_folder now_text input); mret tt) d)
  end.

(** A deletion; a folder that still has content is refused. *)
Definition apply_tombstone (c : Conflict) : DB unit :=
  match k_asset_type (c_row c) with
  | Connection => _ ← on_local (delete_connection_row (c_asset_id c)); mret tt
  | ConnectionFolder =>
    d ← st_get;
    if (0 <? child_connections (local d) (c_asset_id c) + child_folders (local d) (c_asset_id c))%nat
    then st_lift (Err (EValidation folder_has_content))
    else _ ← on_local (delete_folder_row (c_asset_id c)); mret tt
  end.

(** The plaintext of the cloud version; [apply_candidate] is only called for it. *)
Definition remote_plaintext (account : str) (c : Conflict) (keys : CommittedSyncKeyBundle) : AppResult (list Z) :=
  let row := c_row c in
  revision ← ok_or (EValidation (lit "Invalid revision")) (u64_ok (c_remote_revision c));
  schema ← ok_or (EValidation (lit "Invalid schema")) (u16_ok (k_remote_schema_version row));
  generation ← ok_or (EValidation (lit "Invalid key generation")) (u64_ok (k_remote_key_generation row));
  match decrypt_at account c (k_remote_nonce row) (k_remote_ciphertext row) revision schema generation keys with
  | Ok bytes => Ok bytes
  | Err _ => Err (EValidation cannot_decrypt_candidate)
  end.

(** [apply_candidate(.., local = false, ..)].  The source parses a connection to a value
    and that to a projection, which is parsing it to a projection. *)
Definition apply_candidate (account : str) (c : Conflict) (keys : CommittedSyncKeyBundle) (d : SyncDb) : option (AppResult unit * SyncDb) :=
  if k_remote_tombstone (c_row c) then Some (apply_tombstone c d)
  else match remote_plaintext account c keys with
  | Err e => Some (Err e, d)
  | Ok bytes =>
    match k_asset_type (c_row c) with
    | Connection => Some ((projection ← st_lift (ok_or ESerdeJson (connection_from_slice bytes)); apply_connection projection) d)
    | ConnectionFolder =>
      match folder_from_slice bytes with
      | None => Some (Err ESerdeJson, d)
      | Some projection => apply_folder projection d
      end
    end
  end.

(** ** A decision *)

(** One after the other; an error stops, and keeps what was written. *)
Definition after {A} (m : option (AppResult A * SyncDb)) (k : DB unit) : option (AppResult unit * SyncDb) :=
  match m with
  | None => None
  | Some (Err e, d) => Some (Err e, d)
  | Some (Ok _, d) => Some (k d)
  end.

Definition decide_conflict (account : str) (c : Conflict) (decision : CloudSyncConflictDecision) (keys : CommittedSyncKeyBundle) (d : SyncDb)
    : option (AppResult unit * SyncDb) :=
  match decision with
  | KeepCloud => after (apply_candidate account c keys d) (mark_resolved account c)
  | KeepLocal => Some ((_ ← enqueue_local_candidate account c keys; mark_conflict_resolved account (k_id (c_row c))) d)
  | KeepBoth =>
    match duplicate_local_candidate account c keys d with
    | (Err e, d) => Some (Err e, d)
    | (Ok _, d) => after (apply_candidate account c keys d) (mark_resolved account c)
    end
  end.

Definition resolve_conflict (account conflict_id : str) (decision : CloudSyncConflictDecision) (keys : CommittedSyncKeyBundle) (d : SyncDb)
    : option (AppResult (list CloudSyncConflictView) * SyncDb) :=
  match find_conflict account conflict_id d with
  | None => Some (Err (ENotFound (lit "Cloud sync conflict was not found")), d)
  | Some c =>
    match decision, k_asset_type (c_row c) with
    | KeepBoth, ConnectionFolder => Some (Err (EValidation (lit "Folder conflicts cannot keep both versions")), d)
    | _, _ =>
      match decide_conflict account c decision keys d with
      | None => None
      | Some (Err e, d) => Some (Err e, d)
      | Some (Ok _, d) => Some (list_conflicts account keys d, d)
      end
    end
  end.

(** ** Repairing what an older version uploaded *)

(** [.parse::<i64>()] of a revision; a negative one is neither used nor equal to one that
    is. *)
Definition parse_i64 (s : str) : option Z := parse_uint I64_MAX s.

(** The [EXISTS] of the query: this device sent that very ciphertext. *)
Definition sent_candidate (account : str) (c : Conflict) (o : CloudSyncOperation) : bool :=
  let row := c_row c in
  bool_decide (o_cloud_account_id o = account) && bool_decide (o_asset_id o = c_asset_id c)
  && bool_decide (o_asset_type o = k_asset_type row) && bool_decide (o_action o = Put)
  && match o_status o with OpApplied | OpUnknown => true | _ => false end
  && bool_decide (o_expected_revision o = Some (c_remote_revision c)) && bool_decide (o_nonce o = Some (k_local_nonce row))
  && bool_decide (o_ciphertext o = Some (k_local_ciphertext row)) && bool_decide (o_payload_hash o = Some (k_local_payload_hash row))
  && bool_decide (is_Some (k_local_schema_version row)) && bool_decide (o_schema_version o = k_local_schema_version row)
  && bool_decide (is_Some (k_local_key_generation row)) && bool_decide (o_key_generation o = k_local_key_generation row).

Definition repairs (account : str) (asset : CloudConnectionAssetProjection) (encryption : CloudConnectionAssetEncryption) (revision : Z)
    (d : SyncDb) (c : Conflict) : bool :=
  let row := c_row c in
  bool_decide (c_asset_id c = ra_id asset) && bool_decide (asset_type_as_str (k_asset_type row) = ra_asset_type asset)
  && bool_decide (k_local_action row = Put) && bool_decide (k_local_ciphertext row = en_ciphertext encryption)
  && bool_decide (k_local_nonce row = en_nonce encryption) && (c_remote_revision c =? revision - 1)%Z
  && match k_local_revision row with Some r => negb (r =? revision)%Z | None => false end
  && bool_decide (k_local_schema_version row = Some (ra_schema_version asset))
  && bool_decide (k_local_key_generation row = Some (if (ra_key_generation asset <=? I64_MAX)%Z then ra_key_generation asset else -1)%Z)
  && existsb (fun kv => sent_candidate account c kv.2) (map_to_list (operations d)).

(** [LIMIT 1] without an order: the rows are tried in the order of the table, [choose]
    being that order. *)
Definition prepare_legacy_conflict_repair (choose : list Conflict -> list Conflict) (account : str)
    (asset : CloudConnectionAssetProjection) (keys : CommittedSyncKeyBundle) (d : SyncDb) : AppResult (option EnqueueCloudSyncOperation) :=
  if ra_tombstone asset || negb (str_eqb (ra_updated_by_device_id asset) (kb_device_id keys))
     || negb (str_eqb account (kb_cloud_account_id keys)) then Ok None
  else match ra_encryption asset with
  | None => Ok None
  | Some encryption =>
    if negb (str_eqb (en_suite encryption) CONNECTION_ASSET_SUITE) then Ok None
    else
      revision ← ok_or (EValidation (lit "Invalid legacy repair revision"))
                   (v ← parse_i64 (ra_revision asset); if (1 <? v)%Z then Some v else None);
      if negb (bool_decide ((ra_parent_revision asset ≫= parse_i64) = Some (revision - 1)%Z)) then Ok None
      else match List.find (repairs account asset encryption revision d) (choose (conflicts_of account CfResolved d)) with
      | None => Ok None
      | Some c =>
        prepared ← prepare_local_candidate account c revision keys;
        if negb (bool_decide (e_payload_hash prepared = Some (k_local_payload_hash (c_row c))))
        then Err (EValidation (lit "Legacy conflict candidate hash mismatch"))
        else
          let operation_id := uuid_of_bytes (take 16 (sha256 (repair_to_vec account (ra_id asset) revision (k_id (c_row c))))) in
          let with_text nonce ciphertext := mkEnqueueCloudSyncOperation operation_id (e_cloud_account_id prepared) (e_asset_id prepared)
            (e_asset_type prepared) (e_action prepared) (e_expected_revision prepared) (e_schema_version prepared)
            (e_key_generation prepared) nonce ciphertext (e_payload_hash prepared) in
          existing ← (get_operation operation_id d).1;
          match existing with
          | None => Ok (Some (with_text (e_nonce prepared) (e_ciphertext prepared)))
          | Some existing =>
            if negb (bool_decide (o_expected_revision existing = Some revision))
               || negb (bool_decide (o_payload_hash existing = e_payload_hash prepared))
               || negb (bool_decide (o_cloud_account_id existing = account)) || negb (bool_decide (o_asset_id existing = ra_id asset))
            then Err (EValidation (lit "Legacy repair operation mismatch"))
            else Ok (Some (with_text (o_nonce existing) (o_ciphertext existing)))
          end
      end
  end.

(** ** Local files *)

Definition missing_of (record : StoredConnectionRecord) : list CloudLocalDependency :=
  omap (fun dependency =>
    if path_is_set (r_payload record) dependency then None
    else Some (mkCloudLocalDependency (r_id record) (r_name record) dependency None))
    (collect_local_dependencies (r_driver record) (r_payload record)).

(** The loop over the assets that wait for a file. *)
Fixpoint missing_files (assets : list (str * CloudSyncAssetMetadata)) (d : SyncDb) : AppResult (list CloudLocalDependency) :=
  match assets with
  | [] => Ok []
  | (_, asset) :: assets =>
    match a_asset_type asset with
    | ConnectionFolder => missing_files assets d
    | Connection =>
      record ← (get_connection json_from_str (a_local_entity_id asset) (local d)).1;
      rest ← missing_files assets d;
      Ok (match record with Some record => missing_of record ++ rest | None => rest end)
    end
  end.

(** [list_assets_by_status] *)
Definition list_assets_by_status (account : str) (status : CloudSyncAssetStatus) (d : SyncDb)
    : AppResult (list (str * CloudSyncAssetMetadata)) :=
  try_map (fun e => row ← asset_from_row e.2; Ok (e.1, row))
    (sort_listed (fun e => (a_updated_at e.2, e.1))
      (omap (fun kv : (str * str) * CloudSyncAssetMetadata =>
         if bool_decide (kv.1.1 = account) && bool_decide (a_sync_status kv.2 = status) then Some (kv.1.2, kv.2) else None)
         (map_to_list (assets d)))).

Definition list_local_dependencies (account : str) (d : SyncDb) : AppResult (list CloudLocalDependency) :=
  assets ← list_assets_by_status account NeedsLocalFile d;
  missing_files assets d.

(** [char::is_control] *)
Definition is_control (c : Z) : bool := (c <? 32)%Z || ((127 <=? c)%Z && (c <=? 159)%Z).

Definition complete_local_dependency (account asset_id : str) (dependency : LocalDependencyKind) (local_path : str)
    : DB (list CloudLocalDependency) :=
  let local_path := trim local_path in
  if bool_decide (local_path = []) || (4096 <? length local_path)%nat || existsb is_control local_path
  then st_lift (Err (EValidation (lit "Local path cannot be empty or contain control characters")))
  else
    asset ← get_asset account asset_id;
    asset ← st_lift (ok_or (ENotFound (lit "Cloud sync asset was not found")) asset);
    if negb (bool_decide (a_asset_type asset = Connection))
    then st_lift (Err (EValidation (lit "Only connection local paths can be completed")))
    else
      record ← on_local (get_connection json_from_str (a_local_entity_id asset));
      record ← st_lift (ok_or (ENotFound (lit "Local connection was not found")) record);
      let required := collect_local_dependencies (r_driver record) (r_payload record) in
      if negb (bool_decide (dependency ∈ required))
      then st_lift (Err (EValidation (lit "This connection does not declare that local dependency")))
      else
        payload ← st_lift (set_dependency_path (r_payload record) dependency local_path);
        _ ← on_local (update_connection json_from_str json_to_string now
              (mkConnectionInput (r_id record) (r_name record) (r_driver record) (r_environment record) (r_color record) (r_note record)
                 (r_tag_label record) (r_tag_color record) payload (r_folder_id record) (r_sort_order record)));
        updated ← on_local (get_connection json_from_str (r_id record));
        updated ← st_lift (ok_or (ENotFound (lit "Updated local connection was not found")) updated);
        _ ← st_modify (fun d =>
              if forallb (path_is_set (r_payload updated)) required
              then set_assets (alter (fun a =>
                     if bool_decide (a_sync_status a = NeedsLocalFile)
                     then mkCloudSyncAssetMetadata (a_asset_type a) (a_local_entity_id a) (a_remote_revision a) (a_base_revision a) Synced
                            (a_last_error_code a) (a_last_error_at a) (a_last_attempt_at a) (a_pending_operation_id a) (a_tombstone a)
                            (a_conflict_of a) (a_local_payload_hash a) (a_created_at a) now
                     else a) (account, asset_id) (assets d)) d
              else d);
        d ← st_get;
        st_lift (list_local_dependencies account d).
End resolve.

(** ** Filling in a path is not an edit *)

Section files.
Context {J : JsonNumber}.
Implicit Types (fields : list (str * Value)) (v w : Value).

(** Replacing the value of a key by one that is projected to the same. *)
Lemma sanitize_replace k v w fields : sorted_keys fields -> map_get k fields = Some w -> sanitize_payload v = sanitize_payload w ->
  flat_map (fun e => if is_path_key e.1 then [] else [(e.1, sanitize_payload e.2)]) (map_insert k v fields)
  = flat_map (fun e => if is_path_key e.1 then [] else [(e.1, sanitize_payload e.2)]) fields.
Proof.
  unfold sorted_keys. intros Hs Hk Hv. induction fields as [|[k' v'] fields IH]; simpl in *; [done|].
  apply StronglySorted_inv in Hs as [Hs Hlt]. unfold str_eqb in Hk.
  destruct (str_compare k k') eqn:E; simpl.
  - apply str_compare_eq in E as <-. rewrite bool_decide_true in Hk by done. injection Hk as ->. by rewrite Hv.
  - rewrite bool_decide_false in Hk by (intros ->; by rewrite str_compare_refl in E).
    apply map_get_some in Hk. rewrite Forall_forall in Hlt. specialize (Hlt k). unfold key_lt in Hlt.
    rewrite (str_compare_antisym k k'), E in Hlt. cbn in Hlt. by discriminate Hlt; apply (list_elem_of_fmap_2 fst _ _ Hk).
  - rewrite bool_decide_false in Hk by (intros ->; by rewrite str_compare_refl in E). by rewrite IH.
Qed.

(** The last key is one of the two that are never projected. *)
Definition ends_in_path (keys : list string) : Prop := exists key, last keys = Some key /\ is_path_key (lit key) = true.

Lemma dependency_keys_end payload dependency : ends_in_path (dependency_keys payload dependency).
Proof.
  unfold dependency_keys. destruct dependency; [destruct (value_get _ payload)|]; eexists; (split; [reflexivity|by vm_compute]).
Qed.

Lemma set_path_ok keys path v w : ends_in_path keys -> value_ok v -> set_path keys path v = Some w ->
  value_ok w /\ sanitize_payload w = sanitize_payload v /\ get_path keys w = Some (VString path).
Proof.
  revert v w. induction keys as [|key [|key' keys] IH]; intros v w Hk Hv H; [by destruct Hk as (? & ? & _)| |].
  - destruct Hk as (k & [= <-] & Hk). cbn in H. destruct v as [| | | | |fields]; try done. injection H as <-.
    pose proof Hv as [Hs Hf]%value_ok_object. assert (Ho : value_ok (VObject (map_insert (lit key) (VString path) fields))) by (by apply map_insert_ok).
    split; [done|]. split; [|cbn [get_path value_get]; by rewrite map_get_insert].
    apply value_ok_object in Ho as [Ho _]. rewrite !sanitize_object by done. f_equal. by apply sanitize_insert_path.
  - cbn [set_path] in H. destruct v as [| | | | |fields]; try done.
    destruct (map_get (lit key) fields) as [inner|] eqn:Ei; [|done]. cbn [mbind option_bind] in H.
    change (match set_path (key' :: keys) path inner with Some inner => Some (VObject (map_insert (lit key) inner fields)) | None => None end = Some w) in H.
    destruct (set_path (key' :: keys) path inner) as [inner'|] eqn:Es; [|done]. cbn [mbind option_bind] in H. injection H as <-.
    pose proof Hv as [Hs Hf]%value_ok_object.
    destruct (IH inner inner') as (Hi1 & Hi2 & Hi3); [by destruct Hk as (k & Hk & ?); exists k|by eapply map_get_ok|done|].
    assert (Ho : value_ok (VObject (map_insert (lit key) inner' fields))) by (by apply map_insert_ok).
    split; [done|]. split.
    + apply value_ok_object in Ho as [Ho _]. rewrite !sanitize_object by done. f_equal. by eapply sanitize_replace.
    + cbn [get_path value_get]. by rewrite map_get_insert.
Qed.

(** Payloads that are projected to the same. *)
Lemma same_projection_dependencies driver v w : value_ok v -> value_ok w -> sanitize_payload v = sanitize_payload w ->
  collect_local_dependencies driver v = collect_local_dependencies driver w.
Proof.
  intros Hv Hw H. rewrite <-(same_reading_dependencies driver _ _ (sanitize_same_reading v Hv)), H.
  apply same_reading_dependencies. by apply sanitize_same_reading.
Qed.

(** The path that was set is read again: what the keys depend on is not changed. *)
Lemma dependency_path_set payload dependency path w : value_ok payload ->
  set_path (dependency_keys payload dependency) path payload = Some w -> dependency_path w dependency = Some path.
Proof.
  intros Hv H. pose proof (set_path_ok _ _ _ _ (dependency_keys_end payload dependency) Hv H) as (Hw & Hs & Hg).
  unfold dependency_path. replace (dependency_keys w dependency) with (dependency_keys payload dependency); [by rewrite Hg|].
  unfold dependency_keys. destruct dependency; [|done].
  pose proof (value_get_sanitize "localConfig" payload Hv eq_refl) as H1. pose proof (value_get_sanitize "localConfig" w Hw eq_refl) as H2.
  rewrite Hs, H1 in H2. destruct (value_get "localConfig" payload), (value_get "localConfig" w); done.
Qed.
End files.

Section completed.
Context `{C : SyncCodec}.
Context (now : Z).
Implicit Types (d : SyncDb).

Lemma get_connection_state id t r t' : get_connection json_from_str id t = (r, t') -> t' = t.
Proof. unfold get_connection. by intros [= _ <-]. Qed.

Lemma get_connection_row id t record t' : get_connection json_from_str id t = (Ok (Some record), t') ->
  exists row, connections t !! id = Some row /\ record_from_row json_from_str id row = Ok record.
Proof.
  unfold get_connection. destruct (connections t !! id) as [row|]; [|done]. destruct (record_from_row _ id row) eqn:E; [|done].
  intros [= <- _]. eauto.
Qed.

(** The columns that an update or a new connection writes, read back as a record. *)
Definition written (input : ConnectionInput) (r : StoredConnectionRecord) : Prop :=
  exists note tag, normalize_connection_note (ci_note input) = Ok note
    /\ normalize_connection_tag (ci_tag_label input) (ci_tag_color input) = Ok tag
    /\ (r_id r, r_name r, r_driver r, r_environment r, r_color r) = (ci_id input, ci_name input, ci_driver input, ci_environment input, ci_color input)
    /\ (r_note r, r_tag_label r, r_tag_color r, r_payload r, r_folder_id r, r_sort_order r)
       = (note, tag.1, tag.2, ci_payload input, ci_folder_id input, ci_sort_order input).

Lemma columns_Ok input t c : connection_columns input t = Ok c ->
  normalize_connection_note (ci_note input) = Ok c.1.1 /\ normalize_connection_tag (ci_tag_label input) (ci_tag_color input) = Ok (c.1.2, c.2).
Proof.
  unfold connection_columns. intros H. bind_inv. subst c. cbn. split; [done|]. by destruct (normalize_connection_tag _ _) as [[]|]; simplify_eq.
Qed.

Section law.
Context (json_round_trip : forall v, value_ok v -> json_from_str (json_to_string v) = Some v).

Lemma read_written input t c created updated t1 t2 t3 r : value_ok (ci_payload input) -> connection_columns input t = Ok c ->
  record_from_row json_from_str (ci_id input)
    (mkConnectionRecordRow (ci_name input) (driver_as_str (ci_driver input)) (ci_environment input) (ci_color input)
       c.1.1 c.1.2 c.2 (json_to_string (ci_payload input)) (ci_folder_id input) created updated t1 t2 t3 (ci_sort_order input)) = Ok r ->
  written input r.
Proof.
  intros Hv Hc H. unfold record_from_row in H. cbn in H. rewrite driver_round_trip, json_round_trip in H by done. cbn in H. bind_inv. subst r.
  destruct (columns_Ok _ _ _ Hc) as [Hn Ht]. by exists c.1.1, (c.1.2, c.2).
Qed.

Lemma update_connection_Ok input t r t' : value_ok (ci_payload input) ->
  update_connection json_from_str json_to_string now input t = (Ok r, t') ->
  folders t' = folders t /\ (forall k, k <> ci_id input -> connections t' !! k = connections t !! k)
  /\ get_connection json_from_str (ci_id input) t' = (Ok (Some r), t') /\ written input r.
Proof.
  intros Hv H. unfold update_connection in H. db_inv. rename x1 into columns.
  pose proof (update_connection_row_Ok _ _ _ _ _ E1) as (Hf & Hrow & Hk).
  destruct (_ =? 0)%nat eqn:En; [done|]. db_inv.
  match goal with HG : get_connection _ _ _ = _ |- _ => rename HG into E2 end. pose proof (get_connection_state _ _ _ _ E2) as ->.
  split; [done|]. split; [done|]. split; [done|].
  destruct (get_connection_row _ _ _ _ E2) as (row & Hr & Hrec). rewrite Hr in Hrow. symmetry in Hrow.
  apply fmap_Some in Hrow as (old & Hold & ->). by eapply read_written.
Qed.

Lemma create_connection_Ok input t r t' : value_ok (ci_payload input) ->
  create_connection json_from_str json_to_string now input t = (Ok r, t') ->
  connections t !! ci_id input = None /\ folders t' = folders t /\ (forall k, k <> ci_id input -> connections t' !! k = connections t !! k)
  /\ get_connection json_from_str (ci_id input) t' = (Ok (Some r), t') /\ written input r.
Proof.
  intros Hv H. unfold create_connection in H. db_inv.
  pose proof (insert_connection_row_Ok _ _ _ _ E1) as (Hf & Hrow & Hk).
  assert (connections t !! ci_id input = None).
  { unfold insert_connection_row in E1. destruct (bool_decide (connections t !! _ = None)) eqn:Eb; [|done]. by apply bool_decide_eq_true in Eb. }
  match goal with HG : get_connection _ _ _ = _ |- _ => rename HG into E2 end. pose proof (get_connection_state _ _ _ _ E2) as ->. do 4 (split; [done|]).
  destruct (get_connection_row _ _ _ _ E2) as (row & Hr & Hrec). simplify_eq. by eapply read_written.
Qed.
End law.
End completed.

Section completing.
Context `{C : SyncCodec}.
Context (now : Z).
Context (json_round_trip : forall v, value_ok v -> json_from_str (json_to_string v) = Some v).
Context (json_sorted : forall s v, json_from_str s = Some v -> value_ok v).
Implicit Types (d : SyncDb).

Lemma get_asset_Ok account id d a d' : get_asset account id d = (Ok a, d') -> d' = d /\ a = assets d !! (account, id).
Proof.
  unfold get_asset. intros [= H <-]. split; [done|]. destruct (assets d !! (account, id)) as [row|]; cbn in H; [|by injection H].
  unfold asset_from_row in H. bind_inv. by subst.
Qed.

Lemma record_payload_ok id row record : record_from_row json_from_str id row = Ok record -> value_ok (r_payload record).
Proof.
  unfold record_from_row. intros H. bind_inv. subst. cbn. destruct (json_from_str (cr_payload row)) eqn:Ej; [|done].
  match goal with HO : ok_or _ _ = Ok _ |- _ => injection HO as <- end. by eapply json_sorted.
Qed.

(** A record written back with another payload that is projected to the same. *)
Lemma written_projects record payload r : value_ok (r_payload record) -> value_ok payload ->
  sanitize_payload payload = sanitize_payload (r_payload record) ->
  normalize_connection_note (r_note record) = Ok (r_note record) ->
  normalize_connection_tag (r_tag_label record) (r_tag_color record) = Ok (r_tag_label record, r_tag_color record) ->
  written (mkConnectionInput (r_id record) (r_name record) (r_driver record) (r_environment record) (r_color record) (r_note record)
    (r_tag_label record) (r_tag_color record) payload (r_folder_id record) (r_sort_order record)) r ->
  project_connection r = project_connection record /\ r_payload r = payload.
Proof.
  intros Hv Hp Hs Hn Ht (note & tag & Hn' & Ht' & H1 & H2). cbn in *. rewrite Hn in Hn'. rewrite Ht in Ht'. injection Hn' as <-.
  injection Ht' as <-. cbn in H2. injection H1 as R1 R2 R3 R4 R5. injection H2 as R6 R7 R8 R9 R10 R11. split; [|done].
  unfold project_connection. rewrite R1, R2, R3, R4, R5, R6, R7, R8, R9, R10, R11, Hs. by rewrite (same_projection_dependencies _ _ _ Hp Hv Hs).
Qed.

(** Filling in a local file is not an edit. Let a connection be stored with its note
    and tag as the repository writes them. When completing one of its local files
    succeeds, the path that is read back is the one that was given, without the blanks
    around it, and the bytes and the digest that the connection is uploaded with are what
    they were: the next reconciliation sees nothing to send. No folder, no other
    connection, no operation and no other asset changes, and of this asset at most the
    status and the time. *)
Theorem completing_a_file_is_not_an_edit account asset_id dependency path d missing d' asset row record :
  assets d !! (account, asset_id) = Some asset -> connections (local d) !! a_local_entity_id asset = Some row ->
  record_from_row json_from_str (a_local_entity_id asset) row = Ok record ->
  normalize_connection_note (r_note record) = Ok (r_note record) ->
  normalize_connection_tag (r_tag_label record) (r_tag_color record) = Ok (r_tag_label record, r_tag_color record) ->
  complete_local_dependency now account asset_id dependency path d = (Ok missing, d') ->
  (exists row' record', connections (local d') !! a_local_entity_id asset = Some row'
     /\ record_from_row json_from_str (a_local_entity_id asset) row' = Ok record'
     /\ dependency_path (r_payload record') dependency = Some (trim path)
     /\ connection_projection number_of_i64 json_to_string sha256 record' = connection_projection number_of_i64 json_to_string sha256 record)
  /\ folders (local d') = folders (local d) /\ operations d' = operations d
  /\ (forall k, k <> a_local_entity_id asset -> connections (local d') !! k = connections (local d) !! k)
  /\ (forall k, k <> (account, asset_id) -> assets d' !! k = assets d !! k)
  /\ (a_local_payload_hash <$> assets d' !! (account, asset_id)) = Some (a_local_payload_hash asset).
Proof.
  intros Ha Hrow Hrec Hnote Htag H. unfold complete_local_dependency in H. case_ifs H; [done|]. db_inv.
  match goal with HG : get_asset _ _ _ = _ |- _ => apply get_asset_Ok in HG as [-> Hc] end. rewrite Ha in Hc. injection Hc as ->.
  case_ifs H; [done|]. db_inv.
  match goal with HG : on_local (get_connection _ _) d = _ |- _ => apply on_local_Ok in HG as (t & HG & ->); pose proof (get_connection_state _ _ _ _ HG) as ->;
    apply get_connection_row in HG as (row0 & Hr0 & Hrec0) end.
  rewrite Hrow in Hr0. injection Hr0 as <-. rewrite Hrec in Hrec0. injection Hrec0 as <-.
  pose proof (record_payload_ok _ _ _ Hrec) as Hv. pose proof (record_from_row_id _ _ _ Hrec) as Hid.
  case_ifs H; [done|]. db_inv.
  match goal with HS : set_dependency_path _ _ _ = Ok ?p |- _ => rename p into payload; rename HS into Hset end.
  unfold set_dependency_path, ok_or in Hset. destruct (set_path _ _ _) as [payload'|] eqn:Es; [|done]. injection Hset as ->.
  pose proof (set_path_ok _ _ _ _ (dependency_keys_end _ _) Hv Es) as (Hp & Hs & _).
  pose proof (dependency_path_set _ _ _ _ Hv Es) as Hpath.
  match goal with HU : on_local (update_connection _ _ _ _) _ = _ |- _ => apply on_local_Ok in HU as (t & HU & ->);
    apply update_connection_Ok in HU as (Hf & Ho & Hg & Hw); [|done..] end.
  match goal with HG : on_local (get_connection _ _) _ = _ |- _ => apply on_local_Ok in HG as (t' & HG & ->);
    pose proof (get_connection_state _ _ _ _ HG) as -> end. cbn in Hf, Ho, Hg.
  apply get_connection_row in Hg as (row' & Hr' & Hrec'). rewrite Hid in *.
  pose proof (written_projects _ _ _ Hv Hp Hs Hnote Htag (eq_ind_r (fun i => written (mkConnectionInput i _ _ _ _ _ _ _ _ _ _) _) Hw Hid)) as [Hproj Hpay].
  destruct (forallb _ _); cbn; (split; [exists row', x3; split_and!; [done..|by rewrite Hpay|by unfold connection_projection; rewrite Hproj]|]);
    (do 3 (split; [done|])); (split; [|by rewrite ?lookup_alter_eq, Ha; cbn; try case_match]); [|done].
  intros k Hk. by rewrite lookup_alter_ne.
Qed.
End completing.

(** ** Concrete decisions *)

(** A connection that waits for its file. *)
Definition waiting_db : SyncDb :=
  demo_db (mkLocalTables {[lit "c" := mkConnectionRecordRow (lit "Sales") (lit "sqlite") [] None [] [] None
    (demo_to_string (VObject [(lit "mode", VString (lit "local"))])) None 0 0 None None None None]} ∅)
    [("c"%string, demo_known Connection "c" NeedsLocalFile (lit "h"))].

Definition waiting_record : StoredConnectionRecord :=
  mkStoredConnectionRecord (lit "c") (lit "Sales") CdSqlite [] None [] [] None
    (VObject [(lit "mode", VString (lit "local"))]) None 0 0 None None None None.

Lemma completing_a_file_is_not_an_edit_witness :
  let d' := (complete_local_dependency (C := demo_codec) 9 demo_account (lit "c") DatabaseFile (lit " /sales.db ") waiting_db).2 in
  exists row record, connections (local d') !! lit "c" = Some row /\ record_from_row demo_from_str (lit "c") row = Ok record
    /\ dependency_path (r_payload record) DatabaseFile = Some (lit "/sales.db")
    /\ connection_projection number_of_i64 json_to_string sha256 record = connection_projection number_of_i64 json_to_string sha256 waiting_record.
Proof.
  intros d'. assert (Hr : (complete_local_dependency (C := demo_codec) 9 demo_account (lit "c") DatabaseFile (lit " /sales.db ") waiting_db).1 = Ok [])
    by (vm_compute; reflexivity).
  exact (proj1 (completing_a_file_is_not_an_edit (C := demo_codec) 9 demo_json_round_trip demo_json_sorted demo_account (lit "c") DatabaseFile
    (lit " /sales.db ") waiting_db [] d' (demo_known Connection "c" NeedsLocalFile (lit "h")) _ waiting_record eq_refl eq_refl eq_refl eq_refl eq_refl
    (eq_trans (surjective_pairing _) (f_equal (fun r => (r, d')) Hr)))).
Defined.

(** ** Keeping the local version *)

Lemma conflicts_of_elem account status d c : c ∈ conflicts_of account status d ->
  conflicts d !! (account, c_asset_id c, c_remote_revision c, status) = Some (c_row c).
Proof.
  unfold conflicts_of. intros ([[[[acc id] r] st] row] & Hin & H)%list_elem_of_omap. cbn in H. destruct (_ && _) eqn:E; [|done].
  breflect. injection H as <-. cbn. subst. by apply elem_of_map_to_list in Hin.
Qed.

Lemma find_conflict_Some account conflict_id d c : find_conflict account conflict_id d = Some c ->
  k_id (c_row c) = conflict_id /\ conflicts d !! (account, c_asset_id c, c_remote_revision c, CfPending) = Some (c_row c).
Proof.
  unfold find_conflict. intros [Hin He]%find_some. split; [unfold str_eqb in He; by breflect|].
  apply conflicts_of_elem. by apply list_elem_of_In.
Qed.

(** The asset has no conflicted operation, and its conflict is among the resolved. *)
Definition decided (account : str) (c : Conflict) (d : SyncDb) : Prop :=
  let key := (account, c_asset_id c, c_remote_revision c) in
  conflicts d !! (key, CfPending) = None /\ is_Some (conflicts d !! (key, CfResolved))
  /\ forall oid o, operations d !! oid = Some o -> o_cloud_account_id o = account -> o_asset_id o = c_asset_id c -> o_status o <> OpConflicted.

Section keep_local.
Context `{C : SyncCodec}.
Context (now : Z) (new_uuid : str -> str) (random_nonce : str -> option (list Z)).
Implicit Types (d : SyncDb).

Lemma reject_conflicted_status account id o : o_cloud_account_id o = account -> o_asset_id o = id ->
  o_status (reject_conflicted account id o) <> OpConflicted.
Proof.
  intros Ha Hi. unfold reject_conflicted. rewrite (bool_decide_true _ Ha), (bool_decide_true _ Hi), andb_true_r.
  cbn. destruct (bool_decide (o_status o = OpConflicted)) eqn:E; [done|]. by apply bool_decide_eq_false in E.
Qed.

Lemma reject_conflicted_same account id o : o_asset_id (reject_conflicted account id o) = o_asset_id o
  /\ o_cloud_account_id (reject_conflicted account id o) = o_cloud_account_id o.
Proof. unfold reject_conflicted. by destruct (_ && _ && _). Qed.

Lemma mark_conflict_resolved_Ok account conflict_id c d d' : find_conflict account conflict_id d = Some c ->
  mark_conflict_resolved now account conflict_id d = (Ok tt, d') ->
  decided account c d' /\ local d' = local d /\ assets d' = assets d
  /\ forall oid, operations d' !! oid = reject_conflicted account (c_asset_id c) <$> operations d !! oid.
Proof.
  intros Hc H. unfold mark_conflict_resolved in H. db_inv. rewrite Hc in H. db_inv.
  unfold resolve_row in H. cbn in H. case_match; [done|]. injection H as <-. unfold decided. cbn. split_and!.
  - rewrite lookup_insert_ne by done. apply lookup_delete_eq.
  - rewrite lookup_insert_eq. by eexists.
  - intros oid o Ho Ha Hi. rewrite lookup_fmap in Ho. apply fmap_Some in Ho as (o0 & Ho & ->).
    destruct (reject_conflicted_same account (c_asset_id c) o0) as [R1 R2]. apply reject_conflicted_status; congruence.
  - done.
  - done.
  - intros oid. by rewrite lookup_fmap.
Qed.

(** An operation with a new id is written as it was prepared. *)
Definition enqueued (input : EnqueueCloudSyncOperation) (o : CloudSyncOperation) : Prop :=
  o = mkCloudSyncOperation (e_cloud_account_id input) (e_asset_id input) (e_asset_type input) (e_action input) (e_expected_revision input)
        (e_schema_version input) (e_key_generation input) (e_nonce input) (e_ciphertext input) (e_payload_hash input) OpPending 0 None None now now.

Lemma try_sql_revision_Ok v w : try_option to_sql_revision v = Ok w -> w = v.
Proof. unfold try_option, to_sql_revision. destruct v; intros H; bind_inv; [|done]. case_match; simplify_eq; done. Qed.

Lemma enqueue_fresh input d o d' : operations d !! e_operation_id input = None -> enqueue_operation now input d = (Ok o, d') ->
  enqueued input o /\ d' = set_operations (<[e_operation_id input := o]> (operations d)) d.
Proof.
  intros Hf H. unfold enqueue_operation in H. db_inv. unfold get_operation in E. rewrite Hf in E. injection E as <- <-. db_inv.
  repeat match goal with HT : try_option to_sql_revision _ = Ok _ |- _ => apply try_sql_revision_Ok in HT as -> end.
  unfold get_operation in *. cbn in *. rewrite lookup_insert_eq in *.
  match goal with HT : (try_option _ _, _) = _ |- _ => injection HT as HT <-; unfold try_option in HT end.
  unfold operation_from_row in *. bind_inv. simplify_eq. case_match; [|done]. db_inv. subst. done.
Qed.

(** What decrypts is what was encrypted. *)
Context (base64_round_trip : forall b, base64url_decode (base64url_encode b) = Some b).
Context (aead_round_trip : forall key nonce aad p c, aead_encrypt key nonce aad p = Some c -> aead_decrypt key nonce aad c = Some p).
Context (aead_tag : forall key nonce aad p c, aead_encrypt key nonce aad p = Some c -> (16 <= length c)%nat).
Context (nonce_length : forall id nonce, random_nonce id = Some nonce -> length nonce = 24).

Lemma encrypt_decrypt id account asset type revision schema generation p amk e :
  encrypt_connection_asset (random_nonce id) account asset type revision schema generation p amk = Ok e ->
  en_suite e = CONNECTION_ASSET_SUITE /\ decrypt_connection_asset account asset type revision schema generation e amk = Ok p.
Proof.
  unfold encrypt_connection_asset, decrypt_connection_asset. intros H.
  destruct (_ || bool_decide (type = [])) eqn:Eg; [done|]. destruct (random_nonce id) as [nonce|] eqn:En; [|done].
  cbn [ok_or mbind Result_bind] in H. destruct (aead_encrypt _ _ _ _) as [c|] eqn:Ec; [|done]. injection H as <-. split; [done|].
  cbn [en_suite en_nonce en_ciphertext]. rewrite <-!orb_assoc in *. rewrite Eg. unfold str_eqb. rewrite bool_decide_true by done.
  cbn [negb orb]. rewrite !base64_round_trip. cbn [ok_or mbind Result_bind]. rewrite (nonce_length _ _ En).
  pose proof (aead_tag _ _ _ _ _ Ec) as Ht. apply Nat.ltb_ge in Ht. rewrite Ht. cbn [negb orb Nat.eqb]. by rewrite (aead_round_trip _ _ _ _ _ Ec).
Qed.

Lemma prepare_put_Ok account c expected keys input : k_local_action (c_row c) = Put ->
  prepare_local_candidate new_uuid random_nonce account c expected keys = Ok input ->
  exists revision schema generation plaintext nonce ciphertext,
    k_local_revision (c_row c) = Some revision /\ k_local_schema_version (c_row c) = Some schema
    /\ k_local_key_generation (c_row c) = Some generation /\ generation = kb_key_generation keys
    /\ decrypt_at account c (k_local_nonce (c_row c)) (k_local_ciphertext (c_row c)) revision schema generation keys = Ok plaintext
    /\ decrypt_at account c nonce ciphertext (expected + 1) schema generation keys = Ok plaintext
    /\ input = mkEnqueueCloudSyncOperation (new_uuid (c_asset_id c)) account (c_asset_id c) (k_asset_type (c_row c)) Put (Some expected)
         (Some schema) (Some generation) (Some nonce) (Some ciphertext) (Some (base64url_encode (sha256 plaintext))).
Proof.
  intros Hput H. unfold prepare_local_candidate in H. rewrite Hput in H. case_match; [done|]. bind_inv.
  destruct (0 <? expected)%Z; [|done]. cbn in E. injection E as <-.
  destruct (k_local_revision (c_row c)) as [r|]; [|done]. destruct (k_local_schema_version (c_row c)) as [s|]; [|done].
  destruct (k_local_key_generation (c_row c)) as [g|]; [|done].
  unfold u64_ok, u16_ok in *. cbn in E0, E1, E2. repeat (case_match; try done). simplify_eq. bind_inv.
  case_match; [|done]. simplify_eq. breflect.
  match goal with HP : prepare_connection_upload _ _ _ _ _ _ _ _ _ _ = Ok ?p |- _ => unfold prepare_connection_upload in HP; bind_inv end.
  match goal with HE : encrypt_connection_asset _ _ _ _ _ _ _ _ _ = Ok ?e |- _ => apply encrypt_decrypt in HE as [Hs Hd]; destruct e as [su no ci] end.
  cbn in Hs. subst. case_match; [|done]. simplify_eq. injection E0 as <-. injection E1 as <-. injection E2 as <-.
  exists r, s, g, a3, no, ci. split_and!; try done. by apply Z.eqb_eq.
Qed.

(** C12: Keeping the local version sends exactly it. Let the local side of a conflict be a
    stored version (not a deletion), and let the id drawn for the operation be new. When
    the decision succeeds, an operation waits that expects the cloud's revision, carries
    the digest of the version's plaintext, and whose ciphertext decrypts, as the revision
    after the cloud's, to that plaintext; the asset is waiting for it. The local tables
    and the operations of other assets are as before, the conflict is among the resolved
    ones, and no operation of the asset is marked as conflicted any more. *)
Theorem keep_local_uploads_the_candidate value_from_slice now_text account conflict_id keys c asset d views d' :
  find_conflict account conflict_id d = Some c -> k_local_action (c_row c) = Put ->
  operations d !! new_uuid (c_asset_id c) = None -> assets d !! (account, c_asset_id c) = Some asset ->
  resolve_conflict value_from_slice now now_text new_uuid random_nonce account conflict_id KeepLocal keys d = Some (Ok views, d') ->
  (exists revision schema generation plaintext nonce ciphertext o,
     k_local_revision (c_row c) = Some revision /\ generation = kb_key_generation keys
     /\ decrypt_at account c (k_local_nonce (c_row c)) (k_local_ciphertext (c_row c)) revision schema generation keys = Ok plaintext
     /\ decrypt_at account c nonce ciphertext (c_remote_revision c + 1) schema generation keys = Ok plaintext
     /\ operations d' !! new_uuid (c_asset_id c) = Some o /\ o_status o = OpPending /\ o_action o = Put
     /\ o_expected_revision o = Some (c_remote_revision c) /\ o_nonce o = Some nonce /\ o_ciphertext o = Some ciphertext
     /\ o_payload_hash o = Some (base64url_encode (sha256 plaintext)))
  /\ ((fun a => (a_sync_status a, a_pending_operation_id a)) <$> assets d' !! (account, c_asset_id c))
     = Some (PendingUpload, Some (new_uuid (c_asset_id c)))
  /\ local d' = local d /\ decided account c d'
  /\ (forall oid o, operations d !! oid = Some o -> o_asset_id o <> c_asset_id c -> operations d' !! oid = Some o).
Proof.
  intros Hc Hput Hfresh Ha H. unfold resolve_conflict in H. rewrite Hc in H. cbv beta iota in H.
  destruct (decide_conflict _ _ _ _ _ _ _ _ _) as [[[[]|e] d1]|] eqn:Ed; try done. injection H as _ <-.
  injection Ed as Ed. db_inv. unfold enqueue_local_candidate in E. db_inv.
  match goal with HP : prepare_local_candidate _ _ _ _ _ _ = Ok ?i |- _ =>
    apply prepare_put_Ok in HP as (revision & schema & generation & plaintext & nonce & ciphertext & R1 & R2 & R3 & R4 & D1 & D2 & ->); [|done] end.
  match goal with HE : enqueue_operation _ _ _ = _ |- _ => apply enqueue_fresh in HE as [Ho ->]; [|done] end.
  destruct (find_conflict_Some _ _ _ _ Hc) as [Hid _]. rewrite Hid in Ed.
  apply (mark_conflict_resolved_Ok _ _ c) in Ed as (Hd & Hl & Has & Hops); [|exact Hc]. cbn in *. unfold enqueued in Ho. cbn in Ho. split_and!.
  - exists revision, schema, generation, plaintext, nonce, ciphertext. eexists. rewrite Hops, lookup_insert_eq. subst. cbn.
    split_and!; try done; unfold reject_conflicted; cbn; by rewrite andb_false_r.
  - by rewrite Has, lookup_alter_eq, Ha.
  - done.
  - done.
  - intros oid o Hoid Hne. rewrite Hops, lookup_insert_ne by (intros <-; by rewrite Hfresh in Hoid). rewrite Hoid. cbn.
    unfold reject_conflicted. by rewrite (bool_decide_false _ Hne), andb_false_r.
Qed.
End keep_local.

(** ** Keeping the cloud version *)

Section keep_cloud.
Context `{C : SyncCodec}.
Context (now : Z).
Context (json_round_trip : forall v, value_ok v -> json_from_str (json_to_string v) = Some v).
Context (json_sorted : forall s v, json_from_str s = Some v -> value_ok v).
Implicit Types (d : SyncDb).

(** What another device sent, written here with the paths of this machine, is projected
    to what was sent. *)
Lemma written_as_sent sent existing r :
  let payload := merge_local_paths (sanitize_payload (r_payload sent)) existing (collect_local_dependencies (r_driver sent) (r_payload sent)) in
  value_ok (r_payload sent) -> normalize_connection_note (r_note sent) = Ok (r_note sent) ->
  normalize_connection_tag (r_tag_label sent) (r_tag_color sent) = Ok (r_tag_label sent, r_tag_color sent) ->
  written (connection_input (project_connection sent) payload (r_driver sent)) r -> project_connection r = project_connection sent.
Proof.
  intros payload Hv Hn Ht (note & tag & Hn' & Ht' & H1 & H2). cbn in *. rewrite Hn in Hn'. rewrite Ht in Ht'. injection Hn' as <-.
  injection Ht' as <-. cbn in H2. injection H1 as R1 R2 R3 R4 R5. injection H2 as R6 R7 R8 R9 R10 R11.
  destruct (merge_projects_back (r_driver sent) (r_payload sent) existing (collect_local_dependencies (r_driver sent) (r_payload sent)) Hv) as [M1 M2].
  unfold project_connection. rewrite R1, R2, R3, R4, R5, R6, R7, R8, R9, R10, R11. fold payload in M1, M2. by rewrite M1, M2.
Qed.

Lemma apply_connection_Ok sent d d' : value_ok (r_payload sent) ->
  normalize_connection_note (r_note sent) = Ok (r_note sent) ->
  normalize_connection_tag (r_tag_label sent) (r_tag_color sent) = Ok (r_tag_label sent, r_tag_color sent) ->
  apply_connection now (project_connection sent) d = (Ok tt, d') ->
  exists t r, d' = set_local t d /\ folders t = folders (local d) /\ (forall k, k <> r_id sent -> connections t !! k = connections (local d) !! k)
    /\ get_connection json_from_str (r_id sent) t = (Ok (Some r), t) /\ project_connection r = project_connection sent.
Proof.
  intros Hv Hn Ht H. unfold apply_connection in H. db_inv.
  match goal with HG : on_local (get_connection _ _) d = _ |- _ => apply on_local_Ok in HG as (t0 & HG & ->); pose proof (get_connection_state _ _ _ _ HG) as -> end.
  cbn [cp_driver project_connection] in *. rewrite driver_round_trip in *. simplify_eq.
  match goal with HU : on_local (match ?c with _ => _ end) _ = _ |- _ => rename c into current; apply on_local_Ok in HU as (t & HU & ->) end.
  assert (Hm : value_ok (merge_local_paths (sanitize_payload (r_payload sent)) (r_payload <$> current)
    (collect_local_dependencies (r_driver sent) (r_payload sent)))).
  { apply merge_ok; [by apply sanitize_ok|]. intros l (record & -> & ->)%fmap_Some.
    match goal with HG : get_connection _ _ _ = _ |- _ => apply get_connection_row in HG as (row & _ & HG) end. by eapply record_payload_ok. }
  match goal with HU : _ = (Ok ?r, t) |- _ => exists t, r end. split; [done|].
  destruct current; [apply update_connection_Ok in E1 as (Hf & Ho & Hg & Hw)|apply create_connection_Ok in E1 as (_ & Hf & Ho & Hg & Hw)];
    try done; cbn in Hf, Ho, Hg; (do 3 (split; [done|])); by eapply written_as_sent.
Qed.

(** C13: Keeping the cloud version takes exactly it. Let the cloud's side of a connection's
    conflict decrypt to what some device sent for a record whose note and tag are as the
    repository writes them. When the decision succeeds, the connection stored here is
    projected to the bytes and the digest of that record, whatever local paths were merged
    in; the asset has the cloud's revision, that digest and a status with which the next
    reconciliation finds nothing to send; the conflict is resolved; no folder and no other
    connection changed. *)
Theorem keep_cloud_takes_the_cloud_version value_from_slice now_text new_uuid random_nonce account conflict_id keys c asset d views d' bytes sent :
  let projected := connection_projection number_of_i64 json_to_string sha256 in
  find_conflict account conflict_id d = Some c -> k_remote_tombstone (c_row c) = false -> k_asset_type (c_row c) = Connection ->
  remote_plaintext account c keys = Ok bytes -> connection_from_slice bytes = Some (project_connection sent) -> r_id sent = c_asset_id c ->
  value_ok (r_payload sent) -> normalize_connection_note (r_note sent) = Ok (r_note sent) ->
  normalize_connection_tag (r_tag_label sent) (r_tag_color sent) = Ok (r_tag_label sent, r_tag_color sent) ->
  assets d !! (account, c_asset_id c) = Some asset ->
  resolve_conflict value_from_slice now now_text new_uuid random_nonce account conflict_id KeepCloud keys d = Some (Ok views, d') ->
  (exists row record, connections (local d') !! c_asset_id c = Some row /\ record_from_row json_from_str (c_asset_id c) row = Ok record
     /\ projected record = projected sent)
  /\ (exists m, assets d' !! (account, c_asset_id c) = Some m /\ a_remote_revision m = Some (c_remote_revision c)
     /\ a_base_revision m = Some (c_remote_revision c) /\ a_local_payload_hash m = Some (base64url_encode (projected sent).2)
     /\ is_local_status (a_sync_status m) = true)
  /\ decided account c d' /\ folders (local d') = folders (local d)
  /\ (forall k, k <> c_asset_id c -> connections (local d') !! k = connections (local d) !! k).
Proof.
  intros projected Hc Htomb Htype Hplain Hslice Hid Hv Hn Ht Ha H. unfold resolve_conflict in H. rewrite Hc in H. cbv beta iota in H.
  destruct (decide_conflict _ _ _ _ _ _ _ _ _) as [[[[]|e] d1]|] eqn:Ed; try done. injection H as _ <-.
  unfold decide_conflict, after, apply_candidate in Ed. rewrite Htomb, Hplain, Htype in Ed.
  match type of Ed with match ?m with _ => _ end = _ => destruct m as [[[]|e] d2] eqn:Ea; [|done] end. injection Ed as Ed.
  rewrite Hslice in Ea. cbn [ok_or] in Ea. db_inv. match goal with HO : Ok _ = Ok _ |- _ => injection HO as <- end.
  apply apply_connection_Ok in Ea as (t & r & -> & Hf & Ho & Hg & Hp); [|done..]. rewrite Hid in *.
  unfold mark_resolved in Ed. db_inv. unfold resolved_state in *. rewrite Htomb, Htype in *. cbn [local set_local] in *. rewrite Hg in *.
  cbn [fst ok_or mbind Result_bind] in *. match goal with HO : Ok _ = Ok _ |- _ => apply Ok_inj in HO as <- end.
  destruct (find_conflict_Some _ _ _ _ Hc) as [Hcid _]. rewrite Hcid in Ed.
  apply (mark_conflict_resolved_Ok _ _ _ c) in Ed as (Hd & Hl & Has & _); [|exact Hc]. cbn [local assets set_assets set_local fst snd] in Hl, Has. rewrite Hl, Has. split_and!; try done.
  - destruct (get_connection_row _ _ _ _ Hg) as (row & Hrow & Hrec). exists row, r. split; [done|]. split; [done|].
    unfold projected, connection_projection. by rewrite Hp.
  - eexists. rewrite lookup_alter_eq, Ha. split; [reflexivity|].
    cbn [a_remote_revision a_base_revision a_local_payload_hash a_sync_status fst snd]. split_and!; try done; [|by case_match].
    unfold projected, connection_projection. by rewrite Hp.
Qed.
End keep_cloud.

(** ** Concrete conflicts *)

(** A whole pull after the cursor [requested]; the ids it draws carry the cursor. *)
Definition pull_from `{C : SyncCodec} (requested next : Z) (changes : list CloudConnectionAssetChange) (d : SyncDb) : option SyncDb :=
  match begin_staged_pull None demo_account d,
        validate_and_decrypt_page demo_account requested
          (mkCloudConnectionAssetListResponse [] (mkCloudConnectionAssetCursor (to_dec requested) (to_dec next) false) changes) demo_keys with
  | (Ok _, d1), Ok page =>
    match stage_validated_page None demo_account page d1 with
    | (Ok _, d2) =>
      match apply_staged_pull 5 (lit "t5") (fun id => lit "uuid-" ++ to_dec next ++ id) demo_nonce None demo_account requested next
              demo_keys (fun _ => true) d2 with
      | (Ok _, d3) => Some d3
      | _ => None
      end
    | _ => None
    end
  | _, _ => None
  end.

Definition second_uuid (id : str) : str := lit "second-" ++ id.

Definition demo_decide (decision : CloudSyncConflictDecision) (id : string) (d : SyncDb)
    : option (AppResult (list CloudSyncConflictView) * SyncDb) :=
  resolve_conflict (C := demo_codec) (fun _ => None) 9 (lit "t9") second_uuid demo_nonce demo_account (lit id) decision demo_keys d.
Definition decided_db (decision : CloudSyncConflictDecision) (id : string) (d : SyncDb) : option SyncDb :=
  match demo_decide decision id d with Some (Ok _, d') => Some d' | _ => None end.

(** A connection that was renamed on two devices. *)
Definition renamed_twice : SyncDb :=
  demo_db (mkLocalTables {[lit "c" := demo_connection "Mine"]} ∅) [("c"%string, demo_known Connection "c" Synced (lit "h"))].
Definition renamed_conflict : SyncDb :=
  default renamed_twice (pull_from 0 2 [demo_change "connection" "c" 2 2 (Some "c/Theirs")] renamed_twice).

(** A run that returned, and a conflict that is there. *)
Lemma decide_fact (r : option (AppResult (list CloudSyncConflictView) * SyncDb)) :
  match r with Some (Ok _, _) => true | _ => false end = true -> exists views d', r = Some (Ok views, d').
Proof. destruct r as [[[views|e] d']|]; try done. eauto. Qed.

Lemma keep_local_uploads_the_candidate_witness :
  exists c views d', find_conflict demo_account (lit "uuid-2c") renamed_conflict = Some c
    /\ demo_decide KeepLocal "uuid-2c" renamed_conflict = Some (Ok views, d')
    /\ local d' = local renamed_conflict /\ decided demo_account c d'.
Proof.
  destruct (find_conflict demo_account (lit "uuid-2c") renamed_conflict) as [c|] eqn:Ec; [|vm_compute in Ec; discriminate Ec].
  assert (Hc : (fun c => (k_local_action (c_row c), c_asset_id c)) <$> find_conflict demo_account (lit "uuid-2c") renamed_conflict
    = Some (Put, lit "c")) by (vm_compute; reflexivity).
  rewrite Ec in Hc. injection Hc as Hput Hid.
  destruct (decide_fact (demo_decide KeepLocal "uuid-2c" renamed_conflict)) as (views & d' & Hd); [vm_compute; reflexivity|].
  exists c, views, d'. split; [done|]. split; [done|].
  destruct (assets renamed_conflict !! (demo_account, lit "c")) as [a|] eqn:Ea; [|vm_compute in Ea; discriminate Ea].
  rewrite <-Hid in Ea.
  destruct (keep_local_uploads_the_candidate (C := demo_codec) 9 second_uuid demo_nonce (fun b => eq_refl)
    (fun key nonce aad p c H => proj2 (demo_cipher_sound key nonce aad c p) H) ltac:(by intros ????? [= <-]; cbn; lia) ltac:(by intros ?? [= <-])
    (fun _ => None) (lit "t9") demo_account (lit "uuid-2c") demo_keys c a renamed_conflict views d' Ec Hput) as (_ & _ & Hl & Hdec & _);
    [|exact Ea|exact Hd|by split].
  rewrite Hid. vm_compute. reflexivity.
Defined.

(** What the other device sent. *)
Definition their_record : StoredConnectionRecord :=
  mkStoredConnectionRecord (lit "c") (lit "Theirs") CdSqlite [] None [] [] None (VObject [(lit "dbFilePath", VString (lit "/t.db"))]) None 0 0
    None None None None.

Lemma keep_cloud_takes_the_cloud_version_witness :
  exists c views d' row record, find_conflict demo_account (lit "uuid-2c") renamed_conflict = Some c
    /\ demo_decide KeepCloud "uuid-2c" renamed_conflict = Some (Ok views, d')
    /\ connections (local d') !! c_asset_id c = Some row /\ record_from_row demo_from_str (c_asset_id c) row = Ok record
    /\ connection_projection number_of_i64 json_to_string sha256 record = connection_projection number_of_i64 json_to_string sha256 their_record.
Proof.
  destruct (find_conflict demo_account (lit "uuid-2c") renamed_conflict) as [c|] eqn:Ec; [|vm_compute in Ec; discriminate Ec].
  assert (Hc : (fun c => (k_remote_tombstone (c_row c), k_asset_type (c_row c), remote_plaintext demo_account c demo_keys, c_asset_id c))
    <$> find_conflict demo_account (lit "uuid-2c") renamed_conflict = Some (false, Connection, Ok (lit "c/Theirs"), lit "c")) by (vm_compute; reflexivity).
  rewrite Ec in Hc. apply Some_inj, pair_eq in Hc as [[[H1 H2]%pair_eq H3]%pair_eq H4].
  destruct (decide_fact (demo_decide KeepCloud "uuid-2c" renamed_conflict)) as (views & d' & Hd); [vm_compute; reflexivity|].
  destruct (assets renamed_conflict !! (demo_account, lit "c")) as [a|] eqn:Ea; [|vm_compute in Ea; discriminate Ea].
  rewrite <-H4 in Ea.
  assert (Hslice : demo_connection_from_slice [] (lit "c/Theirs") = Some (project_connection their_record)) by (vm_compute; reflexivity).
  assert (Hv : value_ok (r_payload their_record)) by (apply value_ok_object; split; repeat constructor).
  unfold demo_decide in Hd.
  destruct (keep_cloud_takes_the_cloud_version (C := demo_codec) 9 demo_json_round_trip demo_json_sorted (fun _ => None) (lit "t9") second_uuid demo_nonce
    demo_account (lit "uuid-2c") demo_keys c a renamed_conflict views d' (lit "c/Theirs") their_record Ec H1 H2 H3 Hslice (eq_sym H4)
    Hv eq_refl eq_refl Ea Hd) as ((row & record & Hrow & Hrec & Hp) & _).
  exists c, views, d', row, record. exact (conj eq_refl (conj Hd (conj Hrow (conj Hrec Hp)))).
Defined.

(** ** Where the code departs from what it means to do *)

(** *** An older conflict takes the cloud version back *)

(** Folder [b] was moved into [a] here; another device moved it out, then into [c]. *)
Definition twice_conflicted : SyncDb :=
  let start := demo_db
    (mkLocalTables ∅ (list_to_map [(lit "a", demo_folder None); (lit "b", demo_folder (Some "a")); (lit "c", demo_folder None)]))
    [("a", demo_known ConnectionFolder "a" Synced (folder_hash "a" (demo_folder None)));
     ("b", demo_known ConnectionFolder "b" Synced (folder_hash "b" (demo_folder None)));
     ("c", demo_known ConnectionFolder "c" Synced (folder_hash "c" (demo_folder None)))]%string in
  default start (pull_from 0 2 [demo_change "connection_folder" "b" 2 2 (Some "b")] start
    ≫= pull_from 2 3 [demo_change "connection_folder" "b" 3 3 (Some "b/c")]).

(** Where [b] is, the revision and the status it is known with, and the cursor. *)
Definition place_of_b (d : SyncDb) : option (option str) * option (option Z * CloudSyncAssetStatus) * option Z :=
  (fr_parent_id <$> folders (local d) !! lit "b",
   (fun a => (a_remote_revision a, a_sync_status a)) <$> assets d !! (demo_account, lit "b"), cursors d !! demo_account).

(** Accepting the cloud's version twice can end with the older one. Each pull that
    finds a conflict leaves a row of its own. Accepting the cloud's side of the newer row
    and then of the older one writes the older version to the local tables and records
    the older revision, as synchronised, while the cursor is past the newer one: it is
    not pulled again, and the next reconciliation sends nothing. *)
Theorem older_conflict_takes_back :
  exists d1 d2, decided_db KeepCloud "uuid-3b" twice_conflicted = Some d1 /\ decided_db KeepCloud "uuid-2b" d1 = Some d2
    /\ place_of_b d1 = (Some (Some (lit "c")), Some (Some 3%Z, Synced), Some 3%Z)
    /\ place_of_b d2 = (Some None, Some (Some 2%Z, Synced), Some 3%Z)
    /\ conflicts_of demo_account CfPending d2 = []
    /\ (is_ok (demo_reconcile second_uuid d2).1, map_to_list (operations (demo_reconcile second_uuid d2).2)) = (true, []).
Proof.
  assert (H : (d1 ← decided_db KeepCloud "uuid-3b" twice_conflicted; d2 ← decided_db KeepCloud "uuid-2b" d1;
    Some (place_of_b d1, place_of_b d2, conflicts_of demo_account CfPending d2,
          (is_ok (demo_reconcile second_uuid d2).1, map_to_list (operations (demo_reconcile second_uuid d2).2))))
    = Some ((Some (Some (lit "c")), Some (Some 3%Z, Synced), Some 3%Z), (Some None, Some (Some 2%Z, Synced), Some 3%Z), [], (true, [])))
    by (vm_compute; reflexivity).
  destruct (decided_db KeepCloud "uuid-3b" twice_conflicted) as [d1|]; [|discriminate H]. exists d1. cbn [mbind option_bind] in H.
  destruct (decided_db KeepCloud "uuid-2b" d1) as [d2|]; [|discriminate H]. exists d2. cbn [mbind option_bind] in H.
  apply Some_inj, pair_eq in H as [[[H1 H2]%pair_eq H3]%pair_eq H4]. by split_and!.
Qed.

(** *** Keeping both is not undone *)

(** A codec that reads the two versions of this example: the cloud's is in a folder that
    is not on this device. *)
Definition read_version (name : str) (folder_id : option str) : ConnectionSyncProjection :=
  mkConnectionSyncProjection SYNC_SCHEMA_VERSION Connection (lit "c") name (lit "sqlite") [] None [] [] None folder_id None (VObject []) [DatabaseFile].
Definition moved_codec : SyncCodec := {|
  json_from_str := demo_from_str;
  json_to_string := demo_to_string;
  number_of_i64 := fun n : Z => n : @Number demo_numbers;
  sha256 := fun bytes => bytes;
  base64url_encode := fun bytes => bytes;
  base64url_decode := Some;
  uuid_parses := fun _ => true;
  aead_encrypt := demo_encrypt;
  aead_decrypt := demo_decrypt;
  connection_from_slice := fun bytes =>
    Some (if str_eqb bytes (lit "c/Theirs") then read_version (lit "Theirs") (Some (lit "f")) else read_version (lit "Mine") None);
  folder_from_slice := demo_folder_from_slice [];
  change_to_json := demo_change_to_json;
  change_from_json := demo_change_from_json;
|}.

Definition moved_conflict : SyncDb :=
  default renamed_twice (pull_from (C := moved_codec) 0 2 [demo_change "connection" "c" 2 2 (Some "c/Theirs")] renamed_twice).
Definition keep_both (uuid : string) (d : SyncDb) : option (AppResult (list CloudSyncConflictView) * SyncDb) :=
  resolve_conflict (C := moved_codec) (fun _ => None) 9 (lit "t9") (fun _ => lit uuid) demo_nonce demo_account (lit "uuid-2c") KeepBoth demo_keys d.

(** How many connections are copies of the local version. *)
Definition copies (d : SyncDb) : nat :=
  length (List.filter (fun kv => str_eqb (cr_name kv.2) (lit "Mine" ++ local_version_suffix)) (map_to_list (connections (local d)))).

(** Keeping both versions leaves a copy behind each time it fails. The local version
    is stored as a new connection before the cloud's is applied; when that is refused,
    here because its folder is missing, the copy stays and the conflict is still pending.
    Every further attempt stores another copy, which the next run uploads. *)
Theorem failed_keep_both_leaves_a_copy :
  exists e d1 d2, keep_both "x1" moved_conflict = Some (Err e, d1) /\ keep_both "x2" d1 = Some (Err e, d2)
    /\ (copies moved_conflict, copies d1, copies d2) = (0, 1, 2) /\ length (conflicts_of demo_account CfPending d2) = 1.
Proof.
  assert (H : (r1 ← keep_both "x1" moved_conflict; r2 ← keep_both "x2" r1.2;
    Some (r1.1, r2.1, (copies moved_conflict, copies r1.2, copies r2.2), length (conflicts_of demo_account CfPending r2.2)))
    = Some (Err (EValidation (lit "Connection folder f does not exist")), Err (EValidation (lit "Connection folder f does not exist")), (0, 1, 2), 1))
    by (vm_compute; reflexivity).
  destruct (keep_both "x1" moved_conflict) as [[r1 d1]|]; [|discriminate H]. cbn [mbind option_bind snd fst] in H.
  destruct (keep_both "x2" d1) as [[r2 d2]|] eqn:E2; [|discriminate H]. cbn [mbind option_bind snd fst] in H.
  apply Some_inj, pair_eq in H as [[[-> ->]%pair_eq H3]%pair_eq H4]. exists (EValidation (lit "Connection folder f does not exist")), d1, d2.
  split; [exact eq_refl|]. split; [exact E2|]. split; [exact H3|exact H4].
Qed.
