(* ===== verification/SyncScheduler.v ===== *)
(** * When a synchronisation runs
    ([src-tauri/src/cloud/sync_scheduler.rs], the error codes of
     [src-tauri/src/cloud/error.rs])

    Events of the application schedule runs, which sleep, wait for the run lock, check
    that they are still wanted, and execute.  A handler of an event is one step; the
    asynchronous function [execute] is cut into steps wherever another task can run
    between its reads and writes of the shared state.  The counters are 64-bit in the
    source and unbounded here: they are incremented once per event. *)

From stdpp Require Import base gmap list strings fin_maps.
From Stdlib Require Import ZArith Lia.
From S2P Require Import Prelude Types SyncRun.

(** ** Data *)

Inductive CloudErrorCode :=
| CeUnauthenticated | CeReauthenticationRequired | CeAuthTemporarilyUnavailable | CeInsufficientScope | CeTemporarilyUnavailable
| CeProtocolError | CeAccountNotInitialized | CeConnectionSyncNotEntitled | CeConnectionSyncRestricted | CeAccountUnavailable
| CeSyncDeviceLimitExceeded | CeSyncDeviceAlreadyConfigured | CeSyncNotInitialized | CeDeviceAuthorizationConflict
| CeDeviceAuthorizationInvalid | CeDeviceAuthorizationPendingLimitExceeded | CeDeviceAuthorizationNotFound
| CeDeviceAuthorizationNotPending | CeSyncAlreadyInitialized | CeSyncInitializationMismatch | CeSyncDeviceNotAuthorized
| CeSyncSetupInvalid | CeSyncSetupExpired | CeSecureStorageUnavailable | CeRecoveryKeyExportFailed | CeRecoveryKeyInvalid
| CeConnectionSyncConflict | CeConnectionSyncQuotaExceeded | CeConnectionSyncAssetTooLarge.

(** [CloudPublicError::from_code]: whether an error of this code may be retried. *)
Definition error_retryable (code : CloudErrorCode) : bool :=
  match code with
  | CeAuthTemporarilyUnavailable | CeTemporarilyUnavailable | CeSecureStorageUnavailable | CeRecoveryKeyExportFailed => true
  | _ => false
  end.

Inductive CloudSyncRuntimePhase :=
| PhDisabled | PhIdle | PhSyncing | PhPaused | PhOffline | PhReadOnly | PhQuotaExceeded | PhConflicted | PhDeviceRevoked
| PhRecoveryRequired | PhUnavailable.

Inductive CloudSyncTrigger := TrStartup | TrAuthentication | TrForeground | TrLocalChange | TrRetry | TrManual | TrResume.

Inductive CloudSyncAccess := AcDisabled | AcRecoveryRequired | AcPaused | AcReadOnly | AcReadWrite | AcQuotaExceeded.

Record CloudSyncRuntimeProjection := mkCloudSyncRuntimeProjection {
  rp_phase : CloudSyncRuntimePhase;
  rp_trigger : option CloudSyncTrigger;
  rp_last_started_at : option str;
  rp_last_completed_at : option str;
  rp_last_succeeded_at : option str;
  rp_next_retry_at : option str;
  rp_retry_attempt : Z;
  rp_pending_operations : Z;
  rp_conflicts : Z;
  rp_last_result : option CloudSyncRunResult;
  rp_last_error_code : option CloudErrorCode;
}.

Definition default_projection : CloudSyncRuntimeProjection :=
  mkCloudSyncRuntimeProjection PhDisabled None None None None None 0 0 0 None None.

Record CloudSyncExecution := mkCloudSyncExecution {
  ex_result : CloudSyncRunResult;
  ex_account_id : str;
  ex_access : CloudSyncAccess;
}.

Record SchedulerDelays := mkSchedulerDelays {
  local_change_ms : Z;
  foreground_ms : Z;
  retry_seconds : list Z;
}.

(** [SchedulerDelays::default] *)
Definition default_delays : SchedulerDelays := mkSchedulerDelays 750 50 [5; 15; 60; 300]%Z.

Definition retry_delay_seconds_with (delays : list Z) (attempt : Z) : Z :=
  match delays !! Z.to_nat (saturating_sub attempt 1) with
  | Some seconds => seconds
  | None => default 300%Z (last delays)
  end.

Definition phase_for_error (code : CloudErrorCode) : CloudSyncRuntimePhase :=
  match code with
  | CeConnectionSyncQuotaExceeded => PhQuotaExceeded
  | CeConnectionSyncConflict => PhConflicted
  | CeSyncDeviceNotAuthorized => PhDeviceRevoked
  | CeSyncNotInitialized | CeConnectionSyncNotEntitled => PhDisabled
  | CeConnectionSyncRestricted => PhReadOnly
  | CeSecureStorageUnavailable | CeRecoveryKeyInvalid => PhRecoveryRequired
  | CeTemporarilyUnavailable | CeAuthTemporarilyUnavailable => PhOffline
  | _ => PhUnavailable
  end.

Definition phase_for_execution (conflicts : Z) (execution : CloudSyncExecution) : CloudSyncRuntimePhase :=
  if (0 <? conflicts)%Z || (0 <? rr_conflicted (ex_result execution))%Z then PhConflicted
  else match ex_access execution with
       | AcDisabled => PhDisabled
       | AcRecoveryRequired => PhRecoveryRequired
       | AcPaused => PhPaused
       | AcReadOnly => PhReadOnly
       | AcReadWrite => PhIdle
       | AcQuotaExceeded => PhQuotaExceeded
       end.

(** ** Tasks

    What was passed to [execute], and where the task stands. *)

Record RunArgs := mkRunArgs {
  ra_trigger : CloudSyncTrigger;
  ra_generation : Z;
  ra_version : option Z;
  ra_manual : bool;
}.

(** What the guard last answered the executor. *)
Inductive GuardState := NotAsked | Granted | Refused.

Inductive Task :=
| Sleeping (args : RunArgs) (version : Z) (delay_ms : Z)
| Waiting (args : RunArgs)
| Checked (args : RunArgs) (identity : str)
| Running (args : RunArgs) (identity : str) (asked : GuardState)
| Returned (args : RunArgs) (identity : str) (outcome : Result CloudErrorCode CloudSyncExecution)
| Counting (args : RunArgs) (execution : CloudSyncExecution)
| Failing (args : RunArgs) (error : CloudErrorCode)
| Suspending
| Suspended.

(** The task is past [run_lock.lock().await] and has not dropped the guard. *)
Definition holds_lock (task : Task) : bool :=
  match task with Sleeping _ _ _ | Waiting _ | Suspending => false | _ => true end.

Record Scheduler := mkScheduler {
  identity_binding : option str;
  session : option str;
  generation : Z;
  schedule_version : Z;
  retry_attempt : Z;
  in_background : bool;
  run_lock : option nat;
  projection : CloudSyncRuntimeProjection;
  tasks : gmap nat Task;
  next_task : nat;
}.

Section scheduler.
Context (delays : SchedulerDelays) (now_string : str) (now_after_seconds : Z -> str).

Definition update_projection (f : CloudSyncRuntimeProjection -> CloudSyncRuntimeProjection) (s : Scheduler) : Scheduler :=
  mkScheduler (identity_binding s) (session s) (generation s) (schedule_version s) (retry_attempt s) (in_background s)
    (run_lock s) (f (projection s)) (tasks s) (next_task s).

Definition set_task (t : nat) (task : Task) (s : Scheduler) : Scheduler :=
  mkScheduler (identity_binding s) (session s) (generation s) (schedule_version s) (retry_attempt s) (in_background s)
    (run_lock s) (projection s) (<[t := task]> (tasks s)) (next_task s).

(** A new task. *)
Definition spawn (task : Task) (s : Scheduler) : Scheduler :=
  mkScheduler (identity_binding s) (session s) (generation s) (schedule_version s) (retry_attempt s) (in_background s)
    (run_lock s) (projection s) (<[next_task s := task]> (tasks s)) (S (next_task s)).

(** The task ends; a guard it holds is dropped. *)
Definition finish (t : nat) (s : Scheduler) : Scheduler :=
  mkScheduler (identity_binding s) (session s) (generation s) (schedule_version s) (retry_attempt s) (in_background s)
    (if bool_decide (run_lock s = Some t) then None else run_lock s) (projection s) (delete t (tasks s)) (next_task s).

Definition set_counters (g v r : Z) (s : Scheduler) : Scheduler :=
  mkScheduler (identity_binding s) (session s) g v r (in_background s) (run_lock s) (projection s) (tasks s) (next_task s).

Definition cancel_scheduled_runs (s : Scheduler) : Scheduler :=
  set_counters (generation s) (schedule_version s + 1) (retry_attempt s) s.
Definition next_generation (s : Scheduler) : Scheduler :=
  set_counters (generation s + 1) (schedule_version s) (retry_attempt s) s.

(** The executor knows the identity of the session; nothing is scheduled without one. *)
Definition schedule (trigger : CloudSyncTrigger) (delay_ms : Z) (s : Scheduler) : Scheduler :=
  match session s with
  | None => s
  | Some _ =>
    let version := (schedule_version s + 1)%Z in
    let s := set_counters (generation s) version (retry_attempt s) s in
    spawn (Sleeping (mkRunArgs trigger (generation s) (Some version) false) version delay_ms) s
  end.

(** ** Handlers of events *)

Definition handle_auth_session_event (authenticated : bool) (s : Scheduler) : Scheduler :=
  let current := if authenticated then session s else None in
  let s := if bool_decide (identity_binding s = current) then s
    else
      let s := mkScheduler current (session s) (generation s) (schedule_version s) (retry_attempt s) (in_background s)
                 (run_lock s) (projection s) (tasks s) (next_task s) in
      let s := next_generation (cancel_scheduled_runs s) in
      let s := set_counters (generation s) (schedule_version s) 0 s in
      update_projection (fun _ => mkCloudSyncRuntimeProjection (if bool_decide (is_Some current) then PhIdle else PhDisabled)
        None None None None None 0 0 0 None None) s in
  if bool_decide (is_Some current) then schedule TrAuthentication 0 s else s.

Definition start (s : Scheduler) : Scheduler :=
  let s := handle_auth_session_event true s in
  if bool_decide (is_Some (session s)) then schedule TrStartup 0 s else s.

Definition on_window_focus_changed (focused : bool) (s : Scheduler) : Scheduler :=
  let set_background b s := mkScheduler (identity_binding s) (session s) (generation s) (schedule_version s) (retry_attempt s) b
    (run_lock s) (projection s) (tasks s) (next_task s) in
  if negb focused then set_background true s
  else if in_background s then schedule TrForeground (foreground_ms delays) (set_background false s)
  else s.

Definition on_local_change (s : Scheduler) : Scheduler := schedule TrLocalChange (local_change_ms delays) s.

Definition set_paused (paused : bool) (s : Scheduler) : Scheduler :=
  if paused then
    update_projection (fun p => mkCloudSyncRuntimeProjection PhPaused None (rp_last_started_at p) (rp_last_completed_at p)
      (rp_last_succeeded_at p) None (rp_retry_attempt p) (rp_pending_operations p) (rp_conflicts p) (rp_last_result p)
      (rp_last_error_code p)) (next_generation (cancel_scheduled_runs s))
  else schedule TrResume 0 s.

Definition mark_device_revoked (s : Scheduler) : Scheduler :=
  update_projection (fun p => mkCloudSyncRuntimeProjection PhDeviceRevoked (rp_trigger p) (rp_last_started_at p)
    (rp_last_completed_at p) (rp_last_succeeded_at p) None (rp_retry_attempt p) (rp_pending_operations p) (rp_conflicts p)
    (rp_last_result p) (rp_last_error_code p)) (next_generation (cancel_scheduled_runs s)).

Definition shutdown (s : Scheduler) : Scheduler :=
  update_projection (fun p => mkCloudSyncRuntimeProjection PhDisabled None (rp_last_started_at p) (rp_last_completed_at p)
    (rp_last_succeeded_at p) None (rp_retry_attempt p) (rp_pending_operations p) (rp_conflicts p) (rp_last_result p)
    (rp_last_error_code p)) (next_generation (cancel_scheduled_runs s)).

(** [suspend] and [run_now] up to where they wait for the lock. *)
Definition suspend (s : Scheduler) : Scheduler := spawn Suspending (set_paused true s).
Definition run_now (s : Scheduler) : Scheduler :=
  let s := cancel_scheduled_runs s in spawn (Waiting (mkRunArgs TrManual (generation s) None true)) s.

(** ** Steps of a task *)

(** After the sleep. *)
Definition wake (t : nat) (args : RunArgs) (version : Z) (s : Scheduler) : Scheduler :=
  if negb (schedule_version s =? version)%Z || negb (generation s =? ra_generation args)%Z then finish t s
  else set_task t (Waiting args) s.

Definition take_lock (t : nat) (s : Scheduler) : Scheduler :=
  mkScheduler (identity_binding s) (session s) (generation s) (schedule_version s) (retry_attempt s) (in_background s)
    (Some t) (projection s) (tasks s) (next_task s).

(** The checks after the lock was taken. *)
Definition check_wanted (t : nat) (args : RunArgs) (s : Scheduler) : Scheduler :=
  if negb (generation s =? ra_generation args)%Z
     || match ra_version args with Some v => negb (schedule_version s =? v)%Z | None => false end then finish t s
  else match identity_binding s with
       | None => finish t (update_projection (fun p => mkCloudSyncRuntimeProjection PhDisabled (rp_trigger p)
           (rp_last_started_at p) (rp_last_completed_at p) (rp_last_succeeded_at p) (rp_next_retry_at p) (rp_retry_attempt p)
           (rp_pending_operations p) (rp_conflicts p) (rp_last_result p) (rp_last_error_code p)) s)
       | Some identity => set_task t (Checked args identity) s
       end.

Definition begin_run (t : nat) (args : RunArgs) (identity : str) (s : Scheduler) : Scheduler :=
  set_task t (Running args identity NotAsked) (update_projection (fun p => mkCloudSyncRuntimeProjection PhSyncing (Some (ra_trigger args))
    (Some now_string) (rp_last_completed_at p) (rp_last_succeeded_at p) None (rp_retry_attempt p) (rp_pending_operations p)
    (rp_conflicts p) (rp_last_result p) None) s).

(** The guard that is passed to the executor. *)
Definition run_guard (args : RunArgs) (identity : str) (s : Scheduler) : bool :=
  (generation s =? ra_generation args)%Z && bool_decide (session s = Some identity).

(** The executor asks; once refused it returns an error, whatever it is told later. *)
Definition ask_guard (t : nat) (args : RunArgs) (identity : str) (asked : GuardState) (s : Scheduler) : Scheduler :=
  set_task t (Running args identity
    match asked with Refused => Refused | _ => if run_guard args identity s then Granted else Refused end) s.

(** The check after the executor returned. *)
Definition check_returned (t : nat) (args : RunArgs) (identity : str) (outcome : Result CloudErrorCode CloudSyncExecution)
    (s : Scheduler) : Scheduler :=
  if negb (run_guard args identity s) then finish t s
  else set_task t match outcome with Ok execution => Counting args execution | Err error => Failing args error end s.

(** After [counts] returned. *)
Definition finish_run (t : nat) (args : RunArgs) (execution : CloudSyncExecution) (pending_operations conflicts : Z)
    (s : Scheduler) : Scheduler :=
  let s := set_counters (generation s) (schedule_version s) 0 s in
  finish t (update_projection (fun p => mkCloudSyncRuntimeProjection (phase_for_execution conflicts execution) (Some (ra_trigger args))
    (rp_last_started_at p) (Some now_string) (Some now_string) (rp_next_retry_at p) 0 pending_operations conflicts
    (Some (ex_result execution)) None) s).

Definition finish_failed (t : nat) (args : RunArgs) (error : CloudErrorCode) (s : Scheduler) : Scheduler :=
  let attempt := (retry_attempt s + 1)%Z in
  let s := set_counters (generation s) (schedule_version s) attempt s in
  let seconds := retry_delay_seconds_with (retry_seconds delays) attempt in
  let s := update_projection (fun p => mkCloudSyncRuntimeProjection (phase_for_error error) (Some (ra_trigger args))
    (rp_last_started_at p) (Some now_string) (rp_last_succeeded_at p)
    (if error_retryable error then Some (now_after_seconds seconds) else None) attempt (rp_pending_operations p) (rp_conflicts p)
    (rp_last_result p) (Some error)) s in
  finish t (if error_retryable error then schedule TrRetry (seconds * 1000) s else s).

(** ** The machine *)

Inductive Event :=
| EvSession (identity : option str)
| EvStart
| EvAuth (authenticated : bool)
| EvFocus (focused : bool)
| EvLocalChange
| EvPaused (paused : bool)
| EvRevoked
| EvShutdown
| EvSuspend
| EvRunNow
| EvWake (t : nat)
| EvLock (t : nat)
| EvBegin (t : nat)
| EvAsk (t : nat)
| EvWrite (t : nat)
| EvReturn (t : nat) (outcome : Result CloudErrorCode CloudSyncExecution)
| EvCheck (t : nat)
| EvCounts (t : nat) (pending_operations conflicts : Z)
| EvFailed (t : nat)
| EvRelease (t : nat).

(** [EvSession] is the authentication manager changing the session; [EvAsk] is the executor
    calling the guard it was given, and [EvWrite] a write to the database or the server,
    of which there can be many, with other tasks in between, after one answer;
    [run_execution] asks before its first write and returns when it is refused.
    [EvRelease] is the caller of [suspend] dropping the guard it got.  [None]: the event
    cannot happen. *)
Definition step (e : Event) (s : Scheduler) : option Scheduler :=
  match e with
  | EvSession identity => Some (mkScheduler (identity_binding s) identity (generation s) (schedule_version s) (retry_attempt s)
      (in_background s) (run_lock s) (projection s) (tasks s) (next_task s))
  | EvStart => Some (start s)
  | EvAuth authenticated => Some (handle_auth_session_event authenticated s)
  | EvFocus focused => Some (on_window_focus_changed focused s)
  | EvLocalChange => Some (on_local_change s)
  | EvPaused paused => Some (set_paused paused s)
  | EvRevoked => Some (mark_device_revoked s)
  | EvShutdown => Some (shutdown s)
  | EvSuspend => Some (suspend s)
  | EvRunNow => Some (run_now s)
  | EvWake t => match tasks s !! t with Some (Sleeping args version _) => Some (wake t args version s) | _ => None end
  | EvLock t =>
    match run_lock s, tasks s !! t with
    | None, Some (Waiting args) => Some (check_wanted t args (take_lock t s))
    | None, Some Suspending => Some (set_task t Suspended (take_lock t s))
    | _, _ => None
    end
  | EvBegin t => match tasks s !! t with Some (Checked args identity) => Some (begin_run t args identity s) | _ => None end
  | EvAsk t =>
    match tasks s !! t with Some (Running args identity asked) => Some (ask_guard t args identity asked s) | _ => None end
  | EvWrite t => match tasks s !! t with Some (Running _ _ Granted) => Some s | _ => None end
  | EvReturn t outcome =>
    match tasks s !! t with Some (Running args identity _) => Some (set_task t (Returned args identity outcome) s) | _ => None end
  | EvCheck t =>
    match tasks s !! t with Some (Returned args identity outcome) => Some (check_returned t args identity outcome s) | _ => None end
  | EvCounts t pending_operations conflicts =>
    match tasks s !! t with Some (Counting args execution) => Some (finish_run t args execution pending_operations conflicts s) | _ => None end
  | EvFailed t => match tasks s !! t with Some (Failing args error) => Some (finish_failed t args error s) | _ => None end
  | EvRelease t => match tasks s !! t with Some Suspended => Some (finish t s) | _ => None end
  end.

Fixpoint steps (events : list Event) (s : Scheduler) : option Scheduler :=
  match events with
  | [] => Some s
  | e :: events => match step e s with Some s' => steps events s' | None => None end
  end.

(** [CloudSyncScheduler::new] *)
Definition initial : Scheduler := mkScheduler None None 0 0 0 false None default_projection ∅ 0.

Definition reachable (s : Scheduler) : Prop := exists events, steps events initial = Some s.
End scheduler.

(** ** One run at a time, and none that was cancelled *)

Definition args_of (task : Task) : option RunArgs :=
  match task with
  | Sleeping args _ _ | Waiting args | Checked args _ | Running args _ _ | Returned args _ _ | Counting args _ | Failing args _ => Some args
  | Suspending | Suspended => None
  end.
Definition version_of (task : Task) : option Z := args_of task ≫= ra_version.

(** The lock is held by exactly the task that is past it, versions are never used twice,
    and no task is from the future. *)
Record scheduler_ok (s : Scheduler) : Prop := {
  so_lock : forall t, run_lock s = Some t <-> exists task, tasks s !! t = Some task /\ holds_lock task = true;
  so_next : forall t task, tasks s !! t = Some task -> t < next_task s;
  so_generation : forall t task args, tasks s !! t = Some task -> args_of task = Some args -> (ra_generation args <= generation s)%Z;
  so_version : forall t task v, tasks s !! t = Some task -> version_of task = Some v -> (v <= schedule_version s)%Z;
  so_unique : forall t1 t2 task1 task2 v, tasks s !! t1 = Some task1 -> tasks s !! t2 = Some task2 ->
    version_of task1 = Some v -> version_of task2 = Some v -> t1 = t2;
}.

(** How the state of the scheduler moves on: counters grow, a task keeps its arguments,
    and a new task has a new number. *)
Record evolves (s s' : Scheduler) : Prop := {
  ev_generation : (generation s <= generation s')%Z;
  ev_version : (schedule_version s <= schedule_version s')%Z;
  ev_next : next_task s <= next_task s';
  ev_tasks : forall t task', tasks s' !! t = Some task' ->
    next_task s <= t \/ exists task, tasks s !! t = Some task /\ args_of task' = args_of task;
}.

#[export] Instance evolves_refl : Reflexive evolves.
Proof. intros s. split; [lia|lia|lia|]. intros t task' H. right. eauto. Qed.

#[export] Instance evolves_trans : Transitive evolves.
Proof.
  intros s1 s2 s3 [G1 V1 N1 T1] [G2 V2 N2 T2]. split; [lia|lia|lia|]. intros t task3 H3.
  destruct (T2 _ _ H3) as [?|(task2 & H2 & E2)]; [left; lia|]. destruct (T1 _ _ H2) as [?|(task1 & H1 & E1)]; [by left|].
  right. exists task1. split; [done|congruence].
Qed.

(** The two together: what a step has to show. *)
Definition moves (s s' : Scheduler) : Prop := scheduler_ok s -> scheduler_ok s' /\ evolves s s'.

Lemma moves_refl s : moves s s.
Proof. intros H. split; [done|reflexivity]. Qed.

Lemma moves_trans s1 s2 s3 : moves s1 s2 -> moves s2 s3 -> moves s1 s3.
Proof. intros H12 H23 H1. destruct (H12 H1) as [H2 E12], (H23 H2) as [H3 E23]. split; [done|by etrans]. Qed.

Lemma moves_update f s : moves s (update_projection f s).
Proof. intros []. split; [by split|]. split; [done|done|done|]. cbn. eauto. Qed.

Lemma moves_counters g v r s : (generation s <= g)%Z -> (schedule_version s <= v)%Z -> moves s (set_counters g v r s).
Proof.
  intros Hg Hv [L N G V U]. split; [split; cbn; try done|split; cbn; eauto].
  - intros t task args Ht Ha. specialize (G t task args Ht Ha). lia.
  - intros t task w Ht Hw. specialize (V t task w Ht Hw). lia.
Qed.

Lemma moves_identity s i ss b : moves s (mkScheduler i ss (generation s) (schedule_version s) (retry_attempt s) b (run_lock s)
  (projection s) (tasks s) (next_task s)).
Proof. intros []. split; [by split|]. split; [done|done|done|]. cbn. eauto. Qed.

Lemma moves_spawn task s : holds_lock task = false ->
  (forall args, args_of task = Some args -> (ra_generation args <= generation s)%Z) ->
  (forall v, version_of task = Some v -> (v <= schedule_version s)%Z
    /\ forall t task', tasks s !! t = Some task' -> version_of task' <> Some v) ->
  moves s (spawn task s).
Proof.
  intros Hh Hg Hv [L N G V U]. split; [split; cbn|split; cbn; [lia|lia|lia|]].
  - intros t. rewrite L. split.
    + intros (x & Hx & Hl). exists x. split; [|done]. rewrite lookup_insert_ne; [done|]. specialize (N _ _ Hx). lia.
    + intros (x & [[<- <-]|[_ Hx]]%lookup_insert_Some & Hl); [congruence|eauto].
  - intros t x [[<- <-]|[_ Hx]]%lookup_insert_Some; [lia|]. specialize (N _ _ Hx). lia.
  - intros t x args [[<- <-]|[_ Hx]]%lookup_insert_Some; [apply Hg|by apply G with t].
  - intros t x v [[<- <-]|[_ Hx]]%lookup_insert_Some; [apply Hv|by apply V with t].
  - intros t1 t2 x1 x2 v [[<- <-]|[_ H1]]%lookup_insert_Some [[<- <-]|[_ H2]]%lookup_insert_Some E1 E2; try done.
    + by destruct (proj2 (Hv v E1) _ _ H2).
    + by destruct (proj2 (Hv v E2) _ _ H1).
    + by eapply U.
  - intros t x [[<- <-]|[_ Hx]]%lookup_insert_Some; [by left|right; eauto].
Qed.

Lemma moves_set_task t old task s : tasks s !! t = Some old -> holds_lock task = holds_lock old -> args_of task = args_of old ->
  moves s (set_task t task s).
Proof.
  intros Ht Hh Ha [L N G V U].
  assert (Hold : forall k x, <[t := task]> (tasks s) !! k = Some x ->
    exists y, tasks s !! k = Some y /\ holds_lock x = holds_lock y /\ args_of x = args_of y).
  { intros k x [[<- <-]|[_ Hx]]%lookup_insert_Some; [exists old; by split_and!|exists x; by split_and!]. }
  split; [split; cbn|split; cbn; [lia|lia|lia|]].
  - intros k. rewrite L. split.
    + intros (x & Hx & Hl). destruct (decide (t = k)) as [<-|Hne].
      * exists task. rewrite lookup_insert_eq. split; [done|]. congruence.
      * exists x. by rewrite lookup_insert_ne.
    + intros (x & (y & Hy & Hxy & _)%Hold & Hl). exists y. split; [done|congruence].
  - intros k x (y & Hy & _)%Hold. by eapply N.
  - intros k x args (y & Hy & _ & Hxy)%Hold Hx. eapply G; [exact Hy|congruence].
  - intros k x v (y & Hy & _ & Hxy)%Hold Hx. eapply V; [exact Hy|]. unfold version_of in *. congruence.
  - intros k1 k2 x1 x2 v (y1 & Hy1 & _ & E1)%Hold (y2 & Hy2 & _ & E2)%Hold V1 V2.
    eapply U; [exact Hy1|exact Hy2|..]; unfold version_of in *; [rewrite <-E1; exact V1|rewrite <-E2; exact V2].
  - intros k x (y & Hy & _ & Hxy)%Hold. eauto.
Qed.

Lemma moves_finish t s : moves s (finish t s).
Proof.
  intros [L N G V U].
  assert (Hold : forall k x, delete t (tasks s) !! k = Some x -> k <> t /\ tasks s !! k = Some x) by (by intros k x [? ?]%lookup_delete_Some).
  split; [split; cbn|split; cbn; [lia|lia|lia|]].
  - intros k. destruct (decide (k = t)) as [->|Hne].
    + split; [case_bool_decide; congruence|]. intros (x & Hx & _). by rewrite lookup_delete_eq in Hx.
    + rewrite lookup_delete_ne by done. rewrite <-L. case_bool_decide as E; [|done]. rewrite E. split; congruence.
  - intros k x [_ Hx]%Hold. by eapply N.
  - intros k x args [_ Hx]%Hold. by apply G with k.
  - intros k x v [_ Hx]%Hold. by apply V with k.
  - intros k1 k2 x1 x2 v [_ H1]%Hold [_ H2]%Hold. by apply U.
  - intros k x [_ Hx]%Hold. eauto.
Qed.

(** A task that waits takes the free lock. *)
Lemma moves_take_lock t old task s : run_lock s = None -> tasks s !! t = Some old -> holds_lock task = true ->
  args_of task = args_of old -> moves s (set_task t task (take_lock t s)).
Proof.
  intros Hfree Ht Hh Ha [L N G V U].
  assert (Hold : forall k x, <[t := task]> (tasks s) !! k = Some x -> exists y, tasks s !! k = Some y /\ args_of x = args_of y).
  { intros k x [[<- <-]|[_ Hx]]%lookup_insert_Some; eauto. }
  split; [split; cbn|split; cbn; [lia|lia|lia|]].
  - intros k. split.
    + intros [= <-]. exists task. by rewrite lookup_insert_eq.
    + intros (x & [[<- _]|[_ Hx]]%lookup_insert_Some & Hl); [done|]. assert (run_lock s = Some k) by (apply L; eauto). congruence.
  - intros k x (y & Hy & _)%Hold. by eapply N.
  - intros k x args (y & Hy & Hxy)%Hold Hx. eapply G; [exact Hy|congruence].
  - intros k x v (y & Hy & Hxy)%Hold Hx. eapply V; [exact Hy|]. unfold version_of in *. congruence.
  - intros k1 k2 x1 x2 v (y1 & Hy1 & E1)%Hold (y2 & Hy2 & E2)%Hold V1 V2.
    eapply U; [exact Hy1|exact Hy2|..]; unfold version_of in *; [rewrite <-E1; exact V1|rewrite <-E2; exact V2].
  - intros k x (y & Hy & Hxy)%Hold. eauto.
Qed.

(** A task that takes the free lock and ends leaves it free. *)
Lemma moves_lock_and_finish t s f : run_lock s = None ->
  moves s (finish t (update_projection f (take_lock t s))) /\ moves s (finish t (take_lock t s)).
Proof.
  intros Hfree. assert (H : moves s (finish t (take_lock t s))); [|split; [|exact H]].
  - assert (finish t (take_lock t s) = finish t s) as ->; [|apply moves_finish].
    unfold finish, take_lock. cbn. rewrite bool_decide_true by done. rewrite Hfree. done.
  - eapply moves_trans; [exact H|]. apply (moves_update f (finish t (take_lock t s))).
Qed.

Lemma moves_schedule trigger delay s : moves s (schedule trigger delay s).
Proof.
  unfold schedule. destruct (session s); [|apply moves_refl]. intros Hok.
  refine (moves_trans _ _ _ (moves_counters (generation s) (schedule_version s + 1) (retry_attempt s) s _ _) _ Hok); [lia|lia|].
  apply moves_spawn; [done|..].
  - intros args [= <-]. cbn. lia.
  - intros v [= <-]. cbn. split; [lia|]. intros t task' Ht E. pose proof (so_version _ Hok _ _ _ Ht E). lia.
Qed.

Lemma moves_next_generation s : moves s (next_generation (cancel_scheduled_runs s)).
Proof. apply (moves_trans _ (cancel_scheduled_runs s)); apply moves_counters; cbn; lia. Qed.

Section theorems.
Context (delays : SchedulerDelays) (now_string : str) (now_after_seconds : Z -> str).
Local Abbreviation step := (step delays now_string now_after_seconds).
Local Abbreviation steps := (steps delays now_string now_after_seconds).
Local Abbreviation reachable := (reachable delays now_string now_after_seconds).

Lemma moves_auth authenticated s : moves s (handle_auth_session_event authenticated s).
Proof.
  unfold handle_auth_session_event. set (current := if authenticated then session s else None).
  match goal with |- moves s (if _ then schedule _ _ ?x else ?x) => assert (H : moves s x) end.
  { case_bool_decide; [apply moves_refl|]. eapply moves_trans; [apply (moves_identity s current (session s) (in_background s))|].
    eapply moves_trans; [apply moves_next_generation|]. eapply moves_trans; [|apply moves_update]. apply moves_counters; cbn; lia. }
  destruct (bool_decide (is_Some current)); [|exact H]. eapply moves_trans; [exact H|apply moves_schedule].
Qed.

Lemma moves_paused paused s : moves s (set_paused paused s).
Proof.
  unfold set_paused. destruct paused; [|apply moves_schedule]. eapply moves_trans; [apply moves_next_generation|apply moves_update].
Qed.

Lemma moves_lock t args s : run_lock s = None -> tasks s !! t = Some (Waiting args) -> moves s (check_wanted t args (take_lock t s)).
Proof.
  intros Hl Ht. unfold check_wanted. destruct (_ || _); [by apply (moves_lock_and_finish t s id)|].
  destruct (identity_binding (take_lock t s)).
  - by eapply moves_take_lock.
  - by apply moves_lock_and_finish.
Qed.

Lemma moves_failed t args error s : moves s (finish_failed delays now_string now_after_seconds t args error s).
Proof.
  unfold finish_failed. eapply moves_trans; [|apply moves_finish].
  match goal with |- moves s (if _ then schedule _ _ ?x else ?x) => assert (H : moves s x) end.
  { eapply moves_trans; [|apply moves_update]. apply moves_counters; lia. }
  destruct (error_retryable error); [|exact H]. eapply moves_trans; [exact H|apply moves_schedule].
Qed.

Lemma step_moves e s s' : step e s = Some s' -> moves s s'.
Proof.
  destruct e as [identity| |auth|focused| |paused| | | | |t|t|t|t|t|t outcome|t|t p c|t|t]; cbn [step]; intros H.
  - injection H as <-. apply (moves_identity s (identity_binding s) identity (in_background s)).
  - injection H as <-. unfold start. destruct (bool_decide _); [|apply moves_auth]. eapply moves_trans; [apply moves_auth|apply moves_schedule].
  - injection H as <-. apply moves_auth.
  - injection H as <-. unfold on_window_focus_changed. destruct (negb focused); [apply (moves_identity s (identity_binding s) (session s) true)|].
    destruct (in_background s); [|apply moves_refl]. eapply moves_trans; [apply (moves_identity s (identity_binding s) (session s) false)|apply moves_schedule].
  - injection H as <-. apply moves_schedule.
  - injection H as <-. apply moves_paused.
  - injection H as <-. eapply moves_trans; [apply moves_next_generation|apply moves_update].
  - injection H as <-. eapply moves_trans; [apply moves_next_generation|apply moves_update].
  - injection H as <-. eapply moves_trans; [apply (moves_paused true)|]. by apply moves_spawn.
  - injection H as <-. apply (moves_trans _ (cancel_scheduled_runs s)); [apply moves_counters; lia|]. apply moves_spawn; [done| |done]. intros args [= <-]. cbn. lia.
  - destruct (tasks s !! t) as [[args v ms| | | | | | | |]|] eqn:Et; try done. injection H as <-. unfold wake.
    destruct (_ || _); [apply moves_finish|by eapply moves_set_task].
  - destruct (run_lock s) eqn:El; [done|]. destruct (tasks s !! t) as [[]|] eqn:Et; try done; injection H as <-.
    + by apply moves_lock.
    + by eapply moves_take_lock.
  - destruct (tasks s !! t) as [[]|] eqn:Et; try done. injection H as <-.
    eapply moves_trans; [apply moves_update|]. by eapply moves_set_task.
  - destruct (tasks s !! t) as [[]|] eqn:Et; try done. injection H as <-. by eapply moves_set_task.
  - destruct (tasks s !! t) as [[| | |? ? []| | | | |]|] eqn:Et; try done. injection H as <-. apply moves_refl.
  - destruct (tasks s !! t) as [[]|] eqn:Et; try done. injection H as <-. by eapply moves_set_task.
  - destruct (tasks s !! t) as [[]|] eqn:Et; try done. injection H as <-. unfold check_returned.
    destruct (negb _); [apply moves_finish|]. destruct outcome; by eapply moves_set_task.
  - destruct (tasks s !! t) as [[]|] eqn:Et; try done. injection H as <-. unfold finish_run.
    eapply moves_trans; [|apply moves_finish]. eapply moves_trans; [|apply moves_update]. apply moves_counters; lia.
  - destruct (tasks s !! t) as [[]|] eqn:Et; try done. injection H as <-. apply moves_failed.
  - destruct (tasks s !! t) as [[]|] eqn:Et; try done. injection H as <-. apply moves_finish.
Qed.

Lemma steps_moves events s s' : steps events s = Some s' -> moves s s'.
Proof.
  revert s. induction events as [|e events IH]; intros s; cbn [steps]; [intros [= <-]; apply moves_refl|].
  destruct (step e s) as [s1|] eqn:E; [|done]. intros H. eapply moves_trans; [by eapply step_moves|by apply IH].
Qed.

Lemma initial_ok : scheduler_ok initial.
Proof.
  split; cbn; try (intros *; by rewrite lookup_empty). intros t. split; [done|]. intros (x & Hx & _). by rewrite lookup_empty in Hx.
Qed.

Lemma scheduler_reachable_ok s : reachable s -> scheduler_ok s.
Proof. intros [events H]. exact (proj1 (steps_moves _ _ _ H initial_ok)). Qed.

(** *** The steps of one task *)

(** What an event can make of a task. *)
Inductive becomes (e : Event) (t : nat) (s : Scheduler) : Task -> Task -> Prop :=
| becomes_awake args v ms : becomes e t s (Sleeping args v ms) (Waiting args)
| becomes_checked args identity : ra_generation args = generation s ->
    (forall v, ra_version args = Some v -> v = schedule_version s) -> becomes e t s (Waiting args) (Checked args identity)
| becomes_suspended : becomes e t s Suspending Suspended
| becomes_running args identity : becomes e t s (Checked args identity) (Running args identity NotAsked)
| becomes_granted args identity asked : e = EvAsk t -> run_guard args identity s = true -> asked <> Refused ->
    becomes e t s (Running args identity asked) (Running args identity Granted)
| becomes_refused args identity asked : becomes e t s (Running args identity asked) (Running args identity Refused)
| becomes_returned args identity asked outcome : becomes e t s (Running args identity asked) (Returned args identity outcome)
| becomes_counting args identity execution : run_guard args identity s = true ->
    becomes e t s (Returned args identity (Ok execution)) (Counting args execution)
| becomes_failing args identity error : run_guard args identity s = true ->
    becomes e t s (Returned args identity (Err error)) (Failing args error).

(** A task that is not new was there, and is as it was but for its own event. *)
Definition follows (e : Event) (s s' : Scheduler) : Prop :=
  forall t task', t < next_task s -> tasks s' !! t = Some task' ->
  exists task, tasks s !! t = Some task /\ ((task' = task /\ e <> EvAsk t) \/ becomes e t s task task').

(** No task but one that is asked about changes, beyond ending and beginning. *)
Definition calm (s s' : Scheduler) : Prop :=
  next_task s <= next_task s' /\ forall t task', t < next_task s -> tasks s' !! t = Some task' -> tasks s !! t = Some task'.

Lemma calm_trans s1 s2 s3 : calm s1 s2 -> calm s2 s3 -> calm s1 s3.
Proof. intros [N1 H1] [N2 H2]. split; [lia|]. intros t x Ht Hx. apply H1, H2; [done|lia|done]. Qed.

Lemma calm_same s s' : tasks s' = tasks s -> next_task s' = next_task s -> calm s s'.
Proof. intros Ht Hn. split; [lia|]. intros t x _. by rewrite Ht. Qed.

Lemma calm_spawn task s : calm s (spawn task s).
Proof. split; cbn; [lia|]. intros t x Ht. rewrite lookup_insert_ne by lia. done. Qed.

Lemma calm_schedule trigger delay s : calm s (schedule trigger delay s).
Proof.
  unfold schedule. destruct (session s); [|by apply calm_same]. eapply calm_trans; [|apply calm_spawn]. by apply calm_same.
Qed.

Lemma calm_finish t s : calm s (finish t s).
Proof. split; cbn; [lia|]. intros k x _ [_ Hx]%lookup_delete_Some. done. Qed.

Lemma calm_auth authenticated s : calm s (handle_auth_session_event authenticated s).
Proof.
  unfold handle_auth_session_event. set (current := if authenticated then session s else None).
  match goal with |- calm s (if _ then schedule _ _ ?x else ?x) => assert (H : calm s x) by (case_bool_decide; by apply calm_same) end.
  destruct (bool_decide (is_Some current)); [|exact H]. eapply calm_trans; [exact H|apply calm_schedule].
Qed.

Lemma calm_failed t args error s : calm s (finish_failed delays now_string now_after_seconds t args error s).
Proof.
  unfold finish_failed. eapply calm_trans; [|apply calm_finish].
  match goal with |- calm s (if _ then schedule _ _ ?x else ?x) => assert (H : calm s x) by (by apply calm_same) end.
  destruct (error_retryable error); [|exact H]. eapply calm_trans; [exact H|apply calm_schedule].
Qed.

Lemma calm_follows e s s' : calm s s' -> (forall t, e <> EvAsk t) -> follows e s s'.
Proof. intros [_ H] He t x Ht Hx. exists x. split; [by apply H|by left]. Qed.

Lemma set_task_follows e t old task s s' : tasks s !! t = Some old -> tasks s' = <[t := task]> (tasks s) ->
  becomes e t s old task -> (forall k, k <> t -> e <> EvAsk k) -> follows e s s'.
Proof.
  intros Ht Hs Hb He k x _. rewrite Hs. intros [[<- <-]|[Hne Hx]]%lookup_insert_Some; [eauto|]. exists x. split; [done|]. left. auto.
Qed.

Lemma step_follows e s s' : step e s = Some s' -> follows e s s'.
Proof.
  destruct e as [identity| |auth|focused| |paused| | | | |t|t|t|t|t|t outcome|t|t p c|t|t]; cbn [step]; intros H;
    try (injection H as <-; apply calm_follows; [|done]).
  - by apply calm_same.
  - unfold start. destruct (bool_decide _); [|apply calm_auth]. eapply calm_trans; [apply calm_auth|apply calm_schedule].
  - apply calm_auth.
  - unfold on_window_focus_changed. destruct (negb focused); [by apply calm_same|]. destruct (in_background s); [|by apply calm_same].
    eapply calm_trans; [|apply calm_schedule]. by apply calm_same.
  - apply calm_schedule.
  - unfold set_paused. destruct paused; [by apply calm_same|apply calm_schedule].
  - by apply calm_same.
  - by apply calm_same.
  - unfold suspend. eapply calm_trans; [|apply calm_spawn]. by apply calm_same.
  - unfold run_now. eapply calm_trans; [|apply calm_spawn]. by apply calm_same.
  - destruct (tasks s !! t) as [[args v ms| | | | | | | |]|] eqn:Et; try done. injection H as <-. unfold wake.
    destruct (_ || _); [by apply calm_follows; [apply calm_finish|]|]. eapply set_task_follows; [done|done|constructor|done].
  - destruct (run_lock s) eqn:El; [done|]. destruct (tasks s !! t) as [[]|] eqn:Et; try done; injection H as <-.
    + assert (Hend : forall f, calm s (finish t (update_projection f (take_lock t s))) /\ calm s (finish t (take_lock t s)))
        by (intros f; split; (eapply calm_trans; [|apply calm_finish]); by apply calm_same).
      unfold check_wanted. destruct (_ || _) eqn:Eb; [by apply calm_follows; [apply (Hend id)|]|].
      cbn in Eb. apply orb_false_iff in Eb as [Eg Ev]. destruct (identity_binding _); [|by apply calm_follows; [apply Hend|]].
      eapply set_task_follows; [done|done| |done]. apply becomes_checked; [lia|]. intros v Hv. rewrite Hv in Ev. lia.
    + eapply set_task_follows; [done|done|constructor|done].
  - destruct (tasks s !! t) as [[]|] eqn:Et; try done. injection H as <-. eapply set_task_follows; [done|done|constructor|done].
  - destruct (tasks s !! t) as [[| | |args identity asked| | | | |]|] eqn:Et; try done. injection H as <-.
    eapply set_task_follows; [done|done| |by intros k Hk [= ->]].
    destruct asked; [..|constructor]; destruct (run_guard args identity s) eqn:Eg; by constructor.
  - destruct (tasks s !! t) as [[| | |? ? []| | | | |]|] eqn:Et; try done. injection H as <-. apply calm_follows; [by apply calm_same|done].
  - destruct (tasks s !! t) as [[]|] eqn:Et; try done. injection H as <-. eapply set_task_follows; [done|done|constructor|done].
  - destruct (tasks s !! t) as [[]|] eqn:Et; try done. injection H as <-. unfold check_returned.
    destruct (run_guard _ _ s) eqn:Eg; cbn [negb]; [|by apply calm_follows; [apply calm_finish|]].
    eapply set_task_follows; [done|done| |done]. destruct outcome; by constructor.
  - destruct (tasks s !! t) as [[]|] eqn:Et; try done. injection H as <-. apply calm_follows; [|done].
    unfold finish_run. eapply calm_trans; [|apply calm_finish]. by apply calm_same.
  - destruct (tasks s !! t) as [[]|] eqn:Et; try done. injection H as <-. apply calm_follows; [|done]. apply calm_failed.
  - destruct (tasks s !! t) as [[]|] eqn:Et; try done. injection H as <-. apply calm_follows; [|done]. apply calm_finish.
Qed.

(** What holds of a task and stays so at every step holds of it later, if it is still there. *)
Lemma task_stays (P : Scheduler -> Task -> Prop) t events s s' :
  (forall e s s' task, scheduler_ok s -> step e s = Some s' -> tasks s !! t = Some task -> P s task ->
     forall task', tasks s' !! t = Some task' -> P s' task') ->
  scheduler_ok s -> t < next_task s -> (forall task, tasks s !! t = Some task -> P s task) -> steps events s = Some s' ->
  forall task', tasks s' !! t = Some task' -> P s' task'.
Proof.
  intros Hstep. revert s. induction events as [|e events IH]; intros s Hok Ht HP H; cbn in H; [by injection H as <-|].
  destruct (step e s) as [s1|] eqn:E; [|done]. destruct (step_moves _ _ _ E Hok) as [Hok1 E1].
  apply (IH s1); [done|pose proof (ev_next _ _ E1); lia| |done]. intros task1 Ht1.
  destruct (step_follows _ _ _ E t task1 Ht Ht1) as (task & Htask & _).
  exact (Hstep _ _ _ _ Hok E Htask (HP _ Htask) _ Ht1).
Qed.

(** A scheduled run that is not the latest one, or not of this generation. *)
Definition outdated (s : Scheduler) (task : Task) : Prop := exists args, args_of task = Some args
  /\ ((ra_generation args < generation s)%Z \/ exists v, ra_version args = Some v /\ (v < schedule_version s)%Z).

Lemma outdated_stays t e s s' task : scheduler_ok s -> step e s = Some s' -> tasks s !! t = Some task ->
  outdated s task /\ holds_lock task = false -> forall task', tasks s' !! t = Some task' -> outdated s' task' /\ holds_lock task' = false.
Proof.
  intros Hok He Ht [(args & Ha & Hold) Hl] task' Ht'. pose proof (so_next _ Hok _ _ Ht) as Hn.
  destruct (step_moves _ _ _ He Hok) as [_ [Hg Hv _ _]].
  assert (Hout : args_of task' = Some args -> outdated s' task').
  { intros Ha'. exists args. split; [done|]. destruct Hold as [?|(v & ? & ?)]; [left; lia|right; exists v; split; [done|lia]]. }
  destruct (step_follows _ _ _ He t task' Hn Ht') as (task0 & Ht0 & [[-> _]|Hb]); rewrite Ht0 in Ht; injection Ht as <-; [auto|].
  destruct Hb as [? ? ?|? ? Hgen Hver| | | | | | |]; try done; [auto|]. exfalso. injection Ha as ->.
  destruct Hold as [?|(v & Hv' & ?)]; [lia|]. specialize (Hver _ Hv'). lia.
Qed.

(** C16: At most one task is past the run lock, and of the scheduled runs only the latest
    starts. In every state that the application can reach, the lock is held by exactly the
    task that took it and has not finished, so two runs never execute at the same time and
    none executes while a caller of [suspend] (which replaces keys or clears the account)
    holds the lock.  Of the scheduled runs that have not taken the lock at most one is the
    latest, and one that is not the latest, or was cancelled, never takes it, whatever
    happens later: a burst of events leads to one run. *)
Theorem one_run_at_a_time s : reachable s ->
  (forall t, run_lock s = Some t <-> exists task, tasks s !! t = Some task /\ holds_lock task = true)
  /\ (forall t1 t2 task1 task2, tasks s !! t1 = Some task1 -> tasks s !! t2 = Some task2 ->
      holds_lock task1 = true -> holds_lock task2 = true -> t1 = t2)
  /\ (forall t1 t2 task1 task2, tasks s !! t1 = Some task1 -> tasks s !! t2 = Some task2 ->
      version_of task1 = Some (schedule_version s) -> version_of task2 = Some (schedule_version s) -> t1 = t2)
  /\ (forall t t', tasks s !! t = Some Suspended -> step (EvWrite t') s = None /\ step (EvLock t') s = None)
  /\ (forall t task args events s', tasks s !! t = Some task -> holds_lock task = false -> args_of task = Some args ->
      ra_generation args <> generation s \/ (exists v, ra_version args = Some v /\ v <> schedule_version s) ->
      steps events s = Some s' -> forall task', tasks s' !! t = Some task' -> holds_lock task' = false).
Proof.
  intros Hok%scheduler_reachable_ok. pose proof Hok as [L N G V U]. split; [exact L|].
  assert (Hone : forall t1 t2 task1 task2, tasks s !! t1 = Some task1 -> tasks s !! t2 = Some task2 ->
    holds_lock task1 = true -> holds_lock task2 = true -> t1 = t2).
  { intros t1 t2 x1 x2 H1 H2 L1 L2. assert (run_lock s = Some t1) by (apply L; eauto).
    assert (run_lock s = Some t2) by (apply L; eauto). congruence. }
  split; [exact Hone|]. split; [intros t1 t2 x1 x2 H1 H2; by apply (U t1 t2 x1 x2)|]. split.
  - intros t t' Ht. split; cbn [step].
    + destruct (tasks s !! t') as [[]|] eqn:Et'; try done. assert (t = t') as <- by (by eapply Hone). congruence.
    + assert (run_lock s = Some t) as ->; [|done]. apply L. by exists Suspended.
  - intros t task args events s' Ht Hl Ha Hold Hs task' Ht'.
    refine (proj2 (task_stays (fun s task => outdated s task /\ holds_lock task = false) t events s s' _ Hok _ _ Hs task' Ht')).
    + intros e s0 s1 x. apply outdated_stays.
    + by eapply N.
    + intros x Hx. rewrite Ht in Hx. injection Hx as <-. split; [|done]. exists args. split; [done|].
      pose proof (G _ _ _ Ht Ha). destruct Hold as [?|(v & Hv & ?)]; [left; lia|right; exists v; split; [done|]].
      assert (version_of task = Some v) as Hver by (unfold version_of; by rewrite Ha). pose proof (V _ _ _ Ht Hver). lia.
Qed.

(** The events that cancel the runs there are. *)
Definition cancels (e : Event) (s : Scheduler) : Prop :=
  match e with
  | EvPaused true | EvRevoked | EvShutdown | EvSuspend => True
  | EvAuth authenticated => identity_binding s <> (if authenticated then session s else None)
  | _ => False
  end.

Lemma schedule_generation trigger delay s : generation (schedule trigger delay s) = generation s.
Proof. unfold schedule. by destruct (session s). Qed.

Lemma cancels_generation e s s' : step e s = Some s' -> cancels e s -> generation s' = (generation s + 1)%Z.
Proof.
  destruct e as [| |auth| | |[]| | | | | | | | | | | | | |]; cbn [step cancels]; try done; intros H Hc; injection H as <-; try done.
  unfold handle_auth_session_event. rewrite (bool_decide_false (identity_binding s = _)) by exact Hc.
  destruct (bool_decide _); [by rewrite schedule_generation|done].
Qed.

(** The run was cancelled. *)
Definition dismissed (s : Scheduler) (task : Task) : Prop := forall args, args_of task = Some args -> (ra_generation args < generation s)%Z.

Lemma dismissed_guard s args identity : (ra_generation args < generation s)%Z -> run_guard args identity s = false.
Proof. intros H. unfold run_guard. destruct (Z.eqb_spec (generation s) (ra_generation args)); [lia|done]. Qed.

Lemma dismissed_stays t e s s' task : scheduler_ok s -> step e s = Some s' -> tasks s !! t = Some task -> dismissed s task ->
  forall task', tasks s' !! t = Some task' -> dismissed s' task'.
Proof.
  intros Hok He Ht Hd task' Ht' args Ha. pose proof (so_next _ Hok _ _ Ht) as Hn. destruct (step_moves _ _ _ He Hok) as [_ [Hg _ _ T]].
  destruct (T _ _ Ht') as [?|(task0 & Ht0 & E)]; [lia|]. rewrite Ht0 in Ht. injection Ht as <-. specialize (Hd args). rewrite <-E in Hd.
  specialize (Hd Ha). lia.
Qed.

(** The last answer of the guard allows the run to write. *)
Definition may_write (task : Task) : bool := match task with Running _ _ Granted => true | _ => false end.

(** After a question, a cancelled run may not write; nor may it when it did not before. *)
Lemma dismissed_writes t e s s' task : scheduler_ok s -> step e s = Some s' -> tasks s !! t = Some task -> dismissed s task ->
  e = EvAsk t \/ may_write task = false -> forall task', tasks s' !! t = Some task' -> may_write task' = false.
Proof.
  intros Hok He Ht Hd Hw task' Ht'. pose proof (so_next _ Hok _ _ Ht) as Hn.
  destruct (step_follows _ _ _ He t task' Hn Ht') as (task0 & Ht0 & Hb). rewrite Ht0 in Ht. injection Ht as ->.
  destruct Hb as [[-> Hne]|Hb]; [by destruct Hw|]. destruct Hb as [| | | |? ? ? _ Hg _| | | |]; try done.
  by rewrite dismissed_guard in Hg by (by apply Hd).
Qed.

Lemma cancelled_quiet t events s s' : scheduler_ok s -> t < next_task s -> (forall task, tasks s !! t = Some task -> dismissed s task) ->
  (forall task, tasks s !! t = Some task -> may_write task = false) -> steps events s = Some s' ->
  forall task', tasks s' !! t = Some task' -> may_write task' = false.
Proof.
  intros Hok Ht Hd Hw Hs task' Ht'.
  refine (proj2 (task_stays (fun s task => dismissed s task /\ may_write task = false) t events s s' _ Hok Ht _ Hs task' Ht')).
  - intros e s0 s1 x Hok0 He Hx [H1 H2] x' Hx'. split; [by eapply dismissed_stays|]. eapply dismissed_writes; eauto.
  - auto.
Qed.

Lemma asked_quiet t events s s' : scheduler_ok s -> t < next_task s -> (forall task, tasks s !! t = Some task -> dismissed s task) ->
  EvAsk t ∈ events -> steps events s = Some s' -> forall task', tasks s' !! t = Some task' -> may_write task' = false.
Proof.
  revert s. induction events as [|e events IH]; intros s Hok Ht Hd Hin Hs; [by apply not_elem_of_nil in Hin|]. cbn in Hs.
  destruct (step e s) as [s1|] eqn:E; [|done]. destruct (step_moves _ _ _ E Hok) as [Hok1 E1]. pose proof (ev_next _ _ E1) as Hn.
  assert (Hd1 : forall task, tasks s1 !! t = Some task -> dismissed s1 task).
  { intros x Hx. destruct (step_follows _ _ _ E t x Ht Hx) as (y & Hy & _).
    exact (dismissed_stays _ _ _ _ _ Hok E Hy (Hd _ Hy) _ Hx). }
  apply elem_of_cons in Hin as [<-|Hin]; [|apply (IH s1); auto with lia].
  apply (cancelled_quiet t events s1); [done|lia|done| |done].
  intros x Hx. destruct (step_follows _ _ _ E t x Ht Hx) as (y & Hy & _).
  exact (dismissed_writes _ _ _ _ _ Hok E Hy (Hd _ Hy) (or_introl eq_refl) _ Hx).
Qed.

(** C15: A cancelled run stops at its next question. When the user pauses, signs out or
    changes the account, revokes the device, shuts down or suspends, every run that exists
    at that moment, asleep, waiting or executing, is refused by its guard ever after.  So a
    run that had not been allowed to write never writes, and one that had can at most finish
    the writes it was allowed before the event: once it asks again it writes no more.  What
    it returns when it is checked later is dropped: the projection, the retry counter and
    the schedule are left alone. *)
Theorem cancelled_run_stops_at_its_next_question s e s1 events s2 t task :
  reachable s -> tasks s !! t = Some task -> step e s = Some s1 -> cancels e s -> steps events s1 = Some s2 ->
  (may_write task = false \/ EvAsk t ∈ events -> step (EvWrite t) s2 = None)
  /\ (forall args identity asked, tasks s2 !! t = Some (Running args identity asked) -> run_guard args identity s2 = false)
  /\ (forall s3, step (EvCheck t) s2 = Some s3 -> s3 = finish t s2).
Proof.
  intros Hok%scheduler_reachable_ok Ht He Hc Hs. pose proof (cancels_generation _ _ _ He Hc) as Hg.
  destruct (step_moves _ _ _ He Hok) as [Hok1 E1]. pose proof (so_next _ Hok _ _ Ht) as Hn. pose proof (ev_next _ _ E1) as Hn1.
  assert (Hd : forall x, tasks s1 !! t = Some x -> dismissed s1 x).
  { intros x Hx args Ha. destruct (ev_tasks _ _ E1 _ _ Hx) as [?|(y & Hy & E)]; [lia|]. rewrite E in Ha.
    pose proof (so_generation _ Hok _ _ _ Hy Ha). lia. }
  assert (Hd2 : forall x, tasks s2 !! t = Some x -> dismissed s2 x).
  { intros x Hx. refine (task_stays dismissed t events s1 s2 _ Hok1 _ Hd Hs x Hx); [|lia]. intros ? ? ? ?. apply dismissed_stays. }
  split; [|split].
  - intros Hw. assert (Hq : forall x, tasks s2 !! t = Some x -> may_write x = false).
    { destruct Hw as [Hw|Hin]; [|by apply (asked_quiet t events s1); auto with lia].
      apply (cancelled_quiet t events s1); [done|lia|done| |done]. intros x Hx.
      destruct (step_follows _ _ _ He t x Hn Hx) as (y & Hy & [[-> _]|Hb]); rewrite Hy in Ht; injection Ht as ->; [done|].
      destruct Hb as [| | | |? ? ? -> _ _| | | |]; done. }
    cbn [step]. destruct (tasks s2 !! t) as [x|] eqn:Ex; [|done]. specialize (Hq _ eq_refl).
    by destruct x as [| | |? ? []| | | | |].
  - intros args identity asked Hx. apply dismissed_guard. by apply (Hd2 _ Hx).
  - intros s3. cbn [step]. destruct (tasks s2 !! t) as [[]|] eqn:Ex; try done. intros [= <-]. unfold check_returned.
    rewrite dismissed_guard; [done|]. by apply (Hd2 _ eq_refl).
Qed.
End theorems.

(** ** Concrete runs *)

Definition demo_steps (events : list Event) : option Scheduler := steps default_delays (lit "now") (fun _ => lit "later") events initial.

Lemma demo_scheduler_reachable events s : demo_steps events = Some s -> reachable default_delays (lit "now") (fun _ => lit "later") s.
Proof. intros H. exists events. exact H. Qed.

(** A user signs in; the run that this schedules (task 0) starts to execute. *)
Definition signed_in : list Event := [EvSession (Some (lit "user")); EvAuth true; EvWake 0; EvLock 0; EvBegin 0].

Lemma one_run_at_a_time_witness :
  exists s, demo_steps (signed_in ++ [EvSuspend]) = Some s /\ run_lock s = Some 0
    /\ exists task, tasks s !! 0 = Some task /\ holds_lock task = true.
Proof.
  assert (Hrun : run_lock <$> demo_steps (signed_in ++ [EvSuspend]) = Some (Some 0)) by (vm_compute; reflexivity).
  destruct (demo_steps (signed_in ++ [EvSuspend])) as [s|] eqn:E; [|discriminate Hrun]. injection Hrun as Hlock.
  exists s. split; [reflexivity|].
  destruct (one_run_at_a_time default_delays (lit "now") (fun _ => lit "later") s (demo_scheduler_reachable _ _ E)) as (HL & _).
  split; [exact Hlock|]. exact (proj1 (HL 0) Hlock).
Defined.

(** The run was allowed to write when the user pauses; it asks once more. *)
Lemma cancelled_run_stops_at_its_next_question_witness :
  exists s s2, demo_steps (signed_in ++ [EvAsk 0]) = Some s
    /\ is_Some (step default_delays (lit "now") (fun _ => lit "later") (EvWrite 0) s)
    /\ demo_steps (signed_in ++ [EvAsk 0; EvPaused true; EvAsk 0]) = Some s2
    /\ step default_delays (lit "now") (fun _ => lit "later") (EvWrite 0) s2 = None.
Proof.
  assert (Hrun : (fun s => bool_decide (is_Some (step default_delays (lit "now") (fun _ => lit "later") (EvWrite 0) s)
      /\ is_Some (tasks s !! 0) /\ is_Some (step default_delays (lit "now") (fun _ => lit "later") (EvAsk 0) (set_paused true s))))
    <$> demo_steps (signed_in ++ [EvAsk 0]) = Some true) by (vm_compute; reflexivity).
  assert (Happ : forall s, demo_steps (signed_in ++ [EvAsk 0]) = Some s ->
    demo_steps (signed_in ++ [EvAsk 0; EvPaused true; EvAsk 0]) = step default_delays (lit "now") (fun _ => lit "later") (EvAsk 0) (set_paused true s)).
  { intros s H. vm_compute in H. injection H as <-. vm_compute. reflexivity. }
  destruct (demo_steps (signed_in ++ [EvAsk 0])) as [s|] eqn:E; [|discriminate Hrun]. injection Hrun as Hrun.
  apply bool_decide_eq_true in Hrun as (Hw & [task Ht] & [s2 Hs2]).
  exists s, s2. split; [reflexivity|]. split; [exact Hw|]. split; [rewrite (Happ s eq_refl); exact Hs2|].
  refine (proj1 (cancelled_run_stops_at_its_next_question default_delays (lit "now") (fun _ => lit "later") s (EvPaused true) (set_paused true s)
    [EvAsk 0] s2 0 task (demo_scheduler_reachable _ _ E) Ht eq_refl I _) _).
  - assert (H : step default_delays (lit "now") (fun _ => lit "later") (EvAsk 0) (set_paused true s) = Some s2) by exact Hs2.
    unfold steps. fold steps. rewrite H. reflexivity.
  - right. apply elem_of_cons. left. reflexivity.
Defined.

(** ** A run that ends can hide that it was cancelled *)

Definition done_execution : CloudSyncExecution :=
  mkCloudSyncExecution (mkCloudSyncRunResult 0 0 0 0 0 7) (lit "acct") AcReadWrite.

(** After its last check of the generation a run awaits the counts of operations and
    conflicts, and then writes its result without a further check.  A pause, or a change of
    account, in between is overwritten: the scheduler says idle where it should say
    paused, and shows the result of the account that signed out. *)
Theorem finished_run_overwrites_pause :
  (exists s, demo_steps (signed_in ++ [EvReturn 0 (Ok done_execution); EvCheck 0; EvPaused true; EvCounts 0 0 0]) = Some s
    /\ rp_phase (projection s) = PhIdle /\ tasks s = ∅)
  /\ (exists s, demo_steps (signed_in ++ [EvReturn 0 (Ok done_execution); EvCheck 0; EvSession None; EvAuth false; EvCounts 0 0 0])
        = Some s /\ identity_binding s = None /\ rp_last_result (projection s) = Some (ex_result done_execution))
  /\ (exists s, demo_steps (signed_in ++ [EvReturn 0 (Ok done_execution); EvPaused true; EvCheck 0]) = Some s
    /\ rp_phase (projection s) = PhPaused).
Proof. split_and!; eexists; (split; [vm_compute; reflexivity|]); by vm_compute. Qed.
