(* ===== verification/SyncCycle.v ===== *)
(** * A whole run of the synchronisation
    ([run_execution], [pull_pages] and what they use of
     [src-tauri/src/cloud/sync_coordinator.rs], [public_client_error] of
     [src-tauri/src/cloud/mod.rs])

    A run asks the server for the state of the account, reconciles and sends the local
    changes if it may write, and pulls if it may read.  A pull fetches pages until there
    are no more, at most a thousand per run, stages each, and applies what is staged at
    the end.  The theorems say that a pull that fails leaves the local tables and the
    durable cursor alone, that one that succeeds has settled every change of a chain of
    pages that leads to the new cursor, that a run that was cut short is continued where
    it ended, and that a run without the permission to write sends nothing.

    The server, the clock, random values and the guard that cancels a run are arguments;
    each turn of the loop has its own answers. *)

From stdpp Require Import base gmap list strings fin_maps.
From Stdlib Require Import ZArith Lia.
From S2P Require Import Prelude Digits Types Connections SyncProjection SyncPull SyncStore SyncApply SyncDemo SyncSafety SyncPages SyncRun SyncResolve SyncScheduler.

(** ** Errors *)

Definition public_client_error (error : CloudClientError) : CloudErrorCode :=
  match error with
  | Unauthorized => CeReauthenticationRequired
  | InsufficientScope => CeInsufficientScope
  | TemporarilyUnavailable => CeTemporarilyUnavailable
  | InvalidConfiguration | ResponseTooLarge | InvalidResponse => CeProtocolError
  | AccountNotInitialized => CeAccountNotInitialized
  | ConnectionSyncNotEntitled => CeConnectionSyncNotEntitled
  | ConnectionSyncLifecycleRestricted => CeConnectionSyncRestricted
  | AccountUnavailable => CeAccountUnavailable
  | SyncDeviceLimitExceeded => CeSyncDeviceLimitExceeded
  | SyncNotInitialized => CeSyncNotInitialized
  | DeviceAuthorizationRequestMismatch => CeDeviceAuthorizationConflict
  | PendingDeviceAuthorizationLimitExceeded => CeDeviceAuthorizationPendingLimitExceeded
  | DeviceAuthorizationNotFound => CeDeviceAuthorizationNotFound
  | DeviceAuthorizationNotPending => CeDeviceAuthorizationNotPending
  | SyncDeviceIdConflict => CeDeviceAuthorizationConflict
  | SyncAlreadyInitialized => CeSyncAlreadyInitialized
  | SyncInitializationMismatch | InvalidSyncRequest => CeSyncInitializationMismatch
  | SyncDeviceNotAuthorized => CeSyncDeviceNotAuthorized
  | ConnectionAssetOperationMismatch | ConnectionAssetTypeMismatch => CeConnectionSyncConflict
  | EncryptedByteLimitExceeded => CeConnectionSyncQuotaExceeded
  | ConnectionAssetTooLarge => CeConnectionSyncAssetTooLarge
  | ConnectionAssetCursorInvalid | SyncKeyGenerationMismatch => CeProtocolError
  | DeviceProofUnavailable => CeSecureStorageUnavailable
  end.

(** Work on the database that fails with the code of a public error. *)
Definition RUN : Type -> Type := ST SyncDb CloudErrorCode.

(** [.map_err(|_| CloudPublicError::from_code(code))] *)
Definition or_code {A} (code : CloudErrorCode) (m : DB A) : RUN A := fun d =>
  match m d with (Ok a, d') => (Ok a, d') | (Err _, d') => (Err code, d') end.

(** [if !guard() { return Err(..) }] *)
Definition require (allowed : bool) (code : CloudErrorCode) : RUN unit := st_lift (if allowed then Ok tt else Err code).

Section cycle.
Context `{C : SyncCodec}.
(** As in [SyncResolve]. *)
Context (repair_to_vec : str -> str -> Z -> str -> list Z) (uuid_of_bytes : list Z -> str).

(** *** Binding the key *)

Definition bind_sync_key (io : option AppError) (account_id : str) (amk : list Z) (reset_unbound : bool) : RUN unit :=
  let fingerprint := lower_hex (sha256 (lit "NexusPilot cloud sync local key binding v1" ++ as_bytes account_id ++ amk)) in
  or_code CeProtocolError (bind_key io account_id fingerprint reset_unbound).

(** ** Pulling *)

Definition PAGE_SIZE : Z := 100.
Definition MAX_PAGES_PER_RUN : nat := 1000.

(** What one turn of the loop is answered: the guard each time it is asked, in the turn
    itself, in the flush and while applying; the listing of the assets after a cursor;
    uploads; random values, the clock, the order of rows, and whether a transaction fails
    for want of the file. *)
Record PullTurn := mkPullTurn {
  pt_allowed : nat -> bool;
  pt_flush_allowed : nat -> bool;
  pt_apply_allowed : nat -> bool;
  pt_list : Z -> Z -> Result CloudClientError CloudConnectionAssetListResponse;
  pt_server : CloudServer;
  pt_new_uuid : str -> str;
  pt_random_nonce : str -> option (list Z);
  pt_choose : list Conflict -> list Conflict;
  pt_now : Z;
  pt_now_text : str;
  pt_stage_io : option AppError;
  pt_apply_io : option AppError;
}.

(** A flush as its callers see it: what was counted, and the error it returns. *)
Definition flush (now : Z) (account : str) (keys : CommittedSyncKeyBundle) (server : CloudServer) (guard : nat -> bool)
    (result : CloudSyncRunResult) : RUN (CloudSyncRunResult * option CloudErrorCode) := fun d =>
  match flush_pending_operations now account keys server guard result d with
  | (Ok (result, FlushDone first_error), d) => (Ok (result, public_client_error <$> first_error), d)
  | (Ok (result, FlushCanceled), d) => (Ok (result, Some CeUnauthenticated), d)
  | (Err _, d) => (Ok (result, Some CeProtocolError), d)
  end.

(** The repairs of the changes that cannot be read; each must have one. *)
Fixpoint collect_repairs (t : PullTurn) (account : str) (keys : CommittedSyncKeyBundle) (d : SyncDb)
    (changes : list CloudConnectionAssetChange) (repairs : list EnqueueCloudSyncOperation)
    : Result CloudErrorCode (list EnqueueCloudSyncOperation) :=
  match changes with
  | [] => Ok repairs
  | change :: changes =>
    match validate_and_decrypt_change account change keys with
    | Ok _ => collect_repairs t account keys d changes repairs
    | Err _ =>
      match prepare_legacy_conflict_repair repair_to_vec uuid_of_bytes (pt_new_uuid t) (pt_random_nonce t) (pt_choose t)
              account (rc_asset change) keys d with
      | Ok (Some repair) =>
        collect_repairs t account keys d changes
          (if existsb (fun value => str_eqb (e_operation_id value) (e_operation_id repair)) repairs then repairs else repairs ++ [repair])
      | _ => Err CeProtocolError
      end
    end
  end.

Fixpoint enqueue_all (now : Z) (repairs : list EnqueueCloudSyncOperation) : DB unit :=
  match repairs with
  | [] => mret tt
  | repair :: repairs => _ ← enqueue_operation now repair; enqueue_all now repairs
  end.

Definition repair_page (t : PullTurn) (account : str) (keys : CommittedSyncKeyBundle) (items : list CloudConnectionAssetChange)
    (result : CloudSyncRunResult) : RUN CloudSyncRunResult :=
  d ← st_get;
  repairs ← st_lift (collect_repairs t account keys d items []);
  _ ← require (negb (bool_decide (repairs = [])) && pt_allowed t 1) CeProtocolError;
  _ ← or_code CeProtocolError (enqueue_all (pt_now t) repairs);
  flushed ← flush (pt_now t) account keys (pt_server t) (pt_flush_allowed t) result;
  match flushed.2 with Some error => st_lift (Err error) | None => mret flushed.1 end.

(** Where the loop continues. *)
Record Position := mkPosition {
  po_cursor : Z;
  po_page_size : Z;
  po_repaired : list Z;
}.

Definition count_summary (summary : SyncApplySummary) (r : CloudSyncRunResult) : CloudSyncRunResult :=
  mkCloudSyncRunResult (rr_uploaded r) (rr_deleted r) (rr_pulled r + Z.of_nat (sm_applied summary + sm_deleted summary))
    (rr_conflicted r + Z.of_nat (sm_conflicted summary)) (rr_ignored r + Z.of_nat (sm_ignored summary)) (sm_next_cursor summary).

Section pull.
Context (account : str) (keys : CommittedSyncKeyBundle) (allow_repair : bool) (initial_cursor : Z).

(** A page that was read: it is staged, and the last one has all applied. *)
Definition take_page (t : PullTurn) (p : Position) (page : ValidatedSyncPage) (result : CloudSyncRunResult)
    : RUN (CloudSyncRunResult * option Position) :=
  _ ← require (pt_allowed t 1) CeUnauthenticated;
  _ ← or_code CeProtocolError (stage_validated_page (pt_stage_io t) account page);
  if vp_has_more page then mret (result, Some (mkPosition (vp_next_cursor page) (po_page_size p) (po_repaired p)))
  else
    summary ← or_code CeProtocolError
      (apply_staged_pull (pt_now t) (pt_now_text t) (pt_new_uuid t) (pt_random_nonce t) (pt_apply_io t) account initial_cursor
         (vp_next_cursor page) keys (pt_apply_allowed t));
    mret (count_summary summary result, None).

(** One turn: [None] when the pull is complete. *)
Definition pull_turn (t : PullTurn) (p : Position) (result : CloudSyncRunResult) : RUN (CloudSyncRunResult * option Position) :=
  _ ← require (pt_allowed t 0) CeUnauthenticated;
  match pt_list t (po_cursor p) (po_page_size p) with
  | Err error =>
    match error with
    | ResponseTooLarge =>
      if (1 <? po_page_size p)%Z then mret (result, Some (mkPosition (po_cursor p) (Z.max (po_page_size p / 2) 1) (po_repaired p)))
      else st_lift (Err (public_client_error ResponseTooLarge))
    | _ => st_lift (Err (public_client_error error))
    end
  | Ok response =>
    match validate_and_decrypt_page account (po_cursor p) response keys with
    | Ok page => take_page t p page result
    | Err DecryptionFailed =>
      if allow_repair && negb (bool_decide (po_cursor p ∈ po_repaired p))
      then
        result ← repair_page t account keys (lr_items response) result;
        mret (result, Some (mkPosition (po_cursor p) (po_page_size p) (po_cursor p :: po_repaired p)))
      else st_lift (Err CeProtocolError)
    | Err _ => st_lift (Err CeProtocolError)
    end
  end.

Fixpoint pull_loop (turns : nat -> PullTurn) (pages n : nat) (p : Position) (result : CloudSyncRunResult) : RUN CloudSyncRunResult :=
  match pages with
  | O => st_lift (Err CeTemporarilyUnavailable)
  | S pages =>
    ended ← pull_turn (turns n) p result;
    match ended.2 with
    | None => mret ended.1
    | Some p => pull_loop turns pages (S n) p ended.1
    end
  end.
End pull.

Definition pull_pages (begin_io : option AppError) (turns : nat -> PullTurn) (account : str) (keys : CommittedSyncKeyBundle)
    (allow_repair : bool) (result : CloudSyncRunResult) : RUN CloudSyncRunResult :=
  cursors ← or_code CeProtocolError (begin_staged_pull begin_io account);
  pull_loop account keys allow_repair cursors.1 turns MAX_PAGES_PER_RUN 0 (mkPosition cursors.2 PAGE_SIZE []) result.

(** ** A run *)

(** [connection_sync.permissions] and [sync.initialized] of the state. *)
Record SyncState := mkSyncState {
  ss_initialized : bool;
  ss_write_encrypted_assets : bool;
  ss_read_encrypted_assets : bool;
}.

(** What a run is answered: the guard; the client and the token; the account; its state;
    whether it is paused on this device; its keys; and what its parts are answered. *)
Record RunEnv := mkRunEnv {
  re_allowed : nat -> bool;
  re_reconcile_allowed : nat -> bool;
  re_flush_allowed : nat -> bool;
  re_access_token : Result CloudErrorCode unit;
  re_bootstrap : Result CloudClientError str;
  re_state : Result CloudClientError SyncState;
  re_paused : str -> bool;
  re_keys : str -> Result unit (option CommittedSyncKeyBundle);
  re_server : CloudServer;
  re_new_uuid : str -> str;
  re_random_nonce : str -> option (list Z);
  re_connection_ids : list str;
  re_folder_ids : list str;
  re_now : Z;
  re_bind_io : option AppError;
  re_begin_io : option AppError;
  re_turns : nat -> PullTurn;
}.

Definition run_result (cursor : Z) : CloudSyncRunResult := mkCloudSyncRunResult 0 0 0 0 0 cursor.

(** A run that does nothing but report. *)
Definition only_report (account : str) (access : CloudSyncAccess) : RUN CloudSyncExecution :=
  cursor ← or_code CeProtocolError (get_cursor account);
  mret (mkCloudSyncExecution (run_result cursor) account access).

(** Reconciling and sending, if the run may write. *)
Definition send_changes (e : RunEnv) (account : str) (keys : CommittedSyncKeyBundle) (access : CloudSyncAccess) (result : CloudSyncRunResult)
    : RUN (CloudSyncRunResult * CloudSyncAccess) :=
  _ ← or_code (if re_allowed e 3 then CeProtocolError else CeUnauthenticated)
        (reconcile_local_assets (re_now e) (re_new_uuid e) (re_random_nonce e) account keys (re_reconcile_allowed e)
           (re_connection_ids e) (re_folder_ids e));
  flushed ← flush (re_now e) account keys (re_server e) (re_flush_allowed e) result;
  match flushed.2 with
  | None => mret (flushed.1, access)
  | Some CeConnectionSyncQuotaExceeded => mret (flushed.1, AcQuotaExceeded)
  | Some error => st_lift (Err error)
  end.

Definition run_with_keys (e : RunEnv) (account : str) (state : SyncState) (keys : CommittedSyncKeyBundle) : RUN CloudSyncExecution :=
  _ ← bind_sync_key (re_bind_io e) account (kb_amk keys) false;
  cursor ← or_code CeProtocolError (get_cursor account);
  let access := if ss_write_encrypted_assets state then AcReadWrite else if ss_read_encrypted_assets state then AcReadOnly else AcDisabled in
  _ ← require (re_allowed e 2) CeUnauthenticated;
  sent ← (if ss_write_encrypted_assets state then send_changes e account keys access (run_result cursor) else mret (run_result cursor, access));
  result ← (if ss_read_encrypted_assets state
            then pull_pages (re_begin_io e) (re_turns e) account keys (ss_write_encrypted_assets state) sent.1 else mret sent.1);
  mret (mkCloudSyncExecution result account sent.2).

Definition run_execution (e : RunEnv) : RUN CloudSyncExecution :=
  _ ← require (re_allowed e 0) CeUnauthenticated;
  _ ← st_lift (re_access_token e);
  account ← st_lift (match re_bootstrap e with Ok a => Ok a | Err error => Err (public_client_error error) end);
  state ← st_lift (match re_state e with Ok s => Ok s | Err error => Err (public_client_error error) end);
  _ ← require (re_allowed e 1) CeUnauthenticated;
  if re_paused e account then only_report account AcPaused
  else if negb (ss_initialized state) then only_report account AcDisabled
  else match re_keys e account with
  | Err _ => st_lift (Err CeSecureStorageUnavailable)
  | Ok None => only_report account AcRecoveryRequired
  | Ok (Some keys) => run_with_keys e account state keys
  end.

(** A run that was asked for by hand. *)
Definition run (e : RunEnv) : RUN CloudSyncRunResult :=
  execution ← run_execution e;
  match ex_access execution with
  | AcDisabled => st_lift (Err CeSyncNotInitialized)
  | AcRecoveryRequired => st_lift (Err CeSyncDeviceNotAuthorized)
  | _ => mret (ex_result execution)
  end.
End cycle.

(** ** What the log is told *)

(** [local_sync_error_reason]; [column] is the column a row failed to decode at, if that
    is the error. *)
Definition local_sync_error_reason (column : option str) (error : AppError) : str :=
  match error with
  | EValidation message =>
    if str_eqb message (lit "Cloud sync projection references a missing parent folder") then lit "missing_parent_folder" else lit "validation"
  | ESqlx =>
    match column with
    | Some index =>
      if str_eqb index ([34%Z] ++ lit "created_at" ++ [34%Z]) then lit "local_column_decode_created_at"
      else if str_eqb index ([34%Z] ++ lit "updated_at" ++ [34%Z]) then lit "local_column_decode_updated_at"
      else lit "local_column_decode"
    | None => lit "local_database"
    end
  | ESqlxMigrate => lit "local_database"
  | ESerdeJson => lit "local_json"
  | ENotFound _ => lit "local_entity_missing"
  | _ => lit "local_storage"
  end.

(** ** What sending leaves alone *)

(** What an operation asks the server for. *)
Definition request_of (o : CloudSyncOperation) :=
  (o_cloud_account_id o, o_asset_id o, o_asset_type o, o_action o, o_expected_revision o, o_schema_version o, o_key_generation o,
   o_nonce o, o_ciphertext o, o_payload_hash o).

(** At most the operations and the assets differ: every operation is still there, with
    the same request, and assets differ only where the account has an operation. *)
Record books (account : str) d d' : Prop := {
  bk_local : local d' = local d;
  bk_conflicts : conflicts d' = conflicts d;
  bk_cursors : cursors d' = cursors d;
  bk_key_bindings : key_bindings d' = key_bindings d;
  bk_staging : staging d' = staging d;
  bk_batches : batches d' = batches d;
  bk_operations : forall oid o, operations d !! oid = Some o -> exists o', operations d' !! oid = Some o' /\ request_of o' = request_of o;
  bk_assets : forall key, assets d' !! key = assets d !! key
    \/ key.1 = account /\ exists oid o, operations d' !! oid = Some o /\ o_cloud_account_id o = account /\ o_asset_id o = key.2;
}.

#[export] Instance books_preorder account : PreOrder (books account).
Proof.
  split.
  - intros d. split; eauto.
  - intros d1 d2 d3 H1 H2. destruct H1 as [? ? ? ? ? ? O1 A1], H2 as [? ? ? ? ? ? O2 A2]. split; try congruence.
    + intros oid o Ho. destruct (O1 _ _ Ho) as (o1 & Ho1 & E1). destruct (O2 _ _ Ho1) as (o2 & Ho2 & E2). exists o2. split; [done|congruence].
    + intros key. destruct (A2 key) as [E2|H2]; [|by right]. destruct (A1 key) as [E1|(Ha & oid & o & Ho & Hac & Hid)]; [left; congruence|].
      right. split; [done|]. destruct (O2 _ _ Ho) as (o2 & Ho2 & [= E3 E4 _ _ _ _ _ _ _ _]). exists oid, o2. split_and!; congruence.
Qed.

(** The operations of a list are there. *)
Definition holds (l : list (str * CloudSyncOperation)) d : Prop :=
  forall oid o, (oid, o) ∈ l -> exists o', operations d !! oid = Some o' /\ request_of o' = request_of o.

Lemma books_holds account l d d' : books account d d' -> holds l d -> holds l d'.
Proof.
  intros Hb Hl oid o Hin. destruct (Hl _ _ Hin) as (o1 & Ho1 & E1). destruct (bk_operations _ _ _ Hb _ _ Ho1) as (o2 & Ho2 & E2).
  exists o2. split; [done|congruence].
Qed.

(** Work that keeps the books while some operations are there, however it ends. *)
Definition keeps_books {E A} (account : str) (l : list (str * CloudSyncOperation)) (m : ST SyncDb E A) : Prop :=
  forall d, holds l d -> books account d (m d).2.

Lemma keeps_ret {E A} account l (a : A) : keeps_books account l (mret a : ST SyncDb E A).
Proof. intros d _. reflexivity. Qed.
Lemma keeps_lift {E A} account l (r : Result E A) : keeps_books account l (st_lift r).
Proof. intros d _. reflexivity. Qed.
Lemma keeps_bind {E A B} account l (m : ST SyncDb E A) (k : A -> ST SyncDb E B) :
  keeps_books account l m -> (forall a, keeps_books account l (k a)) -> keeps_books account l (mbind k m).
Proof.
  intros Hm Hk d Hl. unfold mbind, ST_bind. specialize (Hm d Hl). destruct (m d) as [[a|e] d1]; [|done]. etrans; [exact Hm|].
  apply Hk. by eapply books_holds.
Qed.
Lemma keeps_or_code {A} account l code (m : DB A) : keeps_books account l m -> keeps_books account l (or_code code m).
Proof. intros H d Hl. specialize (H d Hl). unfold or_code. by destruct (m d) as [[]]. Qed.

(** An operation that is changed but for its request. *)
Lemma books_insert account oid o o' d : operations d !! oid = Some o -> request_of o' = request_of o ->
  books account d (set_operations (<[oid := o']> (operations d)) d).
Proof.
  intros Ho Hs. split; try done; [|by left]. intros k x Hk. cbn. destruct (decide (k = oid)) as [->|Hne].
  - rewrite lookup_insert_eq. rewrite Ho in Hk. injection Hk as <-. exists o'. by split.
  - rewrite lookup_insert_ne by done. eauto.
Qed.

Lemma books_new account oid o d : operations d !! oid = None -> books account d (set_operations (<[oid := o]> (operations d)) d).
Proof.
  intros Ho. split; try done; [|by left]. intros k x Hk. cbn. rewrite lookup_insert_ne by (intros <-; congruence). eauto.
Qed.

Section sending.
Context `{C : SyncCodec}.
Context (account : str).
Implicit Types (l : list (str * CloudSyncOperation)).

Lemma keeps_upsert_asset now l oid o input : (oid, o) ∈ l -> o_cloud_account_id o = account ->
  keeps_books account l (upsert_asset now account (o_asset_id o) input).
Proof.
  intros Hin Hac d Hl. unfold upsert_asset.
  match goal with |- context [match ?r with Ok _ => _ | Err _ => _ end] => destruct r as [[remote base]|] end; [|reflexivity].
  split; cbn; eauto. intros key. rewrite lookup_insert. case_decide as Hk; [|by left]. right. subst key. split; [done|].
  destruct (Hl _ _ Hin) as (o' & Ho' & [= E1 E2 _ _ _ _ _ _ _ _]). exists oid, o'. split_and!; cbn; congruence.
Qed.

Lemma keeps_ignore {A} l (m : DB A) : keeps_books account l m -> keeps_books account l (ignore_error m).
Proof. intros H d Hl. by apply H. Qed.

Lemma keeps_attempt now l oid : keeps_books account l (mark_operation_attempt now oid).
Proof.
  intros d _. unfold mark_operation_attempt. destruct (operations d !! oid) as [o|] eqn:E; [|reflexivity].
  case_match; [|reflexivity]. by eapply books_insert.
Qed.

Lemma keeps_status now l oid status code : keeps_books account l (mark_operation_status now oid status code).
Proof.
  intros d _. unfold mark_operation_status. destruct (operations d !! oid) as [o|] eqn:E; [|reflexivity]. by eapply books_insert.
Qed.

Lemma keeps_mark_conflicted now l oid o : (oid, o) ∈ l -> o_cloud_account_id o = account ->
  keeps_books account l (mark_asset_conflicted now account oid o).
Proof.
  intros Hin Hac d Hl. unfold mark_asset_conflicted. repeat case_match; try reflexivity. by eapply keeps_ignore; [eapply keeps_upsert_asset|].
Qed.

Lemma keeps_settle now l oid o answer result : (oid, o) ∈ l -> o_cloud_account_id o = account ->
  keeps_books account l (settle_operation now account oid o answer result).
Proof.
  intros Hin Hac. unfold settle_operation. destruct answer as [r|[e|]].
  - apply keeps_bind; [case_match; [eapply keeps_ignore, keeps_upsert_asset; eauto|apply keeps_ret]|intros _].
    apply keeps_bind; [apply keeps_status|intros _; apply keeps_ret].
  - apply keeps_bind; [case_match; apply keeps_status|intros _; apply keeps_ret].
  - apply keeps_bind; [by eapply keeps_mark_conflicted|intros _]. apply keeps_bind; [apply keeps_status|intros _; apply keeps_ret].
Qed.

Lemma keeps_flush_operations now keys server guard asked first l l' result :
  (forall oid o, (oid, o) ∈ l' -> (oid, o) ∈ l /\ o_cloud_account_id o = account) ->
  keeps_books account l (flush_operations now account keys server guard asked first l' result).
Proof.
  revert asked first result. induction l' as [|[oid o] l' IH]; intros asked first result Hl; cbn [flush_operations]; [apply keeps_ret|].
  case_match; [apply keeps_ret|]. apply keeps_bind; [apply keeps_attempt|intros _]. cbn zeta.
  case_match; [apply keeps_ret|]. destruct (Hl oid o) as [Hin Hac]; [by left|].
  apply keeps_bind; [by apply keeps_settle|intros ?]. apply IH. intros oid' o' Hx. apply Hl. by right.
Qed.

Lemma keeps_flush now l keys server guard result : keeps_books account l (flush now account keys server guard result).
Proof.
  intros d _. assert (H : books account d (flush_pending_operations now account keys server guard result d).2).
  { unfold flush_pending_operations, mbind at 1, ST_bind, st_get. unfold mbind, ST_bind, st_lift.
    destruct (list_pending_operations account d) as [ops|e] eqn:El; [|reflexivity].
    pose proof (fun oid o => list_pending_elem account d ops oid o El) as Hel.
    apply (keeps_flush_operations now keys server guard 0 None ops).
    - intros oid o Hin. split; [done|]. by apply Hel in Hin as (_ & Hac & _).
    - intros oid o (Ho & _)%Hel. eauto. }
  unfold flush. by destruct (flush_pending_operations _ _ _ _ _ _ d) as [[[r []]|e] d1].
Qed.

Lemma keeps_enqueue now l input : keeps_books account l (enqueue_operation now input).
Proof.
  intros d _. unfold enqueue_operation, get_operation, mbind, ST_bind, st_lift, st_modify, mret, ST_ret.
  destruct (operations d !! e_operation_id input) as [o|] eqn:E; cbn [try_option].
  - destruct (operation_from_row o); cbn; [|reflexivity]. case_match; reflexivity.
  - cbn. destruct (try_option to_sql_revision (e_expected_revision input)); [|reflexivity].
    destruct (try_option to_sql_revision (e_key_generation input)); [|reflexivity]. cbn.
    repeat (case_match; try done; simplify_eq); cbn; by apply books_new.
Qed.

Lemma keeps_enqueue_all now l repairs : keeps_books account l (enqueue_all now repairs).
Proof. induction repairs as [|r repairs IH]; cbn [enqueue_all]; [apply keeps_ret|]. apply keeps_bind; [apply keeps_enqueue|by intros ?]. Qed.
End sending.

(** ** What a turn does *)

(** What a pull leaves alone before it is complete: everything but the account's own
    staged pages, and, if it may repair, operations it sends (which keep their request)
    and what is known of their assets. *)
Record left_alone (account : str) (allow_repair : bool) d d' : Prop := {
  la_local : local d' = local d;
  la_conflicts : conflicts d' = conflicts d;
  la_cursors : cursors d' = cursors d;
  la_key_bindings : key_bindings d' = key_bindings d;
  la_staging : forall a id, a <> account -> staging d' !! (a, id) = staging d !! (a, id);
  la_batches : forall a, a <> account -> batches d' !! a = batches d !! a;
  la_operations : forall oid o, operations d !! oid = Some o -> exists o', operations d' !! oid = Some o' /\ request_of o' = request_of o;
  la_assets : forall key, assets d' !! key = assets d !! key
    \/ key.1 = account /\ exists oid o, operations d' !! oid = Some o /\ o_cloud_account_id o = account /\ o_asset_id o = key.2;
  la_no_repair : allow_repair = false -> operations d' = operations d /\ assets d' = assets d;
}.

(** What is staged for the account stays staged, or gives way to a later revision. *)
Definition staged_kept (account : str) d d' : Prop := forall id row, staging d !! (account, id) = Some row ->
  exists row', staging d' !! (account, id) = Some row' /\ (s_revision row <= s_revision row')%Z.

#[export] Instance left_alone_preorder account allow_repair : PreOrder (left_alone account allow_repair).
Proof.
  split.
  - intros d. split; eauto.
  - intros d1 d2 d3 [? ? ? ? S1 B1 O1 A1 N1] [? ? ? ? S2 B2 O2 A2 N2]. split; try congruence.
    + intros a id Ha. rewrite S2, S1; done.
    + intros a Ha. rewrite B2, B1; done.
    + intros oid o Ho. destruct (O1 _ _ Ho) as (o1 & Ho1 & E1). destruct (O2 _ _ Ho1) as (o2 & Ho2 & E2). exists o2. split; [done|congruence].
    + intros key. destruct (A2 key) as [E2|H2]; [|by right]. destruct (A1 key) as [E1|(Ha & oid & o & Ho & Hac & Hid)]; [left; congruence|].
      right. split; [done|]. destruct (O2 _ _ Ho) as (o2 & Ho2 & [= E3 E4 _ _ _ _ _ _ _ _]). exists oid, o2. split_and!; congruence.
    + intros Hn. destruct (N1 Hn), (N2 Hn). split; congruence.
Qed.

#[export] Instance staged_kept_preorder account : PreOrder (staged_kept account).
Proof.
  split; [intros d id row H; exists row; split; [done|lia]|]. intros d1 d2 d3 H1 H2 id row H.
  destruct (H1 _ _ H) as (r1 & Hr1 & L1). destruct (H2 _ _ Hr1) as (r2 & Hr2 & L2). exists r2. split; [done|lia].
Qed.

(** Both, for the turns of a pull. *)
Definition pulling (account : str) (allow_repair : bool) d d' : Prop := left_alone account allow_repair d d' /\ staged_kept account d d'.

#[export] Instance pulling_preorder account allow_repair : PreOrder (pulling account allow_repair).
Proof. split; [by intros d; split|]. intros d1 d2 d3 [A1 K1] [A2 K2]. split; by etrans. Qed.

Lemma books_pulling account allow_repair d d' : allow_repair = true -> books account d d' -> pulling account allow_repair d d'.
Proof.
  intros -> []. split; [by split; auto; congruence|]. intros id row. rewrite bk_staging0. intros H. exists row. split; [done|lia].
Qed.

Lemma or_code_inv {A} code (m : DB A) d r d' : or_code code m d = (r, d') ->
  match r with Ok a => m d = (Ok a, d') | Err e => e = code /\ exists e', m d = (Err e', d') end.
Proof. unfold or_code. destruct (m d) as [[a|e] d1]; intros [= <- <-]; eauto. Qed.

Section turns.
Context `{C : SyncCodec}.
Context (repair_to_vec : str -> str -> Z -> str -> list Z) (uuid_of_bytes : list Z -> str).
Context (account : str) (keys : CommittedSyncKeyBundle) (allow_repair : bool) (initial_cursor : Z).
Implicit Types (d : SyncDb) (t : PullTurn) (p : Position).

Lemma keeps_repair_page t items result : keeps_books account [] (repair_page repair_to_vec uuid_of_bytes t account keys items result).
Proof.
  unfold repair_page. apply keeps_bind; [intros ? ?; reflexivity|intros d]. apply keeps_bind; [apply keeps_lift|intros repairs].
  apply keeps_bind; [apply keeps_lift|intros _]. apply keeps_bind; [apply keeps_or_code, keeps_enqueue_all|intros _].
  apply keeps_bind; [apply keeps_flush|intros flushed]. case_match; [apply keeps_lift|apply keeps_ret].
Qed.

(** The page that the server lists after a cursor. *)
Definition lists t (page : ValidatedSyncPage) (size : Z) : Prop :=
  exists response, pt_list t (vp_requested_cursor page) size = Ok response
    /\ validate_and_decrypt_page account (vp_requested_cursor page) response keys = Ok page.

Lemma validated_requested cursor response page : validate_and_decrypt_page account cursor response keys = Ok page ->
  vp_requested_cursor page = cursor /\ (vp_requested_cursor page <= vp_next_cursor page)%Z
  /\ (vp_has_more page = true -> vp_requested_cursor page < vp_next_cursor page)%Z /\ (0 <= vp_requested_cursor page)%Z.
Proof.
  unfold validate_and_decrypt_page. intros H. bind_inv. case_match; [done|]. case_match; [done|]. bind_inv. case_match; [done|].
  case_match; [done|]. bind_inv. subst page. breflect. cbn.
  match goal with HP : parse_cursor (cu_requested _) = Ok ?r, HN : parse_cursor (cu_next _) = Ok ?n |- _ =>
    pose proof (parse_cursor_range _ _ HP); pose proof (parse_cursor_range _ _ HN) end.
  split_and!; try lia. intros Hm.
  match goal with HM : _ && _ = false |- _ => rewrite Hm in HM; cbn in HM end. lia.
Qed.

(** How a turn can end. *)
Inductive turn_ended t p d : Result CloudErrorCode (option Position) -> SyncDb -> Prop :=
| ended_failed e d' : pulling account allow_repair d d' -> turn_ended t p d (Err e) d'
| ended_smaller : pt_list t (po_cursor p) (po_page_size p) = Err ResponseTooLarge -> (1 < po_page_size p)%Z ->
    turn_ended t p d (Ok (Some (mkPosition (po_cursor p) (Z.max (po_page_size p / 2) 1) (po_repaired p)))) d
| ended_repaired d' : allow_repair = true -> books account d d' ->
    turn_ended t p d (Ok (Some (mkPosition (po_cursor p) (po_page_size p) (po_cursor p :: po_repaired p)))) d'
| ended_staged page d' : lists t page (po_page_size p) -> vp_requested_cursor page = po_cursor p -> vp_has_more page = true ->
    stage_validated_page (pt_stage_io t) account page d = (Ok tt, d') ->
    turn_ended t p d (Ok (Some (mkPosition (vp_next_cursor page) (po_page_size p) (po_repaired p)))) d'
| ended_applied page d1 summary d' : lists t page (po_page_size p) -> vp_requested_cursor page = po_cursor p -> vp_has_more page = false ->
    stage_validated_page (pt_stage_io t) account page d = (Ok tt, d1) ->
    apply_staged_pull (pt_now t) (pt_now_text t) (pt_new_uuid t) (pt_random_nonce t) (pt_apply_io t) account initial_cursor
      (vp_next_cursor page) keys (pt_apply_allowed t) d1 = (Ok summary, d') ->
    turn_ended t p d (Ok None) d'.

Lemma stage_page_pulling io page d d' : stage_validated_page io account page d = (Ok tt, d') -> pulling account allow_repair d d'.
Proof.
  intros H. pose proof (stage_page_others _ _ _ _ _ H) as Hb. apply stage_page_Ok in H as (i & d1 & _ & _ & ([st ->] & Hback & Hkeep & _) & ->).
  cbn in *. split; [split; cbn; eauto|intros id row Hr; by apply Hkeep].
  intros a id Ha. destruct (st !! (a, id)) as [row|] eqn:E.
  - destruct (Hback _ _ E) as [<-|(c & _ & [= -> _] & _)]; done.
  - destruct (staging d !! (a, id)) as [row|] eqn:E'; [|done]. destruct (Hkeep _ _ E') as (r & Hr & _). congruence.
Qed.

Lemma apply_pull_Err now now_text new_uuid random_nonce io requested next guard d e d' :
  apply_staged_pull now now_text new_uuid random_nonce io account requested next keys guard d = (Err e, d') -> d' = d.
Proof.
  unfold apply_staged_pull, transaction. intros H. repeat (case_match; try by injection H).
Qed.

Lemma pull_turn_ended t p result d r d' :
  pull_turn repair_to_vec uuid_of_bytes account keys allow_repair initial_cursor t p result d = (r, d') ->
  turn_ended t p d (match r with Ok x => Ok x.2 | Err e => Err e end) d'.
Proof.
  unfold pull_turn, require, mbind, ST_bind, st_lift. intros H. destruct (pt_allowed t 0); [|injection H as <- <-; by apply ended_failed].
  destruct (pt_list t _ _) as [response|error] eqn:El.
  2: { destruct error; try (injection H as <- <-; by apply ended_failed). destruct (1 <? _)%Z eqn:Es; injection H as <- <-; [|by apply ended_failed].
       apply ended_smaller; [done|lia]. }
  destruct (validate_and_decrypt_page account (po_cursor p) response keys) as [page|error] eqn:Ev.
  - pose proof (validated_requested _ _ _ Ev) as (Hr & _). assert (Hl : lists t page (po_page_size p)) by (exists response; by rewrite Hr).
    unfold take_page, require, mbind, ST_bind, st_lift in H. destruct (pt_allowed t 1); [|injection H as <- <-; by apply ended_failed].
    destruct (or_code _ (stage_validated_page _ _ _) d) as [rs d1] eqn:Es. apply or_code_inv in Es. destruct rs as [[]|e].
    2: { destruct Es as (-> & e' & Es). apply stage_page_Err in Es as ->. injection H as <- <-. by apply ended_failed. }
    destruct (vp_has_more page) eqn:Em; [injection H as <- <-; by eapply ended_staged|].
    destruct (or_code _ (apply_staged_pull _ _ _ _ _ _ _ _ _ _) d1) as [ra d2] eqn:Ea. apply or_code_inv in Ea. destruct ra as [summary|e].
    + injection H as <- <-. by eapply ended_applied.
    + destruct Ea as (-> & e' & Ea). apply apply_pull_Err in Ea as ->. injection H as <- <-. apply ended_failed. by eapply stage_page_pulling.
  - destruct error; try (injection H as <- <-; by apply ended_failed). destruct (allow_repair && _) eqn:Er; [|injection H as <- <-; by apply ended_failed].
    apply andb_true_iff in Er as [-> _]. pose proof (keeps_repair_page t (lr_items response) result d ltac:(by intros ? ? ?%not_elem_of_nil)) as Hk.
    destruct (repair_page _ _ _ _ _ _ _ d) as [[r1|e] d1]; injection H as <- <-; cbn in *; [by apply ended_repaired|apply ended_failed; by apply books_pulling].
Qed.
End turns.

(** ** Beginning *)

(** Where an earlier run stopped, if what it staged still starts at the durable cursor. *)
Definition resumption (account : str) d : option Z :=
  match batches d !! account with
  | Some (initial, next) =>
    if bool_decide (initial = u64_as_i64 (default 0%Z (cursors d !! account)) /\ (initial <= next)%Z) then Some (i64_as_u64 next) else None
  | None => None
  end.

(** Where fetching begins: there, or at the durable cursor. *)
Definition pull_start (account : str) d : Z := default (default 0%Z (cursors d !! account)) (resumption account d).

Lemma clear_others (account : str) (st : gmap (str * str) StagingRow) (a id : str) :
  filter (fun kv : (str * str) * StagingRow => kv.1.1 <> account) st !! (a, id) = if decide (a = account) then None else st !! (a, id).
Proof.
  case_decide as Ha; [|by apply filter_kept]. apply map_lookup_filter_None. right. intros row _. cbn. by intros [].
Qed.

Lemma begin_pull_inv io account allow_repair d r d' : begin_staged_pull io account d = (r, d') ->
  left_alone account allow_repair d d' /\ operations d' = operations d /\
  match r with
  | Err _ => d' = d
  | Ok (initial, start) =>
    initial = default 0%Z (cursors d !! account) /\ (0 <= initial)%Z /\ start = pull_start account d
    /\ match resumption account d with
       | Some _ => d' = d
       | None => batches d' !! account = Some (u64_as_i64 initial, u64_as_i64 initial) /\ (forall id, staging d' !! (account, id) = None)
       end
  end.
Proof.
  unfold begin_staged_pull, transaction, mbind, ST_bind, st_get, st_lift, st_modify, mret, ST_ret. intros H.
  destruct io; [by injection H as <- <-|]. unfold read_cursor in H.
  destruct (0 <=? _)%Z eqn:Ec; [|by injection H as <- <-]. unfold pull_start, resumption.
  assert (Hres : forall bs, (forall a, a <> account -> bs !! a = batches d !! a) ->
    left_alone account allow_repair d (set_batches bs (clear_staging account d))).
  { intros bs Hbs. split; cbn; eauto. intros a id Ha. rewrite clear_others. by case_decide. }
  destruct (batches d !! account) as [[i next]|] eqn:Eb; [destruct (_ && _) eqn:Ei|]; injection H as <- <-.
  - breflect. rewrite bool_decide_true by (split; lia). by split_and!; try lia.
  - rewrite bool_decide_false by (intros [? ?]; apply andb_false_iff in Ei as [?|?]; lia).
    split_and!; try done; try lia; [apply Hres; intros a Ha; by rewrite lookup_insert_ne|apply lookup_insert_eq|].
    intros id. cbn. rewrite clear_others. by case_decide.
  - split_and!; try done; try lia; [apply Hres; intros a Ha; by rewrite lookup_insert_ne|apply lookup_insert_eq|].
    intros id. cbn. rewrite clear_others. by case_decide.
Qed.

(** Pages that continue each other. *)
Fixpoint chained {J : JsonNumber} (cursor : Z) (pages : list ValidatedSyncPage) (next : Z) : Prop :=
  match pages with
  | [] => cursor = next
  | page :: pages => vp_requested_cursor page = cursor /\ chained (vp_next_cursor page) pages next
  end.

(** Unresolved conflicts name operations that are there, of their own asset. *)
Definition conflict_operations_exist (d : SyncDb) : Prop :=
  forall account id r row oid, conflicts d !! (account, id, r, CfPending) = Some row -> k_pending_operation_id row = Some oid ->
  exists o, operations d !! oid = Some o /\ (o_cloud_account_id o, o_asset_id o) = (account, id).

Lemma exist_ok d : conflict_operations_exist d -> conflict_operations_ok d.
Proof. intros H account id r row oid o Hc Hp Ho. destruct (H _ _ _ _ _ Hc Hp) as (o' & Ho' & E). simplify_eq. done. Qed.

Lemma books_exist a d d' : books a d d' -> conflict_operations_exist d -> conflict_operations_exist d'.
Proof.
  intros Hb H account id r row oid Hc Hp. rewrite (bk_conflicts _ _ _ Hb) in Hc. destruct (H _ _ _ _ _ Hc Hp) as (o & Ho & E).
  destruct (bk_operations _ _ _ Hb _ _ Ho) as (o' & Ho' & [= E1 E2 _ _ _ _ _ _ _ _]). exists o'. split; [done|congruence].
Qed.

Lemma settled_le account id r r' d : settled account id r' d -> (r <= r')%Z -> settled account id r d.
Proof. unfold settled. intros [(row & v & ? & ? & ?)|(oid & o & ? & ?)] Hr; [left; exists row, v|right; exists oid, o]; split_and!; (done || lia). Qed.

Section pulled.
Context `{C : SyncCodec}.
Context (repair_to_vec : str -> str -> Z -> str -> list Z) (uuid_of_bytes : list Z -> str).
Context (account : str) (keys : CommittedSyncKeyBundle) (allow_repair : bool).
Context (turns : nat -> PullTurn).
Implicit Types (d : SyncDb) (p : Position).

Lemma turn_pulling n p result d r d' initial :
  pull_turn repair_to_vec uuid_of_bytes account keys allow_repair initial (turns n) p result d = (r, d') ->
  match r with Ok (_, None) => True | _ => pulling account allow_repair d d' end.
Proof.
  intros Et%pull_turn_ended. destruct r as [[result1 [p1|]]|e1]; cbn in Et; [|done|by inversion Et; subst].
  inversion Et; subst; [reflexivity|by apply books_pulling|by eapply stage_page_pulling].
Qed.

Lemma pull_loop_pulling initial pages n p result d e d' :
  pull_loop repair_to_vec uuid_of_bytes account keys allow_repair initial turns pages n p result d = (Err e, d') ->
  pulling account allow_repair d d'.
Proof.
  revert n p result d. induction pages as [|pages IH]; intros n p result d H; cbn [pull_loop] in H; [by injection H as _ <-|].
  unfold mbind at 1, ST_bind in H. destruct (pull_turn _ _ _ _ _ _ _ p result d) as [r d1] eqn:Et. apply turn_pulling in Et.
  destruct r as [[result1 [p1|]]|e1]; cbn in H, Et; [|done|by injection H as <- <-].
  apply IH in H. by etrans.
Qed.

(** C10: A pull that fails changes nothing here. Whatever the server answers, whenever the
    run is cancelled and whatever transaction fails, if the pull ends with an error then
    the connections and folders, the conflicts, the durable cursors, the key bindings and
    the staged pages of other accounts are as they were, and no operation is lost or asks
    for something else. A run that may not repair leaves all operations and all that is
    known of assets as they were too; one that may changes what is known only of assets of
    operations of the account. If the run continued an earlier one, everything that one
    had staged is still staged, or gave way to a later revision. *)
Theorem failed_pull_changes_nothing_local begin_io result d e d' :
  pull_pages repair_to_vec uuid_of_bytes begin_io turns account keys allow_repair result d = (Err e, d') ->
  left_alone account allow_repair d d' /\ (is_Some (resumption account d) -> staged_kept account d d').
Proof.
  unfold pull_pages, mbind, ST_bind. destruct (or_code _ _ d) as [r d1] eqn:Eb. apply or_code_inv in Eb. intros H. destruct r as [[i c]|e1].
  - apply (begin_pull_inv _ _ allow_repair) in Eb as (Hk & _ & _ & _ & _ & Hb). apply pull_loop_pulling in H as [Ha Hs].
    split; [by etrans|]. intros [next Hr]. by rewrite Hr in Hb; subst.
  - destruct Eb as (_ & e' & Eb). apply (begin_pull_inv _ _ allow_repair) in Eb as (Hk & _ & ->). injection H as _ <-. by split.
Qed.

Section complete.
Context (change_round_trip : forall c, change_from_json (change_to_json c) = Some c).

(** What a complete pull owes for the pages it takes. *)
Definition pull_owes (cursor : Z) d' : Prop :=
  exists pages next, chained cursor pages next /\ cursors d' !! account = Some next
  /\ (exists page, last pages = Some page /\ vp_has_more page = false)
  /\ Forall (fun page => exists n size, lists account keys (turns n) page size) pages
  /\ (forall page change, page ∈ pages -> change ∈ vp_items page -> exists revision,
        parse_positive (ra_revision (vc_asset change)) "remote revision" = Ok revision
        /\ settled account (ra_id (vc_asset change)) revision d').

(** What it owes for what was staged. *)
Definition staged_settled d d' : Prop := forall id row, staging d !! (account, id) = Some row -> settled account id (s_revision row) d'.

(** Taking a page into account: it was staged, and what follows settles what is staged. *)
Lemma owes_page n page size d d1 d' : lists account keys (turns n) page size ->
  stage_validated_page (pt_stage_io (turns n)) account page d = (Ok tt, d1) ->
  (forall id row, staging d1 !! (account, id) = Some row -> settled account id (s_revision row) d') ->
  (forall change, change ∈ vp_items page -> exists revision, parse_positive (ra_revision (vc_asset change)) "remote revision" = Ok revision
     /\ settled account (ra_id (vc_asset change)) revision d')
  /\ (forall id row, staging d !! (account, id) = Some row -> settled account id (s_revision row) d').
Proof.
  intros Hl (i & d2 & _ & _ & (_ & _ & Hkeep & Hin) & ->)%stage_page_Ok Hs. cbn in Hs. split.
  - intros change Hc. destruct (Hin _ Hc) as (row & row' & (revision & Hp & _ & ->) & Hrow & Hle). exists revision. split; [done|].
    cbn in Hle. eapply settled_le; [by apply Hs|done].
  - intros id row Hrow. destruct (Hkeep _ _ Hrow) as (row' & Hrow' & Hle). eapply settled_le; [by apply Hs|done].
Qed.

Lemma pull_loop_owes initial pages n p result d r d' :
  pull_loop repair_to_vec uuid_of_bytes account keys allow_repair initial turns pages n p result d = (Ok r, d') ->
  conflict_operations_exist d -> staged_ok account (staging d) -> pull_owes (po_cursor p) d' /\ staged_settled d d'.
Proof.
  revert n p result d. induction pages as [|pages IH]; intros n p result d H Hex Hst; cbn [pull_loop] in H; [done|].
  unfold mbind at 1, ST_bind in H. destruct (pull_turn _ _ _ _ _ _ _ p result d) as [rt d1] eqn:Et. apply pull_turn_ended in Et.
  destruct rt as [[result1 [p1|]]|e1]; cbn in H, Et; [| |done].
  - inversion Et as [|H1 H2|d2 Hr Hb|page d2 Hl Hc Hm Hs|]; subst.
    + by apply IH in H.
    + apply IH in H; [|by eapply books_exist|by rewrite (bk_staging _ _ _ Hb)]. unfold staged_settled in *. by rewrite (bk_staging _ _ _ Hb) in H.
    + destruct (stage_page_pulling _ true _ _ _ _ Hs) as [[_ Hcf] _]. pose proof Hs as (i & d2 & _ & _ & ([st E2] & _) & E1)%stage_page_Ok.
      assert (Hop : operations d1 = operations d) by (rewrite E1, E2; done).
      apply IH in H as [(pgs & next & Hch & Hcur & (lp & Hlast & Hlm) & Hf & Hset) Hown];
        [|intros a id rv row oid; rewrite Hcf, Hop; apply Hex|by eapply stage_page_staged_ok].
      destruct (owes_page _ _ _ _ _ _ Hl Hs Hown) as [Hp Hd]. split; [|done]. exists (page :: pgs), next. split_and!; [done|done| | |].
      * exists lp. split; [|done]. destruct pgs; [done|exact Hlast].
      * constructor; [by eauto|done].
      * intros pg change [->|Hpg]%elem_of_cons; [by apply Hp|by eapply Hset].
  - injection H as <- ->. inversion Et as [| | | |page d2 summary d3 Hl Hc Hm Hs Ha]; subst.
    destruct (stage_page_pulling _ true _ _ _ _ Hs) as [[_ Hcf] _]. pose proof Hs as (i & d3 & _ & _ & ([st E2] & _) & E1)%stage_page_Ok.
    assert (Hok : conflict_operations_ok d2).
    { apply exist_ok. intros a id rv row oid. rewrite Hcf. assert (operations d2 = operations d) as -> by (rewrite E1, E2; done). apply Hex. }
    assert (Hst2 : staged_ok account (staging d2)) by (by eapply stage_page_staged_ok).
    unfold apply_staged_pull, transaction in Ha. case_match; [done|]. case_match; [done|].
    destruct (apply_batch _ _ _ _ _ _ _ _ _ d2) as [[s|] d4] eqn:Eb; [|done]. injection Ha as Hs1 Hs2. subst s d4.
    apply apply_batch_Ok in Eb as (Hcur & _ & _ & _ & Hall); [|done|done].
    assert (Hown : forall id row, staging d2 !! (account, id) = Some row -> settled account id (s_revision row) d').
    { intros id row Hrow. specialize (Hall id). rewrite Hrow in Hall. cbn in Hall.
      destruct Hall as (row' & change & d5 & d6 & Hr & Hch & Hid & H5 & H6 & Hout). rewrite Hrow in Hr. injection Hr as <-.
      destruct (Hst2 id row Hrow) as [Hmax _]. subst id. by eapply outcome_settled. }
    destruct (owes_page _ _ _ _ _ _ Hl Hs Hown) as [Hp Hd]. split; [|done]. exists [page], (vp_next_cursor page). split_and!.
    + done.
    + rewrite Hcur. apply lookup_insert_eq.
    + by exists page.
    + constructor; [by eauto|constructor].
    + intros pg change ->%list_elem_of_singleton. apply Hp.
Qed.

(** C9: A pull that succeeds has settled everything. Let what is staged be the wire form of
    changes, and let unresolved conflicts name operations that exist. If the pull ends
    with a result, there is a chain of pages, each what the server listed after the last
    one's cursor and could be read, from where an earlier run had stopped, or from the
    durable cursor if what was staged does not start there, to the new durable cursor, the
    last of which announced no more. Every change of every such page is known here at its
    revision or a higher one, or a local operation made for a revision as high is still
    waiting; and if an earlier run was continued, so is everything that was staged before
    this one began. *)
Theorem complete_pull_settles_every_page begin_io result d r d' :
  conflict_operations_exist d -> staged_ok account (staging d) ->
  pull_pages repair_to_vec uuid_of_bytes begin_io turns account keys allow_repair result d = (Ok r, d') ->
  pull_owes (pull_start account d) d' /\ (is_Some (resumption account d) -> staged_settled d d').
Proof.
  intros Hex Hst. unfold pull_pages, mbind, ST_bind. destruct (or_code _ _ d) as [rb d1] eqn:Eb. apply or_code_inv in Eb. intros H.
  destruct rb as [[initial start]|e]; [|done].
  apply (begin_pull_inv _ _ allow_repair) in Eb as ([_ Hc] & Ho & _ & _ & -> & Hb). apply pull_loop_owes in H as [Hp Hs].
  - split; [exact Hp|]. intros [next Hr]. rewrite Hr in Hb. by subst d1.
  - intros a id rv row oid. rewrite Hc, Ho. apply Hex.
  - destruct (resumption account d); [by subst d1|]. intros id row Hrow. by rewrite (proj2 Hb) in Hrow.
Qed.
End complete.

(** ** Runs that are cut short *)

(** A server that lists, or finds the page too large while it can be smaller. *)
Definition only_too_large : Prop := forall n cursor size error, pt_list (turns n) cursor size = Err error -> error = ResponseTooLarge.

Lemma halved_log size : (1 < size)%Z -> (Z.log2 (Z.max (size / 2) 1) + 1 = Z.log2 size)%Z.
Proof.
  intros H. assert (1 <= size / 2)%Z by (apply Z.div_le_lower_bound; lia). rewrite Z.max_l by lia. rewrite <-Z.div2_div, Z.div2_spec.
  rewrite Z.log2_shiftr by lia. assert (1 <= Z.log2 size)%Z by (rewrite <-(Z.log2_pow2 1) by lia; apply Z.log2_le_mono; lia). lia.
Qed.

(** Every change of a page is staged, at its revision or a later one. *)
Definition page_staged d (page : ValidatedSyncPage) : Prop := forall change, change ∈ vp_items page -> exists revision row,
  parse_positive (ra_revision (vc_asset change)) "remote revision" = Ok revision
  /\ staging d !! (account, ra_id (vc_asset change)) = Some row /\ (revision <= s_revision row)%Z.

Lemma page_staged_kept d d' page : staged_kept account d d' -> page_staged d page -> page_staged d' page.
Proof.
  intros Hk Hp change Hc. destruct (Hp _ Hc) as (rev & row & Hrev & Hrow & Hle). destruct (Hk _ _ Hrow) as (row' & Hrow' & Hle').
  exists rev, row'. split_and!; [done|done|lia].
Qed.

(** The pages that a run that was cut short has staged. *)
Definition staged_pages (cursor : Z) (pages : list ValidatedSyncPage) (reached : Z) d : Prop :=
  chained cursor pages reached /\ Forall (fun page => exists n size, lists account keys (turns n) page size) pages
  /\ Forall (page_staged d) pages.

Lemma pull_turn_unavailable n p result d d' initial : allow_repair = false -> only_too_large ->
  pull_turn repair_to_vec uuid_of_bytes account keys allow_repair initial (turns n) p result d <> (Err CeTemporarilyUnavailable, d').
Proof.
  intros Hno Hsrv. unfold pull_turn, require, mbind, ST_bind, st_lift. intros Et.
  destruct (pt_allowed (turns n) 0); [|done]. destruct (pt_list (turns n) _ _) as [response|error] eqn:El.
  2: { rewrite (Hsrv _ _ _ _ El) in Et. by destruct (1 <? _)%Z. }
  destruct (validate_and_decrypt_page account _ response keys) as [page|error].
  - unfold take_page, require, mbind, ST_bind, st_lift in Et. destruct (pt_allowed (turns n) 1); [|done].
    destruct (or_code _ (stage_validated_page _ _ _) d) as [[[]|e] d2] eqn:Es; [|apply or_code_inv in Es as [-> _]; done].
    destruct (vp_has_more page); [done|].
    destruct (or_code _ (apply_staged_pull _ _ _ _ _ _ _ _ _ _) d2) as [[s|e] d3] eqn:Ea; [done|apply or_code_inv in Ea as [-> _]; done].
  - rewrite Hno in Et. by destruct error.
Qed.

Lemma pull_loop_cut initial fuel n p result d d' b0 :
  allow_repair = false -> only_too_large -> (1 <= po_page_size p)%Z -> batches d !! account = Some (b0, po_cursor p) ->
  pull_loop repair_to_vec uuid_of_bytes account keys allow_repair initial turns fuel n p result d = (Err CeTemporarilyUnavailable, d') ->
  exists pages reached, batches d' !! account = Some (b0, reached) /\ staged_pages (po_cursor p) pages reached d'
    /\ (Z.of_nat fuel - Z.log2 (po_page_size p) <= Z.of_nat (length pages))%Z
    /\ (po_cursor p + Z.of_nat (length pages) <= reached)%Z.
Proof.
  intros Hno Hsrv. revert n p result d. induction fuel as [|fuel IH]; intros n p result d Hsize Hb H; cbn [pull_loop] in H.
  { injection H as <-. exists [], (po_cursor p). pose proof (Z.log2_nonneg (po_page_size p)). split_and!; try done; cbn; lia. }
  unfold mbind at 1, ST_bind in H. destruct (pull_turn _ _ _ _ _ _ _ p result d) as [rt d1] eqn:Et.
  destruct rt as [[result1 [p1|]]|e1]; cbn in H; [|done|injection H as -> ->; by apply pull_turn_unavailable in Et].
  pose proof (pull_loop_pulling _ _ _ _ _ _ _ _ H) as [_ Hkeep].
  apply pull_turn_ended in Et. cbn in Et. inversion Et as [|H1 H2|d2 Hr _|page d2 Hl Hc Hm Hs|]; subst; [|done|].
  - apply IH in H as (pages & reached & Hr & Hp & Hlen & Hle); [|cbn; lia|done]. exists pages, reached. cbn in *.
    pose proof (halved_log _ H2). split_and!; try done; apply Hp || lia.
  - pose proof Hl as (rs & _ & Hv). pose proof (validated_requested _ _ _ _ _ Hv) as (_ & _ & Hlt & _). specialize (Hlt Hm).
    pose proof Hs as (i & d2 & Hb1 & Hb2 & (_ & _ & _ & Hin) & E1)%stage_page_Ok. rewrite Hb in Hb1. injection Hb1 as <- Hreq.
    apply IH in H as (pages & reached & Hr & (Hch & Hli & Hst) & Hlen & Hle); [|done|done].
    exists (page :: pages), reached. cbn in *. split; [done|]. split; [|split; lia]. split; [done|]. split; constructor; try done; [by eauto|].
    eapply page_staged_kept; [exact Hkeep|]. intros change Hch'. destruct (Hin _ Hch') as (row & row' & (rev & Hrev & _ & ->) & Hrow & Hle').
    exists rev, row'. rewrite E1. by split_and!.
Qed.

(** C11: A run that is cut short is continued where it ended. Let the server list every
    page it is asked for, refusing at most pages that are too large, and let the run send
    no repairs. If a pull stops because a thousand requests were not enough, then there is
    a chain of at least 994 pages (halving a page of 100 down to 1 takes six requests)
    from where it began, each what the server listed, and every change of every such page
    is staged, at its revision or a later one. Everything that was staged when it
    continued an earlier run is staged still. The next pull begins exactly where the chain
    ends, at least 994 past the cursor this one began at, with the same durable cursor and
    a database it did not have to change. *)
Theorem cut_short_pull_is_continued begin_io result d d' :
  allow_repair = false -> only_too_large -> (forall v, cursors d !! account = Some v -> v <= I64_MAX)%Z ->
  pull_pages repair_to_vec uuid_of_bytes begin_io turns account keys allow_repair result d = (Err CeTemporarilyUnavailable, d') ->
  exists pages reached, (994 <= length pages)%nat /\ staged_pages (pull_start account d) pages reached d'
    /\ (pull_start account d + 994 <= reached)%Z /\ (is_Some (resumption account d) -> staged_kept account d d')
    /\ begin_staged_pull None account d' = (Ok (default 0%Z (cursors d !! account), reached), d').
Proof.
  intros Hno Hsrv Hcur H. unfold pull_pages, mbind, ST_bind in H. destruct (or_code _ _ d) as [rb d1] eqn:Eb. apply or_code_inv in Eb.
  destruct rb as [[initial start]|e]; [|destruct Eb as [-> _]; done]. cbn [fst snd] in H.
  pose proof (pull_loop_pulling _ _ _ _ _ _ _ _ H) as [[_ _ Hk _ _ _ _ _ _] Hs].
  apply (begin_pull_inv _ _ allow_repair) in Eb as ([_ _ Hk1 _ _ _ _ _ _] & _ & Hi & H0 & -> & Hb).
  assert (Hi64 : u64_as_i64 initial = initial).
  { apply u64_as_i64_small. subst. destruct (cursors d !! account) eqn:E; cbn; [by apply Hcur|by unfold I64_MAX]. }
  assert (Hb1 : batches d1 !! account = Some (initial, pull_start account d) /\ (initial <= pull_start account d)%Z).
  { unfold pull_start. destruct (resumption account d) as [next|] eqn:Er; cbn; [|destruct Hb as [-> _]; rewrite Hi64, <-Hi; split; [done|lia]].
    subst d1. unfold resumption in Er. destruct (batches d !! account) as [[i nx]|]; [|done]. case_bool_decide as Hbd; [|done].
    destruct Hbd as [-> Hle]. rewrite <-Hi, Hi64 in *. injection Er as <-. unfold i64_as_u64. destruct (nx <? 0)%Z eqn:En; [lia|done]. }
  destruct Hb1 as [Hb1 Hle]. apply (pull_loop_cut _ _ _ _ _ _ _ initial) in H as (pages & reached & Hr & Hp & Hlen & Hge); [|done|done|done|exact Hb1].
  cbn [po_cursor po_page_size] in *. change (Z.log2 PAGE_SIZE) with 6%Z in Hlen. change (Z.of_nat MAX_PAGES_PER_RUN) with 1000%Z in Hlen.
  exists pages, reached. split; [lia|]. split; [exact Hp|]. split; [lia|]. split.
  { intros [next Hn]. by rewrite Hn in Hb; subst d1. }
  unfold begin_staged_pull, transaction, read_cursor, mbind, ST_bind, st_get, st_lift.
  rewrite Hk, Hk1, <-Hi. destruct (0 <=? initial)%Z eqn:E0; [|lia]. rewrite Hr, Hi64, Z.eqb_refl.
  destruct (initial <=? reached)%Z eqn:E1; [|lia]. cbn. unfold i64_as_u64. destruct (reached <? 0)%Z eqn:E2; [lia|]. done.
Qed.
End pulled.

(** ** Without the permission to write *)

(** The same answers but for uploads. *)
Definition turn_answering (server : CloudServer) (t : PullTurn) : PullTurn :=
  mkPullTurn (pt_allowed t) (pt_flush_allowed t) (pt_apply_allowed t) (pt_list t) server (pt_new_uuid t) (pt_random_nonce t) (pt_choose t)
    (pt_now t) (pt_now_text t) (pt_stage_io t) (pt_apply_io t).
Definition run_answering (server : CloudServer) (e : RunEnv) : RunEnv :=
  mkRunEnv (re_allowed e) (re_reconcile_allowed e) (re_flush_allowed e) (re_access_token e) (re_bootstrap e) (re_state e) (re_paused e) (re_keys e)
    server (re_new_uuid e) (re_random_nonce e) (re_connection_ids e) (re_folder_ids e) (re_now e) (re_bind_io e) (re_begin_io e)
    (fun n => turn_answering server (re_turns e n)).

Section read_only.
Context `{C : SyncCodec}.
Context (repair_to_vec : str -> str -> Z -> str -> list Z) (uuid_of_bytes : list Z -> str).

Lemma loop_answering server turns account keys initial pages n p result d :
  pull_loop repair_to_vec uuid_of_bytes account keys false initial (fun n => turn_answering server (turns n)) pages n p result d
  = pull_loop repair_to_vec uuid_of_bytes account keys false initial turns pages n p result d.
Proof.
  revert n p result d. induction pages as [|pages IH]; intros n p result d; cbn [pull_loop]; [done|].
  assert (Ht : pull_turn repair_to_vec uuid_of_bytes account keys false initial (turn_answering server (turns n)) p result d
    = pull_turn repair_to_vec uuid_of_bytes account keys false initial (turns n) p result d).
  { unfold pull_turn, require, mbind, ST_bind, st_lift. cbn [turn_answering pt_allowed pt_list andb]. reflexivity. }
  unfold mbind, ST_bind. rewrite Ht. destruct (pull_turn _ _ _ _ _ _ (turns n) p result d) as [[[r [p1|]]|e] d1]; cbn; [apply IH|done|done].
Qed.

Lemma st_bind_ext {S E A B} (m : ST S E A) (k k' : A -> ST S E B) s : (forall a s, k a s = k' a s) -> mbind k m s = mbind k' m s.
Proof. intros H. unfold mbind, ST_bind. destruct (m s) as [[a|e] s']; [apply H|done]. Qed.

Lemma keys_answering server e account state keys d : ss_write_encrypted_assets state = false ->
  run_with_keys repair_to_vec uuid_of_bytes (run_answering server e) account state keys d = run_with_keys repair_to_vec uuid_of_bytes e account state keys d.
Proof.
  intros Hw. unfold run_with_keys. rewrite Hw. do 4 (apply st_bind_ext; intros ? ?). destruct (ss_read_encrypted_assets state); [|done].
  unfold pull_pages. cbn [run_answering re_begin_io re_turns]. unfold mbind, ST_bind. destruct (or_code _ _ _) as [[c|] d1]; [|done].
  by rewrite loop_answering.
Qed.

(** A run without the permission to write sends nothing. Its result and the database
    it leaves do not depend on what the server would answer to an upload or a deletion:
    neither local changes nor repairs are sent. *)
Theorem read_only_run_sends_nothing server e state d :
  re_state e = Ok state -> ss_write_encrypted_assets state = false ->
  run_execution repair_to_vec uuid_of_bytes (run_answering server e) d = run_execution repair_to_vec uuid_of_bytes e d.
Proof.
  intros Hs Hw. unfold run_execution. cbn [run_answering re_allowed re_access_token re_bootstrap re_state re_paused re_keys]. rewrite Hs.
  do 3 (apply st_bind_ext; intros ? ?). unfold mbind at 1 3, ST_bind, st_lift. apply st_bind_ext. intros ? ?.
  destruct (re_paused e _); [reflexivity|]. destruct (negb (ss_initialized state)); [reflexivity|].
  destruct (re_keys e _) as [[keys|]|]; [|reflexivity..]. by apply keys_answering.
Qed.
End read_only.

(** ** Concrete runs *)

Definition demo_turn (list : Z -> Z -> Result CloudClientError CloudConnectionAssetListResponse) : PullTurn :=
  mkPullTurn (fun _ => true) (fun _ => true) (fun _ => true) list full_server demo_uuid demo_nonce (fun l => l) 5 (lit "t5") None None.

(** The page after a cursor: one change of folder [b], by which the cursor grows by one. *)
Definition listed_change (plaintext : string) (cursor : Z) : CloudConnectionAssetChange :=
  let change := demo_change "connection_folder" "b" (cursor + 1) cursor (Some plaintext) in
  let a := rc_asset change in
  mkCloudConnectionAssetChange (rc_change_cursor change)
    (mkCloudConnectionAssetProjection (ra_id a) (ra_asset_type a) (ra_revision a) (ra_parent_revision a) (to_dec cursor) (ra_schema_version a)
       (ra_key_generation a) (ra_encryption a) (ra_encrypted_bytes a) (ra_tombstone a) (ra_updated_by_device_id a) (ra_created_at a)
       (ra_updated_at a) (ra_deleted_at a)).
Definition next_page (has_more : bool) (plaintext : string) (cursor : Z) : CloudConnectionAssetListResponse :=
  mkCloudConnectionAssetListResponse [] (mkCloudConnectionAssetCursor (to_dec cursor) (to_dec (cursor + 1)) has_more)
    [listed_change plaintext (cursor + 1)].

(** A server that has three changes and sends at most one page of one item. *)
Definition short_list (cursor size : Z) : Result CloudClientError CloudConnectionAssetListResponse :=
  if (1 <? size)%Z then Err ResponseTooLarge else Ok (next_page (cursor <? 2)%Z "b" cursor).
(** A server that never comes to an end, and one that is gone after two pages. *)
Definition endless_list (cursor size : Z) : Result CloudClientError CloudConnectionAssetListResponse :=
  if (1 <? size)%Z then Err ResponseTooLarge else Ok (next_page true "b" cursor).
Definition failing_list (cursor size : Z) : Result CloudClientError CloudConnectionAssetListResponse :=
  if (cursor <? 2)%Z then Ok (next_page true "b" cursor) else Err TemporarilyUnavailable.

Definition demo_pages (list : Z -> Z -> Result CloudClientError CloudConnectionAssetListResponse) (d : SyncDb)
    : Result CloudErrorCode CloudSyncRunResult * SyncDb :=
  pull_pages (C := demo_codec) (fun _ _ _ _ => []) (fun b => b) None (fun _ => demo_turn list) demo_account demo_keys false (run_result 0) d.

Lemma edited_exist : conflict_operations_exist edited_db.
Proof. intros account id r row oid H. assert (conflicts edited_db = ∅) as E by reflexivity. by rewrite E, lookup_empty in H. Qed.
Lemma edited_staged_nothing : staged_ok demo_account (staging edited_db).
Proof. intros id row H. assert (staging edited_db = ∅) as E by reflexivity. by rewrite E, lookup_empty in H. Qed.

Lemma failed_pull_changes_nothing_local_witness :
  exists d', demo_pages failing_list edited_db = (Err CeTemporarilyUnavailable, d') /\ left_alone demo_account false edited_db d'
    /\ batches d' !! demo_account = Some (0%Z, 2%Z).
Proof.
  assert (H : ((demo_pages failing_list edited_db).1, batches (demo_pages failing_list edited_db).2 !! demo_account)
    = (Err CeTemporarilyUnavailable, Some (0%Z, 2%Z))) by (vm_compute; reflexivity).
  destruct (demo_pages failing_list edited_db) as [r d'] eqn:E. apply pair_eq in H as [H1 H2]. cbn [fst snd] in H1, H2. subst r. exists d'.
  exact (conj eq_refl (conj (proj1 (failed_pull_changes_nothing_local (C := demo_codec) _ _ demo_account demo_keys false _ None _ edited_db _ d' E)) H2)).
Defined.

Lemma complete_pull_settles_every_page_witness :
  exists r d', demo_pages short_list edited_db = (Ok r, d') /\ rr_cursor r = 3%Z
    /\ pull_owes (C := demo_codec) demo_account demo_keys (fun _ => demo_turn short_list) 0 d'.
Proof.
  assert (H : match (demo_pages short_list edited_db).1 with Ok r => rr_cursor r | Err _ => 0%Z end = 3%Z) by (vm_compute; reflexivity).
  destruct (demo_pages short_list edited_db) as [[r|e] d'] eqn:E; [|discriminate H]. exists r, d'.
  destruct (complete_pull_settles_every_page (C := demo_codec) _ _ demo_account demo_keys false _ demo_change_round_trip None _ edited_db r d'
    edited_exist edited_staged_nothing E) as [Ho _].
  exact (conj eq_refl (conj H Ho)).
Defined.

Lemma cut_short_pull_is_continued_witness :
  exists d' pages reached, (demo_pages endless_list edited_db).1 = Err CeTemporarilyUnavailable /\ (demo_pages endless_list edited_db).2 = d'
    /\ (994 <= length pages)%nat /\ Forall (page_staged demo_account d') pages
    /\ begin_staged_pull None demo_account d' = (Ok (0%Z, reached), d').
Proof.
  assert (H : (demo_pages endless_list edited_db).1 = Err CeTemporarilyUnavailable) by (vm_compute; reflexivity).
  destruct (demo_pages endless_list edited_db) as [r d'] eqn:E. cbn [fst snd] in H. subst r. exists d'.
  assert (Hs : only_too_large (fun _ => demo_turn endless_list)).
  { intros n cursor size error Hl. cbn in Hl. unfold endless_list in Hl. destruct (1 <? size)%Z; [congruence|discriminate Hl]. }
  unfold demo_pages in E.
  destruct (cut_short_pull_is_continued (C := demo_codec) (fun _ _ _ _ => []) (fun b => b) demo_account demo_keys false
    (fun _ => demo_turn endless_list) None (run_result 0) edited_db d' eq_refl Hs
    ltac:(intros v Hv; cbn in Hv; by rewrite lookup_empty in Hv) E) as (pages & reached & Hn & (_ & _ & Hp) & _ & _ & Hres).
  exists pages, reached. exact (conj eq_refl (conj eq_refl (conj Hn (conj Hp Hres)))).
Defined.

Definition read_only_env : RunEnv :=
  mkRunEnv (fun _ => true) (fun _ => true) (fun _ => true) (Ok tt) (Ok demo_account) (Ok (mkSyncState true false true)) (fun _ => false)
    (fun _ => Ok (Some demo_keys)) full_server demo_uuid demo_nonce [] [] 5 None None (fun _ => demo_turn short_list).

Lemma read_only_run_sends_nothing_witness :
  let run server := run_execution (C := demo_codec) (fun _ _ _ _ => []) (fun b => b) (run_answering server read_only_env) edited_db in
  (run willing_server = run full_server /\ is_ok (run full_server).1 = true).
Proof.
  intros run. split; [|vm_compute; reflexivity]. unfold run.
  transitivity (run_execution (C := demo_codec) (fun _ _ _ _ => []) (fun b => b) read_only_env edited_db).
  - exact (read_only_run_sends_nothing (C := demo_codec) _ _ willing_server read_only_env (mkSyncState true false true) edited_db eq_refl eq_refl).
  - exact (eq_sym (read_only_run_sends_nothing (C := demo_codec) _ _ full_server read_only_env (mkSyncState true false true) edited_db eq_refl eq_refl)).
Defined.
