(* ===== verification/Coordinator.v ===== *)
(** * SQL execution coordinator ([src-tauri/src/engine/sql_execution/mod.rs])

    One entry per workbench tab holds the snapshot of the SQL execution that runs
    in it, the sender of its cancellation channel and the sink its snapshots are
    published to.  The state of the coordinator is explicit: the table behind its
    lock, the store of watch channels (a sender and its receivers share one cell)
    and the log of published snapshots. *)

From stdpp Require Import base gmap list strings fin_maps.
From Stdlib Require Import ZArith Lia.
From S2P Require Import Prelude Errors Types.

Definition MAX_OBSERVATION_WARNINGS : nat := 4.
Definition MAX_OBSERVATION_WARNING_CHARS : nat := 256.

(** [Arc<dyn SqlExecutionEventSink>]: the no-op sink, or a subscriber.  What
    [publish] returns is only logged. *)
Inductive SqlExecutionEventSink := NoopSqlExecutionEventSink | EventSink (id : nat).

Record SqlExecutionStartInput := mkSqlExecutionStartInput {
  in_profile_id : str;
  in_tab_id : str;
  in_execution_id : str;
  in_query_id : str;
  in_statement_class : SqlStatementClass;
  in_started_at : Z;
}.

Definition is_terminal (s : SqlExecutionState) : bool :=
  match s with
  | Succeeded | Failed | TimedOut | Canceled | CancelFailed => true
  | _ => false
  end.

Definition is_valid_transition (from to : SqlExecutionState) : bool :=
  match from, to with
  | Queued, Starting
  | Queued, Canceling
  | Starting, Running
  | Starting, Canceling
  | Starting, Failed
  | Starting, TimedOut
  | Starting, Canceled
  | Starting, CancelFailed
  | Running, Canceling
  | Running, Succeeded
  | Running, Failed
  | Running, TimedOut
  | Running, Canceled
  | Running, CancelFailed
  | Canceling, Succeeded
  | Canceling, Failed
  | Canceling, TimedOut
  | Canceling, Canceled
  | Canceling, CancelFailed => true
  | _, _ => false
  end.

Definition normalize_warning (m : str) : str :=
  let trimmed := trim m in
  if bool_decide (trimmed = []) then lit "SQL execution observation degraded"
  else take MAX_OBSERVATION_WARNING_CHARS trimmed.

Definition coordinator_lock_error (context : str) : IpcError :=
  system_internal (context ++ lit ": SQL execution coordinator lock poisoned")
    (lit "A previous operation panicked while holding the coordinator lock").

Definition execution_not_found (tab exec : str) : IpcError :=
  resource_not_found
    (lit "SQL execution '" ++ exec ++ lit "' is not registered for tab '" ++ tab ++ lit "'").

(** [{:?}] of a state. *)
Definition debug_state (s : SqlExecutionState) : str :=
  match s with
  | Queued => lit "Queued" | Starting => lit "Starting" | Running => lit "Running"
  | Canceling => lit "Canceling" | Succeeded => lit "Succeeded" | Failed => lit "Failed"
  | TimedOut => lit "TimedOut" | Canceled => lit "Canceled" | CancelFailed => lit "CancelFailed"
  end.

Section coordinator.
Context {J : JsonNumber}.

(** ** State *)

Record ActiveSqlExecution := mkActive {
  profile_id : str;
  snapshot : SqlExecutionSnapshot;
  cancel : nat;
  sink : SqlExecutionEventSink;
}.

Record SqlExecutionCoordinator := mkCoordinator {
  poisoned : bool;
  entries : gmap str ActiveSqlExecution;
  channels : list bool;
  published : list (nat * SqlExecutionSnapshot);
}.

Record RegisteredSqlExecution := mkRegistered {
  r_execution_id : str;
  r_query_id : str;
  r_tab_id : str;
  r_snapshot : SqlExecutionSnapshot;
  r_cancellation : nat;
}.

Abbreviation Co := (ST SqlExecutionCoordinator IpcError).

Definition new : SqlExecutionCoordinator := mkCoordinator false ∅ [] [].

(** The mutations of a snapshot the operations perform. *)
Definition set_state (st : SqlExecutionState) (s : SqlExecutionSnapshot) : SqlExecutionSnapshot :=
  mkSqlExecutionSnapshot (execution_id s) (query_id s) (tab_id s) st (revision s)
    (statement_class s) (started_at s) (finished_at s) (progress_available s) (summary s)
    (outcome s) (failure s) (cancel_message s) (observation_warnings s).
Definition set_revision (r : Z) (s : SqlExecutionSnapshot) : SqlExecutionSnapshot :=
  mkSqlExecutionSnapshot (execution_id s) (query_id s) (tab_id s) (state s) r
    (statement_class s) (started_at s) (finished_at s) (progress_available s) (summary s)
    (outcome s) (failure s) (cancel_message s) (observation_warnings s).
Definition set_finished_at (t : option Z) (s : SqlExecutionSnapshot) : SqlExecutionSnapshot :=
  mkSqlExecutionSnapshot (execution_id s) (query_id s) (tab_id s) (state s) (revision s)
    (statement_class s) (started_at s) t (progress_available s) (summary s)
    (outcome s) (failure s) (cancel_message s) (observation_warnings s).
Definition set_summary (sm : option SqlExecutionSummary) (p : bool) (s : SqlExecutionSnapshot)
  : SqlExecutionSnapshot :=
  mkSqlExecutionSnapshot (execution_id s) (query_id s) (tab_id s) (state s) (revision s)
    (statement_class s) (started_at s) (finished_at s) p sm
    (outcome s) (failure s) (cancel_message s) (observation_warnings s).
Definition set_outcome (o : option SqlExecutionOutcome) (f : option SqlExecutionFailure)
    (s : SqlExecutionSnapshot) : SqlExecutionSnapshot :=
  mkSqlExecutionSnapshot (execution_id s) (query_id s) (tab_id s) (state s) (revision s)
    (statement_class s) (started_at s) (finished_at s) (progress_available s) (summary s)
    o f (cancel_message s) (observation_warnings s).
Definition set_cancel_message (m : option str) (s : SqlExecutionSnapshot) : SqlExecutionSnapshot :=
  mkSqlExecutionSnapshot (execution_id s) (query_id s) (tab_id s) (state s) (revision s)
    (statement_class s) (started_at s) (finished_at s) (progress_available s) (summary s)
    (outcome s) (failure s) m (observation_warnings s).
Definition push_warning (m : str) (s : SqlExecutionSnapshot) : SqlExecutionSnapshot :=
  mkSqlExecutionSnapshot (execution_id s) (query_id s) (tab_id s) (state s) (revision s)
    (statement_class s) (started_at s) (finished_at s) (progress_available s) (summary s)
    (outcome s) (failure s) (cancel_message s) (observation_warnings s ++ [m]).

Definition set_snapshot (s : SqlExecutionSnapshot) (e : ActiveSqlExecution) : ActiveSqlExecution :=
  mkActive (profile_id e) s (cancel e) (sink e).

(** ** Effects *)

(** [entries.read()] and [entries.write()]: both fail on a poisoned lock. *)
Definition lock (context : string) : Co (gmap str ActiveSqlExecution) :=
  fun c => (if poisoned c then Err (coordinator_lock_error (lit context)) else Ok (entries c), c).

Definition set_entries (m : gmap str ActiveSqlExecution) : Co unit :=
  st_modify (fun c => mkCoordinator (poisoned c) m (channels c) (published c)).

(** [watch::channel(false)]. *)
Definition watch_channel : Co nat :=
  fun c => (Ok (length (channels c)),
            mkCoordinator (poisoned c) (entries c) (channels c ++ [false]) (published c)).

(** [cancel.send_replace(true)]. *)
Definition send_cancel (ch : nat) : Co unit :=
  st_modify (fun c =>
    mkCoordinator (poisoned c) (entries c) (<[ch:=true]> (channels c)) (published c)).

Definition publish_snapshot (k : SqlExecutionEventSink) (s : SqlExecutionSnapshot) : Co unit :=
  st_modify (fun c =>
    match k with
    | NoopSqlExecutionEventSink => c
    | EventSink id => mkCoordinator (poisoned c) (entries c) (channels c) (published c ++ [(id, s)])
    end).

(** The entry of a tab, if it runs the given execution. *)
Definition entry_mut (m : gmap str ActiveSqlExecution) (tab exec : str)
  : IpcResult ActiveSqlExecution :=
  match m !! tab with
  | Some e =>
      if bool_decide (execution_id (snapshot e) = exec) then Ok e
      else Err (execution_not_found tab exec)
  | None => Err (execution_not_found tab exec)
  end.

Definition increment_revision (s : SqlExecutionSnapshot) : IpcResult SqlExecutionSnapshot :=
  match checked_add_u64 (revision s) 1 with
  | Some r => Ok (set_revision r s)
  | None => Err (coordinator_lock_error (lit "increment_sql_execution_revision"))
  end.

(** ** Operations *)

Definition register_with_sink (input : SqlExecutionStartInput) (k : SqlExecutionEventSink)
  : Co RegisteredSqlExecution :=
  m ← lock "register_sql_execution";
  if match m !! in_tab_id input with
     | Some existing => negb (is_terminal (state (snapshot existing)))
     | None => false
     end
  then st_lift (Err (resource_conflict
         (lit "Tab '" ++ in_tab_id input ++ lit "' already has an active SQL execution")))
  else
    ch ← watch_channel;
    let s := mkSqlExecutionSnapshot (in_execution_id input) (in_query_id input) (in_tab_id input)
               Starting 1 (in_statement_class input) (in_started_at input) None false None None
               None None [] in
    _ ← set_entries (<[in_tab_id input := mkActive (in_profile_id input) s ch k]> m);
    _ ← publish_snapshot k s;
    mret (mkRegistered (in_execution_id input) (in_query_id input) (in_tab_id input) s ch).

Definition register (input : SqlExecutionStartInput) : Co RegisteredSqlExecution :=
  register_with_sink input NoopSqlExecutionEventSink.

Definition get_snapshot (tab exec : str) : Co SqlExecutionSnapshot :=
  m ← lock "get_sql_execution_snapshot";
  e ← st_lift (entry_mut m tab exec);
  mret (snapshot e).

Definition snapshot_for_profile (profile tab exec : str) : Co SqlExecutionSnapshot :=
  m ← lock "get_owned_sql_execution_snapshot";
  match m !! tab with
  | Some e =>
      if bool_decide (profile_id e = profile) && bool_decide (execution_id (snapshot e) = exec)
      then mret (snapshot e)
      else st_lift (Err (execution_not_found tab exec))
  | None => st_lift (Err (execution_not_found tab exec))
  end.

(** The closure mutates the stored snapshot; a revision overflow is reported
    after that, so the mutation stays. *)
Definition update_snapshot (tab exec : str) (context : string)
    (update : SqlExecutionSnapshot -> IpcResult SqlExecutionSnapshot) : Co SqlExecutionSnapshot :=
  m ← lock context;
  e ← st_lift (entry_mut m tab exec);
  s ← st_lift (update (snapshot e));
  _ ← set_entries (<[tab := set_snapshot s e]> m);
  s' ← st_lift (increment_revision s);
  _ ← set_entries (<[tab := set_snapshot s' e]> m);
  _ ← publish_snapshot (sink e) s';
  mret s'.

Definition transition (now : Z) (tab exec : str) (st : SqlExecutionState)
  : Co SqlExecutionSnapshot :=
  update_snapshot tab exec "transition_sql_execution" (fun s =>
    if negb (is_valid_transition (state s) st) then
      Err (resource_conflict (lit "SQL execution cannot transition from " ++
             debug_state (state s) ++ lit " to " ++ debug_state st))
    else
      let s' := set_state st s in
      Ok (if is_terminal st then set_finished_at (Some now) s' else s')).

Definition update_summary (tab exec : str) (sm : SqlExecutionSummary) (p : bool)
  : Co SqlExecutionSnapshot :=
  update_snapshot tab exec "update_sql_execution_summary" (fun s =>
    if is_terminal (state s) then
      Err (resource_conflict (lit "A terminal SQL execution cannot accept progress updates"))
    else Ok (set_summary (Some sm) p s)).

Definition append_warning (tab exec msg : str) : Co SqlExecutionSnapshot :=
  let msg := normalize_warning msg in
  m ← lock "append_sql_execution_warning";
  e ← st_lift (entry_mut m tab exec);
  if is_terminal (state (snapshot e)) then
    st_lift (Err (resource_conflict
      (lit "A terminal SQL execution cannot accept observation warnings")))
  else
    let ws := observation_warnings (snapshot e) in
    if negb (existsb (fun w => str_eqb w msg) ws)
       && (length ws <? MAX_OBSERVATION_WARNINGS)%nat
    then
      let s := push_warning msg (snapshot e) in
      _ ← set_entries (<[tab := set_snapshot s e]> m);
      s' ← st_lift (increment_revision s);
      _ ← set_entries (<[tab := set_snapshot s' e]> m);
      _ ← publish_snapshot (sink e) s';
      mret s'
    else mret (snapshot e).

Definition complete_success (now : Z) (tab exec : str) (o : SqlExecutionOutcome)
  : Co SqlExecutionSnapshot :=
  update_snapshot tab exec "complete_sql_execution" (fun s =>
    if negb (is_valid_transition (state s) Succeeded) then
      Err (resource_conflict
        (lit "SQL execution cannot complete successfully from its current state"))
    else Ok (set_outcome (Some o) None (set_finished_at (Some now) (set_state Succeeded s)))).

Definition complete_failure (now : Z) (tab exec : str) (st : SqlExecutionState)
    (f : SqlExecutionFailure) : Co SqlExecutionSnapshot :=
  if match st with Failed | TimedOut | CancelFailed => false | _ => true end then
    st_lift (Err (validation_failed
      (lit "Failure completion requires failed, timedOut, or cancelFailed state")))
  else
    update_snapshot tab exec "fail_sql_execution" (fun s =>
      if negb (is_valid_transition (state s) st) then
        Err (resource_conflict (lit "SQL execution cannot fail from its current state"))
      else Ok (set_outcome None (Some f) (set_finished_at (Some now) (set_state st s)))).

Definition begin_cancel (tab exec : str) : Co SqlExecutionSnapshot :=
  m ← lock "begin_cancel_sql_execution";
  e ← st_lift (entry_mut m tab exec);
  s ← (if bool_decide (state (snapshot e) = Canceling) then mret (snapshot e)
       else if negb (is_valid_transition (state (snapshot e)) Canceling) then
         st_lift (Err (resource_conflict
           (lit "SQL execution cannot be canceled from its current state")))
       else
         let s := set_state Canceling (snapshot e) in
         _ ← set_entries (<[tab := set_snapshot s e]> m);
         s' ← st_lift (increment_revision s);
         _ ← set_entries (<[tab := set_snapshot s' e]> m);
         mret s');
  _ ← send_cancel (cancel e);
  _ ← publish_snapshot (sink e) s;
  mret s.

Definition complete_cancel (now : Z) (tab exec msg : str) : Co SqlExecutionSnapshot :=
  update_snapshot tab exec "complete_sql_execution_cancel" (fun s =>
    if negb (is_valid_transition (state s) Canceled) then
      Err (resource_conflict
        (lit "SQL execution cannot confirm cancellation from its current state"))
    else Ok (set_cancel_message (Some msg) (set_finished_at (Some now) (set_state Canceled s)))).

Definition release (tab exec : str) : Co unit :=
  m ← lock "release_sql_execution";
  e ← st_lift (entry_mut m tab exec);
  if negb (is_terminal (state (snapshot e))) then
    st_lift (Err (resource_conflict (lit "An active SQL execution cannot be released")))
  else set_entries (delete tab m).

Definition release_for_profile (profile tab exec : str) : Co unit :=
  _ ← snapshot_for_profile profile tab exec;
  release tab exec.

Definition discard_tab (tab : str) : Co bool :=
  m ← lock "discard_tab_sql_execution";
  _ ← set_entries (delete tab m);
  match m !! tab with
  | Some e => _ ← send_cancel (cancel e); mret true
  | None => mret false
  end.

(** The iteration order of a [HashMap] is unspecified: it is a parameter. *)
Variable hash_iter : gmap str ActiveSqlExecution -> list (str * ActiveSqlExecution).

(** The body of the removal loop of [discard_profile]. *)
Definition discard_entry (tab : str) : Co unit :=
  c ← st_get;
  match entries c !! tab with
  | Some e => _ ← set_entries (delete tab (entries c)); send_cancel (cancel e)
  | None => mret tt
  end.

Definition discard_profile (profile : str) : Co nat :=
  m ← lock "discard_profile_sql_executions";
  let tab_ids :=
    map fst (List.filter (fun '(_, e) => bool_decide (profile_id e = profile)) (hash_iter m)) in
  _ ← st_iter discard_entry tab_ids;
  mret (length tab_ids).

Definition discard_all : Co nat :=
  m ← lock "discard_all_sql_executions";
  let removed := map snd (hash_iter m) in
  _ ← set_entries ∅;
  _ ← st_iter (fun e => send_cancel (cancel e)) removed;
  mret (length removed).

Definition cancel_tab (tab : str) : Co bool :=
  m ← lock "cancel_tab_sql_execution";
  match m !! tab with
  | None => mret false
  | Some e =>
      if is_terminal (state (snapshot e)) then mret false
      else _ ← begin_cancel tab (execution_id (snapshot e)); mret true
  end.

Definition cancel_profile (profile : str) : Co nat :=
  m ← lock "cancel_profile_sql_executions";
  let executions :=
    map (fun '(tab, e) => (tab, execution_id (snapshot e)))
      (List.filter (fun '(_, e) => bool_decide (profile_id e = profile)
                              && negb (is_terminal (state (snapshot e)))) (hash_iter m)) in
  _ ← st_iter (fun '(tab, exec) => _ ← begin_cancel tab exec; mret tt) executions;
  mret (length executions).

(** ** The coordinator as a transition system *)

Inductive CoordinatorOp :=
| DoRegister (input : SqlExecutionStartInput) (k : SqlExecutionEventSink)
| DoTransition (now : Z) (tab exec : str) (st : SqlExecutionState)
| DoUpdateSummary (tab exec : str) (sm : SqlExecutionSummary) (p : bool)
| DoAppendWarning (tab exec msg : str)
| DoCompleteSuccess (now : Z) (tab exec : str) (o : SqlExecutionOutcome)
| DoCompleteFailure (now : Z) (tab exec : str) (st : SqlExecutionState) (f : SqlExecutionFailure)
| DoBeginCancel (tab exec : str)
| DoCompleteCancel (now : Z) (tab exec msg : str)
| DoRelease (tab exec : str)
| DoReleaseForProfile (profile tab exec : str)
| DoDiscardTab (tab : str)
| DoDiscardProfile (profile : str)
| DoDiscardAll
| DoCancelTab (tab : str)
| DoCancelProfile (profile : str).

Definition run_op (op : CoordinatorOp) (c : SqlExecutionCoordinator) : SqlExecutionCoordinator :=
  match op with
  | DoRegister input k => (register_with_sink input k c).2
  | DoTransition now tab exec st => (transition now tab exec st c).2
  | DoUpdateSummary tab exec sm p => (update_summary tab exec sm p c).2
  | DoAppendWarning tab exec msg => (append_warning tab exec msg c).2
  | DoCompleteSuccess now tab exec o => (complete_success now tab exec o c).2
  | DoCompleteFailure now tab exec st f => (complete_failure now tab exec st f c).2
  | DoBeginCancel tab exec => (begin_cancel tab exec c).2
  | DoCompleteCancel now tab exec msg => (complete_cancel now tab exec msg c).2
  | DoRelease tab exec => (release tab exec c).2
  | DoReleaseForProfile profile tab exec => (release_for_profile profile tab exec c).2
  | DoDiscardTab tab => (discard_tab tab c).2
  | DoDiscardProfile profile => (discard_profile profile c).2
  | DoDiscardAll => (discard_all c).2
  | DoCancelTab tab => (cancel_tab tab c).2
  | DoCancelProfile profile => (cancel_profile profile c).2
  end.

Inductive reachable : SqlExecutionCoordinator -> Prop :=
| reachable_new : reachable new
| reachable_op c op : reachable c -> reachable (run_op op c).

End coordinator.

(** ** The abstract machine

    What the operations are built from: registering a tab that has no active
    execution, letting an active snapshot evolve, removing an entry, raising a
    cancellation flag and publishing a stored snapshot.  An [Authority] bounds the
    entries each of them may concern. *)

Section machine.
Context {J : JsonNumber}.

(** What always holds of a stored snapshot. *)
Record snapshot_ok (s : SqlExecutionSnapshot) : Prop := {
  ok_not_queued : state s <> Queued;
  ok_finished : is_Some (finished_at s) <-> is_terminal (state s) = true;
  ok_outcome : is_Some (outcome s) -> state s = Succeeded;
  ok_failure : is_Some (failure s) -> state s = Failed \/ state s = TimedOut \/ state s = CancelFailed;
  ok_cancel_message : is_Some (cancel_message s) -> state s = Canceled;
  ok_revision : (1 <= revision s <= U64_MAX)%Z;
  ok_warnings : length (observation_warnings s) <= MAX_OBSERVATION_WARNINGS;
  ok_warnings_nodup : NoDup (observation_warnings s);
  ok_warning_size : Forall (fun w => 1 <= length w <= MAX_OBSERVATION_WARNING_CHARS) (observation_warnings s);
}.

(** The fields an execution keeps for its whole life. *)
Definition same_execution (s s' : SqlExecutionSnapshot) : Prop :=
  execution_id s' = execution_id s /\ query_id s' = query_id s /\ tab_id s' = tab_id s
  /\ statement_class s' = statement_class s /\ started_at s' = started_at s.

(** A legal mutation of an active snapshot, before its revision is counted up. *)
Record touches (s s' : SqlExecutionSnapshot) : Prop := {
  touch_same : same_execution s s';
  touch_active : is_terminal (state s) = false;
  touch_state : state s' = state s \/ is_valid_transition (state s) (state s') = true;
  touch_revision : revision s' = revision s;
  touch_ok : snapshot_ok s -> snapshot_ok s';
}.

Definition evolves (s s' : SqlExecutionSnapshot) : Prop :=
  exists s1, touches s s1 /\
    match increment_revision s1 with Ok s2 => s' = s2 | Err _ => s' = s1 end.

Definition with_entries (m : gmap str ActiveSqlExecution) (c : SqlExecutionCoordinator) :=
  mkCoordinator (poisoned c) m (channels c) (published c).

(** What a run may register, update, remove and signal. *)
Record Authority := mkAuthority {
  may_register : str -> Prop;
  may_update : str -> ActiveSqlExecution -> Prop;
  may_remove : str -> ActiveSqlExecution -> Prop;
  may_signal : nat -> Prop;
}.

Inductive prim (a : Authority) : SqlExecutionCoordinator -> SqlExecutionCoordinator -> Prop :=
| p_register c tab p s k :
    may_register a tab ->
    (forall e, entries c !! tab = Some e -> is_terminal (state (snapshot e)) = true) ->
    tab_id s = tab -> snapshot_ok s -> state s = Starting -> revision s = 1%Z ->
    prim a c
      (mkCoordinator (poisoned c) (<[tab := mkActive p s (length (channels c)) k]> (entries c))
         (channels c ++ [false]) (published c))
| p_update c tab e s' :
    entries c !! tab = Some e -> may_update a tab e -> evolves (snapshot e) s' ->
    prim a c (with_entries (<[tab := set_snapshot s' e]> (entries c)) c)
| p_remove c tab :
    (forall e, entries c !! tab = Some e -> may_remove a tab e) ->
    prim a c (with_entries (delete tab (entries c)) c)
| p_signal c ch :
    may_signal a ch ->
    prim a c (mkCoordinator (poisoned c) (entries c) (<[ch:=true]> (channels c)) (published c))
| p_publish c tab e id :
    entries c !! tab = Some e -> sink e = EventSink id ->
    prim a c
      (mkCoordinator (poisoned c) (entries c) (channels c) (published c ++ [(id, snapshot e)])).

(** What always holds of the coordinator: every entry is filed under its own tab,
    its snapshot is well formed, and no two entries share a cancellation flag. *)
Record coordinator_ok (c : SqlExecutionCoordinator) : Prop := {
  ok_entry tab e : entries c !! tab = Some e ->
    tab_id (snapshot e) = tab /\ snapshot_ok (snapshot e) /\ cancel e < length (channels c);
  ok_channels t1 t2 e1 e2 : entries c !! t1 = Some e1 -> entries c !! t2 = Some e2 ->
    cancel e1 = cancel e2 -> t1 = t2;
}.

Lemma increment_revision_ok s s' :
  increment_revision s = Ok s' -> s' = set_revision (revision s + 1) s /\ (revision s < U64_MAX)%Z.
Proof.
  unfold increment_revision, checked_add_u64. intros H. case_ifs H; [|discriminate].
  injection H as <-. split; [done|]. lia.
Qed.

Lemma snapshot_ok_set_revision r s :
  (1 <= r <= U64_MAX)%Z -> snapshot_ok s -> snapshot_ok (set_revision r s).
Proof. intros Hr []; split; simpl; auto. Qed.

Lemma evolves_ok s s' : evolves s s' -> snapshot_ok s -> snapshot_ok s'.
Proof.
  intros (s1 & Ht & H) Hs. pose proof (touch_ok _ _ Ht Hs) as H1.
  destruct (increment_revision s1) eqn:E; subst; [|done].
  apply increment_revision_ok in E as [-> Hlt].
  apply snapshot_ok_set_revision; [|done]. destruct H1. lia.
Qed.

Lemma evolves_same s s' : evolves s s' -> same_execution s s'.
Proof.
  intros (s1 & [Ht _ _ _ _] & H). destruct (increment_revision s1) eqn:E; subst; [|done].
  by apply increment_revision_ok in E as [-> _].
Qed.

Lemma evolves_state s s' : evolves s s' ->
  is_terminal (state s) = false /\
  (state s' = state s \/ is_valid_transition (state s) (state s') = true).
Proof.
  intros (s1 & [_ Ha Hst _ _] & H). split; [done|].
  destruct (increment_revision s1) eqn:E; subst; [|done].
  by apply increment_revision_ok in E as [-> _].
Qed.

Lemma evolves_revision s s' : evolves s s' -> (revision s <= U64_MAX)%Z ->
  revision s' = (revision s + 1)%Z \/ (revision s' = U64_MAX /\ revision s = U64_MAX).
Proof.
  intros (s1 & [_ _ _ Hr _] & H) Hmax. unfold increment_revision, checked_add_u64 in H.
  case_ifs H; subst; simpl; rewrite Hr in *; [by left|right]. lia.
Qed.

Lemma prim_ok a c c' : prim a c c' -> coordinator_ok c -> coordinator_ok c'.
Proof.
  intros Hp [He Hc]. destruct Hp; simpl.
  - split; simpl.
    + intros t e. rewrite lookup_insert. case_decide; [intros [= <-]; subst|intros Ht].
      * simpl. rewrite length_app. simpl. split_and!; [done|done|lia].
      * rewrite length_app. destruct (He _ _ Ht) as (? & ? & ?). split_and!; [done..|lia].
    + intros t1 t2 e1 e2. rewrite !lookup_insert.
      repeat case_decide; subst; intros H1' H2'; simplify_eq; simpl; try done.
      * intros Heq. apply He in H2' as (_ & _ & ?). lia.
      * intros Heq. apply He in H1' as (_ & _ & ?). lia.
      * by apply Hc.
  - split; simpl.
    + intros t e'. rewrite lookup_insert. case_decide; [intros [= <-]; subst|apply He].
      destruct (He _ _ H) as (? & ? & ?). simpl.
      destruct (evolves_same _ _ H1) as (_ & _ & -> & _).
      split_and!; eauto using evolves_ok.
    + intros t1 t2 e1 e2. rewrite !lookup_insert.
      repeat case_decide; subst; intros H1' H2'; simplify_eq; simpl; eauto.
  - split; simpl; intros *; rewrite ?lookup_delete; repeat case_decide; eauto; done.
  - split; simpl; intros *; rewrite ?length_insert; eauto.
  - by split.
Qed.

Lemma prims_ok a c c' : rtc (prim a) c c' -> coordinator_ok c -> coordinator_ok c'.
Proof. induction 1; eauto using prim_ok. Qed.

End machine.

Section simulation.
Context {J : JsonNumber}.
Variable hash_iter : gmap str ActiveSqlExecution -> list (str * ActiveSqlExecution).
Hypothesis hash_iter_perm : forall m, hash_iter m ≡ₚ map_to_list m.

Lemma hash_iter_lookup m t e : (t, e) ∈ hash_iter m -> m !! t = Some e.
Proof using hash_iter_perm. rewrite hash_iter_perm. apply elem_of_map_to_list. Qed.

(** What an operation may do in the state [c] it starts from. *)
Definition op_registers (op : CoordinatorOp) (tab : str) : Prop :=
  match op with
  | DoRegister input _ => in_tab_id input = tab
  | _ => False
  end.

Definition op_updates (op : CoordinatorOp) (tab : str) (e : ActiveSqlExecution) : Prop :=
  match op with
  | DoTransition _ t exec _ | DoUpdateSummary t exec _ _ | DoAppendWarning t exec _
  | DoCompleteSuccess _ t exec _ | DoCompleteFailure _ t exec _ _ | DoBeginCancel t exec
  | DoCompleteCancel _ t exec _ => t = tab /\ execution_id (snapshot e) = exec
  | DoCancelTab t => t = tab
  | DoCancelProfile profile => profile_id e = profile
  | _ => False
  end.

Definition op_removes (op : CoordinatorOp) (tab : str) (e : ActiveSqlExecution) : Prop :=
  match op with
  | DoRelease t exec =>
      t = tab /\ execution_id (snapshot e) = exec /\ is_terminal (state (snapshot e)) = true
  | DoReleaseForProfile profile t exec =>
      t = tab /\ profile_id e = profile /\ execution_id (snapshot e) = exec /\
      is_terminal (state (snapshot e)) = true
  | DoDiscardTab t => t = tab
  | DoDiscardProfile profile => profile_id e = profile
  | DoDiscardAll => True
  | _ => False
  end.

Definition op_signals (op : CoordinatorOp) (c : SqlExecutionCoordinator) (ch : nat) : Prop :=
  exists tab e, entries c !! tab = Some e /\ cancel e = ch /\
    match op with
    | DoBeginCancel t exec => t = tab /\ execution_id (snapshot e) = exec
    | DoCancelTab t | DoDiscardTab t => t = tab
    | DoCancelProfile profile | DoDiscardProfile profile => profile_id e = profile
    | DoDiscardAll => True
    | _ => False
    end.

Definition op_authority (op : CoordinatorOp) (c : SqlExecutionCoordinator) : Authority :=
  mkAuthority (op_registers op) (op_updates op) (op_removes op) (op_signals op c).

Lemma entry_mut_ok (m : gmap str ActiveSqlExecution) tab exec e :
  entry_mut m tab exec = Ok e -> m !! tab = Some e /\ execution_id (snapshot e) = exec.
Proof.
  unfold entry_mut. destruct (m !! tab) as [e'|]; [|done].
  case_bool_decide; [|done]. by intros [= ->].
Qed.

(** The final write of an update overrides the intermediate one. *)
Lemma update_snapshot_cases tab exec ctx upd c :
  (exists err, update_snapshot tab exec ctx upd c = (Err err, c)) \/
  exists e s, entries c !! tab = Some e /\ execution_id (snapshot e) = exec /\
    upd (snapshot e) = Ok s /\
    update_snapshot tab exec ctx upd c =
      match increment_revision s with
      | Err err => (Err err, with_entries (<[tab := set_snapshot s e]> (entries c)) c)
      | Ok s' => (Ok s', (publish_snapshot (sink e) s'
                            (with_entries (<[tab := set_snapshot s' e]> (entries c)) c)).2)
      end.
Proof.
  unfold update_snapshot, lock, mbind, ST_bind, st_lift. simpl.
  destruct (poisoned c) eqn:Hp; [left; by eexists|].
  destruct (entry_mut (entries c) tab exec) as [e|err] eqn:He; [|left; by eexists].
  apply entry_mut_ok in He as [He Hx].
  destruct (upd (snapshot e)) as [s|err] eqn:Hu; [|left; by eexists].
  right. exists e, s. split_and!; try done.
  unfold with_entries. rewrite Hp. simpl.
  by destruct (increment_revision s).
Qed.

Lemma publish_prim a c tab e :
  entries c !! tab = Some e ->
  rtc (prim a) c (publish_snapshot (sink e) (snapshot e) c).2.
Proof.
  intros H. unfold publish_snapshot, st_modify. simpl. destruct (sink e) eqn:Hk; [done|].
  apply rtc_once. by eapply p_publish.
Qed.

Lemma update_prims a c tab e s :
  entries c !! tab = Some e -> may_update a tab e -> touches (snapshot e) s ->
  rtc (prim a) c
    match increment_revision s with
    | Err err => with_entries (<[tab := set_snapshot s e]> (entries c)) c
    | Ok s' => (publish_snapshot (sink e) s'
                  (with_entries (<[tab := set_snapshot s' e]> (entries c)) c)).2
    end.
Proof.
  intros He Hu Ht. destruct (increment_revision s) as [s'|err] eqn:Hi.
  - eapply rtc_l; [eapply p_update; [done..|]; exists s; by rewrite Hi|].
    apply (publish_prim a _ tab (set_snapshot s' e)).
    simpl. apply lookup_insert_eq.
  - apply rtc_once. eapply p_update; [done..|]. exists s. by rewrite Hi.
Qed.

Lemma update_snapshot_prims a tab exec ctx upd c :
  (forall e, execution_id (snapshot e) = exec -> may_update a tab e) ->
  (forall s s', upd s = Ok s' -> touches s s') ->
  rtc (prim a) c (update_snapshot tab exec ctx upd c).2.
Proof.
  intros Ha Hu. destruct (update_snapshot_cases tab exec ctx upd c)
    as [[err ->]|(e & s & He & Hx & Hs & ->)]; [done|].
  pose proof (update_prims a c tab e s He (Ha _ Hx) (Hu _ _ Hs)) as Hp.
  by destruct (increment_revision s).
Qed.

(** A mutation that moves to [to] and keeps the rest of the snapshot well formed. *)
Lemma touches_move s s' :
  same_execution s s' -> is_valid_transition (state s) (state s') = true ->
  revision s' = revision s -> observation_warnings s' = observation_warnings s ->
  (snapshot_ok s ->
   (is_Some (finished_at s') <-> is_terminal (state s') = true) /\
   (is_Some (outcome s') -> state s' = Succeeded) /\
   (is_Some (failure s') -> state s' = Failed \/ state s' = TimedOut \/ state s' = CancelFailed) /\
   (is_Some (cancel_message s') -> state s' = Canceled)) ->
  touches s s'.
Proof.
  intros Hs Hv Hr Hw Hok. split; try done.
  - by destruct (state s), (state s').
  - by right.
  - intros Ho. destruct (Hok Ho) as (? & ? & ? & ?). destruct Ho.
    split; rewrite ?Hr, ?Hw; try done.
    intros Hq. rewrite Hq in Hv. by destruct (state s).
Qed.

(** An active snapshot carries no result yet. *)
Lemma active_no_result s : snapshot_ok s -> is_terminal (state s) = false ->
  finished_at s = None /\ outcome s = None /\ failure s = None /\ cancel_message s = None.
Proof.
  intros [_ Hf Ho Hfl Hc _ _ _ _] Ha.
  rewrite <-not_true_iff_false in Ha.
  split_and!; apply eq_None_not_Some; intros Hs.
  - by apply Ha, Hf.
  - apply Ha. by rewrite (Ho Hs).
  - apply Ha. by destruct (Hfl Hs) as [->|[->| ->]].
  - apply Ha. by rewrite (Hc Hs).
Qed.

Lemma valid_from_active from to : is_valid_transition from to = true -> is_terminal from = false.
Proof. by destruct from, to. Qed.

Ltac active_fields Hok Hv :=
  destruct (active_no_result _ Hok (valid_from_active _ _ Hv)) as (? & ? & ? & ?).

Lemma transition_touches now st s s' :
  (if negb (is_valid_transition (state s) st) then
     Err (resource_conflict (lit "SQL execution cannot transition from " ++
             debug_state (state s) ++ lit " to " ++ debug_state st))
   else Ok (if is_terminal st then set_finished_at (Some now) (set_state st s)
            else set_state st s)) = Ok s' -> touches s s'.
Proof.
  destruct (is_valid_transition (state s) st) eqn:Hv; simpl; [|done].
  intros [= <-]. apply touches_move; destruct (is_terminal st) eqn:Ht; simpl; try done;
    intros Hok; active_fields Hok Hv; simplify_option_eq; rewrite ?H, ?H0, ?H1, ?H2, ?Ht;
    split_and!; rewrite ?is_Some_alt; try done.
Qed.

Lemma success_touches now o s :
  is_valid_transition (state s) Succeeded = true ->
  touches s (set_outcome (Some o) None (set_finished_at (Some now) (set_state Succeeded s))).
Proof.
  intros Hv. apply touches_move; try done. intros Hok. active_fields Hok Hv. simpl.
  rewrite H2. split_and!; try done; by intros [? ?].
Qed.

Lemma failure_touches now st f s :
  is_valid_transition (state s) st = true -> st = Failed \/ st = TimedOut \/ st = CancelFailed ->
  touches s (set_outcome None (Some f) (set_finished_at (Some now) (set_state st s))).
Proof.
  intros Hv Hst. apply touches_move; try done. intros Hok. active_fields Hok Hv. simpl.
  rewrite H2. split_and!; try done; [|by intros [? ?]..].
  split; [by destruct Hst as [->|[->| ->]]|done].
Qed.

Lemma canceled_touches now m s :
  is_valid_transition (state s) Canceled = true ->
  touches s (set_cancel_message (Some m) (set_finished_at (Some now) (set_state Canceled s))).
Proof.
  intros Hv. apply touches_move; try done. intros Hok. active_fields Hok Hv. simpl.
  rewrite H0, H1. split_and!; try done; by intros [? ?].
Qed.

Lemma summary_touches sm p s :
  is_terminal (state s) = false -> touches s (set_summary sm p s).
Proof. intros Ha. split; try done; [by left|]. intros []. by split. Qed.

Lemma normalize_warning_size m :
  1 <= length (normalize_warning m) <= MAX_OBSERVATION_WARNING_CHARS.
Proof.
  unfold normalize_warning, MAX_OBSERVATION_WARNING_CHARS. case_bool_decide.
  - vm_compute. lia.
  - destruct (trim m) as [|z t]; [done|]. rewrite length_take. cbn [length]. lia.
Qed.

Lemma existsb_str_eqb w ws : existsb (fun x => str_eqb x w) ws = true <-> w ∈ ws.
Proof.
  rewrite existsb_exists. unfold str_eqb. split.
  - intros (x & Hx & Heq). apply bool_decide_eq_true in Heq as ->. by apply list_elem_of_In.
  - intros Hw. exists w. rewrite bool_decide_eq_true. split; [by apply list_elem_of_In|done].
Qed.

Lemma warning_touches m s :
  is_terminal (state s) = false ->
  existsb (fun w => str_eqb w (normalize_warning m)) (observation_warnings s) = false ->
  length (observation_warnings s) < MAX_OBSERVATION_WARNINGS ->
  touches s (push_warning (normalize_warning m) s).
Proof.
  intros Ha Hn Hl. split; try done; [by left|].
  intros []. split; simpl; try done.
  - rewrite length_app. simpl. lia.
  - apply NoDup_app. split_and!; [done| |apply NoDup_singleton].
    intros w Hw ->%list_elem_of_singleton. apply not_true_iff_false in Hn.
    by apply Hn, existsb_str_eqb.
  - apply Forall_app. split; [done|]. constructor; [apply normalize_warning_size|done].
Qed.

Lemma cancel_touches s :
  is_valid_transition (state s) Canceling = true -> touches s (set_state Canceling s).
Proof.
  intros Hv. apply touches_move; try done. simpl.
  intros Hok. active_fields Hok Hv. rewrite H, H0, H1, H2.
  split_and!; rewrite ?is_Some_alt; done.
Qed.

(** Every outcome of [begin_cancel]: no change, or the flag is raised and the
    snapshot that is stored is published. *)
Lemma begin_cancel_cases tab exec c :
  (exists err, begin_cancel tab exec c = (Err err, c)) \/
  (exists e err, entries c !! tab = Some e /\ execution_id (snapshot e) = exec /\
     is_valid_transition (state (snapshot e)) Canceling = true /\
     increment_revision (set_state Canceling (snapshot e)) = Err err /\
     begin_cancel tab exec c =
       (Err err, with_entries (<[tab := set_snapshot (set_state Canceling (snapshot e)) e]> (entries c)) c)) \/
  exists e s, entries c !! tab = Some e /\ execution_id (snapshot e) = exec /\
    state s = Canceling /\
    ((state (snapshot e) = Canceling /\ s = snapshot e) \/
     (is_valid_transition (state (snapshot e)) Canceling = true /\
      increment_revision (set_state Canceling (snapshot e)) = Ok s)) /\
    begin_cancel tab exec c =
      (Ok s, (publish_snapshot (sink e) s
               (mkCoordinator (poisoned c) (<[tab := set_snapshot s e]> (entries c))
                  (<[cancel e := true]> (channels c)) (published c))).2).
Proof.
  unfold begin_cancel, lock, mbind, ST_bind, st_lift. simpl.
  destruct (poisoned c) eqn:Hp; [left; by eexists|].
  destruct (entry_mut (entries c) tab exec) as [e|err] eqn:He; [|left; by eexists].
  apply entry_mut_ok in He as [He Hx]. simpl.
  case_bool_decide as Hcan.
  - right. right. exists e, (snapshot e). split_and!; auto.
    assert (<[tab:=set_snapshot (snapshot e) e]> (entries c) = entries c) as ->
      by (apply insert_id; rewrite He; by destruct e).
    simpl. by rewrite Hp.
  - destruct (is_valid_transition (state (snapshot e)) Canceling) eqn:Hv; simpl;
      [|left; by eexists].
    right. destruct (increment_revision (set_state Canceling (snapshot e))) as [s|err] eqn:Hi; simpl.
    + right. exists e, s. split_and!; auto.
      * by apply increment_revision_ok in Hi as [-> _].
      * by rewrite Hp.
    + left. exists e, err. split_and!; auto.
Qed.

Lemma begin_cancel_prims a tab exec c :
  (forall e, entries c !! tab = Some e -> execution_id (snapshot e) = exec ->
     may_update a tab e /\ may_signal a (cancel e)) ->
  rtc (prim a) c (begin_cancel tab exec c).2.
Proof.
  intros Ha. destruct (begin_cancel_cases tab exec c)
    as [[err ->]|[(e & err & He & Hx & Hv & Hi & ->)|(e & s & He & Hx & Hs & Hcase & ->)]]; [done|..];
    destruct (Ha _ He Hx) as [Hau Has].
  - apply rtc_once. eapply p_update; [done..|].
    exists (set_state Canceling (snapshot e)). rewrite Hi. eauto using cancel_touches.
  - trans (with_entries (<[tab := set_snapshot s e]> (entries c)) c).
    { destruct Hcase as [[Hc ->]|[Hv Hi]].
      - replace (<[tab:=set_snapshot (snapshot e) e]> (entries c)) with (entries c).
        { by destruct c. }
        symmetry. apply insert_id. rewrite He. by destruct e.
      - apply rtc_once. eapply p_update; [done..|].
        exists (set_state Canceling (snapshot e)). rewrite Hi. eauto using cancel_touches. }
    eapply rtc_l; [apply (p_signal _ _ (cancel e)); done|].
    refine (publish_prim a _ tab (set_snapshot s e) _). apply lookup_insert_eq.
Qed.

(** A loop whose body keeps [P] and is a run of the machine where [P] holds. *)
Lemma st_iter_prims {A} a (P : SqlExecutionCoordinator -> Prop)
    (f : A -> ST SqlExecutionCoordinator IpcError unit) l c :
  P c -> (forall x c, x ∈ l -> P c -> rtc (prim a) c (f x c).2 /\ P (f x c).2) ->
  rtc (prim a) c (st_iter f l c).2.
Proof.
  intros Hc Hf. revert c Hc. induction l as [|x l IH]; intros c Hc; simpl; [done|].
  unfold mbind, ST_bind. destruct (Hf x c ltac:(by left) Hc) as [H1 H2].
  destruct (f x c) as [[] c']; simpl in *; [|done].
  trans c'; [done|]. apply IH; [|done]. intros y c1 Hy. apply Hf. by right.
Qed.

Lemma release_prims a tab exec c :
  (forall e, entries c !! tab = Some e -> execution_id (snapshot e) = exec ->
     is_terminal (state (snapshot e)) = true -> may_remove a tab e) ->
  rtc (prim a) c (release tab exec c).2.
Proof.
  intros Hr. unfold release, lock, mbind, ST_bind, st_lift. simpl.
  destruct (poisoned c) eqn:Hp; [done|].
  destruct (entry_mut (entries c) tab exec) as [e|] eqn:He; simpl; [|done]. apply entry_mut_ok in He as [He Hx].
  destruct (is_terminal _) eqn:Ht; simpl; [|done]. unfold set_entries, st_modify. simpl.
  apply rtc_once. replace false with (poisoned c). apply (p_remove a c tab).
  intros e' He'. assert (e' = e) as -> by congruence. auto.
Qed.

Lemma remove_signal_prims a tab e c :
  entries c !! tab = Some e -> may_remove a tab e -> may_signal a (cancel e) ->
  rtc (prim a) c
    (mkCoordinator (poisoned c) (delete tab (entries c)) (<[cancel e:=true]> (channels c)) (published c)).
Proof.
  intros He Hr Hs. eapply rtc_l.
  - apply (p_remove a c tab). intros e' He'. assert (e' = e) as -> by congruence. done.
  - apply rtc_once. exact (p_signal a (with_entries (delete tab (entries c)) c) (cancel e) Hs).
Qed.

Lemma remove_all_prims a (l : list str) c :
  (forall tab e, may_remove a tab e) ->
  rtc (prim a) c (with_entries (foldr (fun t m => delete t m) (entries c) l) c).
Proof.
  intros Hr. induction l as [|t l IH]; simpl; [by destruct c|].
  eapply rtc_r; [exact IH|]. by apply (p_remove a (with_entries _ c) t).
Qed.

Lemma foldr_delete_dom (m : gmap str ActiveSqlExecution) :
  foldr (fun t m => delete t m) m (elements (dom m)) = ∅.
Proof.
  apply map_eq. intros t. rewrite lookup_empty.
  assert (forall l t, t ∈ l \/ m !! t = None ->
            foldr (fun t m => delete t m) m l !! t = None) as H.
  { induction l as [|x l IH]; simpl; intros u [Hu|Hu]; [by apply elem_of_nil in Hu|done|..].
    - apply elem_of_cons in Hu as [->|Hu]; [apply lookup_delete_eq|].
      rewrite lookup_delete. case_decide; [done|]. auto.
    - rewrite lookup_delete. case_decide; [done|]. auto. }
  apply H. destruct (m !! t) eqn:E; [left|by right].
  apply elem_of_elements, elem_of_dom. by eexists.
Qed.

Lemma register_prims input k c :
  rtc (prim (op_authority (DoRegister input k) c)) c (register_with_sink input k c).2.
Proof.
  unfold register_with_sink, lock, mbind, ST_bind, st_lift. simpl.
  destruct (poisoned c) eqn:Hp; [done|].
  destruct (match entries c !! in_tab_id input with Some _ => _ | None => _ end) eqn:Ha; [done|].
  simpl. set (s := mkSqlExecutionSnapshot _ _ _ _ _ _ _ _ _ _ _ _ _ _).
  eapply rtc_l.
  { apply (p_register _ c (in_tab_id input) (in_profile_id input) s k); try done.
    - intros e He. rewrite He in Ha. by apply negb_false_iff in Ha.
    - split; simpl; try done; try (intros [? ?]; done).
      all: try constructor; try (intros [? ?]; done); try lia; try done. }
  rewrite Hp. refine (publish_prim _ _ (in_tab_id input) (mkActive _ s _ k) _).
  apply lookup_insert_eq.
Qed.

(** Reading a snapshot leaves the state alone. *)
Lemma snapshot_for_profile_state profile tab exec c :
  exists r, snapshot_for_profile profile tab exec c = (r, c) /\
    (is_ok r = true -> forall e, entries c !! tab = Some e -> profile_id e = profile).
Proof.
  unfold snapshot_for_profile, lock, mbind, ST_bind, st_lift. destruct (poisoned c); [by eexists|].
  destruct (entries c !! tab) as [e|]; [|by eexists]. case_bool_decide; [|by eexists].
  case_bool_decide; (eexists; split; [done|]); [|done]. intros _ e' [= <-]. done.
Qed.

Lemma discard_tab_prims tab c : rtc (prim (op_authority (DoDiscardTab tab) c)) c (discard_tab tab c).2.
Proof.
  unfold discard_tab, lock, mbind, ST_bind. simpl.
  destruct (poisoned c) eqn:Hp; [done|].
  destruct (entries c !! tab) as [e|] eqn:He; simpl; rewrite <-Hp.
  - apply (remove_signal_prims _ tab e); try done. by exists tab, e.
  - apply rtc_once. by apply (p_remove _ c tab).
Qed.

Lemma discard_entry_eq tab (c : SqlExecutionCoordinator) :
  discard_entry tab c =
    (Ok tt, match entries c !! tab with
            | Some e => mkCoordinator (poisoned c) (delete tab (entries c))
                          (<[cancel e := true]> (channels c)) (published c)
            | None => c
            end).
Proof. unfold discard_entry, mbind, ST_bind. simpl. by destruct (entries c !! tab). Qed.

(** The entries of [c] that are still there are as in [c0], up to their snapshots. *)
Definition same_owners (c0 c : SqlExecutionCoordinator) : Prop :=
  forall t e, entries c !! t = Some e -> exists e0, entries c0 !! t = Some e0 /\
    profile_id e = profile_id e0 /\ cancel e = cancel e0.

Lemma same_owners_refl c : same_owners c c.
Proof. intros t e He. eauto. Qed.

Lemma filter_hash_iter (f : str * ActiveSqlExecution -> bool) m t e :
  (t, e) ∈ List.filter f (hash_iter m) -> m !! t = Some e /\ f (t, e) = true.
Proof using hash_iter_perm.
  rewrite list_elem_of_In. intros [Hin Hf]%filter_In. split; [|done].
  apply hash_iter_lookup. by apply list_elem_of_In.
Qed.

Lemma discard_profile_prims profile c :
  rtc (prim (op_authority (DoDiscardProfile profile) c)) c (discard_profile hash_iter profile c).2.
Proof using hash_iter_perm.
  unfold discard_profile, lock, mbind at 1, ST_bind at 1. simpl.
  destruct (poisoned c) eqn:Hp; [done|].
  set (l := map fst _). set (a := op_authority _ c).
  assert (Hi : rtc (prim a) c (st_iter discard_entry l c).2).
  { apply (st_iter_prims a (same_owners c)); [apply same_owners_refl|]. intros t c1 Ht Hs.
    rewrite discard_entry_eq. simpl. destruct (entries c1 !! t) as [e|] eqn:He; [|done].
    destruct (Hs _ _ He) as (e0 & He0 & Hpe & Hce). split.
    - assert (Hprof : profile_id e0 = profile).
      { apply list_elem_of_In, in_map_iff in Ht as ([t' e'] & <- & Hin%list_elem_of_In).
        apply filter_hash_iter in Hin as [Hm Hf%bool_decide_eq_true]. simpl in *. congruence. }
      apply (remove_signal_prims a t e); [done|simpl; congruence|]. exists t, e0. by rewrite Hce.
    - intros t' e'. simpl. rewrite lookup_delete. case_decide; [done|]. apply Hs. }
  unfold mbind, ST_bind. by destruct (st_iter discard_entry l c) as [[] c'].
Qed.

Lemma discard_all_prims c : rtc (prim (op_authority DoDiscardAll c)) c (discard_all hash_iter c).2.
Proof using hash_iter_perm.
  unfold discard_all, lock, mbind, ST_bind. simpl.
  destruct (poisoned c) eqn:Hp; [done|]. set (a := op_authority DoDiscardAll c).
  trans (with_entries ∅ c).
  { rewrite <-(foldr_delete_dom (entries c)). by apply remove_all_prims. }
  unfold with_entries. rewrite Hp.
  match goal with |- context [st_iter ?f ?l ?c0] =>
    assert (Hi : rtc (prim a) c0 (st_iter f l c0).2); [|by destruct (st_iter f l c0) as [[] c']] end.
  apply (st_iter_prims a (fun _ => True)); [done|]. intros e c1 He _. split; [|done].
  apply rtc_once, p_signal.
  apply list_elem_of_In, in_map_iff in He as ([t e'] & <- & Hin%list_elem_of_In).
  exists t, e'. split; [by apply hash_iter_lookup|done].
Qed.

Lemma cancel_tab_prims tab c : rtc (prim (op_authority (DoCancelTab tab) c)) c (cancel_tab tab c).2.
Proof.
  unfold cancel_tab, lock, mbind at 1, ST_bind at 1. simpl.
  destruct (poisoned c) eqn:Hp; [done|]. destruct (entries c !! tab) as [e|] eqn:He; [|done].
  case_match; [done|]. unfold mbind, ST_bind.
  assert (Hb : rtc (prim (op_authority (DoCancelTab tab) c)) c
    (begin_cancel tab (execution_id (snapshot e)) c).2).
  { apply begin_cancel_prims. intros e' He' _. split; [done|]. by exists tab, e'. }
  by destruct (begin_cancel tab _ c) as [[] ?].
Qed.

Lemma begin_cancel_owners c0 tab exec c :
  same_owners c0 c -> same_owners c0 (begin_cancel tab exec c).2.
Proof.
  intros Hs.
  assert (Hset : forall e s t e', entries c !! tab = Some e -> <[tab:=set_snapshot s e]> (entries c) !! t = Some e' ->
    exists e0, entries c0 !! t = Some e0 /\ profile_id e' = profile_id e0 /\ cancel e' = cancel e0).
  { intros e s t e' He. rewrite lookup_insert. case_decide; [|apply Hs]. intros [= <-]. subst.
    destruct (Hs _ _ He) as (e0 & ? & ? & ?). by exists e0. }
  destruct (begin_cancel_cases tab exec c)
    as [[err ->]|[(e & err & He & _ & _ & _ & ->)|(e & s & He & _ & _ & _ & ->)]]; [done|..]; intros t e'.
  - by eapply Hset.
  - unfold publish_snapshot, st_modify. destruct (sink e); by eapply Hset.
Qed.

Lemma cancel_profile_prims profile c :
  rtc (prim (op_authority (DoCancelProfile profile) c)) c (cancel_profile hash_iter profile c).2.
Proof using hash_iter_perm.
  unfold cancel_profile, lock, mbind at 1, ST_bind at 1. simpl.
  destruct (poisoned c) eqn:Hp; [done|]. set (a := op_authority _ c).
  match goal with |- context [st_iter ?f ?l] =>
    assert (Hi : rtc (prim a) c (st_iter f l c).2);
      [|unfold mbind at 1, ST_bind at 1; by destruct (st_iter f l c) as [[] c']] end.
  apply (st_iter_prims a (same_owners c)); [apply same_owners_refl|].
  intros [tab exec] c1 Hin Hs. unfold mbind, ST_bind.
  assert (Hb : rtc (prim a) c1 (begin_cancel tab exec c1).2).
  { apply begin_cancel_prims. intros e He _. destruct (Hs _ _ He) as (e0 & He0 & Hpe & Hce).
    apply list_elem_of_In, in_map_iff in Hin as ([t' e'] & [= -> _] & Hin%list_elem_of_In).
    apply filter_hash_iter in Hin as [Hm [Hf%bool_decide_eq_true _]%andb_true_iff].
    assert (e' = e0) as -> by congruence. split; [simpl; congruence|]. exists tab, e0. by rewrite Hce. }
  pose proof (begin_cancel_owners c tab exec c1 Hs) as Ho.
  by destruct (begin_cancel tab exec c1) as [[] ?].
Qed.

Lemma append_warning_prims a tab exec msg c :
  (forall e, execution_id (snapshot e) = exec -> may_update a tab e) ->
  rtc (prim a) c (append_warning tab exec msg c).2.
Proof.
  intros Ha.
  unfold append_warning, lock, mbind, ST_bind, st_lift. simpl.
  destruct (poisoned c) eqn:Hp; [done|].
  destruct (entry_mut (entries c) tab exec) as [e|err] eqn:He; [|done].
  apply entry_mut_ok in He as [He Hid]. simpl.
  destruct (is_terminal (state (snapshot e))) eqn:Ht; [done|].
  destruct (existsb _ _) eqn:Hx; simpl; [done|].
  destruct (Nat.ltb_spec (length (observation_warnings (snapshot e))) MAX_OBSERVATION_WARNINGS);
    [|done].
  pose proof (update_prims a c tab e _ He (Ha _ Hid) (warning_touches msg _ Ht Hx H)) as Hu.
  by destruct (increment_revision (push_warning _ _)).
Qed.

(** Every operation is a run of the abstract machine within its authority. *)
Lemma run_op_prims op c : rtc (prim (op_authority op c)) c (run_op hash_iter op c).
Proof using hash_iter_perm.
  destruct op; simpl.
  - apply register_prims.
  - apply update_snapshot_prims; [done|]. intros s s'. apply transition_touches.
  - apply update_snapshot_prims; [done|]. intros s s' H. case_ifs H; [done|].
    injection H as <-. by apply summary_touches.
  - by apply append_warning_prims.
  - apply update_snapshot_prims; [done|]. intros s s' H.
    destruct (is_valid_transition _ _) eqn:Hv; [|done]. injection H as <-.
    by apply success_touches.
  - unfold complete_failure. case_match eqn:Hst; [done|].
    apply update_snapshot_prims; [done|]. intros s s' H.
    destruct (is_valid_transition _ _) eqn:Hv; [|done]. injection H as <-.
    apply failure_touches; [done|]. destruct st; auto; done.
  - apply begin_cancel_prims. intros e He Hx. split; [done|]. by exists tab, e.
  - apply update_snapshot_prims; [done|]. intros s s' H.
    destruct (is_valid_transition _ _) eqn:Hv; [|done]. injection H as <-.
    by apply canceled_touches.
  - by apply release_prims.
  - unfold release_for_profile, mbind, ST_bind.
    destruct (snapshot_for_profile_state profile tab exec c) as (r & -> & Hown).
    destruct r; [|done]. apply release_prims. intros e He Hx Ht. simpl. auto.
  - apply discard_tab_prims.
  - apply discard_profile_prims.
  - apply discard_all_prims.
  - apply cancel_tab_prims.
  - apply cancel_profile_prims.
Qed.

End simulation.

(** ** Consequences *)

Section consequences.
Context {J : JsonNumber}.
Variable hash_iter : gmap str ActiveSqlExecution -> list (str * ActiveSqlExecution).
Hypothesis hash_iter_perm : forall m, hash_iter m ≡ₚ map_to_list m.

(** How far an execution is in its life; transitions only move forward. *)
Definition lifecycle_rank (s : SqlExecutionState) : nat :=
  match s with
  | Queued => 0 | Starting => 1 | Running => 2 | Canceling => 3
  | Succeeded | Failed | TimedOut | Canceled | CancelFailed => 4
  end.

Lemma valid_transition_rank from to :
  is_valid_transition from to = true -> lifecycle_rank from < lifecycle_rank to.
Proof. destruct from, to; simpl; intros; (lia || done). Qed.

(** An entry that is neither registered anew nor removed. *)
Record entry_advances (e e' : ActiveSqlExecution) : Prop := {
  adv_same : same_execution (snapshot e) (snapshot e');
  adv_owner : profile_id e' = profile_id e /\ cancel e' = cancel e /\ sink e' = sink e;
  adv_rank : lifecycle_rank (state (snapshot e)) <= lifecycle_rank (state (snapshot e'));
  adv_revision : snapshot e' = snapshot e \/ (revision (snapshot e) < revision (snapshot e'))%Z
                 \/ revision (snapshot e') = U64_MAX;
  adv_monotone : (revision (snapshot e) <= revision (snapshot e'))%Z;
  adv_terminal : is_terminal (state (snapshot e)) = true -> e' = e;
}.

(** The parts of an entry that never change. *)
Definition same_entry (e e' : ActiveSqlExecution) : Prop :=
  profile_id e' = profile_id e /\ cancel e' = cancel e /\ sink e' = sink e /\
  execution_id (snapshot e') = execution_id (snapshot e).

Lemma entry_advances_refl e : entry_advances e e.
Proof. by split; [| |lia|left|lia|]. Qed.

Lemma entry_advances_trans e1 e2 e3 :
  entry_advances e1 e2 -> entry_advances e2 e3 -> entry_advances e1 e3.
Proof.
  intros [(?&?&?&?&?) (?&?&?) ? Hr1 Hm1 Ht1] [(?&?&?&?&?) (?&?&?) ? Hr2 Hm2 Ht2].
  split; [split_and!; congruence|split_and!; congruence|lia| |lia|].
  - destruct Hr1 as [Hr1|[Hr1|Hr1]], Hr2 as [Hr2|[Hr2|Hr2]];
      rewrite ?Hr2 in *; rewrite ?Hr1 in *; auto; right; lia.
  - intros Ht. specialize (Ht1 Ht). subst. auto.
Qed.

Lemma advances_owner (a : str -> ActiveSqlExecution -> Prop) tab e e' :
  entry_advances e e' -> (forall e1, same_entry e e1 -> ~ a tab e1) -> forall e1, same_entry e' e1 -> ~ a tab e1.
Proof.
  intros [(Hx & _) (Hp & Hc & Hk) _ _ _ _] H e1 (H1 & H2 & H3 & H4). apply H. split_and!; congruence.
Qed.

Lemma prim_advances a tab c c' e :
  prim a c c' -> ~ may_register a tab -> (forall e1, same_entry e e1 -> ~ may_remove a tab e1) ->
  coordinator_ok c -> entries c !! tab = Some e ->
  exists e', entries c' !! tab = Some e' /\ entry_advances e e' /\
    ((forall e1, same_entry e e1 -> ~ may_update a tab e1) -> e' = e).
Proof.
  intros Hp Hreg Hrem Hok He. pose proof (entry_advances_refl e).
  assert (Hself : same_entry e e) by done.
  destruct Hp as [c t p s k|c t e0 s' He0 Hup Hev|c t Hrm|c ch|c t e0 id]; simpl; eauto.
  - rewrite lookup_insert. case_decide; subst; [done|eauto].
  - rewrite lookup_insert. case_decide; subst; [|eauto].
    assert (e0 = e) as -> by congruence. eexists. split; [done|].
    destruct (ok_entry _ Hok _ _ He) as (_ & Hs & _).
    destruct (evolves_state _ _ Hev) as [Ha Hst].
    assert (lifecycle_rank (state (snapshot e)) <= lifecycle_rank (state s')).
    { destruct Hst as [->|Hst%valid_transition_rank]; lia. }
    pose proof (evolves_revision _ _ Hev) as Hrev. destruct (ok_revision _ Hs).
    split; [|intros Hno; by destruct (Hno e Hself)].
    split; simpl; [by apply evolves_same|done|done| |lia|].
    + destruct Hrev as [Hrev|[Hrev _]]; [lia|right; left; lia|by right; right].
    + by rewrite Ha.
  - rewrite lookup_delete. case_decide; subst; [|eauto]. by destruct (Hrem e Hself); apply Hrm.
Qed.

Lemma prims_advance a tab c c' e :
  rtc (prim a) c c' -> ~ may_register a tab -> (forall e1, same_entry e e1 -> ~ may_remove a tab e1) ->
  coordinator_ok c -> entries c !! tab = Some e ->
  exists e', entries c' !! tab = Some e' /\ entry_advances e e' /\
    ((forall e1, same_entry e e1 -> ~ may_update a tab e1) -> e' = e).
Proof.
  intros Hp Hreg. revert e. induction Hp as [c|c1 c2 c3 Hp _ IH]; intros e Hrem Hok He.
  - eauto using entry_advances_refl.
  - destruct (prim_advances _ _ _ _ _ Hp Hreg Hrem Hok He) as (e1 & He1 & H1 & Hu1).
    destruct (IH e1) as (e2 & He2 & H2 & Hu2); [by eapply advances_owner|eauto using prim_ok|done|].
    exists e2. split_and!; [done|by eapply entry_advances_trans|].
    intros Hno. specialize (Hu1 Hno) as ->. auto.
Qed.

Lemma coordinator_ok_new : coordinator_ok (new (J:=J)).
Proof. split; simpl; intros *; rewrite ?lookup_empty; done. Qed.

Lemma reachable_ok c : reachable hash_iter c -> coordinator_ok c.
Proof using hash_iter_perm.
  induction 1 as [|c op _ IH]; [apply coordinator_ok_new|].
  eapply prims_ok; [by apply run_op_prims|done].
Qed.

(** On a terminal execution every lifecycle operation reports a conflict and
    changes nothing. *)
Lemma update_snapshot_rejects tab exec ctx upd c e err :
  poisoned c = false -> entries c !! tab = Some e -> execution_id (snapshot e) = exec ->
  upd (snapshot e) = Err err -> update_snapshot tab exec ctx upd c = (Err err, c).
Proof.
  intros Hp He Hx Hu. unfold update_snapshot, lock, mbind, ST_bind, st_lift, entry_mut. simpl.
  rewrite Hp, He. rewrite bool_decide_true by done. simpl. by rewrite Hu.
Qed.

Lemma terminal_no_transition from to : is_terminal from = true -> is_valid_transition from to = false.
Proof. by destruct from, to. Qed.

End consequences.

(** ** Theorems *)

Section theorems.
Context {J : JsonNumber}.
Variable hash_iter : gmap str ActiveSqlExecution -> list (str * ActiveSqlExecution).
Hypothesis hash_iter_perm : forall m, hash_iter m ≡ₚ map_to_list m.

(** C18: refinement.  Every coordinator operation, on every branch, is a run of the
    abstract machine within the authority the operation has: it registers only its own
    tab and only when no active execution holds it; lets active snapshots evolve along
    valid transitions, and only those of the execution, tab or profile it names; removes
    only the tab, profile or execution it names, a release only when the execution is
    terminal; raises the cancellation flags only of executions it names; and publishes
    only snapshots that are stored. *)
Theorem operations_refine_machine op c :
  rtc (prim (op_authority op c)) c (run_op hash_iter op c).
Proof using hash_iter_perm. by apply run_op_prims. Qed.

(** Invariant.  In every reachable coordinator each entry is filed under its tab,
    has its own cancellation flag, is finished exactly when its state is terminal,
    carries an outcome, failure or cancel message only in the matching terminal state,
    has a 64-bit revision from 1 and at most four distinct bounded warnings. *)
Theorem coordinator_invariant c : reachable hash_iter c -> coordinator_ok c.
Proof using hash_iter_perm. by apply reachable_ok. Qed.

(** Safety.  Whatever operation runs, an entry it may neither register nor remove
    keeps its identity, never moves back in its lifecycle, counts its revision up on
    every observable change (or sits at the 64-bit maximum), and is frozen once
    terminal; an entry the operation may not update either is left exactly as it was. *)
Theorem entries_advance op c tab e :
  reachable hash_iter c -> ~ op_registers op tab ->
  (forall e1, same_entry e e1 -> ~ op_removes op tab e1) ->
  entries c !! tab = Some e ->
  exists e', entries (run_op hash_iter op c) !! tab = Some e' /\ entry_advances e e' /\
    ((forall e1, same_entry e e1 -> ~ op_updates op tab e1) -> e' = e).
Proof using hash_iter_perm.
  intros Hr Hreg Hrem He.
  apply (prims_advance (op_authority op c) tab c); eauto using run_op_prims, reachable_ok.
Qed.

(** Error.  Once an execution is terminal, completing it again (with success, failure
    or cancellation), cancelling, transitioning, reporting progress or a warning all fail
    with a resource conflict and leave the coordinator unchanged: the first completion wins. *)
Theorem first_completion_wins c tab e now st o f msg sm p :
  poisoned c = false -> entries c !! tab = Some e -> is_terminal (state (snapshot e)) = true ->
  st = Failed \/ st = TimedOut \/ st = CancelFailed ->
  Forall (fun r => exists err, r = (Err err, c) /\ code err = ResourceConflict)
    [ complete_success now tab (execution_id (snapshot e)) o c;
      complete_failure now tab (execution_id (snapshot e)) st f c;
      complete_cancel now tab (execution_id (snapshot e)) msg c;
      begin_cancel tab (execution_id (snapshot e)) c;
      transition now tab (execution_id (snapshot e)) st c;
      update_summary tab (execution_id (snapshot e)) sm p c;
      append_warning tab (execution_id (snapshot e)) msg c ].
Proof.
  intros Hp He Ht Hst.
  assert (Hno : forall to, is_valid_transition (state (snapshot e)) to = false)
    by (intros to; by apply terminal_no_transition).
  assert (Hentry : entry_mut (entries c) tab (execution_id (snapshot e)) = Ok e)
    by (unfold entry_mut; rewrite He; by rewrite bool_decide_true).
  repeat constructor; eexists; split.
  all: try (eapply update_snapshot_rejects; [done..|rewrite ?Hno, ?Ht; reflexivity]); try reflexivity.
  - unfold complete_failure. destruct Hst as [->|[->| ->]];
      (eapply update_snapshot_rejects; [done..|rewrite ?Hno, ?Ht; reflexivity]).
  - reflexivity.
  - unfold begin_cancel, lock, mbind, ST_bind, st_lift. rewrite Hp, Hentry. simpl.
    rewrite bool_decide_false by (intros Hc; rewrite Hc in Ht; done). by rewrite Hno.
  - reflexivity.
  - unfold append_warning, lock, mbind, ST_bind, st_lift. rewrite Hp, Hentry. simpl. by rewrite Ht.
  - reflexivity.
Qed.

(** Functional.  Registration succeeds exactly when the tab holds no active execution:
    then the entry is a fresh [Starting] snapshot at revision 1 with a lowered flag of its
    own, already published; otherwise it is a resource conflict and nothing changes. *)
Theorem register_outcome input id c :
  poisoned c = false ->
  match entries c !! in_tab_id input with
  | Some old => is_terminal (state (snapshot old)) = false /\
      exists err, register_with_sink input (EventSink id) c = (Err err, c) /\ code err = ResourceConflict
  | None => False
  end \/
  exists r c', register_with_sink input (EventSink id) c = (Ok r, c') /\
    entries c' = <[in_tab_id input :=
      mkActive (in_profile_id input) (r_snapshot r) (r_cancellation r) (EventSink id)]> (entries c) /\
    state (r_snapshot r) = Starting /\ revision (r_snapshot r) = 1%Z /\
    execution_id (r_snapshot r) = in_execution_id input /\
    channels c !! r_cancellation r = None /\ channels c' !! r_cancellation r = Some false /\
    published c' = published c ++ [(id, r_snapshot r)].
Proof.
  intros Hp. unfold register_with_sink, lock, mbind, ST_bind, st_lift. simpl. rewrite Hp.
  destruct (entries c !! in_tab_id input) as [old|] eqn:Hold;
    [destruct (is_terminal (state (snapshot old))) eqn:Ht; [|left; simpl; eauto]|];
    right; simpl; eexists _, _; (split; [reflexivity|]); simpl;
    rewrite lookup_app_r, Nat.sub_diag by lia;
    split_and!; try done; by apply lookup_ge_None.
Qed.

(** Liveness.  When a cancellation request is accepted the execution's own flag is
    raised and its snapshot is [Canceling], stored and published to its sink, while the
    flag of every other tab is as before. *)
Theorem begin_cancel_delivers c tab exec s c' :
  reachable hash_iter c -> begin_cancel tab exec c = (Ok s, c') ->
  exists e, entries c !! tab = Some e /\
    state s = Canceling /\ entries c' !! tab = Some (set_snapshot s e) /\
    channels c' !! cancel e = Some true /\
    (forall id, sink e = EventSink id -> published c' = published c ++ [(id, s)]) /\
    (forall t e2, t <> tab -> entries c !! t = Some e2 ->
       entries c' !! t = Some e2 /\ channels c' !! cancel e2 = channels c !! cancel e2).
Proof.
  intros Hr%(reachable_ok _ hash_iter_perm) Hb. destruct (begin_cancel_cases tab exec c)
    as [[err Hc]|[(e & err & _ & _ & _ & _ & Hc)|(e & s0 & He & _ & Hs & _ & Hc)]];
    rewrite Hc in Hb; try done.
  assert (s0 = s) as -> by congruence. apply (f_equal snd) in Hb. cbn [snd] in Hb. subst c'.
  exists e.
  destruct (ok_entry _ Hr _ _ He) as (_ & _ & Hlt).
  assert (Hpub : forall c0 : SqlExecutionCoordinator,
    entries (publish_snapshot (sink e) s c0).2 = entries c0 /\
    channels (publish_snapshot (sink e) s c0).2 = channels c0)
    by (intros c0; unfold publish_snapshot, st_modify; simpl; by destruct (sink e)).
  destruct (Hpub (mkCoordinator (poisoned c) (<[tab := set_snapshot s e]> (entries c))
                    (<[cancel e := true]> (channels c)) (published c))) as [-> ->]. simpl.
  split_and!; try done.
  - by rewrite lookup_insert_eq.
  - by apply list_lookup_insert_eq.
  - intros id Hk. unfold publish_snapshot, st_modify. simpl. by rewrite Hk.
  - intros t e2 Hne He2. rewrite lookup_insert_ne by done. split; [done|].
    apply list_lookup_insert_ne. intros Heq.
    by apply Hne, (ok_channels _ Hr t tab e2 e).
Qed.

(** Removing a list of tabs: exactly they go, and exactly their flags are raised. *)
Lemma discard_iter l (c : SqlExecutionCoordinator) :
  exists c', st_iter discard_entry l c = (Ok tt, c') /\
    (forall t, entries c' !! t = if decide (t ∈ l) then None else entries c !! t) /\
    (forall ch, channels c !! ch = Some true -> channels c' !! ch = Some true) /\
    (forall t e, t ∈ l -> entries c !! t = Some e -> cancel e < length (channels c) ->
       channels c' !! cancel e = Some true) /\
    (forall ch, (forall t e, t ∈ l -> entries c !! t = Some e -> cancel e <> ch) ->
       channels c' !! ch = channels c !! ch).
Proof.
  revert c. induction l as [|x l IH]; intros c; simpl.
  { exists c. split_and!; try done. intros t e Ht. by apply elem_of_nil in Ht. }
  unfold mbind, ST_bind. rewrite discard_entry_eq.
  destruct (entries c !! x) as [ex|] eqn:Hx.
  - destruct (IH (mkCoordinator (poisoned c) (delete x (entries c))
                    (<[cancel ex := true]> (channels c)) (published c)))
      as (c' & -> & He & Hm & Ht & Hf). simpl in *. exists c'.
    assert (Hm' : forall ch, channels c !! ch = Some true -> channels c' !! ch = Some true).
    { intros ch Hch. apply Hm. rewrite list_lookup_insert. by case_decide. }
    split_and!; try done.
    + intros t. rewrite He, lookup_delete. repeat case_decide; set_solver.
    + intros t e Htl Hte Hlt. destruct (decide (x = t)) as [->|Hne].
      * simplify_eq. apply Hm. by apply list_lookup_insert_eq.
      * apply (Ht t); [set_solver|by rewrite lookup_delete_ne|by rewrite length_insert].
    + intros ch Hch. rewrite Hf.
      * apply list_lookup_insert_ne. apply (Hch x); [set_solver|done].
      * intros t e Htl. rewrite lookup_delete. case_decide; [done|].
        intros Hte. apply (Hch t); [set_solver|done].
  - destruct (IH c) as (c' & -> & He & Hm & Ht & Hf). exists c'. split_and!; try done.
    + intros t. rewrite He. repeat case_decide; set_solver.
    + intros t e [->|Htl]%elem_of_cons Hte; [congruence|]. by apply (Ht t).
    + intros ch Hch. apply Hf. intros t e Htl. apply Hch. set_solver.
Qed.

(** Functional.  Discarding a connection profile removes exactly the entries that
    profile owns, raises the cancellation flags of exactly those, leaves every other tab
    and flag alone, and returns how many entries it removed. *)
Theorem discard_profile_exact profile c :
  reachable hash_iter c -> poisoned c = false ->
  exists c', discard_profile hash_iter profile c =
      (Ok (size (filter (fun te : str * ActiveSqlExecution => profile_id te.2 = profile) (entries c))), c') /\
    (forall t e, entries c !! t = Some e -> profile_id e <> profile ->
       entries c' !! t = Some e /\ channels c' !! cancel e = channels c !! cancel e) /\
    (forall t e, entries c !! t = Some e -> profile_id e = profile ->
       entries c' !! t = None /\ channels c' !! cancel e = Some true) /\
    (forall t, entries c !! t = None -> entries c' !! t = None).
Proof.
  intros Hr%(reachable_ok _ hash_iter_perm) Hp. pose proof hash_iter_perm as Hit.
  set (owned := List.filter (fun '(_, e) => bool_decide (profile_id e = profile)) (hash_iter (entries c))).
  assert (Hin : forall t, t ∈ map fst owned <-> exists e, entries c !! t = Some e /\ profile_id e = profile).
  { intros t. unfold owned. rewrite list_elem_of_In, in_map_iff. split.
    - intros ([t' e] & <- & [Hx Hpe]%filter_In). simpl. exists e.
      apply bool_decide_eq_true in Hpe. split; [|done].
      apply elem_of_map_to_list. rewrite <-Hit. by apply list_elem_of_In.
    - intros (e & He & Hpe). exists (t, e). split; [done|]. apply filter_In. split.
      + apply list_elem_of_In. rewrite Hit. by apply elem_of_map_to_list.
      + by apply bool_decide_eq_true. }
  destruct (discard_iter (map fst owned) c) as (c' & Hiter & He & Hm & Ht & Hf).
  exists c'. split_and!.
  - unfold discard_profile, lock, mbind at 1, ST_bind at 1. rewrite Hp.
    unfold mbind at 1, ST_bind at 1. fold owned. rewrite Hiter. unfold mret, ST_ret.
    do 2 f_equal. rewrite length_map. apply size_map_filter; [|done]. by intros [].
  - intros t e Hte Hne. rewrite He, decide_False.
    + split; [done|]. apply Hf. intros t2 e2 (e3 & ? & ?)%Hin ? Heq. simplify_eq.
      apply Hne. assert (t2 = t) as -> by (by eapply (ok_channels _ Hr)). congruence.
    + intros (e2 & ? & ?)%Hin. congruence.
  - intros t e Hte Hpe. rewrite He, decide_True by (apply Hin; eauto). split; [done|].
    apply (Ht t); [apply Hin; eauto|done|]. by apply (ok_entry _ Hr) in Hte as (_ & _ & ?).
  - intros t Hnone. rewrite He. by case_decide.
Qed.

End theorems.

(** ** Concrete runs *)

Definition demo_input : SqlExecutionStartInput :=
  mkSqlExecutionStartInput (lit "profile-1") (lit "tab-1") (lit "exec-1") (lit "query-1") ClsRead 10.

(** A tab is registered and runs. *)
Definition demo_running : SqlExecutionCoordinator (J:=IntegerNumber) :=
  run_op map_to_list (DoTransition 20 (lit "tab-1") (lit "exec-1") Running)
    (run_op map_to_list (DoRegister demo_input (EventSink 7)) new).

(** The same execution after it succeeded. *)
Definition demo_done : SqlExecutionCoordinator (J:=IntegerNumber) :=
  run_op map_to_list
    (DoCompleteSuccess 30 (lit "tab-1") (lit "exec-1") (OutCommand ClsRead (lit "done") None false))
    demo_running.

Definition demo_entry (c : SqlExecutionCoordinator (J:=IntegerNumber)) : ActiveSqlExecution :=
  match entries c !! lit "tab-1" with
  | Some e => e
  | None => mkActive [] (mkSqlExecutionSnapshot [] [] [] Queued 0 ClsRead 0 None false None None None None []) 0
              NoopSqlExecutionEventSink
  end.

Lemma demo_entry_lookup c :
  bool_decide (is_Some (entries c !! lit "tab-1")) = true ->
  entries c !! lit "tab-1" = Some (demo_entry c).
Proof. intros [e He]%bool_decide_eq_true. unfold demo_entry. by rewrite He. Qed.

Lemma demo_running_reachable : reachable map_to_list demo_running.
Proof. apply reachable_op, reachable_op, reachable_new. Qed.

Lemma demo_done_reachable : reachable map_to_list demo_done.
Proof. apply reachable_op, demo_running_reachable. Qed.

Lemma demo_iter (m : gmap str (ActiveSqlExecution (J:=IntegerNumber))) : map_to_list m ≡ₚ map_to_list m.
Proof. reflexivity. Qed.

(** Cancelling the tabs of a profile is a run within its authority. *)
Lemma operations_refine_machine_witness :
  rtc (prim (op_authority (DoCancelProfile (lit "profile-1")) demo_running)) demo_running
    (run_op map_to_list (DoCancelProfile (lit "profile-1")) demo_running).
Proof. apply (operations_refine_machine map_to_list demo_iter). Defined.

Lemma coordinator_invariant_witness :
  state (snapshot (demo_entry demo_done)) = Succeeded /\ coordinator_ok demo_done.
Proof.
  split; [vm_compute; reflexivity|].
  apply (coordinator_invariant map_to_list demo_iter). apply demo_done_reachable.
Defined.

Lemma entries_advance_witness :
  exists e', entries (run_op map_to_list (DoBeginCancel (lit "tab-1") (lit "exec-1")) demo_running)
               !! lit "tab-1" = Some e' /\ entry_advances (demo_entry demo_running) e' /\
    ((forall e1, same_entry (demo_entry demo_running) e1 ->
        ~ op_updates (DoBeginCancel (lit "tab-1") (lit "exec-1")) (lit "tab-1") e1) -> e' = demo_entry demo_running).
Proof.
  apply (entries_advance map_to_list demo_iter (DoBeginCancel (lit "tab-1") (lit "exec-1")) demo_running
           (lit "tab-1") (demo_entry demo_running)).
  - apply demo_running_reachable.
  - intros [].
  - intros e1 _ [].
  - apply demo_entry_lookup. vm_compute. reflexivity.
Defined.

Lemma first_completion_wins_witness :
  exists err, complete_cancel 40 (lit "tab-1") (lit "exec-1") (lit "late") demo_done = (Err err, demo_done)
    /\ code err = ResourceConflict.
Proof.
  pose proof (first_completion_wins demo_done (lit "tab-1") (demo_entry demo_done) 40 Failed
    (OutCommand ClsRead [] None false) (mkSqlExecutionFailure SystemInternal BusinessOnly [] None)
    (lit "late") (mkSqlExecutionSummary None None None None None None None None None Merged SumFinal) true
    ltac:(vm_compute; reflexivity) ltac:(apply demo_entry_lookup; vm_compute; reflexivity)
    ltac:(vm_compute; reflexivity) ltac:(left; reflexivity)) as H.
  apply Forall_cons_1 in H as [_ H]. apply Forall_cons_1 in H as [_ H].
  apply Forall_cons_1 in H as [H _]. exact H.
Defined.

Lemma register_outcome_witness :
  exists r c', register_with_sink demo_input (EventSink 7) demo_done = (Ok r, c') /\
    revision (r_snapshot r) = 1%Z.
Proof.
  destruct (register_outcome demo_input 7 demo_done ltac:(vm_compute; reflexivity))
    as [H|(r & c' & Hr & _ & _ & Hrev & _)].
  - exfalso. change (in_tab_id demo_input) with (lit "tab-1") in H.
    rewrite demo_entry_lookup in H by (vm_compute; reflexivity).
    destruct H as [H _]. vm_compute in H. discriminate H.
  - exists r, c'. split; [exact Hr|exact Hrev].
Defined.

Lemma begin_cancel_delivers_witness :
  channels (begin_cancel (lit "tab-1") (lit "exec-1") demo_running).2
    !! cancel (demo_entry demo_running) = Some true.
Proof.
  destruct (begin_cancel (lit "tab-1") (lit "exec-1") demo_running) as [[s|err] c'] eqn:Hb.
  2: { exfalso. assert (is_ok (begin_cancel (lit "tab-1") (lit "exec-1") demo_running).1 = true)
         as Ht by (vm_compute; reflexivity). rewrite Hb in Ht. discriminate Ht. }
  destruct (begin_cancel_delivers map_to_list demo_iter demo_running (lit "tab-1") (lit "exec-1") s c'
    demo_running_reachable Hb) as (e & He & _ & _ & Hc & _).
  assert (e = demo_entry demo_running) as <-; [|exact Hc].
  unfold demo_entry. rewrite He. reflexivity.
Defined.

Lemma discard_profile_exact_witness :
  entries (discard_profile map_to_list (lit "profile-1") demo_running).2 !! lit "tab-1" = None.
Proof.
  destruct (discard_profile_exact map_to_list demo_iter (lit "profile-1") demo_running
    demo_running_reachable ltac:(vm_compute; reflexivity))
    as (c' & Hc & _ & Hin & _).
  rewrite Hc. apply (Hin (lit "tab-1") (demo_entry demo_running)).
  - apply demo_entry_lookup. vm_compute. reflexivity.
  - vm_compute. reflexivity.
Defined.
