(* ===== verification/PreparedPlans.v ===== *)
(** * Prepared plan registry ([src-tauri/src/ai_runtime/backend_bridge/prepared_plans.rs])

    An operation an agent wants to run is first prepared: the registry stores the
    exact payload under a fresh plan id.  Executing it consumes the plan.  The
    registry is the mutex and the table behind it; the UUID of a new plan comes
    from the [uuid] crate and is an argument of [prepare]. *)

From stdpp Require Import base gmap list strings fin_maps.
From Stdlib Require Import ZArith Lia.
From S2P Require Import Prelude Errors Types.

Definition DEFAULT_PREPARED_PLAN_TTL_MS : Z := 5 * 60 * 1000.

Record GatewayExecutionContext := mkGatewayExecutionContext {
  conversation_id : str;
  run_id : str;
  message_id : str;
  tool_call_id : str;
  tool_id : str;
}.

#[export] Instance GatewayExecutionContext_eq_dec : EqDecision GatewayExecutionContext.
Proof. solve_decision. Defined.

Inductive PreparedPlanError :=
| NotFound | Expired | AlreadyConsumed | Mismatch | RegistryUnavailable.

Definition error_code (e : PreparedPlanError) : str :=
  match e with
  | NotFound => lit "PLAN_NOT_FOUND"
  | Expired => lit "PLAN_EXPIRED"
  | AlreadyConsumed => lit "PLAN_ALREADY_CONSUMED"
  | Mismatch => lit "PLAN_MISMATCH"
  | RegistryUnavailable => lit "SYSTEM_INTERNAL"
  end.

Record PreparedPlanHandle := mkPreparedPlanHandle {
  h_plan_id : str;
  h_expires_at_ms : Z;
}.

Section registry.
Context {J : JsonNumber}.

Record PreparedPlanSpec := mkPreparedPlanSpec {
  p_context : GatewayExecutionContext;
  p_profile_id : str;
  execute_operation : str;
  exact_payload : Value;
  expires_at_ms : Z;
}.

Record PreparedPlanEntry := mkPreparedPlanEntry {
  spec : PreparedPlanSpec;
  consumed : bool;
}.

Record ConsumedPreparedPlan := mkConsumedPreparedPlan {
  c_profile_id : str;
  c_exact_payload : Value;
}.

Record PreparedPlanRegistry := mkRegistry {
  poisoned : bool;
  plans : gmap str PreparedPlanEntry;
}.

Definition default : PreparedPlanRegistry := mkRegistry false ∅.

Definition plan_id_of (uuid : str) : str := lit "plan_" ++ uuid.

Definition prepare (uuid : str) (sp : PreparedPlanSpec) (r : PreparedPlanRegistry)
  : Result PreparedPlanError PreparedPlanHandle * PreparedPlanRegistry :=
  if poisoned r then (Err RegistryUnavailable, r)
  else (Ok (mkPreparedPlanHandle (plan_id_of uuid) (expires_at_ms sp)),
        mkRegistry false (<[plan_id_of uuid := mkPreparedPlanEntry sp false]> (plans r))).

Definition consume (plan_id : str) (ctx : GatewayExecutionContext) (operation : str) (now_ms : Z)
    (r : PreparedPlanRegistry)
  : Result PreparedPlanError ConsumedPreparedPlan * PreparedPlanRegistry :=
  if poisoned r then (Err RegistryUnavailable, r)
  else match plans r !! plan_id with
  | None => (Err NotFound, r)
  | Some entry =>
    if consumed entry then (Err AlreadyConsumed, r)
    else if (expires_at_ms (spec entry) <=? now_ms)%Z then
      (Err Expired, mkRegistry false (delete plan_id (plans r)))
    else if negb (str_eqb (execute_operation (spec entry)) operation)
            || negb (bool_decide (p_context (spec entry) = ctx)) then
      (Err Mismatch, r)
    else
      (Ok (mkConsumedPreparedPlan (p_profile_id (spec entry)) (exact_payload (spec entry))),
       mkRegistry false (<[plan_id := mkPreparedPlanEntry (spec entry) true]> (plans r)))
  end.

Definition retain (keep : PreparedPlanEntry -> bool) (r : PreparedPlanRegistry)
  : nat * PreparedPlanRegistry :=
  if poisoned r then (0, r)
  else
    let before := size (plans r) in
    let kept := filter (fun ke : str * PreparedPlanEntry => keep ke.2 = true) (plans r) in
    (before - size kept, mkRegistry false kept).

Definition clear_run (run : str) : PreparedPlanRegistry -> nat * PreparedPlanRegistry :=
  retain (fun entry => negb (str_eqb (run_id (p_context (spec entry))) run)).

Definition clear_profile (profile : str) : PreparedPlanRegistry -> nat * PreparedPlanRegistry :=
  retain (fun entry => negb (str_eqb (p_profile_id (spec entry)) profile)).

Definition clear_expired (now_ms : Z) : PreparedPlanRegistry -> nat * PreparedPlanRegistry :=
  retain (fun entry => (now_ms <? expires_at_ms (spec entry))%Z).

Definition clear_all (r : PreparedPlanRegistry) : nat * PreparedPlanRegistry :=
  if poisoned r then (0, r) else (size (plans r), mkRegistry false ∅).

(** ** Traces *)

Inductive PlanOp :=
| Prepare (uuid : str) (sp : PreparedPlanSpec)
| Consume (plan_id : str) (ctx : GatewayExecutionContext) (operation : str) (now_ms : Z)
| ClearRun (run : str)
| ClearProfile (profile : str)
| ClearExpired (now_ms : Z)
| ClearAll.

(** The registry after an operation, and the plan it handed out for execution. *)
Definition step (op : PlanOp) (r : PreparedPlanRegistry)
  : option (str * ConsumedPreparedPlan) * PreparedPlanRegistry :=
  match op with
  | Prepare uuid sp => (None, (prepare uuid sp r).2)
  | Consume id ctx operation now =>
    match consume id ctx operation now r with
    | (Ok plan, r') => (Some (id, plan), r')
    | (Err _, r') => (None, r')
    end
  | ClearRun run => (None, (clear_run run r).2)
  | ClearProfile profile => (None, (clear_profile profile r).2)
  | ClearExpired now => (None, (clear_expired now r).2)
  | ClearAll => (None, (clear_all r).2)
  end.

Fixpoint run_trace (ops : list PlanOp) (r : PreparedPlanRegistry)
  : list (str * ConsumedPreparedPlan) * PreparedPlanRegistry :=
  match ops with
  | [] => ([], r)
  | op :: ops' =>
    let '(out, r1) := step op r in
    let '(outs, r2) := run_trace ops' r1 in
    (match out with Some x => x :: outs | None => outs end, r2)
  end.

Definition prepared_uuids (ops : list PlanOp) : list str :=
  omap (fun op => match op with Prepare u _ => Some u | _ => None end) ops.

(** How often a trace hands out a plan for execution. *)
Definition executions (id : str) (outs : list (str * ConsumedPreparedPlan)) : nat :=
  length (filter (fun x => x.1 = id) outs).

(** ** Lemmas *)

(** A plan that can still be consumed. *)
Definition live (id : str) (r : PreparedPlanRegistry) : nat :=
  match plans r !! id with
  | Some e => if consumed e then 0 else 1
  | None => 0
  end.

Definition prepares (id : str) (ops : list PlanOp) : nat :=
  length (filter (fun u => plan_id_of u = id) (prepared_uuids ops)).

Lemma retain_lookup keep r id :
  plans (retain keep r).2 !! id = plans r !! id \/ plans (retain keep r).2 !! id = None.
Proof.
  unfold retain. destruct (poisoned r); simpl; [by left|].
  rewrite map_lookup_filter. destruct (plans r !! id) as [e|]; simpl; [|by left].
  destruct (decide (keep e = true)); [left|right]; by simplify_option_eq.
Qed.

Lemma live_le_1 id r : live id r <= 1.
Proof. unfold live. repeat case_match; lia. Qed.

Lemma live_lookup id r r' :
  plans r' !! id = plans r !! id \/ plans r' !! id = None -> live id r' <= live id r.
Proof. unfold live. intros [->| ->]; [done|lia]. Qed.

(** A step spends the live plan it hands out, and only preparing makes one. *)
Lemma step_live id op r :
  executions id (option_list (step op r).1) + live id (step op r).2 <= live id r + prepares id [op].
Proof.
  destruct op; simpl;
    try (match goal with |- context [clear_run ?x] => unfold clear_run
         | |- context [clear_profile ?x] => unfold clear_profile
         | |- context [clear_expired ?x] => unfold clear_expired end;
         match goal with |- context [retain ?k r] =>
           pose proof (live_lookup id r _ (retain_lookup k r id)) end;
         unfold executions, prepares; simpl; lia).
  - unfold executions, prepares, prepared_uuids. simpl. rewrite filter_cons.
    unfold prepare. destruct (poisoned r); simpl; [lia|].
    unfold live. simpl. rewrite lookup_insert. repeat case_decide; simpl; try done; lia.
  - unfold consume. destruct (poisoned r); simpl; [lia|].
    destruct (plans r !! plan_id) as [e|] eqn:He; simpl; [|lia].
    destruct (consumed e) eqn:Hc; simpl; [lia|].
    destruct (_ <=? _)%Z; simpl.
    { pose proof (live_lookup id r (mkRegistry false (delete plan_id (plans r)))) as Hl.
      unfold executions, prepares. simpl in *. rewrite Nat.add_0_r. apply Hl.
      rewrite lookup_delete. case_decide; eauto. }
    destruct (_ || _); simpl; [lia|].
    unfold executions, live. simpl. rewrite filter_cons, lookup_insert.
    case_decide; simpl; subst; rewrite ?decide_True, ?decide_False by done; simpl.
    + rewrite He, Hc. lia.
    + lia.
  - unfold clear_all. destruct (poisoned r); simpl; [lia|]. unfold executions, live. simpl. rewrite lookup_empty. lia.
Qed.

Lemma executions_cons id o outs :
  executions id (match o with Some x => x :: outs | None => outs end)
  = executions id (option_list o) + executions id outs.
Proof.
  unfold executions. destruct o; simpl; [|done]. rewrite !filter_cons. case_decide; simpl; done.
Qed.

Lemma prepares_cons id op ops : prepares id (op :: ops) = prepares id [op] + prepares id ops.
Proof.
  unfold prepares, prepared_uuids. destruct op; simpl; try done.
  rewrite !filter_cons. case_decide; simpl; done.
Qed.

Lemma trace_live id ops r :
  executions id (run_trace ops r).1 + live id (run_trace ops r).2 <= live id r + prepares id ops.
Proof.
  revert r. induction ops as [|op ops IH]; intros r; simpl.
  - unfold executions, prepares. simpl. lia.
  - pose proof (step_live id op r) as Hs. destruct (step op r) as [o r1]. simpl in *.
    specialize (IH r1). destruct (run_trace ops r1) as [outs r2]. simpl in *.
    rewrite executions_cons, prepares_cons. lia.
Qed.

Lemma plan_id_of_inj u v : plan_id_of u = plan_id_of v -> u = v.
Proof. unfold plan_id_of. by intros ?%app_inv_head. Qed.

Lemma plan_ids_NoDup id l : NoDup l -> length (filter (fun u => plan_id_of u = id) l) <= 1.
Proof.
  intros Hn. destruct (filter (fun u => plan_id_of u = id) l) as [|u [|v l']] eqn:Hf; simpl; try lia.
  exfalso. pose proof (NoDup_filter (fun u => plan_id_of u = id) l Hn) as Hn2. rewrite Hf in Hn2.
  apply NoDup_cons in Hn2 as [Hu _]. apply Hu.
  assert (u ∈ filter (fun u => plan_id_of u = id) l /\ v ∈ filter (fun u => plan_id_of u = id) l)
    as [[Hu' _]%list_elem_of_filter [Hv' _]%list_elem_of_filter] by (rewrite Hf; set_solver).
  assert (u = v) as -> by (apply plan_id_of_inj; congruence). set_solver.
Qed.

Lemma prepares_NoDup id ops : NoDup (prepared_uuids ops) -> prepares id ops <= 1.
Proof. apply plan_ids_NoDup. Qed.

(** Every stored plan was prepared, word for word. *)
Definition from_prepare (ops : list PlanOp) (r : PreparedPlanRegistry) : Prop :=
  forall id e, plans r !! id = Some e ->
    exists u, Prepare u (spec e) ∈ ops /\ id = plan_id_of u.

Lemma step_from_prepare ops op r :
  from_prepare ops r -> from_prepare (ops ++ [op]) (step op r).2.
Proof.
  intros Hf.
  assert (Hmono : forall r', (forall id, plans r' !! id = plans r !! id \/ plans r' !! id = None) ->
            from_prepare (ops ++ [op]) r').
  { intros r' Hr' id e He. destruct (Hr' id) as [Heq|Heq]; rewrite Heq in He; [|done].
    destruct (Hf _ _ He) as (u & Hu & ->). exists u. split; [|done]. apply elem_of_app. by left. }
  destruct op; simpl; try (apply Hmono; intros; apply retain_lookup).
  - unfold prepare. destruct (poisoned r); simpl; [apply Hmono; by left|].
    intros id e. simpl. rewrite lookup_insert. case_decide; [intros [= <-]; subst|].
    + exists uuid. split; [|done]. apply elem_of_app. right. apply list_elem_of_singleton. done.
    + intros He. destruct (Hf _ _ He) as (u & Hu & ->). exists u. split; [|done].
      apply elem_of_app. by left.
  - unfold consume. destruct (poisoned r); simpl; [apply Hmono; by left|].
    destruct (plans r !! plan_id) as [e|] eqn:He; simpl; [|apply Hmono; by left].
    destruct (consumed e); simpl; [apply Hmono; by left|].
    destruct (_ <=? _)%Z; simpl.
    { apply Hmono. intros id. simpl. rewrite lookup_delete. case_decide; eauto. }
    destruct (_ || _); simpl; [apply Hmono; by left|].
    intros id e'. simpl. rewrite lookup_insert. case_decide; [intros [= <-]; subst|].
    + destruct (Hf _ _ He) as (u & Hu & ->). exists u. split; [|done]. apply elem_of_app. by left.
    + intros He'. destruct (Hf _ _ He') as (u & Hu & ->). exists u. split; [|done].
      apply elem_of_app. by left.
  - unfold clear_all. destruct (poisoned r); simpl; [apply Hmono; by left|].
    apply Hmono. intros id. right. apply lookup_empty.
Qed.

Lemma trace_from_prepare pre ops r :
  from_prepare pre r -> from_prepare (pre ++ ops) (run_trace ops r).2.
Proof.
  revert pre r. induction ops as [|op ops IH]; intros pre r Hf; simpl; [by rewrite app_nil_r|].
  pose proof (step_from_prepare pre op r Hf) as Hs. destruct (step op r) as [o r1]. simpl in *.
  specialize (IH _ _ Hs). destruct (run_trace ops r1) as [outs r2]. simpl in *.
  by rewrite <-app_assoc in IH.
Qed.

Lemma consume_ok_inv id ctx operation now r plan r' :
  consume id ctx operation now r = (Ok plan, r') ->
  exists e, plans r !! id = Some e /\ consumed e = false /\ (now < expires_at_ms (spec e))%Z /\
    execute_operation (spec e) = operation /\ p_context (spec e) = ctx /\
    plan = mkConsumedPreparedPlan (p_profile_id (spec e)) (exact_payload (spec e)) /\
    plans r' = <[id := mkPreparedPlanEntry (spec e) true]> (plans r).
Proof.
  unfold consume, str_eqb. destruct (poisoned r); [done|].
  destruct (plans r !! id) as [e|]; [|done].
  destruct (consumed e) eqn:Hc; [done|]. destruct (_ <=? _)%Z eqn:Hx; [done|].
  repeat case_bool_decide; simpl; try done. intros [= <- <-].
  exists e. split_and!; try done. lia.
Qed.

End registry.

(** ** Theorems *)

Section theorems.
Context {J : JsonNumber}.

(** Safety.  In any history of prepares, consumes and clears with distinct UUIDs, a plan
    id is handed out for execution at most once. *)
Theorem plan_executes_at_most_once ops id :
  NoDup (prepared_uuids ops) -> executions id (run_trace ops default).1 <= 1.
Proof.
  intros Hn%(prepares_NoDup id). pose proof (trace_live id ops default) as Ht.
  assert (live id default = 0) as Hl by (unfold live, default; simpl; by rewrite lookup_empty). lia.
Qed.

(** Safety.  A plan that is handed out was prepared earlier in the history, for the same
    execution context and operation, has not expired, and carries the prepared payload and
    profile word for word. *)
Theorem consumed_plan_was_prepared ops id ctx operation now plan r' :
  consume id ctx operation now (run_trace ops default).2 = (Ok plan, r') ->
  exists uuid sp, Prepare uuid sp ∈ ops /\ id = plan_id_of uuid /\
    p_context sp = ctx /\ execute_operation sp = operation /\ (now < expires_at_ms sp)%Z /\
    c_profile_id plan = p_profile_id sp /\ c_exact_payload plan = exact_payload sp.
Proof.
  intros (e & He & _ & Hx & Hop & Hctx & -> & _)%consume_ok_inv.
  assert (from_prepare ([] ++ ops) (run_trace ops default).2) as Hf.
  { apply trace_from_prepare. intros i e0. simpl. by rewrite lookup_empty. }
  destruct (Hf _ _ He) as (u & Hu & ->). exists u, (spec e). split_and!; done.
Qed.

(** Error.  Every way a live registry answers a consume: unknown plan, consumed plan,
    expired plan (which is forgotten), mismatch of operation or context (which leaves the
    plan usable), or success (which marks it consumed); and never more than one plan changes. *)
Theorem consume_outcome id ctx operation now r :
  poisoned r = false ->
  match plans r !! id with
  | None => consume id ctx operation now r = (Err NotFound, r)
  | Some e =>
      (consumed e = true -> consume id ctx operation now r = (Err AlreadyConsumed, r)) /\
      (consumed e = false -> (expires_at_ms (spec e) <= now)%Z ->
         consume id ctx operation now r = (Err Expired, mkRegistry false (delete id (plans r)))) /\
      (consumed e = false -> (now < expires_at_ms (spec e))%Z ->
         (execute_operation (spec e) <> operation \/ p_context (spec e) <> ctx) ->
         consume id ctx operation now r = (Err Mismatch, r)) /\
      (consumed e = false -> (now < expires_at_ms (spec e))%Z ->
         execute_operation (spec e) = operation -> p_context (spec e) = ctx ->
         consume id ctx operation now r =
           (Ok (mkConsumedPreparedPlan (p_profile_id (spec e)) (exact_payload (spec e))),
            mkRegistry false (<[id := mkPreparedPlanEntry (spec e) true]> (plans r))))
  end.
Proof.
  intros Hp. unfold consume, str_eqb. rewrite Hp.
  destruct (plans r !! id) as [e|]; [|done].
  split_and!; intros Hc; rewrite Hc; [done|intros Hx|intros Hx Hm|intros Hx Hop Hctx].
  - by rewrite (proj2 (Z.leb_le _ _)).
  - rewrite (proj2 (Z.leb_gt _ _)) by done. destruct Hm as [Hm|Hm].
    + by rewrite (bool_decide_false _ Hm).
    + rewrite (bool_decide_false _ Hm). by rewrite orb_true_r.
  - rewrite (proj2 (Z.leb_gt _ _)) by done. by rewrite !bool_decide_true.
Qed.

(** Functional.  Clearing a run, a profile or the expired plans removes exactly the plans
    concerned, keeps the others unchanged and returns how many were removed. *)
Theorem retain_exact keep r :
  poisoned r = false ->
  (forall id e, plans r !! id = Some e ->
     plans (retain keep r).2 !! id = if keep e then Some e else None) /\
  (forall id, plans r !! id = None -> plans (retain keep r).2 !! id = None) /\
  (retain keep r).1 + size (plans (retain keep r).2) = size (plans r).
Proof.
  intros Hp. unfold retain. rewrite Hp. simpl. split_and!.
  - intros id e He. rewrite map_lookup_filter, He. simpl. by destruct (keep e).
  - intros id He. by rewrite map_lookup_filter, He.
  - pose proof (map_size_filter (fun ke : str * PreparedPlanEntry => keep ke.2 = true) (plans r)). lia.
Qed.

End theorems.

(** ** Concrete runs *)

Definition demo_context : GatewayExecutionContext :=
  mkGatewayExecutionContext (lit "conv_1") (lit "run_1") (lit "msg_1") (lit "tool_1") (lit "sql.execute").

Definition demo_spec : PreparedPlanSpec (J:=IntegerNumber) :=
  mkPreparedPlanSpec demo_context (lit "profile_1") (lit "sql.execute")
    (VString (lit "DELETE FROM users")) 200.

Definition demo_trace : list (PlanOp (J:=IntegerNumber)) :=
  [ Prepare (lit "a1") demo_spec;
    Consume (lit "plan_a1") demo_context (lit "sql.execute") 100;
    Consume (lit "plan_a1") demo_context (lit "sql.execute") 101 ].

Lemma plan_executes_at_most_once_witness :
  executions (lit "plan_a1") (run_trace demo_trace default).1 = 1 /\
  executions (lit "plan_a1") (run_trace demo_trace default).1 <= 1.
Proof.
  split; [vm_compute; reflexivity|].
  apply (plan_executes_at_most_once demo_trace). apply NoDup_singleton.
Defined.

Lemma consumed_plan_was_prepared_witness :
  exists uuid sp, Prepare uuid sp ∈ [Prepare (lit "a1") demo_spec] /\ lit "plan_a1" = plan_id_of uuid /\
    exact_payload sp = VString (lit "DELETE FROM users").
Proof.
  destruct (consume (lit "plan_a1") demo_context (lit "sql.execute") 100
              (run_trace [Prepare (lit "a1") demo_spec] default).2) as [[plan|err] r'] eqn:Hc.
  - destruct (consumed_plan_was_prepared _ _ _ _ _ _ _ Hc) as (u & sp & Hin & Hid & _).
    exists u, sp. split; [exact Hin|split; [exact Hid|]].
    apply list_elem_of_singleton in Hin. injection Hin as -> ->. reflexivity.
  - exfalso. assert (is_ok (consume (lit "plan_a1") demo_context (lit "sql.execute") 100
      (run_trace [Prepare (lit "a1") demo_spec] default).2).1 = true) as Ht by (vm_compute; reflexivity).
    rewrite Hc in Ht. discriminate Ht.
Defined.

Lemma consume_outcome_witness :
  consume (lit "plan_b") demo_context (lit "sql.execute") 5 (default (J:=IntegerNumber))
    = (Err NotFound, default).
Proof.
  pose proof (consume_outcome (lit "plan_b") demo_context (lit "sql.execute") 5
    (default (J:=IntegerNumber)) eq_refl) as H.
  unfold default in H at 1. simpl in H. rewrite lookup_empty in H. exact H.
Defined.

Lemma retain_exact_witness :
  (clear_all (default (J:=IntegerNumber))).1 = 0 /\
  (clear_expired 3 (default (J:=IntegerNumber))).1
    + size (plans (clear_expired 3 (default (J:=IntegerNumber))).2) = 0.
Proof.
  split; [reflexivity|].
  destruct (retain_exact (fun entry => (3 <? expires_at_ms (spec entry))%Z) (default (J:=IntegerNumber))
    eq_refl) as (_ & _ & H). exact H.
Defined.
