(* ===== verification/SqlText.v ===== *)
(** * SQL text predicates shared by the drivers
    ([src-tauri/src/engine/drivers/common.rs], from [sql_should_report_affected_rows] on)

    The scanner that decides whether a text holds a single statement walks the
    characters with a quote mode; the iterator's remaining characters are the
    list it still has to read, so a slice [&sql[index..]] at a character
    boundary is a suffix of that list. *)

From stdpp Require Import base list strings.
From Stdlib Require Import ZArith Lia.
From S2P Require Import Prelude.

(** [rest.find(c)] for one character, and the text after it. *)
Fixpoint after_char (c : Z) (s : str) : option str :=
  match s with
  | [] => None
  | x :: s' => if (x =? c)%Z then Some s' else after_char c s'
  end.

(** [chars.by_ref()] up to and including a line feed. *)
Definition skip_line (s : str) : str :=
  match after_char c_nl s with Some r => r | None => [] end.

(** The block comment loop: [previous] starts as NUL. *)
Fixpoint skip_block (previous : Z) (s : str) : str :=
  match s with
  | [] => []
  | c :: s' => if ((previous =? c_star) && (c =? c_slash))%Z then s' else skip_block c s'
  end.

Definition tag_char (c : Z) : bool := is_ascii_alphanumeric c || (c =? c_underscore)%Z.

(** The text of a tag up to the closing dollar sign. *)
Fixpoint until_char (c : Z) (s : str) : option str :=
  match s with
  | [] => None
  | x :: s' => if (x =? c)%Z then Some [] else
      match until_char c s' with Some t => Some (x :: t) | None => None end
  end.

Definition postgres_dollar_quote_delimiter_at (sql : str) : option str :=
  match strip_prefix [c_dollar] sql with
  | None => None
  | Some rest =>
    match until_char c_dollar rest with
    | None => None
    | Some tag =>
      if forallb tag_char tag then Some (c_dollar :: tag ++ [c_dollar]) else None
    end
  end.

Fixpoint has_sql_after_comments_loop (fuel : nat) (remaining : str) : bool :=
  match fuel with
  | O => false
  | S n =>
    let remaining := trim_start remaining in
    if bool_decide (remaining = []) then false
    else match strip_prefix [c_minus; c_minus] remaining with
    | Some comment =>
      match after_char c_nl comment with
      | None => false
      | Some r => has_sql_after_comments_loop n r
      end
    | None =>
      match strip_prefix [c_hash] remaining with
      | Some comment =>
        match after_char c_nl comment with
        | None => false
        | Some r => has_sql_after_comments_loop n r
        end
      | None =>
        match strip_prefix [c_slash; c_star] remaining with
        | Some comment =>
          match split_at_first [c_star; c_slash] comment with
          | None => false
          | Some (_, r) => has_sql_after_comments_loop n r
          end
        | None => true
        end
      end
    end
  end.

Definition has_sql_after_comments (remaining : str) : bool :=
  has_sql_after_comments_loop (S (length remaining)) remaining.

Inductive QuoteMode := Unquoted | InSingleQuote | InDoubleQuote | InBacktick.

(** A doubled delimiter stays inside the quotes, a single one leaves them. *)
Definition close_quote (q : Z) (inside : QuoteMode) (rest : str) : QuoteMode * str :=
  match rest with
  | c :: rest' => if (c =? q)%Z then (inside, rest') else (Unquoted, rest)
  | [] => (Unquoted, rest)
  end.

(** One turn of the loop: the verdict at a semicolon, or the mode and the
    characters the next turn starts with. *)
Definition scan_turn (mode : QuoteMode) (ch : Z) (rest : str) : bool + (QuoteMode * str) :=
  match mode with
  | InSingleQuote =>
    if (ch =? c_bslash)%Z then inr (mode, tail rest)
    else if (ch =? c_squote)%Z then inr (close_quote c_squote mode rest)
    else inr (mode, rest)
  | InDoubleQuote =>
    if (ch =? c_dquote)%Z then inr (close_quote c_dquote mode rest) else inr (mode, rest)
  | InBacktick =>
    if (ch =? c_backtick)%Z then inr (close_quote c_backtick mode rest) else inr (mode, rest)
  | Unquoted =>
    if (ch =? c_squote)%Z then inr (InSingleQuote, rest)
    else if (ch =? c_dquote)%Z then inr (InDoubleQuote, rest)
    else if (ch =? c_backtick)%Z then inr (InBacktick, rest)
    else if (ch =? c_dollar)%Z then
      match postgres_dollar_quote_delimiter_at (ch :: rest) with
      | Some delimiter =>
        let body := drop (length delimiter) (ch :: rest) in
        inr (Unquoted, match split_at_first delimiter body with Some (_, r) => r | None => [] end)
      | None => inr (Unquoted, rest)
      end
    else if (ch =? c_minus)%Z && starts_with [c_minus] rest then inr (Unquoted, skip_line (tail rest))
    else if (ch =? c_hash)%Z then inr (Unquoted, skip_line rest)
    else if (ch =? c_slash)%Z && starts_with [c_star] rest then
      inr (Unquoted, skip_block 0 (tail rest))
    else if (ch =? c_semi)%Z then inl (negb (has_sql_after_comments rest))
    else inr (Unquoted, rest)
  end.

Fixpoint scan_loop (fuel : nat) (mode : QuoteMode) (s : str) : bool :=
  match fuel, s with
  | O, _ | _, [] => true
  | S n, ch :: rest =>
    match scan_turn mode ch rest with
    | inl verdict => verdict
    | inr (mode', s') => scan_loop n mode' s'
    end
  end.

Definition sql_is_single_statement (sql : str) : bool := scan_loop (length sql) Unquoted sql.

Fixpoint leading_sql_keyword_loop (fuel : nat) (remaining : str) : option str :=
  match fuel with
  | O => Some remaining
  | S n =>
    match strip_prefix [c_minus; c_minus] remaining with
    | Some comment =>
      match after_char c_nl comment with
      | None => None
      | Some r => leading_sql_keyword_loop n (trim_start r)
      end
    | None =>
      match strip_prefix [c_hash] remaining with
      | Some comment =>
        match after_char c_nl comment with
        | None => None
        | Some r => leading_sql_keyword_loop n (trim_start r)
        end
      | None =>
        match strip_prefix [c_slash; c_star] remaining with
        | Some comment =>
          match split_at_first [c_star; c_slash] comment with
          | None => None
          | Some (_, r) => leading_sql_keyword_loop n (trim_start r)
          end
        | None => Some remaining
        end
      end
    end
  end.

Fixpoint take_keyword (s : str) : str :=
  match s with
  | [] => []
  | c :: s' =>
    if is_whitespace c || (c =? c_lparen)%Z || (c =? c_semi)%Z then [] else c :: take_keyword s'
  end.

Definition leading_sql_keyword (sql : str) : option str :=
  match leading_sql_keyword_loop (length sql) (trim_start sql) with
  | None => None
  | Some remaining =>
    match take_keyword remaining with
    | [] => None
    | k => Some (str_upper k)
    end
  end.

Definition sql_should_report_affected_rows (sql : str) : bool :=
  match leading_sql_keyword sql with
  | Some k => one_of k ["INSERT"; "UPDATE"; "DELETE"; "REPLACE"; "MERGE"; "UPSERT"; "CREATE";
      "ALTER"; "DROP"; "TRUNCATE"; "RENAME"; "GRANT"; "REVOKE"; "CALL"; "DO"; "SET"; "USE";
      "BEGIN"; "COMMIT"; "ROLLBACK"]%string
  | None => false
  end.

Definition sql_should_fetch_rows (sql : str) : bool :=
  match leading_sql_keyword sql with
  | Some k => one_of k ["SELECT"; "WITH"]%string
  | None => false
  end.

Example single_1 : sql_is_single_statement (lit "SELECT 1; -- done") = true.
Proof. vm_compute. reflexivity. Qed.
Example single_2 : sql_is_single_statement (lit "SELECT 'a;b' ; SELECT 2") = false.
Proof. vm_compute. reflexivity. Qed.
Example single_3 : sql_is_single_statement (lit "DO $x$ a; b $x$; /* ; */") = true.
Proof. vm_compute. reflexivity. Qed.
Example keyword_1 : leading_sql_keyword (lit "  -- c
 /* x */ insert into t") = Some (lit "INSERT").
Proof. vm_compute. reflexivity. Qed.

(** ** Specification: pieces of SQL that hide their content from the scanner *)

(** Characters that open a quote, a dollar quote or a comment, or end a statement. *)
Definition plain_char (c : Z) : bool :=
  negb ((c =? c_squote) || (c =? c_dquote) || (c =? c_backtick) || (c =? c_dollar)
        || (c =? c_minus) || (c =? c_hash) || (c =? c_slash) || (c =? c_semi))%Z.

Inductive piece : str -> Prop :=
| piece_plain c : plain_char c = true -> piece [c]
| piece_minus c : plain_char c = true -> piece [c_minus; c]
| piece_squoted body : c_bslash ∉ body ->
    piece (c_squote :: replace_char c_squote [c_squote; c_squote] body ++ [c_squote])
| piece_dquoted body :
    piece (c_dquote :: replace_char c_dquote [c_dquote; c_dquote] body ++ [c_dquote])
| piece_backtick body :
    piece (c_backtick :: replace_char c_backtick [c_backtick; c_backtick] body ++ [c_backtick])
| piece_line_comment body : c_nl ∉ body -> piece (c_minus :: c_minus :: body ++ [c_nl])
| piece_hash_comment body : c_nl ∉ body -> piece (c_hash :: body ++ [c_nl])
| piece_block_comment body : split_at_first [c_star; c_slash] body = None ->
    piece (c_slash :: c_star :: body ++ [c_star; c_slash]).

(** Text that is a sequence of such pieces. *)
Inductive lexed : str -> Prop :=
| lexed_nil : lexed []
| lexed_piece p s : piece p -> lexed s -> lexed (p ++ s).

(** Blank text and comments, the last comment possibly running to the end. *)
Inductive trivia : str -> Prop :=
| trivia_nil : trivia []
| trivia_space c s : is_whitespace c = true -> trivia s -> trivia (c :: s)
| trivia_line body s : c_nl ∉ body -> trivia s -> trivia (c_minus :: c_minus :: body ++ c_nl :: s)
| trivia_line_end body : c_nl ∉ body -> trivia (c_minus :: c_minus :: body)
| trivia_hash body s : c_nl ∉ body -> trivia s -> trivia (c_hash :: body ++ c_nl :: s)
| trivia_hash_end body : c_nl ∉ body -> trivia (c_hash :: body)
| trivia_block body comment s :
    split_at_first [c_star; c_slash] comment = Some (body, s) -> trivia s ->
    trivia (c_slash :: c_star :: comment)
| trivia_block_end comment :
    split_at_first [c_star; c_slash] comment = None -> trivia (c_slash :: c_star :: comment).

(** ** Lemmas: consumed text is never longer *)

Lemma after_char_length c s r : after_char c s = Some r -> length r < length s.
Proof.
  induction s as [|x s IH]; simpl; [done|]. case_match; [intros [= ->]; lia|].
  intros H1%IH. lia.
Qed.

Lemma skip_line_length s : length (skip_line s) <= length s.
Proof.
  unfold skip_line. destruct (after_char c_nl s) eqn:E; simpl; [|lia].
  apply after_char_length in E. lia.
Qed.

Lemma skip_block_length p s : length (skip_block p s) <= length s.
Proof. revert p. induction s as [|c s IH]; intros p; simpl; [done|]. case_match; [lia|]. specialize (IH c). lia. Qed.

Lemma tail_length {A} (s : list A) : length (tail s) <= length s.
Proof. destruct s; simpl; lia. Qed.

Lemma close_quote_length q m rest m' s' : close_quote q m rest = (m', s') -> length s' <= length rest.
Proof. destruct rest as [|c r]; simpl; [by intros [= <- <-]|]. case_match; intros [= <- <-]; simpl; lia. Qed.

Lemma scan_turn_length mode ch rest m' s' :
  scan_turn mode ch rest = inr (m', s') -> length s' <= length rest.
Proof.
  pose proof (tail_length rest). pose proof (skip_line_length rest).
  pose proof (skip_line_length (tail rest)). pose proof (skip_block_length 0 (tail rest)).
  unfold scan_turn. intros H3.
  destruct mode; case_ifs H3; try (injection H3 as <- <-; lia);
    try (injection H3 as H3; by eapply close_quote_length); try discriminate H3.
  destruct (postgres_dollar_quote_delimiter_at (ch :: rest)) as [d|] eqn:Hd;
    [|injection H3 as <- <-; lia].
  injection H3 as <- <-.
  destruct (split_at_first d _) as [[a b]|] eqn:Hs; simpl; [|lia].
  apply split_at_first_length in Hs. rewrite length_drop in Hs. simpl in Hs.
  unfold postgres_dollar_quote_delimiter_at in Hd.
  repeat case_match; simplify_eq. simpl in *. lia.
Qed.

(** ** Lemmas: the fuel is enough *)

Lemma scan_loop_fuel n mode s : length s <= n -> scan_loop n mode s = scan_loop (length s) mode s.
Proof.
  revert mode s. induction n as [n IH] using lt_wf_ind. intros mode s Hn.
  destruct s as [|ch rest]; [by destruct n|]. simpl in Hn.
  destruct n as [|n]; [lia|]. simpl.
  destruct (scan_turn mode ch rest) as [v|[m' s']] eqn:Ht; [done|].
  apply scan_turn_length in Ht. rewrite (IH n) by lia.
  destruct (decide (n = length rest)) as [->|]; [symmetry; apply IH; lia|].
  symmetry. apply IH; lia.
Qed.

Definition scan (mode : QuoteMode) (s : str) : bool := scan_loop (length s) mode s.

Lemma scan_cons mode ch rest :
  scan mode (ch :: rest) =
    match scan_turn mode ch rest with inl v => v | inr (m', s') => scan m' s' end.
Proof.
  unfold scan. simpl. destruct (scan_turn mode ch rest) as [v|[m' s']] eqn:Ht; [done|].
  apply scan_turn_length in Ht. by rewrite scan_loop_fuel.
Qed.

Lemma has_sql_fuel n s : length s < n ->
  has_sql_after_comments_loop n s = has_sql_after_comments_loop (S (length s)) s.
Proof.
  revert s. induction n as [n IH] using lt_wf_ind. intros s Hn.
  destruct n as [|n]; [lia|]. cbn [has_sql_after_comments_loop].
  pose proof (trim_start_length s).
  case_bool_decide; [done|].
  assert (Hrec : forall r, length r < length s ->
    has_sql_after_comments_loop n r = has_sql_after_comments_loop (length s) r).
  { intros r Hr. transitivity (has_sql_after_comments_loop (S (length r)) r);
      [|symmetry]; apply IH; lia. }
  destruct (strip_prefix [c_minus; c_minus] _) as [r|] eqn:E1.
  { apply strip_prefix_length in E1. destruct (after_char c_nl r) eqn:E2; [|done].
    apply after_char_length in E2. apply Hrec. simpl in *. lia. }
  destruct (strip_prefix [c_hash] _) as [r|] eqn:E3.
  { apply strip_prefix_length in E3. destruct (after_char c_nl r) eqn:E2; [|done].
    apply after_char_length in E2. apply Hrec. simpl in *. lia. }
  destruct (strip_prefix [c_slash; c_star] _) as [r|] eqn:E4; [|done].
  apply strip_prefix_length in E4. destruct (split_at_first _ r) as [[a b]|] eqn:E2; [|done].
  apply split_at_first_length in E2. apply Hrec. simpl in *. lia.
Qed.

Lemma leading_keyword_fuel n s : length s <= n ->
  leading_sql_keyword_loop n s = leading_sql_keyword_loop (length s) s.
Proof.
  revert s. induction n as [n IH] using lt_wf_ind. intros s Hn.
  destruct s as [|c s0]; [by destruct n|]. destruct n as [|n]; [simpl in Hn; lia|]. set (s := c :: s0) in *.
  change (length s) with (S (length s0)) in *. cbn [leading_sql_keyword_loop].
  assert (Hrec : forall r, length r < length s -> leading_sql_keyword_loop n (trim_start r)
                          = leading_sql_keyword_loop (length s0) (trim_start r)).
  { intros r Hr. pose proof (trim_start_length r). change (length s) with (S (length s0)) in Hr.
    transitivity (leading_sql_keyword_loop (length (trim_start r)) (trim_start r));
      [|symmetry]; apply IH; lia. }
  destruct (strip_prefix [c_minus; c_minus] s) as [r|] eqn:E1.
  { apply strip_prefix_length in E1. destruct (after_char c_nl r) eqn:E2; [|done].
    apply after_char_length in E2. apply Hrec. simpl in *. lia. }
  destruct (strip_prefix [c_hash] s) as [r|] eqn:E3.
  { apply strip_prefix_length in E3. destruct (after_char c_nl r) eqn:E2; [|done].
    apply after_char_length in E2. apply Hrec. simpl in *. lia. }
  destruct (strip_prefix [c_slash; c_star] s) as [r|] eqn:E4; [|done].
  apply strip_prefix_length in E4. destruct (split_at_first _ r) as [[a b]|] eqn:E2; [|done].
  apply split_at_first_length in E2. apply Hrec. simpl in *. lia.
Qed.

(** ** Lemmas: pieces are transparent to the scanner *)

Lemma plain_turn c rest : plain_char c = true -> scan_turn Unquoted c rest = inr (Unquoted, rest).
Proof.
  unfold plain_char. intros H%negb_true_iff. repeat (apply orb_false_iff in H as [H ?]).
  unfold scan_turn. repeat (match goal with E : (_ =? _)%Z = false |- _ => rewrite E; clear E end).
  done.
Qed.

Section quoted.
Variables (q : Z) (mode : QuoteMode) (safe : Z -> Prop).
Hypothesis turn_open : forall rest, scan_turn Unquoted q rest = inr (mode, rest).
Hypothesis turn_quote : forall rest, scan_turn mode q rest = inr (close_quote q mode rest).
Hypothesis turn_other : forall x rest, safe x -> x <> q -> scan_turn mode x rest = inr (mode, rest).

Lemma scan_close rest : scan mode (q :: rest) = scan Unquoted rest.
Proof using turn_open turn_quote.
  rewrite scan_cons, turn_quote. destruct rest as [|c r]; [done|]. simpl.
  destruct (Z.eqb_spec c q) as [->|]; [|done]. by rewrite scan_cons, turn_open.
Qed.

Lemma scan_quoted body rest :
  Forall safe body ->
  scan mode (replace_char q [q; q] body ++ q :: rest) = scan Unquoted rest.
Proof using turn_open turn_quote turn_other.
  induction body as [|x body IH]; intros Hs; simpl; [apply scan_close|].
  apply Forall_cons in Hs as [Hx Hs]. destruct (Z.eqb_spec x q) as [->|Hne]; simpl.
  - rewrite scan_cons, turn_quote. simpl. rewrite Z.eqb_refl. by apply IH.
  - rewrite scan_cons, turn_other by done. by apply IH.
Qed.

Lemma scan_quoted_piece body rest :
  Forall safe body ->
  scan Unquoted ((q :: replace_char q [q; q] body ++ [q]) ++ rest) = scan Unquoted rest.
Proof using turn_open turn_quote turn_other.
  intros Hs. cbn [app]. rewrite <-app_assoc. cbn [app].
  rewrite scan_cons, turn_open. by apply scan_quoted.
Qed.
End quoted.

Lemma after_char_app c body rest : c ∉ body -> after_char c (body ++ c :: rest) = Some rest.
Proof.
  induction body as [|x body IH]; simpl; intros Hn; [by rewrite Z.eqb_refl|].
  apply not_elem_of_cons in Hn as [Hx Hn]. destruct (Z.eqb_spec x c); [by subst|]. by apply IH.
Qed.

Lemma after_char_none c s : c ∉ s -> after_char c s = None.
Proof.
  induction s as [|x s IH]; simpl; intros Hn; [done|].
  apply not_elem_of_cons in Hn as [Hx Hn]. destruct (Z.eqb_spec x c); [by subst|]. by apply IH.
Qed.

Lemma split_at_first_None_cons p c s :
  split_at_first p (c :: s) = None -> strip_prefix p (c :: s) = None /\ split_at_first p s = None.
Proof.
  cbn [split_at_first]. destruct (strip_prefix p (c :: s)); [done|].
  by destruct (split_at_first p s) as [[]|].
Qed.

Lemma skip_block_app p body rest :
  split_at_first [c_star; c_slash] body = None ->
  (p <> c_star \/ head body <> Some c_slash) ->
  skip_block p (body ++ c_star :: c_slash :: rest) = rest.
Proof.
  revert p. induction body as [|x body IH]; intros p Hb Hp; simpl.
  - by rewrite andb_false_r.
  - destruct ((p =? c_star) && (x =? c_slash))%Z eqn:E.
    { apply andb_true_iff in E as [->%Z.eqb_eq ->%Z.eqb_eq]. by destruct Hp. }
    apply split_at_first_None_cons in Hb as [Hpre Hb].
    apply IH; [done|]. destruct (Z.eqb_spec c_star x) as [<-|Hne]; [|left; congruence].
    right. destruct body as [|y body]; [done|]. cbn [strip_prefix] in Hpre.
    rewrite Z.eqb_refl in Hpre. destruct (Z.eqb_spec c_slash y); [done|simpl; congruence].
Qed.

Lemma piece_transparent p rest : piece p -> scan Unquoted (p ++ rest) = scan Unquoted rest.
Proof.
  destruct 1 as [c Hc|c Hc|body Hb|body|body|body Hb|body Hb|body Hb].
  - simpl. by rewrite scan_cons, plain_turn.
  - assert (plain_char c_minus = false) by done.
    cbn [app]. rewrite scan_cons. unfold scan_turn, starts_with. cbn [strip_prefix].
    destruct (Z.eqb_spec c_minus c) as [<-|]; [done|]. rewrite andb_false_r.
    change (scan Unquoted (c :: rest) = scan Unquoted rest).
    by rewrite scan_cons, plain_turn.
  - apply (scan_quoted_piece c_squote InSingleQuote (fun x => x <> c_bslash)); try done.
    + intros x r Hx Hq. simpl. destruct (Z.eqb_spec x c_bslash); [done|].
      by destruct (Z.eqb_spec x c_squote).
    + apply Forall_forall. intros x Hx ->. done.
  - apply (scan_quoted_piece c_dquote InDoubleQuote (fun _ => True)); try done.
    + intros x r _ Hq. simpl. by destruct (Z.eqb_spec x c_dquote).
    + by apply Forall_true.
  - apply (scan_quoted_piece c_backtick InBacktick (fun _ => True)); try done.
    + intros x r _ Hq. simpl. by destruct (Z.eqb_spec x c_backtick).
    + by apply Forall_true.
  - cbn [app]. rewrite <-app_assoc. rewrite scan_cons. simpl. unfold skip_line.
    by rewrite after_char_app.
  - cbn [app]. rewrite <-app_assoc. rewrite scan_cons. simpl. unfold skip_line.
    by rewrite after_char_app.
  - cbn [app]. rewrite <-app_assoc. rewrite scan_cons. simpl.
    rewrite skip_block_app; [done|done|by left].
Qed.

Lemma lexed_transparent s rest : lexed s -> scan Unquoted (s ++ rest) = scan Unquoted rest.
Proof.
  induction 1 as [|p s Hp _ IH]; [done|]. by rewrite <-app_assoc, piece_transparent, IH.
Qed.

Lemma lexed_app s t : lexed s -> lexed t -> lexed (s ++ t).
Proof. induction 1; simpl; [done|]. intros Ht. rewrite <-app_assoc. constructor; auto. Qed.

Lemma lexed_one p : piece p -> lexed p.
Proof. intros Hp. rewrite <-(app_nil_r p). by constructor; [|constructor]. Qed.

Lemma lexed_plain s : forallb plain_char s = true -> lexed s.
Proof.
  induction s as [|c s IH]; simpl; [constructor|]. intros [Hc Hs]%andb_true_iff.
  change (c :: s) with ([c] ++ s). constructor; [by constructor|auto].
Qed.

Lemma lexed_join sep l : lexed sep -> Forall lexed l -> lexed (join sep l).
Proof.
  intros Hsep Hl. induction Hl as [|x l Hx Hl IH]; simpl; [constructor|].
  destruct l; [done|]. apply lexed_app; [done|]. by apply lexed_app.
Qed.

#[export] Hint Resolve lexed_nil lexed_app lexed_one lexed_join : nexus.
#[export] Hint Constructors piece : nexus.

(** ** Lemmas: what follows a terminator *)

Lemma after_char_Some c s r : after_char c s = Some r -> exists b, s = b ++ c :: r /\ c ∉ b.
Proof.
  induction s as [|x s IH]; simpl; [done|].
  destruct (Z.eqb_spec x c) as [->|Hne].
  - intros [= ->]. exists []. split; [done|]. apply not_elem_of_nil.
  - intros (b & -> & Hb)%IH. exists (x :: b). split; [done|]. apply not_elem_of_cons. split; [congruence|done].
Qed.

Lemma after_char_None c s : after_char c s = None -> c ∉ s.
Proof.
  induction s as [|x s IH]; simpl; [intros _; apply not_elem_of_nil|].
  destruct (Z.eqb_spec x c) as [->|Hne]; [done|]. intros H%IH.
  apply not_elem_of_cons. split; [congruence|done].
Qed.

(** One round of the loop, without fuel. *)
Lemma has_sql_eq s : has_sql_after_comments s =
  let remaining := trim_start s in
  if bool_decide (remaining = []) then false
  else match strip_prefix [c_minus; c_minus] remaining with
  | Some comment => match after_char c_nl comment with None => false | Some r => has_sql_after_comments r end
  | None =>
    match strip_prefix [c_hash] remaining with
    | Some comment => match after_char c_nl comment with None => false | Some r => has_sql_after_comments r end
    | None =>
      match strip_prefix [c_slash; c_star] remaining with
      | Some comment =>
        match split_at_first [c_star; c_slash] comment with
        | None => false | Some (_, r) => has_sql_after_comments r end
      | None => true
      end
    end
  end.
Proof.
  unfold has_sql_after_comments at 1. cbn [has_sql_after_comments_loop].
  pose proof (trim_start_length s). case_bool_decide; [done|].
  assert (Hrec : forall r, length r < length s ->
    has_sql_after_comments_loop (length s) r = has_sql_after_comments r)
    by (intros r Hr; apply has_sql_fuel; done).
  destruct (strip_prefix [c_minus; c_minus] _) as [r|] eqn:E1.
  { apply strip_prefix_length in E1. destruct (after_char c_nl r) eqn:E2; [|done].
    apply after_char_length in E2. apply Hrec. simpl in *. lia. }
  destruct (strip_prefix [c_hash] _) as [r|] eqn:E3.
  { apply strip_prefix_length in E3. destruct (after_char c_nl r) eqn:E2; [|done].
    apply after_char_length in E2. apply Hrec. simpl in *. lia. }
  destruct (strip_prefix [c_slash; c_star] _) as [r|] eqn:E4; [|done].
  apply strip_prefix_length in E4. destruct (split_at_first _ r) as [[a b]|] eqn:E2; [|done].
  apply split_at_first_length in E2. apply Hrec. simpl in *. lia.
Qed.

Lemma has_sql_space c s : is_whitespace c = true -> has_sql_after_comments (c :: s) = has_sql_after_comments s.
Proof. intros Hc. rewrite has_sql_eq, (has_sql_eq s). cbn [trim_start]. by rewrite Hc. Qed.

Lemma trivia_trim s : trivia (trim_start s) -> trivia s.
Proof. induction s as [|c s IH]; simpl; [done|]. destruct (is_whitespace c) eqn:E; [|done]. intros. constructor; auto. Qed.

Lemma has_sql_sound s : has_sql_after_comments s = false -> trivia s.
Proof.
  induction s as [s IH] using (induction_ltof1 _ (@length Z)). unfold ltof in IH.
  rewrite has_sql_eq. cbv zeta. pose proof (trim_start_length s) as Hl.
  intros H. apply trivia_trim. revert H. case_bool_decide as Hn; [rewrite Hn; constructor|].
  destruct (strip_prefix [c_minus; c_minus] _) as [r|] eqn:E1.
  { pose proof (strip_prefix_length _ _ _ E1). apply strip_prefix_app in E1 as ->. simpl in *.
    destruct (after_char c_nl r) as [r'|] eqn:E2.
    - pose proof (after_char_length _ _ _ E2). apply after_char_Some in E2 as (b & -> & Hb).
      intros Hr. apply trivia_line; [done|]. apply IH; [lia|done].
    - intros _. apply trivia_line_end. by apply after_char_None. }
  destruct (strip_prefix [c_hash] _) as [r|] eqn:E3.
  { pose proof (strip_prefix_length _ _ _ E3). apply strip_prefix_app in E3 as ->. simpl in *.
    destruct (after_char c_nl r) as [r'|] eqn:E2.
    - pose proof (after_char_length _ _ _ E2). apply after_char_Some in E2 as (b & -> & Hb).
      intros Hr. apply trivia_hash; [done|]. apply IH; [lia|done].
    - intros _. apply trivia_hash_end. by apply after_char_None. }
  destruct (strip_prefix [c_slash; c_star] _) as [r|] eqn:E4; [|done].
  pose proof (strip_prefix_length _ _ _ E4). apply strip_prefix_app in E4 as ->.
  destruct (split_at_first _ r) as [[a b]|] eqn:E2; intros Hr.
  - pose proof (split_at_first_length _ _ _ _ E2). eapply trivia_block; [done|].
    simpl in *. apply IH; [lia|done].
  - by apply trivia_block_end.
Qed.

Lemma has_sql_complete s : trivia s -> has_sql_after_comments s = false.
Proof.
  induction 1 as [|c s Hc _ IH|body s Hb _ IH|body Hb|body s Hb _ IH|body Hb|body comment s Hs _ IH|comment Hs].
  - done.
  - by rewrite has_sql_space.
  - rewrite has_sql_eq. simpl. by rewrite after_char_app.
  - rewrite has_sql_eq. simpl. by rewrite after_char_none.
  - rewrite has_sql_eq. simpl. by rewrite after_char_app.
  - rewrite has_sql_eq. simpl. by rewrite after_char_none.
  - rewrite has_sql_eq. cbn -[split_at_first]. by rewrite Hs.
  - rewrite has_sql_eq. cbn -[split_at_first]. by rewrite Hs.
Qed.

(** ** Theorems *)

(** Functional.  On a statement made of plain text, quoted values and identifiers, signed
    numbers and comments, the scanner sees no terminator, whatever the quotes and comments
    contain; after the first terminator it accepts exactly blank text and comments. *)
Theorem single_statement_spec s t :
  lexed s ->
  sql_is_single_statement s = true /\
  (sql_is_single_statement (s ++ c_semi :: t) = true <-> trivia t).
Proof.
  intros Hs. change (scan Unquoted s = true /\ (scan Unquoted (s ++ c_semi :: t) = true <-> trivia t)).
  split.
  - rewrite <-(app_nil_r s). by rewrite lexed_transparent.
  - rewrite lexed_transparent by done. rewrite scan_cons. simpl.
    rewrite negb_true_iff. split; [apply has_sql_sound|apply has_sql_complete].
Qed.

(** A quoted value whose content looks like a second statement. *)
Lemma single_statement_spec_witness :
  sql_is_single_statement (lit "SELECT 'a;b', 1 ; /* done */ -- bye") = true.
Proof.
  change (lit "SELECT 'a;b', 1 ; /* done */ -- bye") with
    (lit "SELECT 'a;b', 1 " ++ c_semi :: lit " /* done */ -- bye").
  apply (single_statement_spec (lit "SELECT 'a;b', 1 ") (lit " /* done */ -- bye")).
  - change (lit "SELECT 'a;b', 1 ") with (lit "SELECT " ++ lit "'a;b'" ++ lit ", 1 ").
    apply lexed_app; [apply lexed_plain; vm_compute; reflexivity|].
    apply lexed_app; [|apply lexed_plain; vm_compute; reflexivity].
    apply lexed_one. apply (piece_squoted (lit "a;b")).
    apply (bool_decide_unpack _). vm_compute. exact I.
  - apply has_sql_sound. vm_compute. reflexivity.
Defined.

(** Termination.  The three scanners run to the end of their input: any further fuel
    beyond what the definitions give them leaves their answers unchanged. *)
Theorem sql_scanners_terminate s extra :
  scan_loop (length s + extra) Unquoted s = sql_is_single_statement s /\
  has_sql_after_comments_loop (S (length s) + extra) s = has_sql_after_comments s /\
  leading_sql_keyword_loop (length s + extra) (trim_start s)
    = leading_sql_keyword_loop (length s) (trim_start s).
Proof.
  pose proof (trim_start_length s). split_and!.
  - apply scan_loop_fuel. lia.
  - apply has_sql_fuel. lia.
  - transitivity (leading_sql_keyword_loop (length (trim_start s)) (trim_start s));
      [|symmetry]; apply leading_keyword_fuel; lia.
Qed.

(** The scanner reads a number sign as a line comment for every driver.  In PostgreSQL
    it is the bitwise exclusive-or operator, so a second statement on the same line goes
    unnoticed. *)
Theorem hash_operator_hides_a_statement :
  exists first second,
    starts_with (lit " DELETE FROM t") second = true /\
    sql_is_single_statement (first ++ c_semi :: second) = true /\
    sql_is_single_statement (replace_char c_hash [43%Z] first ++ c_semi :: second) = false.
Proof. exists (lit "SELECT 5 # 3"), (lit " DELETE FROM t"). vm_compute. done. Qed.
