(* ===== verification/TableSql.v ===== *)
(** * Table browsing and table changes
    ([src-tauri/src/engine/drivers/common.rs], up to [build_table_change_set_preview])

    Identifier quoting, SQL literals, the parameterised browse query, page
    arithmetic, and the validation and rendering of a set of row inserts, updates
    and deletes. *)

From stdpp Require Import base gmap list strings fin_maps sorting.
From Stdlib Require Import ZArith Lia.
From S2P Require Import Prelude Errors Types SqlText.

(** ** Identifiers and values *)

Definition quote_pg_identifier (identifier : str) : str :=
  [c_dquote] ++ replace_char c_dquote [c_dquote; c_dquote] identifier ++ [c_dquote].

Definition quote_mysql_identifier (identifier : str) : str :=
  [c_backtick] ++ replace_char c_backtick [c_backtick; c_backtick] identifier ++ [c_backtick].

Definition normalized_non_empty_identifier (identifier label : str) : IpcResult str :=
  let name := trim identifier in
  if bool_decide (name = []) then
    Err (query_syntax (lit "请填写" ++ label) (label ++ lit " identifier must not be empty"))
  else Ok name.

Definition mysql_empty_insert_statement (table : str) : str :=
  lit "INSERT INTO " ++ table ++ lit " () VALUES ()".

Definition postgres_empty_insert_statement (table : str) : str :=
  lit "INSERT INTO " ++ table ++ lit " DEFAULT VALUES".

Definition JS_MAX_SAFE_INTEGER : Z := 9007199254740991.

Definition ensure_real_table_for_mutation (kind : ContainerKind) : IpcResult unit :=
  if bool_decide (kind = Table) then Ok tt
  else Err (resource_not_found (lit "只有真实表支持修改或删除数据，视图和其他对象不可写")).

Definition MAX_TABLE_BROWSE_FILTERS : nat := 10.
Definition MAX_TABLE_BROWSE_SORTS : nat := 5.

Inductive TableBrowsePlaceholderStyle := QuestionMark | DollarNumbered | ColonNumbered.

Definition table_browse_placeholder (style : TableBrowsePlaceholderStyle) (position : nat) : str :=
  match style with
  | QuestionMark => lit "?"
  | DollarNumbered => lit "$" ++ to_dec (Z.of_nat position)
  | ColonNumbered => lit ":" ++ to_dec (Z.of_nat position)
  end.

(** ** Page arithmetic *)

Definition div_ceil (a b : Z) : Z := ((a + b - 1) / b)%Z.

Definition table_page_stats (rows size : Z) (requested_page : option Z) : IpcResult TablePageStats :=
  let safe_page_size := Z.max size 1 in
  let pages := if (rows =? 0)%Z then 1%Z else div_ceil rows safe_page_size in
  match requested_page with
  | Some page =>
    if (page =? 0)%Z || (pages <? page)%Z then
      Err (query_syntax (lit "页码超出范围，请输入 1 到 " ++ to_dec pages ++ lit " 之间的整数")
             (lit "requested page " ++ to_dec page ++ lit " is outside 1..=" ++ to_dec pages))
    else Ok (mkTablePageStats rows pages safe_page_size)
  | None => Ok (mkTablePageStats rows pages safe_page_size)
  end.

(** ** Primary keys *)

(** [sort_by_key] is a stable sort: equal keys keep their order. *)
Fixpoint insert_by_key (x : Z * str) (l : list (Z * str)) : list (Z * str) :=
  match l with
  | [] => [x]
  | y :: l' => if (x.1 <=? y.1)%Z then x :: l else y :: insert_by_key x l'
  end.

Definition sort_by_key (l : list (Z * str)) : list (Z * str) := foldr insert_by_key [] l.

Definition ordered_primary_key_columns (columns : list ColumnMeta) : list str :=
  map snd (sort_by_key (omap (fun c =>
    match cm_primary_key_ordinal c with Some ordinal => Some (ordinal, cm_name c) | None => None end)
    columns)).

(** [columns.iter().map(|c| (name, c)).collect::<HashMap<_, _>>()]: the last
    column of a name wins. *)
Definition column_map (columns : list ColumnMeta) : gmap str ColumnMeta :=
  foldl (fun m c => <[cm_name c := c]> m) ∅ columns.

Section table.
Context {J : JsonNumber}.

Definition json_i64_for_js_transport (number_of : Z -> Number) (value : Z) : Value :=
  if ((- JS_MAX_SAFE_INTEGER <=? value) && (value <=? JS_MAX_SAFE_INTEGER))%Z
  then VNumber (number_of value) else VString (to_dec value).

Definition json_u64_for_js_transport (number_of : Z -> Number) (value : Z) : Value :=
  if (value <=? JS_MAX_SAFE_INTEGER)%Z then VNumber (number_of value) else VString (to_dec value).

Definition render_sql_literal (value : Value) : IpcResult str :=
  match value with
  | VNull => Ok (lit "NULL")
  | VBool b => Ok (if b then lit "TRUE" else lit "FALSE")
  | VNumber number =>
    match as_i64 number with
    | Some v => Ok (to_dec v)
    | None =>
      match as_u64 number with
      | Some v => Ok (to_dec v)
      | None =>
        match as_f64 number with
        | Some v =>
          if f64_is_finite v then Ok (f64_to_string v)
          else Err (system_internal (lit "不支持写入该数值")
                 (lit "Only finite JSON numbers can be written to table cells"))
        | None => Err (system_internal (lit "不支持写入该数值")
                 (lit "Only finite JSON numbers can be written to table cells"))
        end
      end
    end
  | VString s =>
    if existsb (Z.eqb 0) s then
      Err (system_internal (lit "不支持写入包含 NUL 字符的字符串")
             (lit "SQL string literals cannot contain NUL bytes"))
    else Ok ([c_squote] ++ replace_char c_squote [c_squote; c_squote] s ++ [c_squote])
  | VArray _ | VObject _ =>
    Err (system_internal (lit "不支持写入对象或数组")
           (lit "Table mutation values must be null, string, number, or boolean"))
  end.

(** ** Browsing *)

Inductive TableBrowseBindValue :=
| BindString (s : str)
| BindInteger (z : Z)
| BindFloat (f : F64)
| BindBoolean (b : bool).

Record TableBrowseSqlPlan := mkTableBrowseSqlPlan {
  where_clause : str;
  order_by_clause : str;
  bindings : list TableBrowseBindValue;
}.

Definition require_table_browse_column (column : str) (available : list str) : IpcResult unit :=
  if bool_decide (trim column = []) || negb (bool_decide (column ∈ available)) then
    Err (validation_failed (lit "Unknown table query column '" ++ column ++ lit "'"))
  else Ok tt.

Definition table_browse_bind_value (value : Value) : IpcResult TableBrowseBindValue :=
  match value with
  | VString s =>
    if (4096 <? length s)%nat then
      Err (validation_failed (lit "Table query filter strings cannot exceed 4096 characters"))
    else Ok (BindString s)
  | VBool b => Ok (BindBoolean b)
  | VNumber n =>
    match as_i64 n with
    | Some v => Ok (BindInteger v)
    | None =>
      match as_f64 n with
      | Some v =>
        if f64_is_finite v then Ok (BindFloat v)
        else Err (validation_failed (lit "Table query filter numbers must be finite signed values"))
      | None => Err (validation_failed (lit "Table query filter numbers must be finite signed values"))
      end
    end
  | _ => Err (validation_failed (lit "Table query filter values must be strings, numbers, or booleans"))
  end.

Definition comparison_text (op : TableBrowseFilterOperator) : str :=
  match op with
  | OpEq => lit "=" | OpNotEq => lit "<>" | OpGt => lit ">" | OpGte => lit ">="
  | OpLt => lit "<" | OpLte => lit "<="
  | OpIsNull | OpIsNotNull => []
  end.

Definition is_null_test (op : TableBrowseFilterOperator) : bool :=
  match op with OpIsNull | OpIsNotNull => true | _ => false end.

Section plan.
Variables (quote_identifier : str -> str) (style : TableBrowsePlaceholderStyle).

(** The body of the filter loop: bindings and predicates so far. *)
Definition add_filter (available : list str)
    (acc : list TableBrowseBindValue * list str) (filter : TableBrowseFilter)
  : IpcResult (list TableBrowseBindValue * list str) :=
  _ ← require_table_browse_column (f_column filter) available;
  let column := quote_identifier (f_column filter) in
  if is_null_test (f_operator filter) then
    match f_value filter with
    | Some _ => Err (validation_failed
        (lit "Filter '" ++ f_column filter ++ lit "' does not accept a value"))
    | None =>
      let operator := if bool_decide (f_operator filter = OpIsNull) then lit "IS NULL" else lit "IS NOT NULL" in
      Ok (acc.1, acc.2 ++ [column ++ lit " " ++ operator])
    end
  else
    value ← ok_or (validation_failed
        (lit "Filter '" ++ f_column filter ++ lit "' requires a scalar value")) (f_value filter);
    bound ← table_browse_bind_value value;
    let bs := acc.1 ++ [bound] in
    let placeholder := table_browse_placeholder style (length bs) in
    Ok (bs, acc.2 ++ [column ++ lit " " ++ comparison_text (f_operator filter) ++ lit " " ++ placeholder]).

(** The body of the sort loop: columns seen and orderings so far. *)
Definition add_sort (available : list str) (acc : list str * list str) (srt : TableBrowseSort)
  : IpcResult (list str * list str) :=
  _ ← require_table_browse_column (s_column srt) available;
  if bool_decide (s_column srt ∈ acc.1) then
    Err (validation_failed (lit "Sort column '" ++ s_column srt ++ lit "' is duplicated"))
  else
    let direction := match s_direction srt with Asc => lit "ASC" | Desc => lit "DESC" end in
    Ok (s_column srt :: acc.1, acc.2 ++ [quote_identifier (s_column srt) ++ lit " " ++ direction]).

Definition table_browse_sql_plan (query : TableBrowseQuery) (columns : list ColumnMeta)
  : IpcResult TableBrowseSqlPlan :=
  if (MAX_TABLE_BROWSE_FILTERS <? length (filters query))%nat then
    Err (validation_failed (lit "Table browsing supports at most 10 filters"))
  else if (MAX_TABLE_BROWSE_SORTS <? length (sort query))%nat then
    Err (validation_failed (lit "Table browsing supports at most 5 sort fields"))
  else
    let available := map cm_name columns in
    fs ← try_fold (add_filter available) ([], []) (filters query);
    os ← try_fold (add_sort available) ([], []) (sort query);
    Ok (mkTableBrowseSqlPlan
      (if bool_decide (fs.2 = []) then [] else lit " WHERE " ++ join (lit " AND ") fs.2)
      (if bool_decide (os.2 = []) then [] else lit " ORDER BY " ++ join (lit ", ") os.2)
      fs.1).
End plan.

(** ** Changes *)

Definition validate_primary_key (columns : list ColumnMeta) (primary_key : list TableRowKeyPart)
  : IpcResult (list TableRowKeyPart) :=
  let primary_key_columns := ordered_primary_key_columns columns in
  if bool_decide (primary_key_columns = []) then
    Err (system_internal (lit "该表没有主键，暂不支持修改或删除数据")
           (lit "Table mutation requires a complete primary key"))
  else
    let provided : gmap str Value := foldl (fun m p => <[kp_column p := kp_value p]> m) ∅ primary_key in
    if negb (size provided =? length primary_key)%nat then
      Err (system_internal (lit "主键参数重复，无法执行数据变更")
             (lit "Duplicate primary key columns were provided"))
    else
      let expected : gset str := list_to_set primary_key_columns in
      if negb (bool_decide (expected = dom provided)) then
        Err (system_internal (lit "主键参数不完整，无法执行数据变更")
               (lit "Provided primary key columns must exactly match the table primary key"))
      else
        try_map (fun column =>
          value ← ok_or (system_internal (lit "主键参数不完整，无法执行数据变更")
                          (lit "Primary key column is missing")) (provided !! column);
          Ok (mkTableRowKeyPart column value)) primary_key_columns.

(** The closure of the [map] over the changes, with the set of columns seen. *)
Definition check_change (cmap : gmap str ColumnMeta) (reject_primary_key : bool) (duplicate : IpcError)
    (acc : gset str * list TableCellChange) (change : TableCellChange)
  : IpcResult (gset str * list TableCellChange) :=
  if bool_decide (cc_column change ∈ acc.1) then Err duplicate
  else
    column ← ok_or (resource_not_found (lit "Column '" ++ cc_column change ++ lit "' was not found"))
               (cmap !! cc_column change);
    if reject_primary_key && cm_is_primary_key column then
      Err (system_internal (lit "暂不支持修改主键列")
             (lit "Primary key columns are not editable in table cell mutation"))
    else if negb (cm_is_writable column) then
      Err (system_internal (lit "列 '" ++ cc_column change ++ lit "' 不可直接写入")
             (lit "Column metadata marks this column as read-only"))
    else
      _ ← render_sql_literal (cc_value change);
      Ok ({[cc_column change]} ∪ acc.1, acc.2 ++ [change]).

Definition validate_cell_changes (columns : list ColumnMeta) (changes : list TableCellChange)
  : IpcResult (list TableCellChange) :=
  if bool_decide (length changes = 0) then
    Err (system_internal (lit "没有需要更新的单元格")
           (lit "update_table_row requires at least one change"))
  else
    acc ← try_fold (check_change (column_map columns) true
            (system_internal (lit "更新参数包含重复列") (lit "Duplicate changed columns were provided")))
            (∅, []) changes;
    Ok acc.2.

Definition validate_insert_values (columns : list ColumnMeta) (values : list TableCellChange)
  : IpcResult (list TableCellChange) :=
  acc ← try_fold (check_change (column_map columns) false
          (system_internal (lit "新增参数包含重复列") (lit "Duplicate insert columns were provided")))
          (∅, []) values;
  Ok acc.2.

Section build.
Variable quote_identifier : str -> str.

Definition build_insert_row_statement (table : str) (values : list TableCellChange)
    (empty_insert_sql : str -> str) : IpcResult str :=
  if bool_decide (length values = 0) then Ok (empty_insert_sql table)
  else
    let columns := join (lit ", ") (map (fun v => quote_identifier (cc_column v)) values) in
    literals ← try_map (fun v => render_sql_literal (cc_value v)) values;
    Ok (lit "INSERT INTO " ++ table ++ lit " (" ++ columns ++ lit ") VALUES ("
        ++ join (lit ", ") literals ++ lit ")").

(** [{} = {}] of a quoted column and a literal. *)
Definition equation (column : str) (value : Value) : IpcResult str :=
  literal ← render_sql_literal value;
  Ok (quote_identifier column ++ lit " = " ++ literal).

Definition build_update_row_statement (table : str) (primary_key : list TableRowKeyPart)
    (changes : list TableCellChange) : IpcResult str :=
  assignments ← try_map (fun c => equation (cc_column c) (cc_value c)) changes;
  conditions ← try_map (fun p => equation (kp_column p) (kp_value p)) primary_key;
  Ok (lit "UPDATE " ++ table ++ lit " SET " ++ join (lit ", ") assignments
      ++ lit " WHERE " ++ join (lit " AND ") conditions).

Definition build_delete_rows_statement (table : str) (primary_keys : list (list TableRowKeyPart))
  : IpcResult str :=
  if bool_decide (length primary_keys = 0) then
    Err (system_internal (lit "没有需要删除的行")
           (lit "delete_table_rows requires at least one primary key"))
  else
    rows ← try_map (fun key =>
             condition ← try_map (fun p => equation (kp_column p) (kp_value p)) key;
             Ok (lit "(" ++ join (lit " AND ") condition ++ lit ")")) primary_keys;
    Ok (lit "DELETE FROM " ++ table ++ lit " WHERE " ++ join (lit " OR ") rows).

Definition locator_key (columns : list ColumnMeta) (locator : TableRowLocator)
  : IpcResult (list TableRowKeyPart) :=
  primary_key ← ok_or (validation_failed (lit "当前数据源需要使用主键定位行，请刷新数据后重新编辑"))
                  (primary_key_parts locator);
  validate_primary_key columns primary_key.

Definition u32_of_len {A} (l : list A) : Z := (Z.of_nat (length l) mod (U32_MAX + 1))%Z.

Definition build_table_change_set_preview (columns : list ColumnMeta) (table : str)
    (empty_insert_sql : str -> str) (change_set : TableChangeSetRequest)
  : IpcResult TableChangeSetPreview :=
  if bool_decide (length (inserts change_set) = 0) && bool_decide (length (updates change_set) = 0)
     && bool_decide (length (deletes change_set) = 0) then
    Err (system_internal (lit "没有需要提交的表格变更")
           (lit "table change set must contain at least one insert, update, or delete"))
  else
    inserted ← try_map (fun insert =>
        values ← validate_insert_values columns (i_values insert);
        build_insert_row_statement table values empty_insert_sql) (inserts change_set);
    updated ← try_map (fun update =>
        primary_key ← locator_key columns (u_locator update);
        changes ← validate_cell_changes columns (u_changes update);
        build_update_row_statement table primary_key changes) (updates change_set);
    deleted ← (if bool_decide (length (deletes change_set) = 0) then Ok []
               else
                 primary_keys ← try_map (locator_key columns) (deletes change_set);
                 statement ← build_delete_rows_statement table primary_keys;
                 Ok [statement]);
    Ok (mkTableChangeSetPreview (inserted ++ updated ++ deleted)
          (mkTableChangeSetSummary (u32_of_len (inserts change_set)) (u32_of_len (updates change_set))
             (u32_of_len (deletes change_set)))).
End build.

End table.

(** ** The interface of identifier quoting

    What the statement builders rely on: quoted text reads back as the identifier
    and is one piece of SQL to the statement scanner. *)

Class IdentifierQuoting (quote unquote : str -> str) := {
  quote_roundtrip s : unquote (quote s) = s;
  quote_piece s : piece (quote s);
}.

(** Reads back text between delimiters in which each delimiter is doubled. *)
Fixpoint undouble (q : Z) (s : str) : str :=
  match s with
  | [] => []
  | x :: s' =>
    if (x =? q)%Z then match s' with y :: s'' => x :: undouble q s'' | [] => [] end
    else x :: undouble q s'
  end.

Definition unquote (q : Z) (s : str) : str := undouble q (tail s).

Lemma undouble_replace q s : undouble q (replace_char q [q; q] s ++ [q]) = s.
Proof.
  induction s as [|x s IH]; simpl; [by rewrite Z.eqb_refl|].
  destruct (Z.eqb_spec x q) as [->|Hne]; simpl; [by rewrite Z.eqb_refl, IH|].
  rewrite (proj2 (Z.eqb_neq x q)) by done. by rewrite IH.
Qed.

#[export] Instance pg_quoting : IdentifierQuoting quote_pg_identifier (unquote c_dquote).
Proof. split; intros s; [apply undouble_replace|apply piece_dquoted]. Qed.

#[export] Instance mysql_quoting : IdentifierQuoting quote_mysql_identifier (unquote c_backtick).
Proof. split; intros s; [apply undouble_replace|apply piece_backtick]. Qed.

(** ** Lemmas: sorting and lookup *)

Lemma insert_by_key_perm x l : insert_by_key x l ≡ₚ x :: l.
Proof.
  induction l as [|y l IH]; simpl; [done|]. case_match; [done|]. rewrite IH. constructor.
Qed.

Lemma sort_by_key_perm l : sort_by_key l ≡ₚ l.
Proof. induction l as [|x l IH]; simpl; [done|]. by rewrite insert_by_key_perm, IH. Qed.

Definition key_le (x y : Z * str) : Prop := (x.1 <= y.1)%Z.

Lemma insert_by_key_sorted x l : Sorted key_le l -> Sorted key_le (insert_by_key x l).
Proof.
  induction 1 as [|y l Hs IH Hy]; simpl; [by repeat constructor|].
  destruct (Z.leb_spec x.1 y.1) as [Hle|Hgt].
  - by repeat constructor.
  - constructor; [done|]. destruct l as [|z l]; simpl; [constructor; unfold key_le; lia|].
    inversion Hy; subst. case_match; constructor; [unfold key_le; lia|done].
Qed.

Lemma sort_by_key_sorted l : Sorted key_le (sort_by_key l).
Proof. induction l; simpl; [constructor|]. by apply insert_by_key_sorted. Qed.

Lemma column_map_Some_gen (columns : list ColumnMeta) (m : gmap str ColumnMeta) (name : str) c :
  foldl (fun m c => <[cm_name c := c]> m) m columns !! name = Some c ->
  (c ∈ columns /\ cm_name c = name) \/ m !! name = Some c.
Proof.
  revert m. induction columns as [|x columns IH]; intros m; simpl; [by right|].
  intros [[Hin Hn]|Hm]%IH; [left; split; [set_solver|done]|].
  rewrite lookup_insert in Hm. case_decide; [|by right].
  injection Hm as <-. left. split; [set_solver|done].
Qed.

Lemma column_map_Some columns name c :
  column_map columns !! name = Some c -> c ∈ columns /\ cm_name c = name.
Proof. intros [H|H]%column_map_Some_gen; [done|]. by rewrite lookup_empty in H. Qed.

Section lemmas.
Context {J : JsonNumber}.

(** ** Lemmas: browsing *)

Section plan_lemmas.
Variables (quote_identifier : str -> str) (style : TableBrowsePlaceholderStyle) (available : list str).

(** What a filter looks like without its value. *)
Definition filter_shape (f : TableBrowseFilter) : str * TableBrowseFilterOperator :=
  (f_column f, f_operator f).

(** The predicate of a filter, given how many values are bound up to it. *)
Definition predicate_text (sh : str * TableBrowseFilterOperator) (position : nat) : str :=
  if is_null_test sh.2 then
    quote_identifier sh.1 ++ lit " " ++ (if bool_decide (sh.2 = OpIsNull) then lit "IS NULL" else lit "IS NOT NULL")
  else
    quote_identifier sh.1 ++ lit " " ++ comparison_text sh.2 ++ lit " " ++ table_browse_placeholder style position.

(** Predicates of a list of shapes: a placeholder takes the next position. *)
Fixpoint predicates_of (shapes : list (str * TableBrowseFilterOperator)) (bound : nat) : list str :=
  match shapes with
  | [] => []
  | sh :: shapes' =>
    let n := if is_null_test sh.2 then bound else S bound in
    predicate_text sh n :: predicates_of shapes' n
  end.

(** The values a query binds, in order. *)
Definition bound_values (fs : list TableBrowseFilter) : list Value :=
  omap (fun f => if is_null_test (f_operator f) then None else f_value f) fs.

Lemma require_column_ok c u : require_table_browse_column c available = Ok u -> c ∈ available.
Proof. unfold require_table_browse_column. repeat case_bool_decide; simpl; done. Qed.

Lemma filters_spec fs acc res :
  try_fold (add_filter quote_identifier style available) acc fs = Ok res ->
  Forall (fun f => f_column f ∈ available) fs /\
  res.2 = acc.2 ++ predicates_of (map filter_shape fs) (length acc.1) /\
  exists bs, res.1 = acc.1 ++ bs /\
    Forall2 (fun v b => table_browse_bind_value v = Ok b) (bound_values fs) bs.
Proof.
  revert acc. induction fs as [|f fs IH]; intros acc H; simpl in H.
  { injection H as <-. split_and!; [constructor|by rewrite app_nil_r|].
    exists []. split; [by rewrite app_nil_r|constructor]. }
  destruct (add_filter _ _ _ acc f) as [acc'|] eqn:Hf; simpl in H; [|done].
  apply IH in H as (Hcols & Hpred & bs & Hbs & Hvals).
  unfold add_filter in Hf.
  destruct (require_table_browse_column (f_column f) available) eqn:Hreq; simpl in Hf; [|done].
  apply require_column_ok in Hreq. cbn [map predicates_of bound_values omap list_omap].
  unfold predicate_text. change (filter_shape f) with (f_column f, f_operator f). cbn [fst snd].
  destruct (is_null_test (f_operator f)) eqn:Hn.
  - destruct (f_value f); [done|]. injection Hf as <-. simpl in *.
    split_and!; [by constructor|by rewrite Hpred, <-app_assoc|eauto].
  - destruct (f_value f) as [v|]; simpl in Hf; [|done].
    destruct (table_browse_bind_value v) as [b|] eqn:Hb; simpl in Hf; [|done].
    injection Hf as <-. simpl in *. rewrite length_app in Hpred. simpl in Hpred.
    rewrite Nat.add_1_r in Hpred.
    split_and!; [by constructor|by rewrite Hpred, <-app_assoc|].
    exists (b :: bs). split; [by rewrite Hbs, <-app_assoc|by constructor].
Qed.

Lemma sorts_spec ss acc res :
  try_fold (add_sort quote_identifier available) acc ss = Ok res ->
  NoDup acc.1 ->
  Forall (fun s => s_column s ∈ available) ss /\ NoDup (rev (map s_column ss) ++ acc.1) /\
  res.2 = acc.2 ++ map (fun s => quote_identifier (s_column s) ++ lit " " ++
            match s_direction s with Asc => lit "ASC" | Desc => lit "DESC" end) ss.
Proof.
  revert acc. induction ss as [|s ss IH]; intros acc H Hnd; simpl in H.
  { injection H as <-. simpl. by rewrite app_nil_r. }
  destruct (add_sort _ _ acc s) as [acc'|] eqn:Hs; simpl in H; [|done].
  unfold add_sort in Hs.
  destruct (require_table_browse_column (s_column s) available) eqn:Hreq; simpl in Hs; [|done].
  apply require_column_ok in Hreq. case_bool_decide as Hin; [done|]. injection Hs as <-.
  apply IH in H as (Hc & Hn & Hr); [|by constructor]. simpl in *.
  split_and!; [by constructor|by rewrite <-app_assoc|by rewrite Hr, <-app_assoc].
Qed.
End plan_lemmas.

Lemma plan_inv quote style query columns p :
  table_browse_sql_plan quote style query columns = Ok p ->
  exists fs os,
    try_fold (add_filter quote style (map cm_name columns)) ([], []) (filters query) = Ok fs /\
    try_fold (add_sort quote (map cm_name columns)) ([], []) (sort query) = Ok os /\
    length (filters query) <= MAX_TABLE_BROWSE_FILTERS /\ length (sort query) <= MAX_TABLE_BROWSE_SORTS /\
    p = mkTableBrowseSqlPlan
      (if bool_decide (fs.2 = []) then [] else lit " WHERE " ++ join (lit " AND ") fs.2)
      (if bool_decide (os.2 = []) then [] else lit " ORDER BY " ++ join (lit ", ") os.2)
      fs.1.
Proof.
  unfold table_browse_sql_plan.
  destruct (Nat.ltb_spec MAX_TABLE_BROWSE_FILTERS (length (filters query))); [done|].
  destruct (Nat.ltb_spec MAX_TABLE_BROWSE_SORTS (length (sort query))); [done|].
  intros Hp. bind_inv. subst. eauto 10.
Qed.

(** ** Lemmas: changes *)

Lemma check_changes_spec cmap rej dup l acc res :
  try_fold (check_change cmap rej dup) acc l = Ok res ->
  res.2 = acc.2 ++ l /\ NoDup (map cc_column l) /\
  Forall (fun ch => (cc_column ch ∉ acc.1) /\
    exists c, cmap !! cc_column ch = Some c /\ cm_is_writable c = true /\
      (rej = true -> cm_is_primary_key c = false) /\ is_ok (render_sql_literal (cc_value ch)) = true) l.
Proof.
  revert acc. induction l as [|ch l IH]; intros acc H; simpl in H.
  { injection H as <-. rewrite app_nil_r. split_and!; constructor. }
  destruct (check_change cmap rej dup acc ch) as [acc'|] eqn:Hc; simpl in H; [|done].
  unfold check_change in Hc. case_bool_decide as Hin; [done|].
  destruct (cmap !! cc_column ch) as [c|] eqn:Hcol; simpl in Hc; [|done].
  destruct (rej && cm_is_primary_key c) eqn:Hrej; [done|].
  destruct (cm_is_writable c) eqn:Hw; simpl in Hc; [|done].
  destruct (render_sql_literal (cc_value ch)) eqn:Hr; simpl in Hc; [|done].
  injection Hc as <-. apply IH in H as (Hres & Hnd & Hall). simpl in *.
  split_and!; [by rewrite Hres, <-app_assoc| |].
  - constructor; [|done]. intros Hx. apply list_elem_of_In, in_map_iff in Hx as (y & Hy & Hiny).
    rewrite Forall_forall in Hall. destruct (Hall y) as [Hn _]; [by apply list_elem_of_In|].
    apply Hn. rewrite Hy. apply elem_of_union_l, elem_of_singleton. done.
  - constructor.
    + split; [done|]. exists c. rewrite Hr. split_and!; try done. by destruct rej.
    + eapply Forall_impl; [exact Hall|]. intros y [Hn Hy]. apply not_elem_of_union in Hn as [_ Hn]. done.
Qed.

Lemma provided_Some (pk : list TableRowKeyPart) (m : gmap str Value) c v :
  foldl (fun m p => <[kp_column p := kp_value p]> m) m pk !! c = Some v ->
  mkTableRowKeyPart c v ∈ pk \/ m !! c = Some v.
Proof.
  revert m. induction pk as [|x pk IH]; intros m; simpl; [by right|].
  intros [H|H]%IH; [left; set_solver|]. rewrite lookup_insert in H. case_decide; [|by right].
  injection H as <-. left. subst. destruct x. simpl. set_solver.
Qed.

Lemma validate_primary_key_ok columns pk parts :
  validate_primary_key columns pk = Ok parts ->
  map kp_column parts = ordered_primary_key_columns columns /\
  ordered_primary_key_columns columns <> [] /\ Forall (fun p => p ∈ pk) parts.
Proof.
  unfold validate_primary_key. case_bool_decide as Hne; [done|].
  destruct (negb _); [done|]. destruct (negb _); [done|].
  intros H%try_map_Ok. revert H Hne. generalize (ordered_primary_key_columns columns).
  intros cols H Hne.
  assert (Forall2 (fun c p => kp_column p = c /\ p ∈ pk) cols parts) as Hp.
  { eapply Forall2_impl; [exact H|]. intros c p Hp. simpl in Hp.
    destruct (foldl _ _ _ !! c) as [v|] eqn:Hv; simpl in Hp; [|done]. injection Hp as <-.
    apply provided_Some in Hv as [Hv|Hv]; [done|]. by rewrite lookup_empty in Hv. }
  clear H. split_and!; [|done|].
  - clear Hne. induction Hp as [|c p cs ps [Hc _] _ IH]; [done|]. simpl. by rewrite IH, Hc.
  - clear Hne. induction Hp as [|c p cs ps [_ Hc] _ IH]; by constructor.
Qed.

Lemma validate_cell_changes_id columns changes out :
  validate_cell_changes columns changes = Ok out -> out = changes.
Proof.
  unfold validate_cell_changes. case_bool_decide; [done|]. intros H'. bind_inv. subst.
  match goal with H : try_fold _ _ _ = Ok _ |- _ => apply check_changes_spec in H as (-> & _) end. done.
Qed.

Lemma validate_insert_values_id columns values out :
  validate_insert_values columns values = Ok out -> out = values.
Proof.
  unfold validate_insert_values. intros H'. bind_inv. subst.
  match goal with H : try_fold _ _ _ = Ok _ |- _ => apply check_changes_spec in H as (-> & _) end. done.
Qed.

(** ** Lemmas: rendered text is well lexed *)

Lemma dec_digits_digits fuel n acc :
  (0 <= n)%Z -> forallb is_ascii_digit acc = true -> forallb is_ascii_digit (dec_digits fuel n acc) = true.
Proof.
  revert n acc. induction fuel as [|f IH]; intros n acc Hn Ha; simpl; [done|].
  assert (is_ascii_digit (48 + n mod 10) = true) as Hd.
  { unfold is_ascii_digit. pose proof (Z.mod_pos_bound n 10 ltac:(lia)). lia. }
  destruct (_ <? _)%Z; simpl; [by rewrite Hd, Ha|].
  apply IH; [apply Z.div_pos; lia|]. simpl. by rewrite Hd, Ha.
Qed.

Lemma dec_digits_nonempty fuel n acc : dec_digits (S fuel) n acc <> [].
Proof.
  revert n acc. induction fuel as [|f IH]; intros n acc; cbn [dec_digits].
  - by destruct (_ <? _)%Z.
  - destruct (_ <? _)%Z; [done|]. apply IH.
Qed.

Lemma digit_plain c : is_ascii_digit c = true -> plain_char c = true.
Proof. unfold is_ascii_digit, plain_char. lia. Qed.

Lemma forallb_impl {A} (f g : A -> bool) l :
  (forall x, f x = true -> g x = true) -> forallb f l = true -> forallb g l = true.
Proof. intros Hfg. rewrite !forallb_forall. auto. Qed.

Lemma lexed_dec n : lexed (to_dec n).
Proof.
  unfold to_dec. destruct (Z.ltb_spec n 0).
  - unfold nat_to_dec. pose proof (dec_digits_digits (S (Z.to_nat (Z.log2 (- n)))) (- n) [] ltac:(lia) eq_refl) as Hd.
    destruct (dec_digits _ _ _) as [|d l] eqn:E; [by apply dec_digits_nonempty in E|].
    simpl in Hd. apply andb_true_iff in Hd as [Hd Hl].
    change (c_minus :: d :: l) with ([c_minus; d] ++ l).
    constructor; [by apply piece_minus, digit_plain|]. by eapply lexed_plain, forallb_impl, Hl; apply digit_plain.
  - eapply lexed_plain, forallb_impl; [apply digit_plain|]. by apply dec_digits_digits.
Qed.

(** Text values the statement scanner reads back as one literal. *)
Definition scannable (v : Value) : Prop :=
  match v with VString s => c_bslash ∉ s | _ => True end.

Definition plain_floats : Prop := forall f : F64, f64_is_finite f = true -> lexed (f64_to_string f).

Lemma lexed_literal v t : plain_floats -> scannable v -> render_sql_literal v = Ok t -> lexed t.
Proof.
  intros Hf Hv. destruct v as [|b|n|s|l|l]; simpl; try done.
  - intros [= <-]. by apply lexed_plain.
  - intros [= <-]. by destruct b; apply lexed_plain.
  - destruct (as_i64 n); [intros [= <-]; apply lexed_dec|].
    destruct (as_u64 n); [intros [= <-]; apply lexed_dec|].
    destruct (as_f64 n) as [f|]; [|done]. destruct (f64_is_finite f) eqn:E; [|done].
    intros [= <-]. by apply Hf.
  - destruct (existsb _ s); [done|]. intros [= <-]. by apply lexed_one, piece_squoted.
Qed.

Section lexed_statements.
Context (quote unq : str -> str) `{!IdentifierQuoting quote unq}.
Hypothesis floats : plain_floats.

Lemma lexed_quote s : lexed (quote s).
Proof using IdentifierQuoting0. apply lexed_one, quote_piece. Qed.

Lemma lexed_equation c v t : scannable v -> equation quote c v = Ok t -> lexed t.
Proof using All.
  intros Hv H. unfold equation in H. bind_inv. subst.
  apply lexed_app; [apply lexed_quote|]. apply lexed_app; [by apply lexed_plain|by eapply lexed_literal].
Qed.

Lemma lexed_try_map {A} (f : A -> IpcResult str) (P : A -> Prop) l l' :
  (forall x t, P x -> f x = Ok t -> lexed t) -> Forall P l -> try_map f l = Ok l' -> Forall lexed l'.
Proof.
  intros Hf Hl H%try_map_Ok. induction H as [|x y l l' Hxy _ IH]; [constructor|].
  apply Forall_cons in Hl as [Hx Hl]. constructor; eauto.
Qed.

Lemma lexed_insert table vs empty t :
  lexed table -> (forall t, lexed t -> lexed (empty t)) -> Forall (fun v => scannable (cc_value v)) vs ->
  build_insert_row_statement quote table vs empty = Ok t -> lexed t.
Proof using All.
  intros Ht He Hv H. unfold build_insert_row_statement in H. case_bool_decide.
  { injection H as <-. auto. }
  bind_inv. subst.
  repeat first [apply lexed_app | apply lexed_join | exact Ht | by apply lexed_plain].
  - apply Forall_map, Forall_true. intros. apply lexed_quote.
  - eapply (lexed_try_map _ (fun v => scannable (cc_value v))); [|exact Hv|exact E].
    intros v t' Hs. by apply lexed_literal.
Qed.

Lemma lexed_conditions key l :
  Forall (fun p => scannable (kp_value p)) key ->
  try_map (fun p => equation quote (kp_column p) (kp_value p)) key = Ok l -> Forall lexed l.
Proof using All. apply lexed_try_map. intros p t Hp Heq. exact (lexed_equation _ _ _ Hp Heq). Qed.

Lemma lexed_update table key chs t :
  lexed table -> Forall (fun p => scannable (kp_value p)) key -> Forall (fun c => scannable (cc_value c)) chs ->
  build_update_row_statement quote table key chs = Ok t -> lexed t.
Proof using All.
  intros Ht Hk Hc H. unfold build_update_row_statement in H. bind_inv. subst.
  repeat first [apply lexed_app | apply lexed_join | exact Ht | by apply lexed_plain].
  - eapply (lexed_try_map _ (fun c => scannable (cc_value c))); [|exact Hc|exact E].
    intros c t Hs Heq. exact (lexed_equation _ _ _ Hs Heq).
  - match goal with H : try_map _ key = Ok _ |- _ => exact (lexed_conditions _ _ Hk H) end.
Qed.

Lemma lexed_delete table keys t :
  lexed table -> Forall (Forall (fun p => scannable (kp_value p))) keys ->
  build_delete_rows_statement quote table keys = Ok t -> lexed t.
Proof using All.
  intros Ht Hk H. unfold build_delete_rows_statement in H. case_bool_decide; [done|]. bind_inv. subst.
  repeat first [apply lexed_app | apply lexed_join | exact Ht | by apply lexed_plain].
  eapply (lexed_try_map _ (Forall (fun p => scannable (kp_value p)))); [|exact Hk|exact E].
  intros key t' Hkey H'. cbv beta in H'. bind_inv. subst.
  repeat first [apply lexed_app | apply lexed_join | by apply lexed_plain].
  match goal with H : try_map _ key = Ok _ |- _ => exact (lexed_conditions _ _ Hkey H) end.
Qed.

Lemma lexed_inserts columns table empty (ins : list TableChangeSetInsert) ts :
  lexed table -> (forall t, lexed t -> lexed (empty t)) ->
  Forall (fun i => Forall (fun v => scannable (cc_value v)) (i_values i)) ins ->
  try_map (fun i => values ← validate_insert_values columns (i_values i);
                    build_insert_row_statement quote table values empty) ins = Ok ts ->
  Forall lexed ts.
Proof using All.
  intros Ht He. apply lexed_try_map. intros i t Hs H. cbv beta in H. bind_inv.
  match goal with E : validate_insert_values _ _ = Ok _ |- _ => apply validate_insert_values_id in E; subst end.
  by eapply lexed_insert.
Qed.

Lemma lexed_updates columns table (us : list TableChangeSetUpdate) ts :
  lexed table ->
  Forall (fun u => Forall (fun v => scannable (cc_value v)) (u_changes u) /\
    forall key, locator_key columns (u_locator u) = Ok key -> Forall (fun k => scannable (kp_value k)) key) us ->
  try_map (fun u => key ← locator_key columns (u_locator u);
                    changes ← validate_cell_changes columns (u_changes u);
                    build_update_row_statement quote table key changes) us = Ok ts ->
  Forall lexed ts.
Proof using All.
  intros Ht. apply lexed_try_map. intros u t [Hs Hk] H. cbv beta in H. bind_inv.
  match goal with E : validate_cell_changes _ _ = Ok _ |- _ => apply validate_cell_changes_id in E; subst end.
  eapply lexed_update; [exact Ht|by apply Hk|exact Hs|exact H].
Qed.

Lemma lexed_deletes columns table (ls : list TableRowLocator) t :
  lexed table ->
  Forall (fun l => forall key, locator_key columns l = Ok key -> Forall (fun k => scannable (kp_value k)) key) ls ->
  (keys ← try_map (locator_key columns) ls; build_delete_rows_statement quote table keys) = Ok t -> lexed t.
Proof using All.
  intros Ht Hk H. bind_inv. eapply lexed_delete; [done| |done].
  apply try_map_Ok in E. clear -E Hk. induction E; [constructor|].
  apply Forall_cons in Hk as [? ?]. constructor; auto.
Qed.
End lexed_statements.

End lemmas.

(** ** Theorems *)

Section theorems.
Context {J : JsonNumber}.

(** Safety.  The SQL text of a browse query never depends on the filter values: two
    queries with the same columns, operators and sorting get the same WHERE and ORDER BY
    text, whatever values they bind. *)
Theorem browse_values_not_in_text quote style q1 q2 columns p1 p2 :
  map filter_shape (filters q1) = map filter_shape (filters q2) -> sort q1 = sort q2 ->
  table_browse_sql_plan quote style q1 columns = Ok p1 ->
  table_browse_sql_plan quote style q2 columns = Ok p2 ->
  where_clause p1 = where_clause p2 /\ order_by_clause p1 = order_by_clause p2.
Proof.
  intros Hsh Hso (f1 & o1 & Hf1 & Ho1 & _ & _ & ->)%plan_inv (f2 & o2 & Hf2 & Ho2 & _ & _ & ->)%plan_inv.
  apply filters_spec in Hf1 as (_ & -> & _), Hf2 as (_ & -> & _).
  rewrite Hso in Ho1. assert (o1 = o2) as -> by congruence. simpl. by rewrite Hsh.
Qed.

(** Functional.  A browse plan names only existing columns, sorts by distinct columns,
    respects the limits, has one placeholder per comparison numbered from 1 in filter order,
    and binds exactly the comparison values in that order. *)
Theorem browse_plan_spec quote style q columns p :
  table_browse_sql_plan quote style q columns = Ok p ->
  where_clause p =
    (let preds := predicates_of quote style (map filter_shape (filters q)) 0 in
     if bool_decide (preds = []) then [] else lit " WHERE " ++ join (lit " AND ") preds) /\
  Forall2 (fun v b => table_browse_bind_value v = Ok b) (bound_values (filters q)) (bindings p) /\
  Forall (fun f => f_column f ∈ map cm_name columns) (filters q) /\
  Forall (fun s => s_column s ∈ map cm_name columns) (sort q) /\
  NoDup (map s_column (sort q)) /\
  length (filters q) <= 10 /\ length (sort q) <= 5.
Proof.
  intros (fs & os & Hf & Ho & Hl1 & Hl2 & ->)%plan_inv.
  apply filters_spec in Hf as (Hc & -> & bs & -> & Hv).
  apply sorts_spec in Ho as (Hs & Hn & _); [|constructor]. simpl in *. rewrite app_nil_r in Hn.
  split_and!; try done. by rewrite <-Permutation_rev in Hn.
Qed.

(** Bounds.  Page statistics: the page count is the exact ceiling (one page for an empty
    table), the requested page is accepted exactly when it lies in range, and the first row
    of an accepted page exists unless the table is empty. *)
Theorem page_stats_spec rows size page st :
  (0 <= rows <= U64_MAX)%Z -> (0 <= size <= U32_MAX)%Z -> (0 <= page <= U32_MAX)%Z ->
  table_page_stats rows size None = Ok st ->
  page_size st = Z.max size 1 /\
  (1 <= total_pages st <= Z.max rows 1)%Z /\
  (rows <= total_pages st * page_size st)%Z /\
  ((total_pages st - 1) * page_size st < Z.max rows 1)%Z /\
  (is_ok (table_page_stats rows size (Some page)) = true <-> (1 <= page <= total_pages st)%Z) /\
  ((1 <= page <= total_pages st)%Z -> (0 <= (page - 1) * page_size st < Z.max rows 1)%Z).
Proof.
  intros Hr Hs Hp. unfold table_page_stats. intros [= <-]. simpl.
  set (sz := Z.max size 1). set (n := if (rows =? 0)%Z then 1%Z else div_ceil rows sz).
  assert (1 <= sz)%Z by lia.
  assert (Hn : (rows <= n * sz /\ (n - 1) * sz < Z.max rows 1 /\ 1 <= n <= Z.max rows 1)%Z).
  { unfold n, div_ceil. destruct (Z.eqb_spec rows 0) as [->|Hne]; [lia|].
    pose proof (Z.div_mod (rows + sz - 1) sz ltac:(lia)).
    pose proof (Z.mod_pos_bound (rows + sz - 1) sz ltac:(lia)). nia. }
  split_and!; try lia; try nia.
  destruct (Z.eqb_spec page 0), (Z.ltb_spec n page); simpl; split; try done; lia.
Qed.

(** Roundtrip.  A string value without NUL is rendered as a literal that reads back as
    exactly that string, and quoting an identifier reads back as the identifier, for
    PostgreSQL and MySQL. *)
Theorem literals_and_identifiers_roundtrip s :
  (existsb (Z.eqb 0) s = false ->
   exists t, render_sql_literal (VString s) = Ok t /\ unquote c_squote t = s) /\
  (existsb (Z.eqb 0) s = true -> exists e, render_sql_literal (VString s) = Err e /\ code e = SystemInternal) /\
  unquote c_dquote (quote_pg_identifier s) = s /\
  unquote c_backtick (quote_mysql_identifier s) = s.
Proof.
  split_and!; [intros H; simpl; rewrite H; eexists; split; [done|]; apply undouble_replace| |
    apply quote_roundtrip|apply quote_roundtrip].
  intros H. simpl. rewrite H. eauto.
Qed.

(** Functional.  The key of an accepted row locator lists the table's whole primary key in
    ordinal order, is not empty, and takes every value from the locator. *)
Theorem locator_key_is_primary_key columns locator key :
  locator_key columns locator = Ok key ->
  map kp_column key = ordered_primary_key_columns columns /\ key <> [] /\
  (exists parts, locator = PrimaryKey parts /\ Forall (fun p => p ∈ parts) key) /\
  exists sorted, map snd sorted = map kp_column key /\ Sorted key_le sorted /\
    sorted ≡ₚ omap (fun c => match cm_primary_key_ordinal c with
                            | Some o => Some (o, cm_name c) | None => None end) columns.
Proof.
  unfold locator_key. destruct locator as [parts|parts n]; simpl; [|done].
  intros (Hm & Hne & Hin)%validate_primary_key_ok. split_and!; [done| |eauto|].
  - intros ->. by rewrite <-Hm in Hne.
  - rewrite Hm. eexists. split; [reflexivity|].
    split; [apply sort_by_key_sorted|apply sort_by_key_perm].
Qed.

(** Safety.  Validated cell changes are returned unchanged and touch only distinct,
    existing, writable columns outside the primary key, with renderable values. *)
Theorem cell_changes_are_editable columns changes out :
  validate_cell_changes columns changes = Ok out ->
  out = changes /\ out <> [] /\ NoDup (map cc_column out) /\
  Forall (fun ch => exists c, c ∈ columns /\ cm_name c = cc_column ch /\ cm_is_writable c = true /\
    cm_is_primary_key c = false /\ is_ok (render_sql_literal (cc_value ch)) = true) out.
Proof.
  unfold validate_cell_changes. case_bool_decide as Hl; [done|]. intros H. bind_inv. subst.
  apply check_changes_spec in E as (Ha & Hn & Hall). simpl in Ha. rewrite Ha.
  split_and!; [done|by intros ->|done|].
  eapply Forall_impl; [exact Hall|]. intros ch (_ & c & Hc & Hw & Hk & Hok).
  apply column_map_Some in Hc as [Hin Hname]. exists c. split_and!; auto.
Qed.

(** Safety.  Against any quoting that implements the identifier interface, every statement
    of a change-set preview is a single SQL statement, provided the text values carry no
    backslash; there is one statement per insert, one per update and one for all deletes. *)
Theorem preview_statements_are_single quote unq `{!IdentifierQuoting quote unq} columns table empty cs p :
  plain_floats -> lexed table -> (forall t, lexed t -> lexed (empty t)) ->
  Forall (fun i => Forall (fun v => scannable (cc_value v)) (i_values i)) (inserts cs) ->
  Forall (fun u => Forall (fun v => scannable (cc_value v)) (u_changes u)) (updates cs) ->
  (forall l key, l ∈ map u_locator (updates cs) ++ deletes cs ->
     locator_key columns l = Ok key -> Forall (fun k => scannable (kp_value k)) key) ->
  build_table_change_set_preview quote columns table empty cs = Ok p ->
  Forall (fun s => sql_is_single_statement s = true) (statements p) /\
  length (statements p) =
    length (inserts cs) + length (updates cs) + (if bool_decide (length (deletes cs) = 0) then 0 else 1).
Proof.
  intros Hf Ht He Hi Hu Hk H. unfold build_table_change_set_preview in H.
  destruct (_ && _ && _); [done|]. bind_inv. subst. simpl.
  assert (Forall lexed (a ++ a0 ++ a1)) as Hlex.
  { apply Forall_app; split; [|apply Forall_app; split].
    - by eapply (lexed_inserts quote unq Hf columns table empty (inserts cs)).
    - eapply (lexed_updates quote unq Hf columns table (updates cs)); [done| |done].
      apply Forall_forall. intros u Hin. split; [by apply (proj1 (Forall_forall _ _) Hu)|].
      intros key. apply Hk, elem_of_app. left. apply list_elem_of_In, in_map, list_elem_of_In. done.
    - case_bool_decide; [by simplify_eq|]. bind_inv. subst. constructor; [|constructor].
      eapply (lexed_deletes quote unq Hf columns table (deletes cs)); [done| |].
      + apply Forall_forall. intros l Hin key. apply Hk, elem_of_app. by right.
      + match goal with H : try_map (locator_key _) _ = Ok _ |- _ => rewrite H end. done. }
  split.
  - eapply Forall_impl; [exact Hlex|]. intros t Hl. unfold sql_is_single_statement.
    change (scan Unquoted t = true). rewrite <-(app_nil_r t). by rewrite lexed_transparent.
  - rewrite !length_app, (try_map_length _ _ _ E), (try_map_length _ _ _ E0).
    case_bool_decide; bind_inv; subst; simpl; lia.
Qed.

End theorems.

(** ** Concrete runs *)

Definition int_value (z : Z) : Value (J:=IntegerNumber) := @VNumber IntegerNumber z.

Definition demo_column (name : string) (ordinal : option Z) : ColumnMeta :=
  mkColumnMeta (lit name) (lit "text") true None CatString None None None None
    (match ordinal with Some _ => true | None => false end) ordinal false true.

Definition demo_columns : list ColumnMeta :=
  [demo_column "b" (Some 2%Z); demo_column "note" None; demo_column "a" (Some 1%Z)].

Definition demo_key : list (TableRowKeyPart (J:=IntegerNumber)) :=
  [mkTableRowKeyPart (lit "b") (int_value (-7));
   mkTableRowKeyPart (lit "a") (VString (lit "x;y"))].

Definition demo_change_set : TableChangeSetRequest (J:=IntegerNumber) :=
  mkTableChangeSetRequest [mkTableChangeSetInsert [mkTableCellChange (lit "note") (VString (lit "it's; ok"))]]
    [mkTableChangeSetUpdate (PrimaryKey demo_key) [mkTableCellChange (lit "note") VNull]]
    [PrimaryKey demo_key].

Definition demo_query (v : Value (J:=IntegerNumber)) : TableBrowseQuery :=
  mkTableBrowseQuery [mkTableBrowseFilter (lit "a") OpGte (Some v); mkTableBrowseFilter (lit "b") OpIsNull None]
    [mkTableBrowseSort (lit "note") Desc].

Definition from_ok {E A} (d : A) (r : Result E A) : A := match r with Ok a => a | Err _ => d end.

Definition demo_plan (v : Value (J:=IntegerNumber)) : TableBrowseSqlPlan :=
  from_ok (mkTableBrowseSqlPlan [] [] [])
    (table_browse_sql_plan quote_pg_identifier DollarNumbered (demo_query v) demo_columns).

Lemma from_ok_eq {E A} (d : A) (r : Result E A) : is_ok r = true -> r = Ok (from_ok d r).
Proof. by destruct r. Qed.

Lemma browse_values_not_in_text_witness :
  where_clause (demo_plan (int_value 5))
    = where_clause (demo_plan (VString (lit "1' OR '1'='1"))).
Proof.
  apply (browse_values_not_in_text quote_pg_identifier DollarNumbered
    (demo_query (int_value 5)) (demo_query (VString (lit "1' OR '1'='1"))) demo_columns).
  - reflexivity.
  - reflexivity.
  - apply from_ok_eq. vm_compute. reflexivity.
  - apply from_ok_eq. vm_compute. reflexivity.
Defined.

Lemma browse_plan_spec_witness :
  length (bindings (demo_plan (int_value 5))) = 1 /\
  Forall (fun s => s_column s ∈ map cm_name demo_columns) (sort (demo_query (int_value 5))).
Proof.
  split; [vm_compute; reflexivity|].
  apply (browse_plan_spec quote_pg_identifier DollarNumbered
    (demo_query (int_value 5)) demo_columns
    (demo_plan (int_value 5))).
  apply from_ok_eq. vm_compute. reflexivity.
Defined.

Lemma page_stats_spec_witness :
  is_ok (table_page_stats 101 50 (Some 3%Z)) = true <-> (1 <= 3 <= 3)%Z.
Proof.
  destruct (page_stats_spec 101 50 3 (mkTablePageStats 101 3 50) ltac:(unfold U64_MAX; lia)
    ltac:(unfold U32_MAX; lia) ltac:(unfold U32_MAX; lia) ltac:(vm_compute; reflexivity))
    as (_ & _ & _ & _ & H & _). exact H.
Defined.

Lemma locator_key_is_primary_key_witness :
  map kp_column (from_ok [] (locator_key demo_columns (PrimaryKey demo_key))) = [lit "a"; lit "b"].
Proof.
  destruct (locator_key_is_primary_key demo_columns (PrimaryKey demo_key)
    (from_ok [] (locator_key demo_columns (PrimaryKey demo_key)))) as [H _].
  - apply from_ok_eq. vm_compute. reflexivity.
  - rewrite H. vm_compute. reflexivity.
Defined.

Lemma cell_changes_are_editable_witness :
  NoDup (map cc_column [mkTableCellChange (lit "note") (VNull (J:=IntegerNumber))]).
Proof.
  apply (cell_changes_are_editable demo_columns [mkTableCellChange (lit "note") (VNull (J:=IntegerNumber))]
    [mkTableCellChange (lit "note") (VNull (J:=IntegerNumber))]).
  pose proof (from_ok_eq [] (validate_cell_changes demo_columns
    [mkTableCellChange (lit "note") (VNull (J:=IntegerNumber))]) ltac:(vm_compute; reflexivity)) as H.
  rewrite H. f_equal.
Defined.

Lemma preview_statements_are_single_witness :
  length (statements (from_ok (mkTableChangeSetPreview [] (mkTableChangeSetSummary 0 0 0))
    (build_table_change_set_preview quote_mysql_identifier demo_columns (quote_mysql_identifier (lit "t"))
       mysql_empty_insert_statement demo_change_set))) = 3.
Proof.
  apply (preview_statements_are_single quote_mysql_identifier (unquote c_backtick) demo_columns
    (quote_mysql_identifier (lit "t")) mysql_empty_insert_statement demo_change_set).
  - intros f _. apply lexed_dec.
  - apply lexed_one, quote_piece.
  - intros t Ht. unfold mysql_empty_insert_statement.
    apply lexed_app; [apply lexed_plain; vm_compute; reflexivity|].
    apply lexed_app; [exact Ht|apply lexed_plain; vm_compute; reflexivity].
  - repeat constructor. simpl. apply (bool_decide_unpack _). vm_compute. exact I.
  - repeat constructor.
  - intros l key Hl Hkey. change (l ∈ [PrimaryKey demo_key; PrimaryKey demo_key]) in Hl.
    assert (l = PrimaryKey demo_key) as ->
      by (apply elem_of_cons in Hl as [->|Hl%list_elem_of_singleton]; [reflexivity|exact Hl]).
    destruct (validate_primary_key_ok _ _ _ Hkey) as (_ & _ & Hin).
    eapply Forall_impl; [exact Hin|]. intros k Hk.
    apply elem_of_cons in Hk as [->|Hk]; [exact I|].
    apply list_elem_of_singleton in Hk as ->. simpl. apply (bool_decide_unpack _). vm_compute. exact I.
  - apply from_ok_eq. vm_compute. reflexivity.
Defined.

(** The condition on backslashes is needed: a text value may end its own literal
    under the MySQL reading of backslashes, which the statement scanner shares. *)
Theorem backslash_value_ends_its_literal :
  exists v t, build_update_row_statement quote_mysql_identifier (quote_mysql_identifier (lit "t"))
      [mkTableRowKeyPart (lit "id") (int_value 1)]
      [mkTableCellChange (lit "note") (VString v)] = Ok t /\
    sql_is_single_statement t = false.
Proof.
  exists (lit "\'; DROP TABLE t; -- ").
  exists (lit "UPDATE `t` SET `note` = '\''; DROP TABLE t; -- ' WHERE `id` = 1").
  split; vm_compute; reflexivity.
Qed.
