(* ===== verification/SchemaTypes.v ===== *)
(** * Table design data
    ([src-tauri/src/engine/types.rs], the table schema section)

    The description of a table that the table designer edits: columns, indexes,
    constraints and table options, and the inputs of the create, update and drop
    operations. *)

From stdpp Require Import base gmap list strings.
From Stdlib Require Import ZArith.
From S2P Require Import Prelude Errors Types.

Inductive TableIdentityGeneration := Always | ByDefault.

Record TableIdentityOptions := mkTableIdentityOptions {
  io_generation : TableIdentityGeneration;
  io_start : option str;
  io_increment : option str;
  io_min_value : option str;
  io_max_value : option str;
  io_cache : option str;
  io_cycle : bool;
}.

Inductive TableGeneratedColumnStorage := Virtual | Stored.

Record TableGeneratedColumn := mkTableGeneratedColumn {
  gc_expression : str;
  gc_storage : TableGeneratedColumnStorage;
}.

Inductive TableReferentialAction := NoAction | Restrict | Cascade | SetNull | SetDefault.

Record TableForeignKeyReference := mkTableForeignKeyReference {
  fk_database_name : option str;
  fk_schema_name : option str;
  fk_table_name : str;
  fk_columns : list str;
  fk_on_update : option TableReferentialAction;
  fk_on_delete : option TableReferentialAction;
}.

Record TablePartitionOptions := mkTablePartitionOptions {
  tp_expression : option str;
  tp_raw_clause : option str;
  tp_readonly_description : option str;
}.

Record TableSchemaBasics := mkTableSchemaBasics {
  tb_table_name : str;
  tb_database_name : str;
  tb_schema_name : str;
  tb_engine : option str;
  tb_charset : option str;
  tb_collation : option str;
  tb_comment : option str;
  tb_partition : option TablePartitionOptions;
}.

Record TableColumnSchema := mkTableColumnSchema {
  tc_name : str;
  tc_type_name : str;
  tc_nullable : bool;
  tc_default_value : option str;
  tc_is_primary_key : bool;
  tc_is_unique : bool;
  tc_is_identity : bool;
  tc_comment : option str;
  tc_identity : option TableIdentityOptions;
  tc_generated : option TableGeneratedColumn;
  tc_charset : option str;
  tc_collation : option str;
}.

Record TableIndexSchema := mkTableIndexSchema {
  ti_name : str;
  ti_columns : list str;
  ti_is_unique : bool;
  ti_method : option str;
  ti_comment : option str;
}.

Inductive TableConstraintKind := KindPrimaryKey | KindUnique | KindForeignKey | KindCheck.

Record TableConstraintSchema := mkTableConstraintSchema {
  tk_name : str;
  tk_kind : TableConstraintKind;
  tk_columns : list str;
  tk_reference : option str;
  tk_expression : option str;
  tk_comment : option str;
  tk_foreign_key : option TableForeignKeyReference;
  tk_enforced : option bool;
}.

Record TableSchema := mkTableSchema {
  ts_basics : TableSchemaBasics;
  ts_columns : list TableColumnSchema;
  ts_indexes : list TableIndexSchema;
  ts_constraints : list TableConstraintSchema;
}.

Record CreateTableInput := mkCreateTableInput {
  ct_basics : TableSchemaBasics;
  ct_columns : list TableColumnSchema;
  ct_indexes : list TableIndexSchema;
  ct_constraints : list TableConstraintSchema;
}.

Record TableColumnRename := mkTableColumnRename {
  rn_old_name : str;
  rn_new_name : str;
}.

Inductive AssetGroupType :=
| GroupTables | GroupViews | GroupMaterializedViews | GroupFunctions | GroupProcedures
| GroupIndexes | GroupDictionaries | GroupProjections | GroupTriggers | GroupSequences
| GroupExtensions | GroupEvents | GroupCollections | GroupDocuments | GroupFields
| GroupNodeLabels | GroupRelationshipTypes | GroupVectorCollections | GroupPartitions
| GroupSearchIndexes | GroupDataStreams | GroupTemplates | GroupMappings
| GroupConstraints | GroupColumns.

Record ContainerRef := mkContainerRef {
  cr_kind : ContainerKind;
  cr_group_type : option AssetGroupType;
  cr_database : option str;
  cr_schema : option str;
  cr_table : option str;
  cr_column : option str;
  cr_object_name : option str;
  cr_db_index : option Z;
  cr_key : option str;
  cr_pattern : option str;
}.

Record UpdateTableInput := mkUpdateTableInput {
  ut_container : ContainerRef;
  ut_baseline : TableSchema;
  ut_target : TableSchema;
  ut_column_renames : list TableColumnRename;
  ut_confirm_destructive : bool;
}.

Record DropTableInput := mkDropTableInput {
  dt_container : ContainerRef;
  dt_confirm_destructive : bool;
}.

Record SchemaMutationPreview := mkSchemaMutationPreview {
  sp_statements : list str;
  sp_warnings : list str;
  sp_destructive : bool;
}.

Definition from_statements (statements : list str) : SchemaMutationPreview :=
  mkSchemaMutationPreview statements [] false.

(** ** Decidable equality ([derive(PartialEq, Eq)]) *)

#[export] Instance TableIdentityGeneration_eq_dec : EqDecision TableIdentityGeneration.
Proof. solve_decision. Defined.
#[export] Instance TableIdentityOptions_eq_dec : EqDecision TableIdentityOptions.
Proof. solve_decision. Defined.
#[export] Instance TableGeneratedColumnStorage_eq_dec : EqDecision TableGeneratedColumnStorage.
Proof. solve_decision. Defined.
#[export] Instance TableGeneratedColumn_eq_dec : EqDecision TableGeneratedColumn.
Proof. solve_decision. Defined.
#[export] Instance TableReferentialAction_eq_dec : EqDecision TableReferentialAction.
Proof. solve_decision. Defined.
#[export] Instance TableForeignKeyReference_eq_dec : EqDecision TableForeignKeyReference.
Proof. solve_decision. Defined.
#[export] Instance TablePartitionOptions_eq_dec : EqDecision TablePartitionOptions.
Proof. solve_decision. Defined.
#[export] Instance TableConstraintKind_eq_dec : EqDecision TableConstraintKind.
Proof. solve_decision. Defined.
#[export] Instance TableConstraintSchema_eq_dec : EqDecision TableConstraintSchema.
Proof. solve_decision. Defined.
#[export] Instance TableSchemaBasics_eq_dec : EqDecision TableSchemaBasics.
Proof. solve_decision. Defined.
#[export] Instance TableColumnSchema_eq_dec : EqDecision TableColumnSchema.
Proof. solve_decision. Defined.
#[export] Instance TableIndexSchema_eq_dec : EqDecision TableIndexSchema.
Proof. solve_decision. Defined.
#[export] Instance TableSchema_eq_dec : EqDecision TableSchema.
Proof. solve_decision. Defined.
