(* ===== verification/SqliteText.v ===== *)
(** * How SQLite reads the text of a statement

    A specification of SQLite's own lexical rules, apart from the scanner that the drivers
    share ([SqlText.v]): where the first statement of a text ends, and which word a text
    begins with.  Strings have no escape character, a dollar sign and a number sign mean
    nothing, and a name may be in square brackets.

    The lemmas say that for a text without the characters on which the two readings differ
    the guards of the SQL editor imply SQLite's notions, also after the driver has cut the
    text ([sqlite_trim_trailing_semicolon]). *)

From stdpp Require Import base list strings.
From Stdlib Require Import ZArith Lia.
From S2P Require Import Prelude SqlText.

(** [.trim_end_matches(';')] *)
Fixpoint strip_semicolons (s : str) : str :=
  match s with c :: s' => if (c =? c_semi)%Z then strip_semicolons s' else s | [] => [] end.
Definition sqlite_trim_trailing_semicolon (sql : str) : str := trim (rev (strip_semicolons (rev (trim sql)))).

(** ** SQLite's rules *)

Definition comment_start (s : str) : bool := starts_with [c_minus; c_minus] s || starts_with [c_slash; c_star] s.

(** The first statement of the text [t] ends with a semicolon, and [b] is what follows. *)
Inductive terminated : str -> str -> Prop :=
| terminated_here b : terminated (c_semi :: b) b
| terminated_plain c t b :
    c ∉ [c_semi; c_squote; c_dquote; c_backtick; c_lbracket] -> comment_start (c :: t) = false ->
    terminated t b -> terminated (c :: t) b
| terminated_quoted q body t b : q ∈ [c_squote; c_dquote; c_backtick] ->
    terminated t b -> terminated (q :: replace_char q [q; q] body ++ q :: t) b
| terminated_bracket body t b : c_rbracket ∉ body -> terminated t b -> terminated (c_lbracket :: body ++ c_rbracket :: t) b
| terminated_line body t b : c_nl ∉ body -> terminated t b -> terminated (c_minus :: c_minus :: body ++ c_nl :: t) b
| terminated_block body t b : split_at_first [c_star; c_slash] body = None ->
    terminated t b -> terminated (c_slash :: c_star :: body ++ c_star :: c_slash :: t) b.

(** One statement: after its semicolon, if it has one, come only blanks and comments. *)
Definition one_statement (t : str) : Prop := forall b, terminated t b -> trivia b.

(** Blanks and complete comments. *)
Inductive skipped : str -> Prop :=
| skipped_nil : skipped []
| skipped_space c s : is_whitespace c = true -> skipped s -> skipped (c :: s)
| skipped_line body s : c_nl ∉ body -> skipped s -> skipped (c_minus :: c_minus :: body ++ c_nl :: s)
| skipped_block body s : split_at_first [c_star; c_slash] body = None -> skipped s ->
    skipped (c_slash :: c_star :: body ++ c_star :: c_slash :: s).

Definition ends_word (c : Z) : bool := is_whitespace c || (c =? c_lparen)%Z || (c =? c_semi)%Z.

(** After blanks and comments comes one of the words, in any case. *)
Definition begins_with (words : list string) (t : str) : Prop :=
  exists lead word rest, t = lead ++ word ++ rest /\ skipped lead /\ str_upper word ∈ map lit words
    /\ Forall (fun c => ends_word c = false) word /\ (match rest with [] => True | c :: _ => ends_word c = true end).

(** The characters that the shared scanner and SQLite read alike. *)
Definition read_alike (c : Z) : Prop := c ∉ [c_bslash; c_dollar; c_hash; c_lbracket].

(** ** Prefixes *)

Lemma strip_prefix_more p s r t : strip_prefix p s = Some r -> strip_prefix p (s ++ t) = Some (r ++ t).
Proof.
  revert s. induction p as [|a p IH]; intros s; cbn; [by intros [= ->]|]. destruct s as [|b s]; [done|]. cbn. case_match; [apply IH|done].
Qed.

Lemma split_at_first_more p s a b t : split_at_first p s = Some (a, b) -> split_at_first p (s ++ t) = Some (a, b ++ t).
Proof.
  revert a b. induction s as [|c s IH]; intros a b; cbn [split_at_first app].
  - destruct (strip_prefix p []) as [r|] eqn:E; [|done]. intros [= <- <-]. apply (strip_prefix_more _ _ _ t) in E. cbn [app] in E.
    destruct t; cbn [split_at_first]; by rewrite E.
  - destruct (strip_prefix p (c :: s)) as [r|] eqn:E.
    + intros [= <- <-]. apply (strip_prefix_more _ _ _ t) in E. cbn [app] in E. by rewrite E.
    + destruct (split_at_first p s) as [[a' b']|] eqn:E2; [|done]. intros [= <- <-]. rewrite (IH _ _ eq_refl).
      destruct (strip_prefix p (c :: s ++ t)) as [r|] eqn:E3; [|done]. exfalso.
      apply split_at_first_app in E2. subst s. clear IH.
      assert (Hlen : length p <= length (c :: a' ++ p ++ b')) by (cbn; rewrite !length_app; lia).
      apply strip_prefix_app in E3. change (c :: (a' ++ p ++ b') ++ t) with ((c :: a' ++ p ++ b') ++ t) in E3.
      pose proof (f_equal (take (length p)) E3) as Hp. rewrite take_app_le, take_app_length in Hp by done.
      rewrite <-(take_drop (length p) (c :: a' ++ p ++ b')), Hp, strip_prefix_same in E. done.
Qed.

(** The text before the first occurrence has none. *)
Lemma split_at_first_before p s a b : p <> [] -> split_at_first p s = Some (a, b) -> split_at_first p a = None.
Proof.
  intros Hp H. destruct (split_at_first p a) as [[a' b']|] eqn:E; [|done]. exfalso.
  pose proof (split_at_first_app _ _ _ _ H) as ->. rewrite (split_at_first_more _ _ _ _ _ E) in H. injection H as -> Hb.
  apply (f_equal length) in Hb. apply split_at_first_length in E. rewrite !length_app in Hb. destruct p; [done|]. cbn in E. lia.
Qed.

Lemma trim_start_spaces s : exists pre, s = pre ++ trim_start s /\ Forall (fun c => is_whitespace c = true) pre.
Proof.
  induction s as [|c s (pre & IH & Hpre)]; [by exists []|]. cbn. destruct (is_whitespace c) eqn:Ec; [|by exists []].
  exists (c :: pre). cbn. split; [by f_equal|by constructor].
Qed.

Lemma trim_end_spaces s : exists post, s = trim_end s ++ post /\ Forall (fun c => is_whitespace c = true) post.
Proof.
  destruct (trim_start_spaces (rev s)) as (pre & Hs & Hpre). exists (rev pre). split; [|by apply Forall_rev].
  unfold trim_end. by rewrite <-rev_app_distr, <-Hs, rev_involutive.
Qed.

Definition cut (c : Z) : Prop := is_whitespace c = true \/ c = c_semi.

Lemma strip_semicolons_cut s : exists pre, s = pre ++ strip_semicolons s /\ Forall cut pre.
Proof.
  induction s as [|c s (pre & IH & Hpre)]; [by exists []|]. cbn. destruct (Z.eqb_spec c c_semi) as [->|]; [|by exists []].
  exists (c_semi :: pre). cbn. split; [by f_equal|constructor; [by right|done]].
Qed.

Lemma spaces_cut s : Forall (fun c => is_whitespace c = true) s -> Forall cut s.
Proof. intros H. eapply Forall_impl; [exact H|]. intros c Hc. by left. Qed.

(** What the driver cuts off: blanks in front, blanks and semicolons behind. *)
Lemma cut_off sql : exists pre post, sql = pre ++ sqlite_trim_trailing_semicolon sql ++ post
  /\ Forall (fun c => is_whitespace c = true) pre /\ Forall cut post.
Proof.
  unfold sqlite_trim_trailing_semicolon, trim at 1. unfold trim.
  destruct (trim_start_spaces sql) as (p1 & H1 & Hp1). destruct (trim_end_spaces (trim_start sql)) as (q1 & H2 & Hq1).
  set (u := trim_end (trim_start sql)) in *. destruct (strip_semicolons_cut (rev u)) as (q2 & H3 & Hq2).
  set (v := rev (strip_semicolons (rev u))) in *.
  assert (H4 : u = v ++ rev q2). { unfold v. by rewrite <-rev_app_distr, <-H3, rev_involutive. }
  destruct (trim_start_spaces v) as (p2 & H5 & Hp2). destruct (trim_end_spaces (trim_start v)) as (q3 & H6 & Hq3).
  exists (p1 ++ p2), (q3 ++ rev q2 ++ q1). split_and!.
  - rewrite H1 at 1. rewrite H2 at 1. rewrite H4 at 1. rewrite H5 at 1. rewrite H6 at 1. by rewrite <-!app_assoc.
  - by apply Forall_app.
  - apply Forall_app; split; [by apply spaces_cut|]. apply Forall_app; split; [by apply Forall_rev|by apply spaces_cut].
Qed.

(** ** One statement *)

(** [H] says that a character that is in a list is not in it. *)
Ltac listed H := exfalso; apply H; apply list_elem_of_In; cbn; tauto.

Lemma elem_replace q body x : x ∈ body -> x ∈ replace_char q [q; q] body.
Proof.
  induction 1 as [x body|x y body _ IH]; cbn; [|apply elem_of_app; by right].
  destruct (Z.eqb_spec x q); [subst|]; left.
Qed.

(** A text that the scanner accepts has only blanks and comments after its statement. *)
Lemma accepted_is_one t b : terminated t b -> Forall read_alike t -> scan Unquoted t = true -> trivia b.
Proof.
  induction 1 as [b|c t b Hc Hk _ IH|q body t b Hq _ IH|body t b _ _ IH|body t b Hb _ IH|body t b Hb _ IH]; intros Ha Hs.
  - rewrite scan_cons in Hs. cbn in Hs. apply has_sql_sound. by apply negb_true_iff.
  - apply Forall_cons in Ha as [Hx Ha]. apply IH; [done|]. rewrite scan_cons in Hs. unfold read_alike in Hx.
    assert (Ht : scan_turn Unquoted c t = inr (Unquoted, t)).
    { unfold comment_start, starts_with in Hk. cbn [strip_prefix] in Hk. unfold scan_turn, starts_with. cbn [strip_prefix].
      repeat match goal with |- context [(c =? ?z)%Z] => destruct (Z.eqb_spec c z) as [->|]; [try (listed Hc); try (listed Hx)|] end; try done.
      all: cbn in Hk; destruct t as [|x t]; try done; cbn in Hk |- *; repeat case_match; done. }
    by rewrite Ht in Hs.
  - apply Forall_cons in Ha as [_ Ha]. apply Forall_app in Ha as [Hbody Ha]. apply Forall_cons in Ha as [_ Ha]. apply IH; [done|].
    rewrite <-Hs. symmetry. replace (q :: replace_char q [q; q] body ++ q :: t) with ((q :: replace_char q [q; q] body ++ [q]) ++ t)
      by (cbn; by rewrite <-app_assoc).
    apply piece_transparent. rewrite !list_elem_of_In in Hq. destruct Hq as [<-|[<-|[<-|[]]]]; [|constructor..].
    constructor. intros Hbs. rewrite Forall_forall in Hbody. apply (elem_replace c_squote) in Hbs. specialize (Hbody _ Hbs).
    listed Hbody.
  - apply Forall_cons in Ha as [Hx _]. listed Hx.
  - apply IH; [|rewrite <-Hs; symmetry; replace (c_minus :: c_minus :: body ++ c_nl :: t) with ((c_minus :: c_minus :: body ++ [c_nl]) ++ t)
      by (cbn; by rewrite <-app_assoc); apply piece_transparent; by constructor].
    do 2 apply Forall_cons in Ha as [_ Ha]. apply Forall_app in Ha as [_ Ha]. by apply Forall_cons in Ha as [_ Ha].
  - apply IH; [|rewrite <-Hs; symmetry; replace (c_slash :: c_star :: body ++ c_star :: c_slash :: t)
      with ((c_slash :: c_star :: body ++ [c_star; c_slash]) ++ t) by (cbn; by rewrite <-app_assoc); apply piece_transparent; by constructor].
    do 2 apply Forall_cons in Ha as [_ Ha]. apply Forall_app in Ha as [_ Ha]. by do 2 apply Forall_cons in Ha as [_ Ha].
Qed.

Lemma terminated_more t b post : terminated t b -> terminated (t ++ post) (b ++ post).
Proof.
  induction 1 as [b|c t b Hc Hk Ht IH|q body t b Hq _ IH|body t b Hb _ IH|body t b Hb _ IH|body t b Hb _ IH]; cbn;
    rewrite <-?app_assoc; cbn; try by constructor.
  constructor; [done| |done]. unfold comment_start, starts_with in *. cbn [strip_prefix app] in *.
  destruct t as [|x t]; [by inversion Ht|]. cbn in Hk |- *. repeat case_match; done.
Qed.

Lemma terminated_spaces pre t b : Forall (fun c => is_whitespace c = true) pre -> terminated t b -> terminated (pre ++ t) b.
Proof.
  induction 1 as [|c pre Hc _ IH]; [done|]. intros Ht. cbn. constructor; [| |by apply IH].
  - intros Hin. rewrite !list_elem_of_In in Hin. by destruct Hin as [<-|[<-|[<-|[<-|[<-|[]]]]]].
  - unfold comment_start, starts_with. cbn [strip_prefix]. destruct (Z.eqb_spec c_minus c) as [<-|]; [done|].
    destruct (Z.eqb_spec c_slash c) as [<-|]; [done|]. done.
Qed.

Lemma cut_minus c : cut c -> c <> c_minus /\ c <> c_hash /\ c <> c_slash /\ c <> c_star.
Proof. intros [H| ->]; [|done]. split_and!; intros ->; done. Qed.

(** A comment that ends behind [b] runs to the end of [b]. *)
Lemma line_cut body s b post : c_nl ∉ body -> body ++ c_nl :: s = b ++ post ->
  c_nl ∉ b \/ exists s', b = body ++ c_nl :: s' /\ s = s' ++ post.
Proof.
  revert b. induction body as [|x body IH]; intros b Hn H.
  - destruct b as [|y b]; [left; apply not_elem_of_nil|]. injection H as <- H. right. by exists b.
  - apply not_elem_of_cons in Hn as [Hx Hn]. destruct b as [|y b]; [left; apply not_elem_of_nil|]. injection H as <- H.
    destruct (IH _ Hn H) as [Hb|(s' & -> & ->)]; [left; by apply not_elem_of_cons|right; by exists s'].
Qed.

Lemma trivia_cut s b post : trivia s -> s = b ++ post -> Forall cut post -> trivia b.
Proof.
  intros Hs. revert b. induction Hs as [|c s Hc _ IH|body s Hb _ IH|body Hb|body s Hb _ IH|body Hb|body comment s Hs _ IH|comment Hs];
    intros b H Hp; (destruct b as [|x b]; [constructor|]); try done; injection H as <- H.
  - constructor; [done|]. by eapply IH.
  - destruct b as [|y b]; [cbn in H; subst post; apply Forall_cons in Hp as [Hp _]; by apply cut_minus in Hp as (? & _)|].
    injection H as <- H. destruct (line_cut _ _ _ _ Hb H) as [Hn|(s' & -> & ->)]; [by apply trivia_line_end|]. apply trivia_line; [done|]. by eapply IH.
  - destruct b as [|y b]; [cbn in H; subst post; apply Forall_cons in Hp as [Hp _]; by apply cut_minus in Hp as (? & _)|].
    injection H as <- ->. apply trivia_line_end. intros Hn. apply Hb, elem_of_app. by left.
  - destruct (line_cut _ _ _ _ Hb H) as [Hn|(s' & -> & ->)]; [by apply trivia_hash_end|]. apply trivia_hash; [done|]. by eapply IH.
  - subst body. apply trivia_hash_end. intros Hn. apply Hb, elem_of_app. by left.
  - destruct b as [|y b]; [cbn in H; subst post; apply Forall_cons in Hp as [Hp _]; by apply cut_minus in Hp as (_ & _ & _ & ?)|].
    injection H as <- ->. destruct (split_at_first [c_star; c_slash] b) as [[a' s']|] eqn:E; [|by apply trivia_block_end].
    pose proof (split_at_first_more _ _ _ _ post E) as E2. rewrite E2 in Hs. injection Hs as -> <-. eapply trivia_block; [exact E|]. by eapply IH.
  - destruct b as [|y b]; [cbn in H; subst post; apply Forall_cons in Hp as [Hp _]; by apply cut_minus in Hp as (_ & _ & _ & ?)|].
    injection H as <- ->. apply trivia_block_end. destruct (split_at_first [c_star; c_slash] b) as [[a' s']|] eqn:E; [|done].
    by rewrite (split_at_first_more _ _ _ _ _ E) in Hs.
Qed.

(** What the driver runs of an accepted text is one statement. *)
Lemma accepted_one_statement sql : Forall read_alike sql -> sql_is_single_statement sql = true ->
  one_statement (sqlite_trim_trailing_semicolon sql).
Proof.
  intros Ha Hs b Ht. destruct (cut_off sql) as (pre & post & Hsql & Hpre & Hpost).
  eapply trivia_cut; [|reflexivity|exact Hpost]. eapply accepted_is_one; [|exact Ha|exact Hs].
  rewrite Hsql. apply terminated_spaces; [done|]. by apply terminated_more.
Qed.

(** ** The first word *)

Lemma skipped_spaces pre s : Forall (fun c => is_whitespace c = true) pre -> skipped s -> skipped (pre ++ s).
Proof. induction 1; [done|]. intros. cbn. constructor; auto. Qed.

Lemma keyword_loop_skips n s r : Forall read_alike s -> leading_sql_keyword_loop n s = Some r -> exists lead, s = lead ++ r /\ skipped lead.
Proof.
  revert s. induction n as [|n IH]; intros s Ha H; cbn [leading_sql_keyword_loop] in H; [injection H as <-; exists []; by split; [|constructor]|].
  assert (Htrim : forall u, Forall read_alike u -> leading_sql_keyword_loop n (trim_start u) = Some r ->
    exists lead, u = lead ++ r /\ skipped lead).
  { intros u Hu Hl. destruct (trim_start_spaces u) as (pre & Hu2 & Hpre). rewrite Hu2 in Hu. apply Forall_app in Hu as [_ Hu].
    destruct (IH _ Hu Hl) as (lead & H1 & H2). exists (pre ++ lead). rewrite <-app_assoc, <-H1. split; [done|by apply skipped_spaces]. }
  destruct (strip_prefix [c_minus; c_minus] s) as [comment|] eqn:E1.
  { apply strip_prefix_app in E1 as ->. destruct (after_char c_nl comment) as [u|] eqn:E2; [|done]. apply after_char_Some in E2 as (body & -> & Hb).
    do 2 apply Forall_cons in Ha as [_ Ha]. apply Forall_app in Ha as [_ Ha]. apply Forall_cons in Ha as [_ Ha].
    destruct (Htrim _ Ha H) as (lead & -> & Hl). exists (c_minus :: c_minus :: body ++ c_nl :: lead). cbn. rewrite <-app_assoc. split; [done|by apply skipped_line]. }
  destruct (strip_prefix [c_hash] s) as [comment|] eqn:E3.
  { apply strip_prefix_app in E3 as ->. apply Forall_cons in Ha as [Hx _]. listed Hx. }
  destruct (strip_prefix [c_slash; c_star] s) as [comment|] eqn:E4; [|injection H as <-; exists []; by split; [|constructor]].
  apply strip_prefix_app in E4 as ->. destruct (split_at_first [c_star; c_slash] comment) as [[body u]|] eqn:E5; [|done].
  assert (Hb : split_at_first [c_star; c_slash] body = None) by (by eapply split_at_first_before; [|exact E5]). apply split_at_first_app in E5 as ->.
  do 2 apply Forall_cons in Ha as [_ Ha]. apply Forall_app in Ha as [_ Ha]. do 2 apply Forall_cons in Ha as [_ Ha].
  destruct (Htrim _ Ha H) as (lead & -> & Hl). exists (c_slash :: c_star :: body ++ c_star :: c_slash :: lead). cbn. rewrite <-app_assoc.
  split; [done|by apply skipped_block].
Qed.

Lemma take_keyword_spec s : exists rest, s = take_keyword s ++ rest /\ Forall (fun c => ends_word c = false) (take_keyword s)
  /\ match rest with [] => True | c :: _ => ends_word c = true end.
Proof.
  induction s as [|c s (rest & IH & Hw & Hr)]; [by exists []|]. cbn [take_keyword]. fold (ends_word c). destruct (ends_word c) eqn:Ec.
  - exists (c :: s). by split_and!.
  - exists rest. cbn. split_and!; [by f_equal|by constructor|done].
Qed.

(** A word without blanks and semicolons survives the cutting. *)
Lemma cut_behind u w rest t post : u ++ w ++ rest = t ++ post -> w <> [] -> Forall (fun c => ends_word c = false) w -> Forall cut post ->
  exists rest', t = u ++ w ++ rest' /\ rest = rest' ++ post.
Proof.
  intros H Hw Hf Hp. rewrite app_assoc in H. apply app_eq_app in H as (l & [[H1 H2]|[H1 H2]]).
  2: { exists l. by rewrite <-app_assoc in H1. }
  destruct l as [|y l _] using rev_ind.
  { exists []. by rewrite !app_nil_r in *. }
  exfalso. destruct (exists_last Hw) as (w' & x & ->). rewrite !app_assoc in H1. apply app_inj_tail in H1 as [_ ->].
  apply Forall_app in Hf as [_ Hf]. apply Forall_cons in Hf as [Hf _]. rewrite H2 in Hp. apply Forall_app in Hp as [Hp _].
  apply Forall_app in Hp as [_ Hp]. apply Forall_cons in Hp as [[Hp| ->] _]; [|done]. unfold ends_word in Hf. by rewrite Hp in Hf.
Qed.

Lemma cut_before pre t lead w rest : pre ++ t = lead ++ w ++ rest -> Forall (fun c => is_whitespace c = true) pre -> skipped lead ->
  w <> [] -> Forall (fun c => ends_word c = false) w -> exists lead', t = lead' ++ w ++ rest /\ skipped lead'.
Proof.
  intros H Hpre. revert lead H. induction Hpre as [|c pre Hc _ IH]; intros lead H Hl Hw Hf; [by exists lead|]. cbn in H.
  destruct Hl as [|c' s Hc' Hs|body s Hb Hs|body s Hb Hs]; cbn in H.
  - destruct w as [|x w]; [done|]. injection H as <- _. apply Forall_cons in Hf as [Hf _]. unfold ends_word in Hf. by rewrite Hc in Hf.
  - injection H as _ H. by eapply IH.
  - injection H as -> _. done.
  - injection H as -> _. done.
Qed.

(** What the driver runs begins with the leading keyword of the text it was given. *)
Lemma accepted_begins words sql k : Forall read_alike sql -> leading_sql_keyword sql = Some k -> k ∈ map lit words ->
  begins_with words (sqlite_trim_trailing_semicolon sql).
Proof.
  intros Ha H Hk. unfold leading_sql_keyword in H. destruct (leading_sql_keyword_loop _ _) as [r|] eqn:Er; [|done].
  destruct (trim_start_spaces sql) as (p0 & Hsql & Hp0).
  assert (Ha' : Forall read_alike (trim_start sql)) by (rewrite Hsql in Ha; by apply Forall_app in Ha as [_ Ha]).
  destruct (keyword_loop_skips _ _ _ Ha' Er) as (lead & Hlead & Hskip). destruct (take_keyword_spec r) as (rest & Hr & Hw & Hrest).
  assert (Hne : take_keyword r <> [] /\ k = str_upper (take_keyword r)) by (destruct (take_keyword r); [done|by injection H as <-]).
  destruct Hne as [Hne ->]. destruct (cut_off sql) as (pre & post & Hcut & Hpre & Hpost).
  assert (Hall : (pre ++ sqlite_trim_trailing_semicolon sql) ++ post = (p0 ++ lead) ++ take_keyword r ++ rest).
  { rewrite <-!app_assoc, <-Hcut, <-Hr, <-Hlead. exact Hsql. }
  destruct (cut_behind _ _ _ _ _ (eq_sym Hall) Hne Hw Hpost) as (rest' & Ht & ->).
  destruct (cut_before _ _ _ _ _ Ht Hpre (skipped_spaces _ _ Hp0 Hskip) Hne Hw) as (lead' & Ht' & Hskip').
  exists lead', (take_keyword r), rest'. split_and!; try done. by destruct rest'.
Qed.
