(* ===== verification/SqliteDriver.v ===== *)
(** * The SQLite driver
    ([src-tauri/src/engine/drivers/sqlite.rs])

    Column metadata from the catalogue, browsing and counting of table rows, the commit of
    a set of row changes, the transaction of a tab, and statements of the SQL editor.  The
    database file is a content that statements transform; the connection of a transaction
    works on a copy that is published when it is committed.  Listing the objects of the
    database is left out.

    The theorems say that what is done in a transaction reaches the file all at once or
    not at all, that a read-only connection never changes the file, what a set of changes
    does statement by statement, and that the pages of a query put together are its
    rows. *)

From stdpp Require Import base gmap list strings fin_maps.
From Stdlib Require Import ZArith Lia.
From S2P Require Import Prelude Errors Types SqlText TableSql SchemaTypes SqliteText.

(** ** What SQLite and sqlx do *)

(** A cell of a row: its type name, and what it reads as. *)
Record SqliteCell `{J : JsonNumber} := mkSqliteCell {
  ce_null : bool;
  ce_type : str;
  ce_text : option str;
  ce_integer : option Z;
  ce_real : option F64;
}.
Arguments mkSqliteCell {J}.

(** A row of a result: its columns (name and type name) and cells. *)
Record SqliteRow `{J : JsonNumber} := mkSqliteRow {
  ro_columns : list (str * str);
  ro_cells : list SqliteCell;
}.
Arguments mkSqliteRow {J}.

(** [PRAGMA index_list] and [PRAGMA table_xinfo]. *)
Record IndexListRow := mkIndexListRow { ix_name : str; ix_unique : Z }.
Record TableInfoRow := mkTableInfoRow {
  xi_name : str;
  xi_type : str;
  xi_notnull : Z;
  xi_dflt_value : option str;
  xi_pk : Z;
  xi_hidden : Z;
}.

Class SqliteEngine `{J : JsonNumber} := {
  Content : Type;
  SqlError : Type;
  (** [classify_sqlx_query_error] and [error.to_string()]. *)
  classify_sqlx_query_error : SqlError -> IpcError;
  error_text : SqlError -> str;
  (** A statement that is executed: the new content and the rows it affected. *)
  run_statement : str -> Content -> Result SqlError (Content * Z);
  (** The same for a statement whose rows are fetched. *)
  run_fetch : str -> Content -> Result SqlError (Content * list SqliteRow);
  (** The rows of a query with its bound values. *)
  run_query : str -> list TableBrowseBindValue -> Content -> Result SqlError (list SqliteRow);
  (** The columns of a statement that is only prepared. *)
  describe : str -> Content -> Result SqlError (list (str * str));
  index_list : str -> Content -> Result SqlError (list IndexListRow);
  (** The column names of an index; an expression has none. *)
  index_info : str -> Content -> Result SqlError (list (option str));
  table_xinfo : str -> Content -> Result SqlError (list TableInfoRow);
  (** Whether a statement needs the lock that an open transaction holds, and the errors of
      a held lock, of a transaction that is not open, and of a NULL read as text. *)
  is_write : str -> bool;
  busy : SqlError;
  no_transaction : SqlError;
  unexpected_null : SqlError;
  (** Errors after which SQLite has rolled the whole transaction back. *)
  rolls_back : SqlError -> bool;
  (** What keeps a transaction from being committed: a deferred constraint. *)
  commit_check : Content -> option SqlError;
  number_of_i64 : Z -> Number;
  number_of_f64 : F64 -> option Number;
}.

Record TableTransactionState := mkTableTransactionState { in_transaction : bool; ts_database : option str }.
Inductive TableChangeOutcome := Applied | Submitted | OutcomeUnknown | OutcomeConflict.
Record TableChangeSetCommitResult := mkTableChangeSetCommitResult {
  tr_affected_rows : Z;
  tr_preview : TableChangeSetPreview;
  tr_outcome : TableChangeOutcome;
}.

#[export] Instance ColumnDataCategory_eq_dec : EqDecision ColumnDataCategory.
Proof. solve_decision. Defined.

(** ** Text *)

Definition sqlite_quote_identifier (identifier : str) : str :=
  [c_dquote] ++ replace_char c_dquote [c_dquote; c_dquote] identifier ++ [c_dquote].

Definition classify_sqlite_type_name (type_name : str) : ColumnDataCategory :=
  let normalized := str_upper (trim type_name) in
  let contains s := str_contains (lit s) normalized in
  if contains "INT"%string then CatNumber
  else if contains "REAL"%string || contains "FLOA"%string || contains "DOUB"%string || contains "NUM"%string || contains "DEC"%string
  then CatNumber
  else if contains "BOOL"%string then CatBoolean
  else if contains "JSON"%string then CatJson
  else if contains "BLOB"%string then CatBinary
  else if contains "DATETIME"%string || contains "TIMESTAMP"%string then CatDatetime
  else if str_eqb normalized (lit "DATE") || contains " DATE"%string then CatDate
  else if str_eqb normalized (lit "TIME") || contains " TIME"%string then CatTime
  else if contains "CHAR"%string || contains "CLOB"%string || contains "TEXT"%string then CatString
  else if bool_decide (normalized = []) then CatBinary
  else CatUnknown.

Definition sqlite_empty_insert_statement (table : str) : str := lit "INSERT INTO " ++ table ++ lit " DEFAULT VALUES".

(** ** The profile and the driver *)

Record SqliteProfile := mkSqliteProfile { db_file_path : str; is_read_only : bool }.

Definition validate_profile (is_file : str -> bool) (profile : SqliteProfile) : IpcResult unit :=
  let path := trim (db_file_path profile) in
  if bool_decide (path = []) then Err (validation_failed (lit "请填写 SQLite 数据库文件路径"))
  else if negb (is_file path) then Err (resource_not_found (lit "SQLite database file '" ++ path ++ lit "' does not exist"))
  else Ok tt.

(** [Path::file_name] is a parameter: what it returns, if it is text. *)
Definition database_name_from_path (file_name : str -> option str) (path : str) : str :=
  match file_name (trim path) with
  | Some value => if bool_decide (trim value = []) then lit "SQLite" else value
  | None => lit "SQLite"
  end.

Definition sqlite_has_mutation_safe_primary_key (columns : list ColumnMeta) : bool :=
  let primary_key_columns := ordered_primary_key_columns columns in
  negb (bool_decide (primary_key_columns = []))
  && forallb (fun primary_key => existsb (fun column => str_eqb (cm_name column) primary_key
                                            && negb (bool_decide (cm_data_category column = CatBinary))) columns) primary_key_columns.

Definition ensure_sqlite_table_has_mutation_safe_primary_key (columns : list ColumnMeta) : IpcResult unit :=
  if bool_decide (ordered_primary_key_columns columns = []) then
    Err (system_internal (lit "该 SQLite 表没有显式主键，无法安全定位要修改或删除的行；当前仅支持浏览数据")
           (lit "SQLite DataTable mutation requires an explicit primary key"))
  else if negb (sqlite_has_mutation_safe_primary_key columns) then
    Err (system_internal (lit "该 SQLite 表使用二进制主键，当前无法安全定位要修改或删除的行；当前仅支持浏览数据")
           (lit "SQLite DataTable mutation does not support binary primary keys"))
  else Ok tt.

Definition table_name_from_container (container : ContainerRef) : IpcResult str :=
  match trim <$> (match cr_table container with Some t => Some t | None => cr_object_name container end) with
  | Some (c :: s) => Ok (c :: s)
  | _ => Err (resource_not_found (lit "SQLite table name is missing"))
  end.

Definition ensure_transaction_database (expected actual : str) : IpcResult unit :=
  if str_eqb expected actual then Ok tt
  else Err (system_internal (lit "当前事务已绑定到其他 SQLite 文件")
         (lit "SQLite transaction database is '" ++ expected ++ lit "', requested database is '" ++ actual ++ lit "'")).

Section sqlite.
Context {J : JsonNumber} {E : SqliteEngine}.

(** A transaction of the tab: its database and its connection, which works on a content of
    its own until the transaction is over. *)
Record SqliteTransactionSession := mkSqliteTransactionSession {
  se_database : str;
  se_working : option Content;
}.

Record SqliteDriver := mkSqliteDriver {
  sd_profile_id : str;
  sd_database_name : str;
  sd_is_read_only : bool;
  sd_file : Content;
  sd_transaction : option SqliteTransactionSession;
}.

Definition set_file (c : Content) (d : SqliteDriver) : SqliteDriver :=
  mkSqliteDriver (sd_profile_id d) (sd_database_name d) (sd_is_read_only d) c (sd_transaction d).
Definition set_transaction (s : option SqliteTransactionSession) (d : SqliteDriver) : SqliteDriver :=
  mkSqliteDriver (sd_profile_id d) (sd_database_name d) (sd_is_read_only d) (sd_file d) s.

Definition SQ : Type -> Type := ST SqliteDriver IpcError.

Definition or_classified {A} (r : Result SqlError A) : IpcResult A :=
  match r with Ok a => Ok a | Err e => Err (classify_sqlx_query_error e) end.

(** Statements and queries on the pool, which sees the file; a statement that writes waits
    for an open transaction in vain. *)
Definition locked (d : SqliteDriver) : bool :=
  match sd_transaction d with Some session => bool_decide (is_Some (se_working session)) | None => false end.
Definition pool_execute (sql : str) : ST SqliteDriver SqlError Z := fun d =>
  if locked d && is_write sql then (Err busy, d)
  else match run_statement sql (sd_file d) with
  | Ok (c, rows) => (Ok rows, set_file c d)
  | Err e => (Err e, d)
  end.

Definition pool_fetch (sql : str) : ST SqliteDriver SqlError (list SqliteRow) := fun d =>
  if locked d && is_write sql then (Err busy, d)
  else match run_fetch sql (sd_file d) with
  | Ok (c, rows) => (Ok rows, set_file c d)
  | Err e => (Err e, d)
  end.

(** A statement on the connection of a session: on its working content while the
    transaction is open, on the file when it is not. *)
Definition session_execute (session : SqliteTransactionSession) (sql : str) : ST SqliteDriver SqlError Z := fun d =>
  match se_working session with
  | Some c =>
    match run_statement sql c with
    | Ok (c, rows) => (Ok rows, set_transaction (Some (mkSqliteTransactionSession (se_database session) (Some c))) d)
    | Err e => (Err e, if rolls_back e then set_transaction (Some (mkSqliteTransactionSession (se_database session) None)) d else d)
    end
  | None =>
    match run_statement sql (sd_file d) with Ok (c, rows) => (Ok rows, set_file c d) | Err e => (Err e, d) end
  end.

(** What the connection of a session reads. *)
Definition session_content (session : SqliteTransactionSession) (d : SqliteDriver) : Content := default (sd_file d) (se_working session).

(** ** Metadata *)

Record SqliteColumnInfo := mkSqliteColumnInfo {
  sc_name : str;
  sc_type_name : str;
  sc_nullable : bool;
  sc_default_value : option str;
  sc_is_primary_key : bool;
  sc_primary_key_ordinal : option Z;
  sc_is_unique : bool;
  sc_is_generated : bool;
}.

(** The loop over the indexes; the columns of the unique ones that have one column. *)
Fixpoint unique_columns_of (rows : list IndexListRow) (c : Content) : IpcResult (list str) :=
  match rows with
  | [] => Ok []
  | row :: rows =>
    if (ix_unique row =? 0)%Z || bool_decide (trim (ix_name row) = []) then unique_columns_of rows c
    else
      columns ← or_classified (index_info (lit "PRAGMA index_info(" ++ sqlite_quote_identifier (ix_name row) ++ lit ")") c);
      match columns with
      | [column] =>
        column ← ok_or (classify_sqlx_query_error unexpected_null) column;
        rest ← unique_columns_of rows c;
        Ok (if bool_decide (trim column = []) then rest else column :: rest)
      | _ => unique_columns_of rows c
      end
  end.

Definition load_unique_columns (table : str) (c : Content) : IpcResult (list str) :=
  rows ← or_classified (index_list (lit "PRAGMA index_list(" ++ sqlite_quote_identifier table ++ lit ")") c);
  unique_columns_of rows c.

Definition column_info (unique_columns : list str) (row : TableInfoRow) : option SqliteColumnInfo :=
  if bool_decide (trim (xi_name row) = []) || (xi_hidden row =? 1)%Z then None
  else Some (mkSqliteColumnInfo (xi_name row) (xi_type row) ((xi_notnull row =? 0)%Z && (xi_pk row =? 0)%Z) (xi_dflt_value row)
               (0 <? xi_pk row)%Z (if (0 <? xi_pk row)%Z then Some (xi_pk row) else None)
               ((0 <? xi_pk row)%Z || bool_decide (xi_name row ∈ unique_columns)) ((xi_hidden row =? 2)%Z || (xi_hidden row =? 3)%Z)).

Definition load_sqlite_column_info (table : str) (c : Content) : IpcResult (list SqliteColumnInfo) :=
  unique_columns ← load_unique_columns table c;
  rows ← or_classified (table_xinfo (lit "PRAGMA table_xinfo(" ++ sqlite_quote_identifier table ++ lit ")") c);
  Ok (omap (M := list) (column_info unique_columns) rows).

Definition column_meta (is_writable_source : bool) (column : SqliteColumnInfo) : ColumnMeta :=
  let data_category := classify_sqlite_type_name (sc_type_name column) in
  mkColumnMeta (sc_name column) (sc_type_name column) (sc_nullable column) (sc_default_value column) data_category None None None None
    (sc_is_primary_key column) (sc_primary_key_ordinal column) (sc_is_unique column)
    (is_writable_source && negb (sc_is_generated column) && negb (bool_decide (data_category = CatBinary))).

Definition load_table_columns_meta (container : ContainerRef) (d : SqliteDriver) : IpcResult (list ColumnMeta) :=
  table ← table_name_from_container container;
  columns ← load_sqlite_column_info table (sd_file d);
  Ok (map (column_meta (negb (sd_is_read_only d) && bool_decide (cr_kind container = Table))) columns).

Definition container_database (d : SqliteDriver) (container : ContainerRef) : str :=
  match trim <$> cr_database container with Some (c :: s) => c :: s | _ => sd_database_name d end.

Definition sqlite_columns_to_table_schema (database table : str) (columns : list SqliteColumnInfo) : TableSchema :=
  mkTableSchema (mkTableSchemaBasics table database [] None None None None None)
    (map (fun column => mkTableColumnSchema (sc_name column) (sc_type_name column) (sc_nullable column) (sc_default_value column)
       (sc_is_primary_key column) (sc_is_unique column) false None None None None None) columns) [] [].

Definition describe_table (container : ContainerRef) (d : SqliteDriver) : IpcResult TableSchema :=
  if negb (bool_decide (cr_kind container = Table)) && negb (bool_decide (cr_kind container = View)) then
    Err (resource_not_found (lit "SQLite table description requires a table or view container"))
  else
    table ← table_name_from_container container;
    columns ← load_sqlite_column_info table (sd_file d);
    Ok (sqlite_columns_to_table_schema (container_database d container) table columns).

(** ** Rows *)

Definition sqlite_real (value : F64) : Value := match number_of_f64 value with Some n => VNumber n | None => VNull end.

Definition sqlite_cell_to_json (cell : SqliteCell) : IpcResult Value :=
  if ce_null cell then Ok VNull
  else
    let storage_type := str_upper (ce_type cell) in
    let read {A} (o : option A) : IpcResult A := ok_or (classify_sqlx_query_error unexpected_null) o in
    if str_eqb storage_type (lit "INTEGER") then value ← read (ce_integer cell); Ok (json_i64_for_js_transport number_of_i64 value)
    else if str_eqb storage_type (lit "REAL") then value ← read (ce_real cell); Ok (sqlite_real value)
    else if str_eqb storage_type (lit "TEXT") then value ← read (ce_text cell); Ok (VString value)
    else if str_eqb storage_type (lit "BLOB") then Ok (VString (lit "<BINARY>"))
    else match ce_text cell, ce_integer cell, ce_real cell with
    | Some value, _, _ => Ok (VString value)
    | None, Some value, _ => Ok (json_i64_for_js_transport number_of_i64 value)
    | None, None, Some value => Ok (sqlite_real value)
    | None, None, None => Ok (VString (lit "<BINARY>"))
    end.

(** The cells of the columns, one by one; a row has a cell for each. *)
Definition row_values (columns : list ColumnMeta) (row : SqliteRow) : IpcResult (list Value) :=
  try_map (fun index =>
    cell ← ok_or (classify_sqlx_query_error unexpected_null) (ro_cells row !! index);
    sqlite_cell_to_json cell) (seq 0 (length columns)).

Definition sqlite_rows_to_query_result (rows : list SqliteRow) (page_size : Z) (columns : list ColumnMeta)
    (source_writable source_insertable : bool) (primary_key_columns stable_order_columns : list str) : IpcResult QueryResult :=
  let limit := Z.to_nat (Z.max page_size 1) in
  result_rows ← try_map (row_values columns) (take limit rows);
  Ok (mkQueryResult columns result_rows None (limit <? length rows)%nat source_writable source_insertable primary_key_columns
        stable_order_columns (if source_writable then Some LocPrimaryKey else None)).

Definition readonly_column (column : str * str) : ColumnMeta :=
  let meta := readonly_query_column column.1 column.2 true in
  mkColumnMeta (cm_name meta) (cm_type_name meta) (cm_nullable meta) (cm_default_value meta) (classify_sqlite_type_name column.2)
    (cm_max_length meta) (cm_numeric_precision meta) (cm_numeric_scale meta) (cm_enum_values meta) (cm_is_primary_key meta)
    (cm_primary_key_ordinal meta) (cm_is_unique meta) (cm_is_writable meta).

Definition sqlite_columns_from_row (row : SqliteRow) : list ColumnMeta := map readonly_column (ro_columns row).

(** The loop over the stream: rows still to skip, rows that may still be taken, and what
    was taken.  The columns are those of the first row. *)
Fixpoint stream_rows (skip room : nat) (stream : list SqliteRow) : list SqliteRow :=
  match stream with
  | [] => []
  | row :: stream =>
    match skip with
    | S skip => stream_rows skip room stream
    | O => match room with O => [] | S room => row :: stream_rows O room stream end
    end
  end.

Definition page_of_stream (stream : list SqliteRow) (described : Result SqlError (list (str * str))) (page page_size : Z) : IpcResult QueryResult :=
  let safe_page_size := Z.max page_size 1 in
  let offset := (Z.max (page - 1) 0 * safe_page_size)%Z in
  columns ← match stream with
            | row :: _ => Ok (sqlite_columns_from_row row)
            | [] => columns ← or_classified described; Ok (map readonly_column columns)
            end;
  sqlite_rows_to_query_result (stream_rows (Z.to_nat offset) (Z.to_nat safe_page_size + 1) stream) safe_page_size columns
    false false [] [].

Definition execute_sqlite_query_rows (sql : str) (page page_size : Z) : SQ QueryResult :=
  stream ← (fun d => let (r, d) := pool_fetch sql d in (or_classified r, d));
  d ← st_get;
  st_lift (page_of_stream stream (describe sql (sd_file d)) page page_size).

(** ** Browsing *)

Definition kind_browsable (container : ContainerRef) : bool :=
  bool_decide (cr_kind container = Table) || bool_decide (cr_kind container = View).

(** The rows of a query where the tab reads: on its transaction, if it has one, otherwise
    from the file. *)
Definition routed_rows (database sql : str) (values : list TableBrowseBindValue) (d : SqliteDriver) : IpcResult (list SqliteRow) :=
  match sd_transaction d with
  | Some session =>
    _ ← ensure_transaction_database (se_database session) database;
    or_classified (run_query sql values (session_content session d))
  | None => or_classified (run_query sql values (sd_file d))
  end.

Definition browse_table_data (container : ContainerRef) (page page_size : Z) (query : TableBrowseQuery) (d : SqliteDriver) : IpcResult QueryResult :=
  if negb (kind_browsable container) then Err (resource_not_found (lit "SQLite data browsing requires a table or view container"))
  else
    columns ← load_table_columns_meta container d;
    let is_table := bool_decide (cr_kind container = Table) in
    let primary_key_columns := if is_table then ordered_primary_key_columns columns else [] in
    let source_writable := negb (sd_is_read_only d) && is_table && sqlite_has_mutation_safe_primary_key columns in
    plan ← table_browse_sql_plan sqlite_quote_identifier QuestionMark query columns;
    if bool_decide (columns = []) then
      Ok (mkQueryResult columns [] None false source_writable source_writable primary_key_columns primary_key_columns
            (if source_writable then Some LocPrimaryKey else None))
    else
      name ← table_name_from_container container;
      let table := sqlite_quote_identifier name in
      let select_columns := join (lit ", ") (map (fun column => sqlite_quote_identifier (cm_name column)) columns) in
      let order_by :=
        if negb (bool_decide (order_by_clause plan = [])) then order_by_clause plan
        else if bool_decide (primary_key_columns = []) then []
        else lit " ORDER BY " ++ join (lit ", ") (map sqlite_quote_identifier primary_key_columns) in
      let safe_page_size := Z.max page_size 1 in
      let limit := (safe_page_size + 1)%Z in
      let offset := (Z.max (page - 1) 0 * safe_page_size)%Z in
      let sql := lit "SELECT " ++ select_columns ++ lit " FROM " ++ table ++ where_clause plan ++ order_by ++ lit " LIMIT " ++ to_dec limit
                 ++ lit " OFFSET " ++ to_dec offset in
      rows ← routed_rows (container_database d container) sql (bindings plan) d;
      sqlite_rows_to_query_result rows safe_page_size columns source_writable source_writable primary_key_columns primary_key_columns.

Definition get_table_page_stats (container : ContainerRef) (page_size : Z) (query : TableBrowseQuery) (requested_page : option Z)
    (d : SqliteDriver) : IpcResult TablePageStats :=
  if negb (kind_browsable container) then Err (resource_not_found (lit "SQLite page stats requires a table or view container"))
  else
    columns ← load_table_columns_meta container d;
    plan ← table_browse_sql_plan sqlite_quote_identifier QuestionMark query columns;
    name ← table_name_from_container container;
    rows ← routed_rows (container_database d container)
             (lit "SELECT COUNT(*) FROM " ++ sqlite_quote_identifier name ++ where_clause plan) (bindings plan) d;
    total_rows ← ok_or (classify_sqlx_query_error unexpected_null)
                   (match rows with row :: _ => ro_cells row !! 0 ≫= ce_integer | [] => None end);
    table_page_stats (Z.max total_rows 0) page_size requested_page.

(** ** Changes *)

Definition ensure_writable_profile (d : SqliteDriver) : IpcResult unit :=
  if sd_is_read_only d then Err (validation_failed (lit "SQLite connection is read-only; reopen it with read-only mode disabled")) else Ok tt.

Definition preview_table_change_set (container : ContainerRef) (change_set : TableChangeSetRequest) (d : SqliteDriver)
    : IpcResult TableChangeSetPreview :=
  _ ← ensure_writable_profile d;
  _ ← ensure_real_table_for_mutation (cr_kind container);
  columns ← load_table_columns_meta container d;
  _ ← ensure_sqlite_table_has_mutation_safe_primary_key columns;
  name ← table_name_from_container container;
  build_table_change_set_preview sqlite_quote_identifier columns (sqlite_quote_identifier name) sqlite_empty_insert_statement change_set.

(** One statement of the set, where the tab writes. *)
Definition execute_change (database statement : str) : SQ Z := fun d =>
  match sd_transaction d with
  | Some session =>
    match ensure_transaction_database (se_database session) database with
    | Err e => (Err e, d)
    | Ok _ => let (r, d) := session_execute session statement d in (or_classified r, d)
    end
  | None => let (r, d) := pool_execute statement d in (or_classified r, d)
  end.

(** The loop, from the statement at [index]. *)
Fixpoint execute_changes (database : str) (n_inserts n_updates : Z) (index : Z) (statements : list str) (affected_rows : Z) : SQ Z :=
  match statements with
  | [] => mret affected_rows
  | statement :: statements =>
    rows ← execute_change database statement;
    if ((n_inserts <=? index) && (index <? n_inserts + n_updates) && (1 <? rows))%Z
    then st_lift (Err (system_internal (lit "更新影响了多行，已拒绝该结果")
                         (lit "SQLite table change set update must affect at most one row")))
    else execute_changes database n_inserts n_updates (index + 1) statements (affected_rows + rows)
  end.

Definition commit_table_change_set (container : ContainerRef) (change_set : TableChangeSetRequest) : SQ TableChangeSetCommitResult :=
  d ← st_get;
  preview ← st_lift (preview_table_change_set container change_set d);
  affected_rows ← execute_changes (container_database d container) (n_inserts (cs_summary preview)) (n_updates (cs_summary preview)) 0
                    (statements preview) 0;
  mret (mkTableChangeSetCommitResult affected_rows preview Applied).

Definition update_table_row (container : ContainerRef) (primary_key : list TableRowKeyPart) (changes : list TableCellChange) : SQ Z :=
  result ← commit_table_change_set container
             (mkTableChangeSetRequest [] [mkTableChangeSetUpdate (PrimaryKey primary_key) changes] []);
  mret (tr_affected_rows result).

Definition delete_table_rows (container : ContainerRef) (primary_keys : list (list TableRowKeyPart)) : SQ Z :=
  result ← commit_table_change_set container (mkTableChangeSetRequest [] [] (map PrimaryKey primary_keys));
  mret (tr_affected_rows result).

(** ** Transactions *)

Definition transaction_state_from_session (session : option SqliteTransactionSession) : TableTransactionState :=
  mkTableTransactionState (bool_decide (is_Some session)) (se_database <$> session).

(** [acquire] and [began] are what the pool and [BEGIN IMMEDIATE] answer: another process
    may hold the lock. *)
Definition begin_transaction (acquire began : option SqlError) (container : ContainerRef) : SQ TableTransactionState :=
  d ← st_get;
  _ ← st_lift (ensure_writable_profile d);
  _ ← st_lift (ensure_real_table_for_mutation (cr_kind container));
  let database := container_database d container in
  _ ← st_lift (ensure_transaction_database (sd_database_name d) database);
  columns ← st_lift (load_table_columns_meta container d);
  _ ← st_lift (ensure_sqlite_table_has_mutation_safe_primary_key columns);
  match sd_transaction d, acquire, began with
  | Some _, _, _ => st_lift (Err (system_internal (lit "当前标签页已有活动事务") (lit "transaction already active for this tab runtime")))
  | None, Some e, _ => st_lift (Err (system_internal (lit "开启 SQLite 事务失败：无法获取数据库连接") (error_text e)))
  | None, None, Some e => st_lift (Err (system_internal (lit "开启 SQLite 事务失败：数据库文件可能正被其他写入者占用") (error_text e)))
  | None, None, None =>
    let session := mkSqliteTransactionSession database (Some (sd_file d)) in
    _ ← st_modify (set_transaction (Some session));
    mret (transaction_state_from_session (Some session))
  end.

Definition no_active_transaction : IpcError :=
  system_internal (lit "当前标签页没有活动事务") (lit "no active transaction for this tab runtime").

(** [io] is an error of the file while the transaction is ended. *)
Definition commit_transaction (io : option SqlError) : SQ TableTransactionState := fun d =>
  match sd_transaction d with
  | None => (Err no_active_transaction, d)
  | Some session =>
    match se_working session with
    | None => (Err (classify_sqlx_query_error no_transaction), d)
    | Some c =>
      match io, commit_check c with
      | Some e, _ => (Err (classify_sqlx_query_error e), if rolls_back e then set_transaction (Some (mkSqliteTransactionSession (se_database session) None)) d else d)
      | None, Some e => (Err (classify_sqlx_query_error e), d)
      | None, None => (Ok (transaction_state_from_session None), set_transaction None (set_file c d))
      end
    end
  end.

Definition rollback_transaction (io : option SqlError) : SQ TableTransactionState := fun d =>
  match sd_transaction d with
  | None => (Err no_active_transaction, d)
  | Some session =>
    match se_working session, io with
    | None, _ => (Err (classify_sqlx_query_error no_transaction), d)
    | Some _, Some e => (Err (classify_sqlx_query_error e), if rolls_back e then set_transaction (Some (mkSqliteTransactionSession (se_database session) None)) d else d)
    | Some _, None => (Ok (transaction_state_from_session None), set_transaction None d)
    end
  end.

Definition transaction_state : SQ TableTransactionState := fun d => (Ok (transaction_state_from_session (sd_transaction d)), d).

(** [close]: the transaction is given up, whatever [ROLLBACK] answers; closing the
    connection ends it in any case. *)
Definition rollback_active_transaction : SQ unit := fun d => (Ok tt, set_transaction None d).

(** ** The SQL editor *)

Definition ensure_sql_editor_request (d : SqliteDriver) (context : SqlExecutionContext) (sql : str) : IpcResult unit :=
  if bool_decide (trim sql = []) then Err (validation_failed (lit "SQL cannot be empty"))
  else if negb (sql_is_single_statement sql) then Err (validation_failed (lit "SQL editor execution accepts one statement per IPC call"))
  else if match trim <$> sec_schema context with Some (_ :: _) => true | _ => false end then
    Err (validation_failed (lit "SQLite does not support schemas; use the file database context only"))
  else if match trim <$> sec_database context with Some (c :: s) => negb (str_eqb (c :: s) (sd_database_name d)) | _ => false end then
    Err (validation_failed (lit "SQLite SQL target does not match the connected database file"))
  else if sd_is_read_only d && negb (match leading_sql_keyword sql with
                                     | Some k => bool_decide (k ∈ map lit ["SELECT"; "VALUES"; "EXPLAIN"]%string)
                                     | None => false
                                     end) then
    Err (permission_denied (lit "SQLite connection is read-only; this SQL is not provably read-only"))
  else Ok tt.

Definition execute_sql (context : SqlExecutionContext) (sql : str) (page page_size : Z) : SQ QueryResult :=
  d ← st_get;
  _ ← st_lift (ensure_sql_editor_request d context sql);
  let sql := sqlite_trim_trailing_semicolon sql in
  if sql_should_fetch_rows sql then execute_sqlite_query_rows sql page page_size
  else
    rows ← (fun d => let (r, d) := pool_execute sql d in (or_classified r, d));
    mret (mkQueryResult [] [] (if sql_should_report_affected_rows sql then Some rows else None) false false false [] [] None).
End sqlite.

(** ** Sequences of operations *)

Section runs.
Context {J : JsonNumber} {E : SqliteEngine}.
Implicit Types (d : SqliteDriver) (c : Content).

(** The operations that can change the driver or the file. *)
Inductive SqliteOp :=
| DoChanges (container : ContainerRef) (change_set : TableChangeSetRequest)
| DoUpdateRow (container : ContainerRef) (primary_key : list TableRowKeyPart) (changes : list TableCellChange)
| DoDeleteRows (container : ContainerRef) (primary_keys : list (list TableRowKeyPart))
| DoBegin (acquire began : option SqlError) (container : ContainerRef)
| DoCommit (io : option SqlError)
| DoRollback (io : option SqlError)
| DoClose
| DoExecute (context : SqlExecutionContext) (sql : str) (page page_size : Z).

(** Whether it succeeded, and the driver afterwards. *)
Definition did {A} (r : IpcResult A * SqliteDriver) : bool * SqliteDriver := (is_ok r.1, r.2).

Definition do_op (op : SqliteOp) d : bool * SqliteDriver :=
  match op with
  | DoChanges container change_set => did (commit_table_change_set container change_set d)
  | DoUpdateRow container primary_key changes => did (update_table_row container primary_key changes d)
  | DoDeleteRows container primary_keys => did (delete_table_rows container primary_keys d)
  | DoBegin acquire began container => did (begin_transaction acquire began container d)
  | DoCommit io => did (commit_transaction io d)
  | DoRollback io => did (rollback_transaction io d)
  | DoClose => did (rollback_active_transaction d)
  | DoExecute context sql page page_size => did (execute_sql context sql page page_size d)
  end.

Definition do_ops (ops : list SqliteOp) d : SqliteDriver := fold_left (fun d op => (do_op op d).2) ops d.

(** Statements that succeed one after the other. *)
Fixpoint replay (statements : list str) c : option Content :=
  match statements with
  | [] => Some c
  | statement :: statements => match run_statement statement c with Ok (c, _) => replay statements c | Err _ => None end
  end.

Lemma replay_app s1 s2 c : replay (s1 ++ s2) c = replay s1 c ≫= replay s2.
Proof. revert c. induction s1 as [|s s1 IH]; intros c; [done|]. cbn. destruct (run_statement s c) as [[c' n]|]; [apply IH|done]. Qed.

(** A driver whose transaction is open, on the working content [c]. *)
Definition working_in database c d : Prop := sd_transaction d = Some (mkSqliteTransactionSession database (Some c)).
(** The transaction is over for SQLite, the session is not. *)
Definition lost database d : Prop := sd_transaction d = Some (mkSqliteTransactionSession database None).

(** The row changes that an operation asks for, and the statements of their preview. *)
Definition row_changes (op : SqliteOp) : option (ContainerRef * TableChangeSetRequest) :=
  match op with
  | DoChanges container change_set => Some (container, change_set)
  | DoUpdateRow container primary_key changes =>
    Some (container, mkTableChangeSetRequest [] [mkTableChangeSetUpdate (PrimaryKey primary_key) changes] [])
  | DoDeleteRows container primary_keys => Some (container, mkTableChangeSetRequest [] [] (map PrimaryKey primary_keys))
  | _ => None
  end.
Definition asks (op : SqliteOp) d : option (list str) :=
  '(container, change_set) ← row_changes op;
  match preview_table_change_set container change_set d with Ok preview => Some (statements preview) | Err _ => None end.

(** Why only the first statements [done] of a change set were run on [c], with the result
    [c']: the next one failed, or the last one affected more than one row, or the change
    set is for another database than the transaction. *)
Inductive stopped (database : str) (here : bool) (done rest : list str) c c' : Prop :=
| next_failed statement rest' e : rest = statement :: rest' -> run_statement statement c' = Err e -> rolls_back e = false ->
    stopped database here done rest c c'
| too_many_rows done' statement c0 n : done = done' ++ [statement] -> replay done' c = Some c0 ->
    run_statement statement c0 = Ok (c', n) -> (1 < n)%Z -> stopped database here done rest c c'
| elsewhere : here = false -> done = [] -> stopped database here done rest c c'.

(** Whether the row changes of an operation are for this database. *)
Definition is_here database op d : bool :=
  match row_changes op with Some (container, _) => str_eqb database (container_database d container) | None => true end.

(** The operations without statements that leave an open transaction open: a begin, which
    is refused; a commit or a rollback that is answered with an error, after which SQLite
    still has the transaction; a text of the SQL editor, which is run outside of it; and
    row changes that have no preview. *)
Definition leaves_open op c d : Prop :=
  match op with
  | DoBegin _ _ _ => (do_op op d).1 = false
  | DoCommit io =>
    (do_op op d).1 = false /\ ((exists e, io = Some e /\ rolls_back e = false) \/ (io = None /\ is_Some (commit_check c)))
  | DoRollback io => (do_op op d).1 = false /\ exists e, io = Some e /\ rolls_back e = false
  | DoClose => False
  | DoExecute _ _ _ _ => True
  | DoChanges _ _ | DoUpdateRow _ _ _ | DoDeleteRows _ _ => (do_op op d).1 = false
  end.

(** What an operation in the open transaction has run: all its statements when it
    succeeds, the first ones of them when it stops, none when it has none. *)
Inductive carried_out database op c d : list str -> Content -> Prop :=
| all_of_it ss c' : asks op d = Some ss -> (do_op op d).1 = true -> carried_out database op c d ss c'
| part_of_it ss rest c' : asks op d = Some (ss ++ rest) -> (do_op op d).1 = false ->
    stopped database (is_here database op d) ss rest c c' -> carried_out database op c d ss c'
| none_of_it : asks op d = None -> leaves_open op c d -> carried_out database op c d [] c.

(** Operations in an open transaction that all leave it open: the file is not touched, and
    the working content is the result of the statements [ss]. *)
Inductive stays_open database : list SqliteOp -> Content -> SqliteDriver -> list str -> Content -> Prop :=
| no_more c d : stays_open database [] c d [] c
| one_more op ops c d ss c1 ss' c' :
    carried_out database op c d ss c1 -> replay ss c = Some c1 ->
    working_in database c1 (do_op op d).2 -> sd_file (do_op op d).2 = sd_file d ->
    stays_open database ops c1 (do_op op d).2 ss' c' ->
    stays_open database (op :: ops) c d (ss ++ ss') c'.

(** How an operation on the open transaction [c] of [d] ended it, with the driver [d']. *)
Inductive ended_by op database c d d' : Prop :=
| committed : op = DoCommit None -> (do_op op d).1 = true -> commit_check c = None ->
    sd_file d' = c -> sd_transaction d' = None -> ended_by op database c d d'
| given_up : op = DoClose \/ op = DoRollback None -> (do_op op d).1 = true ->
    sd_file d' = sd_file d -> sd_transaction d' = None -> ended_by op database c d d'
| rolled_back e : rolls_back e = true ->
    op = DoCommit (Some e) \/ op = DoRollback (Some e)
    \/ (exists ss statement rest c', asks op d = Some (ss ++ statement :: rest) /\ replay ss c = Some c'
                                    /\ run_statement statement c' = Err e) ->
    (do_op op d).1 = false -> sd_file d' = sd_file d -> lost database d' -> ended_by op database c d d'.

(** What a loop over statements leaves of an open transaction. *)
Inductive loop_left database here statements c d (ok : bool) d' : Prop :=
| ran_all c' : ok = true -> replay statements c = Some c' -> working_in database c' d' -> sd_file d' = sd_file d ->
    loop_left database here statements c d ok d'
| ran_part ss rest c' : ok = false -> statements = ss ++ rest -> replay ss c = Some c' -> stopped database here ss rest c c' ->
    working_in database c' d' -> sd_file d' = sd_file d -> loop_left database here statements c d ok d'
| was_lost ss statement rest c' e : ok = false -> statements = ss ++ statement :: rest -> replay ss c = Some c' ->
    run_statement statement c' = Err e -> rolls_back e = true -> lost database d' -> sd_file d' = sd_file d ->
    loop_left database here statements c d ok d'.

Lemma loop_left_cons database here s statements c c1 n d d1 ok d' :
  run_statement s c = Ok (c1, n) -> here = true -> sd_file d1 = sd_file d ->
  loop_left database here statements c1 d1 ok d' -> loop_left database here (s :: statements) c d ok d'.
Proof.
  intros Hs Hh Hf [c' Hok Hr Hw Hf'|ss rest c' Hok -> Hr Hst Hw Hf'|ss s' rest c' e Hok -> Hr He Hb Hl Hf'].
  - eapply ran_all; [done| |done|congruence]. cbn. by rewrite Hs.
  - eapply (ran_part _ _ _ _ _ _ _ (s :: ss)); [done|done| | |exact Hw|congruence]; [cbn; by rewrite Hs|].
    destruct Hst as [s' rest' e -> He Hb|done' s' c0 n' -> Hr0 Hs' Hn|Hh' _].
    + by eapply next_failed.
    + eapply (too_many_rows _ _ _ _ _ _ (s :: done')); [done| |done|done]. cbn. by rewrite Hs.
    + congruence.
  - eapply (was_lost _ _ _ _ _ _ _ (s :: ss)); [done|done| |done|done|done|congruence]. cbn. by rewrite Hs.
Qed.

Lemma execute_changes_open database ni nu index statements affected db c d r d' :
  working_in db c d -> execute_changes database ni nu index statements affected d = (r, d') ->
  loop_left db (str_eqb db database) statements c d (is_ok r) d'.
Proof.
  revert index affected c d. induction statements as [|s statements IH]; intros index affected c d Hw H; cbn [execute_changes] in H.
  { injection H as <- <-. by eapply ran_all. }
  unfold mbind, ST_bind in H. unfold execute_change, ensure_transaction_database in H. rewrite Hw in H. cbn [se_database] in H.
  destruct (str_eqb db database) eqn:Ehere.
  2: { injection H as <- <-. eapply (ran_part _ _ _ _ _ _ _ [] (s :: statements)); try done. by apply elsewhere. }
  unfold session_execute in H. cbn [se_working se_database] in H. destruct (run_statement s c) as [[c1 n]|e] eqn:Er.
  - cbn in H. destruct (_ && _ && _) eqn:Em.
    + injection H as <- <-. eapply (ran_part _ _ _ _ _ _ _ [s] statements c1); try done; [cbn; by rewrite Er|].
      eapply (too_many_rows _ _ _ _ _ _ [] s c n); try done. apply andb_true_iff in Em as [_ Em]. lia.
    + eapply loop_left_cons; [exact Er|done| |eapply IH; [|exact H]; done]. done.
  - destruct (rolls_back e) eqn:Eb; injection H as <- <-.
    + by eapply (was_lost _ _ _ _ _ _ _ [] s statements c e).
    + eapply (ran_part _ _ _ _ _ _ _ [] (s :: statements) c); try done. by eapply next_failed.
Qed.

Context (is_write_sound : forall sql c c' n, is_write sql = false -> run_statement sql c = Ok (c', n) -> c' = c).
Context (is_write_fetch : forall sql c c' rows, is_write sql = false -> run_fetch sql c = Ok (c', rows) -> c' = c).

Lemma set_file_same d : set_file (sd_file d) d = d.
Proof. by destruct d. Qed.

Lemma execute_sql_locked context sql page page_size db c d : working_in db c d -> (execute_sql context sql page page_size d).2 = d.
Proof.
  intros Hw. unfold execute_sql, mbind, ST_bind, st_get, st_lift. destruct (ensure_sql_editor_request d context sql); [|done].
  assert (Hl : locked d = true) by (unfold locked; by rewrite Hw).
  destruct (sql_should_fetch_rows _).
  - unfold execute_sqlite_query_rows, mbind, ST_bind, st_get, st_lift, pool_fetch. rewrite Hl. cbn [andb].
    destruct (is_write _) eqn:Ew; [done|]. destruct (run_fetch _ _) as [[c' rows]|] eqn:Er; [|done]. cbn.
    rewrite (is_write_fetch _ _ _ _ Ew Er), set_file_same. done.
  - unfold pool_execute. rewrite Hl. cbn [andb]. destruct (is_write _) eqn:Ew; [done|].
    destruct (run_statement _ _) as [[c' rows]|] eqn:Er; [|done]. cbn. by rewrite (is_write_sound _ _ _ _ Ew Er), set_file_same.
Qed.

(** An operation with row changes runs the loop over the statements of their preview. *)
Lemma row_changes_open op container change_set database c d : row_changes op = Some (container, change_set) -> working_in database c d ->
  match asks op d with
  | Some ss => loop_left database (is_here database op d) ss c d (do_op op d).1 (do_op op d).2
  | None => do_op op d = (false, d)
  end.
Proof.
  intros Hop Hw. assert (Hdo : do_op op d = did (commit_table_change_set container change_set d)).
  { destruct op; try discriminate Hop; injection Hop as <- <-; cbn; [done| |];
      unfold did, update_table_row, delete_table_rows, mbind, ST_bind; by destruct (commit_table_change_set _ _ d) as [[]]. }
  rewrite Hdo. unfold asks, is_here. rewrite Hop. cbn.
  unfold commit_table_change_set, mbind, ST_bind, st_get, st_lift. destruct (preview_table_change_set container change_set d) as [p|e]; [|done].
  destruct (execute_changes _ _ _ _ _ _ d) as [re d1] eqn:Ee. apply (execute_changes_open _ _ _ _ _ _ _ _ _ _ _ Hw) in Ee.
  by destruct re.
Qed.

(** An operation on an open transaction either leaves it open or ends it. *)
Lemma op_open op database c d : working_in database c d ->
  (exists ss c1, carried_out database op c d ss c1 /\ replay ss c = Some c1 /\ working_in database c1 (do_op op d).2
                 /\ sd_file (do_op op d).2 = sd_file d)
  \/ ended_by op database c d (do_op op d).2.
Proof.
  intros Hw. destruct (row_changes op) as [[container change_set]|] eqn:Eop.
  { pose proof (row_changes_open _ _ _ _ _ _ Eop Hw) as H. destruct (asks op d) as [ss|] eqn:Ea.
    - destruct H as [c' Hok Hr Hw' Hf|ss1 rest c' Hok -> Hr Hst Hw' Hf|ss1 s rest c' e Hok -> Hr He Hb Hl Hf].
      + left. exists ss, c'. split_and!; try done. by apply all_of_it.
      + left. exists ss1, c'. split_and!; try done. by eapply part_of_it.
      + right. eapply rolled_back; [exact Hb| |done|done|done]. right; right. by exists ss1, s, rest, c'.
    - left. exists [], c. rewrite H. split_and!; try done. apply none_of_it; [done|]. destruct op; try discriminate Eop; cbn [leaves_open]; by rewrite H. }
  assert (Hopen : leaves_open op c d -> (do_op op d).2 = d -> exists ss c1, carried_out database op c d ss c1 /\ replay ss c = Some c1
    /\ working_in database c1 (do_op op d).2 /\ sd_file (do_op op d).2 = sd_file d).
  { intros Hl ->. exists [], c. split_and!; try done. apply none_of_it; [|done]. unfold asks. by rewrite Eop. }
  destruct op as [| | |acq beg container|io|io| |ctx sql page size]; try discriminate Eop.
  - left. apply Hopen; cbn; unfold begin_transaction, mbind, ST_bind, st_get, st_lift; unfold working_in in Hw; rewrite Hw;
      repeat (case_match; [|done]); done.
  - cbn in Hopen |- *. unfold commit_transaction in *. rewrite Hw in *. cbn [se_working se_database] in *. destruct io as [e|].
    + destruct (rolls_back e) eqn:Er.
      * right. eapply rolled_back; [exact Er|by left| | |]; cbn; try done. unfold commit_transaction. by rewrite Hw.
      * left. apply Hopen; [|done]. split; [done|]. left. by exists e.
    + destruct (commit_check c) as [e|] eqn:Ec.
      * left. apply Hopen; [|done]. split; [done|]. right. by split; [|exists e].
      * right. apply committed; try done. cbn. unfold commit_transaction. rewrite Hw. cbn. by rewrite Ec.
  - cbn in Hopen |- *. unfold rollback_transaction in *. rewrite Hw in *. cbn [se_working se_database] in *. destruct io as [e|].
    + destruct (rolls_back e) eqn:Er.
      * right. eapply rolled_back; [exact Er|by right; left| | |]; cbn; try done. unfold rollback_transaction. by rewrite Hw.
      * left. apply Hopen; [|done]. split; [done|]. by exists e.
    + right. apply given_up; try done; [by right|]. cbn. unfold rollback_transaction. by rewrite Hw.
  - right. apply given_up; try done. by left.
  - left. apply Hopen; [done|]. by eapply execute_sql_locked.
Qed.

Lemma stays_open_facts database ops c d ss c' : working_in database c d -> stays_open database ops c d ss c' ->
  replay ss c = Some c' /\ working_in database c' (do_ops ops d) /\ sd_file (do_ops ops d) = sd_file d.
Proof.
  intros Hw H. induction H as [|op ops c d ss c1 ss' c' _ Hr Hw1 Hf _ IH]; [done|]. cbn [do_ops fold_left].
  destruct (IH Hw1) as (Hr' & Hw' & Hf'). rewrite replay_app, Hr. split; [done|]. split; [done|]. unfold do_ops in Hf'. congruence.
Qed.

(** C34: What is done in a transaction reaches the file all at once or not at all. Take any
    sequence of operations on a driver whose transaction is open. The operations before the
    one that ends it leave the file as it was, and the working content is the result of the
    statements of their row changes, in order: all the statements of the preview of a
    change set, update or deletion that succeeded, and only the first ones of one that
    stopped at a failing statement or at one that affected several rows. A begin, a commit
    and a rollback that leave the transaction open have answered with an error. The one
    that ends it is a commit, after which the file is exactly that working content; or a
    rollback or the closing of the driver, after which the file is as it was; in these
    cases the session is gone. Or it is an operation that answers with an error after
    which SQLite itself has rolled back, and the file is as it was. *)
Theorem transaction_is_all_or_nothing ops database c d :
  working_in database c d ->
  exists before after ss c1, ops = before ++ after /\ stays_open database before c d ss c1
    /\ replay ss c = Some c1 /\ working_in database c1 (do_ops before d) /\ sd_file (do_ops before d) = sd_file d
    /\ (after = [] \/ exists op after', after = op :: after' /\ ended_by op database c1 (do_ops before d) (do_ops (before ++ [op]) d)).
Proof.
  intros Hw. cut (exists before after ss c1, ops = before ++ after /\ stays_open database before c d ss c1
    /\ (after = [] \/ exists op after', after = op :: after' /\ ended_by op database c1 (do_ops before d) (do_ops (before ++ [op]) d))).
  { intros (before & after & ss & c1 & -> & Hs & He). destruct (stays_open_facts _ _ _ _ _ _ Hw Hs) as (H1 & H2 & H3).
    by exists before, after, ss, c1. }
  revert c d Hw. induction ops as [|op ops IH]; intros c d Hw.
  { exists [], [], [], c. split; [done|]. split; [constructor|by left]. }
  destruct (op_open op database c d Hw) as [(ss & c1 & Hc & Hr & Hw1 & Hf)|He].
  - destruct (IH _ _ Hw1) as (before & after & ss' & c2 & -> & Hs & He). exists (op :: before), after, (ss ++ ss'), c2.
    split; [done|]. split; [by econstructor|exact He].
  - exists [], (op :: ops), [], c. split; [done|]. split; [constructor|]. right. by exists op, ops.
Qed.
End runs.

(** ** A set of changes, statement by statement *)

#[export] Instance sqlite_quoting : IdentifierQuoting sqlite_quote_identifier (unquote c_dquote).
Proof. split; intros s; [apply undouble_replace|apply piece_dquoted]. Qed.

Section changes.
Context {J : JsonNumber} {E : SqliteEngine}.
Implicit Types (d : SqliteDriver) (c : Content).

(** The content that the tab sees and writes. *)
Definition tab_content d : Content := match sd_transaction d with Some session => session_content session d | None => sd_file d end.

(** Statements run one after the other, with the rows each affected. *)
Fixpoint replay_rows (statements : list str) c : option (Content * list Z) :=
  match statements with
  | [] => Some (c, [])
  | statement :: statements =>
    match run_statement statement c with
    | Ok (c, rows) => '(c, l) ← replay_rows statements c; Some (c, rows :: l)
    | Err _ => None
    end
  end.

Lemma execute_change_Ok database statement d rows d' : execute_change database statement d = (Ok rows, d') ->
  run_statement statement (tab_content d) = Ok (tab_content d', rows)
  /\ (sd_transaction d = None <-> sd_transaction d' = None).
Proof.
  unfold execute_change, tab_content. intros H. destruct (sd_transaction d) as [s|] eqn:Et.
  - destruct (ensure_transaction_database _ _); [|done]. unfold session_execute, session_content in *. destruct s as [db [c|]]; cbn in *.
    + destruct (run_statement statement c) as [[c' n]|e]; [|by destruct (rolls_back e)]. injection H as <- <-. cbn. done.
    + destruct (run_statement statement (sd_file d)) as [[c' n]|e]; [|done]. injection H as <- <-. cbn. rewrite Et. done.
  - unfold pool_execute, locked in H. rewrite Et in H. cbn in H. destruct (run_statement statement (sd_file d)) as [[c' n]|e]; [|done].
    injection H as <- <-. cbn. by rewrite Et.
Qed.

Lemma execute_changes_Ok database ni nu index statements affected d total d' :
  execute_changes database ni nu index statements affected d = (Ok total, d') ->
  exists rows, replay_rows statements (tab_content d) = Some (tab_content d', rows)
    /\ total = (affected + foldr Z.add 0 rows)%Z
    /\ forall i n, rows !! i = Some n -> (ni <= index + Z.of_nat i < ni + nu)%Z -> (n <= 1)%Z.
Proof.
  revert index affected d. induction statements as [|s statements IH]; intros index affected d H; cbn [execute_changes] in H.
  { injection H as <- <-. exists []. cbn. split; [done|]. split; [lia|]. intros i n Hi. by rewrite lookup_nil in Hi. }
  unfold mbind, ST_bind in H. destruct (execute_change database s d) as [[rows|e] d1] eqn:Ec; [|done].
  destruct ((ni <=? index)%Z && (index <? ni + nu)%Z && (1 <? rows)%Z) eqn:Eg; [done|].
  apply IH in H as (l & Hr & -> & Hl). apply execute_change_Ok in Ec as [Es _]. exists (rows :: l). cbn. rewrite Es, Hr. cbn.
  split; [done|]. split; [lia|]. intros [|i] n Hi Hidx; cbn in Hi.
  - injection Hi as <-. destruct (Z.leb_spec ni index), (Z.ltb_spec index (ni + nu)), (Z.ltb_spec 1 rows); try done; lia.
  - apply (Hl i n Hi). lia.
Qed.

(** A set of row changes does exactly what its preview says. When it succeeds, the
    statements of the preview were all run, in order, on what the tab sees (the working
    content of its transaction, or the file); the number of rows it reports is the sum of
    what they affected; and no update affected more than one row. *)
Theorem change_set_runs_its_preview container change_set d result d' :
  commit_table_change_set container change_set d = (Ok result, d') ->
  preview_table_change_set container change_set d = Ok (tr_preview result) /\ tr_outcome result = Applied
  /\ exists rows, replay_rows (statements (tr_preview result)) (tab_content d) = Some (tab_content d', rows)
     /\ tr_affected_rows result = foldr Z.add 0%Z rows
     /\ (forall i n, rows !! i = Some n ->
         (n_inserts (cs_summary (tr_preview result)) <= Z.of_nat i < n_inserts (cs_summary (tr_preview result)) + n_updates (cs_summary (tr_preview result)))%Z ->
         (n <= 1)%Z).
Proof.
  unfold commit_table_change_set, mbind, ST_bind, st_get, st_lift. intros H.
  destruct (preview_table_change_set container change_set d) as [p|e]; [|done].
  destruct (execute_changes _ _ _ _ _ _ d) as [[total|e] d1] eqn:Ee; [|done]. injection H as <- <-. cbn. split; [done|]. split; [done|].
  apply execute_changes_Ok in Ee as (rows & Hr & -> & Hl). exists rows. split; [done|]. split; [lia|]. intros i n Hi Hidx. by apply (Hl i n Hi).
Qed.
End changes.

(** ** A read-only connection *)

Section read_only.
Context {J : JsonNumber} {E : SqliteEngine}.
Implicit Types (d : SqliteDriver).

(** SQLite runs a query, a list of values and an explanation without changing the file.
    This is about one statement, as SQLite reads the text: nothing is said of a text with a
    second one. *)
Definition read_words : list string := ["SELECT"; "VALUES"; "EXPLAIN"]%string.
Context (reads_keep : forall sql c c' n,
  one_statement sql -> begins_with read_words sql -> run_statement sql c = Ok (c', n) -> c' = c).
Context (fetches_keep : forall sql c c' rows,
  one_statement sql -> begins_with read_words sql -> run_fetch sql c = Ok (c', rows) -> c' = c).

(** The texts that the driver is given to run have only characters that the scanner of the
    guard and SQLite read alike. *)
Definition plain_op (op : SqliteOp) : Prop :=
  match op with DoExecute _ sql _ _ => Forall read_alike sql | _ => True end.

Lemma read_only_op op d : plain_op op -> sd_is_read_only d = true -> sd_transaction d = None -> (do_op op d).2 = d.
Proof.
  intros Hplain Hro Hno. assert (Hch : forall container cs, (commit_table_change_set container cs d).2 = d).
  { intros container cs. unfold commit_table_change_set, preview_table_change_set, ensure_writable_profile, mbind, ST_bind, st_get, st_lift.
    by rewrite Hro. }
  destruct op as [container cs|container pk ch|container pks|acq beg container|io|io| |ctx sql page size]; cbn.
  - apply Hch.
  - unfold update_table_row, mbind, ST_bind. specialize (Hch container (mkTableChangeSetRequest [] [mkTableChangeSetUpdate (PrimaryKey pk) ch] [])).
    by destruct (commit_table_change_set _ _ d) as [[]].
  - unfold delete_table_rows, mbind, ST_bind. specialize (Hch container (mkTableChangeSetRequest [] [] (map PrimaryKey pks))).
    by destruct (commit_table_change_set _ _ d) as [[]].
  - unfold begin_transaction, ensure_writable_profile, mbind, ST_bind, st_get, st_lift. by rewrite Hro.
  - unfold commit_transaction. by rewrite Hno.
  - unfold rollback_transaction. by rewrite Hno.
  - destruct d; cbn in *. by subst.
  - unfold execute_sql, mbind, ST_bind, st_get, st_lift. destruct (ensure_sql_editor_request d ctx sql) as [u|e] eqn:Eg; [|done].
    assert (Hr : one_statement (sqlite_trim_trailing_semicolon sql) /\ begins_with read_words (sqlite_trim_trailing_semicolon sql)).
    { unfold ensure_sql_editor_request in Eg. case_match; [done|]. destruct (sql_is_single_statement sql) eqn:Es; [|done]. cbn in Eg.
      split; [by apply accepted_one_statement|]. do 2 (case_match; [done|]). rewrite Hro in Eg.
      destruct (leading_sql_keyword sql) as [k|] eqn:Ek; [|done]. apply (accepted_begins _ _ k); [done|done|].
      destruct (bool_decide (k ∈ _)) eqn:Eb in Eg; [|done]. by apply bool_decide_eq_true in Eb. }
    destruct Hr as [H1 H2].
    destruct (sql_should_fetch_rows _).
    + unfold execute_sqlite_query_rows, mbind, ST_bind, st_get, st_lift, pool_fetch. destruct (locked d && _); [done|].
      destruct (run_fetch _ _) as [[c' rows]|] eqn:Er; [|done]. cbn. by rewrite (fetches_keep _ _ _ _ H1 H2 Er), set_file_same.
    + unfold pool_execute. destruct (locked d && _); [done|]. destruct (run_statement _ _) as [[c' rows]|] eqn:Er; [|done]. cbn.
      by rewrite (reads_keep _ _ _ _ H1 H2 Er), set_file_same.
Qed.

(** C35: A read-only connection never changes the file. SQLite is taken to leave the file
    alone when it runs one statement (by its own lexical rules) that begins with SELECT,
    VALUES or EXPLAIN; nothing is assumed of a text with a second statement. Then no
    sequence of operations on a driver that was connected read-only changes anything: no
    change set is run, no transaction is begun, and what is run for the SQL editor is
    always one such statement. The texts are those without a backslash, dollar sign, number
    sign or opening bracket, which the shared scanner and SQLite read differently. *)
Theorem read_only_connection_never_writes ops d :
  Forall plain_op ops -> sd_is_read_only d = true -> sd_transaction d = None -> do_ops ops d = d.
Proof.
  intros Hops Hro Hno. induction Hops as [|op ops Hop _ IH]; [done|]. cbn [do_ops fold_left]. by rewrite read_only_op.
Qed.
End read_only.

(** ** Pages of a query *)

Section pages.
Context {J : JsonNumber} {E : SqliteEngine}.

Lemma stream_rows_spec skip room stream : stream_rows skip room stream = take room (drop skip stream).
Proof.
  revert skip room. induction stream as [|row stream IH]; intros skip room; cbn; [by rewrite drop_nil, take_nil|].
  destruct skip; cbn; [|apply IH]. destruct room; cbn; [done|]. by rewrite IH, drop_0.
Qed.

(** A page of a query is the page of its rows. For a page from one up and a page size,
    when reading the result succeeds its rows are the values of the rows of the statement
    from the offset on, at most as many as the page has, and it says that there is a next
    page exactly when the statement has more rows. *)
Theorem query_page_spec stream described page page_size result :
  (1 <= page)%Z -> (1 <= page_size)%Z -> page_of_stream stream described page page_size = Ok result ->
  try_map (row_values (qr_columns result)) (take (Z.to_nat page_size) (drop (Z.to_nat ((page - 1) * page_size)) stream)) = Ok (qr_rows result)
  /\ qr_has_next_page result = bool_decide (page * page_size < Z.of_nat (length stream))%Z
  /\ qr_source_writable result = false.
Proof.
  intros Hp Hs H. unfold page_of_stream, sqlite_rows_to_query_result in H. bind_inv. subst result.
  cbn [qr_columns qr_rows qr_has_next_page qr_source_writable]. rewrite (Z.max_l (page - 1) 0), (Z.max_l page_size 1) in * by lia. rewrite (Z.max_l page_size 1) in * by lia.
  rewrite stream_rows_spec in *. split; [|split; [|done]].
  - match goal with HT : try_map _ (take _ (take _ _)) = Ok ?a |- _ => rename HT into Ht end. rewrite take_take in Ht.
    by replace (Z.to_nat page_size `min` (Z.to_nat page_size + 1)) with (Z.to_nat page_size) in Ht by lia.
  - rewrite length_take, length_drop. apply eq_true_iff_eq. rewrite Nat.ltb_lt, bool_decide_eq_true.
    assert (0 <= (page - 1) * page_size)%Z by (apply Z.mul_nonneg_nonneg; lia). lia.
Qed.
End pages.

(** ** Concrete drivers *)

Inductive DemoError := DemoBusy | DemoNoTransaction | DemoNull | DemoFull.

(** A file that is the list of the statements that wrote it.  A statement that mentions
    [FULL] finds the disk full, after which SQLite has rolled back; one that begins with
    SELECT changes nothing. *)
Definition demo_run (sql : str) (c : list str) : Result DemoError (list str * Z) :=
  if str_contains (lit "FULL") sql then Err DemoFull
  else if starts_with (lit "SELECT") sql then Ok (c, 0%Z) else Ok (c ++ [sql], 1%Z).

Definition demo_engine (expression_index : bool) : SqliteEngine (J := IntegerNumber) := {|
  Content := list str;
  SqlError := DemoError;
  classify_sqlx_query_error e := validation_failed (lit "sql");
  error_text _ := [];
  run_statement := demo_run;
  run_fetch sql c := match demo_run sql c with Ok (c', _) => Ok (c', []) | Err e => Err e end;
  run_query _ _ _ := Ok [];
  describe _ _ := Ok [];
  index_list _ _ := Ok (if expression_index then [mkIndexListRow (lit "u") 1] else []);
  index_info _ _ := Ok [None];
  table_xinfo _ _ := Ok [mkTableInfoRow (lit "id") (lit "INTEGER") 0 None 1 0; mkTableInfoRow (lit "name") (lit "TEXT") 0 None 0 0];
  is_write sql := negb (starts_with (lit "SELECT") sql);
  busy := DemoBusy;
  no_transaction := DemoNoTransaction;
  unexpected_null := DemoNull;
  rolls_back e := match e with DemoFull => true | _ => false end;
  commit_check _ := None;
  number_of_i64 n := n : @Number IntegerNumber;
  number_of_f64 _ := None;
|}.

Definition users : ContainerRef := mkContainerRef Table None None None (Some (lit "users")) None None None None None.
Definition insert_name (name : string) : TableChangeSetRequest (J := IntegerNumber) :=
  mkTableChangeSetRequest [mkTableChangeSetInsert [mkTableCellChange (lit "name") (VString (lit name))]] [] [].
Definition fresh_driver (read_only : bool) : SqliteDriver (E := demo_engine false) :=
  mkSqliteDriver (E := demo_engine false) (lit "p") (lit "app.db") read_only ([] : list str) None.
Definition inserted (name : string) : str := lit "INSERT INTO " ++ sqlite_quote_identifier (lit "users") ++ lit " ("
  ++ sqlite_quote_identifier (lit "name") ++ lit ") VALUES ('" ++ lit name ++ lit "')".

Definition opened : SqliteDriver := (do_op (E := demo_engine false) (DoBegin (E := demo_engine false) None None users) (fresh_driver false)).2.
Definition two_inserts : list (SqliteOp (E := demo_engine false)) :=
  [DoChanges (E := demo_engine false) users (insert_name "Ada"); DoCommit (E := demo_engine false) None].

Lemma transaction_is_all_or_nothing_witness :
  sd_file (do_ops two_inserts opened) = [inserted "Ada"]
  /\ exists before after ss c1, two_inserts = before ++ after
     /\ stays_open (E := demo_engine false) (lit "app.db") before ([] : list str) opened ss c1
     /\ (after = [] \/ exists op after', after = op :: after'
         /\ ended_by (E := demo_engine false) op (lit "app.db") c1 (do_ops before opened) (do_ops (before ++ [op]) opened)).
Proof.
  split; [vm_compute; reflexivity|].
  assert (H1 : forall sql (c c' : list str) n, negb (starts_with (lit "SELECT") sql) = false -> demo_run sql c = Ok (c', n) -> c' = c).
  { unfold demo_run. intros sql c c' n H1%negb_false_iff H2. rewrite H1 in H2. destruct (str_contains _ sql); congruence. }
  assert (H2 : forall sql (c c' : list str) (rows : list (SqliteRow (J := IntegerNumber))), negb (starts_with (lit "SELECT") sql) = false ->
    match demo_run sql c with Ok (c', _) => Ok (c', []) | Err e => Err e end = Ok (c', rows) -> c' = c).
  { intros sql c c' rows H H2. destruct (demo_run sql c) as [[c2 n]|] eqn:Er; [|discriminate H2]. injection H2 as <- _. by eapply H1. }
  assert (Hw : working_in (E := demo_engine false) (lit "app.db") ([] : list str) opened) by reflexivity.
  destruct (transaction_is_all_or_nothing (E := demo_engine false) H1 H2 two_inserts (lit "app.db") ([] : list str) opened Hw)
    as (before & after & ss & c1 & H3 & H4 & _ & _ & _ & H5).
  exists before, after, ss, c1. exact (conj H3 (conj H4 H5)).
Defined.

Lemma change_set_runs_its_preview_witness :
  exists result d', commit_table_change_set (E := demo_engine false) users (insert_name "Ada") (fresh_driver false) = (Ok result, d')
    /\ sd_file d' = [inserted "Ada"] /\ tr_affected_rows result = 1%Z.
Proof.
  destruct (commit_table_change_set (E := demo_engine false) users (insert_name "Ada") (fresh_driver false)) as [r d'] eqn:Ec.
  assert (H : (match (commit_table_change_set (E := demo_engine false) users (insert_name "Ada") (fresh_driver false)).1 with
    Ok result => Some (tr_affected_rows result) | Err _ => None end, sd_file (commit_table_change_set (E := demo_engine false) users (insert_name "Ada") (fresh_driver false)).2)
    = (Some 1%Z, [inserted "Ada"])) by (vm_compute; reflexivity).
  rewrite Ec in H. destruct r as [result|]; [|discriminate H]. exists result, d'. split; [done|].
  destruct (change_set_runs_its_preview (E := demo_engine false) users (insert_name "Ada") (fresh_driver false) result d' Ec)
    as (_ & _ & rows & _ & Hsum & _). cbn [fst snd] in H. by injection H as -> ->.
Defined.

(** A file that is the list of the texts that changed it: those with a second statement
    after plain text, and those with none of the words that only read. *)
Definition changes_file (sql : str) : bool :=
  match split_at_first [c_semi] sql with Some (a, b) => forallb (fun c => plain_char c && negb (c =? c_lbracket)%Z) a && has_sql_after_comments b | None => false end
  || negb (existsb (fun word => str_contains (lit word) (str_upper sql)) read_words).
Definition reader_run (sql : str) (c : list str) : list str := if changes_file sql then c ++ [sql] else c.

Definition reader_engine : SqliteEngine (J := IntegerNumber) := {|
  Content := list str;
  SqlError := DemoError;
  classify_sqlx_query_error e := validation_failed (lit "sql");
  error_text _ := [];
  run_statement sql c := Ok (reader_run sql c, 0%Z);
  run_fetch sql c := Ok (reader_run sql c, []);
  run_query _ _ _ := Ok [];
  describe _ _ := Ok [];
  index_list _ _ := Ok [];
  index_info _ _ := Ok [];
  table_xinfo _ _ := Ok [];
  is_write := changes_file;
  busy := DemoBusy;
  no_transaction := DemoNoTransaction;
  unexpected_null := DemoNull;
  rolls_back _ := false;
  commit_check _ := None;
  number_of_i64 n := n : @Number IntegerNumber;
  number_of_f64 _ := None;
|}.

Lemma plain_terminated a b : forallb (fun c => plain_char c && negb (c =? c_lbracket)%Z) a = true -> terminated (a ++ c_semi :: b) b.
Proof.
  induction a as [|c a IH]; [constructor|]. cbn [forallb app]. intros [[Hc Hl]%andb_true_iff Ha]%andb_true_iff.
  apply terminated_plain; [| |by apply IH].
  - intros Hin. apply list_elem_of_In in Hin as [<-|[<-|[<-|[<-|[<-|[]]]]]]; done.
  - unfold comment_start, starts_with. cbn [strip_prefix]. destruct (Z.eqb_spec c_minus c) as [<-|]; [done|].
    destruct (Z.eqb_spec c_slash c) as [<-|]; done.
Qed.

Lemma reader_keeps sql c : one_statement sql -> begins_with read_words sql -> reader_run sql c = c.
Proof.
  intros H1 (lead & word & rest & Hsql & _ & Hw & _). unfold reader_run. replace (changes_file sql) with false; [done|]. symmetry.
  apply orb_false_iff. split.
  - destruct (split_at_first [c_semi] sql) as [[a b]|] eqn:Es; [|done]. destruct (forallb _ a) eqn:Ea; [|done]. cbn.
    apply has_sql_complete, H1. rewrite (split_at_first_app _ _ _ _ Es). by apply plain_terminated.
  - apply negb_false_iff, existsb_exists. apply list_elem_of_In, in_map_iff in Hw as (w & Hw & Hin). exists w. split; [done|].
    rewrite Hsql. unfold str_upper. rewrite !map_app. fold (str_upper word). rewrite <-Hw. apply contains_middle.
Qed.

Definition readers_driver : SqliteDriver (E := reader_engine) :=
  mkSqliteDriver (E := reader_engine) (lit "p") (lit "app.db") true ([] : list str) None.
Definition readers_ops : list (SqliteOp (E := reader_engine)) :=
  [DoBegin (E := reader_engine) None None users;
   DoExecute (E := reader_engine) (mkSqlExecutionContext None None) (lit "select 'a;b' ; -- all") 1 10;
   DoExecute (E := reader_engine) (mkSqlExecutionContext None None) (lit "SELECT 1; DROP TABLE t") 1 10;
   DoExecute (E := reader_engine) (mkSqlExecutionContext None None) (lit "DROP TABLE t") 1 10].

(** Both of the last texts would change this file. *)
Lemma read_only_connection_never_writes_witness :
  reader_run (lit "SELECT 1; DROP TABLE t") [] = [lit "SELECT 1; DROP TABLE t"] /\ reader_run (lit "DROP TABLE t") [] = [lit "DROP TABLE t"]
  /\ do_ops readers_ops readers_driver = readers_driver.
Proof.
  split; [vm_compute; reflexivity|]. split; [vm_compute; reflexivity|]. apply (read_only_connection_never_writes (E := reader_engine)).
  - intros sql c c' n H1 H2 [= <- _]. exact (reader_keeps sql c H1 H2).
  - intros sql c c' rows H1 H2 [= <- _]. exact (reader_keeps sql c H1 H2).
  - constructor; [exact I|]. do 3 (constructor; [cbn [plain_op]; unfold read_alike; apply (bool_decide_unpack _); vm_compute; exact I|]).
    constructor.
  - reflexivity.
  - reflexivity.
Defined.

Lemma query_page_spec_witness :
  exists result, page_of_stream (E := reader_engine) (repeat (mkSqliteRow [] []) 3) (Ok []) 2 2 = Ok result
    /\ qr_has_next_page result = false /\ length (qr_rows result) = 1.
Proof.
  assert (H : match page_of_stream (E := reader_engine) (repeat (mkSqliteRow [] []) 3) (Ok []) 2 2 with Ok r => length (qr_rows r) | Err _ => 0 end = 1)
    by (vm_compute; reflexivity).
  destruct (page_of_stream (E := reader_engine) (repeat (mkSqliteRow [] []) 3) (Ok []) 2 2) as [result|] eqn:Ep; [|discriminate H].
  exists result. split; [reflexivity|].
  pose proof (query_page_spec (E := reader_engine) _ _ 2 2 result ltac:(lia) ltac:(lia) Ep) as (_ & H2 & _). exact (conj H2 H).
Defined.

(** ** Where the code departs from what it means to do *)

(** Whether an operation succeeded, whether the tab says it is in a transaction, and the
    file. *)
Definition seen (r : bool * SqliteDriver (E := demo_engine false)) : bool * bool * list str :=
  (r.1, match (transaction_state (E := demo_engine false) r.2).1 with Ok state => in_transaction state | Err _ => false end, sd_file r.2).

(** A transaction that SQLite has rolled back is still the transaction of the tab: the
    state says so, the next set of changes is written to the file at once, and neither
    committing nor rolling back can end the session any more. *)
Theorem lost_transaction_writes_through :
  let full := do_op (E := demo_engine false) (DoChanges (E := demo_engine false) users (insert_name "FULL")) opened in
  let ada := do_op (E := demo_engine false) (DoChanges (E := demo_engine false) users (insert_name "Ada")) full.2 in
  seen full = (false, true, []) /\ seen ada = (true, true, [inserted "Ada"])
  /\ seen (do_op (E := demo_engine false) (DoRollback (E := demo_engine false) None) ada.2) = (false, true, [inserted "Ada"])
  /\ seen (do_op (E := demo_engine false) (DoCommit (E := demo_engine false) None) ada.2) = (false, true, [inserted "Ada"]).
Proof. intros full ada. unfold ada, full. split_and!; vm_compute; reflexivity. Qed.

(** A unique index on an expression has no column name: reading the indexes of its table
    fails, and with it describing, browsing and editing the table. *)
Theorem unique_expression_index_blocks_the_table :
  let d := mkSqliteDriver (E := demo_engine true) (lit "p") (lit "app.db") false ([] : list str) None in
  is_ok (describe_table (E := demo_engine true) users d) = false
  /\ is_ok (browse_table_data (E := demo_engine true) users 1 10 (mkTableBrowseQuery [] []) d) = false
  /\ is_ok (preview_table_change_set (E := demo_engine true) users (insert_name "Ada") d) = false
  /\ is_ok (describe_table (E := demo_engine false) users (fresh_driver false)) = true.
Proof. intros d. split_and!; vm_compute; reflexivity. Qed.

(** The scanner takes a backslash in a string for an escape, which it is not for SQLite: on a
    read-only connection the guard of the SQL editor accepts a text with a second statement
    that drops a table, and the driver runs it.  What then protects the file is only that
    SQLite has opened it for reading. *)
Theorem backslash_hides_a_statement :
  let sql := lit "SELECT '" ++ [c_bslash] ++ lit "'; DROP TABLE t; --'" in
  ensure_sql_editor_request readers_driver (mkSqlExecutionContext None None) sql = Ok tt
  /\ sqlite_trim_trailing_semicolon sql = sql /\ ~ one_statement sql.
Proof.
  intros sql. split; [vm_compute; reflexivity|]. split; [vm_compute; reflexivity|]. intros H.
  enough (Ht : trivia (lit " DROP TABLE t; --'")) by (apply has_sql_complete in Ht; discriminate Ht). apply H.
  change sql with (lit "SELECT " ++ c_squote :: replace_char c_squote [c_squote; c_squote] [c_bslash] ++ c_squote :: c_semi :: lit " DROP TABLE t; --'").
  repeat (apply terminated_plain; [apply (bool_decide_unpack _); vm_compute; exact I|reflexivity|]).
  apply terminated_quoted; [left|]. apply terminated_here.
Qed.

(** The statement EXPLAIN is accepted, also on a read-only connection, but it is executed
    without its rows: whatever SQLite answers, the result is empty. *)
Theorem explain_rows_are_dropped {J : JsonNumber} {E : SqliteEngine} context page page_size (d d' : SqliteDriver) result :
  execute_sql context (lit "EXPLAIN SELECT 1") page page_size d = (Ok result, d') -> qr_columns result = [] /\ qr_rows result = [].
Proof.
  unfold execute_sql, mbind, ST_bind, st_get, st_lift. destruct (ensure_sql_editor_request _ _ _); [|done].
  assert (sql_should_fetch_rows (sqlite_trim_trailing_semicolon (lit "EXPLAIN SELECT 1")) = false) as -> by (vm_compute; reflexivity).
  destruct (pool_execute _ d) as [[rows|e] d1]; cbn; [|done]. intros [= <- _]. done.
Qed.
