(* ===== verification/RedisDriver.v ===== *)
(** * The Redis driver ([src-tauri/src/engine/drivers/redis.rs], [redis_validate.rs] and the
    Redis types of [engine/types.rs])

    Reading and changing the keys of a Redis server.  The server is an interface for what
    its data types hold ([RedisEngine]); its key space, with the commands and the
    transactions the driver sends, is a finite map.  Other clients write between any two
    commands of the driver, and any command can fail before or after it took effect: what
    happens before the n-th command is the [Turn] number n, and every theorem holds for
    all turns.  Expiry is a deletion by the server, which touches a watched key as it does
    from Redis 6.0.9 on. *)

From stdpp Require Import base gmap list strings fin_maps.
From Stdlib Require Import ZArith Lia.
From S2P Require Import Prelude Errors Digits Types.

(** ** Data *)

Record RedisHashEntry := mkRedisHashEntry { he_field : str; he_value : str }.
Record RedisStreamEntry := mkRedisStreamEntry { xe_id : str; xe_fields : list RedisHashEntry }.
Record RedisSortedSetEntry `{J : JsonNumber} := mkRedisSortedSetEntry { ze_member : str; ze_score : F64 }.
Arguments mkRedisSortedSetEntry {J}.

Inductive RedisEditableValue `{J : JsonNumber} :=
| EditString (text : str)
| EditJson (text : str)
| EditHash (entries : list RedisHashEntry)
| EditList (items : list str)
| EditSet (items : list str)
| EditSortedSet (entries : list RedisSortedSetEntry)
| EditStream (entries : list RedisStreamEntry).

Inductive RedisStringValue := Utf8 (value : option str) | Binary (byte_length : Z) (preview_hex : str).
Inductive RedisValue `{J : JsonNumber} :=
| ValueString (value : RedisStringValue)
| ValueJson (value : str)
| ValueHash (entries : list RedisHashEntry)
| ValueList (items : list str)
| ValueSet (items : list str)
| ValueSortedSet (entries : list RedisSortedSetEntry)
| ValueStream (entries : list RedisStreamEntry)
| ValueUnsupported (value_type : str).

Inductive RedisTtlPolicy := TtlKeep | TtlPersist | TtlExpire.
Inductive RedisSetKeyTtlMode := ModeExpire | ModePersist.

#[export] Instance RedisTtlPolicy_eq_dec : EqDecision RedisTtlPolicy.
Proof. solve_decision. Defined.

Record RedisKeyRef := mkRedisKeyRef { kr_db_index : Z; kr_key : str }.
Record RedisKeyInfo := mkRedisKeyInfo { ki_key : str; ki_value_type : str; ki_ttl : Z; ki_size : option Z }.
Record RedisScanRequest := mkRedisScanRequest { sr_db_index : Z; sr_pattern : str; sr_cursor : Z; sr_count : Z }.
Record RedisScanResult := mkRedisScanResult { sc_cursor : Z; sc_keys : list RedisKeyInfo }.

Record RedisKeyValue `{J : JsonNumber} := mkRedisKeyValue {
  kv_key : str;
  kv_value_type : str;
  kv_ttl : Z;
  kv_size : option Z;
  kv_fingerprint : str;
  kv_value : RedisValue;
}.
Arguments mkRedisKeyValue {J}.

(** [RedisKeyPrecondition] and [RedisKeyMutationResult] have the same fields. *)
Record RedisKeyPrecondition := mkRedisKeyPrecondition {
  kp_db_index : Z;
  kp_key : str;
  kp_value_type : str;
  kp_ttl : Z;
  kp_size : option Z;
  kp_fingerprint : str;
}.
Record RedisKeyMutationResult := mkRedisKeyMutationResult {
  km_db_index : Z;
  km_key : str;
  km_value_type : str;
  km_ttl : Z;
  km_size : option Z;
  km_fingerprint : str;
}.
Record RedisDeleteKeyResult := mkRedisDeleteKeyResult {
  kd_db_index : Z;
  kd_key : option str;
  kd_pattern : option str;
  kd_deleted_count : Z;
}.

Record RedisSetKeyValueRequest `{J : JsonNumber} := mkRedisSetKeyValueRequest {
  sk_db_index : Z;
  sk_key : str;
  sk_value : RedisEditableValue;
  sk_expected_fingerprint : str;
  sk_expected_type : option str;
  sk_ttl_policy : option RedisTtlPolicy;
  sk_ttl_seconds : option Z;
}.
Arguments mkRedisSetKeyValueRequest {J}.
Record RedisCreateKeyValueRequest `{J : JsonNumber} := mkRedisCreateKeyValueRequest {
  ck_db_index : Z;
  ck_key : str;
  ck_value : RedisEditableValue;
  ck_ttl_policy : option RedisTtlPolicy;
  ck_ttl_seconds : option Z;
}.
Arguments mkRedisCreateKeyValueRequest {J}.
Record RedisDeleteKeyRequest := mkRedisDeleteKeyRequest { dk_db_index : Z; dk_key : str; dk_expected_fingerprint : str }.
Record RedisDeleteKeyPrefixRequest := mkRedisDeleteKeyPrefixRequest { dp_db_index : Z; dp_pattern : str }.
Record RedisRenameKeyRequest := mkRedisRenameKeyRequest {
  rk_db_index : Z;
  rk_key : str;
  rk_new_key : str;
  rk_expected_fingerprint : str;
}.
Record RedisSetKeyTtlRequest := mkRedisSetKeyTtlRequest {
  tk_db_index : Z;
  tk_key : str;
  tk_expected_fingerprint : str;
  tk_mode : RedisSetKeyTtlMode;
  tk_ttl_seconds : option Z;
}.

(** ** The server *)

(** The commands that build a value. *)
Inductive WriteCommand `{J : JsonNumber} :=
| SET (text : str)
| JSON_SET (text : str)
| HSET (entries : list RedisHashEntry)
| RPUSH (items : list str)
| SADD (items : list str)
| ZADD (entries : list RedisSortedSetEntry)
| XADD (id : str) (fields : list RedisHashEntry).

Class RedisEngine `{J : JsonNumber} := {
  (** What a key holds, and what goes wrong, with its text. *)
  Payload : Type;
  RedisError : Type;
  redis_error_text : RedisError -> str;
  (** A write to what the key holds, and the readings of it. *)
  write_value : WriteCommand -> option Payload -> Result RedisError Payload;
  dump_of : Payload -> list Z;
  type_of : Payload -> str;
  read_string : option Payload -> Result RedisError (option (list Z));
  read_json : option Payload -> Result RedisError str;
  read_hash : option Payload -> Result RedisError (list (str * str));
  read_list : option Payload -> Result RedisError (list str);
  read_members : option Payload -> Result RedisError (list str);
  read_scored : option Payload -> Result RedisError (list (str * F64));
  read_entries : option Payload -> Result RedisError (list (str * list (str * str)));
  (** The refusal of a number of milliseconds to live, and of a missing source. *)
  refused_expiry : Z -> option RedisError;
  no_such_key : RedisError;
  (** [SCAN] with a cursor, a pattern and a count, over the keys of a database. *)
  scan_keys : Z -> str -> Z -> list str -> Z * list str;
  (** SHA-256, [String::from_utf8], and the complaint of [serde_json] about a text. *)
  sha256_digest : list Z -> list Z;
  from_utf8 : list Z -> option str;
  json_error : str -> option str;
}.

(** ** Checks of requests ([redis_validate.rs]) *)

Definition ensure_non_empty_key (key label : str) : IpcResult unit :=
  if bool_decide (trim key = []) then Err (validation_failed (lit "Redis " ++ label ++ lit " must not be empty")) else Ok tt.

Definition is_fingerprint_byte (c : Z) : bool := is_ascii_digit c || ((97 <=? c)%Z && (c <=? 102)%Z).

Definition validate_expected_fingerprint (fingerprint : str) : IpcResult unit :=
  match strip_prefix (lit "sha256:") fingerprint with
  | None => Err (validation_failed (lit "Redis fingerprint is invalid"))
  | Some digest =>
    let bytes := as_bytes digest in
    if negb (bool_decide (length bytes = 64)) || negb (forallb is_fingerprint_byte bytes)
    then Err (validation_failed (lit "Redis fingerprint is invalid")) else Ok tt
  end.

Definition refuse (b : bool) (m : string) : IpcResult unit := if b then Err (validation_failed (lit m)) else Ok tt.

Definition validate_rename_request (r : RedisRenameKeyRequest) : IpcResult unit :=
  _ ← ensure_non_empty_key (rk_key r) (lit "key");
  _ ← ensure_non_empty_key (rk_new_key r) (lit "new key");
  validate_expected_fingerprint (rk_expected_fingerprint r).

(** [ttl_seconds.filter(|value| *value > 0)] *)
Definition positive (ttl_seconds : option Z) : option Z := ttl_seconds ≫= fun v => if (0 <? v)%Z then Some v else None.

Definition validate_value_ttl_policy (ttl_policy : option RedisTtlPolicy) (ttl_seconds : option Z) : IpcResult unit :=
  refuse (bool_decide (ttl_policy = Some TtlExpire) && negb (bool_decide (is_Some (positive ttl_seconds))))
    "Redis expire ttlPolicy requires a positive ttlSeconds value".

Definition validate_ttl_request (r : RedisSetKeyTtlRequest) : IpcResult unit :=
  _ ← ensure_non_empty_key (tk_key r) (lit "key");
  _ ← validate_expected_fingerprint (tk_expected_fingerprint r);
  match tk_mode r with
  | ModeExpire => refuse (negb (bool_decide (is_Some (positive (tk_ttl_seconds r))))) "Redis expire mode requires a positive ttlSeconds value"
  | ModePersist => Ok tt
  end.

Definition validate_delete_key_request (r : RedisDeleteKeyRequest) : IpcResult unit :=
  _ ← ensure_non_empty_key (dk_key r) (lit "key");
  validate_expected_fingerprint (dk_expected_fingerprint r).

Definition validate_delete_key_prefix_request (r : RedisDeleteKeyPrefixRequest) : IpcResult unit :=
  let pattern := trim (dp_pattern r) in
  _ ← refuse (bool_decide (pattern = [])) "Redis delete prefix pattern must not be empty";
  refuse (bool_decide (pattern = lit "*")) "Redis delete prefix pattern must not be global wildcard '*'".

Section redis.
Context {J : JsonNumber} {E : RedisEngine}.

Definition validate_stream_entry (entry : RedisStreamEntry) : IpcResult unit :=
  _ ← refuse (bool_decide (trim (xe_id entry) = [])) "Redis stream entry id must not be empty";
  _ ← refuse (bool_decide (xe_fields entry = [])) "Redis stream entry must contain at least one field";
  refuse (existsb (fun field => bool_decide (he_field field = [])) (xe_fields entry)) "Redis stream field name must not be empty".

Definition validate_sorted_entry (entry : RedisSortedSetEntry) : IpcResult unit :=
  _ ← refuse (bool_decide (ze_member entry = [])) "Redis sorted set member must not be empty";
  refuse (negb (f64_is_finite (ze_score entry))) "Redis sorted set score must be a finite number".

Definition no_items {A} (l : list A) : bool := match l with [] => true | _ => false end.

Definition validate_editable_value (value : RedisEditableValue) : IpcResult unit :=
  match value with
  | EditString _ => Ok tt
  | EditJson text =>
    match json_error text with
    | Some e => Err (validation_failed (lit "Redis JSON value is invalid: " ++ e))
    | None => Ok tt
    end
  | EditHash entries =>
    _ ← refuse (no_items entries) "Redis hash value must contain at least one field";
    refuse (existsb (fun entry => bool_decide (he_field entry = [])) entries) "Redis hash field must not be empty"
  | EditList items => refuse (no_items items) "Redis list value must contain at least one item"
  | EditSet items => refuse (no_items items) "Redis set value must contain at least one member"
  | EditSortedSet entries =>
    _ ← refuse (no_items entries) "Redis sorted set value must contain at least one member";
    _ ← try_map validate_sorted_entry entries; Ok tt
  | EditStream entries =>
    _ ← refuse (no_items entries) "Redis stream value must contain at least one entry";
    _ ← try_map validate_stream_entry entries; Ok tt
  end.

Definition validate_create_key_value_request (r : RedisCreateKeyValueRequest) : IpcResult unit :=
  _ ← ensure_non_empty_key (ck_key r) (lit "key");
  _ ← validate_editable_value (ck_value r);
  validate_value_ttl_policy (ck_ttl_policy r) (ck_ttl_seconds r).

(** ** The key space *)

(** What a key holds and when it expires; keys belong to a database. *)
Record Entry := mkEntry { en_value : Payload; en_deadline : option Z }.
Abbreviation Key := (Z * str)%type.
Abbreviation Keyspace := (gmap Key Entry).

(** The server with the connection of the driver: its keys, what the connection watches
    and whether another client touched any of it, and the number of the next command. *)
Record Server := mkServer {
  sv_keys : Keyspace;
  sv_watched : list Key;
  sv_dirty : bool;
  sv_turn : nat;
}.
Definition set_keys (ks : Keyspace) (s : Server) : Server := mkServer ks (sv_watched s) (sv_dirty s) (sv_turn s).

(** What comes before a command: the writes of the others (a key and what it holds
    afterwards), the time in milliseconds, whether connecting takes too long, whether the
    command fails, before ([false]) or after ([true]) it took effect, and the answer to a
    question about memory. *)
Record Turn := mkTurn {
  tn_writes : list (Key * option Entry);
  tn_now : Z;
  tn_timed_out : bool;
  tn_fault : option (bool * RedisError);
  tn_memory : option Z;
}.

Definition write_key (ks : Keyspace) (w : Key * option Entry) : Keyspace := partial_alter (fun _ => w.2) w.1 ks.
Definition others_write (t : Turn) (ks : Keyspace) : Keyspace := fold_left write_key (tn_writes t) ks.
Definition touches (t : Turn) (watched : list Key) : bool := existsb (fun w => bool_decide (w.1 ∈ watched)) (tn_writes t).

Context (turns : nat -> Turn).

Definition arrive (s : Server) : Server :=
  let t := turns (sv_turn s) in
  mkServer (others_write t (sv_keys s)) (sv_watched s) (sv_dirty s || touches t (sv_watched s)) (S (sv_turn s)).

Definition RC : Type -> Type := ST Server RedisError.
Definition RI : Type -> Type := ST Server IpcError.

(** One command, given by what it does at a time. *)
Definition command {A} (f : Z -> RC A) : RC A := fun s =>
  let t := turns (sv_turn s) in
  match tn_fault t with
  | Some (false, e) => (Err e, arrive s)
  | Some (true, e) => (Err e, (f (tn_now t) (arrive s)).2)
  | None => f (tn_now t) (arrive s)
  end.

(** A command that only looks at one key. *)
Definition reading {A} (k : Key) (f : Z -> option Entry -> A) : RC A :=
  command (fun now s => (Ok (f now (sv_keys s !! k)), s)).

Definition pttl_reply (now : Z) (e : option Entry) : Z :=
  match e with
  | None => -2
  | Some e => match en_deadline e with None => -1 | Some d => Z.max 0 (d - now) end
  end.
Definition ttl_reply (now : Z) (e : option Entry) : Z :=
  let p := pttl_reply now e in if (p <? 0)%Z then p else ((p + 500) / 1000)%Z.

Definition TYPE (k : Key) : RC str := reading k (fun _ e => match e with Some e => type_of (en_value e) | None => lit "none" end).
Definition TTL (k : Key) : RC Z := reading k ttl_reply.
Definition PTTL (k : Key) : RC Z := reading k pttl_reply.
Definition DUMP (k : Key) : RC (option (list Z)) := reading k (fun _ e => dump_of ∘ en_value <$> e).
Definition EXISTS (k : Key) : RC bool := reading k (fun _ e => bool_decide (is_Some e)).
Definition MEMORY_USAGE : RC Z := fun s =>
  let t := turns (sv_turn s) in
  match tn_memory t with Some n => command (fun _ s => (Ok n, s)) s | None => (Err no_such_key, arrive s) end.
Definition WATCH (ks : list Key) : RC unit :=
  command (fun _ s => (Ok tt, mkServer (sv_keys s) (sv_watched s ++ ks) (sv_dirty s) (sv_turn s))).
Definition UNWATCH : RC unit := command (fun _ s => (Ok tt, mkServer (sv_keys s) [] false (sv_turn s))).
Definition DEL (ks : list Key) : RC Z :=
  command (fun _ s => (Ok (Z.of_nat (length (filter (fun k => is_Some (sv_keys s !! k)) (remove_dups ks)))),
                       set_keys (fold_left (fun m k => delete k m) ks (sv_keys s)) s)).

(** *** Transactions *)

Inductive TxCommand :=
| TxWrite (key : str) (w : WriteCommand)
| TxPexpire (key : str) (milliseconds : Z)
| TxExpire (key : str) (seconds : Z)
| TxPersist (key : str)
| TxRename (key new_key : str)
| TxRenamenx (key new_key : str)
| TxDel (key : str)
| TxType (key : str).

Inductive Reply := ReplyOk | ReplyInt (n : Z) | ReplyText (text : str).

Definition expire_at (k : Key) (deadline milliseconds : Z) (ks : Keyspace) : Result RedisError Reply * Keyspace :=
  match refused_expiry milliseconds, ks !! k with
  | Some e, _ => (Err e, ks)
  | None, None => (Ok (ReplyInt 0), ks)
  | None, Some e => (Ok (ReplyInt 1), <[k := mkEntry (en_value e) (Some deadline)]> ks)
  end.

Definition run_tx_command (db now : Z) (c : TxCommand) (ks : Keyspace) : Result RedisError Reply * Keyspace :=
  match c with
  | TxWrite key w =>
    match write_value w (en_value <$> ks !! (db, key)) with
    | Err e => (Err e, ks)
    | Ok p => (Ok ReplyOk, <[(db, key) := mkEntry p (match w with SET _ => None | _ => ks !! (db, key) ≫= en_deadline end)]> ks)
    end
  | TxPexpire key ms => expire_at (db, key) (now + ms) ms ks
  | TxExpire key s => expire_at (db, key) (now + 1000 * s) (1000 * s) ks
  | TxPersist key =>
    match ks !! (db, key) with
    | Some (mkEntry p (Some _)) => (Ok (ReplyInt 1), <[(db, key) := mkEntry p None]> ks)
    | _ => (Ok (ReplyInt 0), ks)
    end
  | TxRename key new_key =>
    match ks !! (db, key) with
    | None => (Err no_such_key, ks)
    | Some e => (Ok ReplyOk, <[(db, new_key) := e]> (delete (db, key) ks))
    end
  | TxRenamenx key new_key =>
    match ks !! (db, key), ks !! (db, new_key) with
    | None, _ => (Err no_such_key, ks)
    | Some _, Some _ => (Ok (ReplyInt 0), ks)
    | Some e, None => (Ok (ReplyInt 1), <[(db, new_key) := e]> (delete (db, key) ks))
    end
  | TxDel key => (Ok (ReplyInt (if bool_decide (is_Some (ks !! (db, key))) then 1 else 0)), delete (db, key) ks)
  | TxType key => (Ok (ReplyText (match ks !! (db, key) with Some e => type_of (en_value e) | None => lit "none" end)), ks)
  end.

(** The commands of a transaction all run, also after one that fails. *)
Fixpoint run_tx (db now : Z) (cs : list TxCommand) (ks : Keyspace) : list (Result RedisError Reply) * Keyspace :=
  match cs with
  | [] => ([], ks)
  | c :: cs =>
    let (r, ks) := run_tx_command db now c ks in
    let (rs, ks) := run_tx db now cs ks in (r :: rs, ks)
  end.

(** What the client makes of the replies: the first error, or the replies of the commands
    that are not marked with [ignore()]. *)
Fixpoint collect_replies (kept : list bool) (rs : list (Result RedisError Reply)) : Result RedisError (list Reply) :=
  match kept, rs with
  | k :: kept, r :: rs => x ← r; xs ← collect_replies kept rs; Ok (if k then x :: xs else xs)
  | _, _ => Ok []
  end.

(** [pipe().atomic()...query_async()]: no reply when something that is watched was
    touched. *)
Definition atomically (db : Z) (cs : list (bool * TxCommand)) : RC (option (list Reply)) :=
  command (fun now s =>
    let quiet ks := mkServer ks [] false (sv_turn s) in
    if sv_dirty s then (Ok None, quiet (sv_keys s))
    else
      let (rs, ks) := run_tx db now (map snd cs) (sv_keys s) in
      (match collect_replies (map fst cs) rs with Ok xs => Ok (Some xs) | Err e => Err e end, quiet ks)).

(** ** Errors and connections *)

Definition classify_redis_error (error : RedisError) (context : string) : IpcError :=
  let message := redis_error_text error in
  let title := lit "Redis " ++ lit context ++ lit " failed" in
  if str_contains (lit "WRONGPASS") message || str_contains (lit "NOAUTH") message || str_contains (lit "AUTH") message
  then auth_failed title message
  else if str_contains (lit "timed out") message || str_contains (lit "connection refused") message
  then network_timeout title message
  else system_internal title message.

(** [.map_err(|error| classify_redis_error(error, context))?] *)
Definition query {A} (context : string) (m : RC A) : RI A := fun s =>
  match m s with (Ok a, s) => (Ok a, s) | (Err e, s) => (Err (classify_redis_error e context), s) end.

(** [let _ = ...] *)
Definition ignoring {A} (m : RC A) : RI unit := fun s => (Ok tt, (m s).2).

(** [if let Err(error) = m { cleanup; return Err(error) }] *)
Definition or_clean_up {A} (m : RI A) (cleanup : RI unit) : RI A := fun s =>
  match m s with (Ok a, s) => (Ok a, s) | (Err e, s) => (Err e, (cleanup s).2) end.

Definition connect_timeout (connect_timeout_seconds : option Z) : Z := Z.min 300 (Z.max 1 (default 5%Z connect_timeout_seconds)).

Context (connect_timeout_seconds : option Z).

(** A new connection watches nothing. *)
Definition default_connection : RI unit := fun s =>
  if tn_timed_out (turns (sv_turn s))
  then (Err (network_timeout (lit "Redis connection timed out")
               (lit "Timed out after " ++ to_dec (connect_timeout connect_timeout_seconds) ++ lit " seconds")), arrive s)
  else query "connection" (command (fun _ s => (Ok tt, mkServer (sv_keys s) [] false (sv_turn s)))) s.

(** [SELECT]: the commands below name the database themselves. *)
Definition connection : RI unit :=
  _ ← default_connection; query "select database" (command (fun _ s => (Ok tt, s))).

(** ** Reading *)

Definition editable_value_type (value : RedisEditableValue) : str :=
  lit match value with
      | EditString _ => "string" | EditJson _ => "json" | EditHash _ => "hash" | EditList _ => "list"
      | EditSet _ => "set" | EditSortedSet _ => "zset" | EditStream _ => "stream"
      end.

Definition normalize_redis_type (value_type : str) : str :=
  let same (s : string) := str_eqb (str_lower value_type) (lit s) in
  if same "json" || same "rejson-rl" then lit "json" else if same "sorted_set" then lit "zset" else value_type.

Definition bytes_to_hex_preview (bytes : list Z) (max_bytes : nat) : str := join [c_space] (map hex_byte (take max_bytes bytes)).

Definition fingerprint_dump (dump : list Z) : str := lit "sha256:" ++ lower_hex (sha256_digest dump).

Definition stale_key_error : IpcError :=
  resource_conflict (lit "Redis key changed after it was read; refresh the key before applying this mutation").

Definition does_not_exist (key : str) : IpcError := resource_not_found (lit "Redis key '" ++ key ++ lit "' does not exist").

(** [.ok()] *)
Definition attempt {A} (m : RC A) : RI (option A) := fun s =>
  let (r, s) := m s in (Ok (match r with Ok a => Some a | Err _ => None end), s).

Definition key_info (db : Z) (key : str) : RI RedisKeyInfo :=
  value_type ← query "type lookup" (TYPE (db, key));
  ttl ← query "ttl lookup" (TTL (db, key));
  size ← attempt MEMORY_USAGE;
  mret (mkRedisKeyInfo key (normalize_redis_type value_type) ttl size).

Definition key_dump (db : Z) (key : str) : RI (option (list Z)) := query "key fingerprint lookup" (DUMP (db, key)).

Definition mutation_result (db : Z) (info : RedisKeyInfo) (fingerprint : str) : RedisKeyMutationResult :=
  mkRedisKeyMutationResult db (ki_key info) (ki_value_type info) (ki_ttl info) (ki_size info) fingerprint.

Definition hash_entry (p : str * str) : RedisHashEntry := mkRedisHashEntry p.1 p.2.

Definition string_value (value : option (list Z)) : RedisStringValue :=
  match value with
  | None => Utf8 None
  | Some bytes =>
    match from_utf8 bytes with
    | Some text => Utf8 (Some text)
    | None => Binary (Z.of_nat (length bytes)) (bytes_to_hex_preview bytes 64)
    end
  end.

(** A reading of the value that can fail. *)
Definition read_with {A} (context : string) (k : Key) (f : option Payload -> Result RedisError A) : RI A :=
  query context (command (fun _ s => (f (en_value <$> sv_keys s !! k), s))).

Definition read_value (db : Z) (key value_type : str) : RI RedisValue :=
  let same (s : string) := str_eqb value_type (lit s) in
  if same "none" then st_lift (Err (does_not_exist key))
  else if same "string" then value ← read_with "get string bytes" (db, key) read_string; mret (ValueString (string_value value))
  else if same "json" then value ← read_with "get json value" (db, key) read_json; mret (ValueJson value)
  else if same "hash" then value ← read_with "get hash value" (db, key) read_hash; mret (ValueHash (map hash_entry value))
  else if same "list" then value ← read_with "get list value" (db, key) read_list; mret (ValueList value)
  else if same "set" then value ← read_with "get set value" (db, key) read_members; mret (ValueSet value)
  else if same "zset" then
    value ← read_with "get sorted set value" (db, key) read_scored;
    mret (ValueSortedSet (map (fun p => mkRedisSortedSetEntry p.1 p.2) value))
  else if same "stream" then
    value ← read_with "get stream value" (db, key) read_entries;
    mret (ValueStream (map (fun p => mkRedisStreamEntry p.1 (map hash_entry p.2)) value))
  else mret (ValueUnsupported value_type).

Definition some_or {A} (e : IpcError) (o : option A) : RI A := st_lift (match o with Some a => Ok a | None => Err e end).

Definition get_key_value (r : RedisKeyRef) : RI RedisKeyValue :=
  let db := kr_db_index r in let key := kr_key r in
  _ ← connection;
  before ← key_dump db key;
  before ← some_or (does_not_exist key) before;
  info ← key_info db key;
  value ← read_value db key (ki_value_type info);
  after ← key_dump db key;
  after ← some_or stale_key_error after;
  if bool_decide (before <> after) then st_lift (Err stale_key_error)
  else mret (mkRedisKeyValue (ki_key info) (ki_value_type info) (ki_ttl info) (ki_size info) (fingerprint_dump after) value).

Definition get_key_precondition (r : RedisKeyRef) : RI RedisKeyPrecondition :=
  let db := kr_db_index r in let key := kr_key r in
  _ ← st_lift (ensure_non_empty_key key (lit "key"));
  _ ← connection;
  before ← key_dump db key;
  before ← some_or (does_not_exist key) before;
  info ← key_info db key;
  after ← key_dump db key;
  after ← some_or stale_key_error after;
  if bool_decide (before <> after) then st_lift (Err stale_key_error)
  else mret (mkRedisKeyPrecondition db (ki_key info) (ki_value_type info) (ki_ttl info) (ki_size info) (fingerprint_dump after)).

(** ** Changing *)

Definition TEMPORARY_KEY_TTL_MS : Z := 5 * 60 * 1000.
Definition TEMPORARY_KEY_PREFIX : str := lit "__nexuspilot:kvtmp:".
Definition temporary_key (uuid : str) : str := TEMPORARY_KEY_PREFIX ++ uuid.

Definition require_expected_fingerprint (db : Z) (key expected_fingerprint : str) : RI (list Z) :=
  dump ← key_dump db key;
  dump ← some_or (resource_not_found (lit "Redis key no longer exists")) dump;
  if bool_decide (fingerprint_dump dump <> expected_fingerprint) then st_lift (Err stale_key_error) else mret dump.

Definition unwatch : RI unit := ignoring UNWATCH.
Definition cleanup_temporary_key (db : Z) (key : str) : RI unit := ignoring (DEL [(db, key)]).
Definition abort_temporary_mutation (db : Z) (temporary_key : str) : RI unit :=
  _ ← unwatch; cleanup_temporary_key db temporary_key.

(** The commands that build a value. *)
Definition write_commands (value : RedisEditableValue) : list WriteCommand :=
  match value with
  | EditString text => [SET text]
  | EditJson text => [JSON_SET text]
  | EditHash entries => [HSET entries]
  | EditList items => [RPUSH items]
  | EditSet items => [SADD items]
  | EditSortedSet entries => [ZADD entries]
  | EditStream entries => map (fun entry => XADD (xe_id entry) (xe_fields entry)) entries
  end.

(** Every command of this transaction is marked with [ignore()]. *)
Definition write_temporary_value (db : Z) (key : str) (value : RedisEditableValue) : RI unit :=
  or_clean_up
    (_ ← query "build temporary key value"
           (atomically db (map (fun c => (false, c)) (map (TxWrite key) (write_commands value) ++ [TxPexpire key TEMPORARY_KEY_TTL_MS])));
     mret tt)
    (cleanup_temporary_key db key).

Definition temporary_value_fingerprint (db : Z) (key : str) : RI str :=
  or_clean_up
    (dump ← key_dump db key;
     dump ← some_or (system_internal (lit "Redis temporary value disappeared before replacement") (lit "Temporary key DUMP returned nil")) dump;
     mret (fingerprint_dump dump))
    (cleanup_temporary_key db key).

Definition append_ttl_command (key : str) (original_pttl : Z) (ttl_policy : RedisTtlPolicy) (ttl_seconds : option Z) : IpcResult TxCommand :=
  match ttl_policy with
  | TtlKeep =>
    if (0 <? original_pttl)%Z then Ok (TxPexpire key original_pttl)
    else if (original_pttl =? -1)%Z then Ok (TxPersist key)
    else Err stale_key_error
  | TtlPersist => Ok (TxPersist key)
  | TtlExpire =>
    match positive ttl_seconds with
    | Some s => Ok (TxExpire key s)
    | None => Err (validation_failed (lit "Redis expire ttlPolicy requires a positive ttlSeconds value"))
    end
  end.

(** The client reads the one reply that is kept as a text. *)
Definition type_reply (replies : option (list Reply)) : option str :=
  match replies with Some [ReplyText value_type] => Some (normalize_redis_type value_type) | _ => None end.

Definition replace_temporary_key (db : Z) (temporary_key target_key : str) (original_pttl : Z) (ttl_policy : RedisTtlPolicy)
    (ttl_seconds : option Z) : RI (option str) :=
  ttl ← st_lift (append_ttl_command target_key original_pttl ttl_policy ttl_seconds);
  response ← query "atomic key replacement"
    (atomically db [(false, TxRename temporary_key target_key); (false, ttl); (true, TxType target_key)]);
  mret (type_reply response).

Definition ttl_after_policy (original_pttl : Z) (ttl_policy : RedisTtlPolicy) (ttl_seconds : option Z) : Z :=
  match ttl_policy with
  | TtlKeep => if (0 <? original_pttl)%Z then (Z.min I64_MAX (original_pttl + 999) / 1000)%Z else (-1)%Z
  | TtlPersist => (-1)%Z
  | TtlExpire => let s := default 0%Z ttl_seconds in if (s <=? I64_MAX)%Z then s else I64_MAX
  end.

(** The end of creating and replacing: the new value takes the place of the key. *)
Definition put_in_place (db : Z) (temporary_key key : str) (target_type : str) (original_pttl : Z) (ttl_policy : option RedisTtlPolicy)
    (ttl_seconds : option Z) (gone : IpcError) (what fingerprint : str) : RI RedisKeyMutationResult :=
  let policy := default TtlKeep ttl_policy in
  replacement_type ← or_clean_up
    (r ← replace_temporary_key db temporary_key key original_pttl policy ttl_seconds; some_or gone r)
    (cleanup_temporary_key db temporary_key);
  if bool_decide (replacement_type <> target_type)
  then st_lift (Err (system_internal (lit "Redis key was " ++ what ++ lit " with an unexpected type")
                       (lit "expected type '" ++ target_type ++ lit "', actual type '" ++ replacement_type ++ lit "'")))
  else mret (mutation_result db (mkRedisKeyInfo key replacement_type (ttl_after_policy original_pttl policy ttl_seconds) None) fingerprint).

(** The beginning of both: the new value is built under the temporary key, and the key is
    watched. *)
Definition stage_value (db : Z) (temporary_key key : str) (value : RedisEditableValue) (context : string) : RI str :=
  _ ← write_temporary_value db temporary_key value;
  replacement_fingerprint ← temporary_value_fingerprint db temporary_key;
  _ ← or_clean_up (query context (WATCH [(db, key)])) (abort_temporary_mutation db temporary_key);
  mret replacement_fingerprint.

Definition check_expected_type (expected_type : option str) (actual : str) : IpcResult unit :=
  match expected_type with
  | None => Ok tt
  | Some expected =>
    if bool_decide (normalize_redis_type actual = normalize_redis_type expected) then Ok tt
    else Err (resource_conflict (lit "Redis key type changed from '" ++ normalize_redis_type expected ++ lit "' to '" ++ actual ++ lit "'"))
  end.

Definition set_key_value (uuid : str) (r : RedisSetKeyValueRequest) : RI RedisKeyMutationResult :=
  let db := sk_db_index r in let key := sk_key r in
  _ ← st_lift (ensure_non_empty_key key (lit "key"));
  _ ← st_lift (validate_expected_fingerprint (sk_expected_fingerprint r));
  _ ← st_lift (validate_editable_value (sk_value r));
  _ ← st_lift (validate_value_ttl_policy (sk_ttl_policy r) (sk_ttl_seconds r));
  _ ← connection;
  let temporary := temporary_key uuid in
  replacement_fingerprint ← stage_value db temporary key (sk_value r) "watch key for replacement";
  let clean_up := abort_temporary_mutation db temporary in
  _ ← or_clean_up (require_expected_fingerprint db key (sk_expected_fingerprint r)) clean_up;
  current_info ← or_clean_up (key_info db key) clean_up;
  _ ← or_clean_up (st_lift (check_expected_type (sk_expected_type r) (ki_value_type current_info))) clean_up;
  original_pttl ← or_clean_up (query "ttl lookup" (PTTL (db, key))) clean_up;
  put_in_place db temporary key (editable_value_type (sk_value r)) original_pttl (sk_ttl_policy r) (sk_ttl_seconds r)
    stale_key_error (lit "saved") replacement_fingerprint.

Definition create_key_value (uuid : str) (r : RedisCreateKeyValueRequest) : RI RedisKeyMutationResult :=
  let db := ck_db_index r in let key := ck_key r in
  _ ← st_lift (validate_create_key_value_request r);
  _ ← connection;
  let temporary := temporary_key uuid in
  replacement_fingerprint ← stage_value db temporary key (ck_value r) "watch key for creation";
  let clean_up := abort_temporary_mutation db temporary in
  target_exists ← or_clean_up (query "target key existence lookup" (EXISTS (db, key))) clean_up;
  _ ← or_clean_up (st_lift (if target_exists : bool then Err (resource_conflict (lit "Redis key already exists and was not overwritten"))
                            else Ok tt)) clean_up;
  put_in_place db temporary key (editable_value_type (ck_value r)) (-1) (ck_ttl_policy r) (ck_ttl_seconds r)
    (resource_conflict (lit "Redis key appeared concurrently and was not overwritten")) (lit "created") replacement_fingerprint.

Definition delete_result (db : Z) (key pattern : option str) (deleted_count : Z) : RedisDeleteKeyResult :=
  mkRedisDeleteKeyResult db key pattern deleted_count.

(** The one number of a response, when there is a response. *)
Definition int_reply (replies : option (list Reply)) : option Z :=
  match replies with Some [ReplyInt n] => Some n | _ => None end.

(** The beginning of deleting, renaming and expiring: the keys are watched, and the key
    must hold what its fingerprint says. *)
Definition watch_expected (db : Z) (key expected_fingerprint : str) (watched : list str) (context : string) : RI (list Z) :=
  _ ← query context (WATCH (map (pair db) watched));
  or_clean_up (require_expected_fingerprint db key expected_fingerprint) unwatch.

Definition delete_key (r : RedisDeleteKeyRequest) : RI RedisDeleteKeyResult :=
  let db := dk_db_index r in let key := dk_key r in
  _ ← st_lift (validate_delete_key_request r);
  _ ← connection;
  _ ← watch_expected db key (dk_expected_fingerprint r) [key] "watch key for deletion";
  response ← query "atomic key deletion" (atomically db [(true, TxDel key)]);
  deleted_count ← some_or stale_key_error (int_reply response);
  if bool_decide (deleted_count <> 1%Z) then st_lift (Err stale_key_error)
  else mret (delete_result db (Some key) None deleted_count).

Definition rename_key (r : RedisRenameKeyRequest) : RI RedisKeyMutationResult :=
  let db := rk_db_index r in let key := rk_key r in let new_key := rk_new_key r in
  _ ← st_lift (validate_rename_request r);
  if str_eqb key new_key then
    _ ← connection;
    _ ← require_expected_fingerprint db key (rk_expected_fingerprint r);
    info ← key_info db key;
    mret (mutation_result db info (rk_expected_fingerprint r))
  else
    _ ← connection;
    _ ← watch_expected db key (rk_expected_fingerprint r) [key; new_key] "watch keys for rename";
    source_info ← or_clean_up (key_info db key) unwatch;
    target_exists ← query "target key existence lookup" (EXISTS (db, new_key));
    _ ← or_clean_up (st_lift (if target_exists : bool
                              then Err (resource_conflict (lit "Redis key '" ++ new_key ++ lit "' already exists")) else Ok tt)) unwatch;
    response ← query "atomic key rename" (atomically db [(true, TxRenamenx key new_key)]);
    moved ← some_or stale_key_error (int_reply response);
    if (moved =? 1)%Z
    then mret (mutation_result db (mkRedisKeyInfo new_key (ki_value_type source_info) (ki_ttl source_info) (ki_size source_info))
                 (rk_expected_fingerprint r))
    else if (moved =? 0)%Z then st_lift (Err (resource_conflict (lit "Redis rename target appeared concurrently")))
    else st_lift (Err (system_internal (lit "Redis returned an invalid rename result") (lit "RENAMENX returned an unexpected integer"))).

Definition set_key_ttl (r : RedisSetKeyTtlRequest) : RI RedisKeyMutationResult :=
  let db := tk_db_index r in let key := tk_key r in
  _ ← st_lift (validate_ttl_request r);
  _ ← connection;
  _ ← watch_expected db key (tk_expected_fingerprint r) [key] "watch key for ttl change";
  current_info ← or_clean_up (key_info db key) unwatch;
  let seconds := default 0%Z (tk_ttl_seconds r) in
  response ← query "atomic key ttl change"
    (atomically db [(true, match tk_mode r with ModeExpire => TxExpire key seconds | ModePersist => TxPersist key end)]);
  _ ← some_or stale_key_error (int_reply response);
  let ttl := match tk_mode r with ModeExpire => Z.min I64_MAX seconds | ModePersist => (-1)%Z end in
  mret (mutation_result db (mkRedisKeyInfo (ki_key current_info) (ki_value_type current_info) ttl (ki_size current_info))
          (tk_expected_fingerprint r)).

(** ** The five changes *)

(** What is prepared and carried out for the AI ([PreparedKeyValueMutation]). *)
Inductive PreparedKeyValueMutation :=
| MutCreate (r : RedisCreateKeyValueRequest)
| MutSet (r : RedisSetKeyValueRequest)
| MutRename (r : RedisRenameKeyRequest)
| MutSetTtl (r : RedisSetKeyTtlRequest)
| MutDelete (r : RedisDeleteKeyRequest).

Definition mutation_db_index (m : PreparedKeyValueMutation) : Z :=
  match m with
  | MutCreate r => ck_db_index r | MutSet r => sk_db_index r | MutRename r => rk_db_index r
  | MutSetTtl r => tk_db_index r | MutDelete r => dk_db_index r
  end.

Definition mutation_key (m : PreparedKeyValueMutation) : str :=
  match m with
  | MutCreate r => ck_key r | MutSet r => sk_key r | MutRename r => rk_key r
  | MutSetTtl r => tk_key r | MutDelete r => dk_key r
  end.

(** The driver call of a mutation, with its result. *)
Inductive MutationOutcome := Mutated (r : RedisKeyMutationResult) | Deleted (r : RedisDeleteKeyResult).

Definition mutate (uuid : str) (m : PreparedKeyValueMutation) : RI MutationOutcome :=
  match m with
  | MutCreate r => x ← create_key_value uuid r; mret (Mutated x)
  | MutSet r => x ← set_key_value uuid r; mret (Mutated x)
  | MutRename r => x ← rename_key r; mret (Mutated x)
  | MutSetTtl r => x ← set_key_ttl r; mret (Mutated x)
  | MutDelete r => x ← delete_key r; mret (Deleted x)
  end.
End redis.
