(* ===== verification/RedisSafety.v ===== *)
(** * Changes of Redis keys and the other clients

    The driver checks a key and replaces, renames, deletes or expires it with several
    commands, between which other clients write.  The first theorem: a change that is
    reported took effect at one instant, at which the key held exactly what its fingerprint
    says (or, for a new key and for the target of a renaming, nothing), and nothing else
    was touched but the temporary key.  The second: a change that is refused had no
    effect. *)

From stdpp Require Import base gmap list strings fin_maps.
From Stdlib Require Import ZArith Lia.
From S2P Require Import Prelude Errors Digits Types RedisDriver.

Abbreviation Key := (Z * str)%type.
Abbreviation Keyspace := (gmap Key Entry).

(** ** What a computation guarantees *)

(** The value and state of a run that returns, the error and state of one that fails. *)
Definition post {S X A} (m : ST S X A) (s : S) (Q : A -> S -> Prop) (R : X -> S -> Prop) : Prop :=
  match m s with (Ok a, s') => Q a s' | (Err e, s') => R e s' end.

Section post.
Context {S X : Type}.

Lemma post_bind {A B} (m : ST S X A) (f : A -> ST S X B) s Q R : post m s (fun a s' => post (f a) s' Q R) R -> post (m ≫= f) s Q R.
Proof. unfold post, mbind, ST_bind. by destruct (m s) as [[a|e] s']. Qed.

Lemma post_mono {A} (m : ST S X A) s (Q Q' : A -> S -> Prop) (R R' : X -> S -> Prop) :
  post m s Q R -> (forall a s', Q a s' -> Q' a s') -> (forall e s', R e s' -> R' e s') -> post m s Q' R'.
Proof. unfold post. destruct (m s) as [[a|e] s']; auto. Qed.

Lemma post_ret {A} (a : A) (s : S) (Q : A -> S -> Prop) (R : X -> S -> Prop) : Q a s -> post (mret a) s Q R.
Proof. done. Qed.

Lemma post_lift {A} (r : Result X A) (s : S) (Q : A -> S -> Prop) (R : X -> S -> Prop) :
  match r with Ok a => Q a s | Err e => R e s end -> post (st_lift r) s Q R.
Proof. by destruct r. Qed.
End post.

Section safety.
Context {J : JsonNumber} {E : RedisEngine}.
Context (turns : nat -> Turn) (connect_timeout_seconds : option Z).

(** ** The writes of the others *)

(** What the other clients alone make of the keys between two turns. *)
Definition others (n m : nat) (ks : Keyspace) : Keyspace := fold_left (fun ks i => others_write (turns i) ks) (seq n (m - n)) ks.

(** A run during which only [mine] were touched by the driver. *)
Record alone (mine : list Key) (s s' : Server) : Prop := {
  alone_turn : sv_turn s <= sv_turn s';
  alone_keys k : k ∉ mine -> sv_keys s' !! k = others (sv_turn s) (sv_turn s') (sv_keys s) !! k;
}.

Lemma writes_at ws ks ks' (k : Key) : ks !! k = ks' !! k -> fold_left write_key ws ks !! k = fold_left write_key ws ks' !! k.
Proof.
  revert ks ks'. induction ws as [|w ws IH]; intros ks ks' H; [done|]. cbn [fold_left]. apply IH. unfold write_key.
  destruct (decide (w.1 = k)) as [<-|]; [by rewrite !lookup_partial_alter_eq | by rewrite !lookup_partial_alter_ne].
Qed.

Lemma others_at n m ks ks' k : ks !! k = ks' !! k -> others n m ks !! k = others n m ks' !! k.
Proof.
  unfold others. generalize (seq n (m - n)) as l. intros l. revert ks ks'.
  induction l as [|i l IH]; intros ks ks' H; [done|]. cbn [fold_left]. apply IH. by apply writes_at.
Qed.

Lemma others_app n m p ks : n <= m -> m <= p -> others n p ks = others m p (others n m ks).
Proof.
  intros. unfold others. replace (p - n) with ((m - n) + (p - m)) by lia.
  rewrite seq_app, fold_left_app. by replace (n + (m - n)) with m by lia.
Qed.

Lemma others_next n ks : others n (S n) ks = others_write (turns n) ks.
Proof. unfold others. by replace (S n - n) with 1 by lia. Qed.

#[export] Instance alone_preorder mine : PreOrder (alone mine).
Proof.
  split.
  - intros s. split; [done|]. intros k _. unfold others. by rewrite Nat.sub_diag.
  - intros s1 s2 s3 [L1 H1] [L2 H2]. split; [lia|]. intros k Hk.
    rewrite (H2 k Hk), (others_app (sv_turn s1) (sv_turn s2)) by done. by apply others_at, H1.
Qed.

Lemma alone_mono mine mine' s s' : mine ⊆ mine' -> alone mine s s' -> alone mine' s s'.
Proof. intros Hsub [L H]. split; [done|]. intros k Hk. apply H. set_solver. Qed.

(** Nothing but arrivals: the keys are left to the others. *)
Inductive arrived (s : Server) : Server -> Prop :=
| arrived_here : arrived s s
| arrived_next s' : arrived s s' -> arrived s (arrive turns s').

#[export] Instance arrived_preorder : PreOrder arrived.
Proof.
  split; [constructor|]. intros s1 s2 s3 H12 H23. induction H23; [done|]. by constructor.
Qed.

Lemma arrive_alone s : alone [] s (arrive turns s).
Proof. split; [cbn; lia|]. intros k _. cbn [arrive sv_keys sv_turn]. by rewrite others_next. Qed.

Lemma arrived_alone s s' : arrived s s' -> alone [] s s'.
Proof. induction 1; [done|]. etransitivity; [done|]. apply arrive_alone. Qed.

(** What is watched and untouched still holds what it held when it was read. *)
Definition pinned (k : Key) (e : option Entry) (s : Server) : Prop := k ∈ sv_watched s /\ (sv_dirty s = false -> sv_keys s !! k = e).

Lemma writes_elsewhere ws ks (k : Key) : (forall w, w ∈ ws -> w.1 <> k) -> fold_left write_key ws ks !! k = ks !! k.
Proof.
  revert ks. induction ws as [|w ws IH]; intros ks H; [done|]. cbn [fold_left]. rewrite IH by (intros; apply H; set_solver).
  unfold write_key. apply lookup_partial_alter_ne, H. set_solver.
Qed.

Lemma pinned_arrive k e s : pinned k e s -> pinned k e (arrive turns s).
Proof.
  intros [Hw He]. split; [done|]. cbn. intros [Hd Ht]%orb_false_iff. rewrite <- (He Hd). apply writes_elsewhere.
  intros w Hin Heq. assert (touches (turns (sv_turn s)) (sv_watched s) = true); [|congruence].
  apply existsb_exists. exists w. split; [by apply list_elem_of_In|]. apply bool_decide_eq_true. by rewrite Heq.
Qed.

Lemma pinned_arrived k e s s' : arrived s s' -> pinned k e s -> pinned k e s'.
Proof. induction 1; auto using pinned_arrive. Qed.

Lemma watched_arrived s s' : arrived s s' -> sv_watched s' = sv_watched s.
Proof. by induction 1. Qed.

(** ** Commands *)

Definition looks {X A} (m : ST Server X A) : Prop := forall s, arrived s (m s).2.
Definition keeps {X A} (mine : list Key) (m : ST Server X A) : Prop := forall s, alone mine s (m s).2.

Lemma looks_keeps {X A} mine (m : ST Server X A) : looks m -> keeps mine m.
Proof. intros H s. apply (alone_mono []); [set_solver|]. by apply arrived_alone. Qed.

Lemma looks_bind {X A B} (m : ST Server X A) (f : A -> ST Server X B) : looks m -> (forall a, looks (f a)) -> looks (m ≫= f).
Proof.
  intros Hm Hf s. specialize (Hm s). unfold mbind, ST_bind. destruct (m s) as [[a|e] s1]; [|done].
  etransitivity; [exact Hm | apply Hf].
Qed.

Lemma run_keeps_bind {X A B} mine (m : ST Server X A) (f : A -> ST Server X B) :
  keeps mine m -> (forall a, keeps mine (f a)) -> keeps mine (m ≫= f).
Proof.
  intros Hm Hf s. specialize (Hm s). unfold mbind, ST_bind. destruct (m s) as [[a|e] s1]; [|done].
  etransitivity; [exact Hm | apply Hf].
Qed.

Lemma looks_lift {X A} (r : Result X A) : looks (st_lift (S := Server) r).
Proof. intros s. constructor. Qed.
Lemma looks_ret {X A} (a : A) : looks (mret a : ST Server X A).
Proof. intros s. constructor. Qed.
Lemma looks_query {A} context (m : RC A) : looks m -> looks (query context m).
Proof. intros H s. specialize (H s). unfold query. by destruct (m s) as [[a|e] s1]. Qed.
Lemma looks_attempt {A} (m : RC A) : looks m -> looks (attempt m).
Proof. intros H s. specialize (H s). unfold attempt. by destruct (m s) as [[a|e] s1]. Qed.
Lemma keeps_query {A} mine context (m : RC A) : keeps mine m -> keeps mine (query context m).
Proof. intros H s. specialize (H s). unfold query. by destruct (m s) as [[a|e] s1]. Qed.
Lemma keeps_ignoring {A} mine (m : RC A) : keeps mine m -> keeps mine (ignoring m).
Proof. intros H s. apply H. Qed.
Lemma keeps_clean_up {A} mine (m : RI A) cleanup : keeps mine m -> keeps mine cleanup -> keeps mine (or_clean_up m cleanup).
Proof.
  intros Hm Hc s. specialize (Hm s). unfold or_clean_up. destruct (m s) as [[a|e] s1]; [done|].
  etransitivity; [exact Hm | apply Hc].
Qed.

(** A command does nothing or what it says, after the others. *)
Lemma command_cases {A} (f : Z -> RC A) s :
  (exists e, command turns f s = (Err e, arrive turns s))
  \/ (exists e, command turns f s = (Err e, (f (tn_now (turns (sv_turn s))) (arrive turns s)).2))
  \/ command turns f s = f (tn_now (turns (sv_turn s))) (arrive turns s).
Proof. unfold command. destruct (tn_fault _) as [[[] e]|]; eauto. Qed.

Lemma looks_command {A} (f : Z -> RC A) : (forall now s, (f now s).2 = s) -> looks (command turns f).
Proof.
  intros Hf s. destruct (command_cases f s) as [[e ->]|[[e ->]| ->]]; cbn; rewrite ?Hf; apply arrived_next; constructor.
Qed.

Lemma keeps_command {A} mine (f : Z -> RC A) :
  (forall now s, sv_turn (f now s).2 = sv_turn s /\ forall k, k ∉ mine -> sv_keys (f now s).2 !! k = sv_keys s !! k) ->
  keeps mine (command turns f).
Proof.
  intros Hf s. assert (H0 : alone mine s (arrive turns s)) by (apply (alone_mono []); [set_solver | apply arrive_alone]).
  assert (H1 : forall now, alone mine s (f now (arrive turns s)).2).
  { intros now. destruct (Hf now (arrive turns s)) as [Ht Hk]. destruct H0 as [L H0]. split; [lia|]. intros k Hn.
    rewrite Hk, Ht by done. by apply H0. }
  destruct (command_cases f s) as [[e ->]|[[e ->]| ->]]; cbn; auto.
Qed.

Lemma looks_reading {A} k (f : Z -> option Entry -> A) : looks (reading turns k f).
Proof. by apply looks_command. Qed.

Lemma looks_memory : looks (MEMORY_USAGE turns).
Proof.
  intros s. unfold MEMORY_USAGE. destruct (tn_memory _) as [n|]; [by apply looks_command | apply arrived_next; constructor].
Qed.

#[local] Hint Resolve looks_bind looks_lift looks_ret looks_query looks_attempt looks_reading looks_memory : looks.

Lemma looks_key_dump db key : looks (key_dump turns db key).
Proof. unfold key_dump, DUMP. auto with looks. Qed.
Lemma looks_key_info db key : looks (key_info turns db key).
Proof. unfold key_info, TYPE, TTL. auto 10 with looks. Qed.
Lemma looks_some_or {A} e (o : option A) : looks (some_or e o).
Proof. apply looks_lift. Qed.
#[local] Hint Resolve looks_key_dump looks_key_info looks_some_or : looks.

Lemma looks_require db key fp : looks (require_expected_fingerprint turns db key fp).
Proof. unfold require_expected_fingerprint. apply looks_bind; [auto with looks|]. intros o. apply looks_bind; [auto with looks|]. intros d. case_bool_decide; auto with looks. Qed.

Lemma keeps_watch ks mine : keeps mine (WATCH turns ks).
Proof. by apply keeps_command. Qed.
Lemma keeps_unwatch mine : keeps mine (unwatch turns).
Proof. apply keeps_ignoring. by apply keeps_command. Qed.
Lemma keeps_connection mine : keeps mine (connection turns connect_timeout_seconds).
Proof.
  unfold connection. apply run_keeps_bind.
  - intros s. unfold default_connection. destruct (tn_timed_out _).
    + cbn. apply (alone_mono []); [set_solver | apply arrive_alone].
    + apply keeps_query. by apply keeps_command.
  - intros []. apply keeps_query. by apply keeps_command.
Qed.
Lemma keeps_cleanup db key mine : (db, key) ∈ mine -> keeps mine (cleanup_temporary_key turns db key).
Proof.
  intros Hin. apply keeps_ignoring, keeps_command. intros now s. split; [done|]. intros k Hk. cbn.
  apply lookup_delete_ne. set_solver.
Qed.
Lemma keeps_abort db key mine : (db, key) ∈ mine -> keeps mine (abort_temporary_mutation turns db key).
Proof. intros Hin. apply run_keeps_bind; [apply keeps_unwatch|]. intros []. by apply keeps_cleanup. Qed.

(** *** Readings of a watched key *)

Lemma reading_post {A} k (f : Z -> option Entry -> A) s : k ∈ sv_watched s ->
  post (reading turns k f) s
    (fun a s' => arrived s s' /\ exists e, a = f (tn_now (turns (sv_turn s))) e /\ pinned k e s') (fun _ s' => arrived s s').
Proof.
  intros Hw. unfold post, reading.
  destruct (command_cases (fun now s => (Ok (f now (sv_keys s !! k)), s)) s) as [[e ->]|[[e ->]| ->]]; cbn [snd];
    [apply arrived_next; constructor..|]. split; [apply arrived_next; constructor|]. eexists. split; [done|]. by split.
Qed.

Lemma post_query {A} context (m : RC A) s Q R : post m s Q (fun e => R (classify_redis_error e context)) -> post (query context m) s Q R.
Proof. unfold post, query. by destruct (m s) as [[a|e] s']. Qed.

Lemma post_clean_up {A} (m : RI A) cleanup s Q R : post m s Q (fun e s' => R e (cleanup s').2) -> post (or_clean_up m cleanup) s Q R.
Proof. unfold post, or_clean_up. by destruct (m s) as [[a|e] s']. Qed.

Definition held (fp : str) (e : Entry) : Prop := fingerprint_dump (dump_of (en_value e)) = fp.

Lemma require_post db key fp s R : (db, key) ∈ sv_watched s -> (forall e s', arrived s s' -> R e s') ->
  post (require_expected_fingerprint turns db key fp) s
    (fun _ s' => arrived s s' /\ exists e, held fp e /\ pinned (db, key) (Some e) s') R.
Proof.
  intros Hw HR. unfold require_expected_fingerprint, key_dump. apply post_bind, post_query.
  eapply post_mono; [by apply reading_post | | intros; by apply HR].
  intros o s1 (Ha & e & -> & Hp). destruct e as [e|]; cbn; [|by apply HR].
  apply post_bind, post_ret. case_bool_decide as Hfp; [by apply HR|]. apply post_ret. split; [done|].
  by exists e.
Qed.

(** *** Transactions *)

Lemma atomically_post db cs s :
  post (atomically turns db cs) s
    (fun o s' => sv_turn s' = S (sv_turn s) /\
       match o with
       | None => sv_keys s' = sv_keys (arrive turns s)
       | Some xs => sv_dirty (arrive turns s) = false /\
         exists rs, run_tx db (tn_now (turns (sv_turn s))) (map snd cs) (sv_keys (arrive turns s)) = (rs, sv_keys s')
           /\ collect_replies (map fst cs) rs = Ok xs
       end)
    (fun _ _ => True).
Proof.
  unfold post, atomically. set (f := fun now s => _).
  destruct (command_cases f s) as [[e ->]|[[e ->]| ->]]; [done..|]. unfold f.
  destruct (sv_dirty (arrive turns s)); [done|].
  destruct (run_tx _ _ _ _) as [rs ks] eqn:Hrun. destruct (collect_replies _ rs) as [xs|e] eqn:Hc; [|done]. split; [done|]. eauto.
Qed.

Lemma run_tx_app db now cs ds ks : run_tx db now (cs ++ ds) ks =
  let (rs, ks1) := run_tx db now cs ks in let (rs', ks2) := run_tx db now ds ks1 in (rs ++ rs', ks2).
Proof.
  revert ks. induction cs as [|c cs IH]; intros ks; cbn; [by destruct (run_tx _ _ _ _)|].
  destruct (run_tx_command _ _ _ _) as [r ks1]. rewrite IH. destruct (run_tx db now cs ks1) as [rs ks2]. by destruct (run_tx _ _ _ _).
Qed.

Lemma run_tx_length db now cs ks : length (run_tx db now cs ks).1 = length cs.
Proof.
  revert ks. induction cs as [|c cs IH]; intros ks; cbn; [done|]. destruct (run_tx_command _ _ _ _) as [r ks1].
  specialize (IH ks1). destruct (run_tx db now cs ks1). cbn in *. by f_equal.
Qed.

Lemma collect_ok kept rs xs : length kept = length rs -> collect_replies kept rs = Ok xs -> Forall (fun r => exists x, r = Ok x) rs.
Proof.
  revert rs xs. induction kept as [|k kept IH]; intros [|r rs] xs Hl H; try done. cbn in H. bind_inv.
  constructor; [eauto|]. eapply IH; [by injection Hl|done].
Qed.

(** ** What a change is *)

Fixpoint built (ws : list WriteCommand) (o : option Payload) : option Payload :=
  match ws with
  | [] => o
  | w :: ws => match write_value w o with Ok p => built ws (Some p) | Err _ => None end
  end.

(** When a key expires that is put in place at [now], for what was there at [before]. *)
Definition deadline_after (policy : RedisTtlPolicy) (seconds : option Z) (old : option Entry) (before now : Z) : option Z :=
  match policy with
  | TtlKeep => (fun d => now + (d - before))%Z <$> (old ≫= en_deadline)
  | TtlPersist => None
  | TtlExpire => (fun n => now + 1000 * n)%Z <$> seconds
  end.

Definition fingerprint_of (p : Payload) : str := fingerprint_dump (dump_of p).
Definition reports (res : MutationOutcome) (fp : str) : Prop := match res with Mutated r => km_fingerprint r = fp | Deleted _ => True end.

(** The change of the keys at the instant of a mutation, whose temporary key is [tmp]. *)
Definition takes_place (tmp : str) (m : PreparedKeyValueMutation) (before now : Z) (res : MutationOutcome) (ks ks' : Keyspace) : Prop :=
  match m with
  | MutCreate r =>
    let k := (ck_db_index r, ck_key r) in
    ks !! k = None /\ exists p, built (write_commands (ck_value r)) None = Some p /\ reports res (fingerprint_of p)
      /\ ks' = <[k := mkEntry p (deadline_after (default TtlKeep (ck_ttl_policy r)) (ck_ttl_seconds r) None before now)]>
                 (delete (ck_db_index r, tmp) ks)
  | MutSet r =>
    let k := (sk_db_index r, sk_key r) in
    exists old p, ks !! k = Some old /\ held (sk_expected_fingerprint r) old
      /\ built (write_commands (sk_value r)) None = Some p /\ reports res (fingerprint_of p)
      /\ ks' = <[k := mkEntry p (deadline_after (default TtlKeep (sk_ttl_policy r)) (sk_ttl_seconds r) (Some old) before now)]>
                 (delete (sk_db_index r, tmp) ks)
  | MutRename r =>
    let k := (rk_db_index r, rk_key r) in let k' := (rk_db_index r, rk_new_key r) in
    exists old, ks !! k = Some old /\ held (rk_expected_fingerprint r) old /\ reports res (rk_expected_fingerprint r)
      /\ (k = k' /\ ks' = ks \/ ks !! k' = None /\ ks' = <[k' := old]> (delete k ks))
  | MutSetTtl r =>
    let k := (tk_db_index r, tk_key r) in
    exists old, ks !! k = Some old /\ held (tk_expected_fingerprint r) old /\ reports res (tk_expected_fingerprint r)
      /\ ks' = <[k := mkEntry (en_value old)
                        (match tk_mode r with ModeExpire => (fun n => now + 1000 * n)%Z <$> tk_ttl_seconds r | ModePersist => None end)]> ks
  | MutDelete r =>
    let k := (dk_db_index r, dk_key r) in
    exists old, ks !! k = Some old /\ held (dk_expected_fingerprint r) old /\ ks' = delete k ks
  end.

(** *** The temporary key *)

Section temporary.
Context (db : Z) (tmp : str).
Context (untouched : forall n w, w ∈ tn_writes (turns n) -> w.1 <> (db, tmp)).

Lemma tmp_arrive s : sv_keys (arrive turns s) !! (db, tmp) = sv_keys s !! (db, tmp).
Proof. apply writes_elsewhere. intros w. apply untouched. Qed.

Lemma tmp_arrived s s' : arrived s s' -> sv_keys s' !! (db, tmp) = sv_keys s !! (db, tmp).
Proof. induction 1; [done|]. by rewrite tmp_arrive. Qed.

Lemma run_writes now ws ks rs ks' : run_tx db now (map (TxWrite tmp) ws) ks = (rs, ks') -> Forall (fun r => exists x, r = Ok x) rs ->
  en_value <$> ks' !! (db, tmp) = built ws (en_value <$> ks !! (db, tmp)).
Proof.
  revert ks rs. induction ws as [|w ws IH]; intros ks rs H Hok; cbn in H; [by injection H as <- <-|]. cbn [built].
  destruct (write_value w _) as [p|e] eqn:Hw; destruct (run_tx _ _ _ _) as [rs1 ks1] eqn:Hrun; injection H as <- <-.
  - inversion Hok as [|? ? _ Hok1]; subst. rewrite (IH _ _ Hrun Hok1). by rewrite lookup_insert_eq.
  - inversion Hok as [|? ? [x Hx] _]; subst. discriminate Hx.
Qed.

Lemma run_expire k deadline ms ks r ks' : expire_at k deadline ms ks = (Ok r, ks') ->
  ks' = alter (fun e => mkEntry (en_value e) (Some deadline)) k ks.
Proof.
  unfold expire_at. destruct (refused_expiry ms); [done|]. destruct (ks !! k) as [e|] eqn:Hk; intros [= _ <-].
  - apply map_eq. intros i. destruct (decide (i = k)) as [->|]; [by rewrite lookup_insert_eq, lookup_alter_eq, Hk|].
    by rewrite lookup_insert_ne, lookup_alter_ne.
  - symmetry. by apply alter_id_None || (apply map_eq; intros i; destruct (decide (i = k)) as [->|];
      [by rewrite lookup_alter_eq, Hk | by rewrite lookup_alter_ne]).
Qed.

(** The value under the temporary key, once it is written. *)
Lemma write_temporary_post value s : sv_keys s !! (db, tmp) = None ->
  post (write_temporary_value turns db tmp value) s
    (fun _ s' => match sv_keys s' !! (db, tmp) with None => True | Some e => built (write_commands value) None = Some (en_value e) end)
    (fun _ _ => True).
Proof.
  intros Hnone. unfold write_temporary_value. apply post_clean_up, post_bind, post_query.
  eapply post_mono; [apply atomically_post | | done]. intros o s1 [_ Ho]. apply post_ret. destruct o as [xs|].
  - destruct Ho as (_ & rs & Hrun & Hc). rewrite map_map in Hrun, Hc. cbn [snd] in Hrun. rewrite map_id in Hrun.
    apply collect_ok in Hc; [|pose proof (run_tx_length db (tn_now (turns (sv_turn s)))
      (map (TxWrite tmp) (write_commands value) ++ [TxPexpire tmp TEMPORARY_KEY_TTL_MS]) (sv_keys (arrive turns s))) as Hl;
      rewrite Hrun in Hl; cbn [fst] in Hl; by rewrite length_map].
    rewrite run_tx_app in Hrun. destruct (run_tx db _ (map _ _) _) as [rs1 ks1] eqn:Hw. cbn in Hrun.
    destruct (expire_at _ _ _ _) as [r ks2] eqn:Hx. injection Hrun as <- <-. apply Forall_app in Hc as [Hc1 Hc2].
    inversion Hc2 as [|? ? [x ->] _]; subst. apply run_expire in Hx as ->.
    apply run_writes in Hw; [|done]. rewrite tmp_arrive, Hnone in Hw. rewrite lookup_alter_eq.
    destruct (ks1 !! (db, tmp)) as [e|]; cbn in *; [done|done].
  - rewrite Ho, tmp_arrive, Hnone. done.
Qed.

Lemma temporary_fingerprint_post s :
  post (temporary_value_fingerprint turns db tmp) s
    (fun fp s' => arrived s s' /\ exists e, sv_keys s' !! (db, tmp) = Some e /\ fp = fingerprint_of (en_value e)) (fun _ _ => True).
Proof.
  unfold temporary_value_fingerprint, key_dump. apply post_clean_up, post_bind, post_query. unfold post, DUMP, reading.
  set (f := fun now s => _). destruct (command_cases f s) as [[e ->]|[[e ->]| ->]]; [done..|]. unfold f.
  destruct (sv_keys (arrive turns s) !! (db, tmp)) as [e|] eqn:He; cbn; [|done]. split; [apply arrived_next; constructor|]. eauto.
Qed.

(** *** Putting it in place *)

Definition ttl_deadline (policy : RedisTtlPolicy) (seconds : option Z) (pttl now : Z) : option Z :=
  match policy with
  | TtlKeep => if (0 <? pttl)%Z then Some (now + pttl)%Z else None
  | TtlPersist => None
  | TtlExpire => (fun n => now + 1000 * n)%Z <$> positive seconds
  end.

Lemma ttl_command_run key pttl policy seconds c now ks p dl r ks' : append_ttl_command key pttl policy seconds = Ok c ->
  ks !! (db, key) = Some (mkEntry p dl) -> run_tx_command db now c ks = (Ok r, ks') ->
  ks' = <[(db, key) := mkEntry p (ttl_deadline policy seconds pttl now)]> ks.
Proof.
  assert (Hx : forall d ms, expire_at (db, key) d ms ks = (Ok r, ks') -> ks !! (db, key) = Some (mkEntry p dl) ->
    ks' = <[(db, key) := mkEntry p (Some d)]> ks).
  { intros d ms Hx Hk. unfold expire_at in Hx. rewrite Hk in Hx. destruct (refused_expiry ms); [done|]. by injection Hx as _ <-. }
  assert (Hp : run_tx_command db now (TxPersist key) ks = (Ok r, ks') -> ks !! (db, key) = Some (mkEntry p dl) ->
    ks' = <[(db, key) := mkEntry p None]> ks).
  { cbn. intros H Hk. rewrite Hk in H. destruct dl; injection H as _ <-; [done|]. by rewrite insert_id. }
  intros Hc Hk Hrun. destruct policy; cbn in Hc |- *.
  - destruct (0 <? pttl)%Z; [injection Hc as <-; by eapply Hx|]. destruct (pttl =? -1)%Z; [|done]. injection Hc as <-. by apply Hp.
  - injection Hc as <-. by apply Hp.
  - destruct (positive seconds) as [n|]; [|done]. injection Hc as <-. by eapply Hx.
Qed.

Lemma put_in_place_post key target_type pttl policy seconds gone what fp p dl s : key <> tmp -> sv_keys s !! (db, tmp) = Some (mkEntry p dl) ->
  post (put_in_place turns db tmp key target_type pttl policy seconds gone what fp) s
    (fun res s' => sv_turn s' = S (sv_turn s) /\ km_fingerprint res = fp /\ sv_dirty (arrive turns s) = false
       /\ is_ok (append_ttl_command key pttl (default TtlKeep policy) seconds) = true
       /\ sv_keys s' = <[(db, key) := mkEntry p (ttl_deadline (default TtlKeep policy) seconds pttl (tn_now (turns (sv_turn s))))]>
                         (delete (db, tmp) (sv_keys (arrive turns s))))
    (fun _ _ => True).
Proof.
  intros Hne Htmp. unfold put_in_place, replace_temporary_key. apply post_bind, post_clean_up, post_bind, post_bind, post_lift.
  destruct (append_ttl_command key pttl _ seconds) as [c|] eqn:Hc; [|done]. apply post_bind, post_query.
  eapply post_mono; [apply atomically_post | | done]. intros o s1 [Hturn Ho]. apply post_ret.
  destruct o as [xs|]; [|done]. destruct Ho as (Hd & rs & Hrun & Hcol).
  rewrite <- tmp_arrive in Htmp.
  cbn [map snd run_tx run_tx_command] in Hrun. rewrite Htmp in Hrun.
  destruct (run_tx_command _ _ c _) as [r ks2] eqn:Hrc. injection Hrun as <- Hkeys.
  cbn in Hcol. destruct r as [r|]; [|done]. cbn in Hcol. injection Hcol as <-. cbn [type_reply some_or].
  apply post_lift. case_bool_decide; [done|]. apply post_ret.
  eapply ttl_command_run in Hrc; [|done | by rewrite lookup_insert_eq].
  rewrite insert_insert_eq in Hrc. rewrite <- Hkeys, Hrc. done.
Qed.

Lemma tmp_alone s s' : alone [] s s' -> sv_keys s' !! (db, tmp) = sv_keys s !! (db, tmp).
Proof.
  intros [_ H]. rewrite H by set_solver. unfold others. generalize (seq (sv_turn s) (sv_turn s' - sv_turn s)) (sv_keys s).
  intros l. induction l as [|i l IH]; intros ks; [done|]. cbn [fold_left]. rewrite IH. apply writes_elsewhere. intros w. apply untouched.
Qed.
End temporary.

Lemma post_keeps {X A} mine (m : ST Server X A) s Q R : keeps mine m -> post m s Q R ->
  post m s (fun a s' => Q a s' /\ alone mine s s') (fun e s' => R e s' /\ alone mine s s').
Proof. intros Hk H. specialize (Hk s). unfold post in *. destruct (m s) as [[a|e] s1]; by split. Qed.

Lemma post_looks {X A} (m : ST Server X A) s : looks m -> post m s (fun _ s' => arrived s s') (fun _ s' => arrived s s').
Proof. intros H. specialize (H s). unfold post. by destruct (m s) as [[a|e] s1]. Qed.

Lemma post_only_keeps {X A} mine (m : ST Server X A) s : keeps mine m -> post m s (fun _ s' => alone mine s s') (fun _ s' => alone mine s s').
Proof. intros H. specialize (H s). unfold post. by destruct (m s) as [[a|e] s1]. Qed.

Lemma watch_post ks s : post (WATCH turns ks) s
  (fun _ s' => alone [] s s' /\ (forall k, k ∈ ks -> k ∈ sv_watched s')) (fun _ _ => True).
Proof.
  eapply post_mono; [eapply post_keeps; [apply (keeps_watch ks [])|] | |done].
  - instantiate (1 := fun _ _ => True). instantiate (1 := fun _ s' => forall k, k ∈ ks -> k ∈ sv_watched s').
    unfold post, WATCH. set (f := fun now s => _). destruct (command_cases f s) as [[e ->]|[[e ->]| ->]]; [done..|].
    cbn. intros k Hk. set_solver.
  - intros a s' [H1 H2]. by split.
Qed.

(** The keys a command of a transaction names. *)
Definition tx_keys (c : TxCommand) : list str :=
  match c with
  | TxWrite key _ | TxPexpire key _ | TxExpire key _ | TxPersist key | TxDel key | TxType key => [key]
  | TxRename key new_key | TxRenamenx key new_key => [key; new_key]
  end.

Lemma run_tx_elsewhere db now cs ks k : (forall c key, c ∈ cs -> key ∈ tx_keys c -> k <> (db, key)) -> (run_tx db now cs ks).2 !! k = ks !! k.
Proof.
  revert ks. induction cs as [|c cs IH]; intros ks H; [done|]. cbn. destruct (run_tx_command db now c ks) as [r ks1] eqn:Hc.
  specialize (IH ks1 ltac:(intros c0 key0 Hc0 Hk0; apply (H c0 key0); [set_solver|done])). destruct (run_tx db now cs ks1) as [rs ks2].
  cbn in *. rewrite IH. specialize (fun key => H c key ltac:(set_solver)).
  assert (Hx : forall key d ms, k <> (db, key) -> (expire_at (db, key) d ms ks).2 !! k = ks !! k).
  { intros key d ms Hk. unfold expire_at. destruct (refused_expiry ms), (ks !! (db, key)); cbn; rewrite ?lookup_insert_ne; done. }
  apply (f_equal snd) in Hc. cbn in Hc. subst ks1.
  destruct c; cbn in *; try (apply Hx; apply H; set_solver);
    repeat case_match; cbn; rewrite ?lookup_insert_ne, ?lookup_delete_ne; try done; try apply H; set_solver.
Qed.

Lemma keeps_atomically db mine cs : (forall c key, c ∈ map snd cs -> key ∈ tx_keys c -> (db, key) ∈ mine) -> keeps mine (atomically turns db cs).
Proof.
  intros H. apply keeps_command. intros now s. destruct (sv_dirty s); [done|].
  assert (Hrun : forall k, k ∉ mine -> (run_tx db now (map snd cs) (sv_keys s)).2 !! k = sv_keys s !! k).
  { intros k Hk. apply run_tx_elsewhere. intros c key Hc Hkey ->. by apply Hk, (H c). }
  destruct (run_tx _ _ _ _) as [rs ks]. cbn in *. by split.
Qed.

Lemma keeps_stage db tmp key value context : keeps [(db, tmp)] (stage_value turns db tmp key value context).
Proof.
  assert (Hc : keeps [(db, tmp)] (cleanup_temporary_key turns db tmp)) by (apply keeps_cleanup; set_solver).
  unfold stage_value, write_temporary_value, temporary_value_fingerprint. apply run_keeps_bind; [|intros []; apply run_keeps_bind; [|intros fp; apply run_keeps_bind]].
  - apply keeps_clean_up; [|done]. apply run_keeps_bind; [|intros; apply looks_keeps, looks_ret]. apply keeps_query, keeps_atomically.
    rewrite map_map, map_id. intros c k [Hin|Hin]%elem_of_app Hk.
    + apply list_elem_of_fmap in Hin as (w & -> & _). cbn in Hk. set_solver.
    + apply list_elem_of_singleton in Hin as ->. cbn in Hk. set_solver.
  - apply keeps_clean_up; [|done]. apply looks_keeps. auto 6 with looks.
  - apply keeps_clean_up; [apply keeps_query, keeps_watch | apply keeps_abort; set_solver].
  - intros; apply looks_keeps, looks_ret.
Qed.

(** The steps of a proof about an operation: a check that is passed, a clean-up. *)
Ltac passed := apply post_bind, post_lift; match goal with |- match ?r with Ok _ => _ | Err _ => _ end => destruct r; [|exact I] end.
Ltac next := intros; apply post_bind.

Section changes.
Context (db : Z) (key tmp : str).
Context (untouched : forall n w, w ∈ tn_writes (turns n) -> w.1 <> (db, tmp)).
Context (other : key <> tmp).

(** A value is prepared under the temporary key, and the key is watched. *)
Lemma stage_post value context s : sv_keys s !! (db, tmp) = None ->
  post (stage_value turns db tmp key value context) s
    (fun fp s' => alone [(db, tmp)] s s' /\ (db, key) ∈ sv_watched s' /\ exists e, sv_keys s' !! (db, tmp) = Some e
       /\ built (write_commands value) None = Some (en_value e) /\ fp = fingerprint_of (en_value e)) (fun _ _ => True).
Proof.
  intros Hnone. assert (H : post (stage_value turns db tmp key value context) s
    (fun fp s' => (db, key) ∈ sv_watched s' /\ exists e, sv_keys s' !! (db, tmp) = Some e
       /\ built (write_commands value) None = Some (en_value e) /\ fp = fingerprint_of (en_value e)) (fun _ _ => True)).
  { unfold stage_value. apply post_bind. eapply post_mono; [by apply write_temporary_post | |done]. intros [] s1 H1. cbn in H1. apply post_bind.
    eapply post_mono; [apply temporary_fingerprint_post | |done]. intros fp s2 (Ha & e & He & ->).
    rewrite <- (tmp_arrived _ _ untouched _ _ Ha), He in H1.
    apply post_bind, post_clean_up, post_query. eapply post_mono; [apply watch_post | |done]. intros [] s3 [Hk Hw]. apply post_ret.
    split; [apply Hw; set_solver|]. exists e. by rewrite (tmp_alone _ _ untouched _ _ Hk). }
  eapply post_mono; [eapply post_keeps; [apply keeps_stage | exact H] | |done]. intros fp s' [[] ?]. by split_and!.
Qed.

Lemma alone_arrive mine s s' : alone mine s s' -> alone mine s (arrive turns s').
Proof. intros H. etransitivity; [done|]. apply (alone_mono []); [set_solver | apply arrive_alone]. Qed.

Lemma alone_arrived mine s s' s'' : alone mine s s' -> arrived s' s'' -> alone mine s s''.
Proof. intros H Ha. etransitivity; [done|]. apply (alone_mono []); [set_solver | by apply arrived_alone]. Qed.

Lemma fmap_positive (f : Z -> Z) seconds : is_Some (positive seconds) -> f <$> positive seconds = f <$> seconds.
Proof. unfold positive. destruct seconds as [n|]; cbn; [|by intros []]. destruct (0 <? n)%Z; [done | by intros []]. Qed.

(** The deadline that the commands give is the one of the specification. *)
Lemma deadline_agrees policy seconds e before now : is_ok (append_ttl_command key (pttl_reply before e) policy seconds) = true ->
  ttl_deadline policy seconds (pttl_reply before e) now = deadline_after policy seconds e before now.
Proof.
  unfold append_ttl_command, ttl_deadline, deadline_after. destruct policy; [|done|].
  - unfold pttl_reply. destruct e as [[p [d|]]|]; cbn; [|done..].
    destruct (Z.ltb_spec 0 (Z.max 0 (d - before))); [|destruct (Z.eqb_spec (Z.max 0 (d - before)) (-1)); [lia|done]].
    intros _. f_equal. lia.
  - destruct (positive seconds) as [n|] eqn:Hp; [|done]. intros _. rewrite <- Hp. apply fmap_positive. by rewrite Hp.
Qed.

(** A change that happened in the run from [s] to [s']: at an instant between the two. *)
Definition happened (m : PreparedKeyValueMutation) (res : MutationOutcome) (s s' : Server) : Prop :=
  exists s1 s2 n0 n1, alone [(db, tmp)] s s1 /\ sv_turn s1 = sv_turn s2 /\ alone [] s2 s'
    /\ sv_turn s <= n0 <= n1 /\ n1 < sv_turn s'
    /\ takes_place tmp m (tn_now (turns n0)) (tn_now (turns n1)) res (sv_keys s1) (sv_keys s2).

Lemma connected_post s : post (connection turns connect_timeout_seconds) s (fun _ s' => alone [] s s') (fun _ _ => True).
Proof. eapply post_mono; [apply (post_only_keeps []), keeps_connection | auto | auto]. Qed.

(** The end of creating and replacing. *)
Lemma placed_post target_type pttl policy seconds gone what fp p dl n0 s0 s (m : PreparedKeyValueMutation) :
  alone [(db, tmp)] s0 s -> sv_keys s !! (db, tmp) = Some (mkEntry p dl) -> sv_turn s0 <= n0 <= sv_turn s ->
  (forall now res ks, (forall e, pinned (db, key) e s -> ks !! (db, key) = e) ->
     is_ok (append_ttl_command key pttl (default TtlKeep policy) seconds) = true -> km_fingerprint res = fp ->
     takes_place tmp m (tn_now (turns n0)) now (Mutated res) ks
       (<[(db, key) := mkEntry p (ttl_deadline (default TtlKeep policy) seconds pttl now)]> (delete (db, tmp) ks))) ->
  post (put_in_place turns db tmp key target_type pttl policy seconds gone what fp) s
    (fun res s' => happened m (Mutated res) s0 s') (fun _ _ => True).
Proof.
  intros H0 Htmp Hn Hm. eapply post_mono; [by eapply put_in_place_post | |done].
  intros res s' (Hturn & Hfp & Hd & Hok & Hkeys).
  exists (arrive turns s), s', n0, (sv_turn s). split_and!; [by apply alone_arrive | done | done | lia..|].
  rewrite Hkeys. apply Hm; [|done..]. intros e Hpin. by apply (pinned_arrive _ _ _ Hpin).
Qed.

Lemma set_post uuid r s : tmp = temporary_key uuid -> sk_db_index r = db -> sk_key r = key -> sv_keys s !! (db, tmp) = None ->
  post (set_key_value turns connect_timeout_seconds uuid r) s (fun res s' => happened (MutSet r) (Mutated res) s s') (fun _ _ => True).
Proof.
  intros Htmp Hdb Hkey Hnone. unfold set_key_value. rewrite <- Htmp, Hdb, Hkey. do 4 passed. apply post_bind.
  eapply post_mono; [apply connected_post | |done]. intros [] s1 H1. apply post_bind.
  rewrite <- (tmp_alone _ _ untouched _ _ H1) in Hnone.
  eapply post_mono; [by apply stage_post | |done]. intros fp s2 (H2 & Hw & [p dl] & He & Hb & ->). cbn [en_value] in *.
  assert (H02 : alone [(db, tmp)] s s2) by (etransitivity; [|exact H2]; by apply (alone_mono []); [set_solver|]).
  apply post_bind, post_clean_up. eapply post_mono; [by apply (require_post _ _ _ _ (fun _ _ => True)) | |done].
  intros dump s3 (Ha3 & old & Hold & Hp3). apply post_bind, post_clean_up.
  eapply post_mono; [apply post_looks, looks_key_info | |done]. intros info s4 Ha4.
  apply post_bind, post_clean_up, post_lift. destruct (check_expected_type _ _) as [[]|]; [|done].
  assert (Ha24 : arrived s2 s4) by by etransitivity. apply (pinned_arrived _ _ _ _ Ha4) in Hp3.
  apply post_bind, post_clean_up, post_query. eapply post_mono; [apply reading_post, Hp3 | |done].
  intros pttl s5 (Ha5 & e & -> & Hp5). apply (pinned_arrived _ _ _ _ Ha5) in Hp3.
  assert (Ha25 : arrived s2 s5) by by etransitivity.
  rewrite <- (tmp_arrived _ _ untouched _ _ Ha25) in He.
  eapply (placed_post _ _ _ _ _ _ _ _ _ (sv_turn s4)); [by eapply alone_arrived | done | |].
  - pose proof (alone_turn _ _ _ H02). pose proof (alone_turn _ _ _ (arrived_alone _ _ Ha24)).
    pose proof (alone_turn _ _ _ (arrived_alone _ _ Ha5)). lia.
  - intros now res ks Hks Hok Hfp. pose proof (Hks _ Hp3) as Hk. pose proof (Hks _ Hp5) as Hk5. rewrite Hk in Hk5. subst e.
    rewrite (deadline_agrees _ _ _ _ _ Hok). exists old, p. rewrite Hdb, Hkey. by split_and!.
Qed.

Lemma create_post uuid r s : tmp = temporary_key uuid -> ck_db_index r = db -> ck_key r = key -> sv_keys s !! (db, tmp) = None ->
  post (create_key_value turns connect_timeout_seconds uuid r) s (fun res s' => happened (MutCreate r) (Mutated res) s s') (fun _ _ => True).
Proof.
  intros Htmp Hdb Hkey Hnone. unfold create_key_value. rewrite <- Htmp, Hdb, Hkey. passed. apply post_bind.
  eapply post_mono; [apply connected_post | |done]. intros [] s1 H1. apply post_bind.
  rewrite <- (tmp_alone _ _ untouched _ _ H1) in Hnone.
  eapply post_mono; [by apply stage_post | |done]. intros fp s2 (H2 & Hw & [p dl] & He & Hb & ->). cbn [en_value] in *.
  assert (H02 : alone [(db, tmp)] s s2) by (etransitivity; [|exact H2]; by apply (alone_mono []); [set_solver|]).
  apply post_bind, post_clean_up, post_query. eapply post_mono; [by apply reading_post | |done].
  intros there s3 (Ha3 & e & -> & Hp3). apply post_bind, post_clean_up, post_lift. case_bool_decide as He'; [done|].
  rewrite <- (tmp_arrived _ _ untouched _ _ Ha3) in He. apply eq_None_not_Some in He' as ->.
  pose proof (alone_turn _ _ _ H02). pose proof (alone_turn _ _ _ (arrived_alone _ _ Ha3)).
  eapply (placed_post _ _ _ _ _ _ _ _ _ (sv_turn s2)); [by eapply alone_arrived | done | lia |].
  intros now res ks Hks Hok Hfp. cbn [takes_place]. rewrite Hdb, Hkey. split; [by apply Hks|]. exists p. split_and!; [done..|].
  do 2 f_equal. unfold ttl_deadline, deadline_after. destruct (default TtlKeep (ck_ttl_policy r)); [done..|].
  cbn in Hok. apply fmap_positive. by destruct (positive _).
Qed.

(** The beginning of the three changes that need no new value. *)
Lemma checked_post watched context fp s s0 : key ∈ watched -> alone [] s0 s ->
  post (watch_expected turns db key fp watched context) s
    (fun _ s' => alone [] s0 s' /\ (forall k, k ∈ watched -> (db, k) ∈ sv_watched s') /\ exists old, held fp old /\ pinned (db, key) (Some old) s')
    (fun _ _ => True).
Proof.
  intros Hin H0. apply post_bind, post_query. eapply post_mono; [apply watch_post | |done]. intros [] s1 [H1 Hw].
  apply post_clean_up. eapply post_mono; [by apply (require_post _ _ _ _ (fun _ _ => True)); [apply Hw, list_elem_of_fmap; eauto|] | |done].
  intros dump s2 (Ha & old & Hold & Hp). split_and!; [| |by exists old].
  2: { intros k Hk. rewrite (watched_arrived _ _ Ha). apply Hw, list_elem_of_fmap. eauto. }
  etransitivity; [done|]. etransitivity; [done|]. by apply arrived_alone.
Qed.

(** Without watching: what was true when the key was read. *)
Lemma require_now fp s : post (require_expected_fingerprint turns db key fp) s
  (fun _ s' => s' = arrive turns s /\ exists old, sv_keys s' !! (db, key) = Some old /\ held fp old) (fun _ _ => True).
Proof.
  unfold require_expected_fingerprint, key_dump. apply post_bind, post_query. unfold post, DUMP, reading. set (f := fun now s => _).
  destruct (command_cases f s) as [[e ->]|[[e ->]| ->]]; [done..|]. unfold f.
  destruct (sv_keys (arrive turns s) !! (db, key)) as [e|] eqn:He; cbn; [|done]. unfold mbind, ST_bind. cbn.
  case_bool_decide as Hfp; [done|]. cbn. split; [done|]. by exists e.
Qed.

(** One command that is sent as a transaction. *)
Lemma single_post c context s : post (query context (atomically turns db [(true, c)])) s
  (fun o s' => sv_turn s' = S (sv_turn s) /\
     match o with
     | None => True
     | Some xs => sv_dirty (arrive turns s) = false /\ exists x, xs = [x]
         /\ run_tx_command db (tn_now (turns (sv_turn s))) c (sv_keys (arrive turns s)) = (Ok x, sv_keys s')
     end) (fun _ _ => True).
Proof.
  apply post_query. eapply post_mono; [apply atomically_post | |done]. intros o s' [Ht Ho]. split; [done|]. destruct o as [xs|]; [|done].
  destruct Ho as (Hd & rs & Hrun & Hc). split; [done|]. cbn in Hrun.
  destruct (run_tx_command _ _ _ _) as [r ks]. injection Hrun as <- <-. cbn in Hc. destruct r as [x|]; [|done]. injection Hc as <-. by exists x.
Qed.

Lemma delete_post r s : dk_db_index r = db -> dk_key r = key ->
  post (delete_key turns connect_timeout_seconds r) s (fun res s' => happened (MutDelete r) (Deleted res) s s') (fun _ _ => True).
Proof.
  intros Hdb Hkey. unfold delete_key. rewrite Hdb, Hkey. passed. apply post_bind.
  eapply post_mono; [apply connected_post | |done]. intros [] s1 H1.
  apply post_bind. eapply post_mono; [by apply checked_post; [set_solver|] | |done]. intros _ s2 (H2 & _ & old & Hold & Hp).
  apply post_bind. eapply post_mono; [apply single_post | |done]. intros o s3 [Ht Ho]. destruct o as [xs|]; [|done].
  destruct Ho as (Hd & x & -> & Hrun). cbn [run_tx_command] in Hrun. apply pinned_arrive in Hp as [_ Hk]. specialize (Hk Hd). rewrite Hk in Hrun.
  injection Hrun as <- Hkeys. cbn. exists (arrive turns s2), s3, (sv_turn s2), (sv_turn s2).
  pose proof (alone_turn _ _ _ H2). split_and!; [|done|done|lia..|].
  - apply (alone_mono []); [set_solver|]. by apply alone_arrive.
  - exists old. rewrite Hdb, Hkey. by split_and!.
Qed.

Lemma ttl_post r s : tk_db_index r = db -> tk_key r = key ->
  post (set_key_ttl turns connect_timeout_seconds r) s (fun res s' => happened (MutSetTtl r) (Mutated res) s s') (fun _ _ => True).
Proof.
  intros Hdb Hkey. unfold set_key_ttl. rewrite Hdb, Hkey. apply post_bind, post_lift.
  destruct (validate_ttl_request r) as [[]|] eqn:Hv; [|done]. apply post_bind.
  eapply post_mono; [apply connected_post | |done]. intros [] s1 H1.
  apply post_bind. eapply post_mono; [by apply checked_post; [set_solver|] | |done]. intros _ s2 (H2 & _ & old & Hold & Hp).
  apply post_bind, post_clean_up. eapply post_mono; [apply post_looks, looks_key_info | |done]. intros info s3 Ha3.
  apply (pinned_arrived _ _ _ _ Ha3), pinned_arrive in Hp as [_ Hk]. apply (alone_arrived _ _ _ _ H2) in Ha3.
  apply post_bind. eapply post_mono; [apply single_post | |done]. intros o s4 [Ht Ho]. destruct o as [xs|]; [|done].
  destruct Ho as (Hd & x & -> & Hrun). specialize (Hk Hd). apply post_bind, post_lift.
  destruct (int_reply _); [|done]. apply post_ret. exists (arrive turns s3), s4, (sv_turn s3), (sv_turn s3).
  pose proof (alone_turn _ _ _ Ha3). split_and!; [|done|done|lia..|].
  { apply (alone_mono []); [set_solver|]. by apply alone_arrive. }
  exists old. rewrite Hdb, Hkey. split_and!; [done..|]. destruct old as [p dl]. cbn [en_value]. destruct (tk_mode r) eqn:Hmode.
  - unfold run_tx_command, expire_at in Hrun. rewrite Hk in Hrun. destruct (refused_expiry _); [done|]. injection Hrun as <- <-.
    unfold validate_ttl_request in Hv. bind_inv. rewrite Hmode in Hv. unfold refuse, positive in Hv.
    destruct (tk_ttl_seconds r) as [n|]; [done|]. by rewrite bool_decide_false in Hv by (cbn; by intros []).
  - cbn [run_tx_command] in Hrun. rewrite Hk in Hrun. destruct dl; injection Hrun as <- <-; [done|]. by rewrite insert_id.
Qed.

Lemma rename_post r s : rk_db_index r = db -> rk_key r = key ->
  post (rename_key turns connect_timeout_seconds r) s (fun res s' => happened (MutRename r) (Mutated res) s s') (fun _ _ => True).
Proof.
  intros Hdb Hkey. unfold rename_key. rewrite Hdb, Hkey. passed. unfold str_eqb. case_bool_decide as Hsame; apply post_bind;
    (eapply post_mono; [apply connected_post | |done]); intros [] s1 H1; apply post_bind.
  - eapply post_mono; [apply require_now | |done]. intros _ s2 (-> & old & Hk & Hold). apply post_bind.
    eapply post_mono; [apply post_looks, looks_key_info | |done]. intros info s3 Ha3. apply post_ret.
    exists (arrive turns s1), (arrive turns s1), (sv_turn s1), (sv_turn s1). pose proof (alone_turn _ _ _ H1).
    pose proof (alone_turn _ _ _ (arrived_alone _ _ Ha3)) as Ht. cbn [arrive sv_turn] in Ht.
    split_and!; [|done|by apply arrived_alone|lia..|].
    + apply (alone_mono []); [set_solver|]. by apply alone_arrive.
    + exists old. rewrite Hdb, Hkey, <- Hsame. split_and!; [done|done|done|]. left. done.
  - eapply post_mono; [by apply checked_post; [set_solver|] | |done]. intros _ s2 (H2 & Hw & old & Hold & Hp).
    apply post_bind, post_clean_up. eapply post_mono; [apply post_looks, looks_key_info | |done]. intros info s3 Ha3.
    apply post_bind, post_query. eapply post_mono; [apply reading_post | |done].
    { rewrite (watched_arrived _ _ Ha3). apply Hw. set_solver. }
    intros there s4 (Ha4 & e & -> & Hp4). apply post_bind, post_clean_up, post_lift. case_bool_decide as He; [done|].
    apply eq_None_not_Some in He as ->. assert (Ha24 : arrived s2 s4) by by transitivity s3.
    apply (pinned_arrived _ _ _ _ Ha24), pinned_arrive in Hp as [_ Hk]. apply pinned_arrive in Hp4 as [_ Hk4].
    apply (alone_arrived _ _ _ _ H2) in Ha24. apply post_bind. eapply post_mono; [apply single_post | |done].
    intros o s5 [Ht Ho]. destruct o as [xs|]; [|done]. destruct Ho as (Hd & x & -> & Hrun). specialize (Hk Hd). specialize (Hk4 Hd).
    cbn [run_tx_command] in Hrun. rewrite Hk, Hk4 in Hrun. injection Hrun as <- Hkeys. cbn.
    exists (arrive turns s4), s5, (sv_turn s4), (sv_turn s4). pose proof (alone_turn _ _ _ Ha24). split_and!; [|done|done|lia..|].
    + apply (alone_mono []); [set_solver|]. by apply alone_arrive.
    + exists old. rewrite Hdb, Hkey. split_and!; [done..|]. by right.
Qed.
End changes.

(** A temporary key of its own: nobody else writes it, it is not there at the start, and it
    is not the key that is changed. *)
Record own_temporary_key (m : PreparedKeyValueMutation) (tmp : str) (s : Server) : Prop := {
  tmp_untouched n w : w ∈ tn_writes (turns n) -> w.1 <> (mutation_db_index m, tmp);
  tmp_absent : sv_keys s !! (mutation_db_index m, tmp) = None;
  tmp_other : mutation_key m <> tmp;
}.

Lemma mutate_happened uuid m s res s' :
  own_temporary_key m (temporary_key uuid) s -> mutate turns connect_timeout_seconds uuid m s = (Ok res, s') ->
  happened (mutation_db_index m) (temporary_key uuid) m res s s'.
Proof.
  intros [Hun Habs Hne] H.
  assert (Hpost : forall {A} (f : RI A) (c : A -> MutationOutcome),
    post f s (fun a s' => happened (mutation_db_index m) (temporary_key uuid) m (c a) s s') (fun _ _ => True) ->
    (x ← f; mret (c x)) s = (Ok res, s') -> happened (mutation_db_index m) (temporary_key uuid) m res s s').
  { intros A f c Hf Hrun. unfold post in Hf. unfold mbind, ST_bind in Hrun. destruct (f s) as [[a|e] s1]; [|done].
    by injection Hrun as <- <-. }
  destruct m; cbn [mutate mutation_db_index mutation_key] in *; revert H; apply Hpost;
    [by eapply create_post | by eapply set_post | by eapply rename_post | by eapply ttl_post | by eapply delete_post].
Qed.

(** C31: Whatever other clients do between the commands of the driver, a change that is
    reported took effect at one instant: just before it the key held a value with the
    fingerprint the change was made for (a new key and the target of a renaming were not
    there), just after it exactly the change was made, and the new fingerprint is the one
    reported; apart from the temporary key, everything before and after that instant is
    the work of the others.  No write of another client is lost unseen. *)
Theorem reported_change_happened_at_once uuid m s res s' :
  own_temporary_key m (temporary_key uuid) s -> mutate turns connect_timeout_seconds uuid m s = (Ok res, s') ->
  happened (mutation_db_index m) (temporary_key uuid) m res s s'.
Proof. apply mutate_happened. Qed.

(** ** Refused changes *)

(** The errors that do not come from the server or the way to it. *)
Definition is_refusal (e : IpcError) : bool :=
  bool_decide (code e ∉ [AuthFailed; NetworkTimeout; OperationTimeout; OperationOutcomeUnknown; SystemInternal; OperationCanceled]).

Definition harmless {A} (mine : list Key) (r : IpcResult A * Server) (s : Server) : Prop :=
  match r with (Err e, s') => is_refusal e = true -> alone mine s s' | _ => True end.
Definition refuses {A} (mine : list Key) (m : RI A) : Prop := forall s, harmless mine (m s) s.

Lemma classified_is_no_refusal e context : is_refusal (classify_redis_error e context) = false.
Proof. unfold classify_redis_error. by repeat case_match. Qed.

Lemma keeps_refuses {A} mine (m : RI A) : keeps mine m -> refuses mine m.
Proof. intros H s. specialize (H s). unfold harmless. by destruct (m s) as [[a|e] s']. Qed.

Lemma refuses_bind {A B} mine (m : RI A) (f : A -> RI B) : keeps mine m -> (forall a, refuses mine (f a)) -> refuses mine (m ≫= f).
Proof.
  intros Hm Hf s. specialize (Hm s). unfold mbind, ST_bind. destruct (m s) as [[a|e] s1]; [|intros _; exact Hm].
  specialize (Hf a s1). unfold harmless in *. destruct (f a s1) as [[b|e] s2]; [done|]. intros He. etransitivity; [exact Hm|]. by apply Hf.
Qed.

Lemma refuses_then {A B} mine (m : RI A) (f : A -> RI B) : refuses mine m -> (forall a s e s', f a s = (Err e, s') -> is_refusal e = false) ->
  refuses mine (m ≫= f).
Proof.
  intros Hm Hf s. specialize (Hm s). unfold mbind, ST_bind. destruct (m s) as [[a|e] s1]; [|done].
  unfold harmless. destruct (f a s1) as [[b|e] s2] eqn:Hfa; [done|]. by rewrite (Hf _ _ _ _ Hfa).
Qed.

Lemma refuses_clean_up {A} mine (m : RI A) cleanup : refuses mine m -> keeps mine cleanup -> refuses mine (or_clean_up m cleanup).
Proof.
  intros Hm Hc s. specialize (Hm s). unfold or_clean_up, harmless in *. destruct (m s) as [[a|e] s1]; [done|].
  intros He. etransitivity; [by apply Hm | apply Hc].
Qed.

Lemma refuses_query {A B} mine context (m : RC A) (f : A -> RI B) : (forall s a s', m s = (Ok a, s') -> harmless mine (f a s') s) ->
  refuses mine (query context m ≫= f).
Proof.
  intros H s. unfold query, mbind, ST_bind. destruct (m s) as [[a|e] s1] eqn:Hm; [by eapply H|].
  cbn. by rewrite classified_is_no_refusal.
Qed.

(** A transaction that was given up left the keys to the others. *)
Lemma given_up db cs s s' mine : atomically turns db cs s = (Ok None, s') -> alone mine s s'.
Proof.
  intros H. pose proof (atomically_post db cs s) as Hp. unfold post in Hp. rewrite H in Hp. destruct Hp as [Ht Hk].
  apply (alone_mono []); [set_solver|]. destruct (arrive_alone s) as [L Ha]. split; [rewrite Ht; lia|].
  intros k Hn. rewrite Hk, Ht. by apply Ha.
Qed.

Lemma single_done db c s xs s' : atomically turns db [(true, c)] s = (Ok (Some xs), s') ->
  exists x, xs = [x] /\ sv_turn s' = S (sv_turn s)
    /\ run_tx_command db (tn_now (turns (sv_turn s))) c (sv_keys (arrive turns s)) = (Ok x, sv_keys s').
Proof.
  intros H. pose proof (single_post db c "x" s) as Hp. unfold post, query in Hp. rewrite H in Hp.
  destruct Hp as (Ht & _ & x & -> & Hrun). by exists x.
Qed.

Lemma alone_unchanged mine s s' : sv_turn s' = S (sv_turn s) -> sv_keys s' = sv_keys (arrive turns s) -> alone mine s s'.
Proof.
  intros Ht Hk. apply (alone_mono []); [set_solver|]. destruct (arrive_alone s) as [L Ha]. split; [rewrite Ht; lia|].
  intros k Hn. rewrite Hk, Ht. by apply Ha.
Qed.

Lemma run_keeps_lift {A} mine (r : IpcResult A) : keeps mine (st_lift r : RI A).
Proof. apply looks_keeps, looks_lift. Qed.

Lemma keeps_watch_expected db key fp watched context mine : keeps mine (watch_expected turns db key fp watched context).
Proof.
  apply run_keeps_bind; [apply keeps_query, keeps_watch|]. intros []. apply keeps_clean_up; [apply looks_keeps, looks_require | apply keeps_unwatch].
Qed.

Lemma delete_refuses r mine : refuses mine (delete_key turns connect_timeout_seconds r).
Proof.
  unfold delete_key. apply refuses_bind; [apply run_keeps_lift|]. intros []. apply refuses_bind; [apply keeps_connection|]. intros [].
  apply refuses_bind; [apply keeps_watch_expected|]. intros _. apply refuses_query. intros s [xs|] s' H.
  - apply single_done in H as (x & -> & Ht & Hrun). cbn [run_tx_command] in Hrun. injection Hrun as <- Hkeys. cbn.
    case_bool_decide as Hk; [done|]. cbn. intros _. apply alone_unchanged; [done|]. rewrite <- Hkeys. apply delete_id. by apply eq_None_not_Some.
  - intros _. by eapply given_up.
Qed.

Lemma ttl_refuses r mine : refuses mine (set_key_ttl turns connect_timeout_seconds r).
Proof.
  unfold set_key_ttl. apply refuses_bind; [apply run_keeps_lift|]. intros []. apply refuses_bind; [apply keeps_connection|]. intros [].
  apply refuses_bind; [apply keeps_watch_expected|]. intros _.
  apply refuses_bind; [apply keeps_clean_up; [apply looks_keeps, looks_key_info | apply keeps_unwatch]|]. intros info.
  apply refuses_query. intros s [xs|] s' H; [|intros _; by eapply given_up].
  apply single_done in H as (x & -> & _ & Hrun). destruct (tk_mode r); cbn [run_tx_command] in Hrun.
  - unfold expire_at in Hrun. repeat case_match; try done; by injection Hrun as <- _.
  - repeat case_match; by injection Hrun as <- _.
Qed.

Lemma rename_refuses r mine : refuses mine (rename_key turns connect_timeout_seconds r).
Proof.
  unfold rename_key. apply refuses_bind; [apply run_keeps_lift|]. intros []. destruct (str_eqb _ _); apply refuses_bind; try apply keeps_connection; intros [].
  { apply keeps_refuses. apply looks_keeps. apply looks_bind; [apply looks_require|]. intros _. auto with looks. }
  apply refuses_bind; [apply keeps_watch_expected|]. intros _.
  apply refuses_bind; [apply keeps_clean_up; [apply looks_keeps, looks_key_info | apply keeps_unwatch]|]. intros info.
  apply refuses_bind; [apply keeps_query, looks_keeps, looks_reading|]. intros there.
  apply refuses_bind; [apply keeps_clean_up; [apply run_keeps_lift | apply keeps_unwatch]|]. intros [].
  apply refuses_query. intros s [xs|] s' H; [|intros _; by eapply given_up].
  apply single_done in H as (x & -> & Ht & Hrun). cbn [run_tx_command] in Hrun.
  repeat case_match; try done; injection Hrun as <- Hkeys; [|done]. cbn. intros _. by apply alone_unchanged.
Qed.

Lemma placed_refuses db tmp key target_type pttl policy seconds gone what fp : 
  refuses [(db, tmp)] (put_in_place turns db tmp key target_type pttl policy seconds gone what fp).
Proof.
  unfold put_in_place. apply refuses_then; [|intros a s e s'; case_bool_decide; [by intros [= <- _] | done]].
  apply refuses_clean_up; [|apply keeps_cleanup; set_solver]. unfold replace_temporary_key. intros s.
  unfold mbind at 1 2, ST_bind at 1 2. destruct (append_ttl_command _ _ _ _) as [c|e] eqn:Hc; cbn; [|intros _; done].
  unfold query, mbind at 1, ST_bind at 1. set (cs := [_; _; _]).
  destruct (atomically turns db cs s) as [[[xs|]|e] s'] eqn:H; cbn; [|intros _; by eapply given_up | by rewrite classified_is_no_refusal].
  pose proof (atomically_post db cs s) as Hp. unfold post in Hp. rewrite H in Hp. destruct Hp as (_ & _ & rs & Hrun & Hcol).
  assert (Hl := run_tx_length db (tn_now (turns (sv_turn s))) (map snd cs) (sv_keys (arrive turns s))). rewrite Hrun in Hl.
  destruct rs as [|r1 [|r2 [|r3 [|]]]]; try done. cbn [cs map snd run_tx] in Hrun.
  destruct (run_tx_command _ _ (TxRename _ _) _) as [x1 k1], (run_tx_command _ _ c k1) as [x2 k2]. cbn in Hrun.
  injection Hrun as <- <- <- _. cbn in Hcol. destruct x1; [|done]. destruct x2; [|done]. cbn in Hcol. by injection Hcol as <-.
Qed.

Lemma set_refuses uuid r : refuses [(sk_db_index r, temporary_key uuid)] (set_key_value turns connect_timeout_seconds uuid r).
Proof.
  assert (Ha : keeps [(sk_db_index r, temporary_key uuid)] (abort_temporary_mutation turns (sk_db_index r) (temporary_key uuid)))
    by (apply keeps_abort; set_solver).
  unfold set_key_value. do 4 (apply refuses_bind; [apply run_keeps_lift|]; intros []). apply refuses_bind; [apply keeps_connection|]. intros [].
  apply refuses_bind; [apply keeps_stage|]. intros fp.
  apply refuses_bind; [apply keeps_clean_up; [apply looks_keeps, looks_require | done]|]. intros _.
  apply refuses_bind; [apply keeps_clean_up; [apply looks_keeps, looks_key_info | done]|]. intros info.
  apply refuses_bind; [apply keeps_clean_up; [apply run_keeps_lift | done]|]. intros [].
  apply refuses_bind; [apply keeps_clean_up; [apply keeps_query, looks_keeps, looks_reading | done]|]. intros pttl. apply placed_refuses.
Qed.

Lemma create_refuses uuid r : refuses [(ck_db_index r, temporary_key uuid)] (create_key_value turns connect_timeout_seconds uuid r).
Proof.
  assert (Ha : keeps [(ck_db_index r, temporary_key uuid)] (abort_temporary_mutation turns (ck_db_index r) (temporary_key uuid)))
    by (apply keeps_abort; set_solver).
  unfold create_key_value. apply refuses_bind; [apply run_keeps_lift|]. intros []. apply refuses_bind; [apply keeps_connection|]. intros [].
  apply refuses_bind; [apply keeps_stage|]. intros fp.
  apply refuses_bind; [apply keeps_clean_up; [apply keeps_query, looks_keeps, looks_reading | done]|]. intros there.
  apply refuses_bind; [apply keeps_clean_up; [apply run_keeps_lift | done]|]. intros []. apply placed_refuses.
Qed.

Lemma mutate_refuses uuid m : refuses [(mutation_db_index m, temporary_key uuid)] (mutate turns connect_timeout_seconds uuid m).
Proof.
  destruct m; (apply refuses_then; [|done]);
    [apply create_refuses | apply set_refuses | apply rename_refuses | apply ttl_refuses | apply delete_refuses].
Qed.

(** A change that is refused had no effect: when an operation fails with a conflict, a
    missing key or a failed check, every key but the temporary one is as the other clients
    left it, whatever failed on the way. *)
Theorem refused_change_has_no_effect uuid m s e s' : mutate turns connect_timeout_seconds uuid m s = (Err e, s') -> is_refusal e = true ->
  alone [(mutation_db_index m, temporary_key uuid)] s s'.
Proof. intros H. pose proof (mutate_refuses uuid m s) as Hr. by rewrite H in Hr. Qed.
End safety.

(** ** Examples *)

(** A server whose values are texts; times to live are 64-bit, as those of Redis. *)
Definition text_server : RedisEngine (J := IntegerNumber) := {|
  Payload := str;
  RedisError := str;
  redis_error_text e := e;
  write_value w old := Ok (match w with SET text | JSON_SET text => text | _ => default [] old end);
  dump_of text := text;
  type_of _ := lit "string";
  read_string o := Ok o;
  read_json o := Ok (default [] o);
  read_hash _ := Ok [];
  read_list _ := Ok [];
  read_members _ := Ok [];
  read_scored _ := Ok [];
  read_entries _ := Ok [];
  refused_expiry ms := if (I64_MAX <? ms)%Z then Some (lit "value is not an integer or out of range") else None;
  no_such_key := lit "no such key";
  scan_keys _ _ _ keys := (0%Z, keys);
  sha256_digest text := take 32 (text ++ repeat 0%Z 32);
  from_utf8 bytes := Some bytes;
  json_error _ := None;
|}.

(** Before the command numbered [n] another client writes the key "b", and the clock
    shows [n]. *)
Definition busy_turns (n : nat) : Turn (E := text_server) :=
  mkTurn (E := text_server) [((0%Z, lit "b"), Some (mkEntry (E := text_server) (lit "theirs") None))] (Z.of_nat n) false None None.

Definition with_a : Server (E := text_server) :=
  mkServer (E := text_server) {[ (0%Z, lit "a") := mkEntry (E := text_server) (lit "old") None ]} [] false 0.

Definition replace_a (ttl : option Z) : PreparedKeyValueMutation (J := IntegerNumber) :=
  MutSet (mkRedisSetKeyValueRequest 0 (lit "a") (EditString (lit "new")) (fingerprint_dump (E := text_server) (lit "old")) None
    (Some (match ttl with Some _ => TtlExpire | None => TtlKeep end)) ttl).

Definition demo_mutate (turns : nat -> Turn (E := text_server)) (m : PreparedKeyValueMutation) :=
  mutate (E := text_server) turns None (lit "u1") m with_a.

Lemma own_a ttl : own_temporary_key (E := text_server) busy_turns (replace_a ttl) (temporary_key (lit "u1")) with_a.
Proof.
  split.
  - intros n w Hw. apply list_elem_of_singleton in Hw as ->. discriminate.
  - reflexivity.
  - discriminate.
Qed.

Lemma reported_change_happened_at_once_witness :
  exists res s', demo_mutate busy_turns (replace_a None) = (Ok res, s')
    /\ happened (E := text_server) busy_turns 0 (temporary_key (lit "u1")) (replace_a None) res with_a s'.
Proof.
  destruct (demo_mutate busy_turns (replace_a None)) as [[res|e] s'] eqn:H.
  - exists res, s'. split; [reflexivity|].
    exact (reported_change_happened_at_once (E := text_server) busy_turns None (lit "u1") (replace_a None) with_a res s' (own_a None) H).
  - exfalso. apply (f_equal (fun r => is_ok r.1)) in H. vm_compute in H. discriminate H.
Defined.

(** Another client writes the key itself just before every command. *)
Definition racing_turns (n : nat) : Turn (E := text_server) :=
  mkTurn (E := text_server) [((0%Z, lit "a"), Some (mkEntry (E := text_server) (if 6 <? n then lit "theirs" else lit "old") None))] 0 false None None.

Lemma refused_change_has_no_effect_witness :
  exists e s', demo_mutate racing_turns (replace_a None) = (Err e, s') /\ is_refusal e = true
    /\ alone (E := text_server) racing_turns [(0%Z, temporary_key (lit "u1"))] with_a s'.
Proof.
  destruct (demo_mutate racing_turns (replace_a None)) as [[res|e] s'] eqn:H.
  - exfalso. apply (f_equal (fun r => is_ok r.1)) in H. vm_compute in H. discriminate H.
  - assert (He : is_refusal e = true).
    { apply (f_equal (fun r => match r.1 with Err e => is_refusal e | Ok _ => false end)) in H. cbn in H. rewrite <- H. vm_compute. reflexivity. }
    exists e, s'. split; [reflexivity|]. split; [exact He|].
    exact (refused_change_has_no_effect (E := text_server) racing_turns None (lit "u1") (replace_a None) with_a e s' H He).
Defined.

(** ** Where the code departs from what it means to do *)

(** What the key "a" holds and when it expires. *)
Definition at_a (s : Server (E := text_server)) : option (str * option Z) :=
  match sv_keys (E := text_server) s !! (0%Z, lit "a") with
  | Some e => Some (en_value (E := text_server) e, en_deadline (E := text_server) e)
  | None => None
  end.

(** A time to live that the server refuses: the transaction is reported as failed, but
    the commands of a transaction all run, so the key holds the new value, and with it the
    five minutes that the temporary key was given. *)
Theorem refused_expiry_shortens_the_life :
  let r := demo_mutate busy_turns (replace_a (Some 10000000000000000%Z)) in
  is_ok r.1 = false /\ at_a with_a = Some (lit "old", None)
  /\ exists d, at_a r.2 = Some (lit "new", Some d) /\ (d <= Z.of_nat (sv_turn (E := text_server) r.2) + TEMPORARY_KEY_TTL_MS)%Z.
Proof.
  intros r. split; [vm_compute; reflexivity|]. split; [vm_compute; reflexivity|].
  exists 300002%Z. split; vm_compute; [reflexivity | discriminate].
Qed.
