(* ===== verification/RedisKeys.v ===== *)
(** * Key trees and deletion by pattern ([src-tauri/src/engine/drivers/redis.rs])

    The tree of folders that the browser shows for the keys of a database, the listing of
    the databases, the loop over [SCAN], the deletion of all keys that match a pattern and
    the URL of the server.  The theorems: the tree has every key exactly once, each folder
    counts the keys below it and all of them begin with its prefix; a deletion by pattern
    deletes every matching key that no one else writes meanwhile, and touches no other. *)

From stdpp Require Import base gmap list strings fin_maps sorting.
From Stdlib Require Import ZArith Lia.
From S2P Require Import Prelude Errors Digits Types RedisDriver RedisSafety.

Abbreviation c_colon := 58%Z.

(** ** Key trees *)

Record RedisKeyTreeRequest := mkRedisKeyTreeRequest { tq_db_index : Z; tq_pattern : str; tq_count : Z }.
Inductive RedisKeyTreeNodeKind := KindPrefix | KindKey.
Inductive RedisKeyTreeNode := mkRedisKeyTreeNode {
  tn_id : str;
  tn_label : str;
  tn_node_type : RedisKeyTreeNodeKind;
  tn_prefix : option str;
  tn_pattern : option str;
  tn_key : option str;
  tn_key_count : Z;
  tn_value_type : option str;
  tn_children : list RedisKeyTreeNode;
}.
Record RedisKeyTreeResult := mkRedisKeyTreeResult {
  tr_db_index : Z;
  tr_pattern : str;
  tr_total_key_count : Z;
  tr_nodes : list RedisKeyTreeNode;
}.

(** A node while the tree is built: the positions of its folders by their prefix. *)
Inductive MutableKeyTreeNode := mkMutableKeyTreeNode {
  mn_id : str;
  mn_label : str;
  mn_node_type : RedisKeyTreeNodeKind;
  mn_prefix : option str;
  mn_pattern : option str;
  mn_key : option str;
  mn_key_count : Z;
  mn_value_type : option str;
  mn_children : list MutableKeyTreeNode;
  mn_child_map : gmap str nat;
}.

Definition prefix_node (prefix label : str) : MutableKeyTreeNode :=
  mkMutableKeyTreeNode (lit "prefix:" ++ prefix) label KindPrefix (Some prefix) (Some (prefix ++ [c_star])) None 0 None [] ∅.
Definition key_node (key label : str) (value_type : option str) : MutableKeyTreeNode :=
  mkMutableKeyTreeNode (lit "key:" ++ key) label KindKey None None (Some key) 1 value_type [] ∅.

Definition key_segment_label (segment : str) : str := match segment with [] => lit "(empty)" | _ => segment end.

Definition is_prefix_kind (k : RedisKeyTreeNodeKind) : bool := match k with KindPrefix => true | KindKey => false end.

(** [left <= right] in the order of [sort_by]. *)
Definition node_le (left right : RedisKeyTreeNode) : bool :=
  match is_prefix_kind (tn_node_type left), is_prefix_kind (tn_node_type right) with
  | true, false => true
  | false, true => false
  | _, _ =>
    match str_compare (tn_label left) (tn_label right) with
    | Lt => true
    | Gt => false
    | Eq => match str_compare (tn_id left) (tn_id right) with Gt => false | _ => true end
    end
  end.

(** A stable sort. *)
Fixpoint insert_node (n : RedisKeyTreeNode) (l : list RedisKeyTreeNode) : list RedisKeyTreeNode :=
  match l with
  | [] => [n]
  | x :: l' => if node_le n x then n :: l else x :: insert_node n l'
  end.
Definition sort_key_tree_nodes (l : list RedisKeyTreeNode) : list RedisKeyTreeNode := foldr insert_node [] l.

Fixpoint into_tree_node (n : MutableKeyTreeNode) : RedisKeyTreeNode :=
  mkRedisKeyTreeNode (mn_id n) (mn_label n) (mn_node_type n) (mn_prefix n) (mn_pattern n) (mn_key n) (mn_key_count n) (mn_value_type n)
    (sort_key_tree_nodes (map into_tree_node (mn_children n))).

(** The position of the folder among its siblings, which may be new. *)
Definition get_or_create_prefix (siblings : list MutableKeyTreeNode) (sibling_map : gmap str nat) (prefix label : str)
    : nat * list MutableKeyTreeNode * gmap str nat :=
  match sibling_map !! prefix with
  | Some index => (index, siblings, sibling_map)
  | None => (length siblings, siblings ++ [prefix_node prefix label], <[prefix := length siblings]> sibling_map)
  end.

Definition set_below (n : MutableKeyTreeNode) (children : list MutableKeyTreeNode) (child_map : gmap str nat) : MutableKeyTreeNode :=
  mkMutableKeyTreeNode (mn_id n) (mn_label n) (mn_node_type n) (mn_prefix n) (mn_pattern n) (mn_key n) (mn_key_count n + 1) (mn_value_type n)
    children child_map.

(** One key, below the folder with [prefix], for what is left of its segments. *)
Fixpoint insert_key (key : str) (value_type : option str) (prefix : str) (segments : list str)
    (siblings : list MutableKeyTreeNode) (sibling_map : gmap str nat) : list MutableKeyTreeNode * gmap str nat :=
  match segments with
  | [] => (siblings, sibling_map)
  | [last] => (siblings ++ [key_node key (key_segment_label last) value_type], sibling_map)
  | segment :: segments =>
    let prefix := prefix ++ segment ++ [c_colon] in
    let '(index, siblings, sibling_map) := get_or_create_prefix siblings sibling_map prefix (key_segment_label segment) in
    (alter (fun node => let r := insert_key key value_type prefix segments (mn_children node) (mn_child_map node) in
                        set_below node r.1 r.2) index siblings,
     sibling_map)
  end.

Definition insert_keys (key_types : gmap str str) (keys : list str) (roots : list MutableKeyTreeNode * gmap str nat)
    : list MutableKeyTreeNode * gmap str nat :=
  fold_left (fun roots key => insert_key key (normalize_redis_type <$> key_types !! key) [] (split_char c_colon key) roots.1 roots.2) keys roots.

Definition build_key_tree_result (db_index : Z) (pattern : str) (keys : list str) (key_types : gmap str str) : RedisKeyTreeResult :=
  let roots := (insert_keys key_types keys ([], ∅)).1 in
  mkRedisKeyTreeResult db_index pattern (Z.of_nat (length keys)) (sort_key_tree_nodes (map into_tree_node roots)).

(** ** The databases of a server *)

(** [str::lines] *)
Definition strip_cr (s : str) : str := match rev s with 13%Z :: r => rev r | _ => s end.
Definition lines (s : str) : list str :=
  let ls := split_char c_nl s in
  map strip_cr (match rev ls with [] :: r => rev r | _ => ls end).

Definition split_once_colon (s : str) : option (str * str) := split_at_first [c_colon] s.

(** [dbN:keys=...,expires=...]: the number and what follows. *)
Definition database_line (line : str) : option (Z * str) :=
  rest ← strip_prefix (lit "db") line;
  p ← split_once_colon rest;
  index ← parse_uint 255 p.1;
  Some (index, p.2).

Fixpoint find_keys_field (fields : list str) : option Z :=
  match fields with
  | [] => None
  | field :: fields =>
    match strip_prefix (lit "keys=") field ≫= parse_uint U64_MAX with Some n => Some n | None => find_keys_field fields end
  end.

Definition keyspace_count (counts : gmap Z Z) (line : str) : gmap Z Z :=
  match database_line (trim line) with
  | Some (index, stats) =>
    match find_keys_field (split_char c_comma stats) with Some n => <[index := n]> counts | None => counts end
  | None => counts
  end.
Definition parse_keyspace_counts (info : str) : gmap Z Z := fold_left keyspace_count (lines info) ∅.

(** [values.chunks(2).find_map(...)]: the number after the word "databases". *)
Fixpoint databases_setting (values : list str) : option Z :=
  match values with
  | key :: value :: values =>
    match (if str_eqb (str_lower key) (lit "databases") then parse_uint 65535 value else None) with
    | Some n => Some n
    | None => databases_setting values
    end
  | _ => None
  end.

(** The set of numbers that are listed, in order. *)
Definition listed_indices (info : str) : list Z :=
  merge_sort Z.le (remove_dups (omap (fun line => fst <$> database_line line) (lines info))).

Definition zeros_to (n : Z) : list Z := map Z.of_nat (seq 0 (Z.to_nat n)).

(** ** The URL of the server *)

Definition build_redis_url_for_endpoint (use_tls : bool) (username : option str) (password : str) (db_index : option Z) (host : str) (port : Z) : str :=
  let scheme := lit (if use_tls then "rediss" else "redis") in
  let auth := match username with
    | Some username => if bool_decide (username <> []) || bool_decide (password <> []) then username ++ [c_colon] ++ password ++ lit "@" else []
    | None => if bool_decide (password <> []) then [c_colon] ++ password ++ lit "@" else []
    end in
  scheme ++ lit "://" ++ auth ++ host ++ [c_colon] ++ to_dec port
    ++ match db_index with Some i => lit "/" ++ to_dec i | None => [] end.

Section keys.
Context {J : JsonNumber} {E : RedisEngine}.
Context (turns : nat -> Turn) (connect_timeout_seconds : option Z).

(** [CONFIG GET databases] and [INFO keyspace] answer what they are given here. *)
Definition list_database_indices (config : Result RedisError (list str)) (info : Result RedisError str) : RI (list Z) :=
  _ ← default_connection turns connect_timeout_seconds;
  values ← attempt (command turns (fun _ s => (config, s)));
  match values ≫= databases_setting with
  | Some count => mret (zeros_to (Z.min count 256))
  | None =>
    info ← attempt (command turns (fun _ s => (info, s)));
    let indices := match info with Some info => listed_indices info | None => [] end in
    mret (match indices with [] => [0%Z] | _ => indices end)
  end.

(** ** Scanning *)

Definition keys_of (db : Z) (ks : Keyspace) : list str := map (fun p => p.1.2) (filter (fun p => p.1.1 = db) (map_to_list ks)).

Definition SCAN (db cursor : Z) (pattern : str) (count : Z) : RC (Z * list str) :=
  command turns (fun _ s => (Ok (scan_keys cursor pattern count (keys_of db (sv_keys s))), s)).

Definition scan_key_values (r : RedisScanRequest) : RI RedisScanResult :=
  _ ← connection turns connect_timeout_seconds;
  p ← query "key scan" (SCAN (sr_db_index r) (sr_cursor r) (sr_pattern r) (sr_count r));
  mret (mkRedisScanResult p.1 (map (fun key => mkRedisKeyInfo key (lit "key") (-1) None) p.2)).

(** [BTreeSet]: in order, without repetitions. *)
Fixpoint set_insert (key : str) (l : list str) : list str :=
  match l with
  | [] => [key]
  | x :: l' => match str_compare key x with Lt => key :: l | Eq => l | Gt => x :: set_insert key l' end
  end.
Definition set_extend (batch keys : list str) : list str := fold_left (fun keys key => set_insert key keys) batch keys.

(** The loop over [SCAN]: no answer when it does not end within [fuel] turns, since the
    source has no bound. *)
Fixpoint scan_loop (fuel : nat) (context : string) (db : Z) (pattern : str) (count cursor : Z) (keys : list str) : RI (option (list str)) :=
  match fuel with
  | O => mret None
  | S fuel =>
    p ← query context (SCAN db cursor pattern count);
    let keys := set_extend p.2 keys in
    if (p.1 =? 0)%Z then mret (Some keys) else scan_loop fuel context db pattern count p.1 keys
  end.

(** The types of all keys, in one pipeline. *)
Definition batch_types (db : Z) (keys : list str) : RC (list str) :=
  command turns (fun _ s => (Ok (map (fun key => match sv_keys s !! (db, key) with Some e => type_of (en_value e) | None => lit "none" end) keys), s)).

Definition browse_key_tree (fuel : nat) (r : RedisKeyTreeRequest) : RI (option RedisKeyTreeResult) :=
  let db := tq_db_index r in
  _ ← connection turns connect_timeout_seconds;
  keys ← scan_loop fuel "key tree scan" db (tq_pattern r) (Z.max (tq_count r) 1) 0 [];
  match keys with
  | None => mret None
  | Some keys =>
    types ← match keys with [] => mret [] | _ => query "batch type lookup" (batch_types db keys) end;
    mret (Some (build_key_tree_result db (tq_pattern r) keys (list_to_map (zip keys types))))
  end.

(** ** Deleting by pattern *)

Definition DELETE_SCAN_COUNT : Z := 1000.
Definition DELETE_BATCH_SIZE : nat := 500.

(** [keys.chunks(DELETE_BATCH_SIZE)]: the fuel is the number of keys. *)
Fixpoint chunks (fuel : nat) (keys : list str) : list (list str) :=
  match fuel, keys with
  | S fuel, _ :: _ => take DELETE_BATCH_SIZE keys :: chunks fuel (drop DELETE_BATCH_SIZE keys)
  | _, _ => []
  end.

Fixpoint delete_chunks (db : Z) (cs : list (list str)) (deleted_count : Z) : RI Z :=
  match cs with
  | [] => mret deleted_count
  | chunk :: cs =>
    count ← query "delete keys" (DEL turns (map (pair db) chunk));
    delete_chunks db cs (deleted_count + count)
  end.
Definition delete_matching_keys (db : Z) (keys : list str) : RI Z := delete_chunks db (chunks (length keys) keys) 0.

Definition delete_key_prefix (fuel : nat) (r : RedisDeleteKeyPrefixRequest) : RI (option RedisDeleteKeyResult) :=
  let db := dp_db_index r in
  _ ← st_lift (validate_delete_key_prefix_request r);
  let pattern := trim (dp_pattern r) in
  _ ← connection turns connect_timeout_seconds;
  keys ← scan_loop fuel "delete prefix scan" db pattern DELETE_SCAN_COUNT 0 [];
  match keys with
  | None => mret None
  | Some keys =>
    deleted_count ← delete_matching_keys db keys;
    mret (Some (delete_result db None (Some pattern) deleted_count))
  end.
End keys.

(** ** The tree is faithful *)

(** The keys of a node and below it. *)
Fixpoint leaves (n : RedisKeyTreeNode) : list str :=
  match tn_key n with Some k => [k] | None => concat (map leaves (tn_children n)) end.

(** A node below the folder with [prefix]: a key that begins with it, or a folder whose own
    prefix extends it by one segment and that counts what is below it. *)
Inductive counted (prefix : str) : RedisKeyTreeNode -> Prop :=
| counted_key n k rest : tn_node_type n = KindKey -> tn_key n = Some k -> tn_key_count n = 1%Z -> k = prefix ++ rest -> counted prefix n
| counted_prefix n segment : let q := prefix ++ segment ++ [c_colon] in
    tn_node_type n = KindPrefix -> tn_key n = None -> tn_prefix n = Some q -> tn_pattern n = Some (q ++ [c_star]) ->
    tn_key_count n = Z.of_nat (length (leaves n)) -> Forall (counted q) (tn_children n) -> counted prefix n.

Fixpoint mleaves (n : MutableKeyTreeNode) : list str :=
  match mn_key n with Some k => [k] | None => concat (map mleaves (mn_children n)) end.

Definition map_ok (siblings : list MutableKeyTreeNode) (m : gmap str nat) : Prop :=
  forall q i, m !! q = Some i -> exists n, siblings !! i = Some n /\ mn_prefix n = Some q.

Inductive growing (prefix : str) : MutableKeyTreeNode -> Prop :=
| growing_key n k rest : mn_node_type n = KindKey -> mn_key n = Some k -> mn_key_count n = 1%Z -> k = prefix ++ rest ->
    mn_prefix n = None -> growing prefix n
| growing_prefix n segment : let q := prefix ++ segment ++ [c_colon] in
    mn_node_type n = KindPrefix -> mn_key n = None -> mn_prefix n = Some q -> mn_pattern n = Some (q ++ [c_star]) ->
    mn_key_count n = Z.of_nat (length (mleaves n)) -> Forall (growing q) (mn_children n) -> map_ok (mn_children n) (mn_child_map n) ->
    growing prefix n.

Lemma growing_ind' (P : str -> MutableKeyTreeNode -> Prop) :
  (forall prefix n, growing prefix n -> (forall q, Forall (growing q) (mn_children n) -> Forall (P q) (mn_children n)) -> P prefix n) ->
  forall n prefix, growing prefix n -> P prefix n.
Proof.
  intros H. fix IH 1. intros [id label type pre pat key count vt children m] prefix Hg. apply H; [exact Hg|]. cbn. intros q Hq. clear Hg.
  induction children as [|c children IHc]; [constructor|]. inversion Hq; subst. constructor; [by apply IH | by apply IHc].
Qed.

Lemma insert_node_perm n l : insert_node n l ≡ₚ n :: l.
Proof. induction l as [|x l IH]; cbn; [done|]. destruct (node_le n x); [done|]. rewrite IH. apply Permutation_swap. Qed.

Lemma sort_nodes_perm l : sort_key_tree_nodes l ≡ₚ l.
Proof. induction l as [|x l IH]; cbn; [done|]. unfold sort_key_tree_nodes in *. by rewrite insert_node_perm, IH. Qed.

Lemma concat_perm {A B} (f : A -> list B) l l' : l ≡ₚ l' -> concat (map f l) ≡ₚ concat (map f l').
Proof. induction 1; cbn; [done | by f_equiv | by rewrite !(assoc (++)), (comm (++) (f y)) | by etransitivity]. Qed.

Lemma concat_pointwise {A B C} (f : A -> list C) (g : B -> list C) (h : A -> B) l :
  Forall (fun x => g (h x) ≡ₚ f x) l -> concat (map g (map h l)) ≡ₚ concat (map f l).
Proof. induction 1; cbn; [done|]. by f_equiv. Qed.

Lemma into_tree_node_ok n prefix : growing prefix n -> counted prefix (into_tree_node n) /\ leaves (into_tree_node n) ≡ₚ mleaves n.
Proof.
  revert n prefix. apply growing_ind'. intros prefix n Hg IH. destruct Hg as [n k rest|n segment q Hty Hk Hp Hpat Hcount Hch Hmap]; subst.
  - destruct n; cbn in *. subst. split; [|done]. by eapply counted_key.
  - specialize (IH q Hch). destruct n as [id label type pre pat key count vt children m]; cbn in *. subst.
    assert (Hl : leaves (into_tree_node (mkMutableKeyTreeNode id label KindPrefix (Some q) (Some (q ++ [c_star])) None
      (Z.of_nat (length (concat (map mleaves children)))) vt children m)) ≡ₚ concat (map mleaves children)).
    { cbn. rewrite (concat_perm _ _ _ (sort_nodes_perm _)). apply concat_pointwise. eapply Forall_impl; [exact IH|]. cbn. by intros x [_ Hx]. }
    split; [|exact Hl]. eapply counted_prefix; cbn; [done..| |].
    + apply Permutation_length in Hl. cbn in Hl. by rewrite Hl.
    + rewrite sort_nodes_perm, Forall_map. eapply Forall_impl; [exact IH|]. cbn. by intros x [Hx _].
Qed.

Lemma split_char_not_nil c s : split_char c s <> [].
Proof. destruct s as [|x s]; [done|]. cbn. destruct (x =? c)%Z; [done|]. by destruct (split_char c s). Qed.

Lemma join_split_char c s : join [c] (split_char c s) = s.
Proof.
  induction s as [|x s IH]; [done|]. cbn. pose proof (split_char_not_nil c s). destruct (Z.eqb_spec x c) as [->|].
  - destruct (split_char c s); [done|]. cbn in *. by rewrite IH.
  - destruct (split_char c s) as [|p [|p' ps]]; [done| |]; cbn in *; by rewrite <- IH.
Qed.

Lemma alter_split {A} (f : A -> A) i (l : list A) x : l !! i = Some x -> exists l1 l2, l = l1 ++ x :: l2 /\ alter f i l = l1 ++ f x :: l2.
Proof.
  revert i. induction l as [|y l IH]; intros [|i] H; try done.
  - injection H as ->. by exists [], l.
  - destruct (IH i H) as (l1 & l2 & -> & Hl). exists (y :: l1), l2. split; [done|]. cbn. f_equal. exact Hl.
Qed.

Lemma prefix_node_growing prefix segment label : growing prefix (prefix_node (prefix ++ segment ++ [c_colon]) label).
Proof. by eapply growing_prefix with (segment := segment); cbn; [..|intros ?]. Qed.

(** The folder is there, with its siblings as they were or it alone added. *)
Lemma get_or_create_ok prefix segment label siblings m : Forall (growing prefix) siblings -> map_ok siblings m ->
  exists node siblings' m' index, get_or_create_prefix siblings m (prefix ++ segment ++ [c_colon]) label = (index, siblings', m')
    /\ siblings' !! index = Some node /\ mn_prefix node = Some (prefix ++ segment ++ [c_colon])
    /\ Forall (growing prefix) siblings' /\ map_ok siblings' m' /\ concat (map mleaves siblings') = concat (map mleaves siblings).
Proof.
  intros Hs Hm. unfold get_or_create_prefix. destruct (m !! _) as [i|] eqn:Hi.
  - destruct (Hm _ _ Hi) as (node & Hn & Hp). by exists node, siblings, m, i.
  - eexists (prefix_node _ label), _, _, _. split; [done|]. split_and!.
    + rewrite lookup_app_r, Nat.sub_diag by done. done.
    + done.
    + apply Forall_app. split; [done|]. constructor; [apply prefix_node_growing|done].
    + intros q i [[<- <-]|[_ H]]%lookup_insert_Some.
      * eexists. by rewrite lookup_app_r, Nat.sub_diag by done.
      * destruct (Hm _ _ H) as (n & Hn & Hq). exists n. by rewrite (lookup_app_l_Some _ _ _ _ Hn).
    + rewrite map_app, concat_app. cbn. by rewrite !app_nil_r.
Qed.

Lemma map_ok_alter siblings m i f node : siblings !! i = Some node -> mn_prefix (f node) = mn_prefix node ->
  map_ok siblings m -> map_ok (alter f i siblings) m.
Proof.
  intros Hn Hf Hm q j Hj. destruct (Hm _ _ Hj) as (n & Hnj & Hq). destruct (decide (i = j)) as [->|].
  - exists (f n). rewrite list_lookup_alter_eq, Hnj. split; [done|]. simplify_eq. by rewrite Hf.
  - exists n. by rewrite list_lookup_alter_ne.
Qed.

Lemma insert_key_cons key vt prefix segment next segments siblings m :
  let q := prefix ++ segment ++ [c_colon] in
  insert_key key vt prefix (segment :: next :: segments) siblings m =
  let '(index, siblings, m) := get_or_create_prefix siblings m q (key_segment_label segment) in
  (alter (fun n => let r := insert_key key vt q (next :: segments) (mn_children n) (mn_child_map n) in set_below n r.1 r.2) index siblings, m).
Proof. reflexivity. Qed.

Lemma insert_key_ok key vt segments prefix siblings m : segments <> [] -> key = prefix ++ join [c_colon] segments ->
  Forall (growing prefix) siblings -> map_ok siblings m ->
  let r := insert_key key vt prefix segments siblings m in
  Forall (growing prefix) r.1 /\ map_ok r.1 r.2 /\ concat (map mleaves r.1) ≡ₚ key :: concat (map mleaves siblings).
Proof.
  revert prefix siblings m. induction segments as [|segment segments IH]; intros prefix siblings m Hne Hkey Hs Hm; [done|].
  destruct segments as [|next segments].
  - cbn. split_and!.
    + apply Forall_app. split; [done|]. constructor; [|done]. by eapply growing_key.
    + intros q i Hi. destruct (Hm _ _ Hi) as (n & Hn & Hq). exists n. by rewrite (lookup_app_l_Some _ _ _ _ Hn).
    + rewrite map_app, concat_app. cbn. by rewrite (comm (++)).
  - rewrite insert_key_cons.
    destruct (get_or_create_ok prefix segment (key_segment_label segment) siblings m Hs Hm)
      as (node & siblings' & m' & index & -> & Hn & Hp & Hs' & Hm' & Hl). cbn [fst snd].
    assert (Hg : growing prefix node) by (eapply Forall_lookup_1; done).
    destruct Hg as [n k rest _ _ _ _ Hnone|n segment' q Hty Hk Hq Hpat Hcount Hch Hcm]; [congruence|].
    rewrite Hp in Hq. injection Hq as Hq. rewrite <- Hq in *.
    destruct (IH (prefix ++ segment ++ [c_colon]) (mn_children n) (mn_child_map n)) as (Hc & Hcm' & Hlv); [done| |done|done|].
    { rewrite Hkey. cbn [join]. by rewrite <- !(assoc (++)). }
    set (f := fun node => _). destruct (alter_split f index siblings' n Hn) as (l1 & l2 & -> & Halt).
    assert (Hfn : f n = set_below n (insert_key key vt (prefix ++ segment ++ [c_colon]) (next :: segments) (mn_children n) (mn_child_map n)).1
                        (insert_key key vt (prefix ++ segment ++ [c_colon]) (next :: segments) (mn_children n) (mn_child_map n)).2).
    { done. }
    assert (Hlf : mleaves (f n) ≡ₚ key :: mleaves n).
    { rewrite Hfn. destruct n. cbn in *. by rewrite Hk. }
    split_and!.
    + rewrite Halt. apply Forall_app in Hs' as [H1 H2]. inversion H2; subst. apply Forall_app. split; [done|]. constructor; [|done].
      eapply (growing_prefix _ _ segment); rewrite ?Hfn; [done | done | done | done | | done | done].
      rewrite <- Hfn, (Permutation_length Hlf), Hfn. cbn [set_below mn_key_count length]. rewrite Hcount. lia.
    + eapply map_ok_alter; [done| |done]. by rewrite Hfn.
    + rewrite Halt, <- Hl, !map_app, !concat_app. cbn [map concat]. rewrite Hlf. cbn [app]. symmetry. apply Permutation_middle.
Qed.

Lemma insert_keys_ok types keys roots : Forall (growing []) roots.1 -> map_ok roots.1 roots.2 ->
  let r := insert_keys types keys roots in Forall (growing []) r.1 /\ concat (map mleaves r.1) ≡ₚ keys ++ concat (map mleaves roots.1).
Proof.
  unfold insert_keys. revert roots. induction keys as [|key keys IH]; intros roots Hg Hm; [done|]. cbn [fold_left].
  destruct (insert_key_ok key (normalize_redis_type <$> types !! key) (split_char c_colon key) [] roots.1 roots.2) as (Hg' & Hm' & Hl);
    [apply split_char_not_nil | by rewrite join_split_char | done | done |].
  destruct (IH _ Hg' Hm') as [Hg'' Hl']. split; [done|]. rewrite Hl', Hl. cbn. symmetry. apply Permutation_middle.
Qed.

(** C32: The tree of a database has every key exactly once; every folder has the pattern of
    its prefix and counts the keys below it, each of which begins with that prefix; the
    total is the number of keys. *)
Theorem key_tree_is_faithful db pattern keys types :
  let result := build_key_tree_result db pattern keys types in
  Forall (counted []) (tr_nodes result) /\ concat (map leaves (tr_nodes result)) ≡ₚ keys
  /\ tr_total_key_count result = Z.of_nat (length keys).
Proof.
  destruct (insert_keys_ok types keys ([], ∅)) as [Hg Hl]; [apply Forall_nil_2 | intros q i Hi; cbn in Hi; by rewrite lookup_empty in Hi|]. cbn [build_key_tree_result tr_nodes tr_total_key_count].
  set (roots := (insert_keys types keys ([], ∅)).1) in *. split_and!; [| |done].
  - rewrite sort_nodes_perm, Forall_map. eapply Forall_impl; [exact Hg|]. intros n Hn. by apply into_tree_node_ok.
  - rewrite (concat_perm _ _ _ (sort_nodes_perm _)). cbn in Hl. rewrite app_nil_r in Hl. rewrite <- Hl. apply concat_pointwise.
    eapply Forall_impl; [exact Hg|]. intros n Hn. by eapply into_tree_node_ok.
Qed.

(** ** Deletion by pattern *)

Section deletion.
Context {J : JsonNumber} {E : RedisEngine}.
Context (turns : nat -> Turn) (connect_timeout_seconds : option Z).

(** A whole iteration of [SCAN], from the keys at each of its calls: whether it came back
    to the cursor 0, and what it gave. *)
Fixpoint iteration (pattern : str) (count cursor : Z) (seen : list (list str)) : bool * list str :=
  match seen with
  | [] => (false, [])
  | keys :: seen =>
    let p := scan_keys cursor pattern count keys in
    if (p.1 =? 0)%Z then (true, p.2)
    else let q := iteration pattern count p.1 seen in (q.1, p.2 ++ q.2)
  end.

(** What is documented of [SCAN], for the pattern at hand: it gives only keys that match;
    a whole iteration gives every matching key that was there from its beginning to its
    end; and while the collection stays within [limit] keys, the iteration ends within
    [rounds] calls. *)
Record scans (glob : str -> str -> bool) (limit rounds : nat) : Prop := {
  scan_matches cursor pattern count keys key : key ∈ (scan_keys cursor pattern count keys).2 -> glob pattern key = true;
  scan_complete pattern count seen key : (iteration pattern count 0 seen).1 = true ->
    (forall keys, keys ∈ seen -> key ∈ keys) -> glob pattern key = true -> key ∈ (iteration pattern count 0 seen).2;
  scan_ends pattern count seen : length seen = rounds -> Forall (fun keys => length keys <= limit) seen ->
    (iteration pattern count 0 seen).1 = true;
}.

Lemma set_insert_elem key l x : x ∈ set_insert key l <-> x = key \/ x ∈ l.
Proof.
  induction l as [|y l IH]; cbn; [set_solver|]. destruct (str_compare key y) eqn:Hc; [|set_solver..].
  apply str_compare_eq in Hc as ->. set_solver.
Qed.

Lemma set_extend_elem batch keys x : x ∈ set_extend batch keys <-> x ∈ batch \/ x ∈ keys.
Proof.
  unfold set_extend. revert keys. induction batch as [|b batch IH]; intros keys; [set_solver|]. cbn. rewrite IH, set_insert_elem. set_solver.
Qed.

Lemma iteration_short pattern count cursor seen more : (iteration pattern count cursor seen).1 = true ->
  iteration pattern count cursor (seen ++ more) = iteration pattern count cursor seen.
Proof.
  revert cursor. induction seen as [|keys seen IH]; intros cursor; [done|]. cbn. destruct (_ =? 0)%Z; [done|].
  intros H. by rewrite IH.
Qed.

(** The keys that the loop sees, one list for each of its calls. *)
Definition seen_between (db : Z) (s s' : Server) (keys : list str) : Prop :=
  exists s1, arrived turns s s1 /\ arrived turns s1 s' /\ keys = keys_of db (sv_keys s1).

Lemma looks_scan db cursor pattern count : looks turns (SCAN turns db cursor pattern count).
Proof. by apply looks_command. Qed.

Lemma scan_loop_post fuel context db pattern count cursor keys s :
  post (scan_loop turns fuel context db pattern count cursor keys) s
    (fun o s' => arrived turns s s' /\ exists seen, Forall (seen_between db s s') seen /\
      let q := iteration pattern count cursor seen in
      match o with
      | Some found => q.1 = true /\ forall k, k ∈ found <-> k ∈ q.2 \/ k ∈ keys
      | None => q.1 = false /\ length seen = fuel
      end)
    (fun _ s' => arrived turns s s').
Proof.
  revert cursor keys s. induction fuel as [|fuel IH]; intros cursor keys s; [split; [constructor|]; by exists []|]. cbn [scan_loop].
  apply post_bind, post_query. unfold post. pose proof (looks_scan db cursor pattern count s) as Ha. unfold SCAN in *.
  set (f := fun now s => _) in *. destruct (command_cases turns f s) as [[e Hf]|[[e Hf]|Hf]]; rewrite Hf in *; [exact Ha..|].
  unfold f in *. cbn [fst snd] in *. set (ks := keys_of db _).
  destruct (_ =? 0)%Z eqn:Hz.
  { split; [done|]. exists [ks]. split; [repeat constructor; exists (arrive turns s); split_and!; [done|constructor|done]|]. cbn. rewrite Hz. split; [done|].
    intros k. apply set_extend_elem. }
  specialize (IH (scan_keys cursor pattern count ks).1 (set_extend (scan_keys cursor pattern count ks).2 keys) (arrive turns s)). unfold post in IH.
  destruct (scan_loop _ _ _ _ _ _ _ _ _) as [[o|e] s']; [|by transitivity (arrive turns s)].
  destruct IH as (Ha2 & seen & Hs & Ho). split; [by transitivity (arrive turns s)|]. exists (ks :: seen). split.
  { constructor; [by exists (arrive turns s)|]. eapply Forall_impl; [exact Hs|]. intros x (s1 & H1 & H2 & ->). exists s1.
    split_and!; [by transitivity (arrive turns s)|done|done]. }
  cbn. rewrite Hz. cbn. destruct o as [found|]; destruct Ho as [Ho1 Ho2]; (split; [done|]); [|by rewrite Ho2].
  intros k. rewrite Ho2, set_extend_elem, elem_of_app. tauto.
Qed.

(** *** What no one else touches *)

Definition undisturbed (k : Key) (n m : nat) : Prop := forall t, n <= t < m -> touches (turns t) [k] = false.

Lemma writes_untouched t k ks : touches t [k] = false -> others_write t ks !! k = ks !! k.
Proof.
  intros H. apply writes_elsewhere. intros w Hw Heq. assert (touches t [k] = true); [|congruence].
  apply existsb_exists. exists w. split; [by apply list_elem_of_In|]. apply bool_decide_eq_true. set_solver.
Qed.

Lemma others_undisturbed k n m ks : undisturbed k n m -> n <= m -> others turns n m ks !! k = ks !! k.
Proof.
  intros H. induction m as [|m IH]; intros Hle; [unfold others; by replace (0 - n) with 0 by lia|].
  destruct (decide (n = S m)) as [->|]; [unfold others; by rewrite Nat.sub_diag|].
  rewrite (others_app turns n m) by lia. rewrite others_next, writes_untouched by (apply H; lia). apply IH; [|lia]. intros t Ht. apply H. lia.
Qed.

Lemma alone_undisturbed mine k s s' : alone turns mine s s' -> k ∉ mine -> undisturbed k (sv_turn s) (sv_turn s') -> sv_keys s' !! k = sv_keys s !! k.
Proof. intros [Hle Hk] Hin Hu. rewrite Hk by done. by apply others_undisturbed. Qed.

Lemma keys_of_elem (db : Z) (ks : Keyspace) (key : str) : key ∈ keys_of db ks <-> is_Some (ks !! (db, key)).
Proof.
  unfold keys_of. rewrite list_elem_of_fmap. split.
  - intros ([[d k] e] & -> & H). apply list_elem_of_filter in H as [Hd He]. cbn in *. subst d. exists e. by apply elem_of_map_to_list.
  - intros [e He]. exists ((db, key), e). split; [done|]. apply list_elem_of_filter. split; [done|]. by apply elem_of_map_to_list.
Qed.

(** *** The deletions *)

Lemma chunks_elem fuel keys : length keys <= fuel -> concat (chunks fuel keys) = keys.
Proof.
  revert keys. induction fuel as [|fuel IH]; intros [|x keys]; [done|cbn; lia|done|]. intros Hl. cbn [chunks concat].
  rewrite IH; [apply take_drop|]. rewrite length_drop. unfold DELETE_BATCH_SIZE. cbn in *. lia.
Qed.

Lemma delete_all_lookup (ks : list Key) (m : Keyspace) k : fold_left (fun m k => delete k m) ks m !! k = if decide (k ∈ ks) then None else m !! k.
Proof.
  revert m. induction ks as [|x ks IH]; intros m; [done|]. cbn. rewrite IH. destruct (decide (k ∈ ks)), (decide (k ∈ x :: ks)); try set_solver.
  - assert (k = x) as -> by set_solver. apply lookup_delete_eq.
  - apply lookup_delete_ne. set_solver.
Qed.

Lemma keeps_del db keys mine : (forall k, k ∈ keys -> (db, k) ∈ mine) -> keeps turns mine (DEL turns (map (pair db) keys)).
Proof.
  intros H. apply keeps_command. intros now s. split; [done|]. intros k Hk. cbn. rewrite delete_all_lookup.
  destruct (decide _) as [Hin|]; [|done]. apply list_elem_of_fmap in Hin as (x & -> & Hx). by destruct Hk; apply H.
Qed.

Lemma keeps_delete_chunks db cs n mine : (forall c k, c ∈ cs -> k ∈ c -> (db, k) ∈ mine) -> keeps turns mine (delete_chunks turns db cs n).
Proof.
  revert n. induction cs as [|c cs IH]; intros n H; [by apply looks_keeps, looks_ret|]. cbn [delete_chunks].
  apply run_keeps_bind; [apply keeps_query, keeps_del; set_solver|]. intros m. apply IH. set_solver.
Qed.

Lemma undisturbed_split k n m p : undisturbed k n p -> n <= m -> m <= p -> undisturbed k n m /\ undisturbed k m p.
Proof. intros H ? ?. split; intros t Ht; apply H; lia. Qed.

Lemma del_post db keys key s : post (DEL turns (map (pair db) keys)) s
  (fun _ s' => undisturbed (db, key) (sv_turn s) (sv_turn s') -> key ∈ keys \/ sv_keys s !! (db, key) = None -> sv_keys s' !! (db, key) = None)
  (fun _ _ => True).
Proof.
  unfold post, DEL. set (f := fun now s => _). destruct (command_cases turns f s) as [[e ->]|[[e ->]| ->]]; [done..|].
  unfold f. cbn. intros Hu H. rewrite delete_all_lookup. destruct (decide _) as [|Hn]; [done|].
  rewrite writes_untouched by (apply Hu; lia). destruct H as [H|H]; [|done]. destruct Hn. apply list_elem_of_fmap. by exists key.
Qed.

Lemma delete_chunks_post db cs n key s : post (delete_chunks turns db cs n) s
  (fun _ s' => undisturbed (db, key) (sv_turn s) (sv_turn s') -> key ∈ concat cs \/ sv_keys s !! (db, key) = None -> sv_keys s' !! (db, key) = None)
  (fun _ _ => True).
Proof.
  revert n s. induction cs as [|c cs IH]; intros n s; [cbn; intros _ [H|H]; [set_solver|done]|]. cbn [delete_chunks].
  apply post_bind, post_query. pose proof (del_post db c key s) as Hd.
  assert (Hle : alone turns (map (pair db) c) s (DEL turns (map (pair db) c) s).2) by (apply keeps_del; intros k Hk; apply list_elem_of_fmap; eauto).
  unfold post in *. destruct (DEL turns (map (pair db) c) s) as [[m|e] s1]; [|done]. specialize (IH (n + m)%Z s1).
  assert (Hle2 : alone turns (map (pair db) (concat cs)) s1 (delete_chunks turns db cs (n + m) s1).2).
  { apply keeps_delete_chunks. intros c' k Hc Hk. apply list_elem_of_fmap. exists k. split; [done|]. apply list_elem_of_In, in_concat. exists c'. by rewrite <- !list_elem_of_In. }
  destruct (delete_chunks _ _ _ _ s1) as [[m'|e] s2]; [|done].
  intros Hu H. destruct (undisturbed_split _ _ (sv_turn s1) _ Hu (alone_turn _ _ _ _ Hle) (alone_turn _ _ _ _ Hle2)) as [Hu1 Hu2].
  apply IH; [done|]. cbn [concat] in H. rewrite elem_of_app in H. destruct H as [[H|H]|H]; [|by left|]; right; apply Hd; auto.
Qed.

Lemma quiet_until mine k s s1 s2 : alone turns [] s s1 -> alone turns mine s1 s2 -> undisturbed k (sv_turn s) (sv_turn s2) ->
  undisturbed k (sv_turn s1) (sv_turn s2) /\ sv_keys s1 !! k = sv_keys s !! k.
Proof.
  intros H1 H2 Hu. destruct (undisturbed_split _ _ (sv_turn s1) _ Hu (alone_turn _ _ _ _ H1) (alone_turn _ _ _ _ H2)) as [Hu1 Hu2].
  split; [done|]. apply (alone_undisturbed [] k s); [done|set_solver|done].
Qed.

(** A key that was there before the scan and is left alone is in every list it sees. *)
Lemma seen_throughout db key s s0 s2 seen : alone turns [] s s0 -> Forall (seen_between db s0 s2) seen ->
  is_Some (sv_keys s !! (db, key)) -> undisturbed (db, key) (sv_turn s) (sv_turn s2) -> forall keys, keys ∈ seen -> key ∈ keys.
Proof.
  intros H0 Hs Hk Hu keys Hin. eapply Forall_forall in Hin; [|exact Hs]. destruct Hin as (s1 & H1 & H2 & ->).
  apply keys_of_elem. assert (Ha : alone turns [] s s1) by (etransitivity; [exact H0 | by apply arrived_alone]).
  destruct (quiet_until [] (db, key) s s1 s2 Ha (arrived_alone _ _ _ H2) Hu) as [_ ->]. done.
Qed.

Lemma seen_within db limit s s0 s2 seen : alone turns [] s s0 -> Forall (seen_between db s0 s2) seen ->
  (forall n, length (keys_of db (others turns (sv_turn s) n (sv_keys s))) <= limit) -> Forall (fun keys => length keys <= limit) seen.
Proof.
  intros H0 Hs Hl. eapply Forall_impl; [exact Hs|]. intros keys (s1 & H1 & _ & ->).
  assert (Ha : alone turns [] s s1) by (etransitivity; [exact H0 | by apply arrived_alone]).
  replace (sv_keys s1) with (others turns (sv_turn s) (sv_turn s1) (sv_keys s)); [apply Hl|].
  apply map_eq. intros k. symmetry. apply (alone_keys _ _ _ _ Ha). set_solver.
Qed.

Lemma iteration_matches glob limit rounds pattern count cursor seen : scans glob limit rounds ->
  Forall (fun k => glob pattern k = true) (iteration pattern count cursor seen).2.
Proof.
  intros H. revert cursor. induction seen as [|keys seen IH]; intros cursor; [constructor|]. cbn.
  assert (Forall (fun k => glob pattern k = true) (scan_keys cursor pattern count keys).2) by (apply Forall_forall; intros k; apply (scan_matches _ _ _ H)).
  destruct (_ =? 0)%Z; [done|]. by apply Forall_app.
Qed.

Lemma iteration_done glob limit rounds fuel pattern count seen : scans glob limit rounds -> rounds <= fuel -> length seen = fuel ->
  Forall (fun keys => length keys <= limit) seen -> (iteration pattern count 0 seen).1 = true.
Proof.
  intros H Hf Hl Hs. rewrite <- (take_drop rounds seen). assert (Ht : (iteration pattern count 0 (take rounds seen)).1 = true).
  { apply (scan_ends _ _ _ H); [rewrite length_take; lia | by apply Forall_take]. }
  by rewrite iteration_short.
Qed.

(** C33: Deleting by a pattern, while other clients write: whatever happens, only keys of
    that database that match the pattern are touched, every other key is as the others
    left it.  When it succeeds, every key of the database that matches, was there at the
    beginning and was not written by another client meanwhile is gone; and the scan comes
    to an end as long as the database stays within the bound of the server's iteration. *)
Theorem pattern_deletion_is_exact glob limit rounds fuel r s : scans glob limit rounds -> rounds <= fuel ->
  (forall n, length (keys_of (dp_db_index r) (others turns (sv_turn s) n (sv_keys s))) <= limit) ->
  let (answer, s') := delete_key_prefix turns connect_timeout_seconds fuel r s in
  (exists found, Forall (fun k => glob (trim (dp_pattern r)) k = true) found /\ alone turns (map (pair (dp_db_index r)) found) s s')
  /\ match answer with
     | Ok (Some _) => forall key, glob (trim (dp_pattern r)) key = true -> is_Some (sv_keys s !! (dp_db_index r, key)) ->
         undisturbed (dp_db_index r, key) (sv_turn s) (sv_turn s') -> sv_keys s' !! (dp_db_index r, key) = None
     | Ok None => False
     | Err _ => True
     end.
Proof.
  intros Hg Hr Hl. set (db := dp_db_index r) in *. unfold delete_key_prefix, mbind, ST_bind. fold db.
  assert (Hnone : forall s', alone turns [] s s' -> exists found, Forall (fun k => glob (trim (dp_pattern r)) k = true) found
    /\ alone turns (map (pair db) found) s s') by (intros s' Ha; exists []; by split).
  destruct (validate_delete_key_prefix_request r) as [[]|e]; cbn; [|split; [by apply Hnone|done]].
  pose proof (keeps_connection turns connect_timeout_seconds [] s) as Hc.
  destruct (connection turns connect_timeout_seconds s) as [[[]|e] s1]; cbn [snd] in Hc; [|split; [by apply Hnone|done]].
  pose proof (scan_loop_post fuel "delete prefix scan" db (trim (dp_pattern r)) DELETE_SCAN_COUNT 0 [] s1) as Hs.
  unfold post in Hs. destruct (scan_loop _ _ _ _ _ _ _ _ _) as [[o|e] s2];
    [|split; [apply Hnone; etransitivity; [exact Hc | by apply arrived_alone] | done]].
  destruct Hs as (Ha & seen & Hseen & Ho). assert (H2 : alone turns [] s s2) by (etransitivity; [exact Hc | by apply arrived_alone]).
  destruct o as [found|]; destruct Ho as [Ho1 Ho2].
  2:{ cbn. assert ((iteration (trim (dp_pattern r)) DELETE_SCAN_COUNT 0 seen).1 = true); [|congruence].
      eapply iteration_done; eauto using seen_within. }
  assert (Hf : Forall (fun k => glob (trim (dp_pattern r)) k = true) found).
  { apply Forall_forall. intros k Hk. apply Ho2 in Hk as [Hk|Hk]; [|set_solver].
    exact (proj1 (Forall_forall _ _) (iteration_matches _ _ _ _ _ _ _ Hg) k Hk). }
  pose proof (keeps_delete_chunks db (chunks (length found) found) 0 (map (pair db) found)) as Hk.
  specialize (Hk ltac:(intros c k Hc' Hk'; apply list_elem_of_fmap; exists k; split; [done|]; rewrite <- (chunks_elem (length found) found) by done;
    apply list_elem_of_In, in_concat; exists c; by rewrite <- !list_elem_of_In) s2). unfold delete_matching_keys.
  assert (H2' : alone turns (map (pair db) found) s s2) by (apply (alone_mono turns []); [set_solver|done]).
  pose proof (fun key => delete_chunks_post db (chunks (length found) found) 0 key s2) as Hd. unfold post in Hd.
  destruct (delete_chunks _ _ _ _ s2) as [[n|e] s3]; cbn [snd] in Hk; (split; [exists found; split; [done|by transitivity s2]|]); [|done].
  intros key Hm Hin Hu. destruct (quiet_until _ _ _ _ _ H2 Hk Hu) as [Hu2 _]. apply Hd; [done|]. left.
  rewrite chunks_elem by done. apply Ho2. left. apply (scan_complete _ _ _ Hg); [done| |done].
  apply (seen_throughout db key s s1 s2 seen Hc Hseen Hin). intros t Ht. apply Hu. pose proof (alone_turn _ _ _ _ Hk). lia.
Qed.
End deletion.

(** A server that knows patterns that end in a star, and finds everything at once. *)
Definition star_glob (pattern key : str) : bool :=
  match rev pattern with 42%Z :: p => starts_with (rev p) key | _ => str_eqb pattern key end.

Definition star_server : RedisEngine (J := IntegerNumber) := {|
  Payload := str;
  RedisError := str;
  redis_error_text e := e;
  write_value w old := Ok (default [] old);
  dump_of text := text;
  type_of _ := lit "string";
  read_string o := Ok o;
  read_json o := Ok (default [] o);
  read_hash _ := Ok [];
  read_list _ := Ok [];
  read_members _ := Ok [];
  read_scored _ := Ok [];
  read_entries _ := Ok [];
  refused_expiry _ := None;
  no_such_key := lit "no such key";
  scan_keys _ pattern _ keys := (0%Z, filter (fun k => star_glob pattern k = true) keys);
  sha256_digest text := text;
  from_utf8 bytes := Some bytes;
  json_error _ := None;
|}.

Definition quiet_turns (n : nat) : Turn (E := star_server) := mkTurn (E := star_server) [] 0 false None None.
Definition three_keys : Server (E := star_server) :=
  mkServer (E := star_server) (list_to_map (map (fun k : string => ((0%Z, lit k), mkEntry (E := star_server) (lit k) None)) ["a:1"; "a:2"; "b:1"]))
    [] false 0.
Definition delete_a : RedisDeleteKeyPrefixRequest := mkRedisDeleteKeyPrefixRequest 0 (lit "a:*").

Lemma star_scans : scans (E := star_server) star_glob 3 1.
Proof.
  split.
  - intros cursor pattern count keys key Hin. apply list_elem_of_filter in Hin as [H _]. exact H.
  - intros pattern count [|keys seen] key He Hk Hg; [done|]. cbn. apply list_elem_of_filter. split; [done|]. apply Hk. set_solver.
  - by intros pattern count [|keys [|]].
Qed.

Lemma quiet_others (n m : nat) (ks : gmap (Z * str) (Entry (E := star_server))) : others (E := star_server) quiet_turns n m ks = ks.
Proof. unfold others. by induction (seq n (m - n)). Qed.

Lemma pattern_deletion_is_exact_witness :
  keys_of (E := star_server) 0 (sv_keys three_keys) ≡ₚ [lit "a:1"; lit "a:2"; lit "b:1"]
  /\ (delete_key_prefix (E := star_server) quiet_turns None 1 delete_a three_keys).1
     = Ok (Some (delete_result 0 None (Some (lit "a:*")) 2))
  /\ sv_keys (delete_key_prefix (E := star_server) quiet_turns None 1 delete_a three_keys).2 !! (0%Z, lit "a:2") = None
  /\ keys_of (E := star_server) 0 (sv_keys (delete_key_prefix (E := star_server) quiet_turns None 1 delete_a three_keys).2) = [lit "b:1"].
Proof.
  split; [apply (bool_decide_unpack _); vm_compute; exact I|]. split; [vm_compute; reflexivity|]. split; [|vm_compute; reflexivity].
  assert (Hl : forall n, length (keys_of (E := star_server) (dp_db_index delete_a) (others (E := star_server) quiet_turns (sv_turn three_keys) n (sv_keys three_keys))) <= 3).
  { intros n. rewrite quiet_others. vm_compute. lia. }
  pose proof (pattern_deletion_is_exact (E := star_server) quiet_turns None star_glob 3 1 1 delete_a three_keys star_scans (le_n 1) Hl) as H.
  destruct (delete_key_prefix (E := star_server) quiet_turns None 1 delete_a three_keys) as [answer s'] eqn:Hd.
  assert (answer = Ok (Some (delete_result 0 None (Some (lit "a:*")) 2))) as ->.
  { change answer with (answer, s').1. rewrite <- Hd. vm_compute. reflexivity. }
  destruct H as [_ H]. refine (H (lit "a:2") _ _ _).
  - vm_compute; reflexivity.
  - apply (bool_decide_eq_true_1 (is_Some _)). vm_compute. reflexivity.
  - intros t _. reflexivity.
Defined.

(** ** Where the code departs from what it means to do *)

(** A folder's pattern takes the characters of its prefix as they are.  For the keys
    "a*:1" and "ab:2", the folder of the first, which counts one key, has a pattern that
    matches the second as well, for every matching with the documented meaning of a star
    and of an ordinary character: deleting the folder deletes keys outside of it. *)
Theorem folder_pattern_matches_other_keys (glob : str -> str -> bool) :
  glob [] [] = true -> (forall c p s, c <> c_star -> glob p s = true -> glob (c :: p) (c :: s) = true) ->
  (forall p s t, glob p t = true -> glob (c_star :: p) (s ++ t) = true) ->
  exists node pattern, node ∈ tr_nodes (build_key_tree_result 0 (lit "*") [lit "a*:1"; lit "ab:2"] ∅)
    /\ tn_prefix node = Some (lit "a*:") /\ leaves node = [lit "a*:1"] /\ tn_pattern node = Some pattern /\ glob pattern (lit "ab:2") = true.
Proof.
  intros Hnil Hchar Hstar. set (nodes := tr_nodes _). vm_compute in nodes. subst nodes. do 2 eexists. split; [apply list_elem_of_here|].
  split_and!; [reflexivity..|]. change (lit "ab:2") with [97; 98; 58; 50]%Z. apply Hchar; [done|].
  apply (Hstar _ [98%Z]). apply Hchar; [done|]. change [50%Z] with ([50%Z] ++ []). by apply Hstar.
Qed.

(** The check against deleting everything knows one spelling of the pattern that matches
    every key. *)
Theorem double_star_is_accepted : validate_delete_key_prefix_request (mkRedisDeleteKeyPrefixRequest 0 (lit "**")) = Ok tt
  /\ is_ok (validate_delete_key_prefix_request (mkRedisDeleteKeyPrefixRequest 0 (lit "*"))) = false.
Proof. split; reflexivity. Qed.

(** The part of a URL that names the server, up to the first slash, question mark or
    number sign. *)
Fixpoint until_path (s : str) : str :=
  match s with [] => [] | c :: s => if bool_decide (c ∈ [47; 63; 35]%Z) then [] else c :: until_path s end.
Definition authority (url : str) : str := match split_at_first (lit "://") url with Some (_, rest) => until_path rest | None => [] end.

(** The name and the password go into the URL of the server as they are: with a slash in
    the password the URL names another server. *)
Theorem slash_in_password_hides_the_server :
  authority (build_redis_url_for_endpoint false (Some (lit "user")) (lit "pa/ss") (Some 0%Z) (lit "cache.example") 6379) = lit "user:pa"
  /\ authority (build_redis_url_for_endpoint false (Some (lit "user")) (lit "pass") (Some 0%Z) (lit "cache.example") 6379)
     = lit "user:pass@cache.example:6379".
Proof. split; vm_compute; reflexivity. Qed.
