(* ===== verification/SchemaDiff.v ===== *)
(** * Table schema diffing
    ([src-tauri/src/engine/drivers/common/schema_diff.rs])

    The comparison of the table a user started from with the table the user wants,
    shared by the MySQL, PostgreSQL and Oracle table designers: it rejects the
    changes the designers do not support and collects the others in a
    [TableSchemaUpdateDiff]. *)

From stdpp Require Import base gmap list strings fin_maps.
From Stdlib Require Import ZArith Lia.
From S2P Require Import Prelude Errors Types SqlText TableSql SchemaTypes.

(** ** The diff *)

Record TableUpdateDiffOptions := mkTableUpdateDiffOptions { allow_column_comments : bool }.

Record CommentChange := mkCommentChange { cc_comment : option str }.

Record ColumnCommentChange := mkColumnCommentChange {
  ccc_column_name : str;
  ccc_comment : option str;
}.

Record ColumnDefaultChange := mkColumnDefaultChange {
  cdc_column_name : str;
  cdc_default_value : option str;
}.

Record ColumnNullabilityChange := mkColumnNullabilityChange {
  cnc_column_name : str;
  cnc_nullable : bool;
}.

Record ColumnRenameChange := mkColumnRenameChange {
  crc_old_name : str;
  crc_new_name : str;
}.

Record ColumnTypeChange := mkColumnTypeChange {
  ctc_column_name : str;
  ctc_type_name : str;
}.

Record ColumnGeneratedChange := mkColumnGeneratedChange {
  cgc_column_name : str;
  cgc_old_generated : option TableGeneratedColumn;
  cgc_new_generated : option TableGeneratedColumn;
}.

Record ColumnIdentityChange := mkColumnIdentityChange {
  cic_column_name : str;
  cic_old_identity : option TableIdentityOptions;
  cic_new_identity : option TableIdentityOptions;
}.

Record ColumnCharsetChange := mkColumnCharsetChange {
  csc_column_name : str;
  csc_charset : option str;
  csc_collation : option str;
}.

Record PrimaryKeyChange := mkPrimaryKeyChange {
  pkc_old_constraint_name : option str;
  pkc_old_columns : list str;
  pkc_new_columns : list str;
}.

Record TableSchemaUpdateDiff := mkDiff {
  table_comment_change : option CommentChange;
  table_engine_change : option str;
  table_charset_change : option str;
  table_collation_change : option str;
  table_partition_change : option TablePartitionOptions;
  primary_key_change : option PrimaryKeyChange;
  renamed_columns : list ColumnRenameChange;
  added_columns : list TableColumnSchema;
  dropped_columns : list TableColumnSchema;
  added_indexes : list TableIndexSchema;
  dropped_indexes : list TableIndexSchema;
  added_constraints : list TableConstraintSchema;
  dropped_constraints : list TableConstraintSchema;
  added_or_modified_constraints : list TableConstraintSchema;
  column_type_changes : list ColumnTypeChange;
  column_comment_changes : list ColumnCommentChange;
  column_default_changes : list ColumnDefaultChange;
  column_nullability_changes : list ColumnNullabilityChange;
  generated_column_changes : list ColumnGeneratedChange;
  identity_changes : list ColumnIdentityChange;
  column_charset_changes : list ColumnCharsetChange;
}.

Definition default_diff : TableSchemaUpdateDiff :=
  mkDiff None None None None None None [] [] [] [] [] [] [] [] [] [] [] [] [] [] [].

Definition is_none {A} (o : option A) : bool := match o with None => true | Some _ => false end.
Definition is_nil {A} (l : list A) : bool := match l with [] => true | _ :: _ => false end.

Definition is_empty (d : TableSchemaUpdateDiff) : bool :=
  is_none (table_comment_change d)
  && is_none (table_engine_change d)
  && is_none (table_charset_change d)
  && is_none (table_collation_change d)
  && is_none (table_partition_change d)
  && is_none (primary_key_change d)
  && is_nil (renamed_columns d)
  && is_nil (added_columns d)
  && is_nil (dropped_columns d)
  && is_nil (added_indexes d)
  && is_nil (dropped_indexes d)
  && is_nil (added_constraints d)
  && is_nil (dropped_constraints d)
  && is_nil (added_or_modified_constraints d)
  && is_nil (column_type_changes d)
  && is_nil (column_comment_changes d)
  && is_nil (column_default_changes d)
  && is_nil (column_nullability_changes d)
  && is_nil (generated_column_changes d)
  && is_nil (identity_changes d)
  && is_nil (column_charset_changes d).

Definition is_destructive (d : TableSchemaUpdateDiff) : bool :=
  negb (is_nil (dropped_columns d))
  || negb (is_nil (column_type_changes d))
  || negb (is_nil (dropped_constraints d))
  || negb (is_nil (generated_column_changes d))
  || existsb (fun change => negb (is_none (cic_old_identity change))) (identity_changes d)
  || negb (is_none (primary_key_change d)).

(** *** Assignments to the fields of the diff *)

Definition set_table_comment_change (v : option CommentChange) (diff : TableSchemaUpdateDiff) : TableSchemaUpdateDiff :=
  let '(mkDiff _ b c d e f g h i j k l m n o p q r s t u) := diff in
  mkDiff v b c d e f g h i j k l m n o p q r s t u.

Definition set_table_engine_change (v : option str) (diff : TableSchemaUpdateDiff) : TableSchemaUpdateDiff :=
  let '(mkDiff a _ c d e f g h i j k l m n o p q r s t u) := diff in
  mkDiff a v c d e f g h i j k l m n o p q r s t u.

Definition set_table_charset_change (v : option str) (diff : TableSchemaUpdateDiff) : TableSchemaUpdateDiff :=
  let '(mkDiff a b _ d e f g h i j k l m n o p q r s t u) := diff in
  mkDiff a b v d e f g h i j k l m n o p q r s t u.

Definition set_table_collation_change (v : option str) (diff : TableSchemaUpdateDiff) : TableSchemaUpdateDiff :=
  let '(mkDiff a b c _ e f g h i j k l m n o p q r s t u) := diff in
  mkDiff a b c v e f g h i j k l m n o p q r s t u.

Definition set_primary_key_change (v : option PrimaryKeyChange) (diff : TableSchemaUpdateDiff) : TableSchemaUpdateDiff :=
  let '(mkDiff a b c d e _ g h i j k l m n o p q r s t u) := diff in
  mkDiff a b c d e v g h i j k l m n o p q r s t u.

Definition set_renamed_columns (v : list ColumnRenameChange) (diff : TableSchemaUpdateDiff) : TableSchemaUpdateDiff :=
  let '(mkDiff a b c d e f _ h i j k l m n o p q r s t u) := diff in
  mkDiff a b c d e f v h i j k l m n o p q r s t u.

Definition push_added_column (v : TableColumnSchema) (diff : TableSchemaUpdateDiff) : TableSchemaUpdateDiff :=
  let '(mkDiff a b c d e f g h i j k l m n o p q r s t u) := diff in
  mkDiff a b c d e f g (h ++ [v]) i j k l m n o p q r s t u.

Definition push_dropped_column (v : TableColumnSchema) (diff : TableSchemaUpdateDiff) : TableSchemaUpdateDiff :=
  let '(mkDiff a b c d e f g h i j k l m n o p q r s t u) := diff in
  mkDiff a b c d e f g h (i ++ [v]) j k l m n o p q r s t u.

Definition push_added_index (v : TableIndexSchema) (diff : TableSchemaUpdateDiff) : TableSchemaUpdateDiff :=
  let '(mkDiff a b c d e f g h i j k l m n o p q r s t u) := diff in
  mkDiff a b c d e f g h i (j ++ [v]) k l m n o p q r s t u.

Definition push_dropped_index (v : TableIndexSchema) (diff : TableSchemaUpdateDiff) : TableSchemaUpdateDiff :=
  let '(mkDiff a b c d e f g h i j k l m n o p q r s t u) := diff in
  mkDiff a b c d e f g h i j (k ++ [v]) l m n o p q r s t u.

Definition push_added_constraint (v : TableConstraintSchema) (diff : TableSchemaUpdateDiff) : TableSchemaUpdateDiff :=
  let '(mkDiff a b c d e f g h i j k l m n o p q r s t u) := diff in
  mkDiff a b c d e f g h i j k (l ++ [v]) m n o p q r s t u.

Definition push_dropped_constraint (v : TableConstraintSchema) (diff : TableSchemaUpdateDiff) : TableSchemaUpdateDiff :=
  let '(mkDiff a b c d e f g h i j k l m n o p q r s t u) := diff in
  mkDiff a b c d e f g h i j k l (m ++ [v]) n o p q r s t u.

Definition push_added_or_modified_constraint (v : TableConstraintSchema) (diff : TableSchemaUpdateDiff) : TableSchemaUpdateDiff :=
  let '(mkDiff a b c d e f g h i j k l m n o p q r s t u) := diff in
  mkDiff a b c d e f g h i j k l m (n ++ [v]) o p q r s t u.

Definition push_type_change (v : ColumnTypeChange) (diff : TableSchemaUpdateDiff) : TableSchemaUpdateDiff :=
  let '(mkDiff a b c d e f g h i j k l m n o p q r s t u) := diff in
  mkDiff a b c d e f g h i j k l m n (o ++ [v]) p q r s t u.

Definition push_comment_change (v : ColumnCommentChange) (diff : TableSchemaUpdateDiff) : TableSchemaUpdateDiff :=
  let '(mkDiff a b c d e f g h i j k l m n o p q r s t u) := diff in
  mkDiff a b c d e f g h i j k l m n o (p ++ [v]) q r s t u.

Definition push_default_change (v : ColumnDefaultChange) (diff : TableSchemaUpdateDiff) : TableSchemaUpdateDiff :=
  let '(mkDiff a b c d e f g h i j k l m n o p q r s t u) := diff in
  mkDiff a b c d e f g h i j k l m n o p (q ++ [v]) r s t u.

Definition push_nullability_change (v : ColumnNullabilityChange) (diff : TableSchemaUpdateDiff) : TableSchemaUpdateDiff :=
  let '(mkDiff a b c d e f g h i j k l m n o p q r s t u) := diff in
  mkDiff a b c d e f g h i j k l m n o p q (r ++ [v]) s t u.

Definition push_generated_change (v : ColumnGeneratedChange) (diff : TableSchemaUpdateDiff) : TableSchemaUpdateDiff :=
  let '(mkDiff a b c d e f g h i j k l m n o p q r s t u) := diff in
  mkDiff a b c d e f g h i j k l m n o p q r (s ++ [v]) t u.

Definition push_identity_change (v : ColumnIdentityChange) (diff : TableSchemaUpdateDiff) : TableSchemaUpdateDiff :=
  let '(mkDiff a b c d e f g h i j k l m n o p q r s t u) := diff in
  mkDiff a b c d e f g h i j k l m n o p q r s (t ++ [v]) u.

Definition push_charset_change (v : ColumnCharsetChange) (diff : TableSchemaUpdateDiff) : TableSchemaUpdateDiff :=
  let '(mkDiff a b c d e f g h i j k l m n o p q r s t u) := diff in
  mkDiff a b c d e f g h i j k l m n o p q r s t (u ++ [v]).

(** ** Normalisation *)

Definition normalized_optional_text (value : option str) : option str :=
  match value with
  | Some v => let v := trim v in if is_nil v then None else Some v
  | None => None
  end.

Definition normalized_sql_fragment (value label : str) : IpcResult str :=
  let value := trim value in
  if is_nil value then Err (validation_failed (lit "请填写" ++ label))
  else if str_contains [0%Z] value || str_contains (lit ";") value || str_contains (lit "--") value
       || str_contains (lit "/*") value || str_contains (lit "*/") value
  then Err (validation_failed (label ++ lit "不能包含多语句或注释片段"))
  else Ok value.

Definition normalized_optional_fragment (value : option str) (label : str) : IpcResult (option str) :=
  match value with
  | Some v =>
    let v := trim v in
    if is_nil v then Ok None else f ← normalized_sql_fragment v label; Ok (Some f)
  | None => Ok None
  end.

Definition unsupported_table_update {T} (message : str) : IpcResult T := Err (validation_failed message).

Definition normalized_sql_type (value : str) : str := str_lower (trim value).

Definition normalized_foreign_key_reference (reference : option TableForeignKeyReference)
    : IpcResult (option TableForeignKeyReference) :=
  match reference with
  | None => Ok None
  | Some r =>
    table_name ← normalized_non_empty_identifier (fk_table_name r) (lit "引用表");
    columns ← try_map (fun c => normalized_non_empty_identifier c (lit "引用列")) (fk_columns r);
    if is_nil columns then Err (validation_failed (lit "外键约束需要至少一个引用列"))
    else Ok (Some (mkTableForeignKeyReference
           (normalized_optional_text (fk_database_name r))
           (normalized_optional_text (fk_schema_name r))
           table_name columns (fk_on_update r) (fk_on_delete r)))
  end.

(** The checks of the [match constraint.kind] of [normalized_non_primary_constraint]. *)
Definition constraint_kind_check (kind : TableConstraintKind) (name : str) (columns : list str)
    (expression : option str) (foreign_key : option TableForeignKeyReference) : IpcResult unit :=
  match kind with
  | KindForeignKey =>
    match foreign_key with
    | None => Err (validation_failed (lit "外键约束 '" ++ name ++ lit "' 需要引用表和引用列"))
    | Some fk =>
      if is_nil columns then Err (validation_failed (lit "外键约束 '" ++ name ++ lit "' 需要本地列"))
      else if negb (length (fk_columns fk) =? length columns)%nat then
        Err (validation_failed (lit "外键约束 '" ++ name ++ lit "' 的本地列与引用列数量必须一致"))
      else Ok tt
    end
  | KindCheck =>
    if is_none expression then Err (validation_failed (lit "CHECK 约束 '" ++ name ++ lit "' 需要表达式"))
    else Ok tt
  | KindUnique =>
    if is_nil columns then Err (validation_failed (lit "唯一约束 '" ++ name ++ lit "' 需要至少一个列"))
    else Ok tt
  | KindPrimaryKey => Ok tt
  end.

Definition normalized_non_primary_constraint (constraint : TableConstraintSchema)
    : IpcResult TableConstraintSchema :=
  name ← normalized_non_empty_identifier (tk_name constraint) (lit "约束名");
  columns ← try_map (fun c => normalized_non_empty_identifier c (lit "约束列")) (tk_columns constraint);
  let reference := normalized_optional_text (tk_reference constraint) in
  expression ← normalized_optional_fragment (tk_expression constraint) (lit "约束表达式");
  let comment := normalized_optional_text (tk_comment constraint) in
  foreign_key ← normalized_foreign_key_reference (tk_foreign_key constraint);
  _ ← constraint_kind_check (tk_kind constraint) name columns expression foreign_key;
  Ok (mkTableConstraintSchema name (tk_kind constraint) columns reference expression comment
        foreign_key (tk_enforced constraint)).

Definition normalized_generated_column (generated : option TableGeneratedColumn)
    : IpcResult (option TableGeneratedColumn) :=
  match generated with
  | None => Ok None
  | Some g =>
    expression ← normalized_sql_fragment (gc_expression g) (lit "生成列表达式");
    Ok (Some (mkTableGeneratedColumn expression (gc_storage g)))
  end.

Definition normalized_column_identity (column : TableColumnSchema) : option TableIdentityOptions :=
  match tc_identity column with
  | Some identity => Some identity
  | None =>
    if tc_is_identity column
    then Some (mkTableIdentityOptions ByDefault None None None None None false)
    else None
  end.

Definition normalized_partition_options (partition : option TablePartitionOptions)
    : option TablePartitionOptions :=
  match partition with
  | None => None
  | Some p =>
    let expression := normalized_optional_text (tp_expression p) in
    let raw_clause := normalized_optional_text (tp_raw_clause p) in
    let readonly_description := normalized_optional_text (tp_readonly_description p) in
    if is_none expression && is_none raw_clause && is_none readonly_description then None
    else Some (mkTablePartitionOptions expression raw_clause readonly_description)
  end.

(** ** Tables by name

    [HashMap::insert] returns the value it replaces; a name that occurs twice is an
    error. *)

Section by_name.
Context {A : Type} (key : A -> IpcResult str) (duplicate : A -> IpcError).

Definition insert_by_name (m : gmap str A) (x : A) : IpcResult (gmap str A) :=
  k ← key x;
  if is_none (m !! k) then Ok (<[k := x]> m) else Err (duplicate x).

Definition by_name (l : list A) : IpcResult (gmap str A) := try_fold insert_by_name ∅ l.
End by_name.

Definition schema_columns_by_name (columns : list TableColumnSchema)
    : IpcResult (gmap str TableColumnSchema) :=
  by_name (fun c => _ ← normalized_non_empty_identifier (tc_name c) (lit "列名"); Ok (tc_name c))
    (fun c => validation_failed (lit "列 '" ++ tc_name c ++ lit "' 重复")) columns.

Definition schema_indexes_by_name (indexes : list TableIndexSchema)
    : IpcResult (gmap str TableIndexSchema) :=
  by_name (fun i => _ ← normalized_non_empty_identifier (ti_name i) (lit "索引名"); Ok (ti_name i))
    (fun i => validation_failed (lit "索引 '" ++ ti_name i ++ lit "' 重复")) indexes.

Definition is_kind (kind : TableConstraintKind) (constraint : TableConstraintSchema) : bool :=
  bool_decide (tk_kind constraint = kind).

(** The loop normalises one constraint and inserts it before it looks at the next. *)
Definition schema_non_primary_constraints_by_name (constraints : list TableConstraintSchema)
    : IpcResult (gmap str TableConstraintSchema) :=
  try_fold (fun m constraint =>
      normalized ← normalized_non_primary_constraint constraint;
      insert_by_name (fun n => Ok (str_lower (tk_name n)))
        (fun n => validation_failed (lit "约束 '" ++ tk_name n ++ lit "' 重复")) m normalized)
    ∅ (List.filter (fun c => negb (is_kind KindPrimaryKey c)) constraints).

(** ** Checks *)

Definition ensure_same_table_identity (baseline target : TableSchema) : IpcResult unit :=
  let identity (s : TableSchema) :=
    (trim (tb_database_name (ts_basics s)), trim (tb_schema_name (ts_basics s)),
     trim (tb_table_name (ts_basics s))) in
  if bool_decide (identity baseline = identity target) then Ok tt
  else unsupported_table_update (lit "暂不支持通过表设计器重命名或移动表").

Definition ensure_supported_column_update (baseline target : TableColumnSchema)
    (_options : TableUpdateDiffOptions) : IpcResult unit :=
  if negb (str_eqb (normalized_sql_type (tc_type_name baseline)) (normalized_sql_type (tc_type_name target)))
     && (tc_is_identity baseline || tc_is_identity target) then
    unsupported_table_update (lit "暂不支持修改自增列 '" ++ tc_name baseline ++ lit "' 的数据类型")
  else if negb (eqb (tc_nullable baseline) (tc_nullable target)) && tc_is_primary_key baseline then
    unsupported_table_update (lit "暂不支持修改主键列 '" ++ tc_name baseline ++ lit "' 的可空属性")
  else if negb (eqb (tc_nullable baseline) (tc_nullable target)) && tc_is_identity baseline then
    unsupported_table_update (lit "暂不支持修改自增列 '" ++ tc_name baseline ++ lit "' 的可空属性")
  else if tc_is_identity baseline
       && negb (bool_decide (normalized_optional_text (tc_default_value baseline)
                             = normalized_optional_text (tc_default_value target))) then
    unsupported_table_update (lit "暂不支持修改自增列 '" ++ tc_name baseline ++ lit "' 的默认值")
  else if negb (eqb (tc_is_primary_key baseline) (tc_is_primary_key target))
       && tc_is_primary_key target && tc_nullable target then
    Err (validation_failed (lit "主键列 '" ++ tc_name target ++ lit "' 必须为 NOT NULL"))
  else if negb (eqb (tc_is_unique baseline) (tc_is_unique target)) then
    unsupported_table_update
      (lit "暂不支持直接修改列 '" ++ tc_name baseline ++ lit "' 的唯一属性；请在索引区管理唯一索引")
  else Ok tt.

Definition index_changed (baseline target : TableIndexSchema) : bool :=
  negb (bool_decide (ti_columns baseline = ti_columns target))
  || negb (eqb (ti_is_unique baseline) (ti_is_unique target))
  || negb (bool_decide (normalized_optional_text (ti_method baseline)
                        = normalized_optional_text (ti_method target)))
  || negb (bool_decide (normalized_optional_text (ti_comment baseline)
                        = normalized_optional_text (ti_comment target))).

Definition validate_added_column_for_update (column : TableColumnSchema) : IpcResult unit :=
  _ ← normalized_non_empty_identifier (tc_name column) (lit "列名");
  if tc_is_primary_key column then
    unsupported_table_update (lit "暂不支持新增主键列 '" ++ tc_name column ++ lit "'")
  else if tc_is_unique column then
    unsupported_table_update (lit "暂不支持直接新增唯一列 '" ++ tc_name column ++ lit "'")
  else if negb (tc_nullable column) && negb (tc_is_identity column)
       && is_none (normalized_optional_text (tc_default_value column)) then
    Err (validation_failed (lit "新增 NOT NULL 列 '" ++ tc_name column ++ lit "' 需要默认值"))
  else Ok tt.

(** The two nested loops over the column lists of the indexes and constraints. *)
Definition check_references (names : gset str) (kind name : str) (columns : list str) : IpcResult unit :=
  try_fold (fun _ column =>
    if bool_decide (column ∈ names) then Ok tt
    else Err (validation_failed (kind ++ lit " '" ++ name ++ lit "' 引用了不存在的列 '" ++ column ++ lit "'")))
    tt columns.

Definition validate_target_column_references (columns : list TableColumnSchema)
    (indexes : list TableIndexSchema) (constraints : list TableConstraintSchema) : IpcResult unit :=
  let names : gset str := list_to_set (map tc_name columns) in
  _ ← try_fold (fun _ i => check_references names (lit "索引") (ti_name i) (ti_columns i)) tt indexes;
  try_fold (fun _ c => check_references names (lit "约束") (tk_name c) (tk_columns c)) tt constraints.

(** *** Renames *)

Definition add_rename (baseline_columns target_columns : gmap str TableColumnSchema)
    (acc : gmap str str * gset str) (rename : TableColumnRename) : IpcResult (gmap str str * gset str) :=
  let (by_old, seen_new) := acc in
  old_name ← normalized_non_empty_identifier (rn_old_name rename) (lit "原列名");
  new_name ← normalized_non_empty_identifier (rn_new_name rename) (lit "新列名");
  if str_eqb old_name new_name then Ok (by_old, seen_new)
  else if is_none (baseline_columns !! old_name) then
    Err (validation_failed (lit "原列 '" ++ old_name ++ lit "' 不存在，无法重命名"))
  else if is_none (target_columns !! new_name) then
    Err (validation_failed (lit "目标列 '" ++ new_name ++ lit "' 不存在，无法重命名"))
  else if negb (is_none (by_old !! old_name)) then
    Err (validation_failed (lit "列 '" ++ old_name ++ lit "' 的重命名规则重复"))
  else if bool_decide (new_name ∈ seen_new) then
    Err (validation_failed (lit "目标列 '" ++ new_name ++ lit "' 的重命名规则重复"))
  else Ok (<[old_name := new_name]> by_old, {[new_name]} ∪ seen_new).

Definition validate_column_renames (column_renames : list TableColumnRename)
    (baseline_columns target_columns : gmap str TableColumnSchema) : IpcResult (gmap str str) :=
  acc ← try_fold (add_rename baseline_columns target_columns) (∅, ∅) column_renames;
  Ok acc.1.

(** *** The primary key *)

Record PrimaryKeyDefinition := mkPrimaryKeyDefinition {
  pkd_name : option str;
  pkd_columns : list str;
}.

Definition primary_key_definition (schema : TableSchema) : IpcResult PrimaryKeyDefinition :=
  let columns_from_flags := map tc_name (List.filter tc_is_primary_key (ts_columns schema)) in
  match List.filter (is_kind KindPrimaryKey) (ts_constraints schema) with
  | _ :: _ :: _ => Err (validation_failed (lit "只能定义一个主键约束"))
  | [constraint] =>
    columns ← try_map (fun c => normalized_non_empty_identifier c (lit "主键列")) (tk_columns constraint);
    if negb (is_nil columns_from_flags) && negb (bool_decide (columns_from_flags = columns)) then
      Err (validation_failed (lit "列定义中的主键与约束区主键不一致"))
    else Ok (mkPrimaryKeyDefinition (normalized_optional_text (Some (tk_name constraint))) columns)
  | [] => Ok (mkPrimaryKeyDefinition None columns_from_flags)
  end.

(** ** The diff of two tables *)

(** [if condition { diff.... }] *)
Definition when (b : bool) (f : TableSchemaUpdateDiff -> TableSchemaUpdateDiff) (d : TableSchemaUpdateDiff)
    : TableSchemaUpdateDiff := if b then f d else d.

(** The tests [baseline != target] of the column loop, for types with decidable equality. *)
Definition differs {A} `{!EqDecision A} (x y : A) : bool := negb (bool_decide (x = y)).

(** One turn of the loop over the columns of the baseline. *)
Definition diff_column (options : TableUpdateDiffOptions) (rename_map : gmap str str)
    (target_columns : gmap str TableColumnSchema) (diff : TableSchemaUpdateDiff)
    (column : TableColumnSchema) : IpcResult TableSchemaUpdateDiff :=
  let target_name := default (tc_name column) (rename_map !! tc_name column) in
  match target_columns !! target_name with
  | None => Ok (push_dropped_column column diff)
  | Some target =>
    _ ← ensure_supported_column_update column target options;
    let name := tc_name target in
    let diff := when (differs (normalized_sql_type (tc_type_name column))
                              (normalized_sql_type (tc_type_name target)))
      (push_type_change (mkColumnTypeChange name (trim (tc_type_name target)))) diff in
    let target_default := normalized_optional_text (tc_default_value target) in
    let diff := when (differs (normalized_optional_text (tc_default_value column)) target_default)
      (push_default_change (mkColumnDefaultChange name target_default)) diff in
    let diff := when (differs (tc_nullable column) (tc_nullable target))
      (push_nullability_change (mkColumnNullabilityChange name (tc_nullable target))) diff in
    baseline_generated ← normalized_generated_column (tc_generated column);
    target_generated ← normalized_generated_column (tc_generated target);
    let diff := when (differs baseline_generated target_generated)
      (push_generated_change (mkColumnGeneratedChange name baseline_generated target_generated)) diff in
    let baseline_identity := normalized_column_identity column in
    let target_identity := normalized_column_identity target in
    let diff := when (differs baseline_identity target_identity)
      (push_identity_change (mkColumnIdentityChange name baseline_identity target_identity)) diff in
    let target_charset := normalized_optional_text (tc_charset target) in
    let target_collation := normalized_optional_text (tc_collation target) in
    let diff := when (differs (normalized_optional_text (tc_charset column)) target_charset
                      || differs (normalized_optional_text (tc_collation column)) target_collation)
      (push_charset_change (mkColumnCharsetChange name target_charset target_collation)) diff in
    let target_comment := normalized_optional_text (tc_comment target) in
    if differs (normalized_optional_text (tc_comment column)) target_comment then
      if allow_column_comments options then
        Ok (push_comment_change (mkColumnCommentChange name target_comment) diff)
      else unsupported_table_update (lit "暂不支持修改列 '" ++ tc_name column ++ lit "' 的备注")
    else Ok diff
  end.

(** One turn of the loop over the columns of the target. *)
Definition add_column (rename_map : gmap str str) (baseline_columns : gmap str TableColumnSchema)
    (diff : TableSchemaUpdateDiff) (column : TableColumnSchema) : IpcResult TableSchemaUpdateDiff :=
  let is_renamed_target := existsb (fun e => str_eqb e.2 (tc_name column)) (map_to_list rename_map) in
  if is_none (baseline_columns !! tc_name column) && negb is_renamed_target then
    _ ← validate_added_column_for_update column;
    Ok (push_added_column column diff)
  else Ok diff.

(** The two loops over the indexes. *)
Definition diff_index (target_indexes : gmap str TableIndexSchema) (diff : TableSchemaUpdateDiff)
    (index : TableIndexSchema) : TableSchemaUpdateDiff :=
  match target_indexes !! ti_name index with
  | Some target_index =>
    when (index_changed index target_index)
      (fun d => push_added_index target_index (push_dropped_index index d)) diff
  | None => push_dropped_index index diff
  end.

Definition add_index (baseline_indexes : gmap str TableIndexSchema) (diff : TableSchemaUpdateDiff)
    (index : TableIndexSchema) : TableSchemaUpdateDiff :=
  when (is_none (baseline_indexes !! ti_name index)) (push_added_index index) diff.

Section diff.
(** The order in which a [HashMap] yields its entries. *)
Context (hash_iter : forall A, gmap str A -> list (str * A)).

Definition diff_constraint (target_constraints : gmap str TableConstraintSchema)
    (diff : TableSchemaUpdateDiff) (entry : str * TableConstraintSchema) : TableSchemaUpdateDiff :=
  let (name, baseline_constraint) := entry in
  match target_constraints !! name with
  | Some target_constraint =>
    when (differs baseline_constraint target_constraint)
      (fun d => push_added_or_modified_constraint target_constraint
                  (push_added_constraint target_constraint
                     (push_dropped_constraint baseline_constraint d))) diff
  | None => push_dropped_constraint baseline_constraint diff
  end.

Definition add_constraint (baseline_constraints : gmap str TableConstraintSchema)
    (diff : TableSchemaUpdateDiff) (entry : str * TableConstraintSchema) : TableSchemaUpdateDiff :=
  let (name, target_constraint) := entry in
  when (is_none (baseline_constraints !! name))
    (fun d => push_added_or_modified_constraint target_constraint
                (push_added_constraint target_constraint d)) diff.

Definition diff_non_primary_constraints (baseline target : TableSchema) (diff : TableSchemaUpdateDiff)
    : IpcResult TableSchemaUpdateDiff :=
  baseline_constraints ← schema_non_primary_constraints_by_name (ts_constraints baseline);
  target_constraints ← schema_non_primary_constraints_by_name (ts_constraints target);
  let diff := foldl (diff_constraint target_constraints) diff (hash_iter _ baseline_constraints) in
  Ok (foldl (add_constraint baseline_constraints) diff (hash_iter _ target_constraints)).

Definition diff_basics (baseline target : TableSchemaBasics) (diff : TableSchemaUpdateDiff)
    : TableSchemaUpdateDiff :=
  let change (field : TableSchemaBasics -> option str) set :=
    let target_value := normalized_optional_text (field target) in
    when (differs (normalized_optional_text (field baseline)) target_value) (set target_value) in
  change tb_collation set_table_collation_change
    (change tb_charset set_table_charset_change
       (change tb_engine set_table_engine_change diff)).

Definition diff_table_schema_for_update_with_column_renames (baseline target : TableSchema)
    (options : TableUpdateDiffOptions) (column_renames : list TableColumnRename)
    : IpcResult TableSchemaUpdateDiff :=
  _ ← ensure_same_table_identity baseline target;
  baseline_columns ← schema_columns_by_name (ts_columns baseline);
  target_columns ← schema_columns_by_name (ts_columns target);
  _ ← validate_target_column_references (ts_columns target) (ts_indexes target) (ts_constraints target);
  rename_map ← validate_column_renames column_renames baseline_columns target_columns;
  let diff := diff_basics (ts_basics baseline) (ts_basics target) default_diff in
  if differs (normalized_partition_options (tb_partition (ts_basics baseline)))
             (normalized_partition_options (tb_partition (ts_basics target))) then
    unsupported_table_update (lit "暂不支持修改已有表分区；请通过手写 DDL 管理分区迁移")
  else
    let diff := set_renamed_columns
      (map (fun r => mkColumnRenameChange (trim (rn_old_name r)) (trim (rn_new_name r))) column_renames) diff in
    baseline_primary_key ← primary_key_definition baseline;
    target_primary_key ← primary_key_definition target;
    let diff := when (differs (pkd_columns baseline_primary_key) (pkd_columns target_primary_key))
      (set_primary_key_change (Some (mkPrimaryKeyChange (pkd_name baseline_primary_key)
         (pkd_columns baseline_primary_key) (pkd_columns target_primary_key)))) diff in
    diff ← diff_non_primary_constraints baseline target diff;
    let target_comment := normalized_optional_text (tb_comment (ts_basics target)) in
    let diff := when (differs (normalized_optional_text (tb_comment (ts_basics baseline))) target_comment)
      (set_table_comment_change (Some (mkCommentChange target_comment))) diff in
    diff ← try_fold (diff_column options rename_map target_columns) diff (ts_columns baseline);
    diff ← try_fold (add_column rename_map baseline_columns) diff (ts_columns target);
    baseline_indexes ← schema_indexes_by_name (ts_indexes baseline);
    target_indexes ← schema_indexes_by_name (ts_indexes target);
    let diff := foldl (diff_index target_indexes) diff (ts_indexes baseline) in
    Ok (foldl (add_index baseline_indexes) diff (ts_indexes target)).
End diff.
