(* ===== verification/SchemaUpdate.v ===== *)
(** * What a table update does
    ([src-tauri/src/engine/drivers/common/schema_diff.rs])

    The abstract reading of a [TableSchemaUpdateDiff] as a change of a table, and
    the theorems that the diff computed from a baseline and a target turns the one
    into the other, is empty exactly when there is nothing to do, and drops nothing
    when it is not destructive. *)

From stdpp Require Import base gmap list strings fin_maps.
From Stdlib Require Import ZArith Lia.
From S2P Require Import Prelude Errors Types SqlText TableSql SchemaTypes SchemaDiff.

(** ** The fields of a diff, loop by loop *)

Section folds.
Context {X A : Type}.

Lemma foldl_const (proj : TableSchemaUpdateDiff -> X) (f : TableSchemaUpdateDiff -> A -> TableSchemaUpdateDiff) l d :
  (forall d x, proj (f d x) = proj d) -> proj (foldl f d l) = proj d.
Proof. intros H. revert d. induction l as [|x l IH]; intros d; simpl; [done|]. by rewrite IH, H. Qed.

Lemma foldl_pushes (proj : TableSchemaUpdateDiff -> list X) (delta : A -> list X) f l d :
  (forall d x, proj (f d x) = proj d ++ delta x) -> proj (foldl f d l) = proj d ++ flat_map delta l.
Proof.
  intros H. revert d. induction l as [|x l IH]; intros d; simpl; [by rewrite app_nil_r|].
  by rewrite IH, H, <-app_assoc.
Qed.

Lemma try_fold_const {E} (proj : TableSchemaUpdateDiff -> X) (f : TableSchemaUpdateDiff -> A -> Result E TableSchemaUpdateDiff) l d d' :
  (forall d x d', f d x = Ok d' -> proj d' = proj d) -> try_fold f d l = Ok d' -> proj d' = proj d.
Proof.
  intros H. revert d. induction l as [|x l IH]; intros d Hf; simpl in Hf; bind_inv; [by subst|].
  etransitivity; [by apply IH | by eapply H].
Qed.

Lemma try_fold_pushes {E} (proj : TableSchemaUpdateDiff -> list X) (delta : A -> list X)
    (f : TableSchemaUpdateDiff -> A -> Result E TableSchemaUpdateDiff) l d d' :
  (forall d x d', f d x = Ok d' -> proj d' = proj d ++ delta x) ->
  try_fold f d l = Ok d' -> proj d' = proj d ++ flat_map delta l.
Proof.
  intros H. revert d. induction l as [|x l IH]; intros d Hf; simpl in Hf |- *; bind_inv.
  - subst. by rewrite app_nil_r.
  - rewrite (IH _ Hf). erewrite H by done. by rewrite <-app_assoc.
Qed.
End folds.

(** Every element of a successful fold passed. *)
Lemma try_fold_Forall {E A S} (f : S -> A -> Result E S) (P : A -> Prop) l s s' :
  (forall s x s', f s x = Ok s' -> P x) -> try_fold f s l = Ok s' -> Forall P l.
Proof.
  intros H. revert s. induction l as [|x l IH]; intros s Hf; simpl in Hf; bind_inv; [done|].
  constructor; eauto.
Qed.

Lemma try_fold_unit_Forall {E A} (f : unit -> A -> Result E unit) l :
  is_ok (try_fold f tt l) = true <-> Forall (fun x => f tt x = Ok tt) l.
Proof.
  induction l as [|x l IH]; simpl; [done|].
  rewrite Forall_cons. destruct (f tt x) as [[]|e]; simpl; [|split; [done|by intros [? _]]].
  rewrite IH. naive_solver.
Qed.

Lemma map_filter_omap {A B C} (g : A -> option B) (f : A -> C) (h : B -> C) l :
  (forall a b, a ∈ l -> g a = Some b -> f a = h b) ->
  map f (List.filter (fun a => negb (is_none (g a))) l) = map h (omap g l).
Proof.
  intros H. induction l as [|a l IH]; [done|]. simpl.
  destruct (g a) as [b|] eqn:E; simpl; rewrite IH by (intros; apply H; set_solver); [|done].
  f_equal. apply H; [set_solver|done].
Qed.

Lemma flat_map_nil {A B} (f : A -> list B) l : flat_map f l = [] <-> forall a, a ∈ l -> f a = [].
Proof.
  induction l as [|a l IH]; simpl; [set_solver|]. split.
  - intros [Ha Hl]%app_eq_nil a' [->|Hin]%elem_of_cons; [done|]. by apply IH.
  - intros H. rewrite H, (proj2 IH) by set_solver. done.
Qed.

Definition one {X} (b : bool) (x : X) : list X := if b then [x] else [].

Lemma one_nil {X} b (x : X) : one b x = [] <-> b = false.
Proof. by destruct b. Qed.

Lemma differs_false {A} `{!EqDecision A} (x y : A) : differs x y = false <-> x = y.
Proof. unfold differs. rewrite negb_false_iff. apply bool_decide_eq_true. Qed.

Lemma differs_true {A} `{!EqDecision A} (x y : A) : differs x y = true <-> x <> y.
Proof. unfold differs. rewrite negb_true_iff. apply bool_decide_eq_false. Qed.

Section deltas.
Context (rename_map : gmap str str) (target_columns : gmap str TableColumnSchema).

(** The column a baseline column becomes. *)
Definition target_name (c : TableColumnSchema) : str := default (tc_name c) (rename_map !! tc_name c).
Definition matched (c : TableColumnSchema) : option TableColumnSchema := target_columns !! target_name c.

Definition on_match {X} (f : TableColumnSchema -> TableColumnSchema -> list X) (c : TableColumnSchema) : list X :=
  match matched c with Some t => f c t | None => [] end.

Definition dropped_delta (c : TableColumnSchema) : list TableColumnSchema := one (is_none (matched c)) c.
Definition type_delta c t := one (differs (normalized_sql_type (tc_type_name c)) (normalized_sql_type (tc_type_name t)))
  (mkColumnTypeChange (tc_name t) (trim (tc_type_name t))).
Definition text_differs (field : TableColumnSchema -> option str) c t :=
  differs (normalized_optional_text (field c)) (normalized_optional_text (field t)).
Definition default_delta c t := one (text_differs tc_default_value c t)
  (mkColumnDefaultChange (tc_name t) (normalized_optional_text (tc_default_value t))).
Definition nullability_delta c t := one (differs (tc_nullable c) (tc_nullable t))
  (mkColumnNullabilityChange (tc_name t) (tc_nullable t)).
Definition identity_delta c t := one (differs (normalized_column_identity c) (normalized_column_identity t))
  (mkColumnIdentityChange (tc_name t) (normalized_column_identity c) (normalized_column_identity t)).
Definition charset_delta c t := one (text_differs tc_charset c t || text_differs tc_collation c t)
  (mkColumnCharsetChange (tc_name t) (normalized_optional_text (tc_charset t)) (normalized_optional_text (tc_collation t))).
Definition comment_delta c t := one (text_differs tc_comment c t)
  (mkColumnCommentChange (tc_name t) (normalized_optional_text (tc_comment t))).

(** A generated column with its expression trimmed: what [normalized_generated_column]
    returns when it succeeds. *)
Definition generated_view (g : option TableGeneratedColumn) : option TableGeneratedColumn :=
  match g with Some g => Some (mkTableGeneratedColumn (trim (gc_expression g)) (gc_storage g)) | None => None end.

Definition generated_delta c t :=
  one (differs (generated_view (tc_generated c)) (generated_view (tc_generated t)))
  (mkColumnGeneratedChange (tc_name t) (generated_view (tc_generated c)) (generated_view (tc_generated t))).

Lemma normalized_generated_ok g g' : normalized_generated_column g = Ok g' -> g' = generated_view g.
Proof.
  destruct g as [g|]; simpl; intros H; bind_inv; [|done]. subst.
  unfold normalized_sql_fragment in *. case_ifs E; try discriminate E. apply Ok_inj in E. by subst.
Qed.

Context (options : TableUpdateDiffOptions).
Implicit Types d : TableSchemaUpdateDiff.

(** All fields a turn of the column loop touches, at once. *)
Lemma diff_column_fields d c d' : diff_column options rename_map target_columns d c = Ok d' ->
  dropped_columns d' = dropped_columns d ++ dropped_delta c
  /\ column_type_changes d' = column_type_changes d ++ on_match type_delta c
  /\ column_default_changes d' = column_default_changes d ++ on_match default_delta c
  /\ column_nullability_changes d' = column_nullability_changes d ++ on_match nullability_delta c
  /\ generated_column_changes d' = generated_column_changes d ++ on_match generated_delta c
  /\ identity_changes d' = identity_changes d ++ on_match identity_delta c
  /\ column_charset_changes d' = column_charset_changes d ++ on_match charset_delta c
  /\ column_comment_changes d' = column_comment_changes d ++ on_match comment_delta c.
Proof.
  unfold diff_column, dropped_delta, on_match, matched, target_name. intros H.
  destruct (target_columns !! _) as [t|]; simpl.
  - bind_inv. apply normalized_generated_ok in E0, E1. subst.
    unfold type_delta, default_delta, nullability_delta, generated_delta, identity_delta, charset_delta, comment_delta, text_differs.
    destruct (differs (normalized_optional_text (tc_comment c)) _);
      [destruct (allow_column_comments options); [|discriminate H]|]; apply Ok_inj in H; subst d';
      destruct d; unfold when, one;
      repeat match goal with |- context [if ?b then _ else _] => destruct b end;
      cbn; by rewrite ?app_nil_r.
  - apply Ok_inj in H. subst d'. destruct d; cbn. by rewrite !app_nil_r.
Qed.
End deltas.

Lemma on_match_nil {X} m tc (f : TableColumnSchema -> TableColumnSchema -> list X) l :
  flat_map (on_match m tc f) l = [] -> forall c t, c ∈ l -> matched m tc c = Some t -> f c t = [].
Proof. intros H c t Hc Ht. pose proof (proj1 (flat_map_nil _ _) H c Hc) as Hm. unfold on_match in Hm. by rewrite Ht in Hm. Qed.

(** ** The whole diff *)

(** The groups of fields that one loop changes. *)
Definition head_fields (d : TableSchemaUpdateDiff) :=
  (table_comment_change d, table_engine_change d, table_charset_change d, table_collation_change d,
   table_partition_change d, primary_key_change d, renamed_columns d).
Definition column_fields (d : TableSchemaUpdateDiff) :=
  (dropped_columns d, column_type_changes d, column_default_changes d, column_nullability_changes d,
   generated_column_changes d, identity_changes d, column_charset_changes d, column_comment_changes d).
Definition constraint_fields (d : TableSchemaUpdateDiff) :=
  (dropped_constraints d, added_constraints d, added_or_modified_constraints d).
Definition index_fields (d : TableSchemaUpdateDiff) := (dropped_indexes d, added_indexes d).

Ltac solve_fields :=
  intros; unfold when, one in *; cbn [negb];
  repeat match goal with |- context [if ?b then _ else _] => destruct b end;
  cbn; rewrite ?app_nil_r; done.

Lemma diff_column_others options rmap tcols d c d' : diff_column options rmap tcols d c = Ok d' ->
  (head_fields d', constraint_fields d', index_fields d', added_columns d')
  = (head_fields d, constraint_fields d, index_fields d, added_columns d).
Proof.
  unfold diff_column. destruct (tcols !! _) as [t|].
  - intros H. bind_inv.
    destruct (differs (normalized_optional_text (tc_comment c)) _);
      [destruct (allow_column_comments options); [|discriminate H]|];
      apply Ok_inj in H; subst d'; destruct d; solve_fields.
  - intros [= <-]. by destruct d.
Qed.

Definition is_renamed_target (rmap : gmap str str) (name : str) : bool :=
  existsb (fun e => str_eqb e.2 name) (map_to_list rmap).

Definition is_added (rmap : gmap str str) (bcols : gmap str TableColumnSchema) (c : TableColumnSchema) : bool :=
  is_none (bcols !! tc_name c) && negb (is_renamed_target rmap (tc_name c)).

Lemma add_column_fields rmap bcols d c d' : add_column rmap bcols d c = Ok d' ->
  added_columns d' = added_columns d ++ one (is_added rmap bcols c) c
  /\ (head_fields d', constraint_fields d', index_fields d', column_fields d')
     = (head_fields d, constraint_fields d, index_fields d, column_fields d)
  /\ (is_added rmap bcols c = true -> validate_added_column_for_update c = Ok tt).
Proof.
  unfold add_column, is_added, is_renamed_target, one. destruct (_ && _) eqn:Eb; intros H.
  - destruct (validate_added_column_for_update c) as [[]|e]; [|discriminate H].
    apply Ok_inj in H. subst. by destruct d.
  - apply Ok_inj in H. subst. by rewrite app_nil_r.
Qed.

Section constraint_loops.
Context (bcon tcon : gmap str TableConstraintSchema).

Definition dropped_constraint_delta (e : str * TableConstraintSchema) : list TableConstraintSchema :=
  one (differs (Some e.2) (tcon !! e.1)) e.2.
Definition modified_constraint_delta (e : str * TableConstraintSchema) : list TableConstraintSchema :=
  match tcon !! e.1 with Some t => one (differs e.2 t) t | None => [] end.
Definition new_constraint_delta (e : str * TableConstraintSchema) : list TableConstraintSchema :=
  one (is_none (bcon !! e.1)) e.2.

Lemma differs_Some {A} `{!EqDecision A} (x y : A) : differs (Some x) (Some y) = differs x y.
Proof. unfold differs. f_equal. apply bool_decide_ext. naive_solver. Qed.

Lemma differs_None {A} `{!EqDecision A} (x : A) : differs (Some x) None = true.
Proof. by apply differs_true. Qed.

Lemma diff_constraint_fields d e :
  constraint_fields (diff_constraint tcon d e)
  = (dropped_constraints d ++ dropped_constraint_delta e, added_constraints d ++ modified_constraint_delta e,
     added_or_modified_constraints d ++ modified_constraint_delta e).
Proof.
  destruct e as [name c]. unfold diff_constraint, dropped_constraint_delta, modified_constraint_delta. simpl.
  destruct (tcon !! name) as [t|]; [rewrite differs_Some|rewrite differs_None]; destruct d; solve_fields.
Qed.

Lemma add_constraint_fields d e :
  constraint_fields (add_constraint bcon d e)
  = (dropped_constraints d, added_constraints d ++ new_constraint_delta e,
     added_or_modified_constraints d ++ new_constraint_delta e).
Proof.
  destruct e as [name c]. unfold add_constraint, new_constraint_delta. simpl. destruct d; solve_fields.
Qed.

Lemma diff_constraint_others d e :
  (head_fields (diff_constraint tcon d e), index_fields (diff_constraint tcon d e),
   column_fields (diff_constraint tcon d e), added_columns (diff_constraint tcon d e))
  = (head_fields d, index_fields d, column_fields d, added_columns d).
Proof. destruct e as [name c]. unfold diff_constraint. destruct (tcon !! name), d; solve_fields. Qed.

Lemma add_constraint_others d e :
  (head_fields (add_constraint bcon d e), index_fields (add_constraint bcon d e),
   column_fields (add_constraint bcon d e), added_columns (add_constraint bcon d e))
  = (head_fields d, index_fields d, column_fields d, added_columns d).
Proof. destruct e as [name c]. unfold add_constraint. destruct d; solve_fields. Qed.
End constraint_loops.

Section index_loops.
Context (bidx tidx : gmap str TableIndexSchema).

Definition index_kept (i : TableIndexSchema) : bool :=
  match tidx !! ti_name i with Some t => negb (index_changed i t) | None => false end.
Definition recreated_index_delta (i : TableIndexSchema) : list TableIndexSchema :=
  match tidx !! ti_name i with Some t => one (index_changed i t) t | None => [] end.
Definition new_index_delta (i : TableIndexSchema) : list TableIndexSchema := one (is_none (bidx !! ti_name i)) i.

Lemma diff_index_fields d i :
  index_fields (diff_index tidx d i)
  = (dropped_indexes d ++ one (negb (index_kept i)) i, added_indexes d ++ recreated_index_delta i).
Proof.
  unfold diff_index, recreated_index_delta, index_kept.
  destruct (tidx !! ti_name i) as [t|]; [rewrite negb_involutive|]; destruct d; solve_fields.
Qed.

Lemma add_index_fields d i :
  index_fields (add_index bidx d i) = (dropped_indexes d, added_indexes d ++ new_index_delta i).
Proof. unfold add_index, new_index_delta. destruct d; solve_fields. Qed.

Lemma diff_index_others d i :
  (head_fields (diff_index tidx d i), constraint_fields (diff_index tidx d i),
   column_fields (diff_index tidx d i), added_columns (diff_index tidx d i))
  = (head_fields d, constraint_fields d, column_fields d, added_columns d).
Proof. unfold diff_index. destruct (tidx !! ti_name i), d; solve_fields. Qed.

Lemma add_index_others d i :
  (head_fields (add_index bidx d i), constraint_fields (add_index bidx d i),
   column_fields (add_index bidx d i), added_columns (add_index bidx d i))
  = (head_fields d, constraint_fields d, column_fields d, added_columns d).
Proof. unfold add_index. destruct d; solve_fields. Qed.
End index_loops.

(** The tables the diff works on. *)
Record Tables := mkTables {
  bcols : gmap str TableColumnSchema;
  tcols : gmap str TableColumnSchema;
  rmap : gmap str str;
  bpk : PrimaryKeyDefinition;
  tpk : PrimaryKeyDefinition;
  bcon : gmap str TableConstraintSchema;
  tcon : gmap str TableConstraintSchema;
  bidx : gmap str TableIndexSchema;
  tidx : gmap str TableIndexSchema;
}.

Section whole.
Context (hash_iter : forall A, gmap str A -> list (str * A)).
Context (baseline target : TableSchema) (options : TableUpdateDiffOptions) (renames : list TableColumnRename).

(** A text option that changed: [None] both when it is unchanged and when it is cleared. *)
Definition basics_change (field : TableSchemaBasics -> option str) : option str :=
  let t := normalized_optional_text (field (ts_basics target)) in
  if differs (normalized_optional_text (field (ts_basics baseline))) t then t else None.

Record diffed (x : Tables) (d : TableSchemaUpdateDiff) : Prop := mkDiffed {
  df_same : ensure_same_table_identity baseline target = Ok tt;
  df_bcols : schema_columns_by_name (ts_columns baseline) = Ok (bcols x);
  df_tcols : schema_columns_by_name (ts_columns target) = Ok (tcols x);
  df_refs : validate_target_column_references (ts_columns target) (ts_indexes target) (ts_constraints target) = Ok tt;
  df_rmap : validate_column_renames renames (bcols x) (tcols x) = Ok (rmap x);
  df_partition : normalized_partition_options (tb_partition (ts_basics baseline))
                 = normalized_partition_options (tb_partition (ts_basics target));
  df_bpk : primary_key_definition baseline = Ok (bpk x);
  df_tpk : primary_key_definition target = Ok (tpk x);
  df_bcon : schema_non_primary_constraints_by_name (ts_constraints baseline) = Ok (bcon x);
  df_tcon : schema_non_primary_constraints_by_name (ts_constraints target) = Ok (tcon x);
  df_bidx : schema_indexes_by_name (ts_indexes baseline) = Ok (bidx x);
  df_tidx : schema_indexes_by_name (ts_indexes target) = Ok (tidx x);
  df_head : head_fields d =
    (if differs (normalized_optional_text (tb_comment (ts_basics baseline)))
                (normalized_optional_text (tb_comment (ts_basics target)))
     then Some (mkCommentChange (normalized_optional_text (tb_comment (ts_basics target)))) else None,
     basics_change tb_engine, basics_change tb_charset, basics_change tb_collation, None,
     if differs (pkd_columns (bpk x)) (pkd_columns (tpk x))
     then Some (mkPrimaryKeyChange (pkd_name (bpk x)) (pkd_columns (bpk x)) (pkd_columns (tpk x))) else None,
     map (fun r => mkColumnRenameChange (trim (rn_old_name r)) (trim (rn_new_name r))) renames);
  df_columns : column_fields d =
    let over {X} (f : TableColumnSchema -> TableColumnSchema -> list X) :=
      flat_map (on_match (rmap x) (tcols x) f) (ts_columns baseline) in
    (flat_map (dropped_delta (rmap x) (tcols x)) (ts_columns baseline), over type_delta, over default_delta,
     over nullability_delta, over generated_delta, over identity_delta, over charset_delta, over comment_delta);
  df_added : added_columns d = List.filter (is_added (rmap x) (bcols x)) (ts_columns target);
  df_constraints : constraint_fields d =
    let added := flat_map (modified_constraint_delta (tcon x)) (hash_iter _ (bcon x))
                 ++ flat_map (new_constraint_delta (bcon x)) (hash_iter _ (tcon x)) in
    (flat_map (dropped_constraint_delta (tcon x)) (hash_iter _ (bcon x)), added, added);
  df_indexes : index_fields d =
    (List.filter (fun i => negb (index_kept (tidx x) i)) (ts_indexes baseline),
     flat_map (recreated_index_delta (tidx x)) (ts_indexes baseline)
     ++ flat_map (new_index_delta (bidx x)) (ts_indexes target));
  df_supported : Forall (fun c => forall t, matched (rmap x) (tcols x) c = Some t ->
    ensure_supported_column_update c t options = Ok tt) (ts_columns baseline);
  df_valid_added : Forall (fun c => is_added (rmap x) (bcols x) c = true ->
    validate_added_column_for_update c = Ok tt) (ts_columns target);
}.
End whole.

Lemma flat_map_one {A} (f : A -> bool) (l : list A) : flat_map (fun x => one (f x) x) l = List.filter f l.
Proof. induction l as [|x l IH]; simpl; [done|]. rewrite IH. by destruct (f x). Qed.

(** *** The loops in sequence *)

Ltac push_field H proj delta :=
  rewrite (try_fold_pushes proj delta _ _ _ _
    ltac:(intros ??? Hs; eapply (diff_column_fields _ _ _ _ _ _ Hs)) H).

Lemma columns_loop options rmap tcols l d d' :
  try_fold (diff_column options rmap tcols) d l = Ok d' ->
  column_fields d = ([], [], [], [], [], [], [], []) ->
  column_fields d' =
    (let over {X} (f : TableColumnSchema -> TableColumnSchema -> list X) := flat_map (on_match rmap tcols f) l in
     (flat_map (dropped_delta rmap tcols) l, over type_delta, over default_delta, over nullability_delta,
      over generated_delta, over identity_delta, over charset_delta, over comment_delta))
  /\ (head_fields d', constraint_fields d', index_fields d', added_columns d')
     = (head_fields d, constraint_fields d, index_fields d, added_columns d)
  /\ Forall (fun c => forall t, matched rmap tcols c = Some t ->
       ensure_supported_column_update c t options = Ok tt) l.
Proof.
  intros H [= Hn1 Hn2 Hn3 Hn4 Hn5 Hn6 Hn7 Hn8]. split; [|split].
  - unfold column_fields.
    push_field H dropped_columns (dropped_delta rmap tcols).
    push_field H column_type_changes (on_match rmap tcols type_delta).
    push_field H column_default_changes (on_match rmap tcols default_delta).
    push_field H column_nullability_changes (on_match rmap tcols nullability_delta).
    push_field H generated_column_changes (on_match rmap tcols generated_delta).
    push_field H identity_changes (on_match rmap tcols identity_delta).
    push_field H column_charset_changes (on_match rmap tcols charset_delta).
    push_field H column_comment_changes (on_match rmap tcols comment_delta).
    by rewrite Hn1, Hn2, Hn3, Hn4, Hn5, Hn6, Hn7, Hn8.
  - refine (try_fold_const (fun d => (head_fields d, constraint_fields d, index_fields d, added_columns d)) _ _ _ _ _ H).
    intros ???. apply diff_column_others.
  - eapply try_fold_Forall; [|exact H]. intros s c s' Hs t Ht. unfold diff_column in Hs.
    unfold matched, target_name in Ht. rewrite Ht in Hs.
    destruct (ensure_supported_column_update c t options) as [[]|]; [done|discriminate Hs].
Qed.

Lemma added_loop rmap bcols l d d' :
  try_fold (add_column rmap bcols) d l = Ok d' -> added_columns d = [] ->
  added_columns d' = List.filter (is_added rmap bcols) l
  /\ (head_fields d', constraint_fields d', index_fields d', column_fields d')
     = (head_fields d, constraint_fields d, index_fields d, column_fields d)
  /\ Forall (fun c => is_added rmap bcols c = true -> validate_added_column_for_update c = Ok tt) l.
Proof.
  intros H Hn. split; [|split].
  - rewrite (try_fold_pushes added_columns (fun c => one (is_added rmap bcols c) c) _ _ _ _
      ltac:(intros ??? Hs; apply (add_column_fields _ _ _ _ _ Hs)) H).
    by rewrite Hn, flat_map_one.
  - refine (try_fold_const (fun d => (head_fields d, constraint_fields d, index_fields d, column_fields d)) _ _ _ _ _ H).
    intros ??? Hs. apply (add_column_fields _ _ _ _ _ Hs).
  - eapply try_fold_Forall; [|exact H]. intros ??? Hs. apply (add_column_fields _ _ _ _ _ Hs).
Qed.

Lemma constraint_fields_fold1 tcon l d :
  constraint_fields (foldl (diff_constraint tcon) d l)
  = (dropped_constraints d ++ flat_map (dropped_constraint_delta tcon) l,
     added_constraints d ++ flat_map (modified_constraint_delta tcon) l,
     added_or_modified_constraints d ++ flat_map (modified_constraint_delta tcon) l).
Proof.
  unfold constraint_fields.
  rewrite (foldl_pushes dropped_constraints (dropped_constraint_delta tcon)) by (intros d' e; by injection (diff_constraint_fields tcon d' e)).
  rewrite (foldl_pushes added_constraints (modified_constraint_delta tcon)) by (intros d' e; by injection (diff_constraint_fields tcon d' e)).
  by rewrite (foldl_pushes added_or_modified_constraints (modified_constraint_delta tcon)) by (intros d' e; by injection (diff_constraint_fields tcon d' e)).
Qed.

Lemma constraint_fields_fold2 bcon l d :
  constraint_fields (foldl (add_constraint bcon) d l)
  = (dropped_constraints d, added_constraints d ++ flat_map (new_constraint_delta bcon) l,
     added_or_modified_constraints d ++ flat_map (new_constraint_delta bcon) l).
Proof.
  unfold constraint_fields.
  rewrite (foldl_const dropped_constraints) by (intros d' e; by injection (add_constraint_fields bcon d' e)).
  rewrite (foldl_pushes added_constraints (new_constraint_delta bcon)) by (intros d' e; by injection (add_constraint_fields bcon d' e)).
  by rewrite (foldl_pushes added_or_modified_constraints (new_constraint_delta bcon)) by (intros d' e; by injection (add_constraint_fields bcon d' e)).
Qed.

Lemma constraints_loop hash_iter baseline target d d' :
  diff_non_primary_constraints hash_iter baseline target d = Ok d' ->
  constraint_fields d = ([], [], []) ->
  exists bcon tcon,
    schema_non_primary_constraints_by_name (ts_constraints baseline) = Ok bcon
    /\ schema_non_primary_constraints_by_name (ts_constraints target) = Ok tcon
    /\ constraint_fields d' =
      (let added := flat_map (modified_constraint_delta tcon) (hash_iter _ bcon)
                    ++ flat_map (new_constraint_delta bcon) (hash_iter _ tcon) in
       (flat_map (dropped_constraint_delta tcon) (hash_iter _ bcon), added, added))
    /\ (head_fields d', index_fields d', column_fields d', added_columns d')
       = (head_fields d, index_fields d, column_fields d, added_columns d).
Proof.
  unfold diff_non_primary_constraints. intros H [= Hn1 Hn2 Hn3]. bind_inv. subst d'.
  eexists _, _. split; [done|]. split; [done|]. split.
  - rewrite constraint_fields_fold2.
    injection (constraint_fields_fold1 a0 (hash_iter _ a) d) as -> -> ->. by rewrite Hn1, Hn2, Hn3.
  - pose (others := fun d => (head_fields d, index_fields d, column_fields d, added_columns d)).
    change (others (foldl (add_constraint a) (foldl (diff_constraint a0) d (hash_iter _ a)) (hash_iter _ a0)) = others d).
    rewrite (foldl_const others) by (intros; apply add_constraint_others).
    by rewrite (foldl_const others) by (intros; apply diff_constraint_others).
Qed.

Lemma indexes_loop bidx tidx bl tl d :
  index_fields d = ([], []) ->
  let d' := foldl (add_index bidx) (foldl (diff_index tidx) d bl) tl in
  index_fields d' =
    (List.filter (fun i => negb (index_kept tidx i)) bl,
     flat_map (recreated_index_delta tidx) bl ++ flat_map (new_index_delta bidx) tl)
  /\ (head_fields d', constraint_fields d', column_fields d', added_columns d')
     = (head_fields d, constraint_fields d, column_fields d, added_columns d).
Proof.
  intros [= Hn1 Hn2]. split.
  - unfold index_fields.
    rewrite (foldl_const dropped_indexes _ tl) by (intros d0 i; by injection (add_index_fields bidx d0 i)).
    rewrite (foldl_pushes dropped_indexes (fun i => one (negb (index_kept tidx i)) i) _ bl)
      by (intros d0 i; by injection (diff_index_fields tidx d0 i)).
    rewrite (foldl_pushes added_indexes (new_index_delta bidx) _ tl) by (intros d0 i; by injection (add_index_fields bidx d0 i)).
    rewrite (foldl_pushes added_indexes (recreated_index_delta tidx) _ bl) by (intros d0 i; by injection (diff_index_fields tidx d0 i)).
    by rewrite Hn1, Hn2, flat_map_one.
  - pose (others := fun d => (head_fields d, constraint_fields d, column_fields d, added_columns d)).
    change (others (foldl (add_index bidx) (foldl (diff_index tidx) d bl) tl) = others d).
    rewrite (foldl_const others) by (intros; apply add_index_others).
    by rewrite (foldl_const others) by (intros; apply diff_index_others).
Qed.

(** The fields set before the loops start. *)
Definition head_diff (baseline target : TableSchema) (renames : list TableColumnRename)
    (bpk tpk : PrimaryKeyDefinition) : TableSchemaUpdateDiff :=
  when (differs (pkd_columns bpk) (pkd_columns tpk))
    (set_primary_key_change (Some (mkPrimaryKeyChange (pkd_name bpk) (pkd_columns bpk) (pkd_columns tpk))))
    (set_renamed_columns
       (map (fun r => mkColumnRenameChange (trim (rn_old_name r)) (trim (rn_new_name r))) renames)
       (diff_basics (ts_basics baseline) (ts_basics target) default_diff)).

Lemma head_diff_fields baseline target renames bpk tpk :
  let d := head_diff baseline target renames bpk tpk in
  constraint_fields d = ([], [], []) /\ index_fields d = ([], []) /\ added_columns d = []
  /\ column_fields d = ([], [], [], [], [], [], [], [])
  /\ head_fields d =
    (None, basics_change baseline target tb_engine, basics_change baseline target tb_charset,
     basics_change baseline target tb_collation, None,
     if differs (pkd_columns bpk) (pkd_columns tpk)
     then Some (mkPrimaryKeyChange (pkd_name bpk) (pkd_columns bpk) (pkd_columns tpk)) else None,
     map (fun r => mkColumnRenameChange (trim (rn_old_name r)) (trim (rn_new_name r))) renames).
Proof.
  unfold head_diff, diff_basics, basics_change, when.
  destruct (differs (pkd_columns bpk) _), (differs (normalized_optional_text (tb_engine _)) _),
    (differs (normalized_optional_text (tb_charset _)) _), (differs (normalized_optional_text (tb_collation _)) _);
    done.
Qed.

Definition set_comment (baseline target : TableSchema) : TableSchemaUpdateDiff -> TableSchemaUpdateDiff :=
  when (differs (normalized_optional_text (tb_comment (ts_basics baseline)))
                (normalized_optional_text (tb_comment (ts_basics target))))
    (set_table_comment_change (Some (mkCommentChange (normalized_optional_text (tb_comment (ts_basics target)))))).

Lemma set_comment_fields baseline target d c e1 e2 e3 e4 e5 e6 :
  head_fields d = (c, e1, e2, e3, e4, e5, e6) ->
  (constraint_fields (set_comment baseline target d), index_fields (set_comment baseline target d),
   added_columns (set_comment baseline target d), column_fields (set_comment baseline target d))
  = (constraint_fields d, index_fields d, added_columns d, column_fields d)
  /\ head_fields (set_comment baseline target d) =
    (if differs (normalized_optional_text (tb_comment (ts_basics baseline)))
                (normalized_optional_text (tb_comment (ts_basics target)))
     then Some (mkCommentChange (normalized_optional_text (tb_comment (ts_basics target)))) else c,
     e1, e2, e3, e4, e5, e6).
Proof. unfold set_comment, when. destruct d. intros Hd. injection Hd as -> -> -> -> -> -> ->. by destruct (differs _ _). Qed.

Lemma diff_inv hash_iter baseline target options renames d :
  diff_table_schema_for_update_with_column_renames hash_iter baseline target options renames = Ok d ->
  exists x, diffed hash_iter baseline target options renames x d.
Proof.
  unfold diff_table_schema_for_update_with_column_renames. intros H.
  destruct (ensure_same_table_identity baseline target) as [[]|] eqn:Esame; [|discriminate H]. cbn [mbind Result_bind] in H.
  destruct (schema_columns_by_name (ts_columns baseline)) as [bcols|] eqn:Eb; [|discriminate H]. cbn [mbind Result_bind] in H.
  destruct (schema_columns_by_name (ts_columns target)) as [tcols|] eqn:Et; [|discriminate H]. cbn [mbind Result_bind] in H.
  destruct (validate_target_column_references _ _ _) as [[]|] eqn:Er; [|discriminate H]. cbn [mbind Result_bind] in H.
  destruct (validate_column_renames _ _ _) as [rmap|] eqn:Em; [|discriminate H]. cbn [mbind Result_bind] in H.
  destruct (differs (normalized_partition_options _) _) eqn:Ep; [discriminate H|]. apply (proj1 (differs_false _ _)) in Ep.
  destruct (primary_key_definition baseline) as [bpk|] eqn:Ebp; [|discriminate H]. cbn [mbind Result_bind] in H.
  destruct (primary_key_definition target) as [tpk|] eqn:Etp; [|discriminate H]. cbn [mbind Result_bind] in H.
  fold (head_diff baseline target renames bpk tpk) in H.
  destruct (head_diff_fields baseline target renames bpk tpk) as (Hn1 & Hn2 & Hn3 & Hn4 & Hhead).
  destruct (diff_non_primary_constraints _ _ _ _) as [d1|] eqn:Ec; [|discriminate H]. cbn [mbind Result_bind] in H.
  apply constraints_loop in Ec as (bcon & tcon & Hb & Ht & Hcon & Hr1); [|done].
  rewrite Hn2, Hn3, Hn4, Hhead in Hr1. apply pair_equal_spec in Hr1 as [[[Hh1 Hi1]%pair_equal_spec Hc1]%pair_equal_spec Ha1].
  fold (set_comment baseline target d1) in H.
  destruct (set_comment_fields baseline target d1 _ _ _ _ _ _ _ Hh1) as [Hr2 Hh2].
  rewrite Hcon, Hi1, Hc1, Ha1 in Hr2. apply pair_equal_spec in Hr2 as [[[Hcon2 Hi2]%pair_equal_spec Ha2]%pair_equal_spec Hc2].
  destruct (try_fold (diff_column _ _ _) _ _) as [d2|] eqn:Ecols; [|discriminate H]. cbn [mbind Result_bind] in H.
  apply columns_loop in Ecols as (Hcol & Hr3 & Hsup); [|done].
  rewrite Hh2, Hcon2, Hi2, Ha2 in Hr3. apply pair_equal_spec in Hr3 as [[[Hh3 Hcon3]%pair_equal_spec Hi3]%pair_equal_spec Ha3].
  destruct (try_fold (add_column _ _) _ _) as [d3|] eqn:Eadd; [|discriminate H]. cbn [mbind Result_bind] in H.
  apply added_loop in Eadd as (Hadd & Hr4 & Hval); [|done].
  rewrite Hh3, Hcon3, Hi3, Hcol in Hr4. apply pair_equal_spec in Hr4 as [[[Hh4 Hcon4]%pair_equal_spec Hi4]%pair_equal_spec Hc4].
  destruct (schema_indexes_by_name (ts_indexes baseline)) as [bidx|] eqn:Ebi; [|discriminate H]. cbn [mbind Result_bind] in H.
  destruct (schema_indexes_by_name (ts_indexes target)) as [tidx|] eqn:Eti; [|discriminate H]. cbn [mbind Result_bind] in H.
  apply Ok_inj in H. subst d.
  destruct (indexes_loop bidx tidx (ts_indexes baseline) (ts_indexes target) d3 Hi4) as [Hi5 Hr5].
  rewrite Hh4, Hcon4, Hc4, Hadd in Hr5. apply pair_equal_spec in Hr5 as [[[Hh5 Hcon5]%pair_equal_spec Hc5]%pair_equal_spec Ha5].
  exists (mkTables bcols tcols rmap bpk tpk bcon tcon bidx tidx). constructor; eassumption.
Qed.

(** ** Tables by name *)

Section by_name_facts.
Context {A : Type} (key : A -> IpcResult str) (duplicate : A -> IpcError) (name : A -> str).
Hypothesis key_name : forall x k, key x = Ok k -> k = name x.

Lemma insert_by_name_ok m x m' : insert_by_name key duplicate m x = Ok m' ->
  m !! name x = None /\ m' = <[name x := x]> m.
Proof.
  unfold insert_by_name. intros H. bind_inv. apply key_name in E. subst.
  destruct (m !! name x) eqn:Em; [discriminate H|]. by apply Ok_inj in H as <-.
Qed.

Lemma by_name_fold l m m' : try_fold (insert_by_name key duplicate) m l = Ok m' ->
  NoDup (map name l) /\ Forall (fun x => m !! name x = None) l
  /\ forall k x, m' !! k = Some x <-> m !! k = Some x \/ (x ∈ l /\ name x = k).
Proof.
  revert m. induction l as [|y l IH]; intros m H; simpl in H.
  - apply Ok_inj in H. subst. split; [constructor|]. split; [constructor|]. set_solver.
  - bind_inv. apply insert_by_name_ok in E as [Hy ->]. apply IH in H as (Hn & Hf & Hm).
    assert (Hfresh : forall x, x ∈ l -> name x <> name y /\ m !! name x = None).
    { intros x Hx. pose proof (proj1 (Forall_forall _ _) Hf x Hx) as Hx'. simpl in Hx'.
      apply lookup_insert_None in Hx' as [? ?]. naive_solver. }
    split; [|split].
    + simpl. constructor; [|done]. intros (x & Hx & Hin)%list_elem_of_fmap. destruct (Hfresh x Hin). congruence.
    + constructor; [done|]. apply Forall_forall. intros x Hx. by apply Hfresh.
    + intros k x. rewrite Hm, lookup_insert_Some. split.
      * intros [[[<- <-]|[_ ?]]|[? <-]]; [right; set_solver|by left|right; set_solver].
      * intros [Hk|[Hx <-]].
        -- left. right. split; [|done]. intros <-. congruence.
        -- apply elem_of_cons in Hx as [->|Hx]; [left; by left|by right].
Qed.

Lemma by_name_spec l m : by_name key duplicate l = Ok m ->
  NoDup (map name l) /\ forall k x, m !! k = Some x <-> x ∈ l /\ name x = k.
Proof.
  intros (Hn & _ & Hm)%by_name_fold. split; [done|]. intros k x. rewrite Hm, lookup_empty. naive_solver.
Qed.
End by_name_facts.

Lemma columns_by_name_spec l m : schema_columns_by_name l = Ok m ->
  NoDup (map tc_name l) /\ forall k c, m !! k = Some c <-> c ∈ l /\ tc_name c = k.
Proof. apply by_name_spec. intros c k H. bind_inv. congruence. Qed.

Lemma indexes_by_name_spec l m : schema_indexes_by_name l = Ok m ->
  NoDup (map ti_name l) /\ forall k i, m !! k = Some i <-> i ∈ l /\ ti_name i = k.
Proof. apply by_name_spec. intros c k H. bind_inv. congruence. Qed.

Definition constraint_key (c : TableConstraintSchema) : str := str_lower (tk_name c).

Lemma constraints_by_name_key l m k c :
  schema_non_primary_constraints_by_name l = Ok m -> m !! k = Some c -> constraint_key c = k.
Proof.
  intros H. revert k c.
  refine (try_fold_inv (fun m _ => forall k c, m !! k = Some c -> constraint_key c = k) _ _ _ _ _ _ H); clear; [|done].
  intros m x _ m' Hm Hs k c. bind_inv. apply (insert_by_name_ok _ _ constraint_key) in Hs as [_ ->]; [|intros ??; by intros [= <-]].
  intros [[<- <-]|[_ ?]]%lookup_insert_Some; [done|by eapply Hm].
Qed.

(** ** Renames *)

Section rename_facts.
Context (bcols tcols : gmap str TableColumnSchema).

Definition renames_to (l : list TableColumnRename) (o n : str) : Prop :=
  o <> n /\ exists r, r ∈ l /\ trim (rn_old_name r) = o /\ trim (rn_new_name r) = n.

Lemma identifier_ok s label k : normalized_non_empty_identifier s label = Ok k -> k = trim s /\ k <> [].
Proof. unfold normalized_non_empty_identifier. case_bool_decide; [done|]. intros [= <-]. done. Qed.

Lemma add_rename_ok m seen r m' seen' : add_rename bcols tcols (m, seen) r = Ok (m', seen') ->
  let o := trim (rn_old_name r) in let n := trim (rn_new_name r) in
  (o = n /\ m' = m /\ seen' = seen)
  \/ (o <> n /\ m !! o = None /\ n ∉ seen /\ is_Some (bcols !! o) /\ is_Some (tcols !! n)
      /\ m' = <[o := n]> m /\ seen' = {[n]} ∪ seen).
Proof.
  unfold add_rename. intros H. bind_inv. apply identifier_ok in E as [-> _], E0 as [-> _].
  unfold str_eqb in H. case_bool_decide as Ho; [left; naive_solver|]. right.
  destruct (bcols !! _) eqn:Eb; [|discriminate H]. destruct (tcols !! _) eqn:Et; [|discriminate H].
  destruct (m !! _) eqn:Em; [discriminate H|]. cbn [is_none negb] in H.
  case_bool_decide; [discriminate H|]. injection H as <- <-. naive_solver.
Qed.

Lemma renames_fold l m seen m' seen' :
  try_fold (add_rename bcols tcols) (m, seen) l = Ok (m', seen') ->
  (forall o n, m !! o = Some n -> n ∈ seen) ->
  (forall o1 o2 n, m !! o1 = Some n -> m !! o2 = Some n -> o1 = o2) ->
  (forall o n, m' !! o = Some n <-> m !! o = Some n \/ renames_to l o n)
  /\ (forall o1 o2 n, m' !! o1 = Some n -> m' !! o2 = Some n -> o1 = o2)
  /\ (forall o n, renames_to l o n -> is_Some (bcols !! o) /\ is_Some (tcols !! n)).
Proof.
  revert m seen. induction l as [|r l IH]; intros m seen H Hseen Hinj; cbn [try_fold] in H.
  - injection H as <- <-. unfold renames_to. set_solver.
  - destruct (add_rename bcols tcols (m, seen) r) as [[m1 s1]|] eqn:E; [|discriminate H]. cbn [mbind Result_bind] in H.
    apply add_rename_ok in E as [(Ho & -> & ->)|(Ho & Hm & Hs & Hb & Ht & -> & ->)].
    + destruct (IH _ _ H Hseen Hinj) as (H1 & H2 & H3).
      assert (Hr : forall o n, renames_to (r :: l) o n <-> renames_to l o n).
      { intros o n. unfold renames_to. split; [|set_solver].
        intros (Hne & r' & [->|Hr]%elem_of_cons & <- & <-); [done|eauto]. }
      setoid_rewrite Hr. done.
    + apply IH in H as (H1 & H2 & H3).
      * assert (Hr : forall o n, renames_to (r :: l) o n <->
          (o = trim (rn_old_name r) /\ n = trim (rn_new_name r)) \/ renames_to l o n).
        { intros o n. unfold renames_to. set_solver. }
        split; [|split; [done|]].
        -- intros o n. rewrite H1, Hr, lookup_insert_Some. split; [naive_solver|].
           intros [Hmo|[[-> ->]|Hl]]; [|naive_solver..]. left. right. split; [|done]. intros <-. congruence.
        -- intros o n [[-> ->]|Hl]%Hr; [done|by apply H3].
      * intros o n [[<- <-]|[_ Hmo]]%lookup_insert_Some; [set_solver|]. apply Hseen in Hmo. set_solver.
      * intros o1 o2 n [[<- <-]|[_ H1]]%lookup_insert_Some [[<- Hn]|[_ H2]]%lookup_insert_Some;
          [done|apply Hseen in H2; set_solver|subst; apply Hseen in H1; set_solver|by eapply Hinj].
Qed.

Lemma renames_spec l m : validate_column_renames l bcols tcols = Ok m ->
  (forall o n, m !! o = Some n <-> renames_to l o n)
  /\ (forall o1 o2 n, m !! o1 = Some n -> m !! o2 = Some n -> o1 = o2)
  /\ (forall o n, renames_to l o n -> is_Some (bcols !! o) /\ is_Some (tcols !! n)).
Proof.
  unfold validate_column_renames. intros H. bind_inv. destruct a as [m1 s1]. simpl in H. subst m1.
  apply renames_fold in E as (H1 & H2 & H3); [|set_solver..].
  split; [|done]. intros o n. rewrite H1, lookup_empty. naive_solver.
Qed.
End rename_facts.

Lemma is_renamed_target_spec m n : is_renamed_target m n = true <-> exists o, m !! o = Some n.
Proof.
  unfold is_renamed_target. rewrite existsb_exists. split.
  - intros ([o n'] & Hin%list_elem_of_In%elem_of_map_to_list & He%bool_decide_eq_true). simpl in He. subst. eauto.
  - intros [o Ho]. exists (o, n). split; [by apply list_elem_of_In, elem_of_map_to_list|]. by apply bool_decide_eq_true.
Qed.

(** ** What a diff means

    A table as the designers compare it: each column by its name and its
    normalised attributes. The functions below read a diff as a change of such a
    table; they do not depend on how the diff was computed. *)

Record ColumnView := mkColumnView {
  cv_type : str;
  cv_nullable : bool;
  cv_default : option str;
  cv_unique : bool;
  cv_identity : option TableIdentityOptions;
  cv_generated : option TableGeneratedColumn;
  cv_charset : option str;
  cv_collation : option str;
  cv_comment : option str;
}.

Definition column_view (c : TableColumnSchema) : ColumnView :=
  mkColumnView (normalized_sql_type (tc_type_name c)) (tc_nullable c)
    (normalized_optional_text (tc_default_value c)) (tc_is_unique c) (normalized_column_identity c)
    (generated_view (tc_generated c)) (normalized_optional_text (tc_charset c))
    (normalized_optional_text (tc_collation c)) (normalized_optional_text (tc_comment c)).

Definition named_view (c : TableColumnSchema) : str * ColumnView := (tc_name c, column_view c).

(** The last word of a list of changes on the column of a name. *)
Definition changed {X Y} (key : X -> str) (value : X -> Y) (changes : list X) (name : str) (old : Y) : Y :=
  match List.find (fun x => str_eqb (key x) name) changes with Some x => value x | None => old end.

Definition apply_column (d : TableSchemaUpdateDiff) (name : str) (v : ColumnView) : ColumnView :=
  mkColumnView
    (changed ctc_column_name (fun x => normalized_sql_type (ctc_type_name x)) (column_type_changes d) name (cv_type v))
    (changed cnc_column_name cnc_nullable (column_nullability_changes d) name (cv_nullable v))
    (changed cdc_column_name cdc_default_value (column_default_changes d) name (cv_default v))
    (cv_unique v)
    (changed cic_column_name cic_new_identity (identity_changes d) name (cv_identity v))
    (changed cgc_column_name cgc_new_generated (generated_column_changes d) name (cv_generated v))
    (changed csc_column_name csc_charset (column_charset_changes d) name (cv_charset v))
    (changed csc_column_name csc_collation (column_charset_changes d) name (cv_collation v))
    (changed ccc_column_name ccc_comment (column_comment_changes d) name (cv_comment v)).

(** A rename to the same name changes nothing. *)
Definition renamed (d : TableSchemaUpdateDiff) (name : str) : str :=
  match List.find (fun r => str_eqb (crc_old_name r) name && negb (str_eqb (crc_new_name r) name)) (renamed_columns d) with
  | Some r => crc_new_name r
  | None => name
  end.

Definition apply_columns (d : TableSchemaUpdateDiff) (columns : list TableColumnSchema) : list (str * ColumnView) :=
  map (fun c => let name := renamed d (tc_name c) in (name, apply_column d name (column_view c)))
    (List.filter (fun c => negb (existsb (fun c' => str_eqb (tc_name c') (tc_name c)) (dropped_columns d))) columns)
  ++ map named_view (added_columns d).

Definition index_view (i : TableIndexSchema) :=
  (ti_name i, ti_columns i, ti_is_unique i, normalized_optional_text (ti_method i),
   normalized_optional_text (ti_comment i)).

Definition apply_indexes (d : TableSchemaUpdateDiff) (indexes : list TableIndexSchema) :=
  map index_view
    (List.filter (fun i => negb (existsb (fun i' => str_eqb (ti_name i') (ti_name i)) (dropped_indexes d))) indexes)
  ++ map index_view (added_indexes d).

Definition apply_constraints (d : TableSchemaUpdateDiff) (m : gmap str TableConstraintSchema)
    : gmap str TableConstraintSchema :=
  list_to_map (map (fun c => (constraint_key c, c)) (added_constraints d))
  ∪ filter (fun e => e.1 ∉ map constraint_key (dropped_constraints d)) m.

Definition apply_primary_key (d : TableSchemaUpdateDiff) (columns : list str) : list str :=
  match primary_key_change d with Some change => pkc_new_columns change | None => columns end.

Definition apply_comment (d : TableSchemaUpdateDiff) (comment : option str) : option str :=
  match table_comment_change d with Some change => cc_comment change | None => comment end.

(** The names the renames take over and set free: a name that a rename gives away
    must itself be renamed away in the baseline, and a name it frees may only be
    taken by another rename. *)
Definition renames_consistent (baseline target : TableSchema) (renames : list TableColumnRename) : Prop :=
  forall o n, renames_to renames o n ->
    (n ∈ map tc_name (ts_columns baseline) -> exists n', renames_to renames n n')
    /\ (o ∈ map tc_name (ts_columns target) -> exists o', renames_to renames o' o).

Section reach.
Context (hash_iter : forall A, gmap str A -> list (str * A)).
Context (baseline target : TableSchema) (options : TableUpdateDiffOptions) (renames : list TableColumnRename).
Context (x : Tables) (d : TableSchemaUpdateDiff).
Context (D : diffed hash_iter baseline target options renames x d).

Lemma bcols_spec : NoDup (map tc_name (ts_columns baseline))
  /\ forall k c, bcols x !! k = Some c <-> c ∈ ts_columns baseline /\ tc_name c = k.
Proof. apply columns_by_name_spec. by destruct D. Qed.

Lemma tcols_spec : NoDup (map tc_name (ts_columns target))
  /\ forall k c, tcols x !! k = Some c <-> c ∈ ts_columns target /\ tc_name c = k.
Proof. apply columns_by_name_spec. by destruct D. Qed.

Lemma rmap_spec :
  (forall o n, rmap x !! o = Some n <-> renames_to renames o n)
  /\ (forall o1 o2 n, rmap x !! o1 = Some n -> rmap x !! o2 = Some n -> o1 = o2)
  /\ (forall o n, renames_to renames o n -> is_Some (bcols x !! o) /\ is_Some (tcols x !! n)).
Proof. apply renames_spec. by destruct D. Qed.

Lemma matched_spec c t : matched (rmap x) (tcols x) c = Some t <->
  t ∈ ts_columns target /\ tc_name t = target_name (rmap x) c.
Proof. unfold matched. apply tcols_spec. Qed.

Lemma renamed_target_name c : renamed d (tc_name c) = target_name (rmap x) c.
Proof.
  pose proof (df_head _ _ _ _ _ _ _ D) as Hh. injection Hh as _ _ _ _ _ _ Hr.
  unfold renamed, target_name. rewrite Hr. destruct rmap_spec as (Hm & _ & _).
  destruct (List.find _ _) as [r|] eqn:Ef.
  - apply find_some in Ef as [(r0 & <- & Hin)%in_map_iff Hb]. simpl in *. unfold str_eqb in Hb. breflect.
    assert (rmap x !! tc_name c = Some (trim (rn_new_name r0))) as ->; [|done].
    apply Hm. split; [naive_solver|]. exists r0. split; [by apply list_elem_of_In|]. done.
  - destruct (rmap x !! tc_name c) as [n|] eqn:En; [|done]. exfalso.
    apply Hm in En as (Hne & r & Hin%list_elem_of_In & Ho & Hn).
    eapply find_none in Ef; [|apply in_map; exact Hin]. simpl in Ef.
    unfold str_eqb in Ef. rewrite Ho, Hn, bool_decide_true in Ef by done.
    rewrite bool_decide_false in Ef by naive_solver. discriminate Ef.
Qed.

Lemma dropped_fields : dropped_columns d = List.filter (fun c => is_none (matched (rmap x) (tcols x) c)) (ts_columns baseline).
Proof. pose proof (df_columns _ _ _ _ _ _ _ D) as Hc. injection Hc as -> _. apply flat_map_one. Qed.

(** A baseline column is dropped exactly when nothing in the target continues it. *)
Lemma dropped_iff c : c ∈ ts_columns baseline ->
  existsb (fun c' => str_eqb (tc_name c') (tc_name c)) (dropped_columns d) = is_none (matched (rmap x) (tcols x) c).
Proof.
  intros Hc. rewrite dropped_fields. apply eq_true_iff_eq. rewrite existsb_exists. split.
  - intros (c' & [Hin Hm]%filter_In & He%bool_decide_eq_true). apply list_elem_of_In in Hin.
    destruct bcols_spec as [_ Hb].
    assert (Some c' = Some c) as [= ->]; [|done].
    rewrite <-(proj2 (Hb (tc_name c) c)), <-(proj2 (Hb (tc_name c) c')); done.
  - intros Hm. exists c. split; [|by apply bool_decide_eq_true]. apply filter_In. split; [by apply list_elem_of_In|done].
Qed.

Lemma kept_columns :
  List.filter (fun c => negb (existsb (fun c' => str_eqb (tc_name c') (tc_name c)) (dropped_columns d))) (ts_columns baseline)
  = List.filter (fun c => negb (is_none (matched (rmap x) (tcols x) c))) (ts_columns baseline).
Proof. apply filter_ext_in. intros c Hc%list_elem_of_In. by rewrite dropped_iff. Qed.

Section consistent.
Context (C : renames_consistent baseline target renames).

Lemma target_name_inj c1 c2 : c1 ∈ ts_columns baseline -> c2 ∈ ts_columns baseline ->
  target_name (rmap x) c1 = target_name (rmap x) c2 -> c1 = c2.
Proof.
  intros H1 H2 He. destruct bcols_spec as [_ Hb], rmap_spec as (Hm & Hinj & _).
  assert (Hsame : tc_name c1 = tc_name c2 -> c1 = c2).
  { intros Hn. assert (Some c1 = Some c2) as [= ->]; [|done].
    rewrite <-(proj2 (Hb (tc_name c1) c1)), <-(proj2 (Hb (tc_name c1) c2)); done. }
  assert (Hno : forall c c' n, c' ∈ ts_columns baseline -> rmap x !! tc_name c = Some n -> rmap x !! tc_name c' = None -> n <> tc_name c').
  { intros c c' n Hc' Hr Hr' ->. apply Hm in Hr. apply C in Hr as [Hr _].
    destruct Hr as [n' Hn']; [by apply list_elem_of_fmap_2|]. apply Hm in Hn'. congruence. }
  unfold target_name in He. apply Hsame.
  destruct (rmap x !! tc_name c1) as [n1|] eqn:E1, (rmap x !! tc_name c2) as [n2|] eqn:E2; simpl in He; subst.
  - by eapply Hinj.
  - exfalso. eapply Hno; [exact H2|exact E1|exact E2|done].
  - exfalso. eapply Hno; [exact H1|exact E2|exact E1|done].
  - done.
Qed.

(** A target column continues a baseline column or is added, never both. *)
Lemma target_column_cases t : t ∈ ts_columns target ->
  is_added (rmap x) (bcols x) t = negb (existsb (fun c => str_eqb (target_name (rmap x) c) (tc_name t)) (ts_columns baseline)).
Proof.
  intros Ht. destruct bcols_spec as [_ Hb], rmap_spec as (Hm & Hinj & Hdom). unfold is_added.
  apply eq_true_iff_eq. rewrite andb_true_iff, !negb_true_iff, <-!not_true_iff_false, is_renamed_target_spec, existsb_exists.
  split.
  - intros [Hn Hr] (c & Hc%list_elem_of_In & He%bool_decide_eq_true). unfold target_name in He.
    destruct (rmap x !! tc_name c) as [n|] eqn:En; simpl in He; subst; [by apply Hr; eauto|].
    rewrite <-He, (proj2 (Hb (tc_name c) c)) in Hn by done. discriminate Hn.
  - intros Hno. split.
    + destruct (bcols x !! tc_name t) as [c|] eqn:Eb; [|done]. exfalso. apply Hb in Eb as [Hc He].
      apply Hno. destruct (rmap x !! tc_name c) as [n|] eqn:En.
      * apply Hm, C in En as [_ Ho]. destruct Ho as [o' Ho']; [rewrite He; by apply list_elem_of_fmap_2|].
        destruct (Hdom _ _ Ho') as [[c' Hc'] _]. apply Hb in Hc' as [Hc' He']. exists c'. split; [by apply list_elem_of_In|].
        apply bool_decide_eq_true. unfold target_name. apply Hm in Ho'. subst o'. rewrite Ho'. simpl. congruence.
      * exists c. split; [by apply list_elem_of_In|]. apply bool_decide_eq_true. unfold target_name. by rewrite En.
    + intros [o Ho]. pose proof Ho as Ho'. apply Hm, Hdom in Ho' as [[c Hc] _]. apply Hb in Hc as [Hc <-].
      apply Hno. exists c. split; [by apply list_elem_of_In|]. apply bool_decide_eq_true. unfold target_name. by rewrite Ho.
Qed.

(** The change recorded for the column [t] is the one computed from the column it continues. *)
Lemma find_delta {X Y} (key : X -> str) (b : TableColumnSchema -> TableColumnSchema -> bool)
    (mk : TableColumnSchema -> TableColumnSchema -> X) (value : X -> Y) c t (old : Y) :
  (forall c t, key (mk c t) = tc_name t) -> c ∈ ts_columns baseline -> matched (rmap x) (tcols x) c = Some t ->
  changed key value (flat_map (on_match (rmap x) (tcols x) (fun c t => one (b c t) (mk c t))) (ts_columns baseline))
    (tc_name t) old = if b c t then value (mk c t) else old.
Proof.
  intros Hkey Hc Ht.
  assert (Hin : forall y, In y (flat_map (on_match (rmap x) (tcols x) (fun c t => one (b c t) (mk c t))) (ts_columns baseline)) ->
    key y = tc_name t -> b c t = true /\ y = mk c t).
  { intros y (c2 & Hin%list_elem_of_In & Hy)%in_flat_map Hk. unfold on_match in Hy.
    destruct (matched _ _ c2) as [t2|] eqn:Et2; [|done]. unfold one in Hy.
    destruct (b c2 t2) eqn:Eb; [|done]. destruct Hy as [<-|[]]. rewrite Hkey in Hk.
    pose proof Ht as [_ Hn]%matched_spec. pose proof Et2 as [_ Hn2]%matched_spec.
    assert (c2 = c) as -> by (apply target_name_inj; [done|done|congruence]).
    assert (t2 = t) as -> by congruence. done. }
  unfold changed. destruct (List.find _ _) as [y|] eqn:Ef.
  - apply find_some in Ef as [Hy Hk%bool_decide_eq_true]. by destruct (Hin y Hy Hk) as [-> ->].
  - destruct (b c t) eqn:Eb; [|done]. exfalso. eapply find_none in Ef.
    2: { apply in_flat_map. exists c. split; [by apply list_elem_of_In|]. unfold on_match. rewrite Ht, Eb. by left. }
    rewrite Hkey in Ef. by apply bool_decide_eq_false in Ef.
Qed.

Lemma pick_differs {A} `{!EqDecision A} (a b : A) : (if differs a b then b else a) = b.
Proof. destruct (differs a b) eqn:E; [done|]. by apply (proj1 (differs_false _ _)) in E. Qed.

Lemma pick_differs_l {A} `{!EqDecision A} (a b : A) r : (if differs a b || r then b else a) = b.
Proof. destruct (differs a b) eqn:E; [done|]. apply (proj1 (differs_false _ _)) in E as ->. by destruct r. Qed.

Lemma pick_differs_r {A} `{!EqDecision A} (a b : A) r : (if r || differs a b then b else a) = b.
Proof. rewrite orb_comm. apply pick_differs_l. Qed.

Lemma supported_unique c t o : ensure_supported_column_update c t o = Ok tt -> tc_is_unique c = tc_is_unique t.
Proof.
  unfold ensure_supported_column_update. intros H. case_ifs H; try discriminate H.
  apply negb_false_iff, eqb_prop in E4. done.
Qed.

(** After the update, a column that is continued looks like the target column. *)
Lemma apply_column_matched c t : c ∈ ts_columns baseline -> matched (rmap x) (tcols x) c = Some t ->
  apply_column d (tc_name t) (column_view c) = column_view t.
Proof.
  intros Hc Ht. pose proof (df_columns _ _ _ _ _ _ _ D) as Hf. injection Hf as _ H1 H2 H3 H4 H5 H6 H7.
  pose proof (proj1 (Forall_forall _ _) (df_supported _ _ _ _ _ _ _ D) c Hc t Ht) as Hs.
  unfold apply_column, column_view. cbn [cv_type cv_nullable cv_default cv_unique cv_identity cv_generated cv_charset cv_collation cv_comment].
  rewrite H1, H2, H3, H4, H5, H6, H7.
  unfold type_delta, default_delta, nullability_delta, generated_delta, identity_delta, charset_delta, comment_delta.
  rewrite !find_delta with (c := c) by done. simpl.
  unfold normalized_sql_type. rewrite trim_trim. fold (normalized_sql_type (tc_type_name t)) (normalized_sql_type (tc_type_name c)).
  unfold text_differs. rewrite !pick_differs. rewrite (supported_unique _ _ _ Hs). by rewrite pick_differs_l, pick_differs_r.
Qed.

Lemma apply_columns_reach : apply_columns d (ts_columns baseline) ≡ₚ map named_view (ts_columns target).
Proof.
  assert (Hkept : map (fun c => (renamed d (tc_name c), apply_column d (renamed d (tc_name c)) (column_view c)))
      (List.filter (fun c => negb (existsb (fun c' => str_eqb (tc_name c') (tc_name c)) (dropped_columns d))) (ts_columns baseline))
    = map named_view (omap (matched (rmap x) (tcols x)) (ts_columns baseline))).
  { rewrite kept_columns. apply map_filter_omap. intros c t Hc Et. cbn. rewrite renamed_target_name.
    pose proof Et as [_ <-]%matched_spec. unfold named_view. f_equal. by apply apply_column_matched. }
  unfold apply_columns. rewrite Hkept, <-map_app, (df_added _ _ _ _ _ _ _ D). apply Permutation_map.
  destruct tcols_spec as [Hnt _], bcols_spec as [Hnb _]. apply NoDup_fmap_1 in Hnt, Hnb.
  assert (Hom : forall t, t ∈ omap (matched (rmap x) (tcols x)) (ts_columns baseline) <->
    t ∈ ts_columns target /\ existsb (fun c => str_eqb (target_name (rmap x) c) (tc_name t)) (ts_columns baseline) = true).
  { intros t. rewrite list_elem_of_omap, existsb_exists. setoid_rewrite <-list_elem_of_In. split.
    - intros (c & Hc & Ht%matched_spec). split; [apply Ht|]. exists c. split; [done|]. apply bool_decide_eq_true. symmetry. apply Ht.
    - intros [Ht (c & Hc & He%bool_decide_eq_true)]. exists c. split; [done|]. apply matched_spec. by rewrite He. }
  apply NoDup_Permutation.
  - apply NoDup_app. split; [|split].
    + apply NoDup_omap_inj; [done|]. intros c1 c2 t H1 H2 [_ Ht1]%matched_spec [_ Ht2]%matched_spec.
      apply target_name_inj; [done|done|congruence].
    + intros t [Ht Hex]%Hom [Hin Ha]%list_elem_of_In%filter_In. rewrite target_column_cases, Hex in Ha by done. discriminate Ha.
    + apply NoDup_ListNoDup, List.NoDup_filter, NoDup_ListNoDup, Hnt.
  - done.
  - intros t. rewrite elem_of_app, Hom, (list_elem_of_In (List.filter _ _)), filter_In, <-list_elem_of_In. split; [naive_solver|].
    intros Ht. rewrite target_column_cases by done. destruct (existsb _ _); naive_solver.
Qed.
End consistent.

(** *** Indexes *)

Lemma index_unchanged i t : index_changed i t = false -> ti_name i = ti_name t -> index_view i = index_view t.
Proof.
  unfold index_changed, index_view. intros H ->. breflect. apply eqb_prop in H2. congruence.
Qed.

Lemma bidx_spec : NoDup (map ti_name (ts_indexes baseline))
  /\ forall k i, bidx x !! k = Some i <-> i ∈ ts_indexes baseline /\ ti_name i = k.
Proof. apply indexes_by_name_spec. by destruct D. Qed.

Lemma tidx_spec : NoDup (map ti_name (ts_indexes target))
  /\ forall k i, tidx x !! k = Some i <-> i ∈ ts_indexes target /\ ti_name i = k.
Proof. apply indexes_by_name_spec. by destruct D. Qed.

Lemma kept_indexes :
  List.filter (fun i => negb (existsb (fun i' => str_eqb (ti_name i') (ti_name i)) (dropped_indexes d))) (ts_indexes baseline)
  = List.filter (index_kept (tidx x)) (ts_indexes baseline).
Proof.
  pose proof (df_indexes _ _ _ _ _ _ _ D) as Hi. injection Hi as -> _. destruct bidx_spec as [_ Hb].
  apply filter_ext_in. intros i Hin%list_elem_of_In. apply eq_true_iff_eq.
  rewrite negb_true_iff, <-not_true_iff_false, existsb_exists. split.
  - intros Hno. destruct (index_kept (tidx x) i) eqn:Ek; [done|]. exfalso. apply Hno. exists i.
    split; [|by apply bool_decide_eq_true]. apply filter_In. split; [by apply list_elem_of_In|]. by rewrite Ek.
  - intros Hk (i' & [Hi'%list_elem_of_In Hn]%filter_In & He%bool_decide_eq_true).
    assert (Some i' = Some i) as [= ->]; [|by rewrite Hk in Hn].
    rewrite <-(proj2 (Hb (ti_name i) i)), <-(proj2 (Hb (ti_name i) i')); done.
Qed.

(** The target index that a baseline index of the same name becomes. *)
Definition index_successor (i : TableIndexSchema) : option TableIndexSchema := tidx x !! ti_name i.

Lemma index_partition l :
  map index_view (List.filter (index_kept (tidx x)) l) ++ map index_view (flat_map (recreated_index_delta (tidx x)) l)
  ≡ₚ map index_view (omap index_successor l).
Proof.
  induction l as [|i l IH]; [done|]. simpl. unfold index_kept at 1, recreated_index_delta at 1, index_successor at 1.
  destruct (tidx x !! ti_name i) as [t|] eqn:Et; [|done].
  apply tidx_spec in Et as [_ Hn]. destruct (index_changed i t) eqn:Ec; simpl.
  - rewrite <-IH. rewrite Permutation_middle. done.
  - rewrite <-IH, (index_unchanged i t) by done. done.
Qed.

Lemma apply_indexes_reach : apply_indexes d (ts_indexes baseline) ≡ₚ map index_view (ts_indexes target).
Proof.
  unfold apply_indexes. rewrite kept_indexes. pose proof (df_indexes _ _ _ _ _ _ _ D) as Hi. injection Hi as _ ->.
  rewrite map_app, app_assoc, index_partition, <-map_app. apply Permutation_map.
  destruct bidx_spec as [Hnb Hb], tidx_spec as [Hnt Ht]. apply NoDup_fmap_1 in Hnb, Hnt.
  unfold new_index_delta. rewrite flat_map_one.
  assert (Hom : forall t, t ∈ omap index_successor (ts_indexes baseline) <-> t ∈ ts_indexes target /\ is_none (bidx x !! ti_name t) = false).
  { intros t. rewrite list_elem_of_omap. unfold index_successor. split.
    - intros (i & Hin & [Hin' He]%Ht). split; [done|]. by rewrite He, (proj2 (Hb (ti_name i) i)).
    - intros [Hin Hs]. destruct (bidx x !! ti_name t) as [i|] eqn:Ei; [|done]. apply Hb in Ei as [Hi' He].
      exists i. split; [done|]. by apply Ht. }
  apply NoDup_Permutation; [|done|].
  - apply NoDup_app. split; [|split].
    + apply NoDup_omap_inj; [done|]. unfold index_successor. intros i1 i2 t H1 H2 [_ E1]%Ht [_ E2]%Ht.
      assert (Some i1 = Some i2) as [= ->]; [|done].
      rewrite <-(proj2 (Hb (ti_name i1) i1)), <-(proj2 (Hb (ti_name i1) i2)); [done|split; [done|congruence]|done].
    + intros t [_ H1]%Hom [_ H2]%list_elem_of_In%filter_In. congruence.
    + apply NoDup_ListNoDup, List.NoDup_filter, NoDup_ListNoDup, Hnt.
  - intros t. rewrite elem_of_app, Hom, (list_elem_of_In (List.filter _ _)), filter_In, <-list_elem_of_In.
    destruct (is_none (bidx x !! ti_name t)); naive_solver.
Qed.

(** *** Constraints *)

Context (hash_iter_perm : forall A (m : gmap str A), hash_iter A m ≡ₚ map_to_list m).

Lemma in_iter {A} (m : gmap str A) k c : In (k, c) (hash_iter A m) <-> m !! k = Some c.
Proof. rewrite <-list_elem_of_In, hash_iter_perm. apply elem_of_map_to_list. Qed.

Lemma dropped_constraint_spec c : In c (dropped_constraints d) <->
  exists k, bcon x !! k = Some c /\ tcon x !! k <> Some c.
Proof.
  pose proof (df_constraints _ _ _ _ _ _ _ D) as Hc. injection Hc as -> _ _. rewrite in_flat_map. split.
  - intros ([k c'] & Hin%in_iter & Hd). unfold dropped_constraint_delta, one in Hd. simpl in Hd.
    destruct (differs _ _) eqn:E; [|done]. destruct Hd as [->|[]]. apply (proj1 (differs_true _ _)) in E. exists k. auto.
  - intros (k & Hb & Ht). exists (k, c). split; [by apply in_iter|]. unfold dropped_constraint_delta. simpl.
    rewrite (proj2 (differs_true (Some c) (tcon x !! k))) by auto. by left.
Qed.

Lemma added_constraint_spec c : In c (added_constraints d) <->
  exists k, tcon x !! k = Some c /\ bcon x !! k <> Some c.
Proof.
  pose proof (df_constraints _ _ _ _ _ _ _ D) as Hc. injection Hc as _ -> _. rewrite in_app_iff, !in_flat_map. split.
  - intros [([k b] & Hin%in_iter & Hd)|([k t] & Hin%in_iter & Hd)].
    + unfold modified_constraint_delta, one in Hd. simpl in Hd. destruct (tcon x !! k) as [t|] eqn:Et; [|done].
      destruct (differs _ _) eqn:E; [|done]. destruct Hd as [->|[]]. apply (proj1 (differs_true _ _)) in E.
      exists k. split; [done|]. congruence.
    + unfold new_constraint_delta, one in Hd. simpl in Hd. destruct (bcon x !! k) eqn:Eb; [done|].
      destruct Hd as [->|[]]. exists k. split; [done|]. congruence.
  - intros (k & Ht & Hb). destruct (bcon x !! k) as [b|] eqn:Eb.
    + left. exists (k, b). split; [by apply in_iter|]. unfold modified_constraint_delta. simpl. rewrite Ht.
      rewrite (proj2 (differs_true b c)) by congruence. by left.
    + right. exists (k, c). split; [by apply in_iter|]. unfold new_constraint_delta. simpl. rewrite Eb. by left.
Qed.

Lemma constraint_keys k c : (bcon x !! k = Some c -> constraint_key c = k) /\ (tcon x !! k = Some c -> constraint_key c = k).
Proof.
  split; (intros H; eapply constraints_by_name_key; [|exact H]);
    [exact (df_bcon _ _ _ _ _ _ _ D)|exact (df_tcon _ _ _ _ _ _ _ D)].
Qed.

Lemma apply_constraints_reach : apply_constraints d (bcon x) = tcon x.
Proof.
  assert (Hadd : forall k c, list_to_map (M := gmap str TableConstraintSchema)
      (map (fun c => (constraint_key c, c)) (added_constraints d)) !! k = Some c <->
      tcon x !! k = Some c /\ bcon x !! k <> Some c).
  { assert (Hl : forall k c, (k, c) ∈ map (fun c => (constraint_key c, c)) (added_constraints d) <->
      tcon x !! k = Some c /\ bcon x !! k <> Some c).
    { intros k c. rewrite list_elem_of_fmap. split.
      - intros (c' & [= -> ->] & Hin%list_elem_of_In%added_constraint_spec). destruct Hin as (k & Ht & Hb).
        by rewrite (proj2 (constraint_keys k c') Ht).
      - intros [Ht Hb]. exists c. rewrite (proj2 (constraint_keys k c) Ht). split; [done|].
        apply list_elem_of_In, added_constraint_spec. eauto. }
    intros k c. split; [intros Hlk%elem_of_list_to_map_2; by apply Hl|].
    intros Hk. apply elem_of_list_to_map_1'; [|by apply Hl]. intros c' [Hc' _]%Hl. destruct Hk. congruence. }
  apply map_eq. intros k. apply option_eq. intros c. unfold apply_constraints.
  rewrite lookup_union_Some_raw, Hadd, map_lookup_filter_Some. cbn [fst].
  assert (Hdrop : forall c, bcon x !! k = Some c -> k ∈ map constraint_key (dropped_constraints d) <-> tcon x !! k <> Some c).
  { intros c' Hb. rewrite list_elem_of_fmap. split.
    - intros (c2 & -> & Hin%list_elem_of_In%dropped_constraint_spec). destruct Hin as (k & Hb2 & Ht2).
      rewrite (proj1 (constraint_keys k c2) Hb2) in *. congruence.
    - intros Ht. exists c'. rewrite (proj1 (constraint_keys k c') Hb). split; [done|].
      apply list_elem_of_In, dropped_constraint_spec. eauto. }
  split.
  - intros [[? _]|[_ [Hb Hd]]]; [done|]. rewrite (Hdrop _ Hb) in Hd. destruct (decide (tcon x !! k = Some c)); naive_solver.
  - intros Ht. destruct (decide (bcon x !! k = Some c)) as [Hb|Hb]; [|by left]. right. split.
    + destruct (list_to_map _ !! k) as [c'|] eqn:Ec; [|done]. apply Hadd in Ec as [Ht' Hb']. congruence.
    + split; [done|]. rewrite (Hdrop _ Hb). naive_solver.
Qed.
End reach.

(** ** Theorems *)

Section theorems.
Context (hash_iter : forall A, gmap str A -> list (str * A)).
Context (hash_iter_perm : forall A (m : gmap str A), hash_iter A m ≡ₚ map_to_list m).
Implicit Types (baseline target : TableSchema) (options : TableUpdateDiffOptions) (renames : list TableColumnRename).

Lemma basics_change_reach baseline target field :
  match basics_change baseline target field with
  | Some v => Some v
  | None => normalized_optional_text (field (ts_basics baseline))
  end =
  match normalized_optional_text (field (ts_basics target)) with
  | Some v => Some v
  | None => normalized_optional_text (field (ts_basics baseline))
  end.
Proof.
  unfold basics_change. destruct (differs _ _) eqn:E; [done|].
  apply (proj1 (differs_false _ _)) in E as <-. by destruct (normalized_optional_text _).
Qed.

(** C23: The update the designers compute turns the baseline into the target. When
    the renames are consistent with the column names, renaming, dropping, changing
    and adding columns as the diff says gives exactly the target's columns with
    their normalised attributes; likewise for the indexes, the constraints other
    than the primary key, the primary key and the comment. The engine, character
    set and collation of the target are reached unless the target leaves them out,
    which keeps the baseline's. *)
Theorem table_update_reaches_target baseline target options renames d :
  diff_table_schema_for_update_with_column_renames hash_iter baseline target options renames = Ok d ->
  renames_consistent baseline target renames ->
  apply_columns d (ts_columns baseline) ≡ₚ map named_view (ts_columns target)
  /\ apply_indexes d (ts_indexes baseline) ≡ₚ map index_view (ts_indexes target)
  /\ (exists bcon tcon,
        schema_non_primary_constraints_by_name (ts_constraints baseline) = Ok bcon
        /\ schema_non_primary_constraints_by_name (ts_constraints target) = Ok tcon
        /\ apply_constraints d bcon = tcon)
  /\ (exists bpk tpk,
        primary_key_definition baseline = Ok bpk /\ primary_key_definition target = Ok tpk
        /\ apply_primary_key d (pkd_columns bpk) = pkd_columns tpk)
  /\ apply_comment d (normalized_optional_text (tb_comment (ts_basics baseline)))
     = normalized_optional_text (tb_comment (ts_basics target))
  /\ (forall change field,
        (change, field) ∈ [(table_engine_change, tb_engine); (table_charset_change, tb_charset);
                           (table_collation_change, tb_collation)] ->
        match change d with Some v => Some v | None => normalized_optional_text (field (ts_basics baseline)) end
        = match normalized_optional_text (field (ts_basics target)) with
          | Some v => Some v
          | None => normalized_optional_text (field (ts_basics baseline))
          end).
Proof.
  intros [x D]%diff_inv HC. split; [by eapply apply_columns_reach|]. split; [by eapply apply_indexes_reach|].
  split. { exists (bcon x), (tcon x). split; [apply D|]. split; [apply D|]. by eapply apply_constraints_reach. }
  pose proof (df_head _ _ _ _ _ _ _ D) as Hh. injection Hh as H1 H2 H3 H4 _ H5 _.
  split. { exists (bpk x), (tpk x). split; [apply D|]. split; [apply D|]. unfold apply_primary_key. rewrite H5.
    clear. destruct (differs _ _) eqn:E; [done|]. by apply (proj1 (differs_false _ _)) in E. }
  split. { unfold apply_comment. rewrite H1. clear. destruct (differs _ _) eqn:E; [done|]. by apply (proj1 (differs_false _ _)) in E. }
  intros change field Hin. rewrite !elem_of_cons in Hin.
  destruct Hin as [[= -> ->]|[[= -> ->]|[[= -> ->]|Hin]]]; [rewrite H2|rewrite H3|rewrite H4|by apply elem_of_nil in Hin];
    apply basics_change_reach.
Qed.

Lemma is_none_true {A} (o : option A) : is_none o = true <-> o = None.
Proof. by destruct o. Qed.

Lemma is_nil_true {A} (l : list A) : is_nil l = true <-> l = [].
Proof. by destruct l. Qed.

Lemma is_empty_fields d : is_empty d = true <->
  head_fields d = (None, None, None, None, None, None, []) /\ added_columns d = []
  /\ column_fields d = ([], [], [], [], [], [], [], []) /\ constraint_fields d = ([], [], [])
  /\ index_fields d = ([], []).
Proof.
  unfold is_empty. rewrite !andb_true_iff, !is_none_true, !is_nil_true.
  unfold head_fields, column_fields, constraint_fields, index_fields. split.
  - intros H. destruct_and! H. repeat split; congruence.
  - intros (Hh & Ha & Hc & Hk & Hi). injection Hh. injection Hc. injection Hk. injection Hi. intros. repeat split; done.
Qed.

Lemma is_destructive_fields d : is_destructive d = false <->
  dropped_columns d = [] /\ column_type_changes d = [] /\ dropped_constraints d = [] /\ generated_column_changes d = []
  /\ existsb (fun change => negb (is_none (cic_old_identity change))) (identity_changes d) = false
  /\ primary_key_change d = None.
Proof.
  unfold is_destructive. rewrite !orb_false_iff, !negb_false_iff, !is_nil_true, is_none_true. naive_solver.
Qed.

Lemma view_no_delta c t : column_view c = column_view t ->
  type_delta c t = [] /\ default_delta c t = [] /\ nullability_delta c t = [] /\ generated_delta c t = []
  /\ identity_delta c t = [] /\ charset_delta c t = [] /\ comment_delta c t = [].
Proof.
  intros [= H1 H2 H3 _ H4 H5 H6 H7 H8].
  unfold type_delta, default_delta, nullability_delta, generated_delta, identity_delta, charset_delta, comment_delta, text_differs.
  rewrite H1, H2, H3, H4, H5, H6, H7, H8.
  assert (Hd : forall A `{!EqDecision A} (a : A), differs a a = false) by (intros; by apply differs_false).
  by rewrite !Hd.
Qed.

Section empty.
Context (baseline target : TableSchema) (options : TableUpdateDiffOptions) (renames : list TableColumnRename).
Context (x : Tables) (d : TableSchemaUpdateDiff).
Context (D : diffed hash_iter baseline target options renames x d).

Definition unchanged : Prop :=
  renames = []
  /\ map named_view (ts_columns baseline) ≡ₚ map named_view (ts_columns target)
  /\ map index_view (ts_indexes baseline) ≡ₚ map index_view (ts_indexes target)
  /\ bcon x = tcon x /\ pkd_columns (bpk x) = pkd_columns (tpk x)
  /\ normalized_optional_text (tb_comment (ts_basics baseline))
     = normalized_optional_text (tb_comment (ts_basics target))
  /\ (forall field, field ∈ [tb_engine; tb_charset; tb_collation] ->
        basics_change baseline target field = None).

Definition all_empty : Prop :=
  head_fields d = (None, None, None, None, None, None, []) /\ added_columns d = []
  /\ column_fields d = ([], [], [], [], [], [], [], []) /\ constraint_fields d = ([], [], [])
  /\ index_fields d = ([], []).

Lemma filter_all {A} (f : A -> bool) l : (forall a, f a = true) -> List.filter f l = l.
Proof. intros H. induction l as [|a l IH]; [done|]. simpl. by rewrite H, IH. Qed.

Lemma filter_none {A} (f : A -> bool) l : (forall a, a ∈ l -> f a = false) -> List.filter f l = [].
Proof. intros H. induction l as [|a l IH]; [done|]. simpl. rewrite H by set_solver. apply IH. set_solver. Qed.

Lemma same_view_unchanged i t : index_view i = index_view t -> index_changed i t = false.
Proof.
  intros [= H1 H2 H3 H4 H5]. unfold index_changed. rewrite H2, H3, H4, H5, !bool_decide_true, eqb_reflx by done. done.
Qed.

Lemma empty_diff_unchanged : all_empty -> unchanged.
Proof.
  intros (Hh & Ha & Hc & Hk & Hi). pose proof (df_head _ _ _ _ _ _ _ D) as Hh'. rewrite Hh in Hh'.
  injection Hh' as H1 H2 H3 H4 H5 H6. apply eq_sym, map_eq_nil in H6.
  injection Hh as _ _ _ _ _ _ Hr. injection Hc as Hc0 Hc1 Hc2 Hc3 Hc4 Hc5 Hc6 Hc7.
  injection Hk as Hk1 Hk2 Hk3. injection Hi as Hi1 Hi2.
  assert (HC : renames_consistent baseline target renames) by (rewrite H6; intros o n (_ & r & Hin & _); set_solver).
  split; [done|]. split.
  { rewrite <-(apply_columns_reach _ _ _ _ _ _ _ D HC). unfold apply_columns, renamed, apply_column, changed, named_view.
    rewrite Ha, Hr, Hc0, Hc1, Hc2, Hc3, Hc4, Hc5, Hc6, Hc7. simpl. rewrite app_nil_r, filter_all by done.
    apply reflexive_eq, map_ext. intros c. by destruct c. }
  split. { rewrite <-(apply_indexes_reach _ _ _ _ _ _ _ D). unfold apply_indexes. rewrite Hi1, Hi2. simpl.
    by rewrite app_nil_r, filter_all. }
  split. { rewrite <-(apply_constraints_reach _ _ _ _ _ _ _ D hash_iter_perm). unfold apply_constraints. rewrite Hk1, Hk2. simpl.
    rewrite (left_id_L ∅ (∪)). symmetry. apply map_filter_id. set_solver. }
  split. { revert H5. clear. destruct (differs (pkd_columns (bpk x)) _) eqn:E; [done|]. intros _. by apply (proj1 (differs_false _ _)) in E. }
  split. { revert H1. clear. destruct (differs (normalized_optional_text (tb_comment _)) _) eqn:E; [done|]. intros _. by apply (proj1 (differs_false _ _)) in E. }
  intros field. rewrite !elem_of_cons. by intros [->|[->|[->|[]%elem_of_nil]]].
Qed.

Lemma unchanged_empty_diff : unchanged -> all_empty.
Proof.
  intros (Hr & Hcols & Hidx & Hcon & Hpk & Hcom & Hopt).
  assert (Hrm : rmap x = ∅).
  { apply map_empty. intros o. destruct (rmap x !! o) as [n|] eqn:E; [|done].
    apply (rmap_spec _ _ _ _ _ _ _ D) in E as (_ & r & Hin & _). subst. set_solver. }
  assert (Hm : forall c, c ∈ ts_columns baseline -> exists t, matched (rmap x) (tcols x) c = Some t /\ column_view c = column_view t).
  { intros c Hc. assert (Hin : named_view c ∈ map named_view (ts_columns target)) by (rewrite <-Hcols; by apply list_elem_of_fmap_2).
    apply list_elem_of_fmap in Hin as (t & [Hn Hv]%pair_equal_spec & Ht). exists t. split; [|done].
    apply (matched_spec _ _ _ _ _ _ _ D). split; [done|]. unfold target_name. by rewrite Hrm, lookup_empty. }
  unfold all_empty. rewrite (df_head _ _ _ _ _ _ _ D), (df_columns _ _ _ _ _ _ _ D), (df_added _ _ _ _ _ _ _ D),
    (df_constraints _ _ _ _ _ _ _ D), (df_indexes _ _ _ _ _ _ _ D).
  rewrite !(proj2 (differs_false _ _)) by done. rewrite !Hopt by set_solver. rewrite Hr.
  assert (Hover : forall X (f : TableColumnSchema -> TableColumnSchema -> list X),
    (forall c t, column_view c = column_view t -> f c t = []) ->
    flat_map (on_match (rmap x) (tcols x) f) (ts_columns baseline) = []).
  { intros X f Hf. apply flat_map_nil. intros c (t & Ht & Hv)%Hm. unfold on_match. rewrite Ht. by apply Hf. }
  split; [done|]. split; [|split; [|split]].
  - apply filter_none. intros t Ht. assert (Hin : named_view t ∈ map named_view (ts_columns baseline))
      by (rewrite Hcols; by apply list_elem_of_fmap_2).
    apply list_elem_of_fmap in Hin as (c & [Hn _]%pair_equal_spec & Hc). unfold is_added.
    by rewrite (proj2 (proj2 (bcols_spec _ _ _ _ _ _ _ D) (tc_name t) c)).
  - cbv beta zeta. rewrite !Hover; [|intros c t Hv; apply (view_no_delta c t Hv)..].
    assert (flat_map (dropped_delta (rmap x) (tcols x)) (ts_columns baseline) = []) as ->; [|done].
    apply flat_map_nil. intros c (t & Ht & _)%Hm. unfold dropped_delta. by rewrite Ht.
  - cbv beta zeta. assert (flat_map (dropped_constraint_delta (tcon x)) (hash_iter _ (bcon x)) = []) as ->.
    { apply flat_map_nil. intros [k c] Hin%list_elem_of_In%(in_iter _ hash_iter_perm). unfold dropped_constraint_delta. simpl.
      rewrite <-Hcon, Hin. by rewrite (proj2 (differs_false _ _)). }
    assert (flat_map (modified_constraint_delta (tcon x)) (hash_iter _ (bcon x)) = []) as ->.
    { apply flat_map_nil. intros [k c] Hin%list_elem_of_In%(in_iter _ hash_iter_perm). unfold modified_constraint_delta. simpl.
      rewrite <-Hcon, Hin. by rewrite (proj2 (differs_false _ _)). }
    assert (flat_map (new_constraint_delta (bcon x)) (hash_iter _ (tcon x)) = []) as ->; [|done].
    apply flat_map_nil. intros [k c] Hin%list_elem_of_In%(in_iter _ hash_iter_perm). unfold new_constraint_delta. simpl.
    by rewrite Hcon, Hin.
  - assert (Hi : forall i, i ∈ ts_indexes baseline -> exists t, tidx x !! ti_name i = Some t /\ index_changed i t = false).
    { intros i Hi. assert (Hin : index_view i ∈ map index_view (ts_indexes target)) by (rewrite <-Hidx; by apply list_elem_of_fmap_2).
      apply list_elem_of_fmap in Hin as (t & Hv & Ht). exists t. split; [|by apply same_view_unchanged].
      apply (tidx_spec _ _ _ _ _ _ _ D). split; [done|]. by injection Hv. }
    rewrite filter_none. 2: { intros i (t & Ht & Hc)%Hi. unfold index_kept. by rewrite Ht, Hc. }
    rewrite (proj2 (flat_map_nil _ _)). 2: { intros i (t & Ht & Hc)%Hi. unfold recreated_index_delta. by rewrite Ht, Hc. }
    simpl. f_equal. apply flat_map_nil. intros t Ht.
    assert (Hin : index_view t ∈ map index_view (ts_indexes baseline)) by (rewrite Hidx; by apply list_elem_of_fmap_2).
    apply list_elem_of_fmap in Hin as (i & Hv & Hin). unfold new_index_delta.
    rewrite (proj2 (proj2 (bidx_spec _ _ _ _ _ _ _ D) (ti_name t) i)); [done|]. split; [done|]. by injection Hv.
Qed.
End empty.

(** The diff is empty exactly when there is nothing to do: no renames were
    asked for and the two tables agree on every normalised attribute the designers
    compare (an engine, character set or collation that the target leaves out
    counts as agreeing). *)
Theorem empty_diff_iff_unchanged baseline target options renames d bcon tcon bpk tpk :
  diff_table_schema_for_update_with_column_renames hash_iter baseline target options renames = Ok d ->
  schema_non_primary_constraints_by_name (ts_constraints baseline) = Ok bcon ->
  schema_non_primary_constraints_by_name (ts_constraints target) = Ok tcon ->
  primary_key_definition baseline = Ok bpk -> primary_key_definition target = Ok tpk ->
  is_empty d = true <->
  renames = []
  /\ map named_view (ts_columns baseline) ≡ₚ map named_view (ts_columns target)
  /\ map index_view (ts_indexes baseline) ≡ₚ map index_view (ts_indexes target)
  /\ bcon = tcon /\ pkd_columns bpk = pkd_columns tpk
  /\ normalized_optional_text (tb_comment (ts_basics baseline))
     = normalized_optional_text (tb_comment (ts_basics target))
  /\ (forall field, field ∈ [tb_engine; tb_charset; tb_collation] ->
        basics_change baseline target field = None).
Proof.
  intros [x D]%diff_inv Hb Ht Hbp Htp.
  rewrite (df_bcon _ _ _ _ _ _ _ D) in Hb. rewrite (df_tcon _ _ _ _ _ _ _ D) in Ht.
  rewrite (df_bpk _ _ _ _ _ _ _ D) in Hbp. rewrite (df_tpk _ _ _ _ _ _ _ D) in Htp.
  apply Ok_inj in Hb, Ht, Hbp, Htp. subst. rewrite is_empty_fields. split.
  - exact (empty_diff_unchanged _ _ _ _ _ _ D).
  - exact (unchanged_empty_diff _ _ _ _ _ _ D).
Qed.

(** C24: An update that is not destructive loses nothing. Every column of the
    baseline is continued by a column of the target under its new name, with the
    same type and the same generation expression, and an identity it has is kept;
    the primary key columns are the same, and every other constraint of the
    baseline is a constraint of the target. *)
Theorem non_destructive_update_keeps_data baseline target options renames d :
  diff_table_schema_for_update_with_column_renames hash_iter baseline target options renames = Ok d ->
  is_destructive d = false ->
  (forall c, c ∈ ts_columns baseline -> exists t, t ∈ ts_columns target
     /\ tc_name t = renamed d (tc_name c)
     /\ normalized_sql_type (tc_type_name t) = normalized_sql_type (tc_type_name c)
     /\ generated_view (tc_generated t) = generated_view (tc_generated c)
     /\ (normalized_column_identity c <> None -> normalized_column_identity t = normalized_column_identity c))
  /\ (exists bpk tpk, primary_key_definition baseline = Ok bpk /\ primary_key_definition target = Ok tpk
      /\ pkd_columns bpk = pkd_columns tpk)
  /\ (exists bcon tcon,
        schema_non_primary_constraints_by_name (ts_constraints baseline) = Ok bcon
        /\ schema_non_primary_constraints_by_name (ts_constraints target) = Ok tcon
        /\ bcon ⊆ tcon).
Proof.
  intros [x D]%diff_inv (H & H4 & H3 & H2 & H1 & H0)%is_destructive_fields.
  pose proof (df_columns _ _ _ _ _ _ _ D) as Hc. injection Hc as Hc1 Hc2 _ _ Hc5 Hc6 _ _.
  rewrite Hc1 in H. rewrite Hc2 in H4. rewrite Hc5 in H2. rewrite Hc6 in H1.
  split; [|split].
  - intros c Hc0. pose proof (proj1 (flat_map_nil _ _) H c Hc0) as Hm. apply one_nil in Hm.
    destruct (matched (rmap x) (tcols x) c) as [t|] eqn:Et; [|done]. exists t.
    pose proof (on_match_nil _ _ _ _ H4 c t Hc0 Et) as Ht. pose proof (on_match_nil _ _ _ _ H2 c t Hc0 Et) as Hg.
    apply one_nil, (proj1 (differs_false _ _)) in Ht, Hg.
    rewrite (renamed_target_name _ _ _ _ _ _ _ D). pose proof Et as [Hin Hn]%(matched_spec _ _ _ _ _ _ _ D).
    split; [done|]. split; [done|]. split; [done|]. split; [done|]. intros Hi.
    destruct (decide (normalized_column_identity c = normalized_column_identity t)) as [He|He]; [done|]. exfalso.
    rewrite <-not_true_iff_false, existsb_exists in H1. apply H1.
    exists (mkColumnIdentityChange (tc_name t) (normalized_column_identity c) (normalized_column_identity t)). split.
    + apply in_flat_map. exists c. split; [by apply list_elem_of_In|]. unfold on_match, identity_delta. rewrite Et.
      rewrite (proj2 (differs_true _ _)) by done. by left.
    + simpl. by destruct (normalized_column_identity c).
  - exists (bpk x), (tpk x). split; [apply D|]. split; [apply D|].
    pose proof (df_head _ _ _ _ _ _ _ D) as Hh. injection Hh as _ _ _ _ _ Hpk _. rewrite H0 in Hpk. revert Hpk. clear.
    destruct (differs _ _) eqn:E; [done|]. intros _. by apply (proj1 (differs_false _ _)) in E.
  - exists (bcon x), (tcon x). split; [apply D|]. split; [apply D|]. apply map_subseteq_spec. intros k c Hb.
    destruct (decide (tcon x !! k = Some c)) as [|Hne]; [done|]. exfalso.
    assert (Hin : In c (dropped_constraints d)) by (apply (dropped_constraint_spec _ _ _ _ _ _ _ D hash_iter_perm); eauto).
    by rewrite H3 in Hin.
Qed.

Lemma references_ok names kind name columns : check_references names kind name columns = Ok tt -> Forall (fun c => c ∈ names) columns.
Proof.
  intros H. refine (try_fold_Forall _ _ _ _ _ _ H). clear. intros s c s' H. by case_bool_decide.
Qed.

Lemma try_fold_unit_ok {A} (f : A -> IpcResult unit) l u : try_fold (fun _ a => f a) u l = Ok tt -> Forall (fun a => f a = Ok tt) l.
Proof. intros H. refine (try_fold_Forall _ _ _ _ _ _ H). intros s a [] Ha. exact Ha. Qed.

Lemma supported_facts c t options : ensure_supported_column_update c t options = Ok tt ->
  (tc_is_identity c = true -> normalized_sql_type (tc_type_name t) = normalized_sql_type (tc_type_name c)
     /\ tc_nullable t = tc_nullable c
     /\ normalized_optional_text (tc_default_value t) = normalized_optional_text (tc_default_value c))
  /\ (tc_is_primary_key c = true -> tc_nullable t = tc_nullable c)
  /\ (tc_is_primary_key c = false -> tc_is_primary_key t = true -> tc_nullable t = false)
  /\ tc_is_unique t = tc_is_unique c.
Proof.
  unfold ensure_supported_column_update, str_eqb. intros H. case_ifs H; try discriminate H. clear H.
  assert (Hu : tc_is_unique t = tc_is_unique c) by (destruct (tc_is_unique t), (tc_is_unique c); done). clear E4.
  destruct (tc_is_identity c), (tc_is_primary_key c), (tc_is_primary_key t), (tc_nullable c), (tc_nullable t);
    cbn in *; try discriminate; rewrite ?andb_true_r, ?andb_false_r in *; breflect; naive_solver.
Qed.

Lemma same_table baseline target : ensure_same_table_identity baseline target = Ok tt ->
  forall P : Prop, P -> trim (tb_database_name (ts_basics target)) = trim (tb_database_name (ts_basics baseline))
    /\ trim (tb_schema_name (ts_basics target)) = trim (tb_schema_name (ts_basics baseline))
    /\ trim (tb_table_name (ts_basics target)) = trim (tb_table_name (ts_basics baseline)) /\ P.
Proof.
  unfold ensure_same_table_identity. case_bool_decide as E; [|discriminate]. injection E as E1 E2 E3. by rewrite E1, E2, E3.
Qed.

Lemma added_facts c : validate_added_column_for_update c = Ok tt ->
  tc_is_primary_key c = false /\ tc_is_unique c = false
  /\ (tc_nullable c = true \/ tc_is_identity c = true \/ normalized_optional_text (tc_default_value c) <> None).
Proof.
  unfold validate_added_column_for_update. intros H. bind_inv. clear E.
  destruct (tc_is_primary_key c), (tc_is_unique c), (tc_nullable c), (tc_is_identity c); try discriminate H; auto.
  destruct (normalized_optional_text _); [auto 6|discriminate H].
Qed.

(** What an accepted update may ask for. Column names of both tables are
    distinct; the target is the same table, partitioned the same way; every index and
    constraint of the target names columns of the target;
    an identity column keeps its type, nullability and default, and a primary key
    column its nullability, while a column that becomes part of the key is NOT NULL,
    and no column becomes or stops being unique; an added column is neither a key nor a unique column and can be filled in
    existing rows: it is nullable, an identity or has a default. *)
Theorem accepted_update_is_supported baseline target options renames d :
  diff_table_schema_for_update_with_column_renames hash_iter baseline target options renames = Ok d ->
  NoDup (map tc_name (ts_columns baseline)) /\ NoDup (map tc_name (ts_columns target))
  /\ (let b := ts_basics baseline in let t := ts_basics target in
      trim (tb_database_name t) = trim (tb_database_name b) /\ trim (tb_schema_name t) = trim (tb_schema_name b)
      /\ trim (tb_table_name t) = trim (tb_table_name b)
      /\ normalized_partition_options (tb_partition t) = normalized_partition_options (tb_partition b))
  /\ (forall i column, i ∈ ts_indexes target -> column ∈ ti_columns i -> column ∈ map tc_name (ts_columns target))
  /\ (forall k column, k ∈ ts_constraints target -> column ∈ tk_columns k -> column ∈ map tc_name (ts_columns target))
  /\ (forall c t, c ∈ ts_columns baseline -> t ∈ ts_columns target -> tc_name t = renamed d (tc_name c) ->
       (tc_is_identity c = true -> normalized_sql_type (tc_type_name t) = normalized_sql_type (tc_type_name c)
          /\ tc_nullable t = tc_nullable c
          /\ normalized_optional_text (tc_default_value t) = normalized_optional_text (tc_default_value c))
       /\ (tc_is_primary_key c = true -> tc_nullable t = tc_nullable c)
       /\ (tc_is_primary_key c = false -> tc_is_primary_key t = true -> tc_nullable t = false)
       /\ tc_is_unique t = tc_is_unique c)
  /\ (forall c, c ∈ added_columns d -> c ∈ ts_columns target
       /\ tc_is_primary_key c = false /\ tc_is_unique c = false
       /\ (tc_nullable c = true \/ tc_is_identity c = true \/ normalized_optional_text (tc_default_value c) <> None)).
Proof.
  intros [x D]%diff_inv. split; [apply (bcols_spec _ _ _ _ _ _ _ D)|]. split; [apply (tcols_spec _ _ _ _ _ _ _ D)|].
  split; [by apply same_table; [apply D|symmetry; apply D]|].
  pose proof (df_refs _ _ _ _ _ _ _ D) as Hr. unfold validate_target_column_references in Hr.
  destruct (try_fold _ _ (ts_indexes target)) as [[]|] eqn:Ei; [|discriminate Hr]. cbn [mbind Result_bind] in Hr.
  apply try_fold_unit_ok in Ei. apply try_fold_unit_ok in Hr. rewrite Forall_forall in Ei. rewrite Forall_forall in Hr.
  split; [|split; [|split]].
  - intros i c Hi Hc. apply Ei, references_ok in Hi. rewrite Forall_forall in Hi. apply Hi in Hc. by apply elem_of_list_to_set in Hc.
  - intros k c Hk Hc. apply Hr, references_ok in Hk. rewrite Forall_forall in Hk. apply Hk in Hc. by apply elem_of_list_to_set in Hc.
  - intros c t Hc Ht Hn. eapply supported_facts.
    apply (proj1 (Forall_forall _ _) (df_supported _ _ _ _ _ _ _ D) c Hc). apply (matched_spec _ _ _ _ _ _ _ D).
    split; [done|]. by rewrite <-(renamed_target_name _ _ _ _ _ _ _ D).
  - intros c Hc. rewrite (df_added _ _ _ _ _ _ _ D) in Hc. apply list_elem_of_In, filter_In in Hc as [Hc Ha].
    apply list_elem_of_In in Hc. split; [done|]. apply added_facts.
    by apply (proj1 (Forall_forall _ _) (df_valid_added _ _ _ _ _ _ _ D) c Hc).
Qed.
End theorems.

(** ** What a client of the diff relies on *)

Lemma diff_target_names hash_iter baseline target options renames d :
  diff_table_schema_for_update_with_column_renames hash_iter baseline target options renames = Ok d ->
  NoDup (map tc_name (ts_columns target))
  /\ forall n, n ∈ map ctc_column_name (column_type_changes d) -> n ∈ map tc_name (ts_columns target).
Proof.
  intros [x D]%diff_inv. split; [apply (tcols_spec _ _ _ _ _ _ _ D)|]. intros n Hn.
  pose proof (df_columns _ _ _ _ _ _ _ D) as Hc. injection Hc as _ Hc _ _ _ _ _ _. rewrite Hc in Hn.
  apply list_elem_of_fmap in Hn as (ch & -> & (c & _ & Hd)%list_elem_of_In%in_flat_map).
  unfold on_match in Hd. destruct (matched _ _ c) as [t|] eqn:Et; [|done]. unfold type_delta, one in Hd.
  destruct (differs _ _); [|done]. destruct Hd as [<-|[]]. simpl.
  apply (matched_spec _ _ _ _ _ _ _ D) in Et as [Ht _]. by apply list_elem_of_fmap_2.
Qed.

Lemma diff_primary_key hash_iter baseline target options renames d :
  diff_table_schema_for_update_with_column_renames hash_iter baseline target options renames = Ok d ->
  (forall change, primary_key_change d = Some change -> pkc_old_columns change <> pkc_new_columns change)
  /\ exists bpk tpk, primary_key_definition baseline = Ok bpk /\ primary_key_definition target = Ok tpk
     /\ (primary_key_change d = None -> pkd_columns bpk = pkd_columns tpk).
Proof.
  intros [x D]%diff_inv. pose proof (df_head _ _ _ _ _ _ _ D) as Hh. injection Hh as _ _ _ _ _ -> _.
  pose proof (df_bpk _ _ _ _ _ _ _ D) as Hb. pose proof (df_tpk _ _ _ _ _ _ _ D) as Ht. clear D.
  destruct (differs _ _) eqn:E.
  - apply (proj1 (differs_true _ _)) in E. split; [by intros change [= <-]|]. exists (bpk x), (tpk x). done.
  - apply (proj1 (differs_false _ _)) in E. split; [done|]. exists (bpk x), (tpk x). done.
Qed.

Lemma undropped_columns_continue hash_iter baseline target options renames d :
  diff_table_schema_for_update_with_column_renames hash_iter baseline target options renames = Ok d ->
  dropped_columns d = [] -> column_type_changes d = [] ->
  forall c, c ∈ ts_columns baseline -> exists t, t ∈ ts_columns target
    /\ tc_name t = renamed d (tc_name c)
    /\ normalized_sql_type (tc_type_name t) = normalized_sql_type (tc_type_name c).
Proof.
  intros [x D]%diff_inv Hd Ht c Hc. pose proof (df_columns _ _ _ _ _ _ _ D) as Hf. injection Hf as Hf1 Hf2 _ _ _ _ _ _.
  rewrite Hf1 in Hd. rewrite Hf2 in Ht. pose proof (proj1 (flat_map_nil _ _) Hd c Hc) as Hm. apply one_nil in Hm.
  destruct (matched (rmap x) (tcols x) c) as [t|] eqn:Et; [|done]. exists t.
  pose proof (on_match_nil _ _ _ _ Ht c t Hc Et) as Hty. apply one_nil, (proj1 (differs_false _ _)) in Hty.
  rewrite (renamed_target_name _ _ _ _ _ _ _ D). pose proof Et as [Hin Hn]%(matched_spec _ _ _ _ _ _ _ D). done.
Qed.

Lemma undropped_constraints_continue (hash_iter : forall A, gmap str A -> list (str * A)) baseline target options renames d :
  (forall A (m : gmap str A), hash_iter A m ≡ₚ map_to_list m) ->
  diff_table_schema_for_update_with_column_renames hash_iter baseline target options renames = Ok d ->
  dropped_constraints d = [] ->
  exists bcon tcon,
    schema_non_primary_constraints_by_name (ts_constraints baseline) = Ok bcon
    /\ schema_non_primary_constraints_by_name (ts_constraints target) = Ok tcon
    /\ bcon ⊆ tcon.
Proof.
  intros P [x D]%diff_inv Hd. exists (bcon x), (tcon x). split; [apply D|]. split; [apply D|].
  apply map_subseteq_spec. intros k c Hb.
  destruct (decide (tcon x !! k = Some c)) as [|Hne]; [done|]. exfalso.
  assert (Hin : In c (dropped_constraints d)) by (apply (dropped_constraint_spec _ _ _ _ _ _ _ D P); eauto).
  by rewrite Hd in Hin.
Qed.

(** ** Hash orders

    Two runs may see the constraints in different orders. *)

Record same_but_order (d1 d2 : TableSchemaUpdateDiff) : Prop := mkSameButOrder {
  so_head : head_fields d1 = head_fields d2;
  so_columns : column_fields d1 = column_fields d2;
  so_added : added_columns d1 = added_columns d2;
  so_indexes : index_fields d1 = index_fields d2;
  so_dropped_constraints : dropped_constraints d1 ≡ₚ dropped_constraints d2;
  so_added_constraints : added_constraints d1 ≡ₚ added_constraints d2;
}.

Lemma diff_orders (h1 h2 : forall A, gmap str A -> list (str * A)) baseline target options renames d1 d2 :
  (forall A (m : gmap str A), h1 A m ≡ₚ map_to_list m) -> (forall A (m : gmap str A), h2 A m ≡ₚ map_to_list m) ->
  diff_table_schema_for_update_with_column_renames h1 baseline target options renames = Ok d1 ->
  diff_table_schema_for_update_with_column_renames h2 baseline target options renames = Ok d2 ->
  same_but_order d1 d2.
Proof.
  intros P1 P2 [x D]%diff_inv [y D']%diff_inv.
  assert (x = y) as ->.
  { destruct D, D'. destruct x, y. simpl in *. simplify_eq. f_equal; congruence. }
  assert (Hp : forall A B (f : str * A -> list B) m, flat_map f (h1 A m) ≡ₚ flat_map f (h2 A m)).
  { intros A B f m. apply Permutation_flat_map. by rewrite P1, P2. }
  pose proof (df_constraints _ _ _ _ _ _ _ D) as H1. pose proof (df_constraints _ _ _ _ _ _ _ D') as H2.
  injection H1 as H11 H12 _. injection H2 as H21 H22 _.
  constructor.
  - by rewrite (df_head _ _ _ _ _ _ _ D), (df_head _ _ _ _ _ _ _ D').
  - by rewrite (df_columns _ _ _ _ _ _ _ D), (df_columns _ _ _ _ _ _ _ D').
  - by rewrite (df_added _ _ _ _ _ _ _ D), (df_added _ _ _ _ _ _ _ D').
  - by rewrite (df_indexes _ _ _ _ _ _ _ D), (df_indexes _ _ _ _ _ _ _ D').
  - by rewrite H11, H21, Hp.
  - by rewrite H12, H22, !Hp.
Qed.

(** ** Examples *)

Definition map_order : forall A, gmap str A -> list (str * A) := fun A m => map_to_list m.

Lemma map_order_perm A (m : gmap str A) : map_order A m ≡ₚ map_to_list m.
Proof. done. Qed.

Definition demo_basics : TableSchemaBasics :=
  mkTableSchemaBasics (lit "orders") (lit "shop") (lit "public") None None None None None.

Definition plain_column (name type_name : string) : TableColumnSchema :=
  mkTableColumnSchema (lit name) (lit type_name) true None false false false None None None None None.

Definition key_column (name : string) : TableColumnSchema :=
  mkTableColumnSchema (lit name) (lit "bigint") false None true false true None None None None None.

Definition demo_baseline : TableSchema :=
  mkTableSchema demo_basics [key_column "id"; plain_column "note" "text"; plain_column "old" "int"]
    [mkTableIndexSchema (lit "by_note") [lit "note"] false None None]
    [mkTableConstraintSchema (lit "positive") KindCheck [] None (Some (lit "id > 0")) None None None].

Definition demo_target : TableSchema :=
  mkTableSchema demo_basics [key_column "id"; plain_column "remark" " VARCHAR(80)"; plain_column "total" "int"]
    [mkTableIndexSchema (lit "by_note") [lit "remark"] false None None]
    [mkTableConstraintSchema (lit "Positive") KindCheck [] None (Some (lit "total > 0")) None None None].

Definition demo_renames : list TableColumnRename := [mkTableColumnRename (lit "note") (lit " remark")].
Definition demo_options : TableUpdateDiffOptions := mkTableUpdateDiffOptions true.

Definition demo_diff : TableSchemaUpdateDiff :=
  from_ok default_diff
    (diff_table_schema_for_update_with_column_renames map_order demo_baseline demo_target demo_options demo_renames).

Lemma demo_diff_eq :
  diff_table_schema_for_update_with_column_renames map_order demo_baseline demo_target demo_options demo_renames = Ok demo_diff.
Proof. apply from_ok_eq. by vm_compute. Qed.

Lemma demo_consistent : renames_consistent demo_baseline demo_target demo_renames.
Proof.
  intros o n (_ & r & ->%list_elem_of_singleton & <- & <-).
  split; intros H; exfalso; revert H; apply (bool_decide_unpack _); by vm_compute.
Qed.

Lemma table_update_reaches_target_witness :
  apply_columns demo_diff (ts_columns demo_baseline) ≡ₚ map named_view (ts_columns demo_target)
  /\ length (column_type_changes demo_diff) = 1 /\ length (dropped_columns demo_diff) = 1
  /\ length (added_columns demo_diff) = 1.
Proof.
  split; [|by vm_compute].
  exact (proj1 (table_update_reaches_target map_order map_order_perm _ _ _ _ _ demo_diff_eq demo_consistent)).
Defined.

Definition noop_diff : TableSchemaUpdateDiff :=
  from_ok demo_diff
    (diff_table_schema_for_update_with_column_renames map_order demo_baseline demo_baseline demo_options []).

Lemma noop_diff_eq :
  diff_table_schema_for_update_with_column_renames map_order demo_baseline demo_baseline demo_options [] = Ok noop_diff.
Proof. apply from_ok_eq. by vm_compute. Qed.

Definition demo_constraints : gmap str TableConstraintSchema :=
  from_ok ∅ (schema_non_primary_constraints_by_name (ts_constraints demo_baseline)).
Definition demo_primary_key : PrimaryKeyDefinition :=
  from_ok (mkPrimaryKeyDefinition None []) (primary_key_definition demo_baseline).

Lemma empty_diff_iff_unchanged_witness : is_empty noop_diff = true.
Proof.
  assert (Hc : schema_non_primary_constraints_by_name (ts_constraints demo_baseline) = Ok demo_constraints)
    by (apply from_ok_eq; by vm_compute).
  assert (Hk : primary_key_definition demo_baseline = Ok demo_primary_key) by (apply from_ok_eq; by vm_compute).
  apply (empty_diff_iff_unchanged map_order map_order_perm _ _ _ _ _ _ _ _ _ noop_diff_eq Hc Hc Hk Hk).
  repeat (split; [done|]). intros field. rewrite !elem_of_cons. by intros [->|[->|[->|[]%elem_of_nil]]].
Defined.

(** Renaming [note] and relaxing nothing else. *)
Definition renamed_target : TableSchema :=
  mkTableSchema demo_basics [key_column "id"; plain_column "remark" "text"; plain_column "old" "int"]
    [mkTableIndexSchema (lit "by_note") [lit "remark"] false None None] (ts_constraints demo_baseline).

Definition rename_diff : TableSchemaUpdateDiff :=
  from_ok demo_diff
    (diff_table_schema_for_update_with_column_renames map_order demo_baseline renamed_target demo_options demo_renames).

Lemma rename_diff_eq :
  diff_table_schema_for_update_with_column_renames map_order demo_baseline renamed_target demo_options demo_renames
  = Ok rename_diff.
Proof. apply from_ok_eq. by vm_compute. Qed.

Lemma non_destructive_update_keeps_data_witness :
  is_destructive rename_diff = false
  /\ exists t, t ∈ ts_columns renamed_target /\ tc_name t = renamed rename_diff (lit "note").
Proof.
  split; [by vm_compute|].
  destruct (proj1 (non_destructive_update_keeps_data map_order map_order_perm _ _ _ _ _ rename_diff_eq ltac:(by vm_compute))
    (plain_column "note" "text") ltac:(right; left)) as (t & Ht & Hn & _).
  exists t. split; [exact Ht|exact Hn].
Defined.

Lemma accepted_update_is_supported_witness :
  plain_column "total" "int" ∈ added_columns demo_diff
  /\ tc_is_primary_key (plain_column "total" "int") = false.
Proof.
  assert (Ha : plain_column "total" "int" ∈ added_columns demo_diff) by (vm_compute; left).
  split; [exact Ha|].
  pose proof (accepted_update_is_supported map_order _ _ _ _ _ demo_diff_eq) as (_ & _ & _ & _ & _ & _ & Hadd).
  exact (proj1 (proj2 (Hadd _ Ha))).
Defined.

(** *** Renames that the diff does not carry out *)

(** [note] is renamed to [remark] and a new column takes the name [note]. *)
Definition reuse_target : TableSchema :=
  mkTableSchema demo_basics
    [key_column "id"; plain_column "remark" "text"; plain_column "old" "int"; plain_column "note" "int"]
    [] (ts_constraints demo_baseline).

(** A name that a rename frees cannot be given to a new column: the new column is
    taken for the old one and never added, and the update is accepted. *)
Theorem reused_name_is_not_added :
  exists d, diff_table_schema_for_update_with_column_renames map_order demo_baseline reuse_target demo_options demo_renames = Ok d
  /\ lit "note" ∈ map tc_name (ts_columns reuse_target)
  /\ lit "note" ∉ map fst (apply_columns d (ts_columns demo_baseline))
  /\ added_columns d = [].
Proof.
  exists (from_ok default_diff
    (diff_table_schema_for_update_with_column_renames map_order demo_baseline reuse_target demo_options demo_renames)).
  split; [apply from_ok_eq; by vm_compute|].
  split; [apply (bool_decide_unpack _); by vm_compute|]. split; [apply (bool_decide_unpack _)|]; by vm_compute.
Qed.

(** A rename of a name to itself is skipped by the validation, which checks neither
    that the column exists nor that it is named once, but it is kept in the diff. *)
Theorem same_name_rename_is_kept :
  exists d, diff_table_schema_for_update_with_column_renames map_order demo_baseline demo_baseline demo_options
      [mkTableColumnRename (lit "ghost") (lit "ghost")] = Ok d
  /\ lit "ghost" ∉ map tc_name (ts_columns demo_baseline)
  /\ renamed_columns d = [mkColumnRenameChange (lit "ghost") (lit "ghost")] /\ is_empty d = false.
Proof.
  exists (from_ok default_diff (diff_table_schema_for_update_with_column_renames map_order demo_baseline demo_baseline
    demo_options [mkTableColumnRename (lit "ghost") (lit "ghost")])).
  split; [apply from_ok_eq; by vm_compute|].
  split; [apply (bool_decide_unpack _); by vm_compute|]. by vm_compute.
Qed.
