(* ===== verification/TableDesign.v ===== *)
(** * Creating tables: the input both SQL designers share
    ([src-tauri/src/engine/drivers/mysql/ddl.rs] and, word for word,
    [src-tauri/src/engine/drivers/postgres/ddl.rs])

    Normalisation of a create-table input and the column-list helpers; the two
    drivers keep their own copies of these functions, which do not differ. *)

From stdpp Require Import base gmap list strings fin_maps.
From Stdlib Require Import ZArith Lia.
From S2P Require Import Prelude Errors Types SqlText TableSql SchemaTypes SchemaDiff.

(** [if let Some(x) = o { text.push_str(...) }] *)
Definition opt_text {A} (o : option A) (f : A -> str) : str := match o with Some a => f a | None => [] end.

Definition validate_column_refs (columns : list str) (column_names : gset str) (label : str)
    : IpcResult (list str) :=
  if is_nil columns then Err (validation_failed (lit "请至少填写一个" ++ label))
  else
    acc ← try_fold (fun (acc : gset str * list str) column =>
      let (seen, refs) := acc in
      column ← normalized_non_empty_identifier column label;
      if negb (bool_decide (column ∈ column_names)) then
        Err (validation_failed (label ++ lit " '" ++ column ++ lit "' 不存在"))
      else if bool_decide (column ∈ seen) then
        Err (validation_failed (label ++ lit " '" ++ column ++ lit "' 重复"))
      else Ok ({[column]} ∪ seen, refs ++ [column])) (∅, []) columns;
    Ok acc.2.

Definition validate_optional_column_refs (columns : list str) (column_names : gset str) (label : str)
    : IpcResult (list str) :=
  if is_nil columns then Ok [] else validate_column_refs columns column_names label.

Definition quote_column_list (columns : list str) (quote_identifier : str -> str) : str :=
  join (lit ", ") (map quote_identifier columns).

Record NamedColumnList := mkNamedColumnList {
  nl_name : option str;
  nl_columns : list str;
}.

Record NormalizedCreateTable := mkNormalizedCreateTable {
  nt_columns : list TableColumnSchema;
  nt_column_names : gset str;
  nt_primary_key_columns : list str;
  nt_unique_constraints : list NamedColumnList;
  nt_table_constraints : list TableConstraintSchema;
  nt_indexes : list TableIndexSchema;
}.

(** The locals of the loop over the columns. *)
Record ColumnsAcc := mkColumnsAcc {
  ca_seen : gset str;
  ca_names : gset str;
  ca_columns : list TableColumnSchema;
  ca_primary_key : list str;
  ca_unique : list NamedColumnList;
}.

Definition normalize_column (acc : ColumnsAcc) (column : TableColumnSchema) : IpcResult ColumnsAcc :=
  name ← normalized_non_empty_identifier (tc_name column) (lit "列名");
  if bool_decide (str_lower name ∈ ca_seen acc) then
    Err (validation_failed (lit "列名 '" ++ name ++ lit "' 重复"))
  else
    type_name ← normalized_sql_fragment (tc_type_name column) (lit "列类型");
    default_value ← normalized_optional_fragment (tc_default_value column) (lit "默认值");
    let comment := normalized_optional_text (tc_comment column) in
    charset ← normalized_optional_fragment (tc_charset column) (lit "列字符集");
    collation ← normalized_optional_fragment (tc_collation column) (lit "列排序规则");
    Ok (mkColumnsAcc ({[str_lower name]} ∪ ca_seen acc) ({[name]} ∪ ca_names acc)
      (ca_columns acc ++ [mkTableColumnSchema name type_name (tc_nullable column) default_value
         (tc_is_primary_key column) (tc_is_unique column) (tc_is_identity column) comment
         (tc_identity column) (tc_generated column) charset collation])
      (ca_primary_key acc ++ (if tc_is_primary_key column then [name] else []))
      (ca_unique acc ++ (if tc_is_unique column && negb (tc_is_primary_key column)
                         then [mkNamedColumnList None [name]] else []))).

(** The locals of the loop over the constraints. *)
Record ConstraintsAcc := mkConstraintsAcc {
  ka_primary_key : option (list str);
  ka_unique : list NamedColumnList;
  ka_table : list TableConstraintSchema;
}.

Definition normalize_foreign_key (column_names : gset str) (constraint : TableConstraintSchema)
    : IpcResult TableConstraintSchema :=
  name ← normalized_non_empty_identifier (tk_name constraint) (lit "外键约束名");
  columns ← validate_column_refs (tk_columns constraint) column_names (lit "外键列");
  match tk_foreign_key constraint with
  | None => Err (validation_failed (lit "外键约束 '" ++ name ++ lit "' 需要引用表和引用列"))
  | Some fk =>
    referenced_table ← normalized_non_empty_identifier (fk_table_name fk) (lit "引用表");
    referenced_columns ← try_map (fun c => normalized_non_empty_identifier c (lit "引用列")) (fk_columns fk);
    if negb (length referenced_columns =? length columns)%nat then
      Err (validation_failed (lit "外键约束 '" ++ name ++ lit "' 的本地列与引用列数量必须一致"))
    else Ok (mkTableConstraintSchema name KindForeignKey columns None None
      (normalized_optional_text (tk_comment constraint))
      (Some (mkTableForeignKeyReference (normalized_optional_text (fk_database_name fk))
         (normalized_optional_text (fk_schema_name fk)) referenced_table referenced_columns
         (fk_on_update fk) (fk_on_delete fk)))
      (tk_enforced constraint))
  end.

Definition normalize_check (column_names : gset str) (constraint : TableConstraintSchema)
    : IpcResult TableConstraintSchema :=
  name ← normalized_non_empty_identifier (tk_name constraint) (lit "CHECK 约束名");
  expression ← normalized_sql_fragment (default [] (tk_expression constraint)) (lit "CHECK 表达式");
  columns ← validate_optional_column_refs (tk_columns constraint) column_names (lit "CHECK 约束列");
  Ok (mkTableConstraintSchema name KindCheck columns None (Some expression)
    (normalized_optional_text (tk_comment constraint)) None (tk_enforced constraint)).

Definition normalize_constraint (column_names : gset str) (acc : ConstraintsAcc)
    (constraint : TableConstraintSchema) : IpcResult ConstraintsAcc :=
  match tk_kind constraint with
  | KindPrimaryKey =>
    if negb (is_none (ka_primary_key acc)) then Err (validation_failed (lit "只能定义一个主键约束"))
    else
      columns ← validate_column_refs (tk_columns constraint) column_names (lit "主键列");
      Ok (mkConstraintsAcc (Some columns) (ka_unique acc) (ka_table acc))
  | KindUnique =>
    columns ← validate_column_refs (tk_columns constraint) column_names (lit "唯一约束列");
    Ok (mkConstraintsAcc (ka_primary_key acc)
      (ka_unique acc ++ [mkNamedColumnList (normalized_optional_text (Some (tk_name constraint))) columns])
      (ka_table acc))
  | KindForeignKey =>
    normalized ← normalize_foreign_key column_names constraint;
    Ok (mkConstraintsAcc (ka_primary_key acc) (ka_unique acc) (ka_table acc ++ [normalized]))
  | KindCheck =>
    normalized ← normalize_check column_names constraint;
    Ok (mkConstraintsAcc (ka_primary_key acc) (ka_unique acc) (ka_table acc ++ [normalized]))
  end.

Definition normalize_index (column_names : gset str) (index : TableIndexSchema) : IpcResult TableIndexSchema :=
  name ← normalized_non_empty_identifier (ti_name index) (lit "索引名");
  method ← normalized_optional_fragment (ti_method index) (lit "索引方法");
  let comment := normalized_optional_text (ti_comment index) in
  columns ← validate_column_refs (ti_columns index) column_names (lit "索引列");
  Ok (mkTableIndexSchema name columns (ti_is_unique index) method comment).

Definition normalize_create_table_input (input : CreateTableInput) : IpcResult NormalizedCreateTable :=
  if is_nil (ct_columns input) then Err (validation_failed (lit "请至少添加一列"))
  else
    ca ← try_fold normalize_column (mkColumnsAcc ∅ ∅ [] [] []) (ct_columns input);
    ka ← try_fold (normalize_constraint (ca_names ca)) (mkConstraintsAcc None (ca_unique ca) [])
           (ct_constraints input);
    primary_key_columns ←
      match ka_primary_key ka with
      | Some columns =>
        if negb (is_nil (ca_primary_key ca)) && negb (bool_decide (ca_primary_key ca = columns)) then
          Err (validation_failed (lit "列定义中的主键与约束区主键不一致"))
        else Ok columns
      | None => Ok (ca_primary_key ca)
      end;
    indexes ← try_map (normalize_index (ca_names ca)) (ct_indexes input);
    Ok (mkNormalizedCreateTable (ca_columns ca) (ca_names ca) primary_key_columns (ka_unique ka)
          (ka_table ka) indexes).

(** ** Pieces of statements *)

Definition string_literal `{J : JsonNumber} (s : str) : IpcResult str := render_sql_literal (VString s).

Definition NL : str := [10%Z].

Definition alter (table_name : str) (action : str) : str := lit "ALTER TABLE " ++ table_name ++ lit " " ++ action.

(** [container.database.as_deref().filter(|value| !value.trim().is_empty())] *)
Definition filled (value : option str) : option str :=
  match value with Some v => if is_nil (trim v) then None else Some v | None => None end.

Definition or_else {A} (a b : option A) : option A := match a with Some _ => a | None => b end.

(** ** Previews and confirmations

    Both drivers have these functions in the same words. *)

Definition ensure_destructive_drop_table_confirmed (input : DropTableInput) : IpcResult unit :=
  if negb (dt_confirm_destructive input) then Err (validation_failed (lit "删除表需要确认后才能执行")) else Ok tt.

Definition mark_drop_table_preview (preview : SchemaMutationPreview) : SchemaMutationPreview :=
  mkSchemaMutationPreview (sp_statements preview)
    (sp_warnings preview ++ [lit "删除表会永久删除表结构和表内数据"]) true.

(** The warnings on columns that become NOT NULL. *)
Definition not_null_warnings (input : UpdateTableInput) : list str :=
  let rename_by_old_name : gmap str str :=
    foldl (fun m r => <[rn_old_name r := rn_new_name r]> m) ∅ (ut_column_renames input) in
  flat_map (fun column =>
    let target_name := default (tc_name column) (rename_by_old_name !! tc_name column) in
    match List.find (fun c => str_eqb (tc_name c) target_name) (ts_columns (ut_target input)) with
    | None => []
    | Some target =>
      if tc_nullable column && negb (tc_nullable target)
      then [lit "列 '" ++ tc_name column ++ lit "' 将改为 NOT NULL；如果已有数据包含 NULL，数据库会拒绝执行"]
      else []
    end) (ts_columns (ut_baseline input)).

(** ** Running a script

    [for statement in statements { pool.execute(&statement).await? }]: the server is
    the state, and a statement that fails ends the loop. *)
Section run.
Context {DB : Type} (execute : str -> ST DB IpcError unit).

Definition run_statements (statements : list str) : ST DB IpcError unit := st_iter execute statements.
End run.

(** ** Searching a text *)

(** A marker that a statement on a table starts its action with. *)
Lemma alter_contains p x r table_name rest : lit " " ++ x = p ++ r -> str_contains p (alter table_name (x ++ rest)) = true.
Proof.
  intros Hx. unfold alter. rewrite (app_assoc (lit " ")), Hx, <-app_assoc, (app_assoc (lit "ALTER TABLE ")).
  apply contains_middle.
Qed.

(** ** Running statements *)

Section ran.
Context {DB : Type} (execute : str -> ST DB IpcError unit).

(** The state after a prefix of the script, each statement of which succeeded. *)
Inductive ran : list str -> DB -> DB -> Prop :=
| ran_nil db : ran [] db db
| ran_cons s rest db db' db'' : execute s db = (Ok tt, db') -> ran rest db' db'' -> ran (s :: rest) db db''.

Lemma run_statements_prefix statements db r db' : run_statements execute statements db = (r, db') ->
  (r = Ok tt /\ ran statements db db')
  \/ exists done_ failed rest e db1, statements = done_ ++ failed :: rest /\ r = Err e
     /\ ran done_ db db1 /\ execute failed db1 = (Err e, db').
Proof.
  unfold run_statements. revert db. induction statements as [|s l IH]; intros db H; simpl in H.
  - injection H as <- <-. left. split; [done|constructor].
  - unfold mbind, ST_bind in H. destruct (execute s db) as [[[]|e] db1] eqn:E.
    + apply IH in H as [[-> Hr]|(d & f & rest & e & db2 & -> & -> & Hr & Hf)].
      * left. split; [done|]. by econstructor.
      * right. exists (s :: d), f, rest, e, db2. split; [done|]. split; [done|]. split; [by econstructor|done].
    + injection H as <- <-. right. exists [], s, l, e, db. repeat split; [constructor|done].
Qed.
End ran.

Lemma try_map_perm {E A B} (f : A -> Result E B) l1 l2 r1 r2 :
  l1 ≡ₚ l2 -> try_map f l1 = Ok r1 -> try_map f l2 = Ok r2 -> r1 ≡ₚ r2.
Proof.
  intros Hl H1%try_map_Ok H2. destruct (Permutation_Forall2 Hl H1) as (r & Hr & Hf).
  apply try_map_Ok in Hf. by replace r2 with r by congruence.
Qed.

Lemma existsb_perm {A} (f : A -> bool) l1 l2 : l1 ≡ₚ l2 -> existsb f l1 = existsb f l2.
Proof. induction 1; simpl; [done|congruence| |congruence]. rewrite !orb_assoc. f_equal. apply orb_comm. Qed.

(** Scripts searched for markers. *)
Lemma unmarked_elem {A} (marked : A -> bool) l x : existsb marked l = false -> x ∈ l -> marked x = false.
Proof.
  intros H Hx. apply not_true_iff_false. intros Hm. rewrite <-not_true_iff_false, existsb_exists in H.
  apply H. exists x. split; [by apply list_elem_of_In|done].
Qed.

(** A part of a script whose statements all carry a marker is empty when the script
    has no marker. *)
Lemma unmarked_part {A} (marked : str -> bool) (f : A -> IpcResult str) l part statements :
  existsb marked statements = false -> (forall a s, f a = Ok s -> marked s = true) ->
  try_map f l = Ok part -> (forall s, s ∈ part -> s ∈ statements) -> l = [].
Proof.
  intros Hd Hf H Hin. destruct l as [|a l]; [done|]. exfalso.
  apply try_map_Ok, Forall2_cons_inv_l in H as (s & part' & Hs & _ & ->). apply Hf in Hs.
  rewrite (unmarked_elem _ _ s Hd) in Hs; [discriminate Hs|]. apply Hin. left.
Qed.

(** ** A server for examples *)

(** A server that records what it runs and describes every table the same way. *)
Definition record_statement (s : str) : ST (list str) IpcError unit := st_modify (fun log => log ++ [s]).
Definition describe_as (schema : TableSchema) (_ : ContainerRef) : ST (list str) IpcError TableSchema := mret schema.

Definition orders_container : ContainerRef :=
  mkContainerRef Table None (Some (lit "shop")) (Some (lit "public")) (Some (lit "orders")) None None None None None.

Definition reverse_order : forall A, gmap str A -> list (str * A) := fun A m => reverse (map_to_list m).

Lemma reverse_order_perm A (m : gmap str A) : reverse_order A m ≡ₚ map_to_list m.
Proof. apply reverse_Permutation. Qed.
