(* ===== verification/MysqlDesign.v ===== *)
(** * The MySQL table designer
    ([src-tauri/src/engine/drivers/mysql/ddl.rs] and the DDL functions of
    [src-tauri/src/engine/drivers/mysql/mod.rs])

    Rendering of columns and constraints, the create, update and drop statements,
    the confirmation of destructive updates and the driver operations that run
    them. *)

From stdpp Require Import base gmap list strings fin_maps.
From Stdlib Require Import ZArith Lia.
From S2P Require Import Prelude Errors Types SqlText TableSql SchemaTypes SchemaDiff SchemaUpdate TableDesign.

Definition MYSQL_UNSAFE_ON_UPDATE_TYPE_MARKER : str := lit "/* nexus_pilot:mysql_unsafe_on_update */".
Definition MYSQL_UNSAFE_DEFAULT_TYPE_MARKER : str := lit "/* nexus_pilot:mysql_unsafe_default */".

Definition mysql_unsupported_table_design_modify_reason (column : TableColumnSchema) : option str :=
  if str_contains MYSQL_UNSAFE_ON_UPDATE_TYPE_MARKER (tc_type_name column) then
    Some (lit "暂不支持修改包含 ON UPDATE 且无显式默认值的 MySQL 列 '" ++ tc_name column ++ lit "'")
  else if str_contains MYSQL_UNSAFE_DEFAULT_TYPE_MARKER (tc_type_name column) then
    Some (lit "暂不支持修改包含无法安全回放默认值元数据的 MySQL 列 '" ++ tc_name column ++ lit "'")
  else None.

Definition mysql_referential_action (action : TableReferentialAction) : str :=
  match action with
  | NoAction => lit "NO ACTION"
  | Restrict => lit "RESTRICT"
  | Cascade => lit "CASCADE"
  | SetNull => lit "SET NULL"
  | SetDefault => lit "SET DEFAULT"
  end.

Definition mysql_parse_referential_action (value : option str) : option TableReferentialAction :=
  match value with
  | None => None
  | Some v =>
    let v := str_upper (trim v) in
    if str_eqb v (lit "NO ACTION") then Some NoAction
    else if str_eqb v (lit "RESTRICT") then Some Restrict
    else if str_eqb v (lit "CASCADE") then Some Cascade
    else if str_eqb v (lit "SET NULL") then Some SetNull
    else if str_eqb v (lit "SET DEFAULT") then Some SetDefault
    else None
  end.

Definition mysql_referenced_table_name (database : option str) (table : str) : IpcResult str :=
  table ← normalized_non_empty_identifier table (lit "引用表");
  match normalized_optional_text database with
  | Some database => Ok (quote_mysql_identifier database ++ lit "." ++ quote_mysql_identifier table)
  | None => Ok (quote_mysql_identifier table)
  end.

Definition mysql_table_constraint_definition (constraint : TableConstraintSchema) : IpcResult str :=
  name ← normalized_non_empty_identifier (tk_name constraint) (lit "约束名");
  match tk_kind constraint with
  | KindForeignKey =>
    match tk_foreign_key constraint with
    | None => Err (validation_failed (lit "外键约束 '" ++ name ++ lit "' 需要引用表和引用列"))
    | Some fk =>
      referenced_table ← mysql_referenced_table_name (fk_database_name fk) (fk_table_name fk);
      Ok (lit "CONSTRAINT " ++ quote_mysql_identifier name
          ++ lit " FOREIGN KEY (" ++ quote_column_list (tk_columns constraint) quote_mysql_identifier
          ++ lit ") REFERENCES " ++ referenced_table
          ++ lit " (" ++ quote_column_list (fk_columns fk) quote_mysql_identifier ++ lit ")"
          ++ opt_text (fk_on_update fk) (fun a => lit " ON UPDATE " ++ mysql_referential_action a)
          ++ opt_text (fk_on_delete fk) (fun a => lit " ON DELETE " ++ mysql_referential_action a))
    end
  | KindCheck =>
    expression ← normalized_sql_fragment (default [] (tk_expression constraint)) (lit "CHECK 表达式");
    Ok (lit "CONSTRAINT " ++ quote_mysql_identifier name ++ lit " CHECK (" ++ expression ++ lit ")"
        ++ opt_text (tk_enforced constraint) (fun e : bool => if e then lit " ENFORCED" else lit " NOT ENFORCED"))
  | KindPrimaryKey | KindUnique =>
    Err (validation_failed (lit "该约束类型不应通过 MySQL advanced renderer 渲染"))
  end.

Definition mysql_drop_constraint_statement (table_name : str) (constraint : TableConstraintSchema) : IpcResult str :=
  name ← normalized_non_empty_identifier (tk_name constraint) (lit "约束名");
  let keyword := match tk_kind constraint with
    | KindForeignKey => lit "DROP FOREIGN KEY"
    | KindCheck => lit "DROP CHECK"
    | KindUnique => lit "DROP INDEX"
    | KindPrimaryKey => lit "DROP PRIMARY KEY"
    end in
  if is_kind KindPrimaryKey constraint then Ok (lit "ALTER TABLE " ++ table_name ++ lit " " ++ keyword)
  else Ok (lit "ALTER TABLE " ++ table_name ++ lit " " ++ keyword ++ lit " " ++ quote_mysql_identifier name).

Definition ensure_schema_matches_mysql_table_parts (schema : TableSchema) (database table : str) : IpcResult unit :=
  if str_eqb (trim (tb_database_name (ts_basics schema))) database
     && str_eqb (trim (tb_table_name (ts_basics schema))) table then Ok tt
  else Err (validation_failed (lit "表结构草稿与当前表不匹配，请刷新后重试")).

Section mysql.
Context {J : JsonNumber}.

(** [if let Some(comment) = ... { definition.push_str(" COMMENT "); ... }] *)
Definition comment_suffix (comment : option str) : IpcResult str :=
  match normalized_optional_text comment with
  | Some comment => literal ← string_literal comment; Ok (lit " COMMENT " ++ literal)
  | None => Ok []
  end.

Definition mysql_column_definition (column : TableColumnSchema) : IpcResult str :=
  type_name ← normalized_sql_fragment (tc_type_name column) (lit "列类型");
  charset ← normalized_optional_fragment (tc_charset column) (lit "列字符集");
  collation ← normalized_optional_fragment (tc_collation column) (lit "列排序规则");
  let definition := quote_mysql_identifier (tc_name column) ++ lit " " ++ type_name
    ++ opt_text charset (fun c => lit " CHARACTER SET " ++ c)
    ++ opt_text collation (fun c => lit " COLLATE " ++ c) in
  match tc_generated column with
  | Some generated =>
    if negb (is_none (normalized_optional_text (tc_default_value column))) then
      Err (validation_failed (lit "生成列不能同时设置默认值"))
    else
      expression ← normalized_sql_fragment (gc_expression generated) (lit "生成列表达式");
      comment ← comment_suffix (tc_comment column);
      Ok (definition ++ lit " GENERATED ALWAYS AS (" ++ expression ++ lit ")"
          ++ match gc_storage generated with Virtual => lit " VIRTUAL" | Stored => lit " STORED" end
          ++ comment)
  | None =>
    let is_identity := tc_is_identity column || negb (is_none (tc_identity column)) in
    default_value ← normalized_optional_fragment (tc_default_value column) (lit "默认值");
    comment ← comment_suffix (tc_comment column);
    Ok (definition
        ++ (if tc_is_primary_key column || is_identity || negb (tc_nullable column)
            then lit " NOT NULL" else lit " NULL")
        ++ opt_text default_value (fun d => lit " DEFAULT " ++ d)
        ++ (if is_identity then lit " AUTO_INCREMENT" else [])
        ++ comment)
  end.

(** ** Databases and tables *)

Definition create_database_sql (name : str) (character_set : option str) : IpcResult str :=
  name ← normalized_non_empty_identifier name (lit "数据库名称");
  match character_set with
  | Some character_set =>
    character_set ← normalized_non_empty_identifier character_set (lit "字符集");
    Ok (lit "CREATE DATABASE " ++ quote_mysql_identifier name
        ++ lit " DEFAULT CHARACTER SET " ++ quote_mysql_identifier character_set)
  | None => Ok (lit "CREATE DATABASE " ++ quote_mysql_identifier name)
  end.

Definition alter_database_charset_sql (name character_set : str) : IpcResult str :=
  name ← normalized_non_empty_identifier name (lit "数据库名称");
  character_set ← normalized_non_empty_identifier character_set (lit "字符集");
  Ok (lit "ALTER DATABASE " ++ quote_mysql_identifier name
      ++ lit " DEFAULT CHARACTER SET " ++ quote_mysql_identifier character_set).

Definition drop_database_sql (name : str) : IpcResult str :=
  name ← normalized_non_empty_identifier name (lit "数据库名称");
  Ok (lit "DROP DATABASE " ++ quote_mysql_identifier name).

Definition qualified_table_name (database table : str) : str :=
  quote_mysql_identifier database ++ lit "." ++ quote_mysql_identifier table.

Definition drop_table_sql (input : DropTableInput) (default_database : option str) : IpcResult (str * str * str) :=
  let container := dt_container input in
  if negb (bool_decide (cr_kind container = Table)) then
    Err (validation_failed (lit "Selected container is not a table"))
  else
    database ← normalized_non_empty_identifier
      (default [] (or_else (filled (cr_database container)) default_database)) (lit "数据库名称");
    table ← normalized_non_empty_identifier
      (default [] (or_else (cr_table container) (cr_object_name container))) (lit "表名");
    Ok (database, table, lit "DROP TABLE " ++ qualified_table_name database table).

Definition create_table_parts (input : CreateTableInput) (default_database : option str) : IpcResult (str * str) :=
  let database := if is_nil (trim (tb_database_name (ct_basics input)))
                  then default [] default_database else tb_database_name (ct_basics input) in
  database ← normalized_non_empty_identifier database (lit "数据库名称");
  table ← normalized_non_empty_identifier (tb_table_name (ct_basics input)) (lit "表名");
  Ok (database, table).

Definition unique_definition (unique : NamedColumnList) : str :=
  let name := default [] (nl_name unique) in
  let prefix := if is_nil (trim name) then lit "UNIQUE KEY"
                else lit "UNIQUE KEY " ++ quote_mysql_identifier (trim name) in
  prefix ++ lit " (" ++ quote_column_list (nl_columns unique) quote_mysql_identifier ++ lit ")".

Definition index_definition (column_names : gset str) (index : TableIndexSchema) : IpcResult str :=
  name ← normalized_non_empty_identifier (ti_name index) (lit "索引名");
  columns ← validate_column_refs (ti_columns index) column_names (lit "索引列");
  Ok ((if ti_is_unique index then lit "UNIQUE KEY" else lit "KEY") ++ lit " "
      ++ quote_mysql_identifier name ++ lit " (" ++ quote_column_list columns quote_mysql_identifier ++ lit ")").

Definition create_table_sql (input : CreateTableInput) (default_database : option str) : IpcResult str :=
  parts ← create_table_parts input default_database;
  let table_name := qualified_table_name parts.1 parts.2 in
  schema ← normalize_create_table_input input;
  columns ← try_map mysql_column_definition (nt_columns schema);
  constraints ← try_map mysql_table_constraint_definition (nt_table_constraints schema);
  indexes ← try_map (index_definition (nt_column_names schema)) (nt_indexes schema);
  let definitions := columns
    ++ (if is_nil (nt_primary_key_columns schema) then []
        else [lit "PRIMARY KEY (" ++ quote_column_list (nt_primary_key_columns schema) quote_mysql_identifier ++ lit ")"])
    ++ map unique_definition (nt_unique_constraints schema) ++ constraints ++ indexes in
  let body := join (lit "," ++ NL) (map (fun definition => lit "  " ++ definition) definitions) in
  engine ← normalized_optional_fragment (tb_engine (ct_basics input)) (lit "表引擎");
  charset ← normalized_optional_fragment (tb_charset (ct_basics input)) (lit "字符集");
  collation ← normalized_optional_fragment (tb_collation (ct_basics input)) (lit "排序规则");
  comment ← match normalized_optional_text (tb_comment (ct_basics input)) with
            | Some comment => literal ← string_literal comment; Ok (lit " COMMENT=" ++ literal)
            | None => Ok []
            end;
  partition ← match tb_partition (ct_basics input) with
              | Some options => normalized_optional_fragment (tp_raw_clause options) (lit "分区子句")
              | None => Ok None
              end;
  Ok (lit "CREATE TABLE " ++ table_name ++ lit " (" ++ NL ++ body ++ NL ++ lit ")"
      ++ opt_text engine (fun e => lit " ENGINE=" ++ e)
      ++ opt_text charset (fun c => lit " DEFAULT CHARSET=" ++ c)
      ++ opt_text collation (fun c => lit " COLLATE=" ++ c)
      ++ comment
      ++ opt_text partition (fun p => lit " " ++ p)).

(** ** Updating a table *)

Definition update_table_parts (input : UpdateTableInput) (default_database : option str) : IpcResult (str * str) :=
  let container := ut_container input in
  if negb (bool_decide (cr_kind container = Table)) then
    Err (resource_not_found (lit "Selected container is not a table"))
  else
    let database := default (tb_database_name (ts_basics (ut_target input)))
      (or_else (filled (cr_database container)) default_database) in
    let table := default (tb_table_name (ts_basics (ut_target input)))
      (or_else (cr_table container) (cr_object_name container)) in
    database ← normalized_non_empty_identifier database (lit "数据库名称");
    table ← normalized_non_empty_identifier table (lit "表名");
    _ ← ensure_schema_matches_mysql_table_parts (ut_baseline input) database table;
    _ ← ensure_schema_matches_mysql_table_parts (ut_target input) database table;
    Ok (database, table).

(** The statements on the table options. *)
Definition option_statements (table_name : str) (diff : TableSchemaUpdateDiff) : IpcResult (list str) :=
  comment ← match table_comment_change diff with
            | Some change =>
              literal ← string_literal (default [] (cc_comment change));
              Ok [alter table_name (lit "COMMENT = " ++ literal)]
            | None => Ok []
            end;
  engine ← match table_engine_change diff with
           | Some engine =>
             engine ← normalized_sql_fragment engine (lit "表引擎");
             Ok [alter table_name (lit "ENGINE=" ++ engine)]
           | None => Ok []
           end;
  charset ← match table_charset_change diff with
            | Some charset => c ← normalized_sql_fragment charset (lit "字符集"); Ok (lit " DEFAULT CHARACTER SET " ++ c)
            | None => Ok []
            end;
  collation ← match table_collation_change diff with
              | Some collation => c ← normalized_sql_fragment collation (lit "排序规则"); Ok (lit " COLLATE " ++ c)
              | None => Ok []
              end;
  Ok (comment ++ engine
      ++ (if negb (is_none (table_charset_change diff)) || negb (is_none (table_collation_change diff))
          then [lit "ALTER TABLE " ++ table_name ++ charset ++ collation] else [])).

Definition changed_column_names (diff : TableSchemaUpdateDiff) : gset str :=
  list_to_set (map cdc_column_name (column_default_changes diff)
    ++ map cnc_column_name (column_nullability_changes diff)
    ++ map ccc_column_name (column_comment_changes diff)
    ++ map cgc_column_name (generated_column_changes diff)
    ++ map cic_column_name (identity_changes diff)
    ++ map csc_column_name (column_charset_changes diff)
    ++ map ctc_column_name (column_type_changes diff)).

(** [collect::<HashMap<_, _>>()]: the last rename to a name wins. *)
Definition rename_by_new_name (diff : TableSchemaUpdateDiff) : gmap str str :=
  foldl (fun m r => <[crc_new_name r := crc_old_name r]> m) ∅ (renamed_columns diff).

(** The locals of the loop over the target columns. *)
Record ModifyAcc := mkModifyAcc {
  ma_changed : gset str;
  ma_handled : gset str;
  ma_statements : list str;
}.

Definition modify_column (table_name : str) (diff : TableSchemaUpdateDiff) (acc : ModifyAcc)
    (target : TableColumnSchema) : IpcResult ModifyAcc :=
  let name := tc_name target in
  if bool_decide (name ∈ ma_changed acc) then
    let changed := ma_changed acc ∖ {[name]} in
    match mysql_unsupported_table_design_modify_reason target with
    | Some reason => Err (validation_failed reason)
    | None =>
      definition ← mysql_column_definition target;
      match rename_by_new_name diff !! name with
      | Some old_name =>
        Ok (mkModifyAcc changed ({[name]} ∪ ma_handled acc)
          (ma_statements acc ++ [alter table_name (lit "CHANGE COLUMN " ++ quote_mysql_identifier old_name ++ lit " " ++ definition)]))
      | None =>
        if existsb (fun change => str_eqb (ctc_column_name change) name) (column_type_changes diff) then
          Ok (mkModifyAcc changed (ma_handled acc)
            (ma_statements acc ++ [alter table_name (lit "CHANGE COLUMN " ++ quote_mysql_identifier name ++ lit " " ++ definition)]))
        else
          Ok (mkModifyAcc changed (ma_handled acc)
            (ma_statements acc ++ [alter table_name (lit "MODIFY COLUMN " ++ definition)]))
      end
    end
  else Ok acc.

Definition primary_key_statements (table_name : str) (change : option PrimaryKeyChange) : list str :=
  match change with
  | Some change =>
    (if is_nil (pkc_old_columns change) then [] else [alter table_name (lit "DROP PRIMARY KEY")])
    ++ (if is_nil (pkc_new_columns change) then []
        else [alter table_name (lit "ADD PRIMARY KEY ("
               ++ quote_column_list (pkc_new_columns change) quote_mysql_identifier ++ lit ")")])
  | None => []
  end.

Definition drop_index_statement (table_name : str) (index : TableIndexSchema) : IpcResult str :=
  name ← normalized_non_empty_identifier (ti_name index) (lit "索引名");
  Ok (lit "DROP INDEX " ++ quote_mysql_identifier name ++ lit " ON " ++ table_name).

Definition drop_column_statement (table_name : str) (column : TableColumnSchema) : IpcResult str :=
  name ← normalized_non_empty_identifier (tc_name column) (lit "列名");
  Ok (alter table_name (lit "DROP COLUMN " ++ quote_mysql_identifier name)).

Definition create_index_statement (table_name : str) (column_names : gset str) (index : TableIndexSchema) : IpcResult str :=
  if negb (is_none (normalized_optional_text (ti_method index))) then
    Err (validation_failed (lit "暂不支持 MySQL 索引方法"))
  else
    name ← normalized_non_empty_identifier (ti_name index) (lit "索引名");
    columns ← validate_column_refs (ti_columns index) column_names (lit "索引列");
    Ok (lit "CREATE " ++ (if ti_is_unique index then lit "UNIQUE " else []) ++ lit "INDEX "
        ++ quote_mysql_identifier name ++ lit " ON " ++ table_name
        ++ lit " (" ++ quote_column_list columns quote_mysql_identifier ++ lit ")").

Section update.
(** The orders in which hash maps and hash sets yield their entries. *)
Context (hash_iter : forall A, gmap str A -> list (str * A)).

(** The statements on the columns, the keys and the indexes, in the order of the source. *)
Definition diff_statements (table_name : str) (target_columns : list TableColumnSchema)
    (diff : TableSchemaUpdateDiff) : IpcResult (list str) :=
  let column_names : gset str := list_to_set (map tc_name target_columns) in
  options ← option_statements table_name diff;
  added ← try_map (fun c => d ← mysql_column_definition c; Ok (alter table_name (lit "ADD COLUMN " ++ d))) (added_columns diff);
  acc ← try_fold (modify_column table_name diff) (mkModifyAcc (changed_column_names diff) ∅ []) target_columns;
  _ ← match hash_iter _ (gset_to_gmap tt (ma_changed acc)) with
      | (column_name, _) :: _ => Err (validation_failed (lit "列 '" ++ column_name ++ lit "' 不存在"))
      | [] => Ok tt
      end;
  let renames := flat_map (fun rename =>
    if bool_decide (crc_new_name rename ∈ ma_handled acc) then []
    else [alter table_name (lit "RENAME COLUMN " ++ quote_mysql_identifier (crc_old_name rename)
            ++ lit " TO " ++ quote_mysql_identifier (crc_new_name rename))]) (renamed_columns diff) in
  let primary_key := primary_key_statements table_name (primary_key_change diff) in
  dropped_constraints ← try_map (mysql_drop_constraint_statement table_name) (dropped_constraints diff);
  added_constraints ← try_map (fun c => d ← mysql_table_constraint_definition c; Ok (alter table_name (lit "ADD " ++ d)))
    (added_constraints diff);
  dropped_indexes ← try_map (drop_index_statement table_name) (dropped_indexes diff);
  dropped_columns ← try_map (drop_column_statement table_name) (dropped_columns diff);
  added_indexes ← try_map (create_index_statement table_name column_names) (added_indexes diff);
  Ok (options ++ added ++ ma_statements acc ++ renames ++ primary_key ++ dropped_constraints
      ++ added_constraints ++ dropped_indexes ++ dropped_columns ++ added_indexes).

Definition update_table_sql (input : UpdateTableInput) (default_database : option str)
    : IpcResult (str * str * list str) :=
  parts ← update_table_parts input default_database;
  let table_name := qualified_table_name parts.1 parts.2 in
  diff ← diff_table_schema_for_update_with_column_renames hash_iter (ut_baseline input) (ut_target input)
    (mkTableUpdateDiffOptions true) (ut_column_renames input);
  if is_empty diff then Err (validation_failed (lit "没有可执行的表结构变更"))
  else
    statements ← diff_statements table_name (ts_columns (ut_target input)) diff;
    Ok (parts.1, parts.2, statements).

Definition table_update_statements_are_destructive (statements : list str) : bool :=
  existsb (fun statement =>
    str_contains (lit " DROP COLUMN ") statement || str_contains (lit " CHANGE COLUMN ") statement
    || str_contains (lit " DROP PRIMARY KEY") statement || str_contains (lit " ADD PRIMARY KEY ") statement)
    statements.

Definition ensure_destructive_table_update_confirmed (input : UpdateTableInput) (statements : list str) : IpcResult unit :=
  if table_update_statements_are_destructive statements && negb (ut_confirm_destructive input)
  then Err (validation_failed (lit "破坏性表结构变更需要确认后才能执行"))
  else Ok tt.

Definition mark_destructive_table_update_preview (preview : SchemaMutationPreview) : SchemaMutationPreview :=
  let any f := existsb f (sp_statements preview) in
  mkSchemaMutationPreview (sp_statements preview)
    (sp_warnings preview
     ++ (if any (str_contains (lit " DROP COLUMN ")) then [lit "将删除已有列；该操作会永久删除该列中的数据"] else [])
     ++ (if any (str_contains (lit " CHANGE COLUMN "))
         then [lit "将修改列类型；数据库可能拒绝转换，转换也可能造成数据截断"] else [])
     ++ (if any (fun s => str_contains (lit " DROP PRIMARY KEY") s || str_contains (lit " ADD PRIMARY KEY ") s)
         then [lit "将修改主键；该操作可能影响依赖主键的查询、索引和应用逻辑"] else []))
    (if table_update_statements_are_destructive (sp_statements preview) then true else sp_destructive preview).

Definition preview_create_table (input : CreateTableInput) (default_database : option str) : IpcResult SchemaMutationPreview :=
  sql ← create_table_sql input default_database;
  Ok (from_statements [sql]).

Definition preview_update_table (input : UpdateTableInput) (default_database : option str) : IpcResult SchemaMutationPreview :=
  parts ← update_table_sql input default_database;
  let preview := mark_destructive_table_update_preview (from_statements parts.2) in
  Ok (mkSchemaMutationPreview (sp_statements preview) (sp_warnings preview ++ not_null_warnings input) (sp_destructive preview)).

Definition preview_drop_table (input : DropTableInput) (default_database : option str) : IpcResult SchemaMutationPreview :=
  parts ← drop_table_sql input default_database;
  Ok (mark_drop_table_preview (from_statements [parts.2])).

(** *** The operations that reach the server *)

Context {DB : Type} (execute : str -> ST DB IpcError unit).
Context (describe_table : ContainerRef -> ST DB IpcError TableSchema).

Definition create_table (input : CreateTableInput) (default_database : option str) : ST DB IpcError (str * str) :=
  sql ← st_lift (create_table_sql input default_database);
  _ ← execute sql;
  st_lift (create_table_parts input default_database).

Definition update_table (input : UpdateTableInput) (default_database : option str) : ST DB IpcError (str * str) :=
  current ← describe_table (ut_container input);
  if negb (bool_decide (current = ut_baseline input)) then
    st_lift (Err (resource_conflict (lit "表结构已变化，请刷新后重试")))
  else
    parts ← st_lift (update_table_sql input default_database);
    _ ← st_lift (ensure_destructive_table_update_confirmed input parts.2);
    _ ← run_statements execute parts.2;
    st_lift (Ok (parts.1.1, parts.1.2)).

Definition drop_table (input : DropTableInput) (default_database : option str) : ST DB IpcError (str * str) :=
  _ ← st_lift (ensure_destructive_drop_table_confirmed input);
  parts ← st_lift (drop_table_sql input default_database);
  _ ← execute parts.2;
  st_lift (Ok (parts.1.1, parts.1.2)).
End update.
End mysql.

(** ** What an unconfirmed update can do *)

Section gate.
Context {J : JsonNumber} (hash_iter : forall A, gmap str A -> list (str * A)).

Lemma modify_step_keeps t d acc c acc' s : modify_column t d acc c = Ok acc' ->
  s ∈ ma_statements acc -> s ∈ ma_statements acc'.
Proof.
  unfold modify_column. intros H Hs. case_bool_decide; [|by apply Ok_inj in H as <-].
  destruct (mysql_unsupported_table_design_modify_reason c); [discriminate H|]. bind_inv.
  destruct (rename_by_new_name d !! tc_name c); [|destruct (existsb _ _)]; apply Ok_inj in H as <-; simpl; set_solver.
Qed.

Lemma modify_step_changed t d acc c acc' n : modify_column t d acc c = Ok acc' ->
  n <> tc_name c -> n ∈ ma_changed acc -> n ∈ ma_changed acc'.
Proof.
  unfold modify_column. intros H Hn Hc. case_bool_decide; [|by apply Ok_inj in H as <-].
  destruct (mysql_unsupported_table_design_modify_reason c); [discriminate H|]. bind_inv.
  destruct (rename_by_new_name d !! tc_name c); [|destruct (existsb _ _)]; apply Ok_inj in H as <-; simpl; set_solver.
Qed.

Lemma modify_step_type t d acc c acc' : modify_column t d acc c = Ok acc' ->
  tc_name c ∈ ma_changed acc -> tc_name c ∈ map ctc_column_name (column_type_changes d) ->
  exists s, s ∈ ma_statements acc' /\ str_contains (lit " CHANGE COLUMN ") s = true.
Proof.
  unfold modify_column. intros H Hc Ht. rewrite bool_decide_true in H by done.
  destruct (mysql_unsupported_table_design_modify_reason c); [discriminate H|].
  destruct (mysql_column_definition c) as [definition|]; [|discriminate H]. cbn [mbind Result_bind] in H.
  assert (He : existsb (fun change => str_eqb (ctc_column_name change) (tc_name c)) (column_type_changes d) = true).
  { apply list_elem_of_fmap in Ht as (ch & Hn & Hin). apply existsb_exists. exists ch.
    split; [by apply list_elem_of_In|]. by apply bool_decide_eq_true. }
  destruct (rename_by_new_name d !! tc_name c) as [old|]; [|rewrite He in H]; apply Ok_inj in H as <-; cbn [ma_statements];
    (eexists; split; [apply elem_of_app; right; by apply list_elem_of_singleton|]); by apply alter_contains with (r := []).
Qed.

Lemma modify_fold_keeps t d l acc acc' s : try_fold (modify_column t d) acc l = Ok acc' ->
  s ∈ ma_statements acc -> s ∈ ma_statements acc'.
Proof.
  revert acc. induction l as [|c l IH]; intros acc H Hs; cbn [try_fold] in H; [by apply Ok_inj in H as <-|].
  destruct (modify_column t d acc c) as [acc1|] eqn:E; [|discriminate H]. cbn [mbind Result_bind] in H.
  eapply IH; [exact H|]. by eapply modify_step_keeps.
Qed.

(** Every retyped column is changed by a CHANGE COLUMN statement. *)
Lemma modify_fold_type t d l acc acc' c : try_fold (modify_column t d) acc l = Ok acc' ->
  NoDup (map tc_name l) -> c ∈ l -> tc_name c ∈ ma_changed acc ->
  tc_name c ∈ map ctc_column_name (column_type_changes d) ->
  exists s, s ∈ ma_statements acc' /\ str_contains (lit " CHANGE COLUMN ") s = true.
Proof.
  revert acc. induction l as [|c' l IH]; intros acc H Hnd Hc Hch Ht; cbn [try_fold] in H; [by apply elem_of_nil in Hc|].
  destruct (modify_column t d acc c') as [acc1|] eqn:E; [|discriminate H]. cbn [mbind Result_bind] in H.
  apply NoDup_cons in Hnd as [Hnot Hnd]. apply elem_of_cons in Hc as [->|Hc].
  - destruct (modify_step_type _ _ _ _ _ E Hch Ht) as (s & Hs & Hm). exists s. split; [|done]. by eapply modify_fold_keeps.
  - eapply IH; [exact H|done|done| |done]. eapply modify_step_changed; [exact E| |done].
    intros He. apply Hnot. rewrite <-He. by apply list_elem_of_fmap_2.
Qed.

Lemma not_destructive_elem statements s p : table_update_statements_are_destructive statements = false ->
  s ∈ statements -> p ∈ [lit " DROP COLUMN "; lit " CHANGE COLUMN "; lit " DROP PRIMARY KEY"; lit " ADD PRIMARY KEY "] ->
  str_contains p s = false.
Proof.
  intros Hd Hs Hp. pose proof (unmarked_elem _ _ s Hd Hs) as Hn. cbn beta in Hn. rewrite !orb_false_iff in Hn.
  rewrite !elem_of_cons in Hp. destruct Hp as [->|[->|[->|[->|[]%elem_of_nil]]]]; apply Hn.
Qed.

Lemma drop_statement_marked t c s : drop_column_statement t c = Ok s -> str_contains (lit " DROP COLUMN ") s = true.
Proof. unfold drop_column_statement. intros H. bind_inv. subst. by apply alter_contains with (r := []). Qed.

Definition rename_statements (t : str) (handled : gset str) (d : TableSchemaUpdateDiff) : list str :=
  flat_map (fun rename =>
    if bool_decide (crc_new_name rename ∈ handled) then []
    else [alter t (lit "RENAME COLUMN " ++ quote_mysql_identifier (crc_old_name rename)
            ++ lit " TO " ++ quote_mysql_identifier (crc_new_name rename))]) (renamed_columns d).

(** The parts of a rendered diff. *)
Lemma mysql_diff_statements_ok t cols d statements :
  diff_statements hash_iter t cols d = Ok statements -> exists options added acc dcon acon didx dcol aidx,
  option_statements t d = Ok options
  /\ try_map (fun c => x ← mysql_column_definition c; Ok (alter t (lit "ADD COLUMN " ++ x))) (added_columns d) = Ok added
  /\ try_fold (modify_column t d) (mkModifyAcc (changed_column_names d) ∅ []) cols = Ok acc
  /\ try_map (mysql_drop_constraint_statement t) (dropped_constraints d) = Ok dcon
  /\ try_map (fun c => x ← mysql_table_constraint_definition c; Ok (alter t (lit "ADD " ++ x))) (added_constraints d) = Ok acon
  /\ try_map (drop_index_statement t) (dropped_indexes d) = Ok didx
  /\ try_map (drop_column_statement t) (dropped_columns d) = Ok dcol
  /\ try_map (create_index_statement t (list_to_set (map tc_name cols))) (added_indexes d) = Ok aidx
  /\ statements = options ++ added ++ ma_statements acc ++ rename_statements t (ma_handled acc) d
       ++ primary_key_statements t (primary_key_change d) ++ dcon ++ acon ++ didx ++ dcol ++ aidx.
Proof.
  unfold diff_statements. intros H. cbv zeta in H.
  destruct (option_statements t d) as [s1|]; [|discriminate H]. cbn [mbind Result_bind] in H.
  destruct (try_map _ (added_columns d)) as [s2|]; [|discriminate H]. cbn [mbind Result_bind] in H.
  destruct (try_fold _ _ cols) as [acc|]; [|discriminate H]. cbn [mbind Result_bind] in H.
  destruct (match hash_iter _ _ with [] => _ | _ => _ end); [|discriminate H]. cbn [mbind Result_bind] in H.
  destruct (try_map _ (dropped_constraints d)) as [s3|]; [|discriminate H]. cbn [mbind Result_bind] in H.
  destruct (try_map _ (added_constraints d)) as [s4|]; [|discriminate H]. cbn [mbind Result_bind] in H.
  destruct (try_map _ (dropped_indexes d)) as [s5|]; [|discriminate H]. cbn [mbind Result_bind] in H.
  destruct (try_map _ (dropped_columns d)) as [s6|]; [|discriminate H]. cbn [mbind Result_bind] in H.
  destruct (try_map _ (added_indexes d)) as [s7|]; [|discriminate H]. cbn [mbind Result_bind] in H.
  apply Ok_inj in H. eauto 20.
Qed.

Lemma mysql_diff_statements_gate t cols d statements :
  diff_statements hash_iter t cols d = Ok statements -> NoDup (map tc_name cols) ->
  (forall n, n ∈ map ctc_column_name (column_type_changes d) -> n ∈ map tc_name cols) ->
  (forall change, primary_key_change d = Some change -> pkc_old_columns change <> pkc_new_columns change) ->
  table_update_statements_are_destructive statements = false ->
  dropped_columns d = [] /\ column_type_changes d = [] /\ primary_key_change d = None.
Proof.
  intros H Hnd Htypes Hpk Hsafe.
  apply mysql_diff_statements_ok in H as (s1 & s2 & acc & s3 & s4 & s5 & s6 & s7 & _ & _ & Efold & _ & _ & _ & Edrop & _ & ->).
  pose proof (fun s p => not_destructive_elem _ s p Hsafe) as Hno. clear Hsafe. split; [|split].
  - destruct (dropped_columns d) as [|c l]; [done|]. exfalso.
    apply try_map_Ok, Forall2_cons_inv_l in Edrop as (s & s6' & Hs & _ & ->). apply drop_statement_marked in Hs.
    rewrite (Hno s) in Hs; [discriminate Hs| |set_solver]. rewrite !elem_of_app, !elem_of_cons. auto 20.
  - destruct (column_type_changes d) as [|ch l] eqn:Ech; [done|]. exfalso.
    destruct (proj1 (list_elem_of_fmap _ _ _) (Htypes (ctc_column_name ch) ltac:(set_solver))) as (c & Hn & Hc).
    destruct (modify_fold_type _ _ _ _ _ c Efold Hnd Hc) as (s & Hs & Hm).
    + rewrite <-Hn. unfold changed_column_names. simpl. rewrite Ech. rewrite elem_of_list_to_set, !elem_of_app. set_solver.
    + rewrite Ech, <-Hn. set_solver.
    + rewrite (Hno s) in Hm; [discriminate Hm| |set_solver]. rewrite !elem_of_app. auto 10.
  - destruct (primary_key_change d) as [change|]; [|done]. exfalso. specialize (Hpk change eq_refl).
    assert (Hp : forall s, s ∈ primary_key_statements t (Some change) ->
      str_contains (lit " DROP PRIMARY KEY") s = false /\ str_contains (lit " ADD PRIMARY KEY ") s = false).
    { intros s Hs. split; (apply Hno; [|set_solver]); rewrite !elem_of_app; auto 10. }
    unfold primary_key_statements in Hp. destruct (pkc_old_columns change) as [|o os]; cbn [is_nil app] in Hp.
    + destruct (pkc_new_columns change) as [|n ns]; [done|]. cbn [is_nil] in Hp.
      destruct (Hp _ ltac:(by apply list_elem_of_singleton)) as [_ Hf]. rewrite (alter_contains _ _ (lit "(")) in Hf; done.
    + destruct (Hp (alter t (lit "DROP PRIMARY KEY")) ltac:(set_solver)) as [Hf _].
      rewrite <-(app_nil_r (lit "DROP PRIMARY KEY")), (alter_contains _ _ []) in Hf; done.
Qed.
End gate.

(** ** Hash orders *)

Lemma destructive_perm l1 l2 : l1 ≡ₚ l2 ->
  table_update_statements_are_destructive l1 = table_update_statements_are_destructive l2.
Proof. apply existsb_perm. Qed.

Lemma mysql_diff_statements_order {J : JsonNumber} (h1 h2 : forall A, gmap str A -> list (str * A)) t cols d1 d2 s1 s2 :
  same_but_order d1 d2 -> diff_statements h1 t cols d1 = Ok s1 -> diff_statements h2 t cols d2 = Ok s2 -> s1 ≡ₚ s2.
Proof.
  intros [Hh Hc Ha Hi Hdc Hac] H1 H2.
  injection Hh as Hh1 Hh2 Hh3 Hh4 _ Hh6 Hh7. injection Hc as Hc1 Hc2 Hc3 Hc4 Hc5 Hc6 Hc7 Hc8. injection Hi as Hi1 Hi2.
  apply mysql_diff_statements_ok in H1 as (o1 & a1 & acc1 & dc1 & ac1 & di1 & dl1 & ai1 & Ho1 & Ha1 & Hm1 & Hdc1 & Hac1 & Hdi1 & Hdl1 & Hai1 & ->).
  apply mysql_diff_statements_ok in H2 as (o2 & a2 & acc2 & dc2 & ac2 & di2 & dl2 & ai2 & Ho2 & Ha2 & Hm2 & Hdc2 & Hac2 & Hdi2 & Hdl2 & Hai2 & ->).
  assert (o1 = o2) as ->.
  { unfold option_statements in Ho1, Ho2. rewrite Hh1, Hh2, Hh3, Hh4 in Ho1. congruence. }
  assert (acc1 = acc2) as ->.
  { unfold changed_column_names, modify_column, rename_by_new_name in Hm1, Hm2.
    rewrite Hc2, Hc3, Hc4, Hc5, Hc6, Hc7, Hc8, Hh7 in Hm1. congruence. }
  rewrite Ha, Ha2 in Ha1. rewrite Hi1, Hdi2 in Hdi1. rewrite Hc1, Hdl2 in Hdl1. rewrite Hi2, Hai2 in Hai1.
  apply Ok_inj in Ha1, Hdi1, Hdl1, Hai1. subst. unfold rename_statements. rewrite Hh6, Hh7.
  by rewrite (try_map_perm _ _ _ _ _ Hdc Hdc1 Hdc2), (try_map_perm _ _ _ _ _ Hac Hac1 Hac2).
Qed.

Section theorems.
Context {J : JsonNumber}.
Context {DB : Type} (execute : str -> ST DB IpcError unit).
Context (describe_table : ContainerRef -> ST DB IpcError TableSchema).
Implicit Types (hash_iter : forall A, gmap str A -> list (str * A)).

Lemma update_table_sql_ok hash_iter input default_database database table statements :
  update_table_sql hash_iter input default_database = Ok (database, table, statements) ->
  exists d, diff_table_schema_for_update_with_column_renames hash_iter (ut_baseline input) (ut_target input)
      (mkTableUpdateDiffOptions true) (ut_column_renames input) = Ok d
    /\ is_empty d = false
    /\ update_table_parts input default_database = Ok (database, table)
    /\ diff_statements hash_iter (qualified_table_name database table) (ts_columns (ut_target input)) d = Ok statements.
Proof.
  unfold update_table_sql. intros H.
  destruct (update_table_parts input default_database) as [[db t]|]; [|discriminate H]. cbn [mbind Result_bind] in H.
  destruct (diff_table_schema_for_update_with_column_renames _ _ _ _ _) as [d|]; [|discriminate H]. cbn [mbind Result_bind] in H.
  destruct (is_empty d) eqn:Ee; [discriminate H|].
  destruct (diff_statements _ _ _ _) as [st|] eqn:Es; [|discriminate H]. cbn [mbind Result_bind] in H.
  apply Ok_inj in H. injection H as <- <- <-. eauto.
Qed.

(** What a MySQL table update may run. It reaches the server only when the
    table, read again, is exactly the table the user started from, and it runs the
    statements of the computed diff in order up to the first failure. Without a
    confirmation those statements drop no column, change no column's type and leave
    the primary key alone: every column of the table continues in the target with
    the type it had. *)
Theorem mysql_update_is_guarded hash_iter input default_database s r s' :
  update_table hash_iter execute describe_table input default_database s = (r, s') ->
  let s1 := (describe_table (ut_container input) s).2 in
  s' = s1
  \/ exists d table_name statements,
       (describe_table (ut_container input) s).1 = Ok (ut_baseline input)
       /\ diff_table_schema_for_update_with_column_renames hash_iter (ut_baseline input) (ut_target input)
            (mkTableUpdateDiffOptions true) (ut_column_renames input) = Ok d
       /\ diff_statements hash_iter table_name (ts_columns (ut_target input)) d = Ok statements
       /\ ((is_ok r = true /\ ran execute statements s1 s')
           \/ exists done_ failed rest e s2, statements = done_ ++ failed :: rest /\ r = Err e
              /\ ran execute done_ s1 s2 /\ execute failed s2 = (Err e, s'))
       /\ (ut_confirm_destructive input = false ->
           dropped_columns d = []
           /\ (forall c, c ∈ ts_columns (ut_baseline input) -> exists t, t ∈ ts_columns (ut_target input)
                 /\ tc_name t = renamed d (tc_name c)
                 /\ normalized_sql_type (tc_type_name t) = normalized_sql_type (tc_type_name c))
           /\ exists bpk tpk, primary_key_definition (ut_baseline input) = Ok bpk
              /\ primary_key_definition (ut_target input) = Ok tpk /\ pkd_columns bpk = pkd_columns tpk).
Proof.
  unfold update_table. unfold mbind at 1, ST_bind at 1. intros H. cbv zeta.
  destruct (describe_table (ut_container input) s) as [[current|e] s1]; cbn [fst snd]; [|left; unfold st_lift in H; cbn in H; congruence].
  case_bool_decide as Hcur; [cbn [negb] in H; subst current|left; unfold st_lift in H; cbn in H; congruence].
  unfold st_lift at 1 in H. unfold mbind at 1, ST_bind at 1 in H.
  destruct (update_table_sql _ _ _) as [[[database table] statements]|] eqn:Esql; [|left; unfold st_lift in H; cbn in H; congruence].
  apply update_table_sql_ok in Esql as (d & Hd & _ & _ & Hst).
  unfold st_lift at 1 in H. unfold mbind at 1, ST_bind at 1 in H. cbn [fst snd] in H.
  destruct (ensure_destructive_table_update_confirmed input statements) eqn:Egate; [|left; unfold st_lift in H; cbn in H; congruence].
  unfold mbind, ST_bind, st_lift in H. cbn [fst snd] in H.
  right. exists d, (qualified_table_name database table), statements. split; [done|]. split; [done|]. split; [done|]. split.
  - destruct (run_statements execute statements s1) as [r0 s2] eqn:Er.
    destruct (run_statements_prefix _ _ _ _ _ Er) as [[-> Hran]|(dn & f & rest & e & s3 & -> & -> & Hran & Hf)].
    + injection H as <- <-. by left.
    + injection H as <- <-. right. eauto 10.
  - intros Hconf. unfold ensure_destructive_table_update_confirmed in Egate. rewrite Hconf, andb_true_r in Egate.
    destruct (table_update_statements_are_destructive statements) eqn:Esafe; [discriminate Egate|].
    destruct (diff_target_names _ _ _ _ _ _ Hd) as [Hnd Hn]. destruct (diff_primary_key _ _ _ _ _ _ Hd) as [Hpk (bpk & tpk & Hb & Ht & Heq)].
    destruct (mysql_diff_statements_gate _ _ _ _ _ Hst Hnd Hn Hpk Esafe) as (Hdr & Hty & Hp).
    split; [done|]. split; [by eapply undropped_columns_continue|]. exists bpk, tpk. auto.
Qed.

(** What the preview shows is what runs. The previewed and the executed script
    are computed in separate calls, whose hash maps may yield the constraints in
    different orders; the scripts are reorderings of each other, and the update asks
    for a confirmation exactly when the preview was marked destructive. *)
Theorem mysql_preview_matches_update (h1 h2 : forall A, gmap str A -> list (str * A)) input default_database preview
    database table statements :
  (forall A (m : gmap str A), h1 A m ≡ₚ map_to_list m) -> (forall A (m : gmap str A), h2 A m ≡ₚ map_to_list m) ->
  preview_update_table h1 input default_database = Ok preview ->
  update_table_sql h2 input default_database = Ok (database, table, statements) ->
  sp_statements preview ≡ₚ statements
  /\ sp_destructive preview = table_update_statements_are_destructive statements.
Proof.
  intros P1 P2 Hp Hs. unfold preview_update_table in Hp.
  destruct (update_table_sql h1 input default_database) as [[[db1 t1] st1]|] eqn:E1; [|discriminate Hp].
  cbn [mbind Result_bind fst snd] in Hp. apply Ok_inj in Hp. subst preview. cbn [sp_statements sp_destructive].
  apply update_table_sql_ok in E1 as (d1 & Hd1 & _ & Hp1 & Hst1). apply update_table_sql_ok in Hs as (d2 & Hd2 & _ & Hp2 & Hst2).
  rewrite Hp1 in Hp2. apply Ok_inj in Hp2. injection Hp2 as <- <-.
  pose proof (diff_orders _ _ _ _ _ _ _ _ P1 P2 Hd1 Hd2) as Hso.
  assert (Hperm : st1 ≡ₚ statements) by (by eapply mysql_diff_statements_order). split; [done|].
  unfold mark_destructive_table_update_preview, from_statements. cbn [sp_statements sp_destructive].
  rewrite (destructive_perm _ _ Hperm). by destruct (table_update_statements_are_destructive statements).
Qed.
End theorems.

(** ** Examples *)

Definition rename_input : UpdateTableInput :=
  mkUpdateTableInput orders_container demo_baseline renamed_target demo_renames false.

Definition rename_run : Result IpcError (str * str) * list str :=
  update_table (J := IntegerNumber) map_order record_statement (describe_as demo_baseline) rename_input None [].

Lemma mysql_update_is_guarded_witness :
  rename_run.2 = [lit "ALTER TABLE `shop`.`orders` RENAME COLUMN `note` TO `remark`";
                  lit "DROP INDEX `by_note` ON `shop`.`orders`";
                  lit "CREATE INDEX `by_note` ON `shop`.`orders` (`remark`)"]
  /\ exists d, dropped_columns d = []
     /\ diff_table_schema_for_update_with_column_renames map_order demo_baseline renamed_target
          (mkTableUpdateDiffOptions true) demo_renames = Ok d.
Proof.
  split; [by vm_compute|].
  destruct (mysql_update_is_guarded (J := IntegerNumber) record_statement (describe_as demo_baseline) map_order
    rename_input None [] rename_run.1 rename_run.2 (surjective_pairing _)) as [Hnone|(d & t & st & _ & Hd & _ & _ & Hsafe)].
  - exfalso. vm_compute in Hnone. discriminate Hnone.
  - exists d. split; [apply (Hsafe eq_refl)|exact Hd].
Defined.

(** The target of the running example, confirmed. *)
Definition rebuild_input : UpdateTableInput :=
  mkUpdateTableInput orders_container demo_baseline demo_target demo_renames true.

Definition rebuild_preview : SchemaMutationPreview :=
  from_ok (from_statements []) (preview_update_table (J := IntegerNumber) map_order rebuild_input None).

Definition rebuild_script : str * str * list str :=
  from_ok ([], [], []) (update_table_sql (J := IntegerNumber) reverse_order rebuild_input None).

Lemma mysql_preview_matches_update_witness :
  sp_statements rebuild_preview ≡ₚ rebuild_script.2 /\ length rebuild_script.2 = 7 /\ sp_destructive rebuild_preview = true.
Proof.
  assert (Hp : preview_update_table (J := IntegerNumber) map_order rebuild_input None = Ok rebuild_preview)
    by (apply from_ok_eq; by vm_compute).
  assert (Hs : update_table_sql (J := IntegerNumber) reverse_order rebuild_input None
               = Ok (rebuild_script.1.1, rebuild_script.1.2, rebuild_script.2))
    by (rewrite <-!surjective_pairing; apply from_ok_eq; by vm_compute).
  split; [|vm_compute; split; reflexivity].
  exact (proj1 (mysql_preview_matches_update (J := IntegerNumber) _ _ _ _ _ _ _ _ map_order_perm reverse_order_perm Hp Hs)).
Defined.

(** *** Where the confirmation is missed *)

Definition customer_key : TableConstraintSchema :=
  mkTableConstraintSchema (lit "fk_customer") KindForeignKey [lit "old"] None None None
    (Some (mkTableForeignKeyReference None None (lit "customers") [lit "id"] None None)) None.

Definition with_foreign_key : TableSchema :=
  mkTableSchema demo_basics (ts_columns demo_baseline) [] [customer_key].
Definition without_foreign_key : TableSchema := mkTableSchema demo_basics (ts_columns demo_baseline) [] [].

(** The diff that drops a foreign key is destructive, but its statement has none of
    the markers the confirmation looks for: the key is dropped without asking. *)
Theorem foreign_key_dropped_unconfirmed :
  let input := mkUpdateTableInput orders_container with_foreign_key without_foreign_key [] false in
  (exists d, diff_table_schema_for_update_with_column_renames map_order with_foreign_key without_foreign_key
      (mkTableUpdateDiffOptions true) [] = Ok d /\ is_destructive d = true)
  /\ update_table (J := IntegerNumber) map_order record_statement (describe_as with_foreign_key) input None []
     = (Ok (lit "shop", lit "orders"), [lit "ALTER TABLE `shop`.`orders` DROP FOREIGN KEY `fk_customer`"]).
Proof.
  split; [|by vm_compute].
  exists (from_ok default_diff (diff_table_schema_for_update_with_column_renames map_order with_foreign_key without_foreign_key
    (mkTableUpdateDiffOptions true) [])).
  split; [apply from_ok_eq|]; by vm_compute.
Qed.

(** A default with one quote is an accepted fragment; the comment that follows it is
    then read outside its literal, and the column definition holds two statements. *)
Theorem unbalanced_fragment_splits_the_statement :
  let column := mkTableColumnSchema (lit "note") (lit "int") true (Some (lit "'")) false false false
                  (Some (lit "; DROP TABLE users")) None None None None in
  exists definition, mysql_column_definition (J := IntegerNumber) column = Ok definition
    /\ sql_is_single_statement (alter (lit "t") (lit "ADD COLUMN " ++ definition)) = false.
Proof.
  exists (lit "`note` int NULL DEFAULT ' COMMENT '; DROP TABLE users'"). by vm_compute.
Qed.
