(* ===== verification/PostgresDesign.v ===== *)
(** * The PostgreSQL table designer
    ([src-tauri/src/engine/drivers/postgres/ddl.rs] and the DDL functions of
    [src-tauri/src/engine/drivers/postgres/mod.rs])

    Rendering of columns and constraints, the create, update and drop statements,
    the confirmation of destructive updates and the driver operations that run
    them. *)

From stdpp Require Import base gmap list strings fin_maps.
From Stdlib Require Import ZArith Lia.
From S2P Require Import Prelude Errors Types SqlText TableSql SchemaTypes SchemaDiff SchemaUpdate TableDesign.

Definition postgres_referential_action (action : TableReferentialAction) : str :=
  match action with
  | NoAction => lit "NO ACTION"
  | Restrict => lit "RESTRICT"
  | Cascade => lit "CASCADE"
  | SetNull => lit "SET NULL"
  | SetDefault => lit "SET DEFAULT"
  end.

Definition postgres_parse_referential_action (value : option str) : option TableReferentialAction :=
  match value with
  | None => None
  | Some v =>
    let v := trim v in
    if str_eqb v (lit "a") then Some NoAction
    else if str_eqb v (lit "r") then Some Restrict
    else if str_eqb v (lit "c") then Some Cascade
    else if str_eqb v (lit "n") then Some SetNull
    else if str_eqb v (lit "d") then Some SetDefault
    else None
  end.

Definition postgres_referenced_table_name (schema : option str) (table : str) : IpcResult str :=
  table ← normalized_non_empty_identifier table (lit "引用表");
  match normalized_optional_text schema with
  | Some schema => Ok (quote_pg_identifier schema ++ lit "." ++ quote_pg_identifier table)
  | None => Ok (quote_pg_identifier table)
  end.

Definition postgres_column_definition (column : TableColumnSchema) : IpcResult str :=
  type_name ← normalized_sql_fragment (tc_type_name column) (lit "列类型");
  collation ← normalized_optional_fragment (tc_collation column) (lit "列排序规则");
  let definition := quote_pg_identifier (tc_name column) ++ lit " " ++ type_name
    ++ opt_text collation (fun c => lit " COLLATE " ++ c) in
  let has_default := negb (is_none (normalized_optional_text (tc_default_value column))) in
  let is_identity := tc_is_identity column || negb (is_none (tc_identity column)) in
  value ←
    match tc_generated column with
    | Some generated =>
      if negb (bool_decide (gc_storage generated = Stored)) then
        Err (validation_failed (lit "PostgreSQL 生成列只支持 STORED"))
      else if has_default || is_identity then
        Err (validation_failed (lit "生成列不能同时设置默认值或 identity"))
      else
        expression ← normalized_sql_fragment (gc_expression generated) (lit "生成列表达式");
        Ok (lit " GENERATED ALWAYS AS (" ++ expression ++ lit ") STORED")
    | None =>
      if is_identity then
        if has_default then Err (validation_failed (lit "自增列不能同时设置默认值"))
        else
          Ok (match default ByDefault (option_map io_generation (tc_identity column)) with
              | Always => lit " GENERATED ALWAYS AS IDENTITY"
              | ByDefault => lit " GENERATED BY DEFAULT AS IDENTITY"
              end)
      else
        default_value ← normalized_optional_fragment (tc_default_value column) (lit "默认值");
        Ok (opt_text default_value (fun d => lit " DEFAULT " ++ d))
    end;
  Ok (definition ++ value
      ++ (if tc_is_primary_key column || tc_is_identity column || negb (tc_nullable column)
          then lit " NOT NULL" else [])).

Definition postgres_table_constraint_definition (constraint : TableConstraintSchema) : IpcResult str :=
  name ← normalized_non_empty_identifier (tk_name constraint) (lit "约束名");
  match tk_kind constraint with
  | KindForeignKey =>
    match tk_foreign_key constraint with
    | None => Err (validation_failed (lit "外键约束 '" ++ name ++ lit "' 需要引用表和引用列"))
    | Some fk =>
      referenced_table ← postgres_referenced_table_name (fk_schema_name fk) (fk_table_name fk);
      Ok (lit "CONSTRAINT " ++ quote_pg_identifier name
          ++ lit " FOREIGN KEY (" ++ quote_column_list (tk_columns constraint) quote_pg_identifier
          ++ lit ") REFERENCES " ++ referenced_table
          ++ lit " (" ++ quote_column_list (fk_columns fk) quote_pg_identifier ++ lit ")"
          ++ opt_text (fk_on_update fk) (fun a => lit " ON UPDATE " ++ postgres_referential_action a)
          ++ opt_text (fk_on_delete fk) (fun a => lit " ON DELETE " ++ postgres_referential_action a))
    end
  | KindCheck =>
    expression ← normalized_sql_fragment (default [] (tk_expression constraint)) (lit "CHECK 表达式");
    Ok (lit "CONSTRAINT " ++ quote_pg_identifier name ++ lit " CHECK (" ++ expression ++ lit ")")
  | KindPrimaryKey | KindUnique =>
    Err (validation_failed (lit "该约束类型不应通过 PostgreSQL advanced renderer 渲染"))
  end.

Definition postgres_drop_constraint_statement (table_name : str) (constraint : TableConstraintSchema) : IpcResult str :=
  name ← normalized_non_empty_identifier (tk_name constraint) (lit "约束名");
  Ok (lit "ALTER TABLE " ++ table_name ++ lit " DROP CONSTRAINT " ++ quote_pg_identifier name).

Definition postgres_identity_generation (generation : TableIdentityGeneration) : str :=
  match generation with Always => lit "GENERATED ALWAYS" | ByDefault => lit "GENERATED BY DEFAULT" end.

Definition postgres_identity_generation_keyword (generation : TableIdentityGeneration) : str :=
  match generation with Always => lit "ALWAYS" | ByDefault => lit "BY DEFAULT" end.

Definition postgres_identity_change_statements (table_name : str) (change : ColumnIdentityChange) : IpcResult (list str) :=
  column_name ← normalized_non_empty_identifier (cic_column_name change) (lit "列名");
  let column := quote_pg_identifier column_name in
  match cic_old_identity change, cic_new_identity change with
  | None, Some identity =>
    Ok [alter table_name (lit "ALTER COLUMN " ++ column ++ lit " ADD "
          ++ postgres_identity_generation (io_generation identity) ++ lit " AS IDENTITY")]
  | Some _, None => Ok [alter table_name (lit "ALTER COLUMN " ++ column ++ lit " DROP IDENTITY")]
  | Some old_identity, Some new_identity =>
    if negb (bool_decide (io_generation old_identity = io_generation new_identity)) then
      Ok [alter table_name (lit "ALTER COLUMN " ++ column ++ lit " SET GENERATED "
            ++ postgres_identity_generation_keyword (io_generation new_identity))]
    else Err (validation_failed (lit "暂不支持修改 identity 序列参数 '" ++ cic_column_name change ++ lit "'"))
  | None, None => Ok []
  end.

Definition ensure_schema_matches_postgres_table_parts (schema : TableSchema) (database schema_name table : str)
    : IpcResult unit :=
  if str_eqb (trim (tb_database_name (ts_basics schema))) database
     && str_eqb (trim (tb_schema_name (ts_basics schema))) schema_name
     && str_eqb (trim (tb_table_name (ts_basics schema))) table then Ok tt
  else Err (validation_failed (lit "表结构草稿与当前表不匹配，请刷新后重试")).

Definition is_user_schema_name (schema : str) : bool :=
  let schema := str_lower (trim schema) in
  negb (str_eqb schema (lit "information_schema") || str_eqb schema (lit "pg_catalog"))
  && negb (starts_with (lit "pg_toast") schema)
  && negb (starts_with (lit "pg_temp") schema).

Definition ensure_user_schema_name (schema : str) : IpcResult unit :=
  if is_user_schema_name schema then Ok tt
  else Err (validation_failed (lit "不能在 PostgreSQL 系统或临时 Schema 中创建表")).

Definition ensure_sql_execution_schema_name (schema : str) : IpcResult unit :=
  if is_user_schema_name schema then Ok tt
  else Err (validation_failed (lit "不能在 PostgreSQL 系统或临时 Schema 中执行 SQL")).

Definition create_database_sql (name : str) : IpcResult str :=
  name ← normalized_non_empty_identifier name (lit "数据库名称");
  Ok (lit "CREATE DATABASE " ++ quote_pg_identifier name).

Definition drop_database_sql (name : str) : IpcResult str :=
  name ← normalized_non_empty_identifier name (lit "数据库名称");
  Ok (lit "DROP DATABASE " ++ quote_pg_identifier name).

Definition qualified_table_name (schema table : str) : str :=
  quote_pg_identifier schema ++ lit "." ++ quote_pg_identifier table.

Definition create_table_parts (input : CreateTableInput) (default_database default_schema : str)
    : IpcResult (str * str * str) :=
  let basics := ct_basics input in
  let database := if is_nil (trim (tb_database_name basics)) then default_database else tb_database_name basics in
  let schema := if is_nil (trim (tb_schema_name basics)) then default_schema else tb_schema_name basics in
  database ← normalized_non_empty_identifier database (lit "数据库名称");
  schema ← normalized_non_empty_identifier schema (lit "Schema");
  _ ← ensure_user_schema_name schema;
  table ← normalized_non_empty_identifier (tb_table_name basics) (lit "表名");
  Ok (database, schema, table).

Definition unique_definition (unique : NamedColumnList) : str :=
  opt_text (nl_name unique) (fun name => lit "CONSTRAINT " ++ quote_pg_identifier name ++ lit " ")
  ++ lit "UNIQUE (" ++ quote_column_list (nl_columns unique) quote_pg_identifier ++ lit ")".

Definition create_index_statement (table_name : str) (column_names : gset str) (index : TableIndexSchema) : IpcResult str :=
  name ← normalized_non_empty_identifier (ti_name index) (lit "索引名");
  columns ← validate_column_refs (ti_columns index) column_names (lit "索引列");
  method ← normalized_optional_fragment (ti_method index) (lit "索引方法");
  Ok (lit "CREATE " ++ (if ti_is_unique index then lit "UNIQUE " else []) ++ lit "INDEX "
      ++ quote_pg_identifier name ++ lit " ON " ++ table_name
      ++ lit " USING " ++ default (lit "btree") method
      ++ lit " (" ++ quote_column_list columns quote_pg_identifier ++ lit ")").

Section postgres.
Context {J : JsonNumber}.

(** The comment statement of a column that has a comment. *)
Definition column_comment_statement (table_name : str) (column : TableColumnSchema) : IpcResult (list str) :=
  match normalized_optional_text (tc_comment column) with
  | Some comment =>
    literal ← string_literal comment;
    Ok [lit "COMMENT ON COLUMN " ++ table_name ++ lit "." ++ quote_pg_identifier (tc_name column) ++ lit " IS " ++ literal]
  | None => Ok []
  end.

Definition create_table_statements (input : CreateTableInput) (default_database default_schema : str)
    : IpcResult (list str) :=
  parts ← create_table_parts input default_database default_schema;
  let table_name := qualified_table_name parts.1.2 parts.2 in
  schema ← normalize_create_table_input input;
  columns ← try_map postgres_column_definition (nt_columns schema);
  constraints ← try_map postgres_table_constraint_definition (nt_table_constraints schema);
  let definitions := columns
    ++ (if is_nil (nt_primary_key_columns schema) then []
        else [lit "PRIMARY KEY (" ++ quote_column_list (nt_primary_key_columns schema) quote_pg_identifier ++ lit ")"])
    ++ map unique_definition (nt_unique_constraints schema) ++ constraints in
  let body := join (lit "," ++ NL) (map (fun definition => lit "  " ++ definition) definitions) in
  partition ← match tb_partition (ct_basics input) with
              | Some options => normalized_optional_fragment (tp_raw_clause options) (lit "分区子句")
              | None => Ok None
              end;
  let create_statement := lit "CREATE TABLE " ++ table_name ++ lit " (" ++ NL ++ body ++ NL ++ lit ")"
    ++ opt_text partition (fun p => lit " " ++ p) in
  comment ← match normalized_optional_text (tb_comment (ct_basics input)) with
            | Some comment =>
              literal ← string_literal comment;
              Ok [lit "COMMENT ON TABLE " ++ table_name ++ lit " IS " ++ literal]
            | None => Ok []
            end;
  column_comments ← try_map (column_comment_statement table_name) (nt_columns schema);
  indexes ← try_map (create_index_statement table_name (nt_column_names schema)) (nt_indexes schema);
  Ok (create_statement :: comment ++ concat column_comments ++ indexes).

Definition update_table_parts (input : UpdateTableInput) (default_database default_schema : str)
    : IpcResult (str * str * str) :=
  let container := ut_container input in
  if negb (bool_decide (cr_kind container = Table)) then
    Err (resource_not_found (lit "Selected container is not a table"))
  else
    let table := default (tb_table_name (ts_basics (ut_target input)))
      (or_else (cr_table container) (cr_object_name container)) in
    database ← normalized_non_empty_identifier (default default_database (filled (cr_database container))) (lit "数据库名称");
    schema ← normalized_non_empty_identifier (default default_schema (filled (cr_schema container))) (lit "Schema");
    _ ← ensure_user_schema_name schema;
    table ← normalized_non_empty_identifier table (lit "表名");
    _ ← ensure_schema_matches_postgres_table_parts (ut_baseline input) database schema table;
    _ ← ensure_schema_matches_postgres_table_parts (ut_target input) database schema table;
    Ok (database, schema, table).

(** [COMMENT ... IS literal], where no comment is [NULL]. *)
Definition comment_literal (comment : option str) : IpcResult str :=
  match comment with Some comment => string_literal comment | None => Ok (lit "NULL") end.

Definition add_column_statements (table_name : str) (column : TableColumnSchema) : IpcResult (list str) :=
  definition ← postgres_column_definition column;
  comment ← column_comment_statement table_name column;
  Ok (alter table_name (lit "ADD COLUMN " ++ definition) :: comment).

(** [ALTER TABLE t ALTER COLUMN c action] *)
Definition alter_column (table_name column_name action : str) : str :=
  alter table_name (lit "ALTER COLUMN " ++ quote_pg_identifier column_name ++ lit " " ++ action).

Definition type_statement (table_name : str) (change : ColumnTypeChange) : IpcResult str :=
  column_name ← normalized_non_empty_identifier (ctc_column_name change) (lit "列名");
  type_name ← normalized_sql_fragment (ctc_type_name change) (lit "列类型");
  Ok (alter_column table_name column_name (lit "TYPE " ++ type_name)).

Definition default_statement (table_name : str) (change : ColumnDefaultChange) : IpcResult str :=
  column_name ← normalized_non_empty_identifier (cdc_column_name change) (lit "列名");
  default_value ← normalized_optional_fragment (cdc_default_value change) (lit "默认值");
  Ok (alter_column table_name column_name
    (match default_value with Some d => lit "SET DEFAULT " ++ d | None => lit "DROP DEFAULT" end)).

Definition nullability_statement (table_name : str) (change : ColumnNullabilityChange) : IpcResult str :=
  column_name ← normalized_non_empty_identifier (cnc_column_name change) (lit "列名");
  Ok (alter_column table_name column_name (if cnc_nullable change then lit "DROP NOT NULL" else lit "SET NOT NULL")).

Definition comment_statement (table_name : str) (change : ColumnCommentChange) : IpcResult str :=
  literal ← comment_literal (ccc_comment change);
  Ok (lit "COMMENT ON COLUMN " ++ table_name ++ lit "." ++ quote_pg_identifier (ccc_column_name change)
      ++ lit " IS " ++ literal).

Definition primary_key_statements (table_name : str) (change : option PrimaryKeyChange) : IpcResult (list str) :=
  match change with
  | None => Ok []
  | Some change =>
    drop_ ← (if is_nil (pkc_old_columns change) then Ok []
             else match normalized_optional_text (pkc_old_constraint_name change) with
                  | None => Err (validation_failed (lit "无法确定当前 PostgreSQL 主键约束名，请刷新表结构后重试"))
                  | Some name => Ok [alter table_name (lit "DROP CONSTRAINT " ++ quote_pg_identifier name)]
                  end);
    Ok (drop_ ++ (if is_nil (pkc_new_columns change) then []
                  else [alter table_name (lit "ADD PRIMARY KEY ("
                         ++ quote_column_list (pkc_new_columns change) quote_pg_identifier ++ lit ")")]))
  end.

Definition drop_index_statement (schema : str) (index : TableIndexSchema) : IpcResult str :=
  name ← normalized_non_empty_identifier (ti_name index) (lit "索引名");
  Ok (lit "DROP INDEX " ++ quote_pg_identifier schema ++ lit "." ++ quote_pg_identifier name).

Definition drop_column_statement (table_name : str) (column : TableColumnSchema) : IpcResult str :=
  name ← normalized_non_empty_identifier (tc_name column) (lit "列名");
  Ok (alter table_name (lit "DROP COLUMN " ++ quote_pg_identifier name)).

(** The statements of a diff, in the order of the source. *)
Definition diff_statements (schema table_name : str) (target_columns : list TableColumnSchema)
    (diff : TableSchemaUpdateDiff) : IpcResult (list str) :=
  let column_names : gset str := list_to_set (map tc_name target_columns) in
  comment ← match table_comment_change diff with
            | Some change =>
              literal ← comment_literal (cc_comment change);
              Ok [lit "COMMENT ON TABLE " ++ table_name ++ lit " IS " ++ literal]
            | None => Ok []
            end;
  added ← try_map (add_column_statements table_name) (added_columns diff);
  let renames := map (fun rename =>
    alter table_name (lit "RENAME COLUMN " ++ quote_pg_identifier (crc_old_name rename)
      ++ lit " TO " ++ quote_pg_identifier (crc_new_name rename))) (renamed_columns diff) in
  types ← try_map (type_statement table_name) (column_type_changes diff);
  defaults ← try_map (default_statement table_name) (column_default_changes diff);
  nullability ← try_map (nullability_statement table_name) (column_nullability_changes diff);
  comments ← try_map (comment_statement table_name) (column_comment_changes diff);
  _ ← match generated_column_changes diff with
      | change :: _ =>
        Err (validation_failed (lit "暂不支持修改已有 PostgreSQL 生成列 '" ++ cgc_column_name change ++ lit "'"))
      | [] => Ok tt
      end;
  identity ← try_map (postgres_identity_change_statements table_name) (identity_changes diff);
  primary_key ← primary_key_statements table_name (primary_key_change diff);
  dropped_constraints ← try_map (postgres_drop_constraint_statement table_name) (dropped_constraints diff);
  added_constraints ← try_map (fun c => d ← postgres_table_constraint_definition c; Ok (alter table_name (lit "ADD " ++ d)))
    (added_constraints diff);
  dropped_indexes ← try_map (drop_index_statement schema) (dropped_indexes diff);
  dropped_columns ← try_map (drop_column_statement table_name) (dropped_columns diff);
  added_indexes ← try_map (create_index_statement table_name column_names) (added_indexes diff);
  Ok (comment ++ concat added ++ renames ++ types ++ defaults ++ nullability ++ comments ++ concat identity
      ++ primary_key ++ dropped_constraints ++ added_constraints ++ dropped_indexes ++ dropped_columns ++ added_indexes).

Section update.
(** The order in which a hash map yields its entries. *)
Context (hash_iter : forall A, gmap str A -> list (str * A)).

Definition update_table_statements (input : UpdateTableInput) (default_database default_schema : str)
    : IpcResult (str * str * str * list str) :=
  parts ← update_table_parts input default_database default_schema;
  let table_name := qualified_table_name parts.1.2 parts.2 in
  diff ← diff_table_schema_for_update_with_column_renames hash_iter (ut_baseline input) (ut_target input)
    (mkTableUpdateDiffOptions true) (ut_column_renames input);
  if is_empty diff then Err (validation_failed (lit "没有可执行的表结构变更"))
  else
    statements ← diff_statements parts.1.2 table_name (ts_columns (ut_target input)) diff;
    Ok (parts, statements).

Definition table_update_statements_are_destructive (statements : list str) : bool :=
  existsb (fun statement =>
    str_contains (lit " DROP COLUMN ") statement || str_contains (lit " TYPE ") statement
    || str_contains (lit " DROP CONSTRAINT ") statement || str_contains (lit " ADD PRIMARY KEY ") statement)
    statements.

Definition ensure_destructive_table_update_confirmed (input : UpdateTableInput) (statements : list str) : IpcResult unit :=
  if table_update_statements_are_destructive statements && negb (ut_confirm_destructive input)
  then Err (validation_failed (lit "破坏性表结构变更需要确认后才能执行"))
  else Ok tt.

Definition mark_destructive_table_update_preview (preview : SchemaMutationPreview) : SchemaMutationPreview :=
  let any f := existsb f (sp_statements preview) in
  mkSchemaMutationPreview (sp_statements preview)
    (sp_warnings preview
     ++ (if any (str_contains (lit " DROP COLUMN ")) then [lit "将删除已有列；该操作会永久删除该列中的数据"] else [])
     ++ (if any (str_contains (lit " TYPE "))
         then [lit "将修改列类型；数据库可能拒绝转换，转换也可能造成数据截断"] else [])
     ++ (if any (fun s => str_contains (lit " DROP CONSTRAINT ") s || str_contains (lit " ADD PRIMARY KEY ") s)
         then [lit "将修改主键；该操作可能影响依赖主键的查询、索引和应用逻辑"] else []))
    (if table_update_statements_are_destructive (sp_statements preview) then true else sp_destructive preview).

Definition drop_table_sql (input : DropTableInput) (default_database default_schema : str)
    : IpcResult (str * str * str * str) :=
  let container := dt_container input in
  if negb (bool_decide (cr_kind container = Table)) then
    Err (validation_failed (lit "Selected container is not a table"))
  else
    database ← normalized_non_empty_identifier (default default_database (filled (cr_database container))) (lit "数据库名称");
    schema ← normalized_non_empty_identifier (default default_schema (filled (cr_schema container))) (lit "Schema");
    _ ← ensure_user_schema_name schema;
    table ← normalized_non_empty_identifier (default [] (or_else (cr_table container) (cr_object_name container))) (lit "表名");
    Ok (database, schema, table, lit "DROP TABLE " ++ qualified_table_name schema table).

Definition preview_create_table (input : CreateTableInput) (default_database default_schema : str)
    : IpcResult SchemaMutationPreview :=
  statements ← create_table_statements input default_database default_schema;
  Ok (from_statements statements).

Definition preview_update_table (input : UpdateTableInput) (default_database default_schema : str)
    : IpcResult SchemaMutationPreview :=
  parts ← update_table_statements input default_database default_schema;
  let preview := mark_destructive_table_update_preview (from_statements parts.2) in
  Ok (mkSchemaMutationPreview (sp_statements preview) (sp_warnings preview ++ not_null_warnings input) (sp_destructive preview)).

Definition preview_drop_table (input : DropTableInput) (default_database default_schema : str)
    : IpcResult SchemaMutationPreview :=
  parts ← drop_table_sql input default_database default_schema;
  Ok (mark_drop_table_preview (from_statements [parts.2])).

(** *** The operations that reach the server *)

Context {DB : Type} (execute : str -> str -> ST DB IpcError unit).
Context (pool_for_database : str -> ST DB IpcError unit).
Context (describe_table : ContainerRef -> ST DB IpcError TableSchema).

Definition create_table (input : CreateTableInput) (default_database default_schema : str)
    : ST DB IpcError (str * str * str) :=
  statements ← st_lift (create_table_statements input default_database default_schema);
  parts ← st_lift (create_table_parts input default_database default_schema);
  _ ← pool_for_database parts.1.1;
  _ ← run_statements (execute parts.1.1) statements;
  st_lift (Ok parts).

Definition update_table (input : UpdateTableInput) (default_database default_schema : str)
    : ST DB IpcError (str * str * str) :=
  current ← describe_table (ut_container input);
  if negb (bool_decide (current = ut_baseline input)) then
    st_lift (Err (resource_conflict (lit "表结构已变化，请刷新后重试")))
  else
    parts ← st_lift (update_table_statements input default_database default_schema);
    _ ← st_lift (ensure_destructive_table_update_confirmed input parts.2);
    _ ← pool_for_database parts.1.1.1;
    _ ← run_statements (execute parts.1.1.1) parts.2;
    st_lift (Ok parts.1).

Definition drop_table (input : DropTableInput) (default_database default_schema : str)
    : ST DB IpcError (str * str * str) :=
  _ ← st_lift (ensure_destructive_drop_table_confirmed input);
  parts ← st_lift (drop_table_sql input default_database default_schema);
  _ ← pool_for_database parts.1.1.1;
  _ ← execute parts.1.1.1 parts.2;
  st_lift (Ok parts.1).
End update.
End postgres.

(** ** What an unconfirmed update can do *)

Lemma alter_column_contains p x r t c rest : lit " " ++ x = p ++ r ->
  str_contains p (alter_column t c (x ++ rest)) = true.
Proof.
  intros Hx. unfold alter_column, alter. rewrite (app_assoc (lit " ") x), Hx, <-app_assoc, !app_assoc.
  rewrite <-(app_assoc _ p), <-(app_assoc _ (p ++ r)), <-(app_assoc p). apply contains_middle.
Qed.

Definition destructive_marker (s : str) : bool :=
  str_contains (lit " DROP COLUMN ") s || str_contains (lit " TYPE ") s
  || str_contains (lit " DROP CONSTRAINT ") s || str_contains (lit " ADD PRIMARY KEY ") s.

Lemma postgres_drop_column_marked t c s : drop_column_statement t c = Ok s -> destructive_marker s = true.
Proof.
  unfold drop_column_statement, destructive_marker. intros H. bind_inv. subst.
  by rewrite (alter_contains (lit " DROP COLUMN ") (lit "DROP COLUMN ") []).
Qed.

Lemma postgres_type_marked t c s : type_statement t c = Ok s -> destructive_marker s = true.
Proof.
  unfold type_statement, destructive_marker. intros H. bind_inv. subst.
  by rewrite (alter_column_contains (lit " TYPE ") (lit "TYPE ") []), orb_true_r.
Qed.

Lemma postgres_drop_constraint_marked t c s : postgres_drop_constraint_statement t c = Ok s -> destructive_marker s = true.
Proof.
  unfold postgres_drop_constraint_statement, destructive_marker. intros H. bind_inv. subst.
  by rewrite (app_assoc (lit "ALTER TABLE ")), (contains_middle (lit " DROP CONSTRAINT ")), orb_true_r.
Qed.

Lemma postgres_primary_key_marked t change part : primary_key_statements t (Some change) = Ok part ->
  pkc_old_columns change <> pkc_new_columns change -> exists s, s ∈ part /\ destructive_marker s = true.
Proof.
  unfold primary_key_statements, destructive_marker. intros H Hne. destruct (pkc_old_columns change) as [|o os]; cbn [is_nil] in H.
  - cbn [mbind Result_bind] in H. apply Ok_inj in H. subst. destruct (pkc_new_columns change) as [|n ns]; [done|]. cbn [is_nil app].
    eexists. split; [by apply list_elem_of_singleton|].
    by rewrite (alter_contains (lit " ADD PRIMARY KEY ") (lit "ADD PRIMARY KEY (") (lit "(")), orb_true_r.
  - destruct (normalized_optional_text _) as [name|]; [|discriminate H]. cbn [mbind Result_bind] in H. apply Ok_inj in H. subst.
    eexists. split; [cbn [app]; left|]. by rewrite (alter_contains (lit " DROP CONSTRAINT ") (lit "DROP CONSTRAINT ") []), orb_true_r.
Qed.

Section gate.
Context {J : JsonNumber}.

(** The parts of a rendered diff. *)
Lemma postgres_diff_statements_ok schema t cols d statements :
  diff_statements schema t cols d = Ok statements ->
  exists comment added types defaults nullability comments identity pk dcon acon didx dcol aidx,
  match table_comment_change d with
  | Some change =>
    literal ← comment_literal (cc_comment change); Ok [lit "COMMENT ON TABLE " ++ t ++ lit " IS " ++ literal]
  | None => Ok []
  end = Ok comment
  /\ try_map (add_column_statements t) (added_columns d) = Ok added
  /\ try_map (type_statement t) (column_type_changes d) = Ok types
  /\ try_map (default_statement t) (column_default_changes d) = Ok defaults
  /\ try_map (nullability_statement t) (column_nullability_changes d) = Ok nullability
  /\ try_map (comment_statement t) (column_comment_changes d) = Ok comments
  /\ generated_column_changes d = []
  /\ try_map (postgres_identity_change_statements t) (identity_changes d) = Ok identity
  /\ primary_key_statements t (primary_key_change d) = Ok pk
  /\ try_map (postgres_drop_constraint_statement t) (dropped_constraints d) = Ok dcon
  /\ try_map (fun c => x ← postgres_table_constraint_definition c; Ok (alter t (lit "ADD " ++ x))) (added_constraints d) = Ok acon
  /\ try_map (drop_index_statement schema) (dropped_indexes d) = Ok didx
  /\ try_map (drop_column_statement t) (dropped_columns d) = Ok dcol
  /\ try_map (create_index_statement t (list_to_set (map tc_name cols))) (added_indexes d) = Ok aidx
  /\ statements = comment ++ concat added
       ++ map (fun rename => alter t (lit "RENAME COLUMN " ++ quote_pg_identifier (crc_old_name rename)
            ++ lit " TO " ++ quote_pg_identifier (crc_new_name rename))) (renamed_columns d)
       ++ types ++ defaults ++ nullability ++ comments ++ concat identity ++ pk ++ dcon ++ acon ++ didx ++ dcol ++ aidx.
Proof.
  unfold diff_statements. intros H. cbv zeta in H.
  destruct (match table_comment_change d with Some _ => _ | None => _ end) as [s1|]; [|discriminate H]. cbn [mbind Result_bind] in H.
  destruct (try_map _ (added_columns d)) as [s2|]; [|discriminate H]. cbn [mbind Result_bind] in H.
  destruct (try_map _ (column_type_changes d)) as [s3|]; [|discriminate H]. cbn [mbind Result_bind] in H.
  destruct (try_map _ (column_default_changes d)) as [s4|]; [|discriminate H]. cbn [mbind Result_bind] in H.
  destruct (try_map _ (column_nullability_changes d)) as [s5|]; [|discriminate H]. cbn [mbind Result_bind] in H.
  destruct (try_map _ (column_comment_changes d)) as [s6|]; [|discriminate H]. cbn [mbind Result_bind] in H.
  destruct (generated_column_changes d) as [|g gs]; [|discriminate H]. cbn [mbind Result_bind] in H.
  destruct (try_map _ (identity_changes d)) as [s7|]; [|discriminate H]. cbn [mbind Result_bind] in H.
  destruct (primary_key_statements t _) as [s8|]; [|discriminate H]. cbn [mbind Result_bind] in H.
  destruct (try_map _ (dropped_constraints d)) as [s9|]; [|discriminate H]. cbn [mbind Result_bind] in H.
  destruct (try_map _ (added_constraints d)) as [s10|]; [|discriminate H]. cbn [mbind Result_bind] in H.
  destruct (try_map _ (dropped_indexes d)) as [s11|]; [|discriminate H]. cbn [mbind Result_bind] in H.
  destruct (try_map _ (dropped_columns d)) as [s12|]; [|discriminate H]. cbn [mbind Result_bind] in H.
  destruct (try_map _ (added_indexes d)) as [s13|]; [|discriminate H]. cbn [mbind Result_bind] in H.
  apply Ok_inj in H. exists s1, s2, s3, s4, s5, s6, s7, s8, s9, s10, s11, s12, s13. repeat split; done.
Qed.

Lemma postgres_diff_statements_gate schema t cols d statements :
  diff_statements schema t cols d = Ok statements ->
  (forall change, primary_key_change d = Some change -> pkc_old_columns change <> pkc_new_columns change) ->
  table_update_statements_are_destructive statements = false ->
  dropped_columns d = [] /\ column_type_changes d = [] /\ dropped_constraints d = []
  /\ generated_column_changes d = [] /\ primary_key_change d = None.
Proof.
  intros H Hpk Hsafe.
  apply postgres_diff_statements_ok in H as (s1 & s2 & s3 & s4 & s5 & s6 & s7 & s8 & s9 & s10 & s11 & s12 & s13 & _ & _ & Hty & _ & _ & _
    & Hgen & _ & Hk & Hdc & _ & _ & Hdl & _ & ->).
  split; [|split; [|split; [|split; [done|]]]].
  - apply (unmarked_part _ _ _ _ _ Hsafe (postgres_drop_column_marked t) Hdl). intros s Hs. rewrite !elem_of_app. auto 20.
  - apply (unmarked_part _ _ _ _ _ Hsafe (postgres_type_marked t) Hty). intros s Hs. rewrite !elem_of_app. auto 20.
  - apply (unmarked_part _ _ _ _ _ Hsafe (postgres_drop_constraint_marked t) Hdc). intros s Hs. rewrite !elem_of_app. auto 20.
  - destruct (primary_key_change d) as [change|]; [|done]. exfalso.
    destruct (postgres_primary_key_marked _ _ _ Hk (Hpk _ eq_refl)) as (s & Hs & Hc).
    assert (Hf : destructive_marker s = false); [|congruence].
    apply (unmarked_elem _ _ s Hsafe). rewrite !elem_of_app. auto 20.
Qed.

Lemma postgres_diff_statements_order schema t cols d1 d2 s1 s2 :
  same_but_order d1 d2 -> diff_statements schema t cols d1 = Ok s1 -> diff_statements schema t cols d2 = Ok s2 -> s1 ≡ₚ s2.
Proof.
  intros [Hh Hc Ha Hi Hdc Hac] H1 H2.
  injection Hh as Hh1 _ _ _ _ Hh6 Hh7. injection Hc as Hc1 Hc2 Hc3 Hc4 Hc5 Hc6 _ Hc8. injection Hi as Hi1 Hi2.
  apply postgres_diff_statements_ok in H1 as (a1 & a2 & a3 & a4 & a5 & a6 & a7 & a8 & a9 & a10 & a11 & a12 & a13 &
    A1 & A2 & A3 & A4 & A5 & A6 & _ & A7 & A8 & A9 & A10 & A11 & A12 & A13 & ->).
  apply postgres_diff_statements_ok in H2 as (b1 & b2 & b3 & b4 & b5 & b6 & b7 & b8 & b9 & b10 & b11 & b12 & b13 &
    B1 & B2 & B3 & B4 & B5 & B6 & _ & B7 & B8 & B9 & B10 & B11 & B12 & B13 & ->).
  rewrite Hh1, B1 in A1. rewrite Ha, B2 in A2. rewrite Hc2, B3 in A3. rewrite Hc3, B4 in A4. rewrite Hc4, B5 in A5.
  rewrite Hc8, B6 in A6. rewrite Hc6, B7 in A7. rewrite Hh6, B8 in A8. rewrite Hi1, B11 in A11. rewrite Hc1, B12 in A12.
  rewrite Hi2, B13 in A13. apply Ok_inj in A1, A2, A3, A4, A5, A6, A7, A8, A11, A12, A13. subst. rewrite Hh7.
  by rewrite (try_map_perm _ _ _ _ _ Hdc A9 B9), (try_map_perm _ _ _ _ _ Hac A10 B10).
Qed.
End gate.

Section theorems.
Context {J : JsonNumber}.
Context {DB : Type} (execute : str -> str -> ST DB IpcError unit).
Context (pool_for_database : str -> ST DB IpcError unit).
Context (describe_table : ContainerRef -> ST DB IpcError TableSchema).
Implicit Types (hash_iter : forall A, gmap str A -> list (str * A)).

Lemma update_table_statements_ok hash_iter input default_database default_schema parts statements :
  update_table_statements hash_iter input default_database default_schema = Ok (parts, statements) ->
  exists d, diff_table_schema_for_update_with_column_renames hash_iter (ut_baseline input) (ut_target input)
      (mkTableUpdateDiffOptions true) (ut_column_renames input) = Ok d
    /\ is_empty d = false
    /\ update_table_parts input default_database default_schema = Ok parts
    /\ diff_statements parts.1.2 (qualified_table_name parts.1.2 parts.2) (ts_columns (ut_target input)) d = Ok statements.
Proof.
  unfold update_table_statements. intros H.
  destruct (update_table_parts _ _ _) as [parts'|]; [|discriminate H]. cbn [mbind Result_bind] in H.
  destruct (diff_table_schema_for_update_with_column_renames _ _ _ _ _) as [d|]; [|discriminate H]. cbn [mbind Result_bind] in H.
  destruct (is_empty d) eqn:Ee; [discriminate H|].
  destruct (diff_statements _ _ _ _) as [st|] eqn:Es; [|discriminate H]. cbn [mbind Result_bind] in H.
  apply Ok_inj in H. injection H as <- <-. eauto.
Qed.

(** A part of an update that may touch the server leaves it as it was or runs. *)
Lemma update_parts_user_schema input default_database default_schema parts :
  update_table_parts input default_database default_schema = Ok parts -> is_user_schema_name parts.1.2 = true.
Proof.
  unfold update_table_parts. intros H. case_bool_decide; [|discriminate H]. cbn [negb] in H. bind_inv. subst parts. cbn [fst snd].
  unfold ensure_user_schema_name in *.
  repeat match goal with E : (if is_user_schema_name ?s then _ else _) = Ok _ |- _ => destruct (is_user_schema_name s); [done|discriminate E] end.
Qed.

(** What a PostgreSQL table update may run. It reaches the server only when the
    table, read again, is exactly the table the user started from and lies in a user
    schema, and it runs the statements of the computed diff in order up to the first
    failure, on the database of the table. Without a confirmation those statements
    drop no column and no constraint, change no column's type or generation
    expression and leave the primary key alone. *)
Theorem postgres_update_is_guarded hash_iter input default_database default_schema s r s' :
  (forall A (m : gmap str A), hash_iter A m ≡ₚ map_to_list m) ->
  update_table hash_iter execute pool_for_database describe_table input default_database default_schema s = (r, s') ->
  let s1 := (describe_table (ut_container input) s).2 in
  s' = s1
  \/ exists d parts statements,
       (describe_table (ut_container input) s).1 = Ok (ut_baseline input)
       /\ is_user_schema_name parts.1.2 = true
       /\ diff_table_schema_for_update_with_column_renames hash_iter (ut_baseline input) (ut_target input)
            (mkTableUpdateDiffOptions true) (ut_column_renames input) = Ok d
       /\ diff_statements parts.1.2 (qualified_table_name parts.1.2 parts.2) (ts_columns (ut_target input)) d = Ok statements
       /\ (let s2 := (pool_for_database parts.1.1 s1).2 in
           s' = s2
           \/ (is_ok r = true /\ ran (execute parts.1.1) statements s2 s')
           \/ exists done_ failed rest e s3, statements = done_ ++ failed :: rest /\ r = Err e
              /\ ran (execute parts.1.1) done_ s2 s3 /\ execute parts.1.1 failed s3 = (Err e, s'))
       /\ (ut_confirm_destructive input = false ->
           (forall c, c ∈ ts_columns (ut_baseline input) -> exists t, t ∈ ts_columns (ut_target input)
              /\ tc_name t = renamed d (tc_name c)
              /\ normalized_sql_type (tc_type_name t) = normalized_sql_type (tc_type_name c))
           /\ generated_column_changes d = []
           /\ (exists bpk tpk, primary_key_definition (ut_baseline input) = Ok bpk
               /\ primary_key_definition (ut_target input) = Ok tpk /\ pkd_columns bpk = pkd_columns tpk)
           /\ exists bcon tcon,
                schema_non_primary_constraints_by_name (ts_constraints (ut_baseline input)) = Ok bcon
                /\ schema_non_primary_constraints_by_name (ts_constraints (ut_target input)) = Ok tcon
                /\ bcon ⊆ tcon).
Proof.
  intros P. unfold update_table. unfold mbind at 1, ST_bind at 1. intros H. cbv zeta.
  destruct (describe_table (ut_container input) s) as [[current|e] s1]; cbn [fst snd]; [|left; congruence].
  case_bool_decide as Hcur; [cbn [negb] in H; subst current|left; unfold st_lift in H; cbn in H; congruence].
  unfold mbind, ST_bind, st_lift in H. cbn [fst snd] in H.
  destruct (update_table_statements _ _ _ _) as [[parts statements]|] eqn:Esql; [|left; congruence]. cbn [fst snd] in H.
  apply update_table_statements_ok in Esql as (d & Hd & _ & Hparts & Hst). apply update_parts_user_schema in Hparts.
  destruct (ensure_destructive_table_update_confirmed input statements) eqn:Egate; [|left; congruence].
  right. exists d, parts, statements. do 4 (split; [done|]). split.
  - destruct (pool_for_database parts.1.1 s1) as [[[]|e] s2]; cbn [snd]; [right|left; congruence].
    destruct (run_statements (execute parts.1.1) statements s2) as [r0 s3] eqn:Er.
    destruct (run_statements_prefix _ _ _ _ _ Er) as [[-> Hran]|(dn & f & rest & e & s4 & -> & -> & Hran & Hf)].
    + injection H as <- <-. by left.
    + injection H as <- <-. right. eauto 10.
  - intros Hconf. unfold ensure_destructive_table_update_confirmed in Egate. rewrite Hconf, andb_true_r in Egate.
    destruct (table_update_statements_are_destructive statements) eqn:Esafe; [discriminate Egate|].
    destruct (diff_primary_key _ _ _ _ _ _ Hd) as [Hpk (bpk & tpk & Hb & Ht & Heq)].
    destruct (postgres_diff_statements_gate _ _ _ _ _ Hst Hpk Esafe) as (Hdr & Hty & Hdc & Hg & Hp).
    split; [by eapply undropped_columns_continue|]. split; [done|].
    split; [exists bpk, tpk; auto|]. by eapply undropped_constraints_continue.
Qed.

(** What the preview shows is what runs: the previewed and the executed script
    are reorderings of each other whatever order the hash maps of the two calls
    yield the constraints in, and the update asks for a confirmation exactly when
    the preview was marked destructive. *)
Theorem postgres_preview_matches_update (h1 h2 : forall A, gmap str A -> list (str * A)) input default_database
    default_schema preview parts statements :
  (forall A (m : gmap str A), h1 A m ≡ₚ map_to_list m) -> (forall A (m : gmap str A), h2 A m ≡ₚ map_to_list m) ->
  preview_update_table h1 input default_database default_schema = Ok preview ->
  update_table_statements h2 input default_database default_schema = Ok (parts, statements) ->
  sp_statements preview ≡ₚ statements
  /\ sp_destructive preview = table_update_statements_are_destructive statements.
Proof.
  intros P1 P2 Hp Hs. unfold preview_update_table in Hp.
  destruct (update_table_statements h1 _ _ _) as [[p1 st1]|] eqn:E1; [|discriminate Hp].
  cbn [mbind Result_bind fst snd] in Hp. apply Ok_inj in Hp. subst preview. cbn [sp_statements sp_destructive].
  apply update_table_statements_ok in E1 as (d1 & Hd1 & _ & Hp1 & Hst1).
  apply update_table_statements_ok in Hs as (d2 & Hd2 & _ & Hp2 & Hst2).
  rewrite Hp1 in Hp2. apply Ok_inj in Hp2. subst p1.
  pose proof (diff_orders _ _ _ _ _ _ _ _ P1 P2 Hd1 Hd2) as Hso.
  assert (Hperm : st1 ≡ₚ statements) by (by eapply postgres_diff_statements_order). split; [done|].
  unfold mark_destructive_table_update_preview, from_statements. cbn [sp_statements sp_destructive].
  unfold table_update_statements_are_destructive. rewrite (existsb_perm _ _ _ Hperm). by destruct (existsb _ statements).
Qed.
End theorems.

(** ** Examples *)

Definition record_on (_ : str) : str -> ST (list str) IpcError unit := record_statement.
Definition any_pool (_ : str) : ST (list str) IpcError unit := mret tt.

Definition pg_rename_input : UpdateTableInput :=
  mkUpdateTableInput orders_container demo_baseline renamed_target demo_renames false.

Definition pg_rename_run : Result IpcError (str * str * str) * list str :=
  update_table (J := IntegerNumber) map_order record_on any_pool (describe_as demo_baseline) pg_rename_input (lit "shop") (lit "public") [].

(** SQL text with its double quotes written as backticks. *)
Definition pg_text (s : string) : str := replace_char c_backtick [c_dquote] (lit s).

Lemma postgres_update_is_guarded_witness :
  pg_rename_run.2 = [pg_text "ALTER TABLE `public`.`orders` RENAME COLUMN `note` TO `remark`";
                     pg_text "DROP INDEX `public`.`by_note`";
                     pg_text "CREATE INDEX `by_note` ON `public`.`orders` USING btree (`remark`)"]
  /\ exists d, generated_column_changes d = []
     /\ diff_table_schema_for_update_with_column_renames map_order demo_baseline renamed_target
          (mkTableUpdateDiffOptions true) demo_renames = Ok d.
Proof.
  split; [by vm_compute|].
  destruct (postgres_update_is_guarded (J := IntegerNumber) record_on any_pool (describe_as demo_baseline) map_order
    pg_rename_input (lit "shop") (lit "public") [] pg_rename_run.1 pg_rename_run.2 map_order_perm (surjective_pairing _))
    as [Hnone|(d & t & st & _ & _ & Hd & _ & _ & Hsafe)].
  - exfalso. vm_compute in Hnone. discriminate Hnone.
  - exists d. split; [apply (Hsafe eq_refl)|exact Hd].
Defined.

Definition pg_rebuild_input : UpdateTableInput :=
  mkUpdateTableInput orders_container demo_baseline demo_target demo_renames true.

Definition pg_rebuild_preview : SchemaMutationPreview :=
  from_ok (from_statements []) (preview_update_table (J := IntegerNumber) map_order pg_rebuild_input (lit "shop") (lit "public")).

Definition pg_rebuild_script : str * str * str * list str :=
  from_ok ([], [], [], []) (update_table_statements (J := IntegerNumber) reverse_order pg_rebuild_input (lit "shop") (lit "public")).

Lemma postgres_preview_matches_update_witness :
  sp_statements pg_rebuild_preview ≡ₚ pg_rebuild_script.2 /\ length pg_rebuild_script.2 = 8
  /\ sp_destructive pg_rebuild_preview = true.
Proof.
  assert (Hp : preview_update_table (J := IntegerNumber) map_order pg_rebuild_input (lit "shop") (lit "public") = Ok pg_rebuild_preview)
    by (apply from_ok_eq; by vm_compute).
  assert (Hs : update_table_statements (J := IntegerNumber) reverse_order pg_rebuild_input (lit "shop") (lit "public")
               = Ok (pg_rebuild_script.1, pg_rebuild_script.2))
    by (rewrite <-surjective_pairing; apply from_ok_eq; by vm_compute).
  split; [|vm_compute; split; reflexivity].
  exact (proj1 (postgres_preview_matches_update (J := IntegerNumber) _ _ _ _ _ _ _ _ map_order_perm reverse_order_perm Hp Hs)).
Defined.

(** *** Where the confirmation is missed *)

Definition with_columns (columns : list TableColumnSchema) : TableSchema := mkTableSchema demo_basics columns [] [].

Definition serial_column : TableColumnSchema :=
  mkTableColumnSchema (lit "seq") (lit "bigint") true None false false false None
    (Some (mkTableIdentityOptions Always None None None None None false)) None None None.

(** Dropping the identity of a column is destructive in the diff, but its statement
    has none of the markers the confirmation looks for. *)
Theorem identity_dropped_unconfirmed :
  let before := with_columns [serial_column] in
  let after := with_columns [plain_column "seq" "bigint"] in
  let input := mkUpdateTableInput orders_container before after [] false in
  (exists d, diff_table_schema_for_update_with_column_renames map_order before after (mkTableUpdateDiffOptions true) [] = Ok d
     /\ is_destructive d = true)
  /\ (update_table (J := IntegerNumber) map_order record_on any_pool (describe_as before) input (lit "shop") (lit "public") []).2
     = [pg_text "ALTER TABLE `public`.`orders` ALTER COLUMN `seq` DROP IDENTITY"].
Proof.
  split; [|by vm_compute].
  exists (from_ok default_diff (diff_table_schema_for_update_with_column_renames map_order (with_columns [serial_column])
    (with_columns [plain_column "seq" "bigint"]) (mkTableUpdateDiffOptions true) [])).
  split; [apply from_ok_eq|]; by vm_compute.
Qed.

(** A change of a column's collation alone is accepted, runs no statement and is
    reported as done. *)
Theorem collation_change_is_reported_but_not_run :
  let before := with_columns [plain_column "note" "text"] in
  let after := with_columns [mkTableColumnSchema (lit "note") (lit "text") true None false false false None None None
                               None (Some (lit "C"))] in
  let input := mkUpdateTableInput orders_container before after [] false in
  update_table (J := IntegerNumber) map_order record_on any_pool (describe_as before) input (lit "shop") (lit "public") []
  = (Ok (lit "shop", lit "public", lit "orders"), []).
Proof. by vm_compute. Qed.
