(* ===== verification/OracleDesign.v ===== *)
(** * The Oracle table designer
    ([src-tauri/src/engine/drivers/oracle/ddl.rs], the drift check of
    [src-tauri/src/engine/drivers/oracle/schema.rs] and the DDL operations of
    [src-tauri/src/engine/drivers/oracle/mod.rs])

    Rendering of columns and constraints, the create, update and drop statements,
    the confirmation of destructive updates, which reads the statements' text, and
    the driver operations that run them. *)

From stdpp Require Import base gmap list strings fin_maps.
From Stdlib Require Import ZArith Lia.
From S2P Require Import Prelude Errors Types SqlText TableSql SchemaTypes SchemaDiff SchemaUpdate TableDesign.

Definition quote_oracle_identifier (identifier : str) : str :=
  [c_dquote] ++ replace_char c_dquote [c_dquote; c_dquote] identifier ++ [c_dquote].

Definition oracle_qualified_table_name (schema table : str) : str :=
  quote_oracle_identifier schema ++ lit "." ++ quote_oracle_identifier table.

Definition oracle_quote_column_list (columns : list str) : str :=
  join (lit ", ") (map quote_oracle_identifier columns).

Definition oracle_validate_column_refs (columns : list str) (column_names : gset str) (label : str)
    : IpcResult (list str) :=
  columns ← try_map (fun c => normalized_non_empty_identifier c label) columns;
  if is_nil columns then Err (validation_failed (label ++ lit "不能为空"))
  else
    _ ← try_fold (fun _ column =>
      if bool_decide (column ∈ column_names) then Ok tt
      else Err (validation_failed (label ++ lit "引用了不存在的列 '" ++ column ++ lit "'"))) tt columns;
    Ok columns.

Definition oracle_validate_optional_column_refs (columns : list str) (column_names : gset str) (label : str)
    : IpcResult (list str) :=
  if is_nil columns then Ok [] else oracle_validate_column_refs columns column_names label.

(** ** What the designer does not support *)

Definition ensure_oracle_table_options (engine charset collation : option str) : IpcResult unit :=
  if negb (is_none (normalized_optional_text engine)) || negb (is_none (normalized_optional_text charset))
     || negb (is_none (normalized_optional_text collation)) then
    Err (validation_failed (lit "Oracle 表设计不支持 engine、charset 或 collation 选项"))
  else Ok tt.

Definition ensure_oracle_column_options (column : TableColumnSchema) : IpcResult unit :=
  if negb (is_none (normalized_optional_text (tc_charset column)))
     || negb (is_none (normalized_optional_text (tc_collation column))) then
    Err (validation_failed (lit "Oracle 列设计不支持 charset 或 collation 选项"))
  else Ok tt.

Definition ensure_oracle_constraint_supported (constraint : TableConstraintSchema) : IpcResult unit :=
  if bool_decide (tk_enforced constraint = Some false) then
    Err (validation_failed (lit "Oracle 表设计暂不支持创建未启用约束"))
  else if negb (is_none (normalized_optional_text (tk_comment constraint))) then
    Err (validation_failed (lit "Oracle 约束备注暂不支持通过表设计器设置"))
  else if is_kind KindForeignKey constraint then
    match tk_foreign_key constraint with
    | None => Err (validation_failed (lit "外键约束 '" ++ tk_name constraint ++ lit "' 需要引用表和引用列"))
    | Some fk =>
      if negb (is_none (fk_on_update fk)) then Err (validation_failed (lit "Oracle 外键不支持 ON UPDATE 动作"))
      else Ok tt
    end
  else Ok tt.

Definition oracle_normalize_foreign_key (constraint : TableConstraintSchema) (local_columns : list str)
    : IpcResult TableForeignKeyReference :=
  match tk_foreign_key constraint with
  | None => Err (validation_failed (lit "外键约束 '" ++ tk_name constraint ++ lit "' 需要引用表和引用列"))
  | Some fk =>
    if negb (is_none (normalized_optional_text (fk_database_name fk))) then
      Err (validation_failed (lit "Oracle 外键不支持跨 database 引用"))
    else if negb (is_none (fk_on_update fk)) then
      Err (validation_failed (lit "Oracle 外键不支持 ON UPDATE 动作"))
    else
      referenced_table ← normalized_non_empty_identifier (fk_table_name fk) (lit "引用表");
      referenced_columns ← try_map (fun c => normalized_non_empty_identifier c (lit "引用列")) (fk_columns fk);
      if negb (length referenced_columns =? length local_columns)%nat then
        Err (validation_failed (lit "外键约束 '" ++ tk_name constraint ++ lit "' 的本地列与引用列数量必须一致"))
      else if negb (match fk_on_delete fk with None | Some Cascade | Some SetNull => true | Some _ => false end) then
        Err (validation_failed (lit "Oracle 外键仅支持 ON DELETE CASCADE 或 SET NULL"))
      else Ok (mkTableForeignKeyReference None (normalized_optional_text (fk_schema_name fk)) referenced_table
             referenced_columns None (fk_on_delete fk))
  end.

Definition oracle_normalize_table_constraint (constraint : TableConstraintSchema) (column_names : gset str)
    : IpcResult TableConstraintSchema :=
  name ← normalized_non_empty_identifier (tk_name constraint) (lit "约束名");
  columns ← (if is_kind KindCheck constraint
             then oracle_validate_optional_column_refs (tk_columns constraint) column_names (lit "CHECK 约束列")
             else oracle_validate_column_refs (tk_columns constraint) column_names (lit "约束列"));
  expression ← (if is_kind KindCheck constraint
                then e ← normalized_sql_fragment (default [] (tk_expression constraint)) (lit "CHECK 表达式"); Ok (Some e)
                else Ok None);
  foreign_key ← (if is_kind KindForeignKey constraint
                 then fk ← oracle_normalize_foreign_key constraint columns; Ok (Some fk)
                 else Ok None);
  Ok (mkTableConstraintSchema name (tk_kind constraint) columns None expression
    (normalized_optional_text (tk_comment constraint)) foreign_key (tk_enforced constraint)).

(** ** Normalising a create-table input *)

Record OracleCreateTable := mkOracleCreateTable {
  on_columns : list TableColumnSchema;
  on_column_names : gset str;
  on_primary_key_columns : list str;
  on_primary_key_name : option str;
  on_unique_constraints : list NamedColumnList;
  on_table_constraints : list TableConstraintSchema;
  on_indexes : list TableIndexSchema;
}.

Definition oracle_normalize_column (acc : ColumnsAcc) (column : TableColumnSchema) : IpcResult ColumnsAcc :=
  name ← normalized_non_empty_identifier (tc_name column) (lit "列名");
  if bool_decide (str_lower name ∈ ca_seen acc) then
    Err (validation_failed (lit "列名 '" ++ name ++ lit "' 重复"))
  else
    type_name ← normalized_sql_fragment (tc_type_name column) (lit "列类型");
    _ ← ensure_oracle_column_options column;
    default_value ← normalized_optional_fragment (tc_default_value column) (lit "默认值");
    let comment := normalized_optional_text (tc_comment column) in
    Ok (mkColumnsAcc ({[str_lower name]} ∪ ca_seen acc) ({[name]} ∪ ca_names acc)
      (ca_columns acc ++ [mkTableColumnSchema name type_name (tc_nullable column) default_value
         (tc_is_primary_key column) (tc_is_unique column) (tc_is_identity column) comment
         (tc_identity column) (tc_generated column) None None])
      (ca_primary_key acc ++ (if tc_is_primary_key column then [name] else []))
      (ca_unique acc ++ (if tc_is_unique column && negb (tc_is_primary_key column)
                         then [mkNamedColumnList None [name]] else []))).

(** The locals of the loop over the constraints. *)
Record OracleConstraintsAcc := mkOracleConstraintsAcc {
  oa_primary_key : option (list str);
  oa_primary_key_name : option str;
  oa_unique : list NamedColumnList;
  oa_table : list TableConstraintSchema;
}.

Definition oracle_normalize_constraint (column_names : gset str) (acc : OracleConstraintsAcc)
    (constraint : TableConstraintSchema) : IpcResult OracleConstraintsAcc :=
  _ ← ensure_oracle_constraint_supported constraint;
  match tk_kind constraint with
  | KindPrimaryKey =>
    if negb (is_none (oa_primary_key acc)) then Err (validation_failed (lit "只能定义一个主键约束"))
    else
      columns ← oracle_validate_column_refs (tk_columns constraint) column_names (lit "主键列");
      Ok (mkOracleConstraintsAcc (Some columns) (normalized_optional_text (Some (tk_name constraint)))
            (oa_unique acc) (oa_table acc))
  | KindUnique =>
    columns ← oracle_validate_column_refs (tk_columns constraint) column_names (lit "唯一约束列");
    Ok (mkOracleConstraintsAcc (oa_primary_key acc) (oa_primary_key_name acc)
      (oa_unique acc ++ [mkNamedColumnList (normalized_optional_text (Some (tk_name constraint))) columns])
      (oa_table acc))
  | KindForeignKey | KindCheck =>
    normalized ← oracle_normalize_table_constraint constraint column_names;
    Ok (mkOracleConstraintsAcc (oa_primary_key acc) (oa_primary_key_name acc) (oa_unique acc) (oa_table acc ++ [normalized]))
  end.

Definition oracle_normalize_index (column_names : gset str) (index : TableIndexSchema) : IpcResult TableIndexSchema :=
  name ← normalized_non_empty_identifier (ti_name index) (lit "索引名");
  if negb (is_none (normalized_optional_text (ti_method index))) then
    Err (validation_failed (lit "Oracle 普通索引暂不支持通过表设计器设置索引方法"))
  else if negb (is_none (normalized_optional_text (ti_comment index))) then
    Err (validation_failed (lit "Oracle 索引备注暂不支持通过表设计器设置"))
  else
    columns ← oracle_validate_column_refs (ti_columns index) column_names (lit "索引列");
    Ok (mkTableIndexSchema name columns (ti_is_unique index) None None).

Definition oracle_normalize_create_table_input (input : CreateTableInput) : IpcResult OracleCreateTable :=
  if is_nil (ct_columns input) then Err (validation_failed (lit "请至少添加一列"))
  else
    ca ← try_fold oracle_normalize_column (mkColumnsAcc ∅ ∅ [] [] []) (ct_columns input);
    oa ← try_fold (oracle_normalize_constraint (ca_names ca)) (mkOracleConstraintsAcc None None (ca_unique ca) [])
           (ct_constraints input);
    primary_key_columns ←
      match oa_primary_key oa with
      | Some columns =>
        if negb (is_nil (ca_primary_key ca)) && negb (bool_decide (ca_primary_key ca = columns)) then
          Err (validation_failed (lit "列定义中的主键与约束区主键不一致"))
        else Ok columns
      | None => Ok (ca_primary_key ca)
      end;
    indexes ← try_map (oracle_normalize_index (ca_names ca)) (ct_indexes input);
    Ok (mkOracleCreateTable (ca_columns ca) (ca_names ca) primary_key_columns (oa_primary_key_name oa) (oa_unique oa)
          (oa_table oa) indexes).

(** ** Rendering *)

Definition oracle_column_definition (column : TableColumnSchema) : IpcResult str :=
  _ ← ensure_oracle_column_options column;
  type_name ← normalized_sql_fragment (tc_type_name column) (lit "列类型");
  let is_identity := tc_is_identity column || negb (is_none (tc_identity column)) in
  value ←
    match tc_generated column with
    | Some generated =>
      if negb (bool_decide (gc_storage generated = Virtual)) then
        Err (validation_failed (lit "Oracle 生成列只支持 VIRTUAL"))
      else if negb (is_none (normalized_optional_text (tc_default_value column))) || is_identity then
        Err (validation_failed (lit "Oracle 生成列不能同时设置默认值或 identity"))
      else
        expression ← normalized_sql_fragment (gc_expression generated) (lit "生成列表达式");
        Ok (lit " GENERATED ALWAYS AS (" ++ expression ++ lit ") VIRTUAL")
    | None =>
      default_value ← normalized_optional_fragment (tc_default_value column) (lit "默认值");
      Ok ((if is_identity then
             match default ByDefault (option_map io_generation (tc_identity column)) with
             | Always => lit " GENERATED ALWAYS AS IDENTITY"
             | ByDefault => lit " GENERATED BY DEFAULT AS IDENTITY"
             end
           else [])
          ++ opt_text default_value (fun d => lit " DEFAULT " ++ d))
    end;
  Ok (quote_oracle_identifier (tc_name column) ++ lit " " ++ type_name ++ value
      ++ (if tc_nullable column then [] else lit " NOT NULL")).

Definition oracle_table_constraint_definition (constraint : TableConstraintSchema) : IpcResult str :=
  _ ← ensure_oracle_constraint_supported constraint;
  name ← normalized_non_empty_identifier (tk_name constraint) (lit "约束名");
  let prefix := lit "CONSTRAINT " ++ quote_oracle_identifier name ++ lit " " in
  match tk_kind constraint with
  | KindPrimaryKey => Ok (prefix ++ lit "PRIMARY KEY (" ++ oracle_quote_column_list (tk_columns constraint) ++ lit ")")
  | KindUnique => Ok (prefix ++ lit "UNIQUE (" ++ oracle_quote_column_list (tk_columns constraint) ++ lit ")")
  | KindCheck =>
    expression ← normalized_sql_fragment (default [] (tk_expression constraint)) (lit "CHECK 表达式");
    Ok (prefix ++ lit "CHECK (" ++ expression ++ lit ")")
  | KindForeignKey =>
    local_columns ← try_map (fun c => normalized_non_empty_identifier c (lit "外键列")) (tk_columns constraint);
    fk ← oracle_normalize_foreign_key constraint local_columns;
    let referenced_table := match fk_schema_name fk with
      | Some schema => quote_oracle_identifier schema ++ lit "." ++ quote_oracle_identifier (fk_table_name fk)
      | None => quote_oracle_identifier (fk_table_name fk)
      end in
    Ok (prefix ++ lit "FOREIGN KEY (" ++ oracle_quote_column_list local_columns ++ lit ") REFERENCES "
        ++ referenced_table ++ lit " (" ++ oracle_quote_column_list (fk_columns fk) ++ lit ")"
        ++ match fk_on_delete fk with
           | Some Cascade => lit " ON DELETE CASCADE"
           | Some SetNull => lit " ON DELETE SET NULL"
           | _ => []
           end)
  end.

Definition oracle_index_statement (schema_name qualified_table : str) (column_names : gset str)
    (index : TableIndexSchema) : IpcResult str :=
  name ← normalized_non_empty_identifier (ti_name index) (lit "索引名");
  columns ← oracle_validate_column_refs (ti_columns index) column_names (lit "索引列");
  Ok (lit "CREATE " ++ (if ti_is_unique index then lit "UNIQUE " else []) ++ lit "INDEX "
      ++ quote_oracle_identifier schema_name ++ lit "." ++ quote_oracle_identifier name
      ++ lit " ON " ++ qualified_table ++ lit " (" ++ oracle_quote_column_list columns ++ lit ")").

Definition oracle_partition_raw_clause (partition : option TablePartitionOptions) : IpcResult (option str) :=
  match partition with
  | Some p =>
    match tp_raw_clause p with
    | Some value => f ← normalized_sql_fragment value (lit "分区子句"); Ok (Some f)
    | None => Ok None
    end
  | None => Ok None
  end.

Section oracle.
Context {J : JsonNumber}.

Definition oracle_comment_statements (qualified_table : str) (input : CreateTableInput) : IpcResult (list str) :=
  table ← match normalized_optional_text (tb_comment (ct_basics input)) with
          | Some comment =>
            literal ← string_literal comment;
            Ok [lit "COMMENT ON TABLE " ++ qualified_table ++ lit " IS " ++ literal]
          | None => Ok []
          end;
  columns ← try_map (fun column =>
    match normalized_optional_text (tc_comment column) with
    | Some comment =>
      column_name ← normalized_non_empty_identifier (tc_name column) (lit "列名");
      literal ← string_literal comment;
      Ok [lit "COMMENT ON COLUMN " ++ qualified_table ++ lit "." ++ quote_oracle_identifier column_name
            ++ lit " IS " ++ literal]
    | None => Ok []
    end) (ct_columns input);
  Ok (table ++ concat columns).

Definition oracle_create_table_statements (input : CreateTableInput) : IpcResult (list str) :=
  let basics := ct_basics input in
  _ ← ensure_oracle_table_options (tb_engine basics) (tb_charset basics) (tb_collation basics);
  schema_name ← normalized_non_empty_identifier (tb_schema_name basics) (lit "Schema");
  table_name ← normalized_non_empty_identifier (tb_table_name basics) (lit "表名");
  let qualified_table := oracle_qualified_table_name schema_name table_name in
  schema ← oracle_normalize_create_table_input input;
  columns ← try_map oracle_column_definition (on_columns schema);
  constraints ← try_map oracle_table_constraint_definition (on_table_constraints schema);
  let constraint_prefix name := opt_text name (fun n => lit "CONSTRAINT " ++ quote_oracle_identifier n ++ lit " ") in
  let definitions := columns
    ++ (if is_nil (on_primary_key_columns schema) then []
        else [constraint_prefix (on_primary_key_name schema) ++ lit "PRIMARY KEY ("
              ++ oracle_quote_column_list (on_primary_key_columns schema) ++ lit ")"])
    ++ map (fun unique => constraint_prefix (nl_name unique) ++ lit "UNIQUE ("
              ++ oracle_quote_column_list (nl_columns unique) ++ lit ")") (on_unique_constraints schema)
    ++ constraints in
  let body := join (lit "," ++ NL) (map (fun definition => lit "  " ++ definition) definitions) in
  partition ← oracle_partition_raw_clause (tb_partition basics);
  comments ← oracle_comment_statements qualified_table input;
  indexes ← try_map (oracle_index_statement schema_name qualified_table (on_column_names schema)) (on_indexes schema);
  Ok ((lit "CREATE TABLE " ++ qualified_table ++ lit " (" ++ NL ++ body ++ NL ++ lit ")"
       ++ opt_text partition (fun p => lit " " ++ p)) :: comments ++ indexes).

Definition oracle_create_table_parts (input : CreateTableInput) (default_database : str) : IpcResult (str * str * str) :=
  database ← normalized_non_empty_identifier
    (default default_database (normalized_optional_text (Some (tb_database_name (ct_basics input))))) (lit "数据库名称");
  schema ← normalized_non_empty_identifier (tb_schema_name (ct_basics input)) (lit "Schema");
  table ← normalized_non_empty_identifier (tb_table_name (ct_basics input)) (lit "表名");
  Ok (database, schema, table).

(** ** Updating a table *)

Definition ensure_schema_matches_oracle_table_parts (schema : TableSchema) (database owner table : str) : IpcResult unit :=
  if str_eqb (trim (tb_database_name (ts_basics schema))) database
     && str_eqb (trim (tb_schema_name (ts_basics schema))) owner
     && str_eqb (trim (tb_table_name (ts_basics schema))) table then Ok tt
  else Err (validation_failed (lit "表结构快照与目标 Oracle 表不一致，请刷新后重试")).

Definition target_primary_key_name (schema : TableSchema) : option str :=
  match List.find (is_kind KindPrimaryKey) (ts_constraints schema) with
  | Some constraint => normalized_optional_text (Some (tk_name constraint))
  | None => None
  end.

Definition oracle_update_table_parts (input : UpdateTableInput) (default_database : option str) : IpcResult (str * str * str) :=
  let container := ut_container input in
  let target := ts_basics (ut_target input) in
  if negb (bool_decide (cr_kind container = Table)) then
    Err (resource_not_found (lit "Selected Oracle container is not a table"))
  else
    let table := default (tb_table_name target) (or_else (cr_table container) (cr_object_name container)) in
    database ← normalized_non_empty_identifier
      (default (tb_database_name target) (or_else (filled (cr_database container)) default_database)) (lit "数据库名称");
    schema ← normalized_non_empty_identifier (default (tb_schema_name target) (filled (cr_schema container))) (lit "Schema");
    table ← normalized_non_empty_identifier table (lit "表名");
    _ ← ensure_schema_matches_oracle_table_parts (ut_baseline input) database schema table;
    _ ← ensure_schema_matches_oracle_table_parts (ut_target input) database schema table;
    _ ← ensure_oracle_table_options (tb_engine target) (tb_charset target) (tb_collation target);
    Ok (database, schema, table).

Definition comment_literal (comment : option str) : IpcResult str :=
  match comment with Some comment => string_literal comment | None => Ok (lit "NULL") end.

Definition column_comment (t column_name literal : str) : str :=
  lit "COMMENT ON COLUMN " ++ t ++ lit "." ++ quote_oracle_identifier column_name ++ lit " IS " ++ literal.

Definition add_column_statements (t : str) (column : TableColumnSchema) : IpcResult (list str) :=
  definition ← oracle_column_definition column;
  comment ← match normalized_optional_text (tc_comment column) with
            | Some comment => literal ← string_literal comment; Ok [column_comment t (tc_name column) literal]
            | None => Ok []
            end;
  Ok (alter t (lit "ADD (" ++ definition ++ lit ")") :: comment).

(** [ALTER TABLE t MODIFY (column what)] *)
Definition modify (t column_name what : str) : str :=
  alter t (lit "MODIFY (" ++ quote_oracle_identifier column_name ++ lit " " ++ what ++ lit ")").

Definition type_statement (t : str) (change : ColumnTypeChange) : IpcResult str :=
  column_name ← normalized_non_empty_identifier (ctc_column_name change) (lit "列名");
  type_name ← normalized_sql_fragment (ctc_type_name change) (lit "列类型");
  Ok (modify t column_name type_name).

Definition default_statement (t : str) (change : ColumnDefaultChange) : IpcResult str :=
  column_name ← normalized_non_empty_identifier (cdc_column_name change) (lit "列名");
  default_value ← normalized_optional_fragment (cdc_default_value change) (lit "默认值");
  Ok (modify t column_name (lit "DEFAULT " ++ default (lit "NULL") default_value)).

Definition nullability_statement (t : str) (change : ColumnNullabilityChange) : IpcResult str :=
  column_name ← normalized_non_empty_identifier (cnc_column_name change) (lit "列名");
  Ok (modify t column_name (if cnc_nullable change then lit "NULL" else lit "NOT NULL")).

Definition comment_statement (t : str) (change : ColumnCommentChange) : IpcResult str :=
  literal ← comment_literal (ccc_comment change);
  Ok (column_comment t (ccc_column_name change) literal).

Definition drop_constraint (t name : str) : str := alter t (lit "DROP CONSTRAINT " ++ quote_oracle_identifier name).

Definition primary_key_statements (t table : str) (target : TableSchema) (change : option PrimaryKeyChange) : IpcResult (list str) :=
  match change with
  | None => Ok []
  | Some change =>
    drop_ ← (if is_nil (pkc_old_columns change) then Ok []
             else match normalized_optional_text (pkc_old_constraint_name change) with
                  | None => Err (validation_failed (lit "无法确定当前 Oracle 主键约束名，请刷新表结构后重试"))
                  | Some name => Ok [drop_constraint t name]
                  end);
    Ok (drop_ ++ (if is_nil (pkc_new_columns change) then []
      else [alter t (lit "ADD CONSTRAINT "
              ++ quote_oracle_identifier (default (lit "PK_" ++ take 27 table) (target_primary_key_name target))
              ++ lit " PRIMARY KEY (" ++ oracle_quote_column_list (pkc_new_columns change) ++ lit ")")]))
  end.

Definition drop_constraint_statement (t : str) (constraint : TableConstraintSchema) : IpcResult str :=
  name ← normalized_non_empty_identifier (tk_name constraint) (lit "约束名");
  Ok (drop_constraint t name).

Definition drop_index_statement (schema : str) (index : TableIndexSchema) : IpcResult str :=
  name ← normalized_non_empty_identifier (ti_name index) (lit "索引名");
  Ok (lit "DROP INDEX " ++ quote_oracle_identifier schema ++ lit "." ++ quote_oracle_identifier name).

Definition drop_column_statement (t : str) (column : TableColumnSchema) : IpcResult str :=
  name ← normalized_non_empty_identifier (tc_name column) (lit "列名");
  Ok (alter t (lit "DROP COLUMN " ++ quote_oracle_identifier name)).

(** The changes the designer refuses. *)
Definition refuse_unsupported (diff : TableSchemaUpdateDiff) : IpcResult unit :=
  if negb (is_none (table_engine_change diff)) || negb (is_none (table_charset_change diff))
     || negb (is_none (table_collation_change diff)) then
    Err (validation_failed (lit "Oracle 表设计不支持 engine、charset 或 collation 变更"))
  else match generated_column_changes diff, identity_changes diff, column_charset_changes diff with
  | change :: _, _, _ =>
    Err (validation_failed (lit "暂不支持修改已有 Oracle 生成列 '" ++ cgc_column_name change ++ lit "'"))
  | [], change :: _, _ =>
    Err (validation_failed (lit "暂不支持修改已有 Oracle identity 列 '" ++ cic_column_name change ++ lit "'"))
  | [], [], change :: _ =>
    Err (validation_failed (lit "Oracle 列 '" ++ csc_column_name change ++ lit "' 不支持 charset 或 collation 变更"))
  | [], [], [] => Ok tt
  end.

(** The statements of a diff, in the order of the source. *)
Definition diff_statements (schema table : str) (target : TableSchema) (diff : TableSchemaUpdateDiff) : IpcResult (list str) :=
  let t := oracle_qualified_table_name schema table in
  let column_names : gset str := list_to_set (map tc_name (ts_columns target)) in
  comment ← match table_comment_change diff with
            | Some change =>
              literal ← comment_literal (cc_comment change);
              Ok [lit "COMMENT ON TABLE " ++ t ++ lit " IS " ++ literal]
            | None => Ok []
            end;
  added ← try_map (add_column_statements t) (added_columns diff);
  let renames := map (fun rename =>
    alter t (lit "RENAME COLUMN " ++ quote_oracle_identifier (crc_old_name rename)
      ++ lit " TO " ++ quote_oracle_identifier (crc_new_name rename))) (renamed_columns diff) in
  types ← try_map (type_statement t) (column_type_changes diff);
  defaults ← try_map (default_statement t) (column_default_changes diff);
  nullability ← try_map (nullability_statement t) (column_nullability_changes diff);
  comments ← try_map (comment_statement t) (column_comment_changes diff);
  primary_key ← primary_key_statements t table target (primary_key_change diff);
  dropped_constraints ← try_map (drop_constraint_statement t) (dropped_constraints diff);
  added_constraints ← try_map (fun c => d ← oracle_table_constraint_definition c; Ok (alter t (lit "ADD " ++ d)))
    (added_constraints diff);
  dropped_indexes ← try_map (drop_index_statement schema) (dropped_indexes diff);
  dropped_columns ← try_map (drop_column_statement t) (dropped_columns diff);
  added_indexes ← try_map (oracle_index_statement schema t column_names) (added_indexes diff);
  Ok (comment ++ concat added ++ renames ++ types ++ defaults ++ nullability ++ comments ++ primary_key
      ++ dropped_constraints ++ added_constraints ++ dropped_indexes ++ dropped_columns ++ added_indexes).

(** *** The confirmation *)

Definition is_oracle_type_modify_statement (statement : str) : bool :=
  str_contains (lit " MODIFY (") statement
  && negb (str_contains (lit " DEFAULT ") statement)
  && negb (str_contains (lit " NOT NULL)") statement)
  && negb (str_contains (lit " NULL)") statement).

Definition oracle_table_update_statements_are_destructive (statements : list str) : bool :=
  existsb (fun statement =>
    str_contains (lit " DROP COLUMN ") statement || str_contains (lit " DROP CONSTRAINT ") statement
    || str_contains (lit " PRIMARY KEY ") statement || is_oracle_type_modify_statement statement) statements.

Definition ensure_oracle_destructive_update_confirmed (input : UpdateTableInput) (statements : list str) : IpcResult unit :=
  if oracle_table_update_statements_are_destructive statements && negb (ut_confirm_destructive input)
  then Err (validation_failed (lit "破坏性表结构变更需要确认后才能执行"))
  else Ok tt.

Definition mark_oracle_table_update_preview (preview : SchemaMutationPreview) : SchemaMutationPreview :=
  let any f := existsb f (sp_statements preview) in
  mkSchemaMutationPreview (sp_statements preview)
    (sp_warnings preview
     ++ (if any (str_contains (lit " DROP COLUMN ")) then [lit "将删除已有列；该操作会永久删除该列中的数据"] else [])
     ++ (if any is_oracle_type_modify_statement
         then [lit "将修改列类型；数据库可能拒绝转换，转换也可能造成数据截断"] else [])
     ++ (if any (fun s => str_contains (lit " DROP CONSTRAINT ") s || str_contains (lit " PRIMARY KEY ") s)
         then [lit "将修改约束；该操作可能影响依赖这些约束的查询、索引和应用逻辑"] else []))
    (if oracle_table_update_statements_are_destructive (sp_statements preview) then true else sp_destructive preview).

Definition oracle_drop_table_parts_and_statement (input : DropTableInput) (default_database : option str)
    : IpcResult (str * str * str * str) :=
  let container := dt_container input in
  if negb (bool_decide (cr_kind container = Table)) then
    Err (validation_failed (lit "Selected Oracle container is not a table"))
  else
    database ← normalized_non_empty_identifier
      (default [] (or_else (filled (cr_database container)) default_database)) (lit "数据库名称");
    schema ← normalized_non_empty_identifier (default [] (filled (cr_schema container))) (lit "Schema");
    table ← normalized_non_empty_identifier (default [] (or_else (cr_table container) (cr_object_name container))) (lit "表名");
    Ok (database, schema, table, lit "DROP TABLE " ++ oracle_qualified_table_name schema table).

(** The table was not changed since the baseline was read; the catalogue reports keys
    as enforced where the designer leaves that open. *)
Definition normalize_oracle_schema_for_update_drift_check (schema : TableSchema) : TableSchema :=
  mkTableSchema (ts_basics schema) (ts_columns schema) (ts_indexes schema)
    (map (fun c =>
       if (is_kind KindPrimaryKey c || is_kind KindUnique c) && bool_decide (tk_enforced c = Some true)
       then mkTableConstraintSchema (tk_name c) (tk_kind c) (tk_columns c) (tk_reference c) (tk_expression c)
              (tk_comment c) (tk_foreign_key c) None
       else c) (ts_constraints schema)).

Definition oracle_table_schema_matches_update_baseline (current baseline : TableSchema) : bool :=
  bool_decide (normalize_oracle_schema_for_update_drift_check current
               = normalize_oracle_schema_for_update_drift_check baseline).

Section update.
Context (hash_iter : forall A, gmap str A -> list (str * A)).

Definition oracle_update_table_parts_and_statements (input : UpdateTableInput) (default_database : option str)
    : IpcResult (str * str * str * list str) :=
  parts ← oracle_update_table_parts input default_database;
  diff ← diff_table_schema_for_update_with_column_renames hash_iter (ut_baseline input) (ut_target input)
    (mkTableUpdateDiffOptions true) (ut_column_renames input);
  if is_empty diff then Err (validation_failed (lit "没有可执行的表结构变更"))
  else
    _ ← refuse_unsupported diff;
    statements ← diff_statements parts.1.2 parts.2 (ut_target input) diff;
    Ok (parts, statements).

(** The first rename of a column wins here; the others' previews take the last. *)
Definition oracle_not_null_warnings (input : UpdateTableInput) : list str :=
  flat_map (fun column =>
    let target_name := match List.find (fun r => str_eqb (rn_old_name r) (tc_name column)) (ut_column_renames input) with
                       | Some r => rn_new_name r | None => tc_name column end in
    match List.find (fun c => str_eqb (tc_name c) target_name) (ts_columns (ut_target input)) with
    | None => []
    | Some target =>
      if tc_nullable column && negb (tc_nullable target)
      then [lit "列 '" ++ tc_name column ++ lit "' 将改为 NOT NULL；如果已有数据包含 NULL，数据库会拒绝执行"]
      else []
    end) (ts_columns (ut_baseline input)).

Definition preview_create_table (input : CreateTableInput) : IpcResult SchemaMutationPreview :=
  statements ← oracle_create_table_statements input;
  Ok (from_statements statements).

Definition preview_update_table (input : UpdateTableInput) (database_label : str) : IpcResult SchemaMutationPreview :=
  parts ← oracle_update_table_parts_and_statements input (Some database_label);
  let preview := mark_oracle_table_update_preview (from_statements parts.2) in
  Ok (mkSchemaMutationPreview (sp_statements preview) (sp_warnings preview ++ oracle_not_null_warnings input)
        (sp_destructive preview)).

Definition preview_drop_table (input : DropTableInput) (database_label : str) : IpcResult SchemaMutationPreview :=
  parts ← oracle_drop_table_parts_and_statement input (Some database_label);
  Ok (mark_drop_table_preview (from_statements [parts.2])).

(** *** The operations that reach the server *)

Context {DB : Type} (execute : str -> ST DB IpcError unit) (rollback commit : ST DB IpcError unit).
Context (connection : ST DB IpcError unit).
Context (describe_oracle_table_schema : ContainerRef -> ST DB IpcError TableSchema).

(** A statement that fails is followed by a rollback, whose own failure is only
    logged; after the last statement the batch is committed. *)
Fixpoint execute_all (statements : list str) : ST DB IpcError unit :=
  match statements with
  | [] => mret tt
  | statement :: rest => fun db =>
    match execute statement db with
    | (Ok _, db') => execute_all rest db'
    | (Err error, db') => (Err error, (rollback db').2)
    end
  end.

Definition execute_oracle_ddl_batch (statements : list str) : ST DB IpcError unit :=
  _ ← execute_all statements;
  commit.

Definition create_table (input : CreateTableInput) (database_label : str) : ST DB IpcError (str * str * str) :=
  statements ← st_lift (oracle_create_table_statements input);
  parts ← st_lift (oracle_create_table_parts input database_label);
  _ ← connection;
  _ ← execute_oracle_ddl_batch statements;
  st_lift (Ok parts).

Definition update_table (input : UpdateTableInput) (database_label : str) : ST DB IpcError (str * str * str) :=
  current ← describe_oracle_table_schema (ut_container input);
  if negb (oracle_table_schema_matches_update_baseline current (ut_baseline input)) then
    st_lift (Err (resource_conflict (lit "远端表结构已变化，请刷新后重试")))
  else
    parts ← st_lift (oracle_update_table_parts_and_statements input (Some database_label));
    _ ← st_lift (ensure_oracle_destructive_update_confirmed input parts.2);
    _ ← connection;
    _ ← execute_oracle_ddl_batch parts.2;
    st_lift (Ok parts.1).

Definition drop_table (input : DropTableInput) (database_label : str) : ST DB IpcError (str * str * str) :=
  _ ← st_lift (ensure_destructive_drop_table_confirmed input);
  parts ← st_lift (oracle_drop_table_parts_and_statement input (Some database_label));
  _ ← connection;
  _ ← execute_oracle_ddl_batch [parts.2];
  st_lift (Ok parts.1).
End update.
End oracle.


(** ** What an unconfirmed update can do *)

Definition destructive_marker (s : str) : bool :=
  str_contains (lit " DROP COLUMN ") s || str_contains (lit " DROP CONSTRAINT ") s
  || str_contains (lit " PRIMARY KEY ") s || is_oracle_type_modify_statement s.

(** The text of a statement that also reads as a change of a default or of nullability. *)
Definition reads_as_other_change (s : str) : bool :=
  str_contains (lit " DEFAULT ") s || str_contains (lit " NOT NULL)") s || str_contains (lit " NULL)") s.

Lemma oracle_drop_constraint_marked t name : destructive_marker (drop_constraint t name) = true.
Proof.
  unfold drop_constraint, destructive_marker.
  by rewrite (alter_contains (lit " DROP CONSTRAINT ") (lit "DROP CONSTRAINT ") []), orb_true_r.
Qed.

Lemma oracle_drop_column_marked t c s : drop_column_statement t c = Ok s -> destructive_marker s = true.
Proof.
  unfold drop_column_statement, destructive_marker. intros H. bind_inv. subst.
  by rewrite (alter_contains (lit " DROP COLUMN ") (lit "DROP COLUMN ") []).
Qed.

Lemma drop_constraint_statement_marked t c s : drop_constraint_statement t c = Ok s -> destructive_marker s = true.
Proof. unfold drop_constraint_statement. intros H. bind_inv. subst. apply oracle_drop_constraint_marked. Qed.

Lemma oracle_type_marked t c s : type_statement t c = Ok s -> destructive_marker s = true \/ reads_as_other_change s = true.
Proof.
  unfold type_statement, destructive_marker, is_oracle_type_modify_statement, reads_as_other_change. intros H. bind_inv. subst.
  unfold modify. rewrite (alter_contains (lit " MODIFY (") (lit "MODIFY (") []) by done. generalize (alter t (lit "MODIFY (" ++ quote_oracle_identifier a ++ lit " " ++ a0 ++ lit ")")).
  intros s. destruct (str_contains (lit " DEFAULT ") s), (str_contains (lit " NOT NULL)") s), (str_contains (lit " NULL)") s);
    cbn; rewrite ?orb_true_r; auto.
Qed.

Lemma oracle_primary_key_marked t table target change part : primary_key_statements t table target (Some change) = Ok part ->
  pkc_old_columns change <> pkc_new_columns change -> exists s, s ∈ part /\ destructive_marker s = true.
Proof.
  unfold primary_key_statements. intros H Hne. destruct (pkc_old_columns change) as [|o os]; cbn [is_nil] in H.
  - cbn [mbind Result_bind] in H. apply Ok_inj in H. subst. destruct (pkc_new_columns change) as [|n ns]; [done|]. cbn [is_nil app].
    eexists. split; [by apply list_elem_of_singleton|]. unfold destructive_marker, alter.
    assert (He : forall a b c e f g : str, str_contains (lit " PRIMARY KEY ")
      (a ++ b ++ c ++ e ++ f ++ lit " PRIMARY KEY (" ++ g) = true).
    { intros a b c e f g. change (lit " PRIMARY KEY (") with (lit " PRIMARY KEY " ++ lit "(").
      rewrite <-(app_assoc (lit " PRIMARY KEY ")), !app_assoc, <-!(app_assoc _ (lit "(")), <-(app_assoc _ (lit " PRIMARY KEY ")). apply contains_middle. }
    by rewrite He, !orb_true_r.
  - destruct (normalized_optional_text _) as [name|]; [|discriminate H]. cbn [mbind Result_bind] in H. apply Ok_inj in H. subst.
    eexists. split; [cbn [app]; left|]. apply oracle_drop_constraint_marked.
Qed.

Lemma refuse_unsupported_ok d : refuse_unsupported d = Ok tt ->
  generated_column_changes d = [] /\ identity_changes d = [] /\ column_charset_changes d = [].
Proof. unfold refuse_unsupported. destruct (_ || _); [done|]. destruct (generated_column_changes d), (identity_changes d), (column_charset_changes d); done. Qed.

Section gate.
Context {J : JsonNumber}.

Lemma oracle_diff_statements_gate schema table target d statements :
  diff_statements schema table target d = Ok statements ->
  (forall change, primary_key_change d = Some change -> pkc_old_columns change <> pkc_new_columns change) ->
  oracle_table_update_statements_are_destructive statements = false ->
  dropped_columns d = [] /\ dropped_constraints d = [] /\ primary_key_change d = None
  /\ (forall ch, ch ∈ column_type_changes d -> exists s, s ∈ statements
        /\ type_statement (oracle_qualified_table_name schema table) ch = Ok s /\ reads_as_other_change s = true).
Proof.
  unfold diff_statements. cbv zeta. set (t := oracle_qualified_table_name schema table). intros H Hpk Hsafe.
  destruct (match table_comment_change d with Some _ => _ | None => _ end) as [s1|]; [|discriminate H]. cbn [mbind Result_bind] in H.
  destruct (try_map _ (added_columns d)) as [s2|]; [|discriminate H]. cbn [mbind Result_bind] in H.
  destruct (try_map _ (column_type_changes d)) as [s3|] eqn:Hty; [|discriminate H]. cbn [mbind Result_bind] in H.
  destruct (try_map _ (column_default_changes d)) as [s4|]; [|discriminate H]. cbn [mbind Result_bind] in H.
  destruct (try_map _ (column_nullability_changes d)) as [s5|]; [|discriminate H]. cbn [mbind Result_bind] in H.
  destruct (try_map _ (column_comment_changes d)) as [s6|]; [|discriminate H]. cbn [mbind Result_bind] in H.
  destruct (primary_key_statements t table target _) as [s7|] eqn:Hk; [|discriminate H]. cbn [mbind Result_bind] in H.
  destruct (try_map _ (dropped_constraints d)) as [s8|] eqn:Hdc; [|discriminate H]. cbn [mbind Result_bind] in H.
  destruct (try_map _ (added_constraints d)) as [s9|]; [|discriminate H]. cbn [mbind Result_bind] in H.
  destruct (try_map _ (dropped_indexes d)) as [s10|]; [|discriminate H]. cbn [mbind Result_bind] in H.
  destruct (try_map _ (dropped_columns d)) as [s11|] eqn:Hdl; [|discriminate H]. cbn [mbind Result_bind] in H.
  destruct (try_map _ (added_indexes d)) as [s12|]; [|discriminate H]. cbn [mbind Result_bind] in H.
  apply Ok_inj in H. subst statements. split; [|split; [|split]].
  - apply (unmarked_part _ _ _ _ _ Hsafe (oracle_drop_column_marked t) Hdl). intros s Hs. rewrite !elem_of_app. auto 20.
  - apply (unmarked_part _ _ _ _ _ Hsafe (drop_constraint_statement_marked t) Hdc). intros s Hs. rewrite !elem_of_app. auto 20.
  - destruct (primary_key_change d) as [change|]; [|done]. exfalso.
    destruct (oracle_primary_key_marked _ _ _ _ _ Hk (Hpk _ eq_refl)) as (s & Hs & Hc).
    assert (Hf : destructive_marker s = false); [|congruence].
    apply (unmarked_elem _ _ s Hsafe). rewrite !elem_of_app. auto 20.
  - intros ch Hch. apply try_map_Ok in Hty. apply list_elem_of_lookup_1 in Hch as [i Hi].
    destruct (Forall2_lookup_l _ _ _ _ _ Hty Hi) as (s & Hs%list_elem_of_lookup_2 & Hf).
    assert (Hin : s ∈ s1 ++ concat s2 ++ map (fun rename => alter t (lit "RENAME COLUMN " ++ quote_oracle_identifier (crc_old_name rename)
      ++ lit " TO " ++ quote_oracle_identifier (crc_new_name rename))) (renamed_columns d)
      ++ s3 ++ s4 ++ s5 ++ s6 ++ s7 ++ s8 ++ s9 ++ s10 ++ s11 ++ s12) by (rewrite !elem_of_app; auto 20).
    exists s. split; [done|]. split; [done|]. destruct (oracle_type_marked _ _ _ Hf) as [Hm|]; [|done].
    pose proof (unmarked_elem _ _ s Hsafe Hin : destructive_marker s = false). congruence.
Qed.
End gate.


(** *** The statements of an unconfirmed update *)

(** Statements that keep every column and constraint: comments, additions, renames,
    changes of one column in place, and indexes. *)
Inductive keeping_statement (schema table : str) : str -> Prop :=
| stmt_comment rest : keeping_statement schema table (lit "COMMENT ON " ++ rest)
| stmt_add what :
    keeping_statement schema table (lit "ALTER TABLE " ++ oracle_qualified_table_name schema table ++ lit " ADD " ++ what)
| stmt_rename old new :
    keeping_statement schema table (lit "ALTER TABLE " ++ oracle_qualified_table_name schema table ++ lit " RENAME COLUMN "
      ++ quote_oracle_identifier old ++ lit " TO " ++ quote_oracle_identifier new)
| stmt_modify column what :
    keeping_statement schema table (lit "ALTER TABLE " ++ oracle_qualified_table_name schema table ++ lit " MODIFY ("
      ++ quote_oracle_identifier column ++ lit " " ++ what ++ lit ")")
| stmt_drop_index name :
    keeping_statement schema table (lit "DROP INDEX " ++ quote_oracle_identifier schema ++ lit "." ++ quote_oracle_identifier name)
| stmt_create_index unique rest : unique = [] \/ unique = lit "UNIQUE " ->
    keeping_statement schema table (lit "CREATE " ++ unique ++ lit "INDEX " ++ rest).

Lemma try_map_Forall {E A B} (f : A -> Result E B) (P : B -> Prop) l l' :
  (forall a b, f a = Ok b -> P b) -> try_map f l = Ok l' -> Forall P l'.
Proof. intros Hf H%try_map_Ok. induction H; constructor; eauto. Qed.

Section shapes.
Context {J : JsonNumber}.
Context (schema table : str).
Local Abbreviation keeping := (keeping_statement schema table).
Local Abbreviation t := (oracle_qualified_table_name schema table).

Lemma column_comment_keeping c literal : keeping (column_comment t c literal).
Proof. exact (stmt_comment schema table (lit "COLUMN " ++ t ++ lit "." ++ quote_oracle_identifier c ++ lit " IS " ++ literal)). Qed.

Lemma modify_keeping c what : keeping (modify t c what).
Proof. exact (stmt_modify schema table c what). Qed.

Lemma add_column_keeping c part : add_column_statements t c = Ok part -> Forall keeping part.
Proof.
  unfold add_column_statements. intros H. bind_inv. subst part. constructor.
  - exact (stmt_add schema table (lit "(" ++ a ++ lit ")")).
  - destruct (normalized_optional_text _); [|bind_inv; subst; constructor]. bind_inv. subst. constructor; [apply column_comment_keeping|constructor].
Qed.

Lemma index_keeping names index s : oracle_index_statement schema t names index = Ok s -> keeping s.
Proof.
  unfold oracle_index_statement. intros H. bind_inv. subst s.
  destruct (ti_is_unique index); [apply (stmt_create_index schema table (lit "UNIQUE "))|apply (stmt_create_index schema table [])]; auto.
Qed.

Lemma diff_statements_keeping target d statements :
  diff_statements schema table target d = Ok statements ->
  dropped_columns d = [] -> dropped_constraints d = [] -> primary_key_change d = None -> Forall keeping statements.
Proof.
  unfold diff_statements. cbv zeta. intros H Hc Hk Hp. rewrite Hc, Hk, Hp in H. bind_inv. cbn in *. simplify_eq.
  assert (Hm : forall c what x, x = modify t c what -> keeping x) by (intros c what x ->; apply modify_keeping).
  repeat apply Forall_app_2; try constructor.
  - destruct (table_comment_change d); bind_inv; subst; repeat constructor.
  - apply Forall_concat. eapply try_map_Forall; [|eassumption]. intros c part. apply add_column_keeping.
  - apply Forall_map, Forall_true. intros r. exact (stmt_rename schema table (crc_old_name r) (crc_new_name r)).
  - eapply try_map_Forall; [|eassumption]. intros c x Hx. unfold type_statement in Hx. bind_inv. by eapply Hm.
  - eapply try_map_Forall; [|eassumption]. intros c x Hx. unfold default_statement in Hx. bind_inv. by eapply Hm.
  - eapply try_map_Forall; [|eassumption]. intros c x Hx. unfold nullability_statement in Hx. bind_inv. by eapply Hm.
  - eapply try_map_Forall; [|eassumption]. intros c x Hx. unfold comment_statement in Hx. bind_inv. subst. apply column_comment_keeping.
  - eapply try_map_Forall; [|eassumption]. intros c x Hx. cbn in Hx. bind_inv. subst. exact (stmt_add schema table _).
  - eapply try_map_Forall; [|eassumption]. intros i x Hx. unfold drop_index_statement in Hx. bind_inv. subst. constructor.
  - eapply try_map_Forall; [|eassumption]. intros i x. apply index_keeping.
Qed.
End shapes.

(** *** The table that is changed *)

(** Two constraints that are the same but for the enforcement of a key. *)
Definition same_constraint (c c' : TableConstraintSchema) : Prop :=
  tk_name c = tk_name c' /\ tk_kind c = tk_kind c' /\ tk_columns c = tk_columns c' /\ tk_reference c = tk_reference c'
  /\ tk_expression c = tk_expression c' /\ tk_comment c = tk_comment c' /\ tk_foreign_key c = tk_foreign_key c'
  /\ (tk_enforced c = tk_enforced c'
      \/ (tk_kind c = KindPrimaryKey \/ tk_kind c = KindUnique) /\ tk_enforced c <> Some false /\ tk_enforced c' <> Some false).

Record same_table (current baseline : TableSchema) : Prop := {
  st_basics : ts_basics current = ts_basics baseline;
  st_columns : ts_columns current = ts_columns baseline;
  st_indexes : ts_indexes current = ts_indexes baseline;
  st_constraints : Forall2 same_constraint (ts_constraints current) (ts_constraints baseline);
}.

Lemma matches_baseline_same current baseline :
  oracle_table_schema_matches_update_baseline current baseline = true -> same_table current baseline.
Proof.
  unfold oracle_table_schema_matches_update_baseline, normalize_oracle_schema_for_update_drift_check. intros H%bool_decide_eq_true.
  injection H as H1 H2 H3 H4. split; try done. clear H1 H2 H3. revert H4. generalize (ts_constraints baseline).
  induction (ts_constraints current) as [|c l IH]; intros [|c' l']; try done. cbn [map]. intros [= Hc Hl]. constructor; [|auto]. clear IH Hl.
  assert (Hkey : forall c, is_kind KindPrimaryKey c || is_kind KindUnique c = true -> tk_kind c = KindPrimaryKey \/ tk_kind c = KindUnique).
  { intros x [Hx|Hx]%orb_true_iff; apply bool_decide_eq_true in Hx; auto. }
  destruct ((is_kind KindPrimaryKey c || is_kind KindUnique c) && bool_decide (tk_enforced c = Some true)) eqn:E1,
    ((is_kind KindPrimaryKey c' || is_kind KindUnique c') && bool_decide (tk_enforced c' = Some true)) eqn:E2;
    destruct c, c'; cbn in *; inversion Hc; subst; clear Hc; unfold same_constraint; cbn; split_and!; try done;
    repeat match goal with H : _ && _ = true |- _ => apply andb_true_iff in H as [?%Hkey ?%bool_decide_eq_true] end; cbn in *; simplify_eq;
    first [by left|right; by split].
Qed.

Section theorems.
Context {J : JsonNumber}.
Context {DB : Type} (execute : str -> ST DB IpcError unit) (rollback commit connection : ST DB IpcError unit).
Context (describe : ContainerRef -> ST DB IpcError TableSchema).
Implicit Types (hash_iter : forall A, gmap str A -> list (str * A)).

Lemma execute_all_prefix statements db r db' : execute_all execute rollback statements db = (r, db') ->
  (r = Ok tt /\ ran execute statements db db')
  \/ exists done_ failed rest e db1 db2, statements = done_ ++ failed :: rest /\ r = Err e
     /\ ran execute done_ db db1 /\ execute failed db1 = (Err e, db2) /\ db' = (rollback db2).2.
Proof.
  revert db. induction statements as [|s l IH]; intros db H; simpl in H.
  - injection H as <- <-. left. split; [done|constructor].
  - destruct (execute s db) as [[[]|e] db1] eqn:E.
    + apply IH in H as [[-> Hr]|(d & f & rest & e & db2 & db3 & -> & -> & Hr & Hf & Hb)].
      * left. split; [done|]. by econstructor.
      * right. exists (s :: d), f, rest, e, db2, db3. split; [done|]. split; [done|]. split; [by econstructor|done].
    + injection H as <- <-. right. exists [], s, l, e, db, db1. repeat split; [constructor|done].
Qed.

Lemma update_parts_named input default_database parts : oracle_update_table_parts input default_database = Ok parts ->
  trim (tb_schema_name (ts_basics (ut_baseline input))) = parts.1.2 /\ trim (tb_table_name (ts_basics (ut_baseline input))) = parts.2.
Proof.
  unfold oracle_update_table_parts, ensure_schema_matches_oracle_table_parts. intros H. destruct (negb _); [done|].
  bind_inv. repeat match goal with E : (if ?b then _ else _) = Ok _ |- _ => destruct b eqn:?; [|discriminate E] end. subst parts. cbn.
  repeat match goal with H : _ && _ = true |- _ => apply andb_true_iff in H as [? ?] end. unfold str_eqb in *. by breflect.
Qed.

Lemma update_statements_ok hash_iter input default_database parts statements :
  oracle_update_table_parts_and_statements hash_iter input default_database = Ok (parts, statements) ->
  exists d, (trim (tb_schema_name (ts_basics (ut_baseline input))) = parts.1.2 /\ trim (tb_table_name (ts_basics (ut_baseline input))) = parts.2)
    /\ diff_table_schema_for_update_with_column_renames hash_iter (ut_baseline input) (ut_target input)
      (mkTableUpdateDiffOptions true) (ut_column_renames input) = Ok d
    /\ is_empty d = false /\ refuse_unsupported d = Ok tt
    /\ diff_statements parts.1.2 parts.2 (ut_target input) d = Ok statements.
Proof.
  unfold oracle_update_table_parts_and_statements. intros H.
  destruct (oracle_update_table_parts _ _) as [parts'|] eqn:Ep; [|discriminate H]. cbn [mbind Result_bind] in H. apply update_parts_named in Ep.
  destruct (diff_table_schema_for_update_with_column_renames _ _ _ _ _) as [d|]; [|discriminate H]. cbn [mbind Result_bind] in H.
  destruct (is_empty d) eqn:Ee; [discriminate H|].
  destruct (refuse_unsupported d) as [[]|] eqn:Er; [|discriminate H]. cbn [mbind Result_bind] in H.
  destruct (diff_statements _ _ _ _) as [st|] eqn:Es; [|discriminate H]. cbn [mbind Result_bind] in H.
  apply Ok_inj in H. injection H as <- <-. eauto 10.
Qed.

End theorems.

(** ** Examples *)

Definition no_effect : ST (list str) IpcError unit := mret tt.

Definition oracle_rename_input : UpdateTableInput :=
  mkUpdateTableInput orders_container demo_baseline renamed_target demo_renames false.

Definition oracle_rename_run : Result IpcError (str * str * str) * list str :=
  update_table (J := IntegerNumber) map_order record_statement no_effect no_effect no_effect (describe_as demo_baseline)
    oracle_rename_input (lit "shop") [].


(** A column whose name holds the word DEFAULT is retyped without a confirmation: the
    text of the statement is taken for a change of a default. *)
Theorem retyped_column_unconfirmed :
  let before := mkTableSchema demo_basics [plain_column "is DEFAULT value" "varchar2(80)"] [] [] in
  let after := mkTableSchema demo_basics [plain_column "is DEFAULT value" "number"] [] [] in
  let input := mkUpdateTableInput orders_container before after [] false in
  (exists d, diff_table_schema_for_update_with_column_renames map_order before after (mkTableUpdateDiffOptions true) [] = Ok d
     /\ is_destructive d = true)
  /\ (update_table (J := IntegerNumber) map_order record_statement no_effect no_effect no_effect (describe_as before)
        input (lit "shop") []).2
     = [replace_char c_backtick [c_dquote] (lit "ALTER TABLE `public`.`orders` MODIFY (`is DEFAULT value` number)")].
Proof.
  split; [|by vm_compute].
  exists (from_ok default_diff (diff_table_schema_for_update_with_column_renames map_order
    (mkTableSchema demo_basics [plain_column "is DEFAULT value" "varchar2(80)"] [] [])
    (mkTableSchema demo_basics [plain_column "is DEFAULT value" "number"] [] []) (mkTableUpdateDiffOptions true) [])).
  split; [apply from_ok_eq|]; by vm_compute.
Qed.
