(* ===== verification/Framing.v ===== *)
(** * Statement framing for the AI SQL tool
    ([src-tauri/src/ai_runtime/backend_bridge/sql.rs], [frame_single_statement] and its helpers)

    Before a text from the model is classified, [frame_single_statement] reads it
    once, per dialect, and accepts it only when it is one framed statement; what it
    keeps are the words outside quotes and comments, with their parenthesis depth.
    The scanner is translated as it is written: an index into the characters, a
    scan state and the accumulators.  The second half gives the lexical grammar it
    recognises and proves that an accepted text is a sequence of such lexemes. *)

From stdpp Require Import base list strings.
From Stdlib Require Import ZArith Lia.
From S2P Require Import Prelude.

Definition SQL_MAX_CHARS : Z := 64 * 1024.

Inductive SqlFramingDialect := Sqlite | Mysql | Postgres | Oracle | ClickHouse.

#[export] Instance SqlFramingDialect_eq_dec : EqDecision SqlFramingDialect.
Proof. solve_decision. Defined.

Inductive ScanState :=
| Normal | SingleQuote | DoubleQuote | Backtick | BracketIdentifier | LineComment | BlockComment.

#[export] Instance ScanState_eq_dec : EqDecision ScanState.
Proof. solve_decision. Defined.

Record ScannedWord := mkScannedWord {
  value : str;
  depth : Z;
}.

Record StatementFraming := mkStatementFraming {
  words : list str;
  all_words : list str;
  has_oracle_database_link : bool;
}.

(** The local variables of the scanner. *)
Record Scan := mkScan {
  index : nat;
  scan_state : ScanState;
  block_depth : Z;
  terminated : bool;
  scanned_words : list ScannedWord;
  current_word : str;
  significant : bool;
  parenthesis_depth : Z;
  database_link : bool;
}.

Definition is_dialect (d : SqlFramingDialect) (ds : list SqlFramingDialect) : bool :=
  existsb (fun x => bool_decide (d = x)) ds.

(** ** Helpers *)

Definition flush_word (ws : list ScannedWord) (current : str) (depth : Z) : list ScannedWord * str :=
  if bool_decide (current = []) then (ws, current)
  else (ws ++ [mkScannedWord current depth], []).

(** [flush_word(&mut words, &mut current_word, parenthesis_depth)]. *)
Definition flushed (s : Scan) : Scan :=
  let (ws, cur) := flush_word (scanned_words s) (current_word s) (parenthesis_depth s) in
  mkScan (index s) (scan_state s) (block_depth s) (terminated s) ws cur (significant s)
    (parenthesis_depth s) (database_link s).

Definition advance (n : nat) (s : Scan) : Scan :=
  mkScan (index s + n) (scan_state s) (block_depth s) (terminated s) (scanned_words s)
    (current_word s) (significant s) (parenthesis_depth s) (database_link s).

Definition set_index (i : nat) (s : Scan) : Scan :=
  mkScan i (scan_state s) (block_depth s) (terminated s) (scanned_words s)
    (current_word s) (significant s) (parenthesis_depth s) (database_link s).

Definition enter (st : ScanState) (s : Scan) : Scan :=
  mkScan (index s) st (block_depth s) (terminated s) (scanned_words s)
    (current_word s) (significant s) (parenthesis_depth s) (database_link s).

Definition set_block_depth (b : Z) (s : Scan) : Scan :=
  mkScan (index s) (scan_state s) b (terminated s) (scanned_words s)
    (current_word s) (significant s) (parenthesis_depth s) (database_link s).

Definition set_terminated (s : Scan) : Scan :=
  mkScan (index s) (scan_state s) (block_depth s) true (scanned_words s)
    (current_word s) (significant s) (parenthesis_depth s) (database_link s).

Definition set_significant (s : Scan) : Scan :=
  mkScan (index s) (scan_state s) (block_depth s) (terminated s) (scanned_words s)
    (current_word s) true (parenthesis_depth s) (database_link s).

Definition set_depth (p : Z) (s : Scan) : Scan :=
  mkScan (index s) (scan_state s) (block_depth s) (terminated s) (scanned_words s)
    (current_word s) (significant s) p (database_link s).

Definition push_char (c : Z) (s : Scan) : Scan :=
  mkScan (index s) (scan_state s) (block_depth s) (terminated s) (scanned_words s)
    (current_word s ++ [c]) (significant s) (parenthesis_depth s) (database_link s).

Definition set_link (s : Scan) : Scan :=
  mkScan (index s) (scan_state s) (block_depth s) (terminated s) (scanned_words s)
    (current_word s) (significant s) (parenthesis_depth s) true.

(** *** Dollar quotes *)

(** The name loop of [dollar_quote_end]: the characters between the dollar signs,
    [None] when one is not allowed there or the text ends. *)
Fixpoint dollar_name (first : bool) (s : str) : option str :=
  match s with
  | [] => None
  | c :: s' =>
    if (c =? c_dollar)%Z then Some []
    else if (if first then is_ascii_alphabetic c || (c =? c_underscore)%Z
             else is_ascii_alphanumeric c || (c =? c_underscore)%Z)
    then match dollar_name false s' with Some n => Some (c :: n) | None => None end
    else None
  end.

(** The test on [chars[start - 1]]. *)
Definition dollar_glued (before : str) : bool :=
  match last before with
  | Some c => is_ascii_alphanumeric c || (c =? c_underscore)%Z || (c =? c_dollar)%Z
  | None => false
  end.

Definition dollar_quote_end (chars : str) (start : nat) : Result str (option nat) :=
  if dollar_glued (take start chars) then Ok None
  else match dollar_name true (drop (S start) chars) with
  | None => Ok None
  | Some name =>
    let delimiter := c_dollar :: name ++ [c_dollar] in
    let candidate := start + length delimiter in
    match split_at_first delimiter (drop candidate chars) with
    | Some (body, _) => Ok (Some (candidate + length body + length delimiter))
    | None => Err (lit "Dollar-quoted value or block is unterminated")
    end
  end.

(** *** Oracle alternative quotes *)

Definition oracle_glued (before : str) : bool :=
  match last before with
  | Some c => is_ascii_alphanumeric c || (c =? c_underscore)%Z || (c =? c_dollar)%Z || (c =? c_hash)%Z
  | None => false
  end.

Definition is_letter (l : Z) (o : option Z) : bool :=
  match o with Some c => eq_ignore_ascii_case c l | None => false end.

Definition is_char (c : Z) (o : option Z) : bool := bool_decide (o = Some c).

(** The index of the [q] of [q'] or [nq']. *)
Definition oracle_q_index (chars : str) (start : nat) : option nat :=
  if is_letter 113 (chars !! start) && is_char c_squote (chars !! (start + 1)) then Some start
  else if is_letter 110 (chars !! start) && is_letter 113 (chars !! (start + 1))
    && is_char c_squote (chars !! (start + 2)) then Some (start + 1)
  else None.

Definition oracle_closing (opening : Z) : Z :=
  if (opening =? c_lbracket)%Z then c_rbracket
  else if (opening =? 123)%Z then 125%Z
  else if (opening =? c_lparen)%Z then c_rparen
  else if (opening =? 60)%Z then 62%Z
  else opening.

Definition oracle_q_quote_end (chars : str) (start : nat) : Result str (option nat) :=
  if oracle_glued (take start chars) then Ok None
  else match oracle_q_index chars start with
  | None => Ok None
  | Some q_index =>
    match chars !! (q_index + 2) with
    | None => Err (lit "Oracle alternative quoted value is unterminated")
    | Some opening =>
      if is_whitespace opening then
        Err (lit "Oracle alternative quoted value uses an invalid delimiter")
      else match split_at_first [oracle_closing opening; c_squote] (drop (q_index + 3) chars) with
      | Some (body, _) => Ok (Some (q_index + 3 + length body + 2))
      | None => Err (lit "Oracle alternative quoted value is unterminated")
      end
    end
  end.

Definition is_newline (c : Z) : bool := (c =? c_nl)%Z || (c =? c_cr)%Z.

(** The characters up to the first line end. *)
Fixpoint until_newline (s : str) : str :=
  match s with
  | [] => []
  | c :: s' => if is_newline c then [] else c :: until_newline s'
  end.

Definition oracle_line_only_slash (chars : str) (i : nat) : bool :=
  forallb is_whitespace (until_newline (rev (take i chars)))
  && forallb is_whitespace (until_newline (drop (i + 1) chars)).

(** ** The scanner *)

(** Comment openings at the characters [rest], the first of them the current one. *)
Definition mysql_dash_comment (d : SqlFramingDialect) (rest : str) : bool :=
  match rest with
  | a :: b :: c :: _ =>
    bool_decide (d = Mysql) && (a =? c_minus)%Z && (b =? c_minus)%Z && is_whitespace c
  | _ => false
  end.

Definition standard_dash_comment (d : SqlFramingDialect) (rest : str) : bool :=
  is_dialect d [Sqlite; Postgres; Oracle; ClickHouse] && starts_with [c_minus; c_minus] rest.

Definition hash_comment (d : SqlFramingDialect) (rest : str) : bool :=
  match rest with
  | c :: next =>
    (c =? c_hash)%Z
    && (bool_decide (d = Mysql)
        || bool_decide (d = ClickHouse)
           && match next with
              | [] => true
              | n :: _ => (n =? c_bang)%Z || is_whitespace n
              end)
  | [] => false
  end.

Definition slash_comment (d : SqlFramingDialect) (rest : str) : bool :=
  bool_decide (d = ClickHouse) && starts_with [c_slash; c_slash] rest.

(** The MySQL test after a block comment opening. *)
Definition executable_comment (body : str) : bool :=
  match body with
  | a :: b => (a =? c_bang)%Z || eq_ignore_ascii_case a 109 && starts_with [c_bang] b
  | [] => false
  end.

Definition only_one_statement : str := lit "Only one SQL statement is allowed".

(** A quoted block found by its end: one significant token. *)
Definition quoted_block (after_closing : nat) (s : Scan) : Result str (option Scan) :=
  let s := flushed s in
  if terminated s then Err only_one_statement
  else Ok (Some (set_index after_closing (set_significant s))).

Definition dollar_turn (d : SqlFramingDialect) (chars : str) (current : Z) (s : Scan)
  : Result str (option Scan) :=
  if is_dialect d [Postgres; ClickHouse] && (current =? c_dollar)%Z then
    after ← dollar_quote_end chars (index s);
    match after with Some i => quoted_block i s | None => Ok None end
  else Ok None.

Definition oracle_turn (d : SqlFramingDialect) (chars : str) (current : Z) (s : Scan)
  : Result str (option Scan) :=
  if bool_decide (d = Oracle) then
    after ← oracle_q_quote_end chars (index s);
    match after with
    | Some i => quoted_block i s
    | None =>
      if (current =? c_slash)%Z && oracle_line_only_slash chars (index s)
      then Err (lit "SQL*Plus client commands are not supported")
      else Ok None
    end
  else Ok None.

Definition terminator_turn (d : SqlFramingDialect) (s : Scan) : Result str Scan :=
  let s := flushed s in
  if bool_decide (d = Oracle) then
    Err (lit "Oracle server SQL must not include a client statement terminator")
  else if terminated s then Err only_one_statement
  else Ok (advance 1 (set_terminated s)).

(** The [match current] at the end of the turn. *)
Definition character_turn (d : SqlFramingDialect) (current : Z) (s : Scan) : Result str Scan :=
  if (current =? c_squote)%Z then Ok (enter SingleQuote (flushed s))
  else if (current =? c_dquote)%Z then Ok (enter DoubleQuote (flushed s))
  else if (current =? c_backtick)%Z && is_dialect d [Sqlite; Mysql; ClickHouse] then
    Ok (enter Backtick (flushed s))
  else if (current =? c_lbracket)%Z && bool_decide (d = Sqlite) then
    Ok (enter BracketIdentifier (flushed s))
  else if (current =? c_lparen)%Z then
    let s := flushed s in Ok (set_depth (saturating_add U32_MAX (parenthesis_depth s) 1) s)
  else if (current =? c_rparen)%Z then
    let s := flushed s in
    if (parenthesis_depth s =? 0)%Z then Err (lit "SQL contains unmatched parentheses")
    else Ok (set_depth (parenthesis_depth s - 1) s)
  else if (current =? c_at)%Z && bool_decide (d = Oracle) then Ok (set_link (flushed s))
  else if is_ascii_alphabetic current || (current =? c_underscore)%Z then
    Ok (push_char (to_ascii_uppercase current) s)
  else if is_ascii_digit current && negb (bool_decide (current_word s = [])) then
    Ok (push_char current s)
  else Ok (flushed s).

(** The character part of a turn, terminator and significance tests included. *)
Definition plain_char_turn (d : SqlFramingDialect) (current : Z) (s : Scan) : Result str Scan :=
  if (current =? c_semi)%Z then terminator_turn d s
  else
    s ← (if negb (is_whitespace current) then
           if terminated s then Err only_one_statement else Ok (set_significant s)
         else Ok s);
    s ← character_turn d current s;
    Ok (advance 1 s).

Definition normal_turn (d : SqlFramingDialect) (chars : str) (s : Scan) : Result str Scan :=
  match drop (index s) chars with
  | [] => Ok s
  | current :: next =>
    let rest := current :: next in
    if mysql_dash_comment d rest || standard_dash_comment d rest then
      Ok (advance 2 (enter LineComment (flushed s)))
    else if hash_comment d rest then Ok (advance 1 (enter LineComment (flushed s)))
    else if slash_comment d rest then Ok (advance 2 (enter LineComment (flushed s)))
    else if starts_with [c_slash; c_star] rest then
      if bool_decide (d = Mysql) && executable_comment (drop 2 rest)
      then Err (lit "MySQL executable comments are not supported")
      else Ok (advance 2 (set_block_depth 1 (enter BlockComment (flushed s))))
    else
      dollar ← dollar_turn d chars current s;
      match dollar with
      | Some s' => Ok s'
      | None =>
        oracle ← oracle_turn d chars current s;
        match oracle with
        | Some s' => Ok s'
        | None => plain_char_turn d current s
        end
      end
  end.

Definition delimiter_of (st : ScanState) : Z :=
  match st with
  | SingleQuote => c_squote
  | DoubleQuote => c_dquote
  | _ => c_backtick
  end.

Definition quoted_turn (d : SqlFramingDialect) (chars : str) (s : Scan) : Result str Scan :=
  match drop (index s) chars with
  | [] => Ok s
  | current :: next =>
    let delimiter := delimiter_of (scan_state s) in
    if (current =? c_bslash)%Z then
      if bool_decide (d = ClickHouse) then Ok (advance 2 s)
      else Err (lit "Dialect-specific backslash quoting is not supported yet")
    else if (current =? delimiter)%Z then
      if starts_with [delimiter] next then Ok (advance 2 s)
      else Ok (advance 1 (enter Normal s))
    else Ok (advance 1 s)
  end.

Definition bracket_turn (chars : str) (s : Scan) : Result str Scan :=
  match drop (index s) chars with
  | [] => Ok s
  | current :: next =>
    if (current =? c_rbracket)%Z then
      if starts_with [c_rbracket] next then Ok (advance 2 s)
      else Ok (advance 1 (enter Normal s))
    else Ok (advance 1 s)
  end.

Definition line_comment_turn (chars : str) (s : Scan) : Result str Scan :=
  match drop (index s) chars with
  | [] => Ok s
  | current :: _ =>
    if is_newline current then Ok (advance 1 (enter Normal s)) else Ok (advance 1 s)
  end.

Definition block_comment_turn (d : SqlFramingDialect) (chars : str) (s : Scan) : Result str Scan :=
  let rest := drop (index s) chars in
  if starts_with [c_slash; c_star] rest then
    if is_dialect d [Mysql; Oracle]
    then Err (lit "Nested block comments are not supported for this SQL dialect")
    else Ok (advance 2 (set_block_depth (block_depth s + 1) s))
  else if starts_with [c_star; c_slash] rest then
    let s := advance 2 (set_block_depth (block_depth s - 1) s) in
    Ok (if (block_depth s =? 0)%Z then enter Normal s else s)
  else Ok (advance 1 s).

(** The body of [while index < chars.len()]. *)
Definition frame_turn (d : SqlFramingDialect) (chars : str) (s : Scan) : Result str Scan :=
  match scan_state s with
  | Normal => normal_turn d chars s
  | SingleQuote | DoubleQuote | Backtick => quoted_turn d chars s
  | BracketIdentifier => bracket_turn chars s
  | LineComment => line_comment_turn chars s
  | BlockComment => block_comment_turn d chars s
  end.

Definition scan_more (chars : str) (s : Scan) : bool := index s <? length chars.

Definition scan_start : Scan := mkScan 0 Normal 0 false [] [] false 0 false.

Definition client_command (d : SqlFramingDialect) (sql : str) : Result str unit :=
  let trimmed := trim_start sql in
  if starts_with [c_bslash] trimmed || starts_with [c_bang] trimmed || starts_with [c_dot] trimmed
  then Err (lit "Client or host commands are not supported")
  else if bool_decide (d = Oracle)
    && (starts_with [c_at] trimmed || str_eqb trimmed [c_slash]
        || starts_with [c_slash; c_cr] trimmed || starts_with [c_slash; c_nl] trimmed)
  then Err (lit "SQL*Plus client commands are not supported")
  else Ok tt.

(** The checks after the loop. *)
Definition finish_framing (d : SqlFramingDialect) (s : Scan) : Result str StatementFraming :=
  let s := flushed s in
  if negb (bool_decide (scan_state s = Normal)) && negb (bool_decide (scan_state s = LineComment))
  then Err (lit "SQL contains an unterminated quoted value, identifier, or comment")
  else if negb (parenthesis_depth s =? 0)%Z then Err (lit "SQL contains unmatched parentheses")
  else if negb (significant s) || bool_decide (scanned_words s = [])
  then Err (lit "SQL must contain one statement")
  else
    let all := map value (scanned_words s) in
    let top := map value (List.filter (fun w => (depth w =? 0)%Z) (scanned_words s)) in
    match top with
    | [] => Err (lit "SQL must contain one top-level statement")
    | first_word :: _ =>
      if one_of first_word ["DELIMITER"; "SOURCE"]%string
         || bool_decide (d = Mysql) && str_eqb first_word (lit "SYSTEM")
      then Err (lit "Client or host commands are not supported")
      else Ok (mkStatementFraming top all (database_link s))
    end.

(** The fuel is the number of characters: every turn advances the index. *)
Definition frame_single_statement (sql : str) (d : SqlFramingDialect) : Result str StatementFraming :=
  if bool_decide (trim sql = []) then Err (lit "SQL must not be empty")
  else if (SQL_MAX_CHARS <? Z.of_nat (length sql))%Z then Err (lit "SQL exceeds the maximum length")
  else
    _ ← client_command d sql;
    s ← while_loop (length sql) (scan_more sql) (frame_turn d sql) scan_start;
    finish_framing d s.

Example frame_1 :
  frame_single_statement (lit "with x as (select 1) update t set a = 'it''s;' where b1 = 2; -- end") Sqlite
  = Ok (mkStatementFraming (map lit ["WITH"; "X"; "AS"; "UPDATE"; "T"; "SET"; "A"; "WHERE"; "B1"]%string)
      (map lit ["WITH"; "X"; "AS"; "SELECT"; "UPDATE"; "T"; "SET"; "A"; "WHERE"; "B1"]%string) false).
Proof. vm_compute. reflexivity. Qed.

Example frame_2 : frame_single_statement (lit "select 1; select 2") Postgres = Err only_one_statement.
Proof. vm_compute. reflexivity. Qed.

Example frame_3 :
  frame_single_statement (lit "select q'[it's; fine]' from t@remote") Oracle
  = Ok (mkStatementFraming (map lit ["SELECT"; "FROM"; "T"; "REMOTE"]%string)
      (map lit ["SELECT"; "FROM"; "T"; "REMOTE"]%string) true).
Proof. vm_compute. reflexivity. Qed.

Example frame_4 : is_ok (frame_single_statement (lit "select $a$ ; $$ $a$ /* /* x */ ; */ # ;") ClickHouse) = true.
Proof. vm_compute. reflexivity. Qed.

Example frame_5 : frame_single_statement (lit "select /*!50000 sleep(1) */ 1") Mysql
  = Err (lit "MySQL executable comments are not supported").
Proof. vm_compute. reflexivity. Qed.

(** ** The lexical grammar *)

(** A lexeme, with the text that opens it kept apart from the rest of it. *)
Inductive lexeme :=
| LxChar (c : Z)
| LxTerminator
| LxLine (opening body : str)
| LxBlock (body : str)
| LxQuoted (opening : Z) (body : str)
| LxDollar (delimiter body : str)
| LxOracle (prefix : str) (opening : Z) (body : str).

Definition lx_text (l : lexeme) : str :=
  match l with
  | LxChar c => [c]
  | LxTerminator => [c_semi]
  | LxLine o b => o ++ b
  | LxBlock b => c_slash :: c_star :: b
  | LxQuoted o b => o :: b
  | LxDollar t b => t ++ b ++ t
  | LxOracle p o b => p ++ c_squote :: o :: b ++ [oracle_closing o; c_squote]
  end.

Definition lxs_text (ls : list lexeme) : str := flat_map lx_text ls.

(** The closing character of the quotes of a dialect. *)
Definition quote_closing (d : SqlFramingDialect) (o : Z) : option Z :=
  if (o =? c_squote)%Z || (o =? c_dquote)%Z then Some o
  else if (o =? c_backtick)%Z && is_dialect d [Sqlite; Mysql; ClickHouse] then Some c_backtick
  else if (o =? c_lbracket)%Z && bool_decide (d = Sqlite) then Some c_rbracket
  else None.

(** The characters from inside a quote up to the closing one: a doubled closing
    character stands for itself, only ClickHouse escapes with a backslash, and a
    backslash is an ordinary character only in a bracket identifier. *)
Inductive quoted_rest (d : SqlFramingDialect) (close : Z) : str -> Prop :=
| qr_end : quoted_rest d close [close]
| qr_double s : quoted_rest d close s -> quoted_rest d close (close :: close :: s)
| qr_escape c s : d = ClickHouse -> close <> c_rbracket ->
    quoted_rest d close s -> quoted_rest d close (c_bslash :: c :: s)
| qr_char c s : c <> close -> (c = c_bslash -> close = c_rbracket) ->
    quoted_rest d close s -> quoted_rest d close (c :: s).

(** The characters from inside [k] nested block comments to the end of the outermost. *)
Inductive block_rest (d : SqlFramingDialect) : Z -> str -> Prop :=
| br_end : block_rest d 1 [c_star; c_slash]
| br_close k s : (1 < k)%Z -> block_rest d (k - 1) s -> block_rest d k (c_star :: c_slash :: s)
| br_open k s : is_dialect d [Mysql; Oracle] = false ->
    block_rest d (k + 1) s -> block_rest d k (c_slash :: c_star :: s)
| br_char k c s : starts_with [c_slash; c_star] (c :: s) = false ->
    starts_with [c_star; c_slash] (c :: s) = false ->
    block_rest d k s -> block_rest d k (c :: s).

Definition line_opening (d : SqlFramingDialect) (o rest : str) : Prop :=
  (o = [c_minus; c_minus] /\ (d = Mysql -> exists c r, rest = c :: r /\ is_whitespace c = true))
  \/ (o = [c_hash] /\ (d = Mysql \/ d = ClickHouse /\
       (rest = [] \/ exists c r, rest = c :: r /\ (c = c_bang \/ is_whitespace c = true))))
  \/ (o = [c_slash; c_slash] /\ d = ClickHouse).

(** A line comment holds its line end, or runs to the end of the text. *)
Definition line_body (b after : str) : Prop :=
  (after = [] /\ Forall (fun c => is_newline c = false) b)
  \/ exists b' c, b = b' ++ [c] /\ is_newline c = true /\ Forall (fun c => is_newline c = false) b'.

Definition dollar_delimiter (t : str) : Prop :=
  exists name, t = c_dollar :: name ++ [c_dollar] /\
    Forall (fun c => is_ascii_alphanumeric c || (c =? c_underscore)%Z = true) name /\
    (forall c, head name = Some c -> is_ascii_digit c = false).

(** A dollar-quote delimiter at the front of [s], not glued to a word before it. *)
Definition dollar_opening (d : SqlFramingDialect) (before : str) (t s : str) : Prop :=
  (d = Postgres \/ d = ClickHouse) /\ dollar_glued before = false /\
  dollar_delimiter t /\ exists r, s = t ++ r.

(** [q'] or [nq'] in either case at the front of [s], not glued to a word before it. *)
Definition oracle_opening (d : SqlFramingDialect) (before : str) (p s : str) : Prop :=
  d = Oracle /\ oracle_glued before = false /\
  (str_upper p = lit "Q" \/ str_upper p = lit "NQ") /\ exists r, s = p ++ c_squote :: r.

(** A lexeme between the text before it and the text after it. *)
Definition lexeme_ok (d : SqlFramingDialect) (before : str) (l : lexeme) (after : str) : Prop :=
  match l with
  | LxChar c =>
    c <> c_semi /\ quote_closing d c = None /\
    (forall o r, c :: after = o ++ r -> ~ line_opening d o r) /\
    starts_with [c_slash; c_star] (c :: after) = false /\
    (forall t, ~ dollar_opening d before t (c :: after)) /\
    (forall p, ~ oracle_opening d before p (c :: after)) /\
    (d = Oracle -> c = c_slash -> oracle_line_only_slash (before ++ c :: after) (length before) = false)
  | LxTerminator => d <> Oracle
  | LxLine o b => line_opening d o (b ++ after) /\ line_body b after
  | LxBlock b => block_rest d 1 b /\ (d = Mysql -> executable_comment (b ++ after) = false)
  | LxQuoted o b =>
    exists close, quote_closing d o = Some close /\ quoted_rest d close b /\
      starts_with [close] after = false
  | LxDollar t b => dollar_opening d before t (t ++ b ++ t ++ after) /\
      split_at_first t (b ++ t ++ after) = Some (b, after)
  | LxOracle p o b =>
    oracle_opening d before p (p ++ [c_squote]) /\ is_whitespace o = false /\
    split_at_first [oracle_closing o; c_squote] (b ++ [oracle_closing o; c_squote] ++ after)
      = Some (b, after)
  end.

Fixpoint lexemes_ok (d : SqlFramingDialect) (before : str) (ls : list lexeme) : Prop :=
  match ls with
  | [] => True
  | l :: ls' => lexeme_ok d before l (lxs_text ls') /\ lexemes_ok d (before ++ lx_text l) ls'
  end.

(** Lexemes a server ignores. *)
Definition lx_trivia (l : lexeme) : bool :=
  match l with
  | LxChar c => is_whitespace c
  | LxLine _ _ | LxBlock _ => true
  | _ => false
  end.

(** The parenthesis depth after a lexeme. *)
Definition lx_depth (k : Z) (l : lexeme) : Z :=
  match l with
  | LxChar c => if (c =? c_lparen)%Z then k + 1 else if (c =? c_rparen)%Z then k - 1 else k
  | _ => k
  end.

Definition word_of (cur : str) (k : Z) : list ScannedWord :=
  match cur with [] => [] | _ => [mkScannedWord cur k] end.

(** The words of a lexeme sequence: the maximal runs of identifier characters that
    do not start with a digit, in upper case, with their parenthesis depth. *)
Fixpoint words_from (k : Z) (cur : str) (ls : list lexeme) : list ScannedWord :=
  match ls with
  | [] => word_of cur k
  | l :: ls' =>
    match l with
    | LxChar c =>
      if is_ascii_alphabetic c || (c =? c_underscore)%Z then
        words_from k (cur ++ [to_ascii_uppercase c]) ls'
      else if is_ascii_digit c && negb (bool_decide (cur = [])) then words_from k (cur ++ [c]) ls'
      else word_of cur k ++ words_from (lx_depth k l) [] ls'
    | _ => word_of cur k ++ words_from k [] ls'
    end
  end.

(** No parenthesis closes more than was opened, and all are closed at the end. *)
Fixpoint parens_ok (k : Z) (ls : list lexeme) : Prop :=
  match ls with
  | [] => k = 0%Z
  | l :: ls' => (0 <= lx_depth k l)%Z /\ parens_ok (lx_depth k l) ls'
  end.

(** At most one terminator, followed by trivia only. *)
Fixpoint one_statement (ls : list lexeme) : Prop :=
  match ls with
  | [] => True
  | LxTerminator :: ls' => Forall (fun l => lx_trivia l = true) ls'
  | _ :: ls' => one_statement ls'
  end.

Definition lx_link (l : lexeme) : bool := match l with LxChar c => (c =? c_at)%Z | _ => false end.

Definition lx_terminator (l : lexeme) : bool := match l with LxTerminator => true | _ => false end.

(** ** Lemmas on the helpers *)

Lemma flushed_words s :
  scanned_words (flushed s) = scanned_words s ++ word_of (current_word s) (parenthesis_depth s).
Proof.
  unfold flushed, flush_word, word_of. case_bool_decide as E; simpl.
  - by rewrite E, app_nil_r.
  - by destruct (current_word s).
Qed.

Lemma flushed_current s : current_word (flushed s) = [].
Proof. unfold flushed, flush_word. by case_bool_decide. Qed.

Lemma flushed_same s :
  index (flushed s) = index s /\ scan_state (flushed s) = scan_state s /\
  block_depth (flushed s) = block_depth s /\ terminated (flushed s) = terminated s /\
  significant (flushed s) = significant s /\
  parenthesis_depth (flushed s) = parenthesis_depth s /\
  database_link (flushed s) = database_link s.
Proof. unfold flushed. by destruct (flush_word _ _ _). Qed.

Lemma flushed_index s : index (flushed s) = index s.
Proof. apply flushed_same. Qed.
Lemma flushed_state s : scan_state (flushed s) = scan_state s.
Proof. apply flushed_same. Qed.
Lemma flushed_block s : block_depth (flushed s) = block_depth s.
Proof. apply flushed_same. Qed.
Lemma flushed_terminated s : terminated (flushed s) = terminated s.
Proof. apply flushed_same. Qed.
Lemma flushed_significant s : significant (flushed s) = significant s.
Proof. apply flushed_same. Qed.
Lemma flushed_depth s : parenthesis_depth (flushed s) = parenthesis_depth s.
Proof. apply flushed_same. Qed.
Lemma flushed_link s : database_link (flushed s) = database_link s.
Proof. apply flushed_same. Qed.

Create Rewrite HintDb frame.
#[export] Hint Rewrite flushed_words flushed_current flushed_index flushed_state flushed_block
  flushed_terminated flushed_significant flushed_depth flushed_link : frame.

Arguments flushed : simpl never.

Lemma starts_with_spec p s : starts_with p s = true <-> exists r, s = p ++ r.
Proof.
  unfold starts_with. split.
  - destruct (strip_prefix p s) as [r|] eqn:E; [|done]. eauto using strip_prefix_app.
  - intros [r ->]. induction p as [|a p IH]; [done|]. simpl. by rewrite Z.eqb_refl.
Qed.

Lemma starts_with_cons c s : starts_with [c] s = true <-> exists r, s = c :: r.
Proof. apply (starts_with_spec [c]). Qed.

Lemma str_upper_one p l :
  str_upper p = [l] <-> exists c, p = [c] /\ to_ascii_uppercase c = l.
Proof.
  split; [|by intros (c & -> & <-)].
  destruct p as [|c [|? ?]]; simpl; [done| |done]. intros [= <-]. eauto.
Qed.

Lemma dollar_name_Some first s name :
  dollar_name first s = Some name ->
  (exists r, s = name ++ c_dollar :: r) /\
  Forall (fun c => is_ascii_alphanumeric c || (c =? c_underscore)%Z = true) name /\
  (first = true -> forall c, head name = Some c -> is_ascii_digit c = false).
Proof.
  revert first name. induction s as [|c s IH]; intros first name; simpl; [done|].
  destruct (Z.eqb_spec c c_dollar) as [->|Hc].
  { intros [= <-]. split; [by exists s|]. by split. }
  destruct (if first then _ else _) eqn:Hv; [|done].
  destruct (dollar_name false s) as [n|] eqn:E; [|done]. intros [= <-].
  destruct (IH _ _ E) as ((r & ->) & Hf & _). split; [by exists r|]. split.
  - constructor; [|done]. destruct first; [|done].
    unfold is_ascii_alphanumeric. apply orb_true_iff in Hv as [->| ->]; [done|by rewrite orb_true_r].
  - intros -> x [= <-]. unfold is_ascii_alphabetic, is_ascii_upper, is_ascii_lower, is_ascii_digit in *. lia.
Qed.

Lemma dollar_name_complete first name r :
  Forall (fun c => is_ascii_alphanumeric c || (c =? c_underscore)%Z = true) name ->
  (first = true -> forall c, head name = Some c -> is_ascii_digit c = false) ->
  dollar_name first (name ++ c_dollar :: r) = Some name.
Proof.
  intros Hf. revert first. induction Hf as [|c name Hc Hf IH]; intros first Hd; [done|].
  simpl. destruct (Z.eqb_spec c c_dollar) as [->|_]; [done|].
  replace (if first then _ else _) with true.
  - rewrite IH; [done|]. done.
  - destruct first; [|done]. specialize (Hd eq_refl c eq_refl).
    unfold is_ascii_alphanumeric in Hc. rewrite Hd, orb_false_r in Hc. done.
Qed.

Lemma dollar_end_Some d chars i j :
  (d = Postgres \/ d = ClickHouse) -> chars !! i = Some c_dollar ->
  dollar_quote_end chars i = Ok (Some j) ->
  exists t b, drop i chars = t ++ b ++ t ++ drop j chars /\ j = i + length (t ++ b ++ t) /\
    lexeme_ok d (take i chars) (LxDollar t b) (drop j chars).
Proof.
  intros Hd Hi. unfold dollar_quote_end. destruct (dollar_glued _) eqn:Hg; [done|].
  destruct (dollar_name _ _) as [name|] eqn:Hn; [|done].
  destruct (dollar_name_Some _ _ _ Hn) as ((r & Hr) & Hf & Hdig).
  set (t := c_dollar :: name ++ [c_dollar]).
  assert (Ht : drop i chars = t ++ r).
  { rewrite (drop_S _ c_dollar i) by done. rewrite Hr. unfold t. simpl. by rewrite <-app_assoc. }
  destruct (drop_take_app _ _ _ _ Ht) as [Hr' _]. rewrite Hr'.
  destruct (split_at_first t r) as [[b a]|] eqn:Hs; [|done]. intros [= Hjj].
  pose proof (split_at_first_app _ _ _ _ Hs) as ->.
  assert (Hj : drop i chars = (t ++ b ++ t) ++ a) by (rewrite Ht, <-!app_assoc; done).
  destruct (drop_take_app _ _ _ _ Hj) as [Hj' _].
  exists t, b.
  assert (j = i + length (t ++ b ++ t)) as -> by (rewrite !length_app; unfold t in *; simpl in *; rewrite ?length_app in *; simpl in *; lia).
  rewrite Hj'. split; [by rewrite Ht|]. split; [done|]. split; [|done].
  split; [done|]. split; [done|]. split; [|by eexists].
  exists name. split; [done|]. split; [done|]. intros c. by apply Hdig.
Qed.

Lemma dollar_end_None d chars i :
  chars !! i = Some c_dollar -> dollar_quote_end chars i = Ok None ->
  forall t, ~ dollar_opening d (take i chars) t (drop i chars).
Proof.
  intros Hi Hq t (_ & Hg & (name & -> & Hf & Hd) & r & Hr). unfold dollar_quote_end in Hq.
  rewrite Hg in Hq.
  rewrite (drop_S _ c_dollar i) in Hr by done. injection Hr as Hr.
  rewrite Hr, <-app_assoc in Hq. change ([c_dollar] ++ r) with (c_dollar :: r) in Hq.
  rewrite (dollar_name_complete true) in Hq by auto.
  by destruct (split_at_first _ _) as [[? ?]|].
Qed.

Lemma is_letter_spec l o :
  is_letter l o = true <-> exists c, o = Some c /\ to_ascii_uppercase c = to_ascii_uppercase l.
Proof.
  unfold is_letter, eq_ignore_ascii_case. destruct o as [c|].
  - rewrite Z.eqb_eq. split; [eauto|]. by intros (? & [= <-] & ?).
  - split; [done|]. by intros (? & ? & _).
Qed.

Lemma oracle_q_index_Some chars i q :
  oracle_q_index chars i = Some q ->
  exists p, (str_upper p = lit "Q" \/ str_upper p = lit "NQ") /\
    drop i chars = p ++ c_squote :: drop (q + 2) chars /\ q + 2 = i + length p + 1.
Proof.
  unfold oracle_q_index.
  destruct (is_letter 113 (chars !! i) && _) eqn:E1.
  - apply andb_true_iff in E1 as [(c & Hc & Hu)%is_letter_spec Hq%bool_decide_eq_true].
    intros [= <-]. exists [c]. split; [left; simpl; by rewrite Hu|].
    rewrite (drop_S _ c i Hc). rewrite Nat.add_1_r in Hq. rewrite (drop_S _ _ _ Hq).
    split; [|simpl; lia]. simpl. do 3 f_equal. lia.
  - clear E1. destruct (_ && _) eqn:E2; [|done].
    apply andb_true_iff in E2 as [[(c & Hc & Hu)%is_letter_spec
      (c' & Hc' & Hu')%is_letter_spec]%andb_true_iff Hq%bool_decide_eq_true].
    intros [= <-]. exists [c; c']. split; [right; simpl; by rewrite Hu, Hu'|].
    rewrite (drop_S _ c i Hc). rewrite Nat.add_1_r in Hc'. rewrite (drop_S _ _ _ Hc').
    replace (i + 2) with (S (S i)) in Hq by lia. rewrite (drop_S _ _ _ Hq).
    split; [|simpl; lia]. simpl. do 4 f_equal. lia.
Qed.

Lemma oracle_q_index_None chars i p r :
  (str_upper p = lit "Q" \/ str_upper p = lit "NQ") -> drop i chars = p ++ c_squote :: r ->
  oracle_q_index chars i <> None.
Proof.
  intros Hp Hd. unfold oracle_q_index.
  assert (Hl : forall k, chars !! (i + k) = (p ++ c_squote :: r) !! k)
    by (intros k; rewrite <-Hd; symmetry; apply lookup_drop).
  pose proof (Hl 0) as H0. rewrite Nat.add_0_r in H0. rewrite H0, (Hl 1), (Hl 2).
  destruct Hp as [Hp|Hp].
  - destruct p as [|a [|? ?]]; try done. injection Hp as Ha. simpl.
    unfold is_letter, eq_ignore_ascii_case. by rewrite Ha.
  - destruct p as [|a [|b [|? ?]]]; try done. injection Hp as Ha Hb. simpl.
    unfold is_letter, eq_ignore_ascii_case. rewrite Ha, Hb. simpl. by repeat case_match.
Qed.

Lemma oracle_end_Some chars i j :
  oracle_q_quote_end chars i = Ok (Some j) ->
  exists p o b, drop i chars = lx_text (LxOracle p o b) ++ drop j chars /\
    j = i + length (lx_text (LxOracle p o b)) /\
    lexeme_ok Oracle (take i chars) (LxOracle p o b) (drop j chars).
Proof.
  unfold oracle_q_quote_end. destruct (oracle_glued _) eqn:Hg; [done|].
  destruct (oracle_q_index _ _) as [q|] eqn:Hq; [|done].
  destruct (oracle_q_index_Some _ _ _ Hq) as (p & Hp & Hd & Hl).
  destruct (chars !! (q + 2)) as [o|] eqn:Ho; [|done].
  destruct (is_whitespace o) eqn:Hw; [done|].
  destruct (split_at_first _ _) as [[b r]|] eqn:Hs; [|done]. intros [= Hj].
  exists p, o, b. set (l := LxOracle p o b).
  rewrite (drop_S _ o (q + 2) Ho) in Hd. replace (S (q + 2)) with (q + 3) in Hd by lia.
  pose proof (split_at_first_app _ _ _ _ Hs) as Hr.
  assert (Hd' : drop i chars = lx_text l ++ r).
  { rewrite Hd, Hr. cbn [lx_text l]. rewrite <-app_assoc. cbn [app]. by rewrite <-app_assoc. }
  assert (j = i + length (lx_text l)) as ->.
  { simpl. rewrite length_app. simpl. rewrite length_app. simpl. lia. }
  destruct (drop_take_app _ _ _ _ Hd') as [-> _].
  split; [done|]. split; [done|]. split; [|split; [done|by rewrite <-Hr]].
  split; [done|]. split; [done|]. split; [done|by exists []].
Qed.

Lemma oracle_end_None chars i :
  oracle_q_quote_end chars i = Ok None ->
  forall p, ~ oracle_opening Oracle (take i chars) p (drop i chars).
Proof.
  intros H p (_ & Hg & Hp & r & Hr). unfold oracle_q_quote_end in H. rewrite Hg in H.
  destruct (oracle_q_index _ _) eqn:Hq; [|by eapply oracle_q_index_None].
  by repeat case_match.
Qed.

Lemma is_dialect_spec d ds : is_dialect d ds = true <-> d ∈ ds.
Proof.
  unfold is_dialect. rewrite existsb_exists. split.
  - intros (x & Hx%list_elem_of_In & ->%bool_decide_eq_true). done.
  - intros H. exists d. by rewrite bool_decide_eq_true, <-list_elem_of_In.
Qed.

(** The tests for a comment opening decide [line_opening]. *)
Lemma dash_comment_spec d rest :
  mysql_dash_comment d rest || standard_dash_comment d rest = true <->
  exists r, rest = [c_minus; c_minus] ++ r /\ line_opening d [c_minus; c_minus] r.
Proof.
  unfold mysql_dash_comment, standard_dash_comment, line_opening. rewrite orb_true_iff, andb_true_iff,
    is_dialect_spec, starts_with_spec. split.
  - intros [H|(Hd & r & ->)].
    + destruct rest as [|a [|b [|c r]]]; try done. breflect. subst.
      apply Z.eqb_eq in H1, H2. subst. exists (c :: r). split; [done|]. left. eauto.
    + exists r. split; [done|]. left. split; [done|]. intros ->. by apply is_dialect_spec in Hd.
  - intros (r & -> & [[_ H]|[[? _]|[? _]]]); [|done..].
    destruct (decide (d = Mysql)) as [->|Hd].
    + destruct (H eq_refl) as (c & r' & -> & Hc). left. simpl. by rewrite Hc.
    + right. split; [|by eexists]. apply is_dialect_spec. by destruct d.
Qed.

Lemma hash_comment_spec d rest :
  hash_comment d rest = true <-> exists r, rest = [c_hash] ++ r /\ line_opening d [c_hash] r.
Proof.
  unfold hash_comment, line_opening. split.
  - destruct rest as [|c r]; [done|]. rewrite andb_true_iff, Z.eqb_eq, orb_true_iff, andb_true_iff,
      !bool_decide_eq_true. intros [-> H]. exists r. split; [done|]. right. left. split; [done|].
    destruct H as [->|[-> H]]; [by left|]. right. split; [done|].
    destruct r as [|n r]; [by left|]. right. exists n, r. split; [done|].
    apply orb_true_iff in H as [H%Z.eqb_eq|H]; auto.
  - intros (r & -> & [[? _]|[[_ H]|[? _]]]); [done| |done]. simpl. apply orb_true_iff.
    rewrite andb_true_iff, !bool_decide_eq_true. destruct H as [->|[-> H]]; [by left|]. right.
    split; [done|]. destruct H as [->|(c & r' & -> & H)]; [done|].
    apply orb_true_iff. destruct H as [->|H]; auto.
Qed.

Lemma slash_comment_spec d rest :
  slash_comment d rest = true <-> exists r, rest = [c_slash; c_slash] ++ r /\ line_opening d [c_slash; c_slash] r.
Proof.
  unfold slash_comment, line_opening. rewrite andb_true_iff, bool_decide_eq_true, starts_with_spec.
  split.
  - intros (-> & r & ->). exists r. split; [done|]. auto.
  - intros (r & -> & [[? _]|[[? _]|[_ ->]]]); [done..|]. split; [done|by exists r].
Qed.

(** When none of the tests fires, no line comment opens here. *)
Lemma no_line_opening d rest o r :
  mysql_dash_comment d rest || standard_dash_comment d rest = false ->
  hash_comment d rest = false -> slash_comment d rest = false ->
  rest = o ++ r -> ~ line_opening d o r.
Proof.
  intros H1 H2 H3 -> Ho.
  assert (o = [c_minus; c_minus] \/ o = [c_hash] \/ o = [c_slash; c_slash]) as Hc
    by (destruct Ho as [[? _]|[[? _]|[? _]]]; auto).
  destruct Hc as [->|[->| ->]].
  - eapply eq_true_false_abs; [|exact H1]. apply dash_comment_spec. eauto.
  - eapply eq_true_false_abs; [|exact H2]. apply hash_comment_spec. eauto.
  - eapply eq_true_false_abs; [|exact H3]. apply slash_comment_spec. eauto.
Qed.

(** ** An accepted text is a sequence of lexemes *)

Section sound.
Context (d : SqlFramingDialect) (chars : str).

Definition lx_significant (l : lexeme) : bool := negb (lx_trivia l || lx_terminator l).

(** [reads s ls s']: from [s] the accumulators read [ls] and end as in [s']. *)
Record reads (s : Scan) (ls : list lexeme) (s' : Scan) : Prop := {
  r_words : scanned_words s ++ words_from (parenthesis_depth s) (current_word s) ls
            = scanned_words (flushed s');
  r_parens : parens_ok (parenthesis_depth s) ls;
  r_one : if terminated s then Forall (fun l => lx_trivia l = true) ls else one_statement ls;
  r_link : database_link s'
           = database_link s || bool_decide (d = Oracle) && existsb lx_link ls;
  r_significant : significant s' = significant s || existsb lx_significant ls;
}.

(** The accumulators of [s] become those of [s1] over one lexeme. *)
Record absorbs (s : Scan) (l : lexeme) (s1 : Scan) : Prop := {
  a_words ls : scanned_words s ++ words_from (parenthesis_depth s) (current_word s) (l :: ls)
    = scanned_words s1 ++ words_from (parenthesis_depth s1) (current_word s1) ls;
  a_depth : parenthesis_depth s1 = lx_depth (parenthesis_depth s) l;
  a_nonneg : (0 <= parenthesis_depth s1)%Z;
  a_trivia : terminated s = true -> lx_trivia l = true;
  a_terminated : terminated s1 = terminated s || lx_terminator l;
  a_link : database_link s1 = database_link s || bool_decide (d = Oracle) && lx_link l;
  a_significant : significant s1 = significant s || lx_significant l;
}.

Lemma reads_cons s l s1 ls s' : absorbs s l s1 -> reads s1 ls s' -> reads s (l :: ls) s'.
Proof.
  intros [Aw Ad An At Atm Al As] [Rw Rp Ro Rl Rs]. split.
  - by rewrite Aw.
  - simpl. by rewrite <-Ad.
  - destruct (terminated s) eqn:E.
    + rewrite Atm in Ro. simpl in Ro. constructor; auto.
    + rewrite Atm in Ro. simpl in Ro. destruct l; exact Ro.
  - simpl. rewrite Rl, Al. by destruct (database_link s), (bool_decide _), (lx_link l).
  - simpl. rewrite Rs, As. by rewrite orb_assoc.
Qed.

(** Any lexeme but a character ends the current word. *)
Lemma absorbs_flush s l s1 :
  (forall c, l <> LxChar c) -> (0 <= parenthesis_depth s)%Z ->
  scanned_words s1 = scanned_words (flushed s) -> current_word s1 = [] ->
  parenthesis_depth s1 = parenthesis_depth s -> database_link s1 = database_link s ->
  (terminated s = true -> lx_trivia l = true) ->
  terminated s1 = terminated s || lx_terminator l ->
  significant s1 = significant s || lx_significant l -> absorbs s l s1.
Proof.
  intros Hl Hd Hw Hc Hp Hk Ht Htm Hs.
  split; [|destruct l; try done; by destruct (Hl c)|by rewrite Hp|done|done| |done].
  - intros ls. rewrite Hw, Hc, Hp, flushed_words, <-app_assoc. f_equal.
    destruct l; try done. by destruct (Hl c).
  - rewrite Hk. destruct l; simpl; rewrite ?andb_false_r, ?orb_false_r; try done. by destruct (Hl c).
Qed.

(** What the scan state says of the characters still to read. *)
Definition inside (s : Scan) (b after : str) : Prop :=
  match scan_state s with
  | Normal => b = []
  | LineComment => line_body b after
  | BlockComment => block_rest d (block_depth s) b
  | BracketIdentifier => quoted_rest d c_rbracket b /\ starts_with [c_rbracket] after = false
  | st => quoted_rest d (delimiter_of st) b /\ starts_with [delimiter_of st] after = false
  end.

Definition covers (s s' : Scan) : Prop :=
  exists b ls, drop (index s) chars = b ++ lxs_text ls /\ inside s b (lxs_text ls) /\
    lexemes_ok d (take (index s) chars ++ b) ls /\ reads s ls s'.

(** A turn inside a lexeme. *)
Lemma covers_extend x s s1 s' :
  drop (index s) chars = x ++ drop (index s1) chars -> index s1 = index s + length x ->
  (forall ls, reads s1 ls s' -> reads s ls s') ->
  (forall b after, drop (index s1) chars = b ++ after -> inside s1 b after -> inside s (x ++ b) after) ->
  covers s1 s' -> covers s s'.
Proof.
  intros Hx Hi Hr Hin (b & ls & Hd & Hb & Hok & Hrd). exists (x ++ b), ls.
  split; [by rewrite Hx, Hd, app_assoc|]. split; [by apply Hin|]. split; [|by apply Hr].
  destruct (drop_take_app _ _ _ _ Hx) as [_ Ht]. rewrite <-Hi in Ht. by rewrite Ht, <-app_assoc in Hok.
Qed.

(** A turn that opens, or reads the whole of, a lexeme. *)
Lemma covers_lexeme (L : str -> lexeme) x s s1 s' :
  scan_state s = Normal ->
  drop (index s) chars = x ++ drop (index s1) chars -> index s1 = index s + length x ->
  (forall b after, drop (index s1) chars = b ++ after -> inside s1 b after ->
    lx_text (L b) = x ++ b /\ lexeme_ok d (take (index s) chars) (L b) after /\ absorbs s (L b) s1) ->
  covers s1 s' -> covers s s'.
Proof.
  intros Hn Hx Hi Hin (b & ls & Hd & Hb & Hok & Hrd).
  destruct (Hin _ _ Hd Hb) as (HL & Hlx & Hab). exists [], (L b :: ls).
  split; [simpl; by rewrite HL, Hx, Hd, app_assoc|]. unfold inside. rewrite Hn. split; [done|].
  rewrite app_nil_r. split; [|by eapply reads_cons]. split; [done|].
  destruct (drop_take_app _ _ _ _ Hx) as [_ Ht]. rewrite <-Hi in Ht. by rewrite Ht, <-app_assoc, <-HL in Hok.
Qed.

(** [drop] over the characters a turn consumed. *)
Lemma drop_advance x r s n : drop (index s) chars = x ++ r -> n = length x ->
  drop (index s) chars = x ++ drop (index s + n) chars /\ drop (index s + n) chars = r.
Proof. intros H ->. destruct (drop_take_app _ _ _ _ H) as [-> _]. by split. Qed.

Lemma starts_with_app1 c b after : starts_with [c] (b ++ after) = false -> starts_with [c] b = false.
Proof.
  destruct (starts_with [c] b) eqn:E; [|done]. apply starts_with_cons in E as [r ->].
  simpl. unfold starts_with. simpl. by rewrite Z.eqb_refl.
Qed.


(** Applies [covers_extend] to the turn that led to the state of [Hcov]. *)
Ltac extend_by x Hx Hcov :=
  lazymatch type of Hcov with
  | covers ?s1 ?s' =>
    refine (covers_extend x _ s1 s' Hx eq_refl _ _ Hcov); [intros ? []; by split|]
  end.

Lemma quoted_turn_covers s s1 s' :
  scan_state s = SingleQuote \/ scan_state s = DoubleQuote \/ scan_state s = Backtick ->
  index s < length chars -> quoted_turn d chars s = Ok s1 -> covers s1 s' -> covers s s'.
Proof.
  intros Hst Hi. unfold quoted_turn.
  assert (Hin : forall t b after, scan_state t = scan_state s ->
    inside t b after <-> quoted_rest d (delimiter_of (scan_state s)) b /\
      starts_with [delimiter_of (scan_state s)] after = false).
  { intros t b after Ht. unfold inside. rewrite Ht. by destruct Hst as [->|[->| ->]]. }
  set (q := delimiter_of (scan_state s)) in *.
  assert (Hq : q <> c_rbracket /\ q <> c_bslash) by (unfold q; by destruct Hst as [->|[->| ->]]).
  destruct (drop (index s) chars) as [|c next] eqn:Hd.
  { apply (f_equal length) in Hd. rewrite length_drop in Hd. simpl in Hd. lia. }
  destruct (Z.eqb_spec c c_bslash) as [->|Hc].
  { destruct (bool_decide_reflect (d = ClickHouse)) as [HC|]; [|done]. intros [= <-] Hcov.
    destruct next as [|c next].
    - destruct Hcov as (b & ls & Hb & Hbb & _).
      rewrite drop_ge in Hb by (apply (f_equal length) in Hd; rewrite length_drop in Hd; simpl in *; lia).
      symmetry in Hb. apply app_nil in Hb as [-> _]. apply Hin in Hbb as [Hbb _]; [|done]. inversion Hbb.
    - destruct (drop_advance [c_bslash; c] next s 2 Hd eq_refl) as [Hx _].
      extend_by [c_bslash; c] Hx Hcov. intros b after _ Hb. apply Hin in Hb as [Hb Ha]; [|done]. apply Hin; [done|].
        split; [apply qr_escape; tauto|done]. }
  destruct (Z.eqb_spec c q) as [->|Hcq].
  - destruct (starts_with [q] next) eqn:Hn; intros [= <-] Hcov.
    + apply starts_with_cons in Hn as [r ->].
      destruct (drop_advance [q; q] r s 2 Hd eq_refl) as [Hx _].
      extend_by [q; q] Hx Hcov. intros b after _ Hb. apply Hin in Hb as [Hb Ha]; [|done]. apply Hin; [done|].
        split; [by apply qr_double|done].
    + destruct (drop_advance [q] next s 1 Hd eq_refl) as [Hx Hy].
      extend_by [q] Hx Hcov. intros b after Hba Hb. apply Hin; [done|]. unfold inside in Hb. simpl in Hb. subst b.
        split; [apply qr_end|]. simpl in Hba. rewrite Hy in Hba. by subst.
  - intros [= <-] Hcov. destruct (drop_advance [c] next s 1 Hd eq_refl) as [Hx Hy].
    extend_by [c] Hx Hcov. intros b after _ Hb. apply Hin in Hb as [Hb Ha]; [|done]. apply Hin; [done|].
      split; [|done]. by apply qr_char.
Qed.

Lemma drop_nonempty s : index s < length chars -> drop (index s) chars <> [].
Proof. intros Hi H. apply (f_equal length) in H. rewrite length_drop in H. simpl in H. lia. Qed.

Lemma bracket_turn_covers s s1 s' :
  scan_state s = BracketIdentifier -> index s < length chars ->
  bracket_turn chars s = Ok s1 -> covers s1 s' -> covers s s'.
Proof.
  intros Hst Hi%drop_nonempty. unfold bracket_turn.
  destruct (drop (index s) chars) as [|c next] eqn:Hd; [done|].
  destruct (Z.eqb_spec c c_rbracket) as [->|Hc].
  - destruct (starts_with _ next) eqn:Hn; intros [= <-] Hcov.
    + apply starts_with_cons in Hn as [r ->].
      destruct (drop_advance [c_rbracket; c_rbracket] r s 2 Hd eq_refl) as [Hx _].
      extend_by [c_rbracket; c_rbracket] Hx Hcov. unfold inside. simpl. rewrite Hst.
      intros b after _ [Hb Ha]. split; [by apply qr_double|done].
    + destruct (drop_advance [c_rbracket] next s 1 Hd eq_refl) as [Hx Hy].
      extend_by [c_rbracket] Hx Hcov. unfold inside. simpl. rewrite Hst.
      intros b after Hba ->. split; [apply qr_end|]. simpl in Hba. by rewrite <-Hba, Hy.
  - intros [= <-] Hcov. destruct (drop_advance [c] next s 1 Hd eq_refl) as [Hx Hy].
    extend_by [c] Hx Hcov. unfold inside. simpl. rewrite Hst.
    intros b after _ [Hb Ha]. split; [apply qr_char; auto|done].
Qed.

Lemma line_comment_turn_covers s s1 s' :
  scan_state s = LineComment -> index s < length chars ->
  line_comment_turn chars s = Ok s1 -> covers s1 s' -> covers s s'.
Proof.
  intros Hst Hi%drop_nonempty. unfold line_comment_turn.
  destruct (drop (index s) chars) as [|c next] eqn:Hd; [done|].
  destruct (drop_advance [c] next s 1 Hd eq_refl) as [Hx Hy].
  destruct (is_newline c) eqn:Hc; intros [= <-] Hcov;
    extend_by [c] Hx Hcov; unfold inside; simpl; rewrite Hst.
  - intros b after _ ->. right. by exists [], c.
  - intros b after _ [[-> Hb]|(b' & x & -> & Hx' & Hb)]; [left|right].
    + by split; [|constructor].
    + exists (c :: b'), x. by split_and!; [..|constructor].
Qed.

Lemma block_rest_nonempty d' k b : block_rest d' k b -> b <> [].
Proof. by destruct 1. Qed.

Lemma starts_with_two a a' c b after :
  b <> [] -> starts_with [a; a'] (c :: b ++ after) = starts_with [a; a'] (c :: b).
Proof. destruct b as [|x b]; [done|]. intros _. unfold starts_with. simpl. by repeat case_match. Qed.

Lemma block_comment_turn_covers s s1 s' :
  scan_state s = BlockComment -> (1 <= block_depth s)%Z -> index s < length chars ->
  block_comment_turn d chars s = Ok s1 -> covers s1 s' -> covers s s'.
Proof.
  intros Hst Hk Hi%drop_nonempty. unfold block_comment_turn.
  destruct (starts_with [c_slash; c_star] _) eqn:H1.
  { destruct (is_dialect d _) eqn:Hdl; [done|]. intros [= <-] Hcov.
    apply starts_with_spec in H1 as [r Hd].
    destruct (drop_advance _ r s 2 Hd eq_refl) as [Hx _].
    extend_by [c_slash; c_star] Hx Hcov. unfold inside. simpl. rewrite Hst.
    intros b after _ Hb. by apply br_open. }
  destruct (starts_with [c_star; c_slash] _) eqn:H2.
  { intros [= <-]. apply starts_with_spec in H2 as [r Hd].
    destruct (drop_advance _ r s 2 Hd eq_refl) as [Hx _]. simpl.
    destruct (Z.eqb_spec (block_depth s - 1) 0) as [H0|H0]; intros Hcov;
      extend_by [c_star; c_slash] Hx Hcov; unfold inside; simpl; rewrite Hst.
    - intros b after _ ->. replace (block_depth s) with 1%Z by lia. apply br_end.
    - intros b after _ Hb. apply br_close; [lia|done]. }
  intros [= <-] Hcov. destruct (drop (index s) chars) as [|c next] eqn:Hd; [done|].
  destruct (drop_advance [c] next s 1 Hd eq_refl) as [Hx Hy].
  extend_by [c] Hx Hcov. unfold inside. simpl. rewrite Hst.
  intros b after Hba Hb. rewrite Hy in Hba. subst next.
  apply br_char; [..|done].
  all: rewrite <-(starts_with_two _ _ _ _ after), <-Hba; [done|by eapply block_rest_nonempty].
Qed.

(** The conditions under which the accumulators match the lexemes read so far. *)
Definition scan_ok (s : Scan) : Prop :=
  (0 <= parenthesis_depth s <= Z.of_nat (index s))%Z /\
  match scan_state s with
  | Normal => True
  | BlockComment => (1 <= block_depth s)%Z /\ current_word s = []
  | _ => current_word s = []
  end.

Lemma absorbs_comment l s s1 :
  scan_ok s -> lx_trivia l = true -> (forall c, l <> LxChar c) ->
  scanned_words s1 = scanned_words (flushed s) -> current_word s1 = [] ->
  parenthesis_depth s1 = parenthesis_depth s -> database_link s1 = database_link s ->
  terminated s1 = terminated s -> significant s1 = significant s -> absorbs s l s1.
Proof.
  intros [Hk _] Ht Hl Hw Hc Hp Hd Htm Hs. apply absorbs_flush; try done; try lia.
  - rewrite Htm. by destruct l; simpl; rewrite ?orb_false_r.
  - unfold lx_significant. rewrite Ht, Hs. by rewrite orb_false_r.
Qed.

Ltac frame_simpl := simpl; autorewrite with frame; simpl; try done.

Lemma line_comment_covers o rest s s' :
  scan_state s = Normal -> scan_ok s -> drop (index s) chars = o ++ rest -> line_opening d o rest ->
  covers (advance (length o) (enter LineComment (flushed s))) s' -> covers s s'.
Proof.
  intros Hst Hs Hd Ho. destruct (drop_advance _ _ _ _ Hd eq_refl) as [Hx Hy].
  apply (covers_lexeme (LxLine o) o); simpl; rewrite ?flushed_index; try done.
  intros b after Hba Hb. split; [done|]. split.
  - split; [by rewrite <-Hba, Hy|done].
  - apply absorbs_comment; frame_simpl.
Qed.

Lemma block_comment_covers rest s s' :
  scan_state s = Normal -> scan_ok s -> drop (index s) chars = [c_slash; c_star] ++ rest ->
  bool_decide (d = Mysql) && executable_comment rest = false ->
  covers (advance 2 (set_block_depth 1 (enter BlockComment (flushed s)))) s' -> covers s s'.
Proof.
  intros Hst Hs Hd He. destruct (drop_advance _ _ _ _ Hd eq_refl) as [Hx Hy]. simpl in Hx, Hy.
  apply (covers_lexeme LxBlock [c_slash; c_star]); simpl; rewrite ?flushed_index; try done.
  intros b after Hba Hb. split; [done|]. split.
  - split; [done|]. intros ->. rewrite <-Hba, Hy. by destruct (executable_comment rest).
  - apply absorbs_comment; frame_simpl.
Qed.

Lemma quoted_block_covers l j s s1 s' :
  scan_state s = Normal -> scan_ok s -> lx_significant l = true -> (forall c, l <> LxChar c) ->
  drop (index s) chars = lx_text l ++ drop j chars -> j = index s + length (lx_text l) ->
  lexeme_ok d (take (index s) chars) l (drop j chars) ->
  quoted_block j s = Ok (Some s1) -> covers s1 s' -> covers s s'.
Proof.
  intros Hst [Hk _] Hsig Hl Hd Hj Hok. unfold quoted_block. rewrite flushed_terminated.
  destruct (terminated s) eqn:Ht; [done|]. intros [= <-].
  assert (lx_terminator l = false) by (unfold lx_significant in Hsig; by destruct l).
  apply (covers_lexeme (fun _ => l) (lx_text l)); try done.
  unfold inside. simpl. rewrite flushed_state, Hst. intros b after Hba ->.
  split; [by rewrite app_nil_r|]. split; [by rewrite (Hba : drop j chars = after) in Hok|].
  apply absorbs_flush; frame_simpl; [lia|by rewrite Ht|by rewrite Ht, H|by rewrite Hsig, orb_true_r].
Qed.

#[local] Arguments lx_depth : simpl never.
#[local] Arguments lx_link : simpl never.
#[local] Arguments lx_significant : simpl never.

(** Closes the fields of [absorbs] for a character, given what is known of it. *)
Ltac absorb_char :=
  split_and!; [split|..]; frame_simpl;
  repeat match goal with H : ?f ?t = _ |- context [?f ?t] => is_var t; rewrite H end;
  rewrite ?andb_false_r, ?orb_false_r; try done; try lia.


(** The remaining characters: words, parentheses, links and the rest. *)
Lemma absorbs_char c s t s1 :
  scan_ok s -> (Z.of_nat (index s) <= SQL_MAX_CHARS)%Z ->
  (is_whitespace c = false -> terminated s = false) -> quote_closing d c = None ->
  t = (if is_whitespace c then s else set_significant s) ->
  character_turn d c t = Ok s1 ->
  absorbs s (LxChar c) (advance 1 s1) /\ index s1 = index s /\ scan_state s1 = scan_state s /\
  (0 <= parenthesis_depth s1 <= Z.of_nat (index s) + 1)%Z.
Proof.
  intros [Hk _] Hlen Ht Hq Htd. unfold SQL_MAX_CHARS in Hlen.
  assert (Htf : index t = index s /\ scan_state t = scan_state s /\ scanned_words t = scanned_words s /\
    current_word t = current_word s /\ parenthesis_depth t = parenthesis_depth s /\
    terminated t = terminated s /\ database_link t = database_link s /\
    significant t = significant s || lx_significant (LxChar c)).
  { rewrite Htd. unfold lx_significant. simpl. destruct (is_whitespace c); simpl; by rewrite ?orb_false_r, ?orb_true_r. }
  destruct Htf as (T1 & T2 & T3 & T4 & T5 & T6 & T7 & T8).
  assert (Htr : terminated s = true -> lx_trivia (LxChar c) = true).
  { simpl. destruct (is_whitespace c); [done|]. intros H. by rewrite Ht in H. }
  clear Htd Ht. unfold character_turn, quote_closing in *.
  destruct (Z.eqb_spec c c_squote); [by destruct (c =? c_dquote)%Z|].
  destruct (Z.eqb_spec c c_dquote); [done|]. simpl in Hq.
  destruct ((c =? c_backtick)%Z && _); [done|]. destruct ((c =? c_lbracket)%Z && _); [done|].
  destruct (Z.eqb_spec c c_lparen) as [->|Hlp].
  { intros [= <-]. rewrite flushed_depth. unfold saturating_add. rewrite Z.min_r by (unfold U32_MAX; lia).
    absorb_char. intros ls. by rewrite <-app_assoc. }
  destruct (Z.eqb_spec c c_rparen) as [->|Hrp].
  { rewrite flushed_depth. destruct (Z.eqb_spec (parenthesis_depth t) 0); [done|]. intros [= <-].
    absorb_char. intros ls. by rewrite <-app_assoc. }
  assert (Hdep : forall k, lx_depth k (LxChar c) = k).
  { intros k. unfold lx_depth. by rewrite (proj2 (Z.eqb_neq _ _) Hlp), (proj2 (Z.eqb_neq _ _) Hrp). }
  assert (Hlink : lx_link (LxChar c) = (c =? c_at)%Z) by done.
  destruct (is_ascii_alphabetic c || (c =? c_underscore)%Z) eqn:Ha.
  { assert ((c =? c_at)%Z = false) as Hat by (apply Z.eqb_neq; by intros ->).
    rewrite Hat in *. intros [= <-]. absorb_char; try (by rewrite Hdep).
    - intros ls. by rewrite Ha.
    - by rewrite Hlink, andb_false_r, orb_false_r. }
  destruct (is_ascii_digit c && negb (bool_decide (current_word t = []))) eqn:Hdg.
  { assert ((c =? c_at)%Z = false) as Hat by (apply Z.eqb_neq; by intros ->).
    rewrite Hat in *. intros [= <-]. absorb_char; try (by rewrite Hdep).
    - intros ls. rewrite T4 in Hdg. by rewrite Ha, Hdg.
    - by rewrite Hlink, andb_false_r, orb_false_r. }
  assert (Hw : forall ls, words_from (parenthesis_depth s) (current_word s) (LxChar c :: ls)
     = word_of (current_word s) (parenthesis_depth s) ++ words_from (parenthesis_depth s) [] ls).
  { intros ls. simpl. rewrite T4 in Hdg. by rewrite Ha, Hdg, Hdep. }
  simpl in Hw.
  destruct ((c =? c_at)%Z && bool_decide (d = Oracle)) eqn:Hat; intros [= <-]; absorb_char;
    try (by rewrite Hdep); try (intros ls; by rewrite Hw, <-app_assoc).
  - apply andb_true_iff in Hat as [Hat Hd]. by rewrite Hlink, Hat, Hd, orb_true_r.
  - rewrite Hlink. by rewrite andb_comm, Hat, orb_false_r.
Qed.

(** Entering a quote: the state that reads up to [close]. *)
Lemma quote_turn c close t s1 :
  quote_closing d c = Some close -> character_turn d c t = Ok s1 ->
  is_whitespace c = false /\ exists st, s1 = enter st (flushed t) /\ st <> Normal /\ st <> LineComment /\
    st <> BlockComment /\ forall b after s2, scan_state s2 = st ->
      inside s2 b after <-> quoted_rest d close b /\ starts_with [close] after = false.
Proof.
  unfold quote_closing, character_turn, inside.
  destruct (Z.eqb_spec c c_squote) as [->|H1].
  { intros [= <-] [= <-]. split; [done|]. exists SingleQuote. by split_and!; [..|intros b after s2 ->]. }
  destruct (Z.eqb_spec c c_dquote) as [->|H2].
  { intros [= <-] [= <-]. split; [done|]. exists DoubleQuote. by split_and!; [..|intros b after s2 ->]. }
  cbn [orb]. destruct (Z.eqb_spec c c_backtick) as [->|H3]; cbn [andb].
  { destruct (is_dialect _ _); [|done]. intros [= <-] [= <-]. split; [done|].
    exists Backtick. by split_and!; [..|intros b after s2 ->]. }
  destruct (Z.eqb_spec c c_lbracket) as [->|H4]; cbn [andb]; [|done].
  destruct (bool_decide _); [|done]. intros [= <-] [= <-]. split; [done|].
  exists BracketIdentifier. by split_and!; [..|intros b after s2 ->].
Qed.

Lemma plain_char_turn_covers c next s s1 s' :
  scan_state s = Normal -> scan_ok s -> (Z.of_nat (index s) <= SQL_MAX_CHARS)%Z ->
  drop (index s) chars = c :: next ->
  (c <> c_semi -> quote_closing d c = None -> lexeme_ok d (take (index s) chars) (LxChar c) next) ->
  plain_char_turn d c s = Ok s1 -> covers s1 s' -> covers s s'.
Proof.
  intros Hst Hs Hlen Hd Hlx. unfold plain_char_turn.
  destruct (drop_advance [c] next s 1 Hd eq_refl) as [Hx Hy].
  destruct (Z.eqb_spec c c_semi) as [->|Hc].
  { unfold terminator_turn. rewrite flushed_terminated. case_bool_decide; [done|].
    destruct (terminated s) eqn:Ht; [done|]. intros [= <-].
    apply (covers_lexeme (fun _ => LxTerminator) [c_semi]); simpl; rewrite ?flushed_index; try done.
    unfold inside. simpl. rewrite flushed_state, Hst. intros b after Hba ->. split; [done|]. split; [done|].
    destruct Hs as [Hk _].
    apply absorbs_flush; frame_simpl; [lia|by rewrite Ht|by rewrite orb_true_r|by rewrite orb_false_r]. }
  intros H. bind_inv. subst s1.
  assert (Ht : a = (if is_whitespace c then s else set_significant s) /\
    (is_whitespace c = false -> terminated s = false)).
  { destruct (is_whitespace c); simpl in E; [by injection E as <-|].
    destruct (terminated s); [done|]. by injection E as <-. }
  destruct Ht as [Ha Ht]. destruct (quote_closing d c) as [close|] eqn:Hq.
  - destruct (quote_turn _ _ _ _ Hq E0) as (Hw & st & -> & _ & _ & _ & Hin). clear E.
    rewrite Hw in Ha. subst a.
    apply (covers_lexeme (LxQuoted c) [c]); simpl; rewrite ?flushed_index; try done.
    intros b after Hba Hb. apply Hin in Hb; [|done]. split; [done|]. split; [by exists close|].
    destruct Hs as [Hk _]. specialize (Ht Hw).
    apply absorbs_flush; frame_simpl; try lia.
    + by rewrite Ht.
    + by rewrite orb_false_r.
    + by rewrite orb_true_r.
  - destruct (absorbs_char _ _ _ _ Hs Hlen Ht Hq Ha E0) as (Hab & Hi & Hst' & _).
    assert (Hi' : index (advance 1 a0) = index s + 1) by (simpl; by rewrite Hi).
    apply (covers_lexeme (fun _ => LxChar c) [c]); rewrite ?Hi'; try done.
    unfold inside. simpl. rewrite Hst', Hst. intros b after Hba ->. split; [done|]. split; [|done].
    simpl in Hba. rewrite Hy in Hba. rewrite <-Hba. by apply Hlx.
Qed.

Lemma quoted_block_Some j s : quoted_block j s <> Ok None.
Proof. unfold quoted_block. by case_match. Qed.

Lemma normal_turn_covers s s1 s' :
  scan_state s = Normal -> scan_ok s -> (Z.of_nat (index s) <= SQL_MAX_CHARS)%Z ->
  index s < length chars -> normal_turn d chars s = Ok s1 -> covers s1 s' -> covers s s'.
Proof.
  intros Hst Hs Hlen Hi. pose proof (drop_nonempty _ Hi) as Hne. unfold normal_turn.
  destruct (drop (index s) chars) as [|c next] eqn:Hd; [done|].
  destruct (mysql_dash_comment _ _ || _) eqn:H1.
  { intros [= <-]. apply dash_comment_spec in H1 as (r & Hr & Ho). rewrite Hr in Hd.
    exact (line_comment_covers _ _ _ _ Hst Hs Hd Ho). }
  destruct (hash_comment _ _) eqn:H2.
  { intros [= <-]. apply hash_comment_spec in H2 as (r & Hr & Ho). rewrite Hr in Hd.
    exact (line_comment_covers _ _ _ _ Hst Hs Hd Ho). }
  destruct (slash_comment _ _) eqn:H3.
  { intros [= <-]. apply slash_comment_spec in H3 as (r & Hr & Ho). rewrite Hr in Hd.
    exact (line_comment_covers _ _ _ _ Hst Hs Hd Ho). }
  destruct (starts_with _ _) eqn:H4.
  { apply starts_with_spec in H4 as (r & Hr). rewrite Hr in Hd |- *.
    destruct (_ && _) eqn:He; [done|]. intros [= <-]. exact (block_comment_covers _ _ _ Hst Hs Hd He). }
  assert (Hc : chars !! index s = Some c).
  { rewrite <-(Nat.add_0_r (index s)), <-lookup_drop, Hd. done. }
  intros H. bind_inv.
  assert (Hdol : a = None -> forall t, ~ dollar_opening d (take (index s) chars) t (c :: next)).
  { intros -> t Ho. pose proof Ho as (Hdd & _ & (name & -> & _) & r & Hr). injection Hr as -> _.
    unfold dollar_turn in E. replace (is_dialect _ _) with true in E by (by destruct Hdd as [->| ->]).
    simpl in E. destruct (dollar_quote_end _ _) as [[j|]|] eqn:Hq; [by apply quoted_block_Some in E| |done].
    rewrite <-Hd in Ho. by eapply dollar_end_None. }
  destruct a as [s2|].
  { bind_inv. subst s2. unfold dollar_turn in E. destruct (is_dialect _ _ && _) eqn:Hdd; [|done].
    apply andb_true_iff in Hdd as [Hdd%is_dialect_spec ->%Z.eqb_eq]. bind_inv.
    destruct a as [j|]; [|done].
    assert (d = Postgres \/ d = ClickHouse) as Hd'.
    { apply elem_of_cons in Hdd as [->|Hdd%list_elem_of_singleton]; auto. }
    destruct (dollar_end_Some d _ _ _ Hd' Hc E0) as (t & b & Ht & Hj & Hok).
    eapply (quoted_block_covers (LxDollar t b) j); try done. simpl. by rewrite <-!app_assoc. }
  bind_inv. destruct a as [s2|].
  { bind_inv. subst s2. unfold oracle_turn in E0. case_bool_decide as HO; [|done]. bind_inv.
    destruct a as [j|]; [|by case_match].
    destruct (oracle_end_Some _ _ _ E1) as (p & o & b & Ht & Hj & Hok).
    eapply (quoted_block_covers (LxOracle p o b) j); try done. by rewrite HO. }
  intros Hcov. eapply plain_char_turn_covers; [done..| |exact H|exact Hcov].
  intros Hsemi Hq. split_and!; try done.
  - intros o r. by apply no_line_opening.
  - by apply Hdol.
  - intros p Ho. pose proof Ho as (-> & _). unfold oracle_turn in E0. simpl in E0.
    destruct (oracle_q_quote_end _ _) as [[j|]|] eqn:Hoq; [by apply quoted_block_Some in E0| |done].
    rewrite <-Hd in Ho. by eapply oracle_end_None.
  - intros -> ->. unfold oracle_turn in E0. simpl in E0.
    destruct (oracle_q_quote_end _ _) as [[j|]|] eqn:Hoq; [by apply quoted_block_Some in E0| |done].
    destruct (oracle_line_only_slash chars (index s)) eqn:Hsl; [done|].
    rewrite length_take, Nat.min_l, <-Hd, take_drop by lia. done.
Qed.

(** ** Every turn advances the index and keeps [scan_ok] *)

Definition advances (s s1 : Scan) : Prop := scan_ok s1 /\ index s < index s1.

Ltac advances_tac :=
  unfold advances, scan_ok in *; frame_simpl;
  repeat match goal with H : scan_state ?s = _ |- _ => rewrite H in * end;
  intuition (simpl in *; lia || done).

Lemma quoted_block_advances j s s1 :
  scan_ok s -> scan_state s = Normal -> index s < j -> quoted_block j s = Ok (Some s1) -> advances s s1.
Proof.
  intros Hs Hst Hj. unfold quoted_block. destruct (terminated _); [done|]. intros [= <-]. advances_tac.
Qed.

Lemma plain_char_turn_advances c s s1 :
  scan_ok s -> scan_state s = Normal -> (Z.of_nat (index s) <= SQL_MAX_CHARS)%Z ->
  plain_char_turn d c s = Ok s1 -> advances s s1.
Proof.
  intros Hs Hst Hlen. unfold plain_char_turn, terminator_turn.
  destruct (c =? c_semi)%Z; [repeat case_match; try done; intros [= <-]; advances_tac|].
  intros H. bind_inv. subst s1.
  assert (Ha : a = (if is_whitespace c then s else set_significant s) /\
    (is_whitespace c = false -> terminated s = false)).
  { destruct (is_whitespace c); simpl in E; [by injection E as <-|].
    destruct (terminated s); [done|]. by injection E as <-. }
  destruct Ha as [Ha Ht]. destruct (quote_closing d c) as [close|] eqn:Hq.
  - destruct (quote_turn _ _ _ _ Hq E0) as (Hw & st & -> & H1 & H2 & H3 & _).
    rewrite Hw in Ha. subst a. destruct Hs as [Hk _].
    unfold advances, scan_ok; frame_simpl. split; [|lia]. split; [lia|]. by destruct st.
  - destruct (absorbs_char _ _ _ _ Hs Hlen Ht Hq Ha E0) as (_ & Hi & Hst' & Hd).
    unfold advances, scan_ok. simpl. rewrite Hst', Hst, Hi. split; [split; [lia|done]|lia].
Qed.

Lemma normal_turn_advances s s1 :
  scan_ok s -> scan_state s = Normal -> (Z.of_nat (index s) <= SQL_MAX_CHARS)%Z ->
  index s < length chars -> normal_turn d chars s = Ok s1 -> advances s s1.
Proof.
  intros Hs Hst Hlen Hi. pose proof (drop_nonempty _ Hi). unfold normal_turn.
  destruct (drop (index s) chars) as [|c next] eqn:Hd; [done|].
  destruct (_ || _); [intros [= <-]; advances_tac|].
  destruct (hash_comment _ _); [intros [= <-]; advances_tac|].
  destruct (slash_comment _ _); [intros [= <-]; advances_tac|].
  destruct (starts_with _ _); [destruct (_ && _); [done|intros [= <-]; advances_tac]|].
  assert (Hc : chars !! index s = Some c).
  { rewrite <-(Nat.add_0_r (index s)), <-lookup_drop, Hd. done. }
  intros Hr. bind_inv. destruct a as [s2|].
  { bind_inv. subst s2. unfold dollar_turn in E. destruct (is_dialect _ _ && _) eqn:Hdd; [|done].
    apply andb_true_iff in Hdd as [Hdd ->%Z.eqb_eq]. bind_inv. destruct a as [j|]; [|done].
    destruct (dollar_end_Some Postgres _ _ _ (or_introl eq_refl) Hc E0) as (t & b & _ & Hj & Hok).
    eapply quoted_block_advances; [done..| |exact E]. destruct Hok as ((_ & _ & (name & -> & _) & _) & _).
    simpl in Hj. lia. }
  bind_inv. destruct a as [s2|]; [|by eapply plain_char_turn_advances].
  bind_inv. subst s2. unfold oracle_turn in E0. case_bool_decide as HO; [|done]. bind_inv.
  destruct a as [j|]; [|by case_match].
  destruct (oracle_end_Some _ _ _ E1) as (p & o & b & _ & Hj & _).
  eapply quoted_block_advances; [done..| |exact E0]. simpl in Hj. rewrite length_app in Hj. simpl in Hj. lia.
Qed.

Lemma frame_turn_advances s s1 :
  scan_ok s -> (Z.of_nat (length chars) <= SQL_MAX_CHARS)%Z -> index s < length chars ->
  frame_turn d chars s = Ok s1 -> advances s s1.
Proof.
  intros Hs Hlen Hi. pose proof (drop_nonempty _ Hi). unfold frame_turn.
  destruct (scan_state s) eqn:Hst;
    [by apply normal_turn_advances; [..|lia| ]
    |unfold quoted_turn|unfold quoted_turn|unfold quoted_turn|unfold bracket_turn
    |unfold line_comment_turn|unfold block_comment_turn];
    try (destruct (drop (index s) chars); [done|]);
    repeat case_match; intros; simplify_eq; advances_tac.
Qed.

Lemma frame_turn_covers s s1 s' :
  scan_ok s -> (Z.of_nat (length chars) <= SQL_MAX_CHARS)%Z -> index s < length chars ->
  frame_turn d chars s = Ok s1 -> covers s1 s' -> covers s s'.
Proof.
  intros Hs Hlen Hi. unfold frame_turn. destruct (scan_state s) eqn:Hst.
  - apply normal_turn_covers; try done. lia.
  - apply quoted_turn_covers; auto.
  - apply quoted_turn_covers; auto.
  - apply quoted_turn_covers; auto.
  - by apply bracket_turn_covers.
  - by apply line_comment_turn_covers.
  - apply block_comment_turn_covers; try done. destruct Hs as [_ Hs]. rewrite Hst in Hs. tauto.
Qed.

Lemma covers_end s :
  length chars <= index s -> scan_state s = Normal \/ scan_state s = LineComment ->
  parenthesis_depth s = 0%Z -> covers s s.
Proof.
  intros Hi Hst Hp. exists [], []. rewrite drop_ge by lia. split; [done|]. split_and!; [|done|].
  - unfold inside. destruct Hst as [->| ->]; [done|]. left. by split.
  - split; simpl; rewrite ?andb_false_r, ?orb_false_r; try done.
    + by rewrite flushed_words.
    + by destruct (terminated s).
Qed.

Lemma loop_covers n s s' :
  scan_ok s -> (Z.of_nat (length chars) <= SQL_MAX_CHARS)%Z -> length chars - index s <= n ->
  while_loop n (scan_more chars) (frame_turn d chars) s = Ok s' ->
  scan_state s' = Normal \/ scan_state s' = LineComment -> parenthesis_depth s' = 0%Z -> covers s s'.
Proof.
  intros Hs Hlen. revert s Hs. induction n as [|n IH]; simpl; intros s Hs Hn H Hst Hp.
  - injection H as <-. apply covers_end; [lia|done..].
  - unfold scan_more in H at 1. destruct (Nat.ltb_spec (index s) (length chars)) as [Hi|Hi].
    + bind_inv. destruct (frame_turn_advances _ _ Hs Hlen Hi E) as [Hs1 Hadv].
      eapply frame_turn_covers; [done..|]. apply IH; [done|lia|done..].
    + injection H as <-. apply covers_end; [lia|done..].
Qed.
End sound.

(** The scanner never runs out of fuel: every turn advances the index, so more
    fuel than characters changes nothing. *)
Lemma frame_fuel d sql extra :
  (Z.of_nat (length sql) <= SQL_MAX_CHARS)%Z ->
  while_loop (length sql + extra) (scan_more sql) (frame_turn d sql) scan_start
  = while_loop (length sql) (scan_more sql) (frame_turn d sql) scan_start.
Proof.
  intros Hlen.
  assert (H : forall n m s, scan_ok s -> length sql - index s <= n -> length sql - index s <= m ->
    while_loop n (scan_more sql) (frame_turn d sql) s = while_loop m (scan_more sql) (frame_turn d sql) s).
  { induction n as [|n IH]; intros [|m] s Hs Hn Hm; simpl;
      assert (scan_more sql s = (index s <? length sql)) as Hc by done; rewrite ?Hc; [done|..].
    all: destruct (Nat.ltb_spec (index s) (length sql)) as [Hi|Hi]; try done; try lia.
    destruct (frame_turn d sql s) as [s1|] eqn:E; [|done]. simpl.
    destruct (frame_turn_advances _ _ _ _ Hs Hlen Hi E) as [Hs1 Hadv]. apply IH; [done|lia..]. }
  apply H; [|simpl; lia..]. split; [simpl; lia|done].
Qed.

(** A successful scan has read everything. *)
Lemma frame_scan_end d sql s :
  (Z.of_nat (length sql) <= SQL_MAX_CHARS)%Z ->
  while_loop (length sql) (scan_more sql) (frame_turn d sql) scan_start = Ok s -> length sql <= index s.
Proof.
  intros Hlen.
  assert (H : forall n t, scan_ok t -> length sql - index t <= n ->
    while_loop n (scan_more sql) (frame_turn d sql) t = Ok s -> length sql <= index s).
  { induction n as [|n IH]; intros t Ht Hn; simpl; [intros [= <-]; lia|].
    assert (scan_more sql t = (index t <? length sql)) as -> by done.
    destruct (Nat.ltb_spec (index t) (length sql)) as [Hi|Hi]; [|by intros [= <-]].
    destruct (frame_turn d sql t) as [t1|] eqn:E; [|done]. simpl.
    destruct (frame_turn_advances _ _ _ _ Ht Hlen Hi E) as [Ht1 Hadv]. apply IH; [done|lia]. }
  apply H; [|simpl; lia]. split; [simpl; lia|done].
Qed.

(** What a framing says of the lexemes it was read from. *)
Record framing_of (d : SqlFramingDialect) (ls : list lexeme) (f : StatementFraming) : Prop := {
  fo_all : all_words f = map value (words_from 0 [] ls);
  fo_top : words f = map value (List.filter (fun w => (depth w =? 0)%Z) (words_from 0 [] ls));
  fo_nonempty : words f <> [];
  fo_link : has_oracle_database_link f = bool_decide (d = Oracle) && existsb lx_link ls;
}.

(** The lexemes of an accepted text. *)
Lemma framing_sound_lemma d sql f :
  frame_single_statement sql d = Ok f ->
  exists ls, sql = lxs_text ls /\ lexemes_ok d [] ls /\ one_statement ls /\
    (d = Oracle -> LxTerminator ∉ ls) /\ parens_ok 0 ls /\ existsb lx_significant ls = true /\
    framing_of d ls f.
Proof.
  unfold frame_single_statement. case_bool_decide; [done|].
  destruct (Z.ltb_spec SQL_MAX_CHARS (Z.of_nat (length sql))) as [|Hlen]; [done|].
  intros Hf. bind_inv. rename a0 into s. unfold finish_framing in Hf.
  rewrite flushed_state, flushed_depth, flushed_significant, flushed_link in Hf.
  destruct (_ && _) eqn:Hst; [done|]. destruct (Z.eqb_spec (parenthesis_depth s) 0) as [Hp|]; [|done].
  destruct (significant s) eqn:Hsig; [|done]. simpl in Hf. case_bool_decide; [done|].
  assert (Hst' : scan_state s = Normal \/ scan_state s = LineComment).
  { apply andb_false_iff in Hst as [Hst|Hst]; breflect; auto. }
  assert (Hs0 : scan_ok scan_start) by (split; [simpl; lia|done]).
  destruct (loop_covers d sql (length sql) scan_start s Hs0 Hlen ltac:(simpl; lia) E0 Hst' Hp)
    as (b & ls & Hd & Hb & Hok & [Rw Rp Ro Rl Rs]).
  unfold inside in Hb. simpl in *. subst b. simpl in *. rewrite Hsig in Rs. exists ls.
  split; [done|]. split; [done|]. split; [done|]. split.
  { intros ->. clear -Hok. revert Hok. generalize (@nil Z). induction ls as [|l ls IH]; intros before Hok;
      [by apply not_elem_of_nil|]. destruct Hok as [H1 H2]. intros [<-|Hin]%elem_of_cons; [done|].
    by eapply IH. }
  split; [done|]. split; [done|].
  rewrite <-Rw in Hf. destruct (map value (List.filter _ _)) as [|w ws] eqn:Hw; [done|].
  destruct (_ || _); [done|]. bind_inv. subst f. split; simpl; [done|by rewrite Hw|done|done].
Qed.

(** C2: An accepted text is one statement.  Whatever [frame_single_statement]
    accepts is, character by character, a sequence of well-formed lexemes of the
    dialect (closed quotes and comments, no lexeme hidden in another), with at most
    one terminator and only white space and comments after it (none at all for
    Oracle), with balanced parentheses; and the words it returns are exactly the
    identifier words of that sequence outside quotes and comments, [words] those at
    parenthesis depth zero. *)
Theorem framing_sound d sql f :
  frame_single_statement sql d = Ok f ->
  exists ls, sql = lxs_text ls /\ lexemes_ok d [] ls /\ one_statement ls /\
    (d = Oracle -> LxTerminator ∉ ls) /\ parens_ok 0 ls /\ existsb lx_significant ls = true /\
    framing_of d ls f.
Proof. apply framing_sound_lemma. Qed.

(** Framing always terminates with an answer: within the length limit the scan
    of a text takes at most one turn per character, so more fuel changes nothing,
    and when the scan succeeds it has read the whole text. *)
Theorem framing_terminates d sql extra :
  (Z.of_nat (length sql) <= SQL_MAX_CHARS)%Z ->
  let run fuel := while_loop fuel (scan_more sql) (frame_turn d sql) scan_start in
  run (length sql + extra) = run (length sql) /\
  (forall s, run (length sql) = Ok s -> length sql <= index s) /\
  (forall e, run (length sql) = Err e -> forall fuel, length sql <= fuel -> run fuel = Err e).
Proof.
  intros Hlen run. split; [by apply frame_fuel|]. split.
  - intros s Hs. by eapply frame_scan_end.
  - intros e He fuel Hf. replace fuel with (length sql + (fuel - length sql)) by lia.
    unfold run in *. by rewrite frame_fuel.
Qed.

(** ** Concrete runs *)

Lemma framing_sound_witness :
  exists ls, lit "select ';' ; -- done" = lxs_text ls /\ one_statement ls.
Proof.
  destruct (framing_sound Mysql (lit "select ';' ; -- done")
    (mkStatementFraming [lit "SELECT"] [lit "SELECT"] false)) as (ls & H1 & _ & H2 & _);
    [vm_compute; reflexivity|]. exists ls. split; [exact H1|exact H2].
Defined.

Lemma framing_terminates_witness :
  while_loop (9 + 7) (scan_more (lit "select 1;")) (frame_turn Oracle (lit "select 1;")) scan_start
  = while_loop 9 (scan_more (lit "select 1;")) (frame_turn Oracle (lit "select 1;")) scan_start.
Proof.
  destruct (framing_terminates Oracle (lit "select 1;") 7) as [H _]; [vm_compute; discriminate|exact H].
Defined.
