(* ===== verification/ClickHouseSql.v ===== *)
(** * ClickHouse statements
    ([src-tauri/src/engine/drivers/clickhouse/query/]: [classify.rs], [policy.rs], [sql.rs],
    [summary.rs] and the paging window of [mod.rs])

    The classifier scans the bytes of a statement for the words outside quotes,
    comments and parentheses; grid execution validates the text with it before the
    executor, a parameter here, is asked to run anything. *)

From stdpp Require Import base list strings.
From Stdlib Require Import ZArith Lia.
From S2P Require Import Prelude Errors Types SqlText.

(** ** Classification ([classify.rs]) *)

Record RawSqlDirectives := mkRawSqlDirectives {
  format : option str;
  into_outfile : bool;
}.

Record TopLevelToken := mkTopLevelToken {
  normalized : str;
  original : str;
}.

(** The token sequence keeps one empty token where the words are separated by
    something else than white space. *)
Definition boundary : TopLevelToken := mkTopLevelToken [] [].

Definition push_token_boundary (tokens : list TopLevelToken) : list TopLevelToken :=
  match last tokens with
  | Some token => if bool_decide (normalized token = []) then tokens else tokens ++ [boundary]
  | None => tokens
  end.

(** The [skip_*] loops, as the number of bytes they consume from [s]. *)
Fixpoint quoted_len (quote : Z) (s : str) : nat :=
  match s with
  | [] => 0
  | c :: s' =>
    if (c =? c_bslash)%Z && (quote =? c_squote)%Z then
      match s' with [] => 1 | _ :: s'' => 2 + quoted_len quote s'' end
    else if (c =? quote)%Z then
      match s' with
      | c' :: s'' => if (c' =? quote)%Z then 2 + quoted_len quote s'' else 1
      | [] => 1
      end
    else 1 + quoted_len quote s'
  end.

Definition skip_quoted (bytes : str) (position : nat) (quote : Z) : nat :=
  position + 1 + quoted_len quote (drop (position + 1) bytes).

Fixpoint line_len (s : str) : nat :=
  match s with
  | [] => 0
  | c :: s' => if (c =? c_nl)%Z then 0 else 1 + line_len s'
  end.

Definition skip_line_comment (bytes : str) (position : nat) : nat :=
  position + line_len (drop position bytes).

Fixpoint block_len (depth : Z) (s : str) : nat :=
  match s with
  | a :: ((b :: s'') as s') =>
    if (a =? c_slash)%Z && (b =? c_star)%Z then 2 + block_len (saturating_add U32_MAX depth 1) s''
    else if (a =? c_star)%Z && (b =? c_slash)%Z then
      if (depth - 1 =? 0)%Z then 2 else 2 + block_len (depth - 1) s''
    else 1 + block_len depth s'
  | s => length s
  end.

Definition skip_nested_block_comment (bytes : str) (position : nat) : nat :=
  position + block_len 1 (drop position bytes).

Definition word_byte (b : Z) : bool := is_ascii_alphanumeric b || (b =? c_underscore)%Z.

(** The bytes of a heredoc tag up to the next dollar sign. *)
Fixpoint heredoc_tag (s : str) : option str :=
  match s with
  | [] => None
  | c :: s' =>
    if (c =? c_dollar)%Z then Some []
    else if word_byte c then
      match heredoc_tag s' with Some t => Some (c :: t) | None => None end
    else None
  end.

Definition clickhouse_heredoc_end (bytes : str) (start : nat) : option nat :=
  let glued := match last (take start bytes) with
  | Some b => is_ascii_alphanumeric b || (b =? c_underscore)%Z || (b =? c_dollar)%Z
  | None => false
  end in
  if glued then None
  else match heredoc_tag (drop (start + 1) bytes) with
  | None => None
  | Some tag =>
    let delimiter := c_dollar :: tag ++ [c_dollar] in
    let candidate := start + length delimiter in
    match split_at_first delimiter (drop candidate bytes) with
    | Some (body, _) => Some (candidate + length body + length delimiter)
    | None => Some (length bytes)
    end
  end.

(** The bytes of the word that starts here. *)
Fixpoint word_span (s : str) : str :=
  match s with
  | [] => []
  | c :: s' => if word_byte c then c :: word_span s' else []
  end.

(** The local variables of [scan_top_level_tokens]. *)
Record TokenScan := mkTokenScan {
  position : nat;
  paren_depth : Z;
  tokens : list TopLevelToken;
}.

(** [usize::MAX] on the 64-bit targets the application ships for. *)
Definition USIZE_MAX : Z := U64_MAX.

(** [if depth == 0 { push_token_boundary(&mut tokens) }]. *)
Definition top_boundary (s : TokenScan) : list TopLevelToken :=
  if (paren_depth s =? 0)%Z then push_token_boundary (tokens s) else tokens s.

Definition is_byte (b : Z) (o : option Z) : bool := bool_decide (o = Some b).

Definition token_turn (bytes : str) (s : TokenScan) : Result IpcError TokenScan :=
  let p := position s in
  match bytes !! p with
  | None => Ok s
  | Some byte =>
    let next := bytes !! (p + 1) in
    if (byte =? c_squote)%Z || (byte =? c_dquote)%Z || (byte =? c_backtick)%Z then
      Ok (mkTokenScan (skip_quoted bytes p byte) (paren_depth s) (top_boundary s))
    else if (byte =? c_minus)%Z && is_byte c_minus next then
      Ok (mkTokenScan (skip_line_comment bytes (p + 2)) (paren_depth s) (tokens s))
    else if (byte =? c_hash)%Z
      && match next with Some n => (n =? c_bang)%Z || is_ascii_whitespace n | None => true end then
      Ok (mkTokenScan (skip_line_comment bytes (p + 1)) (paren_depth s) (tokens s))
    else if (byte =? c_slash)%Z && is_byte c_slash next then
      Ok (mkTokenScan (skip_line_comment bytes (p + 2)) (paren_depth s) (tokens s))
    else if (byte =? c_slash)%Z && is_byte c_star next then
      Ok (mkTokenScan (skip_nested_block_comment bytes (p + 2)) (paren_depth s) (tokens s))
    else if (byte =? c_dollar)%Z then
      match clickhouse_heredoc_end bytes p with
      | Some after_closing => Ok (mkTokenScan after_closing (paren_depth s) (top_boundary s))
      | None => Ok (mkTokenScan (p + 1) (paren_depth s) (tokens s))
      end
    else if (byte =? c_lparen)%Z then
      Ok (mkTokenScan (p + 1) (saturating_add USIZE_MAX (paren_depth s) 1) (top_boundary s))
    else if (byte =? c_rparen)%Z then
      let s := mkTokenScan (p + 1) (saturating_sub (paren_depth s) 1) (tokens s) in
      Ok (mkTokenScan (position s) (paren_depth s) (top_boundary s))
    else if word_byte byte then
      let original := word_span (drop p bytes) in
      Ok (mkTokenScan (p + length original) (paren_depth s)
            (if (paren_depth s =? 0)%Z
             then tokens s ++ [mkTopLevelToken (str_upper original) original] else tokens s))
    else if is_ascii_whitespace byte then Ok (mkTokenScan (p + 1) (paren_depth s) (tokens s))
    else Ok (mkTokenScan (p + 1) (paren_depth s) (top_boundary s))
  end.

Definition token_more (bytes : str) (s : TokenScan) : bool := position s <? length bytes.

(** The fuel is the number of bytes: every turn moves the position on. *)
Definition scan_top_level_tokens (sql : str) : list TopLevelToken :=
  let bytes := as_bytes sql in
  match while_loop (length bytes) (token_more bytes) (token_turn bytes) (mkTokenScan 0 0 []) with
  | Ok s => tokens s
  | Err _ => []
  end.

Definition validated_top_level_tokens (sql : str) : IpcResult (list TopLevelToken) :=
  if negb (sql_is_single_statement sql) then
    Err (validation_failed (lit "ClickHouse SQL must contain exactly one statement"))
  else
    let tokens := scan_top_level_tokens sql in
    if negb (existsb (fun t => negb (bool_decide (normalized t = []))) tokens) then
      Err (validation_failed (lit "ClickHouse SQL cannot be empty"))
    else Ok tokens.

Definition classify_leading (words : list str) : SqlStatementClass :=
  let first := match words with w :: _ => w | [] => [] end in
  if one_of first ["SELECT"; "SHOW"; "DESCRIBE"; "DESC"; "EXISTS"; "EXPLAIN"]%string then ClsRead
  else if one_of first ["CREATE"; "DROP"; "RENAME"; "TRUNCATE"; "ATTACH"; "DETACH"]%string then ClsDdl
  else if str_eqb first (lit "ALTER") && existsb (fun w => one_of w ["UPDATE"; "DELETE"]%string) words
  then ClsMutation
  else if str_eqb first (lit "ALTER") then ClsDdl
  else if str_eqb first (lit "INSERT") then ClsInsert
  else if str_eqb first (lit "DELETE") then ClsDelete
  else if str_eqb first (lit "SYSTEM") then ClsSystem
  else if one_of first ["SET"; "USE"; "OPTIMIZE"; "CHECK"; "KILL"]%string then ClsCommand
  else ClsUnknown.

Definition with_operation (w : str) : bool :=
  one_of w ["SELECT"; "INSERT"; "DELETE"; "CREATE"; "DROP"; "ALTER"; "SYSTEM"; "SET"; "USE";
    "OPTIMIZE"; "CHECK"; "KILL"]%string.

(** [words[index..]] from the first word that satisfies the test. *)
Fixpoint from_first (test : str -> bool) (ws : list str) : option (list str) :=
  match ws with
  | [] => None
  | w :: ws' => if test w then Some ws else from_first test ws'
  end.

Definition token_words (tokens : list TopLevelToken) : list str :=
  List.filter (fun w => negb (bool_decide (w = []))) (map normalized tokens).

Definition classify_tokens (tokens : list TopLevelToken) : SqlStatementClass :=
  let words := token_words tokens in
  match words with
  | w :: rest =>
    if str_eqb w (lit "WITH") then
      match from_first with_operation rest with
      | Some ws => classify_leading ws
      | None => ClsUnknown
      end
    else classify_leading words
  | [] => classify_leading words
  end.

Definition classify_statement (sql : str) : IpcResult SqlStatementClass :=
  tokens ← validated_top_level_tokens sql;
  Ok (classify_tokens tokens).

Definition classify_framed_statement (sql : str) : SqlStatementClass :=
  classify_tokens (scan_top_level_tokens sql).

(** [ClickHouseDriver::classify_ai_sql]. *)
Definition classify_ai_sql (sql : str) : SqlStatementClass := classify_framed_statement sql.

(** [tokens.windows(2)]. *)
Fixpoint windows2 {A} (l : list A) : list (A * A) :=
  match l with
  | a :: ((b :: _) as l') => (a, b) :: windows2 l'
  | _ => []
  end.

Definition is_into_outfile (w : TopLevelToken * TopLevelToken) : bool :=
  str_eqb (normalized w.1) (lit "INTO") && str_eqb (normalized w.2) (lit "OUTFILE").

Definition is_format (w : TopLevelToken * TopLevelToken) : bool :=
  str_eqb (normalized w.1) (lit "FORMAT") && negb (bool_decide (normalized w.2 = [])).

Definition raw_sql_directives (sql : str) : IpcResult RawSqlDirectives :=
  tokens ← validated_top_level_tokens sql;
  Ok (mkRawSqlDirectives
        (match List.find is_format (windows2 tokens) with Some w => Some (original w.2) | None => None end)
        (existsb is_into_outfile (windows2 tokens))).

Definition validate_managed_sql (sql : str) (mode : SqlResultMode) : IpcResult unit :=
  tokens ← validated_top_level_tokens sql;
  if bool_decide (mode = Grid) && existsb (fun t => str_eqb (normalized t) (lit "FORMAT")) tokens then
    Err (validation_failed (lit "ClickHouse FORMAT clauses are managed by NexusPilot"))
  else if bool_decide (mode = Grid) && existsb is_into_outfile (windows2 tokens) then
    Err (validation_failed (lit "ClickHouse INTO OUTFILE is not available in this result mode"))
  else Ok tt.

Example classify_1 : map classify_framed_statement (map lit
    ["WITH 1 AS n SELECT n"; "ALTER TABLE t UPDATE a = 1 WHERE b"; "alter table t add column c Int8";
     "/* select */ insert into t values (1)"; "$a$ select $a$"]%string)
  = [ClsRead; ClsMutation; ClsDdl; ClsInsert; ClsUnknown].
Proof. vm_compute. reflexivity. Qed.

Example directives_1 : raw_sql_directives (lit "SELECT 'FORMAT x' INTO OUTFILE 'f' FORMAT TSV")
  = Ok (mkRawSqlDirectives (Some (lit "TSV")) true).
Proof. vm_compute. reflexivity. Qed.

Example directives_2 : is_ok (validate_managed_sql (lit "SELECT (1) AS format_") Grid) = true /\
  is_ok (validate_managed_sql (lit "SELECT 1 format") Grid) = false.
Proof. vm_compute. done. Qed.

(** ** Execution policy ([policy.rs]) *)

Inductive ExecutionPolicy := ReadOnlyGrid | DirectGrid | DirectRaw | Control.

#[export] Instance ExecutionPolicy_eq_dec : EqDecision ExecutionPolicy.
Proof. solve_decision. Defined.

Definition settings (p : ExecutionPolicy) (timeout_ms : option Z) : list (str * str) :=
  (if bool_decide (p = ReadOnlyGrid) then [(lit "readonly", lit "2")] else [])
  ++ (if negb (bool_decide (p = DirectRaw)) then
        [(lit "output_format_json_quote_64bit_integers", lit "1");
         (lit "output_format_json_quote_decimals", lit "1");
         (lit "output_format_json_quote_denormals", lit "1");
         (lit "output_format_json_validate_utf8", lit "1")] else [])
  ++ match timeout_ms with
     | Some ms =>
       let seconds := (saturating_add U64_MAX ms 999 / 1000)%Z in
       [(lit "max_execution_time", to_dec (Z.max seconds 1))]
     | None => []
     end.

Definition command_settings (p : ExecutionPolicy) (timeout_ms : option Z) : list (str * str) :=
  settings p timeout_ms ++ [(lit "wait_end_of_query", lit "1")].

(** The [clickhouse] crate's query builder, through the method the policy calls. *)
Class QueryBuilder := {
  Query : Type;
  with_setting : Query -> str -> str -> Query;
}.

Definition apply_settings `{QueryBuilder} (q : Query) (l : list (str * str)) : Query :=
  fold_left (fun q kv => with_setting q kv.1 kv.2) l q.

(** [ExecutionPolicy::apply] and [apply_command]. *)
Definition apply_policy `{QueryBuilder} (p : ExecutionPolicy) (q : Query) (timeout_ms : option Z) : Query :=
  apply_settings q (settings p timeout_ms).
Definition apply_command `{QueryBuilder} (p : ExecutionPolicy) (q : Query) (timeout_ms : option Z) : Query :=
  apply_settings q (command_settings p timeout_ms).

(** ** Paged grid execution ([sql.rs], [mod.rs]) *)

Definition QUERY_TIMEOUT_MS : Z := 30000.
Definition MAX_FREE_SQL_SKIP_ROWS : Z := 100000.
Definition MAX_PAGE_SIZE : Z := 1000.

Record QueryWindow := mkQueryWindow {
  skip_rows : Z;
  window_page_size : Z;
}.

Definition validate_free_sql_window (skip_rows page_size : Z) : IpcResult unit :=
  if (MAX_FREE_SQL_SKIP_ROWS <? skip_rows)%Z then
    Err (validation_failed (lit "ClickHouse SQL paging can skip at most "
      ++ to_dec MAX_FREE_SQL_SKIP_ROWS ++ lit " rows; add a filter or LIMIT"))
  else if negb ((1 <=? page_size)%Z && (page_size <=? MAX_PAGE_SIZE)%Z) then
    Err (validation_failed (lit "ClickHouse page size must be between 1 and " ++ to_dec MAX_PAGE_SIZE))
  else Ok tt.

(** [Option<&str>] trimmed, and [None] when that leaves nothing. *)
Definition trimmed_nonempty (o : option str) : option str :=
  match o with
  | Some s => if bool_decide (trim s = []) then None else Some (trim s)
  | None => None
  end.

Definition validate_context (context : SqlExecutionContext) : IpcResult (option str) :=
  match trimmed_nonempty (sec_schema context) with
  | Some _ => Err (validation_failed
      (lit "ClickHouse SQL execution accepts a database context but not a schema context"))
  | None => Ok (trimmed_nonempty (sec_database context))
  end.

Definition readonly_query_result `{J : JsonNumber} (columns : list ColumnMeta) (rows : list (list Value))
    (page_size : Z) : QueryResult :=
  mkQueryResult columns (take (Z.to_nat page_size) rows) None
    (page_size <? Z.of_nat (length rows))%Z false false [] [] None.

(** The row callback of [decode_window_until_shutdown] over the decoded rows: skips,
    then retains until one row more than the page was seen.  Returns the rows kept
    and whether the stream was stopped. *)
Fixpoint window_rows {A} (skip : Z) (retained_limit : Z) (skipped : Z) (retained : list A) (rows : list A)
  : list A * bool :=
  match rows with
  | [] => (retained, false)
  | row :: rows' =>
    if (skipped <? skip)%Z then window_rows skip retained_limit (skipped + 1) retained rows'
    else
      let retained := retained ++ [row] in
      if (retained_limit <=? Z.of_nat (length retained))%Z then (retained, true)
      else window_rows skip retained_limit skipped retained rows'
  end.

(** [SqlQueryExecutor::execute]: the driver's connection, a parameter. *)
Class SqlQueryExecutor `{J : JsonNumber} := {
  executor_execute : option str -> str -> ExecutionPolicy -> option Z -> QueryWindow -> IpcResult QueryResult;
}.

Definition execute_sql_with `{J : JsonNumber, !SqlQueryExecutor} (context : SqlExecutionContext) (sql : str)
    (page page_size : Z) : IpcResult QueryResult :=
  database ← validate_context context;
  _ ← validate_managed_sql sql Grid;
  if (page =? 0)%Z then Err (validation_failed (lit "ClickHouse SQL page must be at least 1"))
  else
    skip ← ok_or (validation_failed (lit "ClickHouse SQL page offset is too large"))
             (checked_mul_u64 (page - 1) page_size);
    _ ← validate_free_sql_window skip page_size;
    executor_execute database sql ReadOnlyGrid (Some QUERY_TIMEOUT_MS) (mkQueryWindow skip page_size).

(** ** Summaries ([summary.rs]) *)

Definition max_optional (l r : option Z) : option Z :=
  match l, r with
  | Some a, Some b => Some (Z.max a b)
  | Some a, None | None, Some a => Some a
  | None, None => None
  end.

Definition or_option (a b : option Z) : option Z := match a with Some _ => a | None => b end.

Definition merge_completeness (l r : SqlSummaryCompleteness) : SqlSummaryCompleteness :=
  match l, r with
  | SumPartial, _ | _, SumPartial => SumPartial
  | SumFinal, SumFinal => SumFinal
  | _, _ => SumUnknown
  end.

Definition merge_summary (live response : option SqlExecutionSummary) : option SqlExecutionSummary :=
  match live, response with
  | None, None => None
  | Some s, None | None, Some s => Some s
  | Some l, Some r => Some (mkSqlExecutionSummary
      (max_optional (read_rows l) (read_rows r))
      (max_optional (read_bytes l) (read_bytes r))
      (max_optional (written_rows l) (written_rows r))
      (max_optional (written_bytes l) (written_bytes r))
      (max_optional (total_rows_to_read l) (total_rows_to_read r))
      (or_option (result_rows r) (result_rows l))
      (or_option (result_bytes r) (result_bytes l))
      (max_optional (elapsed_ns l) (elapsed_ns r))
      (or_option (memory_usage l) (memory_usage r))
      Merged
      (merge_completeness (sum_completeness l) (sum_completeness r)))
  end.

(** ** The token scanner *)

(** A token is a boundary or a word of the text, with its upper-case form. *)
Definition token_ok (t : TopLevelToken) : Prop :=
  t = boundary \/
  (original t <> [] /\ forallb word_byte (original t) = true /\ normalized t = str_upper (original t)).

(** Boundaries separate words: never two in a row, and none in front. *)
Fixpoint separated (after_word : bool) (l : list TopLevelToken) : Prop :=
  match l with
  | [] => True
  | t :: l' =>
    if bool_decide (normalized t = []) then after_word = true /\ separated false l'
    else separated true l'
  end.

Definition ends_with_word (l : list TopLevelToken) : bool :=
  match last l with Some t => negb (bool_decide (normalized t = [])) | None => false end.

Lemma separated_app b l l' :
  separated b (l ++ l') <->
  separated b l /\ separated (match l with [] => b | _ => ends_with_word l end) l'.
Proof.
  revert b. induction l as [|t l IH]; intros b; [simpl; tauto|].
  assert (ends_with_word (t :: l) = match l with
    | [] => negb (bool_decide (normalized t = [])) | _ => ends_with_word l end) as ->.
  { unfold ends_with_word. by destruct l. }
  simpl. case_bool_decide; rewrite IH; destruct l; simpl; tauto.
Qed.

Lemma push_boundary_ok l :
  Forall token_ok l -> separated false l ->
  Forall token_ok (push_token_boundary l) /\ separated false (push_token_boundary l).
Proof.
  intros Hl Hs. unfold push_token_boundary. destruct (last l) as [t|] eqn:E; [|done].
  case_bool_decide as Hn; [done|]. split.
  - apply Forall_app_2; [done|]. by repeat constructor.
  - apply separated_app. split; [done|]. destruct l as [|t' l]; [done|].
    unfold ends_with_word. rewrite E. simpl. by rewrite bool_decide_eq_false_2.
Qed.

Lemma word_span_ok s : forallb word_byte (word_span s) = true.
Proof. induction s as [|c s IH]; [done|]. simpl. destruct (word_byte c) eqn:E; [|done]. simpl. by rewrite E. Qed.

Lemma word_span_cons c s : word_byte c = true -> word_span (c :: s) <> [].
Proof. simpl. by intros ->. Qed.

Lemma push_word_ok l w :
  w <> [] -> forallb word_byte w = true -> Forall token_ok l -> separated false l ->
  Forall token_ok (l ++ [mkTopLevelToken (str_upper w) w]) /\
  separated false (l ++ [mkTopLevelToken (str_upper w) w]).
Proof.
  intros Hw Hb Hl Hs. split.
  - apply Forall_app_2; [done|]. constructor; [|constructor]. by right.
  - apply separated_app. split; [done|]. simpl. rewrite bool_decide_eq_false_2; [done|]. by destruct w.
Qed.

Definition tokens_ok (s : TokenScan) : Prop :=
  Forall token_ok (tokens s) /\ separated false (tokens s).

Lemma top_boundary_ok s : tokens_ok s ->
  Forall token_ok (top_boundary s) /\ separated false (top_boundary s).
Proof. intros [H1 H2]. unfold top_boundary. destruct (_ =? _)%Z; [by apply push_boundary_ok|done]. Qed.

Lemma heredoc_end_gt bytes p q : p < length bytes -> clickhouse_heredoc_end bytes p = Some q -> p < q.
Proof.
  intros Hp. unfold clickhouse_heredoc_end. repeat case_match; try done; intros [= <-]; simpl; lia.
Qed.

(** Every turn keeps the token invariant and moves on. *)
Lemma token_turn_ok bytes s s' :
  tokens_ok s -> position s < length bytes -> token_turn bytes s = Ok s' ->
  tokens_ok s' /\ position s < position s'.
Proof.
  intros Hs Hp. pose proof (top_boundary_ok _ Hs) as Ht. unfold token_turn.
  destruct (bytes !! position s) as [byte|] eqn:Hb; [|apply lookup_ge_None in Hb; lia].
  destruct (_ || _); [intros [= <-]; split; [exact Ht|unfold skip_quoted; simpl; lia]|].
  do 3 (destruct (_ && _); [intros [= <-]; split; [exact Hs|unfold skip_line_comment; simpl; lia]|]).
  destruct (_ && _); [intros [= <-]; split; [exact Hs|unfold skip_nested_block_comment; simpl; lia]|].
  destruct (byte =? c_dollar)%Z.
  { destruct (clickhouse_heredoc_end _ _) eqn:Hh; intros [= <-].
    - split; [exact Ht|]. by eapply heredoc_end_gt.
    - split; [exact Hs|simpl; lia]. }
  destruct (byte =? c_lparen)%Z; [intros [= <-]; split; [exact Ht|simpl; lia]|].
  destruct (byte =? c_rparen)%Z.
  { intros [= <-]. split; [|simpl; lia].
    apply (top_boundary_ok (mkTokenScan _ _ _)). exact Hs. }
  destruct (word_byte byte) eqn:Hw.
  { intros [= <-]. rewrite (drop_S _ _ _ Hb). pose proof (word_span_cons byte (drop (S (position s)) bytes) Hw) as Hne.
    pose proof (word_span_ok (byte :: drop (S (position s)) bytes)) as Hok.
    set (w := word_span _) in *. clearbody w. split.
    - unfold tokens_ok. simpl tokens. destruct (_ =? _)%Z; [|exact Hs].
      apply push_word_ok; [done|done|apply Hs..].
    - destruct w; [done|simpl; lia]. }
  destruct (is_ascii_whitespace byte); intros [= <-]; (split; [done|simpl; lia]).
Qed.

Section token_loop.
Context (bytes : str).

(** The loop reaches the end of the bytes whatever fuel above their number it has. *)
Lemma token_loop_ok fuel s :
  tokens_ok s -> length bytes - position s <= fuel ->
  exists s', while_loop fuel (token_more bytes) (token_turn bytes) s = Ok s' /\
    tokens_ok s' /\ length bytes <= position s' /\
    forall fuel', fuel <= fuel' -> while_loop fuel' (token_more bytes) (token_turn bytes) s = Ok s'.
Proof.
  revert s. induction fuel as [|n IH]; intros s Hs Hf.
  - exists s. split_and!; [done..|lia|]. intros [|m] _; [done|]. simpl. unfold token_more.
    destruct (Nat.ltb_spec (position s) (length bytes)); [lia|done].
  - destruct (decide (position s < length bytes)) as [Hp|Hp].
    + destruct (token_turn bytes s) as [s1|e] eqn:E.
      2:{ exfalso. revert E. unfold token_turn. by repeat case_match. }
      destruct (token_turn_ok _ _ _ Hs Hp E) as [H1 Hlt].
      destruct (IH s1 H1 ltac:(lia)) as (s' & Hl & Ho & Hend & Hm).
      exists s'. assert (Hc : token_more bytes s = true) by (by apply Nat.ltb_lt).
      split; [simpl; by rewrite Hc, E|]. split_and!; [done..|].
      intros [|m] Hle; [lia|]. simpl. rewrite Hc, E. simpl. apply Hm. lia.
    + exists s. assert (Hc : token_more bytes s = false) by (by apply Nat.ltb_nlt).
      split; [simpl; by rewrite Hc|]. split_and!; [done|lia|].
      intros [|m] Hle; [lia|]. simpl. by rewrite Hc.
Qed.
End token_loop.

(** ** Theorems *)

(** The token scan reads every statement to its end: the loop stops because the
    position has reached the last byte, with any fuel of at least the number of
    bytes, and the tokens are words of the text (non-empty runs of letters, digits
    and underscores with their upper-case form) separated by single boundaries. *)
Theorem token_scan_total sql fuel :
  let bytes := as_bytes sql in
  length bytes <= fuel ->
  exists s, while_loop fuel (token_more bytes) (token_turn bytes) (mkTokenScan 0 0 []) = Ok s /\
    length bytes <= position s /\ tokens s = scan_top_level_tokens sql /\
    Forall token_ok (scan_top_level_tokens sql) /\ separated false (scan_top_level_tokens sql).
Proof.
  intros bytes Hf. unfold scan_top_level_tokens. fold bytes.
  destruct (token_loop_ok bytes (length bytes) (mkTokenScan 0 0 [])) as (s & Hl & [H1 H2] & Hp & Hm);
    [by split|simpl; lia|].
  rewrite Hl. exists s. split; [by apply Hm|]. done.
Qed.

Lemma find_None_existsb {A} (f : A -> bool) l : existsb f l = false -> List.find f l = None.
Proof. induction l as [|x l IH]; [done|]. simpl. intros [-> H]%orb_false_iff. by apply IH. Qed.

Lemma windows2_fst {A} (f : A -> bool) (l : list A) :
  existsb f l = false -> forall w, w ∈ windows2 l -> f w.1 = false.
Proof.
  induction l as [|a [|b l] IH]; [by intros ? ? ?%elem_of_nil|by intros ? ? ?%elem_of_nil|].
  simpl. intros [Ha Hl]%orb_false_iff w [->|Hw]%elem_of_cons; [done|]. by apply IH.
Qed.

(** Grid mode manages its own format.  A statement accepted for the grid is a
    single one with at least one word, holds no [FORMAT] word and no [INTO OUTFILE]
    at the top level, so the raw directives read from the same text are empty, and
    the class shown for it is the one the unvalidated classifier computes. *)
Theorem grid_statement_has_no_directives sql :
  validate_managed_sql sql Grid = Ok tt ->
  sql_is_single_statement sql = true /\
  raw_sql_directives sql = Ok (mkRawSqlDirectives None false) /\
  classify_statement sql = Ok (classify_framed_statement sql) /\
  (lit "FORMAT" ∉ token_words (scan_top_level_tokens sql)) /\
  token_words (scan_top_level_tokens sql) <> [].
Proof.
  unfold validate_managed_sql, raw_sql_directives, classify_statement, validated_top_level_tokens.
  destruct (sql_is_single_statement sql); [|done]. simpl.
  destruct (existsb (fun t => negb _) _) eqn:Hne; [|done]. simpl.
  destruct (existsb (fun t => str_eqb _ _) _) eqn:Hf; [done|].
  destruct (existsb is_into_outfile _) eqn:Ho; [done|]. intros _. split; [done|].
  set (ts := scan_top_level_tokens sql) in *. split_and!.
  - rewrite find_None_existsb; [done|]. apply not_true_iff_false. intros (w & Hw & Hfw)%existsb_exists.
    apply list_elem_of_In in Hw. pose proof (windows2_fst _ _ Hf _ Hw) as Hn. simpl in Hn.
    unfold is_format in Hfw. by rewrite Hn in Hfw.
  - done.
  - unfold token_words. intros Hin%list_elem_of_In%filter_In. destruct Hin as [(t & Ht & Hin)%in_map_iff _].
    apply not_true_iff_false in Hf. apply Hf, existsb_exists. exists t. split; [done|].
    apply bool_decide_eq_true. exact Ht.
  - apply existsb_exists in Hne as (t & Hin & Ht). intros Hn.
    assert (In (normalized t) (token_words ts)) as Hc.
    { apply filter_In. split; [by apply in_map|done]. }
    by rewrite Hn in Hc.
Qed.

Lemma grid_statement_has_no_directives_witness :
  classify_statement (lit "SELECT 'FORMAT' FROM t -- FORMAT x") = Ok ClsRead.
Proof.
  destruct (grid_statement_has_no_directives (lit "SELECT 'FORMAT' FROM t -- FORMAT x")) as (_ & _ & H & _).
  - vm_compute. reflexivity.
  - rewrite H. vm_compute. reflexivity.
Defined.

Lemma token_scan_total_witness :
  (tokens <$> match while_loop 99 (token_more (as_bytes (lit "select 1;"))) (token_turn (as_bytes (lit "select 1;")))
    (mkTokenScan 0 0 []) with Ok s => Some s | Err _ => None end)
  = Some (scan_top_level_tokens (lit "select 1;")).
Proof.
  destruct (token_scan_total (lit "select 1;") 99) as (s & H & _ & Ht & _); [vm_compute; lia|].
  rewrite H. simpl. by rewrite Ht.
Defined.

(** The words a read statement starts with. *)
Definition read_words : list string := ["SELECT"; "SHOW"; "DESCRIBE"; "DESC"; "EXISTS"; "EXPLAIN"]%string.

(** The operation word: the first one, or the first operation after [WITH]. *)
Definition operation_words (ws : list str) : list str :=
  match ws with
  | w :: rest => if str_eqb w (lit "WITH") then
      match from_first with_operation rest with Some l => l | None => [] end
    else ws
  | [] => []
  end.

(** The class of a statement is decided by its operation word alone, the first
    top-level word or the first operation after a leading [WITH]: it is a read
    exactly when that word is a read word, a mutation exactly when it is [ALTER] and
    an [UPDATE] or [DELETE] follows at the top level, and unknown when no operation
    follows [WITH] or there is no word at all. *)
Theorem class_follows_operation sql :
  let ws := operation_words (token_words (scan_top_level_tokens sql)) in
  (classify_framed_statement sql = ClsRead <-> exists w r, ws = w :: r /\ one_of w read_words = true) /\
  (classify_framed_statement sql = ClsMutation <->
     exists r, ws = lit "ALTER" :: r /\ exists w, w ∈ r /\ one_of w ["UPDATE"; "DELETE"]%string = true) /\
  (ws = [] -> classify_framed_statement sql = ClsUnknown).
Proof.
  intros ws. unfold classify_framed_statement.
  assert (classify_tokens (scan_top_level_tokens sql) = classify_leading ws) as ->.
  { unfold ws, operation_words, classify_tokens. destruct (token_words _) as [|w r]; [done|].
    destruct (str_eqb w _); [|done]. by destruct (from_first _ _). }
  clearbody ws. destruct ws as [|w r].
  { assert (classify_leading [] = ClsUnknown) as -> by (vm_compute; reflexivity).
    split_and!; [split; [done|]..|done].
    - by intros (? & ? & ? & _).
    - by intros (? & ? & _). }
  split_and!; [..|done].
  - unfold classify_leading. split.
    + destruct (one_of w _) eqn:E; [by exists w, r|]. by repeat case_match.
    + intros (w' & r' & [= <- <-] & Hw). unfold read_words in Hw. by rewrite Hw.
  - unfold classify_leading. split.
    + destruct (one_of w _); [done|]. destruct (one_of w _); [done|].
      destruct (str_eqb w (lit "ALTER") && _) eqn:E; [|by repeat case_match].
      intros _. apply andb_true_iff in E as [->%bool_decide_eq_true (u & [<-|Hu]%in_inv & Ho)%existsb_exists].
      * by vm_compute in Ho.
      * exists r. split; [done|]. exists u. by rewrite list_elem_of_In.
    + intros (r' & [= -> <-] & u & Hu & Ho).
      replace (existsb _ (lit "ALTER" :: r)) with true; [done|].
      symmetry. apply existsb_exists. exists u. split; [right; by apply list_elem_of_In|done].
Qed.

Lemma validate_window_spec skip size :
  is_ok (validate_free_sql_window skip size) = true <->
  (skip <= MAX_FREE_SQL_SKIP_ROWS /\ 1 <= size <= MAX_PAGE_SIZE)%Z.
Proof.
  unfold validate_free_sql_window.
  destruct (Z.ltb_spec MAX_FREE_SQL_SKIP_ROWS skip); simpl; [split; [done|lia]|].
  destruct (Z.leb_spec 1 size), (Z.leb_spec size MAX_PAGE_SIZE); simpl; split; done || lia.
Qed.

(** Every failure of the checks is a validation error. *)
Definition validation_error {A} (r : IpcResult A) : Prop :=
  match r with Ok _ => True | Err e => code e = ValidationFailed end.

Lemma validated_tokens_error sql : validation_error (validated_top_level_tokens sql).
Proof. unfold validated_top_level_tokens. by repeat case_match. Qed.

Lemma validate_managed_error sql mode : validation_error (validate_managed_sql sql mode).
Proof.
  unfold validate_managed_sql. pose proof (validated_tokens_error sql).
  destruct (validated_top_level_tokens sql); simpl in *; [|done]. by repeat case_match.
Qed.

Lemma validate_context_error ctx : validation_error (validate_context ctx).
Proof. unfold validate_context. by repeat case_match. Qed.

Lemma validate_window_error skip size : validation_error (validate_free_sql_window skip size).
Proof. unfold validate_free_sql_window. by repeat case_match. Qed.

(** What the grid requires of a request. *)
Definition grid_request_ok (ctx : SqlExecutionContext) (sql : str) (page page_size : Z) : Prop :=
  trimmed_nonempty (sec_schema ctx) = None /\ validate_managed_sql sql Grid = Ok tt /\
  (1 <= page /\ (page - 1) * page_size <= MAX_FREE_SQL_SKIP_ROWS /\ 1 <= page_size <= MAX_PAGE_SIZE)%Z.

(** A paged grid query reaches the server exactly when the request is admissible,
    and then as the read-only policy, the fixed timeout and the exact row window of
    the page; every other request is refused with a validation error whatever the
    executor would do. *)
Theorem grid_query_dispatch `{J : JsonNumber, X : !SqlQueryExecutor} ctx sql page page_size :
  (0 <= page <= U32_MAX)%Z -> (0 <= page_size <= U32_MAX)%Z ->
  (grid_request_ok ctx sql page page_size /\
   execute_sql_with ctx sql page page_size
   = executor_execute (trimmed_nonempty (sec_database ctx)) sql ReadOnlyGrid (Some QUERY_TIMEOUT_MS)
       (mkQueryWindow ((page - 1) * page_size) page_size)) \/
  (~ grid_request_ok ctx sql page page_size /\
   exists e, execute_sql_with ctx sql page page_size = Err e /\ code e = ValidationFailed).
Proof.
  intros Hp Hs. unfold execute_sql_with, grid_request_ok.
  pose proof (validate_context_error ctx) as Hce. unfold validate_context in *.
  destruct (trimmed_nonempty (sec_schema ctx)); simpl; [right; split; [by intros (? & _)|by eexists]|].
  pose proof (validate_managed_error sql Grid) as Hme.
  destruct (validate_managed_sql sql Grid) as [[]|e]; simpl in *;
    [|right; split; [by intros (_ & ? & _)|by eexists]].
  destruct (Z.eqb_spec page 0); simpl; [right; split; [lia|by eexists]|].
  unfold checked_mul_u64.
  destruct (Z.leb_spec ((page - 1) * page_size) U64_MAX) as [Hm|Hm]; simpl;
    [|exfalso; unfold U32_MAX, U64_MAX in *; nia].
  pose proof (validate_window_error ((page - 1) * page_size) page_size) as Hwe.
  pose proof (validate_window_spec ((page - 1) * page_size) page_size) as Hw.
  destruct (validate_free_sql_window _ _) as [[]|e]; simpl in *.
  - left. split; [|done]. destruct Hw as [Hw _]. specialize (Hw eq_refl). split_and!; try done; lia.
  - right. split; [|by eexists]. intros (_ & _ & H). destruct Hw as [_ Hw]. discriminate Hw. lia.
Qed.

Lemma window_skip {A} skip limit skipped (retained rows : list A) :
  (0 <= skipped <= skip)%Z ->
  window_rows skip limit skipped retained rows
  = window_rows skip limit skip retained (drop (Z.to_nat (skip - skipped)) rows).
Proof.
  revert skipped. induction rows as [|r rows IH]; intros skipped H; [by rewrite drop_nil|].
  simpl. destruct (Z.ltb_spec skipped skip) as [Hlt|Hge].
  - rewrite IH by lia. replace (Z.to_nat (skip - skipped)) with (S (Z.to_nat (skip - (skipped + 1)))) by lia. done.
  - assert (skipped = skip) as -> by lia. rewrite Z.sub_diag. simpl.
    destruct (Z.ltb_spec skip skip); [lia|done].
Qed.

Lemma window_retain {A} skip limit (retained rows : list A) :
  (Z.of_nat (length retained) < limit)%Z ->
  window_rows skip limit skip retained rows
  = (retained ++ take (Z.to_nat limit - length retained) rows,
     (limit <=? Z.of_nat (length retained + length rows))%Z).
Proof.
  revert retained. induction rows as [|r rows IH]; intros retained H.
  - simpl. rewrite take_nil, app_nil_r, Nat.add_0_r. destruct (Z.leb_spec limit (Z.of_nat (length retained))); [lia|done].
  - simpl. destruct (Z.ltb_spec skip skip); [lia|]. rewrite length_app. simpl.
    destruct (Z.leb_spec limit (Z.of_nat (length retained + 1))) as [Hle|Hgt].
    + replace (Z.to_nat limit - length retained) with 1 by lia. simpl. rewrite firstn_O.
      destruct (Z.leb_spec limit (Z.of_nat (length retained + S (length rows)))); [done|lia].
    + rewrite IH by (rewrite length_app; simpl; lia). rewrite length_app. simpl.
      replace (Z.to_nat limit - length retained) with (S (Z.to_nat limit - (length retained + 1))) by lia.
      simpl. rewrite <-app_assoc. do 3 f_equal. lia.
Qed.

(** The grid shows the requested page of the stream: with the rows the server
    would send, the window keeps exactly the page's rows, says that a next page
    exists exactly when one more row follows, and stops reading as soon as it knows. *)
Theorem grid_window_is_the_page `{J : JsonNumber} (columns : list ColumnMeta) (rows : list (list Value))
    (skip page_size : Z) :
  (0 <= skip <= MAX_FREE_SQL_SKIP_ROWS)%Z -> (1 <= page_size <= MAX_PAGE_SIZE)%Z ->
  let (kept, stopped) := window_rows skip (page_size + 1) 0 [] rows in
  let result := readonly_query_result columns kept page_size in
  qr_rows result = take (Z.to_nat page_size) (drop (Z.to_nat skip) rows) /\
  qr_has_next_page result = (skip + page_size <? Z.of_nat (length rows))%Z /\
  stopped = qr_has_next_page result /\
  (Z.of_nat (length kept) <= page_size + 1)%Z.
Proof.
  intros Hs Hp. rewrite window_skip, Z.sub_0_r, window_retain by (simpl; lia). simpl.
  rewrite Nat.sub_0_r, take_take, Nat.min_l by lia. split_and!; [done|..].
  all: rewrite length_take, length_drop.
  - apply eq_true_iff_eq. rewrite !Z.ltb_lt. lia.
  - apply eq_true_iff_eq. rewrite Z.leb_le, Z.ltb_lt. lia.
  - lia.
Qed.

(** A policy sends [readonly] exactly for the read-only grid, sets no name twice,
    and its server-side time limit is the timeout rounded up to whole seconds, never
    less than one (zero would mean no limit). *)
Theorem policy_settings_spec p timeout_ms :
  (forall ms, timeout_ms = Some ms -> (0 <= ms <= U64_MAX - 999)%Z) ->
  (lit "readonly" ∈ map fst (settings p timeout_ms) <-> p = ReadOnlyGrid) /\
  NoDup (map fst (command_settings p timeout_ms)) /\
  (forall ms, timeout_ms = Some ms -> exists seconds,
     (lit "max_execution_time", to_dec seconds) ∈ settings p timeout_ms /\
     (1 <= seconds)%Z /\ (ms <= seconds * 1000)%Z /\ (ms < 1000 \/ (seconds - 1) * 1000 < ms)%Z) /\
  (timeout_ms = None -> lit "max_execution_time" ∉ map fst (settings p timeout_ms)).
Proof.
  intros Hms. split_and!.
  - assert (Hk : forall t, map fst (settings p t) =
      map fst (settings p None) ++ match t with Some _ => [lit "max_execution_time"] | None => [] end).
    { intros [t|]; [|by rewrite app_nil_r]. unfold settings. rewrite !map_app. simpl. by rewrite app_nil_r, !app_assoc. }
    rewrite Hk, elem_of_app.
    assert (lit "readonly" ∈ map fst (settings p None) <-> p = ReadOnlyGrid) as ->.
    { apply (bool_decide_unpack _). destruct p; vm_compute; exact I. }
    split; [|auto]. intros [H|H]; [done|]. destruct timeout_ms; [|by apply elem_of_nil in H].
    apply list_elem_of_singleton in H. by vm_compute in H.
  - assert (NoDup (map fst (command_settings p (option_map (fun _ => 0%Z) timeout_ms)))) as H.
    { apply (bool_decide_unpack _). destruct p, timeout_ms; vm_compute; exact I. }
    unfold command_settings, settings in *. rewrite !map_app in *. by destruct timeout_ms.
  - intros ms Hm. specialize (Hms ms Hm). subst timeout_ms. unfold settings.
    exists (Z.max (saturating_add U64_MAX ms 999 / 1000) 1). split.
    + rewrite !elem_of_app. right. right. by apply list_elem_of_singleton.
    + unfold saturating_add. rewrite Z.min_r by lia.
      pose proof (Z.div_mod (ms + 999) 1000 ltac:(lia)). pose proof (Z.mod_pos_bound (ms + 999) 1000 ltac:(lia)). lia.
  - intros ->. apply (bool_decide_unpack _). destruct p; vm_compute; exact I.
Qed.

(** The order "known and at least as large" on optional counters. *)
Definition counter_le (a b : option Z) : Prop :=
  match a, b with
  | None, _ => True
  | Some x, Some y => (x <= y)%Z
  | Some _, None => False
  end.

Lemma max_optional_lub a b c :
  counter_le (max_optional a b) c <-> counter_le a c /\ counter_le b c.
Proof. destruct a, b, c; simpl; try tauto; lia. Qed.

Lemma counter_le_refl a : counter_le a a.
Proof. destruct a; simpl; lia || done. Qed.

(** Merging the polled summary with the one of the response loses nothing: every
    progress counter is the least value that covers both sides, a result count comes
    from the response whenever it has one, nothing known becomes unknown, nothing
    unknown becomes zero, and the merge is final only when both sides are. *)
Theorem merge_summary_covers l r :
  exists m, merge_summary (Some l) (Some r) = Some m /\
    Forall (fun f : SqlExecutionSummary -> option Z =>
        counter_le (f l) (f m) /\ counter_le (f r) (f m) /\
        forall u, counter_le (f l) u -> counter_le (f r) u -> counter_le (f m) u)
      [read_rows; read_bytes; written_rows; written_bytes; total_rows_to_read; elapsed_ns] /\
    Forall (fun f : SqlExecutionSummary -> option Z =>
        (f m = None <-> f l = None /\ f r = None) /\ (f m = f l \/ f m = f r))
      [read_rows; read_bytes; written_rows; written_bytes; total_rows_to_read; elapsed_ns;
       result_rows; result_bytes; memory_usage] /\
    (is_Some (result_rows r) -> result_rows m = result_rows r) /\
    (sum_completeness m = SumFinal <-> sum_completeness l = SumFinal /\ sum_completeness r = SumFinal) /\
    merge_summary None (Some r) = Some r /\ merge_summary (Some l) None = Some l.
Proof.
  eexists. split; [reflexivity|]. simpl. split_and!; try done.
  - assert (H : forall a b, counter_le a (max_optional a b) /\ counter_le b (max_optional a b) /\
      forall u, counter_le a u -> counter_le b u -> counter_le (max_optional a b) u).
    { intros a b. pose proof (proj1 (max_optional_lub a b _) (counter_le_refl _)) as [? ?].
      split_and!; [done..|]. intros u. rewrite max_optional_lub. auto. }
    repeat (constructor; [apply H|]). constructor.
  - assert (H1 : forall a b, (max_optional a b = None <-> a = None /\ b = None) /\
      (max_optional a b = a \/ max_optional a b = b)).
    { intros [a|] [b|]; simpl; split; try intuition congruence.
      destruct (Z.max_spec a b) as [[_ ->]|[_ ->]]; auto. }
    assert (H2 : forall a b, (or_option a b = None <-> a = None /\ b = None) /\
      (or_option a b = a \/ or_option a b = b)).
    { intros [a|] [b|]; simpl; split; intuition congruence. }
    repeat (constructor; [apply H1|]).
    constructor; [simpl; destruct (H2 (result_rows r) (result_rows l)); tauto|].
    constructor; [simpl; destruct (H2 (result_bytes r) (result_bytes l)); tauto|].
    constructor; [simpl; destruct (H2 (memory_usage l) (memory_usage r)); tauto|constructor].
  - intros [x Hx]. by rewrite Hx.
  - destruct (sum_completeness l), (sum_completeness r); simpl; intuition congruence.
Qed.

(** ** Concrete runs *)

Definition demo_executor : SqlQueryExecutor (J:=IntegerNumber) :=
  {| executor_execute := fun _ _ _ _ w =>
       Ok (mkQueryResult [] [[VString (to_dec (skip_rows w))]] None false false false [] [] None) |}.

Definition demo_context : SqlExecutionContext := mkSqlExecutionContext (Some (lit " db ")) (Some (lit "  ")).

Lemma grid_query_dispatch_witness :
  (grid_request_ok demo_context (lit "SELECT 1") 3 50 /\
   @execute_sql_with IntegerNumber demo_executor demo_context (lit "SELECT 1") 3 50
   = @executor_execute IntegerNumber demo_executor (Some (lit "db")) (lit "SELECT 1") ReadOnlyGrid
       (Some QUERY_TIMEOUT_MS) (mkQueryWindow 100 50)) \/
  (~ grid_request_ok demo_context (lit "SELECT 1") 3 50 /\
   exists e, @execute_sql_with IntegerNumber demo_executor demo_context (lit "SELECT 1") 3 50 = Err e /\
     code e = ValidationFailed).
Proof.
  apply (@grid_query_dispatch IntegerNumber demo_executor demo_context (lit "SELECT 1") 3 50);
    unfold U32_MAX; lia.
Defined.

Example demo_request_ok : grid_request_ok demo_context (lit "SELECT 1") 3 50.
Proof. unfold grid_request_ok, MAX_FREE_SQL_SKIP_ROWS, MAX_PAGE_SIZE. split_and!; reflexivity || lia. Qed.

Lemma class_follows_operation_witness :
  operation_words (token_words (scan_top_level_tokens (lit "WITH x"))) = [] /\
  classify_framed_statement (lit "WITH x") = ClsUnknown.
Proof.
  split; [vm_compute; reflexivity|].
  apply (class_follows_operation (lit "WITH x")). vm_compute. reflexivity.
Defined.

Lemma grid_window_is_the_page_witness :
  let rows := map (fun z => [VString (J:=IntegerNumber) (to_dec z)]) [1; 2; 3; 4; 5]%Z in
  let (kept, stopped) := window_rows 2 3 0 [] rows in
  qr_rows (readonly_query_result [] kept 2) = take 2 (drop 2 rows) /\ stopped = true.
Proof.
  pose proof (grid_window_is_the_page (J:=IntegerNumber) []
    (map (fun z => [VString (J:=IntegerNumber) (to_dec z)]) [1; 2; 3; 4; 5]%Z) 2 2
    ltac:(unfold MAX_FREE_SQL_SKIP_ROWS; lia) ltac:(unfold MAX_PAGE_SIZE; lia)) as H.
  change (2 + 1)%Z with 3%Z in H. cbv zeta in *.
  destruct (window_rows 2 3 0 [] _) as [kept stopped] eqn:E. split; [apply H|].
  destruct H as (_ & Hn & -> & _). rewrite Hn. reflexivity.
Defined.

Lemma policy_settings_spec_witness :
  NoDup (map fst (command_settings ReadOnlyGrid (Some 30001%Z))) /\
  (lit "max_execution_time", lit "31") ∈ settings ReadOnlyGrid (Some 30001%Z).
Proof.
  destruct (policy_settings_spec ReadOnlyGrid (Some 30001%Z)) as (_ & H & Hs & _).
  - intros ms [= <-]. unfold U64_MAX. lia.
  - split; [exact H|]. destruct (Hs _ eq_refl) as (s & Hin & H1 & H2 & H3).
    assert (s = 31%Z) as -> by lia. exact Hin.
Defined.
