(* ===== verification/ClickHouseTypes.v ===== *)
(** * ClickHouse type names
    ([src-tauri/src/engine/drivers/clickhouse/query/types.rs])

    The header of a query result names the type of each column.  The parser walks the
    characters of the name; its position is the text it still has to read, so a slice
    from an earlier position is what was read since.  The second half shows that
    reading ends and yields well-formed types. *)

From stdpp Require Import base list strings.
From Stdlib Require Import ZArith Lia.
From S2P Require Import Prelude Digits Errors Types.

Inductive ClickHouseType :=
| ChInt (signed : bool) (bits : Z)
| ChFloat (bits : Z)
| ChDecimal (storage_bits precision scale : Z)
| ChBool
| ChString
| ChFixedString (len : Z)
| ChDate
| ChDate32
| ChDateTime (timezone : option str)
| ChDateTime64 (scale : Z) (timezone : option str)
| ChUuid
| ChIpv4
| ChIpv6
| ChEnum (bits : Z) (variants : list (str * Z))
| ChNullable (inner : ClickHouseType)
| ChLowCardinality (inner : ClickHouseType)
| ChArray (inner : ClickHouseType)
| ChMap (key value : ClickHouseType)
| ChTuple (fields : list TupleField)
| ChNested (fields : list TupleField)
| ChJsonOrObject (raw : str)
| ChVariant (alternatives : list ClickHouseType)
| ChUnknown (raw : str)
with TupleField := mkTupleField (name : option str) (ty : ClickHouseType).

Definition tf_name (f : TupleField) : option str := let (n, _) := f in n.
Definition tf_ty (f : TupleField) : ClickHouseType := let (_, t) := f in t.

Fixpoint is_nullable (t : ClickHouseType) : bool :=
  match t with
  | ChNullable _ => true
  | ChLowCardinality inner => is_nullable inner
  | _ => false
  end.

Definition unwrap_low_cardinality (t : ClickHouseType) : ClickHouseType :=
  match t with ChLowCardinality inner => inner | _ => t end.

Fixpoint data_category (t : ClickHouseType) : ColumnDataCategory :=
  match t with
  | ChNullable inner | ChLowCardinality inner => data_category inner
  | ChInt _ _ | ChFloat _ | ChDecimal _ _ _ => CatNumber
  | ChBool => CatBoolean
  | ChDate | ChDate32 => CatDate
  | ChDateTime _ | ChDateTime64 _ _ => CatDatetime
  | ChUuid => CatUuid
  | ChEnum _ _ => CatEnum
  | ChJsonOrObject _ => CatJson
  | ChArray _ | ChMap _ _ | ChTuple _ | ChNested _ | ChVariant _ => CatStructured
  | ChString | ChFixedString _ | ChIpv4 | ChIpv6 => CatString
  | ChUnknown _ => CatUnknown
  end.

(** ** The parser *)

(** The state is the text still to be read; an error is its message. *)
Abbreviation Parser A := (ST str str A).

Definition p_fail {A} (m : string) : Parser A := st_lift (Err (lit m)).
Definition p_check (bad : bool) (m : string) : Parser unit := if bad then p_fail m else mret tt.

Definition p_fun {A} (f : str -> Result str A * str) : Parser A := f.

Definition is_quote (c : Z) : bool := (c =? c_squote)%Z || (c =? c_dquote)%Z || (c =? c_backtick)%Z.
Definition ident_char (c : Z) : bool := (c =? c_underscore)%Z || is_ascii_alphanumeric c.

(** The longest prefix of characters that satisfy [f], and the rest. *)
Fixpoint span (f : Z -> bool) (s : str) : str * str :=
  match s with
  | [] => ([], [])
  | c :: s' => if f c then let (a, b) := span f s' in (c :: a, b) else ([], s)
  end.

Definition skip_whitespace : Parser unit := st_modify trim_start.

Definition peek_char : Parser (option Z) := fun s => (Ok (head s), s).

Definition consume_char (expected : Z) : Parser bool := fun s =>
  match trim_start s with
  | c :: r => if (c =? expected)%Z then (Ok true, r) else (Ok false, c :: r)
  | [] => (Ok false, [])
  end.

Definition expect_char (expected : Z) : Parser unit :=
  found ← consume_char expected;
  if (found : bool) then mret tt else st_lift (Err (lit "expected '" ++ [expected] ++ lit "'")).

(** [self.source[start..self.position]] *)
Definition slice_since (start rest : str) : str := take (length start - length rest) start.

Definition parse_identifier : Parser str :=
  _ ← skip_whitespace;
  p_fun (fun s => let (a, b) := span ident_char s in
    if bool_decide (a = []) then (Err (lit "expected type name"), s) else (Ok a, b)).

(** The loop of [parse_quoted_value]. *)
Fixpoint quoted_loop (label : string) (quote : Z) (value : str) (s : str) : Result str str * str :=
  match s with
  | [] => (Err (lit "unclosed " ++ lit label), [])
  | c :: r =>
    if (c =? c_bslash)%Z then
      match r with
      | [] => (Err (lit "unclosed " ++ lit label), [])
      | escaped :: r' => quoted_loop label quote (value ++ [escaped]) r'
      end
    else if (c =? quote)%Z then
      match r with
      | q :: r' => if (q =? quote)%Z then quoted_loop label quote (value ++ [quote]) r' else (Ok value, r)
      | [] => (Ok value, r)
      end
    else quoted_loop label quote (value ++ [c]) r
  end.

Definition parse_quoted_value (label : string) : Parser str :=
  _ ← skip_whitespace;
  p_fun (fun s =>
    match s with
    | q :: r => if is_quote q then quoted_loop label q [] r else (Err (lit "expected " ++ lit label), s)
    | [] => (Err (lit "expected " ++ lit label), s)
    end).

Definition parse_quoted_identifier : Parser str := parse_quoted_value "tuple field name".
Definition parse_quoted_string : Parser str := parse_quoted_value "quoted string".

Definition parse_unsigned (max : Z) (label : string) : Parser Z :=
  _ ← skip_whitespace;
  p_fun (fun s => let (a, b) := span is_ascii_digit s in
    if bool_decide (a = []) then (Err (lit "expected " ++ lit label), s)
    else (ok_or (lit "invalid " ++ lit label) (parse_uint max a), b)).

Definition parse_signed_i16 (label : string) : Parser Z :=
  _ ← skip_whitespace;
  p_fun (fun s =>
    let (sign, r) := match s with
                     | c :: r => if (c =? 43)%Z || (c =? c_minus)%Z then ([c], r) else ([], s)
                     | [] => ([], s)
                     end in
    let (a, b) := span is_ascii_digit r in
    if bool_decide (a = []) then (Err (lit "expected " ++ lit label), r)
    else (ok_or (lit "invalid " ++ lit label) (parse_int (-32768) 32767 (sign ++ a)), b)).

Definition U16_MAX : Z := 65535.
Definition U8_MAX : Z := 255.

Definition parse_fixed_string : Parser ClickHouseType :=
  _ ← expect_char c_lparen;
  len ← parse_unsigned U64_MAX "FixedString length";
  _ ← p_check (len =? 0)%Z "FixedString length must be positive";
  _ ← expect_char c_rparen;
  mret (ChFixedString len).

Definition decimal_storage_bits (precision : Z) : Z :=
  if (1 <=? precision)%Z && (precision <=? 9)%Z then 32
  else if (10 <=? precision)%Z && (precision <=? 18)%Z then 64
  else if (19 <=? precision)%Z && (precision <=? 38)%Z then 128
  else 256.

Definition parse_decimal : Parser ClickHouseType :=
  _ ← expect_char c_lparen;
  precision ← parse_unsigned U16_MAX "Decimal precision";
  _ ← expect_char c_comma;
  scale ← parse_unsigned U16_MAX "Decimal scale";
  _ ← expect_char c_rparen;
  _ ← p_check ((precision =? 0)%Z || (76 <? precision)%Z || (precision <? scale)%Z)
        "Decimal precision or scale is out of range";
  mret (ChDecimal (decimal_storage_bits precision) precision scale).

Definition parse_decimal_alias (storage_bits precision : Z) : Parser ClickHouseType :=
  _ ← expect_char c_lparen;
  scale ← parse_unsigned U16_MAX "Decimal scale";
  _ ← expect_char c_rparen;
  _ ← p_check (precision <? scale)%Z "Decimal scale is out of range";
  mret (ChDecimal storage_bits precision scale).

Definition parse_datetime : Parser ClickHouseType :=
  open ← consume_char c_lparen;
  if (open : bool) then
    timezone ← parse_quoted_string;
    _ ← expect_char c_rparen;
    mret (ChDateTime (Some timezone))
  else mret (ChDateTime None).

Definition parse_datetime64 : Parser ClickHouseType :=
  _ ← expect_char c_lparen;
  scale ← parse_unsigned U8_MAX "DateTime64 scale";
  _ ← p_check (9 <? scale)%Z "DateTime64 scale is out of range";
  comma ← consume_char c_comma;
  timezone ← (if (comma : bool) then tz ← parse_quoted_string; mret (Some tz) else mret None);
  _ ← expect_char c_rparen;
  mret (ChDateTime64 scale timezone).

(** Every turn of the loops below reads at least one character: the text that is left
    when they start bounds their turns. *)
Definition out_of_fuel {A} : Parser A := p_fail "out of fuel".

Fixpoint enum_loop (fuel : nat) (bits : Z) (variants : list (str * Z)) : Parser (list (str * Z)) :=
  match fuel with
  | O => out_of_fuel
  | S n =>
    label ← parse_quoted_string;
    _ ← expect_char 61;
    value ← parse_signed_i16 "Enum value";
    _ ← p_check (((bits =? 8)%Z && negb ((-128 <=? value)%Z && (value <=? 127)%Z))
                 || (U16_MAX <=? Z.of_nat (length variants))%Z) "Enum value is out of range";
    let variants := variants ++ [(label, value)] in
    more ← consume_char c_comma;
    if (more : bool) then enum_loop n bits variants
    else _ ← expect_char c_rparen; mret variants
  end.

Definition with_fuel {A} (loop : nat -> Parser A) : Parser A := fun s => loop (S (length s)) s.

Definition parse_enum (bits : Z) : Parser ClickHouseType :=
  _ ← expect_char c_lparen;
  variants ← with_fuel (fun n => enum_loop n bits []);
  _ ← p_check (bool_decide (variants = [])) "Enum must declare at least one value";
  mret (ChEnum bits variants).

(** The scan of [capture_unknown]: stops before a comma or a closing parenthesis that is
    not its own. *)
Fixpoint unknown_end (depth : nat) (quote : option Z) (escaped : bool) (s : str) : str :=
  match s with
  | [] => []
  | c :: r =>
    match quote with
    | Some q =>
      if (escaped : bool) then unknown_end depth quote false r
      else if (c =? c_bslash)%Z then unknown_end depth quote true r
      else if (c =? q)%Z then unknown_end depth None false r
      else unknown_end depth quote false r
    | None =>
      if is_quote c then unknown_end depth (Some c) escaped r
      else if (c =? c_lparen)%Z then unknown_end (S depth) None escaped r
      else if (c =? c_rparen)%Z && (0 <? depth) then unknown_end (depth - 1) None escaped r
      else if ((c =? c_rparen)%Z || (c =? c_comma)%Z) && (depth =? 0) then s
      else unknown_end depth None escaped r
    end
  end.

Definition capture_unknown (start : str) : Parser ClickHouseType := fun s =>
  let rest := unknown_end 0 None false s in
  let raw := trim (slice_since start rest) in
  if bool_decide (raw = []) then (Err (lit "unknown type name is empty"), rest)
  else (Ok (ChUnknown raw), rest).

(** The loop of [consume_balanced_parentheses]. *)
Fixpoint balanced_end (depth : nat) (quote : option Z) (escaped : bool) (s : str) : Result str unit * str :=
  match s with
  | [] => (Err (lit "unclosed type arguments"), [])
  | c :: r =>
    match quote with
    | Some q =>
      if (escaped : bool) then balanced_end depth quote false r
      else if (c =? c_bslash)%Z then balanced_end depth quote true r
      else if (c =? q)%Z then balanced_end depth None false r
      else balanced_end depth quote false r
    | None =>
      if is_quote c then balanced_end depth (Some c) escaped r
      else if (c =? c_lparen)%Z then balanced_end (S depth) None escaped r
      else if (c =? c_rparen)%Z then
        if (depth - 1 =? 0) then (Ok tt, r) else balanced_end (depth - 1) None escaped r
      else balanced_end depth None escaped r
    end
  end.

Definition consume_balanced_parentheses : Parser unit :=
  _ ← expect_char c_lparen; p_fun (balanced_end 1 None false).

Definition parse_json_or_object (start : str) : Parser ClickHouseType :=
  next ← peek_char;
  _ ← (if bool_decide (next = Some c_lparen) then consume_balanced_parentheses else mret tt);
  rest ← st_get;
  mret (ChJsonOrObject (trim (slice_since start rest))).

Definition integer_bits : list Z := [8; 16; 32; 64; 128; 256]%Z.

Definition parse_integer_name (name : str) : option (bool * Z) :=
  match (match strip_prefix (lit "UInt") name with
         | Some bits => Some (false, bits)
         | None => match strip_prefix (lit "Int") name with Some bits => Some (true, bits) | None => None end
         end) with
  | None => None
  | Some (signed, digits) =>
    match parse_uint U16_MAX digits with
    | Some bits => if existsb (Z.eqb bits) integer_bits then Some (signed, bits) else None
    | None => None
    end
  end.

Definition is_known_type_name (name : str) : bool :=
  one_of name ["Bool"; "String"; "Date"; "Date32"; "UUID"; "IPv4"; "IPv6"; "Float32"; "Float64"; "FixedString";
    "Decimal"; "Decimal32"; "Decimal64"; "Decimal128"; "Decimal256"; "DateTime"; "DateTime64"; "Enum8"; "Enum16";
    "Nullable"; "LowCardinality"; "Array"; "Map"; "Tuple"; "Nested"; "Variant"; "JSON"; "Object"]
  || match parse_integer_name name with Some _ => true | None => false end.

(** *** Nested types

    The parsers of compound types, over the parser of their parts. *)

Section compound.
Context (parse_part : Parser ClickHouseType).

Definition parse_single_wrapper (wrap : ClickHouseType -> ClickHouseType) : Parser ClickHouseType :=
  _ ← expect_char c_lparen;
  inner ← parse_part;
  _ ← expect_char c_rparen;
  mret (wrap inner).

Definition parse_map : Parser ClickHouseType :=
  _ ← expect_char c_lparen;
  key ← parse_part;
  _ ← expect_char c_comma;
  value ← parse_part;
  _ ← expect_char c_rparen;
  mret (ChMap key value).

Definition parse_tuple_field (nested : bool) : Parser TupleField :=
  _ ← skip_whitespace;
  start ← st_get;
  if match start with c :: _ => is_quote c | [] => false end then
    name ← parse_quoted_identifier;
    ty ← parse_part;
    mret (mkTupleField (Some name) ty)
  else
    candidate ← parse_identifier;
    after_candidate ← st_get;
    _ ← skip_whitespace;
    next ← peek_char;
    let delimiter := match next with
                     | Some c => (c =? c_comma)%Z || (c =? c_rparen)%Z || (c =? c_lparen)%Z
                     | None => true
                     end in
    if nested || (negb (is_known_type_name candidate) && negb delimiter) then
      ty ← parse_part;
      mret (mkTupleField (Some candidate) ty)
    else
      _ ← st_put start;
      ty ← parse_part;
      rest ← st_get;
      _ ← p_check ((length rest =? length after_candidate) && nested) "Nested fields must be named";
      mret (mkTupleField None ty).

Fixpoint tuple_loop (fuel : nat) (nested : bool) (named_mode : option bool) (fields : list TupleField)
  : Parser (list TupleField * option bool) :=
  match fuel with
  | O => out_of_fuel
  | S n =>
    field ← parse_tuple_field nested;
    let is_named := match tf_name field with Some _ => true | None => false end in
    _ ← p_check (match named_mode with Some mode => negb (Bool.eqb mode is_named) | None => false end)
          "Tuple cannot mix named and unnamed fields";
    let fields := fields ++ [field] in
    more ← consume_char c_comma;
    if (more : bool) then tuple_loop n nested (Some is_named) fields
    else _ ← expect_char c_rparen; mret (fields, Some is_named)
  end.

Definition parse_tuple (nested : bool) : Parser ClickHouseType :=
  _ ← expect_char c_lparen;
  empty ← consume_char c_rparen;
  _ ← p_check empty "Tuple and Nested require fields";
  result ← with_fuel (fun n => tuple_loop n nested None []);
  let '(fields, named_mode) := result in
  _ ← p_check (nested && negb (bool_decide (named_mode = Some true))) "Nested fields must be named";
  mret (if nested then ChNested fields else ChTuple fields).

Fixpoint variant_loop (fuel : nat) (alternatives : list ClickHouseType) : Parser (list ClickHouseType) :=
  match fuel with
  | O => out_of_fuel
  | S n =>
    alternative ← parse_part;
    let alternatives := alternatives ++ [alternative] in
    more ← consume_char c_comma;
    if (more : bool) then variant_loop n alternatives
    else _ ← expect_char c_rparen; mret alternatives
  end.

Definition parse_variant : Parser ClickHouseType :=
  _ ← expect_char c_lparen;
  alternatives ← with_fuel (fun n => variant_loop n []);
  _ ← p_check (bool_decide (alternatives = [])) "Variant requires alternatives";
  mret (ChVariant alternatives).

(** The [match name] of [Parser::parse_type]. *)
Definition parse_named (name start : str) : Parser ClickHouseType :=
  let named k := str_eqb name (lit k) in
  if named "Bool" then mret ChBool
  else if named "String" then mret ChString
  else if named "Date" then mret ChDate
  else if named "Date32" then mret ChDate32
  else if named "UUID" then mret ChUuid
  else if named "IPv4" then mret ChIpv4
  else if named "IPv6" then mret ChIpv6
  else if named "Float32" then mret (ChFloat 32)
  else if named "Float64" then mret (ChFloat 64)
  else if named "FixedString" then parse_fixed_string
  else if named "Decimal" then parse_decimal
  else if named "Decimal32" then parse_decimal_alias 32 9
  else if named "Decimal64" then parse_decimal_alias 64 18
  else if named "Decimal128" then parse_decimal_alias 128 38
  else if named "Decimal256" then parse_decimal_alias 256 76
  else if named "DateTime" then parse_datetime
  else if named "DateTime64" then parse_datetime64
  else if named "Enum8" then parse_enum 8
  else if named "Enum16" then parse_enum 16
  else if named "Nullable" then parse_single_wrapper ChNullable
  else if named "LowCardinality" then parse_single_wrapper ChLowCardinality
  else if named "Array" then parse_single_wrapper ChArray
  else if named "Map" then parse_map
  else if named "Tuple" then parse_tuple false
  else if named "Nested" then parse_tuple true
  else if named "Variant" then parse_variant
  else if named "JSON" || named "Object" then parse_json_or_object start
  else match parse_integer_name name with
  | Some (signed, bits) => mret (ChInt signed bits)
  | None => capture_unknown start
  end.

Definition parse_type_body : Parser ClickHouseType :=
  _ ← skip_whitespace;
  start ← st_get;
  name ← parse_identifier;
  _ ← skip_whitespace;
  parse_named name start.
End compound.

(** [Parser::parse_type]: [fuel] bounds the nesting. *)
Fixpoint parser_parse_type (fuel : nat) : Parser ClickHouseType :=
  match fuel with
  | O => out_of_fuel
  | S n => parse_type_body (parser_parse_type n)
  end.

Fixpoint balanced_loop (depth : nat) (quote : option Z) (escaped : bool) (s : str) : Result str unit :=
  match s with
  | [] =>
    if bool_decide (quote <> None) then Err (lit "unclosed quoted type syntax")
    else if negb (depth =? 0) then Err (lit "unclosed type arguments")
    else Ok tt
  | c :: r =>
    match quote with
    | Some q =>
      if (escaped : bool) then balanced_loop depth quote false r
      else if (c =? c_bslash)%Z then balanced_loop depth quote true r
      else if (c =? q)%Z then balanced_loop depth None false r
      else balanced_loop depth quote false r
    | None =>
      if is_quote c then balanced_loop depth (Some c) escaped r
      else if (c =? c_lparen)%Z then balanced_loop (S depth) None escaped r
      else if (c =? c_rparen)%Z then
        match depth with
        | O => Err (lit "unexpected closing parenthesis")
        | S d => balanced_loop d None escaped r
        end
      else balanced_loop depth None escaped r
    end
  end.

Definition validate_balanced_syntax (source : str) : Result str unit := balanced_loop 0 None false source.

(** Each nested type is shorter than the text around it: the length bounds the nesting. *)
Definition parse_type (input : str) : Result str ClickHouseType :=
  let source := trim input in
  match source with
  | [] => Err (lit "type name is empty")
  | c :: _ =>
    if is_quote c then Err (lit "unexpected trailing type syntax")
    else
      _ ← validate_balanced_syntax source;
      match parser_parse_type (S (length source)) source with
      | (Err e, _) => Err e
      | (Ok parsed, rest) =>
        if bool_decide (trim_start rest = []) then Ok parsed else Err (lit "unexpected trailing type syntax")
      end
  end.

Example parse_1 :
  parse_type (lit "Map(String, Array(Nullable(Decimal(18, 4))))")
  = Ok (ChMap ChString (ChArray (ChNullable (ChDecimal 64 18 4)))).
Proof. vm_compute. reflexivity. Qed.
Example parse_2 :
  parse_type (lit "Tuple(id UInt64, `x y` Enum8('a''b' = -1, 'c' = 2))")
  = Ok (ChTuple [mkTupleField (Some (lit "id")) (ChInt false 64);
                 mkTupleField (Some (lit "x y")) (ChEnum 8 [(lit "a'b", (-1)%Z); (lit "c", 2%Z)])]).
Proof. vm_compute. reflexivity. Qed.
Example parse_3 :
  parse_type (lit "AggregateFunction(sum, UInt64)") = Ok (ChUnknown (lit "AggregateFunction(sum, UInt64)")) /\
  parse_type (lit "Array(String") = Err (lit "unclosed type arguments") /\
  parse_type (lit "Nested(a String, b Array(Date))") =
    Ok (ChNested [mkTupleField (Some (lit "a")) ChString; mkTupleField (Some (lit "b")) (ChArray ChDate)]).
Proof. vm_compute. done. Qed.

(** ** Well-formed types *)

Definition is_named (f : TupleField) : Prop := tf_name f <> None.

Inductive type_ok : ClickHouseType -> Prop :=
| ok_int signed bits : In bits integer_bits -> type_ok (ChInt signed bits)
| ok_float bits : bits = 32%Z \/ bits = 64%Z -> type_ok (ChFloat bits)
| ok_decimal precision scale :
    (1 <= precision <= 76)%Z -> (0 <= scale <= precision)%Z ->
    type_ok (ChDecimal (decimal_storage_bits precision) precision scale)
| ok_bool : type_ok ChBool
| ok_string : type_ok ChString
| ok_fixed_string len : (1 <= len <= U64_MAX)%Z -> type_ok (ChFixedString len)
| ok_date : type_ok ChDate
| ok_date32 : type_ok ChDate32
| ok_datetime timezone : type_ok (ChDateTime timezone)
| ok_datetime64 scale timezone : (0 <= scale <= 9)%Z -> type_ok (ChDateTime64 scale timezone)
| ok_uuid : type_ok ChUuid
| ok_ipv4 : type_ok ChIpv4
| ok_ipv6 : type_ok ChIpv6
| ok_enum8 variants :
    variants <> [] -> (Z.of_nat (length variants) <= U16_MAX)%Z ->
    Forall (fun v : str * Z => -128 <= v.2 <= 127)%Z variants -> type_ok (ChEnum 8 variants)
| ok_enum16 variants :
    variants <> [] -> (Z.of_nat (length variants) <= U16_MAX)%Z ->
    Forall (fun v : str * Z => -32768 <= v.2 <= 32767)%Z variants -> type_ok (ChEnum 16 variants)
| ok_nullable t : type_ok t -> type_ok (ChNullable t)
| ok_low_cardinality t : type_ok t -> type_ok (ChLowCardinality t)
| ok_array t : type_ok t -> type_ok (ChArray t)
| ok_map k v : type_ok k -> type_ok v -> type_ok (ChMap k v)
| ok_tuple fields :
    fields <> [] -> Forall (fun f => type_ok (tf_ty f)) fields ->
    Forall is_named fields \/ Forall (fun f => tf_name f = None) fields -> type_ok (ChTuple fields)
| ok_nested fields :
    fields <> [] -> Forall (fun f => type_ok (tf_ty f)) fields -> Forall is_named fields -> type_ok (ChNested fields)
| ok_json raw : type_ok (ChJsonOrObject raw)
| ok_variant alternatives : alternatives <> [] -> Forall type_ok alternatives -> type_ok (ChVariant alternatives)
| ok_unknown raw : raw <> [] -> type_ok (ChUnknown raw).

(** ** Running a parser

    [runs p s Q]: the parser, started on [s], does not run out of fuel, and what it
    returns satisfies [Q]. *)

Definition no_fuel (e : str) : Prop := e = lit "out of fuel".
Abbreviation runs := (st_wp no_fuel).

(** Messages other than that one: they differ in the first letters. *)
Ltac other_message :=
  let H := fresh in unfold no_fuel; intros H; apply (f_equal (take 3)) in H; vm_compute in H; discriminate H.

Lemma span_spec f s a b : span f s = (a, b) -> s = a ++ b /\ forallb f a = true.
Proof.
  revert a b. induction s as [|c s IH]; intros a b; simpl; [by intros [= <- <-]|].
  destruct (f c) eqn:Hc; [|by intros [= <- <-]]. destruct (span f s) as [a' b'].
  intros [= <- <-]. destruct (IH a' b' eq_refl) as [-> H]. simpl. by rewrite Hc.
Qed.

Lemma span_length f s a b : span f s = (a, b) -> length s = length a + length b.
Proof. intros [-> _]%span_spec. apply length_app. Qed.

Lemma runs_skip s (Q : unit -> str -> Prop) :
  (forall r, length r <= length s -> Q tt r) -> runs skip_whitespace s Q.
Proof. intros H. apply H, trim_start_length. Qed.

Lemma runs_get s (Q : str -> str -> Prop) : Q s s -> runs st_get s Q.
Proof. done. Qed.

Lemma runs_check b m s (Q : unit -> str -> Prop) :
  lit m <> lit "out of fuel" -> (b = false -> Q tt s) -> runs (p_check b m) s Q.
Proof. intros Hm H. destruct b; [done|]. by apply H. Qed.

Lemma runs_consume c s (Q : bool -> str -> Prop) :
  (forall r, length r < length s -> Q true r) -> (forall r, length r <= length s -> Q false r) ->
  runs (consume_char c) s Q.
Proof.
  intros Ht Hf. unfold st_wp, consume_char. pose proof (trim_start_length s). destruct (trim_start s) as [|x r].
  - apply Hf. simpl. lia.
  - destruct (x =? c)%Z; [apply Ht|apply Hf]; simpl in *; lia.
Qed.

Lemma runs_expect c s (Q : unit -> str -> Prop) :
  (forall r, length r < length s -> Q tt r) -> runs (expect_char c) s Q.
Proof.
  intros H. apply st_wp_bind, runs_consume; [exact H|]. intros r _. unfold st_wp, st_lift. other_message.
Qed.

Lemma runs_identifier s (Q : str -> str -> Prop) :
  (forall a r, length r < length s -> a <> [] -> Q a r) -> runs parse_identifier s Q.
Proof.
  intros H. apply st_wp_bind, runs_skip. intros s1 H1. unfold st_wp, p_fun.
  destruct (span ident_char s1) as [a b] eqn:E. case_bool_decide as Ha; [other_message|].
  apply H; [|done]. apply span_length in E. destruct a; [done|simpl in E; lia].
Qed.

Lemma quoted_loop_runs label q v s (Q : str -> str -> Prop) :
  (forall a r, length r <= length s -> Q a r) -> runs (fun s => quoted_loop label q v s) s Q.
Proof.
  assert (Hu : lit "unclosed " ++ lit label <> lit "out of fuel") by other_message.
  revert v Q. induction s as [s IH] using (induction_ltof1 _ (@length Z)); intros v Q H. unfold st_wp, ltof in *.
  destruct s as [|c r]; simpl; [done|]. simpl in H.
  destruct (c =? c_bslash)%Z; [destruct r as [|e r]; [done|]|].
  - apply (IH r); [simpl; lia|]. intros a r' Hr. apply H. simpl. lia.
  - destruct (c =? q)%Z; [|apply (IH r); [simpl; lia|]; intros a r' Hr; apply H; lia].
    destruct r as [|x r]; [apply H; simpl; lia|]. destruct (x =? q)%Z; [|apply H; simpl; lia].
    apply (IH r); [simpl; lia|]. intros a r' Hr. apply H. simpl. lia.
Qed.

Lemma runs_quoted label s (Q : str -> str -> Prop) :
  (forall a r, length r < length s -> Q a r) -> runs (parse_quoted_value label) s Q.
Proof.
  intros H. apply st_wp_bind, runs_skip. intros s1 H1. unfold p_fun.
  destruct s1 as [|c r]; [unfold st_wp; other_message|]. unfold st_wp. destruct (is_quote c); [|other_message].
  apply (quoted_loop_runs label c [] r). intros a r' Hr. apply H. simpl in H1. lia.
Qed.

Lemma runs_unsigned max label s (Q : Z -> str -> Prop) :
  (forall a r, length r < length s -> (0 <= a <= max)%Z -> Q a r) -> runs (parse_unsigned max label) s Q.
Proof.
  intros H. apply st_wp_bind, runs_skip. intros s1 H1. unfold st_wp, p_fun.
  destruct (span is_ascii_digit s1) as [a b] eqn:E. case_bool_decide as Ha; [other_message|].
  unfold parse_uint. destruct (_ && _) eqn:Hv; simpl; [|other_message].
  apply andb_true_iff in Hv as [[_ Hd]%andb_true_iff Hm%Z.leb_le]. apply H.
  - apply span_length in E. destruct a; [done|simpl in E; lia].
  - split; [|done]. by apply digits_value_bounds.
Qed.

Lemma runs_signed label s (Q : Z -> str -> Prop) :
  (forall a r, length r < length s -> (-32768 <= a <= 32767)%Z -> Q a r) -> runs (parse_signed_i16 label) s Q.
Proof.
  intros H. apply st_wp_bind, runs_skip. intros s1 H1. unfold st_wp, p_fun.
  destruct (match s1 with [] => _ | _ => _ end) as [sign r] eqn:Hs.
  assert (Hr : length r <= length s1).
  { destruct s1 as [|c s2]; [by injection Hs as <- <-|]. destruct (_ || _) in Hs; injection Hs as <- <-; simpl; lia. }
  destruct (span is_ascii_digit r) as [a b] eqn:E. case_bool_decide as Ha; [other_message|].
  apply span_length in E. assert (length b < length s) by (destruct a; [done|simpl in E; lia]).
  unfold parse_int. destruct (strip_prefix _ _) as [ds|]; [|unfold parse_uint];
    (destruct (_ && _) eqn:Hv; cbn [ok_or]; [|other_message]; apply H; [done|]);
    cbv zeta in Hv; apply andb_true_iff in Hv as [[_ Hd%digits_value_bounds]%andb_true_iff Hm%Z.leb_le]; lia.
Qed.

(** One step of a parser, with what it read named. *)
Ltac run_step :=
  match goal with
  | |- runs (mbind _ _) _ _ => apply st_wp_bind
  | |- runs (mret _) _ _ => apply st_wp_ret
  | |- runs skip_whitespace _ _ => apply runs_skip; intros
  | |- runs st_get _ _ => apply runs_get
  | |- runs (p_check _ _) _ _ => apply runs_check; [other_message|intros]
  | |- runs (expect_char _) _ _ => apply runs_expect; intros
  | |- runs parse_identifier _ _ => apply runs_identifier; intros
  | |- runs (parse_quoted_value _) _ _ => apply runs_quoted; intros
  | |- runs parse_quoted_string _ _ => apply runs_quoted; intros
  | |- runs parse_quoted_identifier _ _ => apply runs_quoted; intros
  | |- runs (parse_unsigned _ _) _ _ => apply runs_unsigned; intros
  | |- runs (parse_signed_i16 _) _ _ => apply runs_signed; intros
  end.

(** What every parser of a type promises: a well-formed type and less text. *)
Definition good_type (s : str) (t : ClickHouseType) (r : str) : Prop := type_ok t /\ length r <= length s.

Lemma runs_fixed_string s : runs parse_fixed_string s (good_type s).
Proof. unfold parse_fixed_string. repeat run_step. split; [|lia].
  match goal with H : (_ =? _)%Z = false |- _ => apply Z.eqb_neq in H end. constructor. lia. Qed.

Lemma runs_decimal s : runs parse_decimal s (good_type s).
Proof.
  unfold parse_decimal. repeat run_step. split; [|lia].
  match goal with H : _ || _ || _ = false |- _ =>
    apply orb_false_iff in H as [[?%Z.eqb_neq ?%Z.ltb_ge]%orb_false_iff ?%Z.ltb_ge] end.
  constructor; lia.
Qed.

Lemma runs_decimal_alias bits precision s :
  bits = decimal_storage_bits precision -> (1 <= precision <= 76)%Z -> runs (parse_decimal_alias bits precision) s (good_type s).
Proof.
  intros -> Hp. unfold parse_decimal_alias. repeat run_step. split; [|lia].
  match goal with H : (_ <? _)%Z = false |- _ => apply Z.ltb_ge in H end. constructor; lia.
Qed.

Lemma runs_datetime s : runs parse_datetime s (good_type s).
Proof.
  unfold parse_datetime. apply st_wp_bind, runs_consume; intros r Hr; repeat run_step; (split; [constructor|lia]).
Qed.

Lemma runs_datetime64 s : runs parse_datetime64 s (good_type s).
Proof.
  unfold parse_datetime64. do 6 run_step. apply st_wp_bind.
  match goal with H : (_ <? _)%Z = false |- _ => apply Z.ltb_ge in H end.
  apply runs_consume; intros; repeat run_step; (split; [constructor; lia|lia]).
Qed.

Lemma runs_enum_loop fuel bits variants s :
  bits = 8%Z \/ bits = 16%Z -> length s < fuel -> (Z.of_nat (length variants) <= U16_MAX)%Z ->
  Forall (fun v : str * Z => if (bits =? 8)%Z then -128 <= v.2 <= 127 else -32768 <= v.2 <= 32767)%Z variants ->
  runs (enum_loop fuel bits variants) s (fun vs r => length r <= length s /\ vs <> [] /\
    (Z.of_nat (length vs) <= U16_MAX)%Z /\
    Forall (fun v : str * Z => if (bits =? 8)%Z then -128 <= v.2 <= 127 else -32768 <= v.2 <= 32767)%Z vs).
Proof.
  intros Hb. revert variants s. induction fuel as [|fuel IH]; intros variants s Hf Hl Hv; [lia|]. cbn [enum_loop].
  do 8 run_step. rename a into label. rename a0 into value.
  match goal with H : _ || _ = false |- _ => apply orb_false_iff in H as [Hr Hn%Z.leb_gt] end.
  set (vs := variants ++ [(label, value)]).
  assert (Hvs : Forall (fun v : str * Z => if (bits =? 8)%Z then -128 <= v.2 <= 127 else -32768 <= v.2 <= 32767)%Z vs).
  { apply Forall_app_2; [done|]. apply Forall_singleton. simpl. destruct (bits =? 8)%Z; [|done]. simpl in Hr.
    apply negb_false_iff, andb_true_iff in Hr. lia. }
  assert (Hlen : (Z.of_nat (length vs) <= U16_MAX)%Z) by (unfold vs; rewrite length_app; simpl; lia).
  assert (Hne : vs <> []) by (unfold vs; by destruct variants).
  apply st_wp_bind, runs_consume; intros s1 Hs1.
  - eapply st_wp_mono; [apply IH; [lia|done..]|]. simpl. intros vs' r' (? & ? & ? & ?). split_and!; try done. lia.
  - repeat run_step. split_and!; try done. lia.
Qed.

Lemma runs_enum bits s : bits = 8%Z \/ bits = 16%Z -> runs (parse_enum bits) s (good_type s).
Proof.
  intros Hb. unfold parse_enum. do 2 run_step. apply st_wp_bind. unfold with_fuel.
  eapply (st_wp_mono _ (enum_loop (S (length r)) bits []));
    [apply runs_enum_loop; [done|lia|simpl; unfold U16_MAX; lia|constructor]|].
  intros vs r' (Hr & Hne & Hl & Hv). repeat run_step. split; [|lia].
  destruct Hb as [-> | ->]; by constructor.
Qed.

Lemma unknown_end_le depth q e s : length (unknown_end depth q e s) <= length s.
Proof.
  revert depth q e. induction s as [|c s IH]; intros depth q e; simpl; [lia|].
  repeat case_match; simpl; try lia; (etrans; [apply IH|lia]).
Qed.

Lemma runs_unknown start s : runs (capture_unknown start) s (good_type s).
Proof.
  unfold st_wp, capture_unknown. case_bool_decide; [other_message|]. split; [by constructor|]. apply unknown_end_le.
Qed.

Lemma balanced_end_runs depth q e s : runs (fun s => balanced_end depth q e s) s (fun _ r => length r <= length s).
Proof.
  unfold st_wp. revert depth q e. induction s as [|c s IH]; intros depth q e; simpl; [other_message|].
  assert (IH' : forall d q' e', match balanced_end d q' e' s with
    | (Ok _, r) => length r <= S (length s) | (Err e, _) => e <> lit "out of fuel" end).
  { intros d q' e'. specialize (IH d q' e'). destruct (balanced_end d q' e' s) as [[]]; [lia|done]. }
  destruct q as [q|]; repeat match goal with |- context [if ?b then _ else _] => destruct b end; simpl; try apply IH'; lia.
Qed.

Lemma runs_json start s : runs (parse_json_or_object start) s (good_type s).
Proof.
  unfold parse_json_or_object. apply st_wp_bind. unfold peek_char, st_wp at 1. apply st_wp_bind.
  case_bool_decide; [|repeat run_step; split; [constructor|lia]].
  unfold consume_balanced_parentheses. do 2 run_step. eapply (st_wp_mono _ (fun s => balanced_end 1 None false s)); [apply balanced_end_runs|].
  intros [] r' Hr. repeat run_step. split; [constructor|lia].
Qed.

Section compound_runs.
Context (part : Parser ClickHouseType) (bound : nat).
Context (Hpart : forall s, length s < bound -> runs part s (fun t r => type_ok t /\ length r < length s)).

Lemma runs_part s (Q : ClickHouseType -> str -> Prop) :
  length s < bound -> (forall t r, type_ok t -> length r < length s -> Q t r) -> runs part s Q.
Proof using Hpart. intros Hs H. eapply st_wp_mono; [by apply Hpart|]. intros t r [? ?]. auto. Qed.

Lemma runs_wrapper wrap s :
  length s <= bound -> (forall t, type_ok t -> type_ok (wrap t)) -> runs (parse_single_wrapper part wrap) s (good_type s).
Proof using Hpart.
  intros Hs Hw. unfold parse_single_wrapper. do 2 run_step. apply st_wp_bind, runs_part; [lia|]. intros t r' Ht Hr.
  repeat run_step. split; [auto|lia].
Qed.

Lemma runs_map s : length s <= bound -> runs (parse_map part) s (good_type s).
Proof using Hpart.
  intros Hs. unfold parse_map. do 2 run_step. apply st_wp_bind, runs_part; [lia|]. intros k r1 Hk H1.
  do 2 run_step. apply st_wp_bind, runs_part; [lia|]. intros v r3 Hv H3. repeat run_step.
  split; [by constructor|lia].
Qed.

Lemma runs_tuple_field nested s :
  length s < bound ->
  runs (parse_tuple_field part nested) s (fun f r => type_ok (tf_ty f) /\ length r < length s /\ (nested = true -> is_named f)).
Proof using Hpart.
  intros Hs. unfold parse_tuple_field. do 4 run_step. destruct (match r with [] => _ | _ => _ end).
  - do 2 run_step. apply st_wp_bind, runs_part; [lia|]. intros t r2 Ht H2. run_step. split_and!; [done|simpl; lia|done].
  - do 6 run_step. apply st_wp_bind. unfold peek_char, st_wp at 1. destruct (nested || _) eqn:Hn.
    + apply st_wp_bind, runs_part; [lia|]. intros t r3 Ht H3. run_step. split_and!; [done|simpl; lia|done].
    + apply st_wp_bind. unfold st_wp at 1, st_put. apply st_wp_bind, runs_part; [lia|]. intros t r3 Ht H3.
      repeat run_step. apply orb_false_iff in Hn as [-> _]. split_and!; [done|simpl; lia|done].
Qed.

(** The fields read so far are of one kind, the one [mode] remembers. *)
Definition one_kind (mode : option bool) (fields : list TupleField) : Prop :=
  match mode with
  | None => fields = []
  | Some true => fields <> [] /\ Forall is_named fields
  | Some false => fields <> [] /\ Forall (fun f => tf_name f = None) fields
  end.

Lemma runs_tuple_loop fuel nested mode fields s :
  length s < fuel -> length s < bound -> one_kind mode fields -> Forall (fun f => type_ok (tf_ty f)) fields ->
  runs (tuple_loop part fuel nested mode fields) s (fun res r => length r <= length s /\
    one_kind res.2 res.1 /\ res.1 <> [] /\ Forall (fun f => type_ok (tf_ty f)) res.1).
Proof using Hpart.
  revert mode fields s. induction fuel as [|fuel IH]; intros mode fields s Hf Hb Hk Hok; [lia|]. cbn [tuple_loop].
  apply st_wp_bind. eapply st_wp_mono; [by apply runs_tuple_field|]. intros f r (Hft & Hr & _). do 2 run_step.
  set (named := match tf_name f with Some _ => true | None => false end) in *.
  assert (Hk' : one_kind (Some named) (fields ++ [f])).
  { assert (Hne : fields ++ [f] <> []) by (by destruct fields).
    destruct mode as [m|]; simpl in Hk; [apply negb_false_iff, eqb_prop in H; subst m|subst fields].
    - destruct named eqn:Hn; destruct Hk as [_ Hk]; (split; [done|]); apply Forall_app_2; try done;
        apply Forall_singleton; unfold named in Hn; unfold is_named; by destruct (tf_name f).
    - destruct named eqn:Hn; (split; [done|]); apply Forall_singleton; unfold named in Hn; unfold is_named;
        by destruct (tf_name f). }
  assert (Hok' : Forall (fun f => type_ok (tf_ty f)) (fields ++ [f])) by (apply Forall_app_2; [done|by apply Forall_singleton]).
  apply st_wp_bind, runs_consume; intros s1 Hs1.
  - eapply st_wp_mono; [apply IH; [lia|lia|done..]|]. intros res r1 (? & ? & ? & ?). split_and!; try done. lia.
  - repeat run_step. split_and!; [lia|done|by destruct fields|done].
Qed.

Lemma runs_tuple nested s : length s <= bound -> runs (parse_tuple part nested) s (good_type s).
Proof using Hpart.
  intros Hs. unfold parse_tuple. do 2 run_step. apply st_wp_bind, runs_consume; intros s1 Hs1; [run_step; apply runs_check; [other_message|done]|].
  do 2 run_step. apply st_wp_bind. unfold with_fuel.
  eapply (st_wp_mono _ (tuple_loop part (S (length s1)) nested None []));
    [apply runs_tuple_loop; [lia|lia|done|constructor]|].
  intros [fields mode] r2 (Hr & Hk & Hne & Hok). simpl in *. do 2 run_step. apply st_wp_ret. split; [|lia].
  destruct nested; simpl in *.
  - match goal with H : negb _ = false |- _ => apply negb_false_iff, bool_decide_eq_true in H as -> end. constructor; try done. apply Hk.
  - constructor; try done. destruct mode as [[]|]; [left; apply Hk|right; apply Hk|done].
Qed.

Lemma runs_variant_loop fuel alternatives s :
  length s < fuel -> length s < bound -> Forall type_ok alternatives ->
  runs (variant_loop part fuel alternatives) s (fun l r => length r <= length s /\ l <> [] /\ Forall type_ok l).
Proof using Hpart.
  revert alternatives s. induction fuel as [|fuel IH]; intros alts s Hf Hb Hok; [lia|]. cbn [variant_loop].
  apply st_wp_bind, runs_part; [done|]. intros t r Ht Hr.
  assert (Hok' : Forall type_ok (alts ++ [t])) by (apply Forall_app_2; [done|by apply Forall_singleton]).
  apply st_wp_bind, runs_consume; intros s1 Hs1.
  - eapply st_wp_mono; [apply IH; [lia|lia|done]|]. intros l r1 (? & ? & ?). split_and!; try done. lia.
  - repeat run_step. split_and!; [lia|by destruct alts|done].
Qed.

Lemma runs_variant s : length s <= bound -> runs (parse_variant part) s (good_type s).
Proof using Hpart.
  intros Hs. unfold parse_variant. do 2 run_step. apply st_wp_bind. unfold with_fuel.
  eapply (st_wp_mono _ (variant_loop part (S (length r)) [])); [apply runs_variant_loop; [lia|lia|constructor]|].
  intros l r1 (Hr & Hne & Hok). repeat run_step. split; [by constructor|lia].
Qed.

Lemma integer_name_bits name signed bits : parse_integer_name name = Some (signed, bits) -> In bits integer_bits.
Proof.
  unfold parse_integer_name. destruct (match strip_prefix _ _ with Some _ => _ | None => _ end) as [[sg ds]|]; [|done].
  destruct (parse_uint U16_MAX ds) as [b|]; [|done]. destruct (existsb _ _) eqn:E; [|done]. intros [= _ <-].
  apply existsb_exists in E as (x & Hx & ->%Z.eqb_eq). done.
Qed.

Lemma runs_named name start s : length s <= bound -> runs (parse_named part name start) s (good_type s).
Proof using Hpart.
  intros Hs.
  assert (Hret : forall t, type_ok t -> runs (mret t) s (good_type s)) by (intros t Ht; apply st_wp_ret; by split).
  assert (Hif : forall (b : bool) (p q : Parser ClickHouseType), runs p s (good_type s) -> runs q s (good_type s) ->
    runs (if b then p else q) s (good_type s)) by (by intros []).
  unfold parse_named. cbv zeta.
  repeat apply Hif; try (apply Hret; constructor; auto; fail).
  - apply runs_fixed_string.
  - apply runs_decimal.
  - by apply runs_decimal_alias.
  - by apply runs_decimal_alias.
  - by apply runs_decimal_alias.
  - by apply runs_decimal_alias.
  - apply runs_datetime.
  - apply runs_datetime64.
  - apply runs_enum. by left.
  - apply runs_enum. by right.
  - apply runs_wrapper; [done|]. by constructor.
  - apply runs_wrapper; [done|]. by constructor.
  - apply runs_wrapper; [done|]. by constructor.
  - by apply runs_map.
  - by apply runs_tuple.
  - by apply runs_tuple.
  - by apply runs_variant.
  - apply runs_json.
  - destruct (parse_integer_name name) as [[signed bits]|] eqn:E; [|apply runs_unknown].
    apply Hret. constructor. by eapply integer_name_bits.
Qed.
End compound_runs.

Lemma runs_parse_type fuel s :
  length s < fuel -> runs (parser_parse_type fuel) s (fun t r => type_ok t /\ length r < length s).
Proof.
  revert s. induction fuel as [|fuel IH]; intros s Hs; [lia|]. cbn [parser_parse_type]. unfold parse_type_body.
  do 8 run_step. eapply st_wp_mono; [apply (runs_named (parser_parse_type fuel) fuel)|].
  - intros s1 Hs1. by apply IH.
  - lia.
  - intros t r2 [Ht Hr2]. split; [done|lia].
Qed.

Definition fuel_error {A} (r : Result str A) : Prop := r = Err (lit "out of fuel").

Lemma fuel_error_err {A} (e : str) : e <> lit "out of fuel" -> ~ fuel_error (Err e : Result str A).
Proof. unfold fuel_error. congruence. Qed.

Lemma validate_message s : ~ fuel_error (validate_balanced_syntax s).
Proof.
  unfold validate_balanced_syntax. generalize 0, (@None Z), false.
  induction s as [|c s IH]; intros d q esc; cbn [balanced_loop].
  - repeat match goal with |- context [if ?b then _ else _] => destruct b end;
      [apply fuel_error_err; other_message..|done].
  - destruct q as [q|]; repeat match goal with |- context [if ?b then _ else _] => destruct b end; try apply IH.
    destruct d; [|apply IH]. apply fuel_error_err. other_message.
Qed.

(** Reading a type always ends, and what it returns is well formed: the fuel of the
    parser and of its loops is never the reason for an error, and in a parsed type every
    integer width is one of the six, precisions and scales are in range with the storage
    that belongs to them, enumerations are not empty and their values fit, tuples have
    fields of one kind, and nested fields have names. *)
Theorem parse_type_total input :
  match parse_type input with
  | Ok t => type_ok t
  | Err e => e <> lit "out of fuel"
  end.
Proof.
  unfold parse_type. destruct (trim input) as [|c s] eqn:Hs; [other_message|]. destruct (is_quote c); [other_message|].
  destruct (validate_balanced_syntax (c :: s)) as [[]|e] eqn:Hv; cbn [mbind Result_bind]; [|intros ->; by apply (validate_message (c :: s))].
  pose proof (runs_parse_type (S (length (c :: s))) (c :: s) ltac:(lia)) as Hp. unfold st_wp in Hp.
  destruct (parser_parse_type _ _) as [[t|e] r]; [|done]. destruct Hp as [Ht _].
  case_bool_decide; [done|other_message].
Qed.
