(* ===== verification/ClickHouseTypeText.v ===== *)
(** * Writing ClickHouse types down
    ([src-tauri/src/engine/drivers/clickhouse/query/types.rs])

    The notation in which the server names the types of a result's columns, and the proof
    that [parse_type] reads back every well-formed type from it.  The server writes a field
    name as it is when it is an identifier, and in back quotes otherwise or when it is a
    keyword; inside of quotes it escapes the quote, the backslash and some control
    characters, the latter by a letter ([\n]).  Which identifiers are keywords is a
    parameter.

    Two kinds of text are not read back, and the last theorems show it: control characters,
    of which the parser keeps the letter, and a field of a tuple that has the name of a
    type. *)

From stdpp Require Import base list strings.
From Stdlib Require Import ZArith Lia.
From S2P Require Import Prelude Digits Errors Types ClickHouseTypes.

(** ** The printer *)

(** The control characters that are written as a backslash and a letter. *)
Definition letter_escape (c : Z) : option Z :=
  if (c =? 0)%Z then Some 48%Z else if (c =? 8)%Z then Some 98%Z else if (c =? 9)%Z then Some 116%Z
  else if (c =? 10)%Z then Some 110%Z else if (c =? 12)%Z then Some 102%Z else if (c =? 13)%Z then Some 114%Z else None.
Definition readable (s : str) : bool := forallb (fun c => match letter_escape c with Some _ => false | None => true end) s.

(** A quoted text. *)
Definition escape_char (q c : Z) : str :=
  match letter_escape c with
  | Some letter => [c_bslash; letter]
  | None => if (c =? c_bslash)%Z || (c =? q)%Z then [c_bslash; c] else [c]
  end.
Definition show_quoted (q : Z) (s : str) : str := q :: flat_map (escape_char q) s ++ [q].

Definition identifier (s : str) : bool :=
  match s with c :: _ => negb (is_ascii_digit c) && forallb ident_char s | [] => false end.

(** [name(a, b, ...)] *)
Definition arguments (args : list str) : str := c_lparen :: join (lit ", ") args ++ [c_rparen].

Definition show_variant (v : str * Z) : str := show_quoted c_squote v.1 ++ lit " = " ++ to_dec v.2.

(** ** Printing and reading *)

Section text.
Context (keyword : str -> bool).

(** A field name that is written without quotes. *)
Definition bare (name : str) : bool := identifier name && negb (keyword name).
Definition show_field_name (name : str) : str := if bare name then name else show_quoted c_backtick name.

(** The name of a type and what follows it. *)
Definition show_name (t : ClickHouseType) : str :=
  match t with
  | ChInt signed bits => (if signed then lit "Int" else lit "UInt") ++ to_dec bits
  | ChFloat bits => lit "Float" ++ to_dec bits
  | ChDecimal _ _ _ => lit "Decimal"
  | ChBool => lit "Bool"
  | ChString => lit "String"
  | ChFixedString _ => lit "FixedString"
  | ChDate => lit "Date"
  | ChDate32 => lit "Date32"
  | ChDateTime _ => lit "DateTime"
  | ChDateTime64 _ _ => lit "DateTime64"
  | ChUuid => lit "UUID"
  | ChIpv4 => lit "IPv4"
  | ChIpv6 => lit "IPv6"
  | ChEnum bits _ => lit "Enum" ++ to_dec bits
  | ChNullable _ => lit "Nullable"
  | ChLowCardinality _ => lit "LowCardinality"
  | ChArray _ => lit "Array"
  | ChMap _ _ => lit "Map"
  | ChTuple _ => lit "Tuple"
  | ChNested _ => lit "Nested"
  | ChJsonOrObject raw => (span ident_char raw).1
  | ChVariant _ => lit "Variant"
  | ChUnknown raw => raw
  end.

Fixpoint show_arguments (t : ClickHouseType) : str :=
  let show_type t := show_name t ++ show_arguments t in
  match t with
  | ChDecimal _ precision scale => arguments [to_dec precision; to_dec scale]
  | ChFixedString len => arguments [to_dec len]
  | ChDateTime (Some timezone) => arguments [show_quoted c_squote timezone]
  | ChDateTime64 scale None => arguments [to_dec scale]
  | ChDateTime64 scale (Some timezone) => arguments [to_dec scale; show_quoted c_squote timezone]
  | ChEnum _ variants => arguments (map show_variant variants)
  | ChNullable inner | ChLowCardinality inner | ChArray inner => arguments [show_type inner]
  | ChMap key value => arguments [show_type key; show_type value]
  | ChTuple fields | ChNested fields => arguments (map show_field fields)
  | ChVariant alternatives => arguments (map show_type alternatives)
  | ChJsonOrObject raw => (span ident_char raw).2
  | _ => []
  end
with show_field (f : TupleField) : str :=
  match f with
  | mkTupleField None t => show_name t ++ show_arguments t
  | mkTupleField (Some name) t => show_field_name name ++ c_space :: show_name t ++ show_arguments t
  end.

Definition show_type (t : ClickHouseType) : str := show_name t ++ show_arguments t.

(** In a tuple a field name without quotes must not be the name of a type. *)
Definition distinct_name (f : TupleField) : bool :=
  match tf_name f with Some name => negb (bare name) || negb (is_known_type_name name) | None => true end.

(** Types whose text is determined and readable: labels, time zones and field names without
    those control characters, a JSON type in one of its usual spellings, and an unknown type
    that is a name alone. *)
Fixpoint plain (t : ClickHouseType) : bool :=
  match t with
  | ChDateTime (Some timezone) | ChDateTime64 _ (Some timezone) => readable timezone
  | ChEnum _ variants => forallb (fun v => readable v.1) variants
  | ChJsonOrObject raw => one_of raw ["JSON"; "Object('json')"]
  | ChUnknown raw => forallb ident_char raw && negb (is_known_type_name raw)
  | ChNullable inner | ChLowCardinality inner | ChArray inner => plain inner
  | ChMap key value => plain key && plain value
  | ChTuple fields => forallb plain_field fields && forallb distinct_name fields
  | ChNested fields => forallb plain_field fields
  | ChVariant alternatives => forallb plain alternatives
  | _ => true
  end
with plain_field (f : TupleField) : bool :=
  match f with mkTupleField name t => match name with Some name => readable name | None => true end && plain t end.

(** ** Reading a known text *)

Lemma st_bind_ok {S E A B} (m : ST S E A) (f : A -> ST S E B) s a s' :
  m s = (Ok a, s') -> (m ≫= f) s = f a s'.
Proof. unfold mbind, ST_bind. by intros ->. Qed.

(** What may follow the text of a type or of one of its arguments. *)
Definition closing (s : str) : Prop := match s with [] => True | c :: _ => c = c_comma \/ c = c_rparen end.
Definition solid (s : str) : Prop := match s with [] => True | c :: _ => is_whitespace c = false end.
Definition pad (b : bool) : str := if b then [c_space] else [].

(** [p] reads exactly [s], after a space or not, and yields [a]. *)
Definition reads {A} (p : Parser A) (s : str) (a : A) : Prop :=
  forall b rest, closing rest -> p (pad b ++ s ++ rest) = (Ok a, rest).

Lemma closing_comma s : closing (c_comma :: s).
Proof. by left. Qed.
Lemma closing_rparen s : closing (c_rparen :: s).
Proof. by right. Qed.
#[local] Hint Resolve closing_comma closing_rparen : core.

Lemma trim_pad b s : solid s -> trim_start (pad b ++ s) = s.
Proof.
  intros Hs. assert (trim_start s = s) as H by (destruct s; [done|]; simpl in *; by rewrite Hs). by destruct b.
Qed.

Lemma closing_solid s : closing s -> solid s.
Proof. destruct s; [done|]. by intros [-> | ->]. Qed.

Lemma skip_pad b s : solid s -> skip_whitespace (pad b ++ s) = (Ok tt, s).
Proof. intros Hs. unfold skip_whitespace, st_modify. by rewrite trim_pad. Qed.

Lemma skip_solid s : solid s -> skip_whitespace s = (Ok tt, s).
Proof. apply (skip_pad false). Qed.

Lemma consume_pad b c s : is_whitespace c = false -> consume_char c (pad b ++ c :: s) = (Ok true, s).
Proof. intros Hc. unfold consume_char. by rewrite trim_pad, Z.eqb_refl. Qed.

Lemma consume_now c s : is_whitespace c = false -> consume_char c (c :: s) = (Ok true, s).
Proof. apply (consume_pad false). Qed.

Lemma consume_other c d s : is_whitespace d = false -> d <> c -> consume_char c (d :: s) = (Ok false, d :: s).
Proof. intros Hd Hne%Z.eqb_neq. unfold consume_char. simpl. by rewrite Hd, Hne. Qed.

Lemma expect_pad b c s : is_whitespace c = false -> expect_char c (pad b ++ c :: s) = (Ok tt, s).
Proof. intros Hc. unfold expect_char. by rewrite (st_bind_ok _ _ _ _ _ (consume_pad b c s Hc)). Qed.

Lemma expect_now c s : is_whitespace c = false -> expect_char c (c :: s) = (Ok tt, s).
Proof. apply (expect_pad false). Qed.

(** A run of characters of one kind, up to one that is not. *)
Definition stops (f : Z -> bool) (s : str) : Prop := match s with [] => True | c :: _ => f c = false end.

Lemma span_app f a b : forallb f a = true -> stops f b -> span f (a ++ b) = (a, b).
Proof.
  intros Ha Hb. induction a as [|c a IH]; simpl in *.
  - destruct b as [|d b]; [done|]. simpl in *. by rewrite Hb.
  - apply andb_true_iff in Ha as [-> Ha]. by rewrite IH.
Qed.

Lemma closing_no_digit s : closing s -> stops is_ascii_digit s.
Proof. destruct s; [done|]. by intros [-> | ->]. Qed.

Lemma digit_not_white c : is_ascii_digit c = true -> is_whitespace c = false.
Proof. unfold is_ascii_digit, is_whitespace. lia. Qed.

Lemma renders_parts n ds : renders n ds -> ds <> [] /\ all_digits ds = true /\ digits_value ds = n /\ forall r, solid (ds ++ r).
Proof.
  intros [H1 H2 (c & r & -> & _)]. split_and!; try done. intros r'. simpl.
  apply digit_not_white. by apply andb_true_iff in H1 as [? _].
Qed.

Lemma parse_uint_digits n ds max : renders n ds -> (n <= max)%Z -> parse_uint max ds = Some n.
Proof.
  intros Hr Hm. destruct (renders_parts n ds Hr) as (Hne & Hd & Hv & _). unfold parse_uint.
  replace (strip_prefix [43%Z] ds) with (@None str).
  - rewrite bool_decide_true, Hd, Hv by done. simpl. by apply Z.leb_le in Hm as ->.
  - destruct ds as [|c ds]; [done|]. cbn [strip_prefix]. apply andb_true_iff in Hd as [Hc%is_ascii_digit_range _].
    by destruct (Z.eqb_spec 43 c); [lia|].
Qed.

Lemma reads_unsigned max label n : (0 <= n <= max)%Z -> reads (parse_unsigned max label) (to_dec n) n.
Proof.
  intros [Hn Hm] b rest Hrest. pose proof (to_dec_renders n Hn) as Hr.
  destruct (renders_parts _ _ Hr) as (Hne & Hd & _ & Hs).
  unfold parse_unsigned. rewrite (st_bind_ok _ _ _ _ _ (skip_pad b _ (Hs rest))). unfold p_fun.
  rewrite span_app by (done || by apply closing_no_digit).
  rewrite bool_decide_false by done. by rewrite (parse_uint_digits n).
Qed.

Lemma reads_signed label n : (-32768 <= n <= 32767)%Z -> reads (parse_signed_i16 label) (to_dec n) n.
Proof.
  intros Hn b rest Hrest. unfold parse_signed_i16, to_dec. destruct (Z.ltb_spec n 0) as [Hneg|Hpos].
  - pose proof (nat_to_dec_spec (- n) ltac:(lia)) as Hr. destruct (renders_parts _ _ Hr) as (Hne & Hd & Hv & _).
    cbn [app]. rewrite (st_bind_ok _ _ _ _ _ (skip_pad b (c_minus :: _) eq_refl)). unfold p_fun.
    change ((c_minus =? 43) || (c_minus =? c_minus))%Z with true. cbv iota beta.
    rewrite span_app by (done || by apply closing_no_digit). rewrite bool_decide_false by done.
    unfold parse_int. simpl. rewrite bool_decide_true, Hd, Hv by done. simpl.
    assert ((-32768 <=? - - n) = true)%Z as -> by lia. simpl. do 3 f_equal. lia.
  - pose proof (nat_to_dec_spec n Hpos) as Hr. destruct (renders_parts _ _ Hr) as (Hne & Hd & Hv & Hs).
    rewrite (st_bind_ok _ _ _ _ _ (skip_pad b _ (Hs rest))). unfold p_fun.
    pose proof (parse_uint_digits _ _ 32767 Hr ltac:(lia)) as Hp.
    assert (Hh : forall r, match nat_to_dec n ++ r with
      | c :: r' => if (c =? 43)%Z || (c =? c_minus)%Z then ([c], r') else ([], nat_to_dec n ++ r)
      | [] => ([], nat_to_dec n ++ r) end = ([], nat_to_dec n ++ r)).
    { destruct (nat_to_dec n) as [|c ds]; [done|]. intros r. simpl.
      apply andb_true_iff in Hd as [Hc%is_ascii_digit_range _].
      by assert (((c =? 43) || (c =? c_minus)) = false)%Z as -> by lia. }
    rewrite Hh. rewrite span_app by (done || by apply closing_no_digit). rewrite bool_decide_false by done.
    cbn [app]. unfold parse_int. replace (strip_prefix [c_minus] (nat_to_dec n)) with (@None str); [by rewrite Hp|].
    destruct (nat_to_dec n) as [|c ds]; [done|]. cbn [strip_prefix].
    apply andb_true_iff in Hd as [Hc%is_ascii_digit_range _]. by destruct (Z.eqb_spec c_minus c); [lia|].
Qed.

(** A quoted text ends at its closing quote. *)
Lemma quoted_loop_shown label q v s rest :
  q <> c_bslash -> stops (Z.eqb q) rest -> readable s = true ->
  quoted_loop label q v (flat_map (escape_char q) s ++ q :: rest) = (Ok (v ++ s), rest).
Proof.
  intros Hq Hrest. revert v. induction s as [|c s IH]; intros v Hs.
  - cbn [flat_map app quoted_loop]. apply Z.eqb_neq in Hq. rewrite Hq, Z.eqb_refl, app_nil_r.
    destruct rest as [|d rest]; [done|]. simpl in Hrest. by rewrite Z.eqb_sym, Hrest.
  - apply andb_true_iff in Hs as [Hl Hs]. cbn [flat_map]. unfold escape_char at 1. destruct (letter_escape c); [done|]. destruct (_ || _) eqn:Hc.
    + cbn [app quoted_loop]. rewrite Z.eqb_refl, IH by done. by rewrite <-app_assoc.
    + apply orb_false_iff in Hc as [Hb Hc]. cbn [app quoted_loop]. rewrite Hb, Hc, IH by done. by rewrite <-app_assoc.
Qed.

Lemma quoted_value_shown label q b s rest :
  is_quote q = true -> stops (Z.eqb q) rest -> readable s = true ->
  parse_quoted_value label (pad b ++ show_quoted q s ++ rest) = (Ok s, rest).
Proof.
  intros Hq Hrest Hs. unfold parse_quoted_value, show_quoted.
  assert (Hqs : q = c_squote \/ q = c_dquote \/ q = c_backtick) by (unfold is_quote in Hq; lia).
  assert (is_whitespace q = false) by (by destruct Hqs as [-> | [-> | ->]]).
  cbn [app]. rewrite (st_bind_ok _ _ _ _ _ (skip_pad b (q :: _) ltac:(done))). unfold p_fun. rewrite Hq.
  rewrite <-app_assoc. cbn [app]. rewrite quoted_loop_shown; [done| |done|done]. by destruct Hqs as [-> | [-> | ->]].
Qed.

Lemma closing_no_quote q s : is_quote q = true -> closing s -> stops (Z.eqb q) s.
Proof. intros Hq. destruct s as [|c s]; [done|]. unfold is_quote in Hq. intros [-> | ->]; simpl; lia. Qed.

Lemma reads_quoted label q s : is_quote q = true -> readable s = true -> reads (parse_quoted_value label) (show_quoted q s) s.
Proof. intros Hq Hs b rest Hrest. apply quoted_value_shown; [done| |done]. by apply closing_no_quote. Qed.

(** *** Argument lists *)

(** The text after the opening parenthesis. *)
Definition items (l : list str) (rest : str) : str := join (lit ", ") l ++ c_rparen :: rest.

Lemma arguments_items l rest : arguments l ++ rest = c_lparen :: items l rest.
Proof. unfold arguments, items. cbn [app]. by rewrite <-app_assoc. Qed.

Lemma items_one x rest : items [x] rest = x ++ c_rparen :: rest.
Proof. done. Qed.

Lemma items_more x y l rest : items (x :: y :: l) rest = x ++ c_comma :: pad true ++ items (y :: l) rest.
Proof. unfold items. cbn [join]. rewrite <-!app_assoc. done. Qed.

Lemma reads_now {A} (p : Parser A) s a rest : reads p s a -> closing rest -> p (s ++ rest) = (Ok a, rest).
Proof. intros Hp. apply (Hp false). Qed.

Lemma reads_padded {A} (p : Parser A) s a rest : reads p s a -> closing rest -> p (pad true ++ s ++ rest) = (Ok a, rest).
Proof. intros Hp. apply (Hp true). Qed.

(** The steps of a parser on a text whose first part it reads. *)
Tactic Notation "rd" uconstr(H) := erewrite (st_bind_ok _ _ _ _ _ H); cbv beta iota.
Ltac rd_lparen := rewrite arguments_items; rd (expect_now c_lparen _ eq_refl).
Ltac rd_item H := first [rewrite items_one | rewrite items_more]; erewrite st_bind_ok by (apply (reads_now _ _ _ _ H); auto); cbv beta iota.
Ltac rd_padded H := first [rewrite items_one | rewrite items_more]; erewrite st_bind_ok by (apply (reads_padded _ _ _ _ H); auto); cbv beta iota.
Ltac rd_comma := rd (expect_now c_comma _ eq_refl).
Ltac rd_rparen := rd (expect_now c_rparen _ eq_refl).

Lemma check_passes bad m s : bad = false -> p_check bad m s = (Ok tt, s).
Proof. by intros ->. Qed.

(** [parser] reads the arguments [args] whatever follows and yields [a]. *)
Definition reads_arguments {A} (p : Parser A) (args : list str) (a : A) : Prop :=
  forall rest, p (arguments args ++ rest) = (Ok a, rest).

Lemma fixed_string_shown len : (1 <= len <= U64_MAX)%Z -> reads_arguments parse_fixed_string [to_dec len] (ChFixedString len).
Proof.
  intros Hl rest. unfold parse_fixed_string. rd_lparen.
  rd_item (reads_unsigned U64_MAX "FixedString length" len ltac:(lia)).
  rd (check_passes (len =? 0)%Z _ _ ltac:(lia)). rd_rparen. done.
Qed.

Lemma decimal_shown precision scale :
  (1 <= precision <= 76)%Z -> (0 <= scale <= precision)%Z ->
  reads_arguments parse_decimal [to_dec precision; to_dec scale] (ChDecimal (decimal_storage_bits precision) precision scale).
Proof.
  intros Hp Hs rest. unfold parse_decimal. rd_lparen.
  rd_item (reads_unsigned U16_MAX "Decimal precision" precision ltac:(unfold U16_MAX; lia)). rd_comma.
  rd_padded (reads_unsigned U16_MAX "Decimal scale" scale ltac:(unfold U16_MAX; lia)). rd_rparen.
  rd (check_passes ((precision =? 0) || (76 <? precision) || (precision <? scale))%Z _ _ ltac:(lia)). done.
Qed.

Lemma datetime_shown timezone : readable timezone = true -> reads_arguments parse_datetime [show_quoted c_squote timezone] (ChDateTime (Some timezone)).
Proof.
  intros Htz rest. unfold parse_datetime. rewrite arguments_items. rd (consume_now c_lparen (items _ rest) eq_refl).
  rd_item (reads_quoted "quoted string" c_squote timezone eq_refl Htz). rd_rparen. done.
Qed.

Lemma datetime64_shown scale timezone :
  (0 <= scale <= 9)%Z -> match timezone with Some tz => readable tz = true | None => True end ->
  reads_arguments parse_datetime64
    (to_dec scale :: match timezone with Some tz => [show_quoted c_squote tz] | None => [] end)
    (ChDateTime64 scale timezone).
Proof.
  intros Hs Htz rest. unfold parse_datetime64. rd_lparen. destruct timezone as [tz|].
  - rd_item (reads_unsigned U8_MAX "DateTime64 scale" scale ltac:(unfold U8_MAX; lia)).
    rd (check_passes (9 <? scale)%Z _ _ ltac:(lia)). rd (consume_now c_comma (pad true ++ items [show_quoted c_squote tz] rest) eq_refl).
    rewrite items_one. unfold parse_quoted_string.
    erewrite st_bind_ok by (rd (reads_padded _ _ _ (c_rparen :: rest) (reads_quoted "quoted string" c_squote tz eq_refl Htz) (closing_rparen rest)); done).
    rd_rparen. done.
  - rd_item (reads_unsigned U8_MAX "DateTime64 scale" scale ltac:(unfold U8_MAX; lia)).
    rd (check_passes (9 <? scale)%Z _ _ ltac:(lia)). rd (consume_other c_comma c_rparen rest eq_refl ltac:(done)).
    erewrite st_bind_ok by done. rd_rparen. done.
Qed.

Lemma length_items_more x y l rest : length (items (y :: l) rest) + 2 <= length (items (x :: y :: l) rest).
Proof. rewrite items_more, !length_app. cbn [length pad app]. lia. Qed.

(** The text after the first of several arguments. *)
Definition following (l : list str) (rest : str) : str :=
  match l with [] => c_rparen :: rest | _ => c_comma :: pad true ++ items l rest end.

(** One turn of a loop over the arguments: what follows the item decides. *)
Lemma more_or_end {A B} (show : A -> str) (loop : Parser B) (done_ : B) (l : list A) rest b :
  (l <> [] -> loop (pad true ++ items (map show l) rest) = (Ok b, rest)) -> (l = [] -> done_ = b) ->
  (more ← consume_char c_comma; if (more : bool) then loop else (_ ← expect_char c_rparen; mret done_))
    (following (map show l) rest) = (Ok b, rest).
Proof.
  intros Hm He. destruct l as [|y l]; cbn [map].
  - rd (consume_other c_comma c_rparen rest eq_refl ltac:(done)). rd_rparen. by rewrite He.
  - rd (consume_now c_comma (pad true ++ items (show y :: map show l) rest) eq_refl). by apply Hm.
Qed.

Lemma items_cons x l rest :
  items (x :: l) rest = x ++ following l rest.
Proof. destruct l; [apply items_one|apply items_more]. Qed.

Lemma closing_more l rest :
  closing (following l rest).
Proof. destruct l; [apply closing_rparen|apply closing_comma]. Qed.

Lemma items_fuel x l rest n : length (items (x :: l) rest) < S n -> l <> [] -> length (items l rest) < n.
Proof. intros H Hl. destruct l as [|y l]; [done|]. pose proof (length_items_more x y l rest). lia. Qed.

Definition variant_range (bits : Z) (v : str * Z) : Prop :=
  if (bits =? 8)%Z then (-128 <= v.2 <= 127)%Z else (-32768 <= v.2 <= 32767)%Z.

Lemma enum_loop_shown fuel bits vs acc b rest :
  vs <> [] -> Forall (variant_range bits) vs -> forallb (fun v => readable v.1) vs = true -> (Z.of_nat (length (acc ++ vs)) <= U16_MAX)%Z ->
  length (items (map show_variant vs) rest) < fuel ->
  enum_loop fuel bits acc (pad b ++ items (map show_variant vs) rest) = (Ok (acc ++ vs), rest).
Proof.
  revert vs acc b. induction fuel as [|fuel IH]; intros vs acc b Hne Hv Hrd Hl Hf; [lia|].
  destruct vs as [|[label value] vs]; [done|]. apply Forall_cons in Hv as [Hr Hv]. apply andb_true_iff in Hrd as [Hlabel Hrd]. cbn [enum_loop map]. unfold parse_quoted_string.
  cbn [map] in Hf. rewrite items_cons. unfold show_variant at 1. cbn [fst snd]. rewrite <-!app_assoc.
  rd (quoted_value_shown "quoted string" c_squote b label
    (lit " = " ++ to_dec value ++ following (map show_variant vs) rest)
    eq_refl eq_refl Hlabel).
  change (lit " = ") with (pad true ++ 61%Z :: pad true). rewrite <-app_assoc. cbn [app].
  rd (expect_pad true 61 (pad true ++ to_dec value ++ following (map show_variant vs) rest) eq_refl).
  assert (Hi : (-32768 <= value <= 32767)%Z) by (unfold variant_range in Hr; simpl in Hr; destruct (bits =? 8)%Z; lia).
  rd (reads_padded _ _ _ _ (reads_signed "Enum value" value Hi) (closing_more (map show_variant vs) rest)).
  rewrite length_app in Hl. cbn [length] in Hl.
  assert (Hc : ((bits =? 8)%Z && negb ((-128 <=? value)%Z && (value <=? 127)%Z) || (U16_MAX <=? Z.of_nat (length acc))%Z) = false).
  { unfold variant_range in Hr. simpl in Hr. destruct (bits =? 8)%Z; lia. }
  rd (check_passes _ _ _ Hc).
  apply (more_or_end show_variant).
  - intros Hvs. replace (acc ++ (label, value) :: vs) with ((acc ++ [(label, value)]) ++ vs) by (by rewrite <-app_assoc).
    apply IH; [done|done|done|rewrite !length_app; simpl; lia|]. eapply items_fuel; [exact Hf|by destruct vs].
  - by intros ->.
Qed.

Lemma enum_shown bits vs :
  vs <> [] -> Forall (variant_range bits) vs -> forallb (fun v => readable v.1) vs = true -> (Z.of_nat (length vs) <= U16_MAX)%Z ->
  reads_arguments (parse_enum bits) (map show_variant vs) (ChEnum bits vs).
Proof.
  intros Hne Hv Hrd Hl rest. unfold parse_enum. rd_lparen.
  erewrite st_bind_ok by (apply (enum_loop_shown _ bits vs [] false rest Hne Hv Hrd Hl), Nat.lt_succ_diag_r). cbn [app]. rd (check_passes _ _ _ (bool_decide_eq_false_2 _ Hne)). done.
Qed.

(** *** Names *)

(** What may follow a type name. *)
Definition opening (s : str) : Prop := match s with [] => True | c :: _ => c = c_lparen end.
Definition after_name (s : str) : Prop := opening s \/ closing s.

Lemma after_name_app a rest : opening a -> closing rest -> after_name (a ++ rest).
Proof. destruct a; simpl; [by right|by left]. Qed.

Lemma after_name_solid s : after_name s -> solid s.
Proof. destruct s; [done|]. by intros [-> | [-> | ->]]. Qed.

Lemma after_name_stops s : after_name s -> stops ident_char s.
Proof. destruct s; [done|]. by intros [-> | [-> | ->]]. Qed.

Record type_name (name : str) : Prop := { tn_chars : forallb ident_char name = true; tn_nonempty : name <> [] }.

Lemma ident_char_solid c : ident_char c = true -> is_whitespace c = false /\ is_quote c = false.
Proof.
  unfold ident_char, is_whitespace, is_quote, is_ascii_alphanumeric, is_ascii_alphabetic, is_ascii_upper,
    is_ascii_lower, is_ascii_digit. lia.
Qed.

Lemma type_name_solid name s : type_name name -> solid (name ++ s).
Proof. intros [Hc Hn]. destruct name as [|c name]; [done|]. apply andb_true_iff in Hc as [Hc _]. by apply ident_char_solid. Qed.

Lemma identifier_shown b name s :
  type_name name -> stops ident_char s -> parse_identifier (pad b ++ name ++ s) = (Ok name, s).
Proof.
  intros Hn Hs. unfold parse_identifier. rd (skip_pad b _ (type_name_solid name s Hn)). unfold p_fun.
  destruct Hn as [Hc Hn]. rewrite span_app by done. by rewrite bool_decide_false.
Qed.

Lemma body_shown part b name s :
  type_name name -> after_name s -> parse_type_body part (pad b ++ name ++ s) = parse_named part name (name ++ s) s.
Proof.
  intros Hn Hs. unfold parse_type_body. rd (skip_pad b _ (type_name_solid name s Hn)).
  erewrite st_bind_ok by done. rd (identifier_shown false name s Hn (after_name_stops s Hs)). by rd (skip_solid s (after_name_solid s Hs)).
Qed.

Lemma literal_name name : forallb ident_char (lit name) && negb (bool_decide (lit name = [])) = true -> type_name (lit name).
Proof. intros [H1 H2]%andb_true_iff. split; [done|]. by apply negb_true_iff, bool_decide_eq_false in H2. Qed.

Lemma show_name_ok t : type_ok t -> plain t = true -> type_name (show_name t) /\ opening (show_arguments t).
Proof.
  intros Hok Hp. destruct Hok; cbn [show_name show_arguments]; try (split; [first [by apply literal_name|by split]|done]).
  - split; [|done]. repeat destruct H as [<-|H]; try done; destruct signed; by split.
  - split; [|done]. destruct H as [-> | ->]; by split.
  - split; [by apply literal_name|]. by destruct timezone.
  - split; [by apply literal_name|]. by destruct timezone.
  - apply orb_true_iff in Hp as [H|[H|H]%orb_true_iff]; [..|done]; apply bool_decide_eq_true in H as ->;
      vm_compute; by split.
  - apply andb_true_iff in Hp as [Hp _]. by split.
Qed.

(** *** Compound types *)

Section compound_text.
Context (part : Parser ClickHouseType).

Lemma wrapper_shown wrap t :
  reads part (show_type t) t -> reads_arguments (parse_single_wrapper part wrap) [show_type t] (wrap t).
Proof. intros Hp rest. unfold parse_single_wrapper. rd_lparen. rd_item Hp. rd_rparen. done. Qed.

Lemma map_shown k v :
  reads part (show_type k) k -> reads part (show_type v) v ->
  reads_arguments (parse_map part) [show_type k; show_type v] (ChMap k v).
Proof. intros Hk Hv rest. unfold parse_map. rd_lparen. rd_item Hk. rd_comma. rd_padded Hv. rd_rparen. done. Qed.

Lemma bare_name name : bare name = true -> type_name name.
Proof.
  unfold bare, identifier. intros [Hi _]%andb_true_iff. destruct name as [|c name]; [done|]. apply andb_true_iff in Hi as [_ Hi]. by split.
Qed.

(** A field whose name is written without quotes. *)
Lemma bare_field_shown nested name t :
  bare name = true -> (nested = true \/ is_known_type_name name = false) -> type_name (show_name t) -> reads part (show_type t) t ->
  reads (parse_tuple_field part nested) (show_field (mkTupleField (Some name) t)) (mkTupleField (Some name) t).
Proof.
  intros Hb Hk Ht Hp b rest Hrest. cbn [show_field]. unfold show_field_name. rewrite Hb. pose proof (bare_name _ Hb) as Hn. rewrite <-app_assoc.
  unfold parse_tuple_field. rd (skip_pad b _ (type_name_solid _ _ Hn)). erewrite st_bind_ok by done. cbv beta iota.
  assert (Hq : match name ++ (c_space :: show_type t) ++ rest with [] => false | c :: _ => is_quote c end = false).
  { destruct Hn as [Hc Hn]. destruct name as [|c n]; [done|]. apply andb_true_iff in Hc as [Hc _]. by apply ident_char_solid. }
  unfold show_type in Hq. rewrite Hq.
  rd (identifier_shown false name ((c_space :: show_type t) ++ rest) Hn eq_refl). erewrite st_bind_ok by done.
  change ((c_space :: show_type t) ++ rest) with (pad true ++ show_type t ++ rest).
  assert (Hs : solid (show_type t ++ rest)) by (unfold show_type; rewrite <-app_assoc; by apply type_name_solid).
  rd (skip_pad true _ Hs). erewrite st_bind_ok by done. cbv beta iota.
  assert (Hd : match head (show_type t ++ rest) with
    | Some c => (c =? c_comma)%Z || (c =? c_rparen)%Z || (c =? c_lparen)%Z | None => true end = false).
  { unfold show_type. destruct Ht as [Hc Ht]. destruct (show_name t) as [|c n]; [done|]. apply andb_true_iff in Hc as [Hc _]. cbn [app head].
    revert Hc. unfold ident_char, is_ascii_alphanumeric, is_ascii_alphabetic, is_ascii_upper, is_ascii_lower, is_ascii_digit. lia. }
  rewrite Hd. assert (Hin : nested || (negb (is_known_type_name name) && negb false) = true) by (destruct Hk as [-> | ->]; [done|by rewrite orb_true_r]).
  rewrite Hin. rd (reads_now _ _ _ rest Hp Hrest). done.
Qed.

Lemma quoted_field_shown nested name t :
  bare name = false -> readable name = true -> reads part (show_type t) t ->
  reads (parse_tuple_field part nested) (show_field (mkTupleField (Some name) t)) (mkTupleField (Some name) t).
Proof.
  intros Hb Hr Hp b rest Hrest. cbn [show_field]. unfold show_field_name. rewrite Hb, <-app_assoc. unfold parse_tuple_field.
  rd (skip_pad b (show_quoted c_backtick name ++ _) eq_refl). erewrite st_bind_ok by done.
  change (match _ ++ _ with [] => false | c :: _ => is_quote c end) with true. cbv beta iota.
  unfold parse_quoted_identifier.
  rd (quoted_value_shown "tuple field name" c_backtick false name ((c_space :: show_type t) ++ rest) eq_refl eq_refl Hr).
  rd (reads_padded _ _ _ rest Hp Hrest). done.
Qed.

Lemma named_field_shown nested name t :
  readable name = true -> (nested = true \/ distinct_name (mkTupleField (Some name) t) = true) -> type_name (show_name t) ->
  reads part (show_type t) t ->
  reads (parse_tuple_field part nested) (show_field (mkTupleField (Some name) t)) (mkTupleField (Some name) t).
Proof.
  intros Hr Hd Ht Hp. destruct (bare name) eqn:Eb; [|by apply quoted_field_shown]. apply bare_field_shown; try done.
  destruct Hd as [->|Hd]; [by left|right]. unfold distinct_name in Hd. cbn in Hd. rewrite Eb in Hd. by apply negb_true_iff.
Qed.

Lemma plain_field_shown t :
  type_name (show_name t) -> opening (show_arguments t) -> reads part (show_type t) t ->
  reads (parse_tuple_field part false) (show_field (mkTupleField None t)) (mkTupleField None t).
Proof.
  intros Hn Ha Hp b rest Hrest. cbn [show_field]. unfold parse_tuple_field. rewrite <-app_assoc.
  pose proof (after_name_app _ rest Ha Hrest) as Hf. rd (skip_pad b _ (type_name_solid _ _ Hn)).
  erewrite st_bind_ok by done. cbv beta iota.
  assert (Hq : match show_name t ++ show_arguments t ++ rest with [] => false | c :: _ => is_quote c end = false).
  { destruct Hn as [Hc Hn]. destruct (show_name t) as [|c n]; [done|]. apply andb_true_iff in Hc as [Hc _]. by apply ident_char_solid. }
  rewrite Hq. rd (identifier_shown false _ _ Hn (after_name_stops _ Hf)). erewrite st_bind_ok by done. rd (skip_solid _ (after_name_solid _ Hf)).
  erewrite st_bind_ok by done. cbv beta iota.
  assert (Hd : match head (show_arguments t ++ rest) with
    | Some c => (c =? c_comma)%Z || (c =? c_rparen)%Z || (c =? c_lparen)%Z | None => true end = true).
  { destruct (show_arguments t ++ rest); [done|]. by destruct Hf as [-> | [-> | ->]]. }
  rewrite Hd, andb_false_r. cbn [orb]. erewrite st_bind_ok by done. rewrite app_assoc.
  rd (reads_now _ _ _ rest Hp Hrest). erewrite st_bind_ok by done. cbv beta iota.
  rd (check_passes _ _ _ (andb_false_r _)). done.
Qed.

Definition named_field (f : TupleField) : bool := match tf_name f with Some _ => true | None => false end.

(** The fields of a tuple, all of the kind [k]. *)
Lemma tuple_loop_shown nested k fuel mode acc fs b rest :
  fs <> [] -> (mode = None \/ mode = Some k) ->
  Forall (fun f => named_field f = k /\ reads (parse_tuple_field part nested) (show_field f) f) fs ->
  length (items (map show_field fs) rest) < fuel ->
  tuple_loop part fuel nested mode acc (pad b ++ items (map show_field fs) rest) = (Ok (acc ++ fs, Some k), rest).
Proof.
  revert mode acc fs b. induction fuel as [|fuel IH]; intros mode acc fs b Hne Hm Hfs Hf; [lia|].
  destruct fs as [|f fs]; [done|]. apply Forall_cons in Hfs as [[Hk Hr] Hfs]. cbn [tuple_loop map].
  cbn [map] in Hf. rewrite items_cons. rd (Hr b _ (closing_more (map show_field fs) rest)).
  change (match tf_name f with Some _ => true | None => false end) with (named_field f). rewrite Hk.
  assert (Hc : match mode with Some m => negb (Bool.eqb m k) | None => false end = false)
    by (destruct Hm as [-> | ->]; [done|]; by rewrite eqb_reflx).
  rd (check_passes _ _ _ Hc). apply (more_or_end show_field).
  - intros Hl. replace (acc ++ f :: fs) with ((acc ++ [f]) ++ fs) by (by rewrite <-app_assoc).
    apply IH; [done|by right|done|]. eapply items_fuel; [exact Hf|by destruct fs].
  - by intros ->.
Qed.

Lemma tuple_shown nested k fs :
  fs <> [] -> Forall (fun f => named_field f = k /\ reads (parse_tuple_field part nested) (show_field f) f) fs ->
  (forall rest, stops (Z.eqb c_rparen) (items (map show_field fs) rest) /\ solid (items (map show_field fs) rest)) ->
  (nested = true -> k = true) ->
  reads_arguments (parse_tuple part nested) (map show_field fs) (if nested then ChNested fs else ChTuple fs).
Proof.
  intros Hne Hfs Hst Hk rest. unfold parse_tuple. rd_lparen. destruct (Hst rest) as [Hs1 Hs2].
  assert (Hc : consume_char c_rparen (items (map show_field fs) rest) = (Ok false, items (map show_field fs) rest)).
  { destruct (items _ rest) as [|c s]; [done|]. apply consume_other; [done|]. by intros ->. }
  rd Hc. erewrite st_bind_ok by done.
  erewrite st_bind_ok by (apply (tuple_loop_shown nested k _ None [] fs false); [done|by left|done|apply Nat.lt_succ_diag_r]).
  cbv beta iota. cbn [app].
  assert (Hn : nested && negb (bool_decide (Some k = Some true)) = false)
    by (destruct nested; [|done]; by rewrite Hk by done).
  rd (check_passes _ _ _ Hn). done.
Qed.

Lemma variant_loop_shown fuel acc ts b rest :
  ts <> [] -> Forall (fun t => reads part (show_type t) t) ts -> length (items (map show_type ts) rest) < fuel ->
  variant_loop part fuel acc (pad b ++ items (map show_type ts) rest) = (Ok (acc ++ ts), rest).
Proof.
  revert acc ts b. induction fuel as [|fuel IH]; intros acc ts b Hne Hts Hf; [lia|].
  destruct ts as [|t ts]; [done|]. apply Forall_cons in Hts as [Hr Hts]. cbn [variant_loop map].
  cbn [map] in Hf. rewrite items_cons. rd (Hr b _ (closing_more (map show_type ts) rest)).
  apply (more_or_end show_type).
  - intros Hl. replace (acc ++ t :: ts) with ((acc ++ [t]) ++ ts) by (by rewrite <-app_assoc).
    apply IH; [done|done|]. eapply items_fuel; [exact Hf|by destruct ts].
  - by intros ->.
Qed.

Lemma variant_shown ts :
  ts <> [] -> Forall (fun t => reads part (show_type t) t) ts ->
  reads_arguments (parse_variant part) (map show_type ts) (ChVariant ts).
Proof.
  intros Hne Hts rest. unfold parse_variant. rd_lparen.
  erewrite st_bind_ok by (apply (variant_loop_shown _ [] ts false rest Hne Hts), Nat.lt_succ_diag_r).
  cbn [app]. rd (check_passes _ _ _ (bool_decide_eq_false_2 _ Hne)). done.
Qed.
End compound_text.

(** *** All types *)

Lemma join_length sep x l : In x l -> length x <= length (join sep l).
Proof.
  induction l as [|y l IH]; [done|]. destruct l as [|z l].
  - intros [-> | []]. done.
  - change (join sep (y :: z :: l)) with (y ++ sep ++ join sep (z :: l)). rewrite !length_app. intros [-> | H%IH]; lia.
Qed.

Lemma arguments_length x l : In x l -> length x < length (arguments l).
Proof. intros H%(join_length (lit ", ")). unfold arguments. cbn [length]. rewrite length_app. lia. Qed.

Lemma show_field_length f : length (show_type (tf_ty f)) <= length (show_field f).
Proof. destruct f as [[name|] t]; cbn [show_field tf_ty]; [|done]. rewrite length_app. cbn [length]. unfold show_type. lia. Qed.

Lemma trim_idle s : solid s -> solid (rev s) -> trim s = s.
Proof.
  assert (Ht : forall s, solid s -> trim_start s = s) by (intros s'; apply (trim_pad false)).
  intros H1 H2. unfold trim, trim_end. rewrite (Ht s), (Ht (rev s)) by done. apply rev_involutive.
Qed.

Lemma type_name_trim name : type_name name -> trim name = name.
Proof.
  intros [Hc Hn]. apply trim_idle.
  - rewrite <-(app_nil_r name). by apply type_name_solid.
  - rewrite <-(app_nil_r (rev name)). apply type_name_solid. split.
    + rewrite forallb_forall in Hc |- *. intros c. rewrite <-in_rev. apply Hc.
    + intros Hr. by apply (f_equal (@rev Z)) in Hr; rewrite rev_involutive in Hr.
Qed.

Lemma slice_since_app a rest : slice_since (a ++ rest) rest = a.
Proof. unfold slice_since. rewrite length_app, Nat.add_sub. apply take_app_length. Qed.

Lemma unknown_end_closing rest : closing rest -> unknown_end 0 None false rest = rest.
Proof. destruct rest; [done|]. by intros [-> | ->]. Qed.

Lemma unknown_shown part raw rest :
  type_name raw -> is_known_type_name raw = false -> closing rest ->
  parse_named part raw (raw ++ rest) rest = (Ok (ChUnknown raw), rest).
Proof.
  intros Hn Hk Hrest. unfold is_known_type_name, one_of in Hk. cbn [existsb] in Hk. breflect. unfold parse_named.
  repeat match goal with H : str_eqb raw _ = false |- _ => rewrite H; clear H end. cbn [orb].
  destruct (parse_integer_name raw) as [[]|]; [done|]. unfold capture_unknown.
  rewrite unknown_end_closing, slice_since_app, type_name_trim by done. destruct Hn. by rewrite bool_decide_false.
Qed.

Lemma json_shown start rest : closing rest -> start = lit "JSON" ++ rest ->
  parse_json_or_object start rest = (Ok (ChJsonOrObject (lit "JSON")), rest).
Proof.
  intros Hrest ->. unfold parse_json_or_object. erewrite st_bind_ok by done.
  rewrite bool_decide_false by (destruct rest; [done|]; by intros [= ->]; destruct Hrest).
  erewrite st_bind_ok by done. erewrite st_bind_ok by done. by rewrite slice_since_app.
Qed.

Lemma object_shown start rest : start = lit "Object('json')" ++ rest ->
  parse_json_or_object start (lit "('json')" ++ rest) = (Ok (ChJsonOrObject (lit "Object('json')")), rest).
Proof.
  intros ->. unfold parse_json_or_object. erewrite st_bind_ok by done. rewrite bool_decide_true by done.
  erewrite st_bind_ok by done. erewrite st_bind_ok by done. by rewrite slice_since_app.
Qed.

Section all_types.
Context (fuel : nat).
Let part := parser_parse_type fuel.
Context (Hpart : forall t, type_ok t -> plain t = true -> length (show_type t) < fuel -> reads part (show_type t) t).

Lemma fields_read nested k fields :
  Forall (fun f => type_ok (tf_ty f)) fields -> forallb plain_field fields = true ->
  (nested = true \/ forallb distinct_name fields = true) ->
  length (arguments (map show_field fields)) <= fuel -> Forall (fun f => named_field f = k) fields ->
  (nested = true -> k = true) ->
  Forall (fun f => named_field f = k /\ reads (parse_tuple_field part nested) (show_field f) f) fields.
Proof using Hpart.
  intros Hok Hp Hdi Hl Hk Hn. rewrite forallb_forall in Hp. rewrite Forall_forall in Hok, Hk |- *. intros f Hf.
  split; [by apply Hk|]. apply list_elem_of_In in Hf as Hin. specialize (Hok f Hf). specialize (Hk f Hf). specialize (Hp f Hin).
  pose proof (arguments_length (show_field f) _ (in_map show_field _ _ Hin)). pose proof (show_field_length f).
  assert (Hpt : plain (tf_ty f) = true) by (destruct f; by apply andb_true_iff in Hp as [_ Hp]).
  assert (Hr : reads part (show_type (tf_ty f)) (tf_ty f)) by (apply Hpart; [done|done|lia]).
  destruct (show_name_ok (tf_ty f) Hok Hpt) as [? ?]. destruct f as [[name|] t].
  - apply andb_true_iff in Hp as [Hp _]. apply named_field_shown; try done.
    destruct Hdi as [->|Hdi]; [by left|right]. rewrite forallb_forall in Hdi. by apply Hdi.
  - destruct nested; [by rewrite <-Hk in Hn; specialize (Hn eq_refl)|]. by apply plain_field_shown.
Qed.

Lemma fields_start fields rest :
  fields <> [] -> Forall (fun f => type_ok (tf_ty f)) fields -> forallb plain_field fields = true ->
  stops (Z.eqb c_rparen) (items (map show_field fields) rest) /\ solid (items (map show_field fields) rest).
Proof.
  intros Hne Hok Hp. destruct fields as [|f fields]; [done|]. cbn [map]. rewrite items_cons.
  assert (Hname : forall n r, type_name n -> stops (Z.eqb c_rparen) (n ++ r) /\ solid (n ++ r)).
  { intros n r Hn. split; [|by apply type_name_solid]. destruct Hn as [Hc Hn]. destruct n as [|c n]; [done|].
    apply andb_true_iff in Hc as [Hc _]. cbn [app stops]. destruct (Z.eqb_spec c_rparen c) as [<-|]; [by vm_compute in Hc|done]. }
  apply Forall_cons in Hok as [Hok _]. apply andb_true_iff in Hp as [Hp _].
  destruct f as [[name|] t]; cbn [show_field]; rewrite <-app_assoc.
  - unfold show_field_name. destruct (bare name) eqn:Eb; [|done]. apply Hname. by apply bare_name.
  - apply Hname. by apply (show_name_ok t).
Qed.
End all_types.

Lemma named_fields_kind fields : Forall is_named fields -> Forall (fun f => named_field f = true) fields.
Proof. intros Hf. apply (Forall_impl _ _ _ Hf). unfold is_named, named_field. intros f H. by destruct (tf_name f). Qed.

Lemma unnamed_fields_kind fields : Forall (fun f => tf_name f = None) fields -> Forall (fun f => named_field f = false) fields.
Proof. intros Hf. apply (Forall_impl _ _ _ Hf). unfold named_field. by intros f ->. Qed.

(** The arguments of a type, read after its name. *)
Lemma named_shown fuel t rest :
  (forall t, type_ok t -> plain t = true -> length (show_type t) < fuel ->
     reads (parser_parse_type fuel) (show_type t) t) ->
  type_ok t -> plain t = true -> length (show_type t) <= fuel -> closing rest ->
  parse_named (parser_parse_type fuel) (show_name t) (show_type t ++ rest) (show_arguments t ++ rest) = (Ok t, rest).
Proof.
  intros Hpart Hok Hp Hl Hrest. assert (Ha : length (show_arguments t) <= fuel)
    by (unfold show_type in Hl; rewrite length_app in Hl; lia).
  assert (Hin : forall x l, show_arguments t = arguments l -> In x l -> length x < fuel)
    by (intros x l E Hx%arguments_length; rewrite <-E in Hx; lia).
  destruct Hok; cbn [plain] in Hp; cbn [show_name show_arguments] in *; try done.
  - repeat destruct H as [<-|H]; try done; by destruct signed.
  - by destruct H as [-> | ->].
  - exact (decimal_shown precision scale H H0 rest).
  - exact (fixed_string_shown len H rest).
  - destruct timezone as [tz|]; [exact (datetime_shown tz Hp rest)|]. cbn [app].
    destruct rest as [|c rest]; [done|]. by destruct Hrest as [-> | ->].
  - assert (Htz : match timezone with Some tz => readable tz = true | None => True end) by (by destruct timezone).
    pose proof (datetime64_shown scale timezone H Htz rest) as Hd. by destruct timezone.
  - exact (enum_shown 8 variants H H1 Hp H0 rest).
  - exact (enum_shown 16 variants H H1 Hp H0 rest).
  - refine (wrapper_shown _ ChNullable t (Hpart t Hok Hp _) rest). eapply Hin; [done|by left].
  - refine (wrapper_shown _ ChLowCardinality t (Hpart t Hok Hp _) rest). eapply Hin; [done|by left].
  - refine (wrapper_shown _ ChArray t (Hpart t Hok Hp _) rest). eapply Hin; [done|by left].
  - apply andb_true_iff in Hp as [Hk Hv].
    refine (map_shown _ k v (Hpart k Hok1 Hk _) (Hpart v Hok2 Hv _) rest); (eapply Hin; [done|]); [by left|by right; left].
  - apply andb_true_iff in Hp as [Hp Hdi]. pose proof (or_intror Hdi : false = true \/ _) as Hdi'.
    pose proof (fun rest => fields_start fields rest H H0 Hp) as Hs. destruct H1 as [Hn|Hn].
    + exact (tuple_shown _ false true fields H (fields_read fuel Hpart false true fields H0 Hp Hdi' Ha (named_fields_kind _ Hn) ltac:(done)) Hs ltac:(done) rest).
    + exact (tuple_shown _ false false fields H (fields_read fuel Hpart false false fields H0 Hp Hdi' Ha (unnamed_fields_kind _ Hn) ltac:(done)) Hs ltac:(done) rest).
  - pose proof (fun rest => fields_start fields rest H H0 Hp) as Hs.
    exact (tuple_shown _ true true fields H (fields_read fuel Hpart true true fields H0 Hp (or_introl eq_refl) Ha (named_fields_kind _ H1) ltac:(done)) Hs ltac:(done) rest).
  - apply orb_true_iff in Hp as [H|[H|H]%orb_true_iff]; [..|done]; apply bool_decide_eq_true in H as ->.
    + exact (json_shown _ rest Hrest eq_refl).
    + exact (object_shown _ rest eq_refl).
  - refine (variant_shown _ alternatives H _ rest). rewrite forallb_forall in Hp. rewrite Forall_forall in H0 |- *.
    intros u Hu. apply list_elem_of_In in Hu as Hu'. apply Hpart; [by apply H0|by apply Hp|].
    eapply Hin; [done|]. by apply (in_map show_type).
  - apply andb_true_iff in Hp as [Hc Hk%negb_true_iff]. unfold show_type. cbn [show_name show_arguments].
    rewrite app_nil_r. by apply unknown_shown.
Qed.

Lemma shown_reads fuel t :
  type_ok t -> plain t = true -> length (show_type t) < fuel -> reads (parser_parse_type fuel) (show_type t) t.
Proof.
  revert t. induction fuel as [|fuel IH]; intros t Hok Hp Hl; [lia|]. intros b rest Hrest.
  destruct (show_name_ok t Hok Hp) as [Hn Ha]. cbn [parser_parse_type]. unfold show_type. rewrite <-app_assoc.
  rewrite body_shown by (done || by apply after_name_app). rewrite app_assoc. fold (show_type t).
  apply named_shown; try done. lia.
Qed.

(** *** Balanced text *)

(** Text over which the check of parentheses and quotes passes unchanged. *)
Definition neutral (s : str) : Prop :=
  forall d rest, balanced_loop d None false (s ++ rest) = balanced_loop d None false rest.

Lemma neutral_app a b : neutral a -> neutral b -> neutral (a ++ b).
Proof. intros Ha Hb d rest. by rewrite <-app_assoc, Ha, Hb. Qed.

Lemma neutral_nil : neutral [].
Proof. done. Qed.

Definition plain_char (c : Z) : bool := negb (is_quote c) && negb (c =? c_lparen)%Z && negb (c =? c_rparen)%Z.

Lemma neutral_plain s : forallb plain_char s = true -> neutral s.
Proof.
  intros Hs d rest. induction s as [|c s IH]; [done|]. apply andb_true_iff in Hs as [Hc Hs].
  unfold plain_char in Hc. breflect. cbn [app balanced_loop].
  repeat match goal with H : _ = false |- _ => rewrite H; clear H end. by apply IH.
Qed.

Lemma forallb_weaken (f g : Z -> bool) s :
  (forall c, f c = true -> g c = true) -> forallb f s = true -> forallb g s = true.
Proof. rewrite !forallb_forall. auto. Qed.

Lemma ident_plain c : ident_char c = true -> plain_char c = true.
Proof.
  unfold ident_char, plain_char, is_quote, is_ascii_alphanumeric, is_ascii_alphabetic, is_ascii_upper,
    is_ascii_lower, is_ascii_digit. lia.
Qed.

Lemma neutral_name name : type_name name -> neutral name.
Proof. intros [Hc _]. apply neutral_plain. eapply forallb_weaken; [apply ident_plain|done]. Qed.

Lemma neutral_nat n : (0 <= n)%Z -> neutral (nat_to_dec n).
Proof.
  intros Hn. destruct (nat_to_dec_spec n Hn) as [Hd _ _]. apply neutral_plain. eapply forallb_weaken; [|exact Hd].
  intros c. unfold plain_char, is_quote, is_ascii_digit. lia.
Qed.

Lemma neutral_dec n : neutral (to_dec n).
Proof.
  unfold to_dec. destruct (Z.ltb_spec n 0); [|by apply neutral_nat].
  apply (neutral_app [c_minus]); [by apply neutral_plain|apply neutral_nat; lia].
Qed.

Lemma neutral_quoted q s : is_quote q = true -> neutral (show_quoted q s).
Proof.
  intros Hq d rest. unfold show_quoted. cbn [app balanced_loop]. rewrite Hq.
  assert (Hb : (q =? c_bslash)%Z = false) by (unfold is_quote in Hq; lia).
  rewrite <-app_assoc. induction s as [|c s IH]; cbn [flat_map app balanced_loop].
  - by rewrite Hb, Z.eqb_refl.
  - unfold escape_char at 1. destruct (letter_escape c); [cbn [app balanced_loop]; by rewrite Z.eqb_refl|].
    destruct (_ || _) eqn:Hc; cbn [app balanced_loop].
    + by rewrite Z.eqb_refl.
    + apply orb_false_iff in Hc as [-> ->]. done.
Qed.

Lemma neutral_join l : Forall neutral l -> neutral (join (lit ", ") l).
Proof.
  induction 1 as [|x l Hx Hl IH]; [done|]. destruct l as [|y l]; [done|].
  change (join (lit ", ") (x :: y :: l)) with (x ++ lit ", " ++ join (lit ", ") (y :: l)).
  apply neutral_app; [done|]. apply neutral_app; [by apply neutral_plain|done].
Qed.

Lemma neutral_arguments l : Forall neutral l -> neutral (arguments l).
Proof.
  intros Hl d rest. rewrite arguments_items. unfold items. cbn [balanced_loop]. change (is_quote c_lparen) with false.
  cbv iota. change (c_lparen =? c_lparen)%Z with true. cbv iota. by rewrite (neutral_join l Hl).
Qed.

Lemma neutral_map {A} (f : A -> str) l : Forall (fun x => neutral (f x)) l -> Forall neutral (map f l).
Proof. induction 1; constructor; auto. Qed.

Lemma neutral_variant v : neutral (show_variant v).
Proof.
  apply neutral_app; [by apply neutral_quoted|]. apply neutral_app; [by apply neutral_plain|apply neutral_dec].
Qed.

Lemma neutral_field f : neutral (show_type (tf_ty f)) -> neutral (show_field f).
Proof.
  destruct f as [[name|] t]; cbn [show_field tf_ty]; [|done]. intros Ht.
  apply neutral_app; [unfold show_field_name; destruct (bare name) eqn:Eb; [by apply neutral_name, bare_name|by apply neutral_quoted]|].
  by apply (neutral_app [c_space]); [apply neutral_plain|].
Qed.

Lemma neutral_arguments_of n t :
  (forall t, type_ok t -> plain t = true -> length (show_type t) < n -> neutral (show_type t)) ->
  type_ok t -> plain t = true -> length (show_arguments t) <= n -> neutral (show_arguments t).
Proof.
  intros IH Hok Hp Hl.
  assert (Hin : forall x l, show_arguments t = arguments l -> In x l -> length x < n)
    by (intros x l E Hx%arguments_length; rewrite <-E in Hx; lia).
  assert (Hfs : forall fs, show_arguments t = arguments (map show_field fs) ->
    Forall (fun f => type_ok (tf_ty f)) fs -> forallb plain_field fs = true -> neutral (show_arguments t)).
  { intros fs E Hf Hpf. rewrite E. apply neutral_arguments, neutral_map. rewrite forallb_forall in Hpf.
    rewrite Forall_forall in Hf |- *. intros f Hin'. apply list_elem_of_In in Hin' as Hin2. apply neutral_field.
    pose proof (show_field_length f). pose proof (Hin (show_field f) _ E (in_map _ _ _ Hin2)).
    specialize (Hpf f Hin2). apply IH; [by apply Hf|destruct f; by apply andb_true_iff in Hpf as [_ Hpf]|lia]. }
  destruct Hok; cbn [plain] in Hp; cbn [show_arguments] in *; try apply neutral_nil;
    try (by eapply Hfs); try (apply andb_true_iff in Hp as [Hp _]; by eapply Hfs); try (apply neutral_arguments; repeat constructor; (apply neutral_dec || by apply neutral_quoted)).
  - destruct timezone; [|apply neutral_nil]. apply neutral_arguments. repeat constructor. by apply neutral_quoted.
  - destruct timezone; apply neutral_arguments; repeat constructor; (apply neutral_dec || by apply neutral_quoted).
  - apply neutral_arguments, neutral_map, Forall_true, neutral_variant.
  - apply neutral_arguments, neutral_map, Forall_true, neutral_variant.
  - apply neutral_arguments. repeat constructor. apply IH; [done..|]. eapply Hin; [done|by left].
  - apply neutral_arguments. repeat constructor. apply IH; [done..|]. eapply Hin; [done|by left].
  - apply neutral_arguments. repeat constructor. apply IH; [done..|]. eapply Hin; [done|by left].
  - apply andb_true_iff in Hp as [? ?].
    apply neutral_arguments. repeat constructor; (apply IH; [done..|]; eapply Hin; [done|]); [by left|by right; left].
  - apply orb_true_iff in Hp as [H|[H|H]%orb_true_iff]; [..|done]; by apply bool_decide_eq_true in H as ->.
  - apply neutral_arguments, neutral_map. rewrite forallb_forall in Hp. rewrite Forall_forall in H0 |- *. intros u Hu.
    apply list_elem_of_In in Hu as Hu'. apply IH; [by apply H0|by apply Hp|]. eapply Hin; [done|]. by apply (in_map show_type).
Qed.

Lemma neutral_type n t : type_ok t -> plain t = true -> length (show_type t) < n -> neutral (show_type t).
Proof.
  revert t. induction n as [|n IH]; intros t Hok Hp Hl; [lia|]. destruct (show_name_ok t Hok Hp) as [Hn _].
  unfold show_type in Hl. rewrite length_app in Hl. apply neutral_app; [by apply neutral_name|].
  apply (neutral_arguments_of n); try done. lia.
Qed.

Lemma show_arguments_end t : plain t = true -> show_arguments t = [] \/ exists a, show_arguments t = a ++ [c_rparen].
Proof.
  assert (Ha : forall l, exists a, arguments l = a ++ [c_rparen]) by (intros l; by exists (c_lparen :: join (lit ", ") l)).
  destruct t; cbn [show_arguments]; auto; try (destruct timezone; auto).
  intros [H|[H|H]%orb_true_iff]%orb_true_iff; [..|done]; apply bool_decide_eq_true in H as ->; [by left|].
  right. by exists (lit "('json'").
Qed.

Lemma show_type_trim t : type_ok t -> plain t = true -> trim (show_type t) = show_type t.
Proof.
  intros Hok Hp. destruct (show_name_ok t Hok Hp) as [Hn _]. unfold show_type.
  destruct (show_arguments_end t Hp) as [-> | [a ->]]; [rewrite app_nil_r; by apply type_name_trim|].
  apply trim_idle; [by apply type_name_solid|]. by rewrite app_assoc, rev_unit.
Qed.

(** C39: Types survive being written down the way the server names them: field names
    without quotes when they are identifiers (and not keywords, whichever those are), else
    in back quotes; the labels of enumerations and time zones in quotes, with the quote and
    the backslash escaped. [parse_type] reads the text of every well-formed type as that
    type. The texts are those without the control characters that the server writes as a
    letter, and no field of a tuple that is written without quotes has the name of a type;
    JSON types are in one of their usual spellings and unknown types are names of their
    own. *)
Theorem parse_show_type t : type_ok t -> plain t = true -> parse_type (show_type t) = Ok t.
Proof.
  intros Hok Hp. unfold parse_type. rewrite show_type_trim by done.
  destruct (show_name_ok t Hok Hp) as [Hn _].
  assert (Hv : validate_balanced_syntax (show_type t) = Ok tt).
  { rewrite <-(app_nil_r (show_type t)). apply (neutral_type _ t Hok Hp (Nat.lt_succ_diag_r _)). }
  pose proof (shown_reads _ t Hok Hp (Nat.lt_succ_diag_r _) false [] I) as Hr. cbn [pad app] in Hr.
  rewrite app_nil_r in Hr. destruct (show_type t) as [|c s] eqn:Hs.
  - destruct Hn as [_ Hn]. by apply app_eq_nil in Hs as [? _].
  - assert (is_quote c = false) as ->.
    { destruct Hn as [Hc Hn]. unfold show_type in Hs. destruct (show_name t) as [|d n]; [done|]. injection Hs as -> _.
      apply andb_true_iff in Hc as [Hc _]. by apply ident_char_solid. }
    rewrite Hv. cbn [mbind Result_bind]. rewrite Hr. done.
Qed.

End text.

(** The types of the tests of the parser, and a type whose labels and names need quotes. *)
Definition no_keywords (s : str) : bool := false.
Definition tested_type : ClickHouseType :=
  ChLowCardinality (ChNullable (ChArray (ChTuple [mkTupleField (Some (lit "id")) (ChInt false 64); mkTupleField (Some (lit "label")) ChString]))).
Definition sample_type : ClickHouseType :=
  ChTuple [mkTupleField (Some (lit "a`b")) (ChEnum 8 [(lit "it's", (-1)%Z); (lit "x", 2%Z)]);
           mkTupleField (Some (lit "at")) (ChMap ChString (ChArray (ChNullable (ChDateTime64 3 (Some (lit "UTC"))))))].

Example show_tested : show_type no_keywords tested_type = lit "LowCardinality(Nullable(Array(Tuple(id UInt64, label String))))".
Proof. vm_compute. reflexivity. Qed.

Lemma parse_show_type_witness :
  parse_type (lit "LowCardinality(Nullable(Array(Tuple(id UInt64, label String))))") = Ok tested_type
  /\ parse_type (lit "Tuple(`a\`b` Enum8('it\'s' = -1, 'x' = 2), at Map(String, Array(Nullable(DateTime64(3, 'UTC')))))") = Ok sample_type.
Proof.
  split.
  - apply (parse_show_type no_keywords tested_type); [|reflexivity]. unfold tested_type. do 4 constructor; [done| |].
    + constructor; [apply ok_int; vm_compute; tauto|]. constructor; [apply ok_string|constructor].
    + left. by repeat constructor.
  - apply (parse_show_type no_keywords sample_type); [|reflexivity]. unfold sample_type. constructor; [done| |].
    + repeat constructor; simpl; unfold U16_MAX; try lia; done.
    + left. by repeat constructor.
Defined.

(** ** Where the code departs from what it means to do *)

(** A control character in a label is written as a backslash and a letter; the parser keeps
    the letter, so that it takes a tab for a [t]. *)
Theorem control_characters_are_misread :
  let tab := ChEnum 8 [([97; 9; 98]%Z, 1%Z)] in
  show_type no_keywords tab = lit "Enum8('a\tb' = 1)" /\ parse_type (show_type no_keywords tab) = Ok (ChEnum 8 [(lit "atb", 1%Z)]).
Proof. split; vm_compute; reflexivity. Qed.

(** A field of a tuple with the name of a type and no quotes is taken for an unnamed field of
    that type, and the type is refused; in a [Nested] it is read. *)
Theorem field_named_like_a_type :
  let fields := [mkTupleField (Some (lit "Date")) ChDate] in
  show_type no_keywords (ChTuple fields) = lit "Tuple(Date Date)"
  /\ is_ok (parse_type (show_type no_keywords (ChTuple fields))) = false
  /\ parse_type (show_type no_keywords (ChNested fields)) = Ok (ChNested fields).
Proof. split_and!; vm_compute; reflexivity. Qed.
