(* ===== verification/ClickHouseValues.v ===== *)
(** * ClickHouse values
    ([src-tauri/src/engine/drivers/clickhouse/query/values.rs])

    Rows arrive as JSON.  Each value is checked against the type of its column and
    brought into the form the interface shows: integers that JavaScript cannot hold
    become text, decimals get their full scale, maps become lists of pairs and named
    tuples objects.  A budget bounds depth, nodes and serialized size.  The node counter
    is the state of the walk. *)

From stdpp Require Import base list strings.
From Stdlib Require Import ZArith Lia.
From S2P Require Import Prelude Digits Errors Types ClickHouseTypes.

Definition VALUE_JS_MAX_SAFE_INTEGER : Z := 9007199254740991.

Record ValueBudget := mkValueBudget {
  max_serialized_bytes : Z;
  max_depth : Z;
  max_nodes : Z;
}.

Definition default_value_budget : ValueBudget := mkValueBudget (4 * 1024 * 1024) 64 100000.

(** What the source takes from [serde_json] and the standard library beyond
    [JsonNumber]: the text of a number, [Number::from] on machine integers,
    [Number::from_f64], reading an [f64], serialization, and the [Debug] form of a text. *)
Class ValueSerde `{J : JsonNumber} := {
  number_to_string : Number -> str;
  number_from : Z -> Number;
  number_from_f64 : F64 -> option Number;
  parse_f64 : str -> option F64;
  to_vec : Value -> Result str (list Z);
  debug_str : str -> str;
}.

(** [Number::is_i64], [Number::is_u64]. *)
Definition is_i64 `{J : JsonNumber} (n : Number) : bool := match as_i64 n with Some _ => true | None => false end.
Definition is_u64 `{J : JsonNumber} (n : Number) : bool := match as_u64 n with Some _ => true | None => false end.

(** ** Decimal arithmetic on digit texts *)

(** One doubling, over digits from the least significant. *)
Fixpoint double_digits (carry : Z) (digits : list Z) : list Z :=
  match digits with
  | [] => if (0 <? carry)%Z then [carry] else []
  | d :: ds => let doubled := (d * 2 + carry)%Z in (doubled mod 10)%Z :: double_digits (doubled / 10)%Z ds
  end.

Definition decimal_power_of_two (bits : Z) : str :=
  map (fun d => (48 + d)%Z) (rev (Nat.iter (Z.to_nat bits) (double_digits 0) [1%Z])).

(** The loop of [decimal_subtract_one], over the characters from the last. *)
Fixpoint borrow_one (s : str) : str :=
  match s with
  | [] => []
  | d :: ds => if (48 <? d)%Z then (d - 1)%Z :: ds else 57%Z :: borrow_one ds
  end.

Definition decimal_subtract_one (value : str) : str := rev (borrow_one (rev value)).

Definition decimal_magnitude_exceeds (value max : str) : bool :=
  (length max <? length value)
  || ((length value =? length max) && match str_compare value max with Gt => true | _ => false end).

(** [trim_start_matches('0')]. *)
Fixpoint trim_zeros (s : str) : str :=
  match s with
  | c :: s' => if (c =? 48)%Z then trim_zeros s' else s
  | [] => []
  end.

(** [iter().map(f).collect::<Result<Vec<_>, _>>()] where [f] has effects. *)
Definition st_map {S E A B} (f : A -> ST S E B) : list A -> ST S E (list B) :=
  fix go l :=
    match l with
    | [] => mret []
    | x :: l' => y ← f x; ys ← go l'; mret (y :: ys)
    end.

Section values.
Context {J : JsonNumber} {V : ValueSerde}.

(** ** Error messages *)

(** The derived [Debug] of a type. *)
Definition debug_option (o : option str) : str :=
  match o with None => lit "None" | Some s => lit "Some(" ++ debug_str s ++ lit ")" end.
Definition debug_list (l : list str) : str := lit "[" ++ join (lit ", ") l ++ lit "]".

Fixpoint debug_type (t : ClickHouseType) : str :=
  match t with
  | ChInt signed bits =>
    lit "Int { signed: " ++ (if signed then lit "true" else lit "false") ++ lit ", bits: " ++ to_dec bits ++ lit " }"
  | ChFloat bits => lit "Float { bits: " ++ to_dec bits ++ lit " }"
  | ChDecimal storage_bits precision scale =>
    lit "Decimal { storage_bits: " ++ to_dec storage_bits ++ lit ", precision: " ++ to_dec precision
      ++ lit ", scale: " ++ to_dec scale ++ lit " }"
  | ChBool => lit "Bool"
  | ChString => lit "String"
  | ChFixedString len => lit "FixedString { length: " ++ to_dec len ++ lit " }"
  | ChDate => lit "Date"
  | ChDate32 => lit "Date32"
  | ChDateTime timezone => lit "DateTime { timezone: " ++ debug_option timezone ++ lit " }"
  | ChDateTime64 scale timezone =>
    lit "DateTime64 { scale: " ++ to_dec scale ++ lit ", timezone: " ++ debug_option timezone ++ lit " }"
  | ChUuid => lit "Uuid"
  | ChIpv4 => lit "Ipv4"
  | ChIpv6 => lit "Ipv6"
  | ChEnum bits variants =>
    lit "Enum { bits: " ++ to_dec bits ++ lit ", variants: "
      ++ debug_list (map (fun v => lit "(" ++ debug_str v.1 ++ lit ", " ++ to_dec v.2 ++ lit ")") variants) ++ lit " }"
  | ChNullable inner => lit "Nullable(" ++ debug_type inner ++ lit ")"
  | ChLowCardinality inner => lit "LowCardinality(" ++ debug_type inner ++ lit ")"
  | ChArray inner => lit "Array(" ++ debug_type inner ++ lit ")"
  | ChMap key value => lit "Map(" ++ debug_type key ++ lit ", " ++ debug_type value ++ lit ")"
  | ChTuple fields => lit "Tuple(" ++ debug_list (map debug_field fields) ++ lit ")"
  | ChNested fields => lit "Nested(" ++ debug_list (map debug_field fields) ++ lit ")"
  | ChJsonOrObject raw => lit "JsonOrObject { raw: " ++ debug_str raw ++ lit " }"
  | ChVariant alternatives => lit "Variant(" ++ debug_list (map debug_type alternatives) ++ lit ")"
  | ChUnknown raw => lit "Unknown { raw: " ++ debug_str raw ++ lit " }"
  end
with debug_field (f : TupleField) : str :=
  match f with
  | mkTupleField name ty => lit "TupleField { name: " ++ debug_option name ++ lit ", ty: " ++ debug_type ty ++ lit " }"
  end.

Definition value_error (ty : ClickHouseType) (reason : string) : IpcError :=
  mkIpcError ValidationFailed BusinessOnly (lit "ClickHouse returned a value that does not match its type")
    (Some (lit "type=" ++ debug_type ty ++ lit "; reason=" ++ lit reason)).

Definition value_limit_error (ty : ClickHouseType) (limit : string) (actual maximum : Z) : IpcError :=
  mkIpcError ValidationFailed BusinessOnly (lit "ClickHouse value exceeds the safe display limit")
    (Some (lit "type=" ++ debug_type ty ++ lit "; limit=" ++ lit limit ++ lit "; actual=" ++ to_dec actual
             ++ lit "; maximum=" ++ to_dec maximum)).

(** ** Scalars *)

Definition parse_integer_text (value : str) (signed : bool) (ty : ClickHouseType) : IpcResult (bool * str) :=
  let '(negative, digits) :=
    match strip_prefix [c_minus] value with
    | Some digits => (true, digits)
    | None => match strip_prefix [43%Z] value with Some digits => (false, digits) | None => (false, value) end
    end in
  if bool_decide (digits = []) || negb (all_digits digits) then Err (value_error ty "invalid decimal integer text")
  else if negative && negb signed then Err (value_error ty "unsigned integer cannot be negative")
  else
    let canonical := trim_zeros digits in
    let canonical := if bool_decide (canonical = []) then lit "0" else canonical in
    Ok (negative && negb (str_eqb canonical (lit "0")), canonical).

Definition validate_integer_range (negative : bool) (digits : str) (signed : bool) (bits : Z) (ty : ClickHouseType)
  : IpcResult unit :=
  let max :=
    if signed then
      if negative then decimal_power_of_two (bits - 1) else decimal_subtract_one (decimal_power_of_two (bits - 1))
    else decimal_subtract_one (decimal_power_of_two bits) in
  if decimal_magnitude_exceeds digits max then Err (value_error ty "integer is out of range") else Ok tt.

(** The text of the integer, for a string or a number that is an integer. *)
Definition integer_text (value : Value) : option str :=
  match value with
  | VString s => Some s
  | VNumber n => if is_i64 n || is_u64 n then Some (number_to_string n) else None
  | _ => None
  end.

Definition normalize_integer (value : Value) (signed : bool) (bits : Z) (ty : ClickHouseType) : IpcResult Value :=
  text ← ok_or (value_error ty "expected integer number or decimal text") (integer_text value);
  parsed ← parse_integer_text text signed ty;
  let '(negative, digits) := (parsed : bool * str) in
  _ ← validate_integer_range negative digits signed bits ty;
  match parse_uint U64_MAX digits with
  | Some magnitude =>
    if (magnitude <=? VALUE_JS_MAX_SAFE_INTEGER)%Z then
      Ok (VNumber (number_from (if negative then - magnitude else magnitude)%Z))
    else Ok (VString ((if negative then lit "-" else lit "") ++ digits))
  | None => Ok (VString ((if negative then lit "-" else lit "") ++ digits))
  end.

Definition normalize_float (value : Value) (ty : ClickHouseType) : IpcResult Value :=
  match value with
  | VNumber _ => Ok value
  | VString s =>
    let lower := str_lower s in
    if one_of lower ["nan"] then Ok (VString (lit "NaN"))
    else if one_of lower ["inf"; "+inf"; "infinity"; "+infinity"] then Ok (VString (lit "Inf"))
    else if one_of lower ["-inf"; "-infinity"] then Ok (VString (lit "-Inf"))
    else
      parsed ← ok_or (value_error ty "invalid floating-point text") (parse_f64 s ≫= number_from_f64);
      Ok (VNumber parsed)
  | _ => Err (value_error ty "expected floating-point number")
  end.

Definition is_plain_decimal (value : str) : bool :=
  let value := match strip_prefix [c_minus] value with
               | Some r => r
               | None => match strip_prefix [43%Z] value with Some r => r | None => value end
               end in
  match split_char c_dot value with
  | [whole] => all_digits whole && negb (bool_decide (whole = []))
  | [whole; part] =>
    all_digits whole && negb (bool_decide (whole = [])) && (negb (bool_decide (part = [])) && all_digits part)
  | _ => false
  end.

Definition normalize_decimal (value : Value) (ty : ClickHouseType) : IpcResult Value :=
  match ty with
  | ChDecimal _ _ scale =>
    text ← ok_or (value_error ty "expected decimal text")
             (match value with VString s => Some s | VNumber n => Some (number_to_string n) | _ => None end);
    if negb (is_plain_decimal text) then Err (value_error ty "invalid decimal text")
    else
      let '(sign, unsigned) :=
        match strip_prefix [c_minus] text with
        | Some r => (lit "-", r)
        | None => match strip_prefix [43%Z] text with Some r => (lit "+", r) | None => ([], text) end
        end in
      let '(whole, fractional) :=
        match split_at_first [c_dot] unsigned with Some (w, f) => (w, f) | None => (unsigned, []) end in
      if (scale <? Z.of_nat (length fractional))%Z then Err (value_error ty "decimal fraction exceeds its declared scale")
      else if (scale =? 0)%Z then Ok (VString (sign ++ whole))
      else Ok (VString (sign ++ whole ++ [c_dot] ++ fractional
                          ++ repeat 48%Z (Z.to_nat (scale - Z.of_nat (length fractional)))))
  | _ => Err (value_error ty "expected Decimal type metadata")
  end.

(** ** Structured values *)

Section walk.
Context (budget : ValueBudget).

Abbreviation Walk A := (ST Z IpcError A).

(** [BudgetState::enter]; the state is the number of nodes entered. *)
Definition enter (depth : Z) (ty : ClickHouseType) : Walk unit := fun nodes =>
  if (max_depth budget <? depth)%Z then (Err (value_limit_error ty "depth" depth (max_depth budget)), nodes)
  else
    let nodes := saturating_add U64_MAX nodes 1 in
    if (max_nodes budget <? nodes)%Z then (Err (value_limit_error ty "nodes" nodes (max_nodes budget)), nodes)
    else (Ok tt, nodes).

Definition tuple_output (fields : list TupleField) (values : list Value) : Value :=
  let names := omap tf_name fields in
  let unique_names := remove_dups names in
  if (length names =? length fields) && (length unique_names =? length fields)
  then VObject (map_collect (zip names values))
  else VArray values.

Fixpoint normalize_untyped (ty : ClickHouseType) (value : Value) (depth : Z) : Walk Value :=
  match value with
  | VArray values =>
    l ← st_map (fun v => _ ← enter (depth + 1) ty; normalize_untyped ty v (depth + 1)) values;
    mret (VArray l)
  | VObject values =>
    l ← st_map (fun e : str * Value => let '(key, v) := e in
          _ ← enter (depth + 1) ty; v' ← normalize_untyped ty v (depth + 1); mret (key, v')) values;
    mret (VObject (map_collect l))
  | _ => mret value
  end.

Definition map_entries (value : Value) (ty : ClickHouseType) : IpcResult (list (Value * Value)) :=
  match value with
  | VObject entries => Ok (map (fun e => (VString e.1, e.2)) entries)
  | VArray entries =>
    try_map (fun entry => match entry with
      | VArray [key; value] => Ok (key, value)
      | _ => Err (value_error ty "map entries must be key/value pairs")
      end) entries
  | _ => Err (value_error ty "expected map object or pair array")
  end.

(** The cases of [normalize_inner] over the function itself, [inner ty value depth]. *)
Section compound.
Context (inner : ClickHouseType -> Value -> Z -> Walk Value).

Definition normalize_map (key_type value_type : ClickHouseType) (value : Value) (depth : Z) (ty : ClickHouseType)
  : Walk Value :=
  entries ← st_lift (map_entries value ty);
  l ← st_map (fun e : Value * Value =>
        k ← inner key_type e.1 (depth + 1)%Z;
        v ← inner value_type e.2 (depth + 1)%Z;
        mret (VArray [k; v])) entries;
  mret (VArray l).

Fixpoint named_values (fields : list TupleField) (values : list (str * Value)) (depth : Z) (ty : ClickHouseType)
  : Walk (list Value) :=
  match fields with
  | [] => mret []
  | mkTupleField name fty :: fields' =>
    removed ← st_lift (ok_or (value_error ty "tuple field is missing") (map_remove (default [] name) values));
    let '(value, values) := (removed : Value * list (str * Value)) in
    v ← inner fty value (depth + 1)%Z;
    vs ← named_values fields' values depth ty;
    mret (v :: vs)
  end.

Definition normalize_tuple (fields : list TupleField) (value : Value) (depth : Z) (ty : ClickHouseType) : Walk Value :=
  match value with
  | VArray values =>
    if negb (length values =? length fields) then st_lift (Err (value_error ty "tuple width does not match its type"))
    else
      normalized ← st_map (fun p : TupleField * Value => inner (tf_ty p.1) p.2 (depth + 1)%Z) (zip fields values);
      mret (tuple_output fields normalized)
  | VObject values =>
    if forallb (fun f => match tf_name f with Some _ => true | None => false end) fields then
      if negb (length values =? length fields) then st_lift (Err (value_error ty "tuple width does not match its type"))
      else
        normalized ← named_values fields values depth ty;
        mret (tuple_output fields normalized)
    else st_lift (Err (value_error ty "expected tuple array"))
  | _ => st_lift (Err (value_error ty "expected tuple array"))
  end.

Fixpoint nested_values (fields : list TupleField) (values normalized : list (str * Value)) (depth : Z)
    (ty : ClickHouseType) : Walk (list (str * Value)) :=
  match fields with
  | [] => mret normalized
  | mkTupleField name fty :: fields' =>
    name ← st_lift (ok_or (value_error ty "Nested fields must be named") name);
    removed ← st_lift (ok_or (value_error ty "Nested field is missing") (map_remove name values));
    let '(value, values) := (removed : Value * list (str * Value)) in
    v ← inner (ChArray fty) value (depth + 1)%Z;
    nested_values fields' values (map_insert name v normalized) depth ty
  end.

Definition normalize_nested (fields : list TupleField) (value : Value) (depth : Z) (ty : ClickHouseType) : Walk Value :=
  match value with
  | VObject values =>
    if negb (length values =? length fields) then
      st_lift (Err (value_error ty "Nested field count does not match its type"))
    else
      normalized ← nested_values fields values [] depth ty;
      mret (VObject normalized)
  | VArray values =>
    l ← st_map (fun v => inner (ChTuple fields) v (depth + 1)%Z) values;
    mret (VArray l)
  | _ => st_lift (Err (value_error ty "expected Nested object or tuple array"))
  end.

Definition normalize_body (ty : ClickHouseType) (value : Value) (depth : Z) : Walk Value :=
  _ ← enter depth ty;
  match ty with
  | ChNullable t => match value with VNull => mret VNull | _ => inner t value (depth + 1)%Z end
  | ChLowCardinality t => inner t value (depth + 1)%Z
  | ChInt signed bits => st_lift (normalize_integer value signed bits ty)
  | ChFloat _ => st_lift (normalize_float value ty)
  | ChDecimal _ _ _ => st_lift (normalize_decimal value ty)
  | ChBool => match value with VBool _ => mret value | _ => st_lift (Err (value_error ty "expected boolean")) end
  | ChString | ChFixedString _ | ChDate | ChDate32 | ChDateTime _ | ChDateTime64 _ _ | ChUuid | ChIpv4 | ChIpv6
  | ChEnum _ _ => match value with VString _ => mret value | _ => st_lift (Err (value_error ty "expected string")) end
  | ChArray t =>
    match value with
    | VArray values => l ← st_map (fun v => inner t v (depth + 1)%Z) values; mret (VArray l)
    | _ => st_lift (Err (value_error ty "expected array"))
    end
  | ChMap key_type value_type => normalize_map key_type value_type value depth ty
  | ChTuple fields => normalize_tuple fields value depth ty
  | ChNested fields => normalize_nested fields value depth ty
  | ChJsonOrObject _ | ChVariant _ | ChUnknown _ => normalize_untyped ty value depth
  end.
End compound.

Definition walk_fuel_error : IpcError := system_internal (lit "out of fuel") [].

(** Every call is one deeper than its caller, and [enter] refuses a depth over the
    maximum: two calls more than that suffice. *)
Fixpoint normalize_inner (fuel : nat) (ty : ClickHouseType) (value : Value) (depth : Z) : Walk Value :=
  match fuel with
  | O => st_lift (Err walk_fuel_error)
  | S n => normalize_body (normalize_inner n) ty value depth
  end.

Definition normalize_value (ty : ClickHouseType) (value : Value) : IpcResult Value :=
  normalized ← (normalize_inner (S (S (Z.to_nat (max_depth budget)))) ty value 0 0%Z).1;
  match to_vec normalized with
  | Err error =>
    Err (system_internal (lit "ClickHouse value serialization failed")
           (lit "type=" ++ debug_type ty ++ lit "; error=" ++ error))
  | Ok serialized_bytes =>
    if (max_serialized_bytes budget <? Z.of_nat (length serialized_bytes))%Z then
      Err (value_limit_error ty "serialized_bytes" (Z.of_nat (length serialized_bytes)) (max_serialized_bytes budget))
    else Ok normalized
  end.
End walk.
End values.

(** ** Integers *)

(** Comparing digit texts by length and then by character compares the numbers. *)
Lemma str_compare_digits a b :
  all_digits a = true -> all_digits b = true -> length a = length b ->
  str_compare a b = (digits_value a ?= digits_value b)%Z.
Proof.
  revert b. induction a as [|c a IH]; intros [|d b]; try done. rewrite !all_digits_cons, !digits_value_cons.
  intros [Hc%is_ascii_digit_range Ha]%andb_true_iff [Hd%is_ascii_digit_range Hb]%andb_true_iff [= Hl].
  cbn [str_compare]. rewrite Hl. pose proof (digits_value_bounds a Ha) as Ba. pose proof (digits_value_bounds b Hb) as Bb.
  rewrite Hl in Ba. set (p := (10 ^ Z.of_nat (length b))%Z) in *.
  destruct (Z.compare_spec c d) as [-> |Hlt|Hgt].
  - rewrite IH by done. symmetry. apply Z.add_compare_mono_l.
  - symmetry. apply Z.compare_lt_iff. nia.
  - symmetry. apply Z.compare_gt_iff. nia.
Qed.

Lemma magnitude_exceeds_spec n ds m es :
  renders n ds -> renders m es -> decimal_magnitude_exceeds ds es = (m <? n)%Z.
Proof.
  intros Hn Hm. unfold decimal_magnitude_exceeds.
  destruct (lt_eq_lt_dec (length ds) (length es)) as [[Hl|Hl]|Hl].
  - pose proof (renders_length _ _ _ _ Hn Hm Hl). destruct (Nat.ltb_spec (length es) (length ds)); [lia|].
    destruct (Nat.eqb_spec (length ds) (length es)); [lia|]. simpl. lia.
  - rewrite Hl, Nat.ltb_irrefl, Nat.eqb_refl. cbn [orb andb].
    rewrite str_compare_digits by (done || apply Hn || apply Hm). rewrite (rn_value _ _ Hn), (rn_value _ _ Hm).
    rewrite Z.ltb_compare, (Z.compare_antisym n m). by destruct (n ?= m)%Z.
  - pose proof (renders_length _ _ _ _ Hm Hn Hl). destruct (Nat.ltb_spec (length es) (length ds)); [|lia]. simpl. lia.
Qed.

(** The decimal limits of every width, as the source computes them. *)
Lemma limits_shown bits :
  In bits integer_bits ->
  decimal_power_of_two (bits - 1) = nat_to_dec (2 ^ (bits - 1)) /\
  decimal_subtract_one (decimal_power_of_two (bits - 1)) = nat_to_dec (2 ^ (bits - 1) - 1) /\
  decimal_subtract_one (decimal_power_of_two bits) = nat_to_dec (2 ^ bits - 1).
Proof. intros [<-|[<-|[<-|[<-|[<-|[<-|[]]]]]]]; split_and!; vm_compute; reflexivity. Qed.

Definition in_range (signed : bool) (bits n : Z) : Prop :=
  if signed then (- 2 ^ (bits - 1) <= n <= 2 ^ (bits - 1) - 1)%Z else (0 <= n <= 2 ^ bits - 1)%Z.

(** The integer a text stands for: an optional sign and digits. *)
Definition sign_and_digits (s : str) : bool * str :=
  match strip_prefix [c_minus] s with
  | Some digits => (true, digits)
  | None => match strip_prefix [43%Z] s with Some digits => (false, digits) | None => (false, s) end
  end.

Definition integer_value (s : str) : option Z :=
  let '(negative, digits) := sign_and_digits s in
  if bool_decide (digits <> []) && all_digits digits
  then Some (if negative then - digits_value digits else digits_value digits)%Z else None.

Lemma trim_zeros_spec s :
  all_digits s = true -> all_digits (trim_zeros s) = true /\ digits_value (trim_zeros s) = digits_value s /\
  match trim_zeros s with [] => digits_value s = 0%Z | c :: _ => c <> 48%Z end.
Proof.
  induction s as [|c s IH]; [done|]. rewrite all_digits_cons. intros [Hc Hs]%andb_true_iff. cbn [trim_zeros].
  destruct (Z.eqb_spec c 48) as [-> |Hne].
  - rewrite digits_value_cons. destruct (IH Hs) as (? & ? & ?). split_and!; [done|lia|]. case_match; [lia|done].
  - by rewrite all_digits_cons, Hc, Hs.
Qed.

Lemma canonical_digits s :
  all_digits s = true ->
  renders (digits_value s) (if bool_decide (trim_zeros s = []) then lit "0" else trim_zeros s).
Proof.
  intros Hs. destruct (trim_zeros_spec s Hs) as (Hd & Hv & Hc). destruct (trim_zeros s) as [|c r] eqn:E.
  - rewrite bool_decide_true, Hc by done. apply (nat_to_dec_spec 0). lia.
  - rewrite bool_decide_false by done. split; [done|done|]. exists c, r. split_and!; [done|done|]. intros Hz.
    rewrite all_digits_cons in Hd. apply andb_true_iff in Hd as [Hc'%is_ascii_digit_range Hr%digits_value_bounds].
    rewrite digits_value_cons in Hv. assert (1 <= 10 ^ Z.of_nat (length r))%Z by (pose proof (Z.pow_pos_nonneg 10 (Z.of_nat (length r))); lia).
    nia.
Qed.

Lemma renders_zero n ds : renders n ds -> str_eqb ds (lit "0") = (n =? 0)%Z.
Proof.
  intros H. unfold str_eqb. destruct (Z.eqb_spec n 0) as [-> |Hn].
  - apply bool_decide_true. destruct H as [_ _ (c & r & _ & _ & E)]. by apply E.
  - apply bool_decide_false. intros ->. destruct H as [_ Hv _]. by rewrite <-Hv in Hn.
Qed.

Section integers.
Context {J : JsonNumber} {V : ValueSerde}.

(** How an integer is delivered: a number where JavaScript holds it exactly, its
    canonical decimal text elsewhere. *)
Definition shown_integer (n : Z) : Value :=
  if (Z.abs n <=? VALUE_JS_MAX_SAFE_INTEGER)%Z then VNumber (number_from n) else VString (to_dec n).

Lemma parse_integer_text_spec s signed ty negative digits :
  parse_integer_text s signed ty = Ok (negative, digits) <->
  exists n, integer_value s = Some n /\ ((sign_and_digits s).1 = true -> signed = true) /\
    renders (Z.abs n) digits /\ negative = (n <? 0)%Z.
Proof.
  unfold parse_integer_text, integer_value. fold (sign_and_digits s). destruct (sign_and_digits s) as [neg ds].
  cbn [fst]. destruct (bool_decide (ds = [])) eqn:He; breflect.
  - subst ds. split; [done|]. by intros (n & ? & _).
  - rewrite (bool_decide_true (ds <> [])) by done. cbn [orb andb]. destruct (all_digits ds) eqn:Hd; cbn [negb].
    2: { split; [done|]. by intros (n & ? & _). }
    pose proof (canonical_digits ds Hd) as Hr. pose proof (digits_value_bounds ds Hd) as [Hb _].
    set (canonical := if bool_decide (trim_zeros ds = []) then lit "0" else trim_zeros ds) in *.
    destruct neg; cbn [andb].
    + destruct signed; cbn [negb]; [|by split; [done|]; intros (n & _ & Hs & _); specialize (Hs eq_refl)].
      rewrite (renders_zero _ _ Hr). split.
      * intros [= <- <-]. eexists. split_and!; [done..| |]; [by rewrite Z.abs_opp, Z.abs_eq by done|lia].
      * intros (n & [= <-] & _ & Hn & ->). rewrite Z.abs_opp, Z.abs_eq in Hn by done.
        rewrite (renders_unique _ _ _ Hr Hn). do 2 f_equal. lia.
    + split.
      * intros [= <- <-]. eexists. split_and!; [done..| |]; [by rewrite Z.abs_eq by done|lia].
      * intros (n & [= <-] & _ & Hn & ->). rewrite Z.abs_eq in Hn by done.
        rewrite (renders_unique _ _ _ Hr Hn). do 2 f_equal. lia.
Qed.

Lemma validate_integer_range_spec n digits signed bits ty :
  In bits integer_bits -> renders (Z.abs n) digits -> (signed = false -> 0 <= n)%Z ->
  validate_integer_range (n <? 0)%Z digits signed bits ty = Ok tt <-> in_range signed bits n.
Proof.
  intros Hb Hn Hs. destruct (limits_shown bits Hb) as (L1 & L2 & L3). unfold validate_integer_range, in_range.
  rewrite L2, L3, L1. assert (Hp : (1 <= bits)%Z) by (clear -Hb; repeat destruct Hb as [<-|Hb]; done).
  pose proof (Z.pow_pos_nonneg 2 bits ltac:(lia) ltac:(lia)). pose proof (Z.pow_pos_nonneg 2 (bits - 1) ltac:(lia) ltac:(lia)).
  assert (Hx : forall m, (0 <= m)%Z -> decimal_magnitude_exceeds digits (nat_to_dec m) = (m <? Z.abs n)%Z)
    by (intros m Hm; by apply magnitude_exceeds_spec; [|apply nat_to_dec_spec]).
  destruct signed; [destruct (Z.ltb_spec n 0)|specialize (Hs eq_refl)]; rewrite Hx by lia;
    match goal with |- context [(?a <? ?b)%Z] => destruct (Z.ltb_spec a b) end; split; (done || lia).
Qed.

Lemma shown_integer_text n digits :
  renders (Z.abs n) digits ->
  match parse_uint U64_MAX digits with
  | Some magnitude =>
    if (magnitude <=? VALUE_JS_MAX_SAFE_INTEGER)%Z then
      Ok (VNumber (number_from (if (n <? 0)%Z then - magnitude else magnitude)%Z))
    else Ok (VString ((if (n <? 0)%Z then lit "-" else lit "") ++ digits))
  | None => Ok (VString ((if (n <? 0)%Z then lit "-" else lit "") ++ digits))
  end = (Ok (shown_integer n) : IpcResult Value).
Proof.
  intros Hn. assert (Htext : (if (n <? 0)%Z then lit "-" else lit "") ++ digits = to_dec n).
  { unfold to_dec. destruct (Z.ltb_spec n 0); [rewrite (Z.abs_neq n) in Hn by lia|rewrite (Z.abs_eq n) in Hn by lia];
      by rewrite (renders_nat_to_dec _ _ Hn). }
  rewrite Htext. unfold shown_integer, parse_uint.
  replace (strip_prefix [43%Z] digits) with (@None str).
  2: { destruct Hn as [Hd _ (c & r & -> & _)]. cbn [strip_prefix]. rewrite all_digits_cons in Hd.
       apply andb_true_iff in Hd as [Hc%is_ascii_digit_range _]. by destruct (Z.eqb_spec 43 c); [lia|]. }
  rewrite (rn_digits _ _ Hn), (rn_value _ _ Hn), bool_decide_true by (destruct Hn as [_ _ (? & ? & -> & _)]; done).
  cbn [andb]. unfold U64_MAX, VALUE_JS_MAX_SAFE_INTEGER. destruct (Z.leb_spec (Z.abs n) 9007199254740991).
  - destruct (Z.leb_spec (Z.abs n) 18446744073709551615); [|lia].
    destruct (Z.leb_spec (Z.abs n) 9007199254740991); [|lia]. do 3 f_equal. destruct (Z.ltb_spec n 0); lia.
  - destruct (Z.leb_spec (Z.abs n) 18446744073709551615); [|done].
    by destruct (Z.leb_spec (Z.abs n) 9007199254740991); [lia|].
Qed.

(** Integers of every width from 8 to 256 bits are checked exactly and delivered
    losslessly: a value is accepted precisely when its text is an optional sign and
    digits (no minus sign for an unsigned type) whose number is in the range of the
    type, and the result is that number if JavaScript can hold it and its canonical
    decimal text otherwise. *)
Theorem normalize_integer_spec value signed bits ty w :
  In bits integer_bits ->
  normalize_integer value signed bits ty = Ok w <->
  exists text n, integer_text value = Some text /\ integer_value text = Some n /\
    ((sign_and_digits text).1 = true -> signed = true) /\ in_range signed bits n /\ w = shown_integer n.
Proof.
  intros Hb. unfold normalize_integer. destruct (integer_text value) as [text|]; cbn [ok_or mbind Result_bind].
  2: { split; [done|]. by intros (? & ? & ? & _). }
  assert (Hnn : forall n, integer_value text = Some n -> ((sign_and_digits text).1 = true -> signed = true) ->
    signed = false -> (0 <= n)%Z).
  { intros n Hi Hs ->. unfold integer_value in Hi. destruct (sign_and_digits text) as [[] ds]; [by specialize (Hs eq_refl)|].
    destruct (all_digits ds) eqn:Hd; [|by rewrite andb_false_r in Hi]. destruct (bool_decide _); [|done].
    injection Hi as <-. by apply digits_value_bounds. }
  destruct (parse_integer_text text signed ty) as [[negative digits]|e] eqn:Hp; cbn [mbind Result_bind].
  - apply parse_integer_text_spec in Hp as (n & Hi & Hs & Hr & ->).
    pose proof (validate_integer_range_spec n digits signed bits ty Hb Hr (Hnn n Hi Hs)) as Hv.
    destruct (validate_integer_range _ _ _ _ _) as [[]|e]; cbn [mbind Result_bind].
    + rewrite (shown_integer_text n digits Hr). split.
      * intros [= <-]. exists text, n. split_and!; try done. by apply Hv.
      * intros (text' & n' & [= <-] & Hi' & _ & _ & ->). by simplify_eq.
    + split; [done|]. intros (text' & n' & [= <-] & Hi' & _ & Hr' & ->). simplify_eq. by apply Hv in Hr'.
  - split; [done|]. intros (text' & n & [= <-] & Hi & Hs & _).
    assert (Hex : parse_integer_text text signed ty = Ok ((n <? 0)%Z, nat_to_dec (Z.abs n))).
    { apply parse_integer_text_spec. exists n. split_and!; try done. apply nat_to_dec_spec. lia. }
    by rewrite Hex in Hp.
Qed.
End integers.

(** ** Decimals *)

Definition strip_sign (s : str) : str * str :=
  match strip_prefix [c_minus] s with
  | Some r => (lit "-", r)
  | None => match strip_prefix [43%Z] s with Some r => (lit "+", r) | None => ([], s) end
  end.

Definition nonempty_digits (s : str) : bool := all_digits s && negb (bool_decide (s = [])).

(** The number a decimal text stands for: its digits as one integer, and how many of
    them follow the point. *)
Definition decimal_number (s : str) : option (Z * nat) :=
  let '(sign, unsigned) := strip_sign s in
  let signed n := if str_eqb sign (lit "-") then (- n)%Z else n in
  match split_char c_dot unsigned with
  | [whole] => if nonempty_digits whole then Some (signed (digits_value whole), 0) else None
  | [whole; part] =>
    if nonempty_digits whole && nonempty_digits part then Some (signed (digits_value (whole ++ part)), length part) else None
  | _ => None
  end.

Lemma split_char_once c s :
  split_char c s = match split_at_first [c] s with None => [s] | Some (a, b) => a :: split_char c b end.
Proof.
  induction s as [|x s IH]; [done|]. cbn [split_char split_at_first strip_prefix]. rewrite (Z.eqb_sym x c).
  destruct (c =? x)%Z; [done|]. rewrite IH. destruct (split_at_first [c] s) as [[a b]|]; done.
Qed.

Lemma split_char_digits s : all_digits s = true -> split_char c_dot s = [s].
Proof.
  induction s as [|c s IH]; [done|]. rewrite all_digits_cons. intros [Hc%is_ascii_digit_range Hs]%andb_true_iff.
  cbn [split_char]. destruct (Z.eqb_spec c c_dot); [lia|]. by rewrite IH.
Qed.

Lemma split_char_digits_dot s r : all_digits s = true -> split_char c_dot (s ++ c_dot :: r) = s :: split_char c_dot r.
Proof.
  induction s as [|c s IH]; [done|]. rewrite all_digits_cons. intros [Hc%is_ascii_digit_range Hs]%andb_true_iff.
  cbn [app split_char]. destruct (Z.eqb_spec c c_dot); [lia|]. by rewrite IH.
Qed.

Lemma strip_sign_again s sign u whole r :
  strip_sign s = (sign, u) -> nonempty_digits whole = true -> strip_sign (sign ++ whole ++ r) = (sign, whole ++ r).
Proof.
  intros Hs Hw. unfold nonempty_digits in Hw. breflect. destruct whole as [|c w]; [done|].
  assert (Hc : (0 <= c - 48 <= 9)%Z) by (rewrite all_digits_cons in H; breflect; by apply is_ascii_digit_range).
  assert (sign = lit "-" \/ sign = lit "+" \/ sign = []) as [-> | [-> | ->]]; [|done..|].
  - unfold strip_sign in Hs. repeat case_match; simplify_eq; auto.
  - unfold strip_sign. cbn [app strip_prefix]. destruct (Z.eqb_spec c_minus c); [lia|]. by destruct (Z.eqb_spec 43 c); [lia|].
Qed.

Lemma zeros_spec n : all_digits (repeat 48%Z n) = true /\ digits_value (repeat 48%Z n) = 0%Z.
Proof. induction n as [|n [IH1 IH2]]; [done|]. cbn [repeat]. rewrite all_digits_cons, digits_value_cons. split; [done|lia]. Qed.

Section decimals.
Context {J : JsonNumber} {V : ValueSerde}.

Definition decimal_text (value : Value) : option str :=
  match value with VString s => Some s | VNumber n => Some (number_to_string n) | _ => None end.

Lemma is_plain_decimal_spec s :
  is_plain_decimal s = match decimal_number s with Some _ => true | None => false end.
Proof.
  unfold is_plain_decimal, decimal_number, strip_sign, nonempty_digits.
  destruct (strip_prefix [c_minus] s) as [r|]; [|destruct (strip_prefix [43%Z] s) as [r|]];
    (destruct (split_char c_dot _) as [|w [|p [|]]]; [done| | |done];
     [by destruct (_ && _)|];
     destruct (all_digits w && _); [|done]; cbn [andb]; rewrite (andb_comm (all_digits p)); by destruct (_ && _)).
Qed.

Lemma padded_number sign u s whole part k :
  strip_sign s = (sign, u) -> nonempty_digits whole = true -> all_digits part = true -> (0 < k)%nat -> length part <= k ->
  decimal_number (sign ++ whole ++ [c_dot] ++ part ++ repeat 48%Z (k - length part))
  = Some ((if str_eqb sign (lit "-") then - (digits_value (whole ++ part) * 10 ^ Z.of_nat (k - length part))
           else digits_value (whole ++ part) * 10 ^ Z.of_nat (k - length part))%Z, k).
Proof.
  intros Hs Hw Hp Hk Hl. pose proof (zeros_spec (k - length part)) as [Hz1 Hz2]. unfold decimal_number.
  rewrite (strip_sign_again _ _ _ _ _ Hs Hw). cbn [app].
  assert (all_digits whole = true) as Hwd by (unfold nonempty_digits in Hw; by breflect).
  rewrite split_char_digits_dot by done. rewrite split_char_digits by (rewrite all_digits_app, Hp; done).
  rewrite Hw. unfold nonempty_digits at 1. rewrite all_digits_app, Hp, Hz1.
  rewrite bool_decide_false by (intros [-> H]%app_eq_nil; apply (f_equal length) in H; rewrite repeat_length in H;
    simpl in *; lia).
  cbn [andb negb]. rewrite length_app, repeat_length, (app_assoc whole), digits_value_app, Hz2, repeat_length.
  f_equal. f_equal; [|lia]. rewrite Z.add_0_r. by destruct (str_eqb _ _).
Qed.

(** Decimals keep their value and get their full scale: a text is accepted precisely
    when it is a plain decimal number with at most as many digits after the point as the
    type declares, and the result stands for the same number with exactly that many. *)
Theorem normalize_decimal_spec value storage_bits precision scale :
  (0 <= scale)%Z ->
  match decimal_text value ≫= decimal_number with
  | Some (m, k) =>
    if (Z.of_nat k <=? scale)%Z then
      exists t, normalize_decimal value (ChDecimal storage_bits precision scale) = Ok (VString t) /\
        decimal_number t = Some ((m * 10 ^ (scale - Z.of_nat k))%Z, Z.to_nat scale)
    else exists e, normalize_decimal value (ChDecimal storage_bits precision scale) = Err e
  | None => exists e, normalize_decimal value (ChDecimal storage_bits precision scale) = Err e
  end.
Proof.
  intros Hscale. unfold normalize_decimal. fold (decimal_text value).
  destruct (decimal_text value) as [text|]; cbn [ok_or mbind option_bind Result_bind]; [|by eexists].
  rewrite is_plain_decimal_spec. destruct (decimal_number text) as [[m k]|] eqn:Hd; cbn [negb]; [|by eexists].
  fold (strip_sign text). unfold decimal_number in Hd. destruct (strip_sign text) as [sign u] eqn:Hs.
  rewrite split_char_once in Hd. destruct (split_at_first [c_dot] u) as [[whole part]|].
  - destruct (split_char c_dot part) as [|p [|]] eqn:Hsp; [by rewrite split_char_once in Hsp; destruct (split_at_first _ part) as [[]|]| |done].
    assert (p = part) as ->.
    { rewrite split_char_once in Hsp. destruct (split_at_first [c_dot] part) as [[a b]|]; [|by injection Hsp as <-].
      injection Hsp as _ Hsp. rewrite split_char_once in Hsp. by destruct (split_at_first _ b) as [[]|]. }
    destruct (nonempty_digits whole) eqn:Hw; [|done]. destruct (nonempty_digits part) eqn:Hp; [|done].
    injection Hd as Hm <-. unfold nonempty_digits in Hp. breflect.
    destruct (Z.ltb_spec scale (Z.of_nat (length part))); [destruct (Z.leb_spec (Z.of_nat (length part)) scale); [lia|by eexists]|].
    destruct (Z.leb_spec (Z.of_nat (length part)) scale); [|lia]. destruct part as [|c part]; [done|].
    destruct (Z.eqb_spec scale 0) as [-> |]; [simpl in *; lia|]. eexists. split; [done|].
    replace (Z.to_nat (scale - Z.of_nat (length (c :: part)))) with (Z.to_nat scale - length (c :: part)) by lia.
    rewrite (padded_number _ _ _ _ _ (Z.to_nat scale) Hs Hw) by (done || simpl in *; lia).
    rewrite Nat2Z.inj_sub, Z2Nat.id by lia. rewrite <-Hm. by destruct (str_eqb sign _); rewrite ?Z.mul_opp_l.
  - destruct (nonempty_digits u) eqn:Hw; [|done]. injection Hd as Hm <-. cbn [length]. change (Z.of_nat 0) with 0%Z.
    destruct (Z.ltb_spec scale 0); [lia|]. destruct (Z.leb_spec 0 scale); [|lia]. rewrite Z.sub_0_r.
    destruct (Z.eqb_spec scale 0) as [-> |].
    + eexists. split; [done|]. rewrite <-(app_nil_r u). unfold decimal_number.
      rewrite (strip_sign_again _ _ _ _ _ Hs Hw), app_nil_r.
      rewrite split_char_digits by (unfold nonempty_digits in Hw; by breflect). rewrite Hw, Hm. f_equal. f_equal. lia.
    + eexists. split; [done|]. pose proof (padded_number _ _ _ _ [] (Z.to_nat scale) Hs Hw eq_refl ltac:(lia) ltac:(simpl; lia)) as Hn.
      cbn [length app] in Hn. rewrite Nat.sub_0_r, app_nil_r in Hn. cbn [app]. rewrite Hn, Z2Nat.id, <-Hm by lia.
      by destruct (str_eqb sign _); rewrite ?Z.mul_opp_l.
Qed.
End decimals.

(** ** The shape and the size of what is delivered *)

Section shapes.
Context {J : JsonNumber} {V : ValueSerde}.

(** Types whose values are delivered as the text the server sent. *)
Definition text_type (t : ClickHouseType) : bool :=
  match t with
  | ChString | ChFixedString _ | ChDate | ChDate32 | ChDateTime _ | ChDateTime64 _ _ | ChUuid | ChIpv4 | ChIpv6
  | ChEnum _ _ => true
  | _ => false
  end.

Definition untyped (t : ClickHouseType) : bool :=
  match t with ChJsonOrObject _ | ChVariant _ | ChUnknown _ => true | _ => false end.

(** Every field has a name of its own. *)
Definition object_fields (fields : list TupleField) : bool :=
  (length (omap tf_name fields) =? length fields) && (length (remove_dups (omap tf_name fields)) =? length fields).

(** The values of a type as they are delivered. *)
Inductive shape : ClickHouseType -> Value -> Prop :=
| sh_null t : shape (ChNullable t) VNull
| sh_nullable t v : shape t v -> shape (ChNullable t) v
| sh_low_cardinality t v : shape t v -> shape (ChLowCardinality t) v
| sh_int signed bits n : in_range signed bits n -> shape (ChInt signed bits) (shown_integer n)
| sh_float bits n : shape (ChFloat bits) (VNumber n)
| sh_float_text bits s : one_of s ["NaN"; "Inf"; "-Inf"] = true -> shape (ChFloat bits) (VString s)
| sh_decimal storage_bits precision scale s m :
    decimal_number s = Some (m, Z.to_nat scale) -> shape (ChDecimal storage_bits precision scale) (VString s)
| sh_bool b : shape ChBool (VBool b)
| sh_text t s : text_type t = true -> shape t (VString s)
| sh_array t l : Forall (shape t) l -> shape (ChArray t) (VArray l)
| sh_map k v l : Forall (fun e => exists x y, e = VArray [x; y] /\ shape k x /\ shape v y) l -> shape (ChMap k v) (VArray l)
| sh_tuple_object fields l :
    object_fields fields = true -> Forall2 (fun f v => shape (tf_ty f) v) fields l ->
    shape (ChTuple fields) (VObject (map_collect (zip (omap tf_name fields) l)))
| sh_tuple_array fields l :
    object_fields fields = false -> Forall2 (fun f v => shape (tf_ty f) v) fields l -> shape (ChTuple fields) (VArray l)
| sh_nested_columns fields l :
    Forall is_named fields -> Forall2 (fun f v => shape (ChArray (tf_ty f)) v) fields l ->
    shape (ChNested fields) (VObject (map_collect (zip (omap tf_name fields) l)))
| sh_nested_rows fields l : Forall (shape (ChTuple fields)) l -> shape (ChNested fields) (VArray l)
| sh_untyped t v : untyped t = true -> shape t v.

(** Nodes and nesting of a JSON value. *)
Fixpoint value_nodes (v : Value) : Z :=
  match v with
  | VArray l => 1 + fold_right Z.add 0 (map value_nodes l)
  | VObject m => 1 + fold_right Z.add 0 (map (fun e => value_nodes e.2) m)
  | _ => 1
  end%Z.

Fixpoint value_depth (v : Value) : Z :=
  match v with
  | VArray l => 1 + fold_right Z.max 0 (map value_depth l)
  | VObject m => 1 + fold_right Z.max 0 (map (fun e => value_depth e.2) m)
  | _ => 0
  end%Z.

Definition total_nodes (l : list Value) : Z := fold_right Z.add 0%Z (map value_nodes l).
Definition depth_at_most (d : Z) (l : list Value) : Prop := Forall (fun v => value_depth v <= d)%Z l.


(** Induction over a value and its parts. *)
Lemma Value_parts_ind (P : Value -> Prop) :
  (forall v, match v with VArray _ | VObject _ => False | _ => True end -> P v) ->
  (forall l, Forall P l -> P (VArray l)) -> (forall m, Forall (fun e => P e.2) m -> P (VObject m)) -> forall v, P v.
Proof.
  intros Hs Ha Ho. fix IH 1. intros [|b|x|s|l|m]; [by apply Hs..| |].
  - apply Ha. revert l. fix IHl 1. intros [|v l]; constructor; [apply IH|apply IHl].
  - apply Ho. revert m. fix IHm 1. intros [|[k v] m]; constructor; [apply IH|apply IHm].
Qed.

Lemma value_nodes_pos v : (1 <= value_nodes v)%Z.
Proof.
  induction v as [v Hv|l IH|m IH] using Value_parts_ind; [by destruct v| |]; cbn [value_nodes].
  - assert (0 <= fold_right Z.add 0 (map value_nodes l))%Z by (induction IH; cbn; lia). lia.
  - assert (0 <= fold_right Z.add 0 (map (fun e => value_nodes e.2) m))%Z by (induction IH; cbn; lia). lia.
Qed.

Lemma object_nodes m : value_nodes (VObject m) = (1 + total_nodes m.*2)%Z.
Proof. cbn [value_nodes]. unfold total_nodes. do 2 f_equal. rewrite <-list_fmap_compose. done. Qed.

Lemma depth_bound d l : (0 <= d)%Z -> depth_at_most d l -> (fold_right Z.max 0 (map value_depth l) <= d)%Z.
Proof. intros Hd H. induction H; cbn; lia. Qed.

Lemma array_depth d l : (0 <= d)%Z -> depth_at_most d l -> (value_depth (VArray l) <= 1 + d)%Z.
Proof. intros Hd H%depth_bound; [|done]. cbn [value_depth]. lia. Qed.

Lemma object_depth d m : (0 <= d)%Z -> depth_at_most d m.*2 -> (value_depth (VObject m) <= 1 + d)%Z.
Proof.
  intros Hd H%depth_bound; [|done]. cbn [value_depth].
  replace (map (fun e => value_depth e.2) m) with (map value_depth m.*2) by (rewrite <-list_fmap_compose; done). lia.
Qed.

(** Inserting replaces at most one value and adds the new one. *)
Lemma map_insert_bounds k v m :
  (total_nodes (map_insert k v m).*2 <= value_nodes v + total_nodes m.*2)%Z /\
  forall d, (value_depth v <= d)%Z -> depth_at_most d m.*2 -> depth_at_most d (map_insert k v m).*2.
Proof.
  unfold total_nodes, depth_at_most. induction m as [|[k' v'] m [IH1 IH2]]; cbn.
  - split; [lia|]. intros d Hv _. by constructor.
  - pose proof (value_nodes_pos v'). destruct (str_compare k k'); cbn.
    + split; [lia|]. intros d Hv [_ H']%Forall_cons. by constructor.
    + split; [lia|]. intros d Hv H'. by constructor.
    + split; [lia|]. intros d Hv [H1 H2]%Forall_cons. constructor; auto.
Qed.

Lemma map_collect_from l m :
  let m' := fold_left (fun m (e : str * Value) => map_insert e.1 e.2 m) l m in
  (total_nodes m'.*2 <= total_nodes l.*2 + total_nodes m.*2)%Z /\
  forall d, depth_at_most d l.*2 -> depth_at_most d m.*2 -> depth_at_most d m'.*2.
Proof.
  revert m. induction l as [|[k v] l IH]; intros m; cbn zeta.
  - split; [done|]. auto.
  - cbn [fold_left fst snd]. destruct (IH (map_insert k v m)) as [IH1 IH2]. destruct (map_insert_bounds k v m) as [H1 H2].
    split; [unfold total_nodes in *; cbn in *; lia|]. intros d Hl%Forall_cons Hm. apply IH2; [apply Hl|apply H2; [apply Hl|done]].
Qed.

Lemma map_collect_bounds l :
  (value_nodes (VObject (map_collect l)) <= 1 + total_nodes l.*2)%Z /\
  forall d, (0 <= d)%Z -> depth_at_most d l.*2 -> (value_depth (VObject (map_collect l)) <= 1 + d)%Z.
Proof.
  destruct (map_collect_from l []) as [H1 H2]. rewrite object_nodes. split.
  - change (total_nodes (@nil (str * Value)).*2) with 0%Z in H1. unfold map_collect. lia.
  - intros d Hd Hl. apply object_depth; [done|]. apply H2; [done|constructor].
Qed.

Lemma zip_snd_bounds {A} (ns : list A) (l : list Value) :
  (total_nodes (zip ns l).*2 <= total_nodes l)%Z /\ forall d, depth_at_most d l -> depth_at_most d (zip ns l).*2.
Proof.
  unfold total_nodes. revert ns. induction l as [|v l IH]; intros [|n ns].
  - split; [done|]. constructor.
  - split; [done|]. constructor.
  - split; [|constructor]. pose proof (proj1 (IH [])). cbn in *. pose proof (value_nodes_pos v). lia.
  - destruct (IH ns) as [IH1 IH2]. split; [cbn in *; lia|]. intros d [H1 H2]%Forall_cons. constructor; [done|]. by apply IH2.
Qed.
End shapes.

Section walk_proofs.
Context {J : JsonNumber} {V : ValueSerde} (budget : ValueBudget).
Context (Hmax : (max_nodes budget < U64_MAX)%Z).

Definition no_walk_fuel (e : IpcError) : Prop := e = walk_fuel_error.
Abbreviation walks := (st_wp no_walk_fuel).
Abbreviation max_n := (max_nodes budget).
Abbreviation max_d := (max_depth budget).

Lemma value_error_not_fuel ty reason : ~ no_walk_fuel (value_error ty reason).
Proof. done. Qed.

Lemma walks_enter depth ty n (Q : unit -> Z -> Prop) :
  (0 <= n)%Z -> ((depth <= max_d)%Z -> (n + 1 <= max_n)%Z -> Q tt (n + 1)%Z) -> walks (enter budget depth ty) n Q.
Proof using Hmax.
  intros Hn H. unfold st_wp, enter. destruct (Z.ltb_spec max_d depth); [done|]. unfold saturating_add.
  destruct (Z.ltb_spec max_n (Z.min U64_MAX (n + 1))); [done|].
  replace (Z.min U64_MAX (n + 1)) with (n + 1)%Z by lia. apply H; lia.
Qed.

(** The part of the budget that a value was paid with. *)
Definition paid (n n' nodes : Z) : Prop := (n < n' <= max_n /\ nodes <= 2 * (n' - n) - 1)%Z.

Lemma walks_map {A B} (f : A -> ST Z IpcError B) (P : A -> B -> Prop) (nodes depth : B -> Z) d l n :
  (forall x n, In x l -> (0 <= n)%Z -> walks (f x) n (fun b n' => P x b /\ paid n n' (nodes b) /\ (depth b <= d)%Z)) ->
  (0 <= n <= max_n)%Z ->
  walks (st_map f l) n (fun bs n' => Forall2 P l bs /\ (n <= n' <= max_n)%Z /\
    (fold_right Z.add 0 (map nodes bs) <= 2 * (n' - n))%Z /\ Forall (fun b => depth b <= d)%Z bs).
Proof.
  revert n. induction l as [|x l IH]; intros n Hf Hn; cbn [st_map].
  - apply st_wp_ret. cbn. split_and!; [done|lia..|done].
  - apply st_wp_bind. eapply st_wp_mono; [apply Hf; [by left|lia]|]. intros b n1 (Hp & [Hn1 Hb] & Hd).
    apply st_wp_bind. eapply st_wp_mono; [apply IH; [intros y m Hy; apply Hf; by right|lia]|].
    intros bs n2 (Hps & Hn2 & Hs & Hds). apply st_wp_ret. cbn. split_and!; [by constructor|lia..|by constructor].
Qed.

Lemma untyped_fits ty v depth n :
  (0 <= n <= max_n)%Z -> (depth <= max_d)%Z ->
  walks (normalize_untyped budget ty v depth) n (fun w n' =>
    (n <= n' <= max_n)%Z /\ (value_nodes w <= 2 * (n' - n) + 1)%Z /\ (value_depth w <= 2 * (max_d - depth) + 1)%Z).
Proof using Hmax.
  revert depth n. induction v as [v Hv|l IH|m IH] using Value_parts_ind; intros depth n Hn Hd.
  - destruct v; try done; apply st_wp_ret; cbn; split_and!; lia.
  - cbn [normalize_untyped]. apply st_wp_bind. rewrite Forall_forall in IH.
    eapply st_wp_mono; [apply (walks_map _ (fun _ _ => True) value_nodes value_depth (2 * (max_d - depth)))|]; [|done|].
    + intros v n1 Hin Hn1. apply st_wp_bind, walks_enter; [done|]. intros Hd1 Hn2.
      eapply st_wp_mono; [apply IH; [by apply list_elem_of_In|lia..]|]. intros w n3 (? & ? & ?). unfold paid. split_and!; lia.
    + intros ws n1 (Hf & Hn1 & Hs & Hds). apply st_wp_ret. split_and!; [lia|lia|cbn [value_nodes]; lia|].
      pose proof (array_depth (2 * (max_d - depth)) _ ltac:(lia) Hds). lia.
  - cbn [normalize_untyped]. apply st_wp_bind. rewrite Forall_forall in IH.
    eapply st_wp_mono; [apply (walks_map _ (fun _ _ => True) (fun e : str * Value => value_nodes e.2) (fun e => value_depth e.2) (2 * (max_d - depth)))|]; [|done|].
    + intros [k v] n1 Hin Hn1. apply st_wp_bind, walks_enter; [done|]. intros Hd1 Hn2. apply st_wp_bind.
      eapply st_wp_mono; [apply (IH (k, v)); [by apply list_elem_of_In|cbn; lia..]|]. intros w n3 (? & ? & ?).
      apply st_wp_ret. unfold paid. cbn in *. split_and!; lia.
    + intros es n1 (Hf & Hn1 & Hs & Hds). apply st_wp_ret. destruct (map_collect_bounds es) as [Hc1 Hc2].
      assert (Hsum : total_nodes es.*2 = fold_right Z.add 0%Z (map (fun e : str * Value => value_nodes e.2) es))
        by (unfold total_nodes; rewrite <-list_fmap_compose; done).
      split_and!; [lia|lia|lia|]. etrans; [apply (Hc2 (2 * (max_d - depth))%Z); [lia|by apply Forall_fmap]|lia].
Qed.

(** What a walk at depth [d] delivers: a value of the shape, paid from the budget. *)
Definition delivers (P : Value -> Prop) (d n : Z) (w : Value) (n' : Z) : Prop :=
  P w /\ paid n n' (value_nodes w) /\ (value_depth w <= 2 * (max_d - d) + 1)%Z.

Definition scalar (w : Value) : Prop := match w with VArray _ | VObject _ => False | _ => True end.

Lemma scalar_delivers (P : Value -> Prop) d n r :
  (0 <= n)%Z -> (d <= max_d)%Z -> (n + 1 <= max_n)%Z ->
  match r with Ok w => P w /\ scalar w | Err e => ~ no_walk_fuel e end ->
  walks (st_lift r) (n + 1)%Z (delivers P d n).
Proof.
  intros Hn Hd Hn1 Hr. apply st_wp_lift. destruct r as [w|e]; [|done]. destruct Hr as [Hp Hw].
  unfold delivers, paid. destruct w; try done; cbn; (split_and!; [done|lia..]).
Qed.

Lemma normalize_integer_delivers value signed bits ty :
  In bits integer_bits ->
  match normalize_integer value signed bits ty with
  | Ok w => shape (ChInt signed bits) w /\ scalar w
  | Err e => ~ no_walk_fuel e
  end.
Proof.
  intros Hb. destruct (normalize_integer value signed bits ty) as [w|e] eqn:H.
  - apply normalize_integer_spec in H as (text & n & _ & _ & _ & Hr & ->); [|done]. split; [by constructor|].
    unfold shown_integer. by destruct (_ <=? _)%Z.
  - unfold normalize_integer in H. destruct (integer_text value) as [text|]; [|by injection H as <-].
    cbn [ok_or mbind Result_bind] in H. unfold parse_integer_text in H.
    destruct (match strip_prefix _ _ with Some _ => _ | None => _ end) as [neg ds].
    destruct (_ || _); [by injection H as <-|]. destruct (_ && _); [by injection H as <-|]. cbn [mbind Result_bind] in H.
    unfold validate_integer_range in H. destruct (decimal_magnitude_exceeds _ _); [by injection H as <-|].
    cbn [mbind Result_bind] in H. repeat case_match; done.
Qed.

Lemma normalize_float_delivers value bits :
  match normalize_float value (ChFloat bits) with
  | Ok w => shape (ChFloat bits) w /\ scalar w
  | Err e => ~ no_walk_fuel e
  end.
Proof.
  destruct value; try done; cbn [normalize_float]; [by split; [constructor|]|].
  repeat match goal with |- context [if ?b then _ else _] => destruct b; [by split; [constructor|]|] end.
  destruct (parse_f64 s ≫= number_from_f64); cbn; [by split; [constructor|]|done].
Qed.

Lemma normalize_decimal_delivers value storage_bits precision scale :
  (0 <= scale)%Z ->
  match normalize_decimal value (ChDecimal storage_bits precision scale) with
  | Ok w => shape (ChDecimal storage_bits precision scale) w /\ scalar w
  | Err e => ~ no_walk_fuel e
  end.
Proof.
  intros Hs. destruct (normalize_decimal _ _) as [w|e] eqn:H.
  - pose proof (normalize_decimal_spec value storage_bits precision scale Hs) as Hd.
    destruct (decimal_text value ≫= decimal_number) as [[m k]|]; [|destruct Hd as [? Hd]; by rewrite Hd in H].
    destruct (_ <=? _)%Z; destruct Hd as [? Hd]; [|by rewrite Hd in H]. destruct Hd as [Hd Hm].
    rewrite Hd in H. injection H as <-. split; [by econstructor|done].
  - unfold normalize_decimal in H. destruct (match value with VNull => _ | _ => _ end) as [text|]; [|by injection H as <-].
    cbn [ok_or mbind Result_bind] in H. destruct (negb _); [by injection H as <-|].
    repeat case_match; simplify_eq; done.
Qed.

Lemma value_depth_nonneg v : (0 <= value_depth v)%Z.
Proof.
  assert (H : forall l : list Z, (0 <= fold_right Z.max 0 l)%Z) by (induction l; cbn; lia).
  destruct v as [| | | |l|m]; cbn [value_depth]; try lia; [specialize (H (map value_depth l))|specialize (H (map (fun e => value_depth e.2) m))]; lia.
Qed.

(** Values collected below depth [d], and what is built from them. *)
Definition collected (d n : Z) (ws : list Value) (n' : Z) : Prop :=
  (n + 1 <= n' <= max_n)%Z /\ (total_nodes ws <= 2 * (n' - (n + 1)))%Z /\ depth_at_most (2 * (max_d - d)) ws.

Lemma array_delivers (P : Value -> Prop) d n ws n' :
  (d <= max_d)%Z -> collected d n ws n' -> P (VArray ws) -> delivers P d n (VArray ws) n'.
Proof.
  intros Hd (Hn & Hs & Hds) Hp. pose proof (array_depth (2 * (max_d - d)) _ ltac:(lia) Hds).
  unfold delivers, paid. split_and!; [done|lia|lia| |lia]. cbn [value_nodes]. unfold total_nodes in Hs. lia.
Qed.

Lemma object_delivers (P : Value -> Prop) (ns : list str) d n ws n' :
  (d <= max_d)%Z -> collected d n ws n' -> P (VObject (map_collect (zip ns ws))) ->
  delivers P d n (VObject (map_collect (zip ns ws))) n'.
Proof.
  intros Hd (Hn & Hs & Hds) Hp. destruct (map_collect_bounds (zip ns ws)) as [H1 H2].
  destruct (zip_snd_bounds ns ws) as [H3 H4]. specialize (H2 (2 * (max_d - d))%Z ltac:(lia) (H4 _ Hds)).
  unfold delivers, paid. split_and!; [done|lia..].
Qed.

Section body_proofs.
Context (inner : ClickHouseType -> Value -> Z -> ST Z IpcError Value) (d : Z).
Context (Hinner : forall ty v n, type_ok ty -> (0 <= n)%Z -> walks (inner ty v (d + 1)%Z) n (delivers (shape ty) (d + 1) n)).
Context (Hd : (d <= max_d)%Z).

Lemma walks_parts {A} (f : A -> ST Z IpcError Value) (P : A -> Value -> Prop) l n :
  (forall x n, In x l -> (0 <= n)%Z -> walks (f x) n (fun w n' =>
     P x w /\ paid n n' (value_nodes w) /\ (value_depth w <= 2 * (max_d - d))%Z)) ->
  (0 <= n)%Z -> (n + 1 <= max_n)%Z ->
  walks (st_map f l) (n + 1)%Z (fun ws n' => Forall2 P l ws /\ collected d n ws n').
Proof.
  intros Hf Hn Hn1. eapply st_wp_mono; [apply (walks_map _ P value_nodes value_depth); [exact Hf|lia]|].
  intros ws n' (? & ? & ? & ?). by split_and!.
Qed.

Lemma inner_part ty v n :
  type_ok ty -> (0 <= n)%Z ->
  walks (inner ty v (d + 1)%Z) n (fun w n' => shape ty w /\ paid n n' (value_nodes w) /\ (value_depth w <= 2 * (max_d - d) - 1)%Z).
Proof using Hinner. intros Ht Hn. eapply st_wp_mono; [by apply Hinner|]. intros w n' (? & ? & ?). split_and!; [done..|lia]. Qed.

Lemma inner_part' ty v n :
  type_ok ty -> (0 <= n)%Z ->
  walks (inner ty v (d + 1)%Z) n (fun w n' => shape ty w /\ paid n n' (value_nodes w) /\ (value_depth w <= 2 * (max_d - d))%Z).
Proof using Hinner. intros Ht Hn. eapply st_wp_mono; [by apply inner_part|]. intros w n' (? & ? & ?). split_and!; [done..|lia]. Qed.

Lemma array_walks t values n (P : Value -> Prop) :
  type_ok t -> (0 <= n)%Z -> (n + 1 <= max_n)%Z -> (forall ws, Forall (shape t) ws -> P (VArray ws)) ->
  walks (l ← st_map (fun v => inner t v (d + 1)%Z) values; mret (VArray l)) (n + 1)%Z (delivers P d n).
Proof using Hinner Hd.
  intros Ht Hn Hn1 HP. apply st_wp_bind. eapply st_wp_mono;
    [apply (walks_parts _ (fun _ w => shape t w)); [intros x m _ Hm; by apply inner_part'|done..]|].
  intros ws n' [Hs Hc]. apply st_wp_ret, array_delivers; [done|done|]. apply HP. clear -Hs. induction Hs; by constructor.
Qed.

Lemma map_walks k v value n ty :
  type_ok k -> type_ok v -> (0 <= n)%Z -> (n + 1 <= max_n)%Z ->
  walks (normalize_map inner k v value d ty) (n + 1)%Z (delivers (shape (ChMap k v)) d n).
Proof using Hinner Hd.
  intros Hk Hv Hn Hn1. unfold normalize_map. apply st_wp_bind, st_wp_lift.
  destruct (map_entries value ty) as [entries|e] eqn:He.
  - apply st_wp_bind. eapply st_wp_mono; [apply (walks_parts _ (fun _ w => exists x y, w = VArray [x; y] /\ shape k x /\ shape v y)); [|done..]|].
    + intros [x y] m _ Hm. apply st_wp_bind. eapply st_wp_mono; [by apply inner_part|]. intros x' m1 (Hx & [Hm1 Hx1] & Hx2).
      apply st_wp_bind. eapply st_wp_mono; [apply inner_part; [done|lia]|]. intros y' m2 (Hy & [Hm2 Hy1] & Hy2).
      pose proof (value_depth_nonneg x'). apply st_wp_ret. split_and!; [by eexists _, _| |]; unfold paid; cbn in *; lia.
    + intros ws n' [Hs Hc]. apply st_wp_ret, array_delivers; [done|done|]. constructor. clear -Hs. induction Hs; by constructor.
  - unfold map_entries in He. destruct value as [| | | |l|m]; try (by injection He as <-); [|done].
    revert e He. induction l as [|x l IH]; intros e He; [done|]. cbn [try_map] in He.
    destruct x as [| | | |[|? [|? [|]]]|]; try (by injection He as <-). cbn [mbind Result_bind] in He.
    destruct (try_map _ l) eqn:Ht; [done|]. injection He as <-. by eapply IH.
Qed.

Lemma tuple_output_delivers fields ws n n' :
  Forall2 (fun f w => shape (tf_ty f) w) fields ws -> collected d n ws n' ->
  delivers (shape (ChTuple fields)) d n (tuple_output fields ws) n'.
Proof using Hd.
  intros Hs Hc. unfold tuple_output. fold (object_fields fields). destruct (object_fields fields) eqn:Ho.
  - apply object_delivers; [done|done|]. by constructor.
  - apply array_delivers; [done|done|]. by constructor.
Qed.

Lemma collected_cons n n1 n2 w ws :
  (0 <= n)%Z -> paid (n + 1) n1 (value_nodes w) -> (value_depth w <= 2 * (max_d - d))%Z ->
  collected d (n1 - 1) ws n2 -> collected d n (w :: ws) n2.
Proof.
  intros Hn [H1 H2] H3 (H4 & H5 & H6). unfold collected, total_nodes in *. cbn.
  split_and!; [lia..|]. by constructor.
Qed.

Lemma named_values_walks ty fields values n :
  Forall (fun f => type_ok (tf_ty f)) fields -> (0 <= n)%Z -> (n + 1 <= max_n)%Z ->
  walks (named_values inner fields values d ty) (n + 1)%Z (fun ws n' =>
    Forall2 (fun f w => shape (tf_ty f) w) fields ws /\ collected d n ws n').
Proof using Hinner Hd.
  revert values n. induction fields as [|[name t] fields IH]; intros values n Hf Hn Hn1; cbn [named_values].
  - apply st_wp_ret. split; [constructor|]. unfold collected, total_nodes. cbn. split_and!; [lia..|constructor].
  - apply Forall_cons in Hf as [Ht Hf]. apply st_wp_bind, st_wp_lift.
    destruct (map_remove (default [] name) values) as [[v values']|]; cbn [ok_or]; [|done].
    apply st_wp_bind. eapply st_wp_mono; [apply inner_part'; [done|lia]|]. intros w n1 (Hw & Hp & Hwd).
    apply st_wp_bind. replace n1 with (n1 - 1 + 1)%Z by lia.
    eapply st_wp_mono; [apply IH; [done|destruct Hp; lia..]|]. intros ws n2 [Hs Hc]. apply st_wp_ret. split; [by constructor|].
    eapply collected_cons; [done| |done|done]. by replace (n1 - 1 + 1)%Z with n1 in * by lia.
Qed.

Lemma zip_fields_shape fields (values ws : list Value) :
  length values = length fields ->
  Forall2 (fun (p : TupleField * Value) w => shape (tf_ty p.1) w) (zip fields values) ws ->
  Forall2 (fun f w => shape (tf_ty f) w) fields ws.
Proof.
  revert values ws. induction fields as [|f fields IH]; intros [|v values] ws Hl H; try done; inversion H; subst; constructor; [done|].
  eapply IH; [|done]. by injection Hl.
Qed.

Lemma zip_in_fst {A B} (l : list A) (k : list B) p : In p (zip l k) -> In p.1 l.
Proof. revert k. induction l as [|a l IH]; intros [|b k]; cbn; try done. intros [<-|H]; [by left|]. right. by eapply IH. Qed.

Lemma tuple_walks ty fields value n :
  Forall (fun f => type_ok (tf_ty f)) fields -> (0 <= n)%Z -> (n + 1 <= max_n)%Z ->
  walks (normalize_tuple inner fields value d ty) (n + 1)%Z (delivers (shape (ChTuple fields)) d n).
Proof using Hinner Hd.
  intros Hf Hn Hn1. unfold normalize_tuple. destruct value as [| | | |values|values]; try (by apply st_wp_lift).
  - destruct (Nat.eqb_spec (length values) (length fields)) as [Hl|]; [|by apply st_wp_lift]. cbn [negb].
    apply st_wp_bind. eapply st_wp_mono; [apply (walks_parts _ (fun p w => shape (tf_ty p.1) w)); [|done..]|].
    + intros p m Hin Hm. apply inner_part'; [|done]. apply zip_in_fst in Hin. rewrite Forall_forall in Hf.
      by apply Hf, list_elem_of_In.
    + intros ws n' [Hs Hc]. apply st_wp_ret, tuple_output_delivers; [|done]. by eapply zip_fields_shape.
  - destruct (forallb _ fields); [|by apply st_wp_lift].
    destruct (Nat.eqb_spec (length values) (length fields)) as [Hl|]; [|by apply st_wp_lift]. cbn [negb].
    apply st_wp_bind. eapply st_wp_mono; [by apply named_values_walks|]. intros ws n' [Hs Hc].
    by apply st_wp_ret, tuple_output_delivers.
Qed.

Lemma nested_values_walks ty fields values acc n :
  Forall (fun f => type_ok (tf_ty f)) fields -> (0 <= n)%Z -> (n + 1 <= max_n)%Z ->
  walks (nested_values inner fields values acc d ty) (n + 1)%Z (fun m n' => exists ws,
    Forall2 (fun f w => shape (ChArray (tf_ty f)) w) fields ws /\ collected d n ws n' /\
    m = fold_left (fun m e => map_insert e.1 e.2 m) (zip (omap tf_name fields) ws) acc).
Proof using Hinner Hd.
  revert values acc n. induction fields as [|[name t] fields IH]; intros values acc n Hf Hn Hn1; cbn [nested_values].
  - apply st_wp_ret. exists []. split_and!; [constructor| |done]. unfold collected, total_nodes. cbn. split_and!; [lia..|constructor].
  - apply Forall_cons in Hf as [Ht Hf]. apply st_wp_bind, st_wp_lift. destruct name as [name|]; cbn [ok_or]; [|done].
    apply st_wp_bind, st_wp_lift. destruct (map_remove name values) as [[v values']|]; cbn [ok_or]; [|done].
    apply st_wp_bind. eapply st_wp_mono; [apply inner_part'; [by constructor|lia]|]. intros w n1 (Hw & Hp & Hwd).
    replace n1 with (n1 - 1 + 1)%Z by lia.
    eapply st_wp_mono; [apply IH; [done|destruct Hp; lia..]|]. intros m n2 (ws & Hs & Hc & ->). exists (w :: ws).
    split_and!; [by constructor| |done]. eapply collected_cons; [done| |done|done]. by replace (n1 - 1 + 1)%Z with n1 in * by lia.
Qed.

Lemma nested_walks ty fields value n :
  type_ok (ChNested fields) -> (0 <= n)%Z -> (n + 1 <= max_n)%Z ->
  walks (normalize_nested inner fields value d ty) (n + 1)%Z (delivers (shape (ChNested fields)) d n).
Proof using Hinner Hd.
  intros Hok Hn Hn1. inversion Hok as [| | | | | | | | | | | | | | | | | | | |fs Hne Hf Hnm| | |]; subst.
  unfold normalize_nested. destruct value as [| | | |values|values]; try (by apply st_wp_lift).
  - apply array_walks; [constructor; auto|done|done|]. intros ws Hws. by apply sh_nested_rows.
  - destruct (Nat.eqb_spec (length values) (length fields)) as [Hl|]; [|by apply st_wp_lift]. cbn [negb].
    apply st_wp_bind. eapply st_wp_mono; [by apply nested_values_walks|]. intros m n' (ws & Hs & Hc & ->).
    apply st_wp_ret. apply (object_delivers _ (omap tf_name fields)); [done|done|]. by constructor.
Qed.

End body_proofs.

Lemma body_walks inner ty v d n :
  (forall ty v n, type_ok ty -> (0 <= n)%Z -> walks (inner ty v (d + 1)%Z) n (delivers (shape ty) (d + 1) n)) ->
  type_ok ty -> (0 <= n)%Z -> walks (normalize_body budget inner ty v d) n (delivers (shape ty) d n).
Proof using Hmax.
  intros Hinner Hok Hn. unfold normalize_body. apply st_wp_bind, walks_enter; [done|]. intros Hd Hn1.
  assert (Htext : text_type ty = true -> walks (match v with VString _ => mret v | _ => st_lift (Err (value_error ty "expected string")) end)
    (n + 1)%Z (delivers (shape ty) d n)).
  { intros Ht. destruct v; try (by apply st_wp_lift). apply (scalar_delivers _ _ _ (Ok (VString s))); try done. split; [by constructor|done]. }
  assert (Hunt : untyped ty = true -> walks (normalize_untyped budget ty v d) (n + 1)%Z (delivers (shape ty) d n)).
  { intros Hu. eapply st_wp_mono; [apply untyped_fits; [lia|done]|]. intros w n' (? & ? & ?).
    unfold delivers, paid. split_and!; [by apply sh_untyped|lia..]. }
  assert (Hdown : forall t, type_ok t -> (forall w, shape t w -> shape ty w) ->
    walks (inner t v (d + 1)%Z) (n + 1)%Z (delivers (shape ty) d n)).
  { intros t Ht Hsh. eapply st_wp_mono; [apply Hinner; [done|lia]|]. intros w n' (Hw & [Hp1 Hp2] & Hdw).
    unfold delivers, paid. split_and!; [auto|lia..]. }
  destruct Hok; try (by apply Htext); try (by apply Hunt).
  - apply scalar_delivers; try done. by apply normalize_integer_delivers.
  - apply scalar_delivers; try done. apply normalize_float_delivers.
  - apply scalar_delivers; try done. apply normalize_decimal_delivers. lia.
  - destruct v; try (by apply st_wp_lift). apply (scalar_delivers _ _ _ (Ok (VBool b))); try done. split; [by constructor|done].
  - destruct v; try (apply Hdown; [done|]; by constructor).
    apply (scalar_delivers _ _ _ (Ok VNull)); try done. split; [by constructor|done].
  - apply Hdown; [done|]. by constructor.
  - destruct v; try (by apply st_wp_lift). apply array_walks; try done. by constructor.
  - by apply map_walks.
  - by apply tuple_walks.
  - apply nested_walks; try done. by constructor.
Qed.

(** Enough fuel for the depth that is left: the walk ends by itself. *)
Lemma inner_walks fuel ty v d n :
  (max_d + 2 - d <= Z.of_nat fuel)%Z -> (0 < fuel)%nat -> type_ok ty -> (0 <= n)%Z ->
  walks (normalize_inner budget fuel ty v d) n (delivers (shape ty) d n).
Proof using Hmax.
  revert ty v d n. induction fuel as [|fuel IH]; intros ty v d n Hf Hp Hok Hn; [lia|]. cbn [normalize_inner].
  destruct fuel as [|fuel]; [|apply body_walks; [|done|done]; intros ty' v' n' Hok' Hn'; apply IH; [lia|lia|done|done]].
  unfold normalize_body. apply st_wp_bind, walks_enter; [done|]. lia.
Qed.

(** C38: What is delivered for a column value has the shape of the column's type (widths
    and ranges of integers, full scale of decimals, pairs for maps, the declared fields
    of tuples) and stays within the budget: at most twice the allowed nodes and nesting
    (the pairs of maps are built on top of what is counted), and not more bytes than
    allowed.  The recursion ends by itself: running out of fuel is never the error. *)
Theorem normalize_value_fits ty v :
  type_ok ty ->
  match normalize_value budget ty v with
  | Ok w => shape ty w /\ (value_nodes w <= 2 * max_n)%Z /\ (value_depth w <= 2 * max_d + 1)%Z /\
      exists bytes, to_vec w = Ok bytes /\ (Z.of_nat (length bytes) <= max_serialized_bytes budget)%Z
  | Err e => e <> walk_fuel_error
  end.
Proof using Hmax.
  intros Hok. unfold normalize_value.
  pose proof (inner_walks (S (S (Z.to_nat max_d))) ty v 0 0 ltac:(lia) ltac:(lia) Hok ltac:(lia)) as H. unfold st_wp in H.
  destruct (normalize_inner _ _ _ _ _ _) as [[w|e] n']; cbn [fst mbind Result_bind]; [|done].
  destruct H as (Hs & [Hn Hp] & Hd). destruct (to_vec w) as [bytes|e] eqn:Hv; [|by apply not_eq_sym || done].
  destruct (Z.ltb_spec (max_serialized_bytes budget) (Z.of_nat (length bytes))); [done|].
  split_and!; [done|lia|lia|]. by exists bytes.
Qed.
End walk_proofs.

(** ** Examples *)

(** JSON text of values with integer numbers, for the examples. *)
Fixpoint demo_json (v : Value (J:=IntegerNumber)) : str :=
  match v with
  | VNull => lit "null"
  | VBool b => if b then lit "true" else lit "false"
  | VNumber n => to_dec n
  | VString s => [c_dquote] ++ s ++ [c_dquote]
  | VArray l => [c_lbracket] ++ join [c_comma] (map demo_json l) ++ [c_rbracket]
  | VObject m => [123%Z] ++ join [c_comma] (map (fun e => [c_dquote] ++ e.1 ++ [c_dquote; 58%Z] ++ demo_json e.2) m) ++ [125%Z]
  end.

Definition demo_value_serde : ValueSerde (J:=IntegerNumber) :=
  @Build_ValueSerde IntegerNumber to_dec (fun n => n) (fun f => Some f) (parse_int (- U64_MAX) U64_MAX)
    (fun v => Ok (as_bytes (demo_json v))) (fun s => [c_dquote] ++ s ++ [c_dquote]).

Definition demo_columns : ClickHouseType :=
  ChTuple [mkTupleField (Some (lit "id")) (ChInt false 64); mkTupleField (Some (lit "price")) (ChDecimal 64 18 4);
           mkTupleField (Some (lit "tags")) (ChMap ChString (ChNullable (ChInt true 8)))].

Lemma normalize_integer_spec_witness :
  normalize_integer (J:=IntegerNumber) (V:=demo_value_serde) (VString (lit "+0018446744073709551615")) false 64 (ChInt false 64)
  = Ok (VString (lit "18446744073709551615")).
Proof.
  apply (normalize_integer_spec (J:=IntegerNumber) (V:=demo_value_serde)); [by right; right; right; left|].
  exists (lit "+0018446744073709551615"), 18446744073709551615%Z. split_and!.
  - reflexivity.
  - vm_compute. reflexivity.
  - vm_compute. discriminate.
  - vm_compute. split; discriminate.
  - reflexivity.
Defined.

Lemma normalize_decimal_spec_witness :
  exists t, normalize_decimal (J:=IntegerNumber) (V:=demo_value_serde) (VString (lit "-12.5")) (ChDecimal 64 18 4) = Ok (VString t) /\
    decimal_number t = Some ((-125000)%Z, 4).
Proof. exact (normalize_decimal_spec (J:=IntegerNumber) (V:=demo_value_serde) (VString (lit "-12.5")) 64 18 4 ltac:(lia)). Defined.

Lemma normalize_value_fits_witness :
  let v := VArray [VNumber (J:=IntegerNumber) 7%Z; VString (lit "1.5"); VObject [(lit "a", VNull)]] in
  normalize_value (V:=demo_value_serde) default_value_budget demo_columns v
  = Ok (VObject [(lit "id", VNumber (J:=IntegerNumber) 7%Z); (lit "price", VString (lit "1.5000"));
                 (lit "tags", VArray [VArray [VString (lit "a"); VNull]])]) /\
  match normalize_value (V:=demo_value_serde) default_value_budget demo_columns v with
  | Ok w => shape (V:=demo_value_serde) demo_columns w /\ (value_nodes w <= 200000)%Z /\ (value_depth w <= 129)%Z /\
      exists bytes, to_vec (ValueSerde:=demo_value_serde) w = Ok bytes /\ (Z.of_nat (length bytes) <= 4194304)%Z
  | Err e => e <> walk_fuel_error
  end.
Proof.
  split; [reflexivity|].
  apply (normalize_value_fits (V:=demo_value_serde) default_value_budget ltac:(done) demo_columns).
  apply ok_tuple; [done| |left; by repeat constructor]. apply Forall_cons; split; [|apply Forall_cons; split; [|apply Forall_cons; split; [|done]]]; cbn [tf_ty].
  - constructor. by right; right; right; left.
  - apply (ok_decimal 18 4); lia.
  - repeat constructor.
Defined.
