(* ===== verification/ClickHouseFormat.v ===== *)
(** * Decoding ClickHouse responses
    ([src-tauri/src/engine/drivers/clickhouse/query/format.rs] and the read loop of
    [query/mod.rs])

    A result arrives as chunks of bytes whose boundaries mean nothing: lines of JSON, the
    names of the columns, their types, then a row each.  The decoder keeps the bytes of
    the line it has not seen the end of; its caller skips rows, keeps a page and one row
    more, and stops reading.  The theorems compare this with a decoder that has the whole
    text in its hands. *)

From stdpp Require Import base list strings.
From Stdlib Require Import ZArith Lia.
From S2P Require Import Prelude Digits Errors Types ClickHouseSql ClickHouseTypes ClickHouseValues.

Record QueryLimits := mkQueryLimits {
  max_response_bytes : Z;
  max_row_bytes : Z;
  value_budget : ValueBudget;
}.

Definition default_query_limits : QueryLimits :=
  mkQueryLimits (32 * 1024 * 1024) (8 * 1024 * 1024) default_value_budget.

(** [serde_json::from_slice] on the frames, and what the source reports of its errors:
    line, column and the [Debug] form of the category. *)
Record FrameError := mkFrameError {
  fe_line : Z;
  fe_column : Z;
  fe_category : str;
}.

Class FrameSerde `{J : JsonNumber} := {
  names_from_slice : list Z -> Result FrameError (list str);
  row_from_slice : list Z -> Result FrameError (list Value);
}.

Inductive DecoderState :=
| Names
| TypesAfter (names : list str)
| Rows (columns : list ColumnMeta) (parsed_types : list ClickHouseType).

Definition decode_error (kind : string) (d : str) : IpcError :=
  mkIpcError SystemInternal BusinessOnly (lit "ClickHouse returned an invalid query result")
    (Some (lit "kind=" ++ lit kind ++ lit "; " ++ d)).

Definition limit_error (limit : string) (actual maximum : Z) : IpcError :=
  mkIpcError ValidationFailed BusinessOnly (lit "ClickHouse query result exceeds the safe display limit")
    (Some (lit "limit=" ++ lit limit ++ lit "; actual=" ++ to_dec actual ++ lit "; maximum=" ++ to_dec maximum)).

Definition response_limit_error := limit_error "response_bytes".
Definition row_limit_error := limit_error "row_bytes".

Fixpoint unwrap_metadata_type (ty : ClickHouseType) : ClickHouseType :=
  match ty with
  | ChNullable inner | ChLowCardinality inner => unwrap_metadata_type inner
  | _ => ty
  end.

(** [i64::try_from(length).ok()] for a [usize]. *)
Definition i64_of_usize (n : Z) : option Z := if (n <=? 9223372036854775807)%Z then Some n else None.

Definition column_meta (name type_name : str) (ty : ClickHouseType) : ColumnMeta :=
  let base := readonly_query_column name type_name (is_nullable ty) in
  let with_ max_length precision scale enum_values :=
    mkColumnMeta (cm_name base) (cm_type_name base) (cm_nullable base) (cm_default_value base) (data_category ty)
      max_length precision scale enum_values (cm_is_primary_key base) (cm_primary_key_ordinal base)
      (cm_is_unique base) (cm_is_writable base) in
  match unwrap_metadata_type ty with
  | ChDecimal _ precision scale => with_ None (Some precision) (Some scale) None
  | ChFixedString len => with_ (i64_of_usize len) None None None
  | ChEnum _ variants => with_ None None None (Some (map fst variants))
  | _ => with_ None None None None
  end.

Section format.
Context {J : JsonNumber} {V : ValueSerde} {F : FrameSerde}.

Record DecodedWindow := mkDecodedWindow {
  dw_columns : list ColumnMeta;
  dw_rows : list (list Value);
  is_status_only : bool;
}.

Record FormatDecoder := mkFormatDecoder {
  limits : QueryLimits;
  decoder_state : DecoderState;
  pending_frame : list Z;
  decoded_rows : list (list Value);
  response_bytes : Z;
  saw_frame : bool;
}.

Definition new_decoder (l : QueryLimits) : FormatDecoder := mkFormatDecoder l Names [] [] 0 false.

Definition set_decoder_state (s : DecoderState) (d : FormatDecoder) : FormatDecoder :=
  mkFormatDecoder (limits d) s (pending_frame d) (decoded_rows d) (response_bytes d) (saw_frame d).
Definition set_pending (p : list Z) (d : FormatDecoder) : FormatDecoder :=
  mkFormatDecoder (limits d) (decoder_state d) p (decoded_rows d) (response_bytes d) (saw_frame d).
Definition set_saw_frame (d : FormatDecoder) : FormatDecoder :=
  mkFormatDecoder (limits d) (decoder_state d) (pending_frame d) (decoded_rows d) (response_bytes d) true.
Definition set_response_bytes (n : Z) (d : FormatDecoder) : FormatDecoder :=
  mkFormatDecoder (limits d) (decoder_state d) (pending_frame d) (decoded_rows d) n (saw_frame d).
Definition extend_rows (rows : list (list Value)) (d : FormatDecoder) : FormatDecoder :=
  mkFormatDecoder (limits d) (decoder_state d) (pending_frame d) (decoded_rows d ++ rows) (response_bytes d) (saw_frame d).

Definition parse_json_frame {A} (from_slice : list Z -> Result FrameError A) (frame : list Z) (frame_kind : string)
  : IpcResult A :=
  match from_slice frame with
  | Ok a => Ok a
  | Err error =>
    Err (decode_error "invalid_json"
      (lit "frame=" ++ lit frame_kind ++ lit "; line=" ++ to_dec (fe_line error) ++ lit "; column="
         ++ to_dec (fe_column error) ++ lit "; category=" ++ fe_category error))
  end.

(** The loop over names and type names. *)
Definition header_columns (names type_names : list str) : IpcResult (list (ColumnMeta * ClickHouseType)) :=
  try_map (fun p : str * str =>
    let '(name, type_name) := p in
    match parse_type type_name with
    | Ok parsed_type => Ok (column_meta name type_name parsed_type, parsed_type)
    | Err error => Err (decode_error "type_syntax" (lit "type=" ++ type_name ++ lit "; error=" ++ error))
    end) (zip names type_names).

(** The two header frames and a row, as [process_frame] reads them. *)
Definition decode_names (frame : list Z) : IpcResult (list str) := parse_json_frame names_from_slice frame "names".

Definition decode_types (names : list str) (frame : list Z) : IpcResult (list (ColumnMeta * ClickHouseType)) :=
  type_names ← parse_json_frame names_from_slice frame "types";
  if negb (length type_names =? length names) then
    Err (decode_error "header_width"
      (lit "names=" ++ to_dec (Z.of_nat (length names)) ++ lit "; types=" ++ to_dec (Z.of_nat (length type_names))))
  else header_columns names type_names.

Definition decode_row (l : QueryLimits) (columns : list ColumnMeta) (parsed_types : list ClickHouseType) (frame : list Z)
  : IpcResult (list Value) :=
  if (max_row_bytes l <? Z.of_nat (length frame))%Z then
    Err (row_limit_error (Z.of_nat (length frame)) (max_row_bytes l))
  else
    values ← parse_json_frame row_from_slice frame "row";
    if negb (length values =? length columns) then
      Err (decode_error "row_width"
        (lit "columns=" ++ to_dec (Z.of_nat (length columns)) ++ lit "; values=" ++ to_dec (Z.of_nat (length values))))
    else try_map (fun p : ClickHouseType * Value => normalize_value (value_budget l) p.1 p.2) (zip parsed_types values).

(** [process_frame]: the state is taken out first, so it is [Names] after an error. *)
Definition process_frame (frame : list Z) (d : FormatDecoder) : IpcResult (option (list Value)) * FormatDecoder :=
  let taken := set_decoder_state Names d in
  match decoder_state d with
  | Names =>
    match decode_names frame with
    | Err e => (Err e, taken)
    | Ok names => (Ok None, set_decoder_state (TypesAfter names) d)
    end
  | TypesAfter names =>
    match decode_types names frame with
    | Err e => (Err e, taken)
    | Ok header => (Ok None, set_decoder_state (Rows header.*1 header.*2) d)
    end
  | Rows columns parsed_types =>
    match decode_row (limits d) columns parsed_types frame with
    | Err e => (Err e, taken)
    | Ok row => (Ok (Some row), set_decoder_state (Rows columns parsed_types) d)
    end
  end.

(** The closure's own variables are [C]. *)
Section push.
Context {C : Type} (on_row : list Value -> C -> bool * C).

Definition strip_cr (frame : list Z) : list Z :=
  match rev frame with c :: r => if (c =? c_cr)%Z then rev r else frame | [] => frame end.

Definition blank (frame : list Z) : bool := forallb is_ascii_whitespace frame.

(** The [while let] over [pending_frame[consumed..]]; [rest] is that slice, and the
    result the slice at the end.  Each turn consumes a byte at least. *)
Fixpoint frame_loop (fuel : nat) (rest : list Z) (d : FormatDecoder) (c : C)
  : IpcResult (bool * list Z) * FormatDecoder * C :=
  match fuel with
  | O => (Ok (false, rest), d, c)
  | S n =>
    match split_at_first [c_nl] rest with
    | None => (Ok (false, rest), d, c)
    | Some (line, rest') =>
      let frame := strip_cr line in
      if blank frame then frame_loop n rest' d c
      else
        match process_frame frame (set_saw_frame d) with
        | (Err e, d') => (Err e, d', c)
        | (Ok None, d') => frame_loop n rest' d' c
        | (Ok (Some row), d') =>
          let '(stop, c') := on_row row c in
          if (stop : bool) then (Ok (true, rest'), d', c') else frame_loop n rest' d' c'
        end
    end
  end.

Definition push_with_rows (bytes : list Z) (d : FormatDecoder) (c : C) : IpcResult bool * FormatDecoder * C :=
  match checked_add_u64 (response_bytes d) (Z.of_nat (length bytes)) with
  | None => (Err (response_limit_error U64_MAX (max_response_bytes (limits d))), d, c)
  | Some total =>
    let d := set_response_bytes total d in
    if (max_response_bytes (limits d) <? total)%Z then
      (Err (response_limit_error total (max_response_bytes (limits d))), d, c)
    else
      let pending := pending_frame d ++ bytes in
      let d := set_pending pending d in
      match frame_loop (S (length pending)) pending d c with
      | (Err e, d', c') => (Err e, d', c')
      | (Ok (stopped, rest), d', c') => (Ok stopped, set_pending rest d', c')
      end
  end.
End push.

(** [push]: the rows stay with the decoder. *)
Definition push (bytes : list Z) (d : FormatDecoder) : IpcResult unit * FormatDecoder :=
  match push_with_rows (fun row rows => (false, rows ++ [row])) bytes d [] with
  | (Err e, d', _) => (Err e, d')
  | (Ok _, d', rows) => (Ok tt, extend_rows rows d')
  end.

Definition decoder_columns (d : FormatDecoder) : option (list ColumnMeta) :=
  match decoder_state d with Rows columns _ => Some columns | _ => None end.

Definition incomplete_frame : IpcError :=
  decode_error "incomplete_frame" (lit "response ended before the current JSON frame was complete").

Definition finish (d : FormatDecoder) : IpcResult DecodedWindow :=
  if negb (blank (pending_frame d)) then Err incomplete_frame
  else
    match decoder_state d with
    | Names =>
      if negb (saw_frame d) then Ok (mkDecodedWindow [] [] true)
      else Err (decode_error "missing_names" (lit "response did not contain a names header"))
    | TypesAfter _ => Err (decode_error "missing_types" (lit "response ended before the types header"))
    | Rows columns _ => Ok (mkDecodedWindow columns (decoded_rows d) false)
    end.

(** ** The read loop *)

(** What the loop waits for: a change of the shutdown channel (with what it then holds,
    or that it closed), a chunk, the end, or an error, as [classify_query_error] maps it. *)
Inductive SourceEvent :=
| ShutdownChanged (closing : bool)
| NextChunk (chunk : list Z)
| EndOfStream
| ReadFailed (error : IpcError).

Record DecodedQueryOutcome := mkDecodedQueryOutcome {
  dq_result : QueryResult;
  dq_summary : option SqlExecutionSummary;
}.

Definition query_canceled : IpcError :=
  operation_canceled (lit "ClickHouse query canceled") (lit "the owning runtime is closing").

(** The closure of the loop: its variables are the skipped and the retained rows. *)
Definition window_row (skip retained_limit : Z) (row : list Value) (c : Z * list (list Value))
  : bool * (Z * list (list Value)) :=
  let '(skipped_rows, retained_rows) := c in
  if (skipped_rows <? skip)%Z then (false, ((skipped_rows + 1)%Z, retained_rows))
  else
    let retained_rows := retained_rows ++ [row] in
    ((retained_limit <=? Z.of_nat (length retained_rows))%Z, (skipped_rows, retained_rows)).

(** [None]: the events so far do not end the loop. *)
Fixpoint read_loop (window : QueryWindow) (retained_limit : Z) (summary : option SqlExecutionSummary)
    (events : list SourceEvent) (d : FormatDecoder) (c : Z * list (list Value)) : option (IpcResult DecodedQueryOutcome) :=
  match events with
  | [] => None
  | ShutdownChanged closing :: events' =>
    if (closing : bool) then Some (Err query_canceled)
    else read_loop window retained_limit summary events' d c
  | ReadFailed error :: _ => Some (Err error)
  | EndOfStream :: _ =>
    Some (decoded ← finish d;
          Ok (mkDecodedQueryOutcome (readonly_query_result (dw_columns decoded) c.2 (window_page_size window)) summary))
  | NextChunk chunk :: events' =>
    match push_with_rows (window_row (skip_rows window) retained_limit) chunk d c with
    | (Err e, _, _) => Some (Err e)
    | (Ok stopped, d', c') =>
      if (stopped : bool) then
        Some (match decoder_columns d' with
              | None => Err (system_internal (lit "ClickHouse query result is missing headers")
                               (lit "decoder stopped before headers were complete"))
              | Some columns =>
                Ok (mkDecodedQueryOutcome (readonly_query_result columns c'.2 (window_page_size window)) summary)
              end)
      else read_loop window retained_limit summary events' d' c'
    end
  end.

Definition decode_window_until_shutdown (window : QueryWindow) (l : QueryLimits) (shutdown : bool)
    (summary : option SqlExecutionSummary) (events : list SourceEvent) : option (IpcResult DecodedQueryOutcome) :=
  match validate_free_sql_window (skip_rows window) (window_page_size window) with
  | Err e => Some (Err e)
  | Ok _ =>
    if shutdown then Some (Err query_canceled)
    else
      match checked_add_u64 (window_page_size window) 1 with
      | None => Some (Err (validation_failed (lit "ClickHouse page size is too large")))
      | Some retained_limit => read_loop window retained_limit summary events (new_decoder l) (0%Z, [])
      end
  end.
End format.

(** ** Reading the whole text at once *)

(** The complete lines of a text and what follows the last of them. *)
Fixpoint text_lines (s : list Z) : list (list Z) * list Z :=
  match s with
  | [] => ([], [])
  | c :: s' =>
    let '(ls, tail) := text_lines s' in
    if (c =? c_nl)%Z then ([] :: ls, tail)
    else match ls with l :: ls' => ((c :: l) :: ls', tail) | [] => ([], c :: tail) end
  end.

Definition frames (s : list Z) : list (list Z) :=
  List.filter (fun f => negb (blank f)) (map strip_cr (text_lines s).1).
Definition text_tail (s : list Z) : list Z := (text_lines s).2.

Lemma text_lines_split s :
  text_lines s = match split_at_first [c_nl] s with
                 | None => ([], s)
                 | Some (line, rest) => (line :: (text_lines rest).1, (text_lines rest).2)
                 end.
Proof.
  induction s as [|c s IH]; [done|]. cbn [text_lines split_at_first strip_prefix]. rewrite (Z.eqb_sym c).
  destruct (c_nl =? c)%Z; [by destruct (text_lines s)|].
  rewrite IH. by destruct (split_at_first [c_nl] s) as [[line rest]|].
Qed.

Lemma text_lines_app s x :
  match split_at_first [c_nl] s with
  | Some (line, rest) => text_lines (s ++ x) = (line :: (text_lines (rest ++ x)).1, (text_lines (rest ++ x)).2)
  | None => True
  end.
Proof.
  destruct (split_at_first [c_nl] s) as [[line rest]|] eqn:E; [|done].
  revert line E. induction s as [|c s IH]; intros line E; [done|]. cbn [split_at_first strip_prefix] in E.
  rewrite Z.eqb_sym in E. cbn [app text_lines]. destruct (c =? c_nl)%Z.
  - injection E as <- <-. by destruct (text_lines (s ++ x)).
  - destruct (split_at_first [c_nl] s) as [[a b]|]; [|done]. injection E as <- ->. by rewrite (IH a eq_refl).
Qed.

Section reference.
Context {J : JsonNumber} {V : ValueSerde} {F : FrameSerde}.
Context (l : QueryLimits) (window : QueryWindow).

Abbreviation skip := (skip_rows window).
Abbreviation page := (window_page_size window).

(** The result of a response of which the whole text is at hand: the two headers, then
    rows up to the one after the page.  An incomplete last line only matters when the
    reading gets that far. *)
Definition reference (bytes : list Z) : IpcResult (list ColumnMeta * list (list Value)) :=
  let complete := blank (text_tail bytes) in
  match frames bytes with
  | [] => if complete then Ok ([], []) else Err incomplete_frame
  | names_frame :: fs =>
    names ← decode_names names_frame;
    match fs with
    | [] =>
      Err (if complete then decode_error "missing_types" (lit "response ended before the types header") else incomplete_frame)
    | types_frame :: row_frames =>
      header ← decode_types names types_frame;
      let wanted := Z.to_nat (skip + page + 1) in
      rows ← try_map (decode_row l header.*1 header.*2) (take wanted row_frames);
      if (wanted <=? length row_frames) || complete then Ok (header.*1, drop (Z.to_nat skip) rows) else Err incomplete_frame
    end
  end.

(** The same, frame by frame from a state of the decoder and of the closure. *)
Fixpoint run (fs : list (list Z)) (complete : bool) (st : DecoderState) (saw : bool) (c : Z * list (list Value))
  : IpcResult (list ColumnMeta * list (list Value)) :=
  match fs with
  | [] =>
    if negb complete then Err incomplete_frame
    else match st with
      | Names => if negb saw then Ok ([], c.2) else Err (decode_error "missing_names" (lit "response did not contain a names header"))
      | TypesAfter _ => Err (decode_error "missing_types" (lit "response ended before the types header"))
      | Rows columns _ => Ok (columns, c.2)
      end
  | f :: fs' =>
    match st with
    | Names => names ← decode_names f; run fs' complete (TypesAfter names) true c
    | TypesAfter names => header ← decode_types names f; run fs' complete (Rows header.*1 header.*2) true c
    | Rows columns types =>
      row ← decode_row l columns types f;
      let '(stop, c') := window_row skip (page + 1) row c in
      if stop then Ok (columns, c'.2) else run fs' complete st true c'
    end
  end.

Definition run_text (s : list Z) : DecoderState -> bool -> Z * list (list Value) -> _ :=
  run (frames s) (blank (text_tail s)).

(** What is left to do after [frame_loop]. *)
Definition after_loop (x : list Z) (r : IpcResult (bool * list Z) * FormatDecoder * (Z * list (list Value)))
  : IpcResult (list ColumnMeta * list (list Value)) :=
  match r with
  | (Err e, _, _) => Err e
  | (Ok (true, _), d, c) => match decoder_columns d with Some columns => Ok (columns, c.2) | None => Err incomplete_frame end
  | (Ok (false, rest), d, c) => run_text (rest ++ x) (decoder_state d) (saw_frame d) c
  end.

Lemma frame_loop_run n rest d c x :
  length rest < n -> limits d = l ->
  run_text (rest ++ x) (decoder_state d) (saw_frame d) c
  = after_loop x (frame_loop (window_row skip (page + 1)) n rest d c).
Proof.
  revert rest d c. induction n as [|n IH]; intros rest d c Hn Hl; [lia|]. cbn [frame_loop].
  pose proof (text_lines_app rest x) as Ht. destruct (split_at_first [c_nl] rest) as [[line rest']|] eqn:E; [|done].
  apply split_at_first_length in E. cbn [length] in E. unfold run_text, frames, text_tail. rewrite Ht. cbn [fst snd map List.filter].
  fold (frames (rest' ++ x)). fold (text_tail (rest' ++ x)). destruct (blank (strip_cr line)) eqn:Hb; cbn [negb].
  - apply IH; [lia|done].
  - cbn [run]. unfold process_frame. cbn [set_saw_frame decoder_state limits].
    destruct (decoder_state d) as [|names|columns types] eqn:Hs.
    + destruct (decode_names (strip_cr line)) as [names|e]; cbn [mbind Result_bind]; [|done]. rewrite <-IH; [done|lia|done].
    + destruct (decode_types names (strip_cr line)) as [header|e]; cbn [mbind Result_bind]; [|done]. rewrite <-IH; [done|lia|done].
    + rewrite Hl. destruct (decode_row l columns types (strip_cr line)) as [row|e]; cbn [mbind Result_bind]; [|done].
      destruct (window_row skip (page + 1) row c) as [[] c']; [done|]. rewrite <-IH; [done|lia|done].
Qed.

(** A stop is only asked for when the columns are known. *)
Lemma frame_loop_stop n rest d c rest' d' c' :
  frame_loop (window_row skip (page + 1)) n rest d c = (Ok (true, rest'), d', c') -> exists columns, decoder_columns d' = Some columns.
Proof.
  revert rest d c. induction n as [|n IH]; intros rest d c; cbn [frame_loop]; [done|].
  destruct (split_at_first [c_nl] rest) as [[line r]|]; [|done]. destruct (blank _); [apply IH|]. unfold process_frame.
  destruct (decoder_state (set_saw_frame d)) as [|names|columns types].
  - destruct (decode_names _); [apply IH|done].
  - destruct (decode_types _ _); [apply IH|done].
  - destruct (decode_row _ _ _ _); [|done]. destruct (window_row _ _ _ _) as [[] c1]; [|apply IH].
    intros [= <- <- <-]. by eexists.
Qed.

Lemma frame_loop_limits n rest d c :
  limits (frame_loop (window_row skip (page + 1)) n rest d c).1.2 = limits d /\
  response_bytes (frame_loop (window_row skip (page + 1)) n rest d c).1.2 = response_bytes d.
Proof.
  revert rest d c. induction n as [|n IH]; intros rest d c; cbn [frame_loop]; [done|].
  destruct (split_at_first [c_nl] rest) as [[line r]|]; [|done]. destruct (blank _); [apply IH|]. unfold process_frame.
  destruct (decoder_state (set_saw_frame d)) as [|names|columns types].
  - destruct (decode_names _); [|done]. by rewrite !(proj1 (IH _ _ _)), !(proj2 (IH _ _ _)).
  - destruct (decode_types _ _); [|done]. by rewrite !(proj1 (IH _ _ _)), !(proj2 (IH _ _ _)).
  - destruct (decode_row _ _ _ _); [|done]. destruct (window_row _ _ _ _) as [[] c1]; [done|].
    by rewrite !(proj1 (IH _ _ _)), !(proj2 (IH _ _ _)).
Qed.

(** The loop leaves no complete line behind. *)
Lemma frame_loop_rest n rest d c rest' d' c' :
  length rest < n -> frame_loop (window_row skip (page + 1)) n rest d c = (Ok (false, rest'), d', c') ->
  split_at_first [c_nl] rest' = None.
Proof.
  revert rest d c. induction n as [|n IH]; intros rest d c Hn; cbn [frame_loop]; [lia|].
  destruct (split_at_first [c_nl] rest) as [[line r]|] eqn:E; [|by intros [= <- _ _]].
  apply split_at_first_length in E. cbn [length] in E. destruct (blank _); [apply IH; lia|].
  destruct (process_frame _ _) as [[[row|]|e] d1]; [| |done]; [|apply IH; lia].
  destruct (window_row _ _ _ _) as [[] c1]; [done|apply IH; lia].
Qed.

Definition outcome (summary : option SqlExecutionSummary) (r : IpcResult (list ColumnMeta * list (list Value)))
  : IpcResult DecodedQueryOutcome :=
  result ← r; Ok (mkDecodedQueryOutcome (readonly_query_result result.1 result.2 page) summary).

Lemma read_loop_run summary chunks d c :
  limits d = l -> (max_response_bytes l <= U64_MAX)%Z -> split_at_first [c_nl] (pending_frame d) = None ->
  (0 <= response_bytes d)%Z -> (response_bytes d + Z.of_nat (length (concat chunks)) <= max_response_bytes l)%Z ->
  read_loop window (page + 1) summary (map NextChunk chunks ++ [EndOfStream]) d c
  = Some (outcome summary (run_text (pending_frame d ++ concat chunks) (decoder_state d) (saw_frame d) c)).
Proof.
  intros Hl Hmax. revert d c Hl. induction chunks as [|chunk chunks IH]; intros d c Hl Hp Hb Ht; cbn [map app read_loop].
  - unfold outcome, run_text, frames, text_tail, finish. cbn [concat]. rewrite app_nil_r, text_lines_split, Hp. cbn [fst snd map List.filter run].
    destruct (blank (pending_frame d)); cbn [negb]; [|done].
    destruct (decoder_state d) as [|names|columns types]; [|done|done]. by destruct (saw_frame d).
  - cbn [concat] in *. rewrite length_app in Ht. unfold push_with_rows, checked_add_u64.
    destruct (Z.leb_spec (response_bytes d + Z.of_nat (length chunk)) U64_MAX); [|lia].
    change (limits (set_response_bytes _ d)) with (limits d). rewrite Hl. destruct (Z.ltb_spec (max_response_bytes l) (response_bytes d + Z.of_nat (length chunk))); [lia|].
    change (pending_frame (set_response_bytes _ d)) with (pending_frame d). rewrite app_assoc.
    set (pending := pending_frame d ++ chunk). set (d1 := set_pending pending _).
    pose proof (frame_loop_run (S (length pending)) pending d1 c (concat chunks) ltac:(lia) Hl) as Hr.
    pose proof (frame_loop_limits (S (length pending)) pending d1 c) as [Hl1 Hl2].
    pose proof (fun r d' c' => frame_loop_rest (S (length pending)) pending d1 c r d' c' ltac:(lia)) as Hrest.
    pose proof (frame_loop_stop (S (length pending)) pending d1 c) as Hstop. change (decoder_state d1) with (decoder_state d) in Hr. change (saw_frame d1) with (saw_frame d) in Hr. rewrite Hr.
    destruct (frame_loop _ _ _ _) as [[[[[] rest]|e] d2] c2]; cbn [fst snd after_loop] in *; [| |done].
    + destruct (Hstop _ _ _ eq_refl) as [columns Hc]. unfold decoder_columns in *. cbn [set_pending decoder_state].
      destruct (decoder_state d2); [discriminate Hc|discriminate Hc|reflexivity].
    + rewrite IH; cbn [set_pending limits pending_frame response_bytes decoder_state saw_frame]; try done.
      * by rewrite Hl1.
      * by eapply Hrest.
      * rewrite Hl2. cbn. lia.
      * rewrite Hl2. cbn. lia.
Qed.

(** The rows, from a state of the closure in which [k] more are wanted. *)
Lemma run_rows columns types complete fs skipped retained :
  (0 <= skipped <= skip)%Z -> (retained <> [] -> skipped = skip) -> (1 <= page)%Z -> (Z.of_nat (length retained) <= page)%Z ->
  run fs complete (Rows columns types) true (skipped, retained)
  = (let wanted := Z.to_nat (skip - skipped + (page + 1 - Z.of_nat (length retained))) in
     rows ← try_map (decode_row l columns types) (take wanted fs);
     if (wanted <=? length fs) || complete then Ok (columns, retained ++ drop (Z.to_nat (skip - skipped)) rows) else Err incomplete_frame).
Proof.
  revert skipped retained. induction fs as [|f fs IH]; intros skipped retained Hs Hr Hp Hl; cbn zeta.
  - cbn [run]. rewrite take_nil. cbn [try_map mbind Result_bind length]. rewrite drop_nil, app_nil_r.
    destruct (Nat.leb_spec (Z.to_nat (skip - skipped + (page + 1 - Z.of_nat (length retained)))) 0); [lia|]. by destruct complete.
  - cbn [run].
    destruct (Z.to_nat (skip - skipped + (page + 1 - Z.of_nat (length retained)))) as [|w] eqn:Hw; [lia|].
    cbn [take try_map]. destruct (decode_row l columns types f) as [row|e]; cbn [mbind Result_bind]; [|done].
    unfold window_row. destruct (Z.ltb_spec skipped skip) as [Hlt|Hge].
    + rewrite IH; [|lia|intros H; by specialize (Hr H); lia|done|done]. cbn zeta.
      replace (Z.to_nat (skip - (skipped + 1) + (page + 1 - Z.of_nat (length retained)))) with w by lia.
      destruct (try_map _ (take w fs)) as [rows|e]; cbn [mbind Result_bind length]; [|done].
      replace (Z.to_nat (skip - skipped)) with (S (Z.to_nat (skip - (skipped + 1)))) by lia. done.
    + assert (skipped = skip) as -> by lia. rewrite Z.sub_diag. cbn [Z.to_nat drop].
      destruct (Z.leb_spec (page + 1) (Z.of_nat (length (retained ++ [row])))) as [Hfull|Hmore];
        rewrite length_app in *; cbn [length] in *.
      * assert (w = 0) as -> by lia. cbn [take try_map mbind Result_bind]. done.
      * rewrite IH; [|lia|done|done|rewrite length_app; cbn [length]; lia]. cbn zeta. rewrite length_app. cbn [length].
        replace (Z.to_nat (skip - skip + (page + 1 - Z.of_nat (length retained + 1)))) with w by lia.
        destruct (try_map _ (take w fs)) as [rows|e]; cbn [mbind Result_bind length]; [|done].
        rewrite Z.sub_diag. cbn [Z.to_nat drop]. by rewrite <-app_assoc.
Qed.

Lemma run_reference bytes : (0 <= skip)%Z -> (1 <= page)%Z -> run_text bytes Names false (0%Z, []) = reference bytes.
Proof.
  intros Hs Hp. unfold run_text, reference. destruct (frames bytes) as [|f0 fs]; cbn [run]; [by destruct (blank _)|].
  destruct (decode_names f0) as [names|e]; cbn [mbind Result_bind]; [|done].
  destruct fs as [|f1 fs]; cbn [run]; [by destruct (blank _)|].
  destruct (decode_types names f1) as [header|e]; cbn [mbind Result_bind]; [|done].
  rewrite run_rows by (done || cbn; lia). cbn [length Z.of_nat]. cbn zeta. rewrite !Z.sub_0_r.
  replace (skip + (page + 1))%Z with (skip + page + 1)%Z by lia. done.
Qed.

(** C36: How the network cuts a response into chunks makes no difference: whatever the
    chunks, the result of reading them (the columns, the rows of the page, whether there
    is a next page, or the error) is that of the whole text read at once, as long as the
    response is within its size limit. *)
Theorem decoding_ignores_chunks summary chunks :
  (0 <= skip <= MAX_FREE_SQL_SKIP_ROWS)%Z -> (1 <= page <= MAX_PAGE_SIZE)%Z ->
  (Z.of_nat (length (concat chunks)) <= max_response_bytes l <= U64_MAX)%Z ->
  decode_window_until_shutdown window l false summary (map NextChunk chunks ++ [EndOfStream])
  = Some (outcome summary (reference (concat chunks))).
Proof.
  intros Hs Hp Hb. unfold decode_window_until_shutdown.
  assert (validate_free_sql_window skip page = Ok tt) as ->.
  { pose proof (proj2 (validate_window_spec skip page)) as H. destruct (validate_free_sql_window skip page) as [[]|]; [done|]. exfalso.
    by specialize (H ltac:(lia)). }
  unfold checked_add_u64. destruct (Z.leb_spec (page + 1) U64_MAX); [|unfold MAX_PAGE_SIZE, U64_MAX in *; lia].
  rewrite read_loop_run by (done || cbn; lia). cbn [new_decoder pending_frame decoder_state saw_frame app].
  rewrite run_reference by lia. done.
Qed.
End reference.

(** ** Rows fit their columns *)

Section rows.
Context {J : JsonNumber} {V : ValueSerde} {F : FrameSerde}.
Context (l : QueryLimits) (Hnodes : (max_nodes (value_budget l) < U64_MAX)%Z).

(** A type inside of the wrappers that a column's metadata looks through. *)
Inductive wraps : ClickHouseType -> ClickHouseType -> Prop :=
| wraps_itself t : wraps t t
| wraps_nullable t u : wraps t u -> wraps (ChNullable t) u
| wraps_low_cardinality t u : wraps t u -> wraps (ChLowCardinality t) u.

(** A column describes the type that its type name stands for. *)
Record describes (column : ColumnMeta) (ty : ClickHouseType) : Prop := {
  de_type : parse_type (cm_type_name column) = Ok ty;
  de_nullable : cm_nullable column = is_nullable ty;
  de_category : cm_data_category column = data_category ty;
  de_writable : cm_is_writable column = false;
  de_decimal bits precision scale : wraps ty (ChDecimal bits precision scale) ->
    cm_numeric_precision column = Some precision /\ cm_numeric_scale column = Some scale;
  de_enum bits variants : wraps ty (ChEnum bits variants) -> cm_enum_values column = Some variants.*1;
}.

Lemma wraps_unwrap ty u : wraps ty u -> (forall t, u <> ChNullable t /\ u <> ChLowCardinality t) -> unwrap_metadata_type ty = u.
Proof. induction 1 as [u| |]; intros Hu; [|by apply IHwraps..]. destruct u; try done; by destruct (Hu u). Qed.

Lemma column_meta_describes name type_name ty : parse_type type_name = Ok ty -> describes (column_meta name type_name ty) ty.
Proof.
  intros H. split; unfold column_meta; try (by destruct (unwrap_metadata_type ty)).
  - intros bits precision scale ->%wraps_unwrap; done.
  - intros bits variants ->%wraps_unwrap; done.
Qed.

Lemma column_meta_named name type_name ty : cm_name (column_meta name type_name ty) = name /\ cm_type_name (column_meta name type_name ty) = type_name.
Proof. unfold column_meta. by destruct (unwrap_metadata_type ty). Qed.

(** The columns of two header lines: their names and type names are those of the lines. *)
Definition columns_of (names_frame types_frame : list Z) (columns : list ColumnMeta) : Prop :=
  names_from_slice names_frame = Ok (map cm_name columns) /\ names_from_slice types_frame = Ok (map cm_type_name columns).

Lemma header_describes names type_names header :
  length names = length type_names -> header_columns names type_names = Ok header ->
  Forall2 describes header.*1 header.*2 /\ Forall type_ok header.*2 /\ map cm_name header.*1 = names /\ map cm_type_name header.*1 = type_names.
Proof.
  unfold header_columns. revert type_names header. induction names as [|name names IH]; intros [|type_name type_names] header Hlen H; try done.
  { injection H as <-. by repeat constructor. }
  cbn [zip zip_with try_map] in H. bind_inv. subst header. injection Hlen as Hlen. destruct (IH _ _ Hlen E0) as (H1 & H2 & H3 & H4).
  destruct (parse_type type_name) as [t|e] eqn:Ht; [|done]. injection E as <-. pose proof (parse_type_total type_name) as Hok.
  rewrite Ht in Hok. cbn [fmap list_fmap map fst snd]. destruct (column_meta_named name type_name t) as [-> ->].
  split_and!; [constructor; [by apply column_meta_describes|done]|by constructor|by f_equal|by f_equal].
Qed.

Lemma decode_types_describes names names_frame frame header : names_from_slice names_frame = Ok names ->
  decode_types names frame = Ok header ->
  Forall2 describes header.*1 header.*2 /\ Forall type_ok header.*2 /\ columns_of names_frame frame header.*1.
Proof.
  unfold decode_types, parse_json_frame. intros Hn H. bind_inv. destruct (Nat.eqb_spec (length a) (length names)) as [Hl|]; [|done].
  destruct (names_from_slice frame) as [type_names|] eqn:Et; [|done]. injection E as <-.
  destruct (header_describes names type_names header) as (H1 & H2 & H3 & H4); [done|done|].
  split_and!; [done|done|]. split; [by rewrite H3|by rewrite H4].
Qed.

Lemma decode_row_shape columns types frame row :
  Forall type_ok types -> length columns = length types -> decode_row l columns types frame = Ok row -> Forall2 shape types row.
Proof using Hnodes.
  intros Hok Hlen. unfold decode_row. destruct (_ <? _)%Z; [done|]. intros H. bind_inv.
  destruct (Nat.eqb_spec (length a) (length columns)) as [Hl|]; [|done]. cbn [negb] in H. clear E.
  assert (Hla : length a = length types) by lia. clear Hlen Hl columns. apply try_map_Ok in H.
  revert a row Hla H. induction Hok as [|ty types Ht Hts IH]; intros [|v a] row Hla H; try done; inversion H as [|? w ? ws Hw Hws]; subst.
  - constructor.
  - constructor; [|eapply IH; [|done]; by injection Hla]. cbn [fst snd] in Hw.
    pose proof (normalize_value_fits (value_budget l) Hnodes ty v Ht) as Hf. rewrite Hw in Hf. apply Hf.
Qed.

(** The bytes that arrive before the response ends. *)
Fixpoint received (events : list SourceEvent) : list Z :=
  match events with
  | NextChunk chunk :: events => chunk ++ received events
  | ShutdownChanged _ :: events => received events
  | _ => []
  end.

(** Of the lines [all] of the response those before [rest] have been read: the header lines
    give the columns, and the rows kept so far are rows of these. *)
Definition decoder_ok (all : list (list Z)) (d : FormatDecoder) (rest : list Z) (rows : list (list Value)) : Prop :=
  limits d = l /\ exists read, all = read ++ frames rest /\
  match decoder_state d with
  | Names => rows = [] /\ read = []
  | TypesAfter names => rows = [] /\ exists f, read = [f] /\ names_from_slice f = Ok names
  | Rows columns types =>
    Forall2 describes columns types /\ Forall type_ok types /\ Forall (Forall2 shape types) rows
    /\ exists f0 f1 read', read = f0 :: f1 :: read' /\ columns_of f0 f1 columns
  end.

Lemma frames_line rest line rest' x : split_at_first [c_nl] rest = Some (line, rest') ->
  frames (rest ++ x) = (if blank (strip_cr line) then [] else [strip_cr line]) ++ frames (rest' ++ x).
Proof.
  intros E. pose proof (text_lines_app rest x) as Ht. rewrite E in Ht. unfold frames. rewrite Ht. cbn. by destruct (blank _).
Qed.

Lemma frame_loop_ok all later skip limit n rest d c stopped rest1 d' c' :
  decoder_ok all d (rest ++ later) c.2 -> frame_loop (window_row skip limit) n rest d c = (Ok (stopped, rest1), d', c') ->
  decoder_ok all d' (rest1 ++ later) c'.2.
Proof using Hnodes.
  revert rest d c. induction n as [|n IH]; intros rest d c Hd; cbn [frame_loop]; [by intros [= _ <- <- <-]|].
  destruct (split_at_first [c_nl] rest) as [[line rest']|] eqn:E; [|by intros [= _ <- <- <-]].
  destruct Hd as (Hl & read & Hall & Hd). rewrite (frames_line _ _ _ later E) in Hall. destruct (blank (strip_cr line)).
  { apply IH. split; [done|]. by exists read. }
  unfold process_frame. cbn [set_saw_frame decoder_state limits]. rewrite app_assoc in Hall.
  destruct (decoder_state d) as [|names|columns types] eqn:Hs.
  - destruct Hd as [Hc ->]. destruct (decode_names _) as [names|] eqn:Hn; [|done]. apply IH. split; [done|]. exists [strip_cr line].
    split; [done|]. split; [done|]. exists (strip_cr line). split; [done|]. unfold decode_names, parse_json_frame in Hn.
    destruct (names_from_slice _); [by injection Hn as ->|done].
  - destruct Hd as (Hc & f & -> & Hf). destruct (decode_types names _) as [header|] eqn:Ht; [|done].
    destruct (decode_types_describes _ _ _ _ Hf Ht) as (H1 & H2 & H3). apply IH. split; [done|]. exists [f; strip_cr line].
    split; [done|]. cbn [set_decoder_state decoder_state]. rewrite Hc. split_and!; try done. by exists f, (strip_cr line), [].
  - destruct Hd as (H1 & H2 & H3 & f0 & f1 & read' & -> & H4). destruct (decode_row _ _ _ _) as [row|] eqn:Hr; [|done]. rewrite Hl in Hr.
    apply decode_row_shape in Hr; [|done|by eapply Forall2_length]. destruct c as [skipped retained]. unfold window_row. cbn [snd] in H3.
    assert (Hok : forall d1 rows, limits d1 = l -> decoder_state d1 = Rows columns types -> Forall (Forall2 shape types) rows ->
      decoder_ok all d1 (rest' ++ later) rows).
    { intros d1 rows Hl1 Hs1 Hrows. split; [done|]. exists ((f0 :: f1 :: read') ++ [strip_cr line]). split; [done|]. rewrite Hs1. split_and!; try done.
      by exists f0, f1, (read' ++ [strip_cr line]). }
    assert (Forall (Forall2 shape types) (retained ++ [row])) by (apply Forall_app; split; [done|by constructor]).
    destruct (_ <? _)%Z; [apply IH; by apply Hok|]. destruct (_ <=? _)%Z; [intros [= _ <- <- <-]; by apply Hok|apply IH; by apply Hok].
Qed.

Lemma blank_lines s : blank s = true -> Forall (fun line => blank line = true) (text_lines s).1 .
Proof.
  induction s as [|c s IH]; [constructor|]. unfold blank. cbn [forallb text_lines]. intros [Hc Hs]%andb_true_iff. specialize (IH Hs).
  destruct (text_lines s) as [ls tail]. cbn [fst] in IH. destruct (c =? c_nl)%Z; [by constructor|]. destruct ls as [|line ls]; [done|].
  apply Forall_cons in IH as [H1 H2]. constructor; [|done]. unfold blank. cbn. by rewrite Hc.
Qed.

Lemma blank_strip_cr line : blank line = true -> blank (strip_cr line) = true.
Proof.
  unfold strip_cr, blank. intros H. destruct (rev line) as [|c r] eqn:E; [done|]. destruct (_ =? _)%Z; [|done].
  apply forallb_forall. intros x Hx. rewrite forallb_forall in H. apply H. apply in_rev. rewrite E. right. by apply in_rev.
Qed.

Lemma blank_no_frames s : blank s = true -> frames s = [].
Proof.
  intros H%blank_lines. unfold frames. induction H as [|line ls Hl _ IH]; [done|]. cbn. by rewrite blank_strip_cr.
Qed.

(** The columns are those of the first two lines of the text; of a text without lines there
    are none. *)
Definition header_of (text : list Z) (columns : list ColumnMeta) : Prop :=
  match frames text with
  | names_frame :: types_frame :: _ => columns_of names_frame types_frame columns
  | [] => columns = []
  | [_] => False
  end.

(** C37: Whatever arrives, a result that is delivered is well typed. Its columns are those
    of the first two lines that arrived, with the names of the first and the type names of
    the second, in order; each column describes the type that its type name stands for
    (whether it is nullable, its category, the precision and scale of a decimal, the labels
    of an enumeration) and is not writable. Every row has one value per column, each of the
    shape of the column's type, and the page is not longer than asked for. A response
    without lines gives no columns. *)
Theorem delivered_rows_match_columns window summary events result :
  decode_window_until_shutdown window l false summary events = Some (Ok result) ->
  exists types, Forall2 describes (qr_columns (dq_result result)) types /\
    header_of (received events) (qr_columns (dq_result result)) /\
    Forall (Forall2 shape types) (qr_rows (dq_result result)) /\
    (Z.of_nat (length (qr_rows (dq_result result))) <= window_page_size window)%Z.
Proof using Hnodes.
  unfold decode_window_until_shutdown. destruct (validate_free_sql_window _ _) as [[]|] eqn:Hv; [|done].
  assert (Hp : (1 <= window_page_size window)%Z).
  { pose proof (proj1 (validate_window_spec (skip_rows window) (window_page_size window))) as H. rewrite Hv in H. by apply H. }
  destruct (checked_add_u64 _ _) as [limit|]; [|done]. unfold header_of.
  assert (Hd : decoder_ok (frames (received events)) (new_decoder l) (pending_frame (new_decoder l) ++ received events) (0%Z, @nil (list Value)).2)
    by (split; [done|]; by exists []).
  revert Hd. generalize (frames (received events)) as all. generalize (new_decoder l), (0%Z, @nil (list Value)).
  induction events as [|[closing|chunk| |e] events IH]; intros d c all Hd H; cbn [read_loop] in H; try done.
  - destruct closing; [done|]. by eapply IH.
  - destruct (push_with_rows _ chunk d c) as [[[stopped|e] d'] c'] eqn:E; [|done].
    assert (Hd' : decoder_ok all d' (pending_frame d' ++ received events) c'.2).
    { cbn [received] in Hd. rewrite app_assoc in Hd. unfold push_with_rows in E. destruct (checked_add_u64 _ _); [|done]. destruct (_ <? _)%Z; [done|].
      destruct (frame_loop _ _ _ _) as [[[[st rest]|] d1] c1] eqn:Hf; [|done]. injection E as _ <- <-.
      eapply frame_loop_ok in Hf; [exact Hf|]. exact Hd. }
    destruct stopped; [|by eapply IH]. destruct Hd' as (_ & read & -> & Hd'). unfold decoder_columns in H.
    destruct (decoder_state d') as [| |columns types]; [done..|]. injection H as <-. destruct Hd' as (H1 & H2 & H3 & f0 & f1 & read' & -> & H4).
    exists types. cbn. split_and!; [done|done|by apply Forall_take|rewrite length_take; lia].
  - destruct (finish d) as [decoded|] eqn:Hf; [|done]. injection H as <-. unfold finish in Hf. destruct Hd as (_ & read & -> & Hd).
    destruct (blank (pending_frame d)) eqn:Hb; [|done]. cbn [negb] in Hf. destruct (decoder_state d) as [| |columns types]; [|done|].
    + destruct (negb _); [|done]. injection Hf as <-. destruct Hd as [Hc ->]. exists []. cbn [received]. rewrite app_nil_r, (blank_no_frames _ Hb).
      cbn. rewrite Hc, take_nil. cbn. by split_and!; [| | |lia].
    + injection Hf as <-. destruct Hd as (H1 & H2 & H3 & f0 & f1 & read' & -> & H4). exists types. cbn.
      split_and!; [done|done|by apply Forall_take|rewrite length_take; lia].
Qed.
End rows.

(** ** Examples *)

(** Flat arrays of integers and of texts without commas, for the examples. *)
Definition demo_items (frame : list Z) : option (list str) :=
  match frame with
  | c :: r =>
    if (c =? c_lbracket)%Z then
      match rev r with
      | c' :: body => if (c' =? c_rbracket)%Z then Some (split_char c_comma (rev body)) else None
      | [] => None
      end
    else None
  | [] => None
  end.

Definition demo_unquote (s : str) : str := List.filter (fun c => negb (c =? c_dquote)%Z) s.

Definition demo_frame_serde : FrameSerde (J:=IntegerNumber) :=
  @Build_FrameSerde IntegerNumber
    (fun frame => match demo_items frame with
                  | Some items => Ok (map demo_unquote items)
                  | None => Err (mkFrameError 1 0 (lit "Syntax"))
                  end)
    (fun frame => match demo_items frame with
                  | Some items => Ok (map (fun s => match parse_int (- U64_MAX) U64_MAX s with
                                                    | Some n => VNumber (J:=IntegerNumber) n
                                                    | None => VString (demo_unquote s)
                                                    end) items)
                  | None => Err (mkFrameError 1 0 (lit "Syntax"))
                  end).

Definition demo_lines (ls : list str) : list Z := concat (map (fun s => s ++ [c_nl]) ls).
Definition demo_quoted (s : string) : str := [c_dquote] ++ lit s ++ [c_dquote].
Definition demo_list (items : list str) : str := [c_lbracket] ++ join [c_comma] items ++ [c_rbracket].

Definition demo_response : list Z :=
  demo_lines [demo_list [demo_quoted "id"; demo_quoted "price"]; demo_list [demo_quoted "UInt8"; demo_quoted "Decimal32(2)"];
              demo_list [lit "1"; demo_quoted "2.5"]; demo_list [lit "2"; demo_quoted "7"]; demo_list [lit "3"; lit "9"]].

Definition demo_window : QueryWindow := mkQueryWindow 1 1.

(** Three chunks that cut a header, a row and a number. *)
Definition demo_chunks : list (list Z) :=
  [take 5 demo_response; take 50 (drop 5 demo_response); drop 55 demo_response].

Lemma decoding_ignores_chunks_witness :
  exists out, decode_window_until_shutdown (V:=demo_value_serde) (F:=demo_frame_serde) demo_window default_query_limits false None
    (map NextChunk demo_chunks ++ [EndOfStream]) = Some (Ok out) /\
  qr_rows (dq_result out) = [[VNumber (J:=IntegerNumber) 2%Z; VString (lit "7.00")]] /\
  qr_has_next_page (dq_result out) = true.
Proof.
  eexists. split; [|split].
  - rewrite (decoding_ignores_chunks (V:=demo_value_serde) (F:=demo_frame_serde) default_query_limits demo_window None demo_chunks);
      [reflexivity|vm_compute; split; discriminate|vm_compute; split; discriminate|vm_compute; split; discriminate].
  - reflexivity.
  - reflexivity.
Defined.

Lemma delivered_rows_match_columns_witness :
  exists out types, decode_window_until_shutdown (V:=demo_value_serde) (F:=demo_frame_serde) demo_window default_query_limits false None
    (map NextChunk demo_chunks) = Some (Ok out) /\
  Forall2 describes (qr_columns (dq_result out)) types /\
  header_of (F:=demo_frame_serde) (received (map NextChunk demo_chunks)) (qr_columns (dq_result out)) /\
  Forall (Forall2 (shape (V:=demo_value_serde)) types) (qr_rows (dq_result out)).
Proof.
  assert (H : exists out, decode_window_until_shutdown (V:=demo_value_serde) (F:=demo_frame_serde) demo_window default_query_limits false None
    (map NextChunk demo_chunks) = Some (Ok out)) by (eexists; reflexivity).
  destruct H as [out H]. exists out.
  destruct (delivered_rows_match_columns (V:=demo_value_serde) (F:=demo_frame_serde) default_query_limits eq_refl demo_window None (map NextChunk demo_chunks) out H)
    as (types & H1 & H2 & H3 & _). exists types. exact (conj H (conj H1 (conj H2 H3))).
Defined.
