(* ===== verification/SqlAnalysis.v ===== *)
(** * Risk analysis of AI-written SQL
    ([src-tauri/src/ai_runtime/backend_bridge/sql.rs], everything but the framing scanner)

    The request checks of the [sql.execute] tool and, per driver, the analysis that
    turns a framed statement into the risk shown to the user before approval. *)

From stdpp Require Import base list strings.
From Stdlib Require Import ZArith Lia.
From S2P Require Import Prelude Errors Types Framing ClickHouseSql.

(** ** The request *)

Definition SQL_DEFAULT_PAGE_SIZE : Z := 50.
Definition SQL_MAX_PAGE_SIZE : Z := 100.

Record SqlToolRequest := mkSqlToolRequest {
  profile_id : str;
  req_database : option str;
  req_schema : option str;
  req_sql : str;
  req_page_size : Z;
}.

(** [#[serde(default = "default_page_size")]]. *)
Definition default_page_size : Z := SQL_DEFAULT_PAGE_SIZE.

Definition target_invalid (target : str) : bool :=
  bool_decide (trim target = []) || (256 <? Z.of_nat (length target))%Z.

(** [SqlToolRequest::validate]. *)
Definition validate_request (r : SqlToolRequest) : Result str unit :=
  if bool_decide (trim (profile_id r) = []) then Err (lit "sql.execute profileId must not be empty")
  else if bool_decide (trim (req_sql r) = []) then Err (lit "sql.execute SQL must not be empty")
  else if (SQL_MAX_CHARS <? Z.of_nat (length (req_sql r)))%Z then
    Err (lit "sql.execute SQL exceeds the maximum length")
  else if (req_page_size r =? 0)%Z || (SQL_MAX_PAGE_SIZE <? req_page_size r)%Z then
    Err (lit "sql.execute pageSize is out of range")
  else if existsb target_invalid
      (omap (fun o => o) [req_database r; req_schema r]) then
    Err (lit "sql.execute target context is invalid")
  else Ok tt.

(** ** The analysis *)

Inductive SqlAnalysisStatus := Analyzed | Uncertain.

Inductive SqlToolStatementClass :=
| TRead | TInsert | TUpdate | TMutation | TDelete | TDdl | TCommand | TUnknown.

#[export] Instance SqlAnalysisStatus_eq_dec : EqDecision SqlAnalysisStatus.
Proof. solve_decision. Defined.
#[export] Instance SqlToolStatementClass_eq_dec : EqDecision SqlToolStatementClass.
Proof. solve_decision. Defined.

(** [SqlToolStatementClass::as_str]. *)
Definition class_as_str (c : SqlToolStatementClass) : str :=
  lit match c with
  | TRead => "read" | TInsert => "insert" | TUpdate => "update" | TMutation => "mutation"
  | TDelete => "delete" | TDdl => "ddl" | TCommand => "command" | TUnknown => "unknown"
  end.

Definition is_mutation (c : SqlToolStatementClass) : bool :=
  match c with
  | TInsert | TUpdate | TMutation | TDelete | TDdl | TCommand => true
  | _ => false
  end.

Record SqlAnalysis := mkSqlAnalysis {
  status : SqlAnalysisStatus;
  analyzed_class : SqlToolStatementClass;
  risk_level : str;
  reversible : bool;
  side_effects : list str;
  reasons : list str;
}.

Definition business_read : str := lit "business_read".
Definition business_write : str := lit "business_write".
Definition destructive_effect : str := lit "destructive".

Definition destructive (c : SqlToolStatementClass) (reason : string) : SqlAnalysis :=
  mkSqlAnalysis Analyzed c (lit "critical") false
    [business_read; business_write; destructive_effect] [lit reason].

Definition uncertain_critical (c : SqlToolStatementClass) (reason : string) : SqlAnalysis :=
  mkSqlAnalysis Uncertain c (lit "critical") false
    [business_read; business_write; destructive_effect] [lit reason].

(** The two literals the drivers share: a plain read and a bounded write. *)
Definition read_analysis (reason : string) : SqlAnalysis :=
  mkSqlAnalysis Analyzed TRead (lit "medium") true [business_read] [lit reason].
Definition write_analysis (c : SqlToolStatementClass) (reason : string) : SqlAnalysis :=
  mkSqlAnalysis Analyzed c (lit "high") false [business_read; business_write] [lit reason].

Definition classify_uncertain (keyword : str) : SqlToolStatementClass :=
  if one_of keyword ["SELECT"; "SHOW"; "DESCRIBE"; "DESC"; "EXPLAIN"; "WITH"]%string then TRead
  else if one_of keyword ["INSERT"; "MERGE"; "REPLACE"]%string then TInsert
  else if one_of keyword ["UPDATE"]%string then TUpdate
  else if one_of keyword ["DELETE"]%string then TDelete
  else if one_of keyword ["CREATE"; "ALTER"; "DROP"; "TRUNCATE"; "RENAME"]%string then TDdl
  else if one_of keyword ["CALL"; "EXEC"; "EXECUTE"; "BEGIN"; "COMMIT"; "ROLLBACK"]%string then TCommand
  else TUnknown.

Definition first_word (ws : list str) : str := match ws with w :: _ => w | [] => [] end.

Definition main_statement_keyword (ws : list str) : str :=
  let first := first_word ws in
  if negb (str_eqb first (lit "WITH")) then first
  else match List.find (fun w => one_of w ["SELECT"; "INSERT"; "REPLACE"; "UPDATE"; "DELETE"; "MERGE"]%string)
               (drop 1 ws) with
       | Some w => w
       | None => lit "WITH"
       end.

(** [["A", "B"].iter().any(|f| contains_any(f))]. *)
Definition contains_any_of (ws : list str) (ks : list string) : bool := existsb (contains_word ws) ks.

Definition analyze_sqlite (framing : StatementFraming) : Result str SqlAnalysis :=
  let keyword := first_word (words framing) in
  let contains := contains_word (words framing) in
  let contains_any := contains_word (all_words framing) in
  let is_kw := one_of keyword in
  if is_kw ["SELECT"] && contains_any "LOAD_EXTENSION" then
    Ok (uncertain_critical TRead "SQLite extension loading can have effects outside a normal read query.")
  else if is_kw ["SELECT"; "VALUES"; "EXPLAIN"] then
    Ok (read_analysis "SQLite classified the statement as read-only SQL.")
  else if is_kw ["INSERT"; "REPLACE"] then
    Ok (write_analysis TInsert "The SQLite statement inserts or replaces business data.")
  else if is_kw ["UPDATE"] && contains "WHERE" then
    Ok (write_analysis TUpdate "The SQLite UPDATE contains a top-level WHERE clause.")
  else if is_kw ["UPDATE"] then
    Ok (destructive TUpdate "The SQLite UPDATE has no top-level WHERE clause.")
  else if is_kw ["DELETE"] then
    Ok (destructive TDelete "SQLite DELETE statements require destructive confirmation.")
  else if is_kw ["CREATE"; "ALTER"; "DROP"; "VACUUM"; "REINDEX"; "ANALYZE"] then
    Ok (destructive TDdl "The SQLite statement can make irreversible schema or database changes.")
  else if is_kw ["PRAGMA"; "ATTACH"; "DETACH"] then
    Ok (destructive TCommand "The SQLite command can change connection or database state.")
  else if is_kw ["BEGIN"; "COMMIT"; "END"; "ROLLBACK"; "SAVEPOINT"; "RELEASE"] then
    Err (lit "Cross-call SQLite transaction commands are not supported")
  else
    Ok (uncertain_critical (classify_uncertain keyword)
          "SQLite statement framing is valid, but its effects cannot be analyzed precisely.").

Definition analyze_mysql (framing : StatementFraming) : Result str SqlAnalysis :=
  let keyword := main_statement_keyword (words framing) in
  let contains := contains_word (words framing) in
  let contains_any := contains_word (all_words framing) in
  let is_kw := one_of keyword in
  if is_kw ["SELECT"] && (contains "INTO" && (contains "OUTFILE" || contains "DUMPFILE")) then
    Ok (destructive TCommand
          "MySQL SELECT INTO OUTFILE/DUMPFILE writes outside the normal result channel.")
  else if is_kw ["SELECT"] && ((contains_any "FOR" && (contains_any "UPDATE" || contains_any "SHARE"))
                           || (contains_any "LOCK" && contains_any "SHARE")) then
    Ok (destructive TRead "The MySQL SELECT requests row locks and is not a side-effect-free read.")
  else if is_kw ["SELECT"] && contains_any_of (all_words framing)
      ["GET_LOCK"; "RELEASE_LOCK"; "SLEEP"; "BENCHMARK"; "LOAD_FILE"] then
    Ok (destructive TRead
          "The MySQL SELECT invokes a server function with locking, resource, or file effects.")
  else if is_kw ["SELECT"; "SHOW"; "DESCRIBE"; "DESC"; "EXPLAIN"] then
    Ok (read_analysis "MySQL classified the statement as read-only SQL.")
  else if is_kw ["INSERT"; "REPLACE"] then
    Ok (write_analysis TInsert "The MySQL statement inserts or replaces business data.")
  else if is_kw ["UPDATE"] && contains "WHERE" then
    Ok (write_analysis TUpdate "The MySQL UPDATE contains a top-level WHERE clause.")
  else if is_kw ["UPDATE"] then
    Ok (destructive TUpdate "The MySQL UPDATE has no top-level WHERE clause.")
  else if is_kw ["DELETE"] then
    Ok (destructive TDelete "MySQL DELETE statements require destructive confirmation.")
  else if is_kw ["CREATE"; "ALTER"; "DROP"; "TRUNCATE"; "RENAME"] then
    Ok (destructive TDdl "The MySQL DDL statement can make irreversible schema or data changes.")
  else if is_kw ["LOAD"] then
    Ok (destructive TInsert "MySQL LOAD can import data from a server or client file source.")
  else if is_kw ["GRANT"; "REVOKE"; "SET"; "USE"; "CALL"; "DO"; "KILL"; "RESET"; "FLUSH"; "PURGE";
              "ANALYZE"; "OPTIMIZE"; "REPAIR"] then
    Ok (destructive TCommand
          "The MySQL command can change session, server, authorization, or stored state.")
  else if is_kw ["BEGIN"; "START"; "COMMIT"; "ROLLBACK"; "SAVEPOINT"; "RELEASE"; "LOCK"; "UNLOCK"; "XA"] then
    Err (lit "Cross-call MySQL transaction and lock commands are not supported")
  else
    Ok (uncertain_critical (classify_uncertain keyword)
          "MySQL statement framing is valid, but its effects cannot be analyzed precisely.").

Definition analyze_postgres (framing : StatementFraming) : Result str SqlAnalysis :=
  let keyword := main_statement_keyword (words framing) in
  let contains := contains_word (words framing) in
  let contains_any := contains_word (all_words framing) in
  let has_data_modifying_cte :=
    str_eqb (first_word (words framing)) (lit "WITH")
    && contains_any_of (all_words framing) ["INSERT"; "UPDATE"; "DELETE"; "MERGE"] in
  let is_kw := one_of keyword in
  if is_kw ["EXPLAIN"] && contains_any "ANALYZE" then
    Ok (uncertain_critical TUnknown
      "PostgreSQL EXPLAIN ANALYZE can execute the explained statement, and its effects cannot be proven read-only from lexical framing.")
  else if is_kw ["SELECT"] && has_data_modifying_cte then
    Ok (uncertain_critical TMutation
      "The PostgreSQL SELECT contains a data-modifying CTE whose business effects require conservative confirmation.")
  else if is_kw ["SELECT"] && (contains_any "FOR"
      && (contains_any "UPDATE" || contains_any "SHARE" || contains_any "KEY" || contains_any "NO")) then
    Ok (destructive TRead "The PostgreSQL SELECT requests row locks and is not a side-effect-free read.")
  else if is_kw ["SELECT"] && contains_any_of (all_words framing)
      ["PG_SLEEP"; "PG_ADVISORY_LOCK"; "PG_TRY_ADVISORY_LOCK"; "PG_READ_FILE"; "PG_READ_BINARY_FILE";
       "LO_IMPORT"; "LO_EXPORT"] then
    Ok (destructive TRead
      "The PostgreSQL SELECT invokes a server function with locking, resource, or file effects.")
  else if is_kw ["SELECT"; "VALUES"; "TABLE"; "SHOW"; "EXPLAIN"] then
    Ok (read_analysis "PostgreSQL classified the statement as read-only SQL.")
  else if is_kw ["INSERT"] then
    Ok (write_analysis TInsert "The PostgreSQL statement inserts business data.")
  else if is_kw ["UPDATE"] && contains "WHERE" then
    Ok (write_analysis TUpdate "The PostgreSQL UPDATE contains a top-level WHERE clause.")
  else if is_kw ["UPDATE"] then
    Ok (destructive TUpdate "The PostgreSQL UPDATE has no top-level WHERE clause.")
  else if is_kw ["DELETE"] then
    Ok (destructive TDelete "PostgreSQL DELETE statements require destructive confirmation.")
  else if is_kw ["MERGE"] then
    Ok (destructive TCommand "PostgreSQL MERGE can combine insert, update, and delete effects.")
  else if is_kw ["CREATE"; "ALTER"; "DROP"; "TRUNCATE"; "REINDEX"; "REFRESH"; "CLUSTER"; "VACUUM"] then
    Ok (destructive TDdl "The PostgreSQL statement can make irreversible schema or database changes.")
  else if is_kw ["COPY"] then
    Ok (destructive TCommand
      "PostgreSQL COPY can transfer table data or invoke server-side file/program I/O.")
  else if is_kw ["GRANT"; "REVOKE"; "SET"; "RESET"; "DISCARD"; "LISTEN"; "NOTIFY"; "UNLISTEN"; "CALL";
      "DO"; "SECURITY"; "COMMENT"; "ANALYZE"] then
    Ok (destructive TCommand
      "The PostgreSQL command can change session, server, authorization, or stored state.")
  else if is_kw ["BEGIN"; "START"; "COMMIT"; "END"; "ROLLBACK"; "SAVEPOINT"; "RELEASE"; "PREPARE";
      "EXECUTE"; "DEALLOCATE"] then
    Err (lit "Cross-call PostgreSQL transaction and prepared-statement commands are not supported")
  else
    Ok (uncertain_critical (classify_uncertain keyword)
      "PostgreSQL statement framing is valid, but its effects cannot be analyzed precisely.").

Definition analyze_oracle (framing : StatementFraming) : Result str SqlAnalysis :=
  let keyword := main_statement_keyword (words framing) in
  let contains := contains_word (words framing) in
  let contains_any := contains_word (all_words framing) in
  let is_kw := one_of keyword in
  if has_oracle_database_link framing then
    Ok (destructive (classify_uncertain keyword)
      "The Oracle statement references a database link outside the approved local target.")
  else if is_kw ["SELECT"] && (contains_any "FOR" && contains_any "UPDATE") then
    Ok (destructive TRead "The Oracle SELECT requests row locks and is not a side-effect-free read.")
  else if is_kw ["SELECT"] && contains_any_of (all_words framing)
      ["DBMS_LOCK"; "DBMS_PIPE"; "UTL_FILE"; "UTL_HTTP"; "HTTPURITYPE"; "DBMS_SCHEDULER"] then
    Ok (destructive TRead
      "The Oracle SELECT invokes a package or function with locking, network, file, or scheduling effects.")
  else if is_kw ["SELECT"] then
    Ok (read_analysis "Oracle classified the statement as read-only SQL.")
  else if is_kw ["INSERT"] then
    Ok (write_analysis TInsert "The Oracle statement inserts business data.")
  else if is_kw ["UPDATE"] && contains "WHERE" then
    Ok (write_analysis TUpdate "The Oracle UPDATE contains a top-level WHERE clause.")
  else if is_kw ["UPDATE"] then
    Ok (destructive TUpdate "The Oracle UPDATE has no top-level WHERE clause.")
  else if is_kw ["DELETE"] then
    Ok (destructive TDelete "Oracle DELETE statements require destructive confirmation.")
  else if is_kw ["MERGE"] then
    Ok (destructive TCommand "Oracle MERGE can combine insert, update, and delete effects.")
  else if is_kw ["CREATE"; "ALTER"; "DROP"; "TRUNCATE"; "RENAME"; "FLASHBACK"; "PURGE"; "ANALYZE"] then
    Ok (destructive TDdl "The Oracle statement can make irreversible schema or database changes.")
  else if is_kw ["GRANT"; "REVOKE"; "AUDIT"; "NOAUDIT"; "CALL"; "EXPLAIN"] then
    Ok (destructive TCommand
      "The Oracle command can change authorization, stored state, or session-visible state.")
  else if is_kw ["BEGIN"; "DECLARE"] then
    Err (lit "Oracle PL/SQL blocks are not supported by the single-statement executor")
  else if is_kw ["COMMIT"; "ROLLBACK"; "SAVEPOINT"; "SET"; "LOCK"; "EXEC"; "EXECUTE"] then
    Err (lit "Cross-call Oracle transaction, lock, and session commands are not supported")
  else if is_kw ["PROMPT"; "SPOOL"; "REM"; "HOST"; "WHENEVER"; "DEFINE"; "ACCEPT"; "VARIABLE"; "PRINT";
      "COLUMN"; "TTITLE"; "BTITLE"] then
    Err (lit "SQL*Plus client commands are not supported")
  else
    Ok (uncertain_critical (classify_uncertain keyword)
      "Oracle statement framing is valid, but its effects cannot be analyzed precisely.").

Definition analyze_clickhouse (framing : StatementFraming) (c : SqlStatementClass) : Result str SqlAnalysis :=
  let contains := contains_word (words framing) in
  if contains "FORMAT" || (contains "INTO" && contains "OUTFILE") then
    Err (lit "ClickHouse FORMAT and INTO OUTFILE are not supported in bounded Grid mode")
  else match c with
  | ClsRead =>
    Ok (read_analysis "The existing ClickHouse classifier identified a bounded read statement.")
  | ClsInsert => Ok (write_analysis TInsert "The ClickHouse statement inserts business data.")
  | ClsDelete =>
    Ok (destructive TDelete
      "ClickHouse DELETE can remove business data and may complete asynchronously.")
  | ClsMutation =>
    Ok (destructive TMutation
      "ClickHouse ALTER UPDATE/DELETE submits a server-side mutation whose completion may be asynchronous.")
  | ClsDdl =>
    Ok (destructive TDdl "The ClickHouse DDL statement can make irreversible schema or data changes.")
  | ClsSystem | ClsCommand =>
    Ok (destructive TCommand
      "The ClickHouse command can change server, session, or background execution state.")
  | ClsUnknown =>
    Ok (uncertain_critical TUnknown
      "ClickHouse statement framing is valid, but the existing classifier cannot determine its effects precisely.")
  end.

Definition analyze_sql_for_driver (driver sql : str) : Result str SqlAnalysis :=
  if str_eqb driver (lit "sqlite") then framing ← frame_single_statement sql Sqlite; analyze_sqlite framing
  else if str_eqb driver (lit "mysql") then framing ← frame_single_statement sql Mysql; analyze_mysql framing
  else if str_eqb driver (lit "postgres") then
    framing ← frame_single_statement sql Postgres; analyze_postgres framing
  else if str_eqb driver (lit "oracle") then framing ← frame_single_statement sql Oracle; analyze_oracle framing
  else if str_eqb driver (lit "clickhouse") then
    framing ← frame_single_statement sql ClickHouse;
    analyze_clickhouse framing (classify_ai_sql sql)
  else Err (lit "SQL execution for this driver has not passed its safety enablement gate").

Example analysis_1 : analyze_sql_for_driver (lit "mysql") (lit "select * from t where a = 'x' for update")
  = Ok (destructive TRead "The MySQL SELECT requests row locks and is not a side-effect-free read.").
Proof. vm_compute. reflexivity. Qed.

Example analysis_2 : analyze_sql_for_driver (lit "postgres") (lit "with d as (delete from t returning 1) select * from d")
  = Ok (uncertain_critical TMutation
      "The PostgreSQL SELECT contains a data-modifying CTE whose business effects require conservative confirmation.").
Proof. vm_compute. reflexivity. Qed.

Example analysis_3 : map (analyze_sql_for_driver (lit "oracle")) (map lit ["select 1 from dual"; "select 1 from t@other"]%string)
  = [Ok (read_analysis "Oracle classified the statement as read-only SQL.");
     Ok (destructive TRead
       "The Oracle statement references a database link outside the approved local target.")].
Proof. vm_compute. reflexivity. Qed.

(** ** The three tiers *)

Definition is_read_tier (a : SqlAnalysis) : Prop :=
  status a = Analyzed /\ analyzed_class a = TRead /\ risk_level a = lit "medium" /\
  reversible a = true /\ side_effects a = [business_read].

Definition is_write_tier (a : SqlAnalysis) : Prop :=
  status a = Analyzed /\ (analyzed_class a = TInsert \/ analyzed_class a = TUpdate) /\
  risk_level a = lit "high" /\ reversible a = false /\ side_effects a = [business_read; business_write].

Definition is_critical_tier (a : SqlAnalysis) : Prop :=
  risk_level a = lit "critical" /\ reversible a = false /\
  side_effects a = [business_read; business_write; destructive_effect].

Definition tiered (r : Result str SqlAnalysis) : Prop :=
  match r with
  | Ok a => is_read_tier a \/ is_write_tier a \/ is_critical_tier a
  | Err _ => True
  end.

Lemma tiered_read reason : tiered (Ok (read_analysis reason)).
Proof. by left. Qed.
Lemma tiered_write c reason : c = TInsert \/ c = TUpdate -> tiered (Ok (write_analysis c reason)).
Proof. intros H. right. left. by split. Qed.
Lemma tiered_destructive c reason : tiered (Ok (destructive c reason)).
Proof. by right; right. Qed.
Lemma tiered_uncertain c reason : tiered (Ok (uncertain_critical c reason)).
Proof. by right; right. Qed.
Lemma tiered_err e : tiered (Err e).
Proof. done. Qed.
Lemma tiered_if (b : bool) r1 r2 : tiered r1 -> tiered r2 -> tiered (if b then r1 else r2).
Proof. by destruct b. Qed.

#[export] Hint Resolve tiered_read tiered_write tiered_destructive tiered_uncertain tiered_err : nexus.

Ltac tier_tac := repeat (apply tiered_if; [auto with nexus|]); auto with nexus.

Lemma sqlite_tiered f : tiered (analyze_sqlite f).
Proof. unfold analyze_sqlite. cbv zeta. tier_tac. Qed.
Lemma mysql_tiered f : tiered (analyze_mysql f).
Proof. unfold analyze_mysql. cbv zeta. tier_tac. Qed.
Lemma postgres_tiered f : tiered (analyze_postgres f).
Proof. unfold analyze_postgres. cbv zeta. tier_tac. Qed.
Lemma oracle_tiered f : tiered (analyze_oracle f).
Proof. unfold analyze_oracle. cbv zeta. tier_tac. Qed.
Lemma clickhouse_tiered f c : tiered (analyze_clickhouse f c).
Proof. unfold analyze_clickhouse. cbv zeta. apply tiered_if; [done|]. destruct c; auto with nexus. Qed.

(** The drivers the gate enables and the dialect each is framed in. *)
Definition driver_dialect (driver : str) : option SqlFramingDialect :=
  if str_eqb driver (lit "sqlite") then Some Sqlite
  else if str_eqb driver (lit "mysql") then Some Mysql
  else if str_eqb driver (lit "postgres") then Some Postgres
  else if str_eqb driver (lit "oracle") then Some Oracle
  else if str_eqb driver (lit "clickhouse") then Some ClickHouse
  else None.

Definition analyze_framing (d : SqlFramingDialect) (f : StatementFraming) (sql : str) : Result str SqlAnalysis :=
  match d with
  | Sqlite => analyze_sqlite f
  | Mysql => analyze_mysql f
  | Postgres => analyze_postgres f
  | Oracle => analyze_oracle f
  | ClickHouse => analyze_clickhouse f (classify_ai_sql sql)
  end.

Lemma analyze_sql_eq driver sql :
  analyze_sql_for_driver driver sql =
  match driver_dialect driver with
  | Some d => f ← frame_single_statement sql d; analyze_framing d f sql
  | None => Err (lit "SQL execution for this driver has not passed its safety enablement gate")
  end.
Proof. unfold analyze_sql_for_driver, driver_dialect. by repeat case_match. Qed.

Lemma analyze_framing_tiered d f sql : tiered (analyze_framing d f sql).
Proof.
  destruct d; [apply sqlite_tiered|apply mysql_tiered|apply postgres_tiered|apply oracle_tiered
    |apply clickhouse_tiered].
Qed.

Lemma analyze_tiered driver sql : tiered (analyze_sql_for_driver driver sql).
Proof.
  rewrite analyze_sql_eq. destruct (driver_dialect driver) as [d|]; [|done].
  destruct (frame_single_statement sql d); [apply analyze_framing_tiered|done].
Qed.

(** The analysis is consistent on every driver: a statement is presented as
    reversible, medium risk and without write effects only together, only as an
    analysed read; whatever is uncertain, or is analysed as anything but a read, an
    insert or an update, is critical, irreversible and carries the destructive
    effect; and every class that counts as a mutation carries the write effect. *)
Theorem analysis_is_consistent driver sql a :
  analyze_sql_for_driver driver sql = Ok a ->
  (reversible a = true <-> side_effects a = [business_read]) /\
  (reversible a = true <-> risk_level a = lit "medium") /\
  (reversible a = true -> status a = Analyzed /\ analyzed_class a = TRead) /\
  (risk_level a = lit "critical" <-> destructive_effect ∈ side_effects a) /\
  (status a = Uncertain -> risk_level a = lit "critical") /\
  (is_mutation (analyzed_class a) = true -> business_write ∈ side_effects a) /\
  (analyzed_class a <> TRead -> analyzed_class a <> TInsert -> analyzed_class a <> TUpdate ->
     risk_level a = lit "critical").
Proof.
  intros H. pose proof (analyze_tiered driver sql) as Ht. rewrite H in Ht.
  assert (Hd : destructive_effect ∉ [business_read; business_write])
    by (apply (bool_decide_unpack _); vm_compute; exact I).
  destruct Ht as [(Hs & Hc & Hr & Hv & He)|[(Hs & Hc & Hr & Hv & He)|(Hr & Hv & He)]]; rewrite Hr, Hv, He.
  - rewrite Hs, Hc. split_and!; try done. split; [done|].
    intros Hin. exfalso. apply Hd. rewrite elem_of_cons. left. by apply list_elem_of_singleton in Hin.
  - rewrite Hs. split_and!; try done.
    + intros _. rewrite elem_of_cons, list_elem_of_singleton. by right.
    + by destruct Hc as [->| ->].
  - split_and!; try done.
    + split; [|done]. intros _. rewrite !elem_of_cons. auto.
    + intros _. rewrite !elem_of_cons. auto.
Qed.

(** The word that decides the verdict. *)
Definition verdict_keyword (d : SqlFramingDialect) (f : StatementFraming) : str :=
  match d with
  | Sqlite => first_word (words f)
  | _ => main_statement_keyword (words f)
  end.

(** The statements a dialect reads with, and the functions that disqualify a SELECT. *)
Definition read_keywords (d : SqlFramingDialect) : list string :=
  match d with
  | Sqlite => ["SELECT"; "VALUES"; "EXPLAIN"]
  | Mysql => ["SELECT"; "SHOW"; "DESCRIBE"; "DESC"; "EXPLAIN"]
  | Postgres => ["SELECT"; "VALUES"; "TABLE"; "SHOW"; "EXPLAIN"]
  | Oracle => ["SELECT"]
  | ClickHouse => []
  end.

Definition hazardous_words (d : SqlFramingDialect) : list string :=
  match d with
  | Sqlite => ["LOAD_EXTENSION"]
  | Mysql => ["GET_LOCK"; "RELEASE_LOCK"; "SLEEP"; "BENCHMARK"; "LOAD_FILE"]
  | Postgres => ["PG_SLEEP"; "PG_ADVISORY_LOCK"; "PG_TRY_ADVISORY_LOCK"; "PG_READ_FILE";
                 "PG_READ_BINARY_FILE"; "LO_IMPORT"; "LO_EXPORT"]
  | Oracle => ["DBMS_LOCK"; "DBMS_PIPE"; "UTL_FILE"; "UTL_HTTP"; "HTTPURITYPE"; "DBMS_SCHEDULER"]
  | ClickHouse => []
  end.

(** The pairs of words by which a SELECT locks the rows it reads. *)
Definition row_locks (d : SqlFramingDialect) : list (string * string) :=
  match d with
  | Mysql => [("FOR", "UPDATE"); ("FOR", "SHARE"); ("LOCK", "SHARE")]
  | Postgres => [("FOR", "UPDATE"); ("FOR", "SHARE"); ("FOR", "KEY"); ("FOR", "NO")]
  | Oracle => [("FOR", "UPDATE")]
  | Sqlite | ClickHouse => []
  end%string.

(** The pairs of words by which a query writes a file of the server. *)
Definition file_outputs (d : SqlFramingDialect) : list (string * string) :=
  match d with
  | Mysql => [("INTO", "OUTFILE"); ("INTO", "DUMPFILE")]
  | ClickHouse => [("INTO", "OUTFILE")]
  | Sqlite | Postgres | Oracle => []
  end%string.

Definition no_pair (ws : list str) (pairs : list (string * string)) : Prop :=
  Forall (fun p => ~ ((lit p.1 ∈ ws) /\ (lit p.2 ∈ ws))) pairs.

(** What a read verdict rests on. *)
Definition read_evidence (d : SqlFramingDialect) (f : StatementFraming) (sql : str) : Prop :=
  match d with
  | ClickHouse => classify_ai_sql sql = ClsRead /\ (lit "FORMAT" ∉ words f) /\ no_pair (words f) (file_outputs d)
  | _ =>
    one_of (verdict_keyword d f) (read_keywords d) = true /\
    (verdict_keyword d f = lit "SELECT" ->
       Forall (fun k => lit k ∉ all_words f) (hazardous_words d) /\
       no_pair (all_words f) (row_locks d) /\ no_pair (words f) (file_outputs d)) /\
    (d = Oracle -> has_oracle_database_link f = false) /\
    (d = Postgres -> verdict_keyword d f = lit "SELECT" -> first_word (words f) = lit "WITH" ->
       Forall (fun k => lit k ∉ all_words f) ["INSERT"; "UPDATE"; "DELETE"; "MERGE"]%string) /\
    (d = Postgres -> verdict_keyword d f = lit "EXPLAIN" -> (lit "ANALYZE" ∉ all_words f))
  end.

Lemma contains_word_spec ws k : contains_word ws k = true <-> lit k ∈ ws.
Proof.
  unfold contains_word. rewrite existsb_exists. split.
  - intros (w & Hw & ->%bool_decide_eq_true). by apply list_elem_of_In.
  - intros H. exists (lit k). split; [by apply list_elem_of_In|]. by apply bool_decide_eq_true.
Qed.

Lemma contains_any_of_false ws ks :
  contains_any_of ws ks = false -> Forall (fun k => lit k ∉ ws) ks.
Proof.
  induction ks as [|k ks IH]; [constructor|]. unfold contains_any_of. simpl.
  intros [Hk Hks]%orb_false_iff. constructor; [|by apply IH].
  rewrite <-contains_word_spec, Hk. done.
Qed.

Lemma one_of_single k s : one_of k [s] = true <-> k = lit s.
Proof. unfold one_of. simpl. rewrite orb_false_r. apply bool_decide_eq_true. Qed.

Definition no_write (r : Result str SqlAnalysis) (P : Prop) : Prop :=
  match r with Ok a => business_write ∉ side_effects a -> P | Err _ => True end.

Lemma no_write_write c reason P : no_write (Ok (write_analysis c reason)) P.
Proof. intros H. destruct H. simpl. rewrite !elem_of_cons. auto. Qed.
Lemma no_write_destructive c reason P : no_write (Ok (destructive c reason)) P.
Proof. intros H. destruct H. simpl. rewrite !elem_of_cons. auto. Qed.
Lemma no_write_uncertain c reason P : no_write (Ok (uncertain_critical c reason)) P.
Proof. intros H. destruct H. simpl. rewrite !elem_of_cons. auto. Qed.
Lemma no_write_err e P : no_write (Err e) P.
Proof. done. Qed.
Lemma no_write_if (b : bool) r1 r2 P :
  (b = true -> no_write r1 P) -> (b = false -> no_write r2 P) -> no_write (if b then r1 else r2) P.
Proof. destruct b; auto. Qed.

#[export] Hint Resolve no_write_write no_write_destructive no_write_uncertain no_write_err : nexus.

(** Walks the branches of an analysis; every branch but the reads writes. *)
Ltac read_tac :=
  cbv zeta;
  repeat first [ solve [auto with nexus]
               | apply no_write_if; intros ?; [solve [auto with nexus]|] ].

(** The guards of the earlier branches, for a SELECT. *)
Ltac select_guards Hs :=
  repeat match goal with
  | H : one_of ?kw ["SELECT"%string] && _ = false |- _ =>
    rewrite (proj2 (one_of_single kw "SELECT") Hs) in H; cbn [andb] in H
  end.

(** A guard on pairs of words that did not fire leaves none of them. *)
Lemma no_pair_of ws pairs :
  Forall (fun p => contains_word ws p.1 && contains_word ws p.2 = false) pairs -> no_pair ws pairs.
Proof.
  intros Hp. eapply Forall_impl; [exact Hp|]. intros [k k'] H [H1%contains_word_spec H2%contains_word_spec]. cbn in *. by rewrite H1, H2 in H.
Qed.

Ltac pairs_tac :=
  apply no_pair_of; repeat constructor; cbn [fst snd];
  repeat match goal with H : _ = false |- _ => revert H end;
  repeat match goal with |- context [contains_word ?ws ?k] => destruct (contains_word ws k) end;
  cbn; intros; congruence.

Lemma sqlite_read f sql : no_write (analyze_sqlite f) (read_evidence Sqlite f sql).
Proof.
  unfold analyze_sqlite. read_tac. apply no_write_if; [|intros ?; read_tac].
  intros Hk _. split_and!; try done. intros Hs. select_guards Hs. split; [|by split; constructor].
  constructor; [|constructor]. rewrite <-contains_word_spec, H. done.
Qed.

Lemma mysql_read f sql : no_write (analyze_mysql f) (read_evidence Mysql f sql).
Proof.
  unfold analyze_mysql. read_tac. apply no_write_if; [|intros ?; read_tac].
  intros Hk _. split_and!; try done. intros Hs. select_guards Hs.
  split; [by apply contains_any_of_false|]. clear H1. split; [clear H|clear H0]; pairs_tac.
Qed.

Lemma postgres_read f sql : no_write (analyze_postgres f) (read_evidence Postgres f sql).
Proof.
  unfold analyze_postgres. read_tac. apply no_write_if; [|intros ?; read_tac].
  intros Hk _. split_and!; try done.
  - intros Hs. select_guards Hs. split; [by apply contains_any_of_false|]. clear H2 H0 H. split; [|by constructor]. pairs_tac.
  - intros _ Hs Hw. select_guards Hs. rewrite Hw in *. by apply contains_any_of_false.
  - intros _ He%one_of_single Ha%contains_word_spec. cbn [verdict_keyword] in He. by rewrite He, Ha in H.
Qed.

Lemma oracle_read f sql : no_write (analyze_oracle f) (read_evidence Oracle f sql).
Proof.
  unfold analyze_oracle. read_tac. apply no_write_if; [|intros ?; read_tac].
  intros Hk _. split_and!; try done. intros Hs. select_guards Hs.
  split; [by apply contains_any_of_false|]. clear H H1. split; [|by constructor]. pairs_tac.
Qed.

Lemma clickhouse_read f sql :
  no_write (analyze_clickhouse f (classify_ai_sql sql)) (read_evidence ClickHouse f sql).
Proof.
  unfold analyze_clickhouse. cbv zeta. apply no_write_if; [done|]. intros [Hf Ho]%orb_false_iff.
  destruct (classify_ai_sql sql) eqn:Hc; auto with nexus. intros _. split; [done|]. split.
  - rewrite <-contains_word_spec, Hf. done.
  - clear Hf. pairs_tac.
Qed.


(** Statements that can touch more than the rows they name. *)
Definition unbounded (d : SqlFramingDialect) (f : StatementFraming) : Prop :=
  d <> ClickHouse /\
  ((verdict_keyword d f = lit "UPDATE" /\ lit "WHERE" ∉ words f) \/
   one_of (verdict_keyword d f) ["DELETE"; "DROP"; "ALTER"; "CREATE"]%string = true).

Definition not_noncritical (r : Result str SqlAnalysis) : Prop :=
  match r with Ok a => risk_level a = lit "critical" | Err _ => True end.

Lemma critical_take (b : bool) r1 r2 : b = true -> not_noncritical r1 -> not_noncritical (if b then r1 else r2).
Proof. by intros ->. Qed.
Lemma critical_skip (b : bool) r1 r2 : b = false -> not_noncritical r2 -> not_noncritical (if b then r1 else r2).
Proof. by intros ->. Qed.
Lemma critical_skip_l (b c : bool) r1 r2 :
  b = false -> not_noncritical r2 -> not_noncritical (if b && c then r1 else r2).
Proof. by intros ->. Qed.
Lemma critical_skip_r (b c : bool) r1 r2 :
  c = false -> not_noncritical r2 -> not_noncritical (if b && c then r1 else r2).
Proof. intros ->. by rewrite andb_false_r. Qed.
Lemma critical_both (b : bool) r1 r2 :
  not_noncritical r1 -> not_noncritical r2 -> not_noncritical (if b then r1 else r2).
Proof. by destruct b. Qed.
Lemma critical_destructive c reason : not_noncritical (Ok (destructive c reason)).
Proof. done. Qed.

(** Walks to the branch of a known keyword. *)
Ltac walk_keyword :=
  repeat first
    [ apply critical_destructive
    | apply critical_skip_l; [vm_compute; reflexivity|]
    | apply critical_skip_r; [eassumption|]
    | apply critical_take; [vm_compute; reflexivity|]
    | apply critical_skip; [vm_compute; reflexivity|]
    | apply critical_both; [apply critical_destructive|] ].

Lemma unbounded_critical d f sql : unbounded d f -> not_noncritical (analyze_framing d f sql).
Proof.
  intros [Hd Hc].
  assert (exists k, verdict_keyword d f = lit k /\
    (k = "UPDATE" /\ contains_word (words f) "WHERE" = false \/ k ∈ ["DELETE"; "DROP"; "ALTER"; "CREATE"])%string)
    as (k & Hk & Hcase).
  { destruct Hc as [[Hk Hw]|Hk].
    - exists "UPDATE"%string. split; [done|]. left. split; [done|].
      apply not_true_iff_false. by rewrite contains_word_spec.
    - apply existsb_exists in Hk as (k & Hin & Hk%bool_decide_eq_true). exists k. split; [done|].
      right. by apply list_elem_of_In. }
  assert (k = "UPDATE" /\ contains_word (words f) "WHERE" = false \/ k = "DELETE" \/ k = "DROP"
    \/ k = "ALTER" \/ k = "CREATE")%string as Hcases.
  { rewrite !elem_of_cons, elem_of_nil in Hcase. tauto. }
  destruct d; [..|done]; cbn [verdict_keyword] in Hk;
    unfold analyze_framing, analyze_sqlite, analyze_mysql, analyze_postgres, analyze_oracle; rewrite Hk;
    destruct Hcases as [[-> Hw]|[->|[->|[->| ->]]]]; cbv zeta; walk_keyword.
Qed.

(** No unbounded write is presented below critical risk: an UPDATE without a
    top-level WHERE, and every DELETE, DROP, ALTER and CREATE, a leading WITH looked
    through (SQLite treats the WITH itself as uncertain), is critical wherever the
    driver accepts it. *)
Theorem unbounded_writes_are_critical driver sql a d f :
  analyze_sql_for_driver driver sql = Ok a ->
  driver_dialect driver = Some d -> frame_single_statement sql d = Ok f -> unbounded d f ->
  risk_level a = lit "critical" /\ reversible a = false /\ destructive_effect ∈ side_effects a.
Proof.
  rewrite analyze_sql_eq. intros H Hd Hf Hu. rewrite Hd in H. rewrite Hf in H. simpl in H.
  pose proof (unbounded_critical d f sql Hu) as Hc. pose proof (analyze_framing_tiered d f sql) as Ht.
  rewrite H in Hc, Ht. simpl in Hc.
  destruct Ht as [(_ & _ & Hr & _)|[(_ & _ & Hr & _)|(Hr & Hv & He)]];
    [rewrite Hr in Hc; by vm_compute in Hc..|].
  rewrite Hr, Hv, He. split_and!; [done..|]. rewrite !elem_of_cons. auto.
Qed.

(** Only the five enabled drivers are analysed at all; for them an answer is given
    exactly when the framing accepts the text and the driver accepts the statement,
    and the request check keeps every text within the bound the framing has. *)
Theorem analysis_gate driver sql :
  (driver_dialect driver = None -> exists e, analyze_sql_for_driver driver sql = Err e) /\
  (forall d e, driver_dialect driver = Some d -> frame_single_statement sql d = Err e ->
     analyze_sql_for_driver driver sql = Err e) /\
  (forall r, validate_request r = Ok tt -> req_sql r = sql -> (0 <= req_page_size r)%Z ->
     (Z.of_nat (length sql) <= SQL_MAX_CHARS)%Z /\ trim sql <> [] /\
     (1 <= req_page_size r <= SQL_MAX_PAGE_SIZE)%Z).
Proof.
  split_and!.
  - intros H. rewrite analyze_sql_eq, H. by eexists.
  - intros d e H1 H2. by rewrite analyze_sql_eq, H1, H2.
  - intros r. unfold validate_request. case_bool_decide; [done|]. case_bool_decide; [done|].
    destruct (Z.ltb_spec SQL_MAX_CHARS (Z.of_nat (length (req_sql r)))); [done|].
    destruct (Z.eqb_spec (req_page_size r) 0); [done|].
    destruct (Z.ltb_spec SQL_MAX_PAGE_SIZE (req_page_size r)); [done|]. simpl.
    destruct (existsb _ _); [done|]. intros _ <- Hp. split_and!; try done; lia.
Qed.

(** ** Concrete runs *)

Lemma analysis_is_consistent_witness :
  reversible (read_analysis "SQLite classified the statement as read-only SQL.") = true <->
  side_effects (read_analysis "SQLite classified the statement as read-only SQL.") = [business_read].
Proof.
  apply (analysis_is_consistent (lit "sqlite") (lit "select 1")). vm_compute. reflexivity.
Defined.


Definition demo_unbounded : str := lit "update t set a = (select 1 where 2 = 2)".
Definition demo_framing : StatementFraming :=
  mkStatementFraming (map lit ["UPDATE"; "T"; "SET"; "A"]%string)
    (map lit ["UPDATE"; "T"; "SET"; "A"; "SELECT"; "WHERE"]%string) false.

Lemma unbounded_writes_are_critical_witness :
  risk_level (destructive TUpdate "The MySQL UPDATE has no top-level WHERE clause.") = lit "critical".
Proof.
  apply (unbounded_writes_are_critical (lit "mysql") demo_unbounded _ Mysql demo_framing).
  - vm_compute. reflexivity.
  - vm_compute. reflexivity.
  - vm_compute. reflexivity.
  - split; [done|]. left. split; [vm_compute; reflexivity|].
    apply (bool_decide_unpack _). vm_compute. exact I.
Defined.

Lemma analysis_gate_witness : exists e, analyze_sql_for_driver (lit "redis") (lit "get k") = Err e.
Proof. apply (analysis_gate (lit "redis") (lit "get k")). vm_compute. reflexivity. Defined.

(** ** Limits of the analysis *)

(** Block comments nest for the framing of every dialect but MySQL and Oracle, while
    the comments of SQLite end at the first [*/]: the rest of such a comment is a
    second statement for SQLite and trivia for the analysis. *)
Theorem sqlite_comment_hides_a_statement :
  exists before comment hidden,
    let sql := before ++ lit "/*" ++ comment ++ lit "*/" ++ hidden in
    split_at_first (lit "*/") (comment ++ lit "*/" ++ hidden) = Some (comment, hidden) /\
    starts_with (lit " ; DELETE FROM t") hidden = true /\
    analyze_sql_for_driver (lit "sqlite") sql
    = Ok (read_analysis "SQLite classified the statement as read-only SQL.").
Proof.
  exists (lit "SELECT 1 "), (lit " /* "), (lit " ; DELETE FROM t -- */").
  cbv zeta. split_and!; vm_compute; reflexivity.
Qed.

(** PostgreSQL creates a table with SELECT INTO; the analysis presents it as a read. *)
Theorem postgres_select_into_is_presented_as_read :
  analyze_sql_for_driver (lit "postgres") (lit "SELECT * INTO copied FROM users")
  = Ok (read_analysis "PostgreSQL classified the statement as read-only SQL.").
Proof. vm_compute. reflexivity. Qed.
