(* ===== verification/SqlGateway.v ===== *)
(** * The AI SQL gateway
    ([src-tauri/src/ai_runtime/backend_bridge/operations.rs], the [sql.analyze] and
    [sql.execute] operations, with the connection and execution services they call in
    [workbench/application_service.rs], [engine/profiles.rs] and [engine/manager.rs])

    An agent's SQL goes through two calls.  [sql.analyze] validates the request, looks
    the profile up, analyses the text for the profile's driver and stores the exact
    request as a prepared plan; [sql.execute] consumes the plan, checks that the target
    is still the one that was analysed and runs the stored text.  The state is the plan
    registry and the sequence of statements handed to a driver.  What each call finds
    outside (stored profiles, open runtimes, drivers, clock, UUIDs) is the [World] it
    runs in; [serde] is an interface with the two laws the operations rely on. *)

From stdpp Require Import base gmap list strings fin_maps.
From Stdlib Require Import ZArith Lia.
From S2P Require Import Prelude Errors Types Connections PreparedPlans Framing ClickHouseSql SqlAnalysis.

(** ** Gateway errors ([frames.rs], [operations.rs]) *)

Inductive GatewayOutcome := NotStarted | NoEffect | OutcomeUnknown.

#[export] Instance GatewayOutcome_eq_dec : EqDecision GatewayOutcome.
Proof. solve_decision. Defined.

Record GatewayError := mkGatewayError {
  g_code : str;
  g_message : str;
  retryable : bool;
  g_outcome : GatewayOutcome;
}.

Definition with_outcome (e : GatewayError) (o : GatewayOutcome) : GatewayError :=
  mkGatewayError (g_code e) (g_message e) (retryable e) o.

Definition map_ipc_error (e : IpcError) : GatewayError :=
  let (c, retry) := match code e with
  | AuthFailed => ("AUTH_FAILED", false)
  | NetworkTimeout => ("NETWORK_TIMEOUT", true)
  | OperationTimeout => ("OPERATION_TIMEOUT", true)
  | OperationOutcomeUnknown => ("OPERATION_OUTCOME_UNKNOWN", false)
  | QuerySyntaxError => ("QUERY_SYNTAX_ERROR", false)
  | ResourceNotFound => ("RESOURCE_NOT_FOUND", false)
  | ValidationFailed => ("VALIDATION_FAILED", false)
  | ResourceConflict => ("RESOURCE_CONFLICT", false)
  | FeatureUnavailable => ("CAPABILITY_UNAVAILABLE", false)
  | PermissionDenied => ("PERMISSION_DENIED", false)
  | SystemInternal => ("SYSTEM_INTERNAL", false)
  | OperationCanceled => ("OPERATION_CANCELED", false)
  end%string in
  mkGatewayError (lit c) (message e) retry NoEffect.

Definition map_precondition_ipc_error (e : IpcError) : GatewayError :=
  with_outcome (map_ipc_error e) NotStarted.

Definition map_sql_execute_ipc_error (e : IpcError) : GatewayError :=
  with_outcome (map_ipc_error e)
    match code e with
    | NetworkTimeout | OperationTimeout | OperationOutcomeUnknown | SystemInternal
    | OperationCanceled => OutcomeUnknown
    | _ => NoEffect
    end.

Definition read_error (m : string) : GatewayError :=
  mkGatewayError (lit "SYSTEM_INTERNAL") (lit m) false NoEffect.

Definition plan_error (c : str) (m : string) : GatewayError := mkGatewayError c (lit m) false NotStarted.

Definition map_plan_error (e : PreparedPlanError) : GatewayError :=
  plan_error (error_code e) "Prepared plan validation failed.".

Definition sql_rejected (m : str) : GatewayError :=
  mkGatewayError (lit "SQL_ANALYSIS_REJECTED") m false NotStarted.

Definition invalid_request_error (operation : str) : GatewayError :=
  mkGatewayError (lit "GATEWAY_INVALID_REQUEST")
    (lit "Invalid request for '" ++ operation ++ lit "'.") false NotStarted.

Definition map_err {E F A} (f : E -> F) (r : Result E A) : Result F A :=
  match r with Ok a => Ok a | Err e => Err (f e) end.

(** ** Profiles ([profiles.rs], [connection_repository.rs]) *)

(** The parsed profile, as far as the gateway looks into it. *)
Inductive DriverProfile :=
| PClickhouse | PMysql | PPostgres | POracle | PRedis | PSqlite (is_read_only : bool).

(** A runtime snapshot: the driver name and the two capabilities of
    [ConnectionRuntimeInfo] and [DriverCapabilities] that the gateway reads. *)
Record ConnectionRuntimeSnapshot := mkConnectionRuntimeSnapshot {
  driver_name : str;
  sql_executor : bool;
  sql_execution : option SqlExecutionFeatures;
}.

Record PreparedSqlPayload := mkPreparedSqlPayload {
  request : SqlToolRequest;
  expected_driver : str;
  expected_profile_updated_at : Z;
  expected_read_only : bool;
  analysis_status : SqlAnalysisStatus;
  payload_class : SqlToolStatementClass;
}.

(** [serde_json] on the types the operations exchange. *)
Class SqlSerde `{J : JsonNumber} := {
  parse_sql_request : Value -> option SqlToolRequest;
  parse_plan_request : Value -> option str;
  parse_empty_request : Value -> option unit;
  payload_to_value : PreparedSqlPayload -> option Value;
  payload_from_value : Value -> option PreparedSqlPayload;
  parse_driver_profile : Value -> Result str DriverProfile;
  number_of_u64 : Z -> Number;
}.

(** What the operations rely on: a payload survives its round trip, and a profile is
    parsed as the variant its [driver] tag names. *)
Class SqlSerdeLaws `{J : JsonNumber, S : !SqlSerde} : Prop := {
  payload_roundtrip p v : payload_to_value p = Some v -> payload_from_value v = Some p;
  profile_tag fields ro : parse_driver_profile (VObject fields) = Ok (PSqlite ro) ->
    map_get (lit "driver") fields = Some (VString (lit "sqlite"));
}.

Section gateway.
Context {J : JsonNumber} {S : SqlSerde}.

Definition normalize_optional_string (key : str) (fields : list (str * Value)) : list (str * Value) :=
  match map_get key fields with
  | Some (VString s) => if bool_decide (trim s = []) then map_insert key VNull fields else fields
  | _ => fields
  end.

Definition driver_profile_from_record (r : StoredConnectionRecord) : IpcResult DriverProfile :=
  match r_payload r with
  | VObject fields =>
    let fields := map_insert (lit "driver") (VString (driver_as_str (r_driver r))) fields in
    let fields := normalize_optional_string (lit "defaultDatabase") fields in
    let fields := normalize_optional_string (lit "serviceName") fields in
    let fields := normalize_optional_string (lit "sid") fields in
    let fields := normalize_optional_string (lit "connectDescriptor") fields in
    map_err (fun e => system_internal (lit "Failed to parse connection profile") e)
      (parse_driver_profile (VObject fields))
  | _ => Err (system_internal (lit "Connection payload must be a JSON object")
                (lit "Profile '" ++ r_id r ++ lit "' has invalid payload"))
  end.

(** ** The world a call runs in *)

(** A statement handed to a driver. *)
Record Execution := mkExecution {
  x_plan : str;
  x_profile : str;
  x_context : SqlExecutionContext;
  x_sql : str;
  x_page : Z;
  x_page_size : Z;
  x_class : option SqlStatementClass;
}.

(** The shared driver of a profile: its SQL features and its executors.  A managed
    execution also returns the warnings it published. *)
Record DriverHandle := mkDriverHandle {
  dh_features : option SqlExecutionFeatures;
  dh_execute_sql : option (SqlExecutionContext -> str -> Z -> Z -> IpcResult QueryResult);
  dh_execute_managed :
    option (SqlExecutionContext -> str -> Z -> SqlStatementClass -> IpcResult SqlExecutionOutcome * list str);
}.

Record World := mkWorld {
  w_now_ms : Z;
  w_uuid : str;
  w_execution_uuid : str;
  w_elapsed_ms : Z;
  w_get_connection : str -> Result str (option StoredConnectionRecord);
  w_runtime_snapshot : str -> IpcResult ConnectionRuntimeSnapshot;
  w_shared_driver : str -> IpcResult DriverHandle;
}.

Record Gateway := mkGateway {
  g_registry : PreparedPlanRegistry;
  g_executed : list Execution;
}.

Definition gateway_start : Gateway := mkGateway default [].

Abbreviation Op A := (ST Gateway GatewayError A).

Definition lift_err {A E} (f : E -> GatewayError) (r : Result E A) : Op A := st_lift (map_err f r).

(** A call on the plan registry. *)
Definition on_registry {A} (f : PreparedPlanRegistry -> Result PreparedPlanError A * PreparedPlanRegistry) : Op A :=
  fun g => let (r, reg) := f (g_registry g) in (map_err map_plan_error r, mkGateway reg (g_executed g)).

Definition fail {A} (e : GatewayError) : Op A := st_lift (Err e).
Definition guard (b : bool) (e : GatewayError) : Op unit := if b then fail e else mret tt.

(** ** Services *)

(** [application_service::require_connection]. *)
Definition require_connection (w : World) (id : str) : IpcResult StoredConnectionRecord :=
  found ← map_err (system_internal (lit "Failed to load connection profile from local storage"))
            (w_get_connection w id);
  ok_or (resource_not_found (lit "Connection profile '" ++ id ++ lit "' not found")) found.

Definition require_sql_executor (w : World) (id : str) (o : GatewayOutcome)
  : Result GatewayError (StoredConnectionRecord * ConnectionRuntimeSnapshot) :=
  profile ← map_err (fun e => with_outcome (map_precondition_ipc_error e) o) (require_connection w id);
  snapshot ← map_err (fun e =>
      if bool_decide (code e = ResourceNotFound) then
        mkGatewayError (lit "CONNECTION_NOT_OPEN") (lit "The connection is not open.") false o
      else with_outcome (map_precondition_ipc_error e) o) (w_runtime_snapshot w id);
  if negb (sql_executor snapshot) then
    Err (mkGatewayError (lit "CAPABILITY_UNAVAILABLE")
           (lit "This connection does not support SQL execution.") false o)
  else Ok (profile, snapshot).

Definition sql_profile_read_only (r : StoredConnectionRecord) (o : GatewayOutcome) : Result GatewayError bool :=
  parsed ← map_err (fun e => with_outcome (map_precondition_ipc_error e) o) (driver_profile_from_record r);
  match parsed with
  | PSqlite is_read_only => Ok is_read_only
  | PMysql | PPostgres | POracle | PClickhouse => Ok false
  | PRedis => Err (mkGatewayError (lit "CAPABILITY_UNAVAILABLE")
      (lit "SQL execution for this driver has not passed its safety enablement gate.") false o)
  end.

Definition ensure_read_only_sql_policy (read_only : bool) (st : SqlAnalysisStatus) (c : SqlToolStatementClass)
    (o : GatewayOutcome) : Result GatewayError unit :=
  if read_only && (negb (bool_decide (st = Analyzed)) || negb (bool_decide (c = TRead))) then
    Err (mkGatewayError (lit "PERMISSION_DENIED")
           (lit "The read-only SQLite profile only permits SQL proven to be read-only.") false o)
  else Ok tt.

(** [SharedManagedSqlObserver::publish_warning]. *)
Definition publish_warning (ws : list str) (m : str) : list str :=
  let m := if bool_decide (trim m = []) then lit "SQL execution observation degraded"
           else take 256 (trim m) in
  if (length ws <? 4) && negb (bool_decide (m ∈ ws)) then ws ++ [m] else ws.

Record SharedManagedSqlExecution := mkSharedManagedSqlExecution {
  sm_execution_id : str;
  sm_statement_class : SqlStatementClass;
  sm_outcome : SqlExecutionOutcome;
  sm_observation_warnings : list str;
}.

(** [ConnectionRuntimeManager::execute_shared_sql]. *)
Definition execute_shared_sql (w : World) (x : Execution) : ST Gateway IpcError QueryResult :=
  driver ← st_lift (w_shared_driver w (x_profile x));
  match dh_execute_sql driver with
  | Some run =>
    _ ← st_modify (fun g => mkGateway (g_registry g) (g_executed g ++ [x]));
    st_lift (run (x_context x) (x_sql x) (x_page x) (x_page_size x))
  | None => st_lift (Err (resource_not_found (lit "This connection does not support SQL execution")))
  end.

(** [ConnectionRuntimeManager::execute_shared_managed_sql]. *)
Definition execute_shared_managed_sql (w : World) (x : Execution) (opts : SqlExecutionOptions)
    (c : SqlStatementClass) : ST Gateway IpcError SharedManagedSqlExecution :=
  driver ← st_lift (w_shared_driver w (x_profile x));
  features ← st_lift (ok_or
    (feature_unavailable (lit "This connection does not support managed SQL execution")) (dh_features driver));
  if negb (managed_lifecycle features) || negb (bool_decide (statement_access features = AccessDirect))
     || negb (bool_decide (result_mode opts = Grid)) then
    st_lift (Err (feature_unavailable
      (lit "This connection does not support direct managed Grid SQL execution")))
  else if negb (page opts =? 1)%Z
     || negb ((1 <=? options_page_size opts)%Z && (options_page_size opts <=? 100)%Z) then
    st_lift (Err (validation_failed
      (lit "Managed AI SQL requires page 1 and a page size between 1 and 100")))
  else if negb (bool_decide (timeout_ms opts = Some 30000%Z)) then
    st_lift (Err (validation_failed
      (lit "Managed AI SQL requires the fixed 30 second backend timeout")))
  else match dh_execute_managed driver with
  | None => st_lift (Err (feature_unavailable (lit "Managed SQL executor is unavailable")))
  | Some run =>
    _ ← st_modify (fun g => mkGateway (g_registry g) (g_executed g ++ [x]));
    let (result, published) := run (x_context x) (x_sql x) (options_page_size opts) c in
    let warnings := fold_left publish_warning published [] in
    st_lift (match result with
    | Ok outcome => Ok (mkSharedManagedSqlExecution (w_execution_uuid w) c outcome warnings)
    | Err e =>
      Err (if bool_decide (code e = OperationTimeout) && negb (bool_decide (warnings = [])) then
             mkIpcError (code e) (runtime_impact e) (message e ++ lit "; " ++ join (lit " ") warnings) (details e)
           else e)
    end)
  end.

(** The error of a service call, mapped for the gateway. *)
Definition map_op_err {A} (f : IpcError -> GatewayError) (m : ST Gateway IpcError A) : Op A :=
  fun g => let (r, g') := m g in (map_err f r, g').

(** ** [sql.analyze] *)

Definition analysis_status_name (st : SqlAnalysisStatus) : str :=
  match st with Analyzed => lit "analyzed" | Uncertain => lit "uncertain" end.

(** The risks the user is told about. *)
Definition outcome_warnings (driver : str) : list str :=
  lit "超时、连接中断或未知后端错误可能导致数据库侧结果未知；系统不会自动重试。" ::
  (if str_eqb driver (lit "clickhouse") then
     [lit "ClickHouse 异步 mutation 的 accepted/submitted 只表示服务端已接收，不表示后台 mutation 已完成。"]
   else []).

(** The target shown to the user. *)
Definition presented_target (req : SqlToolRequest) (profile : StoredConnectionRecord) : Value :=
  let target := [(lit "profileId", VString (profile_id req)); (lit "connectionName", VString (r_name profile));
                 (lit "driver", VString (driver_as_str (r_driver profile)));
                 (lit "environment", VString (r_environment profile))] in
  let target := match req_database req with
                | Some database => map_insert (lit "database") (VString database) target | None => target end in
  VObject match req_schema req with
          | Some schema => map_insert (lit "schema") (VString schema) target | None => target end.

(** The response of [sql.analyze]: the plan, its risk and what the user is asked to approve. *)
Definition analyze_response (handle : PreparedPlanHandle) (a : SqlAnalysis) (req : SqlToolRequest)
    (profile : StoredConnectionRecord) : Value :=
  let strings l := VArray (map VString l) in
  let driver := driver_as_str (r_driver profile) in
  VObject
    [(lit "planId", VString (h_plan_id handle));
     (lit "expiresAt", VNumber (number_of_u64 (h_expires_at_ms handle)));
     (lit "risk", VObject
        [(lit "level", VString (risk_level a)); (lit "reversible", VBool (reversible a));
         (lit "sideEffects", strings (side_effects a))]);
     (lit "permission", VObject
        [(lit "inputSummary", VString (lit "在连接“" ++ r_name profile ++ lit "”执行一条 SQL"));
         (lit "confirmationPrompt", VString (lit "确认在 " ++ r_environment profile ++ lit " " ++ driver ++ lit " 执行"));
         (lit "presentation", VObject
            [(lit "target", presented_target req profile);
             (lit "riskReasons", strings (reasons a));
             (lit "sql", VObject
                [(lit "text", VString (req_sql req));
                 (lit "analysisStatus", VString (analysis_status_name (status a)));
                 (lit "statementClass", VString (class_as_str (analyzed_class a)))]);
             (lit "timeoutMs", VNumber (number_of_u64 30000));
             (lit "maxResultBytes", VNumber (number_of_u64 (1024 * 1024)));
             (lit "outcomeWarnings", strings (outcome_warnings driver))])])].

(** The ClickHouse conditions of [SqlAnalyzeOperation]. *)
Definition clickhouse_target_ok (req : SqlToolRequest) (snapshot : ConnectionRuntimeSnapshot)
  : Result GatewayError unit :=
  if match trimmed_nonempty (req_schema req) with Some _ => true | None => false end then
    Err (sql_rejected (lit "ClickHouse SQL accepts a database target but not a schema target"))
  else if negb match sql_execution snapshot with
               | Some features => managed_lifecycle features && bool_decide (statement_access features = AccessDirect)
               | None => false
               end then
    Err (mkGatewayError (lit "CAPABILITY_UNAVAILABLE")
           (lit "ClickHouse SQL requires the direct managed execution lifecycle.") false NotStarted)
  else Ok tt.

Definition sql_analyze (w : World) (input : Value) (context : option GatewayExecutionContext)
  : Op Value :=
  match context with
  | None => fail (plan_error (lit "PLAN_MISMATCH") "SQL analysis requires trusted execution context.")
  | Some ctx =>
    _ ← guard (negb (str_eqb (tool_id ctx) (lit "sql.execute")))
          (plan_error (lit "PLAN_MISMATCH") "SQL analysis context does not match sql.execute.");
    req ← st_lift (ok_or (invalid_request_error (lit "sql.analyze")) (parse_sql_request input));
    _ ← lift_err sql_rejected (validate_request req);
    target ← st_lift (require_sql_executor w (profile_id req) NotStarted);
    let '(profile, snapshot) := target in
    analysis ← lift_err sql_rejected (analyze_sql_for_driver (driver_as_str (r_driver profile)) (req_sql req));
    _ ← (if str_eqb (driver_as_str (r_driver profile)) (lit "clickhouse")
         then st_lift (clickhouse_target_ok req snapshot) else mret tt);
    read_only ← st_lift (sql_profile_read_only profile NotStarted);
    _ ← st_lift (ensure_read_only_sql_policy read_only (status analysis) (analyzed_class analysis) NotStarted);
    expires_at ← st_lift (ok_or (read_error "Prepared SQL plan expiry overflowed.")
                   (checked_add_u64 (w_now_ms w) DEFAULT_PREPARED_PLAN_TTL_MS));
    let payload := mkPreparedSqlPayload req (driver_name snapshot) (r_updated_at profile) read_only
                     (status analysis) (analyzed_class analysis) in
    v ← st_lift (ok_or (read_error "Prepared SQL payload could not be serialized.") (payload_to_value payload));
    handle ← on_registry (prepare (w_uuid w)
               (mkPreparedPlanSpec ctx (profile_id req) (lit "sql.execute") v expires_at));
    mret (analyze_response handle analysis req profile)
  end.

(** ** [sql.execute] *)

Definition clickhouse_statement_class (c : SqlToolStatementClass) : SqlStatementClass :=
  match c with
  | TRead => ClsRead
  | TInsert => ClsInsert
  | TUpdate | TMutation => ClsMutation
  | TDelete => ClsDelete
  | TDdl => ClsDdl
  | TCommand => ClsCommand
  | TUnknown => ClsUnknown
  end.

(** The response of [sql.execute], field by field. *)
Record SqlExecuteResponse := mkSqlExecuteResponse {
  ex_execution_id : str;
  ex_class : str;
  ex_status : SqlAnalysisStatus;
  ex_columns : list ColumnMeta;
  ex_rows : list (list Value);
  ex_affected_rows : option Value;
  ex_has_next_page : bool;
  ex_duration_ms : Z;
  ex_completion_message : option str;
  ex_mutation_state : str;
  ex_warnings : list str;
}.

(** An integer that a JavaScript reader would round is sent as text. *)
Definition json_safe_u64 (v : Z) : Value :=
  if (v <=? 9007199254740991)%Z then VNumber (number_of_u64 v) else VString (to_dec v).

Definition uncertain_warning (st : SqlAnalysisStatus) : list str :=
  match st with
  | Uncertain => [lit "The SQL was executed after conservative critical-risk analysis."]
  | Analyzed => []
  end.

Definition sql_execution_response (p : PreparedSqlPayload) (r : QueryResult) (duration : Z) (uuid : str) : SqlExecuteResponse :=
  mkSqlExecuteResponse (lit "sql_exec_" ++ uuid) (class_as_str (payload_class p)) (analysis_status p) (qr_columns r)
    (qr_rows r) (option_map json_safe_u64 (qr_affected_rows r)) (qr_has_next_page r) duration None
    (if is_mutation (payload_class p) then lit "completed" else lit "not_applicable")
    (uncertain_warning (analysis_status p)).

Definition managed_sql_execution_response (p : PreparedSqlPayload) (x : SharedManagedSqlExecution) (duration : Z)
  : Result GatewayError SqlExecuteResponse :=
  if negb (bool_decide (sm_statement_class x = clickhouse_statement_class (payload_class p))) then
    Err (mkGatewayError (lit "SYSTEM_INTERNAL")
           (lit "Managed SQL execution returned a mismatched statement class.") false OutcomeUnknown)
  else
    let warnings := sm_observation_warnings x ++ uncertain_warning (analysis_status p) in
    let respond r completion state :=
      Ok (mkSqlExecuteResponse (sm_execution_id x) (class_as_str (payload_class p)) (analysis_status p) (qr_columns r)
            (qr_rows r) (option_map json_safe_u64 (qr_affected_rows r)) (qr_has_next_page r) duration completion state warnings) in
    match sm_outcome x with
    | OutRows r => respond r None (lit "not_applicable")
    | OutCommand _ completion_message _ mutation_submitted =>
      respond (mkQueryResult [] [] None false false false [] [] None) (Some completion_message)
        (if mutation_submitted then lit "submitted"
         else if is_mutation (payload_class p) then lit "completed" else lit "not_applicable")
    | OutRaw _ _ _ _ _ _ =>
      Err (mkGatewayError (lit "SYSTEM_INTERNAL")
             (lit "Managed Grid SQL unexpectedly returned a Raw artifact.") false OutcomeUnknown)
    end.

(** The approved target must be the one that was analysed. *)
Definition ensure_same_target (w : World) (plan : ConsumedPreparedPlan) (p : PreparedSqlPayload)
  : Result GatewayError unit :=
  target ← require_sql_executor w (c_profile_id plan) NoEffect;
  let '(profile, snapshot) := target in
  let changed := Err (mkGatewayError (lit "TARGET_CHANGED")
    (lit "The approved SQL target changed before execution.") false NoEffect) in
  if negb (str_eqb (driver_as_str (r_driver profile)) (expected_driver p))
     || negb (str_eqb (driver_name snapshot) (expected_driver p))
     || negb (r_updated_at profile =? expected_profile_updated_at p)%Z
  then changed
  else
    read_only ← sql_profile_read_only profile NoEffect;
    if negb (Bool.eqb read_only (expected_read_only p)) then changed
    else ensure_read_only_sql_policy (expected_read_only p) (analysis_status p) (payload_class p) NoEffect.

(** The statement a prepared payload stands for. *)
Definition execution_of (plan_id profile : str) (p : PreparedSqlPayload) (c : option SqlStatementClass) : Execution :=
  mkExecution plan_id profile (mkSqlExecutionContext (req_database (request p)) (req_schema (request p)))
    (req_sql (request p)) 1 (req_page_size (request p)) c.

Definition run_prepared (w : World) (plan_id : str) (plan : ConsumedPreparedPlan) (p : PreparedSqlPayload)
  : Op SqlExecuteResponse :=
  if str_eqb (expected_driver p) (lit "clickhouse") then
    let c := clickhouse_statement_class (payload_class p) in
    result ← map_op_err map_sql_execute_ipc_error
      (execute_shared_managed_sql w (execution_of plan_id (c_profile_id plan) p (Some c))
         (mkSqlExecutionOptions Grid (Some 30000%Z) 1 (req_page_size (request p))) c);
    st_lift (managed_sql_execution_response p result (w_elapsed_ms w))
  else
    result ← map_op_err map_sql_execute_ipc_error
      (execute_shared_sql w (execution_of plan_id (c_profile_id plan) p None));
    mret (sql_execution_response p result (w_elapsed_ms w) (w_execution_uuid w)).

Definition sql_execute (w : World) (input : Value) (context : option GatewayExecutionContext)
  : Op SqlExecuteResponse :=
  match context with
  | None => fail (plan_error (lit "PLAN_MISMATCH") "Prepared SQL execution requires trusted execution context.")
  | Some ctx =>
    plan_id ← st_lift (ok_or (invalid_request_error (lit "sql.execute")) (parse_plan_request input));
    plan ← on_registry (consume plan_id ctx (lit "sql.execute") (w_now_ms w));
    p ← st_lift (ok_or (plan_error (lit "PLAN_MISMATCH") "Prepared SQL payload is invalid.")
          (payload_from_value (c_exact_payload plan)));
    _ ← st_lift (ensure_same_target w plan p);
    run_prepared w plan_id plan p
  end.

(** ** [prepared_plan.cleanup_run] and disconnect *)

Definition cleanup_run (input : Value) (context : option GatewayExecutionContext) : Op nat :=
  _ ← st_lift (ok_or (invalid_request_error (lit "prepared_plan.cleanup_run")) (parse_empty_request input));
  match context with
  | None => fail (plan_error (lit "PLAN_MISMATCH") "Prepared plan cleanup requires trusted execution context.")
  | Some ctx => st_run (fun g =>
      let (n, reg) := clear_run (run_id ctx) (g_registry g) in (n, mkGateway reg (g_executed g)))
  end.

(** [GatewayDispatcher::on_disconnect]. *)
Definition on_disconnect (g : Gateway) : Gateway := mkGateway (clear_all (g_registry g)).2 (g_executed g).

(** A request from the AI runtime, or the loss of its connection. *)
Inductive GatewayEvent :=
| EvAnalyze (w : World) (input : Value) (ctx : option GatewayExecutionContext)
| EvExecute (w : World) (input : Value) (ctx : option GatewayExecutionContext)
| EvCleanup (input : Value) (ctx : option GatewayExecutionContext)
| EvDisconnect.

Definition gateway_step (ev : GatewayEvent) (g : Gateway) : Gateway :=
  match ev with
  | EvAnalyze w input ctx => (sql_analyze w input ctx g).2
  | EvExecute w input ctx => (sql_execute w input ctx g).2
  | EvCleanup input ctx => (cleanup_run input ctx g).2
  | EvDisconnect => on_disconnect g
  end.

Definition gateway_run (evs : list GatewayEvent) (g : Gateway) : Gateway :=
  fold_left (fun g ev => gateway_step ev g) evs g.

End gateway.

(** ** What the operations do to the state *)

(** Inversion of a sequence of operations: the first failed, or it succeeded and the
    rest ran in the state it left. *)
Lemma st_bind_inv {S E A B} (m : ST S E A) (f : A -> ST S E B) s res :
  (m ≫= f) s = res ->
  (exists e s', m s = (Err e, s') /\ res = (Err e, s')) \/ (exists a s', m s = (Ok a, s') /\ f a s' = res).
Proof. unfold mbind, ST_bind. destruct (m s) as [[a|e] s']; intros <-; eauto 6. Qed.

Lemma st_bind_eq {S E A B} (m : ST S E A) (f : A -> ST S E B) s :
  (m ≫= f) s = match m s with (Ok a, s') => f a s' | (Err e, s') => (Err e, s') end.
Proof. done. Qed.

Lemma st_lift_inv {S E A} (r : Result E A) (s : S) res : st_lift r s = res -> res = (r, s).
Proof. by intros <-. Qed.

Lemma map_err_Ok {E F A} (f : E -> F) (r : Result E A) a : map_err f r = Ok a -> r = Ok a.
Proof. destruct r; simpl; [by intros [= ->]|done]. Qed.

Section effects.
Context {J : JsonNumber} {S : SqlSerde}.

(** A plan that stands for the analysed and admissible request of a call. *)
Record analyzed_as (w : World) (input : Value) (ctx : GatewayExecutionContext) (sp : PreparedPlanSpec)
    (req : SqlToolRequest) (profile : StoredConnectionRecord) (snapshot : ConnectionRuntimeSnapshot)
    (a : SqlAnalysis) (read_only : bool) : Prop := {
  an_tool : tool_id ctx = lit "sql.execute";
  an_request : parse_sql_request input = Some req;
  an_valid : validate_request req = Ok tt;
  an_found : require_sql_executor w (profile_id req) NotStarted = Ok (profile, snapshot);
  an_verdict : analyze_sql_for_driver (driver_as_str (r_driver profile)) (req_sql req) = Ok a;
  an_read_only : sql_profile_read_only profile NotStarted = Ok read_only;
  an_policy : ensure_read_only_sql_policy read_only (status a) (analyzed_class a) NotStarted = Ok tt;
  an_context : p_context sp = ctx;
  an_profile : p_profile_id sp = profile_id req;
  an_operation : execute_operation sp = lit "sql.execute";
  an_payload : payload_to_value (mkPreparedSqlPayload req (driver_name snapshot) (r_updated_at profile)
    read_only (status a) (analyzed_class a)) = Some (exact_payload sp);
}.

Definition analyzed (w : World) (input : Value) (ctx : GatewayExecutionContext) (sp : PreparedPlanSpec) : Prop :=
  exists req profile snapshot a read_only, analyzed_as w input ctx sp req profile snapshot a read_only.

(** The next operation of [H] succeeds as [E], or the state is the one it left. *)
Ltac st_bind H a E :=
  apply st_bind_inv in H as [(? & ? & E & H)|(a & ?s' & E & H)];
  [injection H as -> ->; left; clear -E;
   try (unfold guard, fail, st_lift in E; case_match; by injection E)|].

(** The same for a computation that does not touch the state. *)
Ltac st_lift_step H a E :=
  apply st_bind_inv in H as [(? & ? & E & H)|(a & ? & E & H)]; apply st_lift_inv in E;
  [injection E as _ ->; injection H as _ ->; by left|injection E as E ->; symmetry in E].

Lemma sql_analyze_effect w input ctx g :
  (sql_analyze w input ctx g).2 = g \/
  exists c sp, ctx = Some c /\ analyzed w input c sp /\
    (sql_analyze w input ctx g).2 = mkGateway (prepare (w_uuid w) sp (g_registry g)).2 (g_executed g).
Proof.
  destruct (sql_analyze w input ctx g) as [res g'] eqn:H. simpl. unfold sql_analyze in H.
  destruct ctx as [c|]; [|left; by injection H].
  st_bind H u E0. unfold guard in E0. destruct (negb _) eqn:Ht; [by injection E0|]. injection E0 as _ <-.
  st_lift_step H req E1. st_lift_step H u2 E2. st_lift_step H target E3. destruct target as [profile snapshot].
  st_lift_step H a E4.
  st_bind H u3 E5. assert (s' = g) as ->.
  { destruct (str_eqb (driver_as_str _) _) in E5; by injection E5. }
  st_lift_step H ro E6. st_lift_step H u4 E7. st_lift_step H expires E8. st_lift_step H v E9.
  right. set (sp := mkPreparedPlanSpec c (profile_id req) (lit "sql.execute") v expires) in *.
  exists c, sp. split; [done|]. split.
  - destruct u2, u4. apply map_err_Ok in E2, E4. apply ok_or_Ok in E1, E9.
    exists req, profile, snapshot, a, ro. apply negb_false_iff, bool_decide_eq_true in Ht. by split.
  - apply st_bind_inv in H as [(e & s2 & Hr & [= -> ->])|(h & s2 & Hr & [= _ ->])];
      unfold on_registry in Hr; destruct (prepare _ _ _) as [r reg]; by injection Hr.
Qed.

(** What a successful analysis answers and stores. *)
Lemma sql_analyze_ok w input ctx g v g' :
  sql_analyze w input ctx g = (Ok v, g') ->
  exists c sp req profile snapshot a ro, ctx = Some c /\
    analyzed_as w input c sp req profile snapshot a ro /\
    v = analyze_response (mkPreparedPlanHandle (plan_id_of (w_uuid w)) (expires_at_ms sp)) a req profile /\
    plans (g_registry g') !! plan_id_of (w_uuid w) = Some (mkPreparedPlanEntry sp false) /\
    g_executed g' = g_executed g.
Proof.
  intros H. unfold sql_analyze in H. destruct ctx as [c|]; [|done].
  apply st_bind_inv in H as [(? & ? & _ & ?)|(u & g1 & E0 & H)]; [done|].
  unfold guard in E0. destruct (negb _) eqn:Ht; [done|]. injection E0 as _ <-.
  assert (Hstep : forall A B (r : Result GatewayError A) (k : A -> ST Gateway GatewayError B) g1 res,
    (st_lift r ≫= k) g1 = (Ok res, g') -> exists a, r = Ok a /\ k a g1 = (Ok res, g')).
  { intros A B [x|e] k g1 res Hk; [by exists x|done]. }
  apply Hstep in H as (req & E1 & H). apply Hstep in H as ([] & E2 & H). apply Hstep in H as ([profile snapshot] & E3 & H).
  apply Hstep in H as (a & E4 & H).
  apply st_bind_inv in H as [(? & ? & _ & ?)|(u3 & g1 & E5 & H)]; [done|]. assert (g1 = g) as ->.
  { destruct (str_eqb (driver_as_str _) _) in E5; by injection E5. }
  apply Hstep in H as (ro & E6 & H). apply Hstep in H as ([] & E7 & H).
  apply Hstep in H as (expires & E8 & H). apply Hstep in H as (pv & E9 & H).
  set (sp := mkPreparedPlanSpec c (profile_id req) (lit "sql.execute") pv expires) in *.
  apply st_bind_inv in H as [(? & ? & _ & ?)|(h & g1 & Hr & [= <- <-])]; [done|].
  unfold on_registry, prepare in Hr. destruct (poisoned _); [done|]. injection Hr as <- <-.
  exists c, sp, req, profile, snapshot, a, ro. apply ok_or_Ok in E1, E9. apply map_err_Ok in E2, E4.
  apply negb_false_iff, bool_decide_eq_true in Ht. simpl. rewrite lookup_insert_eq. by split_and!.
Qed.

(** How a managed or plain execution changes the log: not at all, or by its statement. *)
Definition logs (x : Execution) (g g' : Gateway) : Prop :=
  g' = g \/ g' = mkGateway (g_registry g) (g_executed g ++ [x]).

Lemma shared_logs w x g : logs x g (execute_shared_sql w x g).2.
Proof.
  unfold execute_shared_sql, logs. rewrite st_bind_eq. unfold st_lift.
  destruct (w_shared_driver w _) as [dh|]; [|by left]. destruct (dh_execute_sql dh); [|by left].
  rewrite st_bind_eq. simpl. by right.
Qed.

Lemma managed_logs w x opts c g : logs x g (execute_shared_managed_sql w x opts c g).2.
Proof.
  unfold execute_shared_managed_sql, logs. rewrite st_bind_eq. unfold st_lift.
  destruct (w_shared_driver w _) as [dh|]; [|by left]. rewrite st_bind_eq. unfold st_lift.
  destruct (ok_or _ (dh_features dh)); [|by left]. destruct (_ || _); [by left|].
  destruct (_ || _); [by left|]. destruct (negb _); [by left|].
  destruct (dh_execute_managed dh) as [run|]; [|by left]. rewrite st_bind_eq. simpl.
  destruct (run _ _ _ _). by right.
Qed.

Lemma run_prepared_logs w id plan p g :
  exists c, logs (execution_of id (c_profile_id plan) p c) g (run_prepared w id plan p g).2.
Proof.
  unfold run_prepared. destruct (str_eqb _ _).
  - set (x := execution_of _ _ _ _). eexists. fold x. rewrite st_bind_eq. unfold map_op_err.
    match goal with |- context [execute_shared_managed_sql w x ?o ?k g] =>
      pose proof (managed_logs w x o k g) as Hl; destruct (execute_shared_managed_sql w x o k g) as [[r|e] g'] end;
      simpl in *; [|exact Hl]. unfold st_lift. exact Hl.
  - set (x := execution_of _ _ _ _). eexists. fold x. rewrite st_bind_eq. unfold map_op_err.
    pose proof (shared_logs w x g) as Hl. destruct (execute_shared_sql w x g) as [[r|e] g']; simpl in *; exact Hl.
Qed.

(** What one [sql.execute] does: nothing to the log, or one statement, that of the
    plan it consumed, on a target that passed the checks. *)
Lemma sql_execute_effect w input ctx g :
  let g' := (sql_execute w input ctx g).2 in
  g' = g \/
  exists c id, ctx = Some c /\ parse_plan_request input = Some id /\
    g_registry g' = (consume id c (lit "sql.execute") (w_now_ms w) (g_registry g)).2 /\
    (g_executed g' = g_executed g \/
     exists plan reg p k, consume id c (lit "sql.execute") (w_now_ms w) (g_registry g) = (Ok plan, reg) /\
       payload_from_value (c_exact_payload plan) = Some p /\ ensure_same_target w plan p = Ok tt /\
       g_executed g' = g_executed g ++ [execution_of id (c_profile_id plan) p k]).
Proof.
  cbv zeta. destruct (sql_execute w input ctx g) as [res g'] eqn:H. simpl. unfold sql_execute in H.
  destruct ctx as [c|]; [|left; by injection H].
  st_lift_step H pid E1. apply ok_or_Ok in E1. right. exists c, pid. split; [done|]. split; [done|].
  apply st_bind_inv in H as [(e & g1 & E2 & [= -> ->])|(plan & g1 & E2 & H)]; unfold on_registry in E2;
    destruct (consume _ _ _ _ _) as [r reg] eqn:Hc; injection E2 as Hr <-; [split; [done|by left]|].
  apply map_err_Ok in Hr. subst r.
  apply st_bind_inv in H as [(e & g2 & E3 & [= -> ->])|(p & g2 & E3 & H)]; apply st_lift_inv in E3;
    injection E3 as E3 ->; [split; [done|by left]|]. symmetry in E3. apply ok_or_Ok in E3.
  apply st_bind_inv in H as [(e & g2 & E4 & [= -> ->])|([] & g2 & E4 & H)]; apply st_lift_inv in E4;
    injection E4 as E4 ->; [split; [done|by left]|]. symmetry in E4.
  destruct (run_prepared_logs w pid plan p (mkGateway reg (g_executed g))) as [k Hl].
  rewrite H in Hl. simpl in Hl. destruct Hl as [->| ->]; simpl; (split; [done|]); [by left|right].
  by exists plan, reg, p, k.
Qed.

(** ** Where an executed statement comes from *)

(** The target of an execution is the analysed one, unchanged. *)
Record same_target (w : World) (req : SqlToolRequest) (profile : StoredConnectionRecord)
    (snapshot : ConnectionRuntimeSnapshot) (read_only : bool) (profile' : StoredConnectionRecord)
    (snapshot' : ConnectionRuntimeSnapshot) : Prop := {
  tg_found : require_sql_executor w (profile_id req) NoEffect = Ok (profile', snapshot');
  tg_driver : driver_as_str (r_driver profile') = driver_name snapshot;
  tg_runtime : driver_name snapshot' = driver_name snapshot;
  tg_version : r_updated_at profile' = r_updated_at profile;
  tg_read_only : sql_profile_read_only profile' NoEffect = Ok read_only;
}.

(** An execution and the calls it goes back to. *)
Definition provenance (evs : list GatewayEvent) (x : Execution) : Prop :=
  exists pre post we input wa input' c sp req profile snapshot a ro profile' snapshot',
    evs = pre ++ EvExecute we input (Some c) :: post /\ EvAnalyze wa input' (Some c) ∈ pre /\
    analyzed_as wa input' c sp req profile snapshot a ro /\ same_target we req profile snapshot ro profile' snapshot' /\
    x_plan x = plan_id_of (w_uuid wa) /\ x_profile x = profile_id req /\ x_sql x = req_sql req /\
    x_context x = mkSqlExecutionContext (req_database req) (req_schema req) /\
    x_page x = 1%Z /\ x_page_size x = req_page_size req.

Definition plans_analyzed (evs : list GatewayEvent) (r : PreparedPlanRegistry) : Prop :=
  forall id e, plans r !! id = Some e -> exists w input c,
    EvAnalyze w input (Some c) ∈ evs /\ analyzed w input c (spec e) /\ id = plan_id_of (w_uuid w).

Lemma provenance_app evs ev x : provenance evs x -> provenance (evs ++ [ev]) x.
Proof.
  intros (pre & post & we & input & wa & input' & c & sp & req & profile & snapshot & a & ro & profile' & snapshot' & -> & H).
  exists pre, (post ++ [ev]), we, input, wa, input', c, sp, req, profile, snapshot, a, ro, profile', snapshot'.
  split; [|exact H]. by rewrite <-app_assoc.
Qed.

Lemma plans_analyzed_weaken evs ev r r' :
  plans_analyzed evs r ->
  (forall id e, plans r' !! id = Some e -> exists e', plans r !! id = Some e' /\ spec e' = spec e) ->
  plans_analyzed (evs ++ [ev]) r'.
Proof.
  intros Hp Hr id e He. destruct (Hr _ _ He) as (e' & He' & <-). destruct (Hp _ _ He') as (w & i & c & Hin & Ha & ->).
  exists w, i, c. split; [apply elem_of_app; by left|done].
Qed.

Lemma consume_specs id c op now r id' e :
  plans (consume id c op now r).2 !! id' = Some e -> exists e', plans r !! id' = Some e' /\ spec e' = spec e.
Proof.
  unfold consume. destruct (poisoned r); [by eauto|]. destruct (plans r !! id) as [e0|] eqn:He; [|by eauto].
  destruct (consumed e0); [by eauto|]. destruct (_ <=? _)%Z; simpl.
  { rewrite lookup_delete. case_decide; [done|eauto]. }
  destruct (_ || _); simpl; [by eauto|]. rewrite lookup_insert. case_decide; [|eauto].
  intros [= <-]. subst. eauto.
Qed.

Lemma retain_specs keep r id e :
  plans (retain keep r).2 !! id = Some e -> exists e', plans r !! id = Some e' /\ spec e' = spec e.
Proof. intros H. destruct (retain_lookup keep r id) as [Hr|Hr]; rewrite Hr in H; [eauto|done]. Qed.

Lemma clear_all_specs r id e :
  plans (clear_all r).2 !! id = Some e -> exists e', plans r !! id = Some e' /\ spec e' = spec e.
Proof. unfold clear_all. destruct (poisoned r); simpl; [eauto|]. by rewrite lookup_empty. Qed.

(** Every plan of the registry was analysed and every execution has its provenance. *)
Definition gateway_ok (evs : list GatewayEvent) (g : Gateway) : Prop :=
  plans_analyzed evs (g_registry g) /\ Forall (provenance evs) (g_executed g).

Lemma ensure_same_target_inv w plan p :
  ensure_same_target w plan p = Ok tt ->
  exists profile snapshot, require_sql_executor w (c_profile_id plan) NoEffect = Ok (profile, snapshot) /\
    driver_as_str (r_driver profile) = expected_driver p /\ driver_name snapshot = expected_driver p /\
    r_updated_at profile = expected_profile_updated_at p /\
    sql_profile_read_only profile NoEffect = Ok (expected_read_only p) /\
    ensure_read_only_sql_policy (expected_read_only p) (analysis_status p) (payload_class p) NoEffect = Ok tt.
Proof.
  unfold ensure_same_target, str_eqb. intros H. bind_inv. destruct a as [profile snapshot].
  destruct (_ || _) eqn:Hc; [done|]. bind_inv. destruct (Bool.eqb _ _) eqn:Hb; [|done].
  apply Bool.eqb_prop in Hb. subst a. exists profile, snapshot.
  apply orb_false_iff in Hc as [Hc H3]. apply orb_false_iff in Hc as [H1 H2]. breflect.
  apply Z.eqb_eq in H3. done.
Qed.

Lemma gateway_step_ok evs ev g `{L : !SqlSerdeLaws} :
  gateway_ok evs g -> gateway_ok (evs ++ [ev]) (gateway_step ev g).
Proof.
  intros [Hp Hx].
  assert (Hx' : Forall (provenance (evs ++ [ev])) (g_executed g))
    by (eapply Forall_impl; [exact Hx|]; intros x; apply provenance_app).
  assert (Hsame : plans_analyzed (evs ++ [ev]) (g_registry g)) by (eapply plans_analyzed_weaken; eauto).
  destruct ev as [w input ctx|w input ctx|input ctx|]; simpl.
  - destruct (sql_analyze_effect w input ctx g) as [->|(c & sp & -> & Ha & ->)]; [by split|].
    split; [|done]. simpl. unfold prepare. destruct (poisoned _); [done|]. simpl.
    intros id e. simpl. rewrite lookup_insert. case_decide as Hid; [|apply Hsame].
    intros [= <-]. exists w, input, c. split; [apply elem_of_app; right; by apply list_elem_of_singleton|]. by subst.
  - destruct (sql_execute_effect w input ctx g) as [->|(c & id & -> & Hid & Hr & Hlog)]; [by split|].
    split.
    { rewrite Hr. eapply plans_analyzed_weaken; [exact Hp|]. intros id' e. apply consume_specs. }
    destruct Hlog as [->|(plan & reg & p & k & Hc & Hpl & Ht & ->)]; [done|].
    apply Forall_app_2; [done|]. constructor; [|constructor].
    destruct (consume_ok_inv _ _ _ _ _ _ _ Hc) as (e & He & _ & _ & _ & Hctx & -> & _).
    destruct (Hp _ _ He) as (wa & input' & c' & Hin & (req & profile & snapshot & a & ro & Ha) & ->).
    pose proof (an_context _ _ _ _ _ _ _ _ _ Ha) as Hcc. rewrite Hctx in Hcc. subst c'.
    simpl in Hpl. rewrite (payload_roundtrip _ _ (an_payload _ _ _ _ _ _ _ _ _ Ha)) in Hpl. injection Hpl as <-.
    destruct (ensure_same_target_inv _ _ _ Ht) as (profile' & snapshot' & H1 & H2 & H3 & H4 & H5 & _).
    simpl in *. pose proof (an_profile _ _ _ _ _ _ _ _ _ Ha) as Hpr. rewrite Hpr in H1.
    exists evs, [], w, input, wa, input', c, (spec e), req, profile, snapshot, a, ro, profile', snapshot'.
    by split_and!.
  - assert ((cleanup_run input ctx g).2 = g \/ exists run,
      (cleanup_run input ctx g).2 = mkGateway (clear_run run (g_registry g)).2 (g_executed g)) as [->|(run & ->)].
    { unfold cleanup_run. rewrite st_bind_eq. unfold st_lift. destruct (ok_or _ _); [|by left].
      destruct ctx as [c|]; [|by left]. right. exists (run_id c). unfold st_run. by destruct (clear_run _ _). }
    + by split.
    + split; [|done]. eapply plans_analyzed_weaken; [exact Hp|]. intros id e. apply retain_specs.
  - split; [|done]. eapply plans_analyzed_weaken; [exact Hp|]. intros id e. apply clear_all_specs.
Qed.

Lemma gateway_run_ok pre evs g `{L : !SqlSerdeLaws} :
  gateway_ok pre g -> gateway_ok (pre ++ evs) (gateway_run evs g).
Proof.
  revert pre g. induction evs as [|ev evs IH]; intros pre g Hg; [by rewrite app_nil_r|].
  simpl. replace (pre ++ ev :: evs) with ((pre ++ [ev]) ++ evs) by by rewrite <-app_assoc.
  apply IH. by apply gateway_step_ok.
Qed.

Lemma executed_provenance evs x `{L : !SqlSerdeLaws} :
  x ∈ g_executed (gateway_run evs gateway_start) -> provenance evs x.
Proof.
  intros Hx. assert (gateway_ok [] gateway_start) as H0.
  { split; [|constructor]. intros id e. simpl. by rewrite lookup_empty. }
  destruct (gateway_run_ok [] evs _ H0) as [_ Hf]. exact (proj1 (Forall_forall _ _) Hf x Hx).
Qed.

(** *** What is shown *)

(** The value at a path of object keys. *)
Fixpoint json_at (path : list string) (v : Value) : option Value :=
  match path with
  | [] => Some v
  | k :: path' =>
    match v with
    | VObject fields => match map_get (lit k) fields with Some v' => json_at path' v' | None => None end
    | _ => None
    end
  end.

Lemma require_executor_profile w id o profile snapshot :
  require_sql_executor w id o = Ok (profile, snapshot) -> require_connection w id = Ok profile.
Proof.
  unfold require_sql_executor. intros H. bind_inv. destruct (sql_executor _); [|done].
  injection H as -> _. by apply map_err_Ok in E.
Qed.

Lemma presented_fields req profile :
  json_at ["profileId"] (presented_target req profile) = Some (VString (profile_id req)) /\
  json_at ["database"] (presented_target req profile) = option_map VString (req_database req) /\
  json_at ["schema"] (presented_target req profile) = option_map VString (req_schema req).
Proof. unfold presented_target. by destruct (req_database req), (req_schema req). Qed.

(** *** A read-only profile *)

Lemma map_get_normalize k key fields :
  k <> key -> map_get k (normalize_optional_string key fields) = map_get k fields.
Proof.
  intros Hk. unfold normalize_optional_string. repeat case_match; try done. by apply map_get_insert_ne.
Qed.

(** Only an SQLite record has a read-only profile. *)
Lemma read_only_is_sqlite r o `{L : !SqlSerdeLaws} :
  sql_profile_read_only r o = Ok true -> driver_as_str (r_driver r) = lit "sqlite".
Proof.
  unfold sql_profile_read_only, driver_profile_from_record. intros H. bind_inv.
  destruct a as [| | | | |ro]; try done. apply map_err_Ok in E.
  destruct (r_payload r) as [| | | | |fields]; try done. apply map_err_Ok, profile_tag in E.
  rewrite !map_get_normalize, map_get_insert in E by (vm_compute; discriminate). by injection E.
Qed.

(** For SQLite an analysed read has no write effect. *)
Lemma sqlite_analyzed_read f a :
  analyze_sqlite f = Ok a -> status a = Analyzed -> analyzed_class a = TRead -> business_write ∉ side_effects a.
Proof.
  assert (Hif : forall (b : bool) r1 r2 (P : Result str SqlAnalysis -> Prop), P r1 -> P r2 -> P (if b then r1 else r2))
    by (by intros []).
  set (P := fun r : Result str SqlAnalysis => r = Ok a -> status a = Analyzed -> analyzed_class a = TRead ->
    business_write ∉ side_effects a).
  assert (Hw : forall c r, c <> TRead -> P (Ok (write_analysis c r))) by (by intros c r Hc [= <-]).
  assert (Hd : forall c r, c <> TRead -> P (Ok (destructive c r))) by (by intros c r Hc [= <-]).
  assert (Hu : forall c r, P (Ok (uncertain_critical c r))) by (by intros c r [= <-]).
  assert (Hr : forall r, P (Ok (read_analysis r))).
  { intros r [= <-] _ _. apply (bool_decide_unpack _). vm_compute. exact I. }
  assert (He : forall e, P (Err e)) by (by intros e).
  change (P (analyze_sqlite f)). clearbody P. unfold analyze_sqlite. cbv zeta.
  repeat (apply Hif; [auto|]). auto.
Qed.

Lemma read_only_policy_inv st c o :
  ensure_read_only_sql_policy true st c o = Ok tt -> st = Analyzed /\ c = TRead.
Proof. unfold ensure_read_only_sql_policy. simpl. by repeat case_bool_decide. Qed.
End effects.

(** ** How often a plan runs *)

Section counting.
Context {J : JsonNumber} {S : SqlSerde}.

Definition runs_of (pid : str) (xs : list Execution) : nat := length (filter (fun x => x_plan x = pid) xs).

(** The UUIDs the analyses of a history drew. *)
Definition drawn_uuids (evs : list GatewayEvent) : list str :=
  omap (fun ev => match ev with EvAnalyze w _ _ => Some (w_uuid w) | _ => None end) evs.

Definition draws (pid : str) (evs : list GatewayEvent) : nat :=
  length (filter (fun u => plan_id_of u = pid) (drawn_uuids evs)).

Lemma runs_of_app pid xs ys : runs_of pid (xs ++ ys) = runs_of pid xs + runs_of pid ys.
Proof. unfold runs_of. by rewrite filter_app, length_app. Qed.

Lemma draws_cons pid ev evs : draws pid (ev :: evs) = draws pid [ev] + draws pid evs.
Proof.
  unfold draws, drawn_uuids. destruct ev; simpl; try done. rewrite !filter_cons. by case_decide.
Qed.

(** A step runs a plan only by spending it, and only an analysis makes one. *)
Lemma gateway_step_live pid ev g :
  runs_of pid (g_executed (gateway_step ev g)) + live pid (g_registry (gateway_step ev g))
  <= runs_of pid (g_executed g) + live pid (g_registry g) + draws pid [ev].
Proof.
  destruct ev as [w input ctx|w input ctx|input ctx|]; simpl.
  - destruct (sql_analyze_effect w input ctx g) as [->|(c & sp & -> & _ & ->)]; [lia|]. simpl.
    pose proof (step_live pid (Prepare (w_uuid w) sp) (g_registry g)) as H.
    unfold draws, drawn_uuids, prepares, prepared_uuids, executions in *. simpl in *. lia.
  - destruct (sql_execute_effect w input ctx g) as [->|(c & id & -> & _ & Hr & Hlog)]; [lia|]. rewrite Hr.
    pose proof (step_live pid (Consume id c (lit "sql.execute") (w_now_ms w)) (g_registry g)) as H. simpl in H.
    change (prepares pid _) with 0 in H. change (draws pid _) with 0.
    destruct Hlog as [->|(plan & reg & p & k & Hc & _ & _ & ->)].
    + destruct (consume _ _ _ _ _) as [[plan|e] reg]; simpl in *; lia.
    + rewrite Hc in *. rewrite runs_of_app. simpl in *. unfold executions, runs_of in *. simpl in *.
      rewrite !filter_cons in *. simpl in *. case_decide; simpl in *; lia.
  - unfold cleanup_run. rewrite st_bind_eq. unfold st_lift. destruct (ok_or _ _); simpl; [|lia].
    destruct ctx as [c|]; simpl; [|lia]. unfold st_run.
    pose proof (step_live pid (ClearRun (run_id c)) (g_registry g)) as H. simpl in H.
    destruct (clear_run _ _) as [n reg]. simpl in *. change (prepares pid _) with 0 in H. unfold executions in H. simpl in H. lia.
  - pose proof (step_live pid ClearAll (g_registry g)) as H. simpl in *.
    change (prepares pid _) with 0 in H. unfold executions in H. simpl in H. lia.
Qed.

Lemma gateway_run_live pid evs g :
  runs_of pid (g_executed (gateway_run evs g)) + live pid (g_registry (gateway_run evs g))
  <= runs_of pid (g_executed g) + live pid (g_registry g) + draws pid evs.
Proof.
  revert g. induction evs as [|ev evs IH]; intros g; simpl; [unfold draws; simpl; lia|].
  specialize (IH (gateway_step ev g)). pose proof (gateway_step_live pid ev g). rewrite draws_cons. lia.
Qed.

Lemma draws_NoDup pid evs : NoDup (drawn_uuids evs) -> draws pid evs <= 1.
Proof. apply plan_ids_NoDup. Qed.

(** The outcome an error reports. *)
Definition reports (o : GatewayOutcome) {A} (r : Result GatewayError A) : Prop :=
  match r with Err e => g_outcome e = o | Ok _ => False end.

(** A service call whose error says that nothing was started did not reach a driver;
    after mapping, no error of an execution says so. *)
Lemma run_prepared_outcome w pid plan p g : ~ reports NotStarted (run_prepared w pid plan p g).1.
Proof.
  unfold run_prepared. destruct (str_eqb _ _); rewrite st_bind_eq; unfold map_op_err.
  - destruct (execute_shared_managed_sql _ _ _ _ _) as [[r|e] g']; simpl.
    + unfold managed_sql_execution_response. destruct (negb _); simpl; [done|]. destruct (sm_outcome r); simpl; by intros ?.
    + destruct e as [k ? ? ?]. by destruct k.
  - destruct (execute_shared_sql _ _ _) as [[r|e] g']; simpl; [by intros ?|]. destruct e as [k ? ? ?]. by destruct k.
Qed.

Lemma shared_ok w x g r g' :
  execute_shared_sql w x g = (Ok r, g') -> g_executed g' = g_executed g ++ [x].
Proof.
  unfold execute_shared_sql. rewrite st_bind_eq. unfold st_lift.
  destruct (w_shared_driver w _) as [dh|]; [|done]. destruct (dh_execute_sql dh); [|done].
  rewrite st_bind_eq. simpl. by intros [= _ <-].
Qed.

Lemma managed_ok w x opts c g r g' :
  execute_shared_managed_sql w x opts c g = (Ok r, g') -> g_executed g' = g_executed g ++ [x].
Proof.
  unfold execute_shared_managed_sql. rewrite st_bind_eq. unfold st_lift.
  destruct (w_shared_driver w _) as [dh|]; [|done]. rewrite st_bind_eq.
  destruct (ok_or _ (dh_features dh)); [|done]. destruct (_ || _); [done|].
  destruct (_ || _); [done|]. destruct (negb _); [done|].
  destruct (dh_execute_managed dh) as [run|]; [|done]. rewrite st_bind_eq. simpl.
  destruct (run _ _ _ _). by intros [= _ <-].
Qed.

Lemma run_prepared_ok w pid plan p g r g' :
  run_prepared w pid plan p g = (Ok r, g') -> exists x, g_executed g' = g_executed g ++ [x].
Proof.
  unfold run_prepared. destruct (str_eqb _ _); rewrite st_bind_eq; unfold map_op_err.
  - destruct (execute_shared_managed_sql _ _ _ _ _) as [[m|e] g1] eqn:H; simpl; [|done].
    unfold st_lift. intros [= _ <-]. eexists. by eapply managed_ok.
  - destruct (execute_shared_sql _ _ _) as [[m|e] g1] eqn:H; simpl; [|done].
    intros [= _ <-]. eexists. by eapply shared_ok.
Qed.
End counting.

(** ** Theorems *)

Section theorems.
Context {J : JsonNumber} {S : SqlSerde} {L : SqlSerdeLaws}.

(** C1: Only analysed statements run, word for word.  In any history of gateway calls,
    a statement handed to a driver goes back to an earlier [sql.analyze] of the same
    execution context whose request passed validation and the analysis of the profile's
    driver: the text, the profile, the target context and the page are those of that
    request as it was sent, and when it runs, the profile has the version and the
    read-only flag it had when it was analysed, and its driver and that of the open
    connection are the driver the connection had then. *)
Theorem executed_sql_was_analyzed evs x :
  x ∈ g_executed (gateway_run evs gateway_start) -> provenance evs x.
Proof. apply executed_provenance; apply _. Qed.

(** What the user approves is what was stored.  A successful [sql.analyze] answers
    with the id of a plan that the registry now holds, not yet consumed, whose payload
    decodes to the request; the text it asks the user to approve, the target profile,
    and the risk, class and reasons it shows are those of that stored request and of the
    analysis of that very text for the profile's driver.  Nothing has run. *)
Theorem approval_shows_the_stored_sql w input ctx g v g' :
  sql_analyze w input ctx g = (Ok v, g') ->
  exists plan_id entry p profile a,
    json_at ["planId"] v = Some (VString plan_id) /\
    plans (g_registry g') !! plan_id = Some entry /\ consumed entry = false /\
    payload_from_value (exact_payload (spec entry)) = Some p /\ parse_sql_request input = Some (request p) /\
    require_connection w (profile_id (request p)) = Ok profile /\
    analyze_sql_for_driver (driver_as_str (r_driver profile)) (req_sql (request p)) = Ok a /\
    (status a, analyzed_class a) = (analysis_status p, payload_class p) /\
    let shown path := json_at ("permission" :: "presentation" :: path)%string v in
    shown ["sql"; "text"]%string = Some (VString (req_sql (request p))) /\
    shown ["sql"; "analysisStatus"]%string = Some (VString (analysis_status_name (analysis_status p))) /\
    shown ["sql"; "statementClass"]%string = Some (VString (class_as_str (payload_class p))) /\
    shown ["riskReasons"]%string = Some (VArray (map VString (reasons a))) /\
    shown ["target"; "profileId"]%string = Some (VString (p_profile_id (spec entry))) /\
    shown ["target"; "database"]%string = option_map VString (req_database (request p)) /\
    shown ["target"; "schema"]%string = option_map VString (req_schema (request p)) /\
    json_at ["risk"; "level"]%string v = Some (VString (risk_level a)) /\
    g_executed g' = g_executed g.
Proof.
  intros (c & sp & req & profile & snapshot & a & ro & -> & Ha & -> & Hpl & Hx)%sql_analyze_ok.
  eexists (plan_id_of (w_uuid w)), _, _, profile, a. split; [done|]. split; [exact Hpl|]. split; [done|].
  split; [exact (payload_roundtrip _ _ (an_payload _ _ _ _ _ _ _ _ _ Ha))|]. cbn [request].
  split; [apply Ha|]. split; [by eapply require_executor_profile, Ha|]. split; [apply Ha|]. split; [done|].
  cbv zeta. cbn [spec]. rewrite (an_profile _ _ _ _ _ _ _ _ _ Ha).
  destruct (presented_fields req profile) as (H1 & H2 & H3). split_and!; done.
Qed.

(** C3: A read-only SQLite profile only ever runs reads.  A statement executed while the
    profile is read-only is a single framed SQLite statement whose words carry the
    evidence of a read. *)
Theorem read_only_profile_runs_only_reads evs x :
  x ∈ g_executed (gateway_run evs gateway_start) ->
  exists pre post we input c profile snapshot,
    evs = pre ++ EvExecute we input (Some c) :: post /\
    require_sql_executor we (x_profile x) NoEffect = Ok (profile, snapshot) /\
    (sql_profile_read_only profile NoEffect = Ok true ->
     exists f ls, frame_single_statement (x_sql x) Sqlite = Ok f /\ x_sql x = lxs_text ls /\
       lexemes_ok Sqlite [] ls /\ one_statement ls /\ framing_of Sqlite ls f /\
       read_evidence Sqlite f (x_sql x)).
Proof.
  intros Hx. destruct (executed_provenance evs x Hx) as (pre & post & we & input & wa & input' & c & sp & req & profile & snapshot & a & ro & profile' & snapshot'
    & He & _ & Ha & Ht & _ & Hpr & Hsql & _).
  exists pre, post, we, input, c, profile', snapshot'. split; [done|]. rewrite Hpr, Hsql.
  split; [apply Ht|]. intros Hro. rewrite (tg_read_only _ _ _ _ _ _ _ Ht) in Hro. injection Hro as ->.
  pose proof (read_only_is_sqlite _ _ (an_read_only _ _ _ _ _ _ _ _ _ Ha)) as Hdrv.
  destruct (read_only_policy_inv _ _ _ (an_policy _ _ _ _ _ _ _ _ _ Ha)) as [Hst Hcl].
  pose proof (an_verdict _ _ _ _ _ _ _ _ _ Ha) as Hv. rewrite Hdrv, analyze_sql_eq in Hv.
  change (driver_dialect (lit "sqlite")) with (Some Sqlite) in Hv. cbv beta iota in Hv.
  destruct (frame_single_statement (req_sql req) Sqlite) as [f|] eqn:E; [|done].
  cbn [mbind Result_bind analyze_framing] in Hv.
  pose proof (sqlite_analyzed_read _ _ Hv Hst Hcl) as Hw.
  destruct (framing_sound_lemma _ _ _ E) as (ls & H1 & H2 & H3 & _ & _ & _ & H4).
  exists f, ls. split_and!; try done. pose proof (sqlite_read f (req_sql req)) as Hn.
  rewrite Hv in Hn. by apply Hn.
Qed.

(** A plan runs at most once: in any history whose analyses draw distinct UUIDs, no
    plan id has more than one statement handed to a driver, whatever is retried. *)
Theorem plan_runs_at_most_once evs pid :
  NoDup (drawn_uuids evs) -> runs_of pid (g_executed (gateway_run evs gateway_start)) <= 1.
Proof.
  intros Hn%(draws_NoDup pid). pose proof (gateway_run_live pid evs gateway_start) as H.
  assert (live pid (g_registry gateway_start) = 0) as Hl by (unfold live; simpl; by rewrite lookup_empty).
  change (runs_of pid (g_executed gateway_start)) with 0 in H. lia.
Qed.

(** What a failed [sql.execute] reports is true: when it says that nothing was
    started, no statement reached a driver; every call hands over at most one
    statement, and a call that returns a result handed over exactly one. *)
Theorem execute_reports_truthfully w input ctx g :
  let '(res, g') := sql_execute w input ctx g in
  (reports NotStarted res -> g_executed g' = g_executed g) /\
  (g_executed g' = g_executed g \/ exists x, g_executed g' = g_executed g ++ [x]) /\
  (is_ok res = true -> exists x, g_executed g' = g_executed g ++ [x]).
Proof.
  pose proof (sql_execute_effect w input ctx g) as He. cbv zeta in He.
  destruct (sql_execute w input ctx g) as [res g'] eqn:H. simpl in He.
  assert (Hone : g_executed g' = g_executed g \/ exists x, g_executed g' = g_executed g ++ [x]).
  { destruct He as [->|(c & pid & _ & _ & _ & [->|(? & ? & ? & k & _ & _ & _ & ->)])]; eauto. }
  split; [|split; [done|]].
  - clear He Hone. unfold sql_execute in H. destruct ctx as [c|]; [|by injection H as <- <-].
    apply st_bind_inv in H as [(e & g1 & E & [= -> ->])|(pid & g1 & E & H)]; apply st_lift_inv in E;
      injection E as _ ->; [done|].
    apply st_bind_inv in H as [(e & g1 & E & [= -> ->])|(plan & g1 & E & H)]; unfold on_registry in E;
      destruct (consume _ _ _ _ _) as [r reg]; injection E as _ <-; [done|].
    apply st_bind_inv in H as [(e & g1 & E & [= -> ->])|(p & g1 & E & H)]; apply st_lift_inv in E;
      injection E as _ ->; [done|].
    apply st_bind_inv in H as [(e & g1 & E & [= -> ->])|(u & g1 & E & H)]; apply st_lift_inv in E;
      injection E as _ ->; [done|].
    pose proof (run_prepared_outcome w pid plan p (mkGateway reg (g_executed g))) as Ho. rewrite H in Ho. done.
  - intros Hok. destruct res as [r|]; [|done]. clear He Hone. unfold sql_execute in H. destruct ctx as [c|]; [|done].
    apply st_bind_inv in H as [(e & g1 & _ & ?)|(pid & g1 & E & H)]; [done|]. apply st_lift_inv in E. injection E as _ ->.
    apply st_bind_inv in H as [(e & g1 & _ & ?)|(plan & g1 & E & H)]; [done|]. unfold on_registry in E.
    destruct (consume _ _ _ _ _) as [r0 reg]. injection E as _ <-.
    apply st_bind_inv in H as [(e & g1 & _ & ?)|(p & g1 & E & H)]; [done|]. apply st_lift_inv in E. injection E as _ ->.
    apply st_bind_inv in H as [(e & g1 & _ & ?)|(u & g1 & E & H)]; [done|]. apply st_lift_inv in E. injection E as _ ->.
    by eapply run_prepared_ok in H.
Qed.
End theorems.

(** ** Concrete runs

    A small [serde] that satisfies the two laws, and a history in which an analysed
    statement on a read-only profile runs once and its retry is refused. *)

Definition opt_value (o : option str) : Value (J:=IntegerNumber) :=
  match o with Some s => VString s | None => VNull end.
Definition value_opt (v : Value (J:=IntegerNumber)) : option (option str) :=
  match v with VString s => Some (Some s) | VNull => Some None | _ => None end.

Definition status_bool (s : SqlAnalysisStatus) : bool := match s with Analyzed => true | Uncertain => false end.

Definition class_of_str (s : str) : option SqlToolStatementClass :=
  List.find (fun c => str_eqb (class_as_str c) s)
    [TRead; TInsert; TUpdate; TMutation; TDelete; TDdl; TCommand; TUnknown].

Definition demo_number (z : Z) : Value (J:=IntegerNumber) := @VNumber IntegerNumber z.

Definition demo_request_value (r : SqlToolRequest) : Value (J:=IntegerNumber) :=
  VArray [VString (profile_id r); opt_value (req_database r); opt_value (req_schema r);
          VString (req_sql r); demo_number (req_page_size r)].

Definition demo_parse_request (v : Value (J:=IntegerNumber)) : option SqlToolRequest :=
  match v with
  | VArray [VString pid; db; sch; VString sql; VNumber size] =>
    db ← value_opt db; sch ← value_opt sch; Some (mkSqlToolRequest pid db sch sql size)
  | _ => None
  end.

Definition demo_serde : SqlSerde (J:=IntegerNumber) := {|
  parse_sql_request := demo_parse_request;
  parse_plan_request v := match v with VString s => Some s | _ => None end;
  parse_empty_request v := match v with VObject [] => Some tt | _ => None end;
  payload_to_value p := Some (VArray [demo_request_value (request p); VString (expected_driver p);
    demo_number (expected_profile_updated_at p); VBool (expected_read_only p);
    VBool (status_bool (analysis_status p)); VString (class_as_str (payload_class p))]);
  payload_from_value v :=
    match v with
    | VArray [req; VString driver; VNumber updated; VBool ro; VBool st; VString cls] =>
      req ← demo_parse_request req; cls ← class_of_str cls;
      Some (mkPreparedSqlPayload req driver updated ro (if st then Analyzed else Uncertain) cls)
    | _ => None
    end;
  parse_driver_profile v :=
    match v with
    | VObject fields =>
      match map_get (lit "driver") fields with
      | Some (VString d) =>
        if str_eqb d (lit "sqlite") then
          Ok (PSqlite match map_get (lit "isReadOnly") fields with Some (VBool b) => b | _ => false end)
        else if str_eqb d (lit "redis") then Ok PRedis
        else Ok PMysql
      | _ => Err (lit "missing driver")
      end
    | _ => Err (lit "not an object")
    end;
  number_of_u64 := fun z => z;
|}.

Lemma class_of_as_str c : class_of_str (class_as_str c) = Some c.
Proof. destruct c; vm_compute; reflexivity. Qed.

#[local] Instance demo_laws : SqlSerdeLaws (J:=IntegerNumber) (S:=demo_serde).
Proof.
  split.
  - intros [[pid db sch sql size] driver updated ro st cls] v [= <-]. simpl.
    assert (Hv : forall o, value_opt (opt_value o) = Some o) by (by intros []).
    rewrite !Hv. simpl. rewrite class_of_as_str. simpl. by destruct st.
  - intros fields ro. simpl. destruct (map_get (lit "driver") fields) as [[| | |d| |]|]; try done.
    destruct (str_eqb d (lit "sqlite")) eqn:E; [|destruct (str_eqb d (lit "redis")); discriminate].
    apply bool_decide_eq_true in E as ->. done.
Qed.

Definition demo_record : StoredConnectionRecord (J:=IntegerNumber) :=
  mkStoredConnectionRecord (lit "p1") (lit "Local") CdSqlite (lit "dev") None [] [] None
    (VObject [(lit "isReadOnly", VBool true)]) None 3 7 None None None None.

Definition demo_world (now : Z) : World (J:=IntegerNumber) :=
  mkWorld now (lit "u1") (lit "x1") 5
    (fun _ => Ok (Some demo_record))
    (fun _ => Ok (mkConnectionRuntimeSnapshot (lit "sqlite") true None))
    (fun _ => Ok (mkDriverHandle None
       (Some (fun _ _ _ _ => Ok (mkQueryResult [] [] None false false false [] [] None))) None)).

Definition demo_ctx : GatewayExecutionContext :=
  mkGatewayExecutionContext (lit "c1") (lit "r1") (lit "m1") (lit "t1") (lit "sql.execute").

Definition demo_history : list (GatewayEvent (J:=IntegerNumber)) :=
  [EvAnalyze (demo_world 10) (demo_request_value (mkSqlToolRequest (lit "p1") None None (lit "select 1") 50)) (Some demo_ctx);
   EvExecute (demo_world 20) (VString (lit "plan_u1")) (Some demo_ctx);
   EvExecute (demo_world 30) (VString (lit "plan_u1")) (Some demo_ctx);
   EvAnalyze (demo_world 40) (demo_request_value (mkSqlToolRequest (lit "p1") None None (lit "delete from t") 50)) (Some demo_ctx)].

Definition demo_execution : Execution := mkExecution (lit "plan_u1") (lit "p1")
  (mkSqlExecutionContext None None) (lit "select 1") 1 50 None.

Example demo_history_runs :
  g_executed (@gateway_run _ demo_serde demo_history gateway_start) = [demo_execution].
Proof. vm_compute. reflexivity. Qed.

Lemma executed_sql_was_analyzed_witness : @provenance _ demo_serde demo_history demo_execution.
Proof.
  apply (@executed_sql_was_analyzed _ demo_serde demo_laws demo_history demo_execution).
  rewrite demo_history_runs. apply list_elem_of_singleton. reflexivity.
Defined.

Lemma read_only_profile_runs_only_reads_witness :
  exists pre post we input c profile snapshot,
    demo_history = pre ++ EvExecute we input (Some c) :: post /\
    require_sql_executor we (lit "p1") NoEffect = Ok (profile, snapshot) /\
    (@sql_profile_read_only _ demo_serde profile NoEffect = Ok true ->
     exists f ls, frame_single_statement (lit "select 1") Sqlite = Ok f /\ lit "select 1" = lxs_text ls /\
       lexemes_ok Sqlite [] ls /\ one_statement ls /\ framing_of Sqlite ls f /\
       read_evidence Sqlite f (lit "select 1")).
Proof.
  apply (@read_only_profile_runs_only_reads _ demo_serde demo_laws demo_history demo_execution).
  rewrite demo_history_runs. apply list_elem_of_singleton. reflexivity.
Defined.

Lemma plan_runs_at_most_once_witness :
  runs_of (lit "plan_u1") (g_executed (@gateway_run _ demo_serde (take 3 demo_history) gateway_start)) <= 1.
Proof.
  apply (@plan_runs_at_most_once _ demo_serde (take 3 demo_history)).
  apply NoDup_singleton.
Defined.

Lemma execute_reports_truthfully_witness :
  let '(res, g') := @sql_execute _ demo_serde (demo_world 20) (VString (lit "plan_u1")) None gateway_start in
  reports NotStarted res /\ g_executed g' = [].
Proof.
  pose proof (@execute_reports_truthfully _ demo_serde (demo_world 20) (VString (lit "plan_u1")) None gateway_start) as H.
  simpl in H. simpl. split; [reflexivity|]. apply H. reflexivity.
Defined.

Definition demo_request : SqlToolRequest := mkSqlToolRequest (lit "p1") None None (lit "select 1") 50.

Lemma approval_shows_the_stored_sql_witness :
  match @sql_analyze _ demo_serde (demo_world 10) (demo_request_value demo_request) (Some demo_ctx) gateway_start with
  | (Ok v, g') =>
      exists plan_id entry p, json_at ["planId"] v = Some (VString plan_id) /\
        plans (g_registry g') !! plan_id = Some entry /\
        @payload_from_value _ demo_serde (exact_payload (spec entry)) = Some p /\ request p = demo_request /\
        json_at ["permission"; "presentation"; "sql"; "text"]%string v = Some (VString (lit "select 1"))
  | (Err _, _) => False
  end.
Proof.
  destruct (@sql_analyze _ demo_serde (demo_world 10) (demo_request_value demo_request) (Some demo_ctx) gateway_start)
    as [[v|e] g'] eqn:E.
  - destruct (@approval_shows_the_stored_sql _ demo_serde demo_laws _ _ _ _ _ _ E)
      as (pid & entry & p & profile & a & H1 & H2 & H3 & H4 & H5 & _ & _ & _ & H6 & _).
    injection H5 as H5. exists pid, entry, p. rewrite <-H5 in H6. split_and!; done.
  - assert (is_ok (@sql_analyze _ demo_serde (demo_world 10) (demo_request_value demo_request) (Some demo_ctx)
      gateway_start).1 = true) as H by (vm_compute; reflexivity). rewrite E in H. discriminate.
Defined.
