(* ===== verification/KeyValueGateway.v ===== *)
(** * Key-value operations of the AI gateway
    ([src-tauri/src/ai_runtime/backend_bridge/operations.rs], the [key_value.*] operations,
    with their requests in [contracts.rs] and the calls of [engine/manager.rs] they make)

    A change an agent wants to make to a Redis key goes through two calls, like its SQL.
    The first validates the request, reads the fingerprint of the key and stores the exact
    change as a prepared plan; the second consumes the plan, checks that the connection is
    still the one that was approved and hands the change to the driver.  The plans are
    those of [SqlGateway]; the servers, one for each profile, are those of [RedisDriver],
    and other clients write to them all the time. *)

From stdpp Require Import base functions gmap list strings fin_maps.
From Stdlib Require Import ZArith Lia.
From S2P Require Import Prelude Errors Digits Types Connections PreparedPlans RedisDriver RedisSafety RedisKeys SqlGateway.

(** ** Requests ([contracts.rs]) *)

Definition KEY_VALUE_MAX_PATTERN_CHARS : nat := 1024.
Definition KEY_VALUE_MAX_KEY_CHARS : nat := 4096.
Definition KEY_VALUE_MAX_VALUE_CHARS : Z := 256 * 1024.
Definition KEY_VALUE_MAX_COLLECTION_ITEMS : nat := 1000.
Definition KEY_VALUE_MAX_COLLECTION_TEXT_CHARS : nat := 4096.
Definition KEY_VALUE_MAX_STREAM_FIELDS : nat := 100.
Definition KEY_VALUE_MAX_STREAM_ID_CHARS : nat := 128.
Definition KEY_VALUE_MAX_TTL_SECONDS : Z := 31536000.

Record KeyValueScanRequest := mkKeyValueScanRequest {
  vs_profile_id : str;
  vs_db_index : Z;
  vs_pattern : str;
  vs_cursor : Z;
  vs_count : Z;
}.
Record KeyValueGetRequest := mkKeyValueGetRequest { vg_profile_id : str; vg_db_index : Z; vg_key : str }.

Record KeyValueCreateToolRequest `{J : JsonNumber} := mkKeyValueCreateToolRequest {
  vc_profile_id : str;
  vc_db_index : Z;
  vc_key : str;
  vc_value : RedisEditableValue;
  vc_ttl_seconds : option Z;
}.
Record KeyValueSetToolRequest `{J : JsonNumber} := mkKeyValueSetToolRequest {
  vset_profile_id : str;
  vset_db_index : Z;
  vset_key : str;
  vset_value : RedisEditableValue;
  vset_ttl_policy : RedisTtlPolicy;
  vset_ttl_seconds : option Z;
}.
Record KeyValueRenameToolRequest := mkKeyValueRenameToolRequest {
  vr_profile_id : str;
  vr_db_index : Z;
  vr_key : str;
  vr_new_key : str;
}.
Record KeyValueSetTtlToolRequest := mkKeyValueSetTtlToolRequest {
  vt_profile_id : str;
  vt_db_index : Z;
  vt_key : str;
  vt_mode : RedisSetKeyTtlMode;
  vt_ttl_seconds : option Z;
}.
Record KeyValueDeleteToolRequest := mkKeyValueDeleteToolRequest { vd_profile_id : str; vd_db_index : Z; vd_key : str }.

(** *** Checks: the message of the first one that fails *)

Definition reject (b : bool) (m : string) : Result str unit := if b then Err (lit m) else Ok tt.

Definition validate_scan_request (r : KeyValueScanRequest) : Result str unit :=
  _ ← reject (bool_decide (trim (vs_profile_id r) = [])) "key_value.scan profileId must not be empty";
  reject (bool_decide (vs_pattern r = []) || (KEY_VALUE_MAX_PATTERN_CHARS <? length (vs_pattern r)))
    "key_value.scan pattern length is invalid".

Definition scan_request (r : KeyValueScanRequest) : RedisScanRequest :=
  mkRedisScanRequest (vs_db_index r) (vs_pattern r) (vs_cursor r) (vs_count r).

Definition validate_get_request (r : KeyValueGetRequest) : Result str unit :=
  _ ← reject (bool_decide (trim (vg_profile_id r) = [])) "key_value.get profileId must not be empty";
  reject (bool_decide (vg_key r = []) || (KEY_VALUE_MAX_KEY_CHARS <? length (vg_key r))) "key_value.get key length is invalid".

Definition validate_key (key : str) : Result str unit :=
  reject (bool_decide (key = []) || (KEY_VALUE_MAX_KEY_CHARS <? length key)) "key_value mutation key length is invalid".

Definition validate_key_value_target (profile_id key : str) : Result str unit :=
  _ ← reject (bool_decide (trim profile_id = [])) "key_value mutation profileId must not be empty";
  validate_key key.

Definition validate_ttl_seconds (ttl_seconds : Z) : Result str unit :=
  reject (negb ((1 <=? ttl_seconds)%Z && (ttl_seconds <=? KEY_VALUE_MAX_TTL_SECONDS)%Z)) "key_value mutation ttlSeconds is out of range".

Definition validate_optional_ttl_seconds (ttl_seconds : option Z) : Result str unit :=
  match ttl_seconds with None => Ok tt | Some s => validate_ttl_seconds s end.

Definition validate_value_text (value : str) : Result str unit :=
  reject (KEY_VALUE_MAX_VALUE_CHARS <? Z.of_nat (length value))%Z "key_value mutation value is too large".

Definition validate_collection_len (len : nat) : Result str unit :=
  reject ((len =? 0) || (KEY_VALUE_MAX_COLLECTION_ITEMS <? len)) "key_value mutation collection size is invalid".

Definition validate_collection_text (value : str) : Result str unit :=
  reject (KEY_VALUE_MAX_COLLECTION_TEXT_CHARS <? length value) "key_value mutation collection text is too large".

(** [iter().try_for_each(...)]. *)
Definition each {A} (f : A -> Result str unit) (l : list A) : Result str unit := _ ← try_map f l; Ok tt.

Definition validate_field (field : RedisHashEntry) : Result str unit :=
  _ ← validate_collection_text (he_field field); validate_collection_text (he_value field).

Section requests.
Context {J : JsonNumber} {E : RedisEngine}.

Definition validate_member (entry : RedisSortedSetEntry) : Result str unit :=
  _ ← validate_collection_text (ze_member entry);
  reject (negb (f64_is_finite (ze_score entry))) "key_value mutation sorted-set score must be finite".

Definition validate_stream (entry : RedisStreamEntry) : Result str unit :=
  _ ← reject (bool_decide (xe_id entry = []) || (KEY_VALUE_MAX_STREAM_ID_CHARS <? length (xe_id entry)))
        "key_value mutation stream id length is invalid";
  _ ← reject (no_items (xe_fields entry) || (KEY_VALUE_MAX_STREAM_FIELDS <? length (xe_fields entry)))
        "key_value mutation stream field count is invalid";
  each validate_field (xe_fields entry).

Definition validate_key_value_editable_value (value : RedisEditableValue) : Result str unit :=
  match value with
  | EditString text => validate_value_text text
  | EditJson text =>
    _ ← validate_value_text text;
    match json_error text with Some _ => Err (lit "key_value mutation JSON value is invalid") | None => Ok tt end
  | EditHash entries => _ ← validate_collection_len (length entries); each validate_field entries
  | EditList items | EditSet items => _ ← validate_collection_len (length items); each validate_collection_text items
  | EditSortedSet entries => _ ← validate_collection_len (length entries); each validate_member entries
  | EditStream entries => _ ← validate_collection_len (length entries); each validate_stream entries
  end.

Definition validate_create (r : KeyValueCreateToolRequest) : Result str unit :=
  _ ← validate_key_value_target (vc_profile_id r) (vc_key r);
  _ ← validate_key_value_editable_value (vc_value r);
  validate_optional_ttl_seconds (vc_ttl_seconds r).

Definition validate_set (r : KeyValueSetToolRequest) : Result str unit :=
  _ ← validate_key_value_target (vset_profile_id r) (vset_key r);
  _ ← validate_key_value_editable_value (vset_value r);
  match vset_ttl_policy r, vset_ttl_seconds r with
  | TtlExpire, Some seconds => validate_ttl_seconds seconds
  | TtlExpire, None => Err (lit "key_value.set ttlPolicy=expire requires ttlSeconds")
  | _, Some _ => Err (lit "key_value.set ttlSeconds is only valid for ttlPolicy=expire")
  | _, None => Ok tt
  end.

Definition validate_rename (r : KeyValueRenameToolRequest) : Result str unit :=
  _ ← validate_key_value_target (vr_profile_id r) (vr_key r);
  _ ← validate_key (vr_new_key r);
  reject (str_eqb (vr_key r) (vr_new_key r)) "key_value.rename newKey must differ from key".

Definition validate_set_ttl (r : KeyValueSetTtlToolRequest) : Result str unit :=
  _ ← validate_key_value_target (vt_profile_id r) (vt_key r);
  match vt_mode r, vt_ttl_seconds r with
  | ModeExpire, Some seconds => validate_ttl_seconds seconds
  | ModeExpire, None => Err (lit "key_value.set_ttl mode=expire requires ttlSeconds")
  | ModePersist, Some _ => Err (lit "key_value.set_ttl ttlSeconds is only valid for mode=expire")
  | ModePersist, None => Ok tt
  end.

Definition validate_delete (r : KeyValueDeleteToolRequest) : Result str unit := validate_key_value_target (vd_profile_id r) (vd_key r).

(** *** The changes they stand for *)

Definition create_mutation_request (r : KeyValueCreateToolRequest) : RedisCreateKeyValueRequest :=
  mkRedisCreateKeyValueRequest (vc_db_index r) (vc_key r) (vc_value r)
    (match vc_ttl_seconds r with Some _ => Some TtlExpire | None => None end) (vc_ttl_seconds r).

Definition set_mutation_request (r : KeyValueSetToolRequest) (expected_fingerprint : str) : RedisSetKeyValueRequest :=
  mkRedisSetKeyValueRequest (vset_db_index r) (vset_key r) (vset_value r) expected_fingerprint None
    (Some (vset_ttl_policy r)) (vset_ttl_seconds r).

Definition rename_mutation_request (r : KeyValueRenameToolRequest) (expected_fingerprint : str) : RedisRenameKeyRequest :=
  mkRedisRenameKeyRequest (vr_db_index r) (vr_key r) (vr_new_key r) expected_fingerprint.

Definition set_ttl_mutation_request (r : KeyValueSetTtlToolRequest) (expected_fingerprint : str) : RedisSetKeyTtlRequest :=
  mkRedisSetKeyTtlRequest (vt_db_index r) (vt_key r) expected_fingerprint (vt_mode r) (vt_ttl_seconds r).

Definition delete_mutation_request (r : KeyValueDeleteToolRequest) (expected_fingerprint : str) : RedisDeleteKeyRequest :=
  mkRedisDeleteKeyRequest (vd_db_index r) (vd_key r) expected_fingerprint.

(** ** Kinds and inputs *)

Inductive KeyValueMutationKind := KindCreate | KindSet | KindRename | KindSetTtl | KindDelete.

#[export] Instance KeyValueMutationKind_eq_dec : EqDecision KeyValueMutationKind.
Proof. solve_decision. Defined.

Definition prepare_operation (k : KeyValueMutationKind) : str :=
  match k with
  | KindCreate => lit "key_value.prepare_create"
  | KindSet => lit "key_value.prepare_set"
  | KindRename => lit "key_value.prepare_rename"
  | KindSetTtl => lit "key_value.prepare_set_ttl"
  | KindDelete => lit "key_value.prepare_delete"
  end.

Definition execute_operation_of (k : KeyValueMutationKind) : str :=
  match k with
  | KindCreate => lit "key_value.create"
  | KindSet => lit "key_value.set"
  | KindRename => lit "key_value.rename"
  | KindSetTtl => lit "key_value.set_ttl"
  | KindDelete => lit "key_value.delete"
  end.

Inductive KeyValueToolInput :=
| InCreate (r : KeyValueCreateToolRequest)
| InSet (r : KeyValueSetToolRequest)
| InRename (r : KeyValueRenameToolRequest)
| InSetTtl (r : KeyValueSetTtlToolRequest)
| InDelete (r : KeyValueDeleteToolRequest).

Definition input_profile_id (i : KeyValueToolInput) : str :=
  match i with
  | InCreate r => vc_profile_id r | InSet r => vset_profile_id r | InRename r => vr_profile_id r
  | InSetTtl r => vt_profile_id r | InDelete r => vd_profile_id r
  end.
Definition input_db_index (i : KeyValueToolInput) : Z :=
  match i with
  | InCreate r => vc_db_index r | InSet r => vset_db_index r | InRename r => vr_db_index r
  | InSetTtl r => vt_db_index r | InDelete r => vd_db_index r
  end.
Definition input_key (i : KeyValueToolInput) : str :=
  match i with
  | InCreate r => vc_key r | InSet r => vset_key r | InRename r => vr_key r
  | InSetTtl r => vt_key r | InDelete r => vd_key r
  end.

Definition mutation_kind (m : PreparedKeyValueMutation) : KeyValueMutationKind :=
  match m with
  | MutCreate _ => KindCreate | MutSet _ => KindSet | MutRename _ => KindRename | MutSetTtl _ => KindSetTtl | MutDelete _ => KindDelete
  end.

Record PreparedKeyValuePayload := mkPreparedKeyValuePayload {
  pk_expected_driver : str;
  pk_expected_profile_updated_at : Z;
  pk_mutation : PreparedKeyValueMutation;
}.
End requests.

(** [serde_json] on the types the operations exchange, and the law they rely on. *)
Class KvSerde `{J : JsonNumber, E : !RedisEngine} := {
  parse_scan_request : Value -> option KeyValueScanRequest;
  parse_get_request : Value -> option KeyValueGetRequest;
  parse_create_request : Value -> option KeyValueCreateToolRequest;
  parse_set_request : Value -> option KeyValueSetToolRequest;
  parse_rename_request : Value -> option KeyValueRenameToolRequest;
  parse_set_ttl_request : Value -> option KeyValueSetTtlToolRequest;
  parse_delete_request : Value -> option KeyValueDeleteToolRequest;
  parse_key_value_plan_request : Value -> option str;
  key_value_payload_to_value : PreparedKeyValuePayload -> option Value;
  key_value_payload_from_value : Value -> option PreparedKeyValuePayload;
}.
Class KvSerdeLaws `{K : KvSerde} : Prop := {
  key_value_payload_roundtrip p v : key_value_payload_to_value p = Some v -> key_value_payload_from_value v = Some p;
}.

Section operations.
Context {J : JsonNumber} {E : RedisEngine} {S : SqlSerde} {K : KvSerde}.

(** The other clients of the server of each profile, and the time allowed for connecting. *)
Context (turns : str -> nat -> Turn) (timeouts : str -> option Z).

(** What a call finds outside: what [SqlGateway] finds, the capability of a runtime, the
    shared driver with whether it is a key-value browser, and the UUID of a temporary key. *)
Record KvWorld := mkKvWorld {
  kw_world : World;
  kw_key_value_browser : str -> bool;
  kw_shared_driver : str -> IpcResult bool;
  kw_temporary_uuid : str;
}.

(** A change handed to a driver. *)
Record KvChange := mkKvChange { kc_plan : str; kc_profile : str; kc_mutation : PreparedKeyValueMutation }.

Record KvGateway := mkKvGateway {
  kg_sql : Gateway;
  kg_servers : str -> Server;
  kg_changes : list KvChange;
}.

Abbreviation KOp A := (ST KvGateway GatewayError A).

(** A call of the driver of a profile. *)
Definition on_server {A} (profile : str) (m : RI A) : ST KvGateway IpcError A := fun g =>
  let (r, s) := m (kg_servers g profile) in (r, mkKvGateway (kg_sql g) (<[profile := s]> (kg_servers g)) (kg_changes g)).

Definition map_kv_err {A} (f : IpcError -> GatewayError) (m : ST KvGateway IpcError A) : KOp A :=
  fun g => let (r, g') := m g in (map_err f r, g').

(** A call on the plan registry. *)
Definition on_plans {A} (f : PreparedPlanRegistry -> Result PreparedPlanError A * PreparedPlanRegistry) : KOp A := fun g =>
  let (r, reg) := f (g_registry (kg_sql g)) in
  (map_err map_plan_error r, mkKvGateway (mkGateway reg (g_executed (kg_sql g))) (kg_servers g) (kg_changes g)).

(** [ConnectionRuntimeManager::get_key_precondition] and the like. *)
Definition with_browser {A} (w : KvWorld) (profile : str) (missing : string) (m : RI A) : ST KvGateway IpcError A :=
  browser ← st_lift (kw_shared_driver w profile);
  if (browser : bool) then on_server profile m else st_lift (Err (resource_not_found (lit missing))).

(** ** Errors *)

Definition invalid_request (operation m : str) : GatewayError :=
  mkGatewayError (lit "GATEWAY_INVALID_REQUEST") (lit "Invalid request for '" ++ operation ++ lit "': " ++ m ++ lit ".") false NotStarted.

Definition map_read_ipc_error (e : IpcError) : GatewayError := with_outcome (map_ipc_error e) NoEffect.

Definition map_key_value_mutation_ipc_error (e : IpcError) : GatewayError :=
  let mapped := map_sql_execute_ipc_error e in
  mkGatewayError (g_code mapped) (g_message mapped) false (g_outcome mapped).

(** ** Reading *)

Definition require_key_value_browser (w : KvWorld) (id : str) : Result GatewayError ConnectionRuntimeSnapshot :=
  _ ← map_err map_precondition_ipc_error (require_connection (kw_world w) id);
  snapshot ← map_err (fun e =>
      if bool_decide (code e = ResourceNotFound) then
        mkGatewayError (lit "CONNECTION_NOT_OPEN") (lit "The connection is not open.") false NotStarted
      else map_precondition_ipc_error e) (w_runtime_snapshot (kw_world w) id);
  if negb (kw_key_value_browser w id) then
    Err (mkGatewayError (lit "CAPABILITY_UNAVAILABLE") (lit "This connection does not support Key/Value browsing.") false NotStarted)
  else Ok snapshot.

Record KeyValueScanResponse := mkKeyValueScanResponse {
  vo_db_index : Z;
  vo_pattern : str;
  vo_next_cursor : str;
  vo_done : bool;
  vo_keys : list str;
}.
Definition scan_response (r : KeyValueScanRequest) (result : RedisScanResult) : KeyValueScanResponse :=
  mkKeyValueScanResponse (vs_db_index r) (vs_pattern r) (to_dec (sc_cursor result)) (sc_cursor result =? 0)%Z (map ki_key (sc_keys result)).

Definition key_value_scan (w : KvWorld) (input : Value) : KOp KeyValueScanResponse :=
  r ← st_lift (ok_or (invalid_request_error (lit "key_value.scan")) (parse_scan_request input));
  _ ← st_lift (map_err (invalid_request (lit "key_value.scan")) (validate_scan_request r));
  _ ← st_lift (require_key_value_browser w (vs_profile_id r));
  result ← map_kv_err map_read_ipc_error (with_browser w (vs_profile_id r) "This connection does not support key-value browsing"
    (scan_key_values (turns (vs_profile_id r)) (timeouts (vs_profile_id r)) (scan_request r)));
  mret (scan_response r result).

Record KeyValueGetResponse := mkKeyValueGetResponse {
  vg_out_key : str;
  vg_out_value_type : str;
  vg_out_ttl : Z;
  vg_out_size : option Z;
  vg_out_value : RedisValue;
}.
Definition get_response (v : RedisKeyValue) : KeyValueGetResponse :=
  mkKeyValueGetResponse (kv_key v) (kv_value_type v) (kv_ttl v) (kv_size v) (kv_value v).

Definition key_value_get (w : KvWorld) (input : Value) : KOp KeyValueGetResponse :=
  r ← st_lift (ok_or (invalid_request_error (lit "key_value.get")) (parse_get_request input));
  _ ← st_lift (map_err (invalid_request (lit "key_value.get")) (validate_get_request r));
  _ ← st_lift (require_key_value_browser w (vg_profile_id r));
  v ← map_kv_err map_read_ipc_error (with_browser w (vg_profile_id r) "This connection does not support key-value browsing"
    (get_key_value (turns (vg_profile_id r)) (timeouts (vg_profile_id r)) (mkRedisKeyRef (vg_db_index r) (vg_key r))));
  mret (get_response v).

(** ** Preparing a change *)

Definition require_redis_key_value_browser (w : KvWorld) (id : str) (o : GatewayOutcome)
  : Result GatewayError (StoredConnectionRecord * ConnectionRuntimeSnapshot) :=
  profile ← map_err (fun e => with_outcome (map_precondition_ipc_error e) o) (require_connection (kw_world w) id);
  if negb (str_eqb (driver_as_str (r_driver profile)) (lit "redis")) then
    Err (mkGatewayError (lit "CAPABILITY_UNAVAILABLE") (lit "Key/Value mutations are enabled only for Redis profiles.") false o)
  else
    snapshot ← map_err (fun e =>
        if bool_decide (code e = ResourceNotFound) then
          mkGatewayError (lit "CONNECTION_NOT_OPEN") (lit "The Redis connection is not open.") false o
        else with_outcome (map_precondition_ipc_error e) o) (w_runtime_snapshot (kw_world w) id);
    if negb (str_eqb (driver_name snapshot) (lit "redis")) || negb (kw_key_value_browser w id) then
      Err (mkGatewayError (lit "CAPABILITY_UNAVAILABLE") (lit "This connection does not support Redis Key/Value mutations.") false o)
    else Ok (profile, snapshot).

(** [KeyValueToolInput::parse]. *)
Definition parse_input (kind : KeyValueMutationKind) (input : Value) (operation : str) : Result GatewayError KeyValueToolInput :=
  let parsed {R} (parse : Value -> option R) (validate : R -> Result str unit) (wrap : R -> KeyValueToolInput) :=
    r ← ok_or (invalid_request_error operation) (parse input);
    _ ← map_err (invalid_request operation) (validate r);
    Ok (wrap r) in
  match kind with
  | KindCreate => parsed parse_create_request validate_create InCreate
  | KindSet => parsed parse_set_request validate_set InSet
  | KindRename => parsed parse_rename_request validate_rename InRename
  | KindSetTtl => parsed parse_set_ttl_request validate_set_ttl InSetTtl
  | KindDelete => parsed parse_delete_request validate_delete InDelete
  end.

Definition required_key_fingerprint (precondition : option RedisKeyPrecondition) : Result GatewayError str :=
  ok_or (read_error "Prepared Key/Value precondition is missing.") (kp_fingerprint <$> precondition).

Definition mutation_of (i : KeyValueToolInput) (precondition : option RedisKeyPrecondition) : Result GatewayError PreparedKeyValueMutation :=
  match i with
  | InCreate r => Ok (MutCreate (create_mutation_request r))
  | InSet r => fp ← required_key_fingerprint precondition; Ok (MutSet (set_mutation_request r fp))
  | InRename r => fp ← required_key_fingerprint precondition; Ok (MutRename (rename_mutation_request r fp))
  | InSetTtl r => fp ← required_key_fingerprint precondition; Ok (MutSetTtl (set_ttl_mutation_request r fp))
  | InDelete r => fp ← required_key_fingerprint precondition; Ok (MutDelete (delete_mutation_request r fp))
  end.

(** *** What the user is asked *)

Definition redis_editable_value_type (value : RedisEditableValue) : str :=
  match value with
  | EditString _ => lit "string" | EditJson _ => lit "json" | EditHash _ => lit "hash" | EditList _ => lit "list"
  | EditSet _ => lit "set" | EditSortedSet _ => lit "zset" | EditStream _ => lit "stream"
  end.

(** [if let Some(x) = x { presentation.insert(key, x) }]. *)
Definition insert_some {A} (key : string) (f : A -> Value) (x : option A) (fields : list (str * Value)) : list (str * Value) :=
  match x with Some x => map_insert (lit key) (f x) fields | None => fields end.

Definition ttl_policy_name (p : RedisTtlPolicy) : str :=
  match p with TtlKeep => lit "keep" | TtlPersist => lit "persist" | TtlExpire => lit "expire" end.

Definition key_value_permission_presentation (m : PreparedKeyValueMutation) (precondition : option RedisKeyPrecondition) : Value :=
  let '(operation, new_key, value_type, ttl_mode, ttl_seconds) :=
    match m with
    | MutCreate r => (lit "create", None, Some (redis_editable_value_type (ck_value r)),
        Some (match ck_ttl_seconds r with Some _ => lit "expire" | None => lit "persist" end), ck_ttl_seconds r)
    | MutSet r => (lit "set", None, Some (redis_editable_value_type (sk_value r)), ttl_policy_name <$> sk_ttl_policy r, sk_ttl_seconds r)
    | MutRename r => (lit "rename", Some (rk_new_key r), kp_value_type <$> precondition, None, None)
    | MutSetTtl r => (lit "set_ttl", None, kp_value_type <$> precondition,
        Some (match tk_mode r with ModeExpire => lit "expire" | ModePersist => lit "persist" end), tk_ttl_seconds r)
    | MutDelete _ => (lit "delete", None, kp_value_type <$> precondition, None, None)
    end in
  let fields := map_insert (lit "key") (VString (mutation_key m)) [(lit "operation", VString operation)] in
  let fields := insert_some "newKey" VString new_key fields in
  let fields := insert_some "valueType" VString value_type fields in
  let fields := insert_some "ttlMode" VString ttl_mode fields in
  VObject (insert_some "ttlSeconds" (fun s => VNumber (number_of_u64 s)) ttl_seconds fields).

Definition key_value_input_summary (m : PreparedKeyValueMutation) (connection_name : str) : str :=
  let place := lit "在连接“" ++ connection_name ++ lit "”的 Redis DB " ++ to_dec (mutation_db_index m) in
  match m with
  | MutCreate r => place ++ lit " 创建 Key " ++ ck_key r
  | MutSet r => place ++ lit " 整体替换 Key " ++ sk_key r
  | MutRename r => place ++ lit " 重命名 Key " ++ rk_key r ++ lit " → " ++ rk_new_key r
  | MutSetTtl r => place ++ lit " 修改 Key " ++ tk_key r ++ lit " 的 TTL"
  | MutDelete r => place ++ lit " 删除 Key " ++ dk_key r
  end.

Record KeyValueRisk := mkKeyValueRisk {
  kr_level : str;
  kr_reversible : bool;
  kr_side_effects : list str;
  kr_reasons : list str;
  kr_prompt : str;
}.

Definition key_value_permission_risk (m : PreparedKeyValueMutation) : KeyValueRisk :=
  let db := to_dec (mutation_db_index m) in
  let write := [lit "business_write"] in
  match m with
  | MutCreate r => mkKeyValueRisk (lit "high") false write [lit "将在 Redis 中创建新的业务数据。"]
      (lit "确认在 Redis DB " ++ db ++ lit " 中创建 Key " ++ ck_key r)
  | MutSet r => mkKeyValueRisk (lit "high") false write [lit "将整体替换现有 Key 的类型化值。"]
      (lit "确认在 Redis DB " ++ db ++ lit " 中替换 Key " ++ sk_key r)
  | MutRename r => mkKeyValueRisk (lit "high") false write [lit "将改变业务 Key 的名称和访问标识。"]
      (lit "确认在 Redis DB " ++ db ++ lit " 中将 Key " ++ rk_key r ++ lit " 重命名为 " ++ rk_new_key r)
  | MutSetTtl r =>
    match tk_mode r with
    | ModeExpire => mkKeyValueRisk (lit "critical") false [lit "business_write"; lit "destructive"]
        [lit "设置过期时间会安排该 Key 在未来被永久删除。"]
        (lit "确认将 Redis DB " ++ db ++ lit " 中的 Key " ++ tk_key r ++ lit " 设置为 " ++ to_dec (from_option id 0%Z (tk_ttl_seconds r)) ++ lit " 秒后过期")
    | ModePersist => mkKeyValueRisk (lit "high") true write [lit "移除 TTL 会改变业务数据的生命周期。"]
        (lit "确认移除 Redis DB " ++ db ++ lit " 中 Key " ++ tk_key r ++ lit " 的过期时间")
    end
  | MutDelete r => mkKeyValueRisk (lit "critical") false [lit "business_write"; lit "destructive"]
      [lit "该操作会永久删除一个精确 Redis Key。"]
      (lit "确认删除 Redis DB " ++ db ++ lit " 中的 Key " ++ dk_key r)
  end.

Definition key_value_outcome_warnings : list str :=
  [lit "请求发出后的超时、连接中断或未知后端错误可能导致结果未知；系统不会自动重试。";
   lit "审批后的 Key 值指纹或重命名目标发生漂移时，本次操作无效果并返回冲突。"].

Definition prepare_response (handle : PreparedPlanHandle) (m : PreparedKeyValueMutation) (precondition : option RedisKeyPrecondition)
    (profile_id : str) (profile : StoredConnectionRecord) : Value :=
  let strings l := VArray (map VString l) in
  let risk := key_value_permission_risk m in
  VObject
    [(lit "planId", VString (h_plan_id handle));
     (lit "expiresAt", VNumber (number_of_u64 (h_expires_at_ms handle)));
     (lit "risk", VObject
        [(lit "level", VString (kr_level risk)); (lit "reversible", VBool (kr_reversible risk));
         (lit "sideEffects", strings (kr_side_effects risk))]);
     (lit "permission", VObject
        [(lit "inputSummary", VString (key_value_input_summary m (r_name profile)));
         (lit "confirmationPrompt", VString (kr_prompt risk));
         (lit "presentation", VObject
            [(lit "target", VObject
                [(lit "profileId", VString profile_id); (lit "connectionName", VString (r_name profile));
                 (lit "driver", VString (driver_as_str (r_driver profile)));
                 (lit "environment", VString (r_environment profile));
                 (lit "redisDbIndex", VNumber (number_of_u64 (mutation_db_index m)))]);
             (lit "riskReasons", strings (kr_reasons risk));
             (lit "keyValue", key_value_permission_presentation m precondition);
             (lit "timeoutMs", VNumber (number_of_u64 30000));
             (lit "maxResultBytes", VNumber (number_of_u64 (256 * 1024)));
             (lit "outcomeWarnings", strings key_value_outcome_warnings)])])].

(** *** [KeyValuePrepareOperation] *)

Definition kv_fail {A} (c : string) (m : string) : KOp A := st_lift (Err (plan_error (lit c) m)).

Definition read_precondition (w : KvWorld) (kind : KeyValueMutationKind) (i : KeyValueToolInput) : KOp (option RedisKeyPrecondition) :=
  if bool_decide (kind = KindCreate) then mret None
  else
    let id := input_profile_id i in
    pre ← map_kv_err map_precondition_ipc_error (with_browser w id "This connection does not support key-value browsing"
      (get_key_precondition (turns id) (timeouts id) (mkRedisKeyRef (input_db_index i) (input_key i))));
    mret (Some pre).

Definition key_value_prepare (w : KvWorld) (kind : KeyValueMutationKind) (input : Value) (context : option GatewayExecutionContext) : KOp Value :=
  match context with
  | None => kv_fail "PLAN_MISMATCH" "Key/Value preparation requires trusted execution context."
  | Some ctx =>
    if negb (str_eqb (tool_id ctx) (execute_operation_of kind))
    then kv_fail "PLAN_MISMATCH" "Key/Value preparation context does not match the requested tool."
    else
      i ← st_lift (parse_input kind input (prepare_operation kind));
      target ← st_lift (require_redis_key_value_browser w (input_profile_id i) NotStarted);
      let '(profile, snapshot) := target in
      precondition ← read_precondition w kind i;
      m ← st_lift (mutation_of i precondition);
      expires_at ← st_lift (ok_or (read_error "Prepared Key/Value plan expiry overflowed.")
                     (checked_add_u64 (w_now_ms (kw_world w)) DEFAULT_PREPARED_PLAN_TTL_MS));
      v ← st_lift (ok_or (read_error "Prepared Key/Value payload could not be serialized.")
            (key_value_payload_to_value (mkPreparedKeyValuePayload (driver_name snapshot) (r_updated_at profile) m)));
      handle ← on_plans (prepare (w_uuid (kw_world w))
        (mkPreparedPlanSpec ctx (input_profile_id i) (execute_operation_of kind) v expires_at));
      mret (prepare_response handle m precondition (input_profile_id i) profile)
  end.

(** ** Carrying a change out ([KeyValueExecuteOperation]) *)

(** [KeyValueMutationToolResponse] and [KeyValueDeleteToolResponse]; [mutation_state] is
    "completed" in both. *)
Inductive KeyValueResponse :=
| MutationResponse (db_index : Z) (key value_type : str) (ttl : Z) (size : option Z)
| DeleteResponse (db_index : Z) (key : str) (deleted_count : Z).

Definition respond (m : PreparedKeyValueMutation) (outcome : MutationOutcome) : Result GatewayError KeyValueResponse :=
  match outcome with
  | Mutated r => Ok (MutationResponse (km_db_index r) (km_key r) (km_value_type r) (km_ttl r) (km_size r))
  | Deleted r =>
    if negb (kd_deleted_count r =? 1)%Z || negb (bool_decide (kd_key r = Some (mutation_key m))) then
      Err (mkGatewayError (lit "OPERATION_OUTCOME_UNKNOWN") (lit "Redis delete returned an unexpected outcome.") false OutcomeUnknown)
    else Ok (DeleteResponse (mutation_db_index m) (mutation_key m) 1)
  end.

(** The driver call of a change: from here on it is in the log. *)
Definition run_change (w : KvWorld) (plan_id profile : str) (m : PreparedKeyValueMutation) : ST KvGateway IpcError MutationOutcome :=
  browser ← st_lift (kw_shared_driver w profile);
  if (browser : bool) then
    _ ← st_modify (fun g => mkKvGateway (kg_sql g) (kg_servers g) (kg_changes g ++ [mkKvChange plan_id profile m]));
    on_server profile (mutate (turns profile) (timeouts profile) (kw_temporary_uuid w) m)
  else st_lift (Err (resource_not_found (lit "This connection does not support key-value mutation"))).

Definition key_value_target_unchanged (w : KvWorld) (profile_id : str) (p : PreparedKeyValuePayload) : Result GatewayError unit :=
  target ← require_redis_key_value_browser w profile_id NoEffect;
  let '(profile, snapshot) := target in
  if negb (str_eqb (driver_as_str (r_driver profile)) (pk_expected_driver p))
     || negb (str_eqb (driver_name snapshot) (pk_expected_driver p))
     || negb (r_updated_at profile =? pk_expected_profile_updated_at p)%Z
  then Err (mkGatewayError (lit "TARGET_CHANGED") (lit "The approved Redis target changed before execution.") false NoEffect)
  else Ok tt.

Definition key_value_execute (w : KvWorld) (kind : KeyValueMutationKind) (input : Value) (context : option GatewayExecutionContext) : KOp KeyValueResponse :=
  match context with
  | None => kv_fail "PLAN_MISMATCH" "Prepared Key/Value execution requires trusted execution context."
  | Some ctx =>
    plan_id ← st_lift (ok_or (invalid_request_error (execute_operation_of kind)) (parse_key_value_plan_request input));
    plan ← on_plans (consume plan_id ctx (execute_operation_of kind) (w_now_ms (kw_world w)));
    p ← st_lift (ok_or (plan_error (lit "PLAN_MISMATCH") "Prepared Key/Value payload is invalid.")
          (key_value_payload_from_value (c_exact_payload plan)));
    if negb (bool_decide (mutation_kind (pk_mutation p) = kind))
    then kv_fail "PLAN_MISMATCH" "Prepared Key/Value operation does not match the executor."
    else
      _ ← st_lift (key_value_target_unchanged w (c_profile_id plan) p);
      outcome ← map_kv_err map_key_value_mutation_ipc_error (run_change w plan_id (c_profile_id plan) (pk_mutation p));
      st_lift (respond (pk_mutation p) outcome)
  end.

(** ** Histories *)

(** The calls of the AI runtime, those of [SqlGateway] among them. *)
Inductive KvEvent :=
| EvSql (ev : GatewayEvent)
| EvScan (w : KvWorld) (input : Value)
| EvGet (w : KvWorld) (input : Value)
| EvKvPrepare (w : KvWorld) (kind : KeyValueMutationKind) (input : Value) (ctx : option GatewayExecutionContext)
| EvKvExecute (w : KvWorld) (kind : KeyValueMutationKind) (input : Value) (ctx : option GatewayExecutionContext).

Definition kv_step (ev : KvEvent) (g : KvGateway) : KvGateway :=
  match ev with
  | EvSql ev => mkKvGateway (gateway_step ev (kg_sql g)) (kg_servers g) (kg_changes g)
  | EvScan w input => (key_value_scan w input g).2
  | EvGet w input => (key_value_get w input g).2
  | EvKvPrepare w kind input ctx => (key_value_prepare w kind input ctx g).2
  | EvKvExecute w kind input ctx => (key_value_execute w kind input ctx g).2
  end.

Definition kv_run (evs : list KvEvent) (g : KvGateway) : KvGateway := fold_left (fun g ev => kv_step ev g) evs g.
Definition kv_start (servers : str -> Server) : KvGateway := mkKvGateway gateway_start servers [].

(** ** What the operations do to the state *)

(** The servers during a call: the driver wrote at most the keys [mine]. *)
Definition moved (mine : list (Z * str)) (g g' : KvGateway) : Prop :=
  forall p, alone (turns p) mine (kg_servers g p) (kg_servers g' p).

#[local] Instance moved_preorder mine : PreOrder (moved mine).
Proof. split; [by intros g p|]. intros g1 g2 g3 H1 H2 p. by transitivity (kg_servers g2 p). Qed.

Lemma on_server_eq {A} profile (m : RI A) g :
  on_server profile m g = ((m (kg_servers g profile)).1, mkKvGateway (kg_sql g) (<[profile := (m (kg_servers g profile)).2]> (kg_servers g)) (kg_changes g)).
Proof. unfold on_server. by destruct (m _). Qed.

Lemma on_server_moved {A} mine profile (m : RI A) g : alone (turns profile) mine (kg_servers g profile) (m (kg_servers g profile)).2 ->
  moved mine g (on_server profile m g).2.
Proof.
  intros H p. rewrite on_server_eq. cbn. destruct (decide (p = profile)) as [->|]; [by rewrite fn_lookup_insert | by rewrite fn_lookup_insert_ne].
Qed.

(** A call of a driver that leaves plans and changes alone. *)
Record reads (g g' : KvGateway) : Prop := {
  reads_sql : kg_sql g' = kg_sql g;
  reads_changes : kg_changes g' = kg_changes g;
  reads_servers : moved [] g g';
}.

#[local] Instance reads_preorder : PreOrder reads.
Proof.
  split; [by intros g|]. intros g1 g2 g3 [H1 H2 H3] [H4 H5 H6]. split; [congruence.. | by transitivity g2].
Qed.

Lemma with_browser_reads {A} w profile missing (m : RI A) g : keeps (turns profile) [] m -> reads g (with_browser w profile missing m g).2.
Proof.
  intros Hm. unfold with_browser. rewrite st_bind_eq. unfold st_lift. destruct (kw_shared_driver w profile) as [[]|]; [|done..].
  split; [by rewrite on_server_eq.. | by apply on_server_moved].
Qed.

Lemma map_kv_err_state {A} f (m : ST KvGateway IpcError A) g : (map_kv_err f m g).2 = (m g).2.
Proof. unfold map_kv_err. by destruct (m g). Qed.

Lemma st_lift_reads {A X} (r : Result GatewayError A) (k : A -> ST KvGateway GatewayError X) g :
  (forall a, r = Ok a -> reads g (k a g).2) -> reads g ((st_lift r ≫= k) g).2.
Proof. intros H. rewrite st_bind_eq. unfold st_lift. destruct r; [by apply H | done]. Qed.

Lemma keeps_precondition p r : keeps (turns p) [] (get_key_precondition (turns p) (timeouts p) r).
Proof.
  unfold get_key_precondition. apply run_keeps_bind; [apply run_keeps_lift|]. intros _.
  apply run_keeps_bind; [apply keeps_connection|]. intros _. apply looks_keeps.
  apply looks_bind; [apply looks_key_dump|]. intros before. apply looks_bind; [apply looks_some_or|]. intros b.
  apply looks_bind; [apply looks_key_info|]. intros info. apply looks_bind; [apply looks_key_dump|]. intros after.
  apply looks_bind; [apply looks_some_or|]. intros a. case_bool_decide; [apply looks_lift | apply looks_ret].
Qed.

Lemma looks_read_value p db key value_type : looks (turns p) (read_value (turns p) db key value_type).
Proof.
  assert (Hr : forall {A B} context (f : option Payload -> Result RedisError A) (k : A -> B),
    looks (turns p) (x ← read_with (turns p) context (db, key) f; mret (k x) : RI B)).
  { intros A B context f k. apply looks_bind; [apply looks_query, looks_command; by intros now s | intros x; apply looks_ret]. }
  unfold read_value. repeat case_match; try apply Hr; (apply looks_lift || apply looks_ret).
Qed.

Lemma keeps_get p r : keeps (turns p) [] (get_key_value (turns p) (timeouts p) r).
Proof.
  unfold get_key_value. apply run_keeps_bind; [apply keeps_connection|]. intros _. apply looks_keeps.
  apply looks_bind; [apply looks_key_dump|]. intros before. apply looks_bind; [apply looks_some_or|]. intros b.
  apply looks_bind; [apply looks_key_info|]. intros info. apply looks_bind; [apply looks_read_value|]. intros value.
  apply looks_bind; [apply looks_key_dump|]. intros after. apply looks_bind; [apply looks_some_or|]. intros a.
  case_bool_decide; [apply looks_lift | apply looks_ret].
Qed.

Lemma keeps_scan p r : keeps (turns p) [] (scan_key_values (turns p) (timeouts p) r).
Proof.
  unfold scan_key_values. apply run_keeps_bind; [apply keeps_connection|]. intros _. apply looks_keeps.
  apply looks_bind; [apply looks_query, looks_scan | intros x; apply looks_ret].
Qed.

Lemma key_value_scan_reads w input g : reads g (key_value_scan w input g).2.
Proof.
  unfold key_value_scan. do 3 (apply st_lift_reads; intros ? _). rewrite st_bind_eq.
  set (m := with_browser _ _ _ _). assert (Hm : reads g (map_kv_err map_read_ipc_error m g).2).
  { rewrite map_kv_err_state. apply with_browser_reads, keeps_scan. }
  by destruct (map_kv_err _ m g) as [[]].
Qed.

Lemma key_value_get_reads w input g : reads g (key_value_get w input g).2.
Proof.
  unfold key_value_get. do 3 (apply st_lift_reads; intros ? _). rewrite st_bind_eq.
  set (m := with_browser _ _ _ _). assert (Hm : reads g (map_kv_err map_read_ipc_error m g).2).
  { rewrite map_kv_err_state. apply with_browser_reads, keeps_get. }
  by destruct (map_kv_err _ m g) as [[]].
Qed.

(** *** Preparing *)

(** A key that held a value with a fingerprint at a moment of a run. *)
Definition held_during (p : str) (db : Z) (key fp : str) (s s' : Server) : Prop :=
  exists s1 e, alone (turns p) [] s s1 /\ alone (turns p) [] s1 s' /\ sv_keys s1 !! (db, key) = Some e /\ fingerprint_of (en_value e) = fp.

Lemma dump_post p db key s : post (key_dump (turns p) db key) s
  (fun o s' => arrived (turns p) s s' /\ o = dump_of ∘ en_value <$> sv_keys s' !! (db, key)) (fun _ s' => arrived (turns p) s s').
Proof.
  apply post_query. unfold DUMP, reading. set (f := fun now s => _). unfold post.
  destruct (command_cases (turns p) f s) as [[e ->]|[[e ->]| ->]]; cbn [f snd]; [apply arrived_next; constructor..|].
  split; [apply arrived_next; constructor | done].
Qed.

Lemma precondition_post p r s : post (get_key_precondition (turns p) (timeouts p) r) s
  (fun pre s' => held_during p (kr_db_index r) (kr_key r) (kp_fingerprint pre) s s') (fun _ _ => True).
Proof.
  unfold get_key_precondition. apply post_bind, post_lift. destruct (ensure_non_empty_key _ _) as [[]|]; [|done].
  apply post_bind. eapply post_mono; [apply connected_post | |done]. intros [] s1 H1.
  apply post_bind. eapply post_mono; [apply dump_post | |done]. intros o s2 [H2 _].
  apply post_bind, post_lift. destruct o as [before|]; [|done].
  apply post_bind. eapply post_mono; [apply post_looks, looks_key_info | |done]. intros info s3 H3.
  apply post_bind. eapply post_mono; [apply dump_post | |done]. intros o s4 [H4 Ho].
  apply post_bind, post_lift. destruct o as [after|]; [|done]. case_bool_decide; [done|]. apply post_ret.
  destruct (sv_keys s4 !! (kr_db_index r, kr_key r)) as [e|] eqn:He; [|done]. injection Ho as ->.
  exists s4, e. split_and!; [|done|done|done].
  etransitivity; [exact H1|]. apply arrived_alone. transitivity s2; [done|]. by transitivity s3.
Qed.

(** The change a checked request stands for, once the fingerprint is known. *)
Definition change_of (i : KeyValueToolInput) (fp : str) : PreparedKeyValueMutation :=
  match i with
  | InCreate r => MutCreate (create_mutation_request r)
  | InSet r => MutSet (set_mutation_request r fp)
  | InRename r => MutRename (rename_mutation_request r fp)
  | InSetTtl r => MutSetTtl (set_ttl_mutation_request r fp)
  | InDelete r => MutDelete (delete_mutation_request r fp)
  end.

Definition input_kind (i : KeyValueToolInput) : KeyValueMutationKind :=
  match i with InCreate _ => KindCreate | InSet _ => KindSet | InRename _ => KindRename | InSetTtl _ => KindSetTtl | InDelete _ => KindDelete end.

Lemma parse_input_ok kind input operation i : parse_input kind input operation = Ok i -> input_kind i = kind.
Proof.
  unfold parse_input. intros H. destruct kind; bind_inv; by subst i.
Qed.

Lemma mutation_of_change i pre m : mutation_of i pre = Ok m -> exists fp, m = change_of i fp /\ (input_kind i <> KindCreate -> kp_fingerprint <$> pre = Some fp).
Proof.
  unfold mutation_of, required_key_fingerprint. destruct i; cbn; [intros [= <-]; by exists [] |..];
    (destruct pre as [pre|]; [|done]); intros [= <-]; by exists (kp_fingerprint pre).
Qed.

(** The change that a request asks for, field by field: what was sent, after the checks
    of its kind, with the fingerprint of the value it is meant for.  The profile, the
    database and the key it names come before it. *)
Inductive asked (input : Value) (fp : str) : KeyValueMutationKind -> str -> Z -> str -> PreparedKeyValueMutation -> Prop :=
| asked_create r : parse_create_request input = Some r -> validate_create r = Ok tt ->
    asked input fp KindCreate (vc_profile_id r) (vc_db_index r) (vc_key r)
      (MutCreate (mkRedisCreateKeyValueRequest (vc_db_index r) (vc_key r) (vc_value r)
        (match vc_ttl_seconds r with Some _ => Some TtlExpire | None => None end) (vc_ttl_seconds r)))
| asked_set r : parse_set_request input = Some r -> validate_set r = Ok tt ->
    asked input fp KindSet (vset_profile_id r) (vset_db_index r) (vset_key r)
      (MutSet (mkRedisSetKeyValueRequest (vset_db_index r) (vset_key r) (vset_value r) fp None
        (Some (vset_ttl_policy r)) (vset_ttl_seconds r)))
| asked_rename r : parse_rename_request input = Some r -> validate_rename r = Ok tt ->
    asked input fp KindRename (vr_profile_id r) (vr_db_index r) (vr_key r)
      (MutRename (mkRedisRenameKeyRequest (vr_db_index r) (vr_key r) (vr_new_key r) fp))
| asked_set_ttl r : parse_set_ttl_request input = Some r -> validate_set_ttl r = Ok tt ->
    asked input fp KindSetTtl (vt_profile_id r) (vt_db_index r) (vt_key r)
      (MutSetTtl (mkRedisSetKeyTtlRequest (vt_db_index r) (vt_key r) fp (vt_mode r) (vt_ttl_seconds r)))
| asked_delete r : parse_delete_request input = Some r -> validate_delete r = Ok tt ->
    asked input fp KindDelete (vd_profile_id r) (vd_db_index r) (vd_key r)
      (MutDelete (mkRedisDeleteKeyRequest (vd_db_index r) (vd_key r) fp)).

Lemma parse_input_asked kind input operation i fp : parse_input kind input operation = Ok i ->
  asked input fp kind (input_profile_id i) (input_db_index i) (input_key i) (change_of i fp).
Proof.
  unfold parse_input. intros H. destruct kind; bind_inv; apply map_err_Ok in E1; apply ok_or_Ok in E0; subst i; destruct a0; by constructor.
Qed.

(** A plan for a change, made in a context from a state of the servers. *)
Record prepared_as (w : KvWorld) (kind : KeyValueMutationKind) (input : Value) (ctx : GatewayExecutionContext) (sp : PreparedPlanSpec)
    (i : KeyValueToolInput) (fp : str) (profile : StoredConnectionRecord) (snapshot : ConnectionRuntimeSnapshot) (g g' : KvGateway) : Prop := {
  pa_tool : tool_id ctx = execute_operation_of kind;
  pa_asked : asked input fp kind (input_profile_id i) (input_db_index i) (input_key i) (change_of i fp);
  pa_found : require_redis_key_value_browser w (input_profile_id i) NotStarted = Ok (profile, snapshot);
  pa_held : kind <> KindCreate ->
    held_during (input_profile_id i) (input_db_index i) (input_key i) fp (kg_servers g (input_profile_id i)) (kg_servers g' (input_profile_id i));
  pa_context : p_context sp = ctx;
  pa_profile : p_profile_id sp = input_profile_id i;
  pa_operation : execute_operation sp = execute_operation_of kind;
  pa_payload : key_value_payload_to_value (mkPreparedKeyValuePayload (driver_name snapshot) (r_updated_at profile) (change_of i fp))
    = Some (exact_payload sp);
}.

Definition prepared (w : KvWorld) (kind : KeyValueMutationKind) (input : Value) (ctx : GatewayExecutionContext) (sp : PreparedPlanSpec) (g g' : KvGateway) : Prop :=
  exists i fp profile snapshot, prepared_as w kind input ctx sp i fp profile snapshot g g'.

Lemma read_precondition_effect w kind i g :
  let (r, g') := read_precondition w kind i g in
  reads g g' /\ match r with
                | Ok pre => kind <> KindCreate -> exists p, pre = Some p /\
                    held_during (input_profile_id i) (input_db_index i) (input_key i) (kp_fingerprint p)
                      (kg_servers g (input_profile_id i)) (kg_servers g' (input_profile_id i))
                | Err _ => True
                end.
Proof.
  unfold read_precondition. case_bool_decide as Hk; [by split|]. rewrite st_bind_eq. unfold map_kv_err.
  set (id := input_profile_id i). set (ref := mkRedisKeyRef _ _).
  pose proof (with_browser_reads w id "This connection does not support key-value browsing" _ g (keeps_precondition id ref)) as Hr.
  unfold with_browser in *. rewrite st_bind_eq in *. unfold st_lift in *. destruct (kw_shared_driver w id) as [[]|]; cbn; [|by split..].
  rewrite on_server_eq in *. pose proof (precondition_post id ref (kg_servers g id)) as Hp. unfold post in Hp.
  destruct (get_key_precondition _ _ ref (kg_servers g id)) as [[pre|e] s']; cbn in *; (split; [exact Hr|]); [|done].
  intros _. exists pre. split; [done|]. by rewrite fn_lookup_insert.
Qed.

Definition store_plan (uuid : str) (sp : PreparedPlanSpec) (g : KvGateway) : KvGateway :=
  mkKvGateway (mkGateway (prepare uuid sp (g_registry (kg_sql g))).2 (g_executed (kg_sql g))) (kg_servers g) (kg_changes g).

Lemma key_value_prepare_effect w kind input ctx g : let g' := (key_value_prepare w kind input ctx g).2 in
  exists g1, reads g g1 /\ (g' = g1 \/ exists c sp, ctx = Some c /\ prepared w kind input c sp g g' /\ g' = store_plan (w_uuid (kw_world w)) sp g1).
Proof.
  cbv zeta. destruct (key_value_prepare w kind input ctx g) as [res g'] eqn:H. cbn [snd]. unfold key_value_prepare in H.
  destruct ctx as [c|]; [|injection H as _ <-; exists g; by split; [|left]].
  destruct (negb _) eqn:Ht; [injection H as _ <-; exists g; by split; [|left]|].
  apply negb_false_iff, bool_decide_eq_true in Ht.
  assert (Hstop : forall A B (r : Result GatewayError A) (k : A -> ST KvGateway GatewayError B) h res',
    (st_lift r ≫= k) h = (res', g') -> g' = h \/ exists a, r = Ok a /\ k a h = (res', g')).
  { intros A B [a|e] k h res' Hk; [right; by exists a | left; by injection Hk]. }
  apply Hstop in H as [->|(i & Ei & H)]; [exists g; by split; [|left]|]. pose proof (parse_input_ok _ _ _ _ Ei) as Ek.
  apply Hstop in H as [->|([profile snapshot] & Et & H)]; [exists g; by split; [|left]|]. rewrite st_bind_eq in H.
  pose proof (read_precondition_effect w kind i g) as Hp. destruct (read_precondition w kind i g) as [[pre|e] g1]; destruct Hp as [Hr Hp];
    [|injection H as _ <-; exists g1; by split; [|left]]. exists g1. split; [done|].
  apply Hstop in H as [->|(m & Em & H)]; [by left|]. apply mutation_of_change in Em as (fp & -> & Hfp).
  apply Hstop in H as [->|(expires & _ & H)]; [by left|]. apply Hstop in H as [->|(v & Ev2 & H)]; [by left|].
  apply ok_or_Ok in Ev2. right. exists c, (mkPreparedPlanSpec c (input_profile_id i) (execute_operation_of kind) v expires).
  rewrite st_bind_eq in H. unfold on_plans in H.
  assert (Hg : g' = store_plan (w_uuid (kw_world w)) (mkPreparedPlanSpec c (input_profile_id i) (execute_operation_of kind) v expires) g1).
  { unfold store_plan. destruct (prepare _ _ _) as [[h|e] reg]; cbn in H; by injection H. }
  split_and!; [done| |done]. exists i, fp, profile, snapshot. split; try done; [by eapply parse_input_asked|]. subst g'. cbn. rewrite <- Ek. intros Hk.
  destruct (Hp ltac:(congruence)) as (p & -> & Hh). specialize (Hfp Hk). by injection Hfp as <-.
Qed.

(** *** Carrying out *)

Lemma run_change_eq w plan_id profile m g : run_change w plan_id profile m g =
  match kw_shared_driver w profile with
  | Ok true =>
    let r := mutate (turns profile) (timeouts profile) (kw_temporary_uuid w) m (kg_servers g profile) in
    (r.1, mkKvGateway (kg_sql g) (<[profile := r.2]> (kg_servers g)) (kg_changes g ++ [mkKvChange plan_id profile m]))
  | Ok false => (Err (resource_not_found (lit "This connection does not support key-value mutation")), g)
  | Err e => (Err e, g)
  end.
Proof.
  unfold run_change. rewrite st_bind_eq. unfold st_lift. destruct (kw_shared_driver w profile) as [[]|]; [|done..].
  rewrite st_bind_eq. cbn. by rewrite on_server_eq.
Qed.

(** The plans after a call spent one, or tried to. *)
Definition spent (w : KvWorld) (kind : KeyValueMutationKind) (c : GatewayExecutionContext) (id : str) (g : KvGateway) : Gateway :=
  mkGateway (consume id c (execute_operation_of kind) (w_now_ms (kw_world w)) (g_registry (kg_sql g))).2 (g_executed (kg_sql g)).

(** A call that ran a change: the plan it spent, and what the driver made of it. *)
Record ran (w : KvWorld) (kind : KeyValueMutationKind) (c : GatewayExecutionContext) (id : str) (plan : ConsumedPreparedPlan)
    (p : PreparedKeyValuePayload) (g : KvGateway) (res : Result GatewayError KeyValueResponse) (g' : KvGateway) : Prop := {
  ran_consumed : (consume id c (execute_operation_of kind) (w_now_ms (kw_world w)) (g_registry (kg_sql g))).1 = Ok plan;
  ran_payload : key_value_payload_from_value (c_exact_payload plan) = Some p;
  ran_kind : mutation_kind (pk_mutation p) = kind;
  ran_target : key_value_target_unchanged w (c_profile_id plan) p = Ok tt;
  ran_spent : kg_sql g' = spent w kind c id g;
  ran_logged : kg_changes g' = kg_changes g ++ [mkKvChange id (c_profile_id plan) (pk_mutation p)];
  ran_result : let r := mutate (turns (c_profile_id plan)) (timeouts (c_profile_id plan)) (kw_temporary_uuid w) (pk_mutation p)
                          (kg_servers g (c_profile_id plan)) in
    kg_servers g' = <[c_profile_id plan := r.2]> (kg_servers g)
    /\ res = match r.1 with Ok out => respond (pk_mutation p) out | Err e => Err (map_key_value_mutation_ipc_error e) end;
}.

(** A call that failed before it reached a driver. *)
Record stopped (w : KvWorld) (kind : KeyValueMutationKind) (ctx : option GatewayExecutionContext)
    (g : KvGateway) (res : Result GatewayError KeyValueResponse) (g' : KvGateway) : Prop := {
  stopped_error : is_ok res = false;
  stopped_servers : kg_servers g' = kg_servers g;
  stopped_changes : kg_changes g' = kg_changes g;
  stopped_plans : kg_sql g' = kg_sql g \/ exists c id, ctx = Some c /\ kg_sql g' = spent w kind c id g;
}.

Lemma key_value_execute_effect w kind input ctx g res g' : key_value_execute w kind input ctx g = (res, g') ->
  stopped w kind ctx g res g' \/ exists c id plan p, ctx = Some c /\ ran w kind c id plan p g res g'.
Proof.
  unfold key_value_execute. intros H. destruct ctx as [c|]; [|injection H as <- <-; left; split; auto].
  rewrite st_bind_eq in H. unfold st_lift in H at 1.
  destruct (ok_or _ (parse_key_value_plan_request input)) as [id|e]; [|injection H as <- <-; left; split; auto].
  rewrite st_bind_eq in H. unfold on_plans in H. destruct (consume id c _ _ _) as [r reg] eqn:Hc.
  assert (Hstop : forall e g1, (Err e, g1) = (res, g') -> kg_sql g1 = mkGateway reg (g_executed (kg_sql g)) -> kg_servers g1 = kg_servers g ->
    kg_changes g1 = kg_changes g -> stopped w kind (Some c) g res g').
  { intros e g1 [= <- <-] H1 H2 H3. split; [done..|]. right. exists c, id. unfold spent. by rewrite Hc. }
  destruct r as [plan|e]; cbn in H; [|left; by eapply Hstop].
  rewrite st_bind_eq in H. unfold st_lift in H at 1.
  destruct (ok_or _ (key_value_payload_from_value _)) as [p|e] eqn:Ep; [|left; by eapply Hstop]. apply ok_or_Ok in Ep.
  destruct (negb _) eqn:Hk; [left; by eapply Hstop|]. apply negb_false_iff, bool_decide_eq_true in Hk.
  rewrite st_bind_eq in H. unfold st_lift in H at 1. destruct (key_value_target_unchanged w _ p) as [[]|e] eqn:Et; [|left; by eapply Hstop].
  rewrite st_bind_eq in H. unfold map_kv_err in H. rewrite run_change_eq in H.
  destruct (kw_shared_driver w (c_profile_id plan)) as [[]|e]; [|left; cbn in H; by eapply Hstop..].
  right. exists c, id, plan, p. split; [done|]. cbn [kg_servers kg_sql kg_changes] in H. cbv zeta in H.
  destruct (mutate _ _ _ _ _) as [[out|e] s] eqn:Hm; cbn in H; injection H as <- <-;
    (split; [by rewrite Hc | done | done | done | unfold spent; by rewrite Hc | done | cbv zeta; by rewrite Hm]).
Qed.

(** ** What is reported *)

(** The outcome and code of a failed change. *)
Lemma mapped_refusal e : g_outcome (map_key_value_mutation_ipc_error e) <> OutcomeUnknown ->
  g_code (map_key_value_mutation_ipc_error e) <> lit "AUTH_FAILED" -> is_refusal e = true.
Proof. destruct e as [k ? ? ?]. by destruct k. Qed.

Lemma respond_outcome m out : is_ok (respond m out) = true \/ exists e, respond m out = Err e /\ g_outcome e = OutcomeUnknown.
Proof. destruct out as [r|r]; cbn; [by left|]. destruct (_ || _); [right; by eexists | by left]. Qed.

(** C6: What the execution of a prepared change reports is true.  When it reports success,
    exactly one change was handed to the driver of one profile, and it took effect there at
    one instant, on the value it was approved for.  When it reports that nothing was
    started or that there was no effect, no key of any server was changed by it, but for
    the temporary key; the one exception is an error that the server words as one of
    authentication. *)
Theorem key_value_reports_are_true w kind input ctx g res g' : key_value_execute w kind input ctx g = (res, g') ->
  let tmp := temporary_key (kw_temporary_uuid w) in
  match res with
  | Ok _ => exists plan_id profile m out,
      kg_changes g' = kg_changes g ++ [mkKvChange plan_id profile m] /\ mutation_kind m = kind
      /\ (forall p, p <> profile -> kg_servers g' p = kg_servers g p)
      /\ (own_temporary_key (turns profile) m tmp (kg_servers g profile) ->
          happened (turns profile) (mutation_db_index m) tmp m out (kg_servers g profile) (kg_servers g' profile))
  | Err e => g_outcome e <> OutcomeUnknown -> g_code e <> lit "AUTH_FAILED" -> exists db, moved [(db, tmp)] g g'
  end.
Proof.
  intros H. cbv zeta. apply key_value_execute_effect in H as [[He Hs _ _]|(c & id & plan & p & -> & [_ _ Hk _ _ Hl [Hs Hr]])].
  - destruct res as [|e]; [done|]. intros _ _. exists 0%Z. intros q. by rewrite Hs.
  - set (profile := c_profile_id plan) in *. set (m := pk_mutation p) in *.
    destruct (mutate (turns profile) (timeouts profile) (kw_temporary_uuid w) m (kg_servers g profile)) as [[out|e] s] eqn:Hm; cbn in Hr, Hs.
    + destruct (respond_outcome m out) as [Ho|(e & He & Hu)]; [|rewrite He in Hr; subst res; intros Hn; exfalso; by apply Hn].
      rewrite <- Hr in Ho. destruct res as [v|]; [|done]. exists id, profile, m, out. split_and!; [done|done| |].
      * intros q Hq. by rewrite Hs, fn_lookup_insert_ne.
      * intros Hown. rewrite Hs, fn_lookup_insert. by eapply mutate_happened.
    + subst res. intros Hu Ha. exists (mutation_db_index m). intros q. rewrite Hs.
      destruct (decide (q = profile)) as [->|]; [rewrite fn_lookup_insert | by rewrite fn_lookup_insert_ne].
      pose proof (mutate_refuses (turns profile) (timeouts profile) (kw_temporary_uuid w) m (kg_servers g profile)) as Href.
      rewrite Hm in Href. apply Href. by apply mapped_refusal.
Qed.

(** ** Where an executed change comes from *)

Context {L : KvSerdeLaws}.
Context (servers : str -> Server).

(** The state after the first events of a history. *)
Definition after (evs : list KvEvent) : KvGateway := kv_run evs (kv_start servers).

Lemma after_snoc evs ev : after (evs ++ [ev]) = kv_step ev (after evs).
Proof. unfold after, kv_run. by rewrite fold_left_app. Qed.

(** A change and the calls it goes back to: it was prepared in the same context, it is
    what the request of that call asked for, with the value the key held then, and when
    it was handed to the driver the connection was the one of then. *)
Definition change_provenance (evs : list KvEvent) (x : KvChange) : Prop :=
  exists pre mid post wp we kind input input' c db key fp profile snapshot profile' snapshot',
    evs = pre ++ EvKvPrepare wp kind input (Some c) :: mid ++ EvKvExecute we kind input' (Some c) :: post
    /\ tool_id c = execute_operation_of kind /\ asked input fp kind (kc_profile x) db key (kc_mutation x)
    /\ kc_plan x = plan_id_of (w_uuid (kw_world wp))
    /\ (kind <> KindCreate -> held_during (kc_profile x) db key fp
          (kg_servers (after pre) (kc_profile x)) (kg_servers (after (pre ++ [EvKvPrepare wp kind input (Some c)])) (kc_profile x)))
    /\ require_redis_key_value_browser wp (kc_profile x) NotStarted = Ok (profile, snapshot)
    /\ require_redis_key_value_browser we (kc_profile x) NoEffect = Ok (profile', snapshot')
    /\ r_updated_at profile' = r_updated_at profile /\ driver_name snapshot' = driver_name snapshot.

(** The plans for changes of a history. *)
Definition plans_prepared (evs : list KvEvent) (r : PreparedPlanRegistry) : Prop :=
  forall id e kind, plans r !! id = Some e -> execute_operation (spec e) = execute_operation_of kind ->
    exists pre wp input c mid, evs = pre ++ EvKvPrepare wp kind input (Some c) :: mid /\ id = plan_id_of (w_uuid (kw_world wp))
      /\ prepared wp kind input c (spec e) (after pre) (after (pre ++ [EvKvPrepare wp kind input (Some c)])).

Lemma plans_prepared_weaken evs ev r r' : plans_prepared evs r ->
  (forall id e, plans r' !! id = Some e -> (exists e', plans r !! id = Some e' /\ spec e' = spec e) \/ execute_operation (spec e) = lit "sql.execute") ->
  plans_prepared (evs ++ [ev]) r'.
Proof.
  intros Hp Hr id e kind He Hop. destruct (Hr _ _ He) as [(e' & He' & Hs)|Hsql]; [|rewrite Hsql in Hop; by destruct kind].
  rewrite <- Hs in *. destruct (Hp _ _ _ He' Hop) as (pre & wp & input & c & mid & -> & Hid & Ha).
  exists pre, wp, input, c, (mid ++ [ev]). split; [by rewrite <- app_assoc | done].
Qed.

Lemma change_provenance_app evs ev x : change_provenance evs x -> change_provenance (evs ++ [ev]) x.
Proof.
  intros (pre & mid & post & wp & we & kind & input & input' & c & db & key & fp & profile & snapshot & profile' & snapshot' & -> & H).
  exists pre, mid, (post ++ [ev]), wp, we, kind, input, input', c, db, key, fp, profile, snapshot, profile', snapshot'. split; [|done].
  by rewrite <- app_assoc, <- app_comm_cons, <- app_assoc.
Qed.

(** A call of [SqlGateway] stores no plan for a change. *)
Lemma sql_step_plans ev g id e : plans (g_registry (gateway_step ev g)) !! id = Some e ->
  (exists e', plans (g_registry g) !! id = Some e' /\ spec e' = spec e) \/ execute_operation (spec e) = lit "sql.execute".
Proof.
  destruct ev as [w input ctx|w input ctx|input ctx|]; cbn [gateway_step].
  - destruct (sql_analyze_effect w input ctx g) as [->|(c & sp & -> & (req & pr & sn & a & ro & Ha) & ->)]; [eauto|].
    cbn. unfold prepare. destruct (poisoned _); cbn; [eauto|]. rewrite lookup_insert. case_decide; [|eauto].
    intros [= <-]. right. apply (an_operation _ _ _ _ _ _ _ _ _ Ha).
  - destruct (sql_execute_effect w input ctx g) as [->|(c & pid & -> & _ & -> & _)]; [eauto|]. intros H%consume_specs. by left.
  - intros H. left. unfold cleanup_run in H. rewrite st_bind_eq in H. unfold st_lift in H. destruct (ok_or _ _); cbn in H; [|eauto].
    destruct ctx as [c|]; cbn in H; [|eauto]. unfold st_run in H. apply (retain_specs (fun entry => negb (str_eqb (run_id (p_context (spec entry))) (run_id c)))).
    unfold clear_run in H. by destruct (retain _ _).
  - intros H%clear_all_specs. by left.
Qed.

Lemma execute_operation_inj k k' : execute_operation_of k = execute_operation_of k' -> k = k'.
Proof. by destruct k, k'. Qed.

Lemma target_unchanged_inv w profile_id p : key_value_target_unchanged w profile_id p = Ok tt ->
  exists profile snapshot, require_redis_key_value_browser w profile_id NoEffect = Ok (profile, snapshot)
    /\ r_updated_at profile = pk_expected_profile_updated_at p /\ driver_name snapshot = pk_expected_driver p.
Proof.
  unfold key_value_target_unchanged. intros H. bind_inv. destruct a as [profile snapshot].
  destruct (_ || _) eqn:Hc; [done|]. apply orb_false_iff in Hc as [[_ H2]%orb_false_iff H3]. exists profile, snapshot. split; [done|].
  apply negb_false_iff, Z.eqb_eq in H3. by apply negb_false_iff, bool_decide_eq_true in H2.
Qed.

Definition history_ok (evs : list KvEvent) (g : KvGateway) : Prop :=
  plans_prepared evs (g_registry (kg_sql g)) /\ Forall (change_provenance evs) (kg_changes g).

Lemma history_reads evs ev g g' : history_ok evs g -> reads g g' -> history_ok (evs ++ [ev]) g'.
Proof.
  intros [Hp Hx] [Hs Hc _]. rewrite <- Hs in Hp. split.
  - eapply plans_prepared_weaken; [exact Hp|]. intros id e He. left. eauto.
  - rewrite Hc. apply Forall_forall. intros x Hin. apply change_provenance_app. by eapply Forall_forall in Hin; [|exact Hx].
Qed.

(** The change that a call ran goes back to the plan it consumed. *)
Lemma ran_provenance evs w kind input c id plan p res g' :
  plans_prepared evs (g_registry (kg_sql (after evs))) -> ran w kind c id plan p (after evs) res g' ->
  change_provenance (evs ++ [EvKvExecute w kind input (Some c)]) (mkKvChange id (c_profile_id plan) (pk_mutation p)).
Proof.
  intros Hp [Hc Hpl Hk Ht _ _ _]. destruct (consume _ _ _ _ _) as [r reg] eqn:Hcon. cbn in Hc. subst r.
  destruct (consume_ok_inv _ _ _ _ _ _ _ Hcon) as (e & He & _ & _ & Hop & Hctx & Hplan & _). rewrite Hplan in *. cbn [c_profile_id c_exact_payload] in *.
  destruct (Hp _ _ _ He Hop) as (pre & wp & input0 & c' & mid & -> & -> & i & fp & profile & snapshot & Ha).
  pose proof (pa_context _ _ _ _ _ _ _ _ _ _ _ Ha) as Hcc. rewrite Hctx in Hcc. subst c'.
  rewrite (key_value_payload_roundtrip _ _ (pa_payload _ _ _ _ _ _ _ _ _ _ _ Ha)) in Hpl. injection Hpl as <-. cbn in *.
  destruct (target_unchanged_inv _ _ _ Ht) as (profile' & snapshot' & Hf & Hu & Hd). cbn in *.
  exists pre, mid, [], wp, w, kind, input0, input, c, (input_db_index i), (input_key i), fp, profile, snapshot, profile', snapshot'.
  pose proof (pa_profile _ _ _ _ _ _ _ _ _ _ _ Ha) as Hpr. cbn. rewrite Hpr in *.
  split_and!; try done; try apply Ha. by rewrite <- app_assoc.
Qed.

Lemma history_step evs ev : history_ok evs (after evs) -> history_ok (evs ++ [ev]) (after (evs ++ [ev])).
Proof.
  intros Hok. rewrite after_snoc. set (g := after evs) in *.
  assert (Hx' : Forall (change_provenance (evs ++ [ev])) (kg_changes g))
    by (destruct Hok as [_ Hx]; apply Forall_forall; intros x Hin; apply change_provenance_app; by eapply Forall_forall in Hin; [|exact Hx]).
  destruct ev as [ev|w input|w input|w kind input ctx|w kind input ctx]; cbn [kv_step].
  - split; [|done]. cbn. eapply plans_prepared_weaken; [apply Hok|]. intros id e. apply sql_step_plans.
  - eapply history_reads; [done | apply key_value_scan_reads].
  - eapply history_reads; [done | apply key_value_get_reads].
  - destruct (key_value_prepare_effect w kind input ctx g) as (g1 & Hr & [Hg|(c & sp & -> & Ha & Hg)]); [rewrite Hg; by eapply history_reads|].
    destruct (history_reads evs (EvKvPrepare w kind input (Some c)) g g1 Hok Hr) as [Hp1 Hx1].
    rewrite Hg. split; [|done]. cbn. intros id e kind' He Hop. revert He. unfold prepare. destruct (poisoned _); cbn; [intros He; by eapply Hp1|].
    rewrite lookup_insert. case_decide as Hid; [|intros He; by eapply Hp1]. intros [= <-]. cbn in *.
    assert (kind' = kind) as ->.
    { apply execute_operation_inj. destruct Ha as (? & ? & ? & ? & Ha). rewrite <- Hop. apply Ha. }
    exists evs, w, input, c, []. split_and!; [done..|]. by rewrite after_snoc.
  - destruct (key_value_execute w kind input ctx g) as [res g'] eqn:H. cbn [snd].
    destruct (key_value_execute_effect _ _ _ _ _ _ _ H) as [[_ _ Hc Hs]|(c & id & plan & p & -> & Hran)].
    + split; [|by rewrite Hc]. eapply plans_prepared_weaken; [apply Hok|]. intros id e He. left.
      destruct Hs as [Hs|(c & pid & _ & Hs)]; rewrite Hs in He; [eauto|]. exact (consume_specs _ _ _ _ _ _ _ He).
    + split.
      * eapply plans_prepared_weaken; [apply Hok|]. intros id' e He. left. rewrite (ran_spent _ _ _ _ _ _ _ _ _ Hran) in He. exact (consume_specs _ _ _ _ _ _ _ He).
      * rewrite (ran_logged _ _ _ _ _ _ _ _ _ Hran). apply Forall_app_2; [done|]. constructor; [|constructor].
        eapply ran_provenance; [apply Hok | exact Hran].
Qed.

Lemma history_of evs : history_ok evs (after evs).
Proof.
  induction evs as [|ev evs IH] using rev_ind; [|by apply history_step].
  split; [|constructor]. intros id e kind He. cbn in He. by rewrite lookup_empty in He.
Qed.

(** C4: Only prepared changes are made, exactly as prepared.  In any history of the
    gateway, calls for SQL and for keys together, and whatever other clients write, a
    change handed to a Redis driver goes back to an earlier preparation in the same
    execution context, whose request, as it was sent, passed the checks of its kind: the
    profile, database, key, value and time to live are those of that request, and the fingerprint it insists on is that of a value
    the key held while the request was prepared.  When it is made, the profile has the
    version and the runtime the driver it had then. *)
Theorem executed_change_was_prepared evs x : x ∈ kg_changes (after evs) -> change_provenance evs x.
Proof. destruct (history_of evs) as [_ H]. intros Hx. exact (proj1 (Forall_forall _ _) H x Hx). Qed.

(** ** How often a plan runs *)

Definition changes_of (pid : str) (xs : list KvChange) : nat := length (filter (fun x => kc_plan x = pid) xs).

(** The UUIDs that analyses and preparations drew for their plans. *)
Definition event_uuids (ev : KvEvent) : list str :=
  match ev with EvSql ev => drawn_uuids [ev] | EvKvPrepare w _ _ _ => [w_uuid (kw_world w)] | _ => [] end.
Definition kv_drawn_uuids (evs : list KvEvent) : list str := concat (map event_uuids evs).

Definition kv_draws (pid : str) (evs : list KvEvent) : nat := length (filter (fun u => plan_id_of u = pid) (kv_drawn_uuids evs)).

(** What a plan has done and can still do. *)
Definition used (pid : str) (g : KvGateway) : nat :=
  runs_of pid (g_executed (kg_sql g)) + changes_of pid (kg_changes g) + live pid (g_registry (kg_sql g)).

Lemma used_reads pid g g' : reads g g' -> used pid g' = used pid g.
Proof. intros [Hs Hc _]. unfold used. by rewrite Hs, Hc. Qed.

Lemma consume_live pid kind w c id g :
  let r := consume id c (execute_operation_of kind) (w_now_ms (kw_world w)) (g_registry (kg_sql g)) in
  (if is_ok r.1 then if decide (id = pid) then 1 else 0 else 0) + live pid r.2 <= live pid (g_registry (kg_sql g)).
Proof.
  pose proof (step_live pid (Consume id c (execute_operation_of kind) (w_now_ms (kw_world w))) (g_registry (kg_sql g))) as H.
  simpl in *. change (prepares pid _) with 0 in H. destruct (consume _ _ _ _ _) as [[plan|e] reg]; simpl in *; [|lia].
  unfold executions in H. rewrite filter_cons in H. simpl in H. destruct (decide (id = pid)); simpl in H; lia.
Qed.

Lemma kv_step_used pid ev g : used pid (kv_step ev g) <= used pid g + length (filter (fun u => plan_id_of u = pid) (event_uuids ev)).
Proof.
  destruct ev as [ev|w input|w input|w kind input ctx|w kind input ctx]; cbn [kv_step event_uuids].
  - pose proof (gateway_step_live pid ev (kg_sql g)). unfold used, draws in *. cbn [kg_sql kg_changes] in *. lia.
  - rewrite (used_reads _ g) by apply key_value_scan_reads. lia.
  - rewrite (used_reads _ g) by apply key_value_get_reads. lia.
  - destruct (key_value_prepare_effect w kind input ctx g) as (g1 & Hr & [Hg|(c & sp & -> & _ & Hg)]); rewrite Hg, <- (used_reads pid _ _ Hr); [lia|].
    pose proof (step_live pid (Prepare (w_uuid (kw_world w)) sp) (g_registry (kg_sql g1))) as H.
    unfold used, store_plan, prepares, prepared_uuids, executions in *. simpl in *. lia.
  - destruct (key_value_execute w kind input ctx g) as [res g'] eqn:H. cbn [snd].
    destruct (key_value_execute_effect _ _ _ _ _ _ _ H) as [[_ _ Hc Hs]|(c & id & plan & p & -> & Hran)].
    + unfold used. rewrite Hc. destruct Hs as [->|(c & pid' & _ & ->)]; [lia|].
      pose proof (consume_live pid kind w c pid' g). unfold spent. simpl in *. lia.
    + unfold used. rewrite (ran_spent _ _ _ _ _ _ _ _ _ Hran), (ran_logged _ _ _ _ _ _ _ _ _ Hran). unfold changes_of. rewrite filter_app, length_app.
      rewrite filter_cons, filter_nil. cbn [kc_plan]. pose proof (consume_live pid kind w c id g) as Hl. cbv zeta in Hl.
      rewrite (ran_consumed _ _ _ _ _ _ _ _ _ Hran) in Hl. simpl in Hl. unfold spent. simpl. destruct (decide (id = pid)); simpl in *; lia.
Qed.

Lemma kv_run_used pid evs : used pid (after evs) <= kv_draws pid evs.
Proof.
  induction evs as [|ev evs IH] using rev_ind; [unfold used, live; cbn; by rewrite lookup_empty|].
  rewrite after_snoc. pose proof (kv_step_used pid ev (after evs)). unfold kv_draws, kv_drawn_uuids in *.
  rewrite map_app, concat_app, filter_app, length_app. cbn. rewrite app_nil_r. lia.
Qed.

(** C5: A plan is carried out at most once, also when it is presented to several
    operations: in any history whose plans get distinct UUIDs, the statements and changes
    that any one plan id led to are together at most one. *)
Theorem plan_is_carried_out_at_most_once evs pid : NoDup (kv_drawn_uuids evs) ->
  runs_of pid (g_executed (kg_sql (after evs))) + changes_of pid (kg_changes (after evs)) <= 1.
Proof. intros Hn%(plan_ids_NoDup pid). pose proof (kv_run_used pid evs) as H. unfold used, kv_draws in H. lia. Qed.

(** No call but the execution of a prepared change writes to a Redis server: what
    is scanned, read, analysed or prepared leaves every key to the other clients. *)
Theorem only_execution_changes_keys ev g : (forall w kind input ctx, ev <> EvKvExecute w kind input ctx) -> moved [] g (kv_step ev g).
Proof.
  intros Hne. destruct ev as [ev|w input|w input|w kind input ctx|w kind input ctx]; cbn [kv_step]; [| | | |by destruct (Hne w kind input ctx)].
  - by intros p.
  - apply key_value_scan_reads.
  - apply key_value_get_reads.
  - destruct (key_value_prepare_effect w kind input ctx g) as (g1 & Hr & [->|(c & sp & -> & _ & ->)]); [apply Hr|].
    intros p. apply Hr.
Qed.
End operations.

(** ** Concrete runs

    A small [serde] for requests to delete a key, and a history in which a prepared
    deletion is carried out once and its repetition is refused. *)

Definition demo_delete_value (r : KeyValueDeleteToolRequest) : Value (J := IntegerNumber) :=
  VArray [VString (vd_profile_id r); demo_number (vd_db_index r); VString (vd_key r)].

Definition demo_parse_delete (v : Value (J := IntegerNumber)) : option KeyValueDeleteToolRequest :=
  match v with VArray [VString profile; VNumber db; VString key] => Some (mkKeyValueDeleteToolRequest profile db key) | _ => None end.

Definition demo_payload (v : Value (J := IntegerNumber)) : option (PreparedKeyValuePayload (J := IntegerNumber)) :=
  match v with
  | VArray [VString driver; VNumber updated; VNumber db; VString key; VString fp] =>
    Some (mkPreparedKeyValuePayload driver updated (MutDelete (mkRedisDeleteKeyRequest db key fp)))
  | _ => None
  end.

Definition demo_kv_serde : @KvSerde IntegerNumber text_server := {|
  parse_scan_request _ := None;
  parse_get_request _ := None;
  parse_create_request _ := None;
  parse_set_request _ := None;
  parse_rename_request _ := None;
  parse_set_ttl_request _ := None;
  parse_delete_request := demo_parse_delete;
  parse_key_value_plan_request v := match v with VString s => Some s | _ => None end;
  key_value_payload_to_value p :=
    match pk_mutation p with
    | MutDelete r => Some (VArray [VString (pk_expected_driver p); demo_number (pk_expected_profile_updated_at p);
                                   demo_number (dk_db_index r); VString (dk_key r); VString (dk_expected_fingerprint r)])
    | _ => None
    end;
  key_value_payload_from_value := demo_payload;
|}.

#[local] Instance demo_kv_laws : @KvSerdeLaws IntegerNumber text_server demo_kv_serde.
Proof. split. intros [driver updated [r|r|r|r|[db key fp]]] v; cbn; [done..|]. by intros [= <-]. Qed.

Definition demo_redis_record : StoredConnectionRecord (J := IntegerNumber) :=
  mkStoredConnectionRecord (lit "p1") (lit "Cache") CdRedis (lit "dev") None [] [] None (VObject []) None 3 7 None None None None.

Definition demo_kv_world (now : Z) : KvWorld (J := IntegerNumber) :=
  mkKvWorld (mkWorld now (lit "u1") (lit "x1") 5 (fun _ => Ok (Some demo_redis_record))
      (fun _ => Ok (mkConnectionRuntimeSnapshot (lit "redis") false None)) (fun _ => Err (resource_not_found [])))
    (fun _ => true) (fun _ => Ok true) (lit "u2").

Definition demo_kv_ctx : GatewayExecutionContext :=
  mkGatewayExecutionContext (lit "c1") (lit "r1") (lit "m1") (lit "t1") (lit "key_value.delete").

Definition demo_prepare : KvEvent (J := IntegerNumber) :=
  EvKvPrepare (demo_kv_world 10) KindDelete (demo_delete_value (mkKeyValueDeleteToolRequest (lit "p1") 0 (lit "a"))) (Some demo_kv_ctx).
Definition demo_execute (now : Z) : KvEvent (J := IntegerNumber) :=
  EvKvExecute (demo_kv_world now) KindDelete (VString (lit "plan_u1")) (Some demo_kv_ctx).

Definition demo_after : list KvEvent -> @KvGateway IntegerNumber text_server :=
  @after IntegerNumber text_server demo_serde demo_kv_serde (fun _ => busy_turns) (fun _ => None) (fun _ => with_a).

Definition demo_kv_history : list (KvEvent (J := IntegerNumber)) := [demo_prepare; demo_execute 20; demo_execute 30].

Example demo_deletes_once : length (kg_changes (demo_after demo_kv_history)) = 1
  /\ at_a (kg_servers (demo_after [demo_prepare]) (lit "p1")) = Some (lit "old", None)
  /\ at_a (kg_servers (demo_after [demo_prepare; demo_execute 20]) (lit "p1")) = None.
Proof. split_and!; vm_compute; reflexivity. Qed.

Lemma executed_change_was_prepared_witness : exists x, x ∈ kg_changes (demo_after demo_kv_history) /\
  @change_provenance IntegerNumber text_server demo_serde demo_kv_serde (fun _ => busy_turns) (fun _ => None) (fun _ => with_a) demo_kv_history x.
Proof.
  destruct (kg_changes (demo_after demo_kv_history)) as [|x l] eqn:Hc.
  - destruct demo_deletes_once as [H _]. rewrite Hc in H. discriminate H.
  - exists x. split; [apply elem_of_cons; left; reflexivity|].
    refine (@executed_change_was_prepared IntegerNumber text_server demo_serde demo_kv_serde (fun _ => busy_turns) (fun _ => None) demo_kv_laws
      (fun _ => with_a) demo_kv_history x _).
    unfold demo_after in Hc. rewrite Hc. apply elem_of_cons. left. reflexivity.
Defined.

Lemma plan_is_carried_out_at_most_once_witness : changes_of (lit "plan_u1") (kg_changes (demo_after demo_kv_history)) <= 1.
Proof.
  pose proof (@plan_is_carried_out_at_most_once IntegerNumber text_server demo_serde demo_kv_serde (fun _ => busy_turns) (fun _ => None)
    (fun _ => with_a) demo_kv_history (lit "plan_u1")) as H.
  unfold demo_after. etransitivity; [|apply H; apply NoDup_singleton]. apply Nat.le_add_l.
Defined.

Definition demo_run := @key_value_execute IntegerNumber text_server demo_kv_serde (fun _ => busy_turns) (fun _ => None)
  (demo_kv_world 20) KindDelete (VString (lit "plan_u1")) (Some demo_kv_ctx) (demo_after [demo_prepare]).

Example demo_run_succeeds : is_ok demo_run.1 = true /\ at_a (kg_servers demo_run.2 (lit "p1")) = None.
Proof. split; vm_compute; reflexivity. Qed.

Lemma key_value_reports_are_true_witness :
  exists profile m out, mutation_kind m = KindDelete
    /\ (own_temporary_key (E := text_server) busy_turns m (temporary_key (lit "u2")) (kg_servers (demo_after [demo_prepare]) profile) ->
        happened (E := text_server) busy_turns (mutation_db_index m) (temporary_key (lit "u2")) m out
          (kg_servers (demo_after [demo_prepare]) profile) (kg_servers demo_run.2 profile)).
Proof.
  destruct demo_run as [res g'] eqn:H. unfold demo_run in H.
  pose proof (@key_value_reports_are_true IntegerNumber text_server demo_kv_serde (fun _ => busy_turns) (fun _ => None) _ _ _ _ _ _ _ H) as Ht. cbv zeta in Ht.
  destruct res as [v|e].
  - destruct Ht as (plan_id & profile & m & out & _ & Hk & _ & Hh). exists profile, m, out. split; [exact Hk | exact Hh].
  - destruct demo_run_succeeds as [Hok _]. unfold demo_run in Hok. rewrite H in Hok. discriminate Hok.
Defined.

Lemma only_execution_changes_keys_witness :
  moved (E := text_server) (fun _ => busy_turns) [] (demo_after []) (demo_after [demo_prepare]).
Proof.
  refine (@only_execution_changes_keys IntegerNumber text_server demo_serde demo_kv_serde (fun _ => busy_turns) (fun _ => None) demo_prepare (demo_after []) _).
  intros w kind input ctx. discriminate.
Defined.

(** ** Where the code departs from what it means to do *)

(** The checks of the request and those of the driver differ: a hash with a field without
    a name is prepared and shown to the user, and after the approval refused. *)
Theorem approved_hash_is_refused :
  let r := @mkKeyValueCreateToolRequest IntegerNumber (lit "p1") 0 (lit "h") (EditHash [mkRedisHashEntry [] (lit "v")]) None in
  validate_create (E := text_server) r = Ok tt
  /\ is_ok (validate_create_key_value_request (E := text_server) (create_mutation_request r)) = false.
Proof. split; vm_compute; reflexivity. Qed.
