(* ===== verification/Artifact.v ===== *)
(** * Raw result artifacts
    ([src-tauri/src/engine/sql_execution/artifact.rs] and the raw execution loop of
    [src-tauri/src/engine/drivers/clickhouse/query/raw.rs])

    A raw result is streamed into a file of the artifact store; the store knows the
    owner, the length and the first bytes of each.  The state is the store's table
    together with the files.  A file-system call can fail: each operation takes the
    set of calls that fail in it, so every error path can be run.  A buffered writer
    holds the bytes it was given until it is flushed. *)

From stdpp Require Import base gmap list strings fin_maps.
From Stdlib Require Import ZArith Lia.
From S2P Require Import Prelude Errors Digits Types ClickHouseSql.

Definition RAW_ARTIFACT_MAX_BYTES : Z := 512 * 1024 * 1024.
Definition RAW_ARTIFACT_PREVIEW_BYTES : nat := Z.to_nat (1024 * 1024).
Definition RAW_ARTIFACT_BINARY_PREVIEW_BYTES : nat := Z.to_nat (4 * 1024).

Record RawArtifactLimits := mkRawArtifactLimits {
  max_bytes : Z;
  preview_bytes : nat;
  binary_preview_bytes : nat;
}.

Definition default_limits : RawArtifactLimits :=
  mkRawArtifactLimits RAW_ARTIFACT_MAX_BYTES RAW_ARTIFACT_PREVIEW_BYTES RAW_ARTIFACT_BINARY_PREVIEW_BYTES.

Record RawArtifactOwner := mkRawArtifactOwner {
  o_profile_id : str;
  o_tab_id : str;
  o_execution_id : str;
}.

#[export] Instance RawArtifactOwner_eq_dec : EqDecision RawArtifactOwner.
Proof. solve_decision. Defined.

Inductive RawArtifactPreviewMode := Text | Binary.

#[export] Instance RawArtifactPreviewMode_eq_dec : EqDecision RawArtifactPreviewMode.
Proof. solve_decision. Defined.

Record RawArtifactDescriptor := mkRawArtifactDescriptor {
  d_artifact_id : str;
  d_byte_length : Z;
  d_preview : str;
  d_preview_truncated : bool;
}.

(** A path: whether it is absolute, and its components. *)
Record Path := mkPath {
  is_absolute : bool;
  components : list str;
}.

#[export] Instance Path_eq_dec : EqDecision Path.
Proof. solve_decision. Defined.
#[export] Instance Path_countable : Countable Path.
Proof.
  apply (inj_countable' (fun p => (is_absolute p, components p)) (fun p => mkPath p.1 p.2)). by intros [].
Defined.

Definition path_join (p : Path) (name : str) : Path := mkPath (is_absolute p) (components p ++ [name]).

(** [Path::parent], [Path::file_name] and [Path::starts_with]. *)
Definition path_parent (p : Path) : option Path :=
  match rev (components p) with
  | [] => None
  | _ :: r => Some (mkPath (is_absolute p) (rev r))
  end.

Definition path_file_name (p : Path) : option str :=
  match last (components p) with
  | Some n => if str_eqb n (lit "..") then None else Some n
  | None => None
  end.

Fixpoint list_prefix (p s : list str) : bool :=
  match p, s with
  | [], _ => true
  | _ :: _, [] => false
  | a :: p', b :: s' => str_eqb a b && list_prefix p' s'
  end.

Definition path_starts_with (p base : Path) : bool :=
  Bool.eqb (is_absolute p) (is_absolute base) && list_prefix (components base) (components p).

(** An artifact: [writer] holds the bytes given to the open buffered writer. *)
Record RawArtifactEntry := mkRawArtifactEntry {
  path : Path;
  writer : option (list Z);
  byte_length : Z;
  preview : list Z;
  completed : bool;
}.

Record RawArtifactRecord := mkRawArtifactRecord {
  owner : RawArtifactOwner;
  entry : RawArtifactEntry;
}.

(** The store, and the files it and its callers see.  [poisoned_table] is the state of
    the lock around the table. *)
Record RawArtifactStore := mkRawArtifactStore {
  root : Path;
  limits : RawArtifactLimits;
  poisoned_table : bool;
  entries : gmap str RawArtifactRecord;
  files : gmap Path (list Z);
}.

(** The file-system calls. *)
Inductive FsCall := FsCreateDir | FsOpen | FsWrite | FsFlush | FsSync | FsRemove | FsRead | FsTemp
| FsCopy | FsPersist.

#[export] Instance FsCall_eq_dec : EqDecision FsCall.
Proof. solve_decision. Defined.

(** The calls that fail. *)
Abbreviation Faults := (list FsCall).
Definition fails (io : Faults) (c : FsCall) : bool := bool_decide (c ∈ io).

Abbreviation StoreM A := (ST RawArtifactStore IpcError A).

(** ** Errors *)

Definition artifact_not_found : IpcError := resource_not_found (lit "Raw SQL artifact is not available").
Definition artifact_canceled : IpcError :=
  operation_canceled (lit "Raw SQL artifact ownership was released") (lit "artifact writer is no longer active").
Definition artifact_limit_error : IpcError :=
  validation_failed (lit "Raw SQL result exceeds the 512 MiB artifact limit").
Definition artifact_lock_error (operation : string) : IpcError :=
  system_internal (lit "Raw SQL artifact store is unavailable")
    (lit "artifact " ++ lit operation ++ lit " lock failed").
Definition artifact_io_error (operation : string) : IpcError :=
  system_internal (lit "Raw SQL artifact operation failed")
    (lit "artifact " ++ lit operation ++ lit " filesystem operation failed").

(** ** State access *)

Definition set_files (f : gmap Path (list Z)) (s : RawArtifactStore) : RawArtifactStore :=
  mkRawArtifactStore (root s) (limits s) (poisoned_table s) (entries s) f.
Definition set_entries (m : gmap str RawArtifactRecord) (s : RawArtifactStore) : RawArtifactStore :=
  mkRawArtifactStore (root s) (limits s) (poisoned_table s) m (files s).
Definition set_entry (id : str) (e : RawArtifactEntry) (r : RawArtifactRecord) (s : RawArtifactStore)
  : RawArtifactStore := set_entries (<[id := mkRawArtifactRecord (owner r) e]> (entries s)) s.

Definition check {A} (bad : bool) (e : IpcError) (k : StoreM A) : StoreM A :=
  if bad then st_lift (Err e) else k.

(** [RawArtifactStore::record]. *)
Definition record (id : str) : StoreM RawArtifactRecord := fun s =>
  if poisoned_table s then (Err (artifact_lock_error "lookup"), s)
  else (ok_or artifact_not_found (entries s !! id), s).

(** ** Writers *)

(** [remove_record_file], once the record has left the table: the writer is dropped
    with it and the file removed; a missing file is not an error. *)
Definition remove_record_file (io : Faults) (r : RawArtifactRecord) : StoreM unit := fun s =>
  match files s !! path (entry r) with
  | None => (Ok tt, s)
  | Some _ =>
    if fails io FsRemove then (Err (artifact_io_error "release"), s)
    else (Ok tt, set_files (delete (path (entry r)) (files s)) s)
  end.

Definition abort_artifact (io : Faults) (id : str) : StoreM unit := fun s =>
  if poisoned_table s then (Err (artifact_lock_error "abort"), s)
  else
    let removed := entries s !! id in
    let s := set_entries (delete id (entries s)) s in
    match removed with
    | Some r => remove_record_file io r s
    | None => (Ok tt, s)
    end.

(** The sixteen attempts of [RawArtifactStore::start], with the UUIDs they draw. *)
Fixpoint start_attempts (io : Faults) (o : RawArtifactOwner) (uuids : list str) (n : nat) : StoreM str :=
  match n, uuids with
  | O, _ | _, [] => st_lift (Err (artifact_io_error "create"))
  | S n', artifact_id :: uuids' => fun s =>
    let p := path_join (root s) artifact_id in
    match files s !! p with
    | Some _ => start_attempts io o uuids' n' s
    | None =>
      if fails io FsOpen then (Err (artifact_io_error "create"), s)
      else
        let s := set_files (<[p := []]> (files s)) s in
        if poisoned_table s then (Err (artifact_lock_error "start"), s)
        else match entries s !! artifact_id with
        | Some _ =>
          let s := if fails io FsRemove then s else set_files (delete p (files s)) s in
          start_attempts io o uuids' n' s
        | None =>
          (Ok artifact_id,
           set_entries (<[artifact_id := mkRawArtifactRecord o (mkRawArtifactEntry p (Some []) 0 [] false)]>
                          (entries s)) s)
        end
    end
  end.

Definition start (io : Faults) (o : RawArtifactOwner) (uuids : list str) : StoreM str :=
  check (fails io FsCreateDir) (artifact_io_error "create") (start_attempts io o uuids 16).

Definition preview_limit (l : RawArtifactLimits) : nat := Nat.max (preview_bytes l) (binary_preview_bytes l).

(** [RawArtifactWriter::write_chunk]. *)
Definition write_chunk (io : Faults) (id : str) (chunk : list Z) : StoreM unit := fun s =>
  match record id s with
  | (Err e, s) => (Err (if bool_decide (code e = ResourceNotFound) then artifact_canceled else e), s)
  | (Ok r, s) =>
    let e := entry r in
    if completed e then (Err artifact_canceled, s)
    else match checked_add_u64 (byte_length e) (Z.of_nat (length chunk)) with
    | None => (Err artifact_limit_error, s)
    | Some next_length =>
      if (max_bytes (limits s) <? next_length)%Z then
        match abort_artifact io id s with
        | (Err e', s) => (Err e', s)
        | (Ok _, s) => (Err artifact_limit_error, s)
        end
      else
        let kept :=
          if length (preview e) <? preview_limit (limits s)
          then preview e ++ take (preview_limit (limits s) - length (preview e)) chunk
          else preview e in
        match writer e with
        | None => (Err artifact_canceled,
            set_entry id (mkRawArtifactEntry (path e) None (byte_length e) kept (completed e)) r s)
        | Some written =>
          if fails io FsWrite then
            (Err (artifact_io_error "write"),
             set_entry id (mkRawArtifactEntry (path e) (Some written) (byte_length e) kept (completed e)) r s)
          else
            (Ok tt,
             set_entry id (mkRawArtifactEntry (path e) (Some (written ++ chunk)) next_length kept (completed e)) r s)
        end
    end
  end.

(** ** Previews *)

Definition build_hex_preview (bytes : list Z) (len : Z) (limit : nat) : str * bool :=
  let shown := take (Nat.min (length bytes) limit) bytes in
  let encoded := join [c_space] (map hex_byte shown) in
  (if bool_decide (encoded = []) then lit "[hex]" else lit "[hex] " ++ encoded,
   (Z.of_nat (length shown) <? len)%Z).

(** [std::str::from_utf8]: the text, or the length of the valid prefix and whether an
    invalid sequence (rather than the end of the input) stopped it. *)
Definition continuation (b : Z) : bool := (128 <=? b)%Z && (b <? 192)%Z.

(** The second byte of a multi-byte sequence, after its first byte. *)
Definition second_ok (b0 b1 : Z) : bool :=
  if (b0 =? 224)%Z then (160 <=? b1)%Z && (b1 <? 192)%Z
  else if (b0 =? 237)%Z then (128 <=? b1)%Z && (b1 <? 160)%Z
  else if (b0 =? 240)%Z then (144 <=? b1)%Z && (b1 <? 192)%Z
  else if (b0 =? 244)%Z then (128 <=? b1)%Z && (b1 <? 144)%Z
  else continuation b1.

(** The character at the front of [bs] and the bytes it takes; [inl true] at an
    invalid sequence, [inl false] where the input ends inside a sequence. *)
Definition utf8_next (bs : list Z) : bool + (Z * nat) :=
  match bs with
  | [] => inl false
  | b0 :: r =>
    if (b0 <? 128)%Z then inr (b0, 1)
    else if (b0 <? 194)%Z || (245 <=? b0)%Z then inl true
    else match r with
    | [] => inl false
    | b1 :: r =>
      if negb (second_ok b0 b1) then inl true
      else if (b0 <? 224)%Z then inr (((b0 - 192) * 64 + (b1 - 128))%Z, 2)
      else match r with
      | [] => inl false
      | b2 :: r =>
        if negb (continuation b2) then inl true
        else if (b0 <? 240)%Z then inr ((((b0 - 224) * 64 + (b1 - 128)) * 64 + (b2 - 128))%Z, 3)
        else match r with
        | [] => inl false
        | b3 :: _ =>
          if negb (continuation b3) then inl true
          else inr (((((b0 - 240) * 64 + (b1 - 128)) * 64 + (b2 - 128)) * 64 + (b3 - 128))%Z, 4)
        end
      end
    end
  end.

Inductive Utf8Result :=
| Utf8Text (text : str)
| Utf8Error (valid : str) (valid_up_to : nat) (invalid : bool).

Fixpoint from_utf8_loop (fuel : nat) (bs : list Z) (text : str) (pos : nat) : Utf8Result :=
  match fuel, bs with
  | O, _ | _, [] => Utf8Text text
  | S n, _ =>
    match utf8_next bs with
    | inl invalid => Utf8Error text pos invalid
    | inr (c, k) => from_utf8_loop n (drop k bs) (text ++ [c]) (pos + k)
    end
  end.

Definition from_utf8 (bs : list Z) : Utf8Result := from_utf8_loop (length bs) bs [] 0.

Definition build_preview (bytes : list Z) (len : Z) (mode : RawArtifactPreviewMode) (l : RawArtifactLimits)
  : str * bool :=
  match mode with
  | Binary => build_hex_preview bytes len (binary_preview_bytes l)
  | Text =>
    let text_bytes := take (Nat.min (length bytes) (preview_bytes l)) bytes in
    match from_utf8 text_bytes with
    | Utf8Text text => (text, (Z.of_nat (length text_bytes) <? len)%Z)
    | Utf8Error valid _ false => (valid, true)
    | Utf8Error _ _ true => build_hex_preview bytes len (binary_preview_bytes l)
    end
  end.

(** ** Finishing, aborting, dropping *)

(** The body of [RawArtifactWriter::finish]. *)
Definition finish_body (io : Faults) (id : str) (mode : RawArtifactPreviewMode) : StoreM RawArtifactDescriptor :=
  fun s =>
  match record id s with
  | (Err e, s) => (Err e, s)
  | (Ok r, s) =>
    let e := entry r in
    match writer e with
    | None => (Err artifact_canceled, s)
    | Some written =>
      let taken := mkRawArtifactEntry (path e) None (byte_length e) (preview e) (completed e) in
      let s := set_entry id taken r s in
      if fails io FsFlush then (Err (artifact_io_error "finish"), s)
      else
        let s := set_files (<[path e := written]> (files s)) s in
        if fails io FsSync then (Err (artifact_io_error "finish"), s)
        else
          let s := set_entry id (mkRawArtifactEntry (path e) None (byte_length e) (preview e) true) r s in
          let '(text, truncated) := build_preview (preview e) (byte_length e) mode (limits s) in
          (Ok (mkRawArtifactDescriptor id (byte_length e) text truncated), s)
    end
  end.

(** [Drop for RawArtifactWriter]. *)
Definition drop_writer (io : Faults) (id : str) (finished : bool) (s : RawArtifactStore) : RawArtifactStore :=
  if finished then s else (abort_artifact io id s).2.

(** [finish] and [abort] consume the writer: it is dropped when they return. *)
Definition finish (io : Faults) (id : str) (mode : RawArtifactPreviewMode) : StoreM RawArtifactDescriptor :=
  fun s => let (r, s) := finish_body io id mode s in (r, drop_writer io id (is_ok r) s).

Definition abort (io : Faults) (id : str) : StoreM unit :=
  fun s => let (r, s) := abort_artifact io id s in (r, drop_writer io id (is_ok r) s).

(** ** Releasing *)

(** Removes the files of released records, keeping the first error. *)
Fixpoint remove_files (io : Faults) (rs : list RawArtifactRecord) (first_error : option IpcError) : StoreM unit :=
  match rs with
  | [] => st_lift (match first_error with Some e => Err e | None => Ok tt end)
  | r :: rs' => fun s =>
    match remove_record_file io r s with
    | (Ok _, s) => remove_files io rs' first_error s
    | (Err e, s) => remove_files io rs' (Some (match first_error with Some e0 => e0 | None => e end)) s
    end
  end.

Definition release_matching (io : Faults) (matches : RawArtifactOwner -> bool) : StoreM unit := fun s =>
  if poisoned_table s then (Err (artifact_lock_error "release"), s)
  else
    let removed := filter (fun kr : str * RawArtifactRecord => matches (owner kr.2) = true) (entries s) in
    let kept := filter (fun kr : str * RawArtifactRecord => matches (owner kr.2) <> true) (entries s) in
    remove_files io (map snd (map_to_list removed)) None (set_entries kept s).

Definition release_execution (io : Faults) (o : RawArtifactOwner) : StoreM unit :=
  release_matching io (fun c => bool_decide (c = o)).
Definition release_tab (io : Faults) (tab : str) : StoreM unit :=
  release_matching io (fun c => str_eqb (o_tab_id c) tab).
Definition release_profile (io : Faults) (profile : str) : StoreM unit :=
  release_matching io (fun c => str_eqb (o_profile_id c) profile).
Definition release_all (io : Faults) : StoreM unit := release_matching io (fun _ => true).

(** ** Saving *)

(** What [validate_destination] asks the file system about paths. *)
Class FileSystem := {
  is_dir : Path -> bool;
  exists_path : Path -> bool;
  canonicalize : Path -> option Path;
}.

Definition validate_destination `{FileSystem} (base destination : Path) : IpcResult unit :=
  if negb (is_absolute destination) || match path_file_name destination with None => true | _ => false end then
    Err (validation_failed (lit "Raw SQL artifact destination must be an absolute file path"))
  else
    parent ← ok_or (validation_failed (lit "Raw SQL artifact destination must be a file path"))
               (path_parent destination);
    if negb (is_dir parent) then
      Err (validation_failed (lit "Raw SQL artifact destination directory does not exist"))
    else
      canonical_root ← ok_or (artifact_io_error "validate") (canonicalize base);
      canonical_parent ← ok_or (artifact_io_error "validate") (canonicalize parent);
      candidate ← (if exists_path destination
                   then ok_or (artifact_io_error "validate") (canonicalize destination)
                   else Ok (path_join canonical_parent
                              match path_file_name destination with Some n => n | None => [] end));
      if path_starts_with candidate canonical_root then
        Err (validation_failed (lit "Raw SQL artifact cannot be saved inside internal storage"))
      else Ok tt.

(** [RawArtifactStore::save_completed]: a temporary sibling is filled and then renamed
    onto the destination, so the destination changes only at the last step. *)
Definition save_completed `{FileSystem} (io : Faults) (o : RawArtifactOwner) (id : str) (destination : Path)
  : StoreM unit := fun s =>
  match record id s with
  | (Err e, s) => (Err e, s)
  | (Ok r, s) =>
    let e := entry r in
    if negb (bool_decide (owner r = o)) then (Err artifact_not_found, s)
    else if negb (completed e) || match writer e with Some _ => true | None => false end then
      (Err (resource_conflict (lit "Raw SQL artifact is not ready to save")), s)
    else match validate_destination (root s) destination with
    | Err err => (Err err, s)
    | Ok _ =>
      match path_parent destination with
      | None => (Err (validation_failed (lit "Raw SQL artifact destination must be a file path")), s)
      | Some _ =>
        match (if fails io FsRead then None else files s !! path e) with
        | None => (Err (artifact_io_error "read"), s)
        | Some content =>
          if fails io FsTemp || fails io FsCopy || fails io FsFlush || fails io FsSync || fails io FsPersist
          then (Err (artifact_io_error "save"), s)
          else (Ok tt, set_files (<[destination := content]> (files s)) s)
        end
      end
    end
  end.

(** ** The raw execution loop ([raw.rs]) *)

Definition DEFAULT_RAW_FORMAT : str := lit "TabSeparatedRaw".

(** One step of the response stream as the loop sees it: a cancellation, an error of
    the connection (already classified), a chunk, during whose processing a
    cancellation may be noticed, or the end. *)
Inductive StreamEvent :=
| StreamCanceled
| StreamError (e : IpcError)
| StreamChunk (chunk : list Z) (canceled_before canceled_after : bool) (io : Faults).

Inductive RawQueryOutcome :=
| RawArtifactResult (fmt media_type : str) (descriptor : RawArtifactDescriptor) (summary : option SqlExecutionSummary)
| RawServerOutfile (summary : option SqlExecutionSummary).

Definition raw_query_canceled : IpcError :=
  operation_canceled (lit "ClickHouse Raw query canceled")
    (lit "managed Raw execution cancellation was requested").

Definition format_presentation (fmt : str) : str * RawArtifactPreviewMode :=
  let n := str_upper fmt in
  let pre k := starts_with (lit k) n in
  (lit (if pre "CSV" then "text/csv"
        else if pre "TSV" || pre "TABSEPARATED" then "text/tab-separated-values"
        else if pre "JSON" then "application/json"
        else if pre "XML" then "application/xml"
        else if pre "PARQUET" then "application/vnd.apache.parquet"
        else if pre "ARROW" then "application/vnd.apache.arrow.stream"
        else "application/octet-stream")%string,
   if pre "PARQUET" || pre "ARROW" || one_of n ["NATIVE"; "ORC"; "AVRO"]%string then Binary else Text).

(** The loop of [execute_raw_with] over the events of the stream and then its end;
    every early return drops the writer.  [io] are the faults of the last calls. *)
Fixpoint raw_loop (io : Faults) (id : str) (fmt media : str) (mode : RawArtifactPreviewMode) (into_outfile : bool)
    (len : Z) (summary : option SqlExecutionSummary) (events : list StreamEvent) : StoreM RawQueryOutcome :=
  let leave e : StoreM RawQueryOutcome := fun s => (Err e, drop_writer io id false s) in
  match events with
  | [] =>
    if into_outfile && (len =? 0)%Z then
      _ ← abort io id; mret (RawServerOutfile summary)
    else
      d ← finish io id mode; mret (RawArtifactResult fmt media d summary)
  | StreamCanceled :: _ => leave raw_query_canceled
  | StreamError e :: _ => leave e
  | StreamChunk chunk canceled_before canceled_after wio :: events' =>
    if (canceled_before : bool) then leave raw_query_canceled
    else fun s =>
      match write_chunk wio id chunk s with
      | (Err e, s) => leave e s
      | (Ok _, s) =>
        if (canceled_after : bool) then leave raw_query_canceled s
        else raw_loop io id fmt media mode into_outfile
               (saturating_add U64_MAX len (Z.of_nat (length chunk))) summary events' s
      end
  end.

(** [execute_raw_with]: [opened] is what [open_raw] returned, with the summary its
    source reports at the end, and [canceled] the cancellation flag before and after it. *)
Definition execute_raw_with (io : Faults) (id : str) (directives : RawSqlDirectives)
    (canceled : bool * bool) (opened : IpcResult (list StreamEvent * option SqlExecutionSummary)) : StoreM RawQueryOutcome :=
  let leave e : StoreM RawQueryOutcome := fun s => (Err e, drop_writer io id false s) in
  if canceled.1 then leave raw_query_canceled
  else
    let fmt := match format directives with Some f => f | None => DEFAULT_RAW_FORMAT end in
    let '(media, mode) := format_presentation fmt in
    match opened with
    | Err e => leave e
    | Ok (events, summary) =>
      if canceled.2 then leave raw_query_canceled
      else raw_loop io id fmt media mode (into_outfile directives) 0 summary events
    end.

Example utf8_1 : from_utf8 (as_bytes (lit "aß€😀")) = Utf8Text (lit "aß€😀").
Proof. vm_compute. reflexivity. Qed.
Example utf8_2 : from_utf8 [97; 226; 130]%Z = Utf8Error [97%Z] 1 false /\ from_utf8 [97; 255; 65]%Z = Utf8Error [97%Z] 1 true.
Proof. vm_compute. done. Qed.
Example hex_1 : build_preview [0; 255; 16]%Z 9 Binary (mkRawArtifactLimits 100 8 2) = (lit "[hex] 00 ff", true).
Proof. vm_compute. reflexivity. Qed.

(** ** UTF-8 *)

Definition is_byte_value (b : Z) : Prop := (0 <= b < 256)%Z.

(** Disjoint bit patterns add. *)
Lemma lor_add (base n x : Z) :
  forallb (fun i => Z.lor base (Z.of_nat i) =? base + Z.of_nat i)%Z (seq 0 (Z.to_nat n)) = true ->
  (0 <= x < n)%Z -> Z.lor base x = (base + x)%Z.
Proof.
  intros H Hx. rewrite forallb_forall in H. specialize (H (Z.to_nat x)). rewrite Z2Nat.id in H by lia.
  apply Z.eqb_eq, H, in_seq. lia.
Qed.

Lemma lor_128 x : (0 <= x < 64)%Z -> Z.lor 128 x = (128 + x)%Z.
Proof. apply lor_add. vm_compute. reflexivity. Qed.
Lemma lor_192 x : (0 <= x < 32)%Z -> Z.lor 192 x = (192 + x)%Z.
Proof. apply lor_add. vm_compute. reflexivity. Qed.
Lemma lor_224 x : (0 <= x < 16)%Z -> Z.lor 224 x = (224 + x)%Z.
Proof. apply lor_add. vm_compute. reflexivity. Qed.
Lemma lor_240 x : (0 <= x < 8)%Z -> Z.lor 240 x = (240 + x)%Z.
Proof. apply lor_add. vm_compute. reflexivity. Qed.

Lemma land_63 x : Z.land x 63 = (x mod 64)%Z.
Proof. change 63%Z with (Z.ones 6). by rewrite Z.land_ones by lia. Qed.

(** The encoder, in arithmetic. *)
Lemma utf8_encode_arith c :
  (0 <= c < 2097152)%Z ->
  utf8_encode_char c =
  (if c <? 128 then [c]
   else if c <? 2048 then [192 + c / 64; 128 + c mod 64]
   else if c <? 65536 then [224 + c / 4096; 128 + (c / 64) mod 64; 128 + c mod 64]
   else [240 + c / 262144; 128 + (c / 4096) mod 64; 128 + (c / 64) mod 64; 128 + c mod 64])%Z.
Proof.
  intros Hc. unfold utf8_encode_char. rewrite !land_63, !Z.shiftr_div_pow2 by lia.
  change (2 ^ 6)%Z with 64%Z. change (2 ^ 12)%Z with 4096%Z. change (2 ^ 18)%Z with 262144%Z.
  assert (Hm : forall x, Z.lor 128 (x mod 64) = (128 + x mod 64)%Z)
    by (intros x; apply lor_128, Z.mod_pos_bound; lia).
  rewrite !Hm. destruct (Z.ltb_spec c 128); [done|].
  destruct (Z.ltb_spec c 2048); [|destruct (Z.ltb_spec c 65536)].
  - rewrite lor_192; [done|]. split; [apply Z.div_pos; lia|apply Z.div_lt_upper_bound; lia].
  - rewrite lor_224; [done|]. split; [apply Z.div_pos; lia|apply Z.div_lt_upper_bound; lia].
  - rewrite lor_240; [done|]. split; [apply Z.div_pos; lia|apply Z.div_lt_upper_bound; lia].
Qed.

(** The code point of two, three and four bytes encodes to them. *)
Lemma encode_two b0 b1 :
  (194 <= b0 < 224)%Z -> (128 <= b1 < 192)%Z ->
  utf8_encode_char ((b0 - 192) * 64 + (b1 - 128)) = [b0; b1].
Proof.
  intros H0 H1. set (c := ((b0 - 192) * 64 + (b1 - 128))%Z). rewrite utf8_encode_arith by lia.
  destruct (Z.ltb_spec c 128); [lia|]. destruct (Z.ltb_spec c 2048); [|lia].
  replace (c / 64)%Z with (b0 - 192)%Z by (apply (Z.div_unique _ _ _ (b1 - 128)); lia).
  replace (c mod 64)%Z with (b1 - 128)%Z by (apply (Z.mod_unique _ _ (b0 - 192)); lia).
  repeat (f_equal; try lia).
Qed.

Lemma encode_three b0 b1 b2 :
  (224 <= b0 < 240)%Z -> (128 <= b1 < 192)%Z -> (128 <= b2 < 192)%Z ->
  (2048 <= ((b0 - 224) * 64 + (b1 - 128)) * 64 + (b2 - 128))%Z ->
  utf8_encode_char (((b0 - 224) * 64 + (b1 - 128)) * 64 + (b2 - 128)) = [b0; b1; b2].
Proof.
  intros H0 H1 H2. set (h := ((b0 - 224) * 64 + (b1 - 128))%Z). set (c := (h * 64 + (b2 - 128))%Z). intros Hc.
  rewrite utf8_encode_arith by lia.
  destruct (Z.ltb_spec c 128); [lia|]. destruct (Z.ltb_spec c 2048); [lia|]. destruct (Z.ltb_spec c 65536); [|lia].
  replace (c / 64)%Z with h by (apply (Z.div_unique _ _ _ (b2 - 128)); lia).
  replace (c mod 64)%Z with (b2 - 128)%Z by (apply (Z.mod_unique _ _ h); lia).
  replace (c / 4096)%Z with (b0 - 224)%Z by (apply (Z.div_unique _ _ _ ((b1 - 128) * 64 + (b2 - 128))); lia).
  replace (h mod 64)%Z with (b1 - 128)%Z by (apply (Z.mod_unique _ _ (b0 - 224)); lia).
  repeat (f_equal; try lia).
Qed.

Lemma encode_four b0 b1 b2 b3 :
  (240 <= b0 < 248)%Z -> (128 <= b1 < 192)%Z -> (128 <= b2 < 192)%Z -> (128 <= b3 < 192)%Z ->
  (65536 <= (((b0 - 240) * 64 + (b1 - 128)) * 64 + (b2 - 128)) * 64 + (b3 - 128))%Z ->
  utf8_encode_char ((((b0 - 240) * 64 + (b1 - 128)) * 64 + (b2 - 128)) * 64 + (b3 - 128)) = [b0; b1; b2; b3].
Proof.
  intros H0 H1 H2 H3. set (g := ((b0 - 240) * 64 + (b1 - 128))%Z). set (h := (g * 64 + (b2 - 128))%Z).
  set (c := (h * 64 + (b3 - 128))%Z). intros Hc. rewrite utf8_encode_arith by lia.
  destruct (Z.ltb_spec c 128); [lia|]. destruct (Z.ltb_spec c 2048); [lia|]. destruct (Z.ltb_spec c 65536); [lia|].
  replace (c / 64)%Z with h by (apply (Z.div_unique _ _ _ (b3 - 128)); lia).
  replace (c mod 64)%Z with (b3 - 128)%Z by (apply (Z.mod_unique _ _ h); lia).
  replace (c / 4096)%Z with g by (apply (Z.div_unique _ _ _ ((b2 - 128) * 64 + (b3 - 128))); lia).
  replace (c / 262144)%Z with (b0 - 240)%Z
    by (apply (Z.div_unique _ _ _ (((b1 - 128) * 64 + (b2 - 128)) * 64 + (b3 - 128))); lia).
  replace (h mod 64)%Z with (b2 - 128)%Z by (apply (Z.mod_unique _ _ g); lia).
  replace (g mod 64)%Z with (b1 - 128)%Z by (apply (Z.mod_unique _ _ (b0 - 240)); lia).
  repeat (f_equal; try lia).
Qed.

(** A character read from the front of a text encodes to the bytes it was read from. *)
Lemma utf8_next_encodes bs c k :
  Forall is_byte_value bs -> utf8_next bs = inr (c, k) ->
  bs = utf8_encode_char c ++ drop k bs /\ k = length (utf8_encode_char c) /\ k <> 0.
Proof.
  intros Hb. unfold utf8_next. destruct bs as [|b0 r]; [done|].
  apply Forall_cons in Hb as [HB0 Hb]. unfold is_byte_value in HB0.
  destruct (Z.ltb_spec b0 128).
  { intros [= <- <-]. rewrite utf8_encode_arith by lia. destruct (Z.ltb_spec b0 128); [done|lia]. }
  destruct (Z.ltb_spec b0 194), (Z.leb_spec 245 b0); try done. cbn [orb].
  destruct r as [|b1 r]; [done|]. destruct (second_ok b0 b1) eqn:HB1; [|done]. cbn [negb].
  assert (HB1' : (128 <= b1 < 192)%Z) by (unfold second_ok, continuation in HB1; repeat case_match; lia).
  destruct (Z.ltb_spec b0 224); [intros [= <- <-]; rewrite encode_two by lia; done|].
  destruct r as [|b2 r]; [done|]. destruct (continuation b2) eqn:HB2; [|done]. cbn [negb].
  unfold continuation in HB2.
  destruct (Z.ltb_spec b0 240).
  { intros [= <- <-]. rewrite encode_three; [done|lia..|].
    unfold second_ok, continuation in *. destruct (Z.eqb_spec b0 224); repeat case_match; lia. }
  destruct r as [|b3 r]; [done|]. destruct (continuation b3) eqn:HB3; [|done]. cbn [negb].
  unfold continuation in HB3. intros [= <- <-]. rewrite encode_four; [done|lia..|].
  unfold second_ok, continuation in *. destruct (Z.eqb_spec b0 240); repeat case_match; lia.
Qed.

Lemma as_bytes_app s t : as_bytes (s ++ t) = as_bytes s ++ as_bytes t.
Proof. apply flat_map_app. Qed.

(** Decoding a valid prefix. *)
Lemma from_utf8_loop_spec fuel bs text pos :
  Forall is_byte_value bs -> length bs <= fuel ->
  match from_utf8_loop fuel bs text pos with
  | Utf8Text t => as_bytes t = as_bytes text ++ bs
  | Utf8Error t n _ => exists v r, bs = v ++ r /\ r <> [] /\ as_bytes t = as_bytes text ++ v /\ n = pos + length v
  end.
Proof.
  revert bs text pos. induction fuel as [|fuel IH]; intros bs text pos Hb Hf.
  { destruct bs; [|simpl in Hf; lia]. simpl. by rewrite app_nil_r. }
  destruct bs as [|b bs]; [simpl; by rewrite app_nil_r|]. cbn [from_utf8_loop].
  destruct (utf8_next (b :: bs)) as [inv|[c k]] eqn:E; [exists [], (b :: bs); rewrite app_nil_r; simpl; split_and!; [done..|lia]|].
  destruct (utf8_next_encodes _ _ _ Hb E) as (Hbs & Hk & Hk0).
  set (rest := drop k (b :: bs)) in *.
  assert (Hr : Forall is_byte_value rest) by (by apply Forall_drop).
  assert (Hl : length rest <= fuel) by (unfold rest; rewrite length_drop; simpl in *; lia).
  specialize (IH rest (text ++ [c]) (pos + k) Hr Hl).
  assert (Hone : as_bytes (text ++ [c]) = as_bytes text ++ utf8_encode_char c)
    by (rewrite as_bytes_app; f_equal; apply app_nil_r).
  rewrite Hone in IH. rewrite Hbs.
  destruct (from_utf8_loop _ _ _ _).
  - by rewrite IH, <-app_assoc.
  - destruct IH as (v & r & -> & Hne & Ht & ->). exists (utf8_encode_char c ++ v), r.
    rewrite <-!app_assoc, Ht, <-app_assoc. split_and!; [done..|]. rewrite length_app. lia.
Qed.

(** ** The life of one artifact *)

(** Everything but the artifact [id] at [p] is as in [s0]. *)
Record framed (s0 : RawArtifactStore) (id : str) (p : Path) (s : RawArtifactStore) : Prop := {
  fr_root : root s = root s0;
  fr_limits : limits s = limits s0;
  fr_lock : poisoned_table s = false;
  fr_entries id' : id' <> id -> entries s !! id' = entries s0 !! id';
  fr_files p' : p' <> p -> files s !! p' = files s0 !! p';
}.

(** The artifact is gone, with its file. *)
Definition gone (s0 : RawArtifactStore) (id : str) (p : Path) (s : RawArtifactStore) : Prop :=
  framed s0 id p s /\ entries s !! id = None /\ files s !! p = None.

(** The artifact is in the table and its file exists. *)
Definition held (s0 : RawArtifactStore) (id : str) (p : Path) (s : RawArtifactStore) : Prop :=
  framed s0 id p s /\ (exists r, entries s !! id = Some r /\ path (entry r) = p) /\ is_Some (files s !! p).

(** The artifact has an open writer that was given [content]. *)
Definition writing (s0 : RawArtifactStore) (id : str) (p : Path) (content : list Z) (s : RawArtifactStore) : Prop :=
  framed s0 id p s /\ is_Some (files s !! p) /\ (Z.of_nat (length content) <= max_bytes (limits s0))%Z /\
  exists o, entries s !! id = Some (mkRawArtifactRecord o (mkRawArtifactEntry p (Some content)
    (Z.of_nat (length content)) (take (preview_limit (limits s0)) content) false)).

Lemma writing_held s0 id p content s : writing s0 id p content s -> held s0 id p s.
Proof. intros (Hf & Hp & _ & o & He). split; [done|]. split; [|done]. by eexists. Qed.

Lemma set_entry_framed s0 id p e r s : framed s0 id p s -> framed s0 id p (set_entry id e r s).
Proof.
  intros [H1 H2 H3 H4 H5]. split; try done. intros id' Hid. simpl. rewrite lookup_insert_ne by done. by apply H4.
Qed.

Lemma set_files_framed s0 id p m s :
  (forall p', p' <> p -> m !! p' = files s !! p') -> framed s0 id p s -> framed s0 id p (set_files m s).
Proof. intros Hm [H1 H2 H3 H4 H5]. split; try done. intros p' Hp. simpl. rewrite Hm by done. by apply H5. Qed.

Lemma set_entries_delete_framed s0 id p s :
  framed s0 id p s -> framed s0 id p (set_entries (delete id (entries s)) s).
Proof.
  intros [H1 H2 H3 H4 H5]. split; try done. intros id' Hid. simpl. rewrite lookup_delete_ne by done. by apply H4.
Qed.

(** Dropping an unfinished writer removes the artifact, if the file can be removed. *)
Lemma abort_held io s0 id p s :
  fails io FsRemove = false -> held s0 id p s -> exists s', abort_artifact io id s = (Ok tt, s') /\ gone s0 id p s'.
Proof.
  intros Hio (Hf & (r & Hr & Hp) & Hfile). unfold abort_artifact. rewrite (fr_lock _ _ _ _ Hf), Hr.
  unfold remove_record_file. rewrite Hp. simpl. destruct Hfile as [c Hc]. rewrite Hc, Hio.
  eexists. split; [done|]. split_and!.
  - apply set_files_framed; [|by apply set_entries_delete_framed].
    intros p' Hp'. simpl. by rewrite lookup_delete_ne.
  - simpl. by rewrite lookup_delete_eq.
  - simpl. by rewrite lookup_delete_eq.
Qed.

Lemma abort_gone io s0 id p s :
  gone s0 id p s -> exists s', abort_artifact io id s = (Ok tt, s') /\ gone s0 id p s'.
Proof.
  intros (Hf & He & Hp). unfold abort_artifact. rewrite (fr_lock _ _ _ _ Hf), He. eexists. split; [done|].
  split_and!; [by apply set_entries_delete_framed|simpl; by rewrite lookup_delete_eq|done].
Qed.

Lemma drop_writer_gone io s0 id p s :
  fails io FsRemove = false -> held s0 id p s \/ gone s0 id p s -> gone s0 id p (drop_writer io id false s).
Proof.
  intros Hio [H|H]; unfold drop_writer.
  - destruct (abort_held io _ _ _ _ Hio H) as (s' & -> & Hg). exact Hg.
  - destruct (abort_gone io _ _ _ _ H) as (s' & -> & Hg). exact Hg.
Qed.

Lemma take_extend {A} n (l m : list A) :
  (if length (take n l) <? n then take n l ++ take (n - length (take n l)) m else take n l) = take n (l ++ m).
Proof.
  rewrite take_app, length_take. destruct (Nat.ltb_spec (Nat.min n (length l)) n) as [H|H].
  - f_equal. f_equal. lia.
  - replace (n - length l) with 0 by lia. by rewrite firstn_O, app_nil_r.
Qed.

(** A chunk is appended, or the artifact can still be cleaned up. *)
Lemma write_chunk_spec io s0 id p content chunk s :
  fails io FsRemove = false -> writing s0 id p content s ->
  match write_chunk io id chunk s with
  | (Ok _, s') => writing s0 id p (content ++ chunk) s'
  | (Err _, s') => held s0 id p s' \/ gone s0 id p s'
  end.
Proof.
  intros Hio Hw. pose proof (writing_held _ _ _ _ _ Hw) as Hh. pose proof Hw as (Hf & Hfile & Hmax & o & He).
  unfold write_chunk, record. rewrite (fr_lock _ _ _ _ Hf), He. cbn [ok_or entry completed byte_length preview writer path].
  destruct (checked_add_u64 _ _) as [next|] eqn:Hn; [|by left].
  assert (next = Z.of_nat (length (content ++ chunk))) as ->.
  { unfold checked_add_u64 in Hn. case_match; [|done]. injection Hn as <-. rewrite length_app. lia. }
  rewrite (fr_limits _ _ _ _ Hf). destruct (Z.ltb_spec (max_bytes (limits s0)) (Z.of_nat (length (content ++ chunk)))) as [|Hle].
  { destruct (abort_held io _ _ _ _ Hio Hh) as (s' & -> & Hg). by right. }
  rewrite take_extend. destruct (fails io FsWrite).
  - left. split; [by apply set_entry_framed|]. split; [|done]. eexists. split; [simpl; by rewrite lookup_insert_eq|done].
  - split; [by apply set_entry_framed|]. split; [done|]. split; [done|]. exists o. simpl. by rewrite lookup_insert_eq.
Qed.

(** The artifact was completed with [content]. *)
Definition delivered (s0 : RawArtifactStore) (id : str) (p : Path) (content : list Z) (d : RawArtifactDescriptor)
    (mode : RawArtifactPreviewMode) (s : RawArtifactStore) : Prop :=
  framed s0 id p s /\ files s !! p = Some content /\
  (Z.of_nat (length content) <= max_bytes (limits s0))%Z /\
  (exists r, entries s !! id = Some r /\ completed (entry r) = true /\ writer (entry r) = None /\ path (entry r) = p) /\
  d_artifact_id d = id /\ d_byte_length d = Z.of_nat (length content) /\
  (d_preview d, d_preview_truncated d)
    = build_preview (take (preview_limit (limits s0)) content) (Z.of_nat (length content)) mode (limits s0).

Lemma finish_spec io s0 id p content mode s :
  fails io FsRemove = false -> writing s0 id p content s ->
  match finish io id mode s with
  | (Ok d, s') => delivered s0 id p content d mode s'
  | (Err _, s') => gone s0 id p s'
  end.
Proof.
  intros Hio (Hf & Hfile & Hmax & o & He).
  assert (Hdrop : forall e b k m r s1, framed s0 id p s1 -> is_Some (files s1 !! p) ->
    gone s0 id p (drop_writer io id false (set_entry id (mkRawArtifactEntry p e b k m) r s1))).
  { intros e b k m r s1 Hf1 Hp1. apply drop_writer_gone; [done|]. left. split; [by apply set_entry_framed|].
    split; [|done]. eexists. split; [simpl; by rewrite lookup_insert_eq|done]. }
  unfold finish, finish_body, record. rewrite (fr_lock _ _ _ _ Hf), He.
  cbn [ok_or entry completed byte_length preview writer path owner].
  destruct (fails io FsFlush); [by apply Hdrop|]. destruct (fails io FsSync).
  { apply drop_writer_gone; [done|]. left. split; [|split].
    - apply set_files_framed; [|by apply set_entry_framed]. intros p' Hp'. simpl. by rewrite lookup_insert_ne.
    - eexists. split; [simpl; by rewrite lookup_insert_eq|done].
    - simpl. rewrite lookup_insert_eq. by eexists. }
  simpl limits. rewrite (fr_limits _ _ _ _ Hf). destruct (build_preview _ _ _ _) as [text tr] eqn:Hb.
  cbn [is_ok drop_writer]. split_and!; try done.
  - apply set_entry_framed, set_files_framed; [|by apply set_entry_framed]. intros p' Hp'. simpl. by rewrite lookup_insert_ne.
  - simpl. by rewrite lookup_insert_eq.
  - eexists. split; [simpl; by rewrite lookup_insert_eq|done].
Qed.

(** The chunks of a stream that runs to its end without an interruption. *)
Fixpoint stream_chunks (events : list StreamEvent) : option (list (list Z)) :=
  match events with
  | [] => Some []
  | StreamChunk c false false _ :: events' =>
    match stream_chunks events' with Some cs => Some (c :: cs) | None => None end
  | _ => None
  end.

Definition removable (events : list StreamEvent) : Prop :=
  Forall (fun ev => match ev with StreamChunk _ _ _ io => fails io FsRemove = false | _ => True end) events.

Lemma raw_loop_spec io id fmt media mode outfile s0 p events content len sm s :
  fails io FsRemove = false -> removable events -> writing s0 id p content s ->
  match raw_loop io id fmt media mode outfile len sm events s with
  | (Ok (RawArtifactResult f m d sm'), s') => sm' = sm /\ f = fmt /\ m = media /\
      exists chunks, stream_chunks events = Some chunks /\ delivered s0 id p (content ++ concat chunks) d mode s'
  | (Ok (RawServerOutfile _), s') => outfile = true /\ gone s0 id p s'
  | (Err _, s') => gone s0 id p s'
  end.
Proof.
  intros Hio. revert content len s. induction events as [|ev events IH]; intros content len s Hrm Hw.
  - simpl. destruct (outfile && _) eqn:Ho.
    + apply andb_true_iff in Ho as [-> _]. unfold abort, mbind, ST_bind.
      destruct (abort_held io _ _ _ _ Hio (writing_held _ _ _ _ _ Hw)) as (s' & -> & Hg). done.
    + unfold mbind, ST_bind. pose proof (finish_spec io s0 id p content mode s Hio Hw) as Hfin.
      destruct (finish io id mode s) as [[d|e] s']; [|done]. simpl. split_and!; [done..|].
      exists []. split; [done|]. by rewrite app_nil_r.
  - apply Forall_cons in Hrm as [Hev Hrm].
    assert (Hleave : forall s1, held s0 id p s1 \/ gone s0 id p s1 -> gone s0 id p (drop_writer io id false s1))
      by (intros; by apply drop_writer_gone).
    destruct ev as [|e|chunk before after wio]; cbn [raw_loop].
    + apply Hleave. left. by eapply writing_held.
    + apply Hleave. left. by eapply writing_held.
    + destruct before; [apply Hleave; left; by eapply writing_held|].
      pose proof (write_chunk_spec wio s0 id p content chunk s Hev Hw) as Hc.
      destruct (write_chunk wio id chunk s) as [[u|e] s1]; [|by apply Hleave].
      destruct after; [apply Hleave; left; by eapply writing_held|].
      specialize (IH (content ++ chunk) (saturating_add U64_MAX len (Z.of_nat (length chunk))) s1 Hrm Hc).
      destruct (raw_loop _ _ _ _ _ _ _ _ events s1) as [[[f m d sm'|sm']|e] s']; [|done..].
      destruct IH as (-> & -> & -> & cs & Hcs & Hd). split_and!; [done..|].
      exists (chunk :: cs). simpl. rewrite Hcs, app_assoc. done.
Qed.

(** ** Theorems *)

(** A raw execution on a freshly started artifact: the whole result, or nothing. *)
Lemma execute_raw_spec io id directives canceled opened s o :
  let p := path_join (root s) id in
  fails io FsRemove = false ->
  (forall events sm, opened = Ok (events, sm) -> removable events) ->
  poisoned_table s = false -> (0 <= max_bytes (limits s))%Z -> files s !! p = Some [] ->
  entries s !! id = Some (mkRawArtifactRecord o (mkRawArtifactEntry p (Some []) 0 [] false)) ->
  match execute_raw_with io id directives canceled opened s with
  | (Ok (RawArtifactResult f m d sm), s') =>
      exists events chunks, opened = Ok (events, sm) /\ stream_chunks events = Some chunks /\
        delivered s id p (concat chunks) d (format_presentation f).2 s'
  | (Ok (RawServerOutfile _), s') => into_outfile directives = true /\ gone s id p s'
  | (Err _, s') => gone s id p s'
  end.
Proof.
  intros p Hio Hrm Hlock Hmax Hfile He.
  assert (Hw : writing s id p [] s).
  { split; [by split|]. split; [by eexists|]. split; [done|]. exists o. by rewrite firstn_nil. }
  assert (Hleave : gone s id p (drop_writer io id false s))
    by (apply drop_writer_gone; [done|left; by eapply writing_held]).
  unfold execute_raw_with. destruct canceled as [c1 c2]. cbn [fst snd]. destruct c1; [done|].
  set (fmt := match format directives with Some f => f | None => DEFAULT_RAW_FORMAT end).
  destruct (format_presentation fmt) as [media mode] eqn:Hfp.
  destruct opened as [[events sm]|e]; [|done]. destruct c2; [done|].
  pose proof (raw_loop_spec io id fmt media mode (into_outfile directives) s p events [] 0 sm s Hio (Hrm _ _ eq_refl) Hw) as H.
  destruct (raw_loop _ _ _ _ _ _ _ _ _ _) as [[[f m d sm'|sm']|e] s']; [|done..].
  destruct H as (-> & -> & -> & chunks & Hc & Hd). exists events, chunks. rewrite Hfp. done.
Qed.

(** A text preview is text of the result: the preview's encoding is a prefix of the
    bytes it was made from, cut only at the end and never inside a character, or, when
    those bytes are not text, the preview shows them in hexadecimal; and it is marked
    truncated exactly when it does not show the whole result. *)
Theorem preview_is_prefix bytes len l :
  Forall is_byte_value bytes -> (Z.of_nat (length bytes) <= len)%Z ->
  let (text, truncated) := build_preview bytes len Text l in
  (exists rest, bytes = as_bytes text ++ rest /\
     (truncated = false <-> (Z.of_nat (length (as_bytes text)) = len)%Z)) \/
  (text, truncated) = build_hex_preview bytes len (binary_preview_bytes l).
Proof.
  intros Hb Hlen. unfold build_preview.
  set (tb := take (Nat.min (length bytes) (preview_bytes l)) bytes).
  assert (Hsplit : exists rest, bytes = tb ++ rest) by (eexists; symmetry; apply take_drop).
  assert (Htl : length tb <= length bytes) by (unfold tb; rewrite length_take; lia).
  destruct Hsplit as [rest Hrest].
  assert (Htb : Forall is_byte_value tb) by (by apply Forall_take).
  pose proof (from_utf8_loop_spec (length tb) tb [] 0 Htb ltac:(lia)) as H. fold (from_utf8 tb) in H.
  destruct (from_utf8 tb) as [t|t n inv] eqn:E.
  - left. exists rest. simpl in H. rewrite H. split; [done|]. rewrite Z.ltb_ge. lia.
  - destruct inv; [by right|]. left. destruct H as (v & r & Hv & Hne & Ht & Hn). simpl in Ht. exists (r ++ rest).
    rewrite Ht, app_assoc, <-Hv. split; [done|]. split; [done|]. intros Heq. exfalso. apply Hne.
    apply length_zero_iff_nil. apply (f_equal length) in Hv. rewrite length_app in Hv. lia.
Qed.

(** ** The table *)

(** What holds of every artifact of the table. *)
Record entry_ok (s : RawArtifactStore) (id : str) (r : RawArtifactRecord) : Prop := {
  eo_path : path (entry r) = path_join (root s) id;
  eo_length : (0 <= byte_length (entry r) <= max_bytes (limits s))%Z;
  eo_preview : length (preview (entry r)) <= preview_limit (limits s);
  eo_completed : completed (entry r) = true -> writer (entry r) = None;
  eo_writer w : writer (entry r) = Some w -> byte_length (entry r) = Z.of_nat (length w);
}.

Definition store_ok (s : RawArtifactStore) : Prop :=
  forall id r, entries s !! id = Some r -> entry_ok s id r.

Lemma entry_ok_ext s s' id r : root s' = root s -> limits s' = limits s -> entry_ok s id r -> entry_ok s' id r.
Proof. intros H1 H2 [A B C D E]. split; rewrite ?H1, ?H2; done. Qed.

(** Removing entries, changing files and replacing one entry keep [store_ok]. *)
Lemma store_ok_submap s m f :
  store_ok s -> (forall id r, m !! id = Some r -> entries s !! id = Some r) ->
  store_ok (set_files f (set_entries m s)).
Proof. intros Hs Hm id r Hr. simpl in Hr. by eapply entry_ok_ext, Hs, Hm. Qed.

Lemma store_ok_files s f : store_ok s -> store_ok (set_files f s).
Proof. intros Hs id r Hr. by eapply entry_ok_ext, Hs. Qed.

Lemma store_ok_entries s m :
  store_ok s -> (forall id r, m !! id = Some r -> entries s !! id = Some r) -> store_ok (set_entries m s).
Proof. intros Hs Hm id r Hr. simpl in Hr. by eapply entry_ok_ext, Hs, Hm. Qed.

Lemma store_ok_set_entry s id e r :
  store_ok s -> entry_ok s id (mkRawArtifactRecord (owner r) e) -> store_ok (set_entry id e r s).
Proof.
  intros Hs He id' r'. simpl. rewrite lookup_insert. case_decide as Hid.
  - intros [= <-]. subst. by eapply entry_ok_ext, He.
  - intros Hr'. by eapply entry_ok_ext, Hs.
Qed.

#[local] Hint Resolve store_ok_files : nexus.

Lemma remove_record_ok io r s : store_ok s -> store_ok (remove_record_file io r s).2.
Proof. intros Hs. unfold remove_record_file. repeat case_match; simpl; auto with nexus. Qed.

Lemma delete_submap s id id' (r : RawArtifactRecord) : delete id (entries s) !! id' = Some r -> entries s !! id' = Some r.
Proof. rewrite lookup_delete. by case_decide. Qed.

Lemma abort_artifact_ok io id s : store_ok s -> store_ok (abort_artifact io id s).2.
Proof.
  intros Hs. unfold abort_artifact. destruct (poisoned_table s); [done|].
  assert (Hd : store_ok (set_entries (delete id (entries s)) s))
    by (apply store_ok_entries; [done|intros; by eapply delete_submap]).
  destruct (entries s !! id); [by apply remove_record_ok|done].
Qed.

Lemma start_attempts_ok io o uuids n s :
  (0 <= max_bytes (limits s))%Z -> store_ok s -> store_ok (start_attempts io o uuids n s).2.
Proof.
  revert uuids s. induction n as [|n IH]; intros uuids s Hm Hs; [by destruct uuids|].
  destruct uuids as [|u uuids]; [done|]. cbn [start_attempts].
  destruct (files s !! _); [by apply IH|]. destruct (fails io FsOpen); [done|].
  destruct (poisoned_table _); [simpl; auto with nexus|].
  destruct (entries (set_files _ s) !! u) eqn:Hu.
  { apply IH; [by destruct (fails io FsRemove)|]. destruct (fails io FsRemove); auto with nexus. }
  simpl. intros id r. simpl. rewrite lookup_insert. case_decide as Hid.
  - intros [= <-]. subst. split; simpl; try done; try lia. by intros w [= <-].
  - intros Hr. by eapply entry_ok_ext, Hs.
Qed.

Lemma write_chunk_ok io id chunk s : store_ok s -> store_ok (write_chunk io id chunk s).2.
Proof.
  intros Hs. unfold write_chunk, record. destruct (poisoned_table s); [done|].
  destruct (entries s !! id) as [r|] eqn:Hr; [|done]. simpl. pose proof (Hs _ _ Hr) as [A B C D E].
  destruct (completed (entry r)) eqn:Hc; [done|].
  destruct (checked_add_u64 _ _) as [next|] eqn:Hn; [|done].
  assert (next = byte_length (entry r) + Z.of_nat (length chunk))%Z as ->.
  { unfold checked_add_u64 in Hn. case_match; [by injection Hn|done]. }
  destruct (Z.ltb_spec (max_bytes (limits s)) (byte_length (entry r) + Z.of_nat (length chunk))) as [|Hle].
  { pose proof (abort_artifact_ok io id s Hs). by destruct (abort_artifact io id s) as [[?|?] ?]. }
  set (kept := if _ <? _ then _ else _).
  assert (length kept <= preview_limit (limits s)).
  { unfold kept. destruct (Nat.ltb_spec (length (preview (entry r))) (preview_limit (limits s))); [|done].
    rewrite length_app, length_take. lia. }
  destruct (writer (entry r)) as [w|] eqn:Hw; [destruct (fails io FsWrite)|];
    (apply store_ok_set_entry; [done|]; split; simpl; try done; try lia; auto).
  intros w' [= <-]. rewrite length_app, (E w eq_refl). lia.
Qed.

Lemma finish_body_ok io id mode s : store_ok s -> store_ok (finish_body io id mode s).2.
Proof.
  intros Hs. unfold finish_body, record. destruct (poisoned_table s); [done|].
  destruct (entries s !! id) as [r|] eqn:Hr; [|done]. simpl. pose proof (Hs _ _ Hr) as [A B C D E].
  destruct (writer (entry r)) as [w|] eqn:Hw; [|done].
  assert (Ht : store_ok (set_entry id (mkRawArtifactEntry (path (entry r)) None (byte_length (entry r))
    (preview (entry r)) (completed (entry r))) r s)) by (by apply store_ok_set_entry).
  destruct (fails io FsFlush); [done|]. destruct (fails io FsSync); [by apply store_ok_files|].
  destruct (build_preview _ _ _ _). apply store_ok_set_entry; [by apply store_ok_files|]. by split.
Qed.

Lemma finish_ok io id mode s : store_ok s -> store_ok (finish io id mode s).2.
Proof.
  intros Hs. pose proof (finish_body_ok io id mode s Hs). unfold finish. destruct (finish_body io id mode s) as [r s1].
  simpl in *. unfold drop_writer. destruct (is_ok r); [done|]. by apply abort_artifact_ok.
Qed.

Lemma abort_ok io id s : store_ok s -> store_ok (abort io id s).2.
Proof.
  intros Hs. pose proof (abort_artifact_ok io id s Hs) as H. unfold abort.
  destruct (abort_artifact io id s) as [r s1]. simpl in *. unfold drop_writer.
  destruct (is_ok r); [done|]. by apply abort_artifact_ok.
Qed.

Lemma remove_files_ok io rs e s : store_ok s -> store_ok (remove_files io rs e s).2.
Proof.
  revert e s. induction rs as [|r rs IH]; intros e s Hs; [done|]. cbn [remove_files].
  pose proof (remove_record_ok io r s Hs). destruct (remove_record_file io r s) as [[?|?] s1]; by apply IH.
Qed.

Lemma release_ok io m s : store_ok s -> store_ok (release_matching io m s).2.
Proof.
  intros Hs. unfold release_matching. destruct (poisoned_table s); [done|]. apply remove_files_ok, store_ok_entries; [done|].
  intros id r [H _]%map_lookup_filter_Some. done.
Qed.

Lemma save_ok `{FileSystem} io o id dest s : store_ok s -> store_ok (save_completed io o id dest s).2.
Proof.
  intros Hs. unfold save_completed, record. destruct (poisoned_table s); [done|].
  destruct (entries s !! id) as [r|]; [|done]. simpl. repeat case_match; simplify_eq; simpl; auto with nexus.
Qed.

(** *** Any sequence of operations *)

Inductive StoreOp :=
| OpStart (o : RawArtifactOwner) (uuids : list str)
| OpWrite (id : str) (chunk : list Z)
| OpFinish (id : str) (mode : RawArtifactPreviewMode)
| OpAbort (id : str)
| OpDrop (id : str) (finished : bool)
| OpRelease (matches : RawArtifactOwner -> bool)
| OpSave (o : RawArtifactOwner) (id : str) (destination : Path).

Definition store_step `{FileSystem} (io : Faults) (op : StoreOp) (s : RawArtifactStore) : RawArtifactStore :=
  match op with
  | OpStart o uuids => (start io o uuids s).2
  | OpWrite id chunk => (write_chunk io id chunk s).2
  | OpFinish id mode => (finish io id mode s).2
  | OpAbort id => (abort io id s).2
  | OpDrop id finished => drop_writer io id finished s
  | OpRelease matches => (release_matching io matches s).2
  | OpSave o id destination => (save_completed io o id destination s).2
  end.

(** [RawArtifactStore::new], over the files that are there. *)
Definition new (base : Path) (l : RawArtifactLimits) (present : gmap Path (list Z)) : RawArtifactStore :=
  mkRawArtifactStore base l false ∅ present.

Definition run_ops `{FileSystem} (ops : list (Faults * StoreOp)) (s : RawArtifactStore) : RawArtifactStore :=
  fold_left (fun s fo => store_step fo.1 fo.2 s) ops s.

(** The root and the limits never change. *)
Definition same_config (s s' : RawArtifactStore) : Prop := root s' = root s /\ limits s' = limits s.

#[export] Instance same_config_preorder : PreOrder same_config.
Proof. split; [by split|]. intros s1 s2 s3 [] []. split; congruence. Qed.

Lemma remove_record_config io r s : same_config s (remove_record_file io r s).2.
Proof. unfold remove_record_file. by repeat case_match. Qed.

Lemma abort_artifact_config io id s : same_config s (abort_artifact io id s).2.
Proof.
  unfold abort_artifact. destruct (poisoned_table s); [done|]. destruct (entries s !! id) as [r|]; [|done].
  by apply (remove_record_config io r (set_entries (delete id (entries s)) s)).
Qed.

Lemma drop_writer_config io id b s : same_config s (drop_writer io id b s).
Proof. destruct b; [done|]. apply abort_artifact_config. Qed.

Lemma start_attempts_config io o uuids n s : same_config s (start_attempts io o uuids n s).2.
Proof.
  revert uuids s. induction n as [|n IH]; intros [|u uuids] s; [done..|]. cbn [start_attempts].
  destruct (files s !! _); [apply IH|]. destruct (fails io FsOpen); [done|]. destruct (poisoned_table _); [done|].
  destruct (entries _ !! u); [|done]. destruct (fails io FsRemove); (etrans; [|apply IH]; done).
Qed.

Lemma remove_files_config io rs e s : same_config s (remove_files io rs e s).2.
Proof.
  revert e s. induction rs as [|r rs IH]; intros e s; [done|]. cbn [remove_files].
  pose proof (remove_record_config io r s). destruct (remove_record_file io r s) as [[?|?] s1]; (etrans; [done|]; apply IH).
Qed.

Lemma finish_body_config io id mode s : same_config s (finish_body io id mode s).2.
Proof. unfold finish_body, record. by repeat case_match; simplify_eq. Qed.

Lemma store_step_config `{FileSystem} io op s : same_config s (store_step io op s).
Proof.
  destruct op; cbn [store_step].
  - unfold start, check. destruct (fails _ _); [done|]. apply start_attempts_config.
  - unfold write_chunk, record. pose proof (abort_artifact_config io id s) as Ha.
    destruct (poisoned_table s); [done|]. destruct (entries s !! id) as [r|]; [|done]. cbn [ok_or].
    destruct (abort_artifact io id s) as [[?|?] ?]; by repeat case_match.
  - unfold finish. pose proof (finish_body_config io id mode s). destruct (finish_body io id mode s).
    etrans; [done|]. apply drop_writer_config.
  - unfold abort. pose proof (abort_artifact_config io id s). destruct (abort_artifact io id s).
    etrans; [done|]. apply drop_writer_config.
  - apply drop_writer_config.
  - unfold release_matching. destruct (poisoned_table s); [done|]. etrans; [|apply remove_files_config]. done.
  - unfold save_completed, record. by repeat case_match; simplify_eq.
Qed.

Lemma store_step_ok `{FileSystem} io op s :
  (0 <= max_bytes (limits s))%Z -> store_ok s -> store_ok (store_step io op s).
Proof.
  intros Hm Hs. destruct op; cbn [store_step].
  - unfold start, check. destruct (fails _ _); [done|]. by apply start_attempts_ok.
  - by apply write_chunk_ok.
  - by apply finish_ok.
  - by apply abort_ok.
  - destruct finished; [done|]. by apply abort_artifact_ok.
  - by apply release_ok.
  - by apply save_ok.
Qed.

Lemma run_ops_ok `{FileSystem} ops s :
  (0 <= max_bytes (limits s))%Z -> store_ok s ->
  store_ok (run_ops ops s) /\ same_config s (run_ops ops s).
Proof.
  revert s. induction ops as [|[io op] ops IH]; intros s Hm Hs; [done|]. cbn [run_ops fold_left fst snd].
  pose proof (store_step_config io op s) as Hc.
  destruct (IH (store_step io op s)) as [H1 H2]; [by rewrite (proj2 Hc)|by apply store_step_ok|].
  split; [done|]. by etrans.
Qed.

Lemma path_join_inj base a b : path_join base a = path_join base b -> a = b.
Proof. intros [= H]. by apply app_inj_tail in H as [_ ?]. Qed.

(** Two artifacts never share a file. *)
Lemma paths_distinct s id id' r r' :
  store_ok s -> entries s !! id = Some r -> entries s !! id' = Some r' -> id' <> id ->
  path (entry r') <> path (entry r).
Proof.
  intros Hs Hr Hr' Hne. rewrite (eo_path _ _ _ (Hs _ _ Hr)), (eo_path _ _ _ (Hs _ _ Hr')).
  intros ->%path_join_inj. done.
Qed.

(** The record [r] and the content [c] of an artifact are gone from the table or as they were. *)
Definition released_or_kept (id : str) (r : RawArtifactRecord) (c : list Z) (s : RawArtifactStore) : Prop :=
  entries s !! id = None \/ (entries s !! id = Some r /\ files s !! path (entry r) = Some c).

Lemma set_other_kept id id' e r' r c s :
  id' <> id -> released_or_kept id r c s -> released_or_kept id r c (set_entry id' e r' s).
Proof. intros Hne [H|[H1 H2]]; [left|right; split; [|done]]; simpl; by rewrite lookup_insert_ne. Qed.

Lemma set_file_kept id r c s f :
  (forall x, files s !! path (entry r) = Some x -> f !! path (entry r) = Some x) ->
  released_or_kept id r c s -> released_or_kept id r c (set_files f s).
Proof. intros Hf [H|[H1 H2]]; [by left|right]. split; [done|]. by apply Hf. Qed.

Lemma remove_other_kept io r' id r c s :
  path (entry r') <> path (entry r) -> released_or_kept id r c s ->
  released_or_kept id r c (remove_record_file io r' s).2.
Proof.
  intros Hp Hk. unfold remove_record_file. destruct (files s !! _); [|done]. destruct (fails io FsRemove); [done|].
  apply set_file_kept; [|done]. intros x Hx. by rewrite lookup_delete_ne.
Qed.

Section completed.
Context (s : RawArtifactStore) (id : str) (r : RawArtifactRecord) (c : list Z).
Context (Hs : store_ok s) (Hr : entries s !! id = Some r) (Hdone : completed (entry r) = true).
Context (Hc : files s !! path (entry r) = Some c).

Lemma kept_now : released_or_kept id r c s.
Proof using Hr Hc. by right. Qed.

Lemma abort_artifact_kept io id' : released_or_kept id r c (abort_artifact io id' s).2.
Proof using Hs Hr Hc.
  unfold abort_artifact. destruct (poisoned_table s); [apply kept_now|].
  destruct (decide (id' = id)) as [->|Hne].
  { rewrite Hr. left. unfold remove_record_file. repeat case_match; simpl; by rewrite lookup_delete_eq. }
  assert (Hk : released_or_kept id r c (set_entries (delete id' (entries s)) s))
    by (right; simpl; by rewrite lookup_delete_ne).
  destruct (entries s !! id') as [r'|] eqn:Hr'; [|done].
  apply remove_other_kept; [|done]. by eapply paths_distinct.
Qed.

Lemma start_attempts_kept io o uuids n s' :
  entries s' = entries s -> (forall p, is_Some (files s !! p) -> files s' !! p = files s !! p) ->
  released_or_kept id r c (start_attempts io o uuids n s').2.
Proof using Hr Hc.
  revert uuids s'. induction n as [|n IH]; intros [|u uuids] s' He Hf;
    try (right; simpl; rewrite He; split; [done|]; rewrite Hf; by eauto).
  cbn [start_attempts].
  assert (Hk : released_or_kept id r c s') by (right; rewrite He; split; [done|]; rewrite Hf; by eauto).
  set (p := path_join (root s') u). destruct (files s' !! p) eqn:Hp; [by apply IH|].
  destruct (fails io FsOpen); [done|].
  assert (Hnew : forall q, is_Some (files s !! q) -> q <> p).
  { intros q Hq ->. rewrite (Hf p Hq) in Hp. destruct Hq; congruence. }
  assert (Hopen : forall q, is_Some (files s !! q) -> files (set_files (<[p:=[]]> (files s')) s') !! q = files s !! q).
  { intros q Hq. simpl. rewrite lookup_insert_ne; [by apply Hf|]. intros <-. by eapply Hnew. }
  destruct (poisoned_table _).
  { right. split; [simpl; by rewrite He|]. cbn [snd]. rewrite Hopen by eauto. done. }
  destruct (entries (set_files _ s') !! u) as [r'|] eqn:Hu.
  { destruct (fails io FsRemove); apply IH; try done. intros q Hq. simpl. rewrite lookup_delete_ne by (intros <-; by eapply Hnew).
    by apply Hopen. }
  right. simpl in *. rewrite lookup_insert_ne by congruence. rewrite He. split; [done|].
  rewrite lookup_insert_ne; [|intros Heq; by eapply Hnew; eauto]. rewrite Hf by eauto. done.
Qed.

Lemma write_chunk_kept io id' chunk : released_or_kept id r c (write_chunk io id' chunk s).2.
Proof using Hs Hr Hc Hdone.
  unfold write_chunk, record. destruct (poisoned_table s); [apply kept_now|].
  destruct (decide (id' = id)) as [->|Hne]; [rewrite Hr; simpl; rewrite Hdone; apply kept_now|].
  destruct (entries s !! id') as [r'|] eqn:Hr'; [|apply kept_now]. cbn [ok_or].
  destruct (completed (entry r')); [apply kept_now|]. destruct (checked_add_u64 _ _); [|apply kept_now].
  pose proof (abort_artifact_kept io id') as Ha. destruct (abort_artifact io id' s) as [[?|?] ?].
  all: repeat case_match; try done; apply set_other_kept, kept_now; done.
Qed.

Lemma finish_body_kept io id' mode : released_or_kept id r c (finish_body io id' mode s).2.
Proof using Hs Hr Hc Hdone.
  unfold finish_body, record. destruct (poisoned_table s); [apply kept_now|].
  destruct (entries s !! id') as [r'|] eqn:Hr'; [|apply kept_now]. cbn [ok_or].
  destruct (writer (entry r')) as [w|] eqn:Hw; [|apply kept_now].
  assert (Hne : id' <> id).
  { intros ->. pose proof (eo_completed _ _ _ (Hs _ _ Hr) Hdone). congruence. }
  pose proof (paths_distinct _ _ _ _ _ Hs Hr Hr' Hne) as Hp.
  destruct (fails io FsFlush); [by apply set_other_kept, kept_now|].
  assert (Hfk : forall s1, released_or_kept id r c s1 ->
    released_or_kept id r c (set_files (<[path (entry r') := w]> (files s1)) s1)).
  { intros s1. apply set_file_kept. intros x Hx. by rewrite lookup_insert_ne. }
  destruct (fails io FsSync); [by apply Hfk, set_other_kept, kept_now|].
  destruct (build_preview _ _ _ _). by apply set_other_kept, Hfk, set_other_kept, kept_now.
Qed.

Lemma remove_files_kept io rs e s' :
  Forall (fun r' => path (entry r') <> path (entry r)) rs -> released_or_kept id r c s' ->
  released_or_kept id r c (remove_files io rs e s').2.
Proof using Type.
  revert e s'. induction rs as [|r' rs IH]; intros e s' HF Hk; [done|]. cbn [remove_files].
  apply Forall_cons in HF as [Hp HF]. pose proof (remove_other_kept io r' id r c s' Hp Hk).
  destruct (remove_record_file io r' s') as [[?|?] s1]; by apply IH.
Qed.
End completed.

Lemma drop_writer_kept io id id' b r c s :
  store_ok s -> released_or_kept id r c s -> released_or_kept id r c (drop_writer io id' b s).
Proof.
  intros Hs Hk. destruct b; [done|]. destruct Hk as [Hn|[Hr Hc]]; [|by apply abort_artifact_kept]. left.
  unfold drop_writer, abort_artifact. destruct (poisoned_table s); [done|].
  assert (Hd : delete id' (entries s) !! id = None) by (rewrite lookup_delete; by case_decide).
  destruct (entries s !! id'); [|done]. unfold remove_record_file. by repeat case_match.
Qed.

(** Removing files leaves the table as it is. *)
Lemma remove_files_entries io rs e s : entries (remove_files io rs e s).2 = entries s.
Proof.
  revert e s. induction rs as [|r rs IH]; intros e s; [done|]. cbn [remove_files].
  assert (Hr : entries (remove_record_file io r s).2 = entries s)
    by (unfold remove_record_file; by repeat case_match).
  destruct (remove_record_file io r s) as [[?|?] s1]; by rewrite IH.
Qed.

(** The records that a release removes. *)
Lemma released_records matches s r :
  r ∈ map snd (map_to_list (filter (fun kr : str * RawArtifactRecord => matches (owner kr.2) = true) (entries s))) <->
  exists id, entries s !! id = Some r /\ matches (owner r) = true.
Proof.
  rewrite list_elem_of_In, in_map_iff. split.
  - intros [[id r'] [<- Hin%list_elem_of_In]]. apply elem_of_map_to_list, map_lookup_filter_Some in Hin as [? ?]. by exists id.
  - intros (id & Hid & Hm). exists (id, r). split; [done|]. apply list_elem_of_In, elem_of_map_to_list, map_lookup_filter_Some. done.
Qed.

(** What the store relies on of path resolution: the file of an artifact is found where
    it was created, under the resolved root (it is not a link to somewhere else). *)
Definition artifacts_resolve_in_place `{FileSystem} (s : RawArtifactStore) : Prop :=
  forall id r p, entries s !! id = Some r -> canonicalize (root s) = Some p ->
    canonicalize (path_join (root s) id) = Some (path_join p id).

Lemma list_prefix_app p q : list_prefix p (p ++ q) = true.
Proof. induction p as [|a p IH]; [done|]. simpl. rewrite IH. unfold str_eqb. by rewrite bool_decide_eq_true_2. Qed.

Lemma path_join_starts_with p n : path_starts_with (path_join p n) p = true.
Proof. unfold path_starts_with. simpl. rewrite list_prefix_app. by destruct (is_absolute p). Qed.

Lemma path_parent_join p n : path_parent (path_join p n) = Some p.
Proof. unfold path_parent. simpl. rewrite rev_app_distr. simpl. rewrite rev_involutive. by destruct p. Qed.

Lemma path_file_name_join p n m : path_file_name (path_join p n) = Some m -> m = n.
Proof. unfold path_file_name. simpl. rewrite last_snoc. case_match; congruence. Qed.

(** A destination that passes validation is no artifact's file. *)
Lemma validated_is_elsewhere `{FileSystem} s id r destination :
  artifacts_resolve_in_place s -> entries s !! id = Some r ->
  validate_destination (root s) destination = Ok tt -> destination <> path_join (root s) id.
Proof.
  intros Hres Hr Hv ->. revert Hv. unfold validate_destination. rewrite path_parent_join.
  destruct (path_file_name _) as [m|] eqn:Hn; [|by rewrite orb_true_r]. apply path_file_name_join in Hn as ->.
  destruct (is_absolute _); [|done]. cbn [negb orb ok_or mbind Result_bind].
  destruct (is_dir _); [|done]. cbn [negb].
  destruct (canonicalize (root s)) as [p|] eqn:Hp; [|done]. rewrite (Hres _ _ _ Hr Hp). simpl.
  destruct (exists_path _); simpl; by rewrite path_join_starts_with.
Qed.

(** A completed artifact never changes.  Whatever operation runs next (another
    artifact started, written, finished, aborted or dropped, any release, any save) and
    whichever file-system calls fail in it, the artifact is afterwards either released
    or still there with the same record and exactly the same bytes in its file. *)
Theorem completed_artifact_is_immutable `{FileSystem} io op s id r content :
  store_ok s -> artifacts_resolve_in_place s ->
  entries s !! id = Some r -> completed (entry r) = true -> files s !! path (entry r) = Some content ->
  released_or_kept id r content (store_step io op s).
Proof.
  intros Hs Hres Hr Hd Hc. assert (Hk : released_or_kept id r content s) by (by right).
  destruct op as [o uuids|id' chunk|id' mode|id'|id' fin|matches|o id' destination]; cbn [store_step].
  - unfold start, check. destruct (fails _ _); [done|]. by eapply start_attempts_kept.
  - by apply write_chunk_kept.
  - unfold finish. pose proof (finish_body_kept _ _ _ _ Hs Hr Hd Hc io id' mode).
    pose proof (finish_body_ok io id' mode s Hs). destruct (finish_body io id' mode s). by apply drop_writer_kept.
  - unfold abort. pose proof (abort_artifact_kept _ _ _ _ Hs Hr Hc io id').
    pose proof (abort_artifact_ok io id' s Hs). destruct (abort_artifact io id' s). by apply drop_writer_kept.
  - by apply drop_writer_kept.
  - unfold release_matching. destruct (poisoned_table s); [done|].
    destruct (matches (owner r)) eqn:Hm.
    + left. rewrite remove_files_entries. simpl. apply map_lookup_filter_None. right. intros r' Hr'.
      simpl. intros Hx. apply Hx. congruence.
    + apply remove_files_kept.
      * apply Forall_forall. intros r' (id' & Hr' & Hm')%released_records.
        eapply paths_distinct; [done..|]. intros ->. congruence.
      * right. simpl. split; [|done]. apply map_lookup_filter_Some. simpl. by rewrite Hm.
  - unfold save_completed, record. destruct (poisoned_table s); [done|].
    destruct (entries s !! id') as [r'|]; [|done]. cbn [ok_or].
    destruct (validate_destination (root s) destination) as [[]|] eqn:Hv; repeat case_match; try done.
    all: apply set_file_kept; [|done]; intros x Hx; rewrite lookup_insert_ne; [done|].
    all: rewrite (eo_path _ _ _ (Hs _ _ Hr)); by eapply validated_is_elsewhere.
Qed.

(** *** Releasing *)

(** Removing the files of some records, when files can be removed. *)
Lemma remove_files_exact io rs s :
  fails io FsRemove = false ->
  (remove_files io rs None s).1 = Ok tt /\
  (forall r, r ∈ rs -> files (remove_files io rs None s).2 !! path (entry r) = None) /\
  (forall p, (forall r, r ∈ rs -> path (entry r) <> p) -> files (remove_files io rs None s).2 !! p = files s !! p).
Proof.
  intros Hio. revert s. induction rs as [|r rs IH]; intros s; [split_and!; [done| |done]; by intros r ?%not_elem_of_nil|].
  cbn [remove_files].
  assert (Hr : exists f, remove_record_file io r s = (Ok tt, set_files f s) /\ f !! path (entry r) = None /\
    forall p, path (entry r) <> p -> f !! p = files s !! p).
  { unfold remove_record_file. rewrite Hio. destruct (files s !! _) eqn:Hp; [eexists|exists (files s)].
    - split; [done|]. rewrite lookup_delete_eq. split; [done|]. intros p Hne. by rewrite lookup_delete_ne.
    - split; [by destruct s|]. done. }
  destruct Hr as (f & -> & Hf & Hother). destruct (IH (set_files f s)) as (Hok & Hin & Hout).
  split_and!; [done| |].
  - intros r' [->|Hr']%elem_of_cons; [|by apply Hin].
    destruct (decide (Exists (fun r'' => path (entry r'') = path (entry r)) rs)) as [(r'' & Hr'' & <-)%Exists_exists|Hno];
      [by apply Hin|]. rewrite Hout; [done|]. intros r'' Hr'' Heq. apply Hno, Exists_exists. by exists r''.
  - intros p Hp. rewrite Hout by (intros; apply Hp; by right). apply Hother, Hp. by left.
Qed.

(** A release takes exactly the artifacts it names.  Every artifact whose owner
    matches leaves the table even when files cannot be removed, and no other does; with
    removable files the release succeeds, the files of those artifacts are gone and
    every other file is untouched.  Releasing an execution, a tab, a profile or
    everything is this with the matching owners. *)
Theorem release_is_exact io matches s :
  store_ok s -> poisoned_table s = false ->
  let taken id := exists r, entries s !! id = Some r /\ matches (owner r) = true in
  let after := release_matching io matches s in
  (forall id r, entries after.2 !! id = Some r <-> entries s !! id = Some r /\ matches (owner r) = false) /\
  (fails io FsRemove = false ->
     after.1 = Ok tt /\
     (forall id, taken id -> files after.2 !! path_join (root s) id = None) /\
     (forall p, (forall id, taken id -> path_join (root s) id <> p) -> files after.2 !! p = files s !! p)).
Proof.
  intros Hs Hlock taken after. unfold after, release_matching. rewrite Hlock.
  set (rs := map snd _). set (s1 := set_entries _ s). split.
  - intros id r. rewrite remove_files_entries. simpl. rewrite map_lookup_filter_Some. simpl.
    by rewrite not_true_iff_false.
  - intros Hio. destruct (remove_files_exact io rs s1 Hio) as (Hok & Hin & Hout). split_and!; [done| |].
    + intros id (r & Hr & Hm). rewrite <-(eo_path _ _ _ (Hs _ _ Hr)). apply Hin, released_records. by exists id.
    + intros p Hp. rewrite Hout; [done|]. intros r (id & Hr & Hm)%released_records.
      rewrite (eo_path _ _ _ (Hs _ _ Hr)). apply Hp. by exists r.
Qed.

(** *** Saving *)

(** Where a destination resolves to. *)
Definition resolved `{FileSystem} (destination : Path) : option Path :=
  if exists_path destination then canonicalize destination
  else match path_parent destination, path_file_name destination with
       | Some parent, Some name => option_map (fun p => path_join p name) (canonicalize parent)
       | _, _ => None
       end.

Lemma validated_destination `{FileSystem} base destination :
  validate_destination base destination = Ok tt ->
  is_absolute destination = true /\
  exists croot cdest, canonicalize base = Some croot /\ resolved destination = Some cdest /\
    path_starts_with cdest croot = false.
Proof.
  unfold validate_destination, resolved. destruct (is_absolute destination); [|done]. cbn [negb orb].
  destruct (path_file_name destination) as [n|]; [|done]. destruct (path_parent destination) as [parent|]; [|done].
  cbn [ok_or mbind Result_bind]. destruct (is_dir parent); [|done]. cbn [negb].
  destruct (canonicalize base) as [croot|]; [|done]. destruct (canonicalize parent) as [cparent|]; [|done].
  cbn [ok_or mbind Result_bind].
  intros Hv. split; [done|]. exists croot.
  destruct (exists_path destination); [destruct (canonicalize destination) as [d|]; [|done]|];
    simpl in Hv; (eexists; split; [done|]; split; [done|]; by destruct (path_starts_with _ _)).
Qed.

(** Saving hands out only finished results of their owner, whole and outside the
    store.  A save that succeeds was asked for by the owner of a completed artifact, for
    an absolute path outside the store's directory; the destination then holds exactly
    the artifact's bytes, and nothing else changed, the artifact's own file included.
    A save that fails leaves every file as it was, the destination included. *)
Theorem save_is_atomic `{FileSystem} io o id destination s :
  store_ok s -> artifacts_resolve_in_place s ->
  match save_completed io o id destination s with
  | (Ok _, s') => exists r content, entries s !! id = Some r /\ owner r = o /\ completed (entry r) = true /\
      files s !! path_join (root s) id = Some content /\
      is_absolute destination = true /\
      (exists croot cdest, canonicalize (root s) = Some croot /\ resolved destination = Some cdest /\
         path_starts_with cdest croot = false) /\
      (forall id', is_Some (entries s !! id') -> destination <> path_join (root s) id') /\
      s' = set_files (<[destination := content]> (files s)) s
  | (Err _, s') => s' = s
  end.
Proof.
  intros Hs Hres. unfold save_completed, record. destruct (poisoned_table s); [done|].
  destruct (entries s !! id) as [r|] eqn:Hr; [|done]. cbn [ok_or].
  case_bool_decide as Ho; [|done]. cbn [negb]. destruct (completed (entry r)) eqn:Hd; [|done].
  rewrite (eo_completed _ _ _ (Hs _ _ Hr) Hd). cbn [negb orb].
  destruct (validate_destination (root s) destination) as [[]|] eqn:Hv; [|done].
  destruct (path_parent destination); [|done].
  destruct (if fails io FsRead then None else _) as [content|] eqn:Hc; [|done].
  destruct (fails io FsTemp || _ || _ || _ || _); [done|].
  exists r, content. rewrite <-(eo_path _ _ _ (Hs _ _ Hr)). split_and!; try done.
  - by destruct (fails io FsRead).
  - by apply validated_destination in Hv as [].
  - by apply validated_destination in Hv as [].
  - intros id' [r' Hr']. by eapply validated_is_elsewhere.
Qed.

(** *** Starting *)

(** What a successful start leaves: a new empty artifact of the owner. *)
Lemma start_attempts_fresh io o uuids n s id s' :
  start_attempts io o uuids n s = (Ok id, s') ->
  exists f, (forall p, is_Some (files s !! p) -> f !! p = files s !! p) /\ f !! path_join (root s) id = Some [] /\
    id ∈ uuids /\ entries s !! id = None /\ files s !! path_join (root s) id = None /\ poisoned_table s = false /\
    s' = set_entries (<[id := mkRawArtifactRecord o (mkRawArtifactEntry (path_join (root s) id) (Some []) 0 [] false)]>
           (entries s)) (set_files f s).
Proof.
  revert uuids s. induction n as [|n IH]; intros [|u uuids] s; [done..|]. cbn [start_attempts].
  set (p := path_join (root s) u). destruct (files s !! p) eqn:Hp.
  { intros (f & H1 & H2 & H3 & H4 & H5 & H6 & ->)%IH. exists f. split_and!; try done. by right. }
  destruct (fails io FsOpen); [done|]. destruct (poisoned_table _) eqn:Hlock; [done|].
  assert (Hnew : forall q, is_Some (files s !! q) -> q <> p) by (intros q Hq ->; rewrite Hp in Hq; by destruct Hq).
  destruct (entries _ !! u) eqn:Hu.
  - set (s1 := if fails io FsRemove then _ else _). intros H1.
    assert (exists f1, s1 = set_files f1 s /\ forall q, q <> p -> f1 !! q = files s !! q) as (f1 & Hs1 & Hf1).
    { unfold s1. destruct (fails io FsRemove); eexists; (split; [done|]); intros q Hq; simpl;
        rewrite ?lookup_delete_ne, ?lookup_insert_ne by done; done. }
    rewrite Hs1 in H1. apply IH in H1 as (f & H1 & H2 & H3 & H4 & H5 & H6 & ->). simpl in *.
    assert (Hid : path_join (root s) id <> p).
    { intros ->%path_join_inj. simpl in Hu. congruence. }
    exists f. split_and!; try done; [|by right|by rewrite <-Hf1].
    intros q Hq. rewrite H1; [by apply Hf1, Hnew|]. rewrite Hf1; [done|by apply Hnew].
  - intros [= <- <-]. exists (<[p:=[]]> (files s)). rewrite lookup_insert_eq. split_and!; try done; [|by left].
    intros q Hq. rewrite lookup_insert_ne; [done|]. intros <-. by eapply Hnew.
Qed.

(** C19: A raw execution delivers the whole result or leaves nothing behind.  A start
    gives the owner a new artifact whose file did not exist before.  The execution then
    runs on it; as long as files can be removed: when it returns an artifact, no chunk
    was lost or reordered, the file holds exactly the bytes of the stream, within the
    size limit, and the descriptor reports their number and their preview; on every
    other way out (cancellation before, during or after a chunk, connection error, size
    limit, failed write, flush or sync, or a result the server wrote itself) neither the
    artifact nor its file is left.  Every artifact and file that was there before the
    start is untouched. *)
Theorem raw_execution_delivers_or_cleans_up io uio o uuids directives canceled opened s id s1 :
  start uio o uuids s = (Ok id, s1) -> (0 <= max_bytes (limits s))%Z ->
  fails io FsRemove = false -> (forall events sm, opened = Ok (events, sm) -> removable events) ->
  let p := path_join (root s) id in
  let final := execute_raw_with io id directives canceled opened s1 in
  (entries s !! id = None /\ files s !! p = None /\ exists r, entries s1 !! id = Some r /\ owner r = o) /\
  (forall id' r, entries s !! id' = Some r -> entries final.2 !! id' = Some r) /\
  (forall q c, files s !! q = Some c -> files final.2 !! q = Some c) /\
  match final.1 with
  | Ok (RawArtifactResult f _ d sm) =>
      exists events chunks, opened = Ok (events, sm) /\ stream_chunks events = Some chunks /\
        delivered s1 id p (concat chunks) d (format_presentation f).2 final.2
  | Ok (RawServerOutfile _) => into_outfile directives = true /\ gone s1 id p final.2
  | Err _ => gone s1 id p final.2
  end.
Proof.
  intros Hstart Hmax Hio Hrm p final.
  unfold start, check in Hstart. destruct (fails uio FsCreateDir); [done|].
  apply start_attempts_fresh in Hstart as (f & Hf & Hp & _ & Hid & Hno & Hlock & Hs1).
  split. { split_and!; [done..|]. eexists. rewrite Hs1. simpl. rewrite lookup_insert_eq. done. }
  pose proof (execute_raw_spec io id directives canceled opened s1 o Hio Hrm) as H. cbv zeta in H.
  assert (Hroot : path_join (root s1) id = p) by (by rewrite Hs1). rewrite Hroot in H. fold final in H.
  specialize (H ltac:(by rewrite Hs1) ltac:(by rewrite Hs1) ltac:(by rewrite Hs1)).
  specialize (H ltac:(rewrite Hs1; simpl; by rewrite lookup_insert_eq)).
  assert (Hkeep : framed s1 id p final.2 ->
    (forall id' r, entries s !! id' = Some r -> entries final.2 !! id' = Some r) /\
    (forall q c, files s !! q = Some c -> files final.2 !! q = Some c)).
  { intros Hfr. split.
    - intros id' r Hr. assert (id' <> id) by congruence. rewrite (fr_entries _ _ _ _ Hfr) by done.
      rewrite Hs1. simpl. by rewrite lookup_insert_ne.
    - intros q c Hq. assert (q <> p) by (intros ->; unfold p in Hq; congruence). rewrite (fr_files _ _ _ _ Hfr) by done.
      rewrite Hs1. simpl. rewrite Hf; [done|by eexists]. }
  destruct final as [[[fm m d sm|sm]|e] s2]; cbn [fst snd] in *;
    [|by destruct H as [? H]; split_and!; try apply Hkeep, H|by split_and!; try apply Hkeep, H].
  destruct H as (ev & cs & ? & ? & H). destruct (Hkeep (proj1 H)). split_and!; [done..|]. by exists ev, cs.
Qed.

(** *** Everything together *)

(** The artifact table stays well formed.  After any sequence of operations on a
    new store, with any file-system calls failing along the way: the file of an artifact
    is named by its id under the root (so no two artifacts share one), its length is
    within the limit and counts the bytes given to its writer, its preview is within the
    preview limit, and a completed artifact has no writer. *)
Theorem artifact_table_invariant `{FileSystem} base l present ops :
  (0 <= max_bytes l)%Z ->
  let s := run_ops ops (new base l present) in
  root s = base /\ limits s = l /\ forall id r, entries s !! id = Some r -> entry_ok s id r.
Proof.
  intros Hm s. destruct (run_ops_ok ops (new base l present)) as [H1 [H2 H3]]; [done|by intros id r|].
  done.
Qed.

(** ** Witnesses *)

Section witnesses.
Definition demo_fs : FileSystem :=
  {| is_dir := fun _ => true; exists_path := fun _ => false; canonicalize := Some |}.
#[local] Existing Instance demo_fs.

Definition demo_owner : RawArtifactOwner := mkRawArtifactOwner (lit "p1") (lit "t1") (lit "e1").
Definition demo_root : Path := mkPath true [lit "tmp"; lit "np"].
Definition demo_store : RawArtifactStore := new demo_root (mkRawArtifactLimits 64 8 4) ∅.
Definition demo_file : Path := path_join demo_root (lit "a1").
Definition demo_directives : RawSqlDirectives := mkRawSqlDirectives (Some (lit "CSV")) false.
Definition demo_started : RawArtifactStore := (start [] demo_owner [lit "a1"] demo_store).2.
Definition demo_events : list StreamEvent :=
  [StreamChunk [104; 105]%Z false false []; StreamChunk [10]%Z false false []].
Definition demo_done : RawArtifactStore :=
  (execute_raw_with [] (lit "a1") demo_directives (false, false) (Ok (demo_events, None)) demo_started).2.
Definition demo_record : RawArtifactRecord :=
  mkRawArtifactRecord demo_owner (mkRawArtifactEntry demo_file None 3 [104; 105; 10]%Z true).

Lemma raw_execution_delivers_or_cleans_up_witness :
  files demo_done !! demo_file = Some [104; 105; 10]%Z /\
  match (execute_raw_with [] (lit "a1") demo_directives (false, false) (Ok (demo_events, None)) demo_started).1 with
  | Ok (RawArtifactResult f _ d sm) =>
      exists events chunks, Ok (E := IpcError) (demo_events, None) = Ok (events, sm) /\ stream_chunks events = Some chunks /\
        delivered demo_started (lit "a1") (path_join (root demo_store) (lit "a1")) (concat chunks) d
          (format_presentation f).2 demo_done
  | Ok (RawServerOutfile _) => into_outfile demo_directives = true /\
      gone demo_started (lit "a1") (path_join (root demo_store) (lit "a1")) demo_done
  | Err _ => gone demo_started (lit "a1") (path_join (root demo_store) (lit "a1")) demo_done
  end.
Proof.
  split; [vm_compute; reflexivity|].
  refine (proj2 (proj2 (proj2 (raw_execution_delivers_or_cleans_up [] [] demo_owner [lit "a1"] demo_directives
    (false, false) (Ok (demo_events, None)) demo_store (lit "a1") demo_started _ _ _ _)))).
  - vm_compute. reflexivity.
  - vm_compute. discriminate.
  - reflexivity.
  - intros events sm [= <- <-]. repeat constructor.
Defined.

Lemma demo_store_ok : store_ok demo_done.
Proof.
  intros id r Hr.
  assert (He : entries demo_done = {[ lit "a1" := demo_record ]}) by (vm_compute; reflexivity).
  rewrite He in Hr. apply lookup_singleton_Some in Hr as [<- <-].
  split; [reflexivity|vm_compute; split; discriminate|vm_compute; lia|reflexivity|done].
Qed.

Lemma demo_resolves : artifacts_resolve_in_place demo_done.
Proof. intros id r p Hr Hp. injection Hp as <-. reflexivity. Qed.

Lemma completed_artifact_is_immutable_witness :
  released_or_kept (lit "a1") demo_record [104; 105; 10]%Z
    (store_step [FsRemove] (OpStart demo_owner [lit "a1"; lit "a2"]) demo_done).
Proof.
  apply (completed_artifact_is_immutable [FsRemove] _ demo_done (lit "a1") demo_record [104; 105; 10]%Z
    demo_store_ok demo_resolves); vm_compute; reflexivity.
Defined.

Lemma release_is_exact_witness :
  (release_matching [] (fun o => str_eqb (o_tab_id o) (lit "t1")) demo_done).1 = Ok tt.
Proof.
  refine (proj1 (proj2 (release_is_exact [] (fun o => str_eqb (o_tab_id o) (lit "t1")) demo_done demo_store_ok _) _));
    vm_compute; reflexivity.
Defined.

Lemma save_is_atomic_witness :
  match save_completed [] demo_owner (lit "a1") (mkPath true [lit "home"; lit "out.csv"]) demo_done with
  | (Ok _, s') => exists r content, entries demo_done !! lit "a1" = Some r /\ owner r = demo_owner /\
      completed (entry r) = true /\ files demo_done !! path_join (root demo_done) (lit "a1") = Some content /\
      is_absolute (mkPath true [lit "home"; lit "out.csv"]) = true /\
      (exists croot cdest, canonicalize (root demo_done) = Some croot /\
         resolved (mkPath true [lit "home"; lit "out.csv"]) = Some cdest /\
         path_starts_with cdest croot = false) /\
      (forall id', is_Some (entries demo_done !! id') ->
         mkPath true [lit "home"; lit "out.csv"] <> path_join (root demo_done) id') /\
      s' = set_files (<[mkPath true [lit "home"; lit "out.csv"] := content]> (files demo_done)) demo_done
  | (Err _, s') => s' = demo_done
  end.
Proof.
  exact (save_is_atomic [] demo_owner (lit "a1") (mkPath true [lit "home"; lit "out.csv"]) demo_done
    demo_store_ok demo_resolves).
Defined.

Lemma artifact_table_invariant_witness :
  let s := run_ops [([], OpStart demo_owner [lit "a1"]); ([FsWrite], OpWrite (lit "a1") [1]%Z);
                    ([], OpWrite (lit "a1") [1; 2]%Z)] (new demo_root (mkRawArtifactLimits 64 8 4) ∅) in
  root s = demo_root /\ limits s = mkRawArtifactLimits 64 8 4 /\
  forall id r, entries s !! id = Some r -> entry_ok s id r.
Proof. apply artifact_table_invariant. vm_compute. discriminate. Defined.

Lemma preview_is_prefix_witness :
  let (text, truncated) := build_preview [97; 226; 130]%Z 9 Text (mkRawArtifactLimits 64 8 4) in
  (exists rest, [97; 226; 130]%Z = as_bytes text ++ rest /\
     (truncated = false <-> (Z.of_nat (length (as_bytes text)) = 9)%Z)) \/
  (text, truncated) = build_hex_preview [97; 226; 130]%Z 9 4.
Proof.
  apply (preview_is_prefix [97; 226; 130]%Z 9 (mkRawArtifactLimits 64 8 4)).
  - repeat (apply Forall_cons_2; [unfold is_byte_value; lia|]). apply Forall_nil_2.
  - vm_compute. discriminate.
Defined.
End witnesses.
