(* ===== verification/RuntimeTables.v ===== *)
(** * Connection runtimes
    ([src-tauri/src/engine/manager.rs], [src-tauri/src/engine/runtime_health.rs])

    The manager keeps one shared runtime per profile and one runtime per tab, and for
    each a table of attempts to connect.  Connecting takes time: an attempt is entered,
    the driver is created, and only if the attempt is still the current one is the runtime
    put into its table.  Disconnecting cancels attempts, discards executions and
    artifacts, and removes and closes the runtimes.  All of these run concurrently.

    An operation is a task with a state after each locked section; a step of the system
    runs one section of one task.  Nothing that runs under these locks can panic, so they
    are never poisoned. *)

From stdpp Require Import base gmap list strings fin_maps.
From Stdlib Require Import ZArith Lia.
From S2P Require Import Prelude Errors Types Coordinator Artifact.

(** ** Health *)

Inductive RuntimeHealthStatus := Healthy | Degraded | HealthError.

Record RuntimeHealthSnapshot := mkRuntimeHealthSnapshot {
  h_profile_id : str;
  h_status : RuntimeHealthStatus;
  consecutive_failures : Z;
  last_success_at_ms : option Z;
  last_failure_at_ms : option Z;
  last_error_code : option ErrorCode;
}.

Definition healthy (profile : str) (now_ms : Z) : RuntimeHealthSnapshot :=
  mkRuntimeHealthSnapshot profile Healthy 0 (Some now_ms) None None.

Definition record_success (now_ms : Z) (h : RuntimeHealthSnapshot) : RuntimeHealthSnapshot :=
  mkRuntimeHealthSnapshot (h_profile_id h) Healthy 0 (Some now_ms) (last_failure_at_ms h) None.

Definition record_failure (error : IpcError) (now_ms : Z) (h : RuntimeHealthSnapshot) : RuntimeHealthSnapshot :=
  let failed status :=
    mkRuntimeHealthSnapshot (h_profile_id h) status (saturating_add U32_MAX (consecutive_failures h) 1)
      (last_success_at_ms h) (Some now_ms) (Some (code error)) in
  match runtime_impact error with
  | BusinessOnly => h
  | Retryable => failed Degraded
  | Terminal => failed HealthError
  end.

(** ** State *)

(** [Arc<dyn DatabaseDriver>]: an identity, and the constant answers of the driver. *)
Record Driver := mkDriver {
  dr_id : nat;
  dr_profile_id : str;
  dr_name : str;
  dr_sql_execution : option SqlExecutionFeatures;
  dr_managed_executor : bool;
}.

Record TabRuntime := mkTabRuntime {
  tr_profile_id : str;
  tr_driver : Driver;
}.

(** The health of a runtime is shared behind an [Arc]: [pr_health] is its cell. *)
Record ProfileRuntime := mkProfileRuntime {
  pr_driver : Driver;
  pr_health : nat;
}.

(** [cancel] is the sending end of a watch channel. *)
Record RuntimeConnectAttempt := mkAttempt {
  at_id : Z;
  at_profile_id : str;
  at_cancel : nat;
}.

Section manager.
Context {J : JsonNumber}.

Record ConnectionRuntimeManager := mkManager {
  shared : gmap str ProfileRuntime;
  tabs : gmap str TabRuntime;
  shared_connect_attempts : gmap str RuntimeConnectAttempt;
  tab_connect_attempts : gmap str RuntimeConnectAttempt;
  next_connect_attempt_id : Z;
  cancel_channels : list bool;
  health_cells : list RuntimeHealthSnapshot;
  sql_executions : SqlExecutionCoordinator;
  raw_artifacts : RawArtifactStore;
}.

Definition with_raw_artifact_store (store : RawArtifactStore) : ConnectionRuntimeManager :=
  mkManager ∅ ∅ ∅ ∅ 1 [] [] Coordinator.new store.

Definition set_shared (x : gmap str ProfileRuntime) (m : ConnectionRuntimeManager) : ConnectionRuntimeManager :=
  mkManager x (tabs m) (shared_connect_attempts m) (tab_connect_attempts m) (next_connect_attempt_id m)
    (cancel_channels m) (health_cells m) (sql_executions m) (raw_artifacts m).
Definition set_tabs (x : gmap str TabRuntime) (m : ConnectionRuntimeManager) : ConnectionRuntimeManager :=
  mkManager (shared m) x (shared_connect_attempts m) (tab_connect_attempts m) (next_connect_attempt_id m)
    (cancel_channels m) (health_cells m) (sql_executions m) (raw_artifacts m).
Definition set_channels (x : list bool) (m : ConnectionRuntimeManager) : ConnectionRuntimeManager :=
  mkManager (shared m) (tabs m) (shared_connect_attempts m) (tab_connect_attempts m) (next_connect_attempt_id m)
    x (health_cells m) (sql_executions m) (raw_artifacts m).
Definition set_health_cells (x : list RuntimeHealthSnapshot) (m : ConnectionRuntimeManager) : ConnectionRuntimeManager :=
  mkManager (shared m) (tabs m) (shared_connect_attempts m) (tab_connect_attempts m) (next_connect_attempt_id m)
    (cancel_channels m) x (sql_executions m) (raw_artifacts m).
Definition set_sql_executions (x : SqlExecutionCoordinator) (m : ConnectionRuntimeManager) : ConnectionRuntimeManager :=
  mkManager (shared m) (tabs m) (shared_connect_attempts m) (tab_connect_attempts m) (next_connect_attempt_id m)
    (cancel_channels m) (health_cells m) x (raw_artifacts m).
Definition set_raw_artifacts (x : RawArtifactStore) (m : ConnectionRuntimeManager) : ConnectionRuntimeManager :=
  mkManager (shared m) (tabs m) (shared_connect_attempts m) (tab_connect_attempts m) (next_connect_attempt_id m)
    (cancel_channels m) (health_cells m) (sql_executions m) x.

(** The two tables of attempts: shared runtimes by profile, tab runtimes by tab. *)
Inductive Slot := SharedSlot | TabSlot.

Definition attempts (k : Slot) (m : ConnectionRuntimeManager) : gmap str RuntimeConnectAttempt :=
  match k with SharedSlot => shared_connect_attempts m | TabSlot => tab_connect_attempts m end.
Definition set_attempts (k : Slot) (x : gmap str RuntimeConnectAttempt) (m : ConnectionRuntimeManager)
  : ConnectionRuntimeManager :=
  match k with
  | SharedSlot =>
    mkManager (shared m) (tabs m) x (tab_connect_attempts m) (next_connect_attempt_id m) (cancel_channels m)
      (health_cells m) (sql_executions m) (raw_artifacts m)
  | TabSlot =>
    mkManager (shared m) (tabs m) (shared_connect_attempts m) x (next_connect_attempt_id m) (cancel_channels m)
      (health_cells m) (sql_executions m) (raw_artifacts m)
  end.

(** ** Attempts *)

(** [fetch_add] wraps around. *)
Definition fetch_attempt_id (m : ConnectionRuntimeManager) : Z * ConnectionRuntimeManager :=
  (next_connect_attempt_id m,
   mkManager (shared m) (tabs m) (shared_connect_attempts m) (tab_connect_attempts m)
     ((next_connect_attempt_id m + 1) mod (U64_MAX + 1))%Z (cancel_channels m) (health_cells m) (sql_executions m)
     (raw_artifacts m)).

(** [cancel.send_replace(true)]. *)
Definition signal (a : RuntimeConnectAttempt) (m : ConnectionRuntimeManager) : ConnectionRuntimeManager :=
  set_channels (<[at_cancel a := true]> (cancel_channels m)) m.

Definition begin_connect_attempt (k : Slot) (key profile : str) (m : ConnectionRuntimeManager)
  : (Z * nat) * ConnectionRuntimeManager :=
  let '(id, m) := fetch_attempt_id m in
  let receiver := length (cancel_channels m) in
  let m := set_channels (cancel_channels m ++ [false]) m in
  let replaced := attempts k m !! key in
  let m := set_attempts k (<[key := mkAttempt id profile receiver]> (attempts k m)) m in
  ((id, receiver), match replaced with Some a => signal a m | None => m end).

Definition begin_shared_connect_attempt (profile : str) := begin_connect_attempt SharedSlot profile profile.
Definition begin_tab_connect_attempt (profile tab : str) := begin_connect_attempt TabSlot tab profile.

Definition attempt_is_current (k : Slot) (key : str) (id : Z) (m : ConnectionRuntimeManager) : bool :=
  match attempts k m !! key with Some a => (at_id a =? id)%Z | None => false end.

Definition clear_connect_attempt_if_current (k : Slot) (key : str) (id : Z) (m : ConnectionRuntimeManager)
  : bool * ConnectionRuntimeManager :=
  if attempt_is_current k key id m then (true, set_attempts k (delete key (attempts k m)) m) else (false, m).

Definition clear_shared_connect_attempt_if_current := clear_connect_attempt_if_current SharedSlot.
Definition clear_tab_connect_attempt_if_current := clear_connect_attempt_if_current TabSlot.

Definition cancel_connect_attempt (k : Slot) (key : str) (m : ConnectionRuntimeManager)
  : bool * ConnectionRuntimeManager :=
  match attempts k m !! key with
  | Some a => (true, signal a (set_attempts k (delete key (attempts k m)) m))
  | None => (false, m)
  end.

Definition cancel_shared_connect_attempt := cancel_connect_attempt SharedSlot.
Definition cancel_tab_connect_attempt := cancel_connect_attempt TabSlot.

(** The iteration order of a [HashMap] is unspecified: it is a parameter. *)
Variable hash_iter : forall A, gmap str A -> list (str * A).

Definition cancel_tab_connect_attempts_for_profile (profile : str) (m : ConnectionRuntimeManager)
  : nat * ConnectionRuntimeManager :=
  let tab_ids := map fst (List.filter (fun e => str_eqb (at_profile_id e.2) profile)
                            (hash_iter _ (tab_connect_attempts m))) in
  (length tab_ids, fold_left (fun m tab => (cancel_tab_connect_attempt tab m).2) tab_ids m).

(** ** Registering *)

(** The block of [connect_profile] under both locks: the previous runtime when the
    attempt was still current. *)
Definition register_shared (profile : str) (id : Z) (driver : Driver) (now_ms : Z) (m : ConnectionRuntimeManager)
  : option (option ProfileRuntime) * ConnectionRuntimeManager :=
  let cell := length (health_cells m) in
  let m := set_health_cells (health_cells m ++ [healthy profile now_ms]) m in
  if attempt_is_current SharedSlot profile id m then
    let m := set_attempts SharedSlot (delete profile (shared_connect_attempts m)) m in
    (Some (shared m !! profile), set_shared (<[profile := mkProfileRuntime driver cell]> (shared m)) m)
  else (None, m).

(** The block of [open_tab_runtime]. *)
Definition register_tab (profile tab : str) (id : Z) (driver : Driver) (m : ConnectionRuntimeManager)
  : option (option TabRuntime) * ConnectionRuntimeManager :=
  if attempt_is_current TabSlot tab id m then
    let m := set_attempts TabSlot (delete tab (tab_connect_attempts m)) m in
    (Some (tabs m !! tab), set_tabs (<[tab := mkTabRuntime profile driver]> (tabs m)) m)
  else (None, m).

(** The runtimes [disconnect_profile] takes out of the tables. *)
Definition take_shared (profile : str) (m : ConnectionRuntimeManager) : option ProfileRuntime * ConnectionRuntimeManager :=
  (shared m !! profile, set_shared (delete profile (shared m)) m).

Definition take_tab (tab : str) (m : ConnectionRuntimeManager) : option TabRuntime * ConnectionRuntimeManager :=
  (tabs m !! tab, set_tabs (delete tab (tabs m)) m).

Fixpoint take_tab_list (tab_ids : list str) (m : ConnectionRuntimeManager) : list Driver * ConnectionRuntimeManager :=
  match tab_ids with
  | [] => ([], m)
  | tab :: tab_ids' =>
    let '(removed, m) := take_tab tab m in
    let '(rest, m) := take_tab_list tab_ids' m in
    (match removed with Some r => tr_driver r :: rest | None => rest end, m)
  end.

Definition take_tabs_of_profile (profile : str) (m : ConnectionRuntimeManager)
  : list Driver * ConnectionRuntimeManager :=
  take_tab_list (map fst (List.filter (fun e => str_eqb (tr_profile_id e.2) profile) (hash_iter _ (tabs m)))) m.

(** ** Looking runtimes up *)

Definition shared_runtime (profile : str) (m : ConnectionRuntimeManager) : IpcResult ProfileRuntime :=
  ok_or (resource_not_found (lit "No active runtime for profile '" ++ profile ++ lit "'. Connect first."))
    (shared m !! profile).

Definition shared_driver (profile : str) (m : ConnectionRuntimeManager) : IpcResult Driver :=
  r ← shared_runtime profile m; Ok (pr_driver r).

Definition driver_for_profile_or_tab (profile : str) (tab : option str) (m : ConnectionRuntimeManager)
  : IpcResult Driver :=
  match tab with
  | None => shared_driver profile m
  | Some tab =>
    runtime ← ok_or (resource_not_found
                 (lit "No active tab runtime '" ++ tab ++ lit "'. Open the tab runtime first.")) (tabs m !! tab);
    if negb (str_eqb (tr_profile_id runtime) profile) then
      Err (resource_not_found
        (lit "Tab runtime '" ++ tab ++ lit "' does not belong to profile '" ++ profile ++ lit "'"))
    else Ok (tr_driver runtime)
  end.

(** [runtime_snapshot]: the driver and the health of a shared runtime. *)
Definition runtime_snapshot (profile : str) (m : ConnectionRuntimeManager)
  : IpcResult (str * Driver * RuntimeHealthSnapshot) :=
  runtime ← ok_or (resource_not_found (lit "No active runtime for profile '" ++ profile ++ lit "'")) (shared m !! profile);
  health ← ok_or (system_internal (lit "no such health cell") []) (health_cells m !! pr_health runtime);
  Ok (profile, pr_driver runtime, health).

(** [ping]: the driver's answer is recorded in the health of its runtime. *)
Definition record_ping {A} (runtime : ProfileRuntime) (result : IpcResult A) (now_ms : Z) (m : ConnectionRuntimeManager)
  : ConnectionRuntimeManager :=
  match health_cells m !! pr_health runtime with
  | None => m
  | Some h =>
    set_health_cells (<[pr_health runtime :=
      match result with Ok _ => record_success now_ms h | Err e => record_failure e now_ms h end]> (health_cells m)) m
  end.

(** ** Tasks *)

(** What happened, newest first in a trace. *)
Inductive Event :=
| EvBegin (k : Slot) (key profile : str) (id : Z)
| EvCreated (d : Driver)
| EvClear (k : Slot) (key : str)
| EvCancel (k : Slot) (key : str)
| EvCancelTabsOf (profile : str)
| EvRegister (k : Slot) (key profile : str) (id : Z) (d : Driver)
| EvRemove (k : Slot) (key : str)
| EvRemoveTabsOf (profile : str)
| EvClosed (d : Driver) (ok : bool)
| EvDropped (d : Driver).

(** What a section depends on besides the manager: the clock and the file-system calls
    that fail, how the creation of a driver ends, that the cancellation was noticed, or
    how closing a driver ends. *)
Inductive Choice :=
| Go (now_ms : Z) (io : Faults)
| DriverCreated (d : Driver)
| DriverFailed (e : IpcError)
| CancelSeen
| CloseAnswered (r : IpcResult unit).

(** [connect_profile] and [open_tab_runtime], after each section. *)
Inductive ConnectState :=
| CsStart
| CsCreating (id : Z) (receiver : nat)
| CsGaveUp (id : Z) (error : IpcError)
| CsRegister (id : Z) (driver : Driver)
| CsCloseStale (stale : Driver)
| CsClosePrevious (previous driver : Driver)
| CsDone (result : IpcResult Driver).

Inductive DisconnectState :=
| DsStart
| DsTabAttempts (canceled_shared : bool)
| DsDiscard (canceled_shared : bool) (canceled_tabs : nat)
| DsRelease (canceled_shared : bool) (canceled_tabs : nat)
| DsShared (canceled_shared : bool) (canceled_tabs : nat)
| DsTabs (canceled_shared : bool) (canceled_tabs : nat) (removed : option Driver)
| DsClosing (drivers : list Driver)
| DsDone (result : IpcResult unit).

Inductive CloseTabState :=
| TsStart
| TsDiscard
| TsRelease
| TsRemove
| TsClosing (driver : Driver)
| TsDone (result : IpcResult unit).

Inductive Task :=
| ConnectTask (profile : str) (st : ConnectState)
| OpenTabTask (profile tab : str) (st : ConnectState)
| DisconnectTask (profile : str) (st : DisconnectState)
| CloseTabTask (tab : str) (st : CloseTabState).

Definition connect_canceled (k : Slot) (key : str) : IpcError :=
  match k with
  | SharedSlot => operation_canceled (lit "Connection attempt canceled")
                    (lit "Profile '" ++ key ++ lit "' was disconnected before runtime registration")
  | TabSlot => operation_canceled (lit "Tab runtime connection canceled")
                 (lit "Tab '" ++ key ++ lit "' was closed before runtime registration")
  end.

Definition connect_superseded (k : Slot) (key : str) : IpcError :=
  match k with
  | SharedSlot => operation_canceled (lit "Connection attempt canceled")
                    (lit "Profile '" ++ key ++ lit "' changed before runtime registration")
  | TabSlot => operation_canceled (lit "Tab runtime connection canceled")
                 (lit "Tab '" ++ key ++ lit "' changed before runtime registration")
  end.

Definition created_ids (tr : list Event) : list nat :=
  omap (fun e => match e with EvCreated d => Some (dr_id d) | _ => None end) tr.

(** One section of a task: its next state, the manager and what happened (newest
    first).  [None] when the task cannot take that step. *)
Definition connect_step (k : Slot) (key profile : str) (tr : list Event) (ch : Choice) (st : ConnectState)
    (m : ConnectionRuntimeManager) : option (ConnectState * ConnectionRuntimeManager * list Event) :=
  match st, ch with
  | CsStart, Go _ _ =>
    let '((id, receiver), m) := begin_connect_attempt k key profile m in
    Some (CsCreating id receiver, m, [EvBegin k key profile id])
  | CsCreating id _, DriverCreated d =>
    if bool_decide (dr_id d ∉ created_ids tr) && str_eqb (dr_profile_id d) profile
    then Some (CsRegister id d, m, [EvCreated d]) else None
  | CsCreating id _, DriverFailed e => Some (CsGaveUp id e, m, [])
  | CsCreating id receiver, CancelSeen =>
    match cancel_channels m !! receiver with
    | Some true => Some (CsGaveUp id (connect_canceled k key), m, [])
    | _ => None
    end
  | CsGaveUp id e, Go _ _ =>
    let '(cleared, m) := clear_connect_attempt_if_current k key id m in
    Some (CsDone (Err e), m, if (cleared : bool) then [EvClear k key] else [])
  | CsRegister id d, Go now_ms _ =>
    let '(replaced, m) :=
      match k with
      | SharedSlot => let '(r, m) := register_shared key id d now_ms m in (option_map (option_map pr_driver) r, m)
      | TabSlot => let '(r, m) := register_tab profile key id d m in (option_map (option_map tr_driver) r, m)
      end in
    match replaced with
    | None => Some (CsCloseStale d, m, [])
    | Some None => Some (CsDone (Ok d), m, [EvRegister k key profile id d])
    | Some (Some previous) => Some (CsClosePrevious previous d, m, [EvRegister k key profile id d])
    end
  | CsCloseStale d, CloseAnswered r => Some (CsDone (Err (connect_superseded k key)), m, [EvClosed d (is_ok r)])
  | CsClosePrevious previous d, CloseAnswered r =>
    Some (CsDone (match r with Ok _ => Ok d | Err e => Err e end), m, [EvClosed previous (is_ok r)])
  | _, _ => None
  end.

Definition disconnect_not_found (profile : str) : IpcError :=
  resource_not_found (lit "No active runtime for profile '" ++ profile ++ lit "'").

Definition disconnect_step (profile : str) (ch : Choice) (st : DisconnectState) (m : ConnectionRuntimeManager)
  : option (DisconnectState * ConnectionRuntimeManager * list Event) :=
  match st, ch with
  | DsStart, Go _ _ =>
    let '(canceled, m) := cancel_shared_connect_attempt profile m in
    Some (DsTabAttempts canceled, m, [EvCancel SharedSlot profile])
  | DsTabAttempts cs, Go _ _ =>
    let '(n, m) := cancel_tab_connect_attempts_for_profile profile m in
    Some (DsDiscard cs n, m, [EvCancelTabsOf profile])
  | DsDiscard cs n, Go _ _ =>
    let '(r, c) := discard_profile (hash_iter _) profile (sql_executions m) in
    Some (match r with Ok _ => DsRelease cs n | Err e => DsDone (Err e) end, set_sql_executions c m, [])
  | DsRelease cs n, Go _ io =>
    let '(r, s) := release_profile io profile (raw_artifacts m) in
    Some (match r with Ok _ => DsShared cs n | Err e => DsDone (Err e) end, set_raw_artifacts s m, [])
  | DsShared cs n, Go _ _ =>
    let '(removed, m) := take_shared profile m in
    Some (DsTabs cs n (option_map pr_driver removed), m, [EvRemove SharedSlot profile])
  | DsTabs cs n removed, Go _ _ =>
    let '(drivers, m) := take_tabs_of_profile profile m in
    Some (match removed with
          | None =>
            if bool_decide (drivers = []) && negb cs && (n =? 0) then DsDone (Err (disconnect_not_found profile))
            else DsClosing drivers
          | Some d => DsClosing (d :: drivers)
          end, m, [EvRemoveTabsOf profile])
  | DsClosing [], Go _ _ => Some (DsDone (Ok tt), m, [])
  | DsClosing (d :: ds), CloseAnswered r =>
    match r with
    | Ok _ => Some (DsClosing ds, m, [EvClosed d true])
    | Err e => Some (DsDone (Err e), m, map EvDropped ds ++ [EvClosed d false])
    end
  | _, _ => None
  end.

Definition close_tab_step (tab : str) (ch : Choice) (st : CloseTabState) (m : ConnectionRuntimeManager)
  : option (CloseTabState * ConnectionRuntimeManager * list Event) :=
  match st, ch with
  | TsStart, Go _ _ =>
    let '(_, m) := cancel_tab_connect_attempt tab m in Some (TsDiscard, m, [EvCancel TabSlot tab])
  | TsDiscard, Go _ _ =>
    let '(r, c) := discard_tab tab (sql_executions m) in
    Some (match r with Ok _ => TsRelease | Err e => TsDone (Err e) end, set_sql_executions c m, [])
  | TsRelease, Go _ io =>
    let '(r, s) := release_tab io tab (raw_artifacts m) in
    Some (match r with Ok _ => TsRemove | Err e => TsDone (Err e) end, set_raw_artifacts s m, [])
  | TsRemove, Go _ _ =>
    let '(removed, m) := take_tab tab m in
    Some (match removed with Some r => TsClosing (tr_driver r) | None => TsDone (Ok tt) end, m, [EvRemove TabSlot tab])
  | TsClosing d, CloseAnswered r => Some (TsDone r, m, [EvClosed d (is_ok r)])
  | _, _ => None
  end.

Definition task_step (tr : list Event) (ch : Choice) (t : Task) (m : ConnectionRuntimeManager)
  : option (Task * ConnectionRuntimeManager * list Event) :=
  match t with
  | ConnectTask profile st =>
    match connect_step SharedSlot profile profile tr ch st m with
    | Some (st', m', evs) => Some (ConnectTask profile st', m', evs) | None => None end
  | OpenTabTask profile tab st =>
    match connect_step TabSlot tab profile tr ch st m with
    | Some (st', m', evs) => Some (OpenTabTask profile tab st', m', evs) | None => None end
  | DisconnectTask profile st =>
    match disconnect_step profile ch st m with
    | Some (st', m', evs) => Some (DisconnectTask profile st', m', evs) | None => None end
  | CloseTabTask tab st =>
    match close_tab_step tab ch st m with
    | Some (st', m', evs) => Some (CloseTabTask tab st', m', evs) | None => None end
  end.

Definition initial_task (t : Task) : bool :=
  match t with
  | ConnectTask _ CsStart | OpenTabTask _ _ CsStart | DisconnectTask _ DsStart | CloseTabTask _ TsStart => true
  | _ => false
  end.

Record Config := mkConfig {
  manager_of : ConnectionRuntimeManager;
  tasks : list Task;
  trace : list Event;
}.

(** A call arrives, a task runs one section, or another operation of the manager changes
    executions, artifacts or health. *)
Inductive step : Config -> Config -> Prop :=
| step_call m ts tr t : initial_task t = true -> step (mkConfig m ts tr) (mkConfig m (ts ++ [t]) tr)
| step_run m ts tr i t ch t' m' evs :
    ts !! i = Some t -> task_step tr ch t m = Some (t', m', evs) ->
    step (mkConfig m ts tr) (mkConfig m' (<[i := t']> ts) (evs ++ tr))
| step_other m ts tr executions artifacts health :
    step (mkConfig m ts tr)
      (mkConfig (set_health_cells health (set_raw_artifacts artifacts (set_sql_executions executions m))) ts tr).

Inductive reachable_from (store : RawArtifactStore) : Config -> Prop :=
| reach_start : reachable_from store (mkConfig (with_raw_artifact_store store) [] [])
| reach_step c c' : reachable_from store c -> step c c' -> reachable_from store c'.

End manager.

(** ** Health from pings *)

Section health.
Context {J : JsonNumber}.

(** Pings of one runtime, newest first. *)
Definition pings (runtime : ProfileRuntime) (log : list (IpcResult unit * Z)) (m : ConnectionRuntimeManager)
  : ConnectionRuntimeManager :=
  foldr (fun ping m => record_ping runtime ping.1 ping.2 m) m log.

(** The answers that say something about the runtime. *)
Definition telling (ping : IpcResult unit * Z) : bool :=
  match ping.1 with
  | Ok _ => true
  | Err e => match runtime_impact e with BusinessOnly => false | _ => true end
  end.

Fixpoint failures_since_success (log : list (IpcResult unit * Z)) : Z :=
  match log with
  | [] => 0
  | (Ok _, _) :: _ => 0
  | (Err e, now) :: log' => (if telling (Err e, now) then 1 else 0) + failures_since_success log'
  end%Z.

Definition status_of (answer : option (IpcResult unit * Z)) : RuntimeHealthStatus * option ErrorCode :=
  match answer with
  | Some (Err e, _) => (match runtime_impact e with Terminal => HealthError | _ => Degraded end, Some (code e))
  | _ => (Healthy, None)
  end.

Lemma failures_nonneg log : (0 <= failures_since_success log)%Z.
Proof.
  induction log as [|[[u|e] now] log IH]; cbn [failures_since_success]; [lia|lia|]. destruct (telling (Err e, now)); lia.
Qed.

(** The health of a runtime is a function of its pings: the number of failures is the
    number of telling failures since the last success, saturated at 32 bits, and status
    and error code are those of the last telling answer; errors of the business kind
    change nothing. *)
Theorem health_follows_pings runtime log m p t0 : health_cells m !! pr_health runtime = Some (healthy p t0) ->
  exists h, health_cells (pings runtime log m) !! pr_health runtime = Some h
    /\ h_profile_id h = p
    /\ consecutive_failures h = Z.min U32_MAX (failures_since_success log)
    /\ (h_status h, last_error_code h) = status_of (List.find telling log).
Proof.
  intros H0. induction log as [|[r now] log IH]; [exists (healthy p t0); auto|].
  destruct IH as (h & Hh & Hp & Hf & Hs). cbn [pings foldr]. fold (pings runtime log m).
  unfold record_ping. cbn [fst snd]. rewrite Hh. cbn [health_cells set_health_cells].
  rewrite list_lookup_insert_eq by (eapply lookup_lt_Some; exact Hh). eexists. split; [reflexivity|].
  pose proof (failures_nonneg log) as Hn.
  destruct r as [u|e]; [cbn; auto|]. unfold record_failure. cbn [List.find failures_since_success].
  destruct (runtime_impact e) eqn:Ei; unfold telling at 1 2; cbn [fst]; rewrite Ei; cbn -[Z.add Z.min U32_MAX].
  - rewrite Z.add_0_l. auto.
  - unfold saturating_add. rewrite Hf, Ei. split_and!; [exact Hp|unfold U32_MAX in *; lia|reflexivity].
  - unfold saturating_add. rewrite Hf, Ei. split_and!; [exact Hp|unfold U32_MAX in *; lia|reflexivity].
Qed.
End health.

Lemma health_follows_pings_witness :
  let runtime := mkProfileRuntime (mkDriver 1 (lit "p") (lit "mysql") None false) 0 in
  let m := set_health_cells [healthy (lit "p") 5] (with_raw_artifact_store (J:=IntegerNumber) demo_store) in
  let timeout := network_timeout (lit "late") [] in
  exists h, health_cells (pings runtime [(Err timeout, 8%Z); (Err (resource_not_found []), 7%Z); (Ok tt, 6%Z)] m) !! 0 = Some h
    /\ h_profile_id h = lit "p" /\ consecutive_failures h = Z.min U32_MAX (failures_since_success
         [(Err timeout, 8%Z); (Err (resource_not_found []), 7%Z); (Ok tt, 6%Z)])
    /\ (h_status h, last_error_code h) = status_of (List.find telling
         [(Err timeout, 8%Z); (Err (resource_not_found []), 7%Z); (Ok tt, 6%Z)]).
Proof.
  exact (health_follows_pings (J:=IntegerNumber) (mkProfileRuntime (mkDriver 1 (lit "p") (lit "mysql") None false) 0) _
    (set_health_cells [healthy (lit "p") 5] (with_raw_artifact_store demo_store)) (lit "p") 5 eq_refl).
Defined.
