(* ===== verification/ConnectionRaces.v ===== *)
(** * Races between connecting and disconnecting

    Theorems about the runs of [RuntimeTables]: any number of calls that connect and
    disconnect profiles and open and close tabs, interleaved section by section.  Every
    driver is in exactly one place; the tables are the ones the log of events describes;
    only a current attempt registers its runtime; a disconnect leaves no runtime of an
    earlier attempt. *)

From stdpp Require Import base gmap list strings fin_maps relations.
From Stdlib Require Import ZArith Lia.
From S2P Require Import Prelude Errors Types Coordinator Artifact RuntimeTables.

(** ** What each section does to the tables *)

#[export] Instance SqlExecutionFeatures_eq_dec : EqDecision SqlExecutionFeatures.
Proof. solve_decision. Defined.
#[export] Instance Driver_eq_dec : EqDecision Driver.
Proof. solve_decision. Defined.
#[export] Instance Slot_eq_dec : EqDecision Slot.
Proof. solve_decision. Defined.

Definition table_drivers {A} (f : A -> Driver) (m : gmap str A) : list Driver := map (fun e => f e.2) (map_to_list m).

Lemma table_drivers_insert {A} (f : A -> Driver) (m : gmap str A) k x :
  table_drivers f (<[k := x]> m) ≡ₚ f x :: table_drivers f (delete k m).
Proof.
  rewrite <-insert_delete_eq. unfold table_drivers.
  rewrite (Permutation_map _ (map_to_list_insert (delete k m) k x (lookup_delete_eq m k))). done.
Qed.

Lemma table_drivers_delete {A} (f : A -> Driver) (m : gmap str A) k :
  table_drivers f m ≡ₚ match m !! k with Some y => [f y] | None => [] end ++ table_drivers f (delete k m).
Proof.
  destruct (m !! k) as [y|] eqn:E; [|rewrite delete_id by done; done].
  unfold table_drivers. rewrite <-(Permutation_map _ (map_to_list_delete m k y E)). done.
Qed.

Section accounting.
Context {J : JsonNumber} (hash_iter : forall A, gmap str A -> list (str * A)).

Definition shared_drivers (m : ConnectionRuntimeManager) : list Driver := table_drivers pr_driver (shared m).
Definition tab_drivers (m : ConnectionRuntimeManager) : list Driver := table_drivers tr_driver (tabs m).
Definition held (m : ConnectionRuntimeManager) : list Driver := shared_drivers m ++ tab_drivers m.

(** A section that leaves both tables of runtimes as they were. *)
Definition same_runtimes (m m' : ConnectionRuntimeManager) : Prop := shared m' = shared m /\ tabs m' = tabs m.

Lemma same_runtimes_held m m' : same_runtimes m m' -> held m' = held m.
Proof. unfold held, shared_drivers, tab_drivers. intros [-> ->]. done. Qed.

Lemma begin_runtimes k key p m : same_runtimes m (begin_connect_attempt k key p m).2.
Proof. unfold begin_connect_attempt. cbn. destruct k; cbn; destruct (_ !! key); split; done. Qed.

Lemma clear_runtimes k key id m : same_runtimes m (clear_connect_attempt_if_current k key id m).2.
Proof. unfold clear_connect_attempt_if_current. destruct (attempt_is_current _ _ _ _), k; split; done. Qed.

Lemma cancel_runtimes k key m : same_runtimes m (cancel_connect_attempt k key m).2.
Proof. unfold cancel_connect_attempt. destruct (attempts k m !! key), k; split; done. Qed.

Lemma cancel_tabs_runtimes p m : same_runtimes m (cancel_tab_connect_attempts_for_profile hash_iter p m).2.
Proof.
  unfold cancel_tab_connect_attempts_for_profile. cbn [snd].
  set (ids := map fst _). clearbody ids. revert m. induction ids as [|x ids IH]; intros m; [split; done|].
  cbn [fold_left]. destruct (IH (cancel_tab_connect_attempt x m).2) as [H1 H2].
  destruct (cancel_runtimes TabSlot x m) as [H3 H4]. split; [rewrite H1|rewrite H2]; assumption.
Qed.

Lemma take_shared_held p m : held m ≡ₚ option_list (pr_driver <$> (take_shared p m).1) ++ held (take_shared p m).2.
Proof.
  unfold held, shared_drivers at 1. cbn. rewrite (table_drivers_delete pr_driver (shared m) p).
  destruct (shared m !! p); rewrite <-?app_assoc; reflexivity.
Qed.

Lemma take_tab_held tab m : held m ≡ₚ option_list (tr_driver <$> (take_tab tab m).1) ++ held (take_tab tab m).2.
Proof.
  unfold held, tab_drivers at 1. cbn. rewrite (table_drivers_delete tr_driver (tabs m) tab).
  rewrite !app_assoc, (Permutation_app_comm (shared_drivers m)). destruct (tabs m !! tab); rewrite <-?app_assoc; reflexivity.
Qed.

Lemma take_tab_list_held ids m : held m ≡ₚ (take_tab_list ids m).1 ++ held (take_tab_list ids m).2.
Proof.
  revert m. induction ids as [|x ids IH]; intros m; [done|]. cbn [take_tab_list].
  pose proof (take_tab_held x m) as Ht. destruct (take_tab x m) as [r m1]. cbn [fst snd] in Ht.
  specialize (IH m1). destruct (take_tab_list ids m1) as [rest m2]. cbn [fst snd] in IH |- *.
  rewrite Ht, IH. destruct r; rewrite <-?app_assoc; reflexivity.
Qed.

Lemma register_shared_held p id d now m r m' : register_shared p id d now m = (r, m') ->
  match r with
  | Some previous => d :: held m ≡ₚ option_list (pr_driver <$> previous) ++ held m'
  | None => held m' = held m
  end.
Proof.
  unfold register_shared. destruct (attempt_is_current _ _ _ _); intros [= <- <-]; [|done].
  unfold held, shared_drivers. cbn. rewrite table_drivers_insert, (table_drivers_delete pr_driver (shared m) p) at 1.
  destruct (shared m !! p); cbn; [apply perm_swap|done].
Qed.

Lemma register_tab_held p tab id d m r m' : register_tab p tab id d m = (r, m') ->
  match r with
  | Some previous => d :: held m ≡ₚ option_list (tr_driver <$> previous) ++ held m'
  | None => held m' = held m
  end.
Proof.
  unfold register_tab. destruct (attempt_is_current _ _ _ _); intros [= <- <-]; [|done].
  unfold held, tab_drivers. cbn. rewrite table_drivers_insert, (table_drivers_delete tr_driver (tabs m) tab) at 1.
  cbn [tr_driver]. destruct (tabs m !! tab); cbn; solve_Permutation.
Qed.

(** ** Every driver is somewhere *)

Definition connect_drivers (st : ConnectState) : list Driver :=
  match st with
  | CsRegister _ d | CsCloseStale d | CsClosePrevious d _ => [d]
  | _ => []
  end.

(** The drivers a task has still to register or to close. *)
Definition task_drivers (t : Task) : list Driver :=
  match t with
  | ConnectTask _ st | OpenTabTask _ _ st => connect_drivers st
  | DisconnectTask _ (DsTabs _ _ removed) => option_list removed
  | DisconnectTask _ (DsClosing ds) => ds
  | CloseTabTask _ (TsClosing d) => [d]
  | _ => []
  end.

Definition created (tr : list Event) : list Driver := omap (fun e => match e with EvCreated d => Some d | _ => None end) tr.
Definition closed (tr : list Event) : list Driver := omap (fun e => match e with EvClosed d _ => Some d | _ => None end) tr.
Definition dropped (tr : list Event) : list Driver := omap (fun e => match e with EvDropped d => Some d | _ => None end) tr.

(** What a section moves: the drivers held before it, and those it creates, are those
    held after it and those it closes or drops. *)
Definition balanced (t : list Driver) (m : ConnectionRuntimeManager) (t' : list Driver) (m' : ConnectionRuntimeManager)
    (evs : list Event) : Prop :=
  created evs ++ t ++ held m ≡ₚ t' ++ held m' ++ closed evs ++ dropped evs.

Lemma balanced_same t m m' : same_runtimes m m' -> balanced t m t m' [].
Proof. intros E. unfold balanced. rewrite (same_runtimes_held _ _ E). cbn. rewrite app_nil_r. done. Qed.

Lemma connect_step_balanced k key p tr ch st m st' m' evs : connect_step k key p tr ch st m = Some (st', m', evs) ->
  balanced (connect_drivers st) m (connect_drivers st') m' evs.
Proof.
  unfold connect_step. destruct st, ch; try discriminate.
  - pose proof (begin_runtimes k key p m) as Hr. destruct (begin_connect_attempt _ _ _ _) as [[id rc] m1].
    intros [= <- <- <-]. apply (balanced_same []). exact Hr.
  - destruct (_ && _); [|discriminate]. intros [= <- <- <-]. unfold balanced. cbn. solve_Permutation.
  - intros [= <- <- <-]. apply (balanced_same []). split; reflexivity.
  - destruct (_ !! _) as [[]|]; try discriminate. intros [= <- <- <-]. apply (balanced_same []). split; reflexivity.
  - pose proof (clear_runtimes k key id m) as Hr. destruct (clear_connect_attempt_if_current _ _ _ _) as [[] m1];
      intros [= <- <- <-]; exact (balanced_same [] _ _ Hr).
  - assert (Hreg : forall r m1,
      match k with
      | SharedSlot => let '(r, m) := register_shared key id driver now_ms m in (option_map (option_map pr_driver) r, m)
      | TabSlot => let '(r, m) := register_tab p key id driver m in (option_map (option_map tr_driver) r, m)
      end = (r, m1) ->
      match r with Some previous => driver :: held m ≡ₚ option_list previous ++ held m1 | None => held m1 = held m end).
    { intros r m1. destruct k.
      - destruct (register_shared _ _ _ _ _) as [r' m2] eqn:Er. apply register_shared_held in Er.
        intros [= <- <-]. destruct r'; exact Er.
      - destruct (register_tab _ _ _ _ _) as [r' m2] eqn:Er. apply register_tab_held in Er.
        intros [= <- <-]. destruct r'; exact Er. }
    destruct (match k with SharedSlot => _ | TabSlot => _ end) as [r m1]. specialize (Hreg _ _ eq_refl).
    unfold balanced. destruct r as [[previous|]|]; intros [= <- <- <-]; cbn; rewrite Hreg, app_nil_r; done.
  - intros [= <- <- <-]. unfold balanced. cbn. solve_Permutation.
  - intros [= <- <- <-]. unfold balanced. cbn. solve_Permutation.
Qed.

Lemma disconnect_step_balanced p ch st m st' m' evs : disconnect_step hash_iter p ch st m = Some (st', m', evs) ->
  balanced (task_drivers (DisconnectTask p st)) m (task_drivers (DisconnectTask p st')) m' evs.
Proof.
  unfold disconnect_step. destruct st as [|cs|cs n|cs n|cs n|cs n removed|[|d ds]|], ch; try discriminate.
  - pose proof (cancel_runtimes SharedSlot p m) as Hr. unfold cancel_shared_connect_attempt.
    destruct (cancel_connect_attempt _ _ _) as [c m1]. intros [= <- <- <-]. exact (balanced_same [] _ _ Hr).
  - pose proof (cancel_tabs_runtimes p m) as Hr.
    destruct (cancel_tab_connect_attempts_for_profile _ _ _) as [c m1]. intros [= <- <- <-]. exact (balanced_same [] _ _ Hr).
  - destruct (discard_profile _ _ _) as [[] c]; intros [= <- <- <-]; apply (balanced_same []); split; reflexivity.
  - destruct (release_profile _ _ _) as [[] c]; intros [= <- <- <-]; apply (balanced_same []); split; reflexivity.
  - pose proof (take_shared_held p m) as Hr. destruct (take_shared p m) as [r m1]. intros [= <- <- <-].
    unfold balanced. cbn. rewrite app_nil_r. exact Hr.
  - unfold take_tabs_of_profile. set (ids := map fst _). pose proof (take_tab_list_held ids m) as Hr.
    destruct (take_tab_list ids m) as [drivers m1]. cbn [fst snd] in Hr. intros [= <- <- <-]. unfold balanced.
    destruct removed as [d|]; cbn; rewrite app_nil_r, Hr; [done|].
    case_bool_decide as Ed; [|reflexivity]. subst drivers. destruct (negb cs), (n =? 0); reflexivity.
  - intros [= <- <- <-]. apply (balanced_same []). split; reflexivity.
  - destruct r as [u|e]; intros [= <- <- <-]; unfold balanced; cbn; [solve_Permutation|].
    unfold closed, dropped. rewrite !omap_app. cbn.
    assert (E1 : omap (fun e => match e with EvDropped d => Some d | _ => None end) (map EvDropped ds) = ds)
      by (clear; induction ds as [|x ds IH]; [reflexivity|cbn; f_equal; exact IH]).
    assert (E2 : omap (fun e => match e with EvClosed d _ => Some d | _ => None end) (map EvDropped ds) = [])
      by (clear; induction ds as [|x ds IH]; [reflexivity|exact IH]).
    assert (E3 : created (map EvDropped ds ++ [EvClosed d false]) = [])
      by (clear; induction ds as [|x ds IH]; [reflexivity|exact IH]).
    rewrite E1, E2, E3. cbn. solve_Permutation.
Qed.

Lemma close_tab_step_balanced tab ch st m st' m' evs : close_tab_step tab ch st m = Some (st', m', evs) ->
  balanced (task_drivers (CloseTabTask tab st)) m (task_drivers (CloseTabTask tab st')) m' evs.
Proof.
  unfold close_tab_step. destruct st, ch; try discriminate.
  - pose proof (cancel_runtimes TabSlot tab m) as Hr. unfold cancel_tab_connect_attempt.
    destruct (cancel_connect_attempt _ _ _) as [c m1]. intros [= <- <- <-]. exact (balanced_same [] _ _ Hr).
  - destruct (discard_tab _ _) as [[] c]; intros [= <- <- <-]; apply (balanced_same []); split; reflexivity.
  - destruct (release_tab _ _ _) as [[] c]; intros [= <- <- <-]; apply (balanced_same []); split; reflexivity.
  - pose proof (take_tab_held tab m) as Hr. destruct (take_tab tab m) as [r m1]. intros [= <- <- <-].
    unfold balanced. cbn [fst snd] in Hr. cbn. rewrite app_nil_r, Hr. destruct r; done.
  - intros [= <- <- <-]. unfold balanced. cbn. solve_Permutation.
Qed.

Lemma task_step_balanced tr ch t m t' m' evs : task_step hash_iter tr ch t m = Some (t', m', evs) ->
  balanced (task_drivers t) m (task_drivers t') m' evs.
Proof.
  unfold task_step. destruct t; intros E; repeat case_match; try discriminate; simplify_eq; cbn.
  1,2: eapply connect_step_balanced; eassumption.
  - eapply (disconnect_step_balanced profile); eassumption.
  - eapply (close_tab_step_balanced tab); eassumption.
Qed.

Lemma run_task_drivers ts (i : nat) t t' : ts !! i = Some t ->
  exists others, concat (map task_drivers ts) ≡ₚ task_drivers t ++ others
    /\ concat (map task_drivers (<[i := t']> ts)) ≡ₚ task_drivers t' ++ others.
Proof.
  intros E. exists (concat (map task_drivers (take i ts)) ++ concat (map task_drivers (drop (S i) ts))).
  rewrite <-(take_drop_middle _ _ _ E) at 1. rewrite insert_take_drop by (eapply lookup_lt_Some; eassumption).
  rewrite !map_app, !concat_app. cbn. split; solve_Permutation.
Qed.

Lemma accounted store c : reachable_from hash_iter store c ->
  created (trace c) ≡ₚ held (manager_of c) ++ concat (map task_drivers (tasks c)) ++ closed (trace c) ++ dropped (trace c).
Proof.
  induction 1 as [|c c' _ IH Hs]; [done|]. destruct Hs as [m ts tr t Ht|m ts tr i t ch t' m' evs Hi Hs|m ts tr x y z]; cbn in *.
  - assert (Ed : task_drivers t = []) by (destruct t as [? []|? ? []|? []|? []]; try discriminate Ht; done).
    rewrite map_app, concat_app. cbn. rewrite Ed. cbn. rewrite app_nil_r. exact IH.
  - apply task_step_balanced in Hs. destruct (run_task_drivers ts i t t' Hi) as (others & E1 & E2).
    unfold balanced in Hs. unfold created, closed, dropped in *. rewrite !omap_app, IH, E1, E2.
    trans ((created evs ++ task_drivers t ++ held m) ++ others ++ closed tr ++ dropped tr);
      unfold created, closed, dropped; [solve_Permutation|]. unfold created in Hs. rewrite Hs.
    unfold closed, dropped. solve_Permutation.
  - exact IH.
Qed.
End accounting.

(** ** The tables and the log *)

Section log.
Context {J : JsonNumber}.

(** The attempt that is pending after a log: its profile and its number. *)
Definition pending_after (k : Slot) (key : str) (e : Event) (before : option (str * Z)) : option (str * Z) :=
  match e with
  | EvBegin k' key' profile id => if decide ((k', key') = (k, key)) then Some (profile, id) else before
  | EvClear k' key' | EvCancel k' key' | EvRegister k' key' _ _ _ =>
    if decide ((k', key') = (k, key)) then None else before
  | EvCancelTabsOf profile =>
    match k, before with
    | TabSlot, Some (p, _) => if decide (p = profile) then None else before
    | _, _ => before
    end
  | _ => before
  end.

Definition pending (k : Slot) (key : str) (tr : list Event) : option (str * Z) :=
  foldr (pending_after k key) None tr.

(** The runtime a log leaves in a table: its profile and its driver. *)
Definition runtime_after (k : Slot) (key : str) (e : Event) (before : option (str * Driver)) : option (str * Driver) :=
  match e with
  | EvRegister k' key' profile _ d => if decide ((k', key') = (k, key)) then Some (profile, d) else before
  | EvRemove k' key' => if decide ((k', key') = (k, key)) then None else before
  | EvRemoveTabsOf profile =>
    match k, before with
    | TabSlot, Some (p, _) => if decide (p = profile) then None else before
    | _, _ => before
    end
  | _ => before
  end.

Definition runtime_of (k : Slot) (key : str) (tr : list Event) : option (str * Driver) :=
  foldr (runtime_after k key) None tr.

Definition attempt_at (k : Slot) (key : str) (m : ConnectionRuntimeManager) : option (str * Z) :=
  (fun a => (at_profile_id a, at_id a)) <$> attempts k m !! key.

Definition runtime_at (k : Slot) (key : str) (m : ConnectionRuntimeManager) : option (str * Driver) :=
  match k with
  | SharedSlot => (fun r => (key, pr_driver r)) <$> shared m !! key
  | TabSlot => (fun r => (tr_profile_id r, tr_driver r)) <$> tabs m !! key
  end.

(** The manager's tables are the ones the log describes. *)
Definition logged (m : ConnectionRuntimeManager) (tr : list Event) : Prop :=
  forall k key, attempt_at k key m = pending k key tr /\ runtime_at k key m = runtime_of k key tr.

(** What the events of a section say about the tables. *)
Definition follows (m m' : ConnectionRuntimeManager) (evs : list Event) : Prop :=
  forall k key, attempt_at k key m' = foldr (pending_after k key) (attempt_at k key m) evs
    /\ runtime_at k key m' = foldr (runtime_after k key) (runtime_at k key m) evs.

Lemma logged_follows m m' tr evs : logged m tr -> follows m m' evs -> logged m' (evs ++ tr).
Proof.
  intros Hl Hf k key. destruct (Hl k key) as [H1 H2], (Hf k key) as [H3 H4].
  unfold pending, runtime_of. rewrite !foldr_app. fold (pending k key tr) (runtime_of k key tr).
  rewrite H3, H4, H1, H2. split; reflexivity.
Qed.

Lemma follows_refl m m' : same_runtimes m m' -> (forall k, attempts k m' = attempts k m) -> follows m m' [].
Proof.
  intros [E1 E2] E3 k key. unfold attempt_at, runtime_at. rewrite E1, E2, E3. split; reflexivity.
Qed.

Lemma attempts_set k k' x m : attempts k (set_attempts k' x m) = if decide (k' = k) then x else attempts k m.
Proof. destruct k, k'; reflexivity. Qed.

Lemma attempts_signal k a m : attempts k (signal a m) = attempts k m.
Proof. destruct k; reflexivity. Qed.

Lemma attempt_at_insert k key k0 key0 a m m' :
  attempts k m' = (if decide (k0 = k) then <[key0 := a]> (attempts k0 m) else attempts k m) ->
  attempt_at k key m' = if decide ((k0, key0) = (k, key)) then Some (at_profile_id a, at_id a) else attempt_at k key m.
Proof.
  intros E. unfold attempt_at. rewrite E. destruct (decide (k0 = k)) as [<-|Hk];
    [destruct (decide (key0 = key)) as [<-|Hne]|].
  - rewrite lookup_insert_eq, decide_True by reflexivity. reflexivity.
  - rewrite lookup_insert_ne, decide_False by congruence. reflexivity.
  - rewrite decide_False by congruence. reflexivity.
Qed.

Lemma attempt_at_delete k key k0 key0 m m' :
  attempts k m' = (if decide (k0 = k) then delete key0 (attempts k0 m) else attempts k m) ->
  attempt_at k key m' = if decide ((k0, key0) = (k, key)) then None else attempt_at k key m.
Proof.
  intros E. unfold attempt_at. rewrite E. destruct (decide (k0 = k)) as [<-|Hk];
    [destruct (decide (key0 = key)) as [<-|Hne]|].
  - rewrite lookup_delete_eq, decide_True by reflexivity. reflexivity.
  - rewrite lookup_delete_ne, decide_False by congruence. reflexivity.
  - rewrite decide_False by congruence. reflexivity.
Qed.

(** A section that changes only attempts, as its one event says. *)
Lemma follows_attempts m m' e :
  same_runtimes m m' -> (forall k key, attempt_at k key m' = pending_after k key e (attempt_at k key m)) ->
  (forall k key r, runtime_after k key e r = r) -> follows m m' [e].
Proof.
  intros [E1 E2] E3 E4 k key. cbn [foldr]. rewrite E3, E4. unfold runtime_at. rewrite E1, E2. split; reflexivity.
Qed.

Lemma begin_follows k key p m id rc m' : begin_connect_attempt k key p m = ((id, rc), m') ->
  id = next_connect_attempt_id m /\ follows m m' [EvBegin k key p id].
Proof.
  intros E. pose proof (begin_runtimes k key p m) as Hr. rewrite E in Hr. cbn [snd] in Hr.
  unfold begin_connect_attempt in E. cbn [fetch_attempt_id] in E. injection E as <- <- Em. split; [reflexivity|].
  apply follows_attempts; [exact Hr| |reflexivity]. intros k1 key1. cbn [pending_after]. subst m'.
  apply (attempt_at_insert _ _ _ _ (mkAttempt (next_connect_attempt_id m) p (length (cancel_channels m)))).
  destruct (_ !! key); rewrite ?attempts_signal, attempts_set; destruct k, k1; reflexivity.
Qed.

Lemma clear_follows k key id m c m' : clear_connect_attempt_if_current k key id m = (c, m') ->
  follows m m' (if c then [EvClear k key] else []).
Proof.
  intros E. pose proof (clear_runtimes k key id m) as Hr. rewrite E in Hr. cbn [snd] in Hr.
  unfold clear_connect_attempt_if_current in E. destruct (attempt_is_current k key id m); injection E as <- <-.
  - apply follows_attempts; [exact Hr| |reflexivity]. intros k1 key1. cbn [pending_after].
    apply attempt_at_delete. rewrite attempts_set. destruct k, k1; reflexivity.
  - apply follows_refl; [exact Hr|reflexivity].
Qed.

Lemma cancel_attempt_at k key m k1 key1 :
  attempt_at k1 key1 (cancel_connect_attempt k key m).2 = if decide ((k, key) = (k1, key1)) then None else attempt_at k1 key1 m.
Proof.
  unfold cancel_connect_attempt. destruct (attempts k m !! key) as [a|] eqn:Ea; cbn [snd].
  - apply attempt_at_delete. rewrite attempts_signal, attempts_set. destruct k, k1; reflexivity.
  - case_decide as Ek; [|reflexivity]. simplify_eq. unfold attempt_at. rewrite Ea. reflexivity.
Qed.

Lemma cancel_follows k key m : follows m (cancel_connect_attempt k key m).2 [EvCancel k key].
Proof.
  apply follows_attempts; [apply cancel_runtimes| |reflexivity]. intros k1 key1. apply cancel_attempt_at.
Qed.

Lemma cancel_list_attempt_at ids m k key :
  attempt_at k key (fold_left (fun m tab => (cancel_tab_connect_attempt tab m).2) ids m)
  = if decide (k = TabSlot /\ key ∈ ids) then None else attempt_at k key m.
Proof.
  revert m. induction ids as [|x ids IH]; intros m; cbn [fold_left].
  - rewrite decide_False by set_solver. reflexivity.
  - rewrite IH. unfold cancel_tab_connect_attempt. rewrite cancel_attempt_at.
    repeat case_decide; try reflexivity; exfalso; set_solver.
Qed.

Lemma register_shared_follows p id d now m r m' : register_shared p id d now m = (r, m') ->
  attempt_is_current SharedSlot p id m = match r with Some _ => true | None => false end
  /\ follows m m' (match r with Some _ => [EvRegister SharedSlot p p id d] | None => [] end).
Proof.
  unfold register_shared. replace (attempt_is_current _ _ _ (set_health_cells _ _)) with (attempt_is_current SharedSlot p id m) by reflexivity.
  destruct (attempt_is_current SharedSlot p id m); intros [= <- <-];
    (split; [reflexivity|]).
  - intros k key. cbn [foldr]. split.
    + cbn [pending_after]. apply attempt_at_delete. destruct k; reflexivity.
    + cbn [runtime_after]. destruct k; cbn; [|rewrite decide_False by congruence; reflexivity].
      destruct (decide (p = key)) as [<-|Hne].
      * rewrite lookup_insert_eq, decide_True by reflexivity. reflexivity.
      * rewrite lookup_insert_ne, decide_False by congruence. reflexivity.
  - apply follows_refl; [split|]; reflexivity.
Qed.

Lemma register_tab_follows p tab id d m r m' : register_tab p tab id d m = (r, m') ->
  attempt_is_current TabSlot tab id m = match r with Some _ => true | None => false end
  /\ follows m m' (match r with Some _ => [EvRegister TabSlot tab p id d] | None => [] end).
Proof.
  unfold register_tab. destruct (attempt_is_current TabSlot tab id m); intros [= <- <-];
    (split; [reflexivity|]).
  - intros k key. cbn [foldr]. split.
    + cbn [pending_after]. apply attempt_at_delete. destruct k; reflexivity.
    + cbn [runtime_after]. destruct k; cbn; [rewrite decide_False by congruence; reflexivity|].
      destruct (decide (tab = key)) as [<-|Hne].
      * rewrite lookup_insert_eq, decide_True by reflexivity. reflexivity.
      * rewrite lookup_insert_ne, decide_False by congruence. reflexivity.
  - apply follows_refl; [split|]; reflexivity.
Qed.

(** A section that changes only runtimes, as its one event says. *)
Lemma follows_runtimes m m' e :
  (forall k, attempts k m' = attempts k m) ->
  (forall k key, runtime_at k key m' = runtime_after k key e (runtime_at k key m)) ->
  (forall k key r, pending_after k key e r = r) -> follows m m' [e].
Proof.
  intros E1 E2 E3 k key. cbn [foldr]. rewrite E2, E3. unfold attempt_at. rewrite E1. split; reflexivity.
Qed.

Lemma take_shared_follows p m : follows m (take_shared p m).2 [EvRemove SharedSlot p].
Proof.
  apply follows_runtimes; [intros []; reflexivity| |reflexivity]. intros k key. cbn [runtime_after].
  destruct k; cbn; [|rewrite decide_False by congruence; reflexivity]. destruct (decide (p = key)) as [<-|Hne].
  - rewrite lookup_delete_eq, decide_True by reflexivity. reflexivity.
  - rewrite lookup_delete_ne, decide_False by congruence. reflexivity.
Qed.

Lemma take_tab_runtime_at tab m k key :
  runtime_at k key (take_tab tab m).2 = if decide ((TabSlot, tab) = (k, key)) then None else runtime_at k key m.
Proof.
  destruct k; cbn; [rewrite decide_False by congruence; reflexivity|]. destruct (decide (tab = key)) as [<-|Hne].
  - rewrite lookup_delete_eq, decide_True by reflexivity. reflexivity.
  - rewrite lookup_delete_ne, decide_False by congruence. reflexivity.
Qed.

Lemma take_tab_follows tab m : follows m (take_tab tab m).2 [EvRemove TabSlot tab].
Proof.
  apply follows_runtimes; [intros []; reflexivity| |reflexivity]. intros k key. apply take_tab_runtime_at.
Qed.

Lemma take_tab_list_runtime_at ids m k key :
  attempts k (take_tab_list ids m).2 = attempts k m
  /\ runtime_at k key (take_tab_list ids m).2 = if decide (k = TabSlot /\ key ∈ ids) then None else runtime_at k key m.
Proof.
  revert m. induction ids as [|x ids IH]; intros m; cbn [take_tab_list].
  - rewrite decide_False by set_solver. split; reflexivity.
  - pose proof (take_tab_runtime_at x m k key) as Ht. destruct (take_tab x m) as [r m1] eqn:Et. cbn [snd] in Ht.
    destruct (IH m1) as [H1 H2]. destruct (take_tab_list ids m1) as [rest m2]. cbn [snd] in *.
    assert (Ea : attempts k m1 = attempts k m) by (injection Et as _ <-; destruct k; reflexivity).
    rewrite H1, H2, Ht. split; [exact Ea|]. repeat case_decide; try reflexivity; exfalso; set_solver.
Qed.

Context (hash_iter : forall A, gmap str A -> list (str * A)).
Context (hash_iter_perm : forall A (m : gmap str A), hash_iter A m ≡ₚ map_to_list m).

(** The keys the iteration selects. *)
Lemma selected_keys {A} (f : A -> str) (p : str) (m : gmap str A) (key : str) :
  key ∈ map fst (List.filter (fun e => str_eqb (f e.2) p) (hash_iter _ m)) <-> exists a, m !! key = Some a /\ f a = p.
Proof.
  rewrite list_elem_of_In, in_map_iff. split.
  - intros ([x a] & <- & Hin). apply filter_In in Hin as [Hin Ef]. exists a. split; [|exact (bool_decide_eq_true_1 _ Ef)].
    apply elem_of_map_to_list. rewrite <-hash_iter_perm. apply list_elem_of_In, Hin.
  - intros (a & Ha & Ef). exists (key, a). split; [reflexivity|]. apply filter_In.
    split; [|exact (bool_decide_eq_true_2 _ Ef)]. apply list_elem_of_In. rewrite hash_iter_perm. apply elem_of_map_to_list, Ha.
Qed.

Lemma cancel_tabs_follows p m : follows m (cancel_tab_connect_attempts_for_profile hash_iter p m).2 [EvCancelTabsOf p].
Proof.
  apply follows_attempts; [apply cancel_tabs_runtimes| |reflexivity]. intros k key.
  unfold cancel_tab_connect_attempts_for_profile. cbn [snd pending_after]. rewrite cancel_list_attempt_at.
  destruct k; [rewrite decide_False by naive_solver; reflexivity|].
  pose proof (selected_keys at_profile_id p (tab_connect_attempts m) key) as Hk.
  unfold attempt_at, attempts. case_decide as Ed.
  - destruct (proj1 Hk (proj2 Ed)) as (a & -> & <-). cbn. rewrite decide_True by reflexivity. reflexivity.
  - destruct (tab_connect_attempts m !! key) as [a|] eqn:Ea; cbn; [|reflexivity].
    rewrite decide_False; [reflexivity|]. intros <-. apply Ed. split; [reflexivity|]. apply Hk. eauto.
Qed.

Lemma take_tabs_follows p m : follows m (take_tabs_of_profile hash_iter p m).2 [EvRemoveTabsOf p].
Proof.
  unfold take_tabs_of_profile. pose proof (selected_keys tr_profile_id p (tabs m)) as Hk.
  set (ids := map fst _) in *. pose proof (take_tab_list_runtime_at ids m) as Hl.
  apply follows_runtimes; [intros k; apply (Hl k p)| |reflexivity]. intros k key. rewrite (proj2 (Hl k key)).
  cbn [runtime_after]. destruct k; [rewrite decide_False by naive_solver; reflexivity|]. specialize (Hk key).
  unfold runtime_at. case_decide as Ed.
  - destruct (proj1 Hk (proj2 Ed)) as (a & -> & <-). cbn. rewrite decide_True by reflexivity. reflexivity.
  - destruct (tabs m !! key) as [a|] eqn:Ea; cbn; [|reflexivity].
    rewrite decide_False; [reflexivity|]. intros <-. apply Ed. split; [reflexivity|]. apply Hk. eauto.
Qed.
End log.

Section runs.
Context {J : JsonNumber} (hash_iter : forall A, gmap str A -> list (str * A)).
Context (hash_iter_perm : forall A (m : gmap str A), hash_iter A m ≡ₚ map_to_list m).

Definition key_of (k : Slot) (key profile : str) : Prop := match k with SharedSlot => key = profile | TabSlot => True end.

Lemma same_follows m m' evs : same_runtimes m m' -> (forall k, attempts k m' = attempts k m) ->
  (forall k key e x, e ∈ evs -> pending_after k key e x = x) -> (forall k key e x, e ∈ evs -> runtime_after k key e x = x) ->
  follows m m' evs.
Proof.
  intros E1 E2 H1 H2 k key. destruct (follows_refl m m' E1 E2 k key) as [F1 F2]. cbn [foldr] in F1, F2. rewrite F1, F2.
  clear F1 F2. induction evs as [|e evs IH]; [split; reflexivity|]. cbn [foldr].
  rewrite H1, H2 by set_solver. apply IH; intros; [apply H1|apply H2]; set_solver.
Qed.

Lemma closing_follows m m' evs : same_runtimes m m' -> (forall k, attempts k m' = attempts k m) ->
  Forall (fun e => match e with EvCreated _ | EvClosed _ _ | EvDropped _ => True | _ => False end) evs -> follows m m' evs.
Proof.
  intros E1 E2 He. rewrite Forall_forall in He.
  apply same_follows; [assumption..| |]; intros k key e x Hin; apply He in Hin; destruct e; done.
Qed.

Ltac no_table_change := apply closing_follows; [split; reflexivity|intros []; reflexivity|repeat constructor].

Lemma connect_step_follows k key p tr ch st m st' m' evs : key_of k key p ->
  connect_step k key p tr ch st m = Some (st', m', evs) -> follows m m' evs.
Proof.
  intros Hk. unfold connect_step. destruct st, ch; try discriminate.
  - destruct (begin_connect_attempt _ _ _ _) as [[id rc] m1] eqn:Eb. apply begin_follows in Eb as [-> Hf].
    intros [= <- <- <-]. exact Hf.
  - destruct (_ && _); [|discriminate]. intros [= <- <- <-]. no_table_change.
  - intros [= <- <- <-]. no_table_change.
  - destruct (_ !! _) as [[]|]; try discriminate. intros [= <- <- <-]. no_table_change.
  - destruct (clear_connect_attempt_if_current _ _ _ _) as [c m1] eqn:Ec. intros [= <- <- <-].
    exact (clear_follows _ _ _ _ _ _ Ec).
  - destruct k.
    + cbn in Hk. subst key. destruct (register_shared _ _ _ _ _) as [r m1] eqn:Er.
      apply register_shared_follows in Er as [_ Hf]. destruct r as [[r|]|]; intros [= <- <- <-];
        apply Hf.
    + destruct (register_tab _ _ _ _ _) as [r m1] eqn:Er.
      apply register_tab_follows in Er as [_ Hf]. destruct r as [[r|]|]; intros [= <- <- <-];
        apply Hf.
  - intros [= <- <- <-]. no_table_change.
  - intros [= <- <- <-]. no_table_change.
Qed.

Lemma disconnect_step_follows p ch st m st' m' evs : disconnect_step hash_iter p ch st m = Some (st', m', evs) ->
  follows m m' evs.
Proof.
  unfold disconnect_step. destruct st as [|cs|cs n|cs n|cs n|cs n removed|[|d ds]|], ch; try discriminate.
  - pose proof (cancel_follows SharedSlot p m) as Hf. unfold cancel_shared_connect_attempt.
    destruct (cancel_connect_attempt _ _ _) as [c m1]. intros [= <- <- <-]. exact Hf.
  - pose proof (cancel_tabs_follows hash_iter hash_iter_perm p m) as Hf.
    destruct (cancel_tab_connect_attempts_for_profile _ _ _) as [c m1]. intros [= <- <- <-]. exact Hf.
  - destruct (discard_profile _ _ _) as [r c]. intros [= <- <- <-]. no_table_change.
  - destruct (release_profile _ _ _) as [r c]. intros [= <- <- <-]. no_table_change.
  - pose proof (take_shared_follows p m) as Hf. destruct (take_shared p m) as [r m1]. intros [= <- <- <-]. exact Hf.
  - pose proof (take_tabs_follows hash_iter hash_iter_perm p m) as Hf.
    destruct (take_tabs_of_profile _ _ _) as [r m1]. intros [= <- <- <-]. exact Hf.
  - intros [= <- <- <-]. no_table_change.
  - destruct r as [u|e]; intros [= <- <- <-]; [no_table_change|].
    apply closing_follows; [split; reflexivity|intros []; reflexivity|].
    apply Forall_app. split; [|repeat constructor]. apply Forall_map, Forall_true. done.
Qed.

Lemma close_tab_step_follows tab ch st m st' m' evs : close_tab_step tab ch st m = Some (st', m', evs) ->
  follows m m' evs.
Proof.
  unfold close_tab_step. destruct st, ch; try discriminate.
  - pose proof (cancel_follows TabSlot tab m) as Hf. unfold cancel_tab_connect_attempt.
    destruct (cancel_connect_attempt _ _ _) as [c m1]. intros [= <- <- <-]. exact Hf.
  - destruct (discard_tab _ _) as [r c]. intros [= <- <- <-]. no_table_change.
  - destruct (release_tab _ _ _) as [r c]. intros [= <- <- <-]. no_table_change.
  - pose proof (take_tab_follows tab m) as Hf. destruct (take_tab tab m) as [r m1]. intros [= <- <- <-]. exact Hf.
  - intros [= <- <- <-]. no_table_change.
Qed.

Lemma task_step_follows tr ch t m t' m' evs : task_step hash_iter tr ch t m = Some (t', m', evs) -> follows m m' evs.
Proof.
  unfold task_step. destruct t; intros E; repeat case_match; try discriminate; simplify_eq.
  1,2: eapply connect_step_follows; [|eassumption]; done.
  - eapply disconnect_step_follows; eassumption.
  - eapply close_tab_step_follows; eassumption.
Qed.

Lemma tables_logged store c : reachable_from hash_iter store c -> logged (manager_of c) (trace c).
Proof.
  induction 1 as [|c c' _ IH Hs]; [intros [] key; split; reflexivity|].
  destruct Hs as [m ts tr t Ht|m ts tr i t ch t' m' evs Hi Hs|m ts tr x y z]; cbn in *; [exact IH| |exact IH].
  eapply logged_follows; [exact IH|]. eapply task_step_follows. eassumption.
Qed.
End runs.

(** ** Attempts and their numbers *)

Section attempts_in_runs.
Context {J : JsonNumber} (hash_iter : forall A, gmap str A -> list (str * A)).

(** The numbers of the attempts that were begun, newest first. *)
Definition begun (tr : list Event) : list Z :=
  omap (fun e => match e with EvBegin _ _ _ id => Some id | _ => None end) tr.

(** Fewer attempts than a 64-bit counter can number. *)
Definition countable_attempts (tr : list Event) : Prop := (Z.of_nat (length (begun tr)) <= U64_MAX)%Z.

Lemma begun_app tr tr' : begun (tr ++ tr') = begun tr ++ begun tr'.
Proof. apply omap_app. Qed.

Lemma countable_attempts_app tr tr' : countable_attempts (tr ++ tr') -> countable_attempts tr'.
Proof. unfold countable_attempts. rewrite begun_app, length_app. lia. Qed.

Lemma elem_of_begun tr id : id ∈ begun tr <-> exists k key p, EvBegin k key p id ∈ tr.
Proof.
  unfold begun. rewrite list_elem_of_omap. split.
  - intros (e & Hin & He). destruct e; try discriminate. injection He as ->. eauto.
  - intros (k & key & p & Hin). eauto.
Qed.

(** The counter and the numbers given out so far. *)
Definition numbered (m : ConnectionRuntimeManager) (tr : list Event) : Prop :=
  next_connect_attempt_id m = ((1 + Z.of_nat (length (begun tr))) mod (U64_MAX + 1))%Z
  /\ NoDup (begun tr) /\ Forall (fun id => (id <= Z.of_nat (length (begun tr)))%Z) (begun tr).

(** Only the section that begins an attempt moves the counter. *)
Lemma connect_step_counter k key p tr ch st m st' m' evs : connect_step k key p tr ch st m = Some (st', m', evs) ->
  (begun evs = [] /\ next_connect_attempt_id m' = next_connect_attempt_id m)
  \/ (begun evs = [next_connect_attempt_id m]
      /\ next_connect_attempt_id m' = ((next_connect_attempt_id m + 1) mod (U64_MAX + 1))%Z).
Proof.
  unfold connect_step. destruct st, ch; try discriminate.
  - unfold begin_connect_attempt. cbn [fetch_attempt_id]. intros [= <- <- <-]. right. cbn.
    split; [reflexivity|]. destruct (_ !! key), k; reflexivity.
  - destruct (_ && _); [|discriminate]. intros [= <- <- <-]. left. split; reflexivity.
  - intros [= <- <- <-]. left. split; reflexivity.
  - destruct (_ !! _) as [[]|]; try discriminate. intros [= <- <- <-]. left. split; reflexivity.
  - unfold clear_connect_attempt_if_current. destruct (attempt_is_current _ _ _ _), k; intros [= <- <- <-]; left; split; reflexivity.
  - unfold register_shared, register_tab. destruct k.
    all: destruct (attempt_is_current _ _ _ _); cbn; [destruct (_ !! _)|]; intros [= <- <- <-]; left; split; reflexivity.
  - intros [= <- <- <-]. left. split; reflexivity.
  - intros [= <- <- <-]. left. split; reflexivity.
Qed.

Lemma cancel_counter k key m : next_connect_attempt_id (cancel_connect_attempt k key m).2 = next_connect_attempt_id m.
Proof. unfold cancel_connect_attempt. destruct (_ !! _), k; reflexivity. Qed.

Lemma cancel_list_counter ids m :
  next_connect_attempt_id (fold_left (fun m tab => (cancel_tab_connect_attempt tab m).2) ids m) = next_connect_attempt_id m.
Proof.
  revert m. induction ids as [|x ids IH]; intros m; [reflexivity|]. cbn [fold_left]. rewrite IH. apply cancel_counter.
Qed.

Lemma take_tab_list_counter ids m : next_connect_attempt_id (take_tab_list ids m).2 = next_connect_attempt_id m.
Proof.
  revert m. induction ids as [|x ids IH]; intros m; [reflexivity|]. cbn.
  specialize (IH (set_tabs (delete x (tabs m)) m)). destruct (take_tab_list ids _) as [rest m2]. exact IH.
Qed.

Lemma disconnect_step_counter p ch st m st' m' evs : disconnect_step hash_iter p ch st m = Some (st', m', evs) ->
  begun evs = [] /\ next_connect_attempt_id m' = next_connect_attempt_id m.
Proof.
  unfold disconnect_step. destruct st as [|cs|cs n|cs n|cs n|cs n removed|[|d ds]|], ch; try discriminate.
  - pose proof (cancel_counter SharedSlot p m) as Hc. unfold cancel_shared_connect_attempt.
    destruct (cancel_connect_attempt _ _ _) as [c m1]. intros [= <- <- <-]. split; [reflexivity|exact Hc].
  - unfold cancel_tab_connect_attempts_for_profile. intros [= <- <- <-]. split; [reflexivity|apply cancel_list_counter].
  - destruct (discard_profile _ _ _) as [r c]. intros [= <- <- <-]. split; reflexivity.
  - destruct (release_profile _ _ _) as [r c]. intros [= <- <- <-]. split; reflexivity.
  - intros [= <- <- <-]. split; reflexivity.
  - unfold take_tabs_of_profile. set (ids := map fst _). pose proof (take_tab_list_counter ids m) as Hc.
    destruct (take_tab_list ids m) as [r m1]. intros [= <- <- <-]. split; [reflexivity|exact Hc].
  - intros [= <- <- <-]. split; reflexivity.
  - destruct r as [u|e]; intros [= <- <- <-]; (split; [|reflexivity]); [reflexivity|].
    rewrite begun_app. cbn. rewrite app_nil_r. clear. induction ds; [reflexivity|assumption].
Qed.

Lemma close_tab_step_counter tab ch st m st' m' evs : close_tab_step tab ch st m = Some (st', m', evs) ->
  begun evs = [] /\ next_connect_attempt_id m' = next_connect_attempt_id m.
Proof.
  unfold close_tab_step. destruct st, ch; try discriminate.
  - pose proof (cancel_counter TabSlot tab m) as Hc. unfold cancel_tab_connect_attempt.
    destruct (cancel_connect_attempt _ _ _) as [c m1]. intros [= <- <- <-]. split; [reflexivity|exact Hc].
  - destruct (discard_tab _ _) as [r c]. intros [= <- <- <-]. split; reflexivity.
  - destruct (release_tab _ _ _) as [r c]. intros [= <- <- <-]. split; reflexivity.
  - intros [= <- <- <-]. split; reflexivity.
  - intros [= <- <- <-]. split; reflexivity.
Qed.

Lemma task_step_numbered tr ch t m t' m' evs : task_step hash_iter tr ch t m = Some (t', m', evs) ->
  countable_attempts (evs ++ tr) -> numbered m tr -> numbered m' (evs ++ tr).
Proof.
  intros E Hc (Hn & Hd & Hf).
  assert (Hs : (begun evs = [] /\ next_connect_attempt_id m' = next_connect_attempt_id m)
    \/ (begun evs = [next_connect_attempt_id m]
        /\ next_connect_attempt_id m' = ((next_connect_attempt_id m + 1) mod (U64_MAX + 1))%Z)).
  { unfold task_step in E. destruct t; repeat case_match; try discriminate; simplify_eq.
    - eapply connect_step_counter; eassumption.
    - eapply connect_step_counter; eassumption.
    - left. eapply disconnect_step_counter; eassumption.
    - left. eapply close_tab_step_counter; eassumption. }
  unfold numbered, countable_attempts in *. rewrite begun_app in *.
  destruct Hs as [[-> ->]|[Eb ->]]; [cbn; auto|]. rewrite Eb, Hn in *. cbn [app length] in *.
  rewrite Nat2Z.inj_succ in *. set (n := Z.of_nat (length (begun tr))) in *.
  assert (Hu : (0 <= n)%Z) by lia. rewrite (Z.mod_small (1 + n)) by (unfold U64_MAX in *; lia).
  split; [f_equal; lia|]. split.
  - apply NoDup_cons. split; [|exact Hd]. intros Hin. rewrite Forall_forall in Hf. specialize (Hf _ Hin). cbn in Hf. lia.
  - constructor; [lia|]. eapply Forall_impl; [exact Hf|]. cbn. intros; lia.
Qed.

Lemma attempts_numbered store c : reachable_from hash_iter store c -> countable_attempts (trace c) ->
  numbered (manager_of c) (trace c).
Proof.
  induction 1 as [|c c' _ IH Hs]; [intros _; repeat constructor|].
  destruct Hs as [m ts tr t Ht|m ts tr i t ch t' m' evs Hi Hs|m ts tr x y z]; cbn in *; [exact IH| |exact IH].
  intros Hc. eapply task_step_numbered; [eassumption..|]. apply IH. eapply countable_attempts_app. exact Hc.
Qed.

(** An attempt's number identifies it. *)
Lemma begun_once tr k key p k' key' p' id : NoDup (begun tr) -> EvBegin k key p id ∈ tr -> EvBegin k' key' p' id ∈ tr ->
  (k, key, p) = (k', key', p').
Proof.
  intros Hd H1 H2. apply list_elem_of_lookup in H1 as [i Hi], H2 as [j Hj]. revert i j Hi Hj.
  induction tr as [|e tr IH]; intros i j Hi Hj; [discriminate|].
  assert (Hrest : NoDup (begun tr)).
  { unfold begun in Hd. cbn in Hd. destruct e; try exact Hd. apply NoDup_cons in Hd. apply Hd. }
  assert (Hhead : forall k0 key0 p0, e = EvBegin k0 key0 p0 id -> id ∉ begun tr).
  { intros k0 key0 p0 ->. apply NoDup_cons in Hd. apply Hd. }
  destruct i as [|i], j as [|j]; cbn in Hi, Hj.
  - congruence.
  - injection Hi as ->. exfalso. apply (Hhead _ _ _ eq_refl), elem_of_begun. eauto using list_elem_of_lookup_2.
  - injection Hj as ->. exfalso. apply (Hhead _ _ _ eq_refl), elem_of_begun. eauto using list_elem_of_lookup_2.
  - exact (IH Hrest i j Hi Hj).
Qed.

(** The attempt a task carries was begun for what the task connects. *)
Definition attempt_of (st : ConnectState) : option Z :=
  match st with CsCreating id _ | CsGaveUp id _ | CsRegister id _ => Some id | _ => None end.

Definition task_attempt (t : Task) : option Event :=
  match t with
  | ConnectTask profile st => EvBegin SharedSlot profile profile <$> attempt_of st
  | OpenTabTask profile tab st => EvBegin TabSlot tab profile <$> attempt_of st
  | _ => None
  end.

Lemma connect_step_attempt k key p tr ch st m st' m' evs : connect_step k key p tr ch st m = Some (st', m', evs) ->
  attempt_of st' = None \/ attempt_of st' = attempt_of st \/ exists id, attempt_of st' = Some id /\ EvBegin k key p id ∈ evs.
Proof.
  unfold connect_step. destruct st, ch; try discriminate.
  - destruct (begin_connect_attempt _ _ _ _) as [[id rc] m1]. intros [= <- <- <-]. right. right. exists id. set_solver.
  - destruct (_ && _); [|discriminate]. intros [= <- <- <-]. auto.
  - intros [= <- <- <-]. auto.
  - destruct (_ !! _) as [[]|]; try discriminate. intros [= <- <- <-]. auto.
  - destruct (clear_connect_attempt_if_current _ _ _ _). intros [= <- <- <-]. auto.
  - destruct (match k with SharedSlot => _ | TabSlot => _ end) as [[[r|]|] m1]; intros [= <- <- <-]; auto.
  - intros [= <- <- <-]. auto.
  - intros [= <- <- <-]. auto.
Qed.

Lemma task_attempts_begun store c i t e : reachable_from hash_iter store c -> tasks c !! i = Some t ->
  task_attempt t = Some e -> e ∈ trace c.
Proof.
  intros Hr. revert i t e. induction Hr as [|c c' _ IH Hs]; [intros i t e H; discriminate H|]. intros j u e.
  destruct Hs as [m ts tr t Ht|m ts tr i t ch t' m' evs Hi Hs|m ts tr x y z]; cbn in *.
  - intros Hu He. apply lookup_app_Some in Hu as [Hu|[_ Hu]]; [eauto|].
    apply list_lookup_singleton_Some in Hu as [_ <-]. destruct t as [? []|? ? []|? []|? []]; discriminate.
  - intros Hu He. destruct (decide (i = j)) as [<-|Hne]; [|rewrite list_lookup_insert_ne in Hu by done; set_solver].
    rewrite list_lookup_insert_eq in Hu by (eapply lookup_lt_Some; eassumption). injection Hu as <-.
    apply elem_of_app. specialize (IH i t e Hi).
    destruct t as [p st|p tab st|p st|tab st]; unfold task_step in Hs; repeat case_match; try discriminate; simplify_eq; cbn in *.
    all: destruct (connect_step_attempt _ _ _ _ _ _ _ _ _ _ H) as [E|[E|(id & E & Hin)]]; rewrite E in He; cbn in He;
      [discriminate|right; auto|left; congruence].
  - eauto.
Qed.
End attempts_in_runs.

(** ** Registering and disconnecting *)

Section finality.
Context {J : JsonNumber}.

(** The events after which an attempt is no longer the current one. *)
Definition ends_attempt (k : Slot) (key profile : str) (e : Event) : bool :=
  match e with
  | EvBegin k' key' _ _ | EvClear k' key' | EvCancel k' key' | EvRegister k' key' _ _ _ =>
    bool_decide ((k', key') = (k, key))
  | EvCancelTabsOf p => bool_decide (k = TabSlot /\ p = profile)
  | _ => false
  end.

Lemma pending_begun k key p id x tr : foldr (pending_after k key) x tr = Some (p, id) ->
  x = Some (p, id) /\ Forall (fun e => ends_attempt k key p e = false) tr
  \/ exists since before, tr = since ++ EvBegin k key p id :: before /\ Forall (fun e => ends_attempt k key p e = false) since.
Proof.
  induction tr as [|e tr IH]; cbn [foldr]; [intros ->; left; split; [reflexivity|constructor]|]. intros E.
  assert (Hcase : e = EvBegin k key p id
    \/ (ends_attempt k key p e = false /\ foldr (pending_after k key) x tr = Some (p, id))).
  { unfold pending_after in E. unfold ends_attempt.
    destruct e; try (destruct (decide ((_, _) = (k, key))) as [Ek|Ek]; [|rewrite bool_decide_eq_false_2 by exact Ek]);
      try discriminate; simplify_eq; auto.
    destruct k; [rewrite bool_decide_eq_false_2 by naive_solver; auto|].
    destruct (foldr _ _ _) as [[q j]|] eqn:Ef; [|discriminate]. case_decide as Eq; [discriminate|].
    injection E as -> ->. rewrite bool_decide_eq_false_2 by naive_solver. auto. }
  destruct Hcase as [->|[Hn E']].
  - right. exists [], tr. split; [reflexivity|constructor].
  - destruct (IH E') as [[-> Hf]|(since & before & -> & Hf)].
    + left. split; [reflexivity|constructor; assumption].
    + right. exists (e :: since), before. split; [reflexivity|constructor; assumption].
Qed.

Lemma runtime_registered k key p d x tr : foldr (runtime_after k key) x tr = Some (p, d) ->
  x = Some (p, d) \/ exists id newer older, tr = newer ++ EvRegister k key p id d :: older.
Proof.
  induction tr as [|e tr IH]; cbn [foldr]; [auto|]. intros E.
  assert (Hcase : (exists id, e = EvRegister k key p id d) \/ foldr (runtime_after k key) x tr = Some (p, d)).
  { unfold runtime_after in E. destruct e; try (destruct (decide ((_, _) = (k, key))) as [Ek|Ek]);
      try discriminate; simplify_eq; eauto.
    destruct k; [auto|]. destruct (foldr _ _ _) as [[q j]|] eqn:Ef; [|discriminate]. case_decide; [discriminate|]. auto. }
  destruct Hcase as [[id ->]|E'].
  - right. exists id, [], tr. reflexivity.
  - destruct (IH E') as [->|(id & newer & older & ->)]; [auto|]. right. exists id, (e :: newer), older. reflexivity.
Qed.

(** The section that registers a runtime sees its attempt as the current one. *)
Lemma connect_step_registers k key p tr ch st m st' m' evs k' key' p' id d :
  connect_step k key p tr ch st m = Some (st', m', evs) -> EvRegister k' key' p' id d ∈ evs ->
  (k', key', p') = (k, key, p) /\ evs = [EvRegister k key p id d] /\ st = CsRegister id d /\ attempt_is_current k key id m = true.
Proof.
  unfold connect_step. destruct st, ch; try discriminate.
  - destruct (begin_connect_attempt _ _ _ _) as [[id' rc] m1]. intros [= <- <- <-]. set_solver.
  - destruct (_ && _); [|discriminate]. intros [= <- <- <-]. set_solver.
  - intros [= <- <- <-]. set_solver.
  - destruct (_ !! _) as [[]|]; try discriminate. intros [= <- <- <-]. set_solver.
  - destruct (clear_connect_attempt_if_current _ _ _ _) as [[] ?]; intros [= <- <- <-]; set_solver.
  - assert (Hr : forall r m1,
      match k with
      | SharedSlot => let '(r, m) := register_shared key id0 driver now_ms m in (option_map (option_map pr_driver) r, m)
      | TabSlot => let '(r, m) := register_tab p key id0 driver m in (option_map (option_map tr_driver) r, m)
      end = (Some r, m1) -> attempt_is_current k key id0 m = true).
    { intros r m1. destruct k.
      - destruct (register_shared _ _ _ _ _) as [r' m2] eqn:Er. apply register_shared_follows in Er as [-> _].
        destruct r'; [done|discriminate].
      - destruct (register_tab _ _ _ _ _) as [r' m2] eqn:Er. apply register_tab_follows in Er as [-> _].
        destruct r'; [done|discriminate]. }
    destruct (match k with SharedSlot => _ | TabSlot => _ end) as [[r|] m1].
    + specialize (Hr _ _ eq_refl). intros E Hin.
      assert (Ee : evs = [EvRegister k key p id0 driver]) by (destruct r; simplify_eq; reflexivity).
      subst evs. apply list_elem_of_singleton in Hin. injection Hin as -> -> -> -> ->. auto.
    + intros [= <- <- <-]. set_solver.
  - intros [= <- <- <-]. set_solver.
  - intros [= <- <- <-]. set_solver.
Qed.

Context (hash_iter : forall A, gmap str A -> list (str * A)).

Lemma disconnect_registers_none p ch st m st' m' evs k key q id d :
  disconnect_step hash_iter p ch st m = Some (st', m', evs) -> EvRegister k key q id d ∉ evs.
Proof.
  unfold disconnect_step. destruct st as [|cs|cs n|cs n|cs n|cs n removed|[|x ds]|], ch; try discriminate;
    intros E; repeat case_match; simplify_eq; set_solver.
Qed.

Lemma close_tab_registers_none tab ch st m st' m' evs k key q id d :
  close_tab_step tab ch st m = Some (st', m', evs) -> EvRegister k key q id d ∉ evs.
Proof.
  unfold close_tab_step. destruct st, ch; try discriminate; intros E; repeat case_match; simplify_eq; set_solver.
Qed.

Lemma register_event_splits (evs tr newer older : list Event) e :
  evs ++ tr = newer ++ e :: older ->
  (exists newer', newer = evs ++ newer' /\ tr = newer' ++ e :: older) \/ (exists rest, evs = newer ++ e :: rest /\ older = rest ++ tr).
Proof.
  intros E. apply app_eq_app in E as [l [[-> E]|[-> E]]].
  - destruct l as [|x l]; cbn in E.
    + left. exists []. rewrite !app_nil_r. auto.
    + injection E as -> ->. right. exists l. auto.
  - left. exists l. auto.
Qed.

Context (hash_iter_perm : forall A (m : gmap str A), hash_iter A m ≡ₚ map_to_list m).

Lemma registered_pending store c newer older k key p id d : reachable_from hash_iter store c ->
  countable_attempts (trace c) -> trace c = newer ++ EvRegister k key p id d :: older ->
  pending k key older = Some (p, id) /\ d ∈ created older.
Proof.
  intros Hr. revert newer older. induction Hr as [|c c' Hr IH Hs]; [intros ? ? _ E; destruct newer; discriminate|].
  intros newer older Hc Et. destruct Hs as [m ts tr t Ht|m ts tr i t ch t' m' evs Hi Hs|m ts tr x y z]; cbn in *; [eauto| |eauto].
  destruct (register_event_splits _ _ _ _ _ Et) as [(newer' & -> & Et')|(rest & -> & ->)].
  { eapply IH; [|exact Et']. eapply countable_attempts_app; exact Hc. }
  apply countable_attempts_app in Hc.
  assert (Hin : EvRegister k key p id d ∈ newer ++ EvRegister k key p id d :: rest) by set_solver.
  assert (Hstep : exists st, task_attempt t = Some (EvBegin k key p id) /\ task_drivers t = [d]
    /\ newer ++ EvRegister k key p id d :: rest = [EvRegister k key p id d] /\ attempt_is_current k key id m = true /\ st = t).
  { exists t. unfold task_step in Hs. destruct t; repeat case_match; try discriminate; simplify_eq.
    1,2: destruct (connect_step_registers _ _ _ _ _ _ _ _ _ _ _ _ _ _ _ H Hin) as (Ek & Ee & -> & Hcur); simplify_eq; auto.
    - destruct (disconnect_registers_none _ _ _ _ _ _ _ _ _ _ _ _ H Hin).
    - destruct (close_tab_registers_none _ _ _ _ _ _ _ _ _ _ _ _ H Hin). }
  destruct Hstep as (_ & Hatt & Hdr & Ee & Hcur & _).
  assert (Erest : rest = []) by (destruct newer as [|? [|]]; cbn in Ee; congruence). subst rest. cbn [app].
  split.
  - destruct (tables_logged hash_iter hash_iter_perm _ _ Hr k key) as [Hp _]. cbn in Hp. unfold attempt_at in Hp.
    unfold attempt_is_current in Hcur. destruct (attempts k m !! key) as [a|]; [|discriminate].
    apply Z.eqb_eq in Hcur. subst id. cbn in Hp. unfold pending. rewrite <-Hp. do 2 f_equal.
    pose proof (task_attempts_begun hash_iter _ _ _ _ _ Hr Hi Hatt) as Hb1. cbn in Hb1.
    destruct (pending_begun _ _ _ _ _ _ (eq_sym Hp)) as [[Hx _]|(since & before & Etr & _)]; [discriminate|].
    assert (Hb2 : EvBegin k key (at_profile_id a) (at_id a) ∈ tr) by (rewrite Etr; set_solver).
    destruct (attempts_numbered hash_iter _ _ Hr Hc) as (_ & Hd & _). cbn in Hd.
    pose proof (begun_once _ _ _ _ _ _ _ _ Hd Hb1 Hb2). congruence.
  - pose proof (accounted hash_iter _ _ Hr) as Ha. cbn in Ha. rewrite Ha, elem_of_app. right.
    apply elem_of_app. left. apply list_elem_of_In, in_concat. exists [d]. split; [|left; reflexivity].
    rewrite <-Hdr. apply in_map, list_elem_of_In. eapply list_elem_of_lookup_2. exact Hi.
Qed.

(** Only the current attempt registers its runtime.  In any interleaving of calls
    with fewer than 2^64 attempts, when a runtime is put into the table of its profile or
    tab, the attempt that created it began earlier for that profile, its driver had been
    created, and since the attempt began no newer attempt for the same key began and none
    of the key's attempts was cancelled, cleared or registered. *)
Theorem registered_attempt_was_current store c newer older k key p id d :
  reachable_from hash_iter store c -> countable_attempts (trace c) ->
  trace c = newer ++ EvRegister k key p id d :: older ->
  EvCreated d ∈ older
  /\ exists since before, older = since ++ EvBegin k key p id :: before
     /\ Forall (fun e => ends_attempt k key p e = false) since.
Proof.
  intros Hr Hc Et. destruct (registered_pending _ _ _ _ _ _ _ _ _ Hr Hc Et) as [Hp Hd]. split.
  - unfold created in Hd. apply list_elem_of_omap in Hd as (e & Hin & He). destruct e; try discriminate. congruence.
  - destruct (pending_begun _ _ _ _ _ _ Hp) as [[Hx _]|H]; [discriminate|exact H].
Qed.

(** A log in which [key] was cancelled, then removed: the runtime it has now was begun
    since the cancellation and registered since the removal. *)
Lemma fresh_runtime store c k key p d now_since removed since_cancel canceled before :
  reachable_from hash_iter store c -> countable_attempts (trace c) ->
  trace c = now_since ++ removed :: since_cancel ++ canceled :: before ->
  (forall x, runtime_after k key removed x <> Some (p, d)) ->
  (forall x id, pending_after k key canceled x <> Some (p, id)) ->
  runtime_at k key (manager_of c) = Some (p, d) ->
  exists id, EvBegin k key p id ∈ now_since ++ removed :: since_cancel /\ EvRegister k key p id d ∈ now_since.
Proof.
  intros Hr Hc Et Hrem Hcan Hrt. destruct (tables_logged hash_iter hash_iter_perm _ _ Hr k key) as [_ H2].
  rewrite Hrt, Et in H2. unfold runtime_of in H2. rewrite foldr_app in H2. symmetry in H2.
  destruct (runtime_registered _ _ _ _ _ _ H2) as [Hx|(id & newer & older & ->)]; [destruct (Hrem _ Hx)|].
  rewrite <-app_assoc in Et. cbn in Et. destruct (registered_pending _ _ _ _ _ _ _ _ _ Hr Hc Et) as [Hp _].
  exists id. split; [|set_solver]. unfold pending in Hp.
  replace (older ++ removed :: since_cancel ++ canceled :: before)
    with ((older ++ removed :: since_cancel) ++ canceled :: before) in Hp by (rewrite <-app_assoc; reflexivity).
  rewrite foldr_app in Hp. destruct (pending_begun _ _ _ _ _ _ Hp) as [[Hx _]|(s & b & E & _)]; [destruct (Hcan _ _ Hx)|].
  assert (Hin : EvBegin k key p id ∈ older ++ removed :: since_cancel) by (rewrite E; set_solver). set_solver.
Qed.

(** What a disconnect has done by the time it is in a state. *)
Definition disconnect_done (profile : str) (st : DisconnectState) (log : list Event) : Prop :=
  let canceled := fun log => exists b c, log = b ++ EvCancel SharedSlot profile :: c in
  let tabs_canceled := fun log => exists a b c, log = a ++ EvCancelTabsOf profile :: b ++ EvCancel SharedSlot profile :: c in
  let removed := fun log => exists x a b c,
    log = x ++ EvRemove SharedSlot profile :: a ++ EvCancelTabsOf profile :: b ++ EvCancel SharedSlot profile :: c in
  match st with
  | DsStart | DsDone (Err _) => True
  | DsTabAttempts _ => canceled log
  | DsDiscard _ _ | DsRelease _ _ | DsShared _ _ => tabs_canceled log
  | DsTabs _ _ _ => removed log
  | DsClosing _ | DsDone (Ok _) =>
    exists y rest, log = y ++ EvRemoveTabsOf profile :: rest /\ removed rest
  end.

Lemma disconnect_done_app p st log evs : disconnect_done p st log -> disconnect_done p st (evs ++ log).
Proof.
  destruct st as [| | | | | | |[]]; cbn; try done.
  - intros (b & c & ->). exists (evs ++ b), c. by rewrite app_assoc.
  - intros (a & b & c & ->). exists (evs ++ a), b, c. by rewrite app_assoc.
  - intros (a & b & c & ->). exists (evs ++ a), b, c. by rewrite app_assoc.
  - intros (a & b & c & ->). exists (evs ++ a), b, c. by rewrite app_assoc.
  - intros (x & a & b & c & ->). exists (evs ++ x), a, b, c. by rewrite app_assoc.
  - intros (y & rest & -> & H). exists (evs ++ y), rest. by rewrite app_assoc.
  - intros (y & rest & -> & H). exists (evs ++ y), rest. by rewrite app_assoc.
Qed.

Lemma disconnect_step_done p ch st m st' m' evs log : disconnect_step hash_iter p ch st m = Some (st', m', evs) ->
  disconnect_done p st log -> disconnect_done p st' (evs ++ log).
Proof.
  unfold disconnect_step. destruct st as [|cs|cs n|cs n|cs n|cs n removed|[|d ds]|], ch; try discriminate.
  - destruct (cancel_shared_connect_attempt _ _). intros [= <- <- <-] _. exists [], log. reflexivity.
  - destruct (cancel_tab_connect_attempts_for_profile _ _ _) as [n m1]. intros [= <- <- <-] (b & c & ->). exists [], b, c. reflexivity.
  - destruct (discard_profile _ _ _) as [[] ?]; intros [= <- <- <-]; [exact id|done].
  - destruct (release_profile _ _ _) as [[] ?]; intros [= <- <- <-]; [exact id|done].
  - destruct (take_shared _ _) as [o m1]. intros [= <- <- <-] (a & b & c & ->). exists [], a, b, c. reflexivity.
  - destruct (take_tabs_of_profile _ _ _) as [ds m1]. intros [= <- <- <-] Hd.
    assert (Hc : forall l, disconnect_done p (DsClosing l) (EvRemoveTabsOf p :: log)) by (intros l; exists [], log; auto).
    destruct removed; [apply Hc|]. destruct (_ && _); [exact I|apply Hc].
  - intros [= <- <- <-]. exact id.
  - destruct r; intros [= <- <- <-]; [apply (disconnect_done_app p (DsClosing _) log [_])|done].
Qed.

Definition close_tab_done (tab : str) (st : CloseTabState) (log : list Event) : Prop :=
  match st with
  | TsStart | TsDone (Err _) => True
  | TsDiscard | TsRelease | TsRemove => exists b c, log = b ++ EvCancel TabSlot tab :: c
  | TsClosing _ | TsDone (Ok _) => exists a b c, log = a ++ EvRemove TabSlot tab :: b ++ EvCancel TabSlot tab :: c
  end.

Lemma close_tab_done_app tab st log evs : close_tab_done tab st log -> close_tab_done tab st (evs ++ log).
Proof.
  destruct st as [| | | |d|[u|e]]; cbn; try done.
  1-3: intros (b & c & ->); exists (evs ++ b), c; by rewrite app_assoc.
  1-2: intros (a & b & c & ->); exists (evs ++ a), b, c; by rewrite app_assoc.
Qed.

Lemma close_tab_step_done tab ch st m st' m' evs log : close_tab_step tab ch st m = Some (st', m', evs) ->
  close_tab_done tab st log -> close_tab_done tab st' (evs ++ log).
Proof.
  unfold close_tab_step. destruct st, ch; try discriminate.
  - destruct (cancel_tab_connect_attempt _ _). intros [= <- <- <-] _. exists [], log. reflexivity.
  - destruct (discard_tab _ _) as [[] c]; intros [= <- <- <-]; [exact id|done].
  - destruct (release_tab _ _ _) as [[] s]; intros [= <- <- <-]; [exact id|done].
  - destruct (take_tab _ _) as [[r|] m1]; intros [= <- <- <-] (b & c' & ->); exists [], b, c'; reflexivity.
  - destruct r; intros [= <- <- <-]; [apply (close_tab_done_app tab (TsClosing _) log [_])|done].
Qed.

Definition task_done (t : Task) (log : list Event) : Prop :=
  match t with
  | DisconnectTask profile st => disconnect_done profile st log
  | CloseTabTask tab st => close_tab_done tab st log
  | _ => True
  end.

(** What a task does: it stays the task of its profile or tab. *)
Definition same_call (t t' : Task) : Prop :=
  match t, t' with
  | ConnectTask p _, ConnectTask p' _ => p' = p
  | OpenTabTask p tab _, OpenTabTask p' tab' _ => p' = p /\ tab' = tab
  | DisconnectTask p _, DisconnectTask p' _ => p' = p
  | CloseTabTask tab _, CloseTabTask tab' _ => tab' = tab
  | _, _ => False
  end.

Lemma task_run c0 c1 i t0 : tasks c0 !! i = Some t0 -> initial_task t0 = true -> rtc (step hash_iter) c0 c1 ->
  exists t newer, tasks c1 !! i = Some t /\ same_call t0 t /\ trace c1 = newer ++ trace c0 /\ task_done t newer.
Proof.
  intros H0 Hini. revert c1. refine (rtc_ind_r _ _ _ _); [|intros c1 c2 _ Hs IH].
  { exists t0, []. split_and!; [assumption| |reflexivity|]; destruct t0 as [? []|? ? []|? []|? []]; try discriminate; cbn; auto. }
  destruct IH as (t & newer & Ht & Hc & Etr & Hd).
  destruct Hs as [m ts tr u Hu|m ts tr j u ch u' m' evs Hj Hs|m ts tr x y z]; cbn in *.
  - exists t, newer. split_and!; [apply lookup_app_l_Some|..]; assumption.
  - destruct (decide (j = i)) as [->|Hne].
    + exists u', (evs ++ newer). rewrite list_lookup_insert_eq by (eapply lookup_lt_Some; eassumption).
      assert (u = t) as -> by congruence. rewrite Etr, app_assoc.
      unfold task_step in Hs. destruct t; repeat case_match; try discriminate; simplify_eq;
        (split; [reflexivity|split; [destruct t0; exact Hc|split; [reflexivity|]]]); cbn in *; try exact I.
      * eapply disconnect_step_done; eassumption.
      * eapply close_tab_step_done; eassumption.
    + exists t, (evs ++ newer). rewrite list_lookup_insert_ne by assumption. rewrite Etr, app_assoc.
      split_and!; [assumption..|reflexivity|]. destruct t; cbn in *; try exact I.
      * apply disconnect_done_app, Hd.
      * apply close_tab_done_app, Hd.
  - exists t, newer. auto.
Qed.

Lemma reachable_rtc store c0 c1 : reachable_from hash_iter store c0 -> rtc (step hash_iter) c0 c1 ->
  reachable_from hash_iter store c1.
Proof. intros Hr Hs. induction Hs as [|c0 c1 c2 Hs _ IH]; [assumption|]. apply IH. econstructor; eassumption. Qed.

(** C20: a disconnect leaves no runtime of an earlier attempt.  From the moment
    [disconnect_profile] has emptied the tables (it is closing drivers, or it returned
    [Ok]), whatever ran concurrently, every runtime of the profile that is registered,
    shared or of a tab, comes from an attempt that began, and was registered, after the
    disconnect was called; a connect that was under way when the disconnect was called
    never brings its runtime back. *)
Theorem disconnect_is_final store c0 c1 i p st k key d :
  reachable_from hash_iter store c0 -> tasks c0 !! i = Some (DisconnectTask p DsStart) ->
  rtc (step hash_iter) c0 c1 -> countable_attempts (trace c1) ->
  tasks c1 !! i = Some (DisconnectTask p st) ->
  match st with DsClosing _ | DsDone (Ok _) => True | _ => False end ->
  runtime_at k key (manager_of c1) = Some (p, d) ->
  exists newer id, trace c1 = newer ++ trace c0 /\ EvBegin k key p id ∈ newer /\ EvRegister k key p id d ∈ newer.
Proof.
  intros Hr H0 Hs Hc H1 Hst Hrt. destruct (task_run _ _ _ _ H0 eq_refl Hs) as (t & newer & Ht & _ & Etr & Hd).
  rewrite H1 in Ht. injection Ht as <-. cbn in Hd.
  assert (Hd' : exists y x a b c, newer = y ++ EvRemoveTabsOf p :: x ++ EvRemove SharedSlot p :: a ++ EvCancelTabsOf p :: b ++ EvCancel SharedSlot p :: c).
  { destruct st as [| | | | | | |[u|e]]; try contradiction; destruct Hd as (y & rest & -> & x & a & b & c & ->); eauto 10. }
  clear Hd. destruct Hd' as (y & x & a & b & c & En). exists newer.
  pose proof (reachable_rtc _ _ _ Hr Hs) as Hr1.
  assert (Hfresh : exists now rem since can before, newer = now ++ rem :: since ++ can :: before
    /\ (forall x, runtime_after k key rem x <> Some (p, d)) /\ (forall x id, pending_after k key can x <> Some (p, id))).
  { destruct k.
    - cbn in Hrt. destruct (shared (manager_of c1) !! key); [|discriminate]. injection Hrt as -> _.
      exists (y ++ EvRemoveTabsOf p :: x), (EvRemove SharedSlot p), (a ++ EvCancelTabsOf p :: b), (EvCancel SharedSlot p), c.
      split; [subst newer; by rewrite <-!app_assoc|]. cbn [runtime_after pending_after].
      split; intros; rewrite decide_True by reflexivity; discriminate.
    - exists y, (EvRemoveTabsOf p), (x ++ EvRemove SharedSlot p :: a), (EvCancelTabsOf p), (b ++ EvCancel SharedSlot p :: c).
      split; [subst newer; by rewrite <-!app_assoc|]. cbn [runtime_after pending_after]. split.
      + intros [[q z]|]; [case_decide; congruence|discriminate].
      + intros [[q z]|] id; [case_decide; congruence|discriminate]. }
  destruct Hfresh as (now & rem & since & can & before & En' & Hrem & Hcan).
  assert (Etr' : trace c1 = now ++ rem :: since ++ can :: (before ++ trace c0)).
  { rewrite Etr, En', <-app_assoc. cbn. by rewrite <-app_assoc. }
  destruct (fresh_runtime _ _ _ _ _ _ _ _ _ _ _ Hr1 Hc Etr' Hrem Hcan Hrt) as (id & Hb & Hg).
  exists id. split; [exact Etr|]. rewrite En'. set_solver.
Qed.

(** Closing a tab leaves no runtime of an earlier attempt: once [close_tab_runtime]
    has emptied the tab's entry, a runtime registered for the tab comes from an attempt
    that began after the tab was closed. *)
Theorem close_tab_is_final store c0 c1 i tab st p d :
  reachable_from hash_iter store c0 -> tasks c0 !! i = Some (CloseTabTask tab TsStart) ->
  rtc (step hash_iter) c0 c1 -> countable_attempts (trace c1) ->
  tasks c1 !! i = Some (CloseTabTask tab st) ->
  match st with TsClosing _ | TsDone (Ok _) => True | _ => False end ->
  runtime_at TabSlot tab (manager_of c1) = Some (p, d) ->
  exists newer id, trace c1 = newer ++ trace c0 /\ EvBegin TabSlot tab p id ∈ newer /\ EvRegister TabSlot tab p id d ∈ newer.
Proof.
  intros Hr H0 Hs Hc H1 Hst Hrt. destruct (task_run _ _ _ _ H0 eq_refl Hs) as (t & newer & Ht & _ & Etr & Hd).
  rewrite H1 in Ht. injection Ht as <-. cbn in Hd.
  assert (Hd' : exists a b c, newer = a ++ EvRemove TabSlot tab :: b ++ EvCancel TabSlot tab :: c).
  { destruct st as [| | | |dr|[u|e]]; try contradiction; exact Hd. }
  destruct Hd' as (a & b & c & En). pose proof (reachable_rtc _ _ _ Hr Hs) as Hr1.
  assert (Etr' : trace c1 = a ++ EvRemove TabSlot tab :: b ++ EvCancel TabSlot tab :: (c ++ trace c0)).
  { rewrite Etr, En, <-app_assoc. cbn. by rewrite <-app_assoc. }
  destruct (fresh_runtime _ _ TabSlot tab p d _ _ _ _ _ Hr1 Hc Etr') as (id & Hb & Hg); [..|exact Hrt|].
  - intros x. cbn [runtime_after]. rewrite decide_True by reflexivity. discriminate.
  - intros x id. cbn [pending_after]. rewrite decide_True by reflexivity. discriminate.
  - exists newer, id. split; [exact Etr|]. rewrite En. set_solver.
Qed.
End finality.

(** ** Where drivers are *)

Section drivers.
Context {J : JsonNumber} (hash_iter : forall A, gmap str A -> list (str * A)).

Lemma created_ids_app tr tr' : created_ids (tr ++ tr') = created_ids tr ++ created_ids tr'.
Proof. apply omap_app. Qed.

Lemma created_ids_created tr : created_ids tr = map dr_id (created tr).
Proof. induction tr as [|[] tr IH]; cbn; try exact IH; [reflexivity|f_equal; exact IH]. Qed.

(** A section creates at most one driver, one that did not exist, and it drops drivers
    only when closing one failed. *)
Definition creates (tr evs : list Event) : Prop :=
  (created_ids evs = [] \/ exists n, created_ids evs = [n] /\ n ∉ created_ids tr)
  /\ (dropped evs <> [] -> exists d, EvClosed d false ∈ evs).

Lemma creates_none tr evs : Forall (fun e => match e with EvCreated _ | EvDropped _ => False | _ => True end) evs -> creates tr evs.
Proof.
  intros Hl. assert (E : created_ids evs = [] /\ dropped evs = []) by (induction Hl as [|[] ? Hx _ IH]; cbn in *; tauto).
  unfold creates. destruct E as [-> ->]. split; [left; reflexivity|congruence].
Qed.

Lemma connect_step_creates k key p tr ch st m st' m' evs : connect_step k key p tr ch st m = Some (st', m', evs) -> creates tr evs.
Proof.
  unfold connect_step. destruct st, ch; try discriminate.
  - destruct (begin_connect_attempt _ _ _ _) as [[id rc] m1]. intros [= <- <- <-]. apply creates_none. repeat constructor.
  - destruct (bool_decide (dr_id d ∉ created_ids tr)) eqn:Eb; [|discriminate]. apply bool_decide_eq_true_1 in Eb.
    destruct (_ && _); [|discriminate]. intros [= <- <- <-]. split; [right; exists (dr_id d); auto|cbn; congruence].
  - intros [= <- <- <-]. apply creates_none. constructor.
  - destruct (_ !! _) as [[]|]; try discriminate. intros [= <- <- <-]. apply creates_none. constructor.
  - destruct (clear_connect_attempt_if_current _ _ _ _) as [[] m1]; intros [= <- <- <-]; apply creates_none; repeat constructor.
  - destruct (match k with SharedSlot => _ | TabSlot => _ end) as [[[r|]|] m1]; intros [= <- <- <-]; apply creates_none; repeat constructor.
  - intros [= <- <- <-]. apply creates_none. repeat constructor.
  - intros [= <- <- <-]. apply creates_none. repeat constructor.
Qed.

Lemma task_step_creates tr ch t m t' m' evs : task_step hash_iter tr ch t m = Some (t', m', evs) -> creates tr evs.
Proof.
  unfold task_step. destruct t as [p st|p tab st|p st|tab st]; intros E; repeat case_match; try discriminate; simplify_eq.
  1,2: eapply connect_step_creates; eassumption.
  - revert H. unfold disconnect_step. destruct st as [|cs|cs n|cs n|cs n|cs n removed|[|x ds]|], ch; try discriminate;
      intros E; repeat case_match; simplify_eq; try solve [apply creates_none; repeat constructor].
    split; [|intros _; exists x; set_solver]. left. rewrite created_ids_app. cbn. rewrite app_nil_r.
    clear. induction ds; [reflexivity|assumption].
  - revert H. unfold close_tab_step. destruct st, ch; try discriminate; intros E; repeat case_match; simplify_eq;
      apply creates_none; repeat constructor.
Qed.

Lemma created_once store c : reachable_from hash_iter store c -> NoDup (created_ids (trace c)).
Proof.
  induction 1 as [|c c' _ IH Hs]; [constructor|]. destruct Hs as [m ts tr t Ht|m ts tr i t ch t' m' evs Hi Hs|m ts tr x y z]; cbn in *; [exact IH| |exact IH].
  rewrite created_ids_app. apply task_step_creates in Hs as [[->|(n & -> & Hn)] _]; [exact IH|]. constructor; assumption.
Qed.

Lemma dropped_after_failure store c : reachable_from hash_iter store c -> dropped (trace c) <> [] ->
  exists d, EvClosed d false ∈ trace c.
Proof.
  induction 1 as [|c c' _ IH Hs]; [intros H; destruct (H eq_refl)|].
  destruct Hs as [m ts tr t Ht|m ts tr i t ch t' m' evs Hi Hs|m ts tr x y z]; cbn in *; [exact IH| |exact IH].
  unfold dropped. rewrite omap_app. apply task_step_creates in Hs as [_ Hd]. intros Hne.
  destruct (decide (dropped evs = [])) as [E|E].
  - unfold dropped in E. rewrite E in Hne. destruct (IH Hne) as [d Hin]. exists d. set_solver.
  - destruct (Hd E) as [d Hin]. exists d. set_solver.
Qed.

(** C21: every driver that was created is in exactly one place: registered in one of the
    tables, carried by one call that will register or close it, closed, or dropped
    without being closed; none is closed twice, none is both registered and closed.
    A driver is dropped unclosed only when closing another one failed. *)
Theorem drivers_are_accounted_for store c : reachable_from hash_iter store c ->
  created (trace c) ≡ₚ held (manager_of c) ++ concat (map task_drivers (tasks c)) ++ closed (trace c) ++ dropped (trace c)
  /\ NoDup (map dr_id (held (manager_of c) ++ concat (map task_drivers (tasks c)) ++ closed (trace c) ++ dropped (trace c)))
  /\ (dropped (trace c) <> [] -> exists d, EvClosed d false ∈ trace c).
Proof.
  intros Hr. pose proof (accounted hash_iter _ _ Hr) as Ha. split; [exact Ha|]. split.
  - rewrite <-Ha, <-created_ids_created. exact (created_once _ _ Hr).
  - exact (dropped_after_failure _ _ Hr).
Qed.

(** The drivers a call carries, and those registered, are of the profile they serve. *)
Definition task_profile_ok (t : Task) : Prop :=
  match t with
  | ConnectTask p (CsRegister _ d) | OpenTabTask p _ (CsRegister _ d) => dr_profile_id d = p
  | _ => True
  end.

Definition register_ok (e : Event) : Prop :=
  match e with
  | EvRegister k key p _ d => dr_profile_id d = p /\ key_of k key p
  | _ => True
  end.

Lemma connect_step_profile k key p tr ch st m st' m' evs : connect_step k key p tr ch st m = Some (st', m', evs) ->
  key_of k key p -> (forall id d, st = CsRegister id d -> dr_profile_id d = p) ->
  (forall id d, st' = CsRegister id d -> dr_profile_id d = p) /\ Forall register_ok evs.
Proof.
  intros E Hk Hp. split.
  - revert E. unfold connect_step. destruct st, ch; try discriminate; intros E; repeat case_match; simplify_eq; try (intros; discriminate).
    intros id1 d1 [= <- <-]. apply andb_true_iff in H as [_ H]. exact (bool_decide_eq_true_1 _ H).
  - apply Forall_forall. intros e Hin. destruct e as [| | | | |k' key' p' id' d'| | | |]; cbn; try exact I.
    destruct (connect_step_registers _ _ _ _ _ _ _ _ _ _ _ _ _ _ _ E Hin) as (Ek & _ & Est & _).
    injection Ek as -> -> ->. split; [eapply Hp; exact Est|exact Hk].
Qed.

Lemma task_step_profile tr ch t m t' m' evs : task_step hash_iter tr ch t m = Some (t', m', evs) ->
  task_profile_ok t -> task_profile_ok t' /\ Forall register_ok evs.
Proof.
  unfold task_step. destruct t as [p st|p tab st|p st|tab st]; intros E Hp; repeat case_match; try discriminate; simplify_eq.
  - destruct (connect_step_profile _ _ _ _ _ _ _ _ _ _ H) as [H1 H2]; [reflexivity|intros ? ? ->; exact Hp|].
    split; [|exact H2]. destruct c; try exact I. cbn. eauto.
  - destruct (connect_step_profile _ _ _ _ _ _ _ _ _ _ H) as [H1 H2]; [exact I|intros ? ? ->; exact Hp|].
    split; [|exact H2]. destruct c; try exact I. cbn. eauto.
  - split; [exact I|]. apply Forall_forall. intros [] Hin; cbn; try exact I.
    destruct (disconnect_registers_none _ _ _ _ _ _ _ _ _ _ _ _ _ H Hin).
  - split; [exact I|]. apply Forall_forall. intros [] Hin; cbn; try exact I.
    destruct (close_tab_registers_none _ _ _ _ _ _ _ _ _ _ _ _ H Hin).
Qed.

Lemma profiles_ok store c : reachable_from hash_iter store c ->
  Forall task_profile_ok (tasks c) /\ Forall register_ok (trace c).
Proof.
  induction 1 as [|c c' _ IH Hs]; [split; constructor|].
  destruct Hs as [m ts tr t Ht|m ts tr i t ch t' m' evs Hi Hs|m ts tr x y z]; cbn in *; destruct IH as [H1 H2].
  - split; [|exact H2]. apply Forall_app. split; [exact H1|]. constructor; [|constructor].
    destruct t as [? []|? ? []|? []|? []]; try discriminate; exact I.
  - apply task_step_profile in Hs as [Ht' He]; [|eapply Forall_lookup_1; eassumption].
    split; [apply Forall_insert; assumption|apply Forall_app; split; assumption].
  - split; assumption.
Qed.

Lemma elem_of_table_drivers {A} (f : A -> Driver) (m : gmap str A) key x : m !! key = Some x -> f x ∈ table_drivers f m.
Proof.
  intros E. apply list_elem_of_In, in_map_iff. exists (key, x). split; [reflexivity|].
  apply list_elem_of_In, elem_of_map_to_list, E.
Qed.

Context (hash_iter_perm : forall A (m : gmap str A), hash_iter A m ≡ₚ map_to_list m).

Lemma runtime_at_profile store c k key p d : reachable_from hash_iter store c ->
  runtime_at k key (manager_of c) = Some (p, d) -> dr_profile_id d = p /\ key_of k key p.
Proof.
  intros Hr E. destruct (tables_logged hash_iter hash_iter_perm _ _ Hr k key) as [_ Hl]. rewrite E in Hl. symmetry in Hl.
  destruct (runtime_registered _ _ _ _ _ _ Hl) as [Hx|(id & newer & older & Et)]; [discriminate|].
  destruct (profiles_ok _ _ Hr) as [_ Hf]. rewrite Et in Hf. apply Forall_app in Hf as [_ Hf].
  apply Forall_cons in Hf as [Hf _]. exact Hf.
Qed.

(** The driver a statement is routed to is live and of the right profile: when the
    driver of a profile, or of a tab for a profile, is found, it was created for that
    profile, it has not been closed or dropped, and no concurrent call is about to close
    it. *)
Theorem routed_driver_is_live store c profile tab d : reachable_from hash_iter store c ->
  driver_for_profile_or_tab profile tab (manager_of c) = Ok d ->
  dr_profile_id d = profile /\ d ∈ created (trace c) /\ d ∉ closed (trace c) /\ d ∉ dropped (trace c)
  /\ (forall t, t ∈ tasks c -> d ∉ task_drivers t).
Proof.
  intros Hr E.
  assert (Hd : dr_profile_id d = profile /\ d ∈ held (manager_of c)).
  { unfold driver_for_profile_or_tab, shared_driver, shared_runtime in E. unfold held. rewrite elem_of_app.
    destruct tab as [tab|].
    - destruct (tabs (manager_of c) !! tab) as [r|] eqn:Er; [|discriminate]. cbn in E.
      destruct (str_eqb (tr_profile_id r) profile) eqn:Ep; [|discriminate]. injection E as <-.
      apply bool_decide_eq_true_1 in Ep. subst profile. split; [|right; eapply elem_of_table_drivers; exact Er].
      apply (runtime_at_profile _ _ TabSlot tab _ _ Hr). cbn. rewrite Er. reflexivity.
    - destruct (shared (manager_of c) !! profile) as [r|] eqn:Er; [|discriminate]. injection E as <-.
      split; [|left; eapply elem_of_table_drivers; exact Er].
      apply (runtime_at_profile _ _ SharedSlot profile _ _ Hr). cbn. rewrite Er. reflexivity. }
  destruct Hd as [Hp Hh]. split; [exact Hp|]. pose proof (accounted hash_iter _ _ Hr) as Ha.
  assert (Hn : NoDup (created (trace c))).
  { apply (NoDup_fmap_1 dr_id). change (NoDup (map dr_id (created (trace c)))). rewrite <-created_ids_created. exact (created_once _ _ Hr). }
  split; [rewrite Ha; set_solver|]. rewrite Ha in Hn. apply NoDup_app in Hn as (_ & Hn & _). specialize (Hn _ Hh).
  rewrite !elem_of_app in Hn. split_and!; [tauto|tauto|]. intros t Ht Hin. apply Hn. left.
  apply list_elem_of_In, in_concat. exists (task_drivers t). split; [apply in_map|]; apply list_elem_of_In; assumption.
Qed.
End drivers.

(** ** Superseded attempts *)

Section signals.
Context {J : JsonNumber}.

Definition raised (m : ConnectionRuntimeManager) (receiver : nat) : Prop := cancel_channels m !! receiver = Some true.

(** A section loses no attempt without signalling it, except the one its task carries. *)
Definition signals (own : option Z) (m m' : ConnectionRuntimeManager) : Prop :=
  length (cancel_channels m) <= length (cancel_channels m')
  /\ (forall rc, raised m rc -> raised m' rc)
  /\ (forall k key a, attempts k m !! key = Some a -> at_cancel a < length (cancel_channels m) ->
        attempts k m' !! key = Some a \/ raised m' (at_cancel a) \/ own = Some (at_id a)).

Lemma signals_same own m m' : cancel_channels m' = cancel_channels m -> (forall k, attempts k m' = attempts k m) -> signals own m m'.
Proof. intros E1 E2. unfold signals, raised. rewrite E1. split_and!; [done|auto|]. intros k key a. rewrite E2. auto. Qed.

Lemma signals_trans own m1 m2 m3 : signals own m1 m2 -> signals own m2 m3 -> signals own m1 m3.
Proof.
  intros (L1 & R1 & A1) (L2 & R2 & A2). split_and!; [lia|auto|]. intros k key a Ha Hl.
  destruct (A1 k key a Ha Hl) as [H|[H|H]]; [|auto..]. apply (A2 k key a H). lia.
Qed.

Lemma raised_signal a m rc : raised m rc -> raised (signal a m) rc.
Proof.
  unfold raised, signal. cbn. intros H. destruct (decide (at_cancel a = rc)) as [<-|Hne].
  - apply list_lookup_insert_eq. eapply lookup_lt_Some. exact H.
  - rewrite list_lookup_insert_ne by exact Hne. exact H.
Qed.

Lemma signal_raises a m : at_cancel a < length (cancel_channels m) -> raised (signal a m) (at_cancel a).
Proof. intros H. apply list_lookup_insert_eq. exact H. Qed.

Lemma begin_signals own k key p m : signals own m (begin_connect_attempt k key p m).2.
Proof.
  unfold begin_connect_attempt. cbn [fetch_attempt_id fst snd].
  set (m1 := set_channels _ _). set (m2 := set_attempts k _ m1).
  assert (L : cancel_channels m2 = cancel_channels m ++ [false]) by (destruct k; reflexivity).
  assert (R : forall rc, raised m rc -> raised m2 rc) by (intros rc H; unfold raised; rewrite L; apply lookup_app_l_Some, H).
  assert (A : forall k' key' a, attempts k' m !! key' = Some a -> attempts k' m2 !! key' = Some a
    \/ (attempts k m1 !! key = Some a)).
  { intros k' key' a Ha. assert (Ea : attempts k' m1 = attempts k' m) by (destruct k'; reflexivity).
    unfold m2. rewrite attempts_set. destruct (decide (k = k')) as [<-|]; [|left; rewrite Ea; exact Ha].
    destruct (decide (key = key')) as [<-|Hne]; [right; rewrite Ea; exact Ha|].
    left. rewrite lookup_insert_ne, Ea by exact Hne. exact Ha. }
  destruct (attempts k m1 !! key) as [b|].
  - split_and!.
    + cbn. rewrite length_insert, L, length_app. cbn. lia.
    + intros rc H. apply raised_signal, R, H.
    + intros k' key' a Ha Hl. rewrite attempts_signal. destruct (A _ _ _ Ha) as [H|[= ->]]; [left; exact H|].
      right. left. apply signal_raises. rewrite L, length_app. cbn. lia.
  - split_and!; [rewrite L, length_app; cbn; lia|exact R|].
    intros k' key' a Ha _. destruct (A _ _ _ Ha) as [H|H]; [left; exact H|discriminate].
Qed.

Lemma cancel_signals own k key m : signals own m (cancel_connect_attempt k key m).2.
Proof.
  unfold cancel_connect_attempt. destruct (attempts k m !! key) as [b|] eqn:Eb; cbn [snd]; [|apply signals_same; done].
  set (m1 := set_attempts k _ m). assert (L : cancel_channels m1 = cancel_channels m) by (destruct k; reflexivity).
  split_and!.
  - cbn. rewrite length_insert, L. done.
  - intros rc H. apply raised_signal. unfold raised. rewrite L. exact H.
  - intros k' key' a Ha Hl. rewrite attempts_signal. unfold m1 at 1. rewrite attempts_set.
    destruct (decide (k = k')) as [<-|]; [|left; exact Ha]. destruct (decide (key = key')) as [<-|Hne].
    + right. left. assert (a = b) as -> by congruence. apply signal_raises. rewrite L. exact Hl.
    + left. rewrite lookup_delete_ne by exact Hne. exact Ha.
Qed.

Lemma cancel_list_signals own ids m : signals own m (fold_left (fun m tab => (cancel_tab_connect_attempt tab m).2) ids m).
Proof.
  revert m. induction ids as [|x ids IH]; intros m; [apply signals_same; done|].
  eapply signals_trans; [apply (cancel_signals own TabSlot x)|apply IH].
Qed.

(** Taking one's own attempt out of the table. *)
Lemma own_signals k key id m m' : attempt_is_current k key id m = true -> cancel_channels m' = cancel_channels m ->
  (forall k', attempts k' m' = if decide (k = k') then delete key (attempts k m) else attempts k' m) ->
  signals (Some id) m m'.
Proof.
  intros Hc E1 E2. unfold signals, raised. rewrite E1. split_and!; [done|auto|]. intros k' key' a Ha _. rewrite E2.
  destruct (decide (k = k')) as [<-|]; [|left; exact Ha]. destruct (decide (key = key')) as [<-|Hne].
  - right. right. unfold attempt_is_current in Hc. rewrite Ha in Hc. apply Z.eqb_eq in Hc. congruence.
  - left. rewrite lookup_delete_ne by exact Hne. exact Ha.
Qed.

Lemma connect_step_signals k key p tr ch st m st' m' evs : connect_step k key p tr ch st m = Some (st', m', evs) ->
  signals (attempt_of st) m m'.
Proof.
  unfold connect_step. destruct st, ch; try discriminate.
  - pose proof (begin_signals None k key p m) as Hb. destruct (begin_connect_attempt _ _ _ _) as [[id rc] m1].
    intros [= <- <- <-]. exact Hb.
  - destruct (_ && _); [|discriminate]. intros [= <- <- <-]. apply signals_same; done.
  - intros [= <- <- <-]. apply signals_same; done.
  - destruct (_ !! _) as [[]|]; try discriminate. intros [= <- <- <-]. apply signals_same; done.
  - unfold clear_connect_attempt_if_current. destruct (attempt_is_current k key id m) eqn:Ec; intros [= <- <- <-].
    + apply (own_signals k key); [exact Ec|destruct k; reflexivity|]. intros k'. rewrite attempts_set. reflexivity.
    + apply signals_same; done.
  - destruct k.
    + unfold register_shared. replace (attempt_is_current SharedSlot key id (set_health_cells _ _)) with (attempt_is_current SharedSlot key id m) by reflexivity.
      destruct (attempt_is_current SharedSlot key id m) eqn:Ec; cbn; [destruct (_ !! _)|]; intros [= <- <- <-];
        [apply (own_signals SharedSlot key); [exact Ec|reflexivity|intros []; reflexivity]..|].
      apply signals_same; [reflexivity|intros []; reflexivity].
    + unfold register_tab. destruct (attempt_is_current TabSlot key id m) eqn:Ec; cbn; [destruct (_ !! _)|]; intros [= <- <- <-];
        [apply (own_signals TabSlot key); [exact Ec|reflexivity|intros []; reflexivity]..|].
      apply signals_same; done.
  - intros [= <- <- <-]. apply signals_same; done.
  - intros [= <- <- <-]. apply signals_same; done.
Qed.

Context (hash_iter : forall A, gmap str A -> list (str * A)).

Lemma take_tab_list_signals own ids m : signals own m (take_tab_list ids m).2.
Proof.
  apply signals_same; [|intros k; apply (take_tab_list_runtime_at ids m k [])].
  revert m. induction ids as [|x ids IH]; intros m; [reflexivity|]. cbn.
  specialize (IH (set_tabs (delete x (tabs m)) m)). destruct (take_tab_list ids _) as [rest m2]. exact IH.
Qed.

Definition carried (t : Task) : option Z :=
  match t with ConnectTask _ st | OpenTabTask _ _ st => attempt_of st | _ => None end.

Lemma task_step_signals tr ch t m t' m' evs : task_step hash_iter tr ch t m = Some (t', m', evs) -> signals (carried t) m m'.
Proof.
  unfold task_step. destruct t as [p st|p tab st|p st|tab st]; intros E; repeat case_match; try discriminate; simplify_eq; cbn.
  1,2: eapply connect_step_signals; eassumption.
  - revert H. unfold disconnect_step. destruct st as [|cs|cs n|cs n|cs n|cs n removed|[|x ds]|], ch; try discriminate.
    + pose proof (cancel_signals None SharedSlot p m) as Hc. unfold cancel_shared_connect_attempt.
      destruct (cancel_connect_attempt _ _ _). intros [= <- <- <-]. exact Hc.
    + unfold cancel_tab_connect_attempts_for_profile. intros [= <- <- <-]. apply cancel_list_signals.
    + destruct (discard_profile _ _ _). intros [= <- <- <-]. apply signals_same; [reflexivity|intros []; reflexivity].
    + destruct (release_profile _ _ _). intros [= <- <- <-]. apply signals_same; [reflexivity|intros []; reflexivity].
    + intros [= <- <- <-]. apply signals_same; [reflexivity|intros []; reflexivity].
    + unfold take_tabs_of_profile. set (ids := map fst _). pose proof (take_tab_list_signals None ids m) as Hc.
      destruct (take_tab_list ids m). intros [= <- <- <-]. exact Hc.
    + intros [= <- <- <-]. apply signals_same; done.
    + destruct r; intros [= <- <- <-]; apply signals_same; done.
  - revert H. unfold close_tab_step. destruct st, ch; try discriminate.
    + pose proof (cancel_signals None TabSlot tab m) as Hc. unfold cancel_tab_connect_attempt.
      destruct (cancel_connect_attempt _ _ _). intros [= <- <- <-]. exact Hc.
    + destruct (discard_tab _ _). intros [= <- <- <-]. apply signals_same; [reflexivity|intros []; reflexivity].
    + destruct (release_tab _ _ _). intros [= <- <- <-]. apply signals_same; [reflexivity|intros []; reflexivity].
    + intros [= <- <- <-]. apply signals_same; [reflexivity|intros []; reflexivity].
    + intros [= <- <- <-]. apply signals_same; done.
Qed.

(** Two calls never carry the same attempt. *)
Lemma task_step_carries tr ch t m t' m' evs id : task_step hash_iter tr ch t m = Some (t', m', evs) ->
  carried t' = Some id -> carried t = Some id \/ id ∈ begun evs.
Proof.
  unfold task_step. destruct t as [p st|p tab st|p st|tab st]; intros E; repeat case_match; try discriminate; simplify_eq; cbn; try done.
  all: destruct (connect_step_attempt _ _ _ _ _ _ _ _ _ _ H) as [E|[E|(id' & E & Hin)]]; rewrite E; [done|auto|].
  all: intros [= ->]; right; apply elem_of_begun; eauto.
Qed.

Lemma carried_begun store c i t id : reachable_from hash_iter store c -> tasks c !! i = Some t -> carried t = Some id ->
  id ∈ begun (trace c).
Proof.
  intros Hr Hi Hc. apply elem_of_begun. destruct t as [p st|p tab st|p st|tab st]; try discriminate; cbn in Hc.
  - exists SharedSlot, p, p. eapply (task_attempts_begun hash_iter); [eassumption..|]. cbn. rewrite Hc. reflexivity.
  - exists TabSlot, tab, p. eapply (task_attempts_begun hash_iter); [eassumption..|]. cbn. rewrite Hc. reflexivity.
Qed.

Lemma carried_once store c i j t u id : reachable_from hash_iter store c -> countable_attempts (trace c) ->
  tasks c !! i = Some t -> tasks c !! j = Some u -> carried t = Some id -> carried u = Some id -> i = j.
Proof.
  intros Hr. revert i j t u. induction Hr as [|c c' Hr IH Hs]; [intros i j t u _ H; discriminate H|].
  intros i j t u Hc Hi Hj Ht Hu. pose proof (reach_step _ _ _ _ Hr Hs) as Hr'.
  destruct Hs as [m ts tr v Hv|m ts tr n v ch v' m' evs Hn Hs|m ts tr x y z]; cbn in *.
  - assert (Hnew : forall x w, (ts ++ [v]) !! x = Some w -> carried w = Some id -> ts !! x = Some w).
    { intros x w Hx Hw. apply lookup_app_Some in Hx as [Hx|[_ Hx]]; [exact Hx|].
      apply list_lookup_singleton_Some in Hx as [_ <-]. destruct v as [? []|? ? []|? []|? []]; discriminate. }
    eapply IH; eauto.
  - destruct (attempts_numbered hash_iter _ _ Hr' Hc) as (_ & Hd & _). cbn in Hd. rewrite begun_app in Hd.
    apply NoDup_app in Hd as (_ & Hd & _). pose proof (countable_attempts_app _ _ Hc) as Hc'.
    assert (Hold : forall x w, <[n := v']> ts !! x = Some w -> carried w = Some id ->
      x <> n /\ ts !! x = Some w \/ x = n /\ (carried v = Some id \/ id ∈ begun evs)).
    { intros x w Hx Hw. destruct (decide (x = n)) as [->|Hne]; [right|left; rewrite list_lookup_insert_ne in Hx by congruence; auto].
      rewrite list_lookup_insert_eq in Hx by (eapply lookup_lt_Some; exact Hn). injection Hx as <-.
      split; [reflexivity|]. eapply task_step_carries; eassumption. }
    assert (Hfresh : forall x w, ts !! x = Some w -> carried w = Some id -> id ∉ begun evs).
    { intros x w Hx Hw Hin. apply (Hd id Hin). exact (carried_begun _ _ _ _ _ Hr Hx Hw). }
    destruct (Hold _ _ Hi Ht) as [[Hni Hi']|[-> Hv]], (Hold _ _ Hj Hu) as [[Hnj Hj']|[-> Hv']].
    + eapply IH; eassumption.
    + destruct Hv' as [Hv'|Hv']; [|destruct (Hfresh _ _ Hi' Ht Hv')]. eapply (IH i n); eassumption.
    + destruct Hv as [Hv|Hv]; [|destruct (Hfresh _ _ Hj' Hu Hv)]. eapply (IH n j); eassumption.
    + reflexivity.
  - eauto.
Qed.

(** What a call that waits for its driver knows about its attempt. *)
Definition waiting (t : Task) : option (Slot * str * Z * nat) :=
  match t with
  | ConnectTask p (CsCreating id rc) => Some (SharedSlot, p, id, rc)
  | OpenTabTask _ tab (CsCreating id rc) => Some (TabSlot, tab, id, rc)
  | _ => None
  end.

Definition waits_well (m : ConnectionRuntimeManager) (w : Slot * str * Z * nat) : Prop :=
  let '(k, key, id, rc) := w in
  rc < length (cancel_channels m)
  /\ ((exists a, attempts k m !! key = Some a /\ at_id a = id /\ at_cancel a = rc) \/ raised m rc).

Lemma waiting_carried t k key id rc : waiting t = Some (k, key, id, rc) -> carried t = Some id.
Proof. destruct t as [p []|p tab []|p st|tab st]; cbn; intros [=]; subst; reflexivity. Qed.

Lemma begin_waits k key p m id rc m' : begin_connect_attempt k key p m = ((id, rc), m') -> waits_well m' (k, key, id, rc).
Proof.
  unfold begin_connect_attempt. cbn [fetch_attempt_id]. intros [= <- <- <-]. unfold waits_well.
  set (m1 := set_channels _ _). set (m2 := set_attempts k _ m1).
  assert (L : length (cancel_channels m2) = S (length (cancel_channels m))) by (destruct k; cbn; rewrite length_app; cbn; lia).
  assert (A : attempts k m2 !! key = Some (mkAttempt (next_connect_attempt_id m) p (length (cancel_channels m)))).
  { unfold m2. rewrite attempts_set, decide_True by reflexivity. apply lookup_insert_eq. }
  destruct (attempts k m1 !! key); (split; [cbn; rewrite ?length_insert, L; lia|left]); eexists; rewrite ?attempts_signal;
    (split; [exact A|split; reflexivity]).
Qed.

Lemma task_step_waits tr ch t m t' m' evs w : task_step hash_iter tr ch t m = Some (t', m', evs) ->
  waiting t' = Some w -> waits_well m' w.
Proof.
  unfold task_step. destruct t as [p st|p tab st|p st|tab st]; intros E; repeat case_match; try discriminate; simplify_eq; cbn.
  all: revert H; unfold connect_step; destruct st, ch; try discriminate; intros E; repeat case_match; simplify_eq; try discriminate.
  all: intros [= <-]; eapply begin_waits; eassumption.
Qed.

Lemma waiting_ok store c i t w : reachable_from hash_iter store c -> countable_attempts (trace c) ->
  tasks c !! i = Some t -> waiting t = Some w -> waits_well (manager_of c) w.
Proof.
  intros Hr. revert i t w. induction Hr as [|c c' Hr IH Hs]; [intros i t w _ H; discriminate H|]. intros i t w Hc Hi Hw.
  destruct Hs as [m ts tr v Hv|m ts tr n v ch v' m' evs Hn Hs|m ts tr x y z]; cbn in *.
  - apply lookup_app_Some in Hi as [Hi|[_ Hi]]; [eauto|].
    apply list_lookup_singleton_Some in Hi as [_ <-]. destruct v as [? []|? ? []|? []|? []]; discriminate.
  - pose proof (countable_attempts_app _ _ Hc) as Hc'. destruct (decide (n = i)) as [->|Hne].
    { rewrite list_lookup_insert_eq in Hi by (eapply lookup_lt_Some; exact Hn). injection Hi as <-. eapply task_step_waits; eassumption. }
    rewrite list_lookup_insert_ne in Hi by exact Hne. specialize (IH _ _ _ Hc' Hi Hw).
    apply task_step_signals in Hs as (L & R & A). destruct w as [[[k key] id] rc]. destruct IH as [Hl [(a & Ha & Hid & Hrc)|Hrc]];
      (split; [lia|]); [|right; auto]. subst id rc. destruct (A k key a Ha Hl) as [H|[H|H]]; [eauto..|].
    exfalso. apply Hne. eapply (carried_once _ _ n i); [exact Hr|exact Hc'|exact Hn|exact Hi|exact H|].
    eapply waiting_carried. exact Hw.
  - exact (IH _ _ _ Hc Hi Hw).
Qed.

(** An attempt that is no longer the current one has been told so.  Whenever a call
    waits for its driver to be created, its attempt is still the one its table holds, or
    the cancellation it watches has been raised and the call can give up at once: no
    superseded or disconnected attempt waits for a slow connection (fewer than 2^64
    attempts). *)
Theorem superseded_attempts_are_signalled store c i t k key id rc :
  reachable_from hash_iter store c -> countable_attempts (trace c) -> tasks c !! i = Some t ->
  waiting t = Some (k, key, id, rc) ->
  attempt_is_current k key id (manager_of c) = true
  \/ exists t', task_step hash_iter (trace c) CancelSeen t (manager_of c) = Some (t', manager_of c, [])
       /\ carried t' = Some id /\ waiting t' = None.
Proof.
  intros Hr Hc Hi Hw. destruct (waiting_ok _ _ _ _ _ Hr Hc Hi Hw) as [_ [(a & Ha & Hid & _)|Hrc]].
  - left. unfold attempt_is_current. rewrite Ha. apply Z.eqb_eq, Hid.
  - right. unfold raised in Hrc. destruct t as [p []|p tab []|p st|tab st]; cbn in Hw; try discriminate; simplify_eq;
      unfold task_step, connect_step; rewrite Hrc; eexists; split_and!; reflexivity.
Qed.
End signals.

(** ** Runs *)

Section executing.
Context {J : JsonNumber} (hash_iter : forall A, gmap str A -> list (str * A)).

(** A step as a function of what happens. *)
Inductive Action :=
| Call (t : Task)
| Run (i : nat) (ch : Choice)
| Other (executions : SqlExecutionCoordinator) (artifacts : RawArtifactStore) (health : list RuntimeHealthSnapshot).

Definition act (a : Action) (c : Config) : option Config :=
  match a with
  | Call t => if initial_task t then Some (mkConfig (manager_of c) (tasks c ++ [t]) (trace c)) else None
  | Run i ch =>
    t ← tasks c !! i;
    '(t', m', evs) ← task_step hash_iter (trace c) ch t (manager_of c);
    Some (mkConfig m' (<[i := t']> (tasks c)) (evs ++ trace c))
  | Other executions artifacts health =>
    Some (mkConfig (set_health_cells health (set_raw_artifacts artifacts (set_sql_executions executions (manager_of c)))) (tasks c) (trace c))
  end.

Lemma act_step c c' : step hash_iter c c' <-> exists a, act a c = Some c'.
Proof.
  split.
  - intros [m ts tr t Ht|m ts tr i t ch t' m' evs Hi Hs|m ts tr x y z].
    + exists (Call t). cbn. rewrite Ht. reflexivity.
    + exists (Run i ch). cbn. rewrite Hi. cbn. rewrite Hs. reflexivity.
    + exists (Other x y z). reflexivity.
  - intros [[t|i ch|x y z] E]; destruct c as [m ts tr]; cbn in E.
    + destruct (initial_task t) eqn:Ht; [|discriminate]. injection E as <-. constructor. exact Ht.
    + destruct (ts !! i) as [t|] eqn:Hi; [|discriminate]. cbn in E.
      destruct (task_step hash_iter tr ch t m) as [[[t' m'] evs]|] eqn:Hs; [|discriminate].
      injection E as <-. econstructor; eassumption.
    + injection E as <-. constructor.
Qed.

Fixpoint run (acts : list Action) (c : Config) : option Config :=
  match acts with [] => Some c | a :: acts' => c' ← act a c; run acts' c' end.

Lemma run_rtc acts c c' : run acts c = Some c' -> rtc (step hash_iter) c c'.
Proof.
  revert c. induction acts as [|a acts IH]; intros c; cbn; [intros [= ->]; constructor|].
  destruct (act a c) as [c1|] eqn:Ea; [|discriminate]. intros E.
  eapply rtc_l; [apply act_step; exists a; exact Ea|apply IH, E].
Qed.

Lemma run_app acts acts' c : run (acts ++ acts') c = (c' ← run acts c; run acts' c').
Proof. revert c. induction acts as [|a acts IH]; intros c; cbn; [done|]. destruct (act a c); [apply IH|done]. Qed.
End executing.

Section witnesses.

Definition demo_iter : forall A, gmap str A -> list (str * A) := fun A m => map_to_list m.

Lemma demo_iter_perm : forall A (m : gmap str A), demo_iter A m ≡ₚ map_to_list m.
Proof. done. Qed.

Abbreviation Demo := (Config (J:=IntegerNumber)).

Definition demo_start : Demo := mkConfig (with_raw_artifact_store demo_store) [] [].

Definition demo (acts : list (Action (J:=IntegerNumber))) : Demo := default demo_start (run demo_iter acts demo_start).

Definition runs (acts : list (Action (J:=IntegerNumber))) : bool :=
  match run demo_iter acts demo_start with Some _ => true | None => false end.

Lemma demo_reachable acts : runs acts = true -> reachable_from demo_iter demo_store (demo acts).
Proof.
  unfold runs, demo. destruct (run demo_iter acts demo_start) as [c|] eqn:E; [|discriminate]. intros _.
  eapply reachable_rtc; [apply reach_start|]. eapply run_rtc. exact E.
Qed.

Lemma demo_continues acts acts' : runs (acts ++ acts') = true -> rtc (step demo_iter) (demo acts) (demo (acts ++ acts')).
Proof.
  unfold runs, demo. rewrite run_app. destruct (run demo_iter acts demo_start) as [c|]; cbn; [|discriminate].
  destruct (run demo_iter acts' c) as [c'|] eqn:E; [|discriminate]. intros _. eapply run_rtc. exact E.
Qed.

Definition go : Choice := Go 0 [].
Definition demo_driver (n : nat) : Driver := mkDriver n (lit "p") (lit "mysql") None false.

(** A connect is under way when a disconnect arrives and empties the tables; the connect
    then finds itself superseded while a second one succeeds. *)
Definition demo_before : list (Action (J:=IntegerNumber)) :=
  [Call (ConnectTask (lit "p") CsStart); Run 0 go; Run 0 (DriverCreated (demo_driver 1));
   Call (OpenTabTask (lit "p") (lit "t") CsStart); Run 1 go; Run 1 (DriverCreated (demo_driver 2)); Run 1 go;
   Call (DisconnectTask (lit "p") DsStart)].
Definition demo_after : list (Action (J:=IntegerNumber)) :=
  [Run 2 go; Run 2 go; Run 2 go; Run 2 go; Run 0 go; Run 0 (CloseAnswered (Ok tt)); Run 2 go; Run 2 go;
   Call (ConnectTask (lit "p") CsStart); Run 3 go; Run 3 (DriverCreated (demo_driver 3)); Run 3 go].

Definition demo_mid : Demo := demo demo_before.
Definition demo_end : Demo := demo (demo_before ++ demo_after).

Lemma demo_mid_reachable : reachable_from demo_iter demo_store demo_mid.
Proof. apply demo_reachable. vm_compute. reflexivity. Qed.

Lemma demo_end_reachable : reachable_from demo_iter demo_store demo_end.
Proof. apply demo_reachable. vm_compute. reflexivity. Qed.

Lemma demo_run : rtc (step demo_iter) demo_mid demo_end.
Proof. apply demo_continues. vm_compute. reflexivity. Qed.

Lemma registered_attempt_was_current_witness :
  EvCreated (demo_driver 3) ∈ trace demo_end
  /\ exists since before, tail (trace demo_end) = since ++ EvBegin SharedSlot (lit "p") (lit "p") 3 :: before
     /\ Forall (fun e => ends_attempt SharedSlot (lit "p") (lit "p") e = false) since.
Proof.
  destruct (registered_attempt_was_current demo_iter demo_iter_perm demo_store demo_end [] (tail (trace demo_end))
    SharedSlot (lit "p") (lit "p") 3 (demo_driver 3) demo_end_reachable) as [H1 H2];
    [vm_compute; discriminate|vm_compute; reflexivity|].
  split; [|exact H2]. replace (trace demo_end) with (hd (EvDropped (demo_driver 0)) (trace demo_end) :: tail (trace demo_end)) by (vm_compute; reflexivity).
  right. exact H1.
Defined.

Lemma disconnect_is_final_witness :
  exists newer id, trace demo_end = newer ++ trace demo_mid
    /\ EvBegin SharedSlot (lit "p") (lit "p") id ∈ newer
    /\ EvRegister SharedSlot (lit "p") (lit "p") id (demo_driver 3) ∈ newer.
Proof.
  apply (disconnect_is_final demo_iter demo_iter_perm demo_store demo_mid demo_end 2 (lit "p") (DsClosing [demo_driver 2]));
    [exact demo_mid_reachable|vm_compute; reflexivity|exact demo_run|vm_compute; discriminate|vm_compute; reflexivity|exact I|vm_compute; reflexivity].
Defined.

(** A tab is closed while it is being opened, and opened again. *)
Definition demo_tab_before : list (Action (J:=IntegerNumber)) :=
  [Call (OpenTabTask (lit "p") (lit "t") CsStart); Run 0 go; Call (CloseTabTask (lit "t") TsStart)].
Definition demo_tab_after : list (Action (J:=IntegerNumber)) :=
  [Run 1 go; Run 0 (DriverCreated (demo_driver 1)); Run 1 go; Run 1 go; Run 1 go; Run 0 go; Run 0 (CloseAnswered (Ok tt));
   Call (OpenTabTask (lit "p") (lit "t") CsStart); Run 2 go; Run 2 (DriverCreated (demo_driver 2)); Run 2 go].

Lemma close_tab_is_final_witness :
  let c0 := demo demo_tab_before in
  let c1 := demo (demo_tab_before ++ demo_tab_after) in
  exists newer id, trace c1 = newer ++ trace c0
    /\ EvBegin TabSlot (lit "t") (lit "p") id ∈ newer /\ EvRegister TabSlot (lit "t") (lit "p") id (demo_driver 2) ∈ newer.
Proof.
  apply (close_tab_is_final demo_iter demo_iter_perm demo_store _ _ 1 (lit "t") (TsDone (Ok tt)));
    [apply demo_reachable; vm_compute; reflexivity|vm_compute; reflexivity|
     apply demo_continues; vm_compute; reflexivity|vm_compute; discriminate|vm_compute; reflexivity|exact I|
     vm_compute; reflexivity].
Defined.

Lemma drivers_are_accounted_for_witness :
  NoDup (map dr_id (held (manager_of demo_end) ++ concat (map task_drivers (tasks demo_end)) ++ closed (trace demo_end)
    ++ dropped (trace demo_end))).
Proof. exact (proj1 (proj2 (drivers_are_accounted_for demo_iter demo_store demo_end demo_end_reachable))). Defined.

Lemma routed_driver_is_live_witness :
  driver_for_profile_or_tab (lit "p") None (manager_of demo_end) = Ok (demo_driver 3)
  /\ demo_driver 3 ∉ closed (trace demo_end).
Proof.
  assert (E : driver_for_profile_or_tab (lit "p") None (manager_of demo_end) = Ok (demo_driver 3)) by (vm_compute; reflexivity).
  split; [exact E|].
  exact (proj1 (proj2 (proj2 (routed_driver_is_live demo_iter demo_iter_perm demo_store demo_end (lit "p") None (demo_driver 3)
    demo_end_reachable E)))).
Defined.

(** A connect is superseded by a second one for the same profile. *)
Definition demo_twice : list (Action (J:=IntegerNumber)) :=
  [Call (ConnectTask (lit "p") CsStart); Run 0 go; Call (ConnectTask (lit "p") CsStart); Run 1 go].

Lemma superseded_attempts_are_signalled_witness :
  attempt_is_current SharedSlot (lit "p") 1 (manager_of (demo demo_twice)) = true
  \/ exists t', task_step demo_iter (trace (demo demo_twice)) CancelSeen (ConnectTask (lit "p") (CsCreating 1 0)) (manager_of (demo demo_twice))
         = Some (t', manager_of (demo demo_twice), []) /\ carried t' = Some 1%Z /\ waiting t' = None.
Proof.
  apply (superseded_attempts_are_signalled demo_iter demo_store (demo demo_twice) 0 (ConnectTask (lit "p") (CsCreating 1 0))
    SharedSlot (lit "p") 1 0);
    [apply demo_reachable; vm_compute; reflexivity|vm_compute; discriminate|vm_compute; reflexivity|reflexivity].
Defined.

(** Closing the shared driver fails: the disconnect returns that error, and the driver of
    the tab, already taken out of its table, is never closed; a second disconnect finds
    nothing left to close. *)
Definition demo_close_fails : list (Action (J:=IntegerNumber)) :=
  [Call (ConnectTask (lit "p") CsStart); Run 0 go; Run 0 (DriverCreated (demo_driver 1)); Run 0 go;
   Call (OpenTabTask (lit "p") (lit "t") CsStart); Run 1 go; Run 1 (DriverCreated (demo_driver 2)); Run 1 go;
   Call (DisconnectTask (lit "p") DsStart); Run 2 go; Run 2 go; Run 2 go; Run 2 go; Run 2 go; Run 2 go;
   Run 2 (CloseAnswered (Err (connect_superseded SharedSlot (lit "p"))));
   Call (DisconnectTask (lit "p") DsStart); Run 3 go; Run 3 go; Run 3 go; Run 3 go; Run 3 go; Run 3 go].

Lemma disconnect_drops_unclosed_drivers :
  let c := demo demo_close_fails in
  runs demo_close_fails = true /\ dropped (trace c) = [demo_driver 2] /\ held (manager_of c) = []
  /\ tasks c !! 3 = Some (DisconnectTask (lit "p") (DsDone (Err (disconnect_not_found (lit "p"))))).
Proof. split_and!; vm_compute; reflexivity. Qed.
End witnesses.
