(* ===== verification/ManagedSql.v ===== *)
(** * Managed SQL executions
    ([src-tauri/src/engine/manager.rs], [start_sql_execution] to
    [shutdown_sql_execution_state])

    The manager runs a statement of a tab under the coordinator: starting it registers the
    execution, releases the artifacts of the tab, opens an artifact for a raw result and
    spawns the run; the run drives the driver and completes the execution; cancelling,
    saving and releasing work on it meanwhile, and closing or disconnecting (from
    [RuntimeTables]) discards it.  Every operation is a task whose locked sections
    interleave with all the others.

    The driver's executor is code of the driver: what it does with its observer and its
    artifact writer, and what it answers, is a choice of the run, except that a raw
    outcome names the artifact it has finished. *)

From stdpp Require Import base gmap list strings fin_maps relations.
From Stdlib Require Import ZArith Lia.
From S2P Require Import Prelude Errors Types Coordinator Artifact RuntimeTables ConnectionRaces.

(** ** Requests *)

Record StartSqlExecutionRequest := mkStartSqlExecutionRequest {
  sr_context : SqlExecutionContext;
  sr_sql : str;
  sr_options : SqlExecutionOptions;
}.

Record SqlExecutionHandle := mkSqlExecutionHandle {
  hd_execution_id : str;
  hd_query_id : str;
  hd_tab_id : str;
  hd_state : SqlExecutionState;
  hd_started_at : Z;
}.

Inductive SqlCancelConfirmation :=
| Confirmed (message : str)
| AlreadyFinished (message : str)
| CancelAttemptFailed (failure : SqlExecutionFailure).

Inductive SqlScanState := ScanNormal | ScanSingleQuoted | ScanDoubleQuoted | ScanBacktickQuoted
| ScanLineComment | ScanBlockComment.

(** The loop of [sql_statement_count]; [skip] when the index is moved past the next
    character. *)
Fixpoint count_loop (skip : bool) (st : SqlScanState) (has_token : bool) (statements : nat) (chars : str) : nat :=
  match chars with
  | [] => statements + Nat.b2n has_token
  | current :: rest =>
    let next_is c := match rest with x :: _ => (x =? c)%Z | [] => false end in
    if skip then count_loop false st has_token statements rest
    else match st with
    | ScanNormal =>
      if (current =? c_minus)%Z && next_is c_minus then count_loop true ScanLineComment has_token statements rest
      else if (current =? c_slash)%Z && next_is c_star then count_loop true ScanBlockComment has_token statements rest
      else if (current =? c_squote)%Z then count_loop false ScanSingleQuoted true statements rest
      else if (current =? c_dquote)%Z then count_loop false ScanDoubleQuoted true statements rest
      else if (current =? c_backtick)%Z then count_loop false ScanBacktickQuoted true statements rest
      else if (current =? c_semi)%Z then
        count_loop false ScanNormal false (if has_token then S statements else statements) rest
      else if negb (is_whitespace current) then count_loop false ScanNormal true statements rest
      else count_loop false ScanNormal has_token statements rest
    | ScanSingleQuoted =>
      if (current =? c_bslash)%Z then count_loop true ScanSingleQuoted has_token statements rest
      else if (current =? c_squote)%Z then
        if next_is c_squote then count_loop true ScanSingleQuoted has_token statements rest
        else count_loop false ScanNormal has_token statements rest
      else count_loop false ScanSingleQuoted has_token statements rest
    | ScanDoubleQuoted =>
      if (current =? c_bslash)%Z then count_loop true ScanDoubleQuoted has_token statements rest
      else if (current =? c_dquote)%Z then
        if next_is c_dquote then count_loop true ScanDoubleQuoted has_token statements rest
        else count_loop false ScanNormal has_token statements rest
      else count_loop false ScanDoubleQuoted has_token statements rest
    | ScanBacktickQuoted =>
      if (current =? c_backtick)%Z then
        if next_is c_backtick then count_loop true ScanBacktickQuoted has_token statements rest
        else count_loop false ScanNormal has_token statements rest
      else count_loop false ScanBacktickQuoted has_token statements rest
    | ScanLineComment =>
      if (current =? c_nl)%Z || (current =? c_cr)%Z then count_loop false ScanNormal has_token statements rest
      else count_loop false ScanLineComment has_token statements rest
    | ScanBlockComment =>
      if (current =? c_star)%Z && next_is c_slash then count_loop true ScanNormal has_token statements rest
      else count_loop false ScanBlockComment has_token statements rest
    end
  end.

Definition sql_statement_count (sql : str) : nat := count_loop false ScanNormal false 0 sql.

Definition allowed_timeout (t : option Z) : bool :=
  match t with
  | None => true
  | Some t => existsb (Z.eqb t) [30000; 60000; 300000; 900000; 3600000]%Z
  end.

Definition is_raw_mode (m : SqlResultMode) : bool := match m with Raw => true | _ => false end.

Definition validate_start_sql_execution (request : StartSqlExecutionRequest) : IpcResult unit :=
  let o := sr_options request in
  match sql_statement_count (sr_sql request) with
  | 0 => Err (validation_failed (lit "SQL must not be empty"))
  | 1 =>
    if negb (allowed_timeout (timeout_ms o)) then
      Err (validation_failed (lit "SQL execution timeout is not an allowed value"))
    else if (page o =? 0)%Z then Err (validation_failed (lit "SQL result page must be at least 1"))
    else if is_raw_mode (result_mode o) && negb (page o =? 1)%Z then
      Err (validation_failed (lit "Raw SQL results only support page 1"))
    else if negb ((1 <=? options_page_size o)%Z && (options_page_size o <=? 1000)%Z) then
      Err (validation_failed (lit "SQL result page size must be between 1 and 1000"))
    else
      skip ← ok_or (validation_failed (lit "SQL result page offset is too large"))
               (checked_mul_u64 (page o - 1) (options_page_size o));
      if (100000 <? skip)%Z then Err (validation_failed (lit "SQL result page offset exceeds 100000 rows"))
      else Ok tt
  | _ => Err (validation_failed (lit "Managed SQL execution accepts exactly one statement"))
  end.

(** ** Tasks *)

Definition managed_unsupported : IpcError :=
  resource_not_found (lit "This connection does not support managed SQL execution").

Section managed.
Context {J : JsonNumber} {FS : FileSystem}.
Variable hash_iter : forall A, gmap str A -> list (str * A).

(** [classify_statement] of the executor of a driver. *)
Variable classify_statement : Driver -> str -> IpcResult SqlStatementClass.

(** An execution that was started: what its run carries. *)
Record Execution := mkExecution {
  ex_owner : RawArtifactOwner;
  ex_query_id : str;
  ex_request : StartSqlExecutionRequest;
  ex_statement_class : SqlStatementClass;
  ex_driver : Driver;
  ex_artifact : option str;
}.

Inductive StartState :=
| SaStart
| SaRegister (driver : Driver)
| SaReleaseTab (x : Execution) (handle : SqlExecutionHandle)
| SaArtifact (x : Execution) (handle : SqlExecutionHandle)
| SaDiscard (execution_id : str) (error : IpcError)
| SaDone (result : IpcResult SqlExecutionHandle).

(** The writer of the run: open, finished, or consumed without a result. *)
Inductive WriterState := WriterOpen | WriterFinished | WriterGone.

Inductive RunState :=
| RnStart
| RnExecuting (w : WriterState)
| RnUnavailable
| RnDropWriter
| RnComplete (outcome : SqlExecutionOutcome)
| RnReleaseUnused
| RnRelease (error : IpcError)
| RnSnapshot (error : IpcError)
| RnFail (state : SqlExecutionState) (error : IpcError)
| RnDone.

Inductive CancelState :=
| CnStart
| CnSnapshot (driver : Driver)
| CnBegin (driver : Driver)
| CnDone (result : IpcResult SqlExecutionSnapshot).

Inductive ControlState := CtAsk | CtDone.

Inductive SaveState := SvStart | SvSave | SvDone (result : IpcResult unit).

Inductive ReleaseState := RlStart | RlArtifact | RlRelease | RlDone (result : IpcResult unit).

Inductive ShutdownState :=
| ShStart
| ShRelease (discarded : IpcResult nat)
| ShDone (result : IpcResult unit).

Inductive ManagedTask :=
| RuntimeTask (t : Task)
| StartTask (profile tab : str) (request : StartSqlExecutionRequest) (sink : SqlExecutionEventSink) (st : StartState)
| RunTask (x : Execution) (st : RunState)
| CancelTask (profile tab execution_id : str) (st : CancelState)
| ControlTask (driver : Driver) (tab execution_id : str) (st : ControlState)
| SaveTask (profile tab execution_id artifact_id : str) (destination : Path) (st : SaveState)
| ReleaseTask (profile tab execution_id : str) (st : ReleaseState)
| ShutdownTask (st : ShutdownState).

(** What the executor does next. *)
Inductive ExecutorAction :=
| PublishSummary (summary : SqlExecutionSummary) (progress_available : bool)
| PublishWarning (message : str)
| WriteChunk (chunk : list Z)
| FinishArtifact (mode : RawArtifactPreviewMode)
| AbortArtifact
| ExecutorReturns (result : IpcResult SqlExecutionOutcome).

Inductive ManagedChoice :=
| ForRuntime (ch : Choice)
| Locked (now_ms : Z) (io : Faults)
| Registering (no_tokio_runtime : option str) (execution_id query_id : str) (now_ms : Z)
| Opening (io : Faults) (uuids : list str)
| Executor (action : ExecutorAction) (io : Faults)
| CancelAnswered (answer : IpcResult SqlCancelConfirmation) (now_ms : Z).

(** What a section leaves behind: the task, the tasks it spawns, the manager, the
    execution it registered, and whether it discarded an execution of somebody else. *)
Record Effect := mkEffect {
  ef_task : ManagedTask;
  ef_spawned : list ManagedTask;
  ef_manager : ConnectionRuntimeManager;
  ef_started : option RawArtifactOwner;
  ef_clobbered : bool;
}.

Definition effect (t : ManagedTask) (m : ConnectionRuntimeManager) : Effect := mkEffect t [] m None false.

(** Running an operation of the coordinator or of the artifact store. *)
Definition on_executions {A} (op : ST SqlExecutionCoordinator IpcError A) (m : ConnectionRuntimeManager)
  : IpcResult A * ConnectionRuntimeManager :=
  let '(r, c) := op (sql_executions m) in (r, set_sql_executions c m).
Definition on_artifacts {A} (op : ST RawArtifactStore IpcError A) (m : ConnectionRuntimeManager)
  : IpcResult A * ConnectionRuntimeManager :=
  let '(r, s) := op (raw_artifacts m) in (r, set_raw_artifacts s m).

(** The checks of [start_sql_execution] before it needs a Tokio runtime. *)
Definition start_checks (profile tab : str) (request : StartSqlExecutionRequest) (m : ConnectionRuntimeManager)
  : IpcResult Driver :=
  driver ← driver_for_profile_or_tab profile (Some tab) m;
  features ← ok_or managed_unsupported (dr_sql_execution driver);
  if negb (managed_lifecycle features) then Err managed_unsupported
  else
    _ ← validate_start_sql_execution request;
    if is_raw_mode (result_mode (sr_options request)) && negb (raw_result features) then
      Err (validation_failed (lit "This connection does not support Raw SQL results"))
    else if negb (dr_managed_executor driver) then
      Err (resource_not_found (lit "Managed SQL executor is unavailable"))
    else Ok driver.

Definition start_step (started : gmap str RawArtifactOwner) (profile tab : str) (request : StartSqlExecutionRequest)
    (sink : SqlExecutionEventSink) (ch : ManagedChoice) (st : StartState) (m : ConnectionRuntimeManager)
  : option Effect :=
  let t := StartTask profile tab request sink in
  match st, ch with
  | SaStart, Locked _ _ =>
    Some (effect (t (match start_checks profile tab request m with Ok d => SaRegister d | Err e => SaDone (Err e) end)) m)
  | SaRegister d, Registering (Some error) _ _ _ =>
    Some (effect (t (SaDone (Err (system_internal (lit "Managed SQL execution runtime is unavailable")
      (lit "start_sql_execution requires a Tokio runtime: " ++ error))))) m)
  | SaRegister d, Registering None execution_id query_id now_ms =>
    if bool_decide (is_Some (started !! execution_id)) then None
    else match classify_statement d (sr_sql request) with
    | Err e => Some (effect (t (SaDone (Err e))) m)
    | Ok class =>
      let owner := mkRawArtifactOwner profile tab execution_id in
      let '(r, m) := on_executions (register_with_sink
        (mkSqlExecutionStartInput profile tab execution_id query_id class now_ms) sink) m in
      match r with
      | Err e => Some (effect (t (SaDone (Err e))) m)
      | Ok registered =>
        let x := mkExecution owner query_id request class d None in
        let handle := mkSqlExecutionHandle execution_id query_id tab (state (r_snapshot registered))
                        (started_at (r_snapshot registered)) in
        Some (mkEffect (t (SaReleaseTab x handle)) [] m (Some owner) false)
      end
    end
  | SaReleaseTab x handle, Locked _ io =>
    let '(r, m) := on_artifacts (release_tab io tab) m in
    match r with
    | Err e => Some (effect (t (SaDiscard (o_execution_id (ex_owner x)) e)) m)
    | Ok _ =>
      if is_raw_mode (result_mode (sr_options request)) then Some (effect (t (SaArtifact x handle)) m)
      else Some (mkEffect (t (SaDone (Ok handle))) [RunTask x RnStart] m None false)
    end
  | SaArtifact x handle, Opening io uuids =>
    let '(r, m) := on_artifacts (start io (ex_owner x) uuids) m in
    match r with
    | Err e => Some (effect (t (SaDiscard (o_execution_id (ex_owner x)) e)) m)
    | Ok artifact =>
      let x := mkExecution (ex_owner x) (ex_query_id x) (ex_request x) (ex_statement_class x) (ex_driver x) (Some artifact) in
      Some (mkEffect (t (SaDone (Ok handle))) [RunTask x RnStart] m None false)
    end
  | SaDiscard execution e, Locked _ _ =>
    let mine := match Coordinator.entries (sql_executions m) !! tab with
                | Some entry => str_eqb (execution_id (snapshot entry)) execution
                | None => true
                end in
    let '(_, m) := on_executions (discard_tab tab) m in
    Some (mkEffect (t (SaDone (Err e))) [] m None (negb mine))
  | _, _ => None
  end.

Definition is_raw_outcome (o : SqlExecutionOutcome) : bool := match o with OutRaw _ _ _ _ _ _ => true | _ => false end.

Definition outcome_artifact (o : SqlExecutionOutcome) : option str :=
  match o with OutRaw _ _ _ _ _ id => Some id | _ => None end.

(** What is assumed of the executor of a driver: a raw outcome names the artifact that the
    run has finished. *)
Definition honest (x : Execution) (w : WriterState) (r : IpcResult SqlExecutionOutcome) : bool :=
  match r with
  | Ok o =>
    match outcome_artifact o with
    | Some id => match w with WriterFinished => bool_decide (ex_artifact x = Some id) | _ => false end
    | None => true
    end
  | Err _ => true
  end.

Definition executor_unavailable : IpcError := resource_not_found (lit "Managed SQL executor became unavailable").

(** The executor, with its observer and its artifact writer. *)
Definition executor_step (x : Execution) (action : ExecutorAction) (io : Faults) (w : WriterState)
    (m : ConnectionRuntimeManager) : option (RunState * ConnectionRuntimeManager) :=
  let tab := o_tab_id (ex_owner x) in
  let execution := o_execution_id (ex_owner x) in
  match action with
  | PublishSummary summary progress =>
    Some (RnExecuting w, (on_executions (update_summary tab execution summary progress) m).2)
  | PublishWarning message => Some (RnExecuting w, (on_executions (append_warning tab execution message) m).2)
  | WriteChunk chunk =>
    match w, ex_artifact x with
    | WriterOpen, Some id => Some (RnExecuting WriterOpen, (on_artifacts (write_chunk io id chunk) m).2)
    | _, _ => None
    end
  | FinishArtifact mode =>
    match w, ex_artifact x with
    | WriterOpen, Some id =>
      let '(r, m) := on_artifacts (finish io id mode) m in
      Some (RnExecuting (if is_ok r then WriterFinished else WriterGone), m)
    | _, _ => None
    end
  | AbortArtifact =>
    match w, ex_artifact x with
    | WriterOpen, Some id => Some (RnExecuting WriterGone, (on_artifacts (abort io id) m).2)
    | _, _ => None
    end
  | ExecutorReturns r =>
    if negb (honest x w r) then None
    else
      let m := match w, ex_artifact x with
               | WriterOpen, Some id => set_raw_artifacts (drop_writer io id false (raw_artifacts m)) m
               | _, _ => m
               end in
      Some (match r with Ok o => RnComplete o | Err e => RnRelease e end, m)
  end.

(** The spawned run of an execution. *)
Definition run_step (x : Execution) (ch : ManagedChoice) (st : RunState) (m : ConnectionRuntimeManager)
  : option (RunState * ConnectionRuntimeManager) :=
  let tab := o_tab_id (ex_owner x) in
  let execution := o_execution_id (ex_owner x) in
  match st, ch with
  | RnStart, Locked now _ =>
    let '(r, m) := on_executions (transition now tab execution Running) m in
    Some (match r with
          | Err _ => RnDropWriter
          | Ok _ => if dr_managed_executor (ex_driver x) then RnExecuting WriterOpen else RnUnavailable
          end, m)
  | RnUnavailable, Locked now _ =>
    Some (RnDropWriter,
      (on_executions (complete_failure now tab execution Failed (SqlExecutionFailure_from executor_unavailable)) m).2)
  | RnDropWriter, Locked _ io =>
    Some (RnDone, match ex_artifact x with
                  | Some id => set_raw_artifacts (drop_writer io id false (raw_artifacts m)) m
                  | None => m
                  end)
  | RnExecuting w, Executor action io => executor_step x action io w m
  | RnComplete outcome, Locked now _ =>
    let '(r, m) := on_executions (complete_success now tab execution outcome) m in
    Some (if negb (is_ok r) || negb (is_raw_outcome outcome) then RnReleaseUnused else RnDone, m)
  | RnReleaseUnused, Locked _ io => Some (RnDone, (on_artifacts (release_execution io (ex_owner x)) m).2)
  | RnRelease e, Locked _ io =>
    Some (if bool_decide (code e = OperationCanceled) then RnSnapshot e
          else RnFail (if bool_decide (code e = OperationTimeout) then TimedOut else Failed) e,
          (on_artifacts (release_execution io (ex_owner x)) m).2)
  | RnSnapshot e, Locked _ _ =>
    let '(r, m) := on_executions (get_snapshot tab execution) m in
    Some (match r with
          | Ok s => if bool_decide (state s = Canceling) then RnDone else RnFail Failed e
          | Err _ => RnDone
          end, m)
  | RnFail st e, Locked now _ =>
    Some (RnDone, (on_executions (complete_failure now tab execution st (SqlExecutionFailure_from e)) m).2)
  | _, _ => None
  end.

(** [cancel_sql_execution] and the control request it spawns. *)
Definition cancel_checks (profile tab : str) (m : ConnectionRuntimeManager) : IpcResult Driver :=
  driver ← driver_for_profile_or_tab profile (Some tab) m;
  features ← ok_or managed_unsupported (dr_sql_execution driver);
  if negb (managed_lifecycle features) || negb (active_cancel features) then
    Err (resource_not_found (lit "This connection does not support active SQL cancellation"))
  else if negb (dr_managed_executor driver) then
    Err (resource_not_found (lit "Managed SQL cancel executor is unavailable"))
  else Ok driver.

Definition cancel_step (profile tab execution : str) (ch : ManagedChoice) (st : CancelState) (m : ConnectionRuntimeManager)
  : option Effect :=
  let t := CancelTask profile tab execution in
  match st, ch with
  | CnStart, Locked _ _ =>
    Some (effect (t (match cancel_checks profile tab m with Ok d => CnSnapshot d | Err e => CnDone (Err e) end)) m)
  | CnSnapshot d, Locked _ _ =>
    let '(r, m) := on_executions (snapshot_for_profile profile tab execution) m in
    Some (effect (t (match r with
                     | Err e => CnDone (Err e)
                     | Ok s => if bool_decide (state s = Canceling) then CnDone (Ok s) else CnBegin d
                     end)) m)
  | CnBegin d, Locked _ _ =>
    let '(r, m) := on_executions (begin_cancel tab execution) m in
    Some (mkEffect (t (CnDone r)) (match r with Ok _ => [ControlTask d tab execution CtAsk] | Err _ => [] end) m None false)
  | _, _ => None
  end.

Definition cancel_executor_unavailable : IpcError :=
  resource_not_found (lit "Managed SQL cancel executor became unavailable").

Definition control_step (driver : Driver) (tab execution : str) (ch : ManagedChoice) (st : ControlState)
    (m : ConnectionRuntimeManager) : option (ControlState * ConnectionRuntimeManager) :=
  let fail now f := (on_executions (complete_failure now tab execution CancelFailed f) m).2 in
  match st, ch with
  | CtAsk, CancelAnswered answer now =>
    Some (CtDone,
      if negb (dr_managed_executor driver) then fail now (SqlExecutionFailure_from cancel_executor_unavailable)
      else match answer with
      | Ok (Confirmed message) => (on_executions (complete_cancel now tab execution message) m).2
      | Ok (AlreadyFinished message) => fail now (SqlExecutionFailure_from (validation_failed message))
      | Ok (CancelAttemptFailed failure) => fail now failure
      | Err e => fail now (SqlExecutionFailure_from e)
      end)
  | _, _ => None
  end.

(** The blocking worker that saves does not panic, so joining it succeeds. *)
Definition save_step (profile tab execution artifact : str) (destination : Path) (ch : ManagedChoice) (st : SaveState)
    (m : ConnectionRuntimeManager) : option (SaveState * ConnectionRuntimeManager) :=
  match st, ch with
  | SvStart, Locked _ _ =>
    let '(r, m) := on_executions (snapshot_for_profile profile tab execution) m in
    Some (match r with
          | Err e => SvDone (Err e)
          | Ok s =>
            if negb (is_terminal (state s)) then
              SvDone (Err (resource_conflict (lit "An active SQL execution artifact cannot be saved")))
            else if bool_decide (outcome s ≫= outcome_artifact = Some artifact) then SvSave
            else SvDone (Err (resource_not_found (lit "Raw SQL artifact is not available for this execution")))
          end, m)
  | SvSave, Locked _ io =>
    let '(r, m) := on_artifacts (save_completed io (mkRawArtifactOwner profile tab execution) artifact destination) m in
    Some (SvDone r, m)
  | _, _ => None
  end.

Definition release_step (profile tab execution : str) (ch : ManagedChoice) (st : ReleaseState) (m : ConnectionRuntimeManager)
  : option (ReleaseState * ConnectionRuntimeManager) :=
  match st, ch with
  | RlStart, Locked _ _ =>
    let '(r, m) := on_executions (snapshot_for_profile profile tab execution) m in
    Some (match r with
          | Err e => RlDone (Err e)
          | Ok s =>
            if negb (is_terminal (state s)) then
              RlDone (Err (resource_conflict (lit "An active SQL execution cannot be released")))
            else RlArtifact
          end, m)
  | RlArtifact, Locked _ io =>
    let '(r, m) := on_artifacts (release_execution io (mkRawArtifactOwner profile tab execution)) m in
    Some (match r with Ok _ => RlRelease | Err e => RlDone (Err e) end, m)
  | RlRelease, Locked _ _ =>
    let '(r, m) := on_executions (release_for_profile profile tab execution) m in Some (RlDone r, m)
  | _, _ => None
  end.

(** [execution_result.and(artifact_result)]. *)
Definition shutdown_step (ch : ManagedChoice) (st : ShutdownState) (m : ConnectionRuntimeManager)
  : option (ShutdownState * ConnectionRuntimeManager) :=
  match st, ch with
  | ShStart, Locked _ _ =>
    let '(r, m) := on_executions (discard_all (hash_iter _)) m in Some (ShRelease r, m)
  | ShRelease discarded, Locked _ io =>
    let '(r, m) := on_artifacts (release_all io) m in
    Some (ShDone (match discarded with Ok _ => r | Err e => Err e end), m)
  | _, _ => None
  end.

Definition lift_step {S} (t : S -> ManagedTask) (r : option (S * ConnectionRuntimeManager)) : option Effect :=
  '(st, m) ← r; Some (effect (t st) m).

Definition managed_step (started : gmap str RawArtifactOwner) (tr : list Event) (ch : ManagedChoice) (t : ManagedTask)
    (m : ConnectionRuntimeManager) : option (Effect * list Event) :=
  let quiet r := e ← r; Some (e, []) in
  match t with
  | RuntimeTask t =>
    match ch with
    | ForRuntime ch => '(t', m', evs) ← task_step hash_iter tr ch t m; Some (effect (RuntimeTask t') m', evs)
    | _ => None
    end
  | StartTask profile tab request sink st => quiet (start_step started profile tab request sink ch st m)
  | RunTask x st => quiet (lift_step (RunTask x) (run_step x ch st m))
  | CancelTask profile tab execution st => quiet (cancel_step profile tab execution ch st m)
  | ControlTask driver tab execution st =>
    quiet (lift_step (ControlTask driver tab execution) (control_step driver tab execution ch st m))
  | SaveTask profile tab execution artifact destination st =>
    quiet (lift_step (SaveTask profile tab execution artifact destination)
      (save_step profile tab execution artifact destination ch st m))
  | ReleaseTask profile tab execution st =>
    quiet (lift_step (ReleaseTask profile tab execution) (release_step profile tab execution ch st m))
  | ShutdownTask st => quiet (lift_step ShutdownTask (shutdown_step ch st m))
  end.

Definition initial_managed_task (t : ManagedTask) : bool :=
  match t with
  | RuntimeTask t => initial_task t
  | StartTask _ _ _ _ SaStart | CancelTask _ _ _ CnStart | SaveTask _ _ _ _ _ SvStart
  | ReleaseTask _ _ _ RlStart | ShutdownTask ShStart => true
  | _ => false
  end.

(** [ms_started] records the executions that were registered and [ms_clobbered] whether a
    failing start ever discarded the execution of another one. *)
Record ManagedConfig := mkManagedConfig {
  ms_manager : ConnectionRuntimeManager;
  ms_tasks : list ManagedTask;
  ms_trace : list Event;
  ms_started : gmap str RawArtifactOwner;
  ms_clobbered : bool;
}.

Inductive managed : ManagedConfig -> ManagedConfig -> Prop :=
| managed_call m ts tr sd cl t : initial_managed_task t = true ->
    managed (mkManagedConfig m ts tr sd cl) (mkManagedConfig m (ts ++ [t]) tr sd cl)
| managed_run m ts tr sd cl i t ch e evs :
    ts !! i = Some t -> managed_step sd tr ch t m = Some (e, evs) ->
    managed (mkManagedConfig m ts tr sd cl)
      (mkManagedConfig (ef_manager e) (<[i := ef_task e]> ts ++ ef_spawned e) (evs ++ tr)
         (match ef_started e with Some o => <[o_execution_id o := o]> sd | None => sd end)
         (cl || ef_clobbered e)).

Inductive managed_reachable (store : RawArtifactStore) : ManagedConfig -> Prop :=
| managed_start : managed_reachable store (mkManagedConfig (with_raw_artifact_store store) [] [] ∅ false)
| managed_next c c' : managed_reachable store c -> managed c c' -> managed_reachable store c'.
End managed.

(** ** The request *)

(** A managed execution is admitted exactly when its text holds one statement, its
    timeout is one of the offered ones, its page is at least 1 (exactly 1 for a raw
    result), its page size is between 1 and 1000 and the rows it skips are at most
    100000; pages and page sizes are 32-bit, so the offset never overflows. *)
Theorem validate_start_spec request :
  (0 <= page (sr_options request) <= U32_MAX)%Z -> (0 <= options_page_size (sr_options request) <= U32_MAX)%Z ->
  validate_start_sql_execution request = Ok tt <->
  sql_statement_count (sr_sql request) = 1 /\ allowed_timeout (timeout_ms (sr_options request)) = true
  /\ (1 <= page (sr_options request))%Z /\ (result_mode (sr_options request) = Raw -> page (sr_options request) = 1%Z)
  /\ (1 <= options_page_size (sr_options request) <= 1000)%Z
  /\ ((page (sr_options request) - 1) * options_page_size (sr_options request) <= 100000)%Z.
Proof.
  intros Hpage Hsize. unfold validate_start_sql_execution. set (o := sr_options request) in *.
  destruct (sql_statement_count _) as [|[|n]]; [split; [discriminate|lia]| |split; [discriminate|lia]].
  destruct (allowed_timeout _); cbn [negb]; [|split; [discriminate|intros (_ & H & _); discriminate]].
  destruct (page o =? 0)%Z eqn:E0; [split; [discriminate|lia]|].
  destruct (is_raw_mode (result_mode o) && negb (page o =? 1)%Z) eqn:E1.
  { split; [discriminate|]. intros (_ & _ & _ & Hraw & _). destruct (result_mode o); [discriminate|]. rewrite Hraw in E1 by done. discriminate. }
  destruct ((1 <=? options_page_size o)%Z && (options_page_size o <=? 1000)%Z) eqn:E2; cbn [negb]; [|split; [discriminate|lia]].
  assert (Hb : ((page o - 1) * options_page_size o <= U64_MAX)%Z) by (unfold U32_MAX, U64_MAX in *; nia).
  unfold checked_mul_u64. apply Z.leb_le in Hb. rewrite Hb. cbn.
  assert (Hraw : result_mode o = Raw -> page o = 1%Z) by (intros Hr; rewrite Hr in E1; cbn in E1; lia).
  destruct (_ <? _)%Z eqn:E3; [split; [discriminate|lia]|]. split; [intros _|done]. split_and!; try done; lia.
Qed.

Lemma validate_start_spec_witness :
  let request := mkStartSqlExecutionRequest (mkSqlExecutionContext None None) (lit "SELECT ';' -- one; really")
                   (mkSqlExecutionOptions Grid (Some 60000%Z) 101 1000) in
  validate_start_sql_execution request = Ok tt.
Proof.
  apply validate_start_spec; cbn -[U32_MAX]; [unfold U32_MAX; lia|unfold U32_MAX; lia|].
  split_and!; try reflexivity; try lia. discriminate.
Defined.
