(* ===== verification/ManagedRuns.v ===== *)
(** * Who owns an artifact

    Theorems about the runs of [ManagedSql], in which starting, running, cancelling,
    saving and releasing executions, shutting down, and connecting, disconnecting and
    closing tabs interleave.  Every artifact in the store is the result of a succeeded
    execution that still lists it, or a task that is not finished will remove it. *)

From stdpp Require Import base gmap list strings fin_maps relations.
From Stdlib Require Import ZArith Lia.
From S2P Require Import Prelude Errors Types Coordinator Artifact RuntimeTables ConnectionRaces ManagedSql.

(** ** What the store operations do to the records *)

Abbreviation records s := (Artifact.entries s).

(** Records disappear or keep their owner. *)
Definition records_kept (s s' : RawArtifactStore) : Prop :=
  poisoned_table s' = poisoned_table s
  /\ forall id r', records s' !! id = Some r' -> exists r, records s !! id = Some r /\ owner r = owner r'.

Lemma records_kept_refl s : records_kept s s.
Proof. split; [done|]. eauto. Qed.

Lemma records_kept_trans s1 s2 s3 : records_kept s1 s2 -> records_kept s2 s3 -> records_kept s1 s3.
Proof.
  intros [P1 R1] [P2 R2]. split; [congruence|]. intros id r3 H3. destruct (R2 _ _ H3) as (r2 & H2 & E2).
  destruct (R1 _ _ H2) as (r1 & H1 & E1). exists r1. split; congruence.
Qed.

Lemma set_files_kept f s : records_kept s (set_files f s).
Proof. split; [done|]. eauto. Qed.

Lemma set_entry_kept id e r s : records s !! id = Some r -> records_kept s (set_entry id e r s).
Proof.
  intros Hr. split; [done|]. intros id' r'. cbn. destruct (decide (id = id')) as [<-|Hne].
  - rewrite lookup_insert_eq. intros [= <-]. eauto.
  - rewrite lookup_insert_ne by done. eauto.
Qed.

Lemma delete_kept id s : records_kept s (Artifact.set_entries (delete id (records s)) s).
Proof. split; [done|]. intros id' r'. cbn. rewrite lookup_delete_Some. intros [_ H]. eauto. Qed.

Lemma remove_record_file_kept io r s : records_kept s (remove_record_file io r s).2.
Proof. unfold remove_record_file. repeat case_match; apply records_kept_refl || apply set_files_kept. Qed.

Lemma remove_record_file_records io r s : records (remove_record_file io r s).2 = records s.
Proof. unfold remove_record_file. repeat case_match; reflexivity. Qed.

Lemma abort_artifact_kept' io id s : records_kept s (abort_artifact io id s).2.
Proof.
  unfold abort_artifact. destruct (poisoned_table s); [apply records_kept_refl|].
  eapply records_kept_trans; [apply (delete_kept id)|]. cbn. destruct (records s !! id); [|apply records_kept_refl].
  apply remove_record_file_kept.
Qed.

Lemma abort_artifact_removes io id s : poisoned_table s = false -> records (abort_artifact io id s).2 !! id = None.
Proof.
  intros Hp. unfold abort_artifact. rewrite Hp. cbn. destruct (records s !! id); rewrite ?remove_record_file_records; apply lookup_delete_eq.
Qed.

Lemma drop_writer_records_kept io id b s : records_kept s (drop_writer io id b s).
Proof. unfold drop_writer. destruct b; [apply records_kept_refl|apply abort_artifact_kept']. Qed.

Lemma record_ok id s r s' : record id s = (Ok r, s') -> s' = s /\ records s !! id = Some r.
Proof.
  unfold record. destruct (poisoned_table s); [discriminate|]. destruct (records s !! id); intros [=]; subst; auto.
Qed.

Lemma record_state id s r s' : record id s = (r, s') -> s' = s.
Proof. unfold record. destruct (poisoned_table s); intros [= _ <-]; reflexivity. Qed.

Lemma write_chunk_kept' io id chunk s : records_kept s (write_chunk io id chunk s).2.
Proof.
  unfold write_chunk. destruct (record id s) as [[r|e] s1] eqn:Er.
  - apply record_ok in Er as [-> Hr]. destruct (completed (entry r)); [apply records_kept_refl|].
    destruct (checked_add_u64 _ _); [|apply records_kept_refl]. destruct (_ <? _)%Z.
    + pose proof (abort_artifact_kept' io id s) as Ha. destruct (abort_artifact io id s) as [[] s2]; exact Ha.
    + destruct (writer (entry r)); [destruct (fails io FsWrite)|]; apply set_entry_kept, Hr.
  - apply record_state in Er as ->. apply records_kept_refl.
Qed.

Lemma finish_kept io id mode s : records_kept s (finish io id mode s).2.
Proof.
  unfold finish. destruct (finish_body io id mode s) as [r s1] eqn:Ef. cbn [snd].
  eapply records_kept_trans; [|apply drop_writer_records_kept]. revert Ef. unfold finish_body.
  destruct (record id s) as [[r1|e] s2] eqn:Er; [apply record_ok in Er as [-> Hr]|apply record_state in Er as ->].
  - destruct (writer (entry r1)) as [w|]; [|intros [= _ <-]; apply records_kept_refl].
    destruct (fails io FsFlush); [intros [= _ <-]; apply set_entry_kept, Hr|].
    destruct (fails io FsSync).
    + intros [= _ <-]. eapply records_kept_trans; [eapply set_entry_kept, Hr|apply set_files_kept].
    + destruct (build_preview _ _ _ _). intros [= _ <-]. split; [done|]. intros id' r'. cbn.
      destruct (decide (id = id')) as [<-|Hne]; [rewrite lookup_insert_eq; intros [= <-]; eauto|].
      rewrite !lookup_insert_ne by done. eauto.
  - intros [= _ <-]. apply records_kept_refl.
Qed.

Lemma abort_kept io id s : records_kept s (abort io id s).2.
Proof.
  unfold abort. pose proof (abort_artifact_kept' io id s) as Ha. destruct (abort_artifact io id s) as [r s1]. cbn [snd] in *.
  eapply records_kept_trans; [exact Ha|apply drop_writer_records_kept].
Qed.

Lemma save_completed_kept `{FileSystem} io o id destination s : records_kept s (save_completed io o id destination s).2.
Proof.
  unfold save_completed. destruct (record id s) as [[r|e] s1] eqn:Er; apply record_state in Er as ->;
    repeat case_match; try apply records_kept_refl; apply set_files_kept.
Qed.

Lemma remove_files_poison io rs e s : poisoned_table (remove_files io rs e s).2 = poisoned_table s.
Proof.
  revert e s. induction rs as [|r rs IH]; intros e s; [reflexivity|]. cbn [remove_files].
  pose proof (proj1 (remove_record_file_kept io r s)) as Hp.
  destruct (remove_record_file io r s) as [[] s1]; rewrite IH; exact Hp.
Qed.

Lemma release_matching_kept io matches s : records_kept s (release_matching io matches s).2.
Proof.
  unfold release_matching. destruct (poisoned_table s) eqn:Hp; [apply records_kept_refl|].
  split; [rewrite remove_files_poison; reflexivity|]. intros id r'. rewrite remove_files_entries. cbn.
  rewrite map_lookup_filter_Some. intros [H _]. eauto.
Qed.

Lemma release_matching_removes io matches s id r' : poisoned_table s = false ->
  records (release_matching io matches s).2 !! id = Some r' -> matches (owner r') <> true.
Proof.
  intros Hp. unfold release_matching. rewrite Hp, remove_files_entries. cbn. rewrite map_lookup_filter_Some. intros [_ H]. exact H.
Qed.

Lemma start_records io o uuids s r s' : start io o uuids s = (r, s') ->
  poisoned_table s' = poisoned_table s
  /\ match r with
     | Ok id => records s !! id = None /\ exists e, records s' = <[id := mkRawArtifactRecord o e]> (records s)
     | Err _ => records s' = records s
     end.
Proof.
  unfold start, check. destruct (fails io FsCreateDir); [intros [= <- <-]; split; reflexivity|].
  generalize 16 as n. intros n. revert s uuids. induction n as [|n IH]; intros s [|u uuids]; cbn [start_attempts];
    try (intros [= <- <-]; split; reflexivity).
  destruct (files s !! _); [apply IH|]. destruct (fails io FsOpen); [intros [= <- <-]; split; reflexivity|].
  cbn. destruct (poisoned_table s) eqn:Hp; [intros [= <- <-]; split; [exact Hp|reflexivity]|].
  destruct (records s !! u) eqn:Eu.
  - destruct (fails io FsRemove); intros E; apply IH in E; cbn in E; rewrite <-Hp; exact E.
  - intros [= <- <-]. cbn. split; [exact Hp|]. split; [exact Eu|eauto].
Qed.

(** ** What the coordinator operations do to the entries *)

Abbreviation executions c := (Coordinator.entries c).

Section coordinator_facts.
Context {J : JsonNumber}.
Variable hash_iter : gmap str ActiveSqlExecution -> list (str * ActiveSqlExecution).
Hypothesis hash_iter_perm : forall m, hash_iter m ≡ₚ map_to_list m.

Lemma prim_back a tab c c' e' : prim a c c' -> coordinator_ok c -> ~ may_register a tab -> executions c' !! tab = Some e' ->
  exists e, executions c !! tab = Some e /\ entry_advances e e'.
Proof.
  intros Hp Hok Hreg He'.
  assert (Hcase : (exists e, executions c !! tab = Some e) \/ executions c !! tab = None) by (destruct (executions c !! tab); eauto).
  destruct Hcase as [[e He]|He].
  - destruct Hp as [c t p s k|c t e0 s' He0 Hup Hev|c t Hrm|c ch|c t e0 id]; cbn in He'.
    + destruct (decide (t = tab)) as [<-|]; [done|]. rewrite lookup_insert_ne in He' by done. exists e'; split; [assumption|apply entry_advances_refl].
    + destruct (decide (t = tab)) as [<-|]; [|rewrite lookup_insert_ne in He' by done; exists e'; split; [assumption|apply entry_advances_refl]].
      destruct (prim_advances (mkAuthority (fun _ => False) (fun _ _ => True) (fun _ _ => False) (fun _ => True)) t c
        (with_entries (<[t := set_snapshot s' e0]> (executions c)) c) e) as (e1 & He1 & Ha & _);
        [by apply p_update|tauto|tauto|done|done|].
      cbn in He1. rewrite He' in He1. injection He1 as ->. eauto.
    + destruct (decide (t = tab)) as [<-|]; [by rewrite lookup_delete_eq in He'|].
      rewrite lookup_delete_ne in He' by done. exists e'; split; [assumption|apply entry_advances_refl].
    + exists e'; split; [assumption|apply entry_advances_refl].
    + exists e'; split; [assumption|apply entry_advances_refl].
  - exfalso. destruct Hp as [c t p s k|c t e0 s' He0 Hup Hev|c t Hrm|c ch|c t e0 id]; cbn in He'.
    + destruct (decide (t = tab)) as [<-|]; [done|]. rewrite lookup_insert_ne in He' by done. congruence.
    + destruct (decide (t = tab)) as [<-|]; [congruence|]. rewrite lookup_insert_ne in He' by done. congruence.
    + apply lookup_delete_Some in He' as [_ He']. congruence.
    + congruence.
    + congruence.
Qed.

Lemma prims_back a tab c c' e' : rtc (prim a) c c' -> coordinator_ok c -> ~ may_register a tab -> executions c' !! tab = Some e' ->
  exists e, executions c !! tab = Some e /\ entry_advances e e'.
Proof.
  intros Hp Hok Hreg. revert Hok. induction Hp as [c|c1 c2 c3 Hp Hps IH]; intros Hok He'; [eauto using entry_advances_refl|].
  destruct (IH (prim_ok _ _ _ Hp Hok) He') as (e2 & He2 & A2).
  destruct (prim_back _ _ _ _ _ Hp Hok Hreg He2) as (e1 & He1 & A1). eauto using entry_advances_trans.
Qed.

Lemma prims_poisoned a c c' : rtc (prim a) c c' -> poisoned c' = poisoned c.
Proof. induction 1 as [c|c1 c2 c3 Hp _ IH]; [done|]. rewrite IH. by destruct Hp. Qed.

(** No execution gains an outcome. *)
Definition no_new_outcome (c c' : SqlExecutionCoordinator) : Prop :=
  forall tab e', executions c' !! tab = Some e' -> outcome (snapshot e') <> None ->
    exists e, executions c !! tab = Some e /\ execution_id (snapshot e) = execution_id (snapshot e')
      /\ outcome (snapshot e) <> None.

Lemma no_new_outcome_refl c : no_new_outcome c c.
Proof. intros tab e' He' Ho. eauto. Qed.

Lemma publish_executions k s c : executions (publish_snapshot k s c).2 = executions c.
Proof. unfold publish_snapshot. by destruct k. Qed.

Lemma set_snapshot_no_new c tab e s :
  executions c !! tab = Some e -> execution_id s = execution_id (snapshot e) ->
  (outcome s = outcome (snapshot e) \/ outcome s = None) ->
  forall c', executions c' = <[tab := set_snapshot s e]> (executions c) -> no_new_outcome c c'.
Proof.
  intros He Hx Ho c' Ec tab' e'. rewrite Ec. destruct (decide (tab = tab')) as [<-|Hne].
  - rewrite lookup_insert_eq. intros [= <-] Hne. cbn in *. exists e. split_and!; [done|done|]. destruct Ho; congruence.
  - rewrite lookup_insert_ne by done. eauto.
Qed.

Lemma increment_keeps s s' : increment_revision s = Ok s' -> execution_id s' = execution_id s /\ outcome s' = outcome s.
Proof. intros H. apply increment_revision_ok in H as [-> _]. done. Qed.

Lemma update_no_new tab exec ctx upd c :
  (forall s s', upd s = Ok s' -> execution_id s' = execution_id s /\ (outcome s' = outcome s \/ outcome s' = None)) ->
  no_new_outcome c (update_snapshot tab exec ctx upd c).2.
Proof.
  intros Hu. destruct (update_snapshot_cases tab exec ctx upd c) as [[err ->]|(e & s & He & Hx & Hs & ->)]; [apply no_new_outcome_refl|].
  destruct (Hu _ _ Hs) as [H1 H2]. destruct (increment_revision s) as [s'|] eqn:Ei.
  - destruct (increment_keeps _ _ Ei) as [H3 H4].
    apply (set_snapshot_no_new c tab e s'); [done|congruence|rewrite H4; exact H2|]. cbn [snd]. by rewrite publish_executions.
  - apply (set_snapshot_no_new c tab e s); done.
Qed.

Lemma transition_no_new now tab exec st c : no_new_outcome c (transition now tab exec st c).2.
Proof.
  apply update_no_new. intros s s'. destruct (is_valid_transition _ _); [|discriminate]. intros [= <-].
  destruct (is_terminal st); split; auto.
Qed.

Lemma update_summary_no_new tab exec sm p c : no_new_outcome c (update_summary tab exec sm p c).2.
Proof. apply update_no_new. intros s s'. destruct (is_terminal _); [discriminate|]. intros [= <-]. split; auto. Qed.

Lemma complete_failure_no_new now tab exec st f c : no_new_outcome c (complete_failure now tab exec st f c).2.
Proof.
  unfold complete_failure. case_match; [apply no_new_outcome_refl|]. apply update_no_new. intros s s'.
  destruct (is_valid_transition _ _); [|discriminate]. intros [= <-]. split; auto.
Qed.

Lemma complete_cancel_no_new now tab exec msg c : no_new_outcome c (complete_cancel now tab exec msg c).2.
Proof.
  apply update_no_new. intros s s'. destruct (is_valid_transition _ _); [|discriminate]. intros [= <-]. split; auto.
Qed.

Lemma append_warning_no_new tab exec msg c : no_new_outcome c (append_warning tab exec msg c).2.
Proof.
  unfold append_warning, lock, mbind, ST_bind, st_lift. cbn. destruct (poisoned c); [apply no_new_outcome_refl|].
  destruct (entry_mut (executions c) tab exec) as [e|] eqn:Ee; [|apply no_new_outcome_refl]. apply entry_mut_ok in Ee as [Ee _].
  destruct (is_terminal _); [apply no_new_outcome_refl|]. destruct (_ && _); [|apply no_new_outcome_refl].
  cbn. set (s := push_warning _ _). destruct (increment_revision s) as [s'|] eqn:Ei; cbn.
  - destruct (increment_keeps _ _ Ei) as [H3 H4].
    apply (set_snapshot_no_new c tab e s'); [done|by rewrite H3|rewrite H4; left; done|].
    unfold publish_snapshot. by destruct (sink e).
  - apply (set_snapshot_no_new c tab e s); try done. by left.
Qed.

Lemma begin_cancel_no_new tab exec c : no_new_outcome c (begin_cancel tab exec c).2.
Proof.
  unfold begin_cancel, lock, mbind, ST_bind, st_lift. cbn. destruct (poisoned c); [apply no_new_outcome_refl|].
  destruct (entry_mut (executions c) tab exec) as [e|] eqn:Ee; [|apply no_new_outcome_refl]. apply entry_mut_ok in Ee as [Ee _].
  cbn. case_bool_decide.
  - cbn. unfold publish_snapshot. destruct (sink e); intros tab' e' He' Ho; eauto.
  - destruct (is_valid_transition _ _); [|apply no_new_outcome_refl]. cbn. set (s := set_state _ _).
    destruct (increment_revision s) as [s'|] eqn:Ei; cbn.
    + destruct (increment_keeps _ _ Ei) as [H3 H4].
      apply (set_snapshot_no_new c tab e s'); [done|by rewrite H3|rewrite H4; left; done|].
      unfold publish_snapshot. by destruct (sink e).
    + apply (set_snapshot_no_new c tab e s); try done. by left.
Qed.

(** A success that is accepted is stored with its outcome. *)
Lemma complete_success_stores now tab exec o c s' c' : complete_success now tab exec o c = (Ok s', c') ->
  exists e, executions c !! tab = Some e /\ execution_id (snapshot e) = exec
    /\ executions c' !! tab = Some (set_snapshot s' e) /\ outcome s' = Some o /\ state s' = Succeeded
    /\ execution_id s' = exec.
Proof.
  intros E. unfold complete_success in E.
  match type of E with update_snapshot ?t ?x ?n ?u ?c0 = _ =>
    destruct (update_snapshot_cases t x n u c0) as [[err E']|(e & s & He & Hx & Hs & E')] end;
    rewrite E in E'; [discriminate|].
  destruct (is_valid_transition _ _); [|discriminate]. injection Hs as <-.
  destruct (increment_revision _) as [s2|] eqn:Ei; [|discriminate]. apply pair_equal_spec in E' as [E1 ->]. injection E1 as ->.
  apply increment_revision_ok in Ei as [-> _]. exists e.
  split_and!; [done|done| |done|done|done]. rewrite publish_executions. cbn. apply lookup_insert_eq.
Qed.

(** Only the execution that completes gains an outcome. *)
Lemma complete_success_outcomes now tab exec o c tab' e' :
  executions (complete_success now tab exec o c).2 !! tab' = Some e' -> outcome (snapshot e') <> None ->
  (exists e, executions c !! tab' = Some e /\ execution_id (snapshot e) = execution_id (snapshot e')
     /\ outcome (snapshot e) <> None) \/ execution_id (snapshot e') = exec.
Proof.
  intros H Ho. destruct (decide (execution_id (snapshot e') = exec)) as [|Hne]; [by right|left].
  unfold complete_success in H.
  match type of H with context [update_snapshot ?t ?x ?n ?u ?c0] =>
    destruct (update_snapshot_cases t x n u c0) as [[err E']|(e & s & He & Hx & Hs & E')] end;
    rewrite E' in H; [cbn in H; eauto|].
  destruct (is_valid_transition _ _); [|discriminate]. injection Hs as <-.
  assert (Hl : exists s1, execution_id s1 = exec /\ <[tab := set_snapshot s1 e]> (executions c) !! tab' = Some e').
  { destruct (increment_revision _) as [s2|] eqn:Ei; cbn [snd] in H.
    - rewrite publish_executions in H. apply increment_keeps in Ei as [Ei _]. exists s2. split; [by rewrite Ei|exact H].
    - eexists. split; [|exact H]. done. }
  destruct Hl as (s1 & H1 & Hl). destruct (decide (tab = tab')) as [<-|Hn].
  - rewrite lookup_insert_eq in Hl. injection Hl as <-. cbn in Hne. congruence.
  - rewrite lookup_insert_ne in Hl by done. eauto.
Qed.
End coordinator_facts.

(** ** The invariant *)

Section ownership.
Context {J : JsonNumber}.

Abbreviation exec_of e := (execution_id (snapshot e)).

(** The execution a task works for: no two tasks share it. *)
Definition task_exec (t : ManagedTask) : option str :=
  match t with
  | StartTask _ _ _ _ (SaReleaseTab x _) | StartTask _ _ _ _ (SaArtifact x _) => Some (o_execution_id (ex_owner x))
  | StartTask _ _ _ _ (SaDiscard execution _) => Some execution
  | RunTask x _ => Some (o_execution_id (ex_owner x))
  | _ => None
  end.

Definition is_run (t : ManagedTask) : bool := match t with RunTask _ _ => true | _ => false end.

(** What a task knows about the execution it works for. *)
Definition task_ok (sd : gmap str RawArtifactOwner) (t : ManagedTask) : Prop :=
  match t with
  | StartTask _ tab _ _ (SaReleaseTab x _) | StartTask _ tab _ _ (SaArtifact x _) =>
    sd !! o_execution_id (ex_owner x) = Some (ex_owner x) /\ o_tab_id (ex_owner x) = tab /\ ex_artifact x = None
  | StartTask p tab _ _ (SaDiscard execution _) => is_Some (sd !! execution)
  | RunTask x st =>
    sd !! o_execution_id (ex_owner x) = Some (ex_owner x)
    /\ match st with RnComplete o => forall id, outcome_artifact o = Some id -> ex_artifact x = Some id | _ => True end
  | ReleaseTask p tab execution RlArtifact | ReleaseTask p tab execution RlRelease =>
    sd !! execution = Some (mkRawArtifactOwner p tab execution)
  | _ => True
  end.

(** A start that has not spawned its run: its execution has no outcome. *)
Definition start_ok (c : SqlExecutionCoordinator) (t : ManagedTask) : Prop :=
  is_run t = false -> forall x tab e, task_exec t = Some x -> executions c !! tab = Some e -> exec_of e = x ->
    outcome (snapshot e) = None.

(** A release under way: the execution is over, and once its artifacts are released it
    has none. *)
Definition release_ok (c : SqlExecutionCoordinator) (s : RawArtifactStore) (t : ManagedTask) : Prop :=
  match t with
  | ReleaseTask _ tab execution RlArtifact =>
    forall e, executions c !! tab = Some e -> exec_of e = execution -> is_terminal (state (snapshot e)) = true
  | ReleaseTask _ tab execution RlRelease =>
    forall e, executions c !! tab = Some e -> exec_of e = execution -> is_terminal (state (snapshot e)) = true
      /\ (outcome (snapshot e) <> None -> forall id r, records s !! id = Some r -> o_execution_id (owner r) <> execution)
  | _ => True
  end.

(** The tasks that will remove an artifact, or hand it over. *)
Definition task_accounts (t : ManagedTask) (id : str) (o : RawArtifactOwner) : Prop :=
  match t with
  | RunTask x (RnStart | RnExecuting _ | RnUnavailable | RnDropWriter | RnComplete _ | RnReleaseUnused | RnRelease _) =>
    ex_owner x = o /\ ex_artifact x = Some id
  | StartTask _ tab _ _ (SaReleaseTab _ _) => o_tab_id o = tab
  | RuntimeTask (CloseTabTask tab TsRelease) => o_tab_id o = tab
  | RuntimeTask (DisconnectTask p (DsRelease _ _)) => o_profile_id o = p
  | ShutdownTask (ShRelease _) => True
  | _ => False
  end.

(** The succeeded execution that lists the artifact. *)
Definition entry_accounts (c : SqlExecutionCoordinator) (id : str) (o : RawArtifactOwner) : Prop :=
  exists e, executions c !! o_tab_id o = Some e /\ profile_id e = o_profile_id o /\ exec_of e = o_execution_id o
    /\ state (snapshot e) = Succeeded /\ outcome (snapshot e) ≫= outcome_artifact = Some id.

Record inv (c : SqlExecutionCoordinator) (s : RawArtifactStore) (ts : list ManagedTask) (sd : gmap str RawArtifactOwner)
    (cl : bool) : Prop := {
  i_coordinator : coordinator_ok c /\ poisoned c = false /\ poisoned_table s = false;
  i_entries tab e : executions c !! tab = Some e ->
    sd !! exec_of e = Some (mkRawArtifactOwner (profile_id e) tab (exec_of e));
  i_owners id r : records s !! id = Some r -> sd !! o_execution_id (owner r) = Some (owner r);
  i_tasks : Forall (task_ok sd) ts;
  i_starts : Forall (start_ok c) ts;
  i_releases : Forall (release_ok c s) ts;
  i_unique : NoDup (omap task_exec ts);
  i_accounted : cl = false -> forall id r, records s !! id = Some r ->
    entry_accounts c id (owner r) \/ exists t, t ∈ ts /\ task_accounts t id (owner r);
}.

(** What one section of a task [t] does, seen from the other tasks. *)
Record step_facts (c : SqlExecutionCoordinator) (s : RawArtifactStore) (sd : gmap str RawArtifactOwner) (t : ManagedTask)
    (c' : SqlExecutionCoordinator) (s' : RawArtifactStore) (sd' : gmap str RawArtifactOwner) (t' : ManagedTask)
    (sp : list ManagedTask) (cl : bool) : Prop := {
  sf_ok : coordinator_ok c' /\ poisoned c' = false /\ poisoned_table s' = false;
  sf_started : sd ⊆ sd';
  sf_entries tab e' : executions c' !! tab = Some e' ->
    (exists e, executions c !! tab = Some e /\ entry_advances e e')
    \/ (sd !! exec_of e' = None /\ sd' !! exec_of e' = Some (mkRawArtifactOwner (profile_id e') tab (exec_of e')));
  sf_outcomes tab e' : executions c' !! tab = Some e' -> outcome (snapshot e') <> None ->
    (exists e, executions c !! tab = Some e /\ exec_of e = exec_of e' /\ outcome (snapshot e) <> None)
    \/ (task_exec t = Some (exec_of e') /\ is_run t = true);
  sf_records id r' : records s' !! id = Some r' ->
    (exists r, records s !! id = Some r /\ owner r = owner r')
    \/ (c' = c /\ is_run t = false /\ task_exec t = Some (o_execution_id (owner r'))
        /\ sd !! o_execution_id (owner r') = Some (owner r') /\ exists u, u ∈ sp /\ task_accounts u id (owner r'));
  sf_kept : cl = false -> forall id o e r', records s' !! id = Some r' -> owner r' = o ->
    executions c !! o_tab_id o = Some e -> profile_id e = o_profile_id o -> exec_of e = o_execution_id o ->
    state (snapshot e) = Succeeded -> outcome (snapshot e) ≫= outcome_artifact = Some id ->
    executions c' !! o_tab_id o = Some e \/ task_accounts t' id o;
  sf_handed id r' : records s' !! id = Some r' -> task_accounts t id (owner r') ->
    (exists u, u ∈ t' :: sp /\ task_accounts u id (owner r')) \/ entry_accounts c' id (owner r');
  sf_tasks : Forall (task_ok sd') (t' :: sp);
  sf_starts : Forall (start_ok c') (t' :: sp);
  sf_releases : Forall (release_ok c' s') (t' :: sp);
  sf_exec : omap task_exec (t' :: sp) = [] \/ omap task_exec (t' :: sp) = omap task_exec [t]
    \/ exists x, omap task_exec (t' :: sp) = [x] /\ sd !! x = None;
}.

Lemma task_ok_mono sd sd' t : sd ⊆ sd' -> task_ok sd t -> task_ok sd' t.
Proof.
  intros Hs. assert (Hl : forall k v, sd !! k = Some v -> sd' !! k = Some v) by (intros k v Hk; exact (lookup_weaken _ _ _ _ Hk Hs)).
  destruct t as [|p tab req k []|x st| | | |p tab ex []|]; cbn; try done.
  - intros (H1 & H2 & H3). auto.
  - intros (H1 & H2 & H3). auto.
  - intros [o H]. eauto.
  - intros [H1 H2]. auto.
  - apply Hl.
  - apply Hl.
Qed.

Lemma task_exec_started sd t x : task_ok sd t -> task_exec t = Some x -> is_Some (sd !! x).
Proof.
  destruct t as [|p tab req k []|y st| | | |p tab ex []|]; cbn; try done; intros H [= <-]; try exact H;
    destruct H as (H & _); eauto.
Qed.

Lemma accounted_entry_terminal (e : ActiveSqlExecution) : state (snapshot e) = Succeeded -> is_terminal (state (snapshot e)) = true.
Proof. by intros ->. Qed.

Lemma other_start_ok c s sd t c' s' sd' t' sp cl u : step_facts c s sd t c' s' sd' t' sp cl ->
  (forall x, task_exec u = Some x -> task_exec t <> Some x) -> start_ok c u -> start_ok c' u.
Proof.
  intros Hf Hne Hu Hr x tab e' Hx He' Hex. destruct (outcome (snapshot e')) eqn:Ho; [|done]. exfalso.
  destruct (sf_outcomes _ _ _ _ _ _ _ _ _ _ Hf tab e' He') as [(e & He & Hxx & Hoe)|[Ht _]]; [congruence| |].
  - apply Hoe. apply (Hu Hr x tab e Hx He). congruence.
  - apply (Hne x Hx). congruence.
Qed.

Lemma other_release_ok c s sd t c' s' sd' t' sp cl u : step_facts c s sd t c' s' sd' t' sp cl ->
  start_ok c t -> task_ok sd u -> release_ok c s u -> release_ok c' s' u.
Proof.
  intros Hf Hst Hok Hu. destruct u as [| | | | | |p tab ex st|]; try exact I.
  assert (Hback : forall e', st = RlArtifact \/ st = RlRelease -> executions c' !! tab = Some e' -> exec_of e' = ex ->
    (forall e, executions c !! tab = Some e -> exec_of e = ex -> is_terminal (state (snapshot e)) = true) ->
    executions c !! tab = Some e').
  { intros e' Hs He' Hx Hterm. assert (Hsd : is_Some (sd !! ex)) by (destruct Hs as [-> | ->]; cbn in Hok; eauto).
    destruct (sf_entries _ _ _ _ _ _ _ _ _ _ Hf tab e' He') as [(e & He & Ha)|[Hn _]].
    - assert (exec_of e = ex) by (rewrite <-Hx; symmetry; apply (adv_same _ _ Ha)).
      rewrite (adv_terminal _ _ Ha); [done|]. eauto.
    - rewrite Hx in Hn. rewrite Hn in Hsd. by destruct Hsd. }
  destruct st; try exact I; cbn in Hu |- *.
  - intros e' He' Hx. apply (Hu e'); [|done]. apply Hback; auto.
  - intros e' He' Hx. assert (He : executions c !! tab = Some e') by (apply Hback; auto; intros e He Hxe; apply (Hu e); done).
    destruct (Hu e' He Hx) as [Ht Hn]. split; [done|]. intros Ho id r' Hr' Hox.
    destruct (sf_records _ _ _ _ _ _ _ _ _ _ Hf id r' Hr') as [(r & Hr & Hown)|(-> & Hrun & Hte & _)].
    + apply (Hn Ho id r Hr). congruence.
    + apply Ho. apply (Hst Hrun _ tab e' Hte He). congruence.
Qed.

Lemma inv_step c s ts sd cl i t c' s' sd' t' sp cl' : inv c s ts sd cl -> ts !! i = Some t ->
  step_facts c s sd t c' s' sd' t' sp cl' -> inv c' s' (<[i := t']> ts ++ sp) sd' (cl || cl').
Proof.
  intros I Hi Hf. set (others := take i ts ++ drop (S i) ts).
  assert (Hts : ts ≡ₚ t :: others).
  { rewrite <-(take_drop_middle _ _ _ Hi) at 1. unfold others. solve_Permutation. }
  assert (Hts' : <[i := t']> ts ++ sp ≡ₚ (t' :: sp) ++ others).
  { rewrite insert_take_drop by (eapply lookup_lt_Some; exact Hi). unfold others. solve_Permutation. }
  assert (Hu : NoDup (omap task_exec (t :: others))) by (rewrite <-Hts; apply I).
  assert (Hsep : forall u x, u ∈ others -> task_exec u = Some x -> task_exec t <> Some x).
  { intros u x Hin Hx Ht. cbn in Hu. rewrite Ht in Hu. apply NoDup_cons in Hu as [Hu _]. apply Hu.
    apply list_elem_of_omap. eauto. }
  pose proof (i_tasks _ _ _ _ _ I) as Htk. rewrite Hts in Htk. apply Forall_cons in Htk as [Htk Hok].
  pose proof (i_starts _ _ _ _ _ I) as Hst. rewrite Hts in Hst. apply Forall_cons in Hst as [Hst Hsto].
  pose proof (i_releases _ _ _ _ _ I) as Hrl. rewrite Hts in Hrl. apply Forall_cons in Hrl as [_ Hrlo].
  rewrite Forall_forall in Hok, Hsto, Hrlo.
  split.
  - apply Hf.
  - intros tab e' He'. destruct (sf_entries _ _ _ _ _ _ _ _ _ _ Hf tab e' He') as [(e & He & Ha)|[_ H]]; [|exact H].
    destruct (adv_same _ _ Ha) as [Hx _]. destruct (adv_owner _ _ Ha) as [Hp _]. rewrite Hx, Hp.
    eapply lookup_weaken; [apply I, He|apply Hf].
  - intros id r' Hr'. eapply lookup_weaken; [|apply Hf].
    destruct (sf_records _ _ _ _ _ _ _ _ _ _ Hf id r' Hr') as [(r & Hr & <-)|(_ & _ & _ & H & _)]; [eapply I; exact Hr|exact H].
  - rewrite Hts'. apply Forall_app. split; [apply Hf|]. apply Forall_forall. intros u Hin.
    eapply task_ok_mono; [apply Hf|apply Hok, Hin].
  - rewrite Hts'. apply Forall_app. split; [apply Hf|]. apply Forall_forall. intros u Hin.
    eapply other_start_ok; [exact Hf|intros x Hx; eapply Hsep; eassumption|apply Hsto, Hin].
  - rewrite Hts'. apply Forall_app. split; [apply Hf|]. apply Forall_forall. intros u Hin.
    eapply other_release_ok; [exact Hf|exact Hst|apply Hok, Hin|apply Hrlo, Hin].
  - rewrite Hts', omap_app. change (omap task_exec (t :: others)) with (omap task_exec ([t] ++ others)) in Hu.
    rewrite omap_app in Hu. destruct (sf_exec _ _ _ _ _ _ _ _ _ _ Hf) as [-> |[-> |(x & -> & Hx)]].
    + apply NoDup_app in Hu as (_ & _ & Hu). exact Hu.
    + exact Hu.
    + apply NoDup_app in Hu as (_ & _ & Hu). cbn. apply NoDup_cons. split; [|exact Hu].
      intros Hin. apply list_elem_of_omap in Hin as (u & Hin & Hux).
      destruct (task_exec_started _ _ _ (Hok _ Hin) Hux) as [o Ho]. congruence.
  - intros Hcl id r' Hr'. apply orb_false_iff in Hcl as [Hcl Hcl'].
    assert (Hmem : forall u, u ∈ (t' :: sp) ++ others -> u ∈ <[i := t']> ts ++ sp) by (intros u Hu'; rewrite Hts'; exact Hu').
    destruct (sf_records _ _ _ _ _ _ _ _ _ _ Hf id r' Hr') as [(r & Hr & Hown)|(_ & _ & _ & _ & u & Hin & Hacc)];
      [|right; exists u; split; [apply Hmem; set_solver|exact Hacc]].
    destruct (i_accounted _ _ _ _ _ I Hcl id r Hr) as [(e & He & Hp & Hx & Hs & Ho)|(u & Hin & Hacc)]; rewrite Hown in *.
    + destruct (sf_kept _ _ _ _ _ _ _ _ _ _ Hf Hcl' id (owner r') e r' Hr' eq_refl He Hp Hx Hs Ho) as [He'|Ht'].
      * left. exists e. auto.
      * right. exists t'. split; [apply Hmem; set_solver|exact Ht'].
    + rewrite Hts in Hin. apply elem_of_cons in Hin as [-> |Hin].
      * destruct (sf_handed _ _ _ _ _ _ _ _ _ _ Hf id r' Hr' Hacc) as [(v & Hv & Hva)|He']; [|left; exact He'].
        right. exists v. split; [apply Hmem; set_solver|exact Hva].
      * right. exists u. split; [apply Hmem; set_solver|exact Hacc].
Qed.
End ownership.

(** ** The sections *)

Section sections.
Context {J : JsonNumber} {FS : FileSystem}.
Variable hash_iter : forall A, gmap str A -> list (str * A).
Hypothesis hash_iter_perm : forall A (m : gmap str A), hash_iter A m ≡ₚ map_to_list m.
Variable classify_statement : Driver -> str -> IpcResult SqlStatementClass.

(** A coordinator operation that neither registers nor removes executions. *)
Definition updates (c c' : SqlExecutionCoordinator) : Prop :=
  coordinator_ok c' /\ poisoned c' = false
  /\ (forall tab e', executions c' !! tab = Some e' -> exists e, executions c !! tab = Some e /\ entry_advances e e')
  /\ (forall tab e, executions c !! tab = Some e -> is_terminal (state (snapshot e)) = true -> executions c' !! tab = Some e).

Lemma updates_refl c : coordinator_ok c -> poisoned c = false -> updates c c.
Proof. intros H1 H2. split_and!; eauto using entry_advances_refl. Qed.

Lemma run_op_updates op c : coordinator_ok c -> poisoned c = false -> (forall tab, ~ op_registers op tab) ->
  (forall tab e, ~ op_removes op tab e) -> updates c (run_op (hash_iter _) op c).
Proof.
  intros Hok Hp Hreg Hrem. pose proof (run_op_prims (hash_iter _) (hash_iter_perm _) op c) as Hr. split_and!.
  - eapply prims_ok; eassumption.
  - rewrite (prims_poisoned _ _ _ Hr). exact Hp.
  - intros tab e' He'. eapply prims_back; [exact Hr|exact Hok|apply Hreg|exact He'].
  - intros tab e He Ht. destruct (prims_advance _ tab _ _ e Hr) as (e' & He' & Ha & _); [apply Hreg|intros; apply Hrem|exact Hok|exact He|].
    rewrite (adv_terminal _ _ Ha Ht) in He'. exact He'.
Qed.

Lemma start_ok_no_new c c' t : no_new_outcome c c' -> start_ok c t -> start_ok c' t.
Proof.
  intros Hn Hs Hr x tab e' Hx He' Hex. destruct (outcome (snapshot e')) eqn:Ho; [|done]. exfalso.
  destruct (Hn tab e' He') as (e & He & Hxx & Hoe); [congruence|]. apply Hoe. apply (Hs Hr x tab e Hx He). congruence.
Qed.

(** The operations that move an execution along without giving it an outcome. *)
Definition calm (c c' : SqlExecutionCoordinator) : Prop := updates c c' /\ no_new_outcome c c'.

Lemma calm_refl c : coordinator_ok c -> poisoned c = false -> calm c c.
Proof. split; [by apply updates_refl|apply no_new_outcome_refl]. Qed.

Lemma transition_calm now tab ex st c : coordinator_ok c -> poisoned c = false -> calm c (transition now tab ex st c).2.
Proof. split; [apply (run_op_updates (DoTransition now tab ex st)); auto|apply transition_no_new]. Qed.

Lemma update_summary_calm tab ex sm p c : coordinator_ok c -> poisoned c = false -> calm c (update_summary tab ex sm p c).2.
Proof. split; [apply (run_op_updates (DoUpdateSummary tab ex sm p)); auto|apply update_summary_no_new]. Qed.

Lemma append_warning_calm tab ex msg c : coordinator_ok c -> poisoned c = false -> calm c (append_warning tab ex msg c).2.
Proof. split; [apply (run_op_updates (DoAppendWarning tab ex msg)); auto|apply append_warning_no_new]. Qed.

Lemma complete_failure_calm now tab ex st f c : coordinator_ok c -> poisoned c = false -> calm c (complete_failure now tab ex st f c).2.
Proof. split; [apply (run_op_updates (DoCompleteFailure now tab ex st f)); auto|apply complete_failure_no_new]. Qed.

Lemma begin_cancel_calm tab ex c : coordinator_ok c -> poisoned c = false -> calm c (begin_cancel tab ex c).2.
Proof. split; [apply (run_op_updates (DoBeginCancel tab ex)); auto|apply begin_cancel_no_new]. Qed.

Lemma complete_cancel_calm now tab ex msg c : coordinator_ok c -> poisoned c = false -> calm c (complete_cancel now tab ex msg c).2.
Proof. split; [apply (run_op_updates (DoCompleteCancel now tab ex msg)); auto|apply complete_cancel_no_new]. Qed.

Lemma get_snapshot_state tab ex (c : SqlExecutionCoordinator) : (get_snapshot tab ex c).2 = c.
Proof.
  unfold get_snapshot, lock, mbind, ST_bind, st_lift. cbn. destruct (poisoned c); [done|]. by destruct (entry_mut _ _ _).
Qed.

Lemma snapshot_for_profile_same p tab ex (c : SqlExecutionCoordinator) : (snapshot_for_profile p tab ex c).2 = c.
Proof. by destruct (snapshot_for_profile_state p tab ex c) as (r & -> & _). Qed.

(** A section that updates the coordinator or works on existing records. *)
Lemma update_facts c s sd t c' s' t' sp cl :
  updates c c' ->
  (forall tab e', executions c' !! tab = Some e' -> outcome (snapshot e') <> None ->
    (exists e, executions c !! tab = Some e /\ execution_id (snapshot e) = execution_id (snapshot e') /\ outcome (snapshot e) <> None)
    \/ (task_exec t = Some (execution_id (snapshot e')) /\ is_run t = true)) ->
  records_kept s s' -> poisoned_table s = false ->
  (forall id r', records s' !! id = Some r' -> task_accounts t id (owner r') ->
     (exists u, u ∈ t' :: sp /\ task_accounts u id (owner r')) \/ entry_accounts c' id (owner r')) ->
  Forall (task_ok sd) (t' :: sp) -> Forall (start_ok c') (t' :: sp) -> Forall (release_ok c' s') (t' :: sp) ->
  (omap task_exec (t' :: sp) = [] \/ omap task_exec (t' :: sp) = omap task_exec [t]) ->
  step_facts c s sd t c' s' sd t' sp cl.
Proof.
  intros (U1 & U2 & U3 & U4) Hn [Hk1 Hk2] Hps Hh Ht Hs Hr Hx. split; try assumption.
  - split_and!; [done|done|congruence].
  - done.
  - intros tab e' He'. left. eauto.
  - intros id r' Hr'. left. eauto.
  - intros _ id o e r' _ _ He _ _ Hst _. left. apply U4; [exact He|]. by rewrite Hst.
  - tauto.
Qed.

Lemma quiet_facts c s sd t c' s' t' sp cl :
  calm c c' -> records_kept s s' -> poisoned_table s = false ->
  (forall id r', records s' !! id = Some r' -> task_accounts t id (owner r') ->
     (exists u, u ∈ t' :: sp /\ task_accounts u id (owner r')) \/ entry_accounts c' id (owner r')) ->
  Forall (task_ok sd) (t' :: sp) -> Forall (start_ok c') (t' :: sp) -> Forall (release_ok c' s') (t' :: sp) ->
  (omap task_exec (t' :: sp) = [] \/ omap task_exec (t' :: sp) = omap task_exec [t]) ->
  step_facts c s sd t c' s' sd t' sp cl.
Proof. intros [Hu Hn]. intros. apply update_facts; auto. Qed.

(** A task that leaves both alone and accounts for nothing. *)
Lemma still_facts c s sd t t' cl : coordinator_ok c -> poisoned c = false -> poisoned_table s = false ->
  (forall id o, ~ task_accounts t id o) -> task_ok sd t' -> start_ok c t' -> release_ok c s t' ->
  (task_exec t' = None \/ task_exec t' = task_exec t) -> step_facts c s sd t c s sd t' [] cl.
Proof.
  intros H1 H2 H3 Ha Ht Hs Hr Hx. apply quiet_facts; auto using calm_refl, records_kept_refl.
  - intros id r' _ H. by destruct (Ha _ _ H).
  - cbn. destruct Hx as [-> | ->]; auto.
Qed.

Lemma idle_start_ok c t : task_exec t = None -> start_ok c t.
Proof. intros E _ x tab e Hx. congruence. Qed.

Lemma run_start_ok c x st : start_ok c (RunTask x st).
Proof. intros H. discriminate H. Qed.

Section one_step.
Context (c : SqlExecutionCoordinator) (s : RawArtifactStore) (sd : gmap str RawArtifactOwner).
Context (Hc : coordinator_ok c) (Hp : poisoned c = false) (Hps : poisoned_table s = false).
Context (Hentries : forall tab e, executions c !! tab = Some e ->
  sd !! execution_id (snapshot e) = Some (mkRawArtifactOwner (profile_id e) tab (execution_id (snapshot e)))).
Context (Howners : forall id r, records s !! id = Some r -> sd !! o_execution_id (owner r) = Some (owner r)).

(** *** Runs *)

Lemma run_facts x st c' s' st' :
  task_ok sd (RunTask x st) -> calm c c' -> records_kept s s' -> task_ok sd (RunTask x st') ->
  (forall id r', records s' !! id = Some r' -> task_accounts (RunTask x st) id (owner r') ->
     task_accounts (RunTask x st') id (owner r') \/ entry_accounts c' id (owner r')) ->
  step_facts c s sd (RunTask x st) c' s' sd (RunTask x st') [] false.
Proof.
  intros Ht Hu Hk Ht' Hh. apply quiet_facts; try assumption.
  - intros id r' Hr' Ha. destruct (Hh id r' Hr' Ha); [left|auto]. eexists. split; [left|eassumption].
  - apply Forall_singleton, Ht'.
  - apply Forall_singleton, run_start_ok.
  - apply Forall_singleton, I.
  - right. reflexivity.
Qed.

Lemma run_task_ok x st st' : task_ok sd (RunTask x st) -> (forall o, st' <> RnComplete o) -> task_ok sd (RunTask x st').
Proof. intros [H _] Hn. split; [exact H|]. destruct st'; try exact I. by destruct (Hn outcome). Qed.

Lemma executor_facts m x action io w st' m' :
  sql_executions m = c -> raw_artifacts m = s -> task_ok sd (RunTask x (RnExecuting w)) ->
  executor_step x action io w m = Some (st', m') ->
  step_facts c s sd (RunTask x (RnExecuting w)) (sql_executions m') (raw_artifacts m') sd (RunTask x st') [] false.
Proof.
  intros Em Es Ht E.
  assert (Hparts : calm c (sql_executions m') /\ records_kept s (raw_artifacts m') /\ task_ok sd (RunTask x st')
    /\ forall id o, task_accounts (RunTask x (RnExecuting w)) id o -> task_accounts (RunTask x st') id o).
  { unfold executor_step, on_executions, on_artifacts in E. rewrite Em, Es in E.
    pose proof (calm_refl c Hc Hp) as Hcr. pose proof (records_kept_refl s) as Hkr.
    destruct action as [sm pr|msg|chunk|mode| |r].
    - pose proof (update_summary_calm (o_tab_id (ex_owner x)) (o_execution_id (ex_owner x)) sm pr c Hc Hp) as Hu.
      destruct (update_summary _ _ _ _ _) as [r c']. injection E as <- <-. cbn in *. rewrite Es. auto.
    - pose proof (append_warning_calm (o_tab_id (ex_owner x)) (o_execution_id (ex_owner x)) msg c Hc Hp) as Hu.
      destruct (append_warning _ _ _ _) as [r c']. injection E as <- <-. cbn in *. rewrite Es. auto.
    - destruct w; try discriminate. destruct (ex_artifact x) as [id|]; [|discriminate].
      pose proof (write_chunk_kept' io id chunk s) as Hk. destruct (write_chunk _ _ _ _) as [r s']. injection E as <- <-. cbn in *. rewrite Em. auto.
    - destruct w; try discriminate. destruct (ex_artifact x) as [id|]; [|discriminate].
      pose proof (finish_kept io id mode s) as Hk. destruct (finish _ _ _ _) as [r s']. injection E as <- <-. cbn in *. rewrite Em. auto.
    - destruct w; try discriminate. destruct (ex_artifact x) as [id|]; [|discriminate].
      pose proof (abort_kept io id s) as Hk. destruct (abort _ _ _) as [r s']. injection E as <- <-. cbn in *. rewrite Em. auto.
    - destruct (honest x w r) eqn:Eh; [|discriminate]. cbn [negb] in E. injection E as <- <-.
      assert (Hst : task_ok sd (RunTask x (match r with Ok o => RnComplete o | Err e => RnRelease e end))
        /\ forall id o, task_accounts (RunTask x (RnExecuting w)) id o
             -> task_accounts (RunTask x (match r with Ok o => RnComplete o | Err e => RnRelease e end)) id o).
      { destruct r as [o|e]; (split; [|done]); (split; [apply Ht|]); [|exact I]. intros id Ho. unfold honest in Eh. rewrite Ho in Eh.
        destruct w; try discriminate. exact (bool_decide_eq_true_1 _ Eh). }
      destruct Hst as [Hst1 Hst2].
      destruct w, (ex_artifact x) as [id|]; cbn [sql_executions raw_artifacts set_raw_artifacts]; rewrite ?Em, ?Es; split_and!; auto.
      apply (drop_writer_records_kept io id false). }
  destruct Hparts as (H1 & H2 & H3 & H4). apply run_facts; auto.
Qed.

Lemma complete_facts now x o r c' :
  task_ok sd (RunTask x (RnComplete o)) ->
  complete_success now (o_tab_id (ex_owner x)) (o_execution_id (ex_owner x)) o c = (r, c') ->
  step_facts c s sd (RunTask x (RnComplete o)) c' s sd
    (RunTask x (if negb (is_ok r) || negb (is_raw_outcome o) then RnReleaseUnused else RnDone)) [] false.
Proof.
  intros [Hsd Hart] E.
  pose proof (run_op_updates (DoCompleteSuccess now (o_tab_id (ex_owner x)) (o_execution_id (ex_owner x)) o) c Hc Hp) as Hu.
  cbn [run_op] in Hu. rewrite E in Hu.
  apply update_facts; [apply Hu; cbn; auto| |apply records_kept_refl|exact Hps| | | | |right; reflexivity].
  - intros tab e' He' Ho. pose proof (complete_success_outcomes now (o_tab_id (ex_owner x)) (o_execution_id (ex_owner x)) o c tab e') as Hx.
    rewrite E in Hx. destruct (Hx He' Ho) as [H|H]; [left; exact H|right]. cbn. rewrite H. auto.
  - intros id r' Hr' [Hown Hid]. cbn [fst] in *. destruct r as [s1|e]; cbn [is_ok negb orb].
    + destruct o as [| |fmt mt bl pv tr aid]; cbn [is_raw_outcome negb]; [left; eexists; split; [left|split; assumption]..|].
      right. rewrite <-Hown. destruct (complete_success_stores _ _ _ _ _ _ _ E) as (e & He & Hex & He' & Ho & Hst & Hx).
      specialize (Hentries _ _ He). rewrite Hex, Hsd in Hentries. injection Hentries as Hown'.
      specialize (Hart aid eq_refl). exists (set_snapshot s1 e). cbn. rewrite Ho, Hst. cbn.
      split_and!; [exact He'|by rewrite Hown'|exact Hx|reflexivity|congruence].
    + left. eexists. split; [left|]. split; assumption.
  - apply Forall_singleton. destruct (_ || _); split; done.
  - apply Forall_singleton, run_start_ok.
  - apply Forall_singleton. exact I.
Qed.

Lemma release_owner_facts io x st st' :
  task_ok sd (RunTask x st) -> task_ok sd (RunTask x st') ->
  step_facts c s sd (RunTask x st) c (release_execution io (ex_owner x) s).2 sd (RunTask x st') [] false.
Proof.
  intros Ht Ht'. apply run_facts; [exact Ht|by apply calm_refl|apply release_matching_kept|exact Ht'|].
  intros id r' Hr' Ha. exfalso. apply (release_matching_removes io _ s id r' Hps Hr').
  assert (ex_owner x = owner r') as -> by (destruct st; try contradiction; apply Ha). by apply bool_decide_eq_true_2.
Qed.

Lemma run_step_facts m x ch st st' m' :
  sql_executions m = c -> raw_artifacts m = s -> task_ok sd (RunTask x st) -> run_step x ch st m = Some (st', m') ->
  step_facts c s sd (RunTask x st) (sql_executions m') (raw_artifacts m') sd (RunTask x st') [] false.
Proof.
  intros Em Es Ht. unfold run_step, on_executions, on_artifacts. rewrite Em, Es.
  set (tab := o_tab_id (ex_owner x)). set (ex := o_execution_id (ex_owner x)).
  assert (Hno : forall o, RnStart <> RnComplete o) by done.
  destruct st as [|w| | |o| |e|e|fst e|], ch; try discriminate.
  - pose proof (transition_calm now_ms tab ex Running c Hc Hp) as Hu. destruct (transition _ _ _ _ _) as [r c'].
    intros [= <- <-]. cbn [sql_executions raw_artifacts set_sql_executions]. rewrite Es.
    apply run_facts; [exact Ht|exact Hu|apply records_kept_refl| |].
    + apply (run_task_ok x RnStart); [exact Ht|]. intros o. destruct r; [|discriminate]. by destruct (dr_managed_executor _).
    + intros id r' _ Ha. left. destruct r; [destruct (dr_managed_executor _)|]; exact Ha.
  - intros E. eapply executor_facts; eassumption.
  - pose proof (complete_failure_calm now_ms tab ex Failed (SqlExecutionFailure_from executor_unavailable) c Hc Hp) as Hu.
    destruct (complete_failure _ _ _ _ _ _) as [r c']. intros [= <- <-]. cbn [sql_executions raw_artifacts set_sql_executions snd] in *. rewrite Es.
    apply run_facts; [exact Ht|exact Hu|apply records_kept_refl|by apply (run_task_ok x RnUnavailable)|]. auto.
  - intros [= <- <-]. destruct (ex_artifact x) as [id0|] eqn:Ea; cbn [sql_executions raw_artifacts set_raw_artifacts]; rewrite ?Em, ?Es.
    + apply run_facts; [exact Ht|by apply calm_refl|apply (drop_writer_records_kept io id0 false)|by apply (run_task_ok x RnDropWriter)|].
      intros id r' Hr' [_ Hid]. rewrite Ea in Hid. injection Hid as ->.
      pose proof (abort_artifact_removes io id s Hps) as Hn. cbn [drop_writer] in Hr'. congruence.
    + apply run_facts; [exact Ht|by apply calm_refl|apply records_kept_refl|by apply (run_task_ok x RnDropWriter)|].
      intros id r' _ [_ Hid]. congruence.
  - destruct (complete_success _ _ _ _ _) as [r c'] eqn:Ec. intros [= <- <-]. cbn [sql_executions raw_artifacts set_sql_executions]. rewrite Es.
    eapply complete_facts; eassumption.
  - destruct (release_execution _ _ _) as [r s'] eqn:Er. intros [= <- <-]. cbn [sql_executions raw_artifacts set_raw_artifacts snd]. rewrite Em.
    replace s' with (release_execution io (ex_owner x) s).2 by (rewrite Er; reflexivity).
    apply release_owner_facts; [exact Ht|by apply (run_task_ok x RnReleaseUnused)].
  - destruct (release_execution _ _ _) as [r s'] eqn:Er. intros [= <- <-]. cbn [sql_executions raw_artifacts set_raw_artifacts snd]. rewrite Em.
    replace s' with (release_execution io (ex_owner x) s).2 by (rewrite Er; reflexivity).
    apply release_owner_facts; [exact Ht|]. apply (run_task_ok x (RnRelease e)); [exact Ht|]. intros o. by destruct (bool_decide _).
  - pose proof (get_snapshot_state tab ex c) as Hs. destruct (get_snapshot _ _ _) as [r c']. cbn [snd] in Hs. subst c'.
    intros [= <- <-]. cbn [sql_executions raw_artifacts set_sql_executions]. rewrite Es.
    apply run_facts; [exact Ht|by apply calm_refl|apply records_kept_refl| |intros id r' _ []].
    apply (run_task_ok x (RnSnapshot e)); [exact Ht|]. intros o. destruct r; [|discriminate]. by destruct (bool_decide _).
  - pose proof (complete_failure_calm now_ms tab ex fst (SqlExecutionFailure_from e) c Hc Hp) as Hu.
    destruct (complete_failure _ _ _ _ _ _) as [r c']. intros [= <- <-]. cbn [sql_executions raw_artifacts set_sql_executions snd] in *. rewrite Es.
    apply run_facts; [exact Ht|exact Hu|apply records_kept_refl|by apply (run_task_ok x (RnFail fst e))|intros id r' _ []].
Qed.

(** *** Starts *)

Lemma register_entries p tab ex q class now k r c' :
  register_with_sink (mkSqlExecutionStartInput p tab ex q class now) k c = (r, c') ->
  match r with
  | Err _ => c' = c
  | Ok _ => exists e, executions c' = <[tab := e]> (executions c) /\ profile_id e = p
      /\ execution_id (snapshot e) = ex /\ outcome (snapshot e) = None
  end.
Proof.
  unfold register_with_sink, lock, mbind, ST_bind, st_lift. cbn. rewrite Hp. cbn.
  destruct (executions c !! tab) as [old|]; [destruct (is_terminal (state (snapshot old)))|]; cbn; unfold publish_snapshot; cbn;
    try (intros [= <- <-]; reflexivity).
  all: destruct k; cbn; intros [= <- <-]; eexists; split_and!; reflexivity.
Qed.

Lemma register_facts p tab req k d ex q class now r c' x hd :
  sd !! ex = None -> register_with_sink (mkSqlExecutionStartInput p tab ex q class now) k c = (Ok r, c') ->
  ex_owner x = mkRawArtifactOwner p tab ex -> ex_artifact x = None ->
  step_facts c s sd (StartTask p tab req k (SaRegister d)) c' s (<[ex := mkRawArtifactOwner p tab ex]> sd)
    (StartTask p tab req k (SaReleaseTab x hd)) [] false.
Proof.
  intros Hfresh E Hx Ha. pose proof (register_entries _ _ _ _ _ _ _ _ _ E) as (e & Ee & Hep & Hex & Heo).
  pose proof (run_op_prims (hash_iter _) (hash_iter_perm _) (DoRegister (mkSqlExecutionStartInput p tab ex q class now) k) c) as Hr.
  cbn [run_op] in Hr. rewrite E in Hr. cbn [snd] in Hr.
  assert (Hl : forall tab' e', executions c' !! tab' = Some e' -> (tab' = tab /\ e' = e) \/ (tab' <> tab /\ executions c !! tab' = Some e')).
  { intros tab' e'. rewrite Ee. destruct (decide (tab = tab')) as [<-|Hne]; [rewrite lookup_insert_eq; intros [= <-]; auto|].
    rewrite lookup_insert_ne by done. auto. }
  split.
  - split_and!; [eapply prims_ok; eassumption|by rewrite (prims_poisoned _ _ _ Hr)|exact Hps].
  - by apply insert_subseteq.
  - intros tab' e' He'. destruct (Hl _ _ He') as [[-> ->]|[_ He]]; [right|left; eauto using entry_advances_refl].
    rewrite Hex, Hep, lookup_insert_eq. auto.
  - intros tab' e' He' Ho. destruct (Hl _ _ He') as [[-> ->]|[_ He]]; [congruence|left; eauto].
  - intros id r' Hr'. left. eauto.
  - intros _ id o e0 r' Hr' Ho He0 _ _ _ _. destruct (decide (o_tab_id o = tab)) as [Ht|Hne]; [right; exact Ht|left].
    rewrite Ee, lookup_insert_ne by congruence. exact He0.
  - intros id r' _ [].
  - apply Forall_singleton. cbn. rewrite Hx, lookup_insert_eq. auto.
  - apply Forall_singleton. intros _ y tab' e' Hy He' Hexy. cbn in Hy. rewrite Hx in Hy. injection Hy as <-.
    destruct (Hl _ _ He') as [[-> ->]|[_ He]]; [exact Heo|]. cbn in Hexy.
    specialize (Hentries _ _ He). rewrite Hexy, Hfresh in Hentries. discriminate.
  - apply Forall_singleton, I.
  - right. right. exists ex. cbn. rewrite Hx. auto.
Qed.

Lemma release_tab_removes io tab id r' : records (release_tab io tab s).2 !! id = Some r' -> o_tab_id (owner r') <> tab.
Proof.
  intros Hr' Ht. apply (release_matching_removes io _ s id r' Hps Hr'). by apply bool_decide_eq_true_2.
Qed.

(** A start that keeps the coordinator and passes its execution on. *)
Lemma start_store_facts p tab req k st s' t' sp :
  start_ok c (StartTask p tab req k st) -> records_kept s s' ->
  (forall id r', records s' !! id = Some r' -> ~ task_accounts (StartTask p tab req k st) id (owner r')) ->
  Forall (task_ok sd) (t' :: sp) -> Forall (start_ok c) (t' :: sp) -> Forall (release_ok c s') (t' :: sp) ->
  omap task_exec (t' :: sp) = omap task_exec [StartTask p tab req k st] ->
  step_facts c s sd (StartTask p tab req k st) c s' sd t' sp false.
Proof.
  intros Hst Hk Hacc Ht Hs Hr Hx. apply quiet_facts; auto using calm_refl.
  intros id r' Hr' Ha. by destruct (Hacc _ _ Hr' Ha).
Qed.

Lemma open_artifact_facts io uuids p tab req k x hd id s' :
  task_ok sd (StartTask p tab req k (SaArtifact x hd)) -> start io (ex_owner x) uuids s = (Ok id, s') ->
  step_facts c s sd (StartTask p tab req k (SaArtifact x hd)) c s' sd (StartTask p tab req k (SaDone (Ok hd)))
    [RunTask (mkExecution (ex_owner x) (ex_query_id x) (ex_request x) (ex_statement_class x) (ex_driver x) (Some id)) RnStart] false.
Proof.
  intros (Hsd & Htab & Hart) E. apply start_records in E as (Hps' & Hnone & e & Es').
  pose proof (updates_refl c Hc Hp) as (U1 & U2 & U3 & U4).
  split.
  - split_and!; [done|done|congruence].
  - done.
  - intros tab' e' He'. left. eauto.
  - intros tab' e' He' Ho. left. eauto.
  - intros id' r'. rewrite Es'. destruct (decide (id = id')) as [<-|Hne].
    + rewrite lookup_insert_eq. intros [= <-]. right. cbn. split_and!; try done. eexists. split; [left|]. done.
    + rewrite lookup_insert_ne by done. eauto.
  - intros _ id' o e' r' _ _ He _ _ _ _. left. exact He.
  - intros id' r' _ [].
  - repeat (apply Forall_cons; split); [exact I|split; [exact Hsd|exact I]|constructor].
  - repeat (apply Forall_cons; split); [by apply idle_start_ok|apply run_start_ok|constructor].
  - repeat (apply Forall_cons; split); [exact I|exact I|constructor].
  - right. left. reflexivity.
Qed.

Lemma discard_tab_entries tab : (discard_tab tab c).1 = Ok (bool_decide (is_Some (executions c !! tab)))
  /\ executions (discard_tab tab c).2 = delete tab (executions c).
Proof.
  unfold discard_tab, lock, mbind, ST_bind, st_lift. cbn. rewrite Hp. cbn. destruct (executions c !! tab); cbn; done.
Qed.

Lemma discard_tab_ok tab : coordinator_ok (discard_tab tab c).2 /\ poisoned (discard_tab tab c).2 = false.
Proof.
  pose proof (run_op_prims (hash_iter _) (hash_iter_perm _) (DoDiscardTab tab) c) as Hr. cbn [run_op] in Hr.
  split; [eapply prims_ok; eassumption|by rewrite (prims_poisoned _ _ _ Hr)].
Qed.

(** Removing executions. *)
Lemma removal_facts c' t t' (gone : str -> ActiveSqlExecution -> Prop) cl :
  coordinator_ok c' -> poisoned c' = false ->
  (forall tab e, executions c' !! tab = Some e -> executions c !! tab = Some e) ->
  (forall tab e, executions c !! tab = Some e -> executions c' !! tab = Some e \/ gone tab e) ->
  (cl = false -> forall id o e, gone (o_tab_id o) e -> executions c !! o_tab_id o = Some e -> profile_id e = o_profile_id o ->
     execution_id (snapshot e) = o_execution_id o -> outcome (snapshot e) ≫= outcome_artifact = Some id ->
     task_accounts t' id o \/ forall r, records s !! id = Some r -> owner r <> o) ->
  (forall id o, ~ task_accounts t id o) -> task_ok sd t' -> task_exec t' = None -> release_ok c' s t' ->
  step_facts c s sd t c' s sd t' [] cl.
Proof.
  intros Hok Hp' Hsub Hgone Hacc Ht Htk Hte Hrl. split.
  - done.
  - done.
  - intros tab e' He'. left. eauto using entry_advances_refl.
  - intros tab e' He' Ho. left. eauto.
  - intros id r' Hr'. left. eauto.
  - intros Hcl id o e r' Hr' Ho He Hpr Hex _ Hout. destruct (Hgone _ _ He) as [H|H]; [left; exact H|].
    destruct (Hacc Hcl id o e H He Hpr Hex Hout) as [H'|H']; [right; exact H'|]. destruct (H' _ Hr' Ho).
  - intros id r' _ H. by destruct (Ht _ _ H).
  - apply Forall_singleton, Htk.
  - apply Forall_singleton, idle_start_ok, Hte.
  - apply Forall_singleton, Hrl.
  - left. cbn. by rewrite Hte.
Qed.

Lemma start_discard_facts p tab req k ex err :
  start_ok c (StartTask p tab req k (SaDiscard ex err)) ->
  step_facts c s sd (StartTask p tab req k (SaDiscard ex err)) (discard_tab tab c).2 s sd (StartTask p tab req k (SaDone (Err err))) []
    (negb match executions c !! tab with Some e => str_eqb (execution_id (snapshot e)) ex | None => true end).
Proof.
  intros Hst. destruct (discard_tab_entries tab) as [_ Ed]. destruct (discard_tab_ok tab) as [Hok Hp'].
  apply (removal_facts _ _ _ (fun tab' _ => tab' = tab)); auto.
  - intros tab' e. rewrite Ed, lookup_delete_Some. by intros [_ H].
  - intros tab' e He. rewrite Ed. destruct (decide (tab' = tab)); [auto|left]. rewrite lookup_delete_ne by congruence. exact He.
  - intros Hcl id o e Ht He _ Hex Hout. rewrite Ht in He. rewrite He in Hcl. apply negb_false_iff in Hcl.
    apply bool_decide_eq_true_1 in Hcl. assert (Hn : outcome (snapshot e) = None) by (by apply (Hst eq_refl ex tab e)).
    rewrite Hn in Hout. discriminate.
  - exact I.
  - exact I.
Qed.

Lemma start_step_facts m p tab req k ch st e :
  sql_executions m = c -> raw_artifacts m = s -> task_ok sd (StartTask p tab req k st) -> start_ok c (StartTask p tab req k st) ->
  start_step classify_statement sd p tab req k ch st m = Some e ->
  step_facts c s sd (StartTask p tab req k st) (sql_executions (ef_manager e)) (raw_artifacts (ef_manager e))
    (match ef_started e with Some o => <[o_execution_id o := o]> sd | None => sd end) (ef_task e) (ef_spawned e) (ef_clobbered e).
Proof.
  intros Em Es Ht Hst. unfold start_step, on_executions, on_artifacts. rewrite Em, Es.
  assert (Hstill : forall st' cl, (forall id o, ~ task_accounts (StartTask p tab req k st) id o) -> task_exec (StartTask p tab req k st') = None ->
    task_ok sd (StartTask p tab req k st') -> step_facts c s sd (StartTask p tab req k st) c s sd (StartTask p tab req k st') [] cl).
  { intros st' cl Ha Hx Hok. apply still_facts; auto using idle_start_ok; exact I. }
  destruct st as [|d|x hd|x hd|ex err|], ch as [|now io|[]| | |]; try discriminate.
  - intros [= <-]. unfold effect; cbn [ef_manager ef_started ef_task ef_spawned ef_clobbered]. rewrite Em, Es. destruct (start_checks p tab req m); apply Hstill; auto; exact I.
  - intros [= <-]. unfold effect; cbn [ef_manager ef_started ef_task ef_spawned ef_clobbered]. rewrite Em, Es. apply Hstill; auto; exact I.
  - case_bool_decide as Hfresh; [discriminate|]. apply eq_None_not_Some in Hfresh. destruct (classify_statement d (sr_sql req)) as [class|e0].
    + destruct (register_with_sink _ _ _) as [r c'] eqn:Er. destruct r as [r|e0]; intros [= <-]; cbn.
      * rewrite Es. eapply register_facts; try eassumption; reflexivity.
      * apply register_entries in Er as ->. rewrite Es. apply Hstill; auto; exact I.
    + intros [= <-]. unfold effect; cbn [ef_manager ef_started ef_task ef_spawned ef_clobbered]. rewrite Em, Es. apply Hstill; auto; exact I.
  - pose proof (release_matching_kept io (fun o => str_eqb (o_tab_id o) tab) s) as Hk. fold (release_tab io tab) in Hk.
    pose proof (release_tab_removes io tab) as Hrm. destruct (release_tab io tab s) as [r s']. cbn [snd] in *.
    assert (Hgo : forall t' sp, Forall (task_ok sd) (t' :: sp) -> Forall (start_ok c) (t' :: sp) -> Forall (release_ok c s') (t' :: sp) ->
      omap task_exec (t' :: sp) = [o_execution_id (ex_owner x)] ->
      step_facts c s sd (StartTask p tab req k (SaReleaseTab x hd)) c s' sd t' sp false).
    { intros t' sp H1 H2 H3 H4. apply start_store_facts; auto. }
    pose proof Ht as (Hsd & Htab & Hart). destruct r as [u|e0]; [destruct (is_raw_mode _)|]; intros [= <-];
      unfold effect; cbn [ef_manager ef_started ef_task ef_spawned ef_clobbered sql_executions raw_artifacts set_raw_artifacts]; rewrite Em.
    + apply Hgo; [apply Forall_singleton, Ht|apply Forall_singleton, Hst|apply Forall_singleton, I|reflexivity].
    + apply Hgo; [| | |reflexivity]; apply Forall_cons; (split; [|apply Forall_singleton]);
        [exact I|split; [exact Hsd|exact I]|by apply idle_start_ok|apply run_start_ok|exact I|exact I].
    + apply Hgo; [apply Forall_singleton; eexists; exact Hsd|apply Forall_singleton, Hst|apply Forall_singleton, I|reflexivity].
  - destruct (start io (ex_owner x) uuids s) as [r s'] eqn:Er. destruct r as [id|e0]; intros [= <-];
      unfold effect; cbn [ef_manager ef_started ef_task ef_spawned ef_clobbered sql_executions raw_artifacts set_raw_artifacts]; rewrite Em.
    + eapply open_artifact_facts; eassumption.
    + apply start_records in Er as [Hps' Er]. pose proof Ht as (Hsd & Htab & Hart).
      apply start_store_facts;
        [exact Hst|split; [exact Hps'|rewrite Er; eauto]|intros id r' _ []|apply Forall_singleton; eexists; exact Hsd|
         apply Forall_singleton, Hst|apply Forall_singleton, I|reflexivity].
  - pose proof (start_discard_facts p tab req k ex err Hst) as Hd. destruct (discard_tab tab c) as [r c']. intros [= <-].
    unfold effect; cbn [ef_manager ef_started ef_task ef_spawned ef_clobbered sql_executions raw_artifacts set_sql_executions]. rewrite Es. exact Hd.
Qed.

(** *** Cancelling, saving, releasing *)

Lemma snapshot_for_profile_entry p tab ex sn c1 : snapshot_for_profile p tab ex c = (Ok sn, c1) ->
  exists e, executions c !! tab = Some e /\ profile_id e = p /\ execution_id (snapshot e) = ex /\ snapshot e = sn.
Proof.
  unfold snapshot_for_profile, lock, mbind, ST_bind, st_lift. rewrite Hp. cbn.
  destruct (executions c !! tab) as [e|]; [|discriminate]. case_bool_decide; [|discriminate]. case_bool_decide; [|discriminate].
  cbn. intros [= <- <-]. eauto.
Qed.

(** Tasks that account for nothing and carry no execution. *)
Lemma bystander_facts t c' s' t' sp cl :
  calm c c' -> records_kept s s' -> (forall id o, ~ task_accounts t id o) ->
  Forall (task_ok sd) (t' :: sp) -> omap task_exec (t' :: sp) = [] -> Forall (release_ok c' s') (t' :: sp) ->
  step_facts c s sd t c' s' sd t' sp cl.
Proof.
  intros Hu Hk Ha Ht Hx Hr. apply quiet_facts; try assumption; [|apply Forall_forall|by left].
  - intros id r' _ H. by destruct (Ha _ _ H).
  - intros u Hin. apply idle_start_ok. destruct (task_exec u) as [y|] eqn:Eu; [|done]. exfalso.
    assert (Hy : y ∈ omap task_exec (t' :: sp)) by (apply list_elem_of_omap; eauto). rewrite Hx in Hy. by apply elem_of_nil in Hy.
Qed.

Lemma cancel_step_facts m p tab ex ch st e :
  sql_executions m = c -> raw_artifacts m = s -> cancel_step p tab ex ch st m = Some e ->
  step_facts c s sd (CancelTask p tab ex st) (sql_executions (ef_manager e)) (raw_artifacts (ef_manager e))
    (match ef_started e with Some o => <[o_execution_id o := o]> sd | None => sd end) (ef_task e) (ef_spawned e) (ef_clobbered e).
Proof.
  intros Em Es. unfold cancel_step, on_executions. rewrite Em.
  destruct st, ch; try discriminate.
  - intros [= <-]. unfold effect. cbn [ef_manager ef_started ef_task ef_spawned ef_clobbered]. rewrite Em, Es.
    apply bystander_facts; [by apply calm_refl|apply records_kept_refl|intros ? ? []|apply Forall_singleton, I|reflexivity|apply Forall_singleton, I].
  - pose proof (snapshot_for_profile_same p tab ex c) as Hs. destruct (snapshot_for_profile _ _ _ _) as [r c']. cbn in Hs. subst c'.
    intros [= <-]. unfold effect. cbn [ef_manager ef_started ef_task ef_spawned ef_clobbered sql_executions raw_artifacts set_sql_executions]. rewrite Es.
    apply bystander_facts; [by apply calm_refl|apply records_kept_refl|intros ? ? []|apply Forall_singleton, I|reflexivity|apply Forall_singleton, I].
  - pose proof (begin_cancel_calm tab ex c Hc Hp) as Hu. destruct (begin_cancel _ _ _) as [r c'].
    intros [= <-]. cbn [ef_manager ef_started ef_task ef_spawned ef_clobbered sql_executions raw_artifacts set_sql_executions]. rewrite Es.
    apply bystander_facts; [exact Hu|apply records_kept_refl|intros ? ? []| | |]; destruct r;
      try reflexivity; repeat (apply Forall_cons; split); try exact I; apply Forall_nil_2.
Qed.

Lemma control_step_facts m d tab ex ch st st' m' :
  sql_executions m = c -> raw_artifacts m = s -> control_step d tab ex ch st m = Some (st', m') ->
  step_facts c s sd (ControlTask d tab ex st) (sql_executions m') (raw_artifacts m') sd (ControlTask d tab ex st') [] false.
Proof.
  intros Em Es. unfold control_step, on_executions. rewrite Em. destruct st, ch; try discriminate. intros [= <- <-].
  set (m' := if negb _ then _ else _).
  assert (Hm : calm c (sql_executions m') /\ raw_artifacts m' = s).
  { assert (Hf : forall f, calm c (sql_executions (let '(r, c') := complete_failure now_ms tab ex CancelFailed f c in (r, set_sql_executions c' m)).2)
      /\ raw_artifacts (let '(r, c') := complete_failure now_ms tab ex CancelFailed f c in (r, set_sql_executions c' m)).2 = s).
    { intros f. pose proof (complete_failure_calm now_ms tab ex CancelFailed f c Hc Hp) as Hu. destruct (complete_failure now_ms tab ex CancelFailed f c) as [r c']. split; [exact Hu|exact Es]. }
    unfold m'. clear m'. destruct (negb _); [exact (Hf _)|]. destruct answer as [[msg|msg|f]|e]; [|exact (Hf _)..].
    pose proof (complete_cancel_calm now_ms tab ex msg c Hc Hp) as Hu. destruct (complete_cancel now_ms tab ex msg c) as [r c']. split; [exact Hu|exact Es]. }
  destruct Hm as [Hm1 ->].
  apply bystander_facts; [exact Hm1|apply records_kept_refl|intros ? ? []|apply Forall_singleton, I|reflexivity|apply Forall_singleton, I].
Qed.

Lemma save_step_facts m p tab ex id dest ch st st' m' :
  sql_executions m = c -> raw_artifacts m = s -> save_step p tab ex id dest ch st m = Some (st', m') ->
  step_facts c s sd (SaveTask p tab ex id dest st) (sql_executions m') (raw_artifacts m') sd (SaveTask p tab ex id dest st') [] false.
Proof.
  intros Em Es. unfold save_step, on_executions, on_artifacts. rewrite Em, Es. destruct st, ch; try discriminate.
  - pose proof (snapshot_for_profile_same p tab ex c) as Hs. destruct (snapshot_for_profile _ _ _ _) as [r c']. cbn in Hs. subst c'.
    intros [= <- <-]. cbn [sql_executions raw_artifacts set_sql_executions]. rewrite Es.
    apply bystander_facts; [by apply calm_refl|apply records_kept_refl|intros ? ? []|apply Forall_singleton, I|reflexivity|apply Forall_singleton, I].
  - pose proof (save_completed_kept io (mkRawArtifactOwner p tab ex) id dest s) as Hk. destruct (save_completed _ _ _ _ _) as [r s'].
    intros [= <- <-]. cbn [sql_executions raw_artifacts set_raw_artifacts]. rewrite Em.
    apply bystander_facts; [by apply calm_refl|exact Hk|intros ? ? []|apply Forall_singleton, I|reflexivity|apply Forall_singleton, I].
Qed.

Lemma release_for_profile_entries p tab ex r c' : release_for_profile p tab ex c = (r, c') ->
  c' = c \/ (c' = with_entries (delete tab (executions c)) c
             /\ exists e, executions c !! tab = Some e /\ execution_id (snapshot e) = ex).
Proof.
  unfold release_for_profile, mbind, ST_bind. pose proof (snapshot_for_profile_same p tab ex c) as Hs.
  destruct (snapshot_for_profile p tab ex c) as [[sn|e0] c1]; cbn in Hs; subst c1; [|intros [= _ <-]; auto].
  unfold release, lock, mbind, ST_bind, st_lift. rewrite Hp. cbn.
  destruct (entry_mut (executions c) tab ex) as [e|] eqn:Ee; cbn; [|intros [= _ <-]; auto]. apply entry_mut_ok in Ee as [Ee Hx].
  destruct (is_terminal _); cbn; [|intros [= _ <-]; auto]. unfold Coordinator.set_entries, st_modify. cbn. intros [= _ <-].
  right. unfold with_entries. split; [reflexivity|eauto].
Qed.

Lemma release_step_facts m p tab ex ch st st' m' :
  sql_executions m = c -> raw_artifacts m = s -> task_ok sd (ReleaseTask p tab ex st) -> release_ok c s (ReleaseTask p tab ex st) ->
  release_step p tab ex ch st m = Some (st', m') ->
  step_facts c s sd (ReleaseTask p tab ex st) (sql_executions m') (raw_artifacts m') sd (ReleaseTask p tab ex st') [] false.
Proof.
  intros Em Es Ht Hrl. unfold release_step, on_executions, on_artifacts. rewrite Em, Es. destruct st, ch; try discriminate.
  - destruct (snapshot_for_profile _ _ _ _) as [r c'] eqn:Er. pose proof (snapshot_for_profile_same p tab ex c) as Hs. rewrite Er in Hs. cbn in Hs. subst c'.
    intros [= <- <-]. cbn [sql_executions raw_artifacts set_sql_executions]. rewrite Es.
    assert (Hst : forall r', r = r' -> match r' with Ok sn => exists e, executions c !! tab = Some e /\ profile_id e = p
      /\ execution_id (snapshot e) = ex /\ snapshot e = sn | Err _ => True end) by (intros [sn|] ->; [eapply snapshot_for_profile_entry; exact Er|exact I]).
    specialize (Hst r eq_refl). destruct r as [sn|e0]; [destruct (is_terminal (state sn)) eqn:Eterm; cbn [negb]|].
    + destruct Hst as (e & He & Hpe & Hxe & Hse). apply bystander_facts;
        [by apply calm_refl|apply records_kept_refl|intros ? ? []| |reflexivity|]; apply Forall_singleton; cbn.
      * rewrite <-Hxe at 1. rewrite (Hentries _ _ He). congruence.
      * intros e' He' _. assert (e' = e) as -> by congruence. by rewrite Hse.
    + apply bystander_facts; [by apply calm_refl|apply records_kept_refl|intros ? ? []|apply Forall_singleton, I|reflexivity|apply Forall_singleton, I].
    + apply bystander_facts; [by apply calm_refl|apply records_kept_refl|intros ? ? []|apply Forall_singleton, I|reflexivity|apply Forall_singleton, I].
  - pose proof (release_matching_kept io (fun o => bool_decide (o = mkRawArtifactOwner p tab ex)) s) as Hk.
    pose proof (release_matching_removes io (fun o => bool_decide (o = mkRawArtifactOwner p tab ex)) s) as Hrm.
    fold (release_execution io (mkRawArtifactOwner p tab ex)) in Hk. change (release_matching io _ s) with (release_execution io (mkRawArtifactOwner p tab ex) s) in Hrm.
    destruct (release_execution _ _ _) as [r s']. cbn [snd] in *. intros [= <- <-]. cbn [sql_executions raw_artifacts set_raw_artifacts]. rewrite Em.
    cbn in Ht, Hrl. destruct r as [u|e0].
    + apply bystander_facts; [by apply calm_refl|exact Hk|intros ? ? []|apply Forall_singleton; exact Ht|reflexivity|].
      apply Forall_singleton. cbn. intros e He Hxe. split; [eauto|]. intros _ id r' Hr' Hox. apply (Hrm id r' Hps Hr').
      apply bool_decide_eq_true_2. destruct Hk as [_ Hk]. destruct (Hk _ _ Hr') as (r0 & Hr0 & Hown).
      pose proof (Howners _ _ Hr0) as Ho. rewrite Hown, Hox, Ht in Ho. congruence.
    + apply bystander_facts; [by apply calm_refl|exact Hk|intros ? ? []|apply Forall_singleton, I|reflexivity|apply Forall_singleton, I].
  - destruct (release_for_profile _ _ _ _) as [r c'] eqn:Er. intros [= <- <-]. cbn [sql_executions raw_artifacts set_sql_executions]. rewrite Es.
    pose proof (run_op_prims (hash_iter _) (hash_iter_perm _) (DoReleaseForProfile p tab ex) c) as Hpr. cbn [run_op] in Hpr. rewrite Er in Hpr. cbn [snd] in Hpr.
    pose proof (prims_ok _ _ _ Hpr Hc) as Hok'. pose proof (prims_poisoned _ _ _ Hpr) as Hp'. rewrite Hp in Hp'.
    destruct (release_for_profile_entries _ _ _ _ _ Er) as [-> |(-> & e0 & He0 & Hx0)].
    + apply bystander_facts; [by apply calm_refl|apply records_kept_refl|intros ? ? []|apply Forall_singleton, I|reflexivity|apply Forall_singleton, I].
    + apply (removal_facts _ _ _ (fun tab' _ => tab' = tab)); try assumption; try exact I; try reflexivity; cbn.
      * intros tab' e. rewrite lookup_delete_Some. by intros [_ H].
      * intros tab' e He. destruct (decide (tab' = tab)); [auto|left]. rewrite lookup_delete_ne by congruence. exact He.
      * intros _ id o e Ht' He _ Hex Hout. right. intros r' Hr' Ho. rewrite Ht' in He. assert (e = e0) as -> by congruence.
        cbn in Hrl. destruct (Hrl e0 He0 Hx0) as [_ Hn]. apply (Hn ltac:(intros Hnone; rewrite Hnone in Hout; discriminate) id r' Hr'). congruence.
      * intros id o [].
Qed.

(** *** Discarding *)

Lemma signal_iter l (c0 : SqlExecutionCoordinator) :
  exists c1, st_iter (fun e : ActiveSqlExecution => send_cancel (cancel e)) l c0 = (Ok tt, c1) /\ executions c1 = executions c0.
Proof.
  revert c0. induction l as [|e l IH]; intros c0; [eexists; split; reflexivity|]. cbn. unfold mbind, ST_bind, send_cancel, st_modify. cbn.
  destruct (IH (mkCoordinator (poisoned c0) (executions c0) (<[cancel e := true]> (channels c0)) (published c0))) as (c1 & E & He).
  exists c1. split; [exact E|exact He].
Qed.

Lemma discard_all_entries : exists n c', discard_all (hash_iter _) c = (Ok n, c') /\ executions c' = ∅.
Proof.
  unfold discard_all, lock, mbind, ST_bind. cbn. rewrite Hp. cbn.
  destruct (signal_iter (map snd (hash_iter _ (executions c))) (mkCoordinator false ∅ (channels c) (published c))) as (c1 & E & He).
  unfold Coordinator.set_entries, st_modify. cbn. rewrite E. cbn. eauto.
Qed.

Lemma discard_profile_entries p : exists n c', discard_profile (hash_iter _) p c = (Ok n, c')
  /\ (forall tab e, executions c' !! tab = Some e -> executions c !! tab = Some e)
  /\ (forall tab e, executions c !! tab = Some e -> executions c' !! tab = Some e \/ profile_id e = p).
Proof.
  unfold discard_profile, lock, mbind at 1, ST_bind at 1. cbn. rewrite Hp. cbn.
  set (l := map fst _). destruct (discard_iter (hash_iter _) (hash_iter_perm _) l c) as (c' & E & He & _). unfold mbind, ST_bind. rewrite E. cbn.
  eexists _, c'. split; [reflexivity|]. split.
  - intros tab e. rewrite He. case_decide; [discriminate|done].
  - intros tab e Hl. rewrite He. case_decide as Hin; [right|left; done].
    apply list_elem_of_In, in_map_iff in Hin as ([t' e'] & <- & Hin%list_elem_of_In).
    apply (filter_hash_iter (hash_iter _) (hash_iter_perm _)) in Hin as [Hm Hf]. apply bool_decide_eq_true_1 in Hf. cbn in *. congruence.
Qed.

Lemma op_keeps_ok op : coordinator_ok (run_op (hash_iter _) op c) /\ poisoned (run_op (hash_iter _) op c) = false.
Proof.
  pose proof (run_op_prims (hash_iter _) (hash_iter_perm _) op c) as Hr.
  split; [eapply prims_ok; eassumption|by rewrite (prims_poisoned _ _ _ Hr)].
Qed.

(** A task that removes every record it accounts for. *)
Lemma removal_store_facts t s' t' :
  records_kept s s' -> (forall id r', records s' !! id = Some r' -> ~ task_accounts t id (owner r')) ->
  task_ok sd t' -> task_exec t' = None -> release_ok c s' t' -> step_facts c s sd t c s' sd t' [] false.
Proof.
  intros Hk Ha Ht Hx Hr. apply quiet_facts; try assumption; [by apply calm_refl| | | | |left; cbn; by rewrite Hx].
  - intros id r' Hr' H. by destruct (Ha _ _ Hr' H).
  - apply Forall_singleton, Ht.
  - apply Forall_singleton, idle_start_ok, Hx.
  - apply Forall_singleton, Hr.
Qed.

Lemma shutdown_step_facts m ch st st' m' :
  sql_executions m = c -> raw_artifacts m = s -> shutdown_step hash_iter ch st m = Some (st', m') ->
  step_facts c s sd (ShutdownTask st) (sql_executions m') (raw_artifacts m') sd (ShutdownTask st') [] false.
Proof.
  intros Em Es. unfold shutdown_step, on_executions, on_artifacts. rewrite Em, Es. destruct st, ch; try discriminate.
  - pose proof (op_keeps_ok DoDiscardAll) as [Hok Hp']. cbn [run_op] in Hok, Hp'.
    destruct discard_all_entries as (n & c' & E & He). rewrite E in Hok, Hp' |- *. intros [= <- <-]. cbn [sql_executions raw_artifacts set_sql_executions snd] in *.
    rewrite Es. apply (removal_facts _ _ _ (fun _ _ => True)); try assumption; try exact I; try reflexivity.
    + intros tab e. rewrite He, lookup_empty. discriminate.
    + auto.
    + intros _ id o e _ _ _ _ _. left. exact I.
    + intros id o [].
  - pose proof (release_matching_kept io (fun _ => true) s) as Hk. pose proof (release_matching_removes io (fun _ => true) s) as Hrm.
    unfold release_all. destruct (release_matching io (fun _ => true) s) as [r s']. cbn [snd] in *. intros [= <- <-].
    cbn [sql_executions raw_artifacts set_raw_artifacts]. rewrite Em. apply removal_store_facts; try assumption; try exact I; try reflexivity.
    intros id r' Hr' _. exact (Hrm _ _ Hps Hr' eq_refl).
Qed.

(** The sections of connecting, disconnecting and closing that touch executions or
    artifacts. *)
Lemma connect_step_executions k key p tr ch st m st' m' evs : connect_step k key p tr ch st m = Some (st', m', evs) ->
  sql_executions m' = sql_executions m /\ raw_artifacts m' = raw_artifacts m.
Proof.
  unfold connect_step. destruct st, ch; try discriminate.
  - unfold begin_connect_attempt. cbn [fetch_attempt_id]. intros [= <- <- <-]. destruct (_ !! key), k; split; reflexivity.
  - destruct (_ && _); [|discriminate]. intros [= <- <- <-]. split; reflexivity.
  - intros [= <- <- <-]. split; reflexivity.
  - destruct (_ !! _) as [[]|]; try discriminate. intros [= <- <- <-]. split; reflexivity.
  - unfold clear_connect_attempt_if_current. destruct (attempt_is_current _ _ _ _), k; intros [= <- <- <-]; split; reflexivity.
  - unfold register_shared, register_tab. destruct k.
    all: destruct (attempt_is_current _ _ _ _); cbn; [destruct (_ !! _)|]; intros [= <- <- <-]; split; reflexivity.
  - intros [= <- <- <-]. split; reflexivity.
  - intros [= <- <- <-]. split; reflexivity.
Qed.

Lemma cancel_attempt_executions k key m : sql_executions (cancel_connect_attempt k key m).2 = sql_executions m
  /\ raw_artifacts (cancel_connect_attempt k key m).2 = raw_artifacts m.
Proof. unfold cancel_connect_attempt. destruct (_ !! _), k; split; reflexivity. Qed.

Lemma cancel_list_executions ids m :
  sql_executions (fold_left (fun m tab => (cancel_tab_connect_attempt tab m).2) ids m) = sql_executions m
  /\ raw_artifacts (fold_left (fun m tab => (cancel_tab_connect_attempt tab m).2) ids m) = raw_artifacts m.
Proof.
  revert m. induction ids as [|x ids IH]; intros m; [split; reflexivity|]. cbn [fold_left].
  destruct (IH (cancel_tab_connect_attempt x m).2) as [H1 H2], (cancel_attempt_executions TabSlot x m) as [H3 H4].
  split; [rewrite H1|rewrite H2]; assumption.
Qed.

Lemma take_tab_list_executions ids m :
  sql_executions (take_tab_list ids m).2 = sql_executions m /\ raw_artifacts (take_tab_list ids m).2 = raw_artifacts m.
Proof.
  revert m. induction ids as [|x ids IH]; intros m; [split; reflexivity|]. cbn.
  specialize (IH (set_tabs (delete x (tabs m)) m)). destruct (take_tab_list ids _) as [rest m2]. exact IH.
Qed.

Lemma runtime_still_facts t t' cl : (forall id o, ~ task_accounts (RuntimeTask t) id o) ->
  step_facts c s sd (RuntimeTask t) c s sd (RuntimeTask t') [] cl.
Proof. intros Ha. apply still_facts; auto; try exact I. by apply idle_start_ok. Qed.

Lemma disconnect_step_facts m p ch st st' m' evs :
  sql_executions m = c -> raw_artifacts m = s -> disconnect_step hash_iter p ch st m = Some (st', m', evs) ->
  step_facts c s sd (RuntimeTask (DisconnectTask p st)) (sql_executions m') (raw_artifacts m') sd (RuntimeTask (DisconnectTask p st')) [] false.
Proof.
  intros Em Es. unfold disconnect_step. destruct st as [|cs|cs n|cs n|cs n|cs n removed|[|d ds]|], ch; try discriminate.
  - pose proof (cancel_attempt_executions SharedSlot p m) as [H1 H2]. unfold cancel_shared_connect_attempt.
    destruct (cancel_connect_attempt _ _ _) as [r m1]. intros [= <- <- <-]. cbn [snd] in *. rewrite H1, H2, Em, Es.
    apply runtime_still_facts. intros ? ? [].
  - unfold cancel_tab_connect_attempts_for_profile. intros [= <- <- <-].
    match goal with |- context [fold_left _ ?ids m] => destruct (cancel_list_executions ids m) as [H1 H2] end. rewrite H1, H2, Em, Es.
    apply runtime_still_facts. intros ? ? [].
  - rewrite Em. pose proof (op_keeps_ok (DoDiscardProfile p)) as [Hok Hp']. cbn [run_op] in Hok, Hp'.
    destruct (discard_profile_entries p) as (k & c' & E & Hsub & Hgone). rewrite E in Hok, Hp' |- *. intros [= <- <- <-].
    cbn [sql_executions raw_artifacts set_sql_executions snd] in *. rewrite Es.
    apply (removal_facts _ _ _ (fun _ e => profile_id e = p)); try assumption; try exact I; try reflexivity; [|intros ? ? []].
    intros _ id o e Hg _ Hpe _ _. left. cbn. congruence.
  - rewrite Es. pose proof (release_matching_kept io (fun o => str_eqb (o_profile_id o) p) s) as Hk.
    pose proof (release_matching_removes io (fun o => str_eqb (o_profile_id o) p) s) as Hrm.
    unfold release_profile. destruct (release_matching io _ s) as [r s']. cbn [snd] in *. intros [= <- <- <-].
    cbn [sql_executions raw_artifacts set_raw_artifacts]. rewrite Em. apply removal_store_facts; try assumption; try exact I; try reflexivity.
    intros id r' Hr' Ha. apply (Hrm _ _ Hps Hr'). by apply bool_decide_eq_true_2.
  - intros [= <- <- <-]. cbn. rewrite Em, Es. apply runtime_still_facts. intros ? ? [].
  - unfold take_tabs_of_profile. set (ids := map fst _). destruct (take_tab_list_executions ids m) as [H1 H2].
    destruct (take_tab_list ids m) as [ds m1]. intros [= <- <- <-]. cbn [snd] in *. rewrite H1, H2, Em, Es.
    apply runtime_still_facts. intros ? ? [].
  - intros [= <- <- <-]. rewrite Em, Es. apply runtime_still_facts. intros ? ? [].
  - destruct r; intros [= <- <- <-]; rewrite Em, Es; apply runtime_still_facts; intros ? ? [].
Qed.

Lemma close_tab_step_facts m tab ch st st' m' evs :
  sql_executions m = c -> raw_artifacts m = s -> close_tab_step tab ch st m = Some (st', m', evs) ->
  step_facts c s sd (RuntimeTask (CloseTabTask tab st)) (sql_executions m') (raw_artifacts m') sd (RuntimeTask (CloseTabTask tab st')) [] false.
Proof.
  intros Em Es. unfold close_tab_step. destruct st, ch; try discriminate.
  - pose proof (cancel_attempt_executions TabSlot tab m) as [H1 H2]. unfold cancel_tab_connect_attempt.
    destruct (cancel_connect_attempt _ _ _) as [r m1]. intros [= <- <- <-]. cbn [snd] in *. rewrite H1, H2, Em, Es.
    apply runtime_still_facts. intros ? ? [].
  - rewrite Em. destruct (discard_tab_entries tab) as [Er Ed]. destruct (discard_tab_ok tab) as [Hok Hp'].
    destruct (discard_tab tab c) as [r c']. cbn [fst snd] in *. subst r. intros [= <- <- <-].
    cbn [sql_executions raw_artifacts set_sql_executions]. rewrite Es.
    apply (removal_facts _ _ _ (fun tab' _ => tab' = tab)); try assumption; try exact I; try reflexivity.
    + intros tab' e. rewrite Ed, lookup_delete_Some. by intros [_ H].
    + intros tab' e He. rewrite Ed. destruct (decide (tab' = tab)); [auto|left]. rewrite lookup_delete_ne by congruence. exact He.
    + intros _ id o e Hg _ _ _ _. left. exact Hg.
    + intros id o [].
  - rewrite Es. pose proof (release_matching_kept io (fun o => str_eqb (o_tab_id o) tab) s) as Hk.
    pose proof (release_tab_removes io tab) as Hrm. unfold release_tab in *.
    destruct (release_matching io _ s) as [r s']. cbn [snd] in *. intros [= <- <- <-].
    cbn [sql_executions raw_artifacts set_raw_artifacts]. rewrite Em. apply removal_store_facts; try assumption; try exact I; try reflexivity.
  - intros [= <- <- <-]. cbn. rewrite Em, Es. apply runtime_still_facts. intros ? ? [].
  - intros [= <- <- <-]. rewrite Em, Es. apply runtime_still_facts. intros ? ? [].
Qed.

Lemma managed_facts m tr ch t e evs :
  sql_executions m = c -> raw_artifacts m = s -> task_ok sd t -> start_ok c t -> release_ok c s t ->
  managed_step hash_iter classify_statement sd tr ch t m = Some (e, evs) ->
  step_facts c s sd t (sql_executions (ef_manager e)) (raw_artifacts (ef_manager e))
    (match ef_started e with Some o => <[o_execution_id o := o]> sd | None => sd end) (ef_task e) (ef_spawned e) (ef_clobbered e).
Proof.
  intros Em Es Ht Hst Hrl. unfold managed_step, lift_step. destruct t as [t|p tab req k st|x st|p tab ex st|d tab ex st|p tab ex id dest st|p tab ex st|st].
  - destruct ch as [ch| | | | |]; try discriminate. destruct (task_step _ _ _ _ _) as [[[t' m'] evs']|] eqn:E; [|discriminate].
    intros [= <- <-]. unfold effect. cbn [ef_manager ef_started ef_task ef_spawned ef_clobbered].
    unfold task_step in E. destruct t as [p st|p tab st|p st|tab st].
    + destruct (connect_step _ _ _ _ _ _ _) as [[[st' m1] evs1]|] eqn:Ec; [|discriminate]. injection E as <- <- <-.
      destruct (connect_step_executions _ _ _ _ _ _ _ _ _ _ Ec) as [-> ->]. rewrite Em, Es. apply runtime_still_facts. intros ? ? [].
    + destruct (connect_step _ _ _ _ _ _ _) as [[[st' m1] evs1]|] eqn:Ec; [|discriminate]. injection E as <- <- <-.
      destruct (connect_step_executions _ _ _ _ _ _ _ _ _ _ Ec) as [-> ->]. rewrite Em, Es. apply runtime_still_facts. intros ? ? [].
    + destruct (disconnect_step _ _ _ _ _) as [[[st' m1] evs1]|] eqn:Ec; [|discriminate]. injection E as <- <- <-.
      eapply disconnect_step_facts; eauto.
    + destruct (close_tab_step _ _ _ _) as [[[st' m1] evs1]|] eqn:Ec; [|discriminate]. injection E as <- <- <-.
      eapply close_tab_step_facts; eauto.
  - cbn. destruct (start_step _ _ _ _ _ _ _ _ _) as [e'|] eqn:E; [|discriminate]. intros [= <- _]. eapply start_step_facts; eauto.
  - cbn. destruct (run_step _ _ _ _) as [[st' m']|] eqn:E; [|discriminate]. intros [= <- _]. eapply run_step_facts; eauto.
  - cbn. destruct (cancel_step _ _ _ _ _ _) as [e'|] eqn:E; [|discriminate]. intros [= <- _]. eapply cancel_step_facts; eauto.
  - cbn. destruct (control_step _ _ _ _ _ _) as [[st' m']|] eqn:E; [|discriminate]. intros [= <- _]. eapply control_step_facts; eauto.
  - cbn. destruct (save_step _ _ _ _ _ _ _ _) as [[st' m']|] eqn:E; [|discriminate]. intros [= <- _]. eapply save_step_facts; eauto.
  - cbn. destruct (release_step _ _ _ _ _ _) as [[st' m']|] eqn:E; [|discriminate]. intros [= <- _]. eapply release_step_facts; eauto.
  - cbn. destruct (shutdown_step _ _ _ _) as [[st' m']|] eqn:E; [|discriminate]. intros [= <- _]. eapply shutdown_step_facts; eauto.
Qed.
End one_step.

Lemma managed_inv store c : poisoned_table store = false -> records store = ∅ ->
  managed_reachable hash_iter classify_statement store c ->
  inv (sql_executions (ms_manager c)) (raw_artifacts (ms_manager c)) (ms_tasks c) (ms_started c) (ms_clobbered c).
Proof.
  intros Hps Hempty. induction 1 as [|c c' _ I Hs].
  - split; cbn.
    + split_and!; [apply coordinator_ok_new|reflexivity|exact Hps].
    + intros tab e. rewrite lookup_empty. discriminate.
    + intros id r. rewrite Hempty, lookup_empty. discriminate.
    + constructor.
    + constructor.
    + constructor.
    + constructor.
    + intros _ id r. rewrite Hempty, lookup_empty. discriminate.
  - destruct Hs as [m ts tr sd cl t Ht|m ts tr sd cl i t ch e evs Hi Hs]; cbn in *.
    + assert (Hnew : task_ok sd t /\ start_ok (sql_executions m) t /\ release_ok (sql_executions m) (raw_artifacts m) t
        /\ omap task_exec [t] = []).
      { destruct t as [t|? ? ? ? []|? []|? ? ? []|? ? ? []|? ? ? ? ? []|? ? ? []|[]]; try discriminate; cbn;
          split_and!; try exact Logic.I; try reflexivity; by apply idle_start_ok. }
      destruct Hnew as (N1 & N2 & N3 & N4). destruct I as [I1 I2 I3 I4 I5 I6 I7 I8]. split; try assumption.
      * apply Forall_app. split; [exact I4|apply Forall_singleton, N1].
      * apply Forall_app. split; [exact I5|apply Forall_singleton, N2].
      * apply Forall_app. split; [exact I6|apply Forall_singleton, N3].
      * rewrite omap_app, N4, app_nil_r. exact I7.
      * intros Hcl id r Hr. destruct (I8 Hcl id r Hr) as [H|(u & Hu & Ha)]; [left; exact H|right; exists u; set_solver].
    + pose proof I as [(Hc & Hp & Hps') Hent Hown Htk Hst Hrl _ _].
      eapply inv_step; [exact I|exact Hi|]. rewrite Forall_lookup in Htk, Hst, Hrl. eapply managed_facts; eauto.
Qed.
End sections.

(** ** Theorems *)

Section theorems.
Context {J : JsonNumber} {FS : FileSystem}.
Variable hash_iter : forall A, gmap str A -> list (str * A).
Variable classify_statement : Driver -> str -> IpcResult SqlStatementClass.

(** A task that has returned. *)
Definition finished (t : ManagedTask) : bool :=
  match t with
  | RuntimeTask (ConnectTask _ (CsDone _)) | RuntimeTask (OpenTabTask _ _ (CsDone _))
  | RuntimeTask (DisconnectTask _ (DsDone _)) | RuntimeTask (CloseTabTask _ (TsDone _))
  | StartTask _ _ _ _ (SaDone _) | RunTask _ RnDone | CancelTask _ _ _ (CnDone _) | ControlTask _ _ _ CtDone
  | SaveTask _ _ _ _ _ (SvDone _) | ReleaseTask _ _ _ (RlDone _) | ShutdownTask (ShDone _) => true
  | _ => false
  end.

Lemma accounting_unfinished t id o : task_accounts t id o -> finished t = false.
Proof. destruct t as [[? []|? ? []|? []|? []]|? ? ? ? []|? []|? ? ? []|? ? ? []|? ? ? ? ? []|? ? ? []|[]]; done. Qed.

(** ** Every run was checked *)

(** What [start_sql_execution] checked before it registered the execution. *)
Definition admitted_request (d : Driver) (request : StartSqlExecutionRequest) : Prop :=
  validate_start_sql_execution request = Ok tt /\ dr_managed_executor d = true
  /\ exists f, dr_sql_execution d = Some f /\ managed_lifecycle f = true
     /\ (result_mode (sr_options request) = Raw -> raw_result f = true).

Definition checked_task (t : ManagedTask) : Prop :=
  match t with
  | StartTask p tab request _ (SaRegister d) => admitted_request d request
  | StartTask p tab request _ (SaReleaseTab x _) | StartTask p tab request _ (SaArtifact x _) =>
    ex_request x = request /\ admitted_request (ex_driver x) request
    /\ classify_statement (ex_driver x) (sr_sql request) = Ok (ex_statement_class x)
    /\ o_profile_id (ex_owner x) = p /\ o_tab_id (ex_owner x) = tab
  | RunTask x _ =>
    admitted_request (ex_driver x) (ex_request x)
    /\ classify_statement (ex_driver x) (sr_sql (ex_request x)) = Ok (ex_statement_class x)
  | _ => True
  end.

Lemma start_checks_admit p tab request m d : start_checks p tab request m = Ok d -> admitted_request d request.
Proof.
  unfold start_checks. destruct (driver_for_profile_or_tab p (Some tab) m) as [d0|]; [|discriminate]. cbn.
  destruct (dr_sql_execution d0) as [f|] eqn:Ef; [|discriminate]. cbn. destruct (managed_lifecycle f) eqn:Em; [|discriminate]. cbn.
  destruct (validate_start_sql_execution request) as [[]|] eqn:Ev; [|discriminate]. cbn.
  destruct (is_raw_mode (result_mode (sr_options request)) && negb (raw_result f)) eqn:Er; [discriminate|].
  destruct (dr_managed_executor d0) eqn:Ed; [|discriminate]. intros [= <-].
  split_and!; [exact Ev|exact Ed|]. exists f. split_and!; [exact Ef|exact Em|]. intros Hraw. rewrite Hraw in Er. cbn in Er.
  by apply negb_false_iff in Er.
Qed.

Lemma start_step_checked sd p tab req k ch st m e : start_step classify_statement sd p tab req k ch st m = Some e ->
  checked_task (StartTask p tab req k st) -> Forall checked_task (ef_task e :: ef_spawned e).
Proof.
  unfold start_step, on_executions, on_artifacts. destruct st as [|d|x hd|x hd|ex err|], ch as [|now io|[]| | |]; try discriminate; intros E Ht.
  - injection E as <-. cbn [effect ef_task ef_spawned]. apply Forall_singleton.
    destruct (start_checks p tab req m) eqn:Es; [|exact I]. eapply start_checks_admit. exact Es.
  - injection E as <-. apply Forall_singleton. exact I.
  - case_bool_decide; [discriminate|]. destruct (classify_statement d (sr_sql req)) as [class|] eqn:Ec; [|injection E as <-; apply Forall_singleton; exact I].
    destruct (register_with_sink _ _ _) as [[r|e0] c']; injection E as <-; apply Forall_singleton; [|exact I]. cbn. auto.
  - destruct (release_tab _ _ _) as [[u|e0] s']; [destruct (is_raw_mode _)|]; injection E as <-.
    + apply Forall_singleton. exact Ht.
    + destruct Ht as (H1 & H2 & H3 & H4 & H5). repeat (apply Forall_cons; split); [exact I| |constructor]. cbn. rewrite H1. auto.
    + apply Forall_singleton. exact I.
  - destruct (start _ _ _ _) as [[u|e0] s']; injection E as <-.
    + destruct Ht as (H1 & H2 & H3 & H4 & H5). repeat (apply Forall_cons; split); [exact I| |constructor]. cbn. rewrite H1. auto.
    + apply Forall_singleton. exact I.
  - destruct (discard_tab _ _). injection E as <-. apply Forall_singleton. exact I.
Qed.

Lemma managed_step_checked sd tr ch t m e evs : managed_step hash_iter classify_statement sd tr ch t m = Some (e, evs) ->
  checked_task t -> Forall checked_task (ef_task e :: ef_spawned e).
Proof.
  intros E Ht. unfold managed_step, lift_step in E. destruct t as [t|p tab req k st|x st|p tab ex st|d tab ex st|p tab ex id dest st|p tab ex st|st].
  - destruct ch; try discriminate. destruct (task_step _ _ _ _ _) as [[[t' m'] evs']|]; [|discriminate]. injection E as <- _. apply Forall_singleton, I.
  - cbn in E. destruct (start_step _ _ _ _ _ _ _ _ _) as [e'|] eqn:Es; [|discriminate]. injection E as <- _. eapply start_step_checked; eassumption.
  - cbn in E. destruct (run_step _ _ _ _) as [[st' m']|]; [|discriminate]. injection E as <- _. apply Forall_singleton. exact Ht.
  - cbn in E. destruct (cancel_step _ _ _ _ _ _) as [e'|] eqn:Es; [|discriminate]. injection E as <- _. revert Es. unfold cancel_step, on_executions.
    destruct st, ch; try discriminate.
    + intros [= <-]. apply Forall_singleton, I.
    + destruct (snapshot_for_profile _ _ _ _). intros [= <-]. apply Forall_singleton, I.
    + destruct (begin_cancel _ _ _) as [[s|e0] c']; intros [= <-]; repeat (apply Forall_cons; split); try exact I; constructor.
  - cbn in E. destruct (control_step _ _ _ _ _ _) as [[st' m']|]; [|discriminate]. injection E as <- _. apply Forall_singleton, I.
  - cbn in E. destruct (save_step _ _ _ _ _ _ _ _) as [[st' m']|]; [|discriminate]. injection E as <- _. apply Forall_singleton, I.
  - cbn in E. destruct (release_step _ _ _ _ _ _) as [[st' m']|]; [|discriminate]. injection E as <- _. apply Forall_singleton, I.
  - cbn in E. destruct (shutdown_step _ _ _ _) as [[st' m']|]; [|discriminate]. injection E as <- _. apply Forall_singleton, I.
Qed.

Lemma managed_checked store c : managed_reachable hash_iter classify_statement store c -> Forall checked_task (ms_tasks c).
Proof.
  induction 1 as [|c c' _ IH Hs]; [constructor|]. destruct Hs as [m ts tr sd cl t Ht|m ts tr sd cl i t ch e evs Hi Hs]; cbn in *.
  - apply Forall_app. split; [exact IH|]. apply Forall_singleton.
    destruct t as [t|? ? ? ? []|? []|? ? ? []|? ? ? []|? ? ? ? ? []|? ? ? []|[]]; try discriminate; exact I.
  - apply managed_step_checked in Hs; [|eapply Forall_lookup_1; eassumption]. apply Forall_cons in Hs as [H1 H2].
    apply Forall_app. split; [apply Forall_insert; assumption|exact H2].
Qed.

(** Every managed run was checked.  Whatever interleaves, an execution that reached
    the point of being run was started with a text that holds exactly one statement and
    an allowed timeout, page and page size, on a driver that supports managed executions
    (and raw results when one was asked for) and whose executor classified the text as
    the run's statement class. *)
Theorem managed_runs_were_checked store c x st :
  managed_reachable hash_iter classify_statement store c -> RunTask x st ∈ ms_tasks c ->
  sql_statement_count (sr_sql (ex_request x)) = 1
  /\ validate_start_sql_execution (ex_request x) = Ok tt
  /\ classify_statement (ex_driver x) (sr_sql (ex_request x)) = Ok (ex_statement_class x)
  /\ dr_managed_executor (ex_driver x) = true
  /\ exists f, dr_sql_execution (ex_driver x) = Some f /\ managed_lifecycle f = true
     /\ (result_mode (sr_options (ex_request x)) = Raw -> raw_result f = true).
Proof.
  intros Hr Hin. pose proof (managed_checked _ _ Hr) as Hf. rewrite Forall_forall in Hf. destruct (Hf _ Hin) as [(H1 & H2 & H3) H4].
  split; [|auto]. unfold validate_start_sql_execution in H1. destruct (sql_statement_count _) as [|[|n]]; [discriminate|reflexivity|discriminate].
Qed.

(** ** Artifacts *)

Hypothesis hash_iter_perm : forall A (m : gmap str A), hash_iter A m ≡ₚ map_to_list m.

(** C22: no artifact is orphaned.  However starts, runs, cancellations, saves, releases,
    shutdowns, connects, disconnects and closed tabs interleave, and whatever file-system
    calls fail, every artifact of the store is listed by the succeeded execution of its
    owner, so that it can be saved and released, or a task that has not returned is still
    responsible for it; unless a start that failed discarded an execution that had
    meanwhile taken its tab.  A driver's executor is taken to be honest: a raw result names
    the artifact that this run has finished, and no other. *)
Theorem no_orphaned_artifacts store c id r :
  poisoned_table store = false -> records store = ∅ ->
  managed_reachable hash_iter classify_statement store c -> ms_clobbered c = false ->
  records (raw_artifacts (ms_manager c)) !! id = Some r ->
  (exists e, executions (sql_executions (ms_manager c)) !! o_tab_id (owner r) = Some e
     /\ profile_id e = o_profile_id (owner r) /\ execution_id (snapshot e) = o_execution_id (owner r)
     /\ state (snapshot e) = Succeeded /\ outcome (snapshot e) ≫= outcome_artifact = Some id)
  \/ (exists t, t ∈ ms_tasks c /\ finished t = false /\ task_accounts t id (owner r)).
Proof.
  intros Hps He Hr Hcl Hrec. pose proof (managed_inv hash_iter hash_iter_perm classify_statement _ _ Hps He Hr) as I.
  destruct (i_accounted _ _ _ _ _ I Hcl id r Hrec) as [H|(t & Hin & Ha)]; [left; exact H|right].
  exists t. split_and!; [exact Hin|eapply accounting_unfinished; exact Ha|exact Ha].
Qed.
End theorems.

(** ** Managed executions among the connection tasks *)

Section projection.
Context {J : JsonNumber} {FS : FileSystem}.
Variable hash_iter : forall A, gmap str A -> list (str * A).
Variable classify_statement : Driver -> str -> IpcResult SqlStatementClass.

Definition runtime_part (t : ManagedTask) : option Task := match t with RuntimeTask t => Some t | _ => None end.

(** What a configuration looks like to the connection tasks. *)
Definition project (c : ManagedConfig) : Config :=
  mkConfig (ms_manager c) (omap runtime_part (ms_tasks c)) (ms_trace c).

(** Only executions and artifacts differ. *)
Definition same_tables (m m' : ConnectionRuntimeManager) : Prop :=
  m' = set_health_cells (health_cells m) (set_raw_artifacts (raw_artifacts m') (set_sql_executions (sql_executions m') m)).

Lemma same_tables_refl m : same_tables m m.
Proof. by destruct m. Qed.

Lemma on_executions_tables {A} (op : ST SqlExecutionCoordinator IpcError A) m : same_tables m (on_executions op m).2.
Proof. unfold on_executions. destruct (op (sql_executions m)). by destruct m. Qed.

Lemma on_artifacts_tables {A} (op : ST RawArtifactStore IpcError A) m : same_tables m (on_artifacts op m).2.
Proof. unfold on_artifacts. destruct (op (raw_artifacts m)). by destruct m. Qed.

Lemma set_raw_artifacts_tables s m : same_tables m (set_raw_artifacts s m).
Proof. by destruct m. Qed.

(** A section of another task: no runtime task, no event, no table. *)
Definition aside (m : ConnectionRuntimeManager) (e : Effect) : Prop :=
  runtime_part (ef_task e) = None /\ omap runtime_part (ef_spawned e) = [] /\ same_tables m (ef_manager e).

Ltac aside_step :=
  repeat match goal with
  | |- context [on_executions ?op ?m] =>
    let Ht := fresh "Ht" in pose proof (on_executions_tables op m) as Ht; let r := fresh "r" in let m1 := fresh "m1" in destruct (on_executions op m) as [r m1]; cbn [snd] in Ht
  | |- context [on_artifacts ?op ?m] =>
    let Ht := fresh "Ht" in pose proof (on_artifacts_tables op m) as Ht; let r := fresh "r" in let m1 := fresh "m1" in destruct (on_artifacts op m) as [r m1]; cbn [snd] in Ht
  end.

Ltac aside_done := intros [= <-]; split_and!; [reflexivity|reflexivity|cbn; auto using same_tables_refl, set_raw_artifacts_tables].

Lemma start_step_aside sd p tab req k ch st m e : start_step classify_statement sd p tab req k ch st m = Some e -> aside m e.
Proof.
  unfold start_step. destruct st as [|d|x hd|x hd|ex err|], ch as [|now io|[]| | |]; try discriminate; aside_step.
  - aside_done.
  - aside_done.
  - case_bool_decide; [discriminate|]. destruct (classify_statement _ _); [|aside_done]. aside_step. destruct r; aside_done.
  - destruct r; [destruct (is_raw_mode _)|]; aside_done.
  - destruct r; aside_done.
  - aside_done.
Qed.

Definition aside_manager {S} (m : ConnectionRuntimeManager) (r : option (S * ConnectionRuntimeManager)) : Prop :=
  forall st m', r = Some (st, m') -> same_tables m m'.

Lemma run_step_aside x ch st m : aside_manager m (run_step x ch st m).
Proof.
  intros st' m'. unfold run_step, executor_step. destruct st, ch; try discriminate; aside_step;
    try (intros [= _ <-]; auto using same_tables_refl; fail).
  - destruct action as [sm pr|msg|chunk|mode| |res].
    + aside_step. intros [= _ <-]. assumption.
    + aside_step. intros [= _ <-]. assumption.
    + destruct w, (ex_artifact x); try discriminate. aside_step. intros [= _ <-]. assumption.
    + destruct w, (ex_artifact x); try discriminate. aside_step. intros [= _ <-]. assumption.
    + destruct w, (ex_artifact x); try discriminate. aside_step. intros [= _ <-]. assumption.
    + destruct (negb _); [discriminate|]. destruct w, (ex_artifact x); intros [= _ <-]; auto using same_tables_refl, set_raw_artifacts_tables.
  - destruct (ex_artifact x); intros [= _ <-]; auto using same_tables_refl, set_raw_artifacts_tables.
Qed.

Lemma control_step_aside d tab ex ch st m : aside_manager m (control_step d tab ex ch st m).
Proof.
  intros st' m'. unfold control_step. destruct st, ch; try discriminate. repeat case_match; aside_step; intros [= _ <-]; auto.
Qed.

Lemma save_step_aside p tab ex id dest ch st m : aside_manager m (save_step p tab ex id dest ch st m).
Proof. intros st' m'. unfold save_step. destruct st, ch; try discriminate; aside_step; intros [= _ <-]; auto. Qed.

Lemma release_step_aside p tab ex ch st m : aside_manager m (release_step p tab ex ch st m).
Proof. intros st' m'. unfold release_step. destruct st, ch; try discriminate; aside_step; intros [= _ <-]; auto. Qed.

Lemma shutdown_step_aside ch st m : aside_manager m (shutdown_step hash_iter ch st m).
Proof. intros st' m'. unfold shutdown_step. destruct st, ch; try discriminate; aside_step; intros [= _ <-]; auto. Qed.

Lemma cancel_step_aside p tab ex ch st m e : cancel_step p tab ex ch st m = Some e -> aside m e.
Proof.
  unfold cancel_step. destruct st, ch; try discriminate; aside_step; try aside_done.
  intros [= <-]. split_and!; [reflexivity|by destruct r|assumption].
Qed.

Lemma lift_aside {S} (f : S -> ManagedTask) r m e : (forall st, runtime_part (f st) = None) -> aside_manager m r ->
  lift_step f r = Some e -> aside m e.
Proof.
  intros Hf Hr. unfold lift_step. destruct r as [[st m']|]; [|discriminate]. intros [= <-].
  split_and!; [apply Hf|reflexivity|]. exact (Hr _ _ eq_refl).
Qed.

(** A section of a managed execution looks to the connection tasks like one of the other
    operations. *)
Lemma managed_step_aside sd tr ch t m e evs : managed_step hash_iter classify_statement sd tr ch t m = Some (e, evs) ->
  runtime_part t = None -> evs = [] /\ aside m e.
Proof.
  unfold managed_step. destruct t as [t|p tab req k st|x st|p tab ex st|d tab ex st|p tab ex id dest st|p tab ex st|st]; intros E Hn;
    [discriminate| | | | | | |]; cbn in E.
  - destruct (start_step _ _ _ _ _ _ _ _ _) as [e'|] eqn:Es; [|discriminate]. injection E as <- <-. split; [done|]. eapply start_step_aside, Es.
  - destruct (lift_step _ _) as [e'|] eqn:Es; [|discriminate]. injection E as <- <-. split; [done|]. eapply lift_aside; [|apply run_step_aside|exact Es]. done.
  - destruct (cancel_step _ _ _ _ _ _) as [e'|] eqn:Es; [|discriminate]. injection E as <- <-. split; [done|]. eapply cancel_step_aside, Es.
  - destruct (lift_step _ _) as [e'|] eqn:Es; [|discriminate]. injection E as <- <-. split; [done|]. eapply lift_aside; [|apply control_step_aside|exact Es]. done.
  - destruct (lift_step _ _) as [e'|] eqn:Es; [|discriminate]. injection E as <- <-. split; [done|]. eapply lift_aside; [|apply save_step_aside|exact Es]. done.
  - destruct (lift_step _ _) as [e'|] eqn:Es; [|discriminate]. injection E as <- <-. split; [done|]. eapply lift_aside; [|apply release_step_aside|exact Es]. done.
  - destruct (lift_step _ _) as [e'|] eqn:Es; [|discriminate]. injection E as <- <-. split; [done|]. eapply lift_aside; [|apply shutdown_step_aside|exact Es]. done.
Qed.

Lemma omap_insert_some (ts : list ManagedTask) (i : nat) t t' : ts !! i = Some (RuntimeTask t) ->
  exists j, omap runtime_part ts !! j = Some t /\ omap runtime_part (<[i := RuntimeTask t']> ts) = <[j := t']> (omap runtime_part ts).
Proof.
  revert i. induction ts as [|u ts IH]; intros [|i]; cbn; try discriminate.
  - intros [= ->]. exists 0. split; reflexivity.
  - intros Hi. destruct (IH i Hi) as (j & Hj & E). destruct (runtime_part u).
    + exists (S j). split; [exact Hj|]. cbn. f_equal. exact E.
    + exists j. split; [exact Hj|exact E].
Qed.

Lemma omap_insert_none (ts : list ManagedTask) (i : nat) t t' : ts !! i = Some t -> runtime_part t = None -> runtime_part t' = None ->
  omap runtime_part (<[i := t']> ts) = omap runtime_part ts.
Proof.
  revert i. induction ts as [|u ts IH]; intros [|i]; cbn; try discriminate.
  - intros [= ->] -> ->. done.
  - intros Hi H1 H2. pose proof (IH i Hi H1 H2) as E. destruct (runtime_part u); [f_equal|]; exact E.
Qed.

Lemma managed_projects store c : managed_reachable hash_iter classify_statement store c -> reachable_from hash_iter store (project c).
Proof.
  induction 1 as [|c c' _ IH Hs]; [apply reach_start|].
  destruct Hs as [m ts tr sd cl t Ht|m ts tr sd cl i t ch e evs Hi Hs]; unfold project in *; cbn in *.
  - rewrite omap_app. destruct t as [t| | | | | | |]; try (cbn; rewrite app_nil_r; exact IH).
    eapply reach_step; [exact IH|]. apply step_call. exact Ht.
  - rewrite omap_app. destruct (runtime_part t) as [t0|] eqn:Et.
    + destruct t; try discriminate. injection Et as ->. unfold managed_step in Hs. destruct ch as [ch| | | | |]; try discriminate.
      destruct (task_step hash_iter tr ch t0 m) as [[[t' m'] evs']|] eqn:Es; [|discriminate]. injection Hs as <- <-. cbn.
      destruct (omap_insert_some ts i t0 t' Hi) as (j & Hj & ->). rewrite app_nil_r.
      eapply reach_step; [exact IH|]. eapply step_run; eassumption.
    + apply managed_step_aside in Hs as [-> (H1 & H2 & H3)]; [|exact Et].
      rewrite (omap_insert_none _ _ _ _ Hi Et H1), H2, app_nil_r. cbn. rewrite H3.
      eapply reach_step; [exact IH|]. apply step_other.
Qed.

(** Managed executions do not disturb the connection tables.  Every interleaving of
    managed executions with connects, disconnects, opened and closed tabs is, for the
    tables and the log, a run of the connection tasks alone in which executions and
    artifacts are changed by others: what is shown of those runs holds here. *)
Theorem managed_runs_refine_runtime_runs store c :
  managed_reachable hash_iter classify_statement store c ->
  reachable_from hash_iter store (mkConfig (ms_manager c) (omap runtime_part (ms_tasks c)) (ms_trace c)).
Proof. apply managed_projects. Qed.
End projection.

(** ** Runs *)

Section executing.
Context {J : JsonNumber} {FS : FileSystem}.
Variable hash_iter : forall A, gmap str A -> list (str * A).
Variable classify_statement : Driver -> str -> IpcResult SqlStatementClass.

Inductive ManagedAction := ManagedCall (t : ManagedTask) | ManagedRun (i : nat) (ch : ManagedChoice).

Definition managed_act (a : ManagedAction) (c : ManagedConfig) : option ManagedConfig :=
  match a with
  | ManagedCall t =>
    if initial_managed_task t
    then Some (mkManagedConfig (ms_manager c) (ms_tasks c ++ [t]) (ms_trace c) (ms_started c) (ms_clobbered c)) else None
  | ManagedRun i ch =>
    t ← ms_tasks c !! i;
    '(e, evs) ← managed_step hash_iter classify_statement (ms_started c) (ms_trace c) ch t (ms_manager c);
    Some (mkManagedConfig (ef_manager e) (<[i := ef_task e]> (ms_tasks c) ++ ef_spawned e) (evs ++ ms_trace c)
      (match ef_started e with Some o => <[o_execution_id o := o]> (ms_started c) | None => ms_started c end)
      (ms_clobbered c || ef_clobbered e))
  end.

Lemma managed_act_step c c' : managed hash_iter classify_statement c c' <-> exists a, managed_act a c = Some c'.
Proof.
  split.
  - intros [m ts tr sd cl t Ht|m ts tr sd cl i t ch e evs Hi Hs].
    + exists (ManagedCall t). cbn. rewrite Ht. reflexivity.
    + exists (ManagedRun i ch). cbn. rewrite Hi. cbn. rewrite Hs. reflexivity.
  - intros [[t|i ch] E]; destruct c as [m ts tr sd cl]; cbn in E.
    + destruct (initial_managed_task t) eqn:Ht; [|discriminate]. injection E as <-. constructor. exact Ht.
    + destruct (ts !! i) as [t|] eqn:Hi; [|discriminate]. cbn in E.
      destruct (managed_step hash_iter classify_statement sd tr ch t m) as [[e evs]|] eqn:Hs; [|discriminate].
      injection E as <-. econstructor; eassumption.
Qed.

Fixpoint managed_run_all (acts : list ManagedAction) (c : ManagedConfig) : option ManagedConfig :=
  match acts with [] => Some c | a :: acts' => c' ← managed_act a c; managed_run_all acts' c' end.

Lemma managed_run_reachable acts store c c' : managed_reachable hash_iter classify_statement store c ->
  managed_run_all acts c = Some c' -> managed_reachable hash_iter classify_statement store c'.
Proof.
  revert c. induction acts as [|a acts IH]; intros c Hc; cbn; [intros [= <-]; exact Hc|].
  destruct (managed_act a c) as [c1|] eqn:Ea; [|discriminate]. apply IH. eapply managed_next; [exact Hc|]. apply managed_act_step. eauto.
Qed.
End executing.

Section witnesses.
#[local] Existing Instance demo_fs.

Abbreviation DemoAction := (ManagedAction (J:=IntegerNumber)).

Definition demo_classify (_ : Driver) (_ : str) : IpcResult SqlStatementClass := Ok ClsRead.
Definition demo_managed_start : ManagedConfig (J:=IntegerNumber) :=
  mkManagedConfig (with_raw_artifact_store demo_store) [] [] ∅ false.
Definition demo_managed (acts : list DemoAction) : ManagedConfig :=
  default demo_managed_start (managed_run_all demo_iter demo_classify acts demo_managed_start).
Definition managed_runs (acts : list DemoAction) : bool :=
  match managed_run_all demo_iter demo_classify acts demo_managed_start with Some _ => true | None => false end.

Lemma demo_managed_reachable acts : managed_runs acts = true ->
  managed_reachable demo_iter demo_classify demo_store (demo_managed acts).
Proof.
  unfold managed_runs, demo_managed. destruct (managed_run_all _ _ _ _) as [c|] eqn:E; [|discriminate]. intros _.
  eapply managed_run_reachable; [apply managed_start|exact E].
Qed.

Definition demo_features : SqlExecutionFeatures := mkSqlExecutionFeatures true AccessDirect true true true true true.
Definition demo_sql_driver : Driver := mkDriver 1 (lit "p") (lit "clickhouse") (Some demo_features) true.
Definition demo_request : StartSqlExecutionRequest :=
  mkStartSqlExecutionRequest (mkSqlExecutionContext None None) (lit "SELECT 1")
    (mkSqlExecutionOptions Raw None 1 100).
Definition locked : ManagedChoice (J:=IntegerNumber) := Locked 0 [].
Definition raw_outcome (id : str) : SqlExecutionOutcome (J:=IntegerNumber) := OutRaw None (lit "text/csv") 2 (lit "1") false id.

(** A tab is opened and a raw execution runs in it to the end. *)
Definition demo_open : list DemoAction :=
  [ManagedCall (RuntimeTask (OpenTabTask (lit "p") (lit "t") CsStart)); ManagedRun 0 (ForRuntime go);
   ManagedRun 0 (ForRuntime (DriverCreated demo_sql_driver)); ManagedRun 0 (ForRuntime go)].
Definition start_raw (i : nat) (ex : str) : list DemoAction :=
  [ManagedCall (StartTask (lit "p") (lit "t") demo_request NoopSqlExecutionEventSink SaStart); ManagedRun i locked;
   ManagedRun i (Registering None ex (lit "q") 5)].
Definition open_raw (i : nat) (artifact : str) : list DemoAction :=
  [ManagedRun i locked; ManagedRun i (Opening [] [artifact])].
Definition run_raw (i : nat) (artifact : str) : list DemoAction :=
  [ManagedRun i locked; ManagedRun i (Executor (WriteChunk [49; 10]%Z) []); ManagedRun i (Executor (FinishArtifact Text) []);
   ManagedRun i (Executor (ExecutorReturns (Ok (raw_outcome artifact))) []); ManagedRun i locked].
Definition demo_raw : list DemoAction := demo_open ++ start_raw 1 (lit "e1") ++ open_raw 1 (lit "a1") ++ run_raw 2 (lit "a1").

Lemma demo_raw_reachable : managed_reachable demo_iter demo_classify demo_store (demo_managed demo_raw).
Proof. apply demo_managed_reachable. vm_compute. reflexivity. Qed.

Definition demo_raw_record : RawArtifactRecord :=
  default demo_record (records (raw_artifacts (ms_manager (demo_managed demo_raw))) !! lit "a1").

Lemma no_orphaned_artifacts_witness :
  records (raw_artifacts (ms_manager (demo_managed demo_raw))) !! lit "a1" = Some demo_raw_record
  /\ ((exists e, executions (sql_executions (ms_manager (demo_managed demo_raw))) !! o_tab_id (owner demo_raw_record) = Some e
        /\ profile_id e = o_profile_id (owner demo_raw_record) /\ execution_id (snapshot e) = o_execution_id (owner demo_raw_record)
        /\ state (snapshot e) = Succeeded /\ outcome (snapshot e) ≫= outcome_artifact = Some (lit "a1"))
      \/ (exists t, t ∈ ms_tasks (demo_managed demo_raw) /\ finished t = false /\ task_accounts t (lit "a1") (owner demo_raw_record))).
Proof.
  assert (E : records (raw_artifacts (ms_manager (demo_managed demo_raw))) !! lit "a1" = Some demo_raw_record) by (vm_compute; reflexivity).
  split; [exact E|].
  exact (no_orphaned_artifacts demo_iter demo_classify demo_iter_perm demo_store (demo_managed demo_raw) (lit "a1") demo_raw_record
    eq_refl eq_refl demo_raw_reachable eq_refl E).
Defined.

Definition demo_execution : Execution :=
  mkExecution (mkRawArtifactOwner (lit "p") (lit "t") (lit "e1")) (lit "q") demo_request ClsRead demo_sql_driver (Some (lit "a1")).

Lemma managed_runs_were_checked_witness :
  sql_statement_count (lit "SELECT 1") = 1 /\ validate_start_sql_execution demo_request = Ok tt.
Proof.
  assert (Hin : RunTask demo_execution RnDone ∈ ms_tasks (demo_managed demo_raw)).
  { apply (list_elem_of_lookup_2 _ 2). reflexivity. }
  destruct (managed_runs_were_checked demo_iter demo_classify demo_store (demo_managed demo_raw) demo_execution RnDone demo_raw_reachable Hin)
    as (H1 & H2 & _). split; [exact H1|exact H2].
Defined.

Lemma managed_runs_refine_runtime_runs_witness :
  let c := demo_managed demo_raw in
  reachable_from demo_iter demo_store (mkConfig (ms_manager c) (omap runtime_part (ms_tasks c)) (ms_trace c)).
Proof. exact (managed_runs_refine_runtime_runs demo_iter demo_classify demo_store (demo_managed demo_raw) demo_raw_reachable). Defined.

(** A start is overtaken between registering its execution and releasing the artifacts of
    its tab: the execution is cancelled, a second one runs in the tab and succeeds, and
    then the first start removes the artifact of the second, which still lists it. *)
Definition demo_overtaken : list DemoAction :=
  demo_open ++ start_raw 1 (lit "e1")
  ++ [ManagedCall (CancelTask (lit "p") (lit "t") (lit "e1") CnStart); ManagedRun 2 locked; ManagedRun 2 locked; ManagedRun 2 locked;
      ManagedRun 3 (CancelAnswered (Ok (Confirmed (lit "killed"))) 6)]
  ++ start_raw 4 (lit "e2") ++ open_raw 4 (lit "a2") ++ run_raw 5 (lit "a2")
  ++ [ManagedRun 1 locked].

Lemma overtaken_start_removes_artifact :
  let c := demo_managed demo_overtaken in
  managed_runs demo_overtaken = true
  /\ ((fun e => (execution_id (snapshot e), state (snapshot e), outcome (snapshot e) ≫= outcome_artifact))
        <$> executions (sql_executions (ms_manager c)) !! lit "t") = Some (lit "e2", Succeeded, Some (lit "a2"))
  /\ records (raw_artifacts (ms_manager c)) !! lit "a2" = None.
Proof. split_and!; vm_compute; reflexivity. Qed.
End witnesses.
